(* ===== verification/_CoqProject ===== *)
-Q . S2P
Prelude.v
Mem.v
Mmu.v
Spinlock.v
Kalloc.v
PageTable.v
Uvm.v
Kvm.v
Lazy.v
FileApi.v
Wunmap.v
Pgfault.v
Pipe.v
Block.v
Bio.v
Log.v
Txn.v
Fs.v
Balloc.v
Inode.v
Icache.v
Path.v
Proc.v
Sched.v
Calls.v
File.v
Mapfile.v
Syscall.v
Sysfile.v
Refs.v
Dir.v
Exec.v
Irefs.v
Print.v
Ulib.v
Sh.v
Shell.v
Grep.v
Console.v
Umalloc.v
Mkfs.v
Ide.v
Kbd.v
Trap.v
Boot.v
Mp.v
Apic.v
Execmem.v
User.v
Ls.v
Uart.v
Segs.v
Asm.v
