(* ===== verification/Prelude.v ===== *)
(** A verification of the xv6 kernel with memory mappings
    ([src/xv6/xv6-public/], 32-bit x86, extended by [wmap], [wunmap], [wremap],
    [getpgdirinfo], [getwmapinfo], lazy allocation and a copy-on-write [fork]).

    * The program and the files

    The kernel's parts, from the bottom up, and the files that model them:

    - machine integers, outcomes of C functions and the monad of kernel code:
      [Prelude];
    - byte-addressed memory and [string.c]: [Mem]; address macros of [mmu.h] and
      [memlayout.h]: [Mmu];
    - [spinlock.c] ([acquire], [release], [pushcli], ...): [Spinlock];
    - the page allocator [kalloc.c]: [Kalloc];
    - page tables and address spaces, [vm.c]: [PageTable] ([walkpgdir],
      [mappages], [clearpteu], [uva2ka]), [Uvm] ([allocuvm], [deallocuvm],
      [freevm]), [Kvm] ([setupkvm], [inituvm], [copyuvm], [forkuvm], [copyout]);
    - the mappings: [Lazy] ([struct lazy], [sys_wmap]), [Wunmap] ([sys_wunmap],
      [sys_wremap] of [sysproc.c] and the unmapping of [exit]), [Pgfault] (the
      page fault case of [trap.c], [sys_getpgdirinfo], [sys_getwmapinfo]), with
      [FileApi], the interface through which they read and write files;
    - pipes, [pipe.c]: [Pipe];
    - the disk stack: [Block] (the interface of the buffer cache), [Bio] ([bio.c],
      [sleeplock.c], [memide.c]), [Log] ([log.c]), [Txn] (transactions and
      crashes on top of [Log]);
    - the file system, [fs.c]: [Fs] (all of its operations), [Balloc] (the block
      allocator), [Inode] (file contents), [Icache] (the inode cache), [Path]
      (path names), [Dir] (directories);
    - processes, [proc.c]: [Proc] (all of its calls), [Sched] (the process table
      under every interleaving of the CPUs), [Calls] (the calls as steps of
      [Sched], the scheduler's order, the list of mappings after [fork]);
    - open files, [file.c]: [File], joined to the mappings of files in [Mapfile];
      system call arguments and dispatch, [syscall.c]: [Syscall]; [sysfile.c]: [Sysfile]; the reference counts of open
      files and of inodes over all of these: [Refs], [Irefs]; program loading,
      [exec.c]: [Exec], and what it does to memory: [Execmem];
    - interrupts: [Trap] ([trap.c] and the process system calls of [sysproc.c]),
      [Segs] (descriptor formats of [mmu.h], [seginit], [tvinit]), [Asm]
      ([swtch.S], [trapasm.S]), [Apic] ([ioapic.c], [picirq.c], [lapic.c]), [Mp]
      ([mp.c]);
    - devices: [Ide] ([ide.c]), [Console] ([console.c] and [uartputc]), [Kbd]
      ([kbd.c]), [Uart] (the rest of [uart.c]), [Print] ([printint], [cprintf]);
    - before the kernel: [Boot] ([bootmain.c]) and [Mkfs] ([mkfs.c]);
    - user programs: [Print] ([printf.c]), [Ulib] ([ulib.c]), [Umalloc]
      ([umalloc.c]), [Sh] (the parser of [sh.c]), [Shell] ([runcmd] and [main] of
      [sh.c]), [Grep] ([grep.c]), [User] ([cat.c], [wc.c], [echo.c]), [Ls]
      ([ls.c]).

    * How the code is modelled

    A C function on a state [S] is an [M S A]: it returns a value and a state
    ([Ok]), calls [panic] ([Panic]), does what C leaves undefined or stops for
    good ([Fault]), or uses up the bound of one of its loops ([NoFuel]).  [uint]
    and [int] are integers with their wrap-around written out ([u32], [s32], ...).
    The memory management code works on one byte-addressed memory that holds the
    free pages, the page tables, the nodes of the mapping lists and the fields of
    [struct proc] that it reaches through pointers; structures are fields at the
    offsets of the source.  The buffers, the log header, the inode cache, the open
    files and the scheduling fields of the process table are records and lists,
    with pointers to their entries as indices (as addresses for processes, which
    serve as channels).  Components are joined by type classes: [Linker] (the
    symbols of [kernel.ld]), [BlockCache] with its specification [CacheSpec] and
    laws [BlockCacheOk] (instantiated by [Bio.bio_ok]), [FileLayer] with
    [FileLayerOk] (which [fileread] of [File] meets, [Mapfile.file_layer_ok]), and [ProcFiles] (what [proc.c] calls of the file system, without
    laws: the theorems about [proc.c] hold for every implementation), and
    [TrapDevices] (the interrupt handlers that [trap] calls).  Counting arguments
    over many calls use [ledger]: a call changes a balance by a known amount and
    keeps an invariant; [Refs], [Irefs], [Shell] and [Uart] are built on it.

    Hardware is a state with the answers that its documentation gives: the ATA
    controller answers after a delay that is a parameter ([Ide], [Boot]), the
    keyboard and the serial port have queues of received bytes, the clock of
    [Apic] is a function of the number of accesses, and [Segs] and [Asm] have the
    parts of the processor that the descriptor tables and the two assembly
    files need.  User programs run on the results of their system calls.

    A lock-protected section is one step.  Where interleaving matters it is
    explicit: the CPUs in [Spinlock] and [Sched], the readers and writers in
    [Pipe], the concurrent system calls and the crashes in [Txn].  Elsewhere a
    call is run by one process alone, and a wait for another process ends in
    [Fault] (a lock that is taken, an empty pipe) or in a result that says so
    ([begin_op]).

    Loops carry a bound only where the recursion is not structural.  The bounds
    are computed from the data, one round per element and one for the final test
    (pages of a range, blocks of the bitmap, entries of a directory, bytes of a
    request, elements of a path); for the lists of mappings, whose length is not
    stored, the bound is an argument and the theorems ask that it exceed the
    length of the list.  The theorems on what a call does state that it returns,
    so no bound is used up in what they cover; the balances of [Refs] and [Irefs]
    and [Execmem.exec_all_or_nothing] speak of every call that returns.

    * What the theorems show

    - Memory: pages are conserved and never handed out twice
      ([Kalloc.kalloc_conserves_pages]); [mappages], [setupkvm], [allocuvm],
      [deallocuvm] and [freevm] change exactly the translations of their ranges
      and give back exactly their frames; growing and shrinking is the identity.
    - Mappings: [sys_wmap] refines a function on lists of regions and finds the
      lowest gap; [sys_wunmap] of a middle region and the fault handler keep the
      invariant of list and address space and do what they should, down to the
      blocks of a mapped file ([Mapfile.pgflt_loads_file]); the functions that
      report mappings report exactly them.
    - Concurrency: mutual exclusion of spinlocks, one access at a time; pipes are first in, first out
      and nobody sleeps on one without reason; the process table is consistent in
      every reachable state, [userinit] makes it so and the calls of [proc.c] keep it
      so ([Calls.proc_calls_refine]), and the scheduler is fair.
    - Disk and files: the buffer cache refines a map from block numbers to
      contents; the driver serves every request in its turn, whatever the delays
      and the errors ([Ide.ide_serves_requests], [Ide.ide_drains]); a group of transactions is
      atomic under crashes, recovery can be interrupted any number of times; the
      block allocator, [readi] and [writei] meet their specifications; paths are
      split correctly and directories are maps ([Dir.directory_is_map]); the
      reference counts of open files and inodes are exact; arguments of system
      calls are checked exactly; [mkfs] builds an image that the kernel reads back.
    - Programs and traps: [exec] replaces the address space or changes nothing
      ([Execmem.exec_all_or_nothing]); a killed process does not return to user
      mode; user mode enters the kernel only through its gates
      ([Segs.gates_protect]); context switches and traps restore the registers of
      the code they interrupt ([Asm]).
    - Devices and start: what is typed reaches the readers ([Console], [Kbd],
      [Uart]); the boot loader loads the kernel; the processors of the tables are
      found; interrupts are routed as asked; the clock is read consistently.
    - User programs: the shell parses exactly its grammar and wires the processes
      of a command as it says; [malloc] and [free] keep the heap; [printf] prints
      numerals that [atoi] reads back; the matcher of [grep] decides its
      expressions; [cat], [wc], [echo] and [ls] print what they should.
    - Flaws, as theorems about what the code does: [fork] shares frames without
      counting them, so the end of a child frees its parent's pages
      ([Kvm.child_freevm_frees_parent]), and shares the nodes of the mapping list
      ([Calls.fork_shares_mappings]); [MAP_FIXED] mappings may overlap
      ([Lazy.wmap_fixed_overlaps]); [sys_wunmap] of the first region leaves a
      dangling [head], of an untouched region it dereferences null; [exit] leaves
      freed frames mapped; an empty node covers every address
      ([Pgfault.pgflt_segv]); [kill(0)] marks a process that does not exist yet;
      [begin_op] admits more blocks than the log holds; a killed writer strands the
      readers of a pipe; [mpinit] never ends on an unknown table entry.

    * What is not modelled

    - assembly that switches the mode of the processor or only wraps one
      instruction ([bootasm.S], [entry.S], [entryother.S], [usys.S],
      [initcode.S]), the vectors that [vectors.pl] generates (a table of addresses
      in [Segs]), and [main.c], which calls the initialisations in order;
    - [kvmalloc], which stores the result of [setupkvm], and [microdelay], which is
      empty;
    - debugging output ([procdump], [getcallerpcs], the messages of [trap]) and
      the lock and [panic] of the console;
    - the programs that hand their arguments to one system call ([kill.c], [ln.c],
      [mkdir.c], [rm.c]), [init.c], [main] of [grep.c], and the tests
      ([usertests.c], [forktest.c], [stressfs.c], [zombie.c]). *)

From Stdlib Require Export ZArith Lia.
From stdpp Require Export base list sets strings.

(** ** Notation scope of the development *)

Declare Scope kernel_scope.
Delimit Scope kernel_scope with kernel.
Open Scope Z_scope.
Open Scope kernel_scope.

(** ** Outcomes and the kernel monad

    A C function that runs on a state [S] and returns an [A] either returns
    ([Ok]), calls [panic] ([Panic], the machine freezes), performs an access
    that C leaves undefined such as a null dereference or an index outside an
    array ([Fault]), or exhausts the iteration bound given to one of its loops
    ([NoFuel]). *)

Inductive outcome (S A : Type) : Type :=
| Ok (a : A) (s : S)
| Panic (msg : string)
| Fault (msg : string)
| NoFuel.
Arguments Ok {S A} a s.
Arguments Panic {S A} msg.
Arguments Fault {S A} msg.
Arguments NoFuel {S A}.

Definition M (S A : Type) : Type := S -> outcome S A.

Definition ret {S A} (a : A) : M S A := fun s => Ok a s.

Definition bind {S A B} (m : M S A) (k : A -> M S B) : M S B :=
  fun s => match m s with
           | Ok a s' => k a s'
           | Panic e => Panic e
           | Fault e => Fault e
           | NoFuel => NoFuel
           end.

Definition panic {S A} (msg : string) : M S A := fun _ => Panic msg.
Definition fault {S A} (msg : string) : M S A := fun _ => Fault msg.
Definition nofuel {S A} : M S A := fun _ => NoFuel.
Definition gets {S A} (f : S -> A) : M S A := fun s => Ok (f s) s.
Definition modify {S} (f : S -> S) : M S unit := fun s => Ok tt (f s).

Notation "x <- m ;; k" := (bind m (fun x => k))
  (at level 100, m at next level, right associativity) : kernel_scope.
Notation "m ;;; k" := (bind m (fun _ => k))
  (at level 100, right associativity) : kernel_scope.

(** A computation on a component of a larger state. *)
Definition zoom {S T A} (get : S -> T) (put : T -> S -> S) (m : M T A) : M S A :=
  fun s => match m (get s) with
           | Ok a t => Ok a (put t s)
           | Panic e => Panic e
           | Fault e => Fault e
           | NoFuel => NoFuel
           end.

(** ** Machine integers

    An [uint] is a [Z] in [0, 2^32); an [int] is a [Z] in [-2^31, 2^31).  The
    conversions write out the wrap-around. *)

Definition two32 : Z := 4294967296.
Definition two31 : Z := 2147483648.
Definition u32 (z : Z) : Z := z mod two32.
Definition s32 (z : Z) : Z := (z + two31) mod two32 - two31.
Definition u16 (z : Z) : Z := z mod 65536.
Definition s16 (z : Z) : Z := (z + 32768) mod 65536 - 32768.
Definition u8 (z : Z) : Z := z mod 256.

(** C truth values. *)
Definition truth (z : Z) : bool := negb (z =? 0).

(** Integer operations stay folded in proofs; witnesses compute with
    [vm_compute]. *)
#[global] Arguments Z.add : simpl never.
#[global] Arguments Z.sub : simpl never.
#[global] Arguments Z.mul : simpl never.
#[global] Arguments Z.div : simpl never.
#[global] Arguments Z.modulo : simpl never.
#[global] Arguments Z.rem : simpl never.
#[global] Arguments Z.land : simpl never.
#[global] Arguments Z.lor : simpl never.
#[global] Arguments Z.lnot : simpl never.
#[global] Arguments Z.shiftl : simpl never.
#[global] Arguments Z.shiftr : simpl never.
#[global] Arguments Z.testbit : simpl never.
#[global] Arguments Z.eqb : simpl never.
#[global] Arguments Z.ltb : simpl never.
#[global] Arguments Z.leb : simpl never.
#[global] Arguments Z.of_nat : simpl never.
#[global] Arguments Z.to_nat : simpl never.
#[global] Arguments u32 : simpl never.
#[global] Arguments s32 : simpl never.
#[global] Arguments u8 : simpl never.
#[global] Arguments truth : simpl never.

(** ** Tactics *)

(** Case analysis on the boolean tests of a goal or a hypothesis, as the
    propositions they decide. *)
Ltac bool_prop :=
  repeat match goal with
  | H : (_ =? _) = true |- _ => apply Z.eqb_eq in H
  | H : (_ =? _) = false |- _ => apply Z.eqb_neq in H
  | H : (_ <? _) = true |- _ => apply Z.ltb_lt in H
  | H : (_ <? _) = false |- _ => apply Z.ltb_ge in H
  | H : (_ <=? _) = true |- _ => apply Z.leb_le in H
  | H : (_ <=? _) = false |- _ => apply Z.leb_gt in H
  | H : (_ && _) = true |- _ => apply andb_prop in H; destruct H
  | H : (_ || _) = false |- _ => apply orb_false_elim in H; destruct H
  | H : negb _ = true |- _ => apply negb_true_iff in H
  | H : negb _ = false |- _ => apply negb_false_iff in H
  end.

(** As [bool_prop], also splitting on disjunctive tests. *)
Ltac bool_split :=
  bool_prop;
  repeat (match goal with
  | H : (_ && _) = false |- _ => apply andb_false_iff in H as [H|H]
  | H : (_ || _) = true |- _ => apply orb_true_iff in H as [H|H]
  end; bool_prop).

Ltac case_bool :=
  match goal with
  | |- context [if ?b then _ else _] =>
      let E := fresh "E" in destruct b eqn:E; bool_prop
  end.

(** Linear arithmetic after unfolding the integer conversions and turning
    divisions into equations. *)
Ltac word_lia :=
  unfold u32, s32, u16, s16, u8, two32, two31 in *;
  Z.to_euclidean_division_equations; lia.

(** ** Lemmas on the monad *)

Lemma bind_ok {S A B} (m : M S A) (k : A -> M S B) s a s' :
  m s = Ok a s' -> bind m k s = k a s'.
Proof. intros H. unfold bind. now rewrite H. Qed.

Lemma bind_inv_ok {S A B} (m : M S A) (k : A -> M S B) s b s2 :
  bind m k s = Ok b s2 -> exists a s1, m s = Ok a s1 /\ k a s1 = Ok b s2.
Proof.
  unfold bind. destruct (m s) eqn:E; intros H; try discriminate. eauto.
Qed.

Lemma bind_ret {S A B} (a : A) (k : A -> M S B) s : bind (ret a) k s = k a s.
Proof. reflexivity. Qed.

Lemma bind_assoc {S A B C} (m : M S A) (k : A -> M S B) (h : B -> M S C) s :
  bind (bind m k) h s = bind m (fun a => bind (k a) h) s.
Proof. unfold bind. now destruct (m s). Qed.

(** ** Balances

    What computations add to quantities of the state, one for each key: [m] keeps
    [inv] and, when it returns [a], adds [d a j] to the balance of [j]. *)

Section Ledger.
Context {S K : Type} (inv : S -> Prop) (bal : S -> K -> Z).

Definition ledger {A} (m : M S A) (d : A -> K -> Z) : Prop :=
  forall s a s', m s = Ok a s' -> inv s -> inv s' /\ forall j, bal s' j = bal s j + d a j.

Lemma ledger_bind {A B} (m : M S A) (k : A -> M S B) d e :
  ledger m d -> (forall a, ledger (k a) (fun b j => e b j - d a j)) -> ledger (bind m k) e.
Proof.
  intros Hm Hk s b s' E T. apply bind_inv_ok in E as (a & s1 & E1 & E2). destruct (Hm _ _ _ E1 T) as [T1 R1].
  destruct (Hk _ _ _ _ E2 T1) as [T2 R2]. split; [exact T2|]. intros j. rewrite R2, R1. lia.
Qed.

Lemma ledger_ext {A} (m : M S A) d e : ledger m d -> (forall a j, d a j = e a j) -> ledger m e.
Proof. intros Hm Hd s a s' E T. destruct (Hm _ _ _ E T) as [T' R]. split; [exact T'|]. intros j. now rewrite R, Hd. Qed.

Lemma ledger_still {A B} (m : M S A) (k : A -> M S B) e :
  ledger m (fun _ _ => 0) -> (forall a, ledger (k a) e) -> ledger (bind m k) e.
Proof. intros Hm Hk. apply (ledger_bind _ _ (fun _ _ => 0)); [exact Hm|]. intros a. apply (ledger_ext _ _ _ (Hk a)). intros; lia. Qed.

Lemma ledger_return {A} (a : A) d : (forall j, d a j = 0) -> ledger (ret a) d.
Proof. intros Hd s b s' E T. injection E as <- <-. split; [exact T|]. intros j. rewrite Hd. lia. Qed.
Lemma ledger_ret {A} (a : A) : ledger (ret a) (fun _ _ => 0).
Proof. now apply ledger_return. Qed.
Lemma ledger_panic {A} msg d : ledger (panic msg : M _ A) d.
Proof. intros s a s' E. discriminate. Qed.
Lemma ledger_fault {A} msg d : ledger (fault msg : M _ A) d.
Proof. intros s a s' E. discriminate. Qed.
Lemma ledger_nofuel {A} d : ledger (nofuel : M _ A) d.
Proof. intros s a s' E. discriminate. Qed.
Lemma ledger_gets {A} (f : S -> A) : ledger (gets f) (fun _ _ => 0).
Proof. intros s b s' E T. injection E as <- <-. split; [exact T|intros; lia]. Qed.

End Ledger.

Create HintDb ledger.
#[export] Hint Resolve ledger_ret ledger_panic ledger_fault ledger_nofuel ledger_gets : ledger.

(** Steps that add nothing, and case analysis. *)
Ltac still :=
  repeat first [solve [auto with ledger]
               |apply ledger_still; [|intros ?]
               |progress cbv zeta
               |match goal with
                | |- ledger _ _ (if ?b then _ else _) _ => destruct b
                | |- ledger _ _ (match ?x with _ => _ end) _ => destruct x
                end
               |apply ledger_gets].

(** ** Lemmas on lists *)

Lemma elem_length_pos {A} (x : A) l : x ∈ l -> (0 < length l)%nat.
Proof. destruct l; [intros H; now apply not_elem_of_nil in H | cbn; lia]. Qed.

Lemma elem_of_rev {A} (x : A) l : x ∈ rev l <-> x ∈ l.
Proof. rewrite !list_elem_of_In. symmetry. apply in_rev. Qed.

Lemma filter_length_all {A} (P : A -> Prop) `{!forall x, Decision (P x)} (l : list A) :
  (forall x, x ∈ l -> P x) -> length (filter P l) = length l.
Proof.
  induction l as [|x l IH]; intros Hall; [reflexivity|].
  rewrite filter_cons, decide_True by (apply Hall, elem_of_cons; auto). cbn. f_equal.
  apply IH. intros y Hy. apply Hall, elem_of_cons. auto.
Qed.

Lemma filter_length_ext {A} (P Q : A -> Prop) `{!forall x, Decision (P x), !forall x, Decision (Q x)} (l : list A) :
  (forall x, x ∈ l -> P x <-> Q x) -> length (filter P l) = length (filter Q l).
Proof.
  induction l as [|x l IH]; intros Hpq; [reflexivity|].
  rewrite !filter_cons.
  destruct (decide (P x)) as [Hp|Hp], (decide (Q x)) as [Hq|Hq]; cbn.
  - f_equal. apply IH. intros y Hy. apply Hpq, elem_of_cons; auto.
  - exfalso. apply Hq, Hpq; [apply elem_of_cons; auto | exact Hp].
  - exfalso. apply Hp, Hpq; [apply elem_of_cons; auto | exact Hq].
  - apply IH. intros y Hy. apply Hpq, elem_of_cons; auto.
Qed.

Lemma filter_length_drop {A} (P Q : A -> Prop) `{!forall x, Decision (P x), !forall x, Decision (Q x)} (l : list A) k :
  NoDup l -> k ∈ l -> P k -> ~ Q k -> (forall x, x ∈ l -> x <> k -> P x <-> Q x) ->
  length (filter P l) = S (length (filter Q l)).
Proof.
  induction l as [|x l IH]; intros Hnd Hk Hp Hq Hpq; [now apply not_elem_of_nil in Hk|].
  inversion Hnd as [|? ? Hx Hnd']; subst. rewrite !filter_cons.
  apply elem_of_cons in Hk as [->|Hk].
  - rewrite decide_True, decide_False by assumption. cbn. f_equal.
    apply filter_length_ext. intros y Hy. apply Hpq; [apply elem_of_cons; auto | congruence].
  - assert (IH' : length (filter P l) = S (length (filter Q l))).
    { apply IH; auto. intros y Hy. apply Hpq, elem_of_cons; auto. }
    assert (Hne : x <> k) by congruence.
    assert (Hpx : P x <-> Q x) by (apply Hpq; [apply elem_of_cons; auto | exact Hne]).
    destruct (decide (P x)), (decide (Q x)); cbn; tauto || lia.
Qed.

Lemma filter_none {A} (P : A -> Prop) `{!forall x, Decision (P x)} (l : list A) :
  (forall x, x ∈ l -> ~ P x) -> filter P l = [].
Proof.
  induction l as [|x l IH]; intros Hn; [reflexivity|].
  rewrite filter_cons, decide_False by (apply Hn, elem_of_cons; auto). apply IH. intros y Hy. apply Hn, elem_of_cons. auto.
Qed.

(** The longest initial part that satisfies a test. *)
Fixpoint take_while {A} (P : A -> bool) (l : list A) : list A :=
  match l with [] => [] | x :: l => if P x then x :: take_while P l else [] end.

(** The first element that satisfies a test. *)
Lemma first_split {A} (P : A -> bool) (l : list A) :
  Forall (fun x => P x = false) l \/
  exists l1 x l2, l = l1 ++ x :: l2 /\ Forall (fun x => P x = false) l1 /\ P x = true.
Proof.
  induction l as [|x l [IH|(l1 & y & l2 & -> & H1 & H2)]]; [left; constructor | |]; destruct (P x) eqn:E.
  - right. exists [], x, l. auto.
  - left. now constructor.
  - right. exists [], x, (l1 ++ y :: l2). auto.
  - right. exists (x :: l1), y, l2. split_and!; auto.
Qed.

(** ** Lemmas on machine integers *)

Lemma u32_small z : 0 <= z < two32 -> u32 z = z.
Proof. intros. unfold u32. now apply Z.mod_small. Qed.

Lemma u32_bound z : 0 <= u32 z < two32.
Proof. apply Z.mod_pos_bound. reflexivity. Qed.

Lemma u32_u32 z : u32 (u32 z) = u32 z.
Proof. apply u32_small, u32_bound. Qed.

Lemma s32_small z : - two31 <= z < two31 -> s32 z = z.
Proof. intros. word_lia. Qed.

Lemma s32_bound z : - two31 <= s32 z < two31.
Proof. word_lia. Qed.

Lemma u32_s32 z : u32 (s32 z) = u32 z.
Proof. word_lia. Qed.

Lemma u8_bound z : 0 <= u8 z < 256.
Proof. apply Z.mod_pos_bound. reflexivity. Qed.

Lemma truth_false z : truth z = false <-> z = 0.
Proof. unfold truth. rewrite negb_false_iff. apply Z.eqb_eq. Qed.

Lemma truth_true z : truth z = true <-> z <> 0.
Proof. unfold truth. rewrite negb_true_iff. apply Z.eqb_neq. Qed.

Lemma u8_small z : 0 <= z < 256 -> u8 z = z.
Proof. intros. now apply Z.mod_small. Qed.

Create HintDb words.
Create Rewrite HintDb words.
#[export] Hint Resolve u32_bound s32_bound u8_bound : words.
#[export] Hint Rewrite u32_u32 u32_s32 : words.
