(* ===== verification/Mem.v ===== *)
(** Byte-addressed memory and the byte-string routines of
    [src/xv6/xv6-public/string.c], with the [rep stos] instructions they use
    from [x86.h].

    A memory maps an address to a byte (a [Z] in [0, 256)).  32-bit loads and
    stores are little-endian.  The theorems give every routine a reference
    meaning: [memset] fills a range whichever of its two store widths it picks,
    [memmove] is a simultaneous copy even when the ranges overlap, and the
    string routines agree with the list of characters they stand for. *)

From S2P Require Import Prelude.

(** ** Memory *)

Definition mem : Type := Z -> Z.

Definition load8 (m : mem) (a : Z) : Z := m a.

Definition store8 (m : mem) (a v : Z) : mem :=
  fun x => if x =? a then u8 v else m x.

Definition load32 (m : mem) (a : Z) : Z :=
  m a + 256 * m (a + 1) + 65536 * m (a + 2) + 16777216 * m (a + 3).

Definition store32 (m : mem) (a v : Z) : mem :=
  fun x => if x =? a then u8 v
           else if x =? a + 1 then u8 (v / 256)
           else if x =? a + 2 then u8 (v / 65536)
           else if x =? a + 3 then u8 (v / 16777216)
           else m x.

(** 16-bit fields. *)
Definition load16 (m : mem) (a : Z) : Z := m a + 256 * m (a + 1).
Definition store16 (m : mem) (a v : Z) : mem := store8 (store8 m a v) (a + 1) (v / 256).

(** All cells hold bytes. *)
Definition mem_ok (m : mem) : Prop := forall a, 0 <= m a < 256.

(** ** x86.h: rep stosb, rep stosl *)

Fixpoint stosb (m : mem) (addr data : Z) (cnt : nat) : mem :=
  match cnt with
  | O => m
  | S cnt' => stosb (store8 m addr data) (addr + 1) data cnt'
  end.

Fixpoint stosl (m : mem) (addr data : Z) (cnt : nat) : mem :=
  match cnt with
  | O => m
  | S cnt' => stosl (store32 m addr data) (addr + 4) data cnt'
  end.

(** ** string.c *)

Definition memset (m : mem) (dst c n : Z) : mem :=
  if (Z.rem (s32 dst) 4 =? 0) && (n mod 4 =? 0)
  then let c := Z.land c 255 in
       stosl m dst (Z.lor (Z.lor (Z.lor (Z.shiftl c 24) (Z.shiftl c 16)) (Z.shiftl c 8)) c)
             (Z.to_nat (n / 4))
  else stosb m dst c (Z.to_nat n).

Fixpoint memcmp (m : mem) (s1 s2 : Z) (n : nat) : Z :=
  match n with
  | O => 0
  | S n' => if negb (m s1 =? m s2) then m s1 - m s2
            else memcmp m (s1 + 1) (s2 + 1) n'
  end.

(** [while(n-- > 0) *--d = *--s;] with [s], [d] already past the end. *)
Fixpoint copy_down (m : mem) (d s : Z) (n : nat) : mem :=
  match n with
  | O => m
  | S n' => copy_down (store8 m (d - 1) (m (s - 1))) (d - 1) (s - 1) n'
  end.

(** [while(n-- > 0) *d++ = *s++;] *)
Fixpoint copy_up (m : mem) (d s : Z) (n : nat) : mem :=
  match n with
  | O => m
  | S n' => copy_up (store8 m d (m s)) (d + 1) (s + 1) n'
  end.

Definition memmove (m : mem) (dst src n : Z) : mem :=
  if (src <? dst) && (dst <? src + n)
  then copy_down m (dst + n) (src + n) (Z.to_nat n)
  else copy_up m dst src (Z.to_nat n).

Fixpoint strncmp (m : mem) (p q : Z) (n : nat) : Z :=
  match n with
  | O => 0
  | S n' => if truth (m p) && (m p =? m q) then strncmp m (p + 1) (q + 1) n'
            else m p - m q
  end.

(** The two loops of [strncpy]; a non-positive [n] copies nothing. *)
Fixpoint strncpy_loop (m : mem) (s t : Z) (n : nat) : mem :=
  match n with
  | O => m
  | S n' => let c := m t in
            let m' := store8 m s c in
            if truth c then strncpy_loop m' (s + 1) (t + 1) n'
            else stosb m' (s + 1) 0 n'
  end.

Definition strncpy (m : mem) (s t n : Z) : mem := strncpy_loop m s t (Z.to_nat n).

(** [while(--n > 0 && ( *s++ = *t++ ) != 0);] with [n] the value after the
    decrement, then the final [*s = 0]. *)
Fixpoint safestrcpy_loop (m : mem) (s t : Z) (n : nat) : mem :=
  match n with
  | O => store8 m s 0
  | S n' => let c := m t in
            let m' := store8 m s c in
            if truth c then safestrcpy_loop m' (s + 1) (t + 1) n'
            else store8 m' (s + 1) 0
  end.

Definition safestrcpy (m : mem) (s t n : Z) : mem :=
  if n <=? 0 then m else safestrcpy_loop m s t (Z.to_nat (n - 1)).

(** [for(n = 0; s[n]; n++);], [None] when no NUL occurs within the bound. *)
Fixpoint strlen_from (m : mem) (s n : Z) (fuel : nat) : option Z :=
  match fuel with
  | O => None
  | S fuel' => if truth (m (s + n)) then strlen_from m s (n + 1) fuel' else Some n
  end.

Definition strlen (m : mem) (s : Z) (fuel : nat) : option Z := strlen_from m s 0 fuel.

(** ** Reference meaning of strings: the characters before the first NUL, at
    most [n] of them *)

Fixpoint cstr (m : mem) (p : Z) (n : nat) : list Z :=
  match n with
  | O => []
  | S n' => if truth (m p) then m p :: cstr m (p + 1) n' else []
  end.

(** The [n] bytes at [p]. *)
Fixpoint bytes (m : mem) (p : Z) (n : nat) : list Z :=
  match n with
  | O => []
  | S n' => m p :: bytes m (p + 1) n'
  end.

(** ** Loads and stores *)

Lemma load8_store8_eq m a v : store8 m a v a = u8 v.
Proof. unfold store8. now rewrite Z.eqb_refl. Qed.

Lemma load8_store8_ne m a v x : x <> a -> store8 m a v x = m x.
Proof. intros H. unfold store8. now rewrite (proj2 (Z.eqb_neq x a)). Qed.

Lemma store32_frame m a v x : x < a \/ a + 4 <= x -> store32 m a v x = m x.
Proof. intros H. unfold store32. repeat case_bool; try lia; reflexivity. Qed.

Lemma load32_store32_eq m a v : load32 (store32 m a v) a = u32 v.
Proof.
  unfold load32, store32.
  repeat (case_bool; try lia). word_lia.
Qed.

Lemma load32_ext m m' a :
  (forall x, a <= x < a + 4 -> m x = m' x) -> load32 m a = load32 m' a.
Proof. intros H. unfold load32. rewrite !H by lia. reflexivity. Qed.

Lemma load32_store32_ne m a b v :
  b + 4 <= a \/ a + 4 <= b -> load32 (store32 m a v) b = load32 m b.
Proof. intros H. apply load32_ext. intros x Hx. apply store32_frame. lia. Qed.

Lemma load32_bound m a : mem_ok m -> 0 <= load32 m a < two32.
Proof.
  intros H. unfold load32, two32.
  pose proof (H a); pose proof (H (a + 1)); pose proof (H (a + 2));
    pose proof (H (a + 3)). lia.
Qed.

Lemma mem_ok_store8 m a v : mem_ok m -> mem_ok (store8 m a v).
Proof. intros H x. unfold store8. case_bool; auto with words. Qed.

Lemma mem_ok_store32 m a v : mem_ok m -> mem_ok (store32 m a v).
Proof. intros H x. unfold store32. repeat case_bool; auto with words. Qed.

#[export] Hint Resolve mem_ok_store8 mem_ok_store32 : words.

(** ** [memset] fills a range *)

Lemma stosb_spec cnt : forall m addr data x,
  stosb m addr data cnt x =
  if (addr <=? x) && (x <? addr + Z.of_nat cnt) then u8 data else m x.
Proof.
  induction cnt as [|cnt IH]; intros m addr data x; cbn [stosb].
  - case_bool; [lia | reflexivity].
  - rewrite IH. unfold store8. repeat case_bool; try reflexivity;
      bool_split; lia.
Qed.

Lemma stosl_spec cnt c : 0 <= c < 256 -> forall m addr x,
  stosl m addr (c * 16843009) cnt x =
  if (addr <=? x) && (x <? addr + 4 * Z.of_nat cnt) then c else m x.
Proof.
  intros Hc. induction cnt as [|cnt IH]; intros m addr x; cbn [stosl].
  - case_bool; [lia | reflexivity].
  - rewrite IH. unfold store32.
    assert (u8 (c * 16843009) = c /\ u8 (c * 16843009 / 256) = c /\
            u8 (c * 16843009 / 65536) = c /\ u8 (c * 16843009 / 16777216) = c)
      as (-> & -> & -> & ->) by (repeat split; word_lia).
    repeat case_bool; try reflexivity;
      bool_split; lia.
Qed.

Definition all_bytes (P : Z -> bool) : bool := forallb (fun n => P (Z.of_nat n)) (seq 0 256).

Lemma all_bytes_spec P c : all_bytes P = true -> 0 <= c < 256 -> P c = true.
Proof.
  unfold all_bytes. intros H Hc. rewrite forallb_forall in H.
  specialize (H (Z.to_nat c)). rewrite Z2Nat.id in H by lia.
  apply H, in_seq. lia.
Qed.

Lemma splat_byte c : 0 <= c < 256 ->
  Z.lor (Z.lor (Z.lor (Z.shiftl c 24) (Z.shiftl c 16)) (Z.shiftl c 8)) c = c * 16843009.
Proof.
  intros Hc.
  apply Z.eqb_eq, (all_bytes_spec (fun c =>
    Z.lor (Z.lor (Z.lor (Z.shiftl c 24) (Z.shiftl c 16)) (Z.shiftl c 8)) c =? c * 16843009));
    [vm_compute; reflexivity | exact Hc].
Qed.

Lemma land_255 c : Z.land c 255 = u8 c.
Proof. change 255 with (Z.ones 8). now rewrite Z.land_ones by lia. Qed.

(** Both store widths of [memset] write the low byte of [c] to every cell of
    the range and touch nothing else. *)
Lemma memset_eq m dst c n x : 0 <= n ->
  memset m dst c n x = if (dst <=? x) && (x <? dst + n) then u8 c else m x.
Proof.
  intros Hn. unfold memset. destruct ((Z.rem (s32 dst) 4 =? 0) && (n mod 4 =? 0)) eqn:E.
  - cbv zeta. rewrite land_255, splat_byte by apply u8_bound.
    rewrite stosl_spec by apply u8_bound.
    bool_prop. replace (4 * Z.of_nat (Z.to_nat (n / 4))) with n; [reflexivity|].
    pose proof (Z.div_mod n 4). pose proof (Z.div_pos n 4). lia.
  - rewrite stosb_spec, Z2Nat.id by lia. reflexivity.
Qed.

Lemma memset_in m dst c n x : dst <= x < dst + n -> memset m dst c n x = u8 c.
Proof.
  intros H. rewrite memset_eq by lia.
  rewrite (proj2 (Z.leb_le _ _)), (proj2 (Z.ltb_lt _ _)) by lia. reflexivity.
Qed.

Lemma memset_out m dst c n x : 0 <= n -> x < dst \/ dst + n <= x -> memset m dst c n x = m x.
Proof.
  intros Hn H. rewrite memset_eq by lia. case_bool; [lia | reflexivity].
Qed.

Lemma mem_ok_memset m dst c n : 0 <= n -> mem_ok m -> mem_ok (memset m dst c n).
Proof. intros Hn H x. rewrite memset_eq by lia. case_bool; auto with words. Qed.

Lemma load32_memset_out m dst c n a : 0 <= n -> a + 4 <= dst \/ dst + n <= a ->
  load32 (memset m dst c n) a = load32 m a.
Proof. intros Hn H. apply load32_ext. intros x Hx. apply memset_out; lia. Qed.

Lemma load32_memset_zero m dst n a : dst <= a -> a + 4 <= dst + n ->
  load32 (memset m dst 0 n) a = 0.
Proof. intros. unfold load32. rewrite !memset_in by lia. reflexivity. Qed.

#[export] Hint Resolve mem_ok_memset : words.

(** ** [memmove] is a simultaneous copy *)

Lemma copy_down_spec n : forall m d s x, mem_ok m -> s <= d ->
  copy_down m d s n x =
  if (d - Z.of_nat n <=? x) && (x <? d) then m (x - d + s) else m x.
Proof.
  induction n as [|n IH]; intros m d s x Hm Hds; cbn [copy_down].
  - case_bool; [lia | reflexivity].
  - rewrite IH by (auto with words; lia).
    assert (Hfr : forall y, y <> d - 1 -> store8 m (d - 1) (m (s - 1)) y = m y)
      by (intros; now apply load8_store8_ne).
    repeat case_bool;
      bool_split; try lia; try (apply Hfr; lia).
    + rewrite Hfr by lia. f_equal. lia.
    + replace x with (d - 1) by lia. rewrite load8_store8_eq, u8_small by apply Hm.
      f_equal. lia.
Qed.

Lemma copy_up_spec n : forall m d s x, mem_ok m -> (d <= s \/ s + Z.of_nat n <= d) ->
  copy_up m d s n x =
  if (d <=? x) && (x <? d + Z.of_nat n) then m (x - d + s) else m x.
Proof.
  induction n as [|n IH]; intros m d s x Hm Hds; cbn [copy_up].
  - case_bool; [lia | reflexivity].
  - rewrite IH by (auto with words; lia).
    assert (Hfr : forall y, y <> d -> store8 m d (m s) y = m y)
      by (intros; now apply load8_store8_ne).
    repeat case_bool;
      bool_split; try lia; try (apply Hfr; lia).
    + rewrite Hfr by lia. f_equal. lia.
    + replace x with d by lia. rewrite load8_store8_eq, u8_small by apply Hm.
      f_equal. lia.
Qed.

Lemma memmove_eq m dst src n x : mem_ok m -> 0 <= n ->
  memmove m dst src n x = if (dst <=? x) && (x <? dst + n) then m (src + (x - dst)) else m x.
Proof.
  intros Hm Hn. unfold memmove. destruct ((src <? dst) && (dst <? src + n)) eqn:E.
  - bool_prop. rewrite copy_down_spec by (auto; lia).
    rewrite Z2Nat.id by lia. replace (dst + n - n) with dst by lia.
    destruct (_ && _); f_equal; lia.
  - apply andb_false_iff in E. rewrite copy_up_spec.
    + rewrite Z2Nat.id by lia. destruct (_ && _); f_equal; lia.
    + exact Hm.
    + rewrite Z2Nat.id by lia. destruct E as [E|E]; bool_prop; lia.
Qed.

Lemma mem_ok_memmove m dst src n : 0 <= n -> mem_ok m -> mem_ok (memmove m dst src n).
Proof. intros Hn H x. rewrite memmove_eq by auto. case_bool; auto. Qed.

#[export] Hint Resolve mem_ok_memmove : words.

(** ** Strings *)

Lemma cstr_ext m m' n : forall p, (forall x, p <= x < p + Z.of_nat n -> m x = m' x) ->
  cstr m p n = cstr m' p n.
Proof.
  induction n as [|n IH]; intros p H; cbn [cstr]; [reflexivity|].
  rewrite (H p) by lia. rewrite (IH (p + 1)); [reflexivity|].
  intros; apply H; lia.
Qed.

Lemma bytes_ext m m' n : forall p, (forall x, p <= x < p + Z.of_nat n -> m x = m' x) ->
  bytes m p n = bytes m' p n.
Proof.
  induction n as [|n IH]; intros p H; cbn [bytes]; [reflexivity|].
  rewrite (H p) by lia. rewrite (IH (p + 1)); [reflexivity|].
  intros; apply H; lia.
Qed.

Lemma bytes_length m n : forall p, length (bytes m p n) = n.
Proof. induction n; intros p; cbn; auto. Qed.

Lemma bytes_lookup m n : forall p i, (i < n)%nat ->
  bytes m p n !! i = Some (m (p + Z.of_nat i)).
Proof.
  induction n as [|n IH]; intros p i Hi; [lia|].
  destruct i as [|i]; cbn [bytes].
  - cbn. do 2 f_equal. lia.
  - change ((m p :: bytes m (p + 1) n) !! S i) with (bytes m (p + 1) n !! i).
    rewrite (IH (p + 1) i) by lia. do 2 f_equal. lia.
Qed.

Lemma cstr_length m n : forall p, (length (cstr m p n) <= n)%nat.
Proof.
  induction n as [|n IH]; intros p; cbn; [lia|].
  destruct (truth (m p)); cbn; [specialize (IH (p + 1)); lia | lia].
Qed.

Lemma cstr_take m k : forall p, cstr m p k = take k (cstr m p (S k)).
Proof.
  induction k as [|k IH]; intros p; [reflexivity|].
  change (cstr m p (S (S k))) with (if truth (m p) then m p :: cstr m (p + 1) (S k) else []).
  cbn [cstr]. destruct (truth (m p)); [|reflexivity]. cbn [take]. f_equal. apply IH.
Qed.

Lemma strncmp_zero m n : forall p q,
  strncmp m p q n = 0 <-> cstr m p n = cstr m q n.
Proof.
  induction n as [|n IH]; intros p q; cbn [strncmp cstr]; [tauto|].
  destruct (truth (m p)) eqn:Ep, (m p =? m q) eqn:E; cbn [andb]; bool_prop.
  - rewrite <- E, Ep, IH. split; [congruence | now intros [=]].
  - split; [lia|]. destruct (truth (m q)); congruence.
  - rewrite <- E, Ep. rewrite truth_false in Ep. split; [reflexivity | lia].
  - rewrite truth_false in Ep. destruct (truth (m q)) eqn:Eq.
    + rewrite truth_true in Eq. split; [lia | discriminate].
    + rewrite truth_false in Eq. lia.
Qed.

Lemma stosb_frame m a d n x : x < a \/ a + Z.of_nat n <= x -> stosb m a d n x = m x.
Proof. intros H. rewrite stosb_spec. case_bool; [lia | reflexivity]. Qed.

Lemma strncpy_frame n : forall m s t x, x < s \/ s + Z.of_nat n <= x ->
  strncpy_loop m s t n x = m x.
Proof.
  induction n as [|n IH]; intros m s t x H; cbn [strncpy_loop]; [reflexivity|].
  cbv zeta. destruct (truth (m t)).
  - rewrite IH by lia. apply load8_store8_ne. lia.
  - rewrite stosb_frame by lia. apply load8_store8_ne. lia.
Qed.

(** The bytes [l] stored at [p]. *)
Definition store_bytes (m : mem) (p : Z) (l : list Z) : mem :=
  fun x => if (p <=? x) && (x <? p + Z.of_nat (length l)) then u8 (nth (Z.to_nat (x - p)) l 0) else m x.

Lemma store_bytes_out m p l x : x < p \/ p + Z.of_nat (length l) <= x -> store_bytes m p l x = m x.
Proof. intros H. unfold store_bytes. destruct (Z.leb_spec p x), (Z.ltb_spec x (p + Z.of_nat (length l))); cbn [andb]; auto; lia. Qed.

Lemma mem_ok_store_bytes m p l : mem_ok m -> mem_ok (store_bytes m p l).
Proof. intros H x. unfold store_bytes. destruct (_ && _); [apply u8_bound | apply H]. Qed.

Lemma bytes_store_bytes m p l : Forall (fun c => 0 <= c < 256) l -> bytes (store_bytes m p l) p (length l) = l.
Proof.
  intros Hl. apply list_eq. intros i. destruct (Nat.lt_ge_cases i (length l)) as [Hi|Hi].
  - rewrite bytes_lookup by exact Hi. destruct (lookup_lt_is_Some_2 l i Hi) as [c Hc]. rewrite Hc. f_equal. unfold store_bytes.
    rewrite (proj2 (Z.leb_le _ _)), (proj2 (Z.ltb_lt _ _)) by lia. cbn [andb]. replace (Z.to_nat (p + Z.of_nat i - p)) with i by lia.
    rewrite (nth_lookup_Some _ _ _ _ Hc). pose proof (Forall_lookup_1 _ _ _ _ Hl Hc) as Hr. cbv beta in Hr. unfold u8. now rewrite Z.mod_small.
  - rewrite !lookup_ge_None_2; auto. now rewrite bytes_length.
Qed.

Lemma bytes_zeros m n : forall p, (forall x, p <= x < p + Z.of_nat n -> m x = 0) ->
  bytes m p n = replicate n 0.
Proof.
  induction n as [|n IH]; intros p H; cbn; [reflexivity|].
  rewrite H by lia. f_equal. apply IH. intros; apply H; lia.
Qed.

Lemma strncpy_bytes n : forall m s t, mem_ok m ->
  s + Z.of_nat n <= t \/ t + Z.of_nat n <= s ->
  bytes (strncpy_loop m s t n) s n =
  cstr m t n ++ replicate (n - length (cstr m t n)) 0.
Proof.
  induction n as [|n IH]; intros m s t Hm Hd; cbn [strncpy_loop bytes cstr]; [reflexivity|].
  cbv zeta. destruct (truth (m t)) eqn:E.
  - rewrite strncpy_frame, load8_store8_eq, u8_small by (lia || apply Hm).
    cbn [app length Nat.sub]. f_equal.
    rewrite IH by (auto with words; lia).
    rewrite (cstr_ext (store8 m s (m t)) m) by (intros; apply load8_store8_ne; lia).
    reflexivity.
  - rewrite truth_false in E. rewrite E.
    rewrite stosb_frame, load8_store8_eq by lia.
    change (S n - length (@nil Z))%nat with (S n). cbn [replicate app]. f_equal.
    apply bytes_zeros. intros x Hx. rewrite stosb_spec. case_bool; [reflexivity|].
    bool_split; lia.
Qed.

Lemma safestrcpy_frame n : forall m s t x, x < s \/ s + Z.of_nat n < x ->
  safestrcpy_loop m s t n x = m x.
Proof.
  induction n as [|n IH]; intros m s t x H; cbn [safestrcpy_loop].
  - apply load8_store8_ne. lia.
  - cbv zeta. destruct (truth (m t)).
    + rewrite IH by lia. apply load8_store8_ne. lia.
    + rewrite !load8_store8_ne by lia. reflexivity.
Qed.

Lemma safestrcpy_cstr n : forall m s t, mem_ok m ->
  s + Z.of_nat n < t \/ t + Z.of_nat n <= s ->
  cstr (safestrcpy_loop m s t n) s (S n) = cstr m t n.
Proof.
  induction n as [|n IH]; intros m s t Hm Hd.
  - cbn. rewrite load8_store8_eq. reflexivity.
  - cbn [safestrcpy_loop]. cbv zeta. rewrite (eq_refl : cstr m t (S n) = if truth (m t) then m t :: cstr m (t + 1) n else []).
    destruct (truth (m t)) eqn:E.
    + change (cstr ?m' s (S (S n))) with
        (if truth (m' s) then m' s :: cstr m' (s + 1) (S n) else []).
      rewrite safestrcpy_frame, load8_store8_eq, u8_small by (lia || apply Hm).
      rewrite E. f_equal. rewrite IH by (auto with words; lia).
      apply cstr_ext. intros; apply load8_store8_ne; lia.
    + cbn [cstr]. rewrite load8_store8_ne by lia. rewrite load8_store8_eq.
      rewrite u8_small by apply Hm. now rewrite E.
Qed.

Lemma strlen_from_spec m s fuel : forall n,
  (length (cstr m (s + n) fuel) < fuel)%nat ->
  strlen_from m s n fuel = Some (n + Z.of_nat (length (cstr m (s + n) fuel))).
Proof.
  induction fuel as [|fuel IH]; intros n H; cbn [strlen_from cstr] in *; [lia|].
  destruct (truth (m (s + n))) eqn:E; cbn [length] in *.
  - replace (s + n + 1) with (s + (n + 1)) in * by lia. rewrite IH by lia. f_equal. lia.
  - f_equal. lia.
Qed.

(** ** Properties *)

(** [memmove] leaves at [dst] the [n] bytes that were at [src], whether or
    not the two regions overlap, and changes no other byte; [memset] fills
    exactly its region. *)
Theorem memmove_memset_exact (m : mem) (dst src c n : Z) : mem_ok m -> 0 <= n ->
  bytes (memmove m dst src n) dst (Z.to_nat n) = bytes m src (Z.to_nat n) /\
  (forall x, x < dst \/ dst + n <= x -> memmove m dst src n x = m x) /\
  (forall x, memset m dst c n x = if (dst <=? x) && (x <? dst + n) then u8 c else m x).
Proof.
  intros Hm Hn. split_and!.
  - apply list_eq. intros i. destruct (Nat.lt_ge_cases i (Z.to_nat n)) as [Hi|Hi].
    + rewrite !bytes_lookup, memmove_eq by auto.
      rewrite (proj2 (Z.leb_le _ _)), (proj2 (Z.ltb_lt _ _)) by lia. cbn [andb]. do 2 f_equal. lia.
    + rewrite !lookup_ge_None_2; rewrite ?bytes_length; auto.
  - intros x Hx. rewrite memmove_eq by auto. case_bool; [lia | reflexivity].
  - intros x. now apply memset_eq.
Qed.

Lemma memmove_memset_exact_witness :
  bytes (memmove (fun a => a mod 256) 3 0 8) 3 8 = [0; 1; 2; 3; 4; 5; 6; 7].
Proof.
  change 8%nat with (Z.to_nat 8).
  rewrite (proj1 (memmove_memset_exact (fun a => a mod 256) 3 0 0 8
    ltac:(intros a; apply Z.mod_pos_bound; lia) ltac:(lia))). reflexivity.
Defined.

(** [safestrcpy] into a buffer of [n > 0] bytes leaves there a
    NUL-terminated copy of at most [n - 1] characters of the source, and
    [strncpy] the source padded with zeros to [n]; neither writes outside the
    buffer, and [strncmp] returns 0 exactly on equal strings. *)
Theorem string_copies (m : mem) (s t : Z) (k : nat) :
  mem_ok m -> s + Z.of_nat k < t \/ t + Z.of_nat k <= s ->
  let m1 := safestrcpy m s t (Z.of_nat k + 1) in
  let m2 := strncpy m s t (Z.of_nat k) in
  cstr m1 s (S k) = cstr m t k /\ strncmp m1 s t k = 0 /\
  bytes m2 s k = cstr m t k ++ replicate (k - length (cstr m t k)) 0 /\
  (forall x, x < s \/ s + Z.of_nat k < x -> m1 x = m x /\ m2 x = m x).
Proof.
  intros Hm Hd m1 m2.
  assert (E1 : m1 = safestrcpy_loop m s t k).
  { unfold m1, safestrcpy. case_bool; [lia|]. f_equal. lia. }
  assert (E2 : m2 = strncpy_loop m s t k) by (unfold m2, strncpy; f_equal; lia).
  rewrite E1, E2. split_and!.
  - now apply safestrcpy_cstr.
  - apply strncmp_zero. rewrite (cstr_ext _ m k t).
    + rewrite cstr_take, (safestrcpy_cstr k) by auto. apply take_ge, cstr_length.
    + intros x Hx. apply safestrcpy_frame. lia.
  - apply strncpy_bytes; [exact Hm | lia].
  - intros x Hx. split; [now apply safestrcpy_frame | apply strncpy_frame; lia].
Qed.

Lemma string_copies_witness :
  cstr (safestrcpy (fun a => if a =? 12 then 0 else 65) 0 10 3) 0 3 = [65; 65].
Proof.
  change 3 with (Z.of_nat 2 + 1).
  rewrite (proj1 (string_copies (fun a => if a =? 12 then 0 else 65) 0 10 2
    ltac:(intros a; destruct (a =? 12); lia) ltac:(lia))). reflexivity.
Defined.
