(* ===== verification/Mmu.v ===== *)
(** The address-space constants and macros of
    [src/xv6/xv6-public/memlayout.h] and [mmu.h]: page rounding, the split of a
    virtual address into page-directory index, page-table index and offset,
    and the fields of a page-table entry.  Each bit-level macro gets its
    arithmetic meaning. *)

From S2P Require Import Prelude.

(** ** memlayout.h *)

Definition EXTMEM : Z := 0x100000.
Definition PHYSTOP : Z := 0xE000000.
Definition DEVSPACE : Z := 0xFE000000.
Definition KERNBASE : Z := 0x80000000.
Definition MMAPBASE : Z := 0x60000000.
Definition KERNLINK : Z := KERNBASE + EXTMEM.

Definition V2P (a : Z) : Z := u32 (a - KERNBASE).
Definition P2V (a : Z) : Z := u32 (a + KERNBASE).

(** ** mmu.h *)

Definition NPDENTRIES : Z := 1024.
Definition NPTENTRIES : Z := 1024.
Definition PGSIZE : Z := 4096.
Definition PTXSHIFT : Z := 12.
Definition PDXSHIFT : Z := 22.

Definition PDX (va : Z) : Z := Z.land (Z.shiftr (u32 va) PDXSHIFT) 0x3FF.
Definition PTX (va : Z) : Z := Z.land (Z.shiftr (u32 va) PTXSHIFT) 0x3FF.
Definition PGADDR (d t o : Z) : Z :=
  u32 (Z.lor (Z.lor (Z.shiftl d PDXSHIFT) (Z.shiftl t PTXSHIFT)) o).

Definition PGROUNDUP (sz : Z) : Z := Z.land (u32 (sz + PGSIZE - 1)) (Z.lnot (PGSIZE - 1)).
Definition PGROUNDDOWN (a : Z) : Z := Z.land (u32 a) (Z.lnot (PGSIZE - 1)).

Definition PTE_P : Z := 0x001.
Definition PTE_W : Z := 0x002.
Definition PTE_U : Z := 0x004.

Definition PTE_ADDR (pte : Z) : Z := Z.land (u32 pte) (Z.lnot 0xFFF).
Definition PTE_FLAGS (pte : Z) : Z := Z.land (u32 pte) 0xFFF.

(** ** Arithmetic meaning of the macros *)

Lemma land_lnot_ones a n : 0 <= n -> Z.land a (Z.lnot (Z.ones n)) = a - a mod 2 ^ n.
Proof.
  intros Hn. rewrite <- Z.ldiff_land, Z.ldiff_ones_r by lia.
  rewrite Z.shiftl_mul_pow2, Z.shiftr_div_pow2 by lia.
  pose proof (Z.div_mod a (2 ^ n)) as H.
  assert (2 ^ n <> 0) by (apply Z.pow_nonzero; lia). specialize (H H0). lia.
Qed.

Lemma PGROUNDDOWN_eq a : PGROUNDDOWN a = u32 a - u32 a mod 4096.
Proof. apply (land_lnot_ones _ 12). lia. Qed.

Lemma PGROUNDUP_eq a : 0 <= a -> a + 4095 < two32 ->
  PGROUNDUP a = (a + 4095) / 4096 * 4096.
Proof.
  intros H0 H. unfold PGROUNDUP, PGSIZE.
  change (Z.lnot (4096 - 1)) with (Z.lnot (Z.ones 12)).
  rewrite land_lnot_ones by lia. change (2 ^ 12) with 4096.
  rewrite u32_small by (unfold two32 in *; lia).
  replace (a + 4096 - 1) with (a + 4095) by lia.
  pose proof (Z.div_mod (a + 4095) 4096). lia.
Qed.

Lemma PGROUNDUP_bound a : 0 <= PGROUNDUP a < two32 /\ PGROUNDUP a mod 4096 = 0.
Proof.
  unfold PGROUNDUP, PGSIZE. change (Z.lnot (4096 - 1)) with (Z.lnot (Z.ones 12)).
  rewrite land_lnot_ones by lia. change (2 ^ 12) with 4096.
  pose proof (u32_bound (a + 4096 - 1)). generalize dependent (u32 (a + 4096 - 1)).
  intros z Hz. unfold two32 in *. word_lia.
Qed.

Lemma PTE_ADDR_eq p : PTE_ADDR p = u32 p - u32 p mod 4096.
Proof. apply (land_lnot_ones _ 12). lia. Qed.

Lemma PTE_FLAGS_eq p : PTE_FLAGS p = u32 p mod 4096.
Proof. unfold PTE_FLAGS. change 0xFFF with (Z.ones 12). now rewrite Z.land_ones by lia. Qed.

Lemma PDX_eq va : PDX va = u32 va / 4194304.
Proof.
  unfold PDX, PDXSHIFT. change 0x3FF with (Z.ones 10).
  rewrite Z.land_ones, Z.shiftr_div_pow2 by lia. change (2 ^ 22) with 4194304.
  change (2 ^ 10) with 1024. pose proof (u32_bound va). unfold two32 in *.
  apply Z.mod_small. split; [apply Z.div_pos; lia | apply Z.div_lt_upper_bound; lia].
Qed.

Lemma PTX_eq va : PTX va = u32 va / 4096 mod 1024.
Proof.
  unfold PTX, PTXSHIFT. change 0x3FF with (Z.ones 10).
  now rewrite Z.land_ones, Z.shiftr_div_pow2 by lia.
Qed.

(** The bits of an aligned base and of a small offset do not meet. *)
Lemma lor_aligned b o n : 0 <= n -> 0 <= o < 2 ^ n -> b mod 2 ^ n = 0 -> Z.lor b o = b + o.
Proof.
  intros Hn Ho Hb. rewrite Z.add_nocarry_lxor, Z.lxor_lor; trivial;
  (apply Z.bits_inj'; intros i Hi; rewrite Z.land_spec, Z.bits_0;
   destruct (Z.lt_ge_cases i n);
   [ replace (Z.testbit b i) with false; [reflexivity|];
     rewrite <- (Z.mod_pow2_bits_low b n i) by lia; rewrite Hb; symmetry; apply Z.bits_0
   | replace (Z.testbit o i) with false; [apply andb_false_r|];
     rewrite <- (Z.mod_small o (2 ^ n)) by lia; symmetry; apply Z.mod_pow2_bits_high; lia ]).
Qed.

Lemma PGADDR_eq d t o : 0 <= d < 1024 -> 0 <= t < 1024 -> 0 <= o < 4096 ->
  PGADDR d t o = d * 4194304 + t * 4096 + o.
Proof.
  intros. unfold PGADDR, PDXSHIFT, PTXSHIFT. rewrite !Z.shiftl_mul_pow2 by lia.
  change (2 ^ 22) with 4194304. change (2 ^ 12) with 4096.
  rewrite (lor_aligned (d * 4194304) (t * 4096) 22); [| lia | change (2 ^ 22) with 4194304; lia
    | change (2 ^ 22) with 4194304; apply Z.mod_mul; lia].
  rewrite (lor_aligned _ o 12); [| lia | change (2 ^ 12) with 4096; lia
    | change (2 ^ 12) with 4096; word_lia].
  apply u32_small. unfold two32. lia.
Qed.

Lemma pte_present p : truth (Z.land p PTE_P) = Z.odd p.
Proof.
  unfold truth, PTE_P. change 1 with (Z.ones 1). rewrite Z.land_ones by lia.
  change (2 ^ 1) with 2. rewrite Zmod_odd. destruct (Z.odd p); reflexivity.
Qed.

(** A page-table entry built from an aligned frame and flags gives both back. *)
Lemma pte_compose pa fl : 0 <= pa < two32 -> pa mod 4096 = 0 -> 0 <= fl < 4096 ->
  PTE_ADDR (Z.lor pa fl) = pa /\ PTE_FLAGS (Z.lor pa fl) = fl.
Proof.
  intros Hb Ha Hf. rewrite (lor_aligned pa fl 12) by (assumption || lia).
  rewrite PTE_ADDR_eq, PTE_FLAGS_eq. rewrite u32_small by (unfold two32 in *; word_lia).
  unfold two32 in *. split; word_lia.
Qed.

Lemma P2V_V2P a : 0 <= a < two32 -> P2V (V2P a) = a.
Proof. intros. unfold P2V, V2P, KERNBASE. word_lia. Qed.

Lemma V2P_P2V a : 0 <= a < two32 -> V2P (P2V a) = a.
Proof. intros. unfold P2V, V2P, KERNBASE. word_lia. Qed.

Lemma u32_land v x : 0 <= v < two32 -> u32 (Z.land v x) = Z.land v x.
Proof.
  intros Hv. unfold u32, two32. change 4294967296 with (2 ^ 32). rewrite <- !Z.land_ones by lia.
  rewrite <- Z.land_assoc, (Z.land_comm x), Z.land_assoc. f_equal.
  rewrite Z.land_ones by lia. now apply Z.mod_small.
Qed.

(** Rebuilding a present entry from its parts without [PTE_W] clears that bit. *)
Lemma pte_clear_w v : 0 <= v < two32 -> Z.odd v = true ->
  u32 (Z.lor (Z.lor (PTE_ADDR v) (Z.land (PTE_FLAGS v) (Z.lnot PTE_W))) PTE_P) = Z.land v (Z.lnot PTE_W).
Proof.
  intros Hv Hodd. rewrite <- Z.bit0_odd in Hodd. unfold PTE_ADDR, PTE_FLAGS.
  rewrite (u32_small v) by exact Hv.
  assert (E : Z.lor (Z.lor (Z.land v (Z.lnot 0xFFF)) (Z.land (Z.land v 0xFFF) (Z.lnot PTE_W))) PTE_P =
              Z.land v (Z.lnot PTE_W)).
  { apply Z.bits_inj'. intros i Hi. change 0xFFF with (Z.ones 12).
    change PTE_W with (2 ^ 1). change PTE_P with (2 ^ 0).
    rewrite !Z.lor_spec, !Z.land_spec, !Z.lnot_spec, Z.testbit_ones_nonneg, !Z.pow2_bits_eqb by lia.
    destruct (Z.testbit v i) eqn:Ei, (Z.ltb_spec i 12), (Z.eqb_spec 0 i), (Z.eqb_spec 1 i);
      subst; try lia; try reflexivity; congruence. }
  rewrite E. now apply u32_land.
Qed.

(** Clearing [PTE_W] keeps the frame and the other flags. *)
Lemma clear_w_keeps v : 0 <= v < two32 ->
  let w := Z.land v (Z.lnot PTE_W) in
  PTE_ADDR w = PTE_ADDR v /\ truth (Z.land w PTE_P) = truth (Z.land v PTE_P) /\
  Z.land w PTE_W = 0 /\ Z.land w PTE_U = Z.land v PTE_U.
Proof.
  intros Hv w. subst w. unfold PTE_ADDR. rewrite u32_land, (u32_small v) by exact Hv.
  rewrite <- !Z.land_assoc. split_and!; f_equal.
  apply Z.land_0_r.
Qed.
