(* ===== verification/Spinlock.v ===== *)
(** Mutual exclusion: [src/xv6/xv6-public/spinlock.c].

    [pushcli]/[popcli] and [acquire]/[release]/[holding] are modelled on the
    state of the calling CPU ([eflags], [ncli], [intena]) and of one lock.  The
    lock alone, as the calling CPU sees it, is [lock_acquire]/[lock_release];
    the components that only need a critical section embed that view, and
    [acquire_refines]/[release_refines] tie it to the full routines.  The debug
    fields [name] and [pcs] of [struct spinlock] and the barrier
    [__sync_synchronize] are not modelled: memory is sequentially consistent
    here.

    The last part runs [acquire] and [release] of several CPUs interleaved, one
    atomic access at a time, and proves mutual exclusion by induction on the
    steps. *)

From S2P Require Import Prelude.

Definition FL_IF : Z := 0x200.

(** The fields of [struct cpu] that locking uses, and the CPU's [eflags]
    register.  [c_id] is the CPU's own address, the result of [mycpu()]. *)
Record cpu := mkCpu { c_id : Z; eflags : Z; ncli : Z; intena : Z }.

Record spinlock := mkLock { lk_locked : Z; lk_cpu : Z }.

Record lkst := mkLkst { st_cpu : cpu; st_lock : spinlock }.

Definition set_eflags (v : Z) (s : lkst) : lkst :=
  let c := st_cpu s in mkLkst (mkCpu (c_id c) v (ncli c) (intena c)) (st_lock s).
Definition set_ncli (v : Z) (s : lkst) : lkst :=
  let c := st_cpu s in mkLkst (mkCpu (c_id c) (eflags c) v (intena c)) (st_lock s).
Definition set_intena (v : Z) (s : lkst) : lkst :=
  let c := st_cpu s in mkLkst (mkCpu (c_id c) (eflags c) (ncli c) v) (st_lock s).
Definition set_lock (l : spinlock) (s : lkst) : lkst := mkLkst (st_cpu s) l.

Definition cli : M lkst unit := modify (fun s => set_eflags (Z.land (eflags (st_cpu s)) (Z.lnot FL_IF)) s).
Definition sti : M lkst unit := modify (fun s => set_eflags (Z.lor (eflags (st_cpu s)) FL_IF) s).
Definition readeflags : M lkst Z := gets (fun s => eflags (st_cpu s)).

(** [mycpu], the CPU's own entry once found by its APIC id. *)
Definition mycpu : M lkst Z :=
  fl <- readeflags ;;
  if truth (Z.land fl FL_IF) then panic "mycpu called with interrupts enabled"
  else gets (fun s => c_id (st_cpu s)).

Definition initlock (s : lkst) : lkst := set_lock (mkLock 0 0) s.

Definition pushcli : M lkst unit :=
  fl <- readeflags ;;
  cli ;;;
  mycpu ;;;
  n <- gets (fun s => ncli (st_cpu s)) ;;
  (if n =? 0 then modify (set_intena (Z.land fl FL_IF)) else ret tt) ;;;
  modify (fun s => set_ncli (ncli (st_cpu s) + 1) s).

Definition popcli : M lkst unit :=
  fl <- readeflags ;;
  if truth (Z.land fl FL_IF) then panic "popcli - interruptible" else
  mycpu ;;;
  modify (fun s => set_ncli (ncli (st_cpu s) - 1) s) ;;;
  n <- gets (fun s => ncli (st_cpu s)) ;;
  if n <? 0 then panic "popcli" else
  ie <- gets (fun s => intena (st_cpu s)) ;;
  if (n =? 0) && truth ie then sti else ret tt.

(** The accesses to [lk->locked] and [lk->cpu]. *)
Definition rd_locked : M lkst Z := gets (fun s => lk_locked (st_lock s)).
Definition rd_owner : M lkst Z := gets (fun s => lk_cpu (st_lock s)).
Definition set_owner : M lkst unit :=
  me <- mycpu ;;
  modify (fun s => set_lock (mkLock (lk_locked (st_lock s)) me) s).
Definition clear_owner : M lkst unit := modify (fun s => set_lock (mkLock (lk_locked (st_lock s)) 0) s).
Definition clear_locked : M lkst unit := modify (fun s => set_lock (mkLock 0 (lk_cpu (st_lock s))) s).
(** [lock->cpu == mycpu()]. *)
Definition owner_is_me : M lkst bool := c <- rd_owner ;; me <- mycpu ;; ret (c =? me).

Definition holding : M lkst bool :=
  pushcli ;;;
  v <- rd_locked ;;
  r <- (if truth v then owner_is_me else ret false) ;;
  popcli ;;;
  ret r.

(** [xchg(&lk->locked, v)]: the old value, atomically replaced. *)
Definition xchg_locked (v : Z) : M lkst Z :=
  old <- gets (fun s => lk_locked (st_lock s)) ;;
  modify (fun s => set_lock (mkLock v (lk_cpu (st_lock s))) s) ;;;
  ret old.

(** [acquire] with [spins] attempts of the [xchg] loop.  Running alone, a CPU
    that finds the lock taken spins forever. *)
Fixpoint spin (spins : nat) : M lkst unit :=
  match spins with
  | O => nofuel
  | S k => old <- xchg_locked 1 ;; if truth old then spin k else ret tt
  end.

Definition acquire (spins : nat) : M lkst unit :=
  pushcli ;;;
  h <- holding ;;
  if (h : bool) then panic "acquire" else
  spin spins ;;;
  set_owner.

Definition release : M lkst unit :=
  h <- holding ;;
  if negb h then panic "release" else
  clear_owner ;;;
  clear_locked ;;;
  popcli.

(** ** The lock as its CPU sees it *)

Definition lock_free : spinlock := mkLock 0 0.

Definition lock_holding (me : Z) (l : spinlock) : bool :=
  truth (lk_locked l) && (lk_cpu l =? me).

Definition lock_acquire (me : Z) (l : spinlock) : outcome spinlock unit :=
  if lock_holding me l then Panic "acquire"
  else if truth (lk_locked l) then NoFuel
  else Ok tt (mkLock 1 me).

Definition lock_release (me : Z) (l : spinlock) : outcome spinlock unit :=
  if negb (lock_holding me l) then Panic "release" else Ok tt lock_free.

(** ** Interrupt state *)

Definition if_on (c : cpu) : bool := truth (Z.land (eflags c) FL_IF).

(** Interrupts are off while a [pushcli] is outstanding. *)
Definition cpu_ok (c : cpu) : Prop := 0 <= ncli c /\ (0 < ncli c -> if_on c = false).

(** The CPU after [pushcli], and after the [popcli] that matches it. *)
Definition cpu_off (c : cpu) : cpu :=
  mkCpu (c_id c) (Z.land (eflags c) (Z.lnot FL_IF)) (ncli c + 1)
        (if ncli c =? 0 then Z.land (eflags c) FL_IF else intena c).

Definition cpu_back (c : cpu) : cpu :=
  mkCpu (c_id c) (eflags c) (ncli c) (if ncli c =? 0 then Z.land (eflags c) FL_IF else intena c).

(** ** Several CPUs, one atomic access at a time

    Where a CPU is: [p_idle]: before [acquire]; [p_check]: in its [holding], the lock
    found taken; [p_spin]: in the [xchg] loop; [p_got]: [xchg] returned 0,
    [lk->cpu] not yet written; [p_crit]: returned from [acquire]; [p_rcheck]: in the
    [holding] of [release], the lock found taken; [p_rel]: [holding] was true;
    [p_clr]: [lk->cpu] cleared, [lk->locked] not yet; [p_panic]: in [panic].  CPU
    [i] has the address [cpu_addr i]. *)
Inductive pc := p_idle | p_check | p_spin | p_got | p_crit | p_rcheck | p_rel | p_clr | p_panic.

(** The next access to the lock that [acquire] or [release] makes, and where the CPU
    is then. *)
Definition access (p : pc) : M lkst pc :=
  match p with
  | p_idle => v <- rd_locked ;; ret (if truth v then p_check else p_spin)
  | p_check => b <- owner_is_me ;; ret (if (b : bool) then p_panic else p_spin)
  | p_spin => old <- xchg_locked 1 ;; ret (if truth old then p_spin else p_got)
  | p_got => set_owner ;;; ret p_crit
  | p_crit => v <- rd_locked ;; ret (if truth v then p_rcheck else p_panic)
  | p_rcheck => b <- owner_is_me ;; ret (if (b : bool) then p_rel else p_panic)
  | p_rel => clear_owner ;;; ret p_clr
  | p_clr => clear_locked ;;; ret p_idle
  | p_panic => panic "acquire or release"
  end.

Record multi := mkMulti { mu_lock : spinlock; mu_pcs : list pc }.

Definition cpu_addr (i : nat) : Z := Z.of_nat i + 1.

(** One CPU makes its next access; its interrupts are off. *)
Inductive step : multi -> multi -> Prop :=
| step_access i c l ps p p' l' : ps !! i = Some p -> c_id c = cpu_addr i -> if_on c = false ->
    access p (mkLkst c l) = Ok p' (mkLkst c l') -> step (mkMulti l ps) (mkMulti l' (<[i := p']> ps)).

Inductive reachable (n : nat) : multi -> Prop :=
| reach_init : reachable n (mkMulti lock_free (replicate n p_idle))
| reach_step s s' : reachable n s -> step s s' -> reachable n s'.

(** CPUs past a successful [xchg] and before the final store of [release]. *)
Definition owns (p : pc) : bool :=
  match p with p_got | p_crit | p_rcheck | p_rel | p_clr => true | _ => false end.

(** What [lk->cpu] holds while the CPU [i] that owns the lock is at [p]. *)
Definition named (i : nat) (p : pc) : Z := match p with p_crit | p_rcheck | p_rel => cpu_addr i | _ => 0 end.

(** The one owner, if any, and what the lock word and [lk->cpu] then hold; no CPU
    panics. *)
Definition multi_inv (s : multi) : Prop :=
  (forall i, mu_pcs s !! i <> Some p_panic) /\
  ((mu_lock s = lock_free /\ forall i p, mu_pcs s !! i = Some p -> owns p = false) \/
   (exists o po, mu_pcs s !! o = Some po /\ owns po = true /\ mu_lock s = mkLock 1 (named o po) /\
      forall i p, mu_pcs s !! i = Some p -> i <> o -> owns p = false)).


Lemma if_off_bits e : truth (Z.land (Z.land e (Z.lnot FL_IF)) FL_IF) = false.
Proof.
  apply negb_false_iff, Z.eqb_eq. rewrite <- Z.land_assoc.
  change (Z.land (Z.lnot FL_IF) FL_IF) with 0. apply Z.land_0_r.
Qed.

Lemma if_restore_bits e : truth (Z.land e FL_IF) = true ->
  Z.lor (Z.land e (Z.lnot FL_IF)) FL_IF = e.
Proof.
  intros H. apply Z.bits_inj'. intros n Hn.
  rewrite Z.lor_spec, Z.land_spec, Z.lnot_spec by lia. change FL_IF with (2 ^ 9) in *.
  destruct (Z.eq_dec n 9) as [->|Hne].
  - rewrite Z.pow2_bits_true by lia. destruct (Z.testbit e 9) eqn:E; [reflexivity|].
    exfalso. clear Hn. unfold truth in H. apply negb_true_iff, Z.eqb_neq in H. apply H.
    apply Z.bits_inj'. intros k Hk. rewrite Z.land_spec, Z.bits_0, Z.pow2_bits_eqb by lia.
    destruct (Z.eq_dec 9 k) as [Hk9|Hk9].
    + rewrite <- Hk9, E. reflexivity.
    + rewrite (proj2 (Z.eqb_neq 9 k)) by exact Hk9. apply andb_false_r.
  - rewrite Z.pow2_bits_false by lia. cbn. now rewrite andb_true_r, orb_false_r.
Qed.

Lemma if_clear_bits e : truth (Z.land e FL_IF) = false -> Z.land e (Z.lnot FL_IF) = e.
Proof.
  intros H. apply negb_false_iff, Z.eqb_eq in H. apply Z.bits_inj'. intros n Hn.
  rewrite Z.land_spec, Z.lnot_spec by lia. change FL_IF with (2 ^ 9) in *.
  destruct (Z.eq_dec n 9) as [->|Hne].
  - rewrite Z.pow2_bits_true by lia. change (negb true) with false. rewrite andb_false_r.
    apply (f_equal (fun z => Z.testbit z 9)) in H.
    rewrite Z.land_spec, Z.pow2_bits_true, andb_true_r, Z.bits_0 in H by lia. now rewrite H.
  - rewrite Z.pow2_bits_false by lia. cbn. apply andb_true_r.
Qed.

Lemma pushcli_spec s : pushcli s = Ok tt (mkLkst (cpu_off (st_cpu s)) (st_lock s)).
Proof.
  destruct s as [[id e n ie] l].
  unfold pushcli, mycpu, readeflags, cli, gets, modify, bind; cbn.
  rewrite if_off_bits. cbn. unfold cpu_off; cbn.
  destruct (n =? 0); cbn; reflexivity.
Qed.

Lemma popcli_spec c l : cpu_ok c ->
  popcli (mkLkst (cpu_off c) l) = Ok tt (mkLkst (cpu_back c) l).
Proof.
  destruct c as [id e n ie]. intros [Hn Hif]. unfold if_on in Hif. cbn in *.
  unfold popcli, mycpu, readeflags, sti, gets, modify, bind, cpu_off, cpu_back; cbn.
  rewrite if_off_bits. cbn. rewrite if_off_bits. unfold set_ncli; cbn.
  replace (n + 1 - 1) with n by lia.
  rewrite (proj2 (Z.ltb_ge n 0)) by lia.
  destruct (Z.eqb_spec n 0) as [->|Hne]; cbn.
  - destruct (truth (Z.land e FL_IF)) eqn:E; cbn.
    + unfold set_eflags; cbn. now rewrite if_restore_bits by exact E.
    + unfold ret. now rewrite if_clear_bits by exact E.
  - unfold ret. rewrite if_clear_bits by (apply Hif; lia). reflexivity.
Qed.

(** ** [acquire] and [release] *)

Lemma cpu_ok_off c : cpu_ok c -> cpu_ok (cpu_off c).
Proof.
  intros [H _]. split; cbn; [lia|]. intros _. apply if_off_bits.
Qed.

Lemma cpu_ok_back c : cpu_ok c -> cpu_ok (cpu_back c).
Proof. exact (fun H => H). Qed.

Lemma cpu_back_off c : cpu_ok c -> cpu_back (cpu_off c) = cpu_off c.
Proof.
  intros [H _]. unfold cpu_back, cpu_off; cbn.
  rewrite (proj2 (Z.eqb_neq (ncli c + 1) 0)) by lia. reflexivity.
Qed.

Lemma owner_is_me_ok c l : if_on c = false -> owner_is_me (mkLkst c l) = Ok (lk_cpu l =? c_id c) (mkLkst c l).
Proof. intros E. unfold if_on in E. unfold owner_is_me, rd_owner, mycpu, readeflags, gets, bind, ret. cbn. now rewrite E. Qed.

Lemma holding_spec c l : cpu_ok c ->
  holding (mkLkst c l) = Ok (lock_holding (c_id c) l) (mkLkst (cpu_back c) l).
Proof.
  intros H. unfold holding, lock_holding. rewrite (bind_ok _ _ _ _ _ (pushcli_spec _)). cbn [st_cpu st_lock].
  rewrite (bind_ok rd_locked _ (mkLkst (cpu_off c) l) (lk_locked l) (mkLkst (cpu_off c) l) eq_refl). destruct (truth (lk_locked l)); cbn [andb].
  - rewrite (bind_ok _ _ _ _ _ (owner_is_me_ok (cpu_off c) l (if_off_bits _))). unfold bind. now rewrite popcli_spec.
  - rewrite bind_ret. unfold bind. now rewrite popcli_spec.
Qed.

Lemma spin_busy k : forall s, truth (lk_locked (st_lock s)) = true -> spin k s = NoFuel.
Proof.
  induction k as [|k IH]; intros s H; [reflexivity|].
  cbn. unfold xchg_locked, gets, modify, bind, ret. cbn. rewrite H. now apply IH.
Qed.

Lemma acquire_refines k c l : cpu_ok c ->
  acquire (S k) (mkLkst c l) =
  match lock_acquire (c_id c) l with
  | Ok _ l' => Ok tt (mkLkst (cpu_off c) l')
  | Panic e => Panic e
  | Fault e => Fault e
  | NoFuel => NoFuel
  end.
Proof.
  intros H. unfold acquire, lock_acquire. rewrite (bind_ok _ _ _ _ _ (pushcli_spec _)). cbn [st_cpu st_lock].
  rewrite (bind_ok _ _ _ _ _ (holding_spec _ _ (cpu_ok_off _ H))).
  rewrite (cpu_back_off _ H). change (c_id (cpu_off c)) with (c_id c).
  destruct (lock_holding (c_id c) l); [reflexivity|].
  destruct (truth (lk_locked l)) eqn:E.
  - unfold bind at 1. rewrite spin_busy by exact E. reflexivity.
  - cbn [spin]. unfold set_owner, xchg_locked, mycpu, readeflags, gets, modify, bind, ret; cbn.
    rewrite E. cbn. rewrite if_off_bits. reflexivity.
Qed.

Lemma release_refines c l : cpu_ok c ->
  release (mkLkst (cpu_off c) l) =
  match lock_release (c_id c) l with
  | Ok _ l' => Ok tt (mkLkst (cpu_back c) l')
  | Panic e => Panic e
  | Fault e => Fault e
  | NoFuel => NoFuel
  end.
Proof.
  intros H. unfold release, lock_release.
  rewrite (bind_ok _ _ _ _ _ (holding_spec _ _ (cpu_ok_off _ H))).
  rewrite (cpu_back_off _ H). change (c_id (cpu_off c)) with (c_id c).
  destruct (lock_holding (c_id c) l); cbn [negb]; [|reflexivity].
  unfold clear_owner, clear_locked. rewrite (bind_ok (modify _) _ _ _ _ eq_refl), (bind_ok (modify _) _ _ _ _ eq_refl).
  unfold set_lock; cbn [st_cpu st_lock]. rewrite popcli_spec by exact H. reflexivity.
Qed.

(** ** Mutual exclusion *)

(** What an access finds and leaves, for a CPU with interrupts off. *)
Lemma access_ok p c l : if_on c = false -> access p (mkLkst c l) =
  let at' q l' := Ok q (mkLkst c l') in
  match p with
  | p_idle => at' (if truth (lk_locked l) then p_check else p_spin) l
  | p_check => at' (if lk_cpu l =? c_id c then p_panic else p_spin) l
  | p_spin => at' (if truth (lk_locked l) then p_spin else p_got) (mkLock 1 (lk_cpu l))
  | p_got => at' p_crit (mkLock (lk_locked l) (c_id c))
  | p_crit => at' (if truth (lk_locked l) then p_rcheck else p_panic) l
  | p_rcheck => at' (if lk_cpu l =? c_id c then p_rel else p_panic) l
  | p_rel => at' p_clr (mkLock (lk_locked l) 0)
  | p_clr => at' p_idle (mkLock 0 (lk_cpu l))
  | p_panic => Panic "acquire or release"
  end.
Proof.
  intros E. destruct p; cbn [access]; try reflexivity; try (unfold bind; now rewrite owner_is_me_ok).
  unfold if_on in E. unfold set_owner, mycpu, readeflags, gets, bind, ret, modify. cbn. now rewrite E.
Qed.

(** A CPU that runs alone and returns from [acquire] has made the accesses from
    [p_idle] to [p_crit]; from [release], those from [p_crit] to [p_idle]. *)
Inductive alone (c : cpu) : pc * spinlock -> pc * spinlock -> Prop :=
| alone_refl x : alone c x x
| alone_step p l p' l' y : access p (mkLkst c l) = Ok p' (mkLkst c l') -> alone c (p', l') y -> alone c (p, l) y.

Lemma acquire_accesses k c l c' l' : cpu_ok c -> acquire (S k) (mkLkst c l) = Ok tt (mkLkst c' l') -> alone c' (p_idle, l) (p_crit, l').
Proof.
  intros Hc E. rewrite acquire_refines in E by exact Hc. unfold lock_acquire in E. destruct (lock_holding _ _) eqn:Eh; [discriminate|]. destruct (truth (lk_locked l)) eqn:El; [discriminate|].
  injection E as <- <-. assert (O : if_on (cpu_off c) = false) by apply if_off_bits. eapply alone_step; [rewrite access_ok by exact O; cbv zeta; rewrite El; reflexivity|].
  eapply alone_step; [rewrite access_ok by exact O; cbv zeta; rewrite El; reflexivity|].
  eapply alone_step; [rewrite access_ok by exact O; reflexivity|]. apply alone_refl.
Qed.

Lemma release_accesses c l c' l' : cpu_ok c -> release (mkLkst (cpu_off c) l) = Ok tt (mkLkst c' l') -> alone (cpu_off c) (p_crit, l) (p_idle, l').
Proof.
  intros Hc E. rewrite release_refines in E by exact Hc. unfold lock_release in E. destruct (lock_holding _ _) eqn:Eh; [|discriminate]. apply andb_prop in Eh as [E1 E2].
  injection E as _ <-. assert (O : if_on (cpu_off c) = false) by apply if_off_bits. eapply alone_step; [rewrite access_ok by exact O; cbv zeta; rewrite E1; reflexivity|].
  eapply alone_step; [rewrite access_ok by exact O; cbv zeta; change (c_id (cpu_off c)) with (c_id c); rewrite E2; reflexivity|].
  eapply alone_step; [rewrite access_ok by exact O; reflexivity|]. eapply alone_step; [rewrite access_ok by exact O; reflexivity|]. apply alone_refl.
Qed.

Lemma multi_inv_init n : multi_inv (mkMulti lock_free (replicate n p_idle)).
Proof.
  split; [|left; split; [reflexivity|]]; cbn.
  - intros i Hp. apply lookup_replicate in Hp as [Hp _]. discriminate.
  - intros i p Hp. now apply lookup_replicate in Hp as [-> _].
Qed.

Lemma multi_inv_owner i p s : multi_inv s -> mu_pcs s !! i = Some p -> owns p = true ->
  mu_lock s = mkLock 1 (named i p) /\ forall j q, mu_pcs s !! j = Some q -> j <> i -> owns q = false.
Proof.
  intros [_ [[_ Hn] | (o & po & Ho & Hpo & Hl & Hothers)]] Hi Hp.
  - now rewrite (Hn _ _ Hi) in Hp.
  - destruct (decide (i = o)) as [->|Hne]; [|now rewrite (Hothers _ _ Hi Hne) in Hp].
    rewrite Ho in Hi. injection Hi as ->. auto.
Qed.

(** The lock does not name a CPU that does not own it. *)
Lemma multi_inv_other i p s : multi_inv s -> mu_pcs s !! i = Some p -> owns p = false -> lk_cpu (mu_lock s) <> cpu_addr i.
Proof.
  unfold cpu_addr. intros [_ [[-> _] | (o & po & Ho & Hpo & -> & _)]] Hi Hp; cbn [lock_free lk_cpu]; [lia|].
  assert (o <> i) by congruence. destruct po; cbn [named]; unfold cpu_addr; lia.
Qed.

Lemma insert_cases (ps : list pc) i p q j : <[i := q]> ps !! j = Some p -> (j = i /\ p = q) \/ (j <> i /\ ps !! j = Some p).
Proof.
  intros H. destruct (decide (i = j)) as [<-|Hne]; [left|right; now rewrite list_lookup_insert_ne in H].
  pose proof (lookup_lt_Some _ _ _ H) as Hl. rewrite length_insert in Hl. rewrite list_lookup_insert_eq in H by exact Hl. split; congruence.
Qed.

(** A CPU that does not own the lock moves on without it. *)
Lemma inv_outside i p p' s : multi_inv s -> mu_pcs s !! i = Some p -> owns p = false -> owns p' = false -> p' <> p_panic ->
  multi_inv (mkMulti (mu_lock s) (<[i := p']> (mu_pcs s))).
Proof.
  intros [Np Hinv] Hi Hp Hp' Hn. split; cbn [mu_pcs mu_lock].
  - intros j Hj. apply insert_cases in Hj as [[_ E]|[_ Hj]]; [congruence | now apply Np in Hj].
  - destruct Hinv as [[Hl Hf] | (o & po & Ho & Hpo & Hl & Hothers)]; [left|right].
    + split; [exact Hl|]. intros j q Hj. apply insert_cases in Hj as [[_ ->]|[_ Hj]]; [exact Hp' | eauto].
    + assert (o <> i) by congruence. exists o, po. rewrite list_lookup_insert_ne by congruence. split_and!; auto.
      intros j q Hj Hne. apply insert_cases in Hj as [[_ ->]|[_ Hj]]; [exact Hp' | eauto].
Qed.

(** The owner moves on, or a CPU becomes the owner. *)
Lemma inv_owner i p' ps : (forall j, ps !! j <> Some p_panic) -> (forall j q, ps !! j = Some q -> j <> i -> owns q = false) -> (i < length ps)%nat -> owns p' = true ->
  multi_inv (mkMulti (mkLock 1 (named i p')) (<[i := p']> ps)).
Proof.
  intros Np Ho Hl Hp'. split; cbn [mu_pcs mu_lock].
  - intros j Hj. apply insert_cases in Hj as [[_ E]|[_ Hj]]; [subst; discriminate | now apply Np in Hj].
  - right. exists i, p'. rewrite list_lookup_insert_eq by exact Hl. split_and!; auto. intros j q Hj Hne. apply insert_cases in Hj as [[? _]|[_ Hj]]; [congruence | eauto].
Qed.

Lemma multi_inv_step s s' : multi_inv s -> step s s' -> multi_inv s'.
Proof.
  intros Hinv Hs. destruct Hs as [i c l ps p p' l' Hi Hc Hoff E]. rewrite access_ok in E by exact Hoff. cbv zeta in E. pose proof (lookup_lt_Some _ _ _ Hi) as Hlt. pose proof (proj1 Hinv) as Np. cbn [mu_pcs] in Np.
  destruct p; try discriminate E; injection E as <- <-; rewrite ?Hc.
  - apply (inv_outside i p_idle _ (mkMulti l ps)); auto; now destruct (truth (lk_locked l)).
  - pose proof (multi_inv_other i p_check _ Hinv Hi eq_refl) as Hne. cbn [mu_lock] in Hne. rewrite (proj2 (Z.eqb_neq _ _)) by exact Hne.
    now apply (inv_outside i p_check p_spin (mkMulti l ps)).
  - destruct (proj2 Hinv) as [[Hl Hn] | (o & po & Ho & Hpo & Hl & Hothers)]; cbn [mu_lock mu_pcs] in *; subst l.
    + apply (inv_owner i p_got); auto. intros j q Hj _. eauto.
    + apply (inv_outside i p_spin p_spin (mkMulti (mkLock 1 (named o po)) ps)); auto.
  - destruct (multi_inv_owner i p_got _ Hinv Hi eq_refl) as [Hl Hothers]. cbn [mu_lock mu_pcs] in *. subst l. now apply (inv_owner i p_crit).
  - destruct (multi_inv_owner i p_crit _ Hinv Hi eq_refl) as [Hl Hothers]. cbn [mu_lock mu_pcs] in *. subst l. now apply (inv_owner i p_rcheck).
  - destruct (multi_inv_owner i p_rcheck _ Hinv Hi eq_refl) as [Hl Hothers]. cbn [mu_lock mu_pcs] in *. subst l. cbn [lk_cpu named]. rewrite Z.eqb_refl. now apply (inv_owner i p_rel).
  - destruct (multi_inv_owner i p_rel _ Hinv Hi eq_refl) as [Hl Hothers]. cbn [mu_lock mu_pcs] in *. subst l. now apply (inv_owner i p_clr).
  - destruct (multi_inv_owner i p_clr _ Hinv Hi eq_refl) as [Hl Hothers]. cbn [mu_lock mu_pcs] in *. subst l. split; cbn [mu_lock mu_pcs lk_cpu named].
    + intros j Hj. apply insert_cases in Hj as [[_ E]|[_ Hj]]; [discriminate | now apply Np in Hj].
    + left. split; [reflexivity|]. intros j q Hj. apply insert_cases in Hj as [[_ ->]|[Hne Hj]]; [reflexivity | eauto].
Qed.

Lemma multi_inv_reachable n s : reachable n s -> multi_inv s.
Proof. induction 1; eauto using multi_inv_init, multi_inv_step. Qed.

(** ** Properties *)

(** C27: Of any number of CPUs running [acquire] and [release] on one lock, with
    their memory accesses interleaved in any order, at most one is past
    [acquire] and not yet out of [release]; while it is in its critical section
    [lk->cpu] names it, so its [release] finds [holding] true, and no CPU ever
    comes to a panic of [acquire] or [release], although [holding] reads the two
    words of the lock one after the other. *)
Theorem spinlock_mutual_exclusion (n : nat) (s : multi) : reachable n s ->
  (forall i j p q, mu_pcs s !! i = Some p -> mu_pcs s !! j = Some q ->
     owns p = true -> owns q = true -> i = j) /\
  (forall i, mu_pcs s !! i = Some p_crit -> lock_holding (cpu_addr i) (mu_lock s) = true) /\
  (truth (lk_locked (mu_lock s)) = false -> forall i p, mu_pcs s !! i = Some p -> owns p = false) /\
  (forall i, mu_pcs s !! i <> Some p_panic).
Proof.
  intros Hr. pose proof (multi_inv_reachable n s Hr) as Hinv. split_and!.
  - intros i j p q Hi Hj Hp Hq. destruct (multi_inv_owner i p s Hinv Hi Hp) as [_ Hother].
    destruct (decide (j = i)) as [->|Hne]; [reflexivity|]. rewrite (Hother j q Hj Hne) in Hq. discriminate.
  - intros i Hi. destruct (multi_inv_owner i p_crit s Hinv Hi eq_refl) as [-> _].
    unfold lock_holding. cbn. apply Z.eqb_refl.
  - intros Hfree i p Hi. destruct (owns p) eqn:Hp; [|reflexivity].
    destruct (multi_inv_owner i p s Hinv Hi Hp) as [Hl _]. rewrite Hl in Hfree. discriminate.
  - apply Hinv.
Qed.

Lemma spinlock_mutual_exclusion_witness :
  lock_holding (cpu_addr 1) (mkLock 1 2) = true.
Proof.
  assert (R : reachable 2 (mkMulti (mkLock 1 2) [p_idle; p_crit])).
  { eapply reach_step; [|apply (step_access 1 (mkCpu 2 0 1 0) (mkLock 1 0) [p_idle; p_got] p_got p_crit); reflexivity].
    eapply reach_step; [|apply (step_access 1 (mkCpu 2 0 1 0) (mkLock 0 0) [p_idle; p_spin] p_spin p_got); reflexivity].
    eapply reach_step; [|apply (step_access 1 (mkCpu 2 0 1 0) (mkLock 0 0) [p_idle; p_idle] p_idle p_spin); reflexivity].
    exact (reach_init 2). }
  exact (proj1 (proj2 (spinlock_mutual_exclusion 2 _ R)) 1%nat eq_refl).
Defined.

(** On a free lock, [acquire] takes it on the first [xchg], with interrupts
    off and [ncli] one deeper; [release] then gives the lock back and restores
    the interrupt flag and the nesting depth of before.  Acquiring a lock this
    CPU holds, or releasing one it does not hold, panics. *)
Theorem acquire_release_restore (k : nat) (c : cpu) (l : spinlock) : cpu_ok c ->
  (truth (lk_locked l) = false ->
     acquire (S k) (mkLkst c l) = Ok tt (mkLkst (cpu_off c) (mkLock 1 (c_id c))) /\
     if_on (cpu_off c) = false /\ ncli (cpu_off c) = ncli c + 1 /\
     (acquire (S k) ;;; release) (mkLkst c l) = Ok tt (mkLkst (cpu_back c) lock_free) /\
     eflags (cpu_back c) = eflags c /\ ncli (cpu_back c) = ncli c) /\
  (lock_holding (c_id c) l = true -> acquire (S k) (mkLkst c l) = Panic "acquire") /\
  (lock_holding (c_id c) l = false -> release (mkLkst (cpu_off c) l) = Panic "release").
Proof.
  intros Hc. split_and!.
  - intros Hl.
    assert (Ha : acquire (S k) (mkLkst c l) = Ok tt (mkLkst (cpu_off c) (mkLock 1 (c_id c)))).
    { rewrite acquire_refines by exact Hc. unfold lock_acquire, lock_holding. now rewrite Hl. }
    split_and!; auto; [apply if_off_bits|].
    rewrite (bind_ok _ _ _ _ _ Ha), release_refines by exact Hc.
    unfold lock_release, lock_holding. cbn. now rewrite Z.eqb_refl.
  - intros Hh. rewrite acquire_refines by exact Hc. unfold lock_acquire. now rewrite Hh.
  - intros Hh. rewrite release_refines by exact Hc. unfold lock_release. now rewrite Hh.
Qed.

Lemma acquire_release_restore_witness :
  (acquire 1 ;;; release) (mkLkst (mkCpu 7 FL_IF 0 0) lock_free) =
  Ok tt (mkLkst (mkCpu 7 FL_IF 0 FL_IF) lock_free).
Proof.
  assert (Hc : cpu_ok (mkCpu 7 FL_IF 0 0)) by (split; cbn; lia).
  destruct (acquire_release_restore 0 (mkCpu 7 FL_IF 0 0) lock_free Hc) as [H _].
  destruct (H eq_refl) as (_ & _ & _ & E & _). exact E.
Defined.
