(* ===== verification/Kalloc.v ===== *)
(** The physical page allocator, [src/xv6/xv6-public/kalloc.c].

    The free list is threaded through the first word of the free pages
    themselves, as in the source: [struct run] is a 32-bit word in memory.  The
    allocator's promise to its clients is [kmem_wf s l]: the list that starts at
    [freelist] is exactly [l], without repetition, and every page of it is a
    page [kfree] accepts.  [kalloc] and [kfree] are then the pop and the push of
    [l], and no page is ever handed out twice. *)

From S2P Require Import Prelude Mem Mmu Spinlock.

(** The symbols that [kernel.ld] provides: the start of the kernel's writable
    data and the first address after the kernel image. *)
Class Linker := { sym_data : Z; sym_end : Z }.

(** [kernel.ld] links the kernel at [KERNLINK], starts the data section on a
    page boundary and lays [end] out after it; the boot page table maps 4 MB. *)
Class LinkerOk `{Linker} : Prop := {
  data_low : KERNLINK < sym_data;
  data_aligned : sym_data mod PGSIZE = 0;
  data_end : sym_data <= sym_end;
  end_high : sym_end <= KERNBASE + 4 * 1024 * 1024 }.

Record kmem := mkKmem {
  km_mem : mem;
  km_freelist : Z;
  km_use_lock : bool;
  km_lock : spinlock;
  km_cpu : Z
}.

Definition set_mem (m : mem) (s : kmem) : kmem :=
  mkKmem m (km_freelist s) (km_use_lock s) (km_lock s) (km_cpu s).
Definition set_freelist (p : Z) (s : kmem) : kmem :=
  mkKmem (km_mem s) p (km_use_lock s) (km_lock s) (km_cpu s).
Definition set_use_lock (b : bool) (s : kmem) : kmem :=
  mkKmem (km_mem s) (km_freelist s) b (km_lock s) (km_cpu s).
Definition set_kmlock (l : spinlock) (s : kmem) : kmem :=
  mkKmem (km_mem s) (km_freelist s) (km_use_lock s) l (km_cpu s).

(** Memory accesses of kernel code, as actions on the allocator's state. *)
Definition rd32 (a : Z) : M kmem Z := gets (fun s => load32 (km_mem s) a).
Definition wr32 (a v : Z) : M kmem unit := modify (fun s => set_mem (store32 (km_mem s) a v) s).
Definition memset_k (dst c n : Z) : M kmem unit :=
  modify (fun s => set_mem (memset (km_mem s) dst c n) s).
Definition memmove_k (dst src n : Z) : M kmem unit :=
  modify (fun s => set_mem (memmove (km_mem s) dst src n) s).

(** [acquire(&kmem.lock)] and [release(&kmem.lock)]. *)
Definition acquire_kmem : M kmem unit :=
  fun s => zoom km_lock set_kmlock (lock_acquire (km_cpu s)) s.
Definition release_kmem : M kmem unit :=
  fun s => zoom km_lock set_kmlock (lock_release (km_cpu s)) s.

Section Kalloc.
Context `{Linker}.

Definition kfree_bad (v : Z) : bool :=
  truth (v mod PGSIZE) || (v <? sym_end) || (PHYSTOP <=? V2P v).

Definition kfree (v : Z) : M kmem unit :=
  if kfree_bad v then panic "kfree" else
  memset_k v 1 PGSIZE ;;;
  ul <- gets km_use_lock ;;
  (if (ul : bool) then acquire_kmem else ret tt) ;;;
  fl <- gets km_freelist ;;
  wr32 v fl ;;;
  modify (set_freelist v) ;;;
  if (ul : bool) then release_kmem else ret tt.

Definition kalloc : M kmem Z :=
  ul <- gets km_use_lock ;;
  (if (ul : bool) then acquire_kmem else ret tt) ;;;
  r <- gets km_freelist ;;
  (if truth r then (nx <- rd32 r ;; modify (set_freelist nx)) else ret tt) ;;;
  (if (ul : bool) then release_kmem else ret tt) ;;;
  ret r.

(** [for(; p + PGSIZE <= vend; p += PGSIZE) kfree(p);] *)
Fixpoint freerange_loop (fuel : nat) (p vend : Z) : M kmem unit :=
  match fuel with
  | O => nofuel
  | S k => if u32 (p + PGSIZE) <=? vend
           then kfree p ;;; freerange_loop k (u32 (p + PGSIZE)) vend
           else ret tt
  end.

Definition freerange (vstart vend : Z) : M kmem unit :=
  let p := PGROUNDUP vstart in
  freerange_loop (Z.to_nat (Z.max 0 ((vend - p) / PGSIZE) + 1)) p vend.

Definition kinit1 (vstart vend : Z) : M kmem unit :=
  modify (set_kmlock lock_free) ;;;
  modify (set_use_lock false) ;;;
  freerange vstart vend.

Definition kinit2 (vstart vend : Z) : M kmem unit :=
  freerange vstart vend ;;;
  modify (set_use_lock true).

(** ** What the allocator promises *)

(** A page that [kfree] accepts. *)
Definition page_ok (v : Z) : Prop :=
  v mod 4096 = 0 /\ sym_end <= v /\ v < KERNBASE + PHYSTOP.

(** The list of pages threaded from [p]. *)
Fixpoint chain (m : mem) (p : Z) (l : list Z) : Prop :=
  match l with
  | [] => p = 0
  | x :: l' => p = x /\ chain m (load32 m x) l'
  end.

Definition kmem_wf (s : kmem) (l : list Z) : Prop :=
  chain (km_mem s) (km_freelist s) l /\ NoDup l /\ Forall page_ok l /\
  km_lock s = lock_free /\ mem_ok (km_mem s).

(** The [n] pages from [p] on. *)
Fixpoint pages_from (p : Z) (n : nat) : list Z :=
  match n with O => [] | S k => p :: pages_from (p + 4096) k end.

(** A client's use of the allocator: the pages it holds, one call at a time. *)
Inductive kstep : kmem * list Z -> kmem * list Z -> Prop :=
| kstep_alloc s s' p held : kalloc s = Ok p s' -> p <> 0 -> kstep (s, held) (s', p :: held)
| kstep_none s s' held : kalloc s = Ok 0 s' -> kstep (s, held) (s', held)
| kstep_free s s' v before after : kfree v s = Ok tt s' ->
    kstep (s, before ++ v :: after) (s', before ++ after).

Inductive ksteps : kmem * list Z -> kmem * list Z -> Prop :=
| ksteps_refl c : ksteps c c
| ksteps_cons c1 c2 c3 : kstep c1 c2 -> ksteps c2 c3 -> ksteps c1 c3.

(** ** Lemmas *)

Context `{!LinkerOk}.

Lemma end_kernel : KERNBASE < sym_end.
Proof.
  pose proof data_low. pose proof data_end. unfold KERNLINK, EXTMEM in *. lia.
Qed.

Lemma page_ok_bounds v : page_ok v -> KERNBASE < v /\ v + 4096 <= KERNBASE + PHYSTOP.
Proof.
  intros (Ha & Hl & Hh). pose proof end_kernel. split; [lia|].
  unfold KERNBASE, PHYSTOP in *. word_lia.
Qed.

Lemma page_ok_nonzero v : page_ok v -> v <> 0.
Proof. intros Hv%page_ok_bounds. unfold KERNBASE in *. lia. Qed.

Lemma page_ok_u32 v : page_ok v -> 0 <= v < two32.
Proof. intros Hv%page_ok_bounds. unfold KERNBASE, PHYSTOP, two32 in *. lia. Qed.

(** Distinct pages do not overlap. *)
Lemma page_disjoint a b : page_ok a -> page_ok b -> a <> b -> a + 4096 <= b \/ b + 4096 <= a.
Proof. intros (Ha & _) (Hb & _) Hne. word_lia. Qed.

Lemma V2P_page v : page_ok v -> V2P v = v - KERNBASE.
Proof.
  intros Hv%page_ok_bounds. unfold V2P. apply u32_small.
  unfold KERNBASE, PHYSTOP, two32 in *. lia.
Qed.

Lemma kfree_bad_spec v : 0 <= v < two32 -> kfree_bad v = false <-> page_ok v.
Proof.
  intros Hv. unfold kfree_bad. rewrite !orb_false_iff, truth_false, Z.ltb_ge, Z.leb_gt.
  pose proof end_kernel. unfold page_ok, PGSIZE, V2P. unfold KERNBASE, PHYSTOP in *.
  split.
  - intros [[Ha Hl] Hh]. repeat split; try lia. word_lia.
  - intros (Ha & Hl & Hh). repeat split; try lia. word_lia.
Qed.

Lemma chain_ext m m' l : forall p,
  Forall (fun x => load32 m x = load32 m' x) l -> chain m p l -> chain m' p l.
Proof.
  induction l as [|x l IH]; intros p Hl Hc; cbn in *; [exact Hc|].
  inversion Hl; subst. destruct Hc as [-> Hc]. split; [reflexivity|].
  apply IH; congruence.
Qed.

(** Changing memory outside the free pages keeps the free list. *)
Lemma kmem_wf_set_mem s l m : kmem_wf s l -> mem_ok m ->
  (forall p x, p ∈ l -> p <= x < p + 4096 -> m x = km_mem s x) ->
  kmem_wf (set_mem m s) l.
Proof.
  intros (Hc & Hnd & Hok & Hlk & _) Hm Hfr. split_and!; cbn; auto.
  eapply chain_ext, Hc. apply Forall_forall. intros x Hx.
  apply load32_ext. intros y Hy. symmetry. apply (Hfr x); [exact Hx | lia].
Qed.

Lemma kmem_wf_locked s l (b : bool) : kmem_wf s l ->
  exists s1, (if b then acquire_kmem else ret tt) s = Ok tt s1 /\
    km_mem s1 = km_mem s /\ km_freelist s1 = km_freelist s /\
    forall m f, (if b then release_kmem else ret tt) (set_freelist f (set_mem m s1)) =
                Ok tt (set_freelist f (set_mem m s)).
Proof.
  intros (_ & _ & _ & Hlk & _). destruct s as [mm fl ul lk me]; cbn in *. subst lk.
  destruct b.
  - exists (mkKmem mm fl ul (mkLock 1 me) me). repeat split; cbn.
    intros m f. unfold release_kmem, zoom, lock_release, lock_holding; cbn.
    rewrite Z.eqb_refl. reflexivity.
  - exists (mkKmem mm fl ul lock_free me). repeat split; reflexivity.
Qed.

Lemma kmem_same s m f : km_mem s = m -> km_freelist s = f -> set_freelist f (set_mem m s) = s.
Proof. intros <- <-. now destruct s. Qed.

Lemma set_mem_same s m : km_mem s = m -> set_mem m s = s.
Proof. intros <-. now destruct s. Qed.

Lemma kalloc_empty s : kmem_wf s [] -> kalloc s = Ok 0 s.
Proof.
  intros Hwf. destruct (kmem_wf_locked s [] (km_use_lock s) Hwf) as (s1 & Ha & Hm & Hf & Hr).
  destruct Hwf as (Hc & _). cbn in Hc.
  unfold kalloc. rewrite (bind_ok _ _ _ _ _ (eq_refl : gets km_use_lock s = _)).
  rewrite (bind_ok _ _ _ _ _ Ha), (bind_ok _ _ _ _ _ (eq_refl : gets km_freelist s1 = _)).
  rewrite Hf, Hc. cbn [truth negb]. change (truth 0) with false. cbv iota.
  rewrite (bind_ok _ _ _ _ _ (eq_refl : ret tt s1 = _)).
  specialize (Hr (km_mem s) (km_freelist s)).
  rewrite (kmem_same s1), (kmem_same s) in Hr by assumption || reflexivity.
  rewrite (bind_ok _ _ _ _ _ Hr). reflexivity.
Qed.

Lemma kalloc_pop s p l : kmem_wf s (p :: l) ->
  kalloc s = Ok p (set_freelist (load32 (km_mem s) p) s) /\
  kmem_wf (set_freelist (load32 (km_mem s) p) s) l.
Proof.
  intros Hwf. destruct (kmem_wf_locked s _ (km_use_lock s) Hwf) as (s1 & Ha & Hm & Hf & Hr).
  destruct Hwf as ((Hp & Hc) & Hnd & Hok & Hlk & Hmem). split.
  - unfold kalloc. rewrite (bind_ok _ _ _ _ _ (eq_refl : gets km_use_lock s = _)).
    rewrite (bind_ok _ _ _ _ _ Ha), (bind_ok _ _ _ _ _ (eq_refl : gets km_freelist s1 = _)).
    rewrite Hf, Hp. inversion Hok; subst.
    rewrite (proj2 (truth_true _)) by (apply page_ok_nonzero; congruence).
    rewrite bind_assoc, (bind_ok _ _ _ _ _ (eq_refl : rd32 _ s1 = _)), Hm.
    rewrite (bind_ok _ _ _ _ _ (eq_refl : modify _ s1 = _)).
    specialize (Hr (km_mem s) (load32 (km_mem s) (km_freelist s))).
    rewrite (set_mem_same s1), (set_mem_same s) in Hr by assumption || reflexivity.
    rewrite (bind_ok _ _ _ _ _ Hr). reflexivity.
  - inversion Hnd; subst. inversion Hok; subst. split_and!; auto.
Qed.

(** The memory after [kfree v]: junk in the page, then the link. *)
Definition freed_mem (s : kmem) (v : Z) : mem :=
  store32 (memset (km_mem s) v 1 PGSIZE) v (km_freelist s).

Lemma freed_mem_out s v x : x < v \/ v + 4096 <= x -> freed_mem s v x = km_mem s x.
Proof.
  intros Hx. unfold freed_mem. rewrite store32_frame by lia.
  apply memset_out; unfold PGSIZE; lia.
Qed.

Lemma kfree_push s v l : kmem_wf s l -> page_ok v -> v ∉ l ->
  kfree v s = Ok tt (set_freelist v (set_mem (freed_mem s v) s)) /\
  kmem_wf (set_freelist v (set_mem (freed_mem s v) s)) (v :: l).
Proof.
  intros Hwf Hv Hni.
  assert (Hbad : kfree_bad v = false) by (apply kfree_bad_spec; auto using page_ok_u32).
  assert (Hwf1 : kmem_wf (set_mem (memset (km_mem s) v 1 PGSIZE) s) l).
  { apply kmem_wf_set_mem; [exact Hwf | apply mem_ok_memset; [unfold PGSIZE; lia | apply Hwf] |].
    intros p x Hp Hx. apply memset_out; [unfold PGSIZE; lia|].
    destruct Hwf as (_ & _ & Hok & _). rewrite Forall_forall in Hok.
    assert (v <> p) by congruence. pose proof (page_disjoint v p Hv (Hok p Hp)).
    unfold PGSIZE. lia. }
  split.
  - unfold kfree. rewrite Hbad. unfold memset_k.
    rewrite (bind_ok _ _ _ _ _ (eq_refl : modify _ s = _)).
    set (s0 := set_mem (memset (km_mem s) v 1 PGSIZE) s) in *.
    rewrite (bind_ok _ _ _ _ _ (eq_refl : gets km_use_lock s0 = _)).
    destruct (kmem_wf_locked s0 l (km_use_lock s0) Hwf1) as (s1 & Ha & Hm & Hf & Hr).
    rewrite (bind_ok _ _ _ _ _ Ha), (bind_ok _ _ _ _ _ (eq_refl : gets km_freelist s1 = _)).
    rewrite Hf. unfold wr32.
    rewrite (bind_ok _ _ _ _ _ (eq_refl : modify _ s1 = _)),
      (bind_ok _ _ _ _ _ (eq_refl : modify _ (set_mem _ s1) = _)).
    rewrite Hr, Hm. reflexivity.
  - destruct Hwf as (Hc & Hnd & Hok & Hlk & Hmem). split_and!; cbn.
    + split; [reflexivity|]. eapply chain_ext; [| replace (load32 (freed_mem s v) v) with (km_freelist s); [exact Hc|]].
      * apply Forall_forall. intros x Hx. symmetry. apply load32_ext. intros y Hy.
        apply freed_mem_out. rewrite Forall_forall in Hok.
        assert (v <> x) by congruence. pose proof (page_disjoint v x Hv (Hok x Hx)). lia.
      * unfold freed_mem. rewrite load32_store32_eq, u32_small; [reflexivity|].
        destruct l as [|y l]; cbn in Hc; [rewrite Hc; unfold two32; lia|].
        destruct Hc as [-> _]. apply page_ok_u32. now inversion Hok.
    + now constructor.
    + now constructor.
    + exact Hlk.
    + apply mem_ok_store32, mem_ok_memset; [unfold PGSIZE; lia | exact Hmem].
Qed.

Lemma kstep_conserves c c' l : kstep c c' -> kmem_wf c.1 l -> NoDup (l ++ c.2) ->
  Forall page_ok c.2 ->
  exists l', kmem_wf c'.1 l' /\ l' ++ c'.2 ≡ₚ l ++ c.2 /\ Forall page_ok c'.2.
Proof.
  intros Hs Hwf Hnd Hok. destruct Hs as [s s' p held Ha Hp | s s' held Ha | s s' v before after Hf]; cbn [fst snd] in *.
  - destruct l as [|q l]; [rewrite (kalloc_empty s Hwf) in Ha; congruence|].
    assert (page_ok q) by (destruct Hwf as (_ & _ & Hl & _); now inversion Hl).
    destruct (kalloc_pop s q l Hwf) as [Ha' Hwf']. rewrite Ha in Ha'. injection Ha' as -> ->.
    exists l. split_and!; [exact Hwf' | cbn; now rewrite Permutation_middle | now constructor].
  - destruct l as [|q l].
    + rewrite (kalloc_empty s Hwf) in Ha. injection Ha as <-. eauto.
    + destruct (kalloc_pop s q l Hwf) as [Ha' _]. rewrite Ha in Ha'. injection Ha' as <- _.
      destruct Hwf as (_ & _ & Hl & _). inversion Hl; subst.
      exfalso. eapply page_ok_nonzero; eauto.
  - apply Forall_app in Hok as [Hb Hva]. inversion Hva as [|? ? Hv Hafter]; subst.
    assert (v ∉ l).
    { intros Hin. apply NoDup_app in Hnd as (_ & Hd & _). apply (Hd v Hin). set_solver. }
    destruct (kfree_push s v l Hwf Hv H1) as [Hf' Hwf']. rewrite Hf in Hf'. injection Hf' as ->.
    exists (v :: l). split_and!; [exact Hwf' | | now apply Forall_app].
    cbn. rewrite <- !Permutation_middle. reflexivity.
Qed.

Lemma ksteps_conserve c c' : ksteps c c' -> forall l, kmem_wf c.1 l -> NoDup (l ++ c.2) ->
  Forall page_ok c.2 ->
  exists l', kmem_wf c'.1 l' /\ l' ++ c'.2 ≡ₚ l ++ c.2 /\ Forall page_ok c'.2.
Proof.
  induction 1 as [c | c1 c2 c3 H1 _ IH]; intros l Hwf Hnd Hok; [eauto|].
  destruct (kstep_conserves _ _ _ H1 Hwf Hnd Hok) as (l1 & Hwf1 & Hp1 & Hok1).
  destruct (IH l1 Hwf1) as (l2 & Hwf2 & Hp2 & Hok2); [now rewrite Hp1 | exact Hok1 |].
  exists l2. rewrite Hp2. auto.
Qed.

Lemma pages_from_elem n : forall p v, v ∈ pages_from p n -> p <= v < p + 4096 * Z.of_nat n /\ (v - p) mod 4096 = 0.
Proof.
  induction n as [|n IH]; intros p v Hv; cbn in Hv; [now apply not_elem_of_nil in Hv|].
  apply elem_of_cons in Hv as [->|Hv].
  - split; [lia|]. now rewrite Z.sub_diag.
  - apply IH in Hv as [Hb Hm]. split; [lia|]. word_lia.
Qed.

Lemma pages_from_intro n : forall p v, p <= v < p + 4096 * Z.of_nat n -> (v - p) mod 4096 = 0 ->
  v ∈ pages_from p n.
Proof.
  induction n as [|n IH]; intros p v Hv Ha; cbn; [lia|]. apply elem_of_cons.
  destruct (Z.eq_dec v p) as [->|Hne]; [now left|]. right. apply IH; word_lia.
Qed.

Lemma freerange_loop_spec n : forall fuel s p vend l, (n < fuel)%nat ->
  kmem_wf s l -> p mod 4096 = 0 -> sym_end <= p -> vend <= KERNBASE + PHYSTOP ->
  Z.of_nat n = Z.max 0 ((vend - p) / 4096) -> p < two32 - 4096 ->
  (forall v, v ∈ l -> ~ (p <= v < vend)) ->
  exists s', freerange_loop fuel p vend s = Ok tt s' /\
    kmem_wf s' (rev (pages_from p n) ++ l) /\ km_use_lock s' = km_use_lock s.
Proof.
  induction n as [|n IH]; intros fuel s p vend l Hfuel Hwf Ha Hl Hh Hn Hp Hd;
    (destruct fuel as [|fuel]; [lia|]); cbn [freerange_loop]; unfold PGSIZE;
    pose proof end_kernel; unfold KERNBASE, PHYSTOP, two32 in *;
    rewrite u32_small by (unfold two32; lia).
  - rewrite (proj2 (Z.leb_gt _ _)) by word_lia. exists s. auto.
  - assert (Hle : p + 4096 <= vend) by word_lia.
    rewrite (proj2 (Z.leb_le _ _)) by exact Hle.
    assert (Hpok : page_ok p) by (unfold page_ok, KERNBASE, PHYSTOP; lia).
    assert (Hni : p ∉ l) by (intros Hin; apply (Hd p Hin); lia).
    destruct (kfree_push s p l Hwf Hpok Hni) as [Hf Hwf'].
    rewrite (bind_ok _ _ _ _ _ Hf).
    edestruct (IH fuel _ (p + 4096) vend (p :: l) ltac:(lia) Hwf') as (s' & Hs' & Hwf'' & Hul);
      try lia; [word_lia | word_lia | | exists s'; split_and!; [exact Hs' | | exact Hul]].
    + intros v [->|Hv]%elem_of_cons; [lia|]. specialize (Hd v Hv). lia.
    + cbn [pages_from rev]. rewrite <- app_assoc. exact Hwf''.
Qed.

Lemma freerange_spec s vstart vend l :
  kmem_wf s l -> sym_end <= vstart -> vend <= KERNBASE + PHYSTOP -> vstart <= KERNBASE + PHYSTOP ->
  (forall v, v ∈ l -> ~ (PGROUNDUP vstart <= v < vend)) ->
  exists s', freerange vstart vend s = Ok tt s' /\ km_use_lock s' = km_use_lock s /\
    kmem_wf s' (rev (pages_from (PGROUNDUP vstart) (Z.to_nat ((vend - PGROUNDUP vstart) / 4096))) ++ l).
Proof.
  intros Hwf Hs He Hse Hd. unfold freerange. cbv zeta. unfold PGSIZE.
  pose proof end_kernel. unfold KERNBASE, PHYSTOP in *.
  rewrite PGROUNDUP_eq in * by (unfold two32; lia).
  set (p := (vstart + 4095) / 4096 * 4096) in *.
  destruct (freerange_loop_spec (Z.to_nat ((vend - p) / 4096)) (Z.to_nat (Z.max 0 ((vend - p) / 4096) + 1))
              s p vend l) as (s' & Hs' & Hwf' & Hul);
    auto; try lia; subst p; unfold KERNBASE, PHYSTOP, two32; try lia; try word_lia.
  eauto.
Qed.

End Kalloc.

(** ** Properties *)

(** A kernel image that [kernel.ld] could produce. *)
Definition sample_linker : Linker := {| sym_data := 0x80108000; sym_end := 0x80115000 |}.

Lemma sample_linker_ok : @LinkerOk sample_linker.
Proof. constructor; cbn; unfold KERNLINK, KERNBASE, EXTMEM, PGSIZE; (lia || reflexivity). Qed.

(** A machine whose memory is zero and whose free list starts at [p]. *)
Definition sample_kmem (p : Z) : kmem := mkKmem (fun _ => 0) p false lock_free 0.

Lemma sample_free p : @page_ok sample_linker p -> @kmem_wf sample_linker (sample_kmem p) [p].
Proof.
  intros Hp. unfold kmem_wf. split_and!; try reflexivity;
    [now split | apply NoDup_singleton | constructor; [exact Hp | constructor] | intros a; cbn; lia].
Qed.

Lemma sample_empty : @kmem_wf sample_linker (sample_kmem 0) [].
Proof. unfold kmem_wf. split_and!; [reflexivity | constructor | constructor | reflexivity | intros a; cbn; lia]. Qed.

Lemma sample_page i : 0 <= i < 1024 -> @page_ok sample_linker (0x80200000 + i * 4096).
Proof. unfold page_ok; cbn; unfold KERNBASE, PHYSTOP. word_lia. Qed.

(** A machine with [n] free pages from 0x80300000 on, each linked to the next;
    the rest of the memory is zero. *)
Definition pool_base : Z := 0x80300000.

Definition pool_mem (n : nat) : mem := fun x =>
  let lim := pool_base + 4096 * Z.of_nat n in
  let p := x / 4096 * 4096 in
  if (pool_base <=? x) && (x <? lim)
  then store32 (fun _ => 0) p (if p + 4096 <? lim then p + 4096 else 0) x else 0.

Definition sample_pool (n : nat) : kmem :=
  mkKmem (pool_mem n) (match n with O => 0 | _ => pool_base end) false lock_free 0.

Lemma pool_link n i : (i < n)%nat -> (n <= 4096)%nat ->
  load32 (pool_mem n) (pool_base + 4096 * Z.of_nat i) =
  if (S i =? n)%nat then 0 else pool_base + 4096 * Z.of_nat (S i).
Proof.
  intros Hi Hn. set (p := pool_base + 4096 * Z.of_nat i).
  set (nx := if p + 4096 <? pool_base + 4096 * Z.of_nat n then p + 4096 else 0).
  rewrite (load32_ext _ (store32 (fun _ => 0) p nx)).
  - rewrite load32_store32_eq. subst nx p. unfold pool_base.
    destruct (Nat.eqb_spec (S i) n); case_bool; try lia; rewrite u32_small; unfold two32; lia.
  - intros x Hx. unfold pool_mem, pool_base in *. cbv zeta.
    replace (x / 4096 * 4096) with p by (subst p; word_lia). fold nx.
    case_bool; [reflexivity | subst p; lia].
Qed.

Lemma pool_chain n k : forall i, (i + k = n)%nat -> (0 < k)%nat -> (n <= 4096)%nat ->
  chain (pool_mem n) (pool_base + 4096 * Z.of_nat i) (pages_from (pool_base + 4096 * Z.of_nat i) k).
Proof.
  induction k as [|k IH]; intros i Hi Hk Hn; [lia|]. cbn [pages_from chain]. split; [reflexivity|].
  rewrite pool_link by lia. destruct (Nat.eqb_spec (S i) n) as [E|E].
  - replace k with 0%nat by lia. reflexivity.
  - replace (pool_base + 4096 * Z.of_nat i + 4096) with (pool_base + 4096 * Z.of_nat (S i)) by lia.
    apply IH; lia.
Qed.

Lemma pages_from_nodup k : forall p, NoDup (pages_from p k).
Proof.
  induction k as [|k IH]; intros p; cbn [pages_from]; constructor; [|apply IH].
  intros [Hb _]%pages_from_elem. lia.
Qed.

Lemma pages_from_length k : forall p, length (pages_from p k) = k.
Proof. induction k; intros p; cbn; auto. Qed.

Lemma sample_pool_wf n : (n <= 4096)%nat -> @kmem_wf sample_linker (sample_pool n) (pages_from pool_base n).
Proof.
  intros Hn. unfold kmem_wf. split_and!; [| apply pages_from_nodup | | reflexivity |].
  - destruct n as [|n]; [reflexivity|]. cbn [sample_pool km_mem km_freelist].
    replace pool_base with (pool_base + 4096 * Z.of_nat 0) by lia. apply pool_chain; lia.
  - apply Forall_forall. intros v [Hb Hmod]%pages_from_elem. unfold page_ok, pool_base in *. cbn.
    unfold KERNBASE, PHYSTOP. word_lia.
  - intros a. cbn. unfold pool_mem. cbv zeta. case_bool; [|lia].
    apply mem_ok_store32. intros x. lia.
Qed.

Lemma pool_mem_out n x : x < pool_base -> pool_mem n x = 0.
Proof. intros Hx. unfold pool_mem. cbv zeta. case_bool; [lia | reflexivity]. Qed.

(** C18: No sequence of [kalloc] and [kfree] calls loses, duplicates or invents a
    page: the free list and the pages a client holds are together always the
    same pages, so no page is handed out twice. *)
Theorem kalloc_conserves_pages `{LKOK : LinkerOk} (s s' : kmem) (held held' l : list Z) :
  ksteps (s, held) (s', held') -> kmem_wf s l -> NoDup (l ++ held) -> Forall page_ok held ->
  exists l', kmem_wf s' l' /\ l' ++ held' ≡ₚ l ++ held /\ NoDup held'.
Proof.
  intros Hs Hwf Hnd Hok. destruct (ksteps_conserve _ _ Hs l Hwf Hnd Hok) as (l' & Hwf' & Hp & _).
  cbn [fst snd] in *. exists l'. split_and!; auto. rewrite <- Hp in Hnd. now apply NoDup_app in Hnd as (_ & _ & ?).
Qed.

Lemma kalloc_conserves_pages_witness : exists l', @kmem_wf sample_linker (sample_kmem 0) l' /\
  l' ++ [0x80200000] ≡ₚ [0x80200000] ++ [] /\ NoDup [0x80200000].
Proof.
  assert (Hp := sample_page 0 ltac:(lia)).
  eapply (@kalloc_conserves_pages sample_linker sample_linker_ok (sample_kmem 0x80200000)).
  - eapply ksteps_cons; [|apply ksteps_refl]. apply kstep_alloc; [reflexivity | discriminate].
  - apply sample_free, Hp.
  - apply NoDup_singleton.
  - constructor.
Defined.

(** Started on an empty free list, [kinit1(vstart, vend)] frees exactly the
    whole pages between the two addresses, in descending order of the list. *)
Theorem kinit1_frees_range `{LKOK : LinkerOk} (s : kmem) (vstart vend : Z) :
  km_freelist s = 0 -> mem_ok (km_mem s) ->
  sym_end <= vstart -> vstart <= KERNBASE + PHYSTOP -> vend <= KERNBASE + PHYSTOP ->
  exists s' l, kinit1 vstart vend s = Ok tt s' /\ km_use_lock s' = false /\ kmem_wf s' l /\
    (forall v, v ∈ l <-> v mod 4096 = 0 /\ vstart <= v /\ v + 4096 <= vend).
Proof.
  intros Hf Hm Hs Hse He. unfold kinit1.
  set (s0 := set_use_lock false (set_kmlock lock_free s)).
  assert (Hwf : kmem_wf s0 []).
  { unfold kmem_wf. split_and!; [exact Hf | constructor | constructor | reflexivity | exact Hm]. }
  destruct (freerange_spec s0 vstart vend [] Hwf Hs He Hse) as (s' & Hrun & Hul & Hwf');
    [intros v Hv; now apply not_elem_of_nil in Hv|].
  exists s'. eexists. split_and!; [exact Hrun | exact Hul | exact Hwf' |].
  intros v. rewrite app_nil_r, elem_of_rev. pose proof end_kernel. unfold KERNBASE, PHYSTOP in *.
  rewrite PGROUNDUP_eq by (unfold two32; lia). split.
  - intros [Hb Hmod]%pages_from_elem. word_lia.
  - intros (Hmod & Hlo & Hhi). apply pages_from_intro; word_lia.
Qed.

Lemma kinit1_frees_range_witness : exists s' l,
  @kinit1 sample_linker 0x80115000 0x80117000 (sample_kmem 0) = Ok tt s' /\ km_use_lock s' = false /\
  @kmem_wf sample_linker s' l /\
  (forall v, v ∈ l <-> v mod 4096 = 0 /\ 0x80115000 <= v /\ v + 4096 <= 0x80117000).
Proof.
  apply (@kinit1_frees_range sample_linker sample_linker_ok); cbn; unfold KERNBASE, PHYSTOP;
    first [lia | reflexivity | intros a; cbn; lia].
Defined.
