(* ===== verification/PageTable.v ===== *)
(** Two-level page tables: [walkpgdir], [mappages], [clearpteu] and [uva2ka] of
    [src/xv6/xv6-public/vm.c].

    A page directory and its page tables live in memory, in pages that come
    from [kalloc].  [pte_of m d va] is the reference meaning of a directory: the
    entry that translates [va], or 0 where no page table exists.  The theorems
    state the operations on that function: [walkpgdir] with [alloc] creates
    page tables without changing any translation, a store through the address
    it returns changes exactly one entry, and [mappages] installs exactly the
    requested range or, when pages run out, an initial part of it. *)

From S2P Require Import Prelude Mem Mmu Spinlock Kalloc.

(** ** vm.c *)

Definition walkpgdir (pgdir va : Z) (alloc : bool) : M kmem Z :=
  let pde := pgdir + 4 * PDX va in
  pdev <- rd32 pde ;;
  if truth (Z.land pdev PTE_P) then
    let pgtab := P2V (PTE_ADDR pdev) in
    ret (pgtab + 4 * PTX va)
  else if negb alloc then ret 0 else
    pgtab <- kalloc ;;
    if pgtab =? 0 then ret 0 else
    memset_k pgtab 0 PGSIZE ;;;
    wr32 pde (Z.lor (Z.lor (Z.lor (V2P pgtab) PTE_P) PTE_W) PTE_U) ;;;
    ret (pgtab + 4 * PTX va).

(** The [for(;;)] loop of [mappages]; it leaves when [a == last]. *)
Fixpoint mappages_loop (fuel : nat) (pgdir a last pa perm : Z) : M kmem Z :=
  match fuel with
  | O => nofuel
  | S k =>
      pte <- walkpgdir pgdir a true ;;
      if pte =? 0 then ret (-1) else
      v <- rd32 pte ;;
      if truth (Z.land v PTE_P) then panic "remap" else
      wr32 pte (Z.lor (Z.lor pa perm) PTE_P) ;;;
      if a =? last then ret 0
      else mappages_loop k pgdir (u32 (a + PGSIZE)) last (u32 (pa + PGSIZE)) perm
  end.

Definition mappages (pgdir va size pa perm : Z) : M kmem Z :=
  let a := PGROUNDDOWN va in
  let last := PGROUNDDOWN (u32 (u32 va + size - 1)) in
  mappages_loop (Z.to_nat (u32 (last - a) / PGSIZE + 1)) pgdir a last pa perm.

Definition clearpteu (pgdir uva : Z) : M kmem unit :=
  pte <- walkpgdir pgdir uva false ;;
  if pte =? 0 then panic "clearpteu" else
  v <- rd32 pte ;;
  wr32 pte (Z.land v (Z.lnot PTE_U)).

(** [walkpgdir] may return 0 here, and the source dereferences it. *)
Definition uva2ka (pgdir uva : Z) : M kmem Z :=
  pte <- walkpgdir pgdir uva false ;;
  if pte =? 0 then fault "uva2ka: null pte" else
  v <- rd32 pte ;;
  if Z.land v PTE_P =? 0 then ret 0 else
  if Z.land v PTE_U =? 0 then ret 0 else
  ret (P2V (PTE_ADDR v)).

(** ** The translation a directory stands for *)

Definition present (v : Z) : bool := truth (Z.land v PTE_P).

Definition pde_of (m : mem) (d i : Z) : Z := load32 m (d + 4 * i).

(** The page table of directory slot [i]. *)
Definition pt_of (m : mem) (d i : Z) : Z := P2V (PTE_ADDR (pde_of m d i)).

(** The address of the entry for [va], 0 when it has no page table. *)
Definition walk (m : mem) (d va : Z) : Z :=
  if present (pde_of m d (PDX va)) then pt_of m d (PDX va) + 4 * PTX va else 0.

Definition pte_of (m : mem) (d va : Z) : Z :=
  if present (pde_of m d (PDX va)) then load32 m (walk m d va) else 0.

Definition same_page (va va' : Z) : bool := u32 va / 4096 =? u32 va' / 4096.

Section PageTable.
Context `{Linker}.

(** The directory and its page tables are allocated pages, each table hangs
    from one slot, and none of them is on the free list [l]. *)
Record pgdir_wf (m : mem) (d : Z) (l : list Z) : Prop := {
  pw_dir : page_ok d;
  pw_dir_free : d ∉ l;
  pw_tab : forall i, 0 <= i < 1024 -> present (pde_of m d i) = true ->
    page_ok (pt_of m d i) /\ pt_of m d i <> d /\ pt_of m d i ∉ l;
  pw_inj : forall i j, 0 <= i < 1024 -> 0 <= j < 1024 ->
    present (pde_of m d i) = true -> present (pde_of m d j) = true ->
    pt_of m d i = pt_of m d j -> i = j
}.

(** A page that belongs neither to the directory nor to the free list. *)
Definition foreign (m : mem) (d : Z) (l : list Z) (q : Z) : Prop :=
  page_ok q /\ (q ∉ l) /\ q <> d /\
  (forall i, 0 <= i < 1024 -> present (pde_of m d i) = true -> pt_of m d i <> q).

(** The number of directory slots without a page table. *)
Definition absent (m : mem) (d : Z) : nat :=
  length (filter (fun i => present (pde_of m d (Z.of_nat i)) = false) (seq 0 1024)).

#[global] Arguments absent : simpl never.

(** The translation once [j] pages from [a] are mapped to frames from [pa]. *)
Definition mapped (m : mem) (d a : Z) (j : nat) (pa perm va : Z) : Z :=
  if (a <=? u32 va) && (u32 va <? a + 4096 * Z.of_nat j)
  then u32 (Z.lor (Z.lor (u32 (pa + (u32 va - a) / 4096 * 4096)) perm) PTE_P)
  else pte_of m d va.

(** From [m] to [m'], with free list [l] becoming [l'], only the directory [d],
    its tables and pages taken off the free list have changed. *)
Record pt_step (m m' : mem) (d : Z) (l l' : list Z) : Prop := {
  ps_wf : pgdir_wf m' d l';
  ps_used : exists used, l = used ++ l';
  ps_foreign : forall q, foreign m d l q -> foreign m' d l' q /\
    (forall x, q <= x < q + 4096 -> m' x = m x);
  ps_room : forall c, (c + absent m d <= length l -> c + absent m' d <= length l')%nat;
  ps_tables : forall i, 0 <= i < 1024 -> present (pde_of m d i) = true ->
    present (pde_of m' d i) = true /\ pt_of m' d i = pt_of m d i;
  ps_account : forall p, p ∈ l -> p ∈ l' \/
    (exists i, 0 <= i < 1024 /\ present (pde_of m' d i) = true /\ pt_of m' d i = p);
  ps_low : forall x, x < sym_end -> m' x = m x
}.

(** ** Lemmas *)

Context `{!LinkerOk}.

Lemma PDX_range va : 0 <= PDX va < 1024.
Proof. rewrite PDX_eq. pose proof (u32_bound va). unfold two32 in *. word_lia. Qed.

Lemma PTX_range va : 0 <= PTX va < 1024.
Proof. rewrite PTX_eq. apply Z.mod_pos_bound. lia. Qed.

Lemma same_page_spec va va' :
  same_page va va' = true <-> PDX va = PDX va' /\ PTX va = PTX va'.
Proof.
  unfold same_page. rewrite Z.eqb_eq, !PDX_eq, !PTX_eq.
  pose proof (u32_bound va). pose proof (u32_bound va').
  generalize dependent (u32 va). generalize dependent (u32 va'). unfold two32.
  intros b Hb a Ha. split; intros; word_lia.
Qed.

Lemma present_odd v : present v = Z.odd v.
Proof. apply pte_present. Qed.

Lemma pde_ext m m' d i : 0 <= i < 1024 -> (forall x, d <= x < d + 4096 -> m' x = m x) ->
  pde_of m' d i = pde_of m d i.
Proof. intros Hi Hx. apply load32_ext. intros x ?. apply Hx. lia. Qed.

Lemma pgdir_wf_ext m m' d l l' : pgdir_wf m d l -> (forall p, p ∈ l' -> p ∈ l) ->
  (forall x, d <= x < d + 4096 -> m' x = m x) -> pgdir_wf m' d l'.
Proof.
  intros [Hd Hdl Ht Hi] Hsub Hx. constructor.
  - exact Hd.
  - auto.
  - intros i Hir. unfold pt_of. rewrite (pde_ext m m') by auto. intros Hp.
    destruct (Ht i Hir Hp) as (? & ? & ?). split_and!; auto.
  - intros i j Hir Hjr. unfold pt_of. rewrite !(pde_ext m m') by auto. now apply Hi.
Qed.

Lemma pte_of_ext m m' d va :
  (forall x, d <= x < d + 4096 -> m' x = m x) ->
  (present (pde_of m d (PDX va)) = true ->
   forall x, pt_of m d (PDX va) <= x < pt_of m d (PDX va) + 4096 -> m' x = m x) ->
  pte_of m' d va = pte_of m d va.
Proof.
  intros Hd Ht. unfold pte_of, walk, pt_of. pose proof (PDX_range va). pose proof (PTX_range va).
  rewrite (pde_ext m m') by auto.
  destruct (present (pde_of m d (PDX va))) eqn:E; [|reflexivity].
  apply load32_ext. intros x Hx. apply Ht; [reflexivity | unfold pt_of; lia].
Qed.

Lemma walkpgdir_lookup d va s : walkpgdir d va false s = Ok (walk (km_mem s) d va) s.
Proof.
  unfold walkpgdir, walk. cbv zeta. rewrite (bind_ok _ _ _ _ _ (eq_refl : rd32 _ s = _)).
  fold (pde_of (km_mem s) d (PDX va)). fold (present (pde_of (km_mem s) d (PDX va))).
  destruct (present _); reflexivity.
Qed.

Lemma walk_nonzero m d va l : pgdir_wf m d l -> present (pde_of m d (PDX va)) = true ->
  walk m d va <> 0.
Proof.
  intros Hw Hp. unfold walk. rewrite Hp. pose proof (PTX_range va).
  destruct (pw_tab _ _ _ Hw _ (PDX_range va) Hp) as (Hok & _).
  apply page_ok_bounds in Hok. unfold KERNBASE in *. lia.
Qed.

(** *** Adding a page table *)

Definition new_pde (p : Z) : Z := Z.lor (Z.lor (Z.lor (V2P p) PTE_P) PTE_W) PTE_U.

Definition new_table (m : mem) (d va p : Z) : mem :=
  store32 (memset m p 0 PGSIZE) (d + 4 * PDX va) (new_pde p).

Lemma new_pde_spec p : page_ok p ->
  u32 (new_pde p) = new_pde p /\ present (new_pde p) = true /\ P2V (PTE_ADDR (new_pde p)) = p.
Proof.
  intros Hp. pose proof (page_ok_bounds p Hp) as Hb. destruct Hp as (Ha & _).
  assert (Hv : V2P p = p - KERNBASE) by (unfold V2P; apply u32_small; unfold KERNBASE, PHYSTOP, two32 in *; lia).
  assert (Hn : new_pde p = V2P p + 7).
  { unfold new_pde. rewrite <- !Z.lor_assoc. change (Z.lor PTE_P (Z.lor PTE_W PTE_U)) with 7.
    apply (lor_aligned _ _ 12); [lia | lia | rewrite Hv; unfold KERNBASE; change (2 ^ 12) with 4096; word_lia]. }
  rewrite present_odd, PTE_ADDR_eq, Hn, Hv. unfold KERNBASE, PHYSTOP in *.
  split_and!.
  - apply u32_small. unfold two32. lia.
  - rewrite Z.odd_add. replace (Z.odd (p - 2147483648)) with false; [reflexivity|].
    symmetry. rewrite <- Z.negb_even. apply negb_false_iff, Z.even_spec.
    exists ((p - 2147483648) / 2). word_lia.
  - rewrite u32_small by (unfold two32; lia). unfold P2V, KERNBASE. word_lia.
Qed.

Lemma new_table_frame m d va p x :
  (x < d + 4 * PDX va \/ d + 4 * PDX va + 4 <= x) -> (x < p \/ p + 4096 <= x) ->
  new_table m d va p x = m x.
Proof.
  intros Hd Hp. unfold new_table. rewrite store32_frame by exact Hd.
  apply memset_out; unfold PGSIZE; lia.
Qed.

Lemma new_table_pde m d va p i : page_ok d -> page_ok p -> p <> d -> 0 <= i < 1024 ->
  pde_of (new_table m d va p) d i = if i =? PDX va then new_pde p else pde_of m d i.
Proof.
  intros Hd Hp Hne Hi. pose proof (page_disjoint p d Hp Hd Hne). pose proof (PDX_range va).
  unfold pde_of. destruct (Z.eqb_spec i (PDX va)) as [->|Hni].
  - unfold new_table. rewrite load32_store32_eq. now apply new_pde_spec.
  - apply load32_ext. intros x Hx. apply new_table_frame; lia.
Qed.

Lemma new_table_zero m d va p x : page_ok d -> page_ok p -> p <> d ->
  p <= x < p + 4096 -> new_table m d va p x = 0.
Proof.
  intros Hd Hp Hne Hx. pose proof (page_disjoint p d Hp Hd Hne). pose proof (PDX_range va).
  unfold new_table. rewrite store32_frame by lia. now apply memset_in.
Qed.

Lemma new_table_pte m d va p l va' : pgdir_wf m d (p :: l) -> page_ok p ->
  present (pde_of m d (PDX va)) = false ->
  pte_of (new_table m d va p) d va' = pte_of m d va'.
Proof.
  intros Hw Hp Habs. pose proof (PDX_range va'). pose proof (PTX_range va').
  assert (Hne : p <> d) by (intros ->; apply (pw_dir_free _ _ _ Hw), elem_of_cons; auto).
  pose proof (pw_dir _ _ _ Hw) as Hd.
  unfold pte_of, walk, pt_of. rewrite new_table_pde by auto.
  destruct (Z.eqb_spec (PDX va') (PDX va)) as [E|E].
  - destruct (new_pde_spec p Hp) as (_ & -> & ->). rewrite E, Habs.
    unfold load32. rewrite !new_table_zero by (auto; lia). reflexivity.
  - destruct (present (pde_of m d (PDX va'))) eqn:Ep; [|reflexivity].
    destruct (pw_tab _ _ _ Hw _ (PDX_range va') Ep) as (Htok & Htd & Htl).
    apply load32_ext. intros x Hx. fold (pt_of m d (PDX va')) in Hx.
    assert (Hpt : pt_of m d (PDX va') <> p) by (intros E'; apply Htl; rewrite E'; apply elem_of_cons; auto).
    pose proof (page_disjoint _ _ Htok Hd Htd). pose proof (page_disjoint _ _ Htok Hp Hpt).
    pose proof (PDX_range va). apply new_table_frame; lia.
Qed.

Lemma new_table_step m d va p l : pgdir_wf m d (p :: l) -> page_ok p -> p ∉ l ->
  present (pde_of m d (PDX va)) = false ->
  pt_step m (new_table m d va p) d (p :: l) l.
Proof.
  intros Hw Hp Hpl Habs. pose proof (PDX_range va) as Hr.
  assert (Hne : p <> d) by (intros ->; apply (pw_dir_free _ _ _ Hw), elem_of_cons; auto).
  pose proof (pw_dir _ _ _ Hw) as Hd.
  assert (Hpde : forall i, 0 <= i < 1024 -> pde_of (new_table m d va p) d i =
                 if i =? PDX va then new_pde p else pde_of m d i) by (intros; now apply new_table_pde).
  assert (Hin : p ∈ p :: l) by (apply elem_of_cons; auto).
  destruct (new_pde_spec p Hp) as (_ & Hnp & Hnt).
  assert (Hpt : forall i, 0 <= i < 1024 -> pt_of (new_table m d va p) d i =
                 if i =? PDX va then p else pt_of m d i).
  { intros i Hi. unfold pt_of. rewrite Hpde by exact Hi. now destruct (i =? PDX va). }
  assert (Hold : forall i, 0 <= i < 1024 -> present (pde_of m d i) = true -> i <> PDX va /\ pt_of m d i <> p).
  { intros i Hi Hpi. split; [intros ->; congruence|].
    destruct (pw_tab _ _ _ Hw i Hi Hpi) as (_ & _ & Hl). congruence. }
  constructor.
  - constructor.
    + exact Hd.
    + intros Hdl. apply (pw_dir_free _ _ _ Hw), elem_of_cons; auto.
    + intros i Hi. rewrite Hpde, Hpt by exact Hi. destruct (i =? PDX va); [auto|].
      intros Hpi. destruct (pw_tab _ _ _ Hw i Hi Hpi) as (? & ? & Hl). split_and!; auto.
      intros ?. apply Hl, elem_of_cons; auto.
    + intros i j Hi Hj. rewrite !Hpde, !Hpt by assumption.
      destruct (Z.eqb_spec i (PDX va)), (Z.eqb_spec j (PDX va)); intros Hpi Hpj E.
      * congruence.
      * destruct (Hold j Hj Hpj). congruence.
      * destruct (Hold i Hi Hpi). congruence.
      * now apply (pw_inj _ _ _ Hw).
  - now exists [p].
  - intros q (Hq & Hql & Hqd & Hqt). assert (Hqp : q <> p) by congruence. split.
    + split_and!; auto; [intros ?; apply Hql, elem_of_cons; auto|].
      intros i Hi. rewrite Hpde, Hpt by exact Hi. destruct (i =? PDX va); auto.
    + intros x Hx. pose proof (page_disjoint q p Hq Hp Hqp). pose proof (page_disjoint q d Hq Hd Hqd).
      apply new_table_frame; lia.
  - intros c Hle. enough (absent m d = S (absent (new_table m d va p) d)) by (rewrite length_cons in Hle; lia).
    unfold absent. apply filter_length_drop with (k := Z.to_nat (PDX va)).
    + apply NoDup_ListNoDup, seq_NoDup.
    + apply elem_of_seq. lia.
    + now rewrite Z2Nat.id by lia.
    + rewrite Z2Nat.id by lia. rewrite Hpde, Z.eqb_refl, Hnp by exact Hr. discriminate.
    + intros i Hi Hne'. apply elem_of_seq in Hi. rewrite Hpde by lia.
      rewrite (proj2 (Z.eqb_neq _ _)) by lia. reflexivity.
  - intros i Hi Hpi. destruct (Hold i Hi Hpi) as [Hne' _]. rewrite Hpde, Hpt by exact Hi.
    rewrite (proj2 (Z.eqb_neq i (PDX va)) Hne'). auto.
  - intros q [->|Hq]%elem_of_cons; [right | auto].
    exists (PDX va). rewrite Hpde, Hpt, Z.eqb_refl by exact Hr. auto.
  - intros x Hx. destruct Hd as (_ & ? & _), Hp as (_ & ? & _). apply new_table_frame; lia.
Qed.

Lemma pt_step_refl m d l : pgdir_wf m d l -> pt_step m m d l l.
Proof. intros Hw. constructor; auto. now exists []. Qed.

Lemma pt_step_trans m1 m2 m3 d l1 l2 l3 :
  pt_step m1 m2 d l1 l2 -> pt_step m2 m3 d l2 l3 -> pt_step m1 m3 d l1 l3.
Proof.
  intros [W1 [u1 U1] F1 A1 P1 C1 L1] [W2 [u2 U2] F2 A2 P2 C2 L2]. constructor; auto.
  - exists (u1 ++ u2). rewrite U1, U2. now rewrite app_assoc.
  - intros q Hq. destruct (F1 q Hq) as [Hq1 E1]. destruct (F2 q Hq1) as [Hq2 E2].
    split; [exact Hq2|]. intros x Hx. now rewrite E2, E1.
  - intros i Hi Hp. destruct (P1 i Hi Hp) as [Hp1 E1]. destruct (P2 i Hi Hp1) as [Hp2 E2].
    split; [exact Hp2 | congruence].
  - intros p Hp. destruct (C1 p Hp) as [Hp1|(i & Hi & Hpi & <-)]; [auto|].
    right. exists i. destruct (P2 i Hi Hpi). auto.
  - intros x Hx. now rewrite L2, L1.
Qed.

(** [walkpgdir] with [alloc]: the entry for [va] then exists unless pages have
    run out, and every translation is as before. *)
Lemma walkpgdir_alloc s d va l : kmem_wf s l -> pgdir_wf (km_mem s) d l ->
  exists r s' l', walkpgdir d va true s = Ok r s' /\ kmem_wf s' l' /\
    pt_step (km_mem s) (km_mem s') d l l' /\
    (forall va', pte_of (km_mem s') d va' = pte_of (km_mem s) d va') /\
    ((r = 0 /\ l' = [] /\ (0 < absent (km_mem s) d)%nat /\ l = []) \/
     (r <> 0 /\ r = walk (km_mem s') d va /\ present (pde_of (km_mem s') d (PDX va)) = true)).
Proof.
  intros Hwf Hw. destruct (present (pde_of (km_mem s) d (PDX va))) eqn:E.
  - exists (walk (km_mem s) d va), s, l.
    split_and!; auto using pt_step_refl.
    + unfold walkpgdir, walk. rewrite E. cbv zeta.
      rewrite (bind_ok _ _ _ _ _ (eq_refl : rd32 _ s = _)).
      unfold present, pde_of in E. now rewrite E.
    + right. split_and!; auto. eapply walk_nonzero; eauto.
  - assert (Habs : (0 < absent (km_mem s) d)%nat).
    { pose proof (PDX_range va). unfold absent. apply (elem_length_pos (Z.to_nat (PDX va))).
      apply list_elem_of_filter. rewrite Z2Nat.id by lia. split; [exact E | apply elem_of_seq; lia]. }
    assert (Hstart : forall k, (pdev <- rd32 (d + 4 * PDX va) ;; k pdev) s = k (pde_of (km_mem s) d (PDX va)) s :> outcome kmem Z) by reflexivity.
    unfold walkpgdir. cbv zeta. rewrite Hstart. fold (present (pde_of (km_mem s) d (PDX va))). rewrite E. cbn [negb].
    destruct l as [|p l].
    + exists 0, s, []. rewrite (bind_ok _ _ _ _ _ (kalloc_empty s Hwf)). split_and!; auto using pt_step_refl.
    + destruct (kalloc_pop s p l Hwf) as [Ha Hwf'].
      assert (Hp : page_ok p) by (destruct Hwf as (_ & _ & Hl & _); now inversion Hl).
      assert (Hpl : p ∉ l) by (destruct Hwf as (_ & Hl & _); now inversion Hl).
      pose proof (new_table_step (km_mem s) d va p l Hw Hp Hpl E) as Hstep.
      set (s1 := set_freelist (load32 (km_mem s) p) s) in *.
      exists (p + 4 * PTX va), (set_mem (new_table (km_mem s) d va p) s1), l.
      rewrite (bind_ok _ _ _ _ _ Ha).
      rewrite (proj2 (Z.eqb_neq p 0)) by now apply page_ok_nonzero.
      split_and!; auto.
      * apply kmem_wf_set_mem; [exact Hwf' | |].
        -- apply mem_ok_store32, mem_ok_memset; [unfold PGSIZE; lia | apply Hwf].
        -- intros q x Hq Hx. pose proof (PDX_range va).
           assert (Hqok : page_ok q) by (destruct Hwf' as (_ & _ & Hl & _); rewrite Forall_forall in Hl; auto).
           assert (q <> p) by congruence.
           assert (q <> d) by (intros ->; apply (pw_dir_free _ _ _ Hw), elem_of_cons; auto).
           pose proof (page_disjoint q p Hqok Hp). pose proof (page_disjoint q d Hqok (pw_dir _ _ _ Hw)).
           apply new_table_frame; lia.
      * intros va'. now apply (new_table_pte _ _ _ _ l).
      * right. pose proof (PTX_range va). pose proof (page_ok_bounds p Hp). unfold KERNBASE in *.
        assert (Hne : p <> d) by (intros ->; apply (pw_dir_free _ _ _ Hw), elem_of_cons; auto).
        assert (Hpde : pde_of (new_table (km_mem s) d va p) d (PDX va) = new_pde p)
          by (rewrite new_table_pde by (auto using PDX_range; apply Hw); now rewrite Z.eqb_refl).
        destruct (new_pde_spec p Hp) as (_ & Hnp & Hnt).
        cbn [km_mem set_mem]. unfold walk, pt_of. rewrite Hpde, Hnp, Hnt. split_and!; auto. lia.
Qed.

(** *** Writing an entry *)

Lemma pte_write s d va v l : kmem_wf s l -> pgdir_wf (km_mem s) d l ->
  present (pde_of (km_mem s) d (PDX va)) = true ->
  let m' := store32 (km_mem s) (walk (km_mem s) d va) v in
  kmem_wf (set_mem m' s) l /\ pt_step (km_mem s) m' d l l /\
  forall va', pte_of m' d va' = if same_page va va' then u32 v else pte_of (km_mem s) d va'.
Proof.
  intros Hwf Hw Hp m'. pose proof (PDX_range va) as Hr. pose proof (PTX_range va) as Hx.
  destruct (pw_tab _ _ _ Hw _ Hr Hp) as (Htok & Htd & Htl).
  set (t := pt_of (km_mem s) d (PDX va)) in *.
  assert (Hwalk : walk (km_mem s) d va = t + 4 * PTX va) by (unfold walk; now rewrite Hp).
  assert (Hout : forall x, x < t + 4 * PTX va \/ t + 4 * PTX va + 4 <= x -> m' x = km_mem s x)
    by (intros x ?; unfold m'; rewrite Hwalk; now apply store32_frame).
  assert (Hpage : forall q x, page_ok q -> q <> t -> q <= x < q + 4096 -> m' x = km_mem s x).
  { intros q x Hq Hne Hqx. pose proof (page_disjoint q t Hq Htok Hne). apply Hout. lia. }
  assert (Hdx : forall x, d <= x < d + 4096 -> m' x = km_mem s x)
    by (intros; apply (Hpage d); auto; apply Hw).
  assert (Hpde : forall i, 0 <= i < 1024 -> pde_of m' d i = pde_of (km_mem s) d i)
    by (intros; apply pde_ext; auto).
  split_and!.
  - apply kmem_wf_set_mem; [exact Hwf | apply mem_ok_store32, Hwf |].
    intros q x Hq ?. apply (Hpage q); auto; [|congruence].
    destruct Hwf as (_ & _ & Hl & _). rewrite Forall_forall in Hl. auto.
  - constructor.
    + eapply pgdir_wf_ext; eauto.
    + now exists [].
    + intros q (Hq & Hql & Hqd & Hqt). split; [split_and!; auto|].
      * intros i Hi. unfold pt_of. rewrite Hpde by exact Hi. now apply Hqt.
      * intros x ?. apply (Hpage q); auto. intros ->. now apply (Hqt (PDX va)).
    + unfold absent. intros c Hle. erewrite filter_length_ext; [exact Hle|].
      intros i Hi%elem_of_seq. cbn. rewrite Hpde by lia. reflexivity.
    + intros i Hi Hpi. unfold pt_of. rewrite Hpde by exact Hi. auto.
    + auto.
    + intros x ?. apply Hout. destruct Htok as (_ & ? & _). lia.
  - intros va'. pose proof (PDX_range va') as Hr'. pose proof (PTX_range va') as Hx'.
    destruct (same_page va va') eqn:E.
    + apply same_page_spec in E as [E1 E2]. unfold pte_of, walk, pt_of. rewrite Hpde by exact Hr'.
      rewrite <- E1, <- E2, Hp. fold (pt_of (km_mem s) d (PDX va)). fold t.
      unfold m'. rewrite Hwalk. apply load32_store32_eq.
    + unfold pte_of, walk, pt_of. rewrite Hpde by exact Hr'.
      destruct (present (pde_of (km_mem s) d (PDX va'))) eqn:Ep; [|reflexivity].
      fold (pt_of (km_mem s) d (PDX va')). apply load32_ext. intros x Hxx.
      destruct (decide (PDX va' = PDX va)) as [Ed|Ed].
      * apply Hout. rewrite Ed in Hxx. fold t in Hxx.
        assert (PTX va' <> PTX va) by (intros Et; rewrite (proj2 (same_page_spec va va')) in E; auto; discriminate).
        lia.
      * destruct (pw_tab _ _ _ Hw _ Hr' Ep) as (Htok' & _).
        apply (Hpage (pt_of (km_mem s) d (PDX va'))); [exact Htok' | | lia].
        intros Et. apply Ed. now apply (pw_inj _ _ _ Hw).
Qed.

(** *** [mappages] *)

Lemma mapped_0 m d a pa perm va : mapped m d a 0 pa perm va = pte_of m d va.
Proof. unfold mapped. case_bool; [lia | reflexivity]. Qed.

Lemma mapped_S m m1 d a j pa perm va :
  0 <= a -> a mod 4096 = 0 -> a + 4096 * Z.of_nat (S j) <= two32 -> 0 <= pa < two32 ->
  (forall va', pte_of m1 d va' = if same_page a va' then u32 (Z.lor (Z.lor pa perm) PTE_P) else pte_of m d va') ->
  mapped m1 d (a + 4096) j (u32 (pa + 4096)) perm va = mapped m d a (S j) pa perm va.
Proof.
  intros Hnn Ha Hb Hpa Hm. unfold mapped. rewrite Hm. unfold same_page.
  pose proof (u32_bound va) as Hv. set (w := u32 va) in *. clearbody w.
  rewrite (u32_small a) by (unfold two32 in *; lia).
  destruct (Z.leb_spec (a + 4096) w), (Z.ltb_spec w (a + 4096 + 4096 * Z.of_nat j)),
    (Z.leb_spec a w), (Z.ltb_spec w (a + 4096 * Z.of_nat (S j))), (Z.eqb_spec (a / 4096) (w / 4096));
    cbn [andb]; try lia; try reflexivity; try (exfalso; word_lia).
  - do 3 f_equal. replace ((w - a) / 4096) with ((w - (a + 4096)) / 4096 + 1) by word_lia.
    generalize ((w - (a + 4096)) / 4096). intros k. unfold u32.
    rewrite Zplus_mod_idemp_l. f_equal. lia.
  - replace ((w - a) / 4096 * 4096) with 0 by word_lia. rewrite Z.add_0_r, (u32_small pa) by exact Hpa. reflexivity.
Qed.

Lemma mappages_loop_spec n : forall fuel s d a last pa perm l,
  (n < fuel)%nat -> kmem_wf s l -> pgdir_wf (km_mem s) d l ->
  0 <= a -> a mod 4096 = 0 -> a + 4096 * Z.of_nat (S n) <= two32 ->
  last = a + 4096 * Z.of_nat n -> 0 <= pa < two32 ->
  (forall va, a <= u32 va < a + 4096 * Z.of_nat (S n) -> present (pte_of (km_mem s) d va) = false) ->
  exists r s' l' j, mappages_loop fuel d a last pa perm s = Ok r s' /\ kmem_wf s' l' /\
    pt_step (km_mem s) (km_mem s') d l l' /\
    (forall va, pte_of (km_mem s') d va = mapped (km_mem s) d a j pa perm va) /\
    ((r = 0 /\ j = S n) \/ (r = -1 /\ l' = [] /\ (j < S n)%nat /\ (length l < absent (km_mem s) d)%nat)).
Proof.
  induction n as [|n IH]; intros fuel s d a last pa perm l Hf Hwf Hw Hnn Ha Hb Hlast Hpa Hfree;
    (destruct fuel as [|fuel]; [lia|]); cbn [mappages_loop];
    destruct (walkpgdir_alloc s d a l Hwf Hw) as (r & s1 & l1 & Hrun & Hwf1 & Hst1 & Hpte1 & Hr);
    rewrite (bind_ok _ _ _ _ _ Hrun).
  all: destruct Hr as [(-> & -> & Habs & ->) | (Hr0 & Hrw & Hpres)].
  1, 3: exists (-1), s1, [], 0%nat; split_and!; auto;
    [ intros va; now rewrite mapped_0 | right; split_and!; auto; cbn; lia ].
  all: rewrite (proj2 (Z.eqb_neq r 0)) by exact Hr0;
    rewrite (bind_ok _ _ _ _ _ (eq_refl : rd32 r s1 = _));
    assert (Hload : load32 (km_mem s1) r = pte_of (km_mem s) d a)
      by (rewrite <- Hpte1; unfold pte_of; rewrite Hpres; now rewrite Hrw);
    rewrite Hload; fold (present (pte_of (km_mem s) d a));
    rewrite Hfree by (rewrite u32_small by (unfold two32 in *; lia); lia);
    destruct (pte_write s1 d a (Z.lor (Z.lor pa perm) PTE_P) l1 Hwf1 (ps_wf _ _ _ _ _ Hst1) Hpres)
      as (Hwf2 & Hst2 & Hpte2);
    rewrite <- Hrw in *;
    set (m2 := store32 (km_mem s1) r (Z.lor (Z.lor pa perm) PTE_P)) in *;
    rewrite (bind_ok _ _ _ _ _ (eq_refl : wr32 r _ s1 = Ok tt (set_mem m2 s1)));
    pose proof (pt_step_trans _ _ _ _ _ _ _ Hst1 Hst2) as Hst;
    assert (Hpte : forall va', pte_of m2 d va' = if same_page a va' then u32 (Z.lor (Z.lor pa perm) PTE_P) else pte_of (km_mem s) d va')
      by (intros va'; now rewrite Hpte2, Hpte1).
  - rewrite (proj2 (Z.eqb_eq a last)) by lia. exists 0, (set_mem m2 s1), l1, 1%nat.
    split_and!; auto. intros va. cbn [km_mem set_mem].
    rewrite <- (mapped_S (km_mem s) m2) by auto. now rewrite mapped_0.
  - rewrite (proj2 (Z.eqb_neq a last)) by lia. unfold PGSIZE.
    rewrite (u32_small (a + 4096)) by (unfold two32 in *; lia).
    destruct (IH fuel (set_mem m2 s1) d (a + 4096) last (u32 (pa + 4096)) perm l1)
      as (r3 & s3 & l3 & j & Hrun3 & Hwf3 & Hst3 & Hpte3 & Hr3);
      auto using u32_bound; try lia; [apply Hst2 | word_lia | | ].
    + intros va Hva. cbn [km_mem set_mem]. rewrite Hpte. unfold same_page.
      rewrite (u32_small a) by (unfold two32 in *; lia).
      rewrite (proj2 (Z.eqb_neq _ _)) by word_lia. apply Hfree. lia.
    + exists r3, s3, l3, (S j). split_and!; auto.
      * eapply pt_step_trans; eauto.
      * intros va. rewrite Hpte3. cbn [km_mem set_mem]. apply mapped_S; auto.
        destruct Hr3 as [[_ ->] | (_ & _ & Hj & _)]; lia.
      * destruct Hr3 as [[-> ->] | (-> & -> & Hj & Habs)]; [left; auto|].
        right. split_and!; auto; [lia|]. cbn [km_mem set_mem] in Habs.
        pose proof (ps_room _ _ _ _ _ Hst 0). lia.
Qed.

(** Mapping one page. *)
Lemma mappages_page s d a pa perm l : kmem_wf s l -> pgdir_wf (km_mem s) d l ->
  0 <= a -> a mod 4096 = 0 -> a + 4096 <= two32 -> 0 <= pa < two32 ->
  present (pte_of (km_mem s) d a) = false ->
  exists r s' l', mappages d a PGSIZE pa perm s = Ok r s' /\ kmem_wf s' l' /\
    pt_step (km_mem s) (km_mem s') d l l' /\
    ((r = 0 /\ forall va, pte_of (km_mem s') d va =
        if same_page a va then u32 (Z.lor (Z.lor pa perm) PTE_P) else pte_of (km_mem s) d va) \/
     (r = -1 /\ l' = [] /\ (length l < absent (km_mem s) d)%nat /\
      forall va, pte_of (km_mem s') d va = pte_of (km_mem s) d va)).
Proof.
  intros Hwf Hw Hnn Ha Hb Hpa Hnp. unfold mappages, PGSIZE. cbv zeta.
  rewrite !PGROUNDDOWN_eq. rewrite (u32_small a) by lia.
  rewrite (u32_small (u32 (a + 4096 - 1))) by apply u32_bound.
  rewrite (u32_small (a + 4096 - 1)) by lia.
  replace (a + 4096 - 1 - (a + 4096 - 1) mod 4096) with a by word_lia.
  replace (a - a mod 4096) with a by lia. rewrite Z.sub_diag.
  assert (Hsp : forall va, (a <=? u32 va) && (u32 va <? a + 4096 * Z.of_nat 1) = same_page a va).
  { intros va. unfold same_page. rewrite (u32_small a) by lia. pose proof (u32_bound va).
    apply eq_true_iff_eq. rewrite andb_true_iff, Z.leb_le, Z.ltb_lt, Z.eqb_eq.
    unfold two32 in *. split; intros; word_lia. }
  destruct (mappages_loop_spec 0 (Z.to_nat (u32 0 / 4096 + 1)) s d a a pa perm l)
    as (r & s' & l' & j & Hrun & Hwf' & Hst & Hpte & Hr); auto; try lia.
  - intros va Hva. rewrite <- Hnp. f_equal. unfold pte_of, walk.
    assert (E : same_page a va = true) by (rewrite <- Hsp; apply andb_true_intro; rewrite Z.leb_le, Z.ltb_lt; lia).
    apply same_page_spec in E as [-> ->]. reflexivity.
  - exists r, s', l'. split_and!; auto. destruct Hr as [[-> ->] | (-> & -> & Hj & Habs)].
    + left. split; [reflexivity|]. intros va. rewrite Hpte. unfold mapped. rewrite Hsp.
      destruct (same_page a va) eqn:E; [|reflexivity]. rewrite <- Hsp in E. bool_prop.
      replace ((u32 va - a) / 4096 * 4096) with 0 by word_lia.
      now rewrite Z.add_0_r, (u32_small pa) by exact Hpa.
    + right. replace j with 0%nat in * by lia. split_and!; auto.
      intros va. rewrite Hpte. apply mapped_0.
Qed.

(** A page-aligned range of [S n] pages. *)
Lemma mappages_range n s d a pa perm l : kmem_wf s l -> pgdir_wf (km_mem s) d l ->
  0 <= a -> a mod 4096 = 0 -> a + 4096 * Z.of_nat (S n) <= two32 -> 0 <= pa < two32 ->
  (forall va, a <= u32 va < a + 4096 * Z.of_nat (S n) -> present (pte_of (km_mem s) d va) = false) ->
  exists r s' l' j, mappages d a (4096 * Z.of_nat (S n)) pa perm s = Ok r s' /\ kmem_wf s' l' /\
    pt_step (km_mem s) (km_mem s') d l l' /\
    (forall va, pte_of (km_mem s') d va = mapped (km_mem s) d a j pa perm va) /\
    ((r = 0 /\ j = S n) \/ (r = -1 /\ l' = [] /\ (j < S n)%nat /\ (length l < absent (km_mem s) d)%nat)).
Proof.
  intros Hwf Hw Hnn Ha Hb Hpa Hfree. unfold mappages, PGSIZE. cbv zeta.
  rewrite !PGROUNDDOWN_eq. rewrite (u32_small a) by lia.
  rewrite (u32_small (u32 _)) by apply u32_bound.
  rewrite (u32_small (a + 4096 * Z.of_nat (S n) - 1)) by lia.
  replace (a - a mod 4096) with a by lia.
  apply (mappages_loop_spec n); auto; unfold two32 in *; word_lia.
Qed.

(** A zeroed page is a directory without tables. *)
Lemma empty_dir m d l : page_ok d -> (d ∉ l) ->
  (forall i, 0 <= i < 1024 -> pde_of m d i = 0) ->
  pgdir_wf m d l /\ (forall va, pte_of m d va = 0) /\ absent m d = 1024%nat.
Proof.
  intros Hd Hl Hz. split_and!.
  - constructor; auto; intros i; intros; rewrite Hz in *; auto; discriminate.
  - intros va. unfold pte_of. rewrite Hz by apply PDX_range. reflexivity.
  - unfold absent. rewrite filter_length_all; [apply length_seq|].
    intros i Hi%elem_of_seq. rewrite Hz by lia. reflexivity.
Qed.

End PageTable.

(** ** Properties *)

(** A directory page that is all zero, beside one free page. *)
Lemma sample_dir m l : (forall x, x < pool_base -> m x = 0) -> (0x80210000 ∉ l) ->
  @pgdir_wf sample_linker m 0x80210000 l /\ (forall va, pte_of m 0x80210000 va = 0) /\
  absent m 0x80210000 = 1024%nat.
Proof.
  intros Hz Hl. apply (@empty_dir sample_linker); auto.
  - apply (sample_page 16). lia.
  - intros i Hi. unfold pde_of, load32. rewrite !Hz by (unfold pool_base; lia). reflexivity.
Qed.

Lemma sample_dir_pool n : 0x80210000 ∉ pages_from pool_base n.
Proof. intros [Hb _]%pages_from_elem. unfold pool_base in Hb. lia. Qed.

Lemma not_in_1 (x y : Z) : x <> y -> x ∉ [y].
Proof. intros Hne Hin. apply list_elem_of_singleton in Hin. contradiction. Qed.

(** [mappages] on a range that is not mapped yet installs, page by page,
    exactly the entries [pa | perm | PTE_P] of the range and changes no other
    translation.  It stops short of the whole range only when the allocator has
    no page for a missing page table; it then returns -1, the pages before that
    point stay mapped and no page is lost.  Pages that are neither free nor
    part of the directory keep their contents. *)
Theorem mappages_exact `{LKOK : LinkerOk} (n : nat) (s : kmem) (d a pa perm : Z) (l : list Z) :
  kmem_wf s l -> pgdir_wf (km_mem s) d l ->
  0 <= a -> a mod 4096 = 0 -> a + 4096 * Z.of_nat (S n) <= two32 -> 0 <= pa < two32 ->
  (forall va, a <= u32 va < a + 4096 * Z.of_nat (S n) -> present (pte_of (km_mem s) d va) = false) ->
  exists r s' l' j, mappages d a (4096 * Z.of_nat (S n)) pa perm s = Ok r s' /\
    kmem_wf s' l' /\ pgdir_wf (km_mem s') d l' /\
    (forall va, pte_of (km_mem s') d va = mapped (km_mem s) d a j pa perm va) /\
    (forall q, foreign (km_mem s) d l q -> forall x, q <= x < q + 4096 -> km_mem s' x = km_mem s x) /\
    (forall q, q ∈ l -> q ∈ l' \/ exists i, 0 <= i < 1024 /\ present (pde_of (km_mem s') d i) = true /\ pt_of (km_mem s') d i = q) /\
    ((r = 0 /\ j = S n) \/ (r = -1 /\ l' = [] /\ (j < S n)%nat /\ (length l < absent (km_mem s) d)%nat)).
Proof.
  intros Hwf Hw H0 Ha Hb Hpa Hfree.
  destruct (mappages_range n s d a pa perm l Hwf Hw H0 Ha Hb Hpa Hfree)
    as (r & s' & l' & j & Hrun & Hwf' & [Hw' _ Hf _ _ Hacc] & Hpte & Hr).
  exists r, s', l', j. split_and!; auto. intros q Hq. now apply Hf.
Qed.

Lemma mappages_exact_witness : exists r s' l' j,
  @mappages 0x80210000 0x1000 4096 0x300000 7 (sample_kmem 0x80200000) = Ok r s' /\
  @kmem_wf sample_linker s' l' /\ ((r = 0 /\ j = 1%nat) \/ (r = -1 /\ l' = [])).
Proof.
  destruct (@mappages_exact sample_linker sample_linker_ok 0 (sample_kmem 0x80200000) 0x80210000 0x1000 0x300000 7
    [0x80200000]) as (r & s' & l' & j & Hrun & Hwf & _ & _ & _ & _ & Hr); try (unfold two32; lia); try reflexivity.
  - apply sample_free, (sample_page 0). lia.
  - apply sample_dir; [reflexivity | apply not_in_1; lia].
  - exists r, s', l', j. split_and!; auto. destruct Hr as [|(? & ? & _)]; auto.
Defined.
