(* ===== verification/Uvm.v ===== *)
(** User address spaces: [deallocuvm], [freevm] and [allocuvm] of
    [src/xv6/xv6-public/vm.c].

    On top of [PageTable], an address space owns the frames its user entries
    map ([user_wf]).  The theorems say that growing and shrinking an address
    space changes exactly the entries of the range and moves exactly its frames
    between the address space and the free list, that a growth that runs out of
    memory is rolled back without losing a page, and that [freevm] returns
    every page. *)

From S2P Require Import Prelude Mem Mmu Spinlock Kalloc PageTable.

(** ** vm.c *)

Section Vm.
Context `{LK : Linker}.

(** [for(; a < oldsz; a += PGSIZE)]: where no page table exists the scan skips
    to the last page of the directory slot. *)
Fixpoint deallocuvm_loop (fuel : nat) (pgdir a oldsz : Z) : M kmem unit :=
  match fuel with
  | O => nofuel
  | S k =>
      if negb (a <? oldsz) then ret tt else
      pte <- walkpgdir pgdir a false ;;
      if pte =? 0 then
        let a := u32 (PGADDR (PDX a + 1) 0 0 - PGSIZE) in
        deallocuvm_loop k pgdir (u32 (a + PGSIZE)) oldsz
      else
        v <- rd32 pte ;;
        (if truth (Z.land v PTE_P) then
           let pa := PTE_ADDR v in
           if pa =? 0 then panic "kfree" else
           kfree (P2V pa) ;;;
           wr32 pte 0
         else ret tt) ;;;
        deallocuvm_loop k pgdir (u32 (a + PGSIZE)) oldsz
  end.

Definition deallocuvm (pgdir oldsz newsz : Z) : M kmem Z :=
  if oldsz <=? newsz then ret oldsz else
  let a := PGROUNDUP newsz in
  deallocuvm_loop (Z.to_nat (oldsz / PGSIZE + 2)) pgdir a oldsz ;;;
  ret newsz.

(** [for(i = 0; i < NPDENTRIES; i++)] over the remaining slots. *)
Fixpoint freevm_loop (n : nat) (pgdir i : Z) : M kmem unit :=
  match n with
  | O => ret tt
  | S k =>
      v <- rd32 (pgdir + 4 * i) ;;
      (if truth (Z.land v PTE_P) then kfree (P2V (PTE_ADDR v)) else ret tt) ;;;
      freevm_loop k pgdir (i + 1)
  end.

Definition freevm (pgdir : Z) : M kmem unit :=
  if pgdir =? 0 then panic "freevm: no pgdir" else
  deallocuvm pgdir KERNBASE 0 ;;;
  freevm_loop (Z.to_nat NPDENTRIES) pgdir 0 ;;;
  kfree pgdir.

Fixpoint allocuvm_loop (fuel : nat) (pgdir a oldsz newsz : Z) : M kmem Z :=
  match fuel with
  | O => nofuel
  | S k =>
      if negb (a <? newsz) then ret newsz else
      mem <- kalloc ;;
      if mem =? 0 then deallocuvm pgdir newsz oldsz ;;; ret 0 else
      memset_k mem 0 PGSIZE ;;;
      r <- mappages pgdir a PGSIZE (V2P mem) (Z.lor PTE_W PTE_U) ;;
      if r <? 0 then deallocuvm pgdir newsz oldsz ;;; kfree mem ;;; ret 0
      else allocuvm_loop k pgdir (u32 (a + PGSIZE)) oldsz newsz
  end.

Definition allocuvm (pgdir oldsz newsz : Z) : M kmem Z :=
  if KERNBASE <=? newsz then ret 0 else
  if newsz <? oldsz then ret oldsz else
  let a := PGROUNDUP oldsz in
  allocuvm_loop (Z.to_nat (newsz / PGSIZE + 2)) pgdir a oldsz newsz.

(** ** What an address space owns *)

Definition frame_of (m : mem) (d va : Z) : Z := P2V (PTE_ADDR (pte_of m d va)).

(** Every user mapping owns its frame: an allocated page that is no part of the
    directory, not free, and mapped nowhere else. *)
Record user_wf (m : mem) (d : Z) (l : list Z) : Prop := {
  uw_frame : forall va, 0 <= va < KERNBASE -> present (pte_of m d va) = true ->
    foreign m d l (frame_of m d va);
  uw_inj : forall va va', 0 <= va < KERNBASE -> 0 <= va' < KERNBASE ->
    present (pte_of m d va) = true -> present (pte_of m d va') = true ->
    frame_of m d va = frame_of m d va' -> same_page va va' = true
}.

(** The frames mapped at the [n] pages from [a] on. *)
Definition frames (m : mem) (d a : Z) (n : nat) : list Z :=
  map (frame_of m d) (filter (fun va => present (pte_of m d va) = true) (pages_from a n)).

(** The page tables of the [n] slots from [i] on. *)
Fixpoint tables (m : mem) (d i : Z) (n : nat) : list Z :=
  match n with
  | O => []
  | S k => if present (pde_of m d i) then pt_of m d i :: tables m d (i + 1) k
           else tables m d (i + 1) k
  end.

(** The number of page-aligned addresses in [a, hi). *)
Definition npages (a hi : Z) : nat := Z.to_nat ((hi - a + 4095) / 4096).

(** The free list [freevm] leaves. *)
Definition freevm_list (m : mem) (d : Z) (l : list Z) : list Z :=
  d :: rev (tables m d 0 1024) ++ rev (frames m d 0 (npages 0 KERNBASE)) ++ l.

Definition in_pages (a : Z) (n : nat) (va : Z) : bool :=
  (a <=? u32 va) && (u32 va <? a + 4096 * Z.of_nat n).

(** The effect of returning the frames of [n] pages from [a] on. *)
Record unmapped (s s' : kmem) (d a : Z) (n : nat) (l : list Z) : Prop := {
  um_free : kmem_wf s' (rev (frames (km_mem s) d a n) ++ l);
  um_dir : pgdir_wf (km_mem s') d (rev (frames (km_mem s) d a n) ++ l);
  um_user : user_wf (km_mem s') d (rev (frames (km_mem s) d a n) ++ l);
  um_pde : forall i, 0 <= i < 1024 -> pde_of (km_mem s') d i = pde_of (km_mem s) d i;
  um_pte : forall va, pte_of (km_mem s') d va =
    if in_pages a n va && present (pte_of (km_mem s) d va) then 0 else pte_of (km_mem s) d va;
  um_foreign : forall q, foreign (km_mem s) d l q -> q ∉ frames (km_mem s) d a n ->
    foreign (km_mem s') d (rev (frames (km_mem s) d a n) ++ l) q /\
    (forall x, q <= x < q + 4096 -> km_mem s' x = km_mem s x);
  um_low : forall x, x < sym_end -> km_mem s' x = km_mem s x
}.

(** From [s0] with free list [l0] to [s] with [l]: [k] pages from [a] on are
    mapped to zeroed frames taken off the free list; [held] are the pages taken
    that neither a table nor an entry holds. *)
Record grown (s0 s : kmem) (d a : Z) (k : nat) (l0 l held : list Z) : Prop := {
  gr_free : kmem_wf s l;
  gr_dir : pgdir_wf (km_mem s) d l;
  gr_user : user_wf (km_mem s) d l;
  gr_used : exists used, l0 = used ++ l;
  gr_old : forall va, in_pages a k va = false -> pte_of (km_mem s) d va = pte_of (km_mem s0) d va;
  gr_new : forall va, in_pages a k va = true -> exists f, f ∈ l0 /\ page_ok f /\
    pte_of (km_mem s) d va = V2P f + 7 /\ (forall x, f <= x < f + 4096 -> km_mem s x = 0);
  gr_foreign : forall q, foreign (km_mem s0) d l0 q -> foreign (km_mem s) d l q /\
    (forall x, q <= x < q + 4096 -> km_mem s x = km_mem s0 x);
  gr_tables : forall i, 0 <= i < 1024 -> present (pde_of (km_mem s0) d i) = true ->
    present (pde_of (km_mem s) d i) = true /\ pt_of (km_mem s) d i = pt_of (km_mem s0) d i;
  gr_room : forall c, (c + length held + k + absent (km_mem s0) d <= length l0 ->
    c + absent (km_mem s) d <= length l)%nat;
  gr_account : forall p, p ∈ l0 -> p ∈ l \/ p ∈ held \/
    (exists i, 0 <= i < 1024 /\ present (pde_of (km_mem s) d i) = true /\ pt_of (km_mem s) d i = p) \/
    (exists va, in_pages a k va = true /\ frame_of (km_mem s) d va = p);
  gr_low : forall x, x < sym_end -> km_mem s x = km_mem s0 x
}.

(** The address space as it was, every page taken from [l0] either free again or
    a page table of [d]. *)
Record restored (s0 s : kmem) (d : Z) (l0 l : list Z) : Prop := {
  re_free : kmem_wf s l;
  re_dir : pgdir_wf (km_mem s) d l;
  re_user : user_wf (km_mem s) d l;
  re_pte : forall va, pte_of (km_mem s) d va = pte_of (km_mem s0) d va;
  re_account : forall p, p ∈ l0 -> p ∈ l \/
    exists i, 0 <= i < 1024 /\ present (pde_of (km_mem s) d i) = true /\ pt_of (km_mem s) d i = p;
  re_foreign : forall q, foreign (km_mem s0) d l0 q -> foreign (km_mem s) d l q /\
    (forall x, q <= x < q + 4096 -> km_mem s x = km_mem s0 x);
  re_low : forall x, x < sym_end -> km_mem s x = km_mem s0 x;
  re_tables : forall i, 0 <= i < 1024 -> present (pde_of (km_mem s0) d i) = true ->
    present (pde_of (km_mem s) d i) = true /\ pt_of (km_mem s) d i = pt_of (km_mem s0) d i
}.

(** ** Lemmas *)

Context {LKOK : LinkerOk}.

Lemma kfree_foreign s d l f : kmem_wf s l -> pgdir_wf (km_mem s) d l -> foreign (km_mem s) d l f ->
  exists s1, kfree f s = Ok tt s1 /\ kmem_wf s1 (f :: l) /\ pgdir_wf (km_mem s1) d (f :: l) /\
    (forall i, 0 <= i < 1024 -> pde_of (km_mem s1) d i = pde_of (km_mem s) d i) /\
    (forall va, pte_of (km_mem s1) d va = pte_of (km_mem s) d va) /\
    (forall q, page_ok q -> q <> f -> forall x, q <= x < q + 4096 -> km_mem s1 x = km_mem s x) /\
    (forall x, x < sym_end -> km_mem s1 x = km_mem s x).
Proof.
  intros Hwf Hw (Hf & Hfl & Hfd & Hft). destruct (kfree_push s f l Hwf Hf Hfl) as [Hrun Hwf1].
  set (s1 := set_freelist f (set_mem (freed_mem s f) s)) in *.
  assert (Hout : forall q, page_ok q -> q <> f -> forall x, q <= x < q + 4096 -> km_mem s1 x = km_mem s x).
  { intros q Hq Hne x Hx. pose proof (page_disjoint q f Hq Hf Hne). apply freed_mem_out. lia. }
  assert (Hd : forall x, d <= x < d + 4096 -> km_mem s1 x = km_mem s x)
    by (apply Hout; auto; apply Hw).
  assert (Hpde : forall i, 0 <= i < 1024 -> pde_of (km_mem s1) d i = pde_of (km_mem s) d i)
    by (intros; now apply pde_ext).
  exists s1. split_and!; auto.
  - constructor.
    + apply Hw.
    + rewrite not_elem_of_cons. split; [auto | apply Hw].
    + intros i Hi. unfold pt_of. rewrite Hpde by exact Hi. intros Hp.
      destruct (pw_tab _ _ _ Hw i Hi Hp) as (? & ? & ?). split_and!; auto.
      rewrite not_elem_of_cons. split; [now apply Hft | auto].
    + intros i j Hi Hj. unfold pt_of. rewrite !Hpde by auto. now apply (pw_inj _ _ _ Hw).
  - intros va. apply pte_of_ext; [exact Hd|]. intros Hp. pose proof (PDX_range va).
    apply Hout; [now apply (pw_tab _ _ _ Hw) | now apply Hft].
  - intros x Hx. destruct Hf as (_ & Hf & _). apply freed_mem_out. lia.
Qed.

(** Ownership only depends on the user entries and on which pages are foreign. *)
Lemma user_wf_sub m m' d l l' : user_wf m d l ->
  (forall va, 0 <= va < KERNBASE -> present (pte_of m' d va) = true ->
     pte_of m' d va = pte_of m d va /\ foreign m' d l' (frame_of m d va)) ->
  user_wf m' d l'.
Proof.
  intros [Hf Hi] Hsub. constructor.
  - intros va Hva Hp. destruct (Hsub va Hva Hp) as [E Hfor]. unfold frame_of. now rewrite E.
  - intros va va' Hva Hva' Hp Hp'. destruct (Hsub va Hva Hp) as [E _].
    destruct (Hsub va' Hva' Hp') as [E' _]. unfold frame_of. rewrite E, E' in *. now apply Hi.
Qed.

Lemma same_page_pte m d va va' : same_page va va' = true -> pte_of m d va = pte_of m d va'.
Proof.
  intros [E1 E2]%same_page_spec. unfold pte_of, walk. now rewrite E1, E2.
Qed.

Lemma frame_pa m d l va : pgdir_wf m d l -> user_wf m d l -> 0 <= va < KERNBASE ->
  present (pte_of m d va) = true -> PTE_ADDR (pte_of m d va) <> 0.
Proof.
  intros Hw Hu Hva Hp E. destruct (uw_frame _ _ _ Hu va Hva Hp) as (Hok & _).
  unfold frame_of in Hok. rewrite E in Hok. apply page_ok_bounds in Hok.
  change (P2V 0) with KERNBASE in Hok. lia.
Qed.

(** One present page goes back to the free list. *)
Lemma unmap_page s d l a : kmem_wf s l -> pgdir_wf (km_mem s) d l -> user_wf (km_mem s) d l ->
  0 <= a < KERNBASE -> present (pte_of (km_mem s) d a) = true ->
  let f := frame_of (km_mem s) d a in
  exists s', (kfree f ;;; wr32 (walk (km_mem s) d a) 0) s = Ok tt s' /\
    kmem_wf s' (f :: l) /\ pgdir_wf (km_mem s') d (f :: l) /\ user_wf (km_mem s') d (f :: l) /\
    (forall i, 0 <= i < 1024 -> pde_of (km_mem s') d i = pde_of (km_mem s) d i) /\
    (forall va, pte_of (km_mem s') d va = if same_page a va then 0 else pte_of (km_mem s) d va) /\
    (forall q, foreign (km_mem s) d l q -> q <> f ->
       foreign (km_mem s') d (f :: l) q /\ (forall x, q <= x < q + 4096 -> km_mem s' x = km_mem s x)) /\
    (forall x, x < sym_end -> km_mem s' x = km_mem s x).
Proof.
  intros Hwf Hw Hu Ha Hp f. pose proof (PDX_range a) as Hr.
  assert (Hpd : present (pde_of (km_mem s) d (PDX a)) = true).
  { unfold pte_of in Hp. destruct (present (pde_of (km_mem s) d (PDX a))); [reflexivity | discriminate]. }
  destruct (kfree_foreign s d l f Hwf Hw (uw_frame _ _ _ Hu a Ha Hp))
    as (s1 & Hrun & Hwf1 & Hw1 & Hpde1 & Hpte1 & Hout1 & Hlow1).
  rewrite (bind_ok _ _ _ _ _ Hrun).
  assert (Hpd1 : present (pde_of (km_mem s1) d (PDX a)) = true) by now rewrite Hpde1.
  assert (Hwk : walk (km_mem s) d a = walk (km_mem s1) d a) by (unfold walk, pt_of; now rewrite Hpde1).
  destruct (pte_write s1 d a 0 (f :: l) Hwf1 Hw1 Hpd1) as (Hwf2 & Hst2 & Hpte2).
  rewrite Hwk. set (m2 := store32 (km_mem s1) (walk (km_mem s1) d a) 0) in *.
  exists (set_mem m2 s1). cbn [km_mem set_mem].
  assert (Hpte : forall va, pte_of m2 d va = if same_page a va then 0 else pte_of (km_mem s) d va)
    by (intros va; rewrite Hpte2, Hpte1; reflexivity).
  assert (Hfor : forall q, foreign (km_mem s) d l q -> q <> f ->
       foreign m2 d (f :: l) q /\ (forall x, q <= x < q + 4096 -> m2 x = km_mem s x)).
  { intros q (Hq & Hql & Hqd & Hqt) Hne.
    assert (Hq1 : foreign (km_mem s1) d (f :: l) q).
    { split_and!; auto; [rewrite not_elem_of_cons; auto|].
      intros i Hi. unfold pt_of. rewrite Hpde1 by exact Hi. now apply Hqt. }
    destruct (ps_foreign _ _ _ _ _ Hst2 q Hq1) as [Hq2 E2]. split; [exact Hq2|].
    intros x Hx. rewrite E2 by exact Hx. now apply (Hout1 q). }
  split_and!; auto.
  - apply Hst2.
  - apply (user_wf_sub (km_mem s) _ _ l); [exact Hu|]. intros va Hva. rewrite Hpte.
    destruct (same_page a va) eqn:E; [discriminate|]. intros Hpv. split; [reflexivity|].
    apply Hfor; [now apply Hu|]. intros Ef. rewrite (uw_inj _ _ _ Hu a va) in E; auto. discriminate.
  - intros i Hi. rewrite <- Hpde1 by exact Hi. apply pde_ext; [exact Hi|].
    intros x Hx. unfold m2, walk. rewrite Hpd1.
    destruct (pw_tab _ _ _ Hw1 _ Hr Hpd1) as (Htok & Htd & _). pose proof (PTX_range a).
    pose proof (page_disjoint _ _ Htok (pw_dir _ _ _ Hw1) Htd). apply store32_frame. lia.
  - intros x Hx. rewrite <- Hlow1 by exact Hx. unfold m2, walk. rewrite Hpd1.
    destruct (pw_tab _ _ _ Hw1 _ Hr Hpd1) as ((_ & Htok & _) & _). pose proof (PTX_range a). apply store32_frame. lia.
Qed.

Lemma pages_from_app j : forall a r,
  pages_from a (j + r) = pages_from a j ++ pages_from (a + 4096 * Z.of_nat j) r.
Proof.
  induction j as [|j IH]; intros a r; cbn.
  - now rewrite Z.mul_0_r, Z.add_0_r.
  - rewrite IH. do 3 f_equal. lia.
Qed.

Lemma frames_app m d a j r : frames m d a (j + r) = frames m d a j ++ frames m d (a + 4096 * Z.of_nat j) r.
Proof. unfold frames. now rewrite pages_from_app, filter_app, map_app. Qed.

Lemma frames_nil m d a n :
  (forall va, va ∈ pages_from a n -> present (pte_of m d va) = false) -> frames m d a n = [].
Proof.
  intros Hn. unfold frames. induction (pages_from a n) as [|v vs IH]; [reflexivity|].
  rewrite filter_cons. rewrite decide_False; [apply IH; intros; apply Hn, elem_of_cons; auto|].
  rewrite Hn; [discriminate | apply elem_of_cons; auto].
Qed.

Lemma frames_ext m m' d a n :
  (forall va, va ∈ pages_from a n -> pte_of m' d va = pte_of m d va) -> frames m' d a n = frames m d a n.
Proof.
  intros Hn. unfold frames. induction (pages_from a n) as [|v vs IH]; [reflexivity|].
  assert (E : pte_of m' d v = pte_of m d v) by (apply Hn, elem_of_cons; auto).
  specialize (IH ltac:(intros; apply Hn, elem_of_cons; auto)).
  rewrite !filter_cons, E. destruct (decide _); cbn [map]; [|exact IH].
  rewrite IH. unfold frame_of. now rewrite E.
Qed.

Lemma frames_S m d a n : frames m d a (S n) =
  if present (pte_of m d a) then frame_of m d a :: frames m d (a + 4096) n else frames m d (a + 4096) n.
Proof.
  unfold frames. cbn [pages_from]. rewrite filter_cons.
  destruct (present (pte_of m d a)) eqn:E; [rewrite decide_True by exact eq_refl | rewrite decide_False by discriminate]; reflexivity.
Qed.

(** Where a directory slot is empty no page of its 4 MB is mapped. *)
Lemma absent_slot_pte m d a va : present (pde_of m d (PDX a)) = false ->
  PDX va = PDX a -> present (pte_of m d va) = false.
Proof. intros Hp E. unfold pte_of. now rewrite E, Hp. Qed.

Lemma unmapped_0 s d a l : kmem_wf s l -> pgdir_wf (km_mem s) d l -> user_wf (km_mem s) d l ->
  unmapped s s d a 0 l.
Proof.
  intros Hwf Hw Hu. constructor; cbn; auto.
  intros va. unfold in_pages. case_bool; [lia | reflexivity].
Qed.

Lemma unmapped_skip s s' d a j r l :
  (forall va, in_pages a j va = true -> present (pte_of (km_mem s) d va) = false) ->
  0 <= a -> a + 4096 * Z.of_nat j <= two32 ->
  unmapped s s' d (a + 4096 * Z.of_nat j) r l -> unmapped s s' d a (j + r) l.
Proof.
  intros Hnp H0 Hb [Hfr Hdir Hus Hpde Hpte Hfor Hlow].
  assert (E : frames (km_mem s) d a (j + r) = frames (km_mem s) d (a + 4096 * Z.of_nat j) r).
  { rewrite frames_app, frames_nil; [reflexivity|]. intros va Hva%pages_from_elem. apply Hnp.
    unfold in_pages. rewrite u32_small by lia.
    apply andb_true_intro. rewrite Z.leb_le, Z.ltb_lt. lia. }
  constructor; rewrite ?E; auto. intros va. rewrite Hpte.
  destruct (present (pte_of (km_mem s) d va)) eqn:Ep; [|now rewrite !andb_false_r].
  assert (Hj : in_pages a j va = false) by (destruct (in_pages a j va) eqn:Ej; [rewrite Hnp in Ep by exact Ej; discriminate | reflexivity]).
  replace (in_pages (a + 4096 * Z.of_nat j) r va) with (in_pages a (j + r) va); [reflexivity|].
  unfold in_pages in *. apply eq_true_iff_eq. rewrite !andb_true_iff, !Z.leb_le, !Z.ltb_lt.
  bool_split; lia.
Qed.

Lemma unmapped_cons s s1 s2 d a n l :
  0 <= a -> a mod 4096 = 0 -> a + 4096 * Z.of_nat (S n) <= two32 -> a < KERNBASE ->
  present (pte_of (km_mem s) d a) = true ->
  user_wf (km_mem s) d l ->
  (forall i, 0 <= i < 1024 -> pde_of (km_mem s1) d i = pde_of (km_mem s) d i) ->
  (forall va, pte_of (km_mem s1) d va = if same_page a va then 0 else pte_of (km_mem s) d va) ->
  (forall q, foreign (km_mem s) d l q -> q <> frame_of (km_mem s) d a ->
     foreign (km_mem s1) d (frame_of (km_mem s) d a :: l) q /\
     (forall x, q <= x < q + 4096 -> km_mem s1 x = km_mem s x)) ->
  (forall x, x < sym_end -> km_mem s1 x = km_mem s x) ->
  unmapped s1 s2 d (a + 4096) n (frame_of (km_mem s) d a :: l) -> unmapped s s2 d a (S n) l.
Proof.
  intros H0 Ha Hb Hk Hp Hu Hpde1 Hpte1 Hfor1 Hlow1 [Hfr Hdir Hus Hpde Hpte Hfor Hlow].
  assert (Hsp : forall va, same_page a va = in_pages a 1 va).
  { intros va. unfold same_page, in_pages. rewrite (u32_small a) by lia.
    pose proof (u32_bound va). apply eq_true_iff_eq.
    rewrite andb_true_iff, Z.leb_le, Z.ltb_lt, Z.eqb_eq. unfold two32 in *. split; intros; word_lia. }
  assert (E1 : frames (km_mem s1) d (a + 4096) n = frames (km_mem s) d (a + 4096) n).
  { apply frames_ext. intros va Hva%pages_from_elem. rewrite Hpte1, Hsp. unfold in_pages.
    rewrite u32_small by lia. case_bool; [lia | reflexivity]. }
  assert (E : rev (frames (km_mem s) d a (S n)) ++ l =
              rev (frames (km_mem s1) d (a + 4096) n) ++ frame_of (km_mem s) d a :: l).
  { rewrite frames_S, Hp, E1. cbn [rev]. now rewrite <- app_assoc. }
  constructor; rewrite ?E; auto.
  - intros i Hi. rewrite Hpde by exact Hi. now apply Hpde1.
  - intros va. rewrite Hpte, Hpte1, Hsp. unfold in_pages.
    destruct (present (pte_of (km_mem s) d va)) eqn:Ep;
      destruct (Z.leb_spec a (u32 va)), (Z.ltb_spec (u32 va) (a + 4096 * Z.of_nat 1)),
        (Z.leb_spec (a + 4096) (u32 va)), (Z.ltb_spec (u32 va) (a + 4096 + 4096 * Z.of_nat n)),
        (Z.ltb_spec (u32 va) (a + 4096 * Z.of_nat (S n))); cbn [andb]; rewrite ?Ep; try lia; try reflexivity.
    exfalso. assert (Es : same_page a va = true).
    { rewrite Hsp. unfold in_pages. apply andb_true_intro. rewrite Z.leb_le, Z.ltb_lt. lia. }
    apply (same_page_pte (km_mem s) d) in Es. congruence.
  - intros q Hq Hqf. rewrite frames_S, Hp, not_elem_of_cons in Hqf. destruct Hqf as [Hq1 Hq2].
    destruct (Hfor1 q Hq Hq1) as [Hf1 C1]. destruct (Hfor q Hf1) as [Hf2 C2]; [now rewrite E1|].
    split; [exact Hf2|]. intros x Hx. now rewrite C2, C1.
  - intros x Hx. now rewrite Hlow, Hlow1.
Qed.

Lemma deallocuvm_loop_spec : forall n fuel s a oldsz l d,
  Z.of_nat n = Z.max 0 ((oldsz - a + 4095) / 4096) -> (n < fuel)%nat ->
  0 <= a <= KERNBASE -> a mod 4096 = 0 -> oldsz <= KERNBASE ->
  kmem_wf s l -> pgdir_wf (km_mem s) d l -> user_wf (km_mem s) d l ->
  exists s', deallocuvm_loop fuel d a oldsz s = Ok tt s' /\ unmapped s s' d a n l.
Proof.
  induction n as [n IH] using lt_wf_ind.
  intros fuel s a oldsz l d Hn Hf H0 Ha Ho Hwf Hw Hu.
  destruct fuel as [|fuel]; [lia|]. cbn [deallocuvm_loop].
  destruct (Z.ltb_spec a oldsz) as [Hlt|Hge]; cbn [negb].
  2: { replace n with 0%nat by word_lia. exists s. auto using unmapped_0. }
  destruct n as [|n]; [word_lia|]. unfold KERNBASE in H0, Ho.
  rewrite (bind_ok _ _ _ _ _ (walkpgdir_lookup d a s)).
  destruct (present (pde_of (km_mem s) d (PDX a))) eqn:Epd.
  - rewrite (proj2 (Z.eqb_neq _ _)) by (eapply walk_nonzero; eauto).
    assert (Hload : load32 (km_mem s) (walk (km_mem s) d a) = pte_of (km_mem s) d a) by (unfold pte_of; now rewrite Epd).
    rewrite (bind_ok _ _ _ _ _ (eq_refl : rd32 _ s = _)), Hload.
    fold (present (pte_of (km_mem s) d a)). cbv zeta. unfold PGSIZE.
    rewrite (u32_small (a + 4096)) by (unfold two32; lia).
    destruct (present (pte_of (km_mem s) d a)) eqn:Ep.
    + rewrite (proj2 (Z.eqb_neq _ _)) by (eapply frame_pa; eauto; unfold KERNBASE; lia).
      destruct (unmap_page s d l a Hwf Hw Hu) as (s1 & Hrun & Hwf1 & Hw1 & Hu1 & Hpde1 & Hpte1 & Hfor1 & Hlow1);
        [unfold KERNBASE; lia | exact Ep|].
      fold (frame_of (km_mem s) d a). rewrite (bind_ok _ _ _ _ _ Hrun).
      destruct (IH n ltac:(lia) fuel s1 (a + 4096) oldsz (frame_of (km_mem s) d a :: l) d) as (s2 & Hrun2 & Hum);
        auto; try lia; [word_lia | unfold KERNBASE; word_lia | word_lia |].
      exists s2. split; [exact Hrun2|]. eapply unmapped_cons with (s1 := s1); eauto; try lia;
        unfold KERNBASE, two32; word_lia.
    + rewrite (bind_ok _ _ _ _ _ (eq_refl : ret tt s = _)).
      destruct (IH n ltac:(lia) fuel s (a + 4096) oldsz l d) as (s2 & Hrun2 & Hum);
        auto; try lia; [word_lia | unfold KERNBASE; word_lia | word_lia |].
      exists s2. split; [exact Hrun2|]. apply (unmapped_skip s s2 d a 1 n); [| lia | unfold two32; lia | exact Hum].
      intros va Hva. rewrite <- Ep. f_equal. symmetry. apply same_page_pte.
      unfold in_pages, same_page in *. bool_prop. apply Z.eqb_eq. rewrite (u32_small a) by (unfold two32; lia). word_lia.
  - assert (Hw0 : walk (km_mem s) d a = 0) by (unfold walk; now rewrite Epd).
    rewrite Hw0. cbn [Z.eqb]. change (0 =? 0) with true. cbv iota zeta. unfold PGSIZE.
    pose proof (PDX_eq a) as Epx. rewrite (u32_small a) in Epx by (unfold two32; lia).
    rewrite PGADDR_eq by (rewrite ?Epx; word_lia). rewrite Epx.
    set (a' := (a / 4194304 + 1) * 4194304 + 0 * 4096 + 0).
    replace (u32 (u32 (a' - 4096) + 4096)) with a' by (unfold a'; word_lia).
    set (k := Z.to_nat ((a' - a) / 4096)). assert (Hk : Z.of_nat k * 4096 = a' - a /\ (0 < k)%nat)
      by (unfold k, a'; split; word_lia).
    assert (Ha' : a' <= 2147483648 /\ a' mod 4096 = 0 /\ a < a') by (unfold a'; split_and!; word_lia).
    assert (Hnp : forall j va, (j <= k)%nat -> in_pages a j va = true -> present (pte_of (km_mem s) d va) = false).
    { intros j va Hj Hin. apply absent_slot_pte with (a := a); [exact Epd|]. rewrite Epx, PDX_eq.
      unfold in_pages in Hin. bool_prop. unfold a' in *. word_lia. }
    destruct (decide (k <= S n)%nat) as [Hkn|Hkn].
    + destruct (IH (S n - k)%nat ltac:(lia) fuel s a' oldsz l d) as (s2 & Hrun2 & Hum);
        auto; try lia; [word_lia | unfold KERNBASE; lia | ].
      exists s2. split; [exact Hrun2|]. replace (S n) with (k + (S n - k))%nat by lia.
      apply unmapped_skip; [intros va; apply Hnp; lia | lia | unfold two32; lia |].
      replace (a + 4096 * Z.of_nat k) with a' by lia. exact Hum.
    + destruct (IH 0%nat ltac:(lia) fuel s a' oldsz l d) as (s2 & Hrun2 & Hum);
        auto; try lia; [word_lia | unfold KERNBASE; lia |].
      exists s2. split; [exact Hrun2|]. replace (S n) with (S n + 0)%nat by lia.
      apply unmapped_skip; [intros va; apply Hnp; lia | lia | unfold two32; lia |].
      destruct Hum as [A B C D E F G]. constructor; auto.
      intros va. rewrite E. unfold in_pages. repeat case_bool; try reflexivity; lia.
Qed.

Lemma deallocuvm_spec s d l oldsz newsz :
  0 <= newsz < oldsz -> oldsz <= KERNBASE ->
  kmem_wf s l -> pgdir_wf (km_mem s) d l -> user_wf (km_mem s) d l ->
  exists s', deallocuvm d oldsz newsz s = Ok newsz s' /\
    unmapped s s' d (PGROUNDUP newsz) (npages (PGROUNDUP newsz) oldsz) l.
Proof.
  intros Hn Ho Hwf Hw Hu. unfold deallocuvm. rewrite (proj2 (Z.leb_gt _ _)) by lia. cbv zeta.
  unfold KERNBASE in *. rewrite PGROUNDUP_eq by (unfold two32; lia).
  set (a := (newsz + 4095) / 4096 * 4096) in *.
  destruct (deallocuvm_loop_spec (npages a oldsz) (Z.to_nat (oldsz / PGSIZE + 2)) s a oldsz l d)
    as (s' & Hrun & Hum); auto; unfold npages, PGSIZE, KERNBASE, a; try word_lia.
  rewrite (bind_ok _ _ _ _ _ Hrun). eauto.
Qed.

Lemma tables_ext m m' d n : forall i, 0 <= i -> i + Z.of_nat n <= 1024 ->
  (forall j, 0 <= j < 1024 -> pde_of m' d j = pde_of m d j) -> tables m' d i n = tables m d i n.
Proof.
  induction n as [|n IH]; intros i H0 Hi E; cbn [tables]; [reflexivity|].
  unfold pt_of. rewrite E by lia. rewrite IH by (auto; lia). reflexivity.
Qed.

Lemma tables_elem m d n : forall i t, 0 <= i -> i + Z.of_nat n <= 1024 -> t ∈ tables m d i n ->
  exists j, i <= j < i + Z.of_nat n /\ present (pde_of m d j) = true /\ t = pt_of m d j.
Proof.
  induction n as [|n IH]; intros i t H0 Hi Ht; cbn [tables] in Ht; [now apply not_elem_of_nil in Ht|].
  assert (Hrec : t ∈ tables m d (i + 1) n -> exists j, i <= j < i + Z.of_nat (S n) /\ present (pde_of m d j) = true /\ t = pt_of m d j).
  { intros Hin. destruct (IH (i + 1) t) as (j & ? & ? & ?); auto; [lia | lia | exists j; split_and!; auto; lia]. }
  destruct (present (pde_of m d i)) eqn:E; [|auto].
  apply elem_of_cons in Ht as [->|Ht]; [|auto]. exists i. split_and!; auto; lia.
Qed.

Lemma freevm_loop_spec n : forall s i d l, 0 <= i -> i + Z.of_nat n <= 1024 ->
  kmem_wf s l -> page_ok d ->
  (forall j, i <= j < i + Z.of_nat n -> present (pde_of (km_mem s) d j) = true ->
     page_ok (pt_of (km_mem s) d j) /\ pt_of (km_mem s) d j <> d /\ pt_of (km_mem s) d j ∉ l) ->
  (forall j k, i <= j < i + Z.of_nat n -> i <= k < i + Z.of_nat n ->
     present (pde_of (km_mem s) d j) = true -> present (pde_of (km_mem s) d k) = true ->
     pt_of (km_mem s) d j = pt_of (km_mem s) d k -> j = k) ->
  exists s', freevm_loop n d i s = Ok tt s' /\ kmem_wf s' (rev (tables (km_mem s) d i n) ++ l) /\
    (forall q, page_ok q -> q ∉ tables (km_mem s) d i n ->
       forall x, q <= x < q + 4096 -> km_mem s' x = km_mem s x) /\
    (forall x, x < sym_end -> km_mem s' x = km_mem s x).
Proof.
  induction n as [|n IH]; intros s i d l H0 Hi Hwf Hd Ht Hinj; cbn [freevm_loop tables].
  - exists s. auto.
  - rewrite (bind_ok _ _ _ _ _ (eq_refl : rd32 _ s = _)).
    fold (pde_of (km_mem s) d i). fold (present (pde_of (km_mem s) d i)).
    fold (pt_of (km_mem s) d i).
    destruct (present (pde_of (km_mem s) d i)) eqn:E.
    + destruct (Ht i ltac:(lia) E) as (Htok & Htd & Htl).
      destruct (kfree_push s _ l Hwf Htok Htl) as [Hrun Hwf1].
      set (t := pt_of (km_mem s) d i) in *. set (s1 := set_freelist t (set_mem (freed_mem s t) s)) in *.
      rewrite (bind_ok _ _ _ _ _ Hrun).
      assert (Hpde : forall j, 0 <= j < 1024 -> pde_of (km_mem s1) d j = pde_of (km_mem s) d j).
      { intros j Hj. apply pde_ext; [exact Hj|]. intros x Hx.
        pose proof (page_disjoint t d Htok Hd Htd). apply freed_mem_out. lia. }
      destruct (IH s1 (i + 1) d (t :: l)) as (s2 & Hrun2 & Hwf2 & Hfr2 & Hlow2); auto; try lia.
      * intros j Hj. unfold pt_of. rewrite Hpde by lia. intros Hp. fold (pt_of (km_mem s) d j).
        destruct (Ht j ltac:(lia) Hp) as (? & ? & ?). split_and!; auto. rewrite not_elem_of_cons.
        split; [|auto]. intros Et. assert (j = i) by (apply Hinj; auto; lia). lia.
      * intros j k Hj Hk. unfold pt_of. rewrite !Hpde by lia. apply Hinj; lia.
      * exists s2. split; [exact Hrun2|]. cbn [rev]. rewrite <- app_assoc. cbn [app].
        rewrite <- (tables_ext (km_mem s) (km_mem s1)) by (auto; lia). split; [exact Hwf2|].
        split; [|intros x Hx; rewrite Hlow2 by exact Hx; destruct Htok as (_ & ? & _); apply freed_mem_out; lia].
        intros q Hq [Hqt Hqr]%not_elem_of_cons x Hx. rewrite (Hfr2 q) by auto.
        pose proof (page_disjoint q t Hq Htok Hqt). apply freed_mem_out. lia.
    + rewrite (bind_ok _ _ _ _ _ (eq_refl : ret tt s = _)). apply IH; auto; try lia.
      * intros j Hj. apply Ht. lia.
      * intros j k Hj Hk. apply Hinj; lia.
Qed.

Lemma frames_elem m d a n f : f ∈ frames m d a n ->
  exists va, a <= va < a + 4096 * Z.of_nat n /\ present (pte_of m d va) = true /\ f = frame_of m d va.
Proof.
  unfold frames. intros (va & -> & Hva)%list_elem_of_fmap.
  apply list_elem_of_filter in Hva as [Hp Hva]. apply pages_from_elem in Hva as [Hb _]. eauto.
Qed.

(** [freevm] gives back the frames, the page tables and the directory. *)
Lemma freevm_spec s d l : kmem_wf s l -> pgdir_wf (km_mem s) d l -> user_wf (km_mem s) d l ->
  exists s', freevm d s = Ok tt s' /\
    kmem_wf s' (freevm_list (km_mem s) d l) /\
    (forall q, foreign (km_mem s) d l q -> q ∉ frames (km_mem s) d 0 (npages 0 KERNBASE) ->
       forall x, q <= x < q + 4096 -> km_mem s' x = km_mem s x) /\
    (forall x, x < sym_end -> km_mem s' x = km_mem s x).
Proof.
  intros Hwf Hw Hu. unfold freevm.
  pose proof (pw_dir _ _ _ Hw) as Hd.
  rewrite (proj2 (Z.eqb_neq _ _)) by now apply page_ok_nonzero.
  destruct (deallocuvm_spec s d l KERNBASE 0) as (s1 & Hrun1 & [Hfr Hdir Hus Hpde _ Hkeep Hlow1]); auto;
    [unfold KERNBASE; lia | lia |].
  change (PGROUNDUP 0) with 0 in *. rewrite (bind_ok _ _ _ _ _ Hrun1).
  destruct (freevm_loop_spec 1024 s1 0 d (rev (frames (km_mem s) d 0 (npages 0 KERNBASE)) ++ l))
    as (s2 & Hrun2 & Hwf2 & Hkeep2 & Hlow2); auto; try lia.
  - intros j Hj. now apply (pw_tab _ _ _ Hdir).
  - intros j k Hj Hk. apply (pw_inj _ _ _ Hdir); lia.
  - change (Z.to_nat NPDENTRIES) with 1024%nat. rewrite (bind_ok _ _ _ _ _ Hrun2).
    rewrite (tables_ext (km_mem s) (km_mem s1)) in Hwf2, Hkeep2 by (auto; lia).
    destruct (kfree_push s2 d _ Hwf2 Hd) as [Hrun3 Hwf3].
    + rewrite elem_of_app, elem_of_rev.
      intros [Hin|Hin]; [|now apply (pw_dir_free _ _ _ Hdir)].
      destruct (tables_elem (km_mem s) d 1024 0 d ltac:(lia) ltac:(lia) Hin) as (j & Hj & Hp & E).
      destruct (pw_tab _ _ _ Hw j ltac:(lia) Hp) as (_ & Hne & _). congruence.
    + eexists. split; [exact Hrun3|]. split; [exact Hwf3|].
      split; [|intros x Hx; cbn [km_mem set_mem set_freelist]; destruct Hd as (_ & ? & _); rewrite freed_mem_out, Hlow2, Hlow1 by lia; reflexivity].
      intros q Hq Hqf x Hx.
      pose proof Hq as (Hqok & _ & Hqd & Hqt). pose proof (page_disjoint q d Hqok Hd Hqd).
      cbn [km_mem set_mem set_freelist]. rewrite freed_mem_out by lia.
      rewrite (Hkeep2 q) by (auto; intros (j & Hj & Hp & E)%tables_elem; try lia; now apply (Hqt j)).
      destruct (Hkeep q Hq Hqf) as [_ E]. now apply E.
Qed.

(** *** Growing an address space *)

Lemma user_pte f : page_ok f ->
  u32 (Z.lor (Z.lor (V2P f) (Z.lor PTE_W PTE_U)) PTE_P) = V2P f + 7 /\
  present (V2P f + 7) = true /\ PTE_ADDR (V2P f + 7) = V2P f /\ P2V (PTE_ADDR (V2P f + 7)) = f.
Proof.
  intros Hf. pose proof (page_ok_bounds f Hf) as Hb. pose proof (V2P_page f Hf) as Hv.
  destruct Hf as (Ha & _). unfold KERNBASE, PHYSTOP in *.
  assert (Hal : V2P f mod 4096 = 0) by (rewrite Hv; word_lia).
  rewrite <- Z.lor_assoc. change (Z.lor (Z.lor PTE_W PTE_U) PTE_P) with 7.
  rewrite (lor_aligned (V2P f) 7 12) by (assumption || lia).
  rewrite present_odd, PTE_ADDR_eq, u32_small by (unfold two32; lia).
  split_and!; [reflexivity | | word_lia | unfold P2V, KERNBASE; word_lia].
  rewrite Z.odd_add. replace (Z.odd (V2P f)) with false; [reflexivity|].
  symmetry. rewrite <- Z.negb_even. apply negb_false_iff, Z.even_spec.
  exists (V2P f / 2). word_lia.
Qed.

(** Pages of [l] that are off the free list afterwards stay disjoint from what
    the directory owned. *)
Lemma foreign_popped s d p l : kmem_wf s (p :: l) -> pgdir_wf (km_mem s) d (p :: l) ->
  foreign (km_mem s) d l p.
Proof.
  intros (_ & Hnd & Hok & _) Hw. inversion Hnd; inversion Hok; subst. split_and!; auto.
  - intros ->. apply (pw_dir_free _ _ _ Hw), elem_of_cons; auto.
  - intros i Hi Hp E. destruct (pw_tab _ _ _ Hw i Hi Hp) as (_ & _ & Hl).
    apply Hl. rewrite E. apply elem_of_cons; auto.
Qed.

Lemma foreign_tail m d p l q : foreign m d (p :: l) q -> foreign m d l q.
Proof.
  intros (Hq & Hl & Hd & Ht). split_and!; auto. intros Hin. apply Hl, elem_of_cons; auto.
Qed.

Lemma pgdir_wf_tail m d p l : pgdir_wf m d (p :: l) -> pgdir_wf m d l.
Proof.
  intros Hw. apply (pgdir_wf_ext m m d (p :: l) l); auto.
  intros q Hq. apply elem_of_cons; auto.
Qed.

(** [kalloc] and [memset(mem, 0, PGSIZE)]. *)
Lemma alloc_zeroed s d p l : kmem_wf s (p :: l) -> pgdir_wf (km_mem s) d (p :: l) ->
  exists s1, (memset_k p 0 PGSIZE) (set_freelist (load32 (km_mem s) p) s) = Ok tt s1 /\
    kmem_wf s1 l /\ pgdir_wf (km_mem s1) d l /\
    (forall va, pte_of (km_mem s1) d va = pte_of (km_mem s) d va) /\
    (forall i, 0 <= i < 1024 -> pde_of (km_mem s1) d i = pde_of (km_mem s) d i) /\
    (forall x, p <= x < p + 4096 -> km_mem s1 x = 0) /\
    (forall q, page_ok q -> q <> p -> forall x, q <= x < q + 4096 -> km_mem s1 x = km_mem s x) /\
    (forall x, x < sym_end -> km_mem s1 x = km_mem s x).
Proof.
  intros Hwf Hw. destruct (kalloc_pop s p l Hwf) as [_ Hwf0].
  destruct (foreign_popped s d p l Hwf Hw) as (Hp & Hpl & Hpd & Hpt).
  set (m1 := memset (km_mem s) p 0 PGSIZE).
  assert (Hout : forall q, page_ok q -> q <> p -> forall x, q <= x < q + 4096 -> m1 x = km_mem s x).
  { intros q Hq Hne x Hx. pose proof (page_disjoint q p Hq Hp Hne).
    apply memset_out; unfold PGSIZE; lia. }
  assert (Hd : forall x, d <= x < d + 4096 -> m1 x = km_mem s x) by (apply Hout; auto; apply Hw).
  exists (set_mem m1 (set_freelist (load32 (km_mem s) p) s)). cbn [km_mem set_mem]. split_and!; auto.
  - apply kmem_wf_set_mem; [exact Hwf0 | apply mem_ok_memset; [unfold PGSIZE; lia | apply Hwf] |].
    intros q x Hq. apply Hout; [|congruence].
    destruct Hwf0 as (_ & _ & Hl & _). rewrite Forall_forall in Hl. auto.
  - apply (pgdir_wf_ext (km_mem s) m1 d (p :: l) l Hw); [|exact Hd]. intros; apply elem_of_cons; auto.
  - intros va. apply pte_of_ext; [exact Hd|]. intros Hpr. pose proof (PDX_range va).
    apply Hout; [now apply (pw_tab _ _ _ Hw) | now apply Hpt].
  - intros i Hi. apply pde_ext; auto.
  - intros x Hx. apply memset_in. unfold PGSIZE. lia.
  - intros x Hx. destruct Hp as (_ & ? & _). apply memset_out; unfold PGSIZE; lia.
Qed.

(** Mapping a page of its own at a user address keeps the ownership. *)
Lemma user_wf_map m m' d l l' a f w : user_wf m d l -> pt_step m m' d l l' ->
  foreign m d l f -> 0 <= a < KERNBASE ->
  (forall va, 0 <= va < KERNBASE -> present (pte_of m d va) = true -> frame_of m d va <> f) ->
  P2V (PTE_ADDR w) = f -> (forall va, pte_of m' d va = if same_page a va then w else pte_of m d va) ->
  user_wf m' d l'.
Proof.
  intros Hu Hst Hf Ha Hnew Hfr Hpte.
  assert (Hin : forall va, same_page a va = true -> frame_of m' d va = f)
    by (intros va E; unfold frame_of; rewrite Hpte, E; exact Hfr).
  assert (Hout : forall va, same_page a va = false -> frame_of m' d va = frame_of m d va)
    by (intros va E; unfold frame_of; now rewrite Hpte, E).
  constructor.
  - intros va Hva. rewrite Hpte. destruct (same_page a va) eqn:E; intros Hp.
    + rewrite (Hin va E). apply (ps_foreign _ _ _ _ _ Hst f Hf).
    + rewrite (Hout va E). apply (ps_foreign _ _ _ _ _ Hst). now apply Hu.
  - intros va va' Hva Hva'. rewrite !Hpte.
    destruct (same_page a va) eqn:E, (same_page a va') eqn:E'; intros Hp Hp' Heq.
    + unfold same_page in *. bool_prop. apply Z.eqb_eq. congruence.
    + rewrite (Hin va E), (Hout va' E') in Heq. symmetry in Heq. now apply Hnew in Heq.
    + rewrite (Hin va' E'), (Hout va E) in Heq. now apply Hnew in Heq.
    + rewrite (Hout va E), (Hout va' E') in Heq. now apply (uw_inj _ _ _ Hu).
Qed.

Lemma in_pages_1 a va : 0 <= a -> a mod 4096 = 0 -> a + 4096 <= two32 ->
  in_pages a 1 va = same_page a va.
Proof.
  intros H0 Ha Hb. unfold in_pages, same_page. rewrite (u32_small a) by lia.
  pose proof (u32_bound va). apply eq_true_iff_eq.
  rewrite andb_true_iff, Z.leb_le, Z.ltb_lt, Z.eqb_eq. unfold two32 in *. split; intros; word_lia.
Qed.

(** The page [kalloc] hands to an address space belongs to nobody yet. *)
Lemma alloc_user s d p l : kmem_wf s (p :: l) -> pgdir_wf (km_mem s) d (p :: l) ->
  user_wf (km_mem s) d (p :: l) ->
  exists s1, (memset_k p 0 PGSIZE) (set_freelist (load32 (km_mem s) p) s) = Ok tt s1 /\
    grown s s1 d 0 0 (p :: l) l [p] /\ foreign (km_mem s1) d l p /\
    absent (km_mem s1) d = absent (km_mem s) d /\
    (forall va, 0 <= va < KERNBASE -> present (pte_of (km_mem s1) d va) = true ->
       frame_of (km_mem s1) d va <> p) /\
    (forall x, p <= x < p + 4096 -> km_mem s1 x = 0).
Proof.
  intros Hwf Hw Hu. destruct (alloc_zeroed s d p l Hwf Hw)
    as (s1 & Hrun1 & Hwf1 & Hw1 & Hpte1 & Hpde1 & Hz1 & Hout1 & Hlow1).
  assert (Hpt1 : forall i, 0 <= i < 1024 -> pt_of (km_mem s1) d i = pt_of (km_mem s) d i)
    by (intros; unfold pt_of; now rewrite Hpde1).
  assert (Hfor1 : forall q, foreign (km_mem s) d (p :: l) q -> foreign (km_mem s1) d l q /\
            (forall x, q <= x < q + 4096 -> km_mem s1 x = km_mem s x)).
  { intros q (Hq & [Hqp Hql]%not_elem_of_cons & Hqd & Hqt). split; [|now apply Hout1].
    split_and!; auto. intros i Hi. rewrite Hpde1, Hpt1 by exact Hi. now apply Hqt. }
  assert (Habs : absent (km_mem s1) d = absent (km_mem s) d).
  { unfold absent. apply filter_length_ext. intros i Hi%elem_of_seq. now rewrite Hpde1 by lia. }
  exists s1. split_and!; auto.
  - constructor; auto.
    + apply (user_wf_sub (km_mem s) _ _ (p :: l)); [exact Hu|]. intros va Hva. rewrite Hpte1.
      split; [reflexivity|]. apply Hfor1. now apply Hu.
    + now exists [p].
    + intros va Hin. unfold in_pages in Hin. bool_prop. lia.
    + intros i Hi. rewrite Hpde1, Hpt1 by exact Hi. auto.
    + intros c. rewrite Habs, !length_cons. cbn [length]. lia.
    + intros q [->|Hq]%elem_of_cons; [right; left; apply elem_of_cons|]; auto.
  - destruct (foreign_popped s d p l Hwf Hw) as (? & ? & ? & Ht). split_and!; auto.
    intros i Hi. rewrite Hpde1, Hpt1 by exact Hi. now apply Ht.
  - intros va Hva. unfold frame_of. rewrite Hpte1. intros Hp E.
    destruct (uw_frame _ _ _ Hu va Hva Hp) as (_ & Hn & _). apply Hn, elem_of_cons. auto.
Qed.

Lemma in_pages_0 a va : in_pages a 0 va = false.
Proof. apply not_true_is_false. unfold in_pages. intros Hin. bool_prop. lia. Qed.

Lemma grown_refl s d a l : kmem_wf s l -> pgdir_wf (km_mem s) d l -> user_wf (km_mem s) d l ->
  grown s s d a 0 l l [].
Proof.
  intros Hwf Hw Hu. constructor; auto; [now exists [] | | cbn [length]; lia]. intros va. now rewrite in_pages_0.
Qed.

(** One iteration of [allocuvm]'s loop after [kalloc] has returned [p]. *)
Lemma grow_page s d a p l : kmem_wf s (p :: l) -> pgdir_wf (km_mem s) d (p :: l) ->
  user_wf (km_mem s) d (p :: l) -> 0 <= a < KERNBASE -> a mod 4096 = 0 ->
  present (pte_of (km_mem s) d a) = false ->
  exists r s' l',
    (memset_k p 0 PGSIZE ;;; mappages d a PGSIZE (V2P p) (Z.lor PTE_W PTE_U))
      (set_freelist (load32 (km_mem s) p) s) = Ok r s' /\
    ((r = 0 /\ grown s s' d a 1 (p :: l) l' []) \/
     (r = -1 /\ l' = [] /\ grown s s' d a 0 (p :: l) [] [p] /\ foreign (km_mem s') d [] p /\
      (length l < absent (km_mem s) d)%nat)).
Proof.
  intros Hwf Hw Hu Ha Hal Hnp. destruct (alloc_user s d p l Hwf Hw Hu)
    as (s1 & Hrun1 & [Hwf1 Hw1 Hu1 _ Hpte1 _ Hfor1 Htab1 Hroom1 Hacc1 Hlow1] & Hpf & Habs & Hfresh & Hz).
  rewrite (bind_ok _ _ _ _ _ Hrun1).
  specialize (fun va => Hpte1 va (in_pages_0 0 va)).
  pose proof Hpf as (Hpok & _). pose proof (V2P_page p Hpok) as Hv. pose proof (page_ok_bounds p Hpok).
  unfold KERNBASE, PHYSTOP in *.
  destruct (mappages_page s1 d a (V2P p) (Z.lor PTE_W PTE_U) l)
    as (r & s' & l' & Hrun & Hwf' & Hst & Hr); auto; try (unfold two32; lia).
  { now rewrite Hpte1. }
  destruct (user_pte p Hpok) as (Hval & Hpp & _ & Hpfr). rewrite Hval in Hr.
  destruct (ps_used _ _ _ _ _ Hst) as [used Hused].
  destruct (ps_foreign _ _ _ _ _ Hst p Hpf) as [Hpf' Hz'].
  assert (Hfor : forall q, foreign (km_mem s) d (p :: l) q -> foreign (km_mem s') d l' q /\
            (forall x, q <= x < q + 4096 -> km_mem s' x = km_mem s x)).
  { intros q Hq. destruct (Hfor1 q Hq) as [Hq1 E1]. destruct (ps_foreign _ _ _ _ _ Hst q Hq1) as [Hq2 E2].
    split; [exact Hq2|]. intros x Hx. now rewrite E2, E1. }
  assert (Hlow : forall x, x < sym_end -> km_mem s' x = km_mem s x)
    by (intros x Hx; now rewrite (ps_low _ _ _ _ _ Hst), Hlow1).
  exists r, s', l'. split; [exact Hrun|]. destruct Hr as [[-> Hpte] | (-> & -> & Hlen & Hpte)].
  - left. split; [reflexivity|]. constructor; auto.
    + apply Hst.
    + apply (user_wf_map (km_mem s1) _ d l l' a p (V2P p + 7)); auto.
    + exists (p :: used). now rewrite Hused.
    + intros va. rewrite in_pages_1 by (auto; unfold two32; lia). rewrite Hpte. intros ->. apply Hpte1.
    + intros va. rewrite in_pages_1 by (auto; unfold two32; lia). intros E. exists p.
      rewrite Hpte, E. split_and!; auto; [apply elem_of_cons; auto|]. intros x Hx. rewrite Hz'; auto.
    + intros i Hi Hp. destruct (Htab1 i Hi Hp) as [Hp1 E1].
      destruct (ps_tables _ _ _ _ _ Hst i Hi Hp1) as [? E2]. split; [auto | congruence].
    + intros c Hc. apply (ps_room _ _ _ _ _ Hst), Hroom1. cbn [length] in *. lia.
    + intros q [->|Hq]%elem_of_cons.
      * right; right; right. exists a. rewrite in_pages_1 by (auto; unfold two32; lia).
        unfold frame_of. rewrite Hpte. unfold same_page. rewrite Z.eqb_refl. auto.
      * destruct (ps_account _ _ _ _ _ Hst q Hq); auto.
  - right. split_and!; auto; [|congruence]. constructor; auto.
    + apply Hst.
    + apply (user_wf_sub (km_mem s1) _ _ l); [exact Hu1|]. intros va Hva. rewrite Hpte.
      split; [reflexivity|]. now apply (ps_foreign _ _ _ _ _ Hst), Hu1.
    + exists (p :: l). now rewrite app_nil_r.
    + intros va _. rewrite Hpte. apply Hpte1.
    + intros va. now rewrite in_pages_0.
    + intros i Hi Hp. destruct (Htab1 i Hi Hp) as [Hp1 E1].
      destruct (ps_tables _ _ _ _ _ Hst i Hi Hp1) as [? E2]. split; [auto | congruence].
    + intros c Hc. apply (ps_room _ _ _ _ _ Hst), Hroom1. cbn [length] in *. lia.
    + intros q [->|Hq]%elem_of_cons; [right; left; apply elem_of_cons; auto|].
      destruct (ps_account _ _ _ _ _ Hst q Hq); auto.
Qed.

Lemma in_pages_app a j k va :
  in_pages a (j + k) va = in_pages a j va || in_pages (a + 4096 * Z.of_nat j) k va.
Proof.
  unfold in_pages. apply eq_true_iff_eq.
  rewrite orb_true_iff, !andb_true_iff, !Z.leb_le, !Z.ltb_lt. lia.
Qed.

Lemma pte_u32 m d va : pte_of m d (u32 va) = pte_of m d va.
Proof. apply same_page_pte. unfold same_page. rewrite u32_u32. apply Z.eqb_refl. Qed.

Lemma frame_u32 m d va : frame_of m d (u32 va) = frame_of m d va.
Proof. unfold frame_of. now rewrite pte_u32. Qed.

Lemma grown_trans s0 s1 s2 d a j k l0 l1 l2 held :
  0 <= a -> a + 4096 * Z.of_nat (j + k) <= KERNBASE ->
  grown s0 s1 d a j l0 l1 [] -> grown s1 s2 d (a + 4096 * Z.of_nat j) k l1 l2 held ->
  grown s0 s2 d a (j + k) l0 l2 held.
Proof.
  intros H0 Hb [F1 D1 U1 [u1 E1] O1 N1 G1 T1 R1 A1 L1] [F2 D2 U2 [u2 E2] O2 N2 G2 T2 R2 A2 L2].
  assert (Hold : forall va, in_pages a j va = true -> in_pages (a + 4096 * Z.of_nat j) k va = false).
  { intros va. unfold in_pages. intros Hi. bool_prop. apply andb_false_iff. left. apply Z.leb_gt. lia. }
  constructor; auto.
  - exists (u1 ++ u2). now rewrite E1, E2, app_assoc.
  - intros va. rewrite in_pages_app. intros [Hj Hk]%orb_false_iff. now rewrite O2, O1.
  - intros va. rewrite in_pages_app. intros [Hj|Hk]%orb_true_iff.
    + destruct (N1 va Hj) as (f & Hf & Hok & Hpte & Hz). exists f. rewrite O2 by auto.
      split_and!; auto. destruct (user_pte f Hok) as (_ & Hp & _ & Hfr).
      assert (Hfor : foreign (km_mem s1) d l1 f).
      { rewrite <- Hfr, <- Hpte, <- pte_u32. apply (uw_frame _ _ _ U1 (u32 va)).
        - unfold in_pages in Hj. bool_prop. lia.
        - now rewrite pte_u32, Hpte. }
      intros x Hx. destruct (G2 f Hfor) as [_ E]. rewrite E by exact Hx. auto.
    + destruct (N2 va Hk) as (f & Hf & Hrest). exists f. split; [|exact Hrest].
      rewrite E1. apply elem_of_app. auto.
  - intros q Hq. destruct (G1 q Hq) as [Hq1 C1]. destruct (G2 q Hq1) as [Hq2 C2].
    split; [exact Hq2|]. intros x Hx. now rewrite C2, C1.
  - intros i Hi Hp. destruct (T1 i Hi Hp) as [Hp1 Ht1]. destruct (T2 i Hi Hp1). split; [auto | congruence].
  - intros c Hc. apply R2, R1. cbn [length]. lia.
  - intros p Hp. destruct (A1 p Hp) as [Hp1|[Hp1|[(i & Hi & Hpi & <-)|(va & Hva & E)]]].
    + destruct (A2 p Hp1) as [|[|[|(va & Hva & E)]]]; auto. right; right; right.
      exists va. rewrite in_pages_app, Hva, orb_true_r. auto.
    + now apply not_elem_of_nil in Hp1.
    + right; right; left. exists i. now destruct (T2 i Hi Hpi).
    + right; right; right. exists va. rewrite in_pages_app, Hva. unfold frame_of. now rewrite O2 by auto.
  - intros x Hx. now rewrite L2, L1.
Qed.

(** *** Rolling an incomplete growth back *)

Lemma frames_intro m d a n va : 0 <= a -> a mod 4096 = 0 -> in_pages a n va = true ->
  present (pte_of m d va) = true -> frame_of m d va ∈ frames m d a n.
Proof.
  intros H0 Ha Hin Hp. unfold in_pages in Hin. bool_prop. pose proof (u32_bound va).
  set (v := u32 va / 4096 * 4096).
  assert (E : pte_of m d v = pte_of m d va).
  { apply same_page_pte. unfold same_page. rewrite (u32_small v) by (subst v; unfold two32 in *; word_lia).
    apply Z.eqb_eq. subst v. word_lia. }
  unfold frames. apply list_elem_of_fmap. exists v. split; [unfold frame_of; now rewrite E|].
  apply list_elem_of_filter. rewrite E. split; [exact Hp|].
  apply pages_from_intro; subst v; word_lia.
Qed.

Lemma in_pages_le a j n va : (j <= n)%nat -> in_pages a j va = true -> in_pages a n va = true.
Proof. unfold in_pages. intros Hj Hin. bool_prop. apply andb_true_iff. rewrite Z.leb_le, Z.ltb_lt. lia. Qed.

(** [deallocuvm(pgdir, newsz, oldsz)] after [k] of the pages were mapped. *)
Lemma grown_undo s0 s d oldsz newsz k l0 l held :
  0 <= oldsz < newsz -> newsz < KERNBASE ->
  (k <= npages (PGROUNDUP oldsz) newsz)%nat ->
  (forall va, in_pages (PGROUNDUP oldsz) (npages (PGROUNDUP oldsz) newsz) va = true ->
     pte_of (km_mem s0) d va = 0) ->
  grown s0 s d (PGROUNDUP oldsz) k l0 l held ->
  exists s' l', deallocuvm d newsz oldsz s = Ok oldsz s' /\
    kmem_wf s' l' /\ pgdir_wf (km_mem s') d l' /\ user_wf (km_mem s') d l' /\
    (forall va, pte_of (km_mem s') d va = pte_of (km_mem s0) d va) /\
    (forall q, foreign (km_mem s) d l q -> (forall va, 0 <= va < KERNBASE ->
       present (pte_of (km_mem s) d va) = true -> frame_of (km_mem s) d va <> q) ->
       foreign (km_mem s') d l' q) /\
    (forall p, p ∈ l0 -> p ∈ l' \/ p ∈ held \/
      exists i, 0 <= i < 1024 /\ present (pde_of (km_mem s') d i) = true /\ pt_of (km_mem s') d i = p) /\
    (forall q, foreign (km_mem s0) d l0 q -> foreign (km_mem s') d l' q /\
       (forall x, q <= x < q + 4096 -> km_mem s' x = km_mem s0 x)) /\
    (forall x, x < sym_end -> km_mem s' x = km_mem s0 x) /\
    (forall i, 0 <= i < 1024 -> present (pde_of (km_mem s0) d i) = true ->
       present (pde_of (km_mem s') d i) = true /\ pt_of (km_mem s') d i = pt_of (km_mem s0) d i).
Proof.
  intros Ho Hn Hk Hz [F D U _ O N G T _ A L].
  destruct (deallocuvm_spec s d l newsz oldsz) as (s' & Hrun & [F' D' U' P' T' G' L']); auto; [lia|].
  set (a := PGROUNDUP oldsz) in *. set (n := npages a newsz) in *.
  set (fs := frames (km_mem s) d a n) in *.
  exists s', (rev fs ++ l). split_and!; auto.
  - intros va. rewrite T'. destruct (in_pages a n va) eqn:E; cbn [andb].
    + rewrite (Hz va E). destruct (present (pte_of (km_mem s) d va)) eqn:Hp; [reflexivity|].
      destruct (in_pages a k va) eqn:E'; [|now rewrite O, Hz].
      destruct (N va E') as (f & _ & Hok & Hf & _). rewrite Hf in Hp.
      destruct (user_pte f Hok) as (_ & Hp' & _). congruence.
    + apply O. apply not_true_is_false. intros E'. rewrite (in_pages_le a k n) in E by auto. discriminate.
  - intros q Hq Hnq. apply G'; [exact Hq|]. intros (va & Hva & Hp & ->)%frames_elem.
    apply (Hnq va); auto. subst a n. rewrite PGROUNDUP_eq in * by (unfold KERNBASE, two32 in *; lia).
    unfold npages, KERNBASE in *. word_lia.
  - intros p Hp. destruct (A p Hp) as [Hl|[Hl|[(i & Hi & Hpi & <-)|(va & Hva & E)]]]; auto.
    + left. apply elem_of_app. auto.
    + right; right. exists i. unfold pt_of. rewrite P' by exact Hi. auto.
    + left. apply elem_of_app. left. rewrite elem_of_rev.
      destruct (N va Hva) as (f & _ & Hok & Hf & _). destruct (user_pte f Hok) as (_ & Hp' & _).
      rewrite <- E. apply frames_intro; [.. | now rewrite Hf];
        [subst a; rewrite PGROUNDUP_eq by (unfold KERNBASE, two32 in *; lia); word_lia .. |].
      now apply (in_pages_le a k).
  - intros q Hq. destruct (G q Hq) as [Hqs Eq]. destruct (G' q Hqs) as [Hq' Eq'].
    + intros (va & Hva & Hp & E)%frames_elem. destruct (in_pages a k va) eqn:Ek.
      * destruct (N va Ek) as (f & Hf & Hok & Hpf & _). destruct (user_pte f Hok) as (_ & _ & _ & Ef). unfold frame_of in E. rewrite Hpf, Ef in E. destruct Hq as (_ & Hql & _). congruence.
      * rewrite (O va Ek), Hz in Hp; [discriminate|]. unfold in_pages.
        rewrite u32_small by (subst a n; rewrite PGROUNDUP_eq in * by (unfold KERNBASE, two32 in *; lia); unfold npages, KERNBASE, two32 in *; word_lia).
        apply andb_true_iff. rewrite Z.leb_le, Z.ltb_lt. lia.
    + split; [exact Hq'|]. intros x Hx. now rewrite Eq', Eq.
  - intros x Hx. now rewrite L', L.
  - intros i Hi Hp. unfold pt_of. rewrite P' by exact Hi. now apply T.
Qed.

(** The error path [deallocuvm(...); kfree(mem)]. *)
Lemma undo_page s0 s d oldsz newsz k l0 p :
  0 <= oldsz < newsz -> newsz < KERNBASE ->
  (k <= npages (PGROUNDUP oldsz) newsz)%nat ->
  (forall va, in_pages (PGROUNDUP oldsz) (npages (PGROUNDUP oldsz) newsz) va = true ->
     pte_of (km_mem s0) d va = 0) ->
  grown s0 s d (PGROUNDUP oldsz) k l0 [] [p] -> user_wf (km_mem s0) d l0 ->
  p ∈ l0 -> foreign (km_mem s) d [] p ->
  (forall va, 0 <= va < KERNBASE -> present (pte_of (km_mem s) d va) = true -> frame_of (km_mem s) d va <> p) ->
  exists s' l', (deallocuvm d newsz oldsz ;;; kfree p) s = Ok tt s' /\ restored s0 s' d l0 l'.
Proof.
  intros Ho Hn Hk Hz Hg Hu0 Hp Hpf Hfr.
  destruct (grown_undo s0 s d oldsz newsz k l0 [] [p]) as (s1 & l1 & Hrun & F1 & D1 & U1 & P1 & G1 & A1 & Q1 & L1 & T1); auto.
  rewrite (bind_ok _ _ _ _ _ Hrun).
  destruct (kfree_foreign s1 d l1 p F1 D1 (G1 p Hpf Hfr)) as (s2 & Hrun2 & F2 & D2 & Hpde & Hpte & Hout & Hlow).
  exists s2, (p :: l1). split; [exact Hrun2|]. constructor; auto.
  - apply (user_wf_sub (km_mem s1) _ _ l1); [exact U1|]. intros va Hva. rewrite Hpte. intros Hpr.
    split; [reflexivity|]. destruct (uw_frame _ _ _ U1 va Hva Hpr) as (R1 & R2 & R3 & R4).
    split_and!; auto.
    + rewrite not_elem_of_cons. split; [|exact R2]. unfold frame_of. rewrite P1 in *.
      destruct (uw_frame _ _ _ Hu0 va Hva Hpr) as (_ & Hn0 & _). unfold frame_of in Hn0. congruence.
    + intros i Hi. unfold pt_of. rewrite Hpde by exact Hi. now apply R4.
  - intros va. now rewrite Hpte, P1.
  - intros q Hq. destruct (A1 q Hq) as [|[->%list_elem_of_singleton|(i & Hi & Hpi & E)]].
    + left. apply elem_of_cons. auto.
    + left. apply elem_of_cons. auto.
    + right. exists i. unfold pt_of. rewrite Hpde by exact Hi. auto.
  - intros q Hq. destruct (Q1 q Hq) as [(R1 & R2 & R3 & R4) Eq]. assert (Hne : q <> p) by (destruct Hq as (_ & Hql & _); congruence). split.
    + split_and!; auto; [rewrite not_elem_of_cons; auto|]. intros i Hi. unfold pt_of. rewrite Hpde by exact Hi. now apply R4.
    + intros x Hx. rewrite (Hout q) by auto. now apply Eq.
  - intros x Hx. now rewrite Hlow, L1.
  - intros i Hi Hpi. unfold pt_of. rewrite Hpde by exact Hi. now apply T1.
Qed.

Lemma PGROUNDUP_bounds a : 0 <= a < KERNBASE ->
  PGROUNDUP a mod 4096 = 0 /\ a <= PGROUNDUP a < a + 4096.
Proof. unfold KERNBASE. intros Ha. rewrite PGROUNDUP_eq by (unfold two32; lia). word_lia. Qed.

Lemma npages_bounds a hi n : npages a hi = n ->
  hi <= a + 4096 * Z.of_nat n /\ ((0 < n)%nat -> a + 4096 * (Z.of_nat n - 1) < hi).
Proof. unfold npages. word_lia. Qed.

Lemma allocuvm_loop_spec n : forall fuel k s s0 d l l0 oldsz newsz a0,
  (n < fuel)%nat -> 0 <= oldsz <= newsz -> newsz < KERNBASE -> a0 = PGROUNDUP oldsz ->
  npages a0 newsz = (k + n)%nat ->
  (forall va, in_pages a0 (k + n) va = true -> pte_of (km_mem s0) d va = 0) ->
  user_wf (km_mem s0) d l0 ->
  grown s0 s d a0 k l0 l [] ->
  exists r s' l', allocuvm_loop fuel d (a0 + 4096 * Z.of_nat k) oldsz newsz s = Ok r s' /\
    ((r = newsz /\ grown s0 s' d a0 (k + n) l0 l' []) \/
     (r = 0 /\ restored s0 s' d l0 l' /\ (length l0 < k + n + absent (km_mem s0) d)%nat)).
Proof.
  induction n as [|n IH]; intros fuel k s s0 d l l0 oldsz newsz a0 Hf Ho Hn Ha0 Hnp Hz Hu0 Hg;
    (destruct fuel as [|fuel]; [lia|]); cbn [allocuvm_loop];
    destruct (PGROUNDUP_bounds oldsz) as [Hal Hb]; try lia; rewrite <- Ha0 in Hal, Hb;
    destruct (npages_bounds a0 newsz _ Hnp) as [Hend Hlast]; unfold KERNBASE in *.
  - case_bool; [|lia]. rewrite Nat.add_0_r. exists newsz, s, l. auto.
  - case_bool; [lia|]. pose proof Hg as [F D U [used Eu] O _ _ _ Rm _].
    set (a := a0 + 4096 * Z.of_nat k) in *.
    assert (Ha : 0 <= a /\ a + 4096 <= 2147483648 /\ a mod 4096 = 0) by (subst a; word_lia).
    assert (Hpa : present (pte_of (km_mem s) d a) = false).
    { rewrite O, Hz; [reflexivity | |]; unfold in_pages; rewrite u32_small by (unfold two32; lia).
      - apply andb_true_iff. rewrite Z.leb_le, Z.ltb_lt. lia.
      - apply andb_false_iff. rewrite Z.ltb_ge. lia. }
    destruct l as [|p l].
    + rewrite (bind_ok _ _ _ _ _ (kalloc_empty s F)). change (0 =? 0) with true. cbv iota.
      destruct (grown_undo s0 s d oldsz newsz k l0 [] []) as (s1 & l1 & Hrun & F1 & D1 & U1 & P1 & _ & A1 & Q1 & L1 & T1);
        rewrite <- ?Ha0, ?Hnp; auto; try (unfold KERNBASE; lia).
      rewrite (bind_ok _ _ _ _ _ Hrun). exists 0, s1, l1. split; [reflexivity|]. right.
      split_and!; [reflexivity | |].
      * constructor; auto. intros p Hp. destruct (A1 p Hp) as [|[Hn0%not_elem_of_nil|]]; auto. contradiction.
      * specialize (Rm (S n)). cbn [length] in Rm. lia.
    + destruct (kalloc_pop s p l F) as [Hrun _]. rewrite (bind_ok _ _ _ _ _ Hrun).
      assert (Hp0 : p <> 0) by (destruct F as (_ & _ & Hok & _); inversion Hok; now apply page_ok_nonzero).
      rewrite (proj2 (Z.eqb_neq _ _) Hp0). rewrite <- bind_assoc.
      destruct (grow_page s d a p l) as (r & s1 & l1 & Hrun1 & Hr); auto; try (unfold KERNBASE; lia).
      rewrite (bind_ok _ _ _ _ _ Hrun1). destruct Hr as [[-> Hg1]|(-> & -> & Hg1 & Hpf & Hlen)];
        [change (0 <? 0) with false | change (-1 <? 0) with true]; cbv iota.
      * replace (u32 _) with (a0 + 4096 * Z.of_nat (S k))
          by (unfold PGSIZE; rewrite u32_small by (unfold two32; lia); lia).
        replace (k + S n)%nat with (S k + n)%nat in * by lia.
        apply (IH fuel (S k) s1 s0 d l1 l0 oldsz newsz); auto; try lia.
        replace (S k) with (k + 1)%nat by lia.
        apply (grown_trans s0 s s1 d a0 k 1 l0 (p :: l) l1 []); auto; unfold KERNBASE; lia.
      * rewrite <- bind_assoc.
        destruct (undo_page s0 s1 d oldsz newsz k l0 p) as (s2 & l2 & Hrun2 & Hre);
          rewrite <- ?Ha0, ?Hnp; auto; try (unfold KERNBASE; lia).
        -- replace k with (k + 0)%nat by lia.
           apply (grown_trans s0 s s1 d a0 k 0 l0 (p :: l) [] [p]); auto; unfold KERNBASE; lia.
        -- rewrite Eu. apply elem_of_app. right. apply elem_of_cons. auto.
        -- intros va Hva. destruct Hg1 as [_ _ _ _ O1 _ _ _ _ _]. unfold frame_of. rewrite O1 by apply in_pages_0.
           intros Hpr E'. destruct (uw_frame _ _ _ U va Hva Hpr) as (_ & Hl & _). apply Hl, elem_of_cons. auto.
        -- rewrite (bind_ok _ _ _ _ _ Hrun2). exists 0, s2, l2. split_and!; auto. right. split_and!; auto.
           specialize (Rm (S n)). cbn [length] in Rm. lia.
Qed.

End Vm.

(** ** Properties *)

Lemma sample_user m l : (forall va, pte_of m 0x80210000 va = 0) -> @user_wf sample_linker m 0x80210000 l.
Proof. intros Hz. constructor; intros va; intros; rewrite Hz in *; discriminate. Qed.

(** The pool of free pages and the empty directory beside it. *)
Lemma sample_space n : (n <= 4096)%nat -> let s := sample_pool n in let l := pages_from pool_base n in
  @kmem_wf sample_linker s l /\ @pgdir_wf sample_linker (km_mem s) 0x80210000 l /\
  @user_wf sample_linker (km_mem s) 0x80210000 l /\ (forall va, pte_of (km_mem s) 0x80210000 va = 0) /\
  absent (km_mem s) 0x80210000 = 1024%nat.
Proof.
  intros Hn s l. destruct (sample_dir (km_mem s) l) as (Hw & Hz & Habs).
  - intros x Hx. now apply pool_mem_out.
  - apply sample_dir_pool.
  - split_and!; auto; [now apply sample_pool_wf | now apply sample_user].
Qed.

Lemma allocuvm_spec `{LKOK : LinkerOk} (s : kmem) (d oldsz newsz : Z) (l : list Z) :
  kmem_wf s l -> pgdir_wf (km_mem s) d l -> user_wf (km_mem s) d l -> 0 <= oldsz ->
  let a := PGROUNDUP oldsz in let n := npages a newsz in
  (forall va, in_pages a n va = true -> pte_of (km_mem s) d va = 0) ->
  exists r s', allocuvm d oldsz newsz s = Ok r s' /\
    (KERNBASE <= newsz -> r = 0 /\ s' = s) /\
    (newsz < oldsz -> newsz < KERNBASE -> r = oldsz /\ s' = s) /\
    (oldsz <= newsz < KERNBASE -> exists l',
       (r = newsz /\ grown s s' d a n l l' []) \/
       (r = 0 /\ restored s s' d l l' /\ (length l < n + absent (km_mem s) d)%nat)).
Proof.
  intros Hwf Hw Hu H0 a n Hz. unfold allocuvm.
  case_bool; [exists 0, s; split_and!; auto; lia|].
  case_bool; [exists oldsz, s; split_and!; auto; lia|]. cbv zeta. fold a.
  destruct (allocuvm_loop_spec n (Z.to_nat (newsz / PGSIZE + 2)) 0 s s d l l oldsz newsz a)
    as (r & s' & l' & Hrun & Hr); auto using grown_refl.
  - destruct (PGROUNDUP_bounds oldsz) as [_ Hb]; [unfold KERNBASE in *; lia|]. fold a in Hb.
    unfold n, npages, PGSIZE. word_lia.
  - replace (a + 4096 * Z.of_nat 0) with a in Hrun by lia.
    exists r, s'. split_and!; auto; try lia. intros _. exists l'. exact Hr.
Qed.

(** [allocuvm] from [oldsz] to [newsz], over entries that are empty, either
    maps a fresh zeroed frame of its own with [PTE_W|PTE_U] at every page of the
    range and changes no other entry, or it runs out of memory and returns 0
    with every entry as before and every page either free again or a page table
    of this directory.  It can only fail when the free pages are fewer than the
    new pages plus the missing page tables; sizes that reach [KERNBASE], or
    below the old size, are refused without any change. *)
Theorem allocuvm_grows `{LKOK : LinkerOk} (s : kmem) (d oldsz newsz : Z) (l : list Z) :
  kmem_wf s l -> pgdir_wf (km_mem s) d l -> user_wf (km_mem s) d l -> 0 <= oldsz ->
  let a := PGROUNDUP oldsz in let n := npages a newsz in
  (forall va, in_pages a n va = true -> pte_of (km_mem s) d va = 0) ->
  exists r s', allocuvm d oldsz newsz s = Ok r s' /\
    (KERNBASE <= newsz -> r = 0 /\ s' = s) /\
    (newsz < oldsz -> newsz < KERNBASE -> r = oldsz /\ s' = s) /\
    (oldsz <= newsz < KERNBASE -> exists l',
       (r = newsz /\ grown s s' d a n l l' []) \/
       (r = 0 /\ restored s s' d l l' /\ (length l < n + absent (km_mem s) d)%nat)).
Proof. apply allocuvm_spec. Qed.

Lemma allocuvm_grows_witness : exists s' l',
  allocuvm (LK := sample_linker) 0x80210000 0 4096 (sample_pool 1030) = Ok 4096 s' /\
  grown (LK := sample_linker) (sample_pool 1030) s' 0x80210000 0 1 (pages_from pool_base 1030) l' [].
Proof.
  destruct (sample_space 1030 ltac:(lia)) as (Hwf & Hw & Hu & Hz & Habs).
  destruct (@allocuvm_grows sample_linker sample_linker_ok (sample_pool 1030) 0x80210000 0 4096 (pages_from pool_base 1030))
    as (r & s' & Hrun & _ & _ & H); auto; [lia|].
  change (PGROUNDUP 0) with 0 in H. change (npages 0 4096) with 1%nat in H.
  destruct H as (l' & [[-> Hg]|(_ & _ & Hlen)]); [unfold KERNBASE; lia | exists s', l'; split; [exact Hrun | exact Hg] |].
  rewrite Habs, pages_from_length in Hlen. lia.
Defined.

(** [deallocuvm] from [oldsz] down to [newsz] clears the present entries of
    the pages in between and puts exactly their frames on the free list; every
    other entry of the directory and every page that is not one of those frames
    is as before. *)
Theorem deallocuvm_shrinks `{LKOK : LinkerOk} (s : kmem) (d oldsz newsz : Z) (l : list Z) :
  0 <= newsz < oldsz -> oldsz <= KERNBASE ->
  kmem_wf s l -> pgdir_wf (km_mem s) d l -> user_wf (km_mem s) d l ->
  let a := PGROUNDUP newsz in let n := npages a oldsz in
  let fs := frames (km_mem s) d a n in
  exists s', deallocuvm d oldsz newsz s = Ok newsz s' /\ kmem_wf s' (rev fs ++ l) /\
    pgdir_wf (km_mem s') d (rev fs ++ l) /\ user_wf (km_mem s') d (rev fs ++ l) /\
    (forall va, pte_of (km_mem s') d va =
       if in_pages a n va && present (pte_of (km_mem s) d va) then 0 else pte_of (km_mem s) d va) /\
    (forall q, foreign (km_mem s) d l q -> q ∉ fs -> forall x, q <= x < q + 4096 -> km_mem s' x = km_mem s x).
Proof.
  intros Hn Ho Hwf Hw Hu a n fs.
  destruct (deallocuvm_spec s d l oldsz newsz Hn Ho Hwf Hw Hu) as (s' & Hrun & [F D U _ P G _]).
  exists s'. split_and!; auto. intros q Hq Hqf. now apply G.
Qed.

Lemma deallocuvm_shrinks_witness : exists s',
  deallocuvm (LK := sample_linker) 0x80210000 8192 0 (sample_pool 2) = Ok 0 s'.
Proof.
  destruct (sample_space 2 ltac:(lia)) as (Hwf & Hw & Hu & _).
  destruct (@deallocuvm_shrinks sample_linker sample_linker_ok (sample_pool 2) 0x80210000 8192 0 (pages_from pool_base 2))
    as (s' & Hrun & _); auto; [lia | unfold KERNBASE; lia | exists s'; exact Hrun].
Defined.

(** Growing an address space and shrinking it back restores every
    translation, and no page is lost: each page that was free is free again or
    has become a page table of the directory. *)
Theorem grow_shrink_roundtrip `{LKOK : LinkerOk} (s : kmem) (d oldsz newsz : Z) (l : list Z) :
  kmem_wf s l -> pgdir_wf (km_mem s) d l -> user_wf (km_mem s) d l ->
  0 <= oldsz < newsz -> newsz < KERNBASE ->
  let a := PGROUNDUP oldsz in let n := npages a newsz in
  (forall va, in_pages a n va = true -> pte_of (km_mem s) d va = 0) ->
  (n + absent (km_mem s) d <= length l)%nat ->
  exists s1 s2 l2, allocuvm d oldsz newsz s = Ok newsz s1 /\ deallocuvm d newsz oldsz s1 = Ok oldsz s2 /\
    restored s s2 d l l2.
Proof.
  intros Hwf Hw Hu Hsz Hk a n Hz Hroom. unfold allocuvm.
  rewrite (proj2 (Z.leb_gt _ _)), (proj2 (Z.ltb_ge _ _)) by lia. cbv zeta. fold a.
  destruct (allocuvm_loop_spec n (Z.to_nat (newsz / PGSIZE + 2)) 0 s s d l l oldsz newsz a)
    as (r & s1 & l1 & Hrun & Hr); auto using grown_refl; try lia.
  - destruct (PGROUNDUP_bounds oldsz) as [_ Hb]; [unfold KERNBASE in *; lia|]. fold a in Hb.
    unfold n, npages, PGSIZE. word_lia.
  - replace (a + 4096 * Z.of_nat 0) with a in Hrun by lia.
    destruct Hr as [[-> Hg]|(_ & _ & Hlen)]; [|cbn [Nat.add] in Hlen; lia].
    destruct (grown_undo s s1 d oldsz newsz n l l1 []) as (s2 & l2 & Hrun2 & F2 & D2 & U2 & P2 & _ & A2 & Q2 & L2 & T2); auto.
    exists s1, s2, l2. split_and!; auto. constructor; auto.
    intros p Hp. destruct (A2 p Hp) as [|[Hn%not_elem_of_nil|]]; auto. contradiction.
Qed.

Lemma grow_shrink_roundtrip_witness : exists s1 s2,
  allocuvm (LK := sample_linker) 0x80210000 0 8192 (sample_pool 1030) = Ok 8192 s1 /\
  deallocuvm (LK := sample_linker) 0x80210000 8192 0 s1 = Ok 0 s2.
Proof.
  destruct (sample_space 1030 ltac:(lia)) as (Hwf & Hw & Hu & Hz & Habs).
  destruct (@grow_shrink_roundtrip sample_linker sample_linker_ok (sample_pool 1030) 0x80210000 0 8192 (pages_from pool_base 1030))
    as (s1 & s2 & l2 & Hrun1 & Hrun2 & _); auto; [lia | unfold KERNBASE; lia | |].
  - rewrite Habs, pages_from_length. change (npages (PGROUNDUP 0) 8192) with 2%nat. lia.
  - exists s1, s2. split; [exact Hrun1 | exact Hrun2].
Defined.

(** [freevm] gives back every page of the address space: the frames its user
    entries map, its page tables and the directory itself join the free list,
    each exactly once, and no other page is touched. *)
Theorem freevm_returns_all `{LKOK : LinkerOk} (s : kmem) (d : Z) (l : list Z) :
  kmem_wf s l -> pgdir_wf (km_mem s) d l -> user_wf (km_mem s) d l ->
  exists s', freevm d s = Ok tt s' /\ kmem_wf s' (freevm_list (km_mem s) d l) /\
    NoDup (freevm_list (km_mem s) d l) /\
    (forall q, foreign (km_mem s) d l q -> q ∉ frames (km_mem s) d 0 (npages 0 KERNBASE) ->
       forall x, q <= x < q + 4096 -> km_mem s' x = km_mem s x).
Proof.
  intros Hwf Hw Hu. destruct (freevm_spec s d l Hwf Hw Hu) as (s' & Hrun & Hwf' & Hk & _).
  exists s'. split_and!; auto. apply Hwf'.
Qed.

Lemma freevm_returns_all_witness : exists s', freevm (LK := sample_linker) 0x80210000 (sample_pool 2) = Ok tt s'.
Proof.
  destruct (sample_space 2 ltac:(lia)) as (Hwf & Hw & Hu & _).
  destruct (@freevm_returns_all sample_linker sample_linker_ok (sample_pool 2) 0x80210000 (pages_from pool_base 2))
    as (s' & Hrun & _); auto. exists s'. exact Hrun.
Defined.
