(* ===== verification/Kvm.v ===== *)
(** The kernel half of a page directory and the copies of an address space:
    [setupkvm], [inituvm], [copyuvm], [forkuvm] and [copyout] of
    [src/xv6/xv6-public/vm.c].

    [setupkvm] yields the translation that the table [kmap] prescribes, made
    only of pages that were free, and it succeeds whenever enough pages are
    left.  [forkuvm] gives the child the parent's frames without [PTE_W] and
    leaves the parent's directory alone; since frames carry no count, returning
    the child's directory returns the parent's frames too. *)

From S2P Require Import Prelude Mem Mmu Spinlock Kalloc PageTable Uvm.

(** ** vm.c *)

Section Kvm.
Context `{LK : Linker}.

Record kmap_entry := mkKmap { virt : Z; phys_start : Z; phys_end : Z; kperm : Z }.

Definition kmap : list kmap_entry := [
  mkKmap KERNBASE 0 EXTMEM PTE_W;
  mkKmap KERNLINK (V2P KERNLINK) (V2P sym_data) 0;
  mkKmap sym_data (V2P sym_data) PHYSTOP PTE_W;
  mkKmap DEVSPACE DEVSPACE 0 PTE_W ].

Fixpoint setupkvm_loop (pgdir : Z) (ks : list kmap_entry) : M kmem Z :=
  match ks with
  | [] => ret pgdir
  | k :: ks' =>
      r <- mappages pgdir (virt k) (u32 (phys_end k - phys_start k)) (phys_start k) (kperm k) ;;
      if r <? 0 then freevm pgdir ;;; ret 0 else setupkvm_loop pgdir ks'
  end.

Definition setupkvm : M kmem Z :=
  pgdir <- kalloc ;;
  if pgdir =? 0 then ret 0 else
  memset_k pgdir 0 PGSIZE ;;;
  if DEVSPACE <? P2V PHYSTOP then panic "PHYSTOP too high" else
  setupkvm_loop pgdir kmap.

(** [sz] bytes of initial code at [init] into the first page. *)
Definition inituvm (pgdir init sz : Z) : M kmem unit :=
  if PGSIZE <=? sz then panic "inituvm: more than a page" else
  mem <- kalloc ;;
  if mem =? 0 then fault "inituvm: memset of a null page" else
  memset_k mem 0 PGSIZE ;;;
  mappages pgdir 0 PGSIZE (V2P mem) (Z.lor PTE_W PTE_U) ;;;
  memmove_k mem init sz.

(** The copy loop of [copyuvm]; the label [bad] frees the new directory. *)
Fixpoint copyuvm_loop (fuel : nat) (pgdir d i sz : Z) : M kmem Z :=
  match fuel with
  | O => nofuel
  | S k =>
      if negb (i <? sz) then ret d else
      pte <- walkpgdir pgdir i false ;;
      if pte =? 0 then panic "copyuvm: pte should exist" else
      v <- rd32 pte ;;
      if negb (truth (Z.land v PTE_P)) then panic "copyuvm: page not present" else
      let pa := PTE_ADDR v in
      let flags := Z.land (PTE_FLAGS v) (Z.lnot PTE_W) in
      mem <- kalloc ;;
      if mem =? 0 then freevm d ;;; ret 0 else
      memmove_k mem (P2V pa) PGSIZE ;;;
      r <- mappages d i PGSIZE (V2P mem) flags ;;
      if r <? 0 then kfree mem ;;; freevm d ;;; ret 0
      else copyuvm_loop k pgdir d (u32 (i + PGSIZE)) sz
  end.

Definition copyuvm (pgdir sz : Z) : M kmem Z :=
  d <- setupkvm ;;
  if d =? 0 then ret 0 else
  copyuvm_loop (Z.to_nat (sz / PGSIZE + 2)) pgdir d 0 sz.

Fixpoint forkuvm_loop (fuel : nat) (pgdir d i sz : Z) : M kmem Z :=
  match fuel with
  | O => nofuel
  | S k =>
      if negb (i <? sz) then ret d else
      pte <- walkpgdir pgdir i false ;;
      if pte =? 0 then panic "forkuvm: pte should exist" else
      v <- rd32 pte ;;
      if negb (truth (Z.land v PTE_P)) then panic "forkuvm: page not present" else
      let pa := PTE_ADDR v in
      let flags := Z.land (PTE_FLAGS v) (Z.lnot PTE_W) in
      r <- mappages d i PGSIZE pa flags ;;
      if r <? 0 then freevm d ;;; ret 0
      else forkuvm_loop k pgdir d (u32 (i + PGSIZE)) sz
  end.

Definition forkuvm (pgdir sz : Z) : M kmem Z :=
  d <- setupkvm ;;
  if d =? 0 then ret 0 else
  forkuvm_loop (Z.to_nat (sz / PGSIZE + 2)) pgdir d 0 sz.

Fixpoint copyout_loop (fuel : nat) (pgdir va buf len : Z) : M kmem Z :=
  match fuel with
  | O => nofuel
  | S k =>
      if negb (0 <? len) then ret 0 else
      let va0 := PGROUNDDOWN va in
      pa0 <- uva2ka pgdir va0 ;;
      if pa0 =? 0 then ret (-1) else
      let n := PGSIZE - (va - va0) in
      let n := if len <? n then len else n in
      memmove_k (pa0 + (va - va0)) buf n ;;;
      copyout_loop k pgdir (u32 (va0 + PGSIZE)) (buf + n) (len - n)
  end.

Definition copyout (pgdir va p len : Z) : M kmem Z :=
  copyout_loop (Z.to_nat (len / PGSIZE + 3)) pgdir va p len.

(** The directory, its tables and the free pages. *)
Definition owned (m : mem) (d : Z) (l : list Z) (p : Z) : Prop :=
  p = d \/ p ∈ l \/ exists i, 0 <= i < 1024 /\ present (pde_of m d i) = true /\ pt_of m d i = p.

(** The pages of a table entry, and what it translates [va] to. *)
Definition ksize (k : kmap_entry) : Z := u32 (phys_end k - phys_start k).

Definition kin (k : kmap_entry) (va : Z) : bool := (virt k <=? u32 va) && (u32 va <? virt k + ksize k).

Definition kpte (k : kmap_entry) (va : Z) : Z :=
  u32 (Z.lor (Z.lor (u32 (phys_start k + (u32 va - virt k) / 4096 * 4096)) (kperm k)) PTE_P).

(** The translation the table prescribes, [v] outside its ranges. *)
Fixpoint kmap_pte (ks : list kmap_entry) (v va : Z) : Z :=
  match ks with
  | [] => v
  | k :: ks' => if kin k va then kpte k va else kmap_pte ks' v va
  end.

Definition kentry_ok (k : kmap_entry) : Prop :=
  KERNBASE <= virt k /\ virt k mod 4096 = 0 /\ 0 < ksize k /\ ksize k mod 4096 = 0 /\
  virt k + ksize k <= two32 /\ 0 <= phys_start k < two32.

Fixpoint kmap_ok (ks : list kmap_entry) : Prop :=
  match ks with
  | [] => True
  | k :: ks' => kentry_ok k /\ (forall k' va, k' ∈ ks' -> kin k' va = true -> kin k va = false) /\ kmap_ok ks'
  end.

(** What [setupkvm] leaves: a directory made of pages that were free, with the
    kernel's translation; or nothing, when pages ran out. *)
Record kvm_made (s s' : kmem) (d : Z) (l l' : list Z) : Prop := {
  km_made_dir : pgdir_wf (km_mem s') d l';
  km_made_used : exists used, l = d :: used ++ l';
  km_made_pte : forall va, pte_of (km_mem s') d va = kmap_pte kmap 0 va;
  km_made_foreign : forall q, page_ok q -> q ∉ l -> foreign (km_mem s') d l' q;
  km_made_account : forall p, p ∈ l -> owned (km_mem s') d l' p;
  km_made_room : forall c, (c + 1024 < length l -> c + absent (km_mem s') d <= length l')%nat
}.

(** After [k] pages of [d0] are shared with the new directory [d]. *)
Record forked (s0 s : kmem) (d0 d : Z) (k : nat) (l0 l : list Z) : Prop := {
  fk_free : kmem_wf s l;
  fk_dir : pgdir_wf (km_mem s) d l;
  fk_used : exists used, l0 = used ++ l;
  fk_keep : forall q, page_ok q -> q ∉ l0 ->
    foreign (km_mem s) d l q /\ (forall x, q <= x < q + 4096 -> km_mem s x = km_mem s0 x);
  fk_pte : forall va, pte_of (km_mem s) d va =
    if in_pages 0 k va then Z.land (pte_of (km_mem s0) d0 va) (Z.lnot PTE_W) else kmap_pte kmap 0 va;
  fk_room : forall c, (c + 1024 < length l0 -> c + absent (km_mem s) d <= length l)%nat;
  fk_account : forall p, p ∈ l0 -> owned (km_mem s) d l p
}.

(** ** Lemmas *)

Context {LKOK : LinkerOk}.

(** *** The kernel half *)

Lemma tables_intro m d n : forall i j, i <= j < i + Z.of_nat n -> present (pde_of m d j) = true ->
  pt_of m d j ∈ tables m d i n.
Proof.
  induction n as [|n IH]; intros i j Hj Hp; [lia|]. cbn [tables].
  destruct (Z.eq_dec j i) as [->|Hne].
  - rewrite Hp. apply elem_of_cons. auto.
  - assert (pt_of m d j ∈ tables m d (i + 1) n) by (apply IH; auto; lia).
    destruct (present (pde_of m d i)); [apply elem_of_cons|]; auto.
Qed.

(** A directory without user mappings owns no frames. *)
Lemma user_wf_empty m d l : (forall va, 0 <= va < KERNBASE -> present (pte_of m d va) = false) -> user_wf m d l.
Proof. intros Hn. constructor; intros va; intros; rewrite Hn in *; auto; discriminate. Qed.

Lemma freevm_list_owned m d l p : owned m d l p -> p ∈ freevm_list m d l.
Proof.
  unfold freevm_list. rewrite elem_of_cons, !elem_of_app, !elem_of_rev.
  intros [->|[Hp|(i & Hi & Hp & <-)]]; auto. right; left. apply tables_intro; auto; lia.
Qed.

Lemma freevm_list_frame m d l va : 0 <= va < KERNBASE -> present (pte_of m d va) = true ->
  frame_of m d va ∈ freevm_list m d l.
Proof.
  intros Hva Hp. unfold freevm_list. rewrite elem_of_cons, !elem_of_app, !elem_of_rev.
  right; right; left. apply frames_intro; auto; [lia|]. unfold in_pages, npages, KERNBASE in *.
  rewrite u32_small by (unfold two32; lia). apply andb_true_iff. rewrite Z.leb_le, Z.ltb_lt. word_lia.
Qed.

Lemma kmap_ok_cons k ks : kentry_ok k -> Forall (fun k' => virt k + ksize k <= virt k') ks ->
  kmap_ok ks -> kmap_ok (k :: ks).
Proof.
  intros Hk Hall Hks. split_and!; auto. intros k' va Hin. rewrite Forall_forall in Hall.
  specialize (Hall k' Hin). unfold kin. intros Hva. bool_prop.
  apply andb_false_iff. rewrite Z.ltb_ge. lia.
Qed.

Lemma kmap_table_ok : kmap_ok kmap.
Proof.
  destruct LKOK as [D1 D2 D3 D4]. unfold PGSIZE in *.
  assert (Hv : V2P sym_data = sym_data - 2147483648)
    by (unfold V2P, KERNLINK, KERNBASE, EXTMEM in *; word_lia).
  assert (S2 : ksize (mkKmap KERNLINK (V2P KERNLINK) (V2P sym_data) 0) = sym_data - 2148532224).
  { unfold ksize. cbn [phys_end phys_start]. change (V2P KERNLINK) with 1048576.
    rewrite Hv. unfold KERNLINK, KERNBASE, EXTMEM in *. rewrite u32_small; unfold two32; lia. }
  assert (S3 : ksize (mkKmap sym_data (V2P sym_data) PHYSTOP PTE_W) = 2382364672 - sym_data).
  { unfold ksize. cbn [phys_end phys_start]. rewrite Hv.
    unfold KERNLINK, KERNBASE, EXTMEM, PHYSTOP in *. rewrite u32_small; unfold two32; lia. }
  assert (S1 : ksize (mkKmap KERNBASE 0 EXTMEM PTE_W) = 1048576) by reflexivity.
  assert (S4 : ksize (mkKmap DEVSPACE DEVSPACE 0 PTE_W) = 33554432) by reflexivity.
  unfold kmap. repeat apply kmap_ok_cons; unfold kentry_ok; repeat constructor;
    rewrite ?S1, ?S2, ?S3, ?S4; cbn [virt phys_start]; rewrite ?Hv; change (V2P KERNLINK) with 1048576;
    unfold KERNLINK, KERNBASE, EXTMEM, DEVSPACE, two32 in *; try word_lia.
Qed.

Lemma kmap_pte_out ks v va : (forall k, k ∈ ks -> kin k va = false) -> kmap_pte ks v va = v.
Proof.
  induction ks as [|k ks IH]; intros Hk; [reflexivity|]. cbn [kmap_pte].
  rewrite Hk by (apply elem_of_cons; auto). apply IH. intros k' Hk'. apply Hk, elem_of_cons. auto.
Qed.

(** The whole of one table entry, or as much of it as there were pages for. *)
Lemma map_kentry k s d l : kentry_ok k -> kmem_wf s l -> pgdir_wf (km_mem s) d l ->
  (forall va, kin k va = true -> present (pte_of (km_mem s) d va) = false) ->
  exists r s' l', mappages d (virt k) (ksize k) (phys_start k) (kperm k) s = Ok r s' /\ kmem_wf s' l' /\
    pt_step (km_mem s) (km_mem s') d l l' /\
    ((r = 0 /\ forall va, pte_of (km_mem s') d va = if kin k va then kpte k va else pte_of (km_mem s) d va) \/
     (r = -1 /\ l' = [] /\ (length l < absent (km_mem s) d)%nat /\
      forall va, 0 <= va < KERNBASE -> pte_of (km_mem s') d va = pte_of (km_mem s) d va)).
Proof.
  intros (Kv & Ka & Ks & Km & Kb & Kp) Hwf Hw Hfree. unfold KERNBASE in *.
  set (n := Z.to_nat (ksize k / 4096 - 1)).
  assert (En : ksize k = 4096 * Z.of_nat (S n)) by (subst n; word_lia).
  destruct (mappages_range n s d (virt k) (phys_start k) (kperm k) l)
    as (r & s' & l' & j & Hrun & Hwf' & Hst & Hpte & Hr); auto; try lia.
  - intros va Hva. apply Hfree. unfold kin. apply andb_true_iff. rewrite Z.leb_le, Z.ltb_lt. lia.
  - exists r, s', l'. rewrite En. split_and!; auto. destruct Hr as [[-> ->]|(-> & -> & Hj & Habs)].
    + left. split; [reflexivity|]. intros va. rewrite Hpte. unfold mapped, kin. now rewrite <- En.
    + right. split_and!; auto. intros va Hva. rewrite Hpte. unfold mapped.
      rewrite (u32_small va) by (unfold two32; lia). case_bool; [|reflexivity].
      lia.
Qed.

Lemma owned_step m m' d l l' p : pt_step m m' d l l' -> owned m d l p -> owned m' d l' p.
Proof.
  intros Hst [->|[Hp|(i & Hi & Hp & <-)]].
  - now left.
  - right. destruct (ps_account _ _ _ _ _ Hst p Hp); auto.
  - right; right. exists i. now destruct (ps_tables _ _ _ _ _ Hst i Hi Hp).
Qed.

Lemma setupkvm_loop_spec ks : forall s d l, kmap_ok ks -> kmem_wf s l -> pgdir_wf (km_mem s) d l ->
  (forall va, 0 <= va < KERNBASE -> present (pte_of (km_mem s) d va) = false) ->
  (forall k va, k ∈ ks -> kin k va = true -> present (pte_of (km_mem s) d va) = false) ->
  exists r s' l', setupkvm_loop d ks s = Ok r s' /\ kmem_wf s' l' /\ (forall x, x < sym_end -> km_mem s' x = km_mem s x) /\
    ((r = d /\ pt_step (km_mem s) (km_mem s') d l l' /\
      forall va, pte_of (km_mem s') d va = kmap_pte ks (pte_of (km_mem s) d va) va) \/
     (r = 0 /\ (length l < absent (km_mem s) d)%nat /\ (forall p, owned (km_mem s) d l p -> p ∈ l') /\
      forall q, foreign (km_mem s) d l q -> (q ∉ l') /\ forall x, q <= x < q + 4096 -> km_mem s' x = km_mem s x)).
Proof.
  induction ks as [|k ks IH]; intros s d l Hok Hwf Hw Hu Hfree; cbn [setupkvm_loop].
  - exists d, s, l. split_and!; auto. left. auto using pt_step_refl.
  - destruct Hok as (Hk & Hdis & Hok).
    destruct (map_kentry k s d l) as (r & s1 & l1 & Hrun & Hwf1 & Hst & Hr); auto.
    { intros va. apply Hfree, elem_of_cons. auto. }
    fold (ksize k). rewrite (bind_ok _ _ _ _ _ Hrun).
    destruct Hr as [[-> Hpte]|(-> & -> & Habs & Hpte)].
    + change (0 <? 0) with false. cbv iota.
      assert (Hkva : forall va, 0 <= va < KERNBASE -> kin k va = false).
      { intros va Hva. destruct Hk as (Kv & _). unfold kin, KERNBASE in *.
        rewrite u32_small by (unfold two32; lia). apply andb_false_iff. rewrite Z.leb_gt. lia. }
      destruct (IH s1 d l1) as (r & s2 & l2 & Hrun2 & Hwf2 & Hlow2 & Hr); auto.
      * apply Hst.
      * intros va Hva. rewrite Hpte, Hkva by exact Hva. auto.
      * intros k' va Hk' Hin. rewrite Hpte, (Hdis k' va) by auto. apply (Hfree k'); auto. apply elem_of_cons. auto.
      * exists r, s2, l2. split_and!; auto; [intros x Hx; rewrite Hlow2 by exact Hx; exact (ps_low _ _ _ _ _ Hst x Hx)|]. destruct Hr as [(-> & Hst2 & Hpte2)|(-> & Habs & Hall & Hfr)].
        -- left. split_and!; [reflexivity | eapply pt_step_trans; eauto |]. intros va. rewrite Hpte2, Hpte.
           cbn [kmap_pte]. destruct (kin k va) eqn:E; [|reflexivity]. apply kmap_pte_out.
           intros k' Hk'. destruct (kin k' va) eqn:E'; [|reflexivity]. rewrite (Hdis k' va) in E; auto.
        -- right. split_and!; auto.
           ++ destruct (Nat.le_gt_cases (absent (km_mem s) d) (length l)) as [Hle|Hgt]; [|exact Hgt].
              pose proof (ps_room _ _ _ _ _ Hst 0 Hle). lia.
           ++ intros p Hp. apply Hall. now apply (owned_step (km_mem s) _ _ l).
           ++ intros q Hq. destruct (ps_foreign _ _ _ _ _ Hst q Hq) as [Hq1 E]. destruct (Hfr q Hq1) as [Hql Ef]. split; [exact Hql|]. intros x Hx. rewrite Ef by exact Hx. auto.
    + change (-1 <? 0) with true. cbv iota.
      assert (Hu1 : forall va, 0 <= va < KERNBASE -> present (pte_of (km_mem s1) d va) = false)
        by (intros va Hva; rewrite Hpte by exact Hva; auto).
      destruct (freevm_spec s1 d []) as (s2 & Hrun2 & Hwf2 & Hfr2 & Hlow2); auto using user_wf_empty; [apply Hst|].
      rewrite (bind_ok _ _ _ _ _ Hrun2). eexists 0, s2, _. split_and!; [reflexivity | exact Hwf2 | intros x Hx; rewrite Hlow2 by exact Hx; exact (ps_low _ _ _ _ _ Hst x Hx) |].
      assert (Hnof : frames (km_mem s1) d 0 (npages 0 KERNBASE) = []).
      { apply frames_nil. intros va [Hva _]%pages_from_elem. apply Hu1.
        unfold npages, KERNBASE in *. word_lia. }
      rewrite Hnof in *. right. split_and!; auto.
      * intros p Hp. apply freevm_list_owned. eapply owned_step; eauto.
      * intros q Hq. destruct (ps_foreign _ _ _ _ _ Hst q Hq) as [Hq1 E]. pose proof Hq1 as (_ & _ & Hqd & Hqt). split.
        -- unfold freevm_list. rewrite Hnof, not_elem_of_cons, !elem_of_app, elem_of_rev. split; [exact Hqd|]. intros [(j & Hj & Hp & Ej)%tables_elem|[Hn%not_elem_of_nil|Hn%not_elem_of_nil]]; try contradiction; try lia. now apply (Hqt j).
        -- intros x Hx. rewrite (Hfr2 q Hq1); auto. apply not_elem_of_nil.
Qed.

Lemma setupkvm_spec s l : kmem_wf s l ->
  exists r s' l', setupkvm s = Ok r s' /\ kmem_wf s' l' /\
    (forall q, page_ok q -> q ∉ l -> forall x, q <= x < q + 4096 -> km_mem s' x = km_mem s x) /\
    (forall x, x < sym_end -> km_mem s' x = km_mem s x) /\ (forall q, page_ok q -> q ∉ l -> q ∉ l') /\
    ((r <> 0 /\ kvm_made s s' r l l') \/
     (r = 0 /\ (length l < 1025)%nat /\ forall p, p ∈ l -> p ∈ l')).
Proof.
  intros Hwf. unfold setupkvm. destruct l as [|d l].
  { rewrite (bind_ok _ _ _ _ _ (kalloc_empty s Hwf)). exists 0, s, [].
    split_and!; auto. right. split_and!; auto. cbn. lia. }
  destruct (kalloc_pop s d l Hwf) as [Hrun Hwf0]. rewrite (bind_ok _ _ _ _ _ Hrun).
  pose proof Hwf as (_ & Hnd & Hok & _). inversion Hnd as [|?? Hdl _]; inversion Hok as [|?? Hd _]; subst.
  rewrite (proj2 (Z.eqb_neq _ _)) by now apply page_ok_nonzero.
  set (m1 := memset (km_mem s) d 0 PGSIZE).
  set (s1 := set_mem m1 (set_freelist (load32 (km_mem s) d) s)).
  assert (Hset : memset_k d 0 PGSIZE (set_freelist (load32 (km_mem s) d) s) = Ok tt s1) by reflexivity.
  rewrite (bind_ok _ _ _ _ _ Hset). change (DEVSPACE <? P2V PHYSTOP) with false. cbv iota.
  assert (Hout : forall q, page_ok q -> q <> d -> forall x, q <= x < q + 4096 -> m1 x = km_mem s x).
  { intros q Hq Hne x Hx. pose proof (page_disjoint q d Hq Hd Hne). apply memset_out; unfold PGSIZE; lia. }
  assert (Hwf1 : kmem_wf s1 l).
  { apply kmem_wf_set_mem; [exact Hwf0 | apply mem_ok_memset; [unfold PGSIZE; lia | apply Hwf] |].
    intros q x Hq. apply Hout; [|congruence]. rewrite Forall_forall in Hok. apply Hok, elem_of_cons. auto. }
  assert (Hpde1 : forall i, 0 <= i < 1024 -> pde_of m1 d i = 0)
    by (intros i Hi; apply load32_memset_zero; unfold PGSIZE; lia).
  destruct (empty_dir m1 d l Hd Hdl Hpde1) as (Hw1 & Hpte1 & Habs1).
  destruct (setupkvm_loop_spec kmap s1 d l) as (r & s' & l' & Hrun' & Hwf' & Hlow' & Hr);
    auto using kmap_table_ok; [now intros; cbn [km_mem set_mem s1]; rewrite Hpte1 .. |].
  assert (Hfor1 : forall q, page_ok q -> q ∉ d :: l -> foreign m1 d l q).
  { intros q Hq [Hqd Hql]%not_elem_of_cons. split_and!; auto. intros i Hi.
    rewrite Hpde1 by exact Hi. discriminate. }
  assert (Hkeep : forall q x, page_ok q -> q ∉ d :: l -> q <= x < q + 4096 -> km_mem s' x = m1 x).
  { intros q x Hq Hql Hx. specialize (Hfor1 q Hq Hql).
    destruct Hr as [(_ & Hst & _)|(_ & _ & _ & Hfr)]; [now apply (ps_foreign _ _ _ _ _ Hst q Hfor1) | now apply (Hfr q)]. }
  exists r, s', l'. split_and!; auto.
  - intros q Hq Hql x Hx. rewrite (Hkeep q) by auto.
    apply (Hout q); auto. now apply not_elem_of_cons in Hql as [? _].
  - intros x Hx. rewrite Hlow' by exact Hx. cbn [km_mem set_mem s1]. destruct Hd as (_ & ? & _). apply memset_out; unfold PGSIZE; lia.
  - intros q Hq Hql. specialize (Hfor1 q Hq Hql). destruct Hr as [(_ & Hst & _)|(_ & _ & _ & Hfr)]; [apply (ps_foreign _ _ _ _ _ Hst q Hfor1) | now apply (Hfr q)].
  - destruct Hr as [(-> & Hst & Hpte)|(-> & Habs & Hall & _)].
    + left. split; [now apply page_ok_nonzero|]. destruct (ps_used _ _ _ _ _ Hst) as [used Eu]. constructor.
      * apply Hst.
      * exists used. now rewrite Eu at 1.
      * intros va. rewrite Hpte. f_equal. apply Hpte1.
      * intros q Hq Hql. now apply (ps_foreign _ _ _ _ _ Hst), Hfor1.
      * intros p Hp. apply (owned_step m1 _ d l l' p Hst).
        apply elem_of_cons in Hp as [->|Hp]; [now left | right; now left].
      * cbn [length]. intros c Hlen. apply (ps_room _ _ _ _ _ Hst). change (c + absent m1 d <= length l)%nat. lia.
    + right. change (km_mem s1) with m1 in *. split_and!; auto.
      * cbn [length]. lia.
      * intros p [->|Hp]%elem_of_cons; apply Hall; [now left | right; now left].
Qed.

(** *** Sharing an address space *)

(** A directory whose pages were never free is not affected. *)
Lemma other_dir m m' d0 l0 : pgdir_wf m d0 l0 ->
  (forall q, page_ok q -> q ∉ l0 -> forall x, q <= x < q + 4096 -> m' x = m x) ->
  forall va, pte_of m' d0 va = pte_of m d0 va /\ walk m' d0 va = walk m d0 va.
Proof.
  intros Hw Hk va. pose proof (PDX_range va).
  assert (Hd : forall x, d0 <= x < d0 + 4096 -> m' x = m x) by (apply Hk; apply Hw).
  split; [|unfold walk, pt_of; now rewrite (pde_ext m m')].
  apply pte_of_ext; [exact Hd|]. intros Hp. destruct (pw_tab _ _ _ Hw (PDX va) ltac:(auto) Hp) as (? & ? & ?).
  now apply Hk.
Qed.

Lemma pte_bound m d va : mem_ok m -> 0 <= pte_of m d va < two32.
Proof.
  intros Hm. unfold pte_of. destruct (present _); [now apply load32_bound | unfold two32; lia].
Qed.

Lemma kmap_user va : 0 <= va < KERNBASE -> kmap_pte kmap 0 va = 0.
Proof.
  intros Hva. apply kmap_pte_out. intros k Hk. destruct LKOK as [D1 D2 D3 D4].
  assert (Hv : KERNBASE <= virt k).
  { unfold KERNLINK, KERNBASE, EXTMEM, DEVSPACE in *.
    repeat (apply elem_of_cons in Hk as [->|Hk]; [cbn [virt]; unfold KERNLINK, KERNBASE, DEVSPACE, EXTMEM; lia|]).
    now apply not_elem_of_nil in Hk. }
  unfold kin, KERNBASE in *. rewrite u32_small by (unfold two32; lia).
  apply andb_false_iff. rewrite Z.leb_gt. lia.
Qed.

(** The frames of the new directory are the parent's. *)
Lemma forked_user s0 s d0 d k l0 l : 4096 * Z.of_nat k <= KERNBASE -> mem_ok (km_mem s0) ->
  user_wf (km_mem s0) d0 l0 -> forked s0 s d0 d k l0 l ->
  user_wf (km_mem s) d l /\
  (forall va, in_pages 0 k va = true -> frame_of (km_mem s) d va = frame_of (km_mem s0) d0 va /\
     present (pte_of (km_mem s) d va) = present (pte_of (km_mem s0) d0 va)).
Proof.
  intros Hk Hm Hu [F D [used Eu] K P _ _].
  assert (Hsame : forall va, in_pages 0 k va = true -> frame_of (km_mem s) d va = frame_of (km_mem s0) d0 va /\
     present (pte_of (km_mem s) d va) = present (pte_of (km_mem s0) d0 va)).
  { intros va Hva. unfold frame_of. rewrite P, Hva.
    destruct (clear_w_keeps _ (pte_bound _ d0 va Hm)) as (E1 & E2 & _). now rewrite E1. }
  assert (Hin : forall va, 0 <= va < KERNBASE -> present (pte_of (km_mem s) d va) = true -> in_pages 0 k va = true).
  { intros va Hva. rewrite P. destruct (in_pages 0 k va); [auto|]. now rewrite kmap_user. }
  split; [|exact Hsame]. constructor.
  - intros va Hva Hp. specialize (Hin va Hva Hp). destruct (Hsame va Hin) as [E1 E2]. rewrite E1.
    destruct (uw_frame _ _ _ Hu va Hva) as (Hok & Hl & _); [congruence|]. now apply K.
  - intros va va' Hva Hva' Hp Hp'. pose proof (Hin va Hva Hp) as I1. pose proof (Hin va' Hva' Hp') as I2.
    destruct (Hsame va I1) as [E1 E2], (Hsame va' I2) as [E3 E4]. rewrite E1, E3.
    apply (uw_inj _ _ _ Hu); auto; congruence.
Qed.

(** One shared page. *)
Lemma fork_page s0 s d0 d k l0 l : let a := 4096 * Z.of_nat k in
  a + 4096 <= KERNBASE -> mem_ok (km_mem s0) -> user_wf (km_mem s0) d0 l0 ->
  present (pte_of (km_mem s0) d0 a) = true ->
  let v := pte_of (km_mem s0) d0 a in
  forked s0 s d0 d k l0 l ->
  exists r s' l', mappages d a PGSIZE (PTE_ADDR v) (Z.land (PTE_FLAGS v) (Z.lnot PTE_W)) s = Ok r s' /\
    ((r = 0 /\ forked s0 s' d0 d (k + 1) l0 l') \/
     (r = -1 /\ l' = [] /\ forked s0 s' d0 d k l0 [] /\ (length l0 <= 1024)%nat)).
Proof.
  intros a Ha Hm Hu Hp v [F D [used Eu] K P Rm A]. unfold KERNBASE in *.
  pose proof (pte_bound _ d0 a Hm) as Hb. fold v in Hb, Hp.
  assert (Hval : u32 (Z.lor (Z.lor (PTE_ADDR v) (Z.land (PTE_FLAGS v) (Z.lnot PTE_W))) PTE_P) = Z.land v (Z.lnot PTE_W))
    by (apply pte_clear_w; [exact Hb | now rewrite <- pte_present]).
  destruct (mappages_page s d a (PTE_ADDR v) (Z.land (PTE_FLAGS v) (Z.lnot PTE_W)) l)
    as (r & s' & l' & Hrun & Hwf' & Hst & Hr); auto; try (unfold two32; lia).
  { subst a. word_lia. }
  { rewrite PTE_ADDR_eq, u32_small by exact Hb. unfold two32 in *. word_lia. }
  { rewrite P. replace (in_pages 0 k a) with false; [rewrite kmap_user by (unfold KERNBASE; lia); reflexivity|].
    symmetry. unfold in_pages. rewrite u32_small by (unfold two32; lia). apply andb_false_iff. rewrite Z.ltb_ge. lia. }
  destruct (ps_used _ _ _ _ _ Hst) as [used' Eu'].
  assert (Hkeep : forall q, page_ok q -> q ∉ l0 -> foreign (km_mem s') d l' q /\
            (forall x, q <= x < q + 4096 -> km_mem s' x = km_mem s0 x)).
  { intros q Hq Hql. destruct (K q Hq Hql) as [Hq1 E1]. destruct (ps_foreign _ _ _ _ _ Hst q Hq1) as [Hq2 E2].
    split; [exact Hq2|]. intros x Hx. now rewrite E2, E1. }
  assert (Hacc : forall p, p ∈ l0 -> owned (km_mem s') d l' p) by (intros p Hp0; eapply owned_step; eauto).
  exists r, s', l'. split; [exact Hrun|]. rewrite Hval in Hr. assert (Hroom : forall c, (c + 1024 < length l0 -> c + absent (km_mem s') d <= length l')%nat)
    by (intros c Hc; apply (ps_room _ _ _ _ _ Hst); auto).
  destruct Hr as [[-> Hpte]|(-> & -> & Hlen & Hpte)].
  - left. split; [reflexivity|]. constructor; auto; [apply Hst | exists (used ++ used'); now rewrite Eu, Eu', app_assoc |].
    intros va. rewrite Hpte, in_pages_app, in_pages_1 by (subst a; unfold two32; lia || word_lia).
    fold a. rewrite Z.add_0_l. destruct (same_page a va) eqn:E.
    + rewrite orb_true_r. subst v. now rewrite (same_page_pte _ d0 a va E).
    + rewrite orb_false_r. apply P.
  - right. split_and!; auto.
    + constructor; auto; [apply Hst | exists l0; now rewrite app_nil_r |]. intros va. now rewrite Hpte.
    + specialize (Rm 0%nat). lia.
Qed.

Lemma present_pde m d va : present (pte_of m d va) = true ->
  present (pde_of m d (PDX va)) = true /\ load32 m (walk m d va) = pte_of m d va.
Proof. unfold pte_of. destruct (present (pde_of m d (PDX va))); [auto | discriminate]. Qed.

Lemma forkuvm_loop_spec n : forall fuel k s s0 d0 d l l0 sz,
  (n < fuel)%nat -> 0 <= sz <= KERNBASE -> npages 0 sz = (k + n)%nat ->
  mem_ok (km_mem s0) -> pgdir_wf (km_mem s0) d0 l0 -> user_wf (km_mem s0) d0 l0 ->
  (forall va, 0 <= va < sz -> present (pte_of (km_mem s0) d0 va) = true) ->
  forked s0 s d0 d k l0 l ->
  exists r s' l', forkuvm_loop fuel d0 d (4096 * Z.of_nat k) sz s = Ok r s' /\ kmem_wf s' l' /\
    ((r = d /\ forked s0 s' d0 d (k + n) l0 l') \/
     (r = 0 /\ (length l0 <= 1024)%nat /\ (forall p, p ∈ l0 -> p ∈ l') /\
      exists j, (k <= j < k + n)%nat /\
        forall va, in_pages 0 j va = true -> frame_of (km_mem s0) d0 va ∈ l')).
Proof.
  induction n as [|n IH]; intros fuel k s s0 d0 d l l0 sz Hf Hsz Hnp Hm Hw0 Hu0 Hpres Hfk;
    (destruct fuel as [|fuel]; [lia|]); cbn [forkuvm_loop];
    destruct (npages_bounds 0 sz _ Hnp) as [Hend Hlast]; unfold KERNBASE in *.
  - case_bool; [|lia]. rewrite Nat.add_0_r. exists d, s, l. split_and!; auto; apply Hfk.
  - case_bool; [lia|]. set (a := 4096 * Z.of_nat k) in *.
    assert (Ha : 0 <= a < sz /\ a + 4096 <= 2147483648) by (subst a; word_lia).
    rewrite (bind_ok _ _ _ _ _ (walkpgdir_lookup d0 a s)).
    pose proof Hfk as [F D _ K P _ A].
    destruct (other_dir (km_mem s0) (km_mem s) d0 l0 Hw0) with (va := a) as [Epte Ewk]; [apply K|].
    assert (Hp : present (pte_of (km_mem s0) d0 a) = true) by (apply Hpres; lia).
    destruct (present_pde _ d0 a Hp) as [Hpd Hld].
    rewrite Ewk, (proj2 (Z.eqb_neq _ _)) by (eapply walk_nonzero; eauto).
    rewrite (bind_ok _ _ _ _ _ (eq_refl : rd32 _ s = _)), <- Ewk, (proj2 (present_pde _ d0 a (eq_trans (f_equal _ Epte) Hp))), Epte.
    fold (present (pte_of (km_mem s0) d0 a)). rewrite Hp. cbn [negb]. cbv zeta.
    destruct (fork_page s0 s d0 d k l0 l) as (r & s1 & l1 & Hrun & Hr); auto; [unfold KERNBASE; lia|].
    rewrite (bind_ok _ _ _ _ _ Hrun). destruct Hr as [[-> Hf1]|(-> & -> & Hf1 & Hlen)].
    + change (0 <? 0) with false. cbv iota.
      replace (u32 _) with (4096 * Z.of_nat (k + 1))
        by (unfold PGSIZE; rewrite u32_small by (unfold two32; lia); lia).
      replace (k + S n)%nat with (k + 1 + n)%nat in * by lia.
      destruct (IH fuel (k + 1)%nat s1 s0 d0 d l1 l0 sz) as (r & s2 & l2 & Hrun2 & Hwf2 & Hr); auto; [lia|].
      exists r, s2, l2. split_and!; auto. destruct Hr as [|(-> & Hlen & Hall & j & Hj & Hfr)]; [auto|].
      right. split_and!; auto. exists j. split; [lia | exact Hfr].
    + change (-1 <? 0) with true. cbv iota.
      destruct (forked_user s0 s1 d0 d k l0 []) as [Hu1 Hsame]; auto; [unfold KERNBASE; lia|].
      destruct (freevm_spec s1 d []) as (s2 & Hrun2 & Hwf2 & _); auto; try apply Hf1.
      rewrite (bind_ok _ _ _ _ _ Hrun2). eexists 0, s2, _. split_and!; [reflexivity | exact Hwf2 |].
      right. split_and!; [reflexivity | exact Hlen | |].
      * intros p Hp0. apply freevm_list_owned. now apply Hf1.
      * exists k. split; [lia|]. intros va Hva. pose proof Hva as Hin. unfold in_pages in Hin. bool_prop.
        destruct (Hsame va Hva) as [E1 E2]. rewrite <- E1, <- frame_u32.
        apply freevm_list_frame; [unfold KERNBASE; lia|]. rewrite pte_u32, E2, <- pte_u32. apply Hpres. lia.
Qed.

Lemma forkuvm_spec s d0 l sz : kmem_wf s l -> pgdir_wf (km_mem s) d0 l -> user_wf (km_mem s) d0 l ->
  0 <= sz <= KERNBASE -> (forall va, 0 <= va < sz -> present (pte_of (km_mem s) d0 va) = true) ->
  exists r s' l', forkuvm d0 sz s = Ok r s' /\ kmem_wf s' l' /\
    ((r <> 0 /\ forked s s' d0 r (npages 0 sz) l l') \/
     (r = 0 /\ (length l <= 1024)%nat /\ (forall p, p ∈ l -> p ∈ l') /\
      exists j, (j <= npages 0 sz)%nat /\
        forall va, in_pages 0 j va = true -> frame_of (km_mem s) d0 va ∈ l')).
Proof.
  intros Hwf Hw Hu Hsz Hpres. unfold forkuvm.
  destruct (setupkvm_spec s l Hwf) as (d & s1 & l1 & Hrun & Hwf1 & Hkeep & _ & _ & Hr).
  rewrite (bind_ok _ _ _ _ _ Hrun). destruct Hr as [[Hd [D [used Eu] P K A Rm]]|(-> & Hlen & Hall)].
  - rewrite (proj2 (Z.eqb_neq _ _) Hd).
    destruct (forkuvm_loop_spec (npages 0 sz) (Z.to_nat (sz / PGSIZE + 2)) 0 s1 s d0 d l1 l sz)
      as (r & s2 & l2 & Hrun2 & Hwf2 & Hr); auto.
    + unfold npages, PGSIZE. word_lia.
    + apply Hwf.
    + constructor; auto; [exists (d :: used); exact Eu | |].
      * intros q Hq Hql. split; [now apply K | now apply Hkeep].
      * intros va. rewrite in_pages_0. apply P.
    + change (4096 * Z.of_nat 0) with 0 in Hrun2. exists r, s2, l2. split_and!; auto.
      destruct Hr as [[-> Hf]|(-> & Hlen & Hall & j & Hj & Hfr)]; [left; auto|].
      right. split_and!; auto. exists j. split; [lia | exact Hfr].
  - change (0 =? 0) with true. cbv iota. exists 0, s1, l1. split_and!; auto. right. split_and!; auto; [lia|].
    exists 0%nat. split; [lia|]. intros va. now rewrite in_pages_0.
Qed.

End Kvm.

(** ** Properties *)

(** [setupkvm] never fails while more than 1024 pages are free.  The
    directory it returns translates exactly as the table [kmap] says: the four
    kernel ranges, and nothing below [KERNBASE]; it consists of pages that were
    free, and no page in use is touched.  When it does fail it returns 0 and
    every page is free again. *)
Theorem setupkvm_maps_kernel `{LKOK : LinkerOk} (s : kmem) (l : list Z) : kmem_wf s l ->
  exists d s' l', setupkvm s = Ok d s' /\ kmem_wf s' l' /\
    (forall q, page_ok q -> q ∉ l -> forall x, q <= x < q + 4096 -> km_mem s' x = km_mem s x) /\
    ((1024 < length l)%nat -> d <> 0) /\
    (d = 0 -> forall p, p ∈ l -> p ∈ l') /\
    (d <> 0 -> d ∈ l /\ pgdir_wf (km_mem s') d l' /\ user_wf (km_mem s') d l' /\
       forall va, pte_of (km_mem s') d va = kmap_pte kmap 0 va /\
         (0 <= va < KERNBASE -> pte_of (km_mem s') d va = 0)).
Proof.
  intros Hwf. destruct (setupkvm_spec s l Hwf) as (d & s' & l' & Hrun & Hwf' & Hkeep & _ & _ & Hr).
  exists d, s', l'. split_and!; auto; destruct Hr as [[Hd [D [used Eu] P K A Rm]]|(-> & Hlen & Hall)];
    auto; try lia; try contradiction.
  intros _. assert (Hz : forall va, 0 <= va < KERNBASE -> pte_of (km_mem s') d va = 0)
    by (intros va Hva; rewrite P; now apply kmap_user).
  split_and!; auto.
  - rewrite Eu. apply elem_of_cons. auto.
  - apply user_wf_empty. intros va Hva. now rewrite Hz.
Qed.

Lemma setupkvm_maps_kernel_witness : exists d s', setupkvm (LK := sample_linker) (sample_pool 1100) = Ok d s' /\ d <> 0.
Proof.
  destruct (sample_space 1100 ltac:(lia)) as (Hwf & _).
  destruct (@setupkvm_maps_kernel sample_linker sample_linker_ok (sample_pool 1100) (pages_from pool_base 1100) Hwf)
    as (d & s' & l' & Hrun & _ & _ & Hd & _).
  exists d, s'. split; [exact Hrun|]. apply Hd. rewrite pages_from_length. lia.
Defined.

(** A process with one mapped page and many free pages left. *)
Lemma sample_process : exists s l, @kmem_wf sample_linker s l /\ @pgdir_wf sample_linker (km_mem s) 0x80210000 l /\
  @user_wf sample_linker (km_mem s) 0x80210000 l /\ (1024 < length l)%nat /\
  (forall va, 0 <= va < 4096 -> present (pte_of (km_mem s) 0x80210000 va) = true).
Proof.
  destruct (sample_space 3000 ltac:(lia)) as (Hwf & Hw & Hu & Hz & Habs).
  destruct (@allocuvm_loop_spec sample_linker sample_linker_ok 1 2 0 (sample_pool 3000) (sample_pool 3000) 0x80210000
    (pages_from pool_base 3000) (pages_from pool_base 3000) 0 4096 0) as (r & s' & l' & _ & Hr);
    auto; try reflexivity; try lia; try (now apply (@grown_refl sample_linker)).
  rewrite Habs, pages_from_length in Hr.
  destruct Hr as [[_ [F D U _ _ N _ _ Rm _]]|(_ & _ & Hlen)]; [|lia]. exists s', l'. split_and!; auto.
  - specialize (Rm 1500%nat). rewrite Habs, pages_from_length in Rm. cbn [length] in Rm. lia.
  - intros va Hva. destruct (N va) as (f & _ & Hok & -> & _).
    + unfold in_pages. rewrite u32_small by (unfold two32; lia). apply andb_true_iff. rewrite Z.leb_le, Z.ltb_lt. lia.
    + now apply (@user_pte sample_linker sample_linker_ok).
Qed.

(** C25: While more than 1024 pages are free, [forkuvm] returns a directory whose
    user entries below [sz] are the parent's entries without [PTE_W]: the same
    frames, the same other flags.  Above them it has only the kernel's
    mappings.  The parent's translation and every page in use keep their
    contents.  When it returns 0, the pages that were free are free. *)
Theorem forkuvm_shares_frames `{LKOK : LinkerOk} (s : kmem) (d0 sz : Z) (l : list Z) :
  kmem_wf s l -> pgdir_wf (km_mem s) d0 l -> user_wf (km_mem s) d0 l ->
  0 <= sz <= KERNBASE -> (forall va, 0 <= va < sz -> present (pte_of (km_mem s) d0 va) = true) ->
  exists d s' l', forkuvm d0 sz s = Ok d s' /\ kmem_wf s' l' /\
    ((1024 < length l)%nat -> d <> 0) /\
    (d = 0 -> forall p, p ∈ l -> p ∈ l') /\
    (d <> 0 -> pgdir_wf (km_mem s') d l' /\
       (forall va, pte_of (km_mem s') d va =
          if in_pages 0 (npages 0 sz) va then Z.land (pte_of (km_mem s) d0 va) (Z.lnot PTE_W) else kmap_pte kmap 0 va) /\
       (forall va, in_pages 0 (npages 0 sz) va = true -> frame_of (km_mem s') d va = frame_of (km_mem s) d0 va) /\
       (forall va, pte_of (km_mem s') d0 va = pte_of (km_mem s) d0 va) /\
       (forall q, page_ok q -> q ∉ l -> forall x, q <= x < q + 4096 -> km_mem s' x = km_mem s x)).
Proof.
  intros Hwf Hw Hu Hsz Hpres.
  destruct (forkuvm_spec s d0 l sz Hwf Hw Hu Hsz Hpres) as (d & s' & l' & Hrun & Hwf' & Hr).
  exists d, s', l'. split_and!; auto; destruct Hr as [[Hd Hf]|(-> & Hlen & Hall & _)]; auto; try lia; try contradiction.
  intros _. destruct (forked_user s s' d0 d (npages 0 sz) l l') as [_ Hsame]; auto; [|apply Hwf|].
  { unfold npages, KERNBASE in *. word_lia. }
  pose proof Hf as [F D _ K P _ _]. split_and!; auto.
  - intros va Hva. now apply Hsame.
  - intros va. apply (other_dir (km_mem s) (km_mem s') d0 l Hw). intros q Hq Hql. now apply K.
  - intros q Hq Hql. now apply K.
Qed.

Lemma forkuvm_shares_frames_witness : exists s d s', forkuvm (LK := sample_linker) 0x80210000 4096 s = Ok d s' /\ d <> 0.
Proof.
  destruct sample_process as (s & l & Hwf & Hw & Hu & Hlen & Hpres).
  destruct (@forkuvm_shares_frames sample_linker sample_linker_ok s 0x80210000 4096 l) as (d & s' & l' & Hrun & _ & Hd & _);
    auto; [unfold KERNBASE; lia|].
  exists s, d, s'. auto.
Defined.

(** Frames shared by [forkuvm] are not counted.  When the child's directory
    is given back with [freevm], as [wait] does for a zombie child, every frame
    the parent still maps is on the free list, while the parent's entries still
    point to it: the next [kalloc] hands out memory the parent is using. *)
Theorem child_freevm_frees_parent `{LKOK : LinkerOk} (s s1 : kmem) (d0 sz d : Z) (l : list Z) :
  kmem_wf s l -> pgdir_wf (km_mem s) d0 l -> user_wf (km_mem s) d0 l ->
  0 <= sz <= KERNBASE -> (forall va, 0 <= va < sz -> present (pte_of (km_mem s) d0 va) = true) ->
  forkuvm d0 sz s = Ok d s1 -> d <> 0 ->
  exists s2 l2, freevm d s1 = Ok tt s2 /\ kmem_wf s2 l2 /\
    forall va, 0 <= va < sz -> present (pte_of (km_mem s2) d0 va) = true /\ frame_of (km_mem s2) d0 va ∈ l2.
Proof.
  intros Hwf Hw Hu Hsz Hpres Hrun Hd.
  destruct (forkuvm_spec s d0 l sz Hwf Hw Hu Hsz Hpres) as (d' & s' & l1 & Hrun' & Hwf1 & Hr).
  rewrite Hrun in Hrun'. injection Hrun' as <- <-. destruct Hr as [[_ Hf]|(-> & _)]; [|contradiction].
  assert (Hn : 4096 * Z.of_nat (npages 0 sz) <= KERNBASE) by (unfold npages, KERNBASE in *; word_lia).
  assert (Hm : mem_ok (km_mem s)) by apply Hwf.
  destruct (forked_user s s1 d0 d (npages 0 sz) l l1 Hn Hm Hu Hf) as [Hu1 Hsame].
  pose proof Hf as [F D _ K P _ _].
  destruct (freevm_spec s1 d l1 F D Hu1) as (s2 & Hrun2 & Hwf2 & Hkeep2 & _).
  assert (Hpar : forall q, page_ok q -> q ∉ l ->
            (forall va, 0 <= va < KERNBASE -> present (pte_of (km_mem s) d0 va) = true -> frame_of (km_mem s) d0 va <> q) ->
            forall x, q <= x < q + 4096 -> km_mem s2 x = km_mem s x).
  { intros q Hq Hql Hnf x Hx. destruct (K q Hq Hql) as [Hq1 E1]. rewrite (Hkeep2 q Hq1); auto.
    intros (va & Hva & Hp & E)%frames_elem. rewrite P in Hp.
    assert (Hva' : 0 <= va < KERNBASE) by (unfold npages, KERNBASE in *; word_lia).
    destruct (in_pages 0 (npages 0 sz) va) eqn:Ein; [|now rewrite kmap_user in Hp].
    rewrite (proj1 (Hsame va Ein)) in E. apply (Hnf va); auto.
    rewrite <- (proj2 (Hsame va Ein)), P, Ein. exact Hp. }
  assert (Hpte : forall va, pte_of (km_mem s2) d0 va = pte_of (km_mem s) d0 va).
  { intros va. pose proof (PDX_range va). apply pte_of_ext.
    - apply Hpar; try apply Hw. intros va' Hva' Hp'. now apply (uw_frame _ _ _ Hu va').
    - intros Hp. destruct (pw_tab _ _ _ Hw (PDX va) ltac:(auto) Hp) as (? & ? & ?). apply Hpar; auto.
      intros va' Hva' Hp' E. destruct (uw_frame _ _ _ Hu va' Hva' Hp') as (_ & _ & _ & Ht). now apply (Ht (PDX va)). }
  exists s2. eexists. split_and!; [exact Hrun2 | exact Hwf2 |]. intros va Hva.
  assert (Ein : in_pages 0 (npages 0 sz) va = true).
  { unfold in_pages, npages, KERNBASE in *. rewrite u32_small by (unfold two32; lia).
    apply andb_true_iff. rewrite Z.leb_le, Z.ltb_lt. word_lia. }
  destruct (Hsame va Ein) as [E1 E2]. unfold frame_of at 1. rewrite Hpte. split; [auto|].
  fold (frame_of (km_mem s) d0 va). rewrite <- E1. apply freevm_list_frame; [lia|]. rewrite E2. auto.
Qed.

Lemma child_freevm_frees_parent_witness : exists s2 l2, @kmem_wf sample_linker s2 l2 /\
  present (pte_of (km_mem s2) 0x80210000 0) = true /\ frame_of (km_mem s2) 0x80210000 0 ∈ l2.
Proof.
  destruct sample_process as (s & l & Hwf & Hw & Hu & Hlen & Hpres).
  destruct (@forkuvm_spec sample_linker sample_linker_ok s 0x80210000 l 4096) as (d & s1 & l1 & Hrun & _ & Hr);
    auto; [unfold KERNBASE; lia|].
  destruct Hr as [[Hd _]|(_ & Hle & _)]; [|lia].
  destruct (@child_freevm_frees_parent sample_linker sample_linker_ok s s1 0x80210000 4096 d l)
    as (s2 & l2 & _ & Hwf2 & Hva); auto; [unfold KERNBASE; lia|].
  exists s2, l2. split; [exact Hwf2|]. apply Hva. lia.
Defined.
