(* ===== verification/Lazy.v ===== *)
(** Lazy mappings: [struct lazy], [sys_wmap] of [src/xv6/xv6-public/sysproc.c]
    and the fields of [struct proc] that they use.

    The mappings of a process form a doubly linked list of [struct lazy] nodes,
    each in a page of its own from [kalloc], between [proc->head] and
    [proc->tail].  The structures are modelled in memory, field by field, so
    that the code's pointer updates are the model's stores.  [dll] ties the
    memory to a list of regions; [wmap_fun] is [sys_wmap] on that list, and the
    refinement theorem says that the code implements it. *)

From S2P Require Import Prelude Mem Mmu Spinlock Kalloc.

(** ** Layout of [struct lazy] and [struct proc] *)

Definition LZ_fd : Z := 0.
Definition LZ_addr : Z := 4.
Definition LZ_length : Z := 8.
Definition LZ_shared : Z := 12.
Definition LZ_used : Z := 16.
Definition LZ_numPages : Z := 20.
Definition LZ_next : Z := 24.
Definition LZ_prev : Z := 28.
Definition LZ_size : Z := 32.

Definition P_sz : Z := 0.
Definition P_pgdir : Z := 4.
Definition P_ofile : Z := 40.
Definition P_n_upages : Z := 124.
Definition P_va : Z := 128.
Definition P_pa : Z := 256.
Definition P_head : Z := 384.
Definition P_tail : Z := 388.
Definition P_size : Z := 392.

(** ** wmap.h *)

Definition MAP_PRIVATE : Z := 0x0001.
Definition MAP_SHARED : Z := 0x0002.
Definition MAP_ANONYMOUS : Z := 0x0004.
Definition MAP_FIXED : Z := 0x0008.
Definition MREMAP_MAYMOVE : Z := 0x1.

(** ** Accesses through pointers

    A pointer below [KERNBASE], the null pointer among them, is no kernel
    object: the access faults. *)

Definition ldf (p off : Z) : M kmem Z :=
  if p <? KERNBASE then fault "bad pointer" else rd32 (p + off).

Definition stf (p off v : Z) : M kmem unit :=
  if p <? KERNBASE then fault "bad pointer" else wr32 (p + off) v.

(** ** sys_wmap *)

(** [flags] to [fd] and [shared]. *)
Definition wmap_fd (flags fd : Z) : Z := if truth (Z.land flags MAP_ANONYMOUS) then -1 else fd.
Definition wmap_shared (flags : Z) : Z := if truth (Z.land flags MAP_SHARED) then 1 else 0.

(** The block that allocates and fills a node, which the source repeats. *)
Definition new_lazy (addr length flags fd : Z) : M kmem Z :=
  new <- kalloc ;;
  if new <? KERNBASE then fault "bad pointer" else
  memset_k new 0 LZ_size ;;;
  stf new LZ_addr addr ;;;
  stf new LZ_length length ;;;
  stf new LZ_fd (wmap_fd flags fd) ;;;
  stf new LZ_shared (wmap_shared flags) ;;;
  stf new LZ_used 1 ;;;
  ret new.

(** Linking [new] in front of [temp]. *)
Definition insert_before (new temp : Z) : M kmem unit :=
  stf new LZ_next temp ;;;
  pv <- ldf temp LZ_prev ;;
  if truth pv then
    pv <- ldf temp LZ_prev ;; stf new LZ_prev pv ;;;
    pv <- ldf temp LZ_prev ;; stf pv LZ_next new ;;;
    stf temp LZ_prev new
  else stf temp LZ_prev new.

Section Wmap.

(** [pr] is [myproc()]. *)
Variable pr : Z.

(** The first [while(temp)] loop: [inl] when it returns from the system call,
    [inr last] when it runs off the list. *)
Fixpoint wmap_at_loop (fuel : nat) (temp addr length flags fd last : Z) : M kmem (Z + Z) :=
  match fuel with
  | O => nofuel
  | S k =>
      if temp =? 0 then ret (inr last) else
      taddr <- ldf temp LZ_addr ;;
      if (addr <? taddr) && (u32 (addr + length) <? taddr) then
        new <- new_lazy addr length flags fd ;;
        insert_before new temp ;;;
        (if last =? 0 then wr32 (pr + P_head) new else ret tt) ;;;
        ret (inl addr)
      else if (addr <? taddr) && (taddr <=? u32 (addr + length)) && truth (Z.land flags MAP_FIXED) then
        ret (inl (u32 (-1)))
      else
        tlen <- ldf temp LZ_length ;;
        next <- ldf temp LZ_next ;;
        wmap_at_loop k next addr length flags fd (u32 (taddr + tlen))
  end.

(** [if(addr >= MMAPBASE)]: [None] when control reaches the end of the block. *)
Definition wmap_at (fuel : nat) (temp tail addr length flags fd : Z) : M kmem (option Z) :=
  if KERNBASE <=? u32 (addr + length) then ret (Some (u32 (-1))) else
  tlen <- ldf temp LZ_length ;;
  if tlen =? 0 then
    stf temp LZ_used 1 ;;;
    stf temp LZ_addr addr ;;;
    stf temp LZ_length length ;;;
    stf temp LZ_fd (wmap_fd flags fd) ;;;
    stf temp LZ_shared (wmap_shared flags) ;;;
    wr32 (pr + P_tail) temp ;;;
    ret (Some addr)
  else
    r <- wmap_at_loop fuel temp addr length flags fd 0 ;;
    match r with
    | inl v => ret (Some v)
    | inr last =>
        if (addr <? KERNBASE) && (last <=? addr) then
          new <- new_lazy addr length flags fd ;;
          stf tail LZ_next new ;;;
          stf new LZ_prev tail ;;;
          wr32 (pr + P_tail) new ;;;
          ret (Some addr)
        else ret None
    end.

(** The second loop, which looks for a gap; [inr start] off the list. *)
Fixpoint wmap_any_loop (fuel : nat) (temp length flags fd start : Z) : M kmem (Z + Z) :=
  match fuel with
  | O => nofuel
  | S k =>
      if temp =? 0 then ret (inr start) else
      tend <- ldf temp LZ_addr ;;
      if u32 length <? u32 (tend - start) then
        new <- new_lazy start length flags fd ;;
        insert_before new temp ;;;
        (if start =? MMAPBASE then wr32 (pr + P_head) new else ret tt) ;;;
        ret (inl start)
      else
        taddr <- ldf temp LZ_addr ;;
        tlen <- ldf temp LZ_length ;;
        next <- ldf temp LZ_next ;;
        wmap_any_loop k next length flags fd (u32 (taddr + tlen))
  end.

(** The block after it. *)
Definition wmap_any (fuel : nat) (tail length flags fd : Z) : M kmem Z :=
  temp <- rd32 (pr + P_head) ;;
  if negb (truth (Z.land MAP_FIXED flags)) then
    r <- wmap_any_loop fuel temp length flags fd MMAPBASE ;;
    match r with
    | inl v => ret v
    | inr start =>
        if u32 length <? u32 (KERNBASE - start) then
          new <- new_lazy start length flags fd ;;
          stf new LZ_prev tail ;;;
          stf tail LZ_next new ;;;
          wr32 (pr + P_tail) new ;;;
          ret start
        else ret (u32 (-1))
    end
  else ret (u32 (-1)).

Definition sys_wmap (fuel : nat) (tAddr length flags fd : Z) : M kmem Z :=
  let addr := PGROUNDUP tAddr in
  if length <=? 0 then ret (u32 (-1)) else
  temp <- rd32 (pr + P_head) ;;
  tail <- rd32 (pr + P_tail) ;;
  r <- (if MMAPBASE <=? addr then wmap_at fuel temp tail addr length flags fd else ret None) ;;
  match r with
  | Some v => ret v
  | None => wmap_any fuel tail length flags fd
  end.

End Wmap.

(** ** The list of regions *)

(** The payload of a node, each field as the 32-bit word in memory. *)
Record region := mkRegion {
  rg_fd : Z; rg_addr : Z; rg_length : Z; rg_shared : Z; rg_used : Z; rg_pages : Z
}.

Definition rg_end (r : region) : Z := u32 (rg_addr r + rg_length r).

Definition new_region (addr length flags fd : Z) : region :=
  mkRegion (u32 (wmap_fd flags fd)) (u32 addr) (u32 length) (wmap_shared flags) 1 0.

(** What [sys_wmap] does to the list, without pointers.  [inl None]: refused,
    [inr]: ran off the end with the given [last] or [start]. *)
Fixpoint wmap_at_fun (rs : list region) (n : region) (fixed : bool) (last : Z) : option (list region) + Z :=
  match rs with
  | [] => inr last
  | r :: rs' =>
      if (rg_addr n <? rg_addr r) && (rg_end n <? rg_addr r) then inl (Some (n :: r :: rs'))
      else if (rg_addr n <? rg_addr r) && (rg_addr r <=? rg_end n) && fixed then inl None
      else match wmap_at_fun rs' n fixed (rg_end r) with
           | inl (Some l) => inl (Some (r :: l))
           | x => x
           end
  end.

Fixpoint wmap_any_fun (rs : list region) (mk : Z -> region) (length start : Z) : list region * Z + Z :=
  match rs with
  | [] => inr start
  | r :: rs' =>
      if length <? u32 (rg_addr r - start) then inl (mk start :: r :: rs', start)
      else match wmap_any_fun rs' mk length (rg_end r) with
           | inl (l, a) => inl (r :: l, a)
           | inr x => inr x
           end
  end.

(** A mapping wherever there is a gap. *)
Definition wmap_gap (rs : list region) (length flags fd : Z) : list region * Z :=
  if truth (Z.land flags MAP_FIXED) then (rs, u32 (-1)) else
  match wmap_any_fun rs (fun a => new_region a length flags fd) length MMAPBASE with
  | inl x => x
  | inr start => if length <? u32 (KERNBASE - start)
                 then (rs ++ [new_region start length flags fd], start) else (rs, u32 (-1))
  end.

(** The list after the call and its result; the list is unchanged on -1. *)
Definition wmap_fun (rs : list region) (tAddr length flags fd : Z) : list region * Z :=
  let addr := PGROUNDUP tAddr in
  let fixed := truth (Z.land flags MAP_FIXED) in
  let n := new_region addr length flags fd in
  let any := wmap_gap rs length flags fd in
  if length <=? 0 then (rs, u32 (-1)) else
  if addr <? MMAPBASE then any else
  if KERNBASE <=? rg_end n then (rs, u32 (-1)) else
  match rs with
  | r :: rs' =>
      if rg_length r =? 0 then
        (mkRegion (rg_fd n) (rg_addr n) (rg_length n) (rg_shared n) 1 (rg_pages r) :: rs', addr)
      else match wmap_at_fun rs n fixed 0 with
           | inl (Some l) => (l, addr)
           | inl None => (rs, u32 (-1))
           | inr last => if (addr <? KERNBASE) && (last <=? addr) then (rs ++ [n], addr) else any
           end
  | [] => (rs, u32 (-1))
  end.

(** ** The list in memory *)

Definition node_region (m : mem) (t : Z) : region :=
  mkRegion (load32 m (t + LZ_fd)) (load32 m (t + LZ_addr)) (load32 m (t + LZ_length))
           (load32 m (t + LZ_shared)) (load32 m (t + LZ_used)) (load32 m (t + LZ_numPages)).
Definition node_next (m : mem) (t : Z) : Z := load32 m (t + LZ_next).
Definition node_prev (m : mem) (t : Z) : Z := load32 m (t + LZ_prev).

(** The nodes [ns] from [p] on, entered from [prev]; the last one is [lst] and
    points to [nxt]. *)
Fixpoint dseg (m : mem) (prev p : Z) (ns : list (Z * region)) (lst nxt : Z) : Prop :=
  match ns with
  | [] => p = nxt /\ lst = prev
  | (t, r) :: ns' => p = t /\ node_region m t = r /\ node_prev m t = prev /\ dseg m t (node_next m t) ns' lst nxt
  end.

(** Regions in ascending order, apart from each other, between [lo] and [hi]. *)
Fixpoint spaced (hi lo : Z) (rs : list region) : Prop :=
  match rs with
  | [] => True
  | r :: rs' => lo <= rg_addr r /\ 0 < rg_length r /\ rg_addr r + rg_length r < hi /\
      spaced hi (rg_addr r + rg_length r) rs'
  end.

(** A new process has one empty node; it stays at the end of the list until a
    mapping at a fixed address takes its place. *)
Definition empty_region (r : region) : Prop := rg_addr r = 0 /\ rg_length r = 0.

Definition tidy (rs : list region) : Prop :=
  (rs <> [] /\ spaced KERNBASE MMAPBASE rs) \/
  (exists rs0 e, rs = rs0 ++ [e] /\ empty_region e /\ spaced two32 MMAPBASE rs0).

(** Two regions share an address. *)
Definition overlap (r r' : region) : bool :=
  (rg_addr r <? rg_addr r' + rg_length r') && (rg_addr r' <? rg_addr r + rg_length r).

(** The end of the last region, [lo] when there is none. *)
Fixpoint last_end (lo : Z) (rs : list region) : Z :=
  match rs with [] => lo | r :: rs' => last_end (rg_addr r + rg_length r) rs' end.

Section LazyList.
Context `{LK : Linker}.

(** The process's [struct proc] lies in the kernel image. *)
Definition proc_ok (pr : Z) : Prop := KERNBASE <= pr /\ pr + P_size <= sym_end.

(** [head] and [tail] delimit a list of nodes in pages of their own. *)
Record lazy_wf (s : kmem) (pr : Z) (ns : list (Z * region)) (l : list Z) : Prop := {
  lw_free : kmem_wf s l;
  lw_proc : proc_ok pr;
  lw_list : dseg (km_mem s) 0 (load32 (km_mem s) (pr + P_head)) ns (load32 (km_mem s) (pr + P_tail)) 0;
  lw_pages : Forall page_ok (map fst ns);
  lw_nodup : NoDup (map fst ns);
  lw_used : forall t, t ∈ map fst ns -> t ∉ l
}.

(** Every region but the last is a mapping with a proper end. *)
Definition proper (rs : list region) : Prop :=
  Forall (fun r => rg_length r <> 0 /\ rg_end r <> 0 /\ rg_end r <> MMAPBASE) (removelast rs).

(** ** Lemmas *)

Context {LKOK : LinkerOk}.

Lemma fld_store m p off v p' off' : page_ok p -> page_ok p' ->
  0 <= off -> off + 4 <= 4096 -> 0 <= off' -> off' + 4 <= 4096 ->
  (p = p' -> off = off' \/ off + 4 <= off' \/ off' + 4 <= off) ->
  load32 (store32 m (p + off) v) (p' + off') =
  if (p =? p') && (off =? off') then u32 v else load32 m (p' + off').
Proof.
  intros Hp Hp' H1 H2 H3 H4 Ho. destruct (Z.eqb_spec p p') as [<-|Hne]; cbn [andb].
  - destruct (Z.eqb_spec off off') as [<-|]; [apply load32_store32_eq|].
    apply load32_store32_ne. destruct (Ho eq_refl); lia.
  - apply load32_store32_ne. pose proof (page_disjoint p p' Hp Hp' Hne). lia.
Qed.

Lemma dseg_app m ns1 ns2 : forall a p z n,
  dseg m a p (ns1 ++ ns2) z n <-> exists y q, dseg m a p ns1 y q /\ dseg m y q ns2 z n.
Proof.
  induction ns1 as [|[t r] ns1 IH]; intros a p z n; cbn [app dseg].
  - split; [intros H; exists a, p; auto | intros (y & q & [-> ->] & H); exact H].
  - rewrite IH. split.
    + intros (-> & <- & <- & y & q & H1 & H2). exists y, q. auto.
    + intros (y & q & (-> & <- & <- & H1) & H2). split_and!; auto. exists y, q. auto.
Qed.

Lemma dseg_frame m m' ns : forall a p z n,
  (forall t, t ∈ map fst ns -> node_region m' t = node_region m t /\ node_prev m' t = node_prev m t /\
     node_next m' t = node_next m t) ->
  dseg m a p ns z n -> dseg m' a p ns z n.
Proof.
  induction ns as [|[t r] ns IH]; intros a p z n Hf; cbn [dseg]; [auto|].
  destruct (Hf t) as (-> & -> & ->); [cbn; apply elem_of_cons; auto|].
  intros (-> & -> & -> & Hd). split_and!; auto. apply IH; [|exact Hd].
  intros t' Ht'. apply Hf. cbn. apply elem_of_cons. auto.
Qed.

(** Bytes of a page decide its node. *)
Lemma node_ext m m' t : (forall x, t <= x < t + LZ_size -> m' x = m x) ->
  node_region m' t = node_region m t /\ node_prev m' t = node_prev m t /\ node_next m' t = node_next m t.
Proof.
  intros Hx. unfold node_region, node_prev, node_next, LZ_size, LZ_fd, LZ_addr, LZ_length, LZ_shared, LZ_used,
    LZ_numPages, LZ_next, LZ_prev in *. split_and!; [f_equal | |]; apply load32_ext; intros x Hx'; apply Hx; lia.
Qed.

Lemma ldf_ok p off s : KERNBASE <= p -> ldf p off s = Ok (load32 (km_mem s) (p + off)) s.
Proof. intros Hp. unfold ldf. now rewrite (proj2 (Z.ltb_ge _ _)) by lia. Qed.

Lemma stf_ok p off v s : KERNBASE <= p -> stf p off v s = Ok tt (set_mem (store32 (km_mem s) (p + off) v) s).
Proof. intros Hp. unfold stf. now rewrite (proj2 (Z.ltb_ge _ _)) by lia. Qed.

Lemma page_kernbase p : page_ok p -> KERNBASE <= p.
Proof. intros Hp. apply page_ok_bounds in Hp. unfold KERNBASE in *. lia. Qed.

(** A store outside the free pages keeps the free list. *)
Lemma kmem_wf_store s l a v : kmem_wf s l -> (forall p, p ∈ l -> a + 4 <= p \/ p + 4096 <= a) ->
  kmem_wf (set_mem (store32 (km_mem s) a v) s) l.
Proof.
  intros Hwf Ha. apply kmem_wf_set_mem; [exact Hwf | apply mem_ok_store32, Hwf |].
  intros p x Hp Hx. apply store32_frame. specialize (Ha p Hp). lia.
Qed.

Lemma page_apart s l p off : kmem_wf s l -> page_ok p -> (p ∉ l) -> 0 <= off -> off + 4 <= 4096 ->
  forall q, q ∈ l -> p + off + 4 <= q \/ q + 4096 <= p + off.
Proof.
  intros (_ & _ & Hok & _) Hp Hpl H1 H2 q Hq. rewrite Forall_forall in Hok.
  assert (q <> p) by congruence. pose proof (page_disjoint q p (Hok q Hq) Hp ltac:(auto)). lia.
Qed.

Lemma proc_apart s l pr off : kmem_wf s l -> proc_ok pr -> 0 <= off -> off + 4 <= P_size ->
  forall q, q ∈ l -> pr + off + 4 <= q \/ q + 4096 <= pr + off.
Proof.
  intros (_ & _ & Hok & _) [_ Hp] H1 H2 q Hq. rewrite Forall_forall in Hok.
  destruct (Hok q Hq) as (_ & Hq' & _). lia.
Qed.

(** Reads of a node's field after stores to fields of the same node. *)
Ltac node_loads :=
  repeat (rewrite fld_store by (assumption || (unfold LZ_fd, LZ_addr, LZ_length, LZ_shared, LZ_used, LZ_numPages,
            LZ_next, LZ_prev; lia)));
  rewrite ?Z.eqb_refl; cbn [andb].

Definition lazy_mem (m : mem) (q addr length flags fd : Z) : mem :=
  store32 (store32 (store32 (store32 (store32 (memset m q 0 LZ_size)
    (q + LZ_addr) addr) (q + LZ_length) length) (q + LZ_fd) (wmap_fd flags fd))
    (q + LZ_shared) (wmap_shared flags)) (q + LZ_used) 1.

Lemma wmap_shared_word flags : u32 (wmap_shared flags) = wmap_shared flags.
Proof. unfold wmap_shared. now destruct (truth _). Qed.

Lemma lazy_mem_node m q addr length flags fd : page_ok q ->
  let m' := lazy_mem m q addr length flags fd in
  node_region m' q = new_region addr length flags fd /\ node_prev m' q = 0 /\ node_next m' q = 0.
Proof.
  intros Hq m'. unfold m', lazy_mem, node_region, node_prev, node_next, new_region.
  assert (Hz : forall off, 0 <= off -> off + 4 <= 32 -> load32 (memset m q 0 LZ_size) (q + off) = 0)
    by (intros off H1 H2; apply load32_memset_zero; unfold LZ_size; lia).
  split_and!; [f_equal | |]; node_loads;
    first [reflexivity | apply wmap_shared_word | apply Hz; unfold LZ_numPages, LZ_next, LZ_prev; lia].
Qed.

Lemma lazy_mem_out m q addr length flags fd x : x < q \/ q + LZ_size <= x ->
  lazy_mem m q addr length flags fd x = m x.
Proof.
  intros Hx. unfold lazy_mem, LZ_size, LZ_fd, LZ_addr, LZ_length, LZ_shared, LZ_used in *.
  rewrite !store32_frame by lia. apply memset_out; lia.
Qed.

Lemma new_lazy_spec s q l addr length flags fd : kmem_wf s (q :: l) ->
  exists s', new_lazy addr length flags fd s = Ok q s' /\ kmem_wf s' l /\
    km_mem s' = lazy_mem (km_mem s) q addr length flags fd.
Proof.
  intros Hwf. destruct (kalloc_pop s q l Hwf) as [Hrun Hwf0].
  destruct Hwf as (_ & Hnd & Hok & _ & Hm). inversion Hnd as [|?? Hql _]. inversion Hok as [|?? Hq _]. subst.
  unfold new_lazy. rewrite (bind_ok _ _ _ _ _ Hrun). pose proof (page_kernbase q Hq) as Hk.
  rewrite (proj2 (Z.ltb_ge _ _)) by lia.
  set (s0 := set_freelist (load32 (km_mem s) q) s) in *.
  exists (set_mem (lazy_mem (km_mem s) q addr length flags fd) s0). split_and!; [| | reflexivity].
  - rewrite (bind_ok _ _ _ tt (set_mem (memset (km_mem s0) q 0 LZ_size) s0)) by reflexivity.
    do 5 rewrite (bind_ok _ _ _ _ _ (stf_ok q _ _ _ Hk)). reflexivity.
  - apply kmem_wf_set_mem; [exact Hwf0 | |].
    + unfold lazy_mem. repeat apply mem_ok_store32. apply mem_ok_memset; [unfold LZ_size; lia | exact Hm].
    + intros p x Hp Hx. apply lazy_mem_out. assert (p <> q) by congruence.
      destruct Hwf0 as (_ & _ & Hl & _). rewrite Forall_forall in Hl.
      pose proof (page_disjoint p q (Hl p Hp) Hq ltac:(auto)). unfold LZ_size. lia.
Qed.

Lemma node_store_next m p v t : page_ok p -> page_ok t ->
  let m' := store32 m (p + LZ_next) v in
  node_region m' t = node_region m t /\ node_prev m' t = node_prev m t /\
  node_next m' t = if p =? t then u32 v else node_next m t.
Proof.
  intros Hp Ht m'. unfold m', node_region, node_prev, node_next. split_and!; [f_equal | |]; node_loads;
    destruct (p =? t); reflexivity.
Qed.

Lemma node_store_prev m p v t : page_ok p -> page_ok t ->
  let m' := store32 m (p + LZ_prev) v in
  node_region m' t = node_region m t /\ node_next m' t = node_next m t /\
  node_prev m' t = if p =? t then u32 v else node_prev m t.
Proof.
  intros Hp Ht m'. unfold m', node_region, node_prev, node_next. split_and!; [f_equal | |]; node_loads;
    destruct (p =? t); reflexivity.
Qed.

Lemma node_store_proc m pr off v t : proc_ok pr -> page_ok t -> 0 <= off -> off + 4 <= P_size ->
  let m' := store32 m (pr + off) v in
  node_region m' t = node_region m t /\ node_prev m' t = node_prev m t /\ node_next m' t = node_next m t.
Proof.
  intros [_ Hp] (_ & Ht & _) H1 H2 m'. apply node_ext. intros x Hx. apply store32_frame. lia.
Qed.

Lemma dseg_last m ns y r : forall a p z n, dseg m a p (ns ++ [(y, r)]) z n -> z = y /\ node_next m y = n.
Proof.
  intros a p z n (y' & q & _ & Hd)%dseg_app. cbn [dseg] in Hd. destruct Hd as (_ & _ & _ & Hn & Hz). auto.
Qed.

(** What linking [q] in before [t], after [y], makes of the nodes. *)
Record linked (m m' : mem) (ts : list Z) (y q t : Z) : Prop := {
  lk_region : forall x, x ∈ ts -> node_region m' x = node_region m x;
  lk_prev : forall x, x ∈ ts -> node_prev m' x = if t =? x then q else node_prev m x;
  lk_next : forall x, x ∈ ts -> node_next m' x = if y =? x then q else node_next m x;
  lk_qprev : node_prev m' q = y;
  lk_qnext : node_next m' q = t
}.

(** A segment whose last node [y] is redirected to [q]. *)
Lemma seg_relink m m' y q t ns : forall a p,
  (forall x, x ∈ map fst ns -> node_region m' x = node_region m x /\ node_prev m' x = node_prev m x /\
     node_next m' x = if y =? x then q else node_next m x) ->
  NoDup (map fst ns) -> ns <> [] -> dseg m a p ns y t -> dseg m' a p ns y q.
Proof.
  induction ns as [|[x r] ns IH]; intros a p Hx Hnd Hne; [contradiction|].
  cbn [map fst dseg] in *. inversion Hnd as [|?? Hxn Hnd']. subst.
  destruct (Hx x) as (-> & -> & ->); [apply elem_of_cons; auto|].
  intros (-> & <- & <- & Hd). split_and!; auto. destruct ns as [|[x' r'] ns].
  - cbn [dseg] in *. destruct Hd as [_ ->]. rewrite Z.eqb_refl. auto.
  - assert (Hyx : y <> x).
    { destruct (exists_last (l := (x', r') :: ns) ltac:(discriminate)) as (ns0 & [y0 ry] & E).
      rewrite E in Hd, Hxn. apply dseg_last in Hd as [-> _]. intros ->. apply Hxn. rewrite map_app.
      apply elem_of_app. right. cbn. apply elem_of_cons. auto. }
    rewrite (proj2 (Z.eqb_neq y x)) by exact Hyx. apply IH; [| exact Hnd' | discriminate | exact Hd].
    intros z Hz. apply Hx, elem_of_cons. auto.
Qed.

Lemma linked_seg m m' ts y q t ns : linked m m' ts y q t -> forall a p,
  (forall x, x ∈ map fst ns -> x ∈ ts) -> t ∉ map fst ns -> NoDup (map fst ns) -> ns <> [] ->
  dseg m a p ns y t -> dseg m' a p ns y q.
Proof.
  intros [Hr Hp Hn _ _] a p Hin Ht Hnd Hne. apply seg_relink; auto. intros x Hx.
  rewrite Hr, Hp, Hn by auto. rewrite (proj2 (Z.eqb_neq t x)) by congruence. auto.
Qed.

(** Off the two linked neighbours nothing changes. *)
Lemma linked_tail m m' ts y q t ns : linked m m' ts y q t -> forall a p z,
  (forall x, x ∈ map fst ns -> x ∈ ts) -> t ∉ map fst ns -> y ∉ map fst ns ->
  dseg m a p ns z 0 -> dseg m' a p ns z 0.
Proof.
  intros [Hr Hp Hn _ _] a p z Hin Ht Hy. apply dseg_frame. intros x Hx.
  rewrite Hr, Hp, Hn by auto. rewrite !(proj2 (Z.eqb_neq _ _)) by congruence. auto.
Qed.

Lemma linked_insert m m' ts y q t ns1 r ns2 h z rn : linked m m' ts y q t ->
  (forall x, x ∈ map fst (ns1 ++ (t, r) :: ns2) -> x ∈ ts) ->
  NoDup (map fst (ns1 ++ (t, r) :: ns2)) -> (0 ∉ ts) -> node_region m' q = rn ->
  dseg m 0 h ns1 y t -> dseg m y t ((t, r) :: ns2) z 0 ->
  dseg m' 0 (match ns1 with [] => q | _ => h end) (ns1 ++ (q, rn) :: (t, r) :: ns2) z 0.
Proof.
  intros Hlk Hin Hnd H0 Hrn Hd1 Hd2. rewrite map_app in *. cbn [map fst] in *.
  apply NoDup_app in Hnd as (Hnd1 & Hdis & Hnd2). inversion Hnd2 as [|?? Ht2 Hnd2']. subst.
  apply dseg_app. exists y, q. split.
  - destruct ns1 as [|n1 ns1]; [cbn [dseg] in *; tauto|].
    apply (linked_seg m m' ts y q t (n1 :: ns1) Hlk); auto; try discriminate.
    + intros x Hx. apply Hin, elem_of_app. auto.
    + intros Hx. apply (Hdis t Hx), elem_of_cons. auto.
  - cbn [dseg] in Hd2 |- *. destruct Hd2 as (_ & Hr & Hp & Hd2).
    assert (Hts : t ∈ ts) by (apply Hin, elem_of_app; right; apply elem_of_cons; auto).
    rewrite (lk_qprev _ _ _ _ _ _ Hlk), (lk_qnext _ _ _ _ _ _ Hlk).
    rewrite (lk_region _ _ _ _ _ _ Hlk t Hts), (lk_prev _ _ _ _ _ _ Hlk t Hts), Z.eqb_refl.
    assert (Hy : y ∉ t :: map fst ns2).
    { destruct ns1 as [|n1 ns1].
      - cbn [dseg] in Hd1. destruct Hd1 as [_ ->]. intros Hy. apply H0, Hin, Hy.
      - destruct (exists_last (l := n1 :: ns1) ltac:(discriminate)) as (ns0 & [y0 ry] & E). rewrite E in *.
        apply dseg_last in Hd1 as [-> _]. apply Hdis. rewrite map_app. apply elem_of_app. right.
        cbn. apply elem_of_cons. auto. }
    apply not_elem_of_cons in Hy as [Hyt Hy2].
    rewrite (lk_next _ _ _ _ _ _ Hlk t Hts), (proj2 (Z.eqb_neq y t)) by exact Hyt.
    split_and!; auto. apply (linked_tail m m' ts y q t ns2 Hlk); auto.
    intros x Hx. apply Hin, elem_of_app. right. apply elem_of_cons. auto.
Qed.

(** The same, one equation each, for rewriting. *)
Lemma nr_next m p v t : page_ok p -> page_ok t -> node_region (store32 m (p + LZ_next) v) t = node_region m t.
Proof. intros. now apply node_store_next. Qed.
Lemma np_next m p v t : page_ok p -> page_ok t -> node_prev (store32 m (p + LZ_next) v) t = node_prev m t.
Proof. intros. now apply node_store_next. Qed.
Lemma nn_next m p v t : page_ok p -> page_ok t ->
  node_next (store32 m (p + LZ_next) v) t = if p =? t then u32 v else node_next m t.
Proof. intros. now apply node_store_next. Qed.
Lemma nr_prev m p v t : page_ok p -> page_ok t -> node_region (store32 m (p + LZ_prev) v) t = node_region m t.
Proof. intros. now apply node_store_prev. Qed.
Lemma nn_prev m p v t : page_ok p -> page_ok t -> node_next (store32 m (p + LZ_prev) v) t = node_next m t.
Proof. intros. now apply node_store_prev. Qed.
Lemma np_prev m p v t : page_ok p -> page_ok t ->
  node_prev (store32 m (p + LZ_prev) v) t = if p =? t then u32 v else node_prev m t.
Proof. intros. now apply node_store_prev. Qed.

Ltac node_rw :=
  repeat first [ rewrite nr_next by auto | rewrite np_next by auto | rewrite nn_next by auto
               | rewrite nr_prev by auto | rewrite nn_prev by auto | rewrite np_prev by auto ].

Lemma node_store_wf s l p off v : kmem_wf s l -> page_ok p -> (p ∉ l) -> 0 <= off -> off + 4 <= 4096 ->
  kmem_wf (set_mem (store32 (km_mem s) (p + off) v) s) l.
Proof. intros Hwf Hp Hpl H1 H2. apply kmem_wf_store; [exact Hwf | eapply page_apart; eauto]. Qed.

Lemma insert_before_spec s l ts q t y : kmem_wf s l ->
  page_ok q -> (q ∉ l) -> page_ok t -> (t ∉ l) -> q <> t ->
  node_prev (km_mem s) q = 0 -> node_prev (km_mem s) t = y ->
  y = 0 \/ (page_ok y /\ (y ∉ l) /\ y <> q) ->
  Forall page_ok ts -> (q ∉ ts) ->
  exists s', insert_before q t s = Ok tt s' /\ kmem_wf s' l /\ linked (km_mem s) (km_mem s') ts y q t /\
    node_region (km_mem s') q = node_region (km_mem s) q /\
    (forall x, x < sym_end -> km_mem s' x = km_mem s x).
Proof.
  intros Hwf Hq Hql Ht Htl Hqt Hq0 Hty Hy Hts Hqts. rewrite Forall_forall in Hts.
  pose proof (page_kernbase q Hq) as Kq. pose proof (page_kernbase t Ht) as Kt.
  pose proof (u32_small q (page_ok_u32 q Hq)) as Uq. pose proof (u32_small t (page_ok_u32 t Ht)) as Ut.
  assert (Hlow : forall p off v (m : mem) x, page_ok p -> 0 <= off -> x < sym_end -> store32 m (p + off) v x = m x).
  { intros p off v m x (_ & Hp & _) Ho Hx. apply store32_frame. lia. }
  unfold insert_before. rewrite (bind_ok _ _ _ _ _ (stf_ok q _ _ s Kq)).
  rewrite (bind_ok _ _ _ _ _ (ldf_ok t _ _ Kt)). cbn [km_mem set_mem].
  set (m1 := store32 (km_mem s) (q + LZ_next) t).
  fold (node_prev m1 t).
  assert (E1 : node_prev m1 t = y) by (unfold m1; now rewrite np_next by auto). rewrite E1.
  assert (Hwf1 : kmem_wf (set_mem m1 s) l) by (apply node_store_wf; auto; unfold LZ_next; lia).
  destruct Hy as [->|(Hyok & Hyl & Hyq)].
  - change (truth 0) with false. cbv iota. rewrite (stf_ok t _ _ _ Kt). cbn [km_mem set_mem].
    eexists. split_and!; [reflexivity | apply (node_store_wf (set_mem m1 s)); auto; unfold LZ_prev; lia | | |]; cbn [km_mem set_mem].
    + constructor; unfold m1.
      * intros x Hx. node_rw. reflexivity.
      * intros x Hx. node_rw. now rewrite Uq.
      * intros x Hx. node_rw. assert (x <> q) by congruence. pose proof (page_ok_nonzero x (Hts x Hx)).
        now rewrite !(proj2 (Z.eqb_neq _ _)) by auto.
      * node_rw. now rewrite (proj2 (Z.eqb_neq t q)) by auto.
      * node_rw. now rewrite Z.eqb_refl, Ut.
    + unfold m1. node_rw. reflexivity.
    + intros x Hx. unfold m1. rewrite !Hlow by (auto; unfold LZ_prev, LZ_next; lia). reflexivity.
  - pose proof (page_kernbase y Hyok) as Ky. pose proof (u32_small y (page_ok_u32 y Hyok)) as Uy.
    assert (Hty' : truth y = true) by (apply truth_true; now apply page_ok_nonzero). rewrite Hty'.
    rewrite (bind_ok _ _ _ _ _ (ldf_ok t _ _ Kt)). cbn [km_mem set_mem]. fold (node_prev m1 t). rewrite E1.
    rewrite (bind_ok _ _ _ _ _ (stf_ok q _ _ _ Kq)). cbn [km_mem set_mem].
    set (m2 := store32 m1 (q + LZ_prev) y). rewrite (bind_ok _ _ _ _ _ (ldf_ok t _ _ Kt)). cbn [km_mem set_mem].
    fold (node_prev m2 t).
    assert (E2 : node_prev m2 t = y)
      by (unfold m2; rewrite np_prev by auto; now rewrite (proj2 (Z.eqb_neq q t)) by auto). rewrite E2.
    rewrite (bind_ok _ _ _ _ _ (stf_ok y _ _ _ Ky)). cbn [km_mem set_mem].
    set (m3 := store32 m2 (y + LZ_next) q). rewrite (stf_ok t _ _ _ Kt). cbn [km_mem set_mem].
    assert (Hwf2 : kmem_wf (set_mem m2 s) l) by (apply (node_store_wf (set_mem m1 s)); auto; unfold LZ_prev; lia).
    assert (Hwf3 : kmem_wf (set_mem m3 s) l) by (apply (node_store_wf (set_mem m2 s)); auto; unfold LZ_next; lia).
    eexists. split_and!; [reflexivity | apply (node_store_wf (set_mem m3 s)); auto; unfold LZ_prev; lia | | |]; cbn [km_mem set_mem].
    + constructor; unfold m3, m2, m1.
      * intros x Hx. node_rw. reflexivity.
      * intros x Hx. assert (x <> q) by congruence. node_rw. rewrite Uq, (proj2 (Z.eqb_neq q x)) by auto. reflexivity.
      * intros x Hx. assert (x <> q) by congruence. node_rw. rewrite Uq, (proj2 (Z.eqb_neq q x)) by auto. reflexivity.
      * node_rw. rewrite (proj2 (Z.eqb_neq t q)), Z.eqb_refl by auto. exact Uy.
      * node_rw. rewrite (proj2 (Z.eqb_neq y q)), Z.eqb_refl by auto. exact Ut.
    + unfold m3, m2, m1. node_rw. reflexivity.
    + intros x Hx. unfold m3, m2, m1. rewrite !Hlow by (auto; unfold LZ_prev, LZ_next; lia). reflexivity.
Qed.

(** The new node does not disturb the others or the process. *)
Lemma lazy_mem_other m q addr length flags fd t : page_ok q -> page_ok t -> q <> t ->
  let m' := lazy_mem m q addr length flags fd in
  node_region m' t = node_region m t /\ node_prev m' t = node_prev m t /\ node_next m' t = node_next m t.
Proof.
  intros Hq Ht Hne m'. apply node_ext. intros x Hx. apply lazy_mem_out.
  pose proof (page_disjoint q t Hq Ht Hne). unfold LZ_size in *. lia.
Qed.

Lemma lazy_mem_low m q addr length flags fd x : page_ok q -> x < sym_end -> lazy_mem m q addr length flags fd x = m x.
Proof. intros (_ & Hq & _) Hx. apply lazy_mem_out. lia. Qed.

Lemma proc_load m m' pr off : proc_ok pr -> 0 <= off -> off + 4 <= P_size ->
  (forall x, x < sym_end -> m' x = m x) -> load32 m' (pr + off) = load32 m (pr + off).
Proof. intros [_ Hp] H1 H2 Hx. apply load32_ext. intros x Hx'. apply Hx. lia. Qed.

(** Storing a field of the process leaves the nodes alone. *)
Lemma dseg_proc m pr off v ns a p z n : proc_ok pr -> Forall page_ok (map fst ns) -> 0 <= off -> off + 4 <= P_size ->
  dseg m a p ns z n -> dseg (store32 m (pr + off) v) a p ns z n.
Proof.
  intros Hpr Hok H1 H2. apply dseg_frame. intros t Ht. rewrite Forall_forall in Hok.
  apply node_store_proc; auto.
Qed.

(** The predecessor of the second part of a list. *)
Lemma dseg_mid_prev m ns1 t r ns2 h z n : dseg m 0 h (ns1 ++ (t, r) :: ns2) z n ->
  exists y, dseg m 0 h ns1 y t /\ dseg m y t ((t, r) :: ns2) z n /\ node_prev m t = y /\
    (match ns1 with [] => y = 0 | _ => y ∈ map fst ns1 end).
Proof.
  intros (y & p & Hd1 & Hd2)%dseg_app. pose proof Hd2 as (-> & _ & Hp & _). exists y. split_and!; auto.
  destruct ns1 as [|n1 ns1]; [now destruct Hd1|].
  destruct (exists_last (l := n1 :: ns1) ltac:(discriminate)) as (ns0 & [y0 ry] & E). rewrite E in *.
  apply dseg_last in Hd1 as [-> _]. rewrite map_app. apply elem_of_app. right. cbn. apply elem_of_cons. auto.
Qed.

(** A node fresh from [new_lazy], beside the list as it was. *)
Record fresh_node (s s1 : kmem) (pr q : Z) (ns : list (Z * region)) (l : list Z) (rn : region) : Prop := {
  fn_page : page_ok q;
  fn_free : q ∉ l;
  fn_new : q ∉ map fst ns;
  fn_others : forall x, x ∈ map fst ns -> page_ok x /\ (x ∉ l) /\ x <> q;
  fn_wf : kmem_wf s1 l;
  fn_list : dseg (km_mem s1) 0 (load32 (km_mem s) (pr + P_head)) ns (load32 (km_mem s) (pr + P_tail)) 0;
  fn_region : node_region (km_mem s1) q = rn;
  fn_prev : node_prev (km_mem s1) q = 0;
  fn_next : node_next (km_mem s1) q = 0;
  fn_low : forall x, x < sym_end -> km_mem s1 x = km_mem s x
}.

Lemma new_lazy_fresh s pr ns q l addr length flags fd : lazy_wf s pr ns (q :: l) ->
  exists s1, new_lazy addr length flags fd s = Ok q s1 /\
    fresh_node s s1 pr q ns l (new_region addr length flags fd).
Proof.
  intros [F Pr L Pg Nd Us]. destruct (new_lazy_spec s q l addr length flags fd F) as (s1 & Hrun1 & F1 & M1).
  exists s1. split; [exact Hrun1|].
  pose proof F as (_ & Hndl & Hokl & _). inversion Hndl as [|?? Hql _]. inversion Hokl as [|?? Hq _]. subst.
  assert (Hqts : q ∉ map fst ns) by (intros Hin; apply (Us q Hin), elem_of_cons; auto).
  assert (Hns : forall x, x ∈ map fst ns -> page_ok x /\ (x ∉ l) /\ x <> q).
  { intros x Hx. rewrite Forall_forall in Pg. split_and!; auto; [|congruence].
    intros Hin. apply (Us x Hx), elem_of_cons. auto. }
  destruct (lazy_mem_node (km_mem s) q addr length flags fd Hq) as (Hqr & Hqp & Hqn). rewrite <- M1 in *.
  constructor; auto.
  - apply (dseg_frame (km_mem s)); [|exact L]. intros x Hx. rewrite M1. apply lazy_mem_other; auto; [now apply Hns|].
    intros ->. contradiction.
  - intros x Hx. rewrite M1. now apply lazy_mem_low.
Qed.

(** The list invariant, rebuilt around one more node. *)
Lemma lazy_wf_add s s' pr ns ns' q l : lazy_wf s pr ns (q :: l) -> (q ∉ map fst ns) -> page_ok q -> (q ∉ l) ->
  map fst ns' ≡ₚ q :: map fst ns -> kmem_wf s' l ->
  dseg (km_mem s') 0 (load32 (km_mem s') (pr + P_head)) ns' (load32 (km_mem s') (pr + P_tail)) 0 ->
  lazy_wf s' pr ns' l.
Proof.
  intros [F Pr L Pg Nd Us] Hq Hqok Hql Hperm F' L'. constructor; auto; rewrite ?Hperm.
  - constructor; auto.
  - constructor; auto.
  - intros x. rewrite Hperm. intros [->|Hx]%elem_of_cons; [auto|]. intros Hin. apply (Us x Hx), elem_of_cons. auto.
Qed.

Lemma wmap_insert_spec s pr ns1 t r ns2 q l addr length flags fd (v : Z) (b : bool) :
  lazy_wf s pr (ns1 ++ (t, r) :: ns2) (q :: l) ->
  b = match ns1 with [] => true | _ => false end ->
  exists s', (new <- new_lazy addr length flags fd ;;
              insert_before new t ;;;
              (if b then wr32 (pr + P_head) new else ret tt) ;;;
              ret (inl v : Z + Z)) s = Ok (inl v) s' /\
    lazy_wf s' pr (ns1 ++ (q, new_region addr length flags fd) :: (t, r) :: ns2) l.
Proof.
  intros Hlw ->. set (rn := new_region addr length flags fd). set (ns := ns1 ++ (t, r) :: ns2) in *.
  destruct (new_lazy_fresh s pr ns q l addr length flags fd Hlw) as (s1 & Hrun1 & [Hq Hql Hqts Hns F1 L1 Hqr Hqp _ Hlow1]).
  rewrite (bind_ok _ _ _ _ _ Hrun1). pose proof Hlw as [_ Pr _ Pg Nd _].
  assert (Ht : t ∈ map fst ns) by (unfold ns; rewrite map_app; apply elem_of_app; right; apply elem_of_cons; auto).
  destruct (dseg_mid_prev _ ns1 t r ns2 _ _ _ L1) as (y & Hd1 & Hd2 & Hy & Hyin).
  destruct (insert_before_spec s1 l (map fst ns) q t y) as (s2 & Hrun2 & F2 & Hlk & Hqr2 & Hlow2); auto;
    try (now apply Hns); [intros ->; contradiction | |].
  { destruct ns1 as [|n1 ns1']; [now left | right]. apply Hns. unfold ns. rewrite map_app. apply elem_of_app. auto. }
  rewrite (bind_ok _ _ _ _ _ Hrun2).
  assert (L2 := linked_insert _ _ _ y q t ns1 r ns2 _ _ rn Hlk (fun x Hx => Hx) Nd
    (fun Hin => page_ok_nonzero 0 (proj1 (Hns 0 Hin)) eq_refl) (eq_trans Hqr2 Hqr) Hd1 Hd2).
  assert (Hlow : forall x, x < sym_end -> km_mem s2 x = km_mem s x)
    by (intros x Hx; now rewrite Hlow2, Hlow1).
  assert (Hperm : map fst (ns1 ++ (q, rn) :: (t, r) :: ns2) ≡ₚ q :: map fst ns).
  { unfold ns. rewrite !map_app. cbn [map fst]. symmetry. apply Permutation_middle. }
  destruct ns1 as [|n1 ns1].
  - eexists. split; [reflexivity|]. apply (lazy_wf_add s _ pr ns _ q); auto; cbn [km_mem set_mem].
    + apply kmem_wf_store; [exact F2|]. eapply proc_apart; eauto; unfold P_head, P_size; lia.
    + rewrite load32_store32_eq, u32_small by now apply page_ok_u32.
      rewrite load32_store32_ne by (unfold P_head, P_tail; lia).
      rewrite (proc_load (km_mem s) (km_mem s2)) by (auto; unfold P_tail, P_size; lia).
      apply dseg_proc; auto; [| unfold P_head, P_size; lia ..]. rewrite Hperm. constructor; auto.
  - eexists. split; [reflexivity|]. apply (lazy_wf_add s _ pr ns _ q); auto.
    rewrite !(proc_load (km_mem s) (km_mem s2)) by (auto; unfold P_head, P_tail, P_size; lia). exact L2.
Qed.

Lemma lazy_nonempty_last s pr ns l : lazy_wf s pr ns l -> ns <> [] ->
  exists ns0 z r, ns = ns0 ++ [(z, r)] /\ load32 (km_mem s) (pr + P_tail) = z.
Proof.
  intros [_ _ L _ _ _] Hne. destruct (exists_last Hne) as (ns0 & [z r] & ->).
  apply dseg_last in L as [E _]. eauto.
Qed.

(** The two orders in which the source links a node at the end. *)
Definition link_end (a : bool) (tail new : Z) : M kmem unit :=
  if a then stf tail LZ_next new ;;; stf new LZ_prev tail
  else stf new LZ_prev tail ;;; stf tail LZ_next new.

Lemma link_end_spec a s l ts q z : kmem_wf s l -> page_ok q -> (q ∉ l) -> page_ok z -> (z ∉ l) -> q <> z ->
  node_next (km_mem s) q = 0 -> Forall page_ok ts -> (q ∉ ts) ->
  exists s', link_end a z q s = Ok tt s' /\ kmem_wf s' l /\ linked (km_mem s) (km_mem s') ts z q 0 /\
    node_region (km_mem s') q = node_region (km_mem s) q /\
    (forall x, x < sym_end -> km_mem s' x = km_mem s x).
Proof.
  intros Hwf Hq Hql Hz Hzl Hne Hq0 Hts Hqts. rewrite Forall_forall in Hts.
  pose proof (page_kernbase q Hq) as Kq. pose proof (page_kernbase z Hz) as Kz.
  pose proof (u32_small q (page_ok_u32 q Hq)) as Uq. pose proof (u32_small z (page_ok_u32 z Hz)) as Uz.
  assert (Hlow : forall p off v (m : mem) x, page_ok p -> 0 <= off -> x < sym_end -> store32 m (p + off) v x = m x).
  { intros p off v m x (_ & Hp & _) Ho Hx. apply store32_frame. lia. }
  unfold link_end. destruct a;
    [rewrite (bind_ok _ _ _ _ _ (stf_ok z _ _ s Kz)), (stf_ok q _ _ _ Kq)
    |rewrite (bind_ok _ _ _ _ _ (stf_ok q _ _ s Kq)), (stf_ok z _ _ _ Kz)]; cbn [km_mem set_mem];
    (eexists; split_and!; [reflexivity | | | |]; cbn [km_mem set_mem];
      [ repeat (apply (node_store_wf (set_mem _ s)) || apply node_store_wf); auto; unfold LZ_prev, LZ_next; lia
      | | node_rw; reflexivity
      | intros x Hx; rewrite !Hlow by (auto; unfold LZ_prev, LZ_next; lia); reflexivity ]).
  all: constructor;
    [ intros x Hx; node_rw; reflexivity
    | intros x Hx; assert (x <> q) by congruence; pose proof (page_ok_nonzero x (Hts x Hx)); node_rw;
      now rewrite !(proj2 (Z.eqb_neq _ _)) by auto
    | intros x Hx; node_rw; now rewrite Uq
    | node_rw; now rewrite Z.eqb_refl
    | node_rw; now rewrite (proj2 (Z.eqb_neq z q)) by auto ].
Qed.

Lemma wmap_append_spec a s pr ns q l addr length flags fd {A} (v : A) :
  lazy_wf s pr ns (q :: l) -> ns <> [] ->
  exists s', (new <- new_lazy addr length flags fd ;;
              link_end a (load32 (km_mem s) (pr + P_tail)) new ;;;
              wr32 (pr + P_tail) new ;;; ret v) s = Ok v s' /\
    lazy_wf s' pr (ns ++ [(q, new_region addr length flags fd)]) l.
Proof.
  intros Hlw Hne. set (rn := new_region addr length flags fd).
  destruct (lazy_nonempty_last s pr ns _ Hlw Hne) as (ns0 & z & rz & Ens & Ez).
  destruct (new_lazy_fresh s pr ns q l addr length flags fd Hlw) as (s1 & Hrun1 & [Hq Hql Hqts Hns F1 L1 Hqr _ Hqn Hlow1]).
  rewrite (bind_ok _ _ _ _ _ Hrun1), Ez in *. pose proof Hlw as [_ Pr _ Pg Nd _].
  assert (Hz : z ∈ map fst ns) by (rewrite Ens, map_app; apply elem_of_app; right; apply elem_of_cons; auto).
  destruct (link_end_spec a s1 l (map fst ns) q z) as (s2 & Hrun2 & F2 & Hlk & Hqr2 & Hlow2); auto;
    try (now apply Hns); [intros ->; contradiction|].
  rewrite (bind_ok _ _ _ _ _ Hrun2). eexists. split; [reflexivity|].
  assert (Hperm : map fst (ns ++ [(q, rn)]) ≡ₚ q :: map fst ns).
  { rewrite map_app. symmetry. apply Permutation_cons_append. }
  apply (lazy_wf_add s _ pr ns _ q); auto; cbn [km_mem set_mem].
  - apply kmem_wf_store; [exact F2|]. eapply proc_apart; eauto; unfold P_tail, P_size; lia.
  - rewrite load32_store32_eq, u32_small by now apply page_ok_u32.
    rewrite load32_store32_ne by (unfold P_head, P_tail; lia).
    rewrite (proc_load (km_mem s) (km_mem s2)) by (auto; try (intros; rewrite Hlow2, Hlow1); auto; unfold P_head, P_size; lia).
    apply dseg_proc; auto; [rewrite Hperm; constructor; auto | unfold P_tail, P_size; lia .. |].
    apply dseg_app. exists z, q. split.
    + apply (linked_seg _ _ (map fst ns) z q 0 ns Hlk); auto. intros Hin. now apply (page_ok_nonzero 0 (proj1 (Hns 0 Hin))).
    + cbn [dseg]. rewrite (lk_qprev _ _ _ _ _ _ Hlk), (lk_qnext _ _ _ _ _ _ Hlk), Hqr2. auto.
Qed.

(** Where a scan stands: [ns2] is still to come. *)
Lemma lazy_cursor s pr ns1 t r ns2 l : lazy_wf s pr (ns1 ++ (t, r) :: ns2) l ->
  KERNBASE <= t /\ (t =? 0) = false /\ load32 (km_mem s) (t + LZ_addr) = rg_addr r /\
  load32 (km_mem s) (t + LZ_length) = rg_length r /\
  node_next (km_mem s) t = match ns2 with [] => 0 | (t', _) :: _ => t' end.
Proof.
  intros [_ _ L Pg _ _]. apply dseg_mid_prev in L as (y & _ & (_ & Hr & _ & Hd) & _).
  assert (Ht : page_ok t).
  { rewrite Forall_forall in Pg. apply Pg. rewrite map_app. apply elem_of_app. right. apply elem_of_cons. auto. }
  split_and!.
  - now apply page_kernbase.
  - apply Z.eqb_neq. now apply page_ok_nonzero.
  - now rewrite <- Hr.
  - now rewrite <- Hr.
  - destruct ns2 as [|[t' r'] ns2]; cbn [dseg] in Hd; tauto.
Qed.

(** Only the last region of a proper list may end at 0 or at [MMAPBASE]. *)
Lemma proper_end (ns1 : list (Z * region)) r1 ns2 n2 : proper (map snd ((ns1 ++ [r1]) ++ n2 :: ns2)) ->
  rg_length (snd r1) <> 0 /\ rg_end (snd r1) <> 0 /\ rg_end (snd r1) <> MMAPBASE.
Proof.
  unfold proper. intros Hp. rewrite Forall_forall in Hp. apply Hp. rewrite !map_app. cbn [map].
  rewrite <- app_assoc. cbn [app].
  rewrite removelast_app by discriminate. apply elem_of_app. right. cbn [removelast]. apply elem_of_cons. auto.
Qed.

Lemma new_region_bounds addr length flags fd : 0 <= addr < two32 -> 0 < length < two31 ->
  let n := new_region addr length flags fd in
  rg_addr n = addr /\ rg_length n = length /\ rg_end n = u32 (addr + length).
Proof.
  intros Ha Hl n. assert (E1 : rg_addr n = addr) by now apply u32_small.
  assert (E2 : rg_length n = length) by (apply u32_small; unfold two31, two32 in *; lia).
  unfold rg_end. now rewrite E1, E2.
Qed.

Lemma wmap_at_loop_spec pr ns2 : forall fuel ns1 s q l addr length flags fd last,
  (List.length ns2 < fuel)%nat -> lazy_wf s pr (ns1 ++ ns2) (q :: l) -> proper (map snd (ns1 ++ ns2)) ->
  0 <= addr < two32 -> 0 < length < two31 ->
  last = match rev ns1 with [] => 0 | (_, r) :: _ => rg_end r end ->
  let n := new_region addr length flags fd in
  let temp := match ns2 with [] => 0 | (t, _) :: _ => t end in
  match wmap_at_fun (map snd ns2) n (truth (Z.land flags MAP_FIXED)) last with
  | inl (Some rs') => exists s' ns2', wmap_at_loop pr fuel temp addr length flags fd last s = Ok (inl addr) s' /\
      lazy_wf s' pr (ns1 ++ ns2') l /\ map snd ns2' = rs'
  | inl None => wmap_at_loop pr fuel temp addr length flags fd last s = Ok (inl (u32 (-1))) s
  | inr x => wmap_at_loop pr fuel temp addr length flags fd last s = Ok (inr x) s
  end.
Proof.
  induction ns2 as [|[t r] ns2 IH]; intros fuel ns1 s q l addr length flags fd last Hf Hlw Hpr Ha Hlen Hlast n temp;
    (destruct fuel as [|fuel]; [cbn [List.length] in Hf; lia|]); cbn [map snd wmap_at_fun wmap_at_loop].
  { reflexivity. }
  destruct (lazy_cursor s pr ns1 t r ns2 _ Hlw) as (Kt & T0 & Ead & Elen & Enx). subst temp. rewrite T0.
  rewrite (bind_ok _ _ _ _ _ (ldf_ok t _ s Kt)), Ead.
  destruct (new_region_bounds addr length flags fd Ha Hlen) as (En & _ & Ee). fold n in En, Ee. rewrite En, Ee. destruct ((addr <? rg_addr r) && (u32 (addr + length) <? rg_addr r)) eqn:C1.
  - destruct (wmap_insert_spec s pr ns1 t r ns2 q l addr length flags fd addr (last =? 0)) as (s' & Hrun & Hlw'); auto.
    { destruct ns1 as [|n1 ns1]; [now rewrite Hlast|].
      destruct (exists_last (l := n1 :: ns1) ltac:(discriminate)) as (ns0 & [t1 r1] & E). rewrite E in *.
      apply proper_end in Hpr as (_ & He & _). rewrite rev_app_distr in Hlast. cbn in Hlast. rewrite Hlast.
      now apply Z.eqb_neq. }
    exists s', ((q, n) :: (t, r) :: ns2). auto.
  - destruct ((addr <? rg_addr r) && (rg_addr r <=? u32 (addr + length)) && truth (Z.land flags MAP_FIXED)); [reflexivity|].
    rewrite (bind_ok _ _ _ _ _ (ldf_ok t _ s Kt)), Elen, (bind_ok _ _ _ _ _ (ldf_ok t _ s Kt)).
    fold (node_next (km_mem s) t). rewrite Enx. fold (rg_end r).
    specialize (IH fuel (ns1 ++ [(t, r)]) s q l addr length flags fd (rg_end r)).
    rewrite <- app_assoc in IH. cbn [app] in IH. cbn [List.length] in Hf.
    specialize (IH ltac:(lia) Hlw Hpr Ha Hlen). rewrite rev_app_distr in IH. specialize (IH eq_refl). cbv zeta in IH. fold n in IH.
    destruct (wmap_at_fun (map snd ns2) n _ (rg_end r)) as [[rs'|]|x]; auto.
    destruct IH as (s' & ns2' & Hrun & Hlw' & E). exists s', ((t, r) :: ns2').
    rewrite <- app_assoc in Hlw'. cbn [app map snd] in *. rewrite E. auto.
Qed.

Lemma wmap_any_loop_spec pr ns2 : forall fuel ns1 s q l length flags fd start,
  (List.length ns2 < fuel)%nat -> lazy_wf s pr (ns1 ++ ns2) (q :: l) -> proper (map snd (ns1 ++ ns2)) ->
  0 < length < two31 ->
  start = match rev ns1 with [] => MMAPBASE | (_, r) :: _ => rg_end r end ->
  let mk := fun a => new_region a length flags fd in
  let temp := match ns2 with [] => 0 | (t, _) :: _ => t end in
  match wmap_any_fun (map snd ns2) mk length start with
  | inl (rs', a) => exists s' ns2', wmap_any_loop pr fuel temp length flags fd start s = Ok (inl a) s' /\
      lazy_wf s' pr (ns1 ++ ns2') l /\ map snd ns2' = rs'
  | inr x => wmap_any_loop pr fuel temp length flags fd start s = Ok (inr x) s
  end.
Proof.
  induction ns2 as [|[t r] ns2 IH]; intros fuel ns1 s q l length flags fd start Hf Hlw Hpr Hlen Hst mk temp;
    (destruct fuel as [|fuel]; [cbn [List.length] in Hf; lia|]); cbn [map snd wmap_any_fun wmap_any_loop].
  { reflexivity. }
  destruct (lazy_cursor s pr ns1 t r ns2 _ Hlw) as (Kt & T0 & Ead & Elen & Enx). subst temp. rewrite T0.
  rewrite (bind_ok _ _ _ _ _ (ldf_ok t _ s Kt)), Ead.
  rewrite (u32_small length) by (unfold two31, two32 in *; lia).
  destruct (length <? u32 (rg_addr r - start)) eqn:C1.
  - destruct (wmap_insert_spec s pr ns1 t r ns2 q l start length flags fd start (start =? MMAPBASE)) as (s' & Hrun & Hlw'); auto.
    { destruct ns1 as [|n1 ns1]; [now rewrite Hst|].
      destruct (exists_last (l := n1 :: ns1) ltac:(discriminate)) as (ns0 & [t1 r1] & E). rewrite E in *.
      apply proper_end in Hpr as (_ & _ & He). rewrite rev_app_distr in Hst. cbn in Hst. rewrite Hst.
      now apply Z.eqb_neq. }
    exists s', ((q, mk start) :: (t, r) :: ns2). auto.
  - do 2 rewrite (bind_ok _ _ _ _ _ (ldf_ok t _ s Kt)). rewrite Ead, Elen, (bind_ok _ _ _ _ _ (ldf_ok t _ s Kt)).
    fold (node_next (km_mem s) t). rewrite Enx. fold (rg_end r).
    specialize (IH fuel (ns1 ++ [(t, r)]) s q l length flags fd (rg_end r)).
    rewrite <- app_assoc in IH. cbn [app] in IH. cbn [List.length] in Hf.
    specialize (IH ltac:(lia) Hlw Hpr Hlen). rewrite rev_app_distr in IH. specialize (IH eq_refl). cbv zeta in IH. fold mk in IH.
    destruct (wmap_any_fun (map snd ns2) mk length (rg_end r)) as [[rs' a]|x]; auto.
    destruct IH as (s' & ns2' & Hrun & Hlw' & E). exists s', ((t, r) :: ns2').
    rewrite <- app_assoc in Hlw'. cbn [app map snd] in *. rewrite E. auto.
Qed.

(** The empty node of a new process becomes the first mapping. *)
Lemma wmap_first_spec s pr t r l addr length flags fd {A} (v : A) : lazy_wf s pr [(t, r)] l ->
  let n := new_region addr length flags fd in
  exists s', (stf t LZ_used 1 ;;; stf t LZ_addr addr ;;; stf t LZ_length length ;;;
              stf t LZ_fd (wmap_fd flags fd) ;;; stf t LZ_shared (wmap_shared flags) ;;;
              wr32 (pr + P_tail) t ;;; ret v) s = Ok v s' /\
    lazy_wf s' pr [(t, mkRegion (rg_fd n) (rg_addr n) (rg_length n) (rg_shared n) 1 (rg_pages r))] l.
Proof.
  intros [F Pr L Pg Nd Us] n.
  assert (Ht : page_ok t) by now inversion Pg. assert (Htl : t ∉ l) by (apply Us; apply elem_of_cons; auto).
  pose proof (page_kernbase t Ht) as Kt. pose proof (u32_small t (page_ok_u32 t Ht)) as Ut.
  do 5 rewrite (bind_ok _ _ _ _ _ (stf_ok t _ _ _ Kt)). eexists. split; [reflexivity|]. cbn [km_mem set_mem].
  set (m1 := store32 (store32 (store32 (store32 (store32 (km_mem s) (t + LZ_used) 1) (t + LZ_addr) addr)
    (t + LZ_length) length) (t + LZ_fd) (wmap_fd flags fd)) (t + LZ_shared) (wmap_shared flags)).
  assert (F1 : kmem_wf (set_mem m1 s) l).
  { unfold m1. repeat (apply (node_store_wf (set_mem _ s)) || apply node_store_wf); auto;
      unfold LZ_used, LZ_addr, LZ_length, LZ_fd, LZ_shared; lia. }
  assert (Hn1 : node_region m1 t = mkRegion (rg_fd n) (rg_addr n) (rg_length n) (rg_shared n) 1 (rg_pages r) /\
                node_prev m1 t = node_prev (km_mem s) t /\ node_next m1 t = node_next (km_mem s) t).
  { cbn [dseg] in L. destruct L as (_ & <- & _). unfold m1, node_region, node_prev, node_next, n, new_region.
    split_and!; [f_equal | |]; node_loads; first [reflexivity | apply wmap_shared_word]. }
  assert (Hlow : forall x, x < sym_end -> m1 x = km_mem s x).
  { intros x Hx. destruct Ht as (_ & Ht & _). unfold m1. rewrite !store32_frame; [reflexivity|..];
      unfold LZ_used, LZ_addr, LZ_length, LZ_fd, LZ_shared; lia. }
  constructor; auto; cbn [km_mem set_mem].
  - apply (kmem_wf_store (set_mem m1 s)); [exact F1|]. eapply proc_apart; eauto; unfold P_tail, P_size; lia.
  - rewrite load32_store32_eq, Ut, load32_store32_ne by (unfold P_head, P_tail; lia).
    rewrite (proc_load (km_mem s) m1) by (auto; unfold P_head, P_size; lia).
    apply dseg_proc; auto; [unfold P_tail, P_size; lia .. |].
    cbn [dseg] in *. destruct Hn1 as (E1 & E2 & E3), L as (Eh & _ & Ep & Hnx & _). split_and!; auto; congruence.
Qed.

Lemma lazy_head s pr ns l : lazy_wf s pr ns l ->
  load32 (km_mem s) (pr + P_head) = match ns with [] => 0 | (t, _) :: _ => t end.
Proof. intros [_ _ L _ _ _]. destruct ns as [|[t r] ns]; cbn [dseg] in L; tauto. Qed.

Lemma wmap_at_fun_length rs n b : forall last l, wmap_at_fun rs n b last = inl (Some l) -> List.length l = S (List.length rs).
Proof.
  induction rs as [|r rs IH]; intros last l; cbn [wmap_at_fun]; [discriminate|].
  destruct (_ && _); [now intros [= <-]|]. destruct (_ && _); [discriminate|].
  destruct (wmap_at_fun rs n b (rg_end r)) as [[l'|]|] eqn:E; try discriminate.
  intros [= <-]. cbn. f_equal. eauto.
Qed.

Lemma wmap_any_fun_length rs mk len : forall start l a, wmap_any_fun rs mk len start = inl (l, a) -> List.length l = S (List.length rs).
Proof.
  induction rs as [|r rs IH]; intros start l a; cbn [wmap_any_fun]; [discriminate|].
  destruct (_ <? _); [now intros [= <- <-]|].
  destruct (wmap_any_fun rs mk len (rg_end r)) as [[l' a']|] eqn:E; try discriminate.
  intros [= <- <-]. cbn. f_equal. eauto.
Qed.

(** Which free list remains, by whether the list of regions grew. *)
Lemma took_page {A B} (ns ns' : list (A * B)) (q : Z) l : List.length (map snd ns') = S (List.length (map snd ns)) ->
  l = (if (List.length ns' =? List.length ns)%nat then q :: l else l).
Proof. rewrite !length_map. intros ->. destruct (Nat.eqb_spec (S (List.length ns)) (List.length ns)); [lia | reflexivity]. Qed.

Lemma kept_page {A B} (ns : list (A * B)) (q : Z) l :
  q :: l = (if (List.length ns =? List.length ns)%nat then q :: l else l).
Proof. now rewrite Nat.eqb_refl. Qed.

Lemma wmap_any_spec s pr ns q l fuel length flags fd :
  lazy_wf s pr ns (q :: l) -> ns <> [] -> proper (map snd ns) -> 0 < length < two31 -> (List.length ns < fuel)%nat ->
  exists s' ns' l', wmap_any pr fuel (load32 (km_mem s) (pr + P_tail)) length flags fd s =
      Ok (snd (wmap_gap (map snd ns) length flags fd)) s' /\
    lazy_wf s' pr ns' l' /\ map snd ns' = fst (wmap_gap (map snd ns) length flags fd) /\ l' = (if (List.length ns' =? List.length ns)%nat then q :: l else l).
Proof.
  intros Hlw Hne Hpr Hlen Hf. unfold wmap_any, wmap_gap. rewrite (Z.land_comm MAP_FIXED).
  rewrite (bind_ok _ _ _ _ _ (eq_refl : rd32 (pr + P_head) s = Ok _ s)), (lazy_head s pr ns _ Hlw).
  destruct (truth (Z.land flags MAP_FIXED)); cbn [negb fst snd]; [exists s, ns, (q :: l); auto using kept_page|].
  pose proof (wmap_any_loop_spec pr ns fuel [] s q l length flags fd MMAPBASE Hf Hlw Hpr Hlen eq_refl) as Hloop.
  cbv zeta in Hloop. destruct (wmap_any_fun _ _ length MMAPBASE) as [[rs' a]|start] eqn:Efun.
  - destruct Hloop as (s' & ns2' & Hrun & Hlw' & E). rewrite (bind_ok _ _ _ _ _ Hrun).
    exists s', ns2', l. split_and!; auto. apply took_page. rewrite E. eapply wmap_any_fun_length; eauto.
  - rewrite (bind_ok _ _ _ _ _ Hloop). rewrite (u32_small length) by (unfold two31, two32 in *; lia).
    destruct (length <? u32 (KERNBASE - start)); cbn [fst snd]; [|exists s, ns, (q :: l); auto using kept_page].
    destruct (wmap_append_spec false s pr ns q l start length flags fd start Hlw Hne) as (s' & Hrun & Hlw').
    exists s', (ns ++ [(q, new_region start length flags fd)]), l. split_and!; auto;
      [| now rewrite map_app | apply took_page; rewrite map_app, length_app; cbn; lia].
    rewrite <- Hrun. unfold bind. destruct (new_lazy start length flags fd s) as [new s1| | |]; auto.
    unfold link_end, bind. now destruct (stf new LZ_prev _ s1).
Qed.

(** [sys_wmap] on a well-formed list with a page to spare. *)
Lemma sys_wmap_refines s pr ns q l fuel tAddr length flags fd :
  lazy_wf s pr ns (q :: l) -> ns <> [] -> proper (map snd ns) -> length < two31 ->
  (List.length ns < fuel)%nat ->
  exists s' ns' l', sys_wmap pr fuel tAddr length flags fd s = Ok (snd (wmap_fun (map snd ns) tAddr length flags fd)) s' /\
    lazy_wf s' pr ns' l' /\ map snd ns' = fst (wmap_fun (map snd ns) tAddr length flags fd) /\ l' = (if (List.length ns' =? List.length ns)%nat then q :: l else l).
Proof.
  intros Hlw Hne Hpr Hlen Hf. unfold sys_wmap, wmap_fun. set (addr := PGROUNDUP tAddr).
  set (n := new_region addr length flags fd).
  pose proof (PGROUNDUP_bound tAddr) as [Haddr _]. fold addr in Haddr.
  destruct (length <=? 0) eqn:El; bool_prop; [exists s, ns, (q :: l); auto using kept_page|].
  rewrite (bind_ok _ _ _ _ _ (eq_refl : rd32 (pr + P_head) s = Ok _ s)).
  rewrite (bind_ok _ _ _ _ _ (eq_refl : rd32 (pr + P_tail) s = Ok _ s)), (lazy_head s pr ns _ Hlw).
  pose proof (wmap_any_spec s pr ns q l fuel length flags fd Hlw Hne Hpr ltac:(lia) Hf) as Hany.
  rewrite Z.ltb_antisym. destruct (MMAPBASE <=? addr) eqn:Em; cbn [negb]; [|exact Hany].
  destruct (new_region_bounds addr length flags fd Haddr ltac:(lia)) as (En & _ & Ee). fold n in En, Ee.
  unfold wmap_at. rewrite Ee. destruct (KERNBASE <=? u32 (addr + length)).
  { exists s, ns, (q :: l). auto using kept_page. }
  destruct ns as [|[t r] ns]; [contradiction|]. cbn [map snd].
  destruct (lazy_cursor s pr [] t r ns _ Hlw) as (Kt & _ & _ & Elen & _).
  rewrite bind_assoc, (bind_ok _ _ _ _ _ (ldf_ok t _ s Kt)), Elen.
  destruct (rg_length r =? 0) eqn:E0; bool_prop.
  - assert (Hns : ns = []).
    { destruct ns as [|n2 ns]; [reflexivity|]. apply (proper_end [] (t, r)) in Hpr as [Hpr _]. contradiction. }
    subst ns. destruct (wmap_first_spec s pr t r _ addr length flags fd (Some addr) Hlw) as (s' & Hrun & Hlw').
    rewrite (bind_ok _ _ _ _ _ Hrun). eexists s', _, (q :: l). split_and!; [reflexivity | exact Hlw' | reflexivity | reflexivity].
  - pose proof (wmap_at_loop_spec pr ((t, r) :: ns) fuel [] s q l addr length flags fd 0 Hf Hlw Hpr Haddr ltac:(lia) eq_refl) as Hloop.
    cbv zeta in Hloop. fold n in Hloop. change (r :: map snd ns) with (map snd ((t, r) :: ns)).
    destruct (wmap_at_fun (map snd ((t, r) :: ns)) n _ 0) as [[rs'|]|last] eqn:Efun.
    + destruct Hloop as (s' & ns2' & Hrun & Hlw' & E). rewrite bind_assoc, (bind_ok _ _ _ _ _ Hrun).
      exists s', ns2', l. split_and!; auto. apply took_page. rewrite E. eapply wmap_at_fun_length; eauto.
    + rewrite bind_assoc, (bind_ok _ _ _ _ _ Hloop). exists s, ((t, r) :: ns), (q :: l). auto using kept_page.
    + rewrite bind_assoc, (bind_ok _ _ _ _ _ Hloop).
      destruct ((addr <? KERNBASE) && (last <=? addr)); [|exact Hany].
      destruct (wmap_append_spec true s pr ((t, r) :: ns) q l addr length flags fd (Some addr) Hlw Hne) as (s' & Hrun & Hlw').
      exists s', (((t, r) :: ns) ++ [(q, n)]), l. split_and!; auto;
        [| now rewrite map_app | apply took_page; rewrite map_app, length_app; cbn; lia].
      rewrite bind_assoc. unfold link_end, bind, ret in *.
      destruct (new_lazy addr length flags fd s) as [new s1| | |]; try discriminate.
      destruct (stf _ LZ_next new s1) as [[] s2| | |]; try discriminate.
      destruct (stf new LZ_prev _ s2) as [[] s3| | |]; try discriminate.
      destruct (wr32 (pr + P_tail) new s3) as [[] s4| | |]; try discriminate. cbn [snd]. congruence.
Qed.

End LazyList.

(** Reads of node fields through stores to node links. *)
Ltac node_rw :=
  repeat first [ rewrite nr_next by auto | rewrite np_next by auto | rewrite nn_next by auto
               | rewrite nr_prev by auto | rewrite nn_prev by auto | rewrite np_prev by auto ].

(** ** Gaps *)

Lemma spaced_end hi lo rs : 0 <= lo < hi -> hi <= two32 -> spaced hi lo rs -> lo <= last_end lo rs < hi.
Proof.
  intros Hlo Hhi. revert lo Hlo. induction rs as [|r rs IH]; intros lo Hlo Hs; cbn [last_end]; [lia|].
  destruct Hs as (H1 & H2 & H3 & Hs). specialize (IH (rg_addr r + rg_length r) ltac:(lia) Hs). lia.
Qed.

Lemma last_end_elem rs : forall lo, last_end lo rs = lo \/ exists r, r ∈ rs /\ last_end lo rs = rg_addr r + rg_length r.
Proof.
  induction rs as [|r rs IH]; intros lo; cbn [last_end]; [now left|]. right.
  destruct (IH (rg_addr r + rg_length r)) as [->|(r' & Hr' & E)]; [exists r | exists r']; split; auto; apply elem_of_cons; auto.
Qed.

Lemma spaced_app hi rs1 rs2 : forall lo, spaced hi lo (rs1 ++ rs2) <-> spaced hi lo rs1 /\ spaced hi (last_end lo rs1) rs2.
Proof.
  induction rs1 as [|r rs1 IH]; intros lo; cbn [app spaced last_end]; [tauto|]. rewrite IH. tauto.
Qed.

(** Every gap before and between the regions is too small for [length]. *)
Definition crowded (length lo : Z) (rs : list region) : Prop :=
  forall rs1 r rs2, rs = rs1 ++ r :: rs2 -> rg_addr r - last_end lo rs1 <= length.

Lemma crowded_nil length lo : crowded length lo [].
Proof. intros rs1 r rs2 E. now destruct rs1. Qed.

Lemma crowded_cons length lo r rs : rg_addr r - lo <= length -> crowded length (rg_addr r + rg_length r) rs -> crowded length lo (r :: rs).
Proof. intros Hr Hc [|r1 rs1] r' rs2 E; cbn [app last_end] in *; injection E as -> ->; [exact Hr | now apply (Hc rs1 r' rs2)]. Qed.

(** No address before the end of crowded regions has more than [length] bytes free. *)
Lemma crowded_blocks length rs : forall lo a, crowded length lo rs -> lo <= a < last_end lo rs ->
  exists r, r ∈ rs /\ a < rg_addr r + rg_length r /\ rg_addr r <= a + length.
Proof.
  induction rs as [|r rs IH]; intros lo a Hc Ha; cbn [last_end] in Ha; [lia|]. pose proof (Hc [] r rs eq_refl) as Hr. cbn [last_end] in Hr.
  destruct (Z.lt_ge_cases a (rg_addr r + rg_length r)) as [Hlt|Hge]; [exists r; split; [apply elem_of_cons; auto | lia]|].
  destruct (IH (rg_addr r + rg_length r) a) as (r' & Hin & H1); [|lia | exists r'; split; [apply elem_of_cons; auto | exact H1]].
  intros rs1 r' rs2 ->. apply (Hc (r :: rs1) r' rs2). reflexivity.
Qed.

(** The search inside the regions in order finds the first gap, or reaches their end. *)
Lemma wmap_any_spaced hi mk length e rs : (forall a, 0 <= a < two32 -> rg_addr (mk a) = a /\ rg_length (mk a) = length) ->
  0 < length -> hi <= two32 -> forall lo, 0 <= lo < hi -> spaced hi lo rs ->
  (exists rs1 rs2 a, rs = rs1 ++ rs2 /\ rs2 <> [] /\ a = last_end lo rs1 /\
     wmap_any_fun (rs ++ e) mk length lo = inl (rs1 ++ mk a :: rs2 ++ e, a) /\ spaced hi lo (rs1 ++ mk a :: rs2) /\ crowded length lo rs1) \/
  (wmap_any_fun (rs ++ e) mk length lo =
     match wmap_any_fun e mk length (last_end lo rs) with inl (l, a) => inl (rs ++ l, a) | inr x => inr x end /\ crowded length lo rs).
Proof.
  intros Hmk Hlen Hhi. induction rs as [|r rs IH]; intros lo Hlo Hs.
  - right. cbn [app last_end]. split; [now destruct (wmap_any_fun e mk length lo) as [[]|]|].
    apply crowded_nil.
  - destruct Hs as (H1 & H2 & H3 & Hs). cbn [app wmap_any_fun].
    rewrite (u32_small (rg_addr r - lo)) by (unfold two32 in *; lia).
    destruct (length <? rg_addr r - lo) eqn:C; bool_prop.
    + left. exists [], (r :: rs), lo. cbn [app last_end spaced]. destruct (Hmk lo ltac:(lia)) as [-> ->].
      split_and!; auto using crowded_nil; lia.
    + assert (Ee : rg_end r = rg_addr r + rg_length r) by (apply u32_small; unfold two32 in *; lia). rewrite Ee.
      destruct (IH (rg_addr r + rg_length r) ltac:(lia) Hs) as [(rs1 & rs2 & a & -> & Hne & -> & E & Hs' & Hcr)|[E Hno]].
      * left. exists (r :: rs1), rs2, (last_end (rg_addr r + rg_length r) rs1). rewrite E. cbn [app last_end spaced].
        split_and!; auto. apply crowded_cons; [lia | exact Hcr].
      * right. rewrite E. cbn [last_end]. split; [now destruct (wmap_any_fun e mk length _) as [[]|]|].
        apply crowded_cons; [lia | exact Hno].
Qed.

Lemma spaced_elem hi rs : forall lo r, spaced hi lo rs -> r ∈ rs ->
  lo <= rg_addr r /\ 0 < rg_length r /\ rg_addr r + rg_length r <= last_end lo rs.
Proof.
  assert (Hge : forall rs lo, spaced hi lo rs -> lo <= last_end lo rs).
  { induction rs0 as [|r0 rs0 IH]; intros lo Hs; cbn [last_end]; [lia|].
    destruct Hs as (H1 & H2 & _ & Hs). specialize (IH _ Hs). lia. }
  induction rs as [|r0 rs IH]; intros lo r Hs Hr; [now apply not_elem_of_nil in Hr|].
  destruct Hs as (H1 & H2 & H3 & Hs). cbn [last_end]. apply elem_of_cons in Hr as [->|Hr].
  - specialize (Hge rs _ Hs). lia.
  - specialize (IH _ r Hs Hr). lia.
Qed.

Lemma spaced_apart hi lo rs1 n rs2 : spaced hi lo (rs1 ++ n :: rs2) ->
  forall r, r ∈ rs1 ++ rs2 -> overlap n r = false.
Proof.
  intros (H1 & H2 & H3 & H4 & Hs)%spaced_app r Hr. unfold overlap. apply andb_false_iff. rewrite !Z.ltb_ge.
  apply elem_of_app in Hr as [Hr|Hr].
  - destruct (spaced_elem hi rs1 lo r H1 Hr) as (_ & _ & He). lia.
  - destruct (spaced_elem hi rs2 _ r Hs Hr) as (Hl & _ & _). lia.
Qed.

Lemma spaced_proper hi lo rs : MMAPBASE <= lo -> hi <= two32 -> spaced hi lo rs ->
  Forall (fun r => rg_length r <> 0 /\ rg_end r <> 0 /\ rg_end r <> MMAPBASE) rs.
Proof.
  intros Hlo Hhi. revert lo Hlo. induction rs as [|r rs IH]; intros lo Hlo Hs; constructor;
    destruct Hs as (H1 & H2 & H3 & Hs); unfold MMAPBASE in *.
  - unfold rg_end. rewrite u32_small by lia. lia.
  - apply (IH (rg_addr r + rg_length r)); [lia | exact Hs].
Qed.

Lemma Forall_removelast {A} (P : A -> Prop) l : Forall P l -> Forall P (removelast l).
Proof.
  induction 1 as [|x l Hx Hl IH]; cbn [removelast]; [constructor|]. destruct l; [constructor|]. now constructor.
Qed.

Lemma tidy_proper rs : tidy rs -> proper rs.
Proof.
  unfold proper. intros [[_ Hs]|(rs0 & e & -> & _ & Hs)].
  - apply Forall_removelast. apply (spaced_proper KERNBASE MMAPBASE); auto; [lia|]. unfold KERNBASE, two32. lia.
  - rewrite removelast_last. apply (spaced_proper two32 MMAPBASE); auto; lia.
Qed.

(** The outcome of a search for a gap in a tidy list. *)
Lemma wmap_gap_tidy rs length flags fd : tidy rs -> 0 < length < two31 ->
  truth (Z.land flags MAP_FIXED) = false ->
  (forall r, r ∈ rs -> rg_addr r + rg_length r + length < two32) ->
  let (rs', a) := wmap_gap rs length flags fd in
  (a = u32 (-1) /\ rs' = rs /\ spaced KERNBASE MMAPBASE rs /\
     KERNBASE <= last_end MMAPBASE rs + length /\ crowded length MMAPBASE rs) \/
  (tidy rs' /\ MMAPBASE <= a /\ a + length < two32 /\
     exists rs1 rs2, rs = rs1 ++ rs2 /\ rs' = rs1 ++ new_region a length flags fd :: rs2 /\
       a = last_end MMAPBASE rs1 /\ crowded length MMAPBASE rs1 /\
       forall r, r ∈ rs -> overlap (new_region a length flags fd) r = false).
Proof.
  intros Ht Hlen Hfx Hroom. unfold wmap_gap. rewrite Hfx.
  set (mk := fun a => new_region a length flags fd).
  assert (Hmk : forall a, 0 <= a < two32 -> rg_addr (mk a) = a /\ rg_length (mk a) = length).
  { intros a Ha. destruct (new_region_bounds a length flags fd Ha Hlen) as (E1 & E2 & _). auto. }
  assert (HK : KERNBASE < two32 /\ MMAPBASE < KERNBASE /\ 0 <= MMAPBASE) by (unfold KERNBASE, MMAPBASE, two32; lia).
  destruct Ht as [[Hne Hs]|(rs0 & e & -> & [He1 He2] & Hs)].
  - destruct (wmap_any_spaced KERNBASE mk length [] rs Hmk) with (lo := MMAPBASE)
      as [(rs1 & rs2 & a & -> & Hne2 & -> & E & Hs' & Hcr)|[E Hno]]; auto; try lia.
    + rewrite app_nil_r in E. rewrite E, app_nil_r. right.
      pose proof Hs' as (Hs1 & H1 & H2 & H3 & _)%spaced_app.
      destruct (spaced_end KERNBASE MMAPBASE rs1) as [L1 L2]; auto; try lia.
      destruct (Hmk (last_end MMAPBASE rs1)) as [E1 E2]; [lia|]. rewrite E1, E2 in *.
      split_and!; auto; try lia.
      * left. split; [now destruct rs1|exact Hs'].
      * exists rs1, rs2. split_and!; auto. intros r Hr. eapply spaced_apart; eauto.
    + rewrite app_nil_r in E. cbn [wmap_any_fun] in E. rewrite E.
      destruct (spaced_end KERNBASE MMAPBASE rs) as [L1 L2]; auto; try lia.
      rewrite u32_small by lia. destruct (Hmk (last_end MMAPBASE rs)) as [E1 E2]; [lia|]. case_bool.
      * right. assert (Hs' : spaced KERNBASE MMAPBASE (rs ++ [mk (last_end MMAPBASE rs)])).
        { apply spaced_app. split; [exact Hs|]. cbn [spaced]. rewrite E1, E2. split_and!; auto; lia. }
        split_and!; auto; try lia.
        -- left. split; [now destruct rs | exact Hs'].
        -- exists rs, []. rewrite app_nil_r. split_and!; auto. intros r Hr.
           apply (spaced_apart KERNBASE MMAPBASE rs _ []); [exact Hs' | now rewrite app_nil_r].
      * left. split_and!; auto. lia.
  - assert (Hov : forall n, 0 <= rg_addr n -> overlap n e = false).
    { intros n Hn. unfold overlap. rewrite He1, He2. apply andb_false_iff. left. apply Z.ltb_ge. lia. }
    destruct (wmap_any_spaced two32 mk length [e] rs0 Hmk) with (lo := MMAPBASE)
      as [(rs1 & rs2 & a & -> & Hne2 & -> & E & Hs' & Hcr)|[E Hno]]; auto; try lia.
    + rewrite E. right. pose proof Hs' as (Hs1 & H1 & H2 & H3 & _)%spaced_app.
      destruct (spaced_end two32 MMAPBASE rs1) as [L1 L2]; auto; try lia.
      destruct (Hmk (last_end MMAPBASE rs1)) as [E1 E2]; [lia|]. rewrite E1, E2 in *.
      split_and!; auto; try lia.
      * right. exists (rs1 ++ mk (last_end MMAPBASE rs1) :: rs2), e. rewrite <- app_assoc. split_and!; auto. now split.
      * exists rs1, (rs2 ++ [e]). rewrite <- app_assoc. split_and!; auto.
        intros r Hr. rewrite app_assoc in Hr.
        apply elem_of_app in Hr as [Hr | ->%list_elem_of_singleton]; [eapply spaced_apart; eauto | apply Hov; fold (mk (last_end MMAPBASE rs1)); lia].
    + destruct (spaced_end two32 MMAPBASE rs0) as [L1 L2]; auto; try lia.
      assert (Hfit : last_end MMAPBASE rs0 + length < two32).
      { destruct (last_end_elem rs0 MMAPBASE) as [->|(r & Hr & ->)]; [unfold MMAPBASE, two31, two32 in *; lia|].
        apply Hroom, elem_of_app. auto. }
      cbn [wmap_any_fun] in E. rewrite He1 in E.
      rewrite (proj2 (Z.ltb_lt _ _)) in E by (unfold MMAPBASE, two32 in *; word_lia). rewrite E. right.
      destruct (Hmk (last_end MMAPBASE rs0)) as [E1 E2]; [lia|].
      assert (Hs' : spaced two32 MMAPBASE (rs0 ++ [mk (last_end MMAPBASE rs0)])).
      { apply spaced_app. split; [exact Hs|]. cbn [spaced]. rewrite E1, E2. split_and!; auto; lia. }
      split_and!; auto; try lia.
      * right. exists (rs0 ++ [mk (last_end MMAPBASE rs0)]), e. rewrite <- app_assoc. split_and!; auto. now split.
      * exists rs0, [e]. split_and!; auto.
        intros r [Hr | ->%list_elem_of_singleton]%elem_of_app; [|apply Hov; fold (mk (last_end MMAPBASE rs0)); lia].
        apply (spaced_apart two32 MMAPBASE rs0 _ []); [exact Hs' | now rewrite app_nil_r].
Qed.

(** ** Properties *)

(** A process whose list is the one empty node, beside [n] free pages. *)
Definition sample_proc : Z := 0x80110000.
Definition sample_node : Z := 0x80220000.

Definition sample_lazy (n : nat) : kmem :=
  set_mem (store32 (store32 (pool_mem n) (sample_proc + P_head) sample_node) (sample_proc + P_tail) sample_node)
          (sample_pool n).

Lemma sample_lazy_wf n : (n <= 4096)%nat ->
  @lazy_wf sample_linker (sample_lazy n) sample_proc [(sample_node, mkRegion 0 0 0 0 0 0)] (pages_from pool_base n).
Proof.
  intros Hn. pose proof (sample_pool_wf n Hn) as F.
  assert (Hpr : @proc_ok sample_linker sample_proc) by (split; cbn; unfold sample_proc, KERNBASE, P_size; lia).
  assert (Ht : @page_ok sample_linker sample_node) by (apply (sample_page 32); lia).
  assert (F1 : @kmem_wf sample_linker (sample_lazy n) (pages_from pool_base n)).
  { apply (@kmem_wf_store sample_linker (set_mem (store32 (pool_mem n) (sample_proc + P_head) sample_node) (sample_pool n))).
    - apply (@kmem_wf_store sample_linker (sample_pool n)); [exact F|].
      apply (@proc_apart sample_linker) with (s := sample_pool n); auto; unfold P_head, P_size; lia.
    - apply (@proc_apart sample_linker) with (s := sample_pool n); auto; unfold P_tail, P_size; lia. }
  constructor; auto.
  - cbn [sample_lazy km_mem set_mem dseg]. rewrite load32_store32_eq.
    rewrite load32_store32_ne, load32_store32_eq by (unfold P_head, P_tail; lia).
    rewrite u32_small by (unfold two32, sample_node; lia).
    assert (E : forall off, 0 <= off -> off + 4 <= 4096 ->
      load32 (store32 (store32 (pool_mem n) (sample_proc + P_head) sample_node) (sample_proc + P_tail) sample_node) (sample_node + off) = 0).
    { intros off H1 H2. rewrite !load32_store32_ne by (unfold P_head, P_tail, sample_proc, sample_node; lia).
      unfold load32. rewrite !pool_mem_out by (unfold sample_node, pool_base; lia). reflexivity. }
    unfold node_region, node_prev, node_next. rewrite !E by (unfold LZ_fd, LZ_addr, LZ_length, LZ_shared, LZ_used, LZ_numPages, LZ_next, LZ_prev; lia).
    auto.
  - constructor; [exact Ht | constructor].
  - apply NoDup_singleton.
  - intros t ->%list_elem_of_singleton [Hb _]%pages_from_elem. cbn [fst] in Hb. unfold sample_node, pool_base in Hb. lia.
Qed.





(** Two calls in a row are two steps of [wmap_fun]. *)
Lemma wmap_twice `{LKOK : LinkerOk} s pr ns q1 q2 l fuel a1 n1 f1 a2 n2 f2 :
  lazy_wf s pr ns (q1 :: q2 :: l) -> ns <> [] -> proper (map snd ns) -> n1 < two31 -> n2 < two31 ->
  (S (List.length ns) < fuel)%nat ->
  let w1 := wmap_fun (map snd ns) a1 n1 f1 0 in
  let w2 := wmap_fun (fst w1) a2 n2 f2 0 in
  fst w1 <> [] -> proper (fst w1) -> (List.length (fst w1) <= S (List.length ns))%nat ->
  exists s1 s2 ns2 l2, sys_wmap pr fuel a1 n1 f1 0 s = Ok (snd w1) s1 /\
    sys_wmap pr fuel a2 n2 f2 0 s1 = Ok (snd w2) s2 /\ lazy_wf s2 pr ns2 l2 /\ map snd ns2 = fst w2.
Proof.
  intros Hlw Hne Hpr Hn1 Hn2 Hf w1 w2 Hne1 Hpr1 Hlen1.
  destruct (sys_wmap_refines s pr ns q1 (q2 :: l) fuel a1 n1 f1 0 Hlw Hne Hpr Hn1 ltac:(lia)) as (s1 & ns1 & l1 & Hrun1 & Hlw1 & E1 & El1).
  fold w1 in Hrun1, E1. assert (Hns1 : ns1 <> []) by (intros ->; now rewrite <- E1 in Hne1).
  assert (Hl1 : (List.length ns1 < fuel)%nat) by (rewrite <- (length_map snd), E1; lia).
  rewrite <- E1 in Hpr1. assert (Hq : exists q l', l1 = q :: l') by (subst l1; destruct (_ =? _)%nat; eauto).
  destruct Hq as (q & l' & ->).
  destruct (sys_wmap_refines s1 pr ns1 q l' fuel a2 n2 f2 0 Hlw1 Hns1 Hpr1 Hn2 Hl1) as (s2 & ns2 & l2 & Hrun2 & Hlw2 & E2 & _).
  rewrite E1 in Hrun2, E2. fold w2 in Hrun2, E2. exists s1, s2, ns2, l2. auto.
Qed.

(** [MAP_FIXED] does not keep regions apart.  In a new process, a mapping
    placed by the kernel followed by a [MAP_FIXED] mapping of the very same
    range succeeds, and the list then holds two overlapping regions: the empty
    node that ends the list resets [last] to 0 before the final test. *)
Theorem wmap_fixed_overlaps `{LKOK : LinkerOk} (s : kmem) (pr t q1 q2 : Z) (e : region) (l : list Z) (fuel : nat) :
  lazy_wf s pr [(t, e)] (q1 :: q2 :: l) -> empty_region e -> (2 < fuel)%nat ->
  let flags := Z.lor MAP_PRIVATE MAP_ANONYMOUS in
  let r1 := new_region MMAPBASE 8192 flags 0 in
  let r2 := new_region MMAPBASE 8192 (Z.lor flags MAP_FIXED) 0 in
  exists s1 s2 ns l', sys_wmap pr fuel 0 8192 flags 0 s = Ok MMAPBASE s1 /\
    sys_wmap pr fuel MMAPBASE 8192 (Z.lor flags MAP_FIXED) 0 s1 = Ok MMAPBASE s2 /\
    lazy_wf s2 pr ns l' /\ map snd ns = [r1; e; r2] /\ overlap r1 r2 = true.
Proof.
  intros Hlw [He1 He2] Hf flags r1 r2. destruct e as [efd ea el es eu ep]. cbn [rg_addr rg_length] in *. subst ea el.
  destruct (wmap_twice s pr _ q1 q2 l fuel 0 8192 flags MMAPBASE 8192 (Z.lor flags MAP_FIXED) Hlw)
    as (s1 & s2 & ns2 & l2 & Hrun1 & Hrun2 & Hlw2 & E2); try discriminate; try (unfold two31; lia); try (cbn; lia).
  - constructor.
  - repeat constructor; discriminate.
  - apply Nat.leb_le. reflexivity.
  - exists s1, s2, ns2, l2. split_and!; auto.
Qed.

Lemma wmap_fixed_overlaps_witness : exists s1 s2,
  sys_wmap sample_proc 3 0 8192 5 0 (sample_lazy 2) = Ok MMAPBASE s1 /\
  sys_wmap sample_proc 3 MMAPBASE 8192 13 0 s1 = Ok MMAPBASE s2.
Proof.
  destruct (@wmap_fixed_overlaps sample_linker sample_linker_ok (sample_lazy 2) sample_proc sample_node
    pool_base (pool_base + 4096) (mkRegion 0 0 0 0 0 0) [] 3) as (s1 & s2 & ns & l' & H1 & H2 & _).
  - apply (sample_lazy_wf 2). lia.
  - split; reflexivity.
  - lia.
  - exists s1, s2. split; [exact H1 | exact H2].
Defined.

(** After a mapping whose length is no multiple of the page size, the kernel
    places the next one right behind it, inside the same page. *)
Theorem wmap_second_unaligned `{LKOK : LinkerOk} s pr t q1 q2 e l fuel :
  lazy_wf s pr [(t, e)] (q1 :: q2 :: l) -> empty_region e -> (2 < fuel)%nat ->
  exists s1 s2, sys_wmap pr fuel 0 100 MAP_ANONYMOUS 0 s = Ok MMAPBASE s1 /\
    sys_wmap pr fuel 0 100 MAP_ANONYMOUS 0 s1 = Ok (MMAPBASE + 100) s2.
Proof.
  intros Hlw [He1 He2] Hf. destruct e as [efd ea el es eu ep]. cbn [rg_addr rg_length] in *. subst ea el.
  destruct (wmap_twice s pr _ q1 q2 l fuel 0 100 MAP_ANONYMOUS 0 100 MAP_ANONYMOUS Hlw)
    as (s1 & s2 & ns2 & l2 & Hrun1 & Hrun2 & _); try discriminate; try (unfold two31; lia); try (cbn; lia).
  - constructor.
  - repeat constructor; discriminate.
  - apply Nat.leb_le. reflexivity.
  - exists s1, s2. auto.
Qed.

(** When two mappings do not both fit, the second is placed at address 0, over
    the program: past the empty node the search continues from 0. *)
Theorem wmap_second_at_zero `{LKOK : LinkerOk} s pr t q1 q2 e l fuel :
  lazy_wf s pr [(t, e)] (q1 :: q2 :: l) -> empty_region e -> (2 < fuel)%nat ->
  exists s1 s2, sys_wmap pr fuel 0 0x7ffffffe MAP_ANONYMOUS 0 s = Ok MMAPBASE s1 /\
    sys_wmap pr fuel 0 0x7ffffffe MAP_ANONYMOUS 0 s1 = Ok 0 s2.
Proof.
  intros Hlw [He1 He2] Hf. destruct e as [efd ea el es eu ep]. cbn [rg_addr rg_length] in *. subst ea el.
  destruct (wmap_twice s pr _ q1 q2 l fuel 0 0x7ffffffe MAP_ANONYMOUS 0 0x7ffffffe MAP_ANONYMOUS Hlw)
    as (s1 & s2 & ns2 & l2 & Hrun1 & Hrun2 & _); try discriminate; try (unfold two31; lia); try (cbn; lia).
  - constructor.
  - repeat constructor; discriminate.
  - apply Nat.leb_le. reflexivity.
  - exists s1, s2. auto.
Qed.
