(* ===== verification/FileApi.v ===== *)
(** What the memory-mapping code needs of the file layer: [fileread] and
    [filewrite] of [src/xv6/xv6-public/file.c].

    Both take a [struct file *], a kernel address and a count; they work on the
    kernel's memory and on the file system's own state. *)

From S2P Require Import Prelude Mem Mmu Spinlock Kalloc.

(** Offset of [off] in [struct file]. *)
Definition F_off : Z := 20.

Class FileLayer (F : Type) := {
  fileread : Z -> Z -> Z -> M (kmem * F) Z;
  filewrite : Z -> Z -> Z -> M (kmem * F) Z
}.

(** An action on the kernel's memory alone. *)
Definition lift {F A} (m : M kmem A) : M (kmem * F) A :=
  zoom fst (fun k s => (k, snd s)) m.

(** The promise of [fileread] for an open regular file: [file_bytes fs f off n]
    are the bytes the file behind [f] holds at [off], at most [n], and none when [off]
    is past the end of the file, where the call returns -1.  Of [struct file] only
    [off] is read from the memory; its other fields, like the disk, are part of the
    file system's state.  It stores the bytes at the address, moves the offset past
    them and touches nothing else. *)
Class FileLayerOk (F : Type) `{FileLayer F} (readable : F -> Z -> Prop)
    (file_bytes : F -> Z -> Z -> nat -> list Z) : Prop := {
  fileread_ok : forall f addr n k fs, readable fs f -> 0 < n < two31 -> KERNBASE <= f -> f + F_off + 4 <= addr \/ addr + n <= f ->
    mem_ok (km_mem k) ->
    let off := load32 (km_mem k) (f + F_off) in
    let bs := file_bytes fs f off (Z.to_nat n) in
    exists r k' fs', fileread f addr n (k, fs) = Ok r (k', fs') /\
      (r = Z.of_nat (length bs) \/ r = -1 /\ bs = []) /\
      (length bs <= Z.to_nat n)%nat /\
      bytes (km_mem k') addr (length bs) = bs /\
      load32 (km_mem k') (f + F_off) = u32 (off + Z.of_nat (length bs)) /\
      (forall x, (x < addr \/ addr + Z.of_nat (length bs) <= x) -> (x < f + F_off \/ f + F_off + 4 <= x) ->
         km_mem k' x = km_mem k x) /\
      mem_ok (km_mem k') /\ k' = set_mem (km_mem k') k
}.
