(* ===== verification/Wunmap.v ===== *)
(** Removing and resizing lazy mappings: [sys_wunmap] and [sys_wremap] of
    [src/xv6/xv6-public/sysproc.c], and the part of [exit] in
    [src/xv6/xv6-public/proc.c] that releases them.

    [sys_wunmap] unlinks the node, returns the frames of its pages (writing
    shared file pages back first), updates the [va]/[pa] tables of the process
    and frees the node. *)

From S2P Require Import Prelude Mem Mmu Spinlock Kalloc PageTable Uvm Lazy FileApi.

Section Wunmap.
Context `{LK : Linker} {F : Type} `{FL : FileLayer F}.

(** [pr] is [myproc()]. *)
Variable pr : Z.

(** [&myproc()->va[i]] and [&myproc()->pa[i]]; the index is not checked. *)
Definition va_at (i : Z) : Z := u32 (pr + P_va + 4 * i).
Definition pa_at (i : Z) : Z := u32 (pr + P_pa + 4 * i).

(** Taking [temp] out of the list. *)
Definition wunmap_unlink (temp : Z) : M kmem unit :=
  pv <- ldf temp LZ_prev ;;
  nx <- ldf temp LZ_next ;;
  if truth pv && truth nx then
    pv <- ldf temp LZ_prev ;; nx <- ldf temp LZ_next ;; stf pv LZ_next nx ;;;
    nx <- ldf temp LZ_next ;; pv <- ldf temp LZ_prev ;; stf nx LZ_prev pv
  else if truth pv then
    nx <- ldf temp LZ_next ;; stf pv LZ_next nx
  else if truth nx then
    pv <- ldf temp LZ_prev ;; stf nx LZ_prev pv
  else
    new <- kalloc ;;
    if new <? KERNBASE then fault "bad pointer" else
    memset_k new 0 LZ_size ;;;
    wr32 (pr + P_head) new.

(** [for(int i = 0; i < temp->length; i += 4096)], dropping the pages. *)
Fixpoint wunmap_drop (fuel : nat) (temp addr i : Z) : M kmem unit :=
  match fuel with
  | O => nofuel
  | S k =>
      len <- ldf temp LZ_length ;;
      if negb (i <? s32 len) then ret tt else
      pgdir <- rd32 (pr + P_pgdir) ;;
      pte <- walkpgdir pgdir (u32 (addr + i)) false ;;
      if pte =? 0 then fault "sys_wunmap: null pte" else
      v <- rd32 pte ;;
      (if truth (Z.land v PTE_P) then kfree (P2V (PTE_ADDR v)) ;;; wr32 pte 0 else ret tt) ;;;
      wunmap_drop k temp addr (s32 (i + 4096))
  end.

(** The same loop for a shared file mapping, writing the pages back. *)
Fixpoint wunmap_write (fuel : nat) (temp addr f i : Z) : M (kmem * F) unit :=
  match fuel with
  | O => nofuel
  | S k =>
      len <- lift (ldf temp LZ_length) ;;
      if negb (i <? s32 len) then ret tt else
      pgdir <- lift (rd32 (pr + P_pgdir)) ;;
      pte <- lift (walkpgdir pgdir (u32 (addr + i)) false) ;;
      if pte =? 0 then fault "sys_wunmap: null pte" else
      v <- lift (rd32 pte) ;;
      (if truth (Z.land v PTE_P) then
         let buf := P2V (PTE_ADDR v) in
         lift (stf f F_off i) ;;;
         filewrite f buf 4096 ;;;
         lift (kfree buf) ;;;
         lift (wr32 pte 0)
       else ret tt) ;;;
      wunmap_write k temp addr f (s32 (i + 4096))
  end.

(** The update of [va], [pa]; the result is [removecount]. *)
Fixpoint wunmap_book (fuel : nat) (temp i removecount : Z) : M kmem Z :=
  match fuel with
  | O => nofuel
  | S k =>
      n <- rd32 (pr + P_n_upages) ;;
      if negb (u32 i <? n) then ret removecount else
      taddr <- ldf temp LZ_addr ;;
      v <- rd32 (va_at i) ;;
      if taddr =? v then
        n <- rd32 (pr + P_n_upages) ;; w <- rd32 (va_at (n - removecount)) ;; wr32 (va_at i) w ;;;
        n <- rd32 (pr + P_n_upages) ;; w <- rd32 (pa_at (n - removecount)) ;; wr32 (pa_at i) w ;;;
        n <- rd32 (pr + P_n_upages) ;; wr32 (va_at (n - removecount)) (-1) ;;;
        n <- rd32 (pr + P_n_upages) ;; wr32 (pa_at (n - removecount)) (-1) ;;;
        wunmap_book k temp (i + 1) (removecount + 1)
      else wunmap_book k temp (i + 1) removecount
  end.

(** What follows the unlinking of the node. *)
Definition wunmap_rest (fuel : nat) (temp addr : Z) : M (kmem * F) Z :=
  fd <- lift (ldf temp LZ_fd) ;;
  sh <- lift (ldf temp LZ_shared) ;;
  (if (s32 fd =? -1) || (sh =? 0) then lift (wunmap_drop fuel temp addr 0)
   else
     f <- lift (rd32 (u32 (pr + P_ofile + 4 * s32 fd))) ;;
     wunmap_write fuel temp addr f 0) ;;;
  rc <- lift (wunmap_book fuel temp 0 1) ;;
  n <- lift (rd32 (pr + P_n_upages)) ;;
  lift (wr32 (pr + P_n_upages) (n - (rc + 1))) ;;;
  lift (kfree temp) ;;;
  ret 0.

(** The body for the node found. *)
Definition wunmap_node (fuel : nat) (temp addr : Z) : M (kmem * F) Z :=
  lift (wunmap_unlink temp) ;;; wunmap_rest fuel temp addr.

Fixpoint wunmap_loop (fuel lim : nat) (temp addr : Z) : M (kmem * F) Z :=
  match fuel with
  | O => nofuel
  | S k =>
      if temp =? 0 then ret (-1) else
      taddr <- lift (ldf temp LZ_addr) ;;
      if taddr =? addr then wunmap_node lim temp addr
      else next <- lift (ldf temp LZ_next) ;; wunmap_loop k lim next addr
  end.

Definition sys_wunmap (fuel lim : nat) (taddr : Z) : M (kmem * F) Z :=
  let addr := u32 taddr in
  if (taddr <? 1610612736) || (2147483648 <? taddr) then ret (-1) else
  temp <- lift (rd32 (pr + P_head)) ;;
  wunmap_loop fuel lim temp addr.

(** ** sys_wremap *)

(** [*pte = (V2P(temp->addr) & ~0xFFF) | flags] for the moved node. *)
Definition wremap_pte (temp flags : Z) : M kmem Z :=
  pgdir <- rd32 (pr + P_pgdir) ;;
  a <- ldf temp LZ_addr ;;
  pte <- walkpgdir pgdir a false ;;
  if pte =? 0 then fault "sys_wremap: null pte" else
  a <- ldf temp LZ_addr ;;
  wr32 pte (Z.lor (Z.land (V2P a) (Z.lnot 0xFFF)) flags) ;;;
  ret pte.

(** Overwriting [va[i]], [pa[i]] with the new place of the node. *)
Definition wremap_book (temp pte i : Z) : M kmem unit :=
  a <- ldf temp LZ_addr ;;
  wr32 (va_at i) a ;;;
  v <- rd32 pte ;;
  wr32 (pa_at i) (PTE_ADDR v).

(** [for(int i = 0; i < 32; i++)] of the second block: stops at the first match. *)
Fixpoint wremap_book_loop (n : nat) (temp pte oldaddr i : Z) : M kmem unit :=
  match n with
  | O => ret tt
  | S k =>
      v <- rd32 (va_at i) ;;
      if oldaddr =? v then wremap_book temp pte i else wremap_book_loop k temp pte oldaddr (i + 1)
  end.

(** The [while(temp2)] loop of [MREMAP_MAYMOVE]: [Some] returns from the call. *)
Fixpoint wremap_move (fuel : nat) (temp temp2 oldaddr newsize flags start : Z) : M kmem (option Z) :=
  match fuel with
  | O => nofuel
  | S k =>
      if temp2 =? 0 then ret None else
      a2 <- ldf temp2 LZ_addr ;;
      if a2 =? oldaddr then next <- ldf temp2 LZ_next ;; wremap_move k temp next oldaddr newsize flags start
      else
        let tend := s32 a2 in
        r <- (if newsize <? s32 (tend - start) then
                stf temp LZ_addr start ;;;
                stf temp LZ_length newsize ;;;
                pte <- wremap_pte temp flags ;;
                v <- rd32 (va_at 0) ;;
                if oldaddr =? v then
                  wremap_book temp pte 0 ;;;
                  a <- ldf temp2 LZ_addr ;; l <- ldf temp2 LZ_length ;; next <- ldf temp2 LZ_next ;;
                  ret (inr (next, s32 (a + l)))
                else ret (inl 0)
              else ret (inr (temp2, start))) ;;
        match r with
        | inl v => ret (Some v)
        | inr (temp2, start) =>
            if u32 newsize <? u32 (KERNBASE - start) then
              stf temp LZ_addr start ;;;
              stf temp LZ_length newsize ;;;
              pte <- wremap_pte temp flags ;;
              wremap_book_loop 32 temp pte oldaddr 0 ;;;
              ret (Some 0)
            else wremap_move k temp temp2 oldaddr newsize flags start
        end
  end.

Fixpoint wremap_loop (fuel lim : nat) (temp oldaddr oldsize newsize flags : Z) : M kmem Z :=
  match fuel with
  | O => nofuel
  | S k =>
      if temp =? 0 then ret (u32 (-1)) else
      taddr <- ldf temp LZ_addr ;;
      if negb (taddr =? oldaddr) then
        next <- ldf temp LZ_next ;; wremap_loop k lim next oldaddr oldsize newsize flags
      else
        tlen <- ldf temp LZ_length ;;
        if negb (s32 tlen =? oldsize) then ret (u32 (-1)) else
        next <- ldf temp LZ_next ;;
        upper <- (if truth next then ldf next LZ_addr else ret KERNBASE) ;;
        if u32 (oldaddr + newsize) <? upper then
          stf temp LZ_length newsize ;;; ret oldaddr
        else if truth (Z.land flags MREMAP_MAYMOVE) then
          temp2 <- rd32 (pr + P_head) ;;
          r <- wremap_move lim temp temp2 oldaddr newsize flags 0 ;;
          match r with Some v => ret v | None => ret (u32 (-1)) end
        else
          next <- ldf temp LZ_next ;; wremap_loop k lim next oldaddr oldsize newsize flags
  end.

(** [!flags & MREMAP_MAYMOVE && !flags & 0], as C reads it. *)
Definition wremap_bad_flags (flags : Z) : bool :=
  let nflags := if truth flags then 0 else 1 in
  truth (Z.land nflags MREMAP_MAYMOVE) && truth (Z.land nflags 0).

Definition sys_wremap (fuel lim : nat) (tempoldaddr oldsize newsize flags : Z) : M kmem Z :=
  let oldaddr := u32 tempoldaddr in
  if newsize <=? 0 then ret (u32 (-1)) else
  if wremap_bad_flags flags then ret (u32 (-1)) else
  temp <- rd32 (pr + P_head) ;;
  wremap_loop fuel lim temp oldaddr oldsize newsize flags.

(** ** The mappings in [exit] *)

Fixpoint exit_drop (fuel : nat) (head i : Z) : M kmem unit :=
  match fuel with
  | O => nofuel
  | S k =>
      len <- ldf head LZ_length ;;
      if negb (i <? s32 len) then ret tt else
      pgdir <- rd32 (pr + P_pgdir) ;;
      a <- ldf head LZ_addr ;;
      pte <- walkpgdir pgdir (u32 (a + i)) false ;;
      if pte =? 0 then fault "exit: null pte" else
      v <- rd32 pte ;;
      kfree (P2V (PTE_ADDR v)) ;;;
      exit_drop k head (s32 (i + 4096))
  end.

(** [while(head) { temp = temp->next; ...; head = temp; }] *)
Fixpoint exit_unmap_loop (fuel lim : nat) (head temp : Z) : M kmem unit :=
  match fuel with
  | O => nofuel
  | S k =>
      if head =? 0 then ret tt else
      temp <- ldf temp LZ_next ;;
      exit_drop lim head 0 ;;;
      exit_unmap_loop k lim temp temp
  end.

Definition exit_unmap (fuel lim : nat) : M kmem unit :=
  temp <- rd32 (pr + P_head) ;;
  head <- rd32 (pr + P_head) ;;
  exit_unmap_loop fuel lim head temp.


(** ** The invariant *)

(** No user entry of [d] maps the page [q]. *)
Definition unframed (m : mem) (d q : Z) : Prop :=
  forall va, 0 <= va < KERNBASE -> present (pte_of m d va) = true -> frame_of m d va <> q.

(** The process's list and address space side by side. *)
Record wspace (s : kmem) (d : Z) (ns : list (Z * region)) (l : list Z) : Prop := {
  ws_lazy : lazy_wf s pr ns l;
  ws_pgdir : load32 (km_mem s) (pr + P_pgdir) = d;
  ws_dir : pgdir_wf (km_mem s) d l;
  ws_user : user_wf (km_mem s) d l;
  ws_nodes : forall t, t ∈ map fst ns -> foreign (km_mem s) d l t /\ unframed (km_mem s) d t
}.

(** The private or anonymous region [r] at node [t], ready to be dropped: its
    pages have page tables. *)
Record droppable (m : mem) (d : Z) (r : region) : Prop := {
  dr_private : (s32 (rg_fd r) =? -1) || (rg_shared r =? 0) = true;
  dr_addr : 4096 <= rg_addr r;
  dr_aligned : rg_addr r mod 4096 = 0;
  dr_length : 0 < rg_length r;
  dr_end : rg_addr r + rg_length r <= KERNBASE;
  dr_tables : forall va, rg_addr r <= va < rg_addr r + rg_length r -> present (pde_of m d (PDX va)) = true
}.

(** Two memories in which the directory translates alike. *)
Definition dir_same (m m' : mem) (d : Z) : Prop :=
  (forall i, 0 <= i < 1024 -> pde_of m' d i = pde_of m d i) /\ (forall va, pte_of m' d va = pte_of m d va).

(** What the page loops read besides the page tables. *)
Record drop_env (s : kmem) (d t len : Z) (l : list Z) : Prop := {
  de_free : kmem_wf s l;
  de_dir : pgdir_wf (km_mem s) d l;
  de_user : user_wf (km_mem s) d l;
  de_proc : proc_ok pr;
  de_pgdir : load32 (km_mem s) (pr + P_pgdir) = d;
  de_node : foreign (km_mem s) d l t;
  de_unframed : unframed (km_mem s) d t;
  de_len : load32 (km_mem s) (t + LZ_length) = len
}.

(** Only the arrays [va] and [pa] of the process differ. *)
Definition arrays_only (m m' : mem) : Prop := forall x, x < pr + P_va \/ pr + P_head <= x -> m' x = m x.

(** ** Lemmas *)

Context {LKOK : LinkerOk}.

Lemma dir_same_frame m m' d l : pgdir_wf m d l ->
  (forall x, d <= x < d + 4096 -> m' x = m x) ->
  (forall i, 0 <= i < 1024 -> present (pde_of m d i) = true ->
     forall x, pt_of m d i <= x < pt_of m d i + 4096 -> m' x = m x) -> dir_same m m' d.
Proof.
  intros Hw Hd Ht. split; [intros i Hi; now apply pde_ext|]. intros va. pose proof (PDX_range va).
  apply pte_of_ext; [exact Hd | intros Hp; now apply Ht].
Qed.

Lemma dir_same_store m d l p off v : pgdir_wf m d l -> foreign m d l p -> 0 <= off -> off + 4 <= 4096 ->
  dir_same m (store32 m (p + off) v) d.
Proof.
  intros Hw (Hp & _ & Hd & Ht) H1 H2. apply (dir_same_frame m _ d l Hw).
  - intros x Hx. pose proof (page_disjoint p d Hp (pw_dir _ _ _ Hw) Hd). apply store32_frame. lia.
  - intros i Hi Hpi x Hx. destruct (pw_tab _ _ _ Hw i Hi Hpi) as (Hok & _).
    pose proof (page_disjoint p _ Hp Hok (not_eq_sym (Ht i Hi Hpi))). apply store32_frame. lia.
Qed.

Lemma dir_same_low m m' d l : pgdir_wf m d l -> (forall x, sym_end <= x -> m' x = m x) -> dir_same m m' d.
Proof.
  intros Hw Hx. apply (dir_same_frame m _ d l Hw).
  - intros x Hd. apply Hx. destruct (pw_dir _ _ _ Hw) as (_ & ? & _). lia.
  - intros i Hi Hpi x Ht. apply Hx. destruct (pw_tab _ _ _ Hw i Hi Hpi) as ((_ & ? & _) & _). lia.
Qed.

Lemma dir_same_wf m m' d l : dir_same m m' d -> pgdir_wf m d l -> user_wf m d l ->
  pgdir_wf m' d l /\ user_wf m' d l /\ (forall q, foreign m d l q -> foreign m' d l q) /\
  (forall q, unframed m d q -> unframed m' d q).
Proof.
  intros [Hpde Hpte] Hw Hu.
  assert (Hf : forall q, foreign m d l q -> foreign m' d l q).
  { intros q (? & ? & ? & Ht). split_and!; auto. intros i Hi. unfold pt_of. rewrite Hpde by exact Hi. now apply Ht. }
  split_and!; auto.
  - destruct Hw as [? ? Ht Hi]. constructor; auto; intros i; intros; unfold pt_of in *; rewrite !Hpde in * by assumption;
      [now apply Ht | now apply Hi].
  - apply (user_wf_sub m _ _ l); [exact Hu|]. intros va Hva. rewrite Hpte. split; [reflexivity|]. now apply Hf, Hu.
  - intros q Hq va Hva. unfold frame_of. rewrite Hpte. now apply Hq.
Qed.

(** Unlinking a node between two others. *)
Lemma unlink_mid s ns1 t r ns2 l : lazy_wf s pr (ns1 ++ (t, r) :: ns2) l -> ns1 <> [] -> ns2 <> [] ->
  exists y x, y ∈ map fst ns1 /\ x ∈ map fst ns2 /\
    let m' := store32 (store32 (km_mem s) (y + LZ_next) x) (x + LZ_prev) y in
    wunmap_unlink t s = Ok tt (set_mem m' s) /\
    kmem_wf (set_mem m' s) l /\ node_region m' t = r /\
    dseg m' 0 (load32 m' (pr + P_head)) (ns1 ++ ns2) (load32 m' (pr + P_tail)) 0.
Proof.
  intros Hlw Hne1 Hne2. pose proof Hlw as [F0 Pr L Pg Nd Us].
  destruct ns2 as [|[x rx] ns3]; [contradiction|]. set (ns := ns1 ++ (t, r) :: (x, rx) :: ns3) in *.
  destruct (dseg_mid_prev _ ns1 t r _ _ _ _ L) as (y & Hd1 & Hd2 & Hy & Hyin).
  destruct ns1 as [|n1 ns1']; [contradiction|]. set (ns1 := n1 :: ns1') in *.
  rewrite Forall_forall in Pg.
  assert (Hin : forall z, z ∈ map fst ns -> page_ok z /\ (z ∉ l)) by (intros z Hz; split; auto).
  assert (Hyn : y ∈ map fst ns) by (unfold ns; rewrite map_app; apply elem_of_app; auto).
  assert (Htn : t ∈ map fst ns) by (unfold ns; rewrite map_app; apply elem_of_app; right; apply elem_of_cons; auto).
  assert (Hxn : x ∈ map fst ns)
    by (unfold ns; rewrite map_app; apply elem_of_app; right; apply elem_of_cons; right; apply elem_of_cons; auto).
  destruct (Hin y Hyn) as [Hyok Hyl], (Hin t Htn) as [Htok Htl], (Hin x Hxn) as [Hxok Hxl].
  unfold ns in Nd. rewrite map_app in Nd. cbn [map fst] in Nd.
  apply NoDup_app in Nd as (Nd1 & Hdis & Nd2). apply NoDup_cons in Nd2 as [Htx Nd3]. apply NoDup_cons in Nd3 as [Hx3 _].
  assert (Hyt : y <> t) by (intros ->; apply (Hdis t Hyin), elem_of_cons; auto).
  assert (Hyx : y <> x) by (intros ->; apply (Hdis x Hyin), elem_of_cons; right; apply elem_of_cons; auto).
  assert (Htx' : t <> x) by (intros ->; apply Htx, elem_of_cons; auto).
  cbn [dseg] in Hd2. destruct Hd2 as (_ & Hr & Hp & Hnx & Hrx & Hpx & Hd3).
  exists y, x. split; [exact Hyin|]. split; [apply elem_of_cons; auto|]. cbv zeta.
  set (m1 := store32 (km_mem s) (y + LZ_next) x). set (m2 := store32 m1 (x + LZ_prev) y).
  pose proof (page_kernbase t Htok) as Kt. pose proof (page_kernbase y Hyok) as Ky. pose proof (page_kernbase x Hxok) as Kx.
  pose proof (u32_small x (page_ok_u32 x Hxok)) as Ux. pose proof (u32_small y (page_ok_u32 y Hyok)) as Uy.
  assert (E1p : node_prev m1 t = y) by (unfold m1; now rewrite np_next by auto).
  assert (E1n : node_next m1 t = x) by (unfold m1; rewrite nn_next by auto; rewrite (proj2 (Z.eqb_neq y t)) by auto; auto).
  assert (F1 : kmem_wf (set_mem m1 s) l) by (apply node_store_wf; auto; unfold LZ_next; lia).
  split_and!.
  - unfold wunmap_unlink. do 2 rewrite (bind_ok _ _ _ _ _ (ldf_ok t _ s Kt)).
    fold (node_prev (km_mem s) t) (node_next (km_mem s) t). rewrite Hp, Hnx.
    rewrite !(proj2 (truth_true _)) by now apply page_ok_nonzero. cbn [andb].
    do 2 rewrite (bind_ok _ _ _ _ _ (ldf_ok t _ s Kt)).
    fold (node_prev (km_mem s) t) (node_next (km_mem s) t). rewrite Hp, Hnx.
    rewrite (bind_ok _ _ _ _ _ (stf_ok y _ _ s Ky)). fold m1.
    do 2 rewrite (bind_ok _ _ _ _ _ (ldf_ok t _ (set_mem m1 s) Kt)). cbn [km_mem set_mem].
    fold (node_prev m1 t) (node_next m1 t). rewrite E1p, E1n. now rewrite (stf_ok x _ _ _ Kx).
  - apply (node_store_wf (set_mem m1 s)); auto; unfold LZ_prev; lia.
  - unfold m2, m1. node_rw. exact Hr.
  - assert (Hlow : forall z, z < sym_end -> m2 z = km_mem s z).
    { intros z Hz. destruct Hyok as (_ & ? & _), Hxok as (_ & ? & _). unfold m2, m1.
      rewrite !store32_frame by (unfold LZ_prev, LZ_next; lia). reflexivity. }
    rewrite !(proc_load (km_mem s) m2) by (auto; unfold P_head, P_tail, P_size; lia).
    apply dseg_app. exists y, x. split.
    + apply (seg_relink (km_mem s) m2 y x t ns1); auto. intros z Hz.
      assert (Hzx : z <> x) by (intros ->; apply (Hdis x Hz), elem_of_cons; right; apply elem_of_cons; auto).
      assert (page_ok z) by (apply Hin; unfold ns; rewrite map_app; apply elem_of_app; auto).
      unfold m2, m1. node_rw. rewrite Ux, (proj2 (Z.eqb_neq x z)) by auto. auto.
    + cbn [dseg]. split_and!; auto.
      * unfold m2, m1. node_rw. exact Hrx.
      * unfold m2, m1. node_rw. now rewrite Z.eqb_refl, Uy.
      * assert (En : node_next m2 x = node_next (km_mem s) x)
          by (unfold m2, m1; node_rw; now rewrite (proj2 (Z.eqb_neq y x)) by auto). rewrite En.
        apply (dseg_frame (km_mem s)); [|exact Hd3]. intros z Hz.
        assert (Hzn : z ∈ map fst ns) by (unfold ns; rewrite map_app; apply elem_of_app; right;
          apply elem_of_cons; right; apply elem_of_cons; auto).
        assert (page_ok z) by now apply Hin. assert (z <> x) by (intros ->; contradiction).
        assert (Hzy : y <> z) by (intros <-; apply (Hdis y Hyin), elem_of_cons; right; apply elem_of_cons; auto).
        unfold m2, m1. node_rw. rewrite (proj2 (Z.eqb_neq x z)), (proj2 (Z.eqb_neq y z)) by auto. auto.
Qed.

(** One page dropped. *)
Lemma drop_page s d t len l a : drop_env s d t len l -> 0 <= a < KERNBASE ->
  present (pte_of (km_mem s) d a) = true ->
  let f := frame_of (km_mem s) d a in
  exists s', (kfree f ;;; wr32 (walk (km_mem s) d a) 0) s = Ok tt s' /\ drop_env s' d t len (f :: l) /\
    (forall i, 0 <= i < 1024 -> pde_of (km_mem s') d i = pde_of (km_mem s) d i) /\
    (forall n, 0 <= a -> a mod 4096 = 0 -> a + 4096 * Z.of_nat (S n) <= two32 ->
       forall s2, unmapped s' s2 d (a + 4096) n (f :: l) -> unmapped s s2 d a (S n) l).
Proof.
  intros [F0 D U Pr Pg Nf Nu Nl] Ha Hp f.
  destruct (unmap_page s d l a F0 D U Ha Hp) as (s1 & Hrun & F1 & D1 & U1 & Hpde & Hpte & Hfor & Hlow).
  fold f in Hrun, F1, D1, U1, Hfor. destruct (Hfor t Nf) as [Nf1 Nc1]; [intros ->; now apply (Nu a)|].
  exists s1. split; [exact Hrun|]. split; [constructor; auto|split; [exact Hpde|]].
  - rewrite (proc_load (km_mem s) (km_mem s1)) by (auto; unfold P_pgdir, P_size; lia). exact Pg.
  - intros va Hva. unfold frame_of. rewrite Hpte. destruct (same_page a va); [discriminate|]. now apply Nu.
  - rewrite <- Nl. apply load32_ext. intros x Hx. apply Nc1. unfold LZ_length in Hx. lia.
  - intros n H1 H2 H3 s2 Hum. apply (unmapped_cons s s1 s2 d a n l); auto. lia.
Qed.

Lemma page_skip s s2 d a n l : 0 <= a -> a mod 4096 = 0 -> a + 4096 <= two32 ->
  present (pte_of (km_mem s) d a) = false -> unmapped s s2 d (a + 4096) n l -> unmapped s s2 d a (S n) l.
Proof.
  intros H1 H2 H3 Hp Hum. apply (unmapped_skip s s2 d a 1 n); [| exact H1 | lia | exact Hum].
  intros va Hva. rewrite <- Hp. f_equal. symmetry. apply same_page_pte. rewrite <- in_pages_1; auto.
Qed.

Lemma wunmap_drop_spec n : forall fuel s t addr i d l len,
  (n < fuel)%nat -> drop_env s d t len l -> 0 <= i -> i mod 4096 = 0 -> 4096 <= addr -> addr mod 4096 = 0 ->
  0 < len -> addr + len <= KERNBASE -> npages i len = n ->
  (forall va, addr <= va < addr + len -> present (pde_of (km_mem s) d (PDX va)) = true) ->
  exists s', wunmap_drop fuel t addr i s = Ok tt s' /\ unmapped s s' d (addr + i) n l.
Proof.
  induction n as [|n IH]; intros fuel s t addr i d l len Hf Hde Hi Him Ha Ham Hlen Hk Hn Htab;
    (destruct fuel as [|fuel]; [lia|]); cbn [wunmap_drop]; pose proof Hde as [F0 D U Pr Pg Nf Nu Nl];
    destruct (npages_bounds _ _ _ Hn) as [Hend Hlast]; unfold KERNBASE in *;
    assert (Kt : KERNBASE <= t) by (apply page_kernbase; apply Nf);
    rewrite (bind_ok _ _ _ _ _ (ldf_ok t _ s Kt)), Nl, s32_small by (unfold two31; lia).
  - rewrite (proj2 (Z.ltb_ge _ _)) by lia. cbn [negb]. exists s. auto using unmapped_0.
  - rewrite (proj2 (Z.ltb_lt _ _)) by lia. cbn [negb].
    rewrite (bind_ok _ _ _ _ _ (eq_refl : rd32 (pr + P_pgdir) s = Ok _ s)), Pg.
    set (a := addr + i) in *. rewrite (u32_small a) by (unfold two32; lia).
    assert (Ea : a mod 4096 = 0 /\ a + 4096 <= 2147483648) by (subst a; word_lia).
    rewrite (bind_ok _ _ _ _ _ (walkpgdir_lookup d a s)).
    assert (Hpd : present (pde_of (km_mem s) d (PDX a)) = true) by (apply Htab; lia).
    rewrite (proj2 (Z.eqb_neq _ _)) by (eapply walk_nonzero; eauto).
    rewrite (bind_ok _ _ _ _ _ (eq_refl : rd32 _ s = _)).
    assert (Hld : load32 (km_mem s) (walk (km_mem s) d a) = pte_of (km_mem s) d a) by (unfold pte_of; now rewrite Hpd).
    rewrite Hld. fold (present (pte_of (km_mem s) d a)). fold (frame_of (km_mem s) d a).
    rewrite (s32_small (i + 4096)) by (unfold two31; lia).
    assert (Hn' : npages (i + 4096) len = n) by (unfold npages in *; word_lia).
    destruct (present (pte_of (km_mem s) d a)) eqn:Ep.
    + destruct (drop_page s d t len l a Hde ltac:(unfold KERNBASE; lia) Ep) as (s1 & Hrun & Hde1 & Hpde1 & Hcons).
      rewrite (bind_ok _ _ _ _ _ Hrun).
      destruct (IH fuel s1 t addr (i + 4096) d (frame_of (km_mem s) d a :: l) len) as (s2 & Hrun2 & Hum);
        auto; try lia; [word_lia | intros va Hva; pose proof (PDX_range va); rewrite Hpde1 by auto; auto |].
      replace (addr + (i + 4096)) with (a + 4096) in * by (subst a; lia).
      exists s2. split; [exact Hrun2|]. apply Hcons; auto; unfold two32; lia.
    + rewrite (bind_ok _ _ _ _ _ (eq_refl : ret tt s = _)).
      destruct (IH fuel s t addr (i + 4096) d l len) as (s2 & Hrun2 & Hum);
        auto; try lia; [word_lia|].
      replace (addr + (i + 4096)) with (a + 4096) in * by (subst a; lia).
      exists s2. split; [exact Hrun2|]. apply page_skip; auto; unfold two32; lia.
Qed.

Lemma drop_env_after s s' d t len l a n : drop_env s d t len l -> 0 <= a -> a + 4096 * Z.of_nat n <= KERNBASE ->
  unmapped s s' d a n l -> drop_env s' d t len (rev (frames (km_mem s) d a n) ++ l).
Proof.
  intros [F0 D U Pr Pg Nf Nu Nl] Ha Hb [F1 D1 U1 Hpde Hpte Hfor Hlow].
  assert (Hni : t ∉ frames (km_mem s) d a n)
    by (intros (va & Hva & Hp & E)%frames_elem; apply (Nu va); auto; lia).
  destruct (Hfor t Nf Hni) as [Nf1 Nc1]. constructor; auto.
  - rewrite (proc_load (km_mem s) (km_mem s')) by (auto; unfold P_pgdir, P_size; lia). exact Pg.
  - intros va Hva. unfold frame_of. rewrite Hpte. destruct (_ && _); [discriminate|]. now apply Nu.
  - rewrite <- Nl. apply load32_ext. intros x Hx. apply Nc1. unfold LZ_length in Hx. lia.
Qed.

Lemma arrays_at i : proc_ok pr -> 0 <= i < 32 ->
  va_at i = pr + P_va + 4 * i /\ pa_at i = pr + P_pa + 4 * i.
Proof.
  intros [H1 H2] Hi. pose proof end_high. unfold KERNBASE, P_size in *.
  unfold va_at, pa_at, P_va, P_pa. rewrite !u32_small by (unfold two32; lia). auto.
Qed.

(** A store into one of the arrays. *)
Lemma array_store s l a v : kmem_wf s l -> proc_ok pr -> pr + P_va <= a -> a + 4 <= pr + P_head ->
  exists s', wr32 a v s = Ok tt s' /\ kmem_wf s' l /\ arrays_only (km_mem s) (km_mem s').
Proof.
  intros F0 Pr H1 H2. eexists. split; [reflexivity|]. cbn [km_mem set_mem]. split.
  - apply kmem_wf_store; [exact F0|]. intros p Hp.
    pose proof (proc_apart s l pr (a - pr) F0 Pr) as Hap. unfold P_va, P_head, P_size in *.
    specialize (Hap ltac:(lia) ltac:(lia) p Hp). lia.
  - intros x Hx. apply store32_frame. lia.
Qed.

Lemma arrays_trans m1 m2 m3 : arrays_only m1 m2 -> arrays_only m2 m3 -> arrays_only m1 m3.
Proof. intros H1 H2 x Hx. rewrite H2, H1; auto. Qed.

Lemma arrays_n m m' : arrays_only m m' -> load32 m' (pr + P_n_upages) = load32 m (pr + P_n_upages).
Proof. intros Hm. apply load32_ext. intros x Hx. apply Hm. unfold P_va, P_n_upages in *. lia. Qed.

Lemma wunmap_book_spec k : forall fuel s t i rc n l,
  (k < fuel)%nat -> kmem_wf s l -> proc_ok pr -> page_ok t ->
  load32 (km_mem s) (pr + P_n_upages) = n -> 0 <= i <= 32 -> n <= 32 -> Z.of_nat k = Z.max 0 (n - i) -> 1 <= rc <= i + 1 ->
  exists rc' s', wunmap_book fuel t i rc s = Ok rc' s' /\ kmem_wf s' l /\ arrays_only (km_mem s) (km_mem s') /\
    rc <= rc' <= rc + Z.of_nat k.
Proof.
  induction k as [|k IH]; intros fuel s t i rc n l Hf F0 Pr Ht En Hi Hn Hk Hrc;
    (destruct fuel as [|fuel]; [lia|]); cbn [wunmap_book];
    rewrite (bind_ok _ _ _ _ _ (eq_refl : rd32 (pr + P_n_upages) s = Ok _ s)), En.
  - rewrite (u32_small i), (proj2 (Z.ltb_ge _ _)) by (unfold two32; lia). exists rc, s. split_and!; auto; [intros x _; auto | lia | lia].
  - rewrite (u32_small i) by (unfold two32; lia). rewrite (proj2 (Z.ltb_lt _ _)) by lia. cbn [negb].
    rewrite (bind_ok _ _ _ _ _ (ldf_ok t _ s (page_kernbase t Ht))).
    rewrite (bind_ok _ _ _ _ _ (eq_refl : rd32 (va_at i) s = Ok _ s)).
    destruct (load32 (km_mem s) (t + LZ_addr) =? load32 (km_mem s) (va_at i)).
    + rewrite (bind_ok _ _ _ _ _ (eq_refl : rd32 (pr + P_n_upages) s = Ok _ s)), En.
      rewrite (bind_ok _ _ _ _ _ (eq_refl : rd32 (va_at (n - rc)) s = Ok _ s)).
      destruct (arrays_at i Pr ltac:(lia)) as [Eva Epa]. destruct (arrays_at (n - rc) Pr ltac:(lia)) as [Eva' Epa'].
      destruct (array_store s l (va_at i) (load32 (km_mem s) (va_at (n - rc))) F0 Pr) as (s1 & Hr1 & F1 & A1);
        [rewrite Eva; unfold P_va, P_pa, P_head; lia .. |].
      rewrite (bind_ok _ _ _ _ _ Hr1), (bind_ok _ _ _ _ _ (eq_refl : rd32 (pr + P_n_upages) s1 = Ok _ s1)).
      rewrite (arrays_n _ _ A1), En, (bind_ok _ _ _ _ _ (eq_refl : rd32 (pa_at (n - rc)) s1 = Ok _ s1)).
      destruct (array_store s1 l (pa_at i) (load32 (km_mem s1) (pa_at (n - rc))) F1 Pr) as (s2 & Hr2 & F2 & A2);
        [rewrite Epa; unfold P_va, P_pa, P_head; lia .. |].
      rewrite (bind_ok _ _ _ _ _ Hr2), (bind_ok _ _ _ _ _ (eq_refl : rd32 (pr + P_n_upages) s2 = Ok _ s2)).
      pose proof (arrays_trans _ _ _ A1 A2) as A12. rewrite (arrays_n _ _ A12), En.
      destruct (array_store s2 l (va_at (n - rc)) (-1) F2 Pr) as (s3 & Hr3 & F3 & A3);
        [rewrite Eva'; unfold P_va, P_pa, P_head; lia .. |].
      rewrite (bind_ok _ _ _ _ _ Hr3), (bind_ok _ _ _ _ _ (eq_refl : rd32 (pr + P_n_upages) s3 = Ok _ s3)).
      pose proof (arrays_trans _ _ _ A12 A3) as A123. rewrite (arrays_n _ _ A123), En.
      destruct (array_store s3 l (pa_at (n - rc)) (-1) F3 Pr) as (s4 & Hr4 & F4 & A4);
        [rewrite Epa'; unfold P_va, P_pa, P_head; lia .. |].
      rewrite (bind_ok _ _ _ _ _ Hr4). pose proof (arrays_trans _ _ _ A123 A4) as A1234.
      destruct (IH fuel s4 t (i + 1) (rc + 1) n l) as (rc' & s' & Hrun & F' & A' & Hb); auto; try lia.
      { now rewrite (arrays_n _ _ A1234). }
      exists rc', s'. split_and!; auto; [eapply arrays_trans; eauto | lia | lia].
    + destruct (IH fuel s t (i + 1) rc n l) as (rc' & s' & Hrun & F' & A' & Hb); auto; try lia.
      exists rc', s'. split_and!; auto; lia.
Qed.

Lemma lift_ok {A} (m : M kmem A) (k k' : kmem) (fs : F) a : m k = Ok a k' -> lift m (k, fs) = Ok a (k', fs).
Proof. intros Hm. unfold lift, zoom. cbn [fst snd]. now rewrite Hm. Qed.

Lemma wunmap_rest_spec fuel s fs d t r l :
  drop_env s d t (rg_length r) l -> node_region (km_mem s) t = r -> droppable (km_mem s) d r ->
  load32 (km_mem s) (pr + P_n_upages) <= 32 -> (npages 0 (rg_length r) < fuel)%nat -> (32 < fuel)%nat ->
  let n := npages 0 (rg_length r) in
  let l' := t :: rev (frames (km_mem s) d (rg_addr r) n) ++ l in
  exists s', wunmap_rest fuel t (rg_addr r) (s, fs) = Ok 0 (s', fs) /\
    kmem_wf s' l' /\ pgdir_wf (km_mem s') d l' /\ user_wf (km_mem s') d l' /\
    (forall va, pte_of (km_mem s') d va =
       if in_pages (rg_addr r) n va && present (pte_of (km_mem s) d va) then 0 else pte_of (km_mem s) d va) /\
    (forall q, foreign (km_mem s) d l q -> unframed (km_mem s) d q -> q <> t ->
       foreign (km_mem s') d l' q /\ unframed (km_mem s') d q /\ (forall x, q <= x < q + 4096 -> km_mem s' x = km_mem s x)) /\
    (forall x, x < sym_end -> x < pr + P_n_upages \/ pr + P_head <= x -> km_mem s' x = km_mem s x).
Proof.
  intros Hde Hr [Dp Da Dal Dl Dend Dtab] Hnup Hf Hf32 n l'. pose proof Hde as [F0 D U Pr Pg Nf Nu Nl].
  assert (Kt : KERNBASE <= t) by (apply page_kernbase; apply Nf).
  assert (Hfd : load32 (km_mem s) (t + LZ_fd) = rg_fd r) by now rewrite <- Hr.
  assert (Hsh : load32 (km_mem s) (t + LZ_shared) = rg_shared r) by now rewrite <- Hr.
  unfold wunmap_rest. do 2 rewrite (bind_ok _ _ _ _ _ (lift_ok _ _ _ fs _ (ldf_ok t _ s Kt))). rewrite Hfd, Hsh, Dp.
  destruct (wunmap_drop_spec n fuel s t (rg_addr r) 0 d l (rg_length r)) as (s1 & Hrun1 & Hum); auto; try lia.
  rewrite Z.add_0_r in Hum. rewrite (bind_ok _ _ _ _ _ (lift_ok _ _ _ fs _ Hrun1)).
  set (l1 := rev (frames (km_mem s) d (rg_addr r) n) ++ l) in *.
  assert (Hend : rg_addr r + 4096 * Z.of_nat n <= KERNBASE) by (unfold n, npages, KERNBASE in *; word_lia).
  destruct (drop_env_after s s1 d t (rg_length r) l (rg_addr r) n Hde ltac:(lia) Hend Hum) as [F1 D1 U1 _ Pg1 Nf1 Nu1 Nl1].
  fold l1 in F1, D1, U1, Nf1. pose proof Hum as [_ _ _ Hpde Hpte Hfor Hlow].
  set (k := Z.to_nat (load32 (km_mem s) (pr + P_n_upages))).
  assert (En1 : load32 (km_mem s1) (pr + P_n_upages) = load32 (km_mem s) (pr + P_n_upages))
    by (apply proc_load; auto; unfold P_n_upages, P_size; lia).
  pose proof (load32_bound (km_mem s) (pr + P_n_upages) ltac:(apply F0)) as Hnb.
  destruct (wunmap_book_spec k fuel s1 t 0 1 (load32 (km_mem s) (pr + P_n_upages)) l1) as (rc & s2 & Hrun2 & F2 & A2 & _);
    auto; try (unfold k; lia); [apply Nf|].
  rewrite (bind_ok _ _ _ _ _ (lift_ok _ _ _ fs _ Hrun2)).
  rewrite (bind_ok _ _ _ _ _ (lift_ok _ _ _ fs _ (eq_refl : rd32 (pr + P_n_upages) s2 = Ok _ s2))).
  set (nn := load32 (km_mem s2) (pr + P_n_upages) - (rc + 1)).
  set (s3 := set_mem (store32 (km_mem s2) (pr + P_n_upages) nn) s2).
  rewrite (bind_ok _ _ _ _ _ (lift_ok _ s2 s3 fs _ (eq_refl : wr32 (pr + P_n_upages) nn s2 = Ok _ _))).
  assert (Hse : pr + P_size <= sym_end) by apply Pr.
  assert (F3 : kmem_wf s3 l1).
  { apply kmem_wf_store; [exact F2|]. eapply proc_apart; eauto; unfold P_n_upages, P_size; lia. }
  assert (H3 : forall x, x < pr + P_n_upages \/ pr + P_head <= x -> km_mem s3 x = km_mem s1 x).
  { intros x Hx. cbn [s3 km_mem set_mem]. unfold P_n_upages, P_head, P_va in *.
    rewrite store32_frame by lia. apply A2. unfold P_va, P_head. lia. }
  assert (Hds : dir_same (km_mem s1) (km_mem s3) d)
    by (apply (dir_same_low _ _ d l1 D1); intros x Hx; apply H3; unfold P_head, P_size in *; lia).
  destruct (dir_same_wf _ _ d l1 Hds D1 U1) as (D3 & U3 & Hf3 & Hu3).
  destruct (kfree_foreign s3 d l1 t F3 D3 (Hf3 t Nf1)) as (s4 & Hrun4 & F4 & D4 & Hpde4 & Hpte4 & Hout4 & Hlow4).
  rewrite (bind_ok _ _ _ _ _ (lift_ok _ _ _ fs _ Hrun4)). exists s4. split; [reflexivity|].
  assert (Hpte' : forall va, pte_of (km_mem s4) d va =
       if in_pages (rg_addr r) n va && present (pte_of (km_mem s) d va) then 0 else pte_of (km_mem s) d va).
  { intros va. rewrite Hpte4, (proj2 Hds). apply Hpte. }
  assert (Hsub : forall va, 0 <= va < KERNBASE -> present (pte_of (km_mem s4) d va) = true ->
            pte_of (km_mem s4) d va = pte_of (km_mem s) d va).
  { intros va Hva. rewrite Hpte'. destruct (_ && _); [discriminate | auto]. }
  assert (Hpush : forall q, foreign (km_mem s3) d l1 q -> q <> t -> foreign (km_mem s4) d l' q).
  { intros q (Hq1 & Hq2 & Hq3 & Hq4) Hqt. split_and!; auto; [now apply not_elem_of_cons|].
    intros i Hi. unfold pt_of. rewrite Hpde4 by exact Hi. now apply Hq4. }
  split_and!; auto.
  - apply (user_wf_sub (km_mem s3) _ _ l1); [exact U3|]. intros va Hva. rewrite Hpte4. intros Hp.
    split; [reflexivity|]. apply Hpush; [now apply U3 | now apply (Hu3 t Nu1)].
  - intros q Hq Hqu Hqt.
    assert (Hqf : q ∉ frames (km_mem s) d (rg_addr r) n)
      by (intros (va & Hva & Hp & E)%frames_elem; apply (Hqu va); auto; lia).
    destruct (Hfor q Hq Hqf) as [Hq1 C1]. pose proof Hq as (Hqok & _). split_and!.
    + apply Hpush; auto.
    + intros va Hva Hp. pose proof (Hsub va Hva Hp) as E. unfold frame_of. rewrite E in *. now apply Hqu.
    + intros x Hx. rewrite (Hout4 q), H3, C1; auto. destruct Hqok as (_ & ? & _). unfold P_head, P_size in *. lia.
  - intros x Hx Hx'. now rewrite Hlow4, H3, Hlow.
Qed.

Lemma wunmap_node_rest fuel t addr s fs s1 : wunmap_unlink t s = Ok tt s1 ->
  wunmap_node fuel t addr (s, fs) = wunmap_rest fuel t addr (s1, fs).
Proof. intros Hu. unfold wunmap_node. now rewrite (bind_ok _ _ _ _ _ (lift_ok _ _ _ fs _ Hu)). Qed.

(** The search stops at the first node with the address. *)
Lemma wunmap_loop_find ns1' : forall fuel lim s fs ns1 t r ns2 l addr,
  lazy_wf s pr (ns1 ++ ns1' ++ (t, r) :: ns2) l -> (length ns1' < fuel)%nat ->
  Forall (fun n => rg_addr (snd n) <> addr) ns1' -> rg_addr r = addr ->
  let p := match ns1' with [] => t | (t', _) :: _ => t' end in
  wunmap_loop fuel lim p addr (s, fs) = wunmap_node lim t addr (s, fs).
Proof.
  induction ns1' as [|[t' r'] ns1' IH]; intros fuel lim s fs ns1 t r ns2 l addr Hlw Hf Hne Hr p;
    (destruct fuel as [|fuel]; [cbn in Hf; lia|]); cbn [wunmap_loop]; subst p.
  - destruct (lazy_cursor s pr ns1 t r ns2 l Hlw) as (Kt & T0 & Ead & _). rewrite T0.
    rewrite (bind_ok _ _ _ _ _ (lift_ok _ _ _ fs _ (ldf_ok t _ s Kt))), Ead, Hr, Z.eqb_refl. reflexivity.
  - cbn [app] in Hlw. destruct (lazy_cursor s pr ns1 t' r' _ l Hlw) as (Kt & T0 & Ead & _ & Enx). rewrite T0.
    inversion Hne as [|?? Hne1 Hne2]. subst. cbn [snd] in Hne1.
    rewrite (bind_ok _ _ _ _ _ (lift_ok _ _ _ fs _ (ldf_ok t' _ s Kt))), Ead, (proj2 (Z.eqb_neq _ _)) by exact Hne1.
    rewrite (bind_ok _ _ _ _ _ (lift_ok _ _ _ fs _ (ldf_ok t' _ s Kt))). fold (node_next (km_mem s) t'). rewrite Enx.
    specialize (IH fuel lim s fs (ns1 ++ [(t', r')]) t r ns2 l (rg_addr r)). rewrite <- app_assoc in IH. cbn [app] in IH.
    cbn [length] in Hf. specialize (IH Hlw ltac:(lia) Hne2 eq_refl). cbv zeta in IH. rewrite <- IH.
    destruct ns1' as [|[t1 r1] ns1']; reflexivity.
Qed.

Lemma wspace_env s d ns l t r : wspace s d ns l -> (t, r) ∈ ns -> drop_env s d t (rg_length r) l.
Proof.
  intros [Lw Pg D U Nd] Hin. pose proof Lw as [F0 Pr L _ _ _].
  assert (Ht : t ∈ map fst ns) by (apply list_elem_of_fmap; exists (t, r); auto).
  destruct (Nd t Ht) as [Nf Nu]. constructor; auto.
  apply list_elem_of_split in Hin as (ns1 & ns2 & ->). now apply (lazy_cursor s pr ns1 t r ns2 l).
Qed.

(** The guard and the search together. *)
Lemma sys_wunmap_find fuel lim s fs ns1 t r ns2 l :
  lazy_wf s pr (ns1 ++ (t, r) :: ns2) l -> MMAPBASE <= rg_addr r < KERNBASE ->
  Forall (fun n => rg_addr (snd n) <> rg_addr r) ns1 -> (length ns1 < fuel)%nat ->
  sys_wunmap fuel lim (rg_addr r) (s, fs) = wunmap_node lim t (rg_addr r) (s, fs).
Proof.
  intros Lw Hmm Hfirst Hf. unfold sys_wunmap. unfold MMAPBASE, KERNBASE in *.
  rewrite (proj2 (Z.ltb_ge (rg_addr r) _)), (proj2 (Z.ltb_ge _ (rg_addr r))) by lia. cbn [orb].
  rewrite (bind_ok _ _ _ _ _ (lift_ok _ _ _ fs _ (eq_refl : rd32 (pr + P_head) s = Ok _ s))), (lazy_head s pr _ _ Lw).
  rewrite (u32_small (rg_addr r)) by (unfold two32; lia).
  rewrite <- (wunmap_loop_find ns1 fuel lim s fs [] t r ns2 l (rg_addr r) Lw Hf Hfirst eq_refl).
  destruct ns1 as [|[? ?] ?]; reflexivity.
Qed.

(** The region leaves through [wunmap_rest] whatever the unlinking wrote, as
    long as it kept to link fields of nodes. *)
Lemma wunmap_unlinked lim s fs s1 d ns t r l :
  wspace s d ns l -> (t, r) ∈ ns -> wunmap_unlink t s = Ok tt s1 -> kmem_wf s1 l ->
  dir_same (km_mem s) (km_mem s1) d -> (forall x, x < sym_end -> km_mem s1 x = km_mem s x) ->
  node_region (km_mem s1) t = r -> droppable (km_mem s) d r ->
  load32 (km_mem s) (pr + P_n_upages) <= 32 -> (npages 0 (rg_length r) < lim)%nat -> (32 < lim)%nat ->
  let n := npages 0 (rg_length r) in
  let l' := t :: rev (frames (km_mem s) d (rg_addr r) n) ++ l in
  exists s', wunmap_node lim t (rg_addr r) (s, fs) = Ok 0 (s', fs) /\
    kmem_wf s' l' /\ pgdir_wf (km_mem s') d l' /\ user_wf (km_mem s') d l' /\
    (forall va, pte_of (km_mem s') d va =
       if in_pages (rg_addr r) n va && present (pte_of (km_mem s) d va) then 0 else pte_of (km_mem s) d va) /\
    (forall q, q ∈ map fst ns -> q <> t -> foreign (km_mem s') d l' q /\ unframed (km_mem s') d q /\
       (forall x, q <= x < q + 4096 -> km_mem s' x = km_mem s1 x)) /\
    (forall x, x < sym_end -> x < pr + P_n_upages \/ pr + P_head <= x -> km_mem s' x = km_mem s x).
Proof.
  intros Hws Hin Hun F1 Hds Hlow Hr1 Hdr Hnup Hf2 Hf3 n l'. pose proof (wspace_env s d ns l t r Hws Hin) as [F0 D U Pr Pg Nf Nu Nl].
  destruct (dir_same_wf _ _ d l Hds D U) as (D1 & U1 & Hfor & Hunf). destruct Hds as [Hpde Hpte].
  assert (Hfr : frames (km_mem s1) d (rg_addr r) n = frames (km_mem s) d (rg_addr r) n)
    by (apply frames_ext; intros; apply Hpte).
  rewrite (wunmap_node_rest _ _ _ _ _ _ Hun).
  destruct (wunmap_rest_spec lim s1 fs d t r l) as (s' & Hrun & F' & D' & U' & Hpte' & Hfor' & Hlow'); auto.
  - constructor; auto; [|now rewrite <- Hr1].
    rewrite (proc_load (km_mem s) (km_mem s1)) by (auto; unfold P_pgdir, P_size; lia). exact Pg.
  - destruct Hdr. constructor; auto. intros va Hva. pose proof (PDX_range va). rewrite Hpde by auto. auto.
  - rewrite (proc_load (km_mem s) (km_mem s1)) by (auto; unfold P_n_upages, P_size; lia). exact Hnup.
  - fold n in F', D', U', Hpte', Hfor'. rewrite Hfr in *. exists s'. split_and!; auto.
    + intros va. rewrite Hpte', Hpte. reflexivity.
    + intros q Hq Hqt. destruct (ws_nodes _ _ _ _ Hws q Hq). apply Hfor'; auto.
    + intros x Hx Hx'. rewrite Hlow'; auto.
Qed.

(** Two link stores leave the directory and low memory alone. *)
Lemma link_stores m d l y x v1 v2 : pgdir_wf m d l -> user_wf m d l -> foreign m d l y -> foreign m d l x ->
  let m1 := store32 (store32 m (y + LZ_next) v1) (x + LZ_prev) v2 in
  dir_same m m1 d /\ (forall z, z < sym_end -> m1 z = m z).
Proof.
  intros D U Hyf Hxf m1.
  assert (Hds1 : dir_same m (store32 m (y + LZ_next) v1) d)
    by (apply (dir_same_store _ _ l); auto; unfold LZ_next; lia).
  destruct (dir_same_wf _ _ d l Hds1 D U) as (D1 & U1 & Hfor & _).
  assert (Hds2 : dir_same (store32 m (y + LZ_next) v1) m1 d)
    by (apply (dir_same_store _ _ l); auto; unfold LZ_prev; lia).
  destruct Hds1 as [A1 B1], Hds2 as [A2 B2]. split.
  - split; [intros i Hi; now rewrite A2, A1 | intros va; now rewrite B2, B1].
  - intros z Hz. destruct Hyf as ((_ & ? & _) & _), Hxf as ((_ & ? & _) & _). unfold m1.
    rewrite !store32_frame by (unfold LZ_prev, LZ_next; lia). reflexivity.
Qed.

Lemma elem_mid {A} (t : A) xs ys z : z ∈ xs ++ ys -> z ∈ xs ++ t :: ys.
Proof. rewrite !elem_of_app, elem_of_cons. tauto. Qed.

(** Unlinking the first node when another follows only clears that one's
    [prev]. *)
Lemma unlink_first s t r x rx ns l : lazy_wf s pr ((t, r) :: (x, rx) :: ns) l ->
  let m' := store32 (km_mem s) (x + LZ_prev) 0 in
  wunmap_unlink t s = Ok tt (set_mem m' s) /\ kmem_wf (set_mem m' s) l /\ node_region m' t = r.
Proof.
  intros [F0 Pr L Pg Nd Us] m'. rewrite Forall_forall in Pg. cbn [map fst] in *.
  assert (Htok : page_ok t) by (apply Pg, elem_of_cons; auto).
  assert (Hxin : x ∈ t :: x :: map fst ns) by (apply elem_of_cons; right; apply elem_of_cons; auto).
  assert (Hxok : page_ok x) by now apply Pg.
  pose proof (page_kernbase t Htok) as Kt. pose proof (page_kernbase x Hxok) as Kx.
  cbn [dseg] in L. destruct L as (_ & Hr & Hp & Hnx & _). split_and!.
  - unfold wunmap_unlink. do 2 rewrite (bind_ok _ _ _ _ _ (ldf_ok t _ s Kt)).
    fold (node_prev (km_mem s) t) (node_next (km_mem s) t). rewrite Hp, Hnx.
    rewrite (proj2 (truth_true x)) by now apply page_ok_nonzero. cbn [andb]. change (truth 0) with false. cbv iota.
    cbn [andb]. rewrite (bind_ok _ _ _ _ _ (ldf_ok t _ s Kt)). fold (node_prev (km_mem s) t). rewrite Hp.
    now rewrite (stf_ok x _ _ _ Kx).
  - apply node_store_wf; auto; unfold LZ_prev; lia.
  - unfold m'. node_rw. exact Hr.
Qed.

(** The page loop meets a page without a page table. *)
Lemma wunmap_drop_null s t addr len d l fuel : drop_env s d t len l -> 0 < len < two31 -> 0 <= addr < two32 ->
  present (pde_of (km_mem s) d (PDX addr)) = false -> (0 < fuel)%nat ->
  wunmap_drop fuel t addr 0 s = Fault "sys_wunmap: null pte".
Proof.
  intros [F0 D U Pr Pg Nf Nu Nl] Hlen Ha Hp Hf. destruct fuel as [|fuel]; [lia|]. cbn [wunmap_drop].
  assert (Kt : KERNBASE <= t) by (apply page_kernbase; apply Nf).
  rewrite (bind_ok _ _ _ _ _ (ldf_ok t _ s Kt)), Nl, s32_small by (unfold two31 in *; lia).
  rewrite (proj2 (Z.ltb_lt _ _)) by lia. cbn [negb].
  rewrite (bind_ok _ _ _ _ _ (eq_refl : rd32 (pr + P_pgdir) s = Ok _ s)), Pg, Z.add_0_r, u32_small by exact Ha.
  rewrite (bind_ok _ _ _ _ _ (walkpgdir_lookup d addr s)). unfold walk. rewrite Hp. reflexivity.
Qed.

(** One page of [exit]'s loop, present in the directory. *)
Lemma exit_drop_page s d t r l fuel ns : wspace s d ns l -> (t, r) ∈ ns -> 0 < rg_length r <= 4096 -> 0 <= rg_addr r < KERNBASE ->
  present (pte_of (km_mem s) d (rg_addr r)) = true -> (1 < fuel)%nat ->
  let f := frame_of (km_mem s) d (rg_addr r) in
  exists s', exit_drop fuel t 0 s = Ok tt s' /\ kmem_wf s' (f :: l) /\
    (forall va, pte_of (km_mem s') d va = pte_of (km_mem s) d va) /\
    (forall q, q ∈ map fst ns -> forall x, q <= x < q + 4096 -> km_mem s' x = km_mem s x) /\
    (forall x, x < sym_end -> km_mem s' x = km_mem s x).
Proof.
  intros Hws Hin Hlen Ha Hp Hf f. pose proof (wspace_env _ _ _ _ _ _ Hws Hin) as [F0 D U Pr Pg Nf Nu Nl].
  destruct fuel as [|[|fuel]]; [lia|lia|]. cbn [exit_drop].
  assert (Kt : KERNBASE <= t) by (apply page_kernbase; apply Nf).
  assert (Hadr : load32 (km_mem s) (t + LZ_addr) = rg_addr r)
    by (apply list_elem_of_split in Hin as (n1 & n2 & ->); now destruct (lazy_cursor s pr n1 t r n2 l (ws_lazy _ _ _ _ Hws)) as (_ & _ & ? & _)).
  rewrite (bind_ok _ _ _ _ _ (ldf_ok t _ s Kt)), Nl, s32_small by (unfold two31; lia).
  rewrite (proj2 (Z.ltb_lt _ _)) by lia. cbn [negb].
  rewrite (bind_ok _ _ _ _ _ (eq_refl : rd32 (pr + P_pgdir) s = Ok _ s)), Pg.
  rewrite (bind_ok _ _ _ _ _ (ldf_ok t _ s Kt)), Hadr, Z.add_0_r, u32_small by (unfold KERNBASE, two32 in *; lia).
  rewrite (bind_ok _ _ _ _ _ (walkpgdir_lookup d (rg_addr r) s)).
  assert (Hpd : present (pde_of (km_mem s) d (PDX (rg_addr r))) = true)
    by (unfold pte_of in Hp; destruct (present (pde_of _ _ _)); [reflexivity | discriminate]).
  rewrite (proj2 (Z.eqb_neq _ _)) by (eapply walk_nonzero; eauto).
  rewrite (bind_ok _ _ _ _ _ (eq_refl : rd32 _ s = _)).
  assert (Hld : load32 (km_mem s) (walk (km_mem s) d (rg_addr r)) = pte_of (km_mem s) d (rg_addr r))
    by (unfold pte_of; now rewrite Hpd). rewrite Hld. fold (frame_of (km_mem s) d (rg_addr r)). fold f.
  destruct (kfree_foreign s d l f F0 D (uw_frame _ _ _ U _ Ha Hp)) as (s1 & Hrun & F1 & D1 & _ & Hpte & Hout & Hlow).
  rewrite (bind_ok _ _ _ _ _ Hrun). rewrite s32_small by (unfold two31; lia).
  assert (Hnodes : forall q, q ∈ map fst ns -> forall x, q <= x < q + 4096 -> km_mem s1 x = km_mem s x).
  { intros q Hq. destruct (ws_nodes _ _ _ _ Hws q Hq) as [[Hqok _] Hqu]. apply Hout; [exact Hqok|].
    intros ->. now apply (Hqu (rg_addr r)). }
  rewrite (bind_ok _ _ _ _ _ (ldf_ok t _ s1 Kt)).
  assert (Ht : t ∈ map fst ns) by (apply list_elem_of_fmap; exists (t, r); auto).
  replace (load32 (km_mem s1) (t + LZ_length)) with (rg_length r)
    by (symmetry; rewrite <- Nl; apply load32_ext; intros x Hx; apply (Hnodes t Ht); unfold LZ_length in Hx; lia).
  rewrite s32_small by (unfold two31; lia). rewrite (proj2 (Z.ltb_ge _ _)) by lia. exists s1. split_and!; auto.
Qed.

(** The loop over nodes of length 0 touches nothing. *)
Lemma exit_loop_empty es : forall fuel lim s1 s ns1 l,
  lazy_wf s pr (ns1 ++ es) l -> Forall (fun n => rg_length (snd n) = 0) es ->
  (forall q, q ∈ map fst es -> forall x, q <= x < q + 4096 -> km_mem s1 x = km_mem s x) ->
  (length es < fuel)%nat -> (0 < lim)%nat ->
  let p := match es with [] => 0 | (t, _) :: _ => t end in exit_unmap_loop fuel lim p p s1 = Ok tt s1.
Proof.
  induction es as [|[e re] es IH]; intros fuel lim s1 s ns1 l Lw Hre Hs Hf Hl p; subst p;
    (destruct fuel as [|fuel]; [cbn in Hf; lia|]); cbn [exit_unmap_loop]; [reflexivity|].
  destruct (lazy_cursor s pr ns1 e re es l Lw) as (Ke & E0 & _ & El & Enx). rewrite E0.
  inversion Hre as [|?? Hre1 Hre2]. subst. cbn [snd] in Hre1.
  assert (He : forall off, 0 <= off -> off + 4 <= 4096 -> load32 (km_mem s1) (e + off) = load32 (km_mem s) (e + off)).
  { intros off H1 H2. apply load32_ext. intros x Hx. apply (Hs e); [cbn; apply elem_of_cons; auto | lia]. }
  rewrite (bind_ok _ _ _ _ _ (ldf_ok e _ s1 Ke)), He by (unfold LZ_next; lia).
  fold (node_next (km_mem s) e). rewrite Enx.
  assert (Hd : exit_drop lim e 0 s1 = Ok tt s1).
  { destruct lim as [|lim]; [lia|]. cbn [exit_drop]. rewrite (bind_ok _ _ _ _ _ (ldf_ok e _ s1 Ke)).
    rewrite He, El, Hre1 by (unfold LZ_length; lia). reflexivity. }
  rewrite (bind_ok _ _ _ _ _ Hd). cbn [length] in Hf. apply (IH fuel lim s1 s (ns1 ++ [(e, re)]) l); auto; try lia.
  - now rewrite <- app_assoc.
  - intros q Hq. apply Hs. cbn [map fst]. apply elem_of_cons. auto.
Qed.

End Wunmap.

(** ** Properties *)

(** Processes at [sample_proc] with three nodes and the page at 0x60001000
    mapped, beside [n] free pages.  [Three] has three mappings, the page in the
    middle one; in [Single] the first is the page and the others are empty; in
    [Untouched] the middle one has no page table; in [Filed] the first maps the
    file open as descriptor 0. *)
Inductive sample_kind := Three | Single | Untouched | Filed.

Definition anon (a len : Z) : region := mkRegion (u32 (-1)) a len 0 1 0.

Definition sample_region (b : sample_kind) (i : nat) : region :=
  match b, i with
  | Three, 0%nat => anon 0x60000000 4096
  | Three, 1%nat => anon 0x60001000 8192
  | Three, 2%nat => anon 0x60004000 4096
  | Single, 0%nat => anon 0x60001000 4096
  | Untouched, 0%nat => anon 0x60000000 4096
  | Untouched, 1%nat => anon 0x60400000 4096
  | Untouched, 2%nat => anon 0x60800000 4096
  | Filed, 0%nat => mkRegion 0 0x60000000 4096 0 1 0
  | _, _ => mkRegion (u32 (-1)) 0 0 0 0 0
  end.

Definition sample_regions (b : sample_kind) : list (Z * region) :=
  [(0x80220000, sample_region b 0); (0x80221000, sample_region b 1); (0x80222000, sample_region b 2)].

Definition node_words (t : Z) (r : region) (next prev : Z) : list (Z * Z) :=
  [(t + LZ_fd, rg_fd r); (t + LZ_addr, rg_addr r); (t + LZ_length, rg_length r); (t + LZ_used, rg_used r);
   (t + LZ_next, next); (t + LZ_prev, prev)].

Definition sample_words (b : sample_kind) : list (Z * Z) :=
  node_words 0x80220000 (sample_region b 0) 0x80221000 0 ++
  node_words 0x80221000 (sample_region b 1) 0x80222000 0x80220000 ++
  node_words 0x80222000 (sample_region b 2) 0 0x80221000 ++
  [(sample_proc + P_pgdir, 0x80210000); (sample_proc + P_ofile, 0x80111000); (sample_proc + P_head, 0x80220000);
   (sample_proc + P_tail, 0x80222000); (0x80210600, 0x00230007); (0x80230004, 0x00240007)].

Definition stores (m : mem) (ws : list (Z * Z)) : mem := fold_left (fun m w => store32 m (fst w) (snd w)) ws m.

Definition sample_wspace (b : sample_kind) (n : nat) : kmem := set_mem (stores (pool_mem n) (sample_words b)) (sample_pool n).

Lemma stores_out ws : forall m x, Forall (fun w => fst w + 4 <= x \/ x + 4 <= fst w) ws ->
  load32 (stores m ws) x = load32 m x.
Proof.
  induction ws as [|[a v] ws IH]; intros m x Hw; [reflexivity|]. inversion Hw as [|?? H1 H2]. subst.
  cbn [stores fold_left]. fold (stores (store32 m (fst (a, v)) (snd (a, v))) ws). rewrite IH by exact H2.
  cbn [fst snd] in *. apply load32_store32_ne. lia.
Qed.

Lemma stores_ok ws : forall m, mem_ok m -> mem_ok (stores m ws).
Proof. induction ws as [|[a v] ws IH]; intros m Hm; [exact Hm|]. apply IH, mem_ok_store32, Hm. Qed.

Lemma stores_frame ws x : forall m, Forall (fun w => fst w + 4 <= x \/ x < fst w) ws -> stores m ws x = m x.
Proof.
  induction ws as [|[a v] ws IH]; intros m Hw; [reflexivity|]. inversion Hw as [|?? H1 H2]. subst.
  cbn [stores fold_left]. fold (stores (store32 m (fst (a, v)) (snd (a, v))) ws). rewrite IH by exact H2.
  cbn [fst snd] in *. apply store32_frame. lia.
Qed.

(** Away from the words stored the sample memory reads 0. *)
Lemma sample_zero b n x : x + 4 <= pool_base -> Forall (fun w => fst w + 4 <= x \/ x + 4 <= fst w) (sample_words b) ->
  load32 (km_mem (sample_wspace b n)) x = 0.
Proof.
  intros Hp Hx. cbn [sample_wspace km_mem set_mem]. rewrite stores_out by exact Hx.
  unfold load32. now rewrite !pool_mem_out by lia.
Qed.

Ltac sample_away :=
  cbn [sample_words node_words app]; unfold LZ_fd, LZ_addr, LZ_length, LZ_used, LZ_next, LZ_prev, sample_proc, P_pgdir, P_ofile, P_head, P_tail;
  repeat (apply Forall_cons; split; [cbn [fst]; lia|]); apply Forall_nil; exact I.

Lemma sample_pde b n i : 0 <= i < 1024 ->
  pde_of (km_mem (sample_wspace b n)) 0x80210000 i = if i =? 384 then 0x00230007 else 0.
Proof.
  intros Hi. unfold pde_of. case_bool; [subst i; destruct b; vm_compute; reflexivity|].
  apply sample_zero; [unfold pool_base; lia|]. sample_away.
Qed.

Lemma sample_pte b n va :
  pte_of (km_mem (sample_wspace b n)) 0x80210000 va = if (PDX va =? 384) && (PTX va =? 1) then 0x00240007 else 0.
Proof.
  pose proof (PDX_range va). pose proof (PTX_range va). unfold pte_of, walk, pt_of. rewrite sample_pde by lia.
  destruct (PDX va =? 384); cbn [andb]; [|reflexivity]. change (present 0x00230007) with true. cbv iota.
  change (P2V (PTE_ADDR 0x00230007)) with 0x80230000.
  case_bool; [replace (PTX va) with 1 by lia; destruct b; vm_compute; reflexivity|]. apply sample_zero; [unfold pool_base; lia|]. sample_away.
Qed.

Lemma below_pool n t : t < pool_base -> t ∉ pages_from pool_base n.
Proof. intros Ht [Hb _]%pages_from_elem. lia. Qed.

Lemma sample_pages b n t : t ∈ [0x80220000; 0x80221000; 0x80222000; 0x80240000] ->
  @foreign sample_linker (km_mem (sample_wspace b n)) 0x80210000 (pages_from pool_base n) t.
Proof.
  intros Ht. assert (Hc : t = 0x80220000 \/ t = 0x80221000 \/ t = 0x80222000 \/ t = 0x80240000)
    by (rewrite !elem_of_cons in Ht; destruct Ht as [|[|[|[|Ht%not_elem_of_nil]]]]; auto; contradiction).
  split_and!.
  - unfold page_ok; cbn; unfold KERNBASE, PHYSTOP. destruct Hc as [->|[->|[->| ->]]]; word_lia.
  - apply below_pool. unfold pool_base. lia.
  - lia.
  - intros i Hi Hp E. unfold pt_of in E. rewrite sample_pde in * by exact Hi. destruct (i =? 384); [|discriminate].
    change (P2V (PTE_ADDR 0x00230007)) with 0x80230000 in E. lia.
Qed.

Lemma sample_nodes t : t ∈ [0x80220000; 0x80221000; 0x80222000] -> t ∈ [0x80220000; 0x80221000; 0x80222000; 0x80240000].
Proof. rewrite !elem_of_cons. tauto. Qed.

Lemma sample_wspace_wf b n : (n <= 4096)%nat ->
  @wspace sample_linker sample_proc (sample_wspace b n) 0x80210000 (sample_regions b) (pages_from pool_base n).
Proof.
  intros Hn. pose proof (sample_pool_wf n Hn) as Fp.
  assert (F : @kmem_wf sample_linker (sample_wspace b n) (pages_from pool_base n)).
  { apply (@kmem_wf_set_mem sample_linker); [exact Fp | apply stores_ok, Fp|].
    intros p x [Hp _]%pages_from_elem Hx. apply stores_frame. unfold pool_base in *. sample_away. }
  assert (P : forall va, present (pte_of (km_mem (sample_wspace b n)) 0x80210000 va) = true ->
     PDX va = 384 /\ PTX va = 1 /\ frame_of (km_mem (sample_wspace b n)) 0x80210000 va = 0x80240000).
  { intros va Hp. unfold frame_of. rewrite sample_pte in *.
    destruct (Z.eqb_spec (PDX va) 384), (Z.eqb_spec (PTX va) 1); try discriminate. auto. }
  constructor.
  - constructor; auto.
    + split; cbn; unfold sample_proc, KERNBASE, P_size; lia.
    + destruct b; repeat (split; [vm_compute; reflexivity|]); vm_compute; auto.
    + apply Forall_forall. intros t Ht. now apply (sample_pages b n), sample_nodes.
    + cbn. repeat (apply NoDup_cons; split; [rewrite !elem_of_cons, elem_of_nil; lia|]). apply NoDup_singleton.
    + intros t Ht. now apply (sample_pages b n), sample_nodes.
  - destruct b; vm_compute; reflexivity.
  - constructor; [apply (sample_page 16); lia | apply below_pool; unfold pool_base; lia | |].
    + intros i Hi Hp. unfold pt_of. rewrite sample_pde in * by exact Hi. destruct (i =? 384); [|discriminate].
      change (P2V (PTE_ADDR 0x00230007)) with (0x80200000 + 48 * 4096).
      split_and!; [apply sample_page; lia | lia | apply below_pool; unfold pool_base; lia].
    + intros i j Hi Hj Hpi Hpj _. rewrite sample_pde in * by assumption.
      destruct (Z.eqb_spec i 384), (Z.eqb_spec j 384); try discriminate. lia.
  - constructor.
    + intros va _ (_ & _ & ->)%P. apply (sample_pages b n). rewrite !elem_of_cons. tauto.
    + intros va va' H1 H2 (E1 & E2 & _)%P (E3 & E4 & _)%P _. apply same_page_spec. lia.
  - change (map fst (sample_regions b)) with [0x80220000; 0x80221000; 0x80222000]. intros t Ht. split.
    + now apply (sample_pages b n), sample_nodes.
    + intros va _ (_ & _ & E)%P Et. rewrite E in Et. subst t. rewrite !elem_of_cons, elem_of_nil in Ht. lia.
Qed.

Section Properties.
Context `{LKOK : LinkerOk} {F : Type} `{FL : FileLayer F}.



(** Removing the first region while another follows leaves [head] pointing
    at the node.  [sys_wunmap] returns 0 with the node's page at the front of
    the free list, so the list of the process starts in free memory and the
    next [kalloc] hands the page out. *)
Theorem wunmap_head_dangles (pr : Z) fuel lim s (fs : F) d t r x rx ns l :
  wspace pr s d ((t, r) :: (x, rx) :: ns) l -> MMAPBASE <= rg_addr r ->
  droppable (km_mem s) d r -> load32 (km_mem s) (pr + P_n_upages) <= 32 ->
  (0 < fuel)%nat -> (npages 0 (rg_length r) < lim)%nat -> (32 < lim)%nat ->
  exists s' l', sys_wunmap pr fuel lim (rg_addr r) (s, fs) = Ok 0 (s', fs) /\
    load32 (km_mem s') (pr + P_head) = t /\ kmem_wf s' (t :: l') /\ exists s'', kalloc s' = Ok t s''.
Proof.
  intros Hws Hmm Hdr Hnup Hf1 Hf2 Hf3. pose proof Hws as [Lw Pg D U Nd]. pose proof Lw as [F0 Pr L _ _ _].
  rewrite (sys_wunmap_find pr fuel lim s fs [] t r ((x, rx) :: ns) l Lw); auto;
    [|destruct Hdr; unfold KERNBASE in *; lia].
  destruct (unlink_first pr s t r x rx ns l Lw) as (Hun & F1 & Hr1).
  assert (Hxf : foreign (km_mem s) d l x) by (apply Nd; cbn; apply elem_of_cons; right; apply elem_of_cons; auto).
  destruct (wunmap_unlinked pr lim s fs (set_mem (store32 (km_mem s) (x + LZ_prev) 0) s) d _ t r l Hws)
    as (s' & Hrun & F' & _ & _ & _ & _ & Hlow); auto.
  - apply elem_of_cons. auto.
  - apply (dir_same_store _ _ l); auto; unfold LZ_prev; lia.
  - intros z Hz. destruct Hxf as ((_ & ? & _) & _). apply store32_frame. unfold LZ_prev. lia.
  - exists s', (rev (frames (km_mem s) d (rg_addr r) (npages 0 (rg_length r))) ++ l). split_and!; auto.
    + destruct L as (<- & _). destruct Pr as [_ Hp]. apply load32_ext. intros z Hz.
      apply Hlow; unfold P_head, P_size, P_n_upages in *; lia.
    + eexists. apply (kalloc_pop s' t _ F').
Qed.

(** A region no page of which was ever touched has no page table entry for
    [sys_wunmap] to look at: the null pointer [walkpgdir] returns is
    dereferenced. *)
Theorem wunmap_untouched_faults (pr : Z) fuel lim s (fs : F) d ns1 t r ns2 l :
  wspace pr s d (ns1 ++ (t, r) :: ns2) l -> ns1 <> [] -> ns2 <> [] ->
  MMAPBASE <= rg_addr r < KERNBASE -> Forall (fun n => rg_addr (snd n) <> rg_addr r) ns1 ->
  (s32 (rg_fd r) =? -1) || (rg_shared r =? 0) = true -> 0 < rg_length r < two31 ->
  present (pde_of (km_mem s) d (PDX (rg_addr r))) = false -> (length ns1 < fuel)%nat -> (0 < lim)%nat ->
  sys_wunmap pr fuel lim (rg_addr r) (s, fs) = Fault "sys_wunmap: null pte".
Proof.
  intros Hws Hne1 Hne2 Hmm Hfirst Hpriv Hlen Hpde Hf1 Hf2. pose proof Hws as [Lw Pg D U Nd].
  pose proof Lw as [F0 Pr L _ _ _].
  rewrite (sys_wunmap_find pr fuel lim s fs ns1 t r ns2 l Lw) by auto.
  destruct (unlink_mid pr s ns1 t r ns2 l Lw Hne1 Hne2) as (y & x & Hy & Hx & Hrun1 & F1 & Hr1 & L1).
  set (m1 := store32 (store32 (km_mem s) (y + LZ_next) x) (x + LZ_prev) y) in *.
  rewrite map_app in Nd. cbn [map fst] in Nd.
  destruct (link_stores (km_mem s) d l y x x y D U) as [Hds Hlow];
    [apply Nd, elem_of_app; auto | apply Nd, elem_of_app; right; apply elem_of_cons; auto |]. fold m1 in Hds, Hlow.
  destruct (dir_same_wf _ _ d l Hds D U) as (D1 & U1 & Hfor & Hunf).
  destruct (Nd t) as [Nf Nu]; [apply elem_of_app; right; apply elem_of_cons; auto|].
  rewrite (wunmap_node_rest _ _ _ _ _ _ _ Hrun1). unfold wunmap_rest.
  assert (Kt : KERNBASE <= t) by (apply page_kernbase; apply Nf).
  do 2 rewrite (bind_ok _ _ _ _ _ (lift_ok _ _ _ fs _ (ldf_ok t _ (set_mem m1 s) Kt))). cbn [km_mem set_mem].
  replace (load32 m1 (t + LZ_fd)) with (rg_fd r) by now rewrite <- Hr1.
  replace (load32 m1 (t + LZ_shared)) with (rg_shared r) by now rewrite <- Hr1. rewrite Hpriv.
  unfold bind at 1. unfold lift, zoom. cbn [fst snd].
  rewrite (wunmap_drop_null pr (set_mem m1 s) t (rg_addr r) (rg_length r) d l); auto.
  - constructor; auto; [|now rewrite <- Hr1].
    cbn [km_mem set_mem]. rewrite (proc_load (km_mem s) m1) by (auto; unfold P_pgdir, P_size; lia). exact Pg.
  - unfold MMAPBASE, KERNBASE, two32 in *. lia.
  - cbn [km_mem set_mem]. destruct Hds as [E _]. pose proof (PDX_range (rg_addr r)). now rewrite E.
Qed.

(** [exit] frees the frame behind a mapping but leaves the page-table entry:
    for a process with one touched one-page region it returns with the frame on
    the free list and still mapped, so the [freevm] of [wait] will free it a
    second time. *)
Theorem exit_unmap_leaves_entries (pr : Z) fuel lim s d t r es l :
  wspace pr s d ((t, r) :: es) l -> Forall (fun n => rg_length (snd n) = 0) es ->
  0 < rg_length r <= 4096 -> 0 <= rg_addr r < KERNBASE ->
  present (pte_of (km_mem s) d (rg_addr r)) = true -> (S (length es) < fuel)%nat -> (1 < lim)%nat ->
  exists s' l', exit_unmap pr fuel lim s = Ok tt s' /\ kmem_wf s' l' /\
    present (pte_of (km_mem s') d (rg_addr r)) = true /\ frame_of (km_mem s') d (rg_addr r) ∈ l'.
Proof.
  intros Hws Hre Hlen Ha Hp Hf Hf2. pose proof Hws as [Lw Pg D U Nd].
  destruct (exit_drop_page pr s d t r l lim _ Hws ltac:(apply elem_of_cons; auto) Hlen Ha Hp Hf2)
    as (s1 & Hrun & F1 & Hpte & Hnodes & Hlow).
  destruct (lazy_cursor s pr [] t r es l Lw) as (Kt & T0 & _ & _ & Enx).
  destruct fuel as [|fuel]; [lia|]. unfold exit_unmap.
  do 2 rewrite (bind_ok _ _ _ _ _ (eq_refl : rd32 (pr + P_head) s = Ok _ s)). rewrite (lazy_head s pr _ _ Lw).
  cbn [exit_unmap_loop]. rewrite T0. rewrite (bind_ok _ _ _ _ _ (ldf_ok t _ s Kt)).
  fold (node_next (km_mem s) t). rewrite Enx. rewrite (bind_ok _ _ _ _ _ Hrun).
  rewrite (exit_loop_empty pr es fuel lim s1) with (s := s) (ns1 := [(t, r)]) (l := l); auto; try lia.
  - exists s1, (frame_of (km_mem s) d (rg_addr r) :: l).
    split_and!; auto; unfold frame_of; rewrite Hpte; [exact Hp | apply elem_of_cons; auto].
  - intros q Hq. apply Hnodes. cbn [map fst]. apply elem_of_cons. auto.
Qed.

End Properties.

(** A file layer that answers every call with an error. *)
#[global] Instance no_files : FileLayer unit := {| fileread := fun _ _ _ => ret (-1); filewrite := fun _ _ _ => ret (-1) |}.

Lemma sample_droppable i : (i < 2)%nat -> droppable (km_mem (sample_wspace Three 0)) 0x80210000 (sample_region Three i).
Proof.
  intros Hi. destruct i as [|[|]]; [| |lia]; constructor; try reflexivity; cbn [rg_addr rg_length sample_region anon];
    try (unfold KERNBASE; lia); intros va Hva; pose proof (PDX_range va); rewrite sample_pde by lia; rewrite PDX_eq;
    rewrite u32_small by (unfold two32; lia); case_bool; try reflexivity; word_lia.
Qed.


Lemma wunmap_head_dangles_witness : exists s' l',
  @sys_wunmap sample_linker unit no_files sample_proc 9 99 0x60000000 (sample_wspace Three 0, tt) = Ok 0 (s', tt) /\
  load32 (km_mem s') (sample_proc + P_head) = 0x80220000 /\ @kmem_wf sample_linker s' (0x80220000 :: l').
Proof.
  destruct (@wunmap_head_dangles sample_linker sample_linker_ok unit no_files sample_proc 9 99 (sample_wspace Three 0) tt 0x80210000
    0x80220000 (sample_region Three 0) 0x80221000 (sample_region Three 1) [(0x80222000, sample_region Three 2)] [])
    as (s' & l' & Hrun & Hh & Hk & _).
  - exact (sample_wspace_wf Three 0 (Nat.le_0_l _)).
  - apply Z.leb_le. reflexivity.
  - apply sample_droppable. lia.
  - vm_compute. discriminate.
  - lia.
  - apply Nat.ltb_lt. reflexivity.
  - lia.
  - exists s', l'. split_and!; [exact Hrun | exact Hh | exact Hk].
Defined.

Lemma wunmap_untouched_faults_witness :
  @sys_wunmap sample_linker unit no_files sample_proc 9 99 0x60400000 (sample_wspace Untouched 0, tt) = Fault "sys_wunmap: null pte".
Proof.
  apply (@wunmap_untouched_faults sample_linker sample_linker_ok unit no_files sample_proc 9 99 (sample_wspace Untouched 0) tt 0x80210000
    [(0x80220000, sample_region Untouched 0)] 0x80221000 (sample_region Untouched 1) [(0x80222000, sample_region Untouched 2)] []).
  - exact (sample_wspace_wf Untouched 0 (Nat.le_0_l _)).
  - discriminate.
  - discriminate.
  - cbn. unfold MMAPBASE, KERNBASE. lia.
  - constructor; [cbn; lia | constructor].
  - reflexivity.
  - cbn. unfold two31. lia.
  - vm_compute. reflexivity.
  - cbn. lia.
  - lia.
Defined.

Lemma exit_unmap_leaves_entries_witness : exists s' l',
  @exit_unmap sample_linker sample_proc 9 99 (sample_wspace Single 0) = Ok tt s' /\ @kmem_wf sample_linker s' l' /\
  present (pte_of (km_mem s') 0x80210000 0x60001000) = true /\ frame_of (km_mem s') 0x80210000 0x60001000 ∈ l'.
Proof.
  apply (@exit_unmap_leaves_entries sample_linker sample_linker_ok sample_proc 9 99 (sample_wspace Single 0) 0x80210000
    0x80220000 (sample_region Single 0) [(0x80221000, sample_region Single 1); (0x80222000, sample_region Single 2)] []).
  - exact (sample_wspace_wf Single 0 (Nat.le_0_l _)).
  - repeat constructor.
  - cbn. lia.
  - cbn. unfold KERNBASE. lia.
  - vm_compute. reflexivity.
  - cbn. lia.
  - lia.
Defined.
