(* ===== verification/Pgfault.v ===== *)
(** The page fault handler (case [T_PGFLT] of [trap] in
    [src/xv6/xv6-public/trap.c]) and the two system calls that report mappings,
    [sys_getpgdirinfo] and [sys_getwmapinfo] of [src/xv6/xv6-public/sysproc.c].

    A fault on an absent page ([err & 1] clear) is served from the first region
    of the process's list that covers the address: a fresh page, filled from the
    file of the region unless it is anonymous, is mapped there.  A fault on a
    present page (a write to a page [forkuvm] made read-only) copies the page of
    a private region and only sets [PTE_W] for a shared one. *)

From S2P Require Import Prelude Mem Mmu Spinlock Kalloc PageTable Uvm Lazy FileApi Wunmap.

Section Pgfault.
Context `{LK : Linker} {F : Type} `{FL : FileLayer F}.

(** [pr] is [myproc()]. *)
Variable pr : Z.

(** [fault >= temp->addr && fault <= end]. *)
Definition covers (addr length va : Z) : bool :=
  let last := u32 (addr + length - 1) in
  (addr <=? va) && (va <=? last).

(** [err & 1]: the loop over all nodes; [lcr3] reloads the same directory. *)
Definition pgflt_cow_node (temp va : Z) : M kmem unit :=
  pgdir <- rd32 (pr + P_pgdir) ;;
  pte <- walkpgdir pgdir va false ;;
  if pte =? 0 then fault "trap: null pte" else
  v <- rd32 pte ;;
  let flags := Z.lor (PTE_FLAGS v) PTE_W in
  let buf := P2V (PTE_ADDR v) in
  sh <- ldf temp LZ_shared ;;
  if sh =? 0 then
    mem <- kalloc ;;
    if mem <? KERNBASE then fault "bad pointer" else
    memmove_k mem buf PGSIZE ;;;
    wr32 pte (Z.lor (V2P mem) flags)
  else
    wr32 pte (Z.lor (PTE_ADDR v) flags).

Fixpoint pgflt_cow (fuel : nat) (temp va : Z) : M kmem unit :=
  match fuel with
  | O => nofuel
  | S k =>
      if temp =? 0 then ret tt else
      a <- ldf temp LZ_addr ;;
      len <- ldf temp LZ_length ;;
      (if covers a len va then pgflt_cow_node temp va else ret tt) ;;;
      next <- ldf temp LZ_next ;;
      pgflt_cow k next va
  end.

(** The node of an absent page. *)
Definition pgflt_lazy_node (temp va : Z) : M (kmem * F) unit :=
  np <- lift (ldf temp LZ_numPages) ;;
  lift (stf temp LZ_numPages (np + 1)) ;;;
  mem <- lift kalloc ;;
  if mem <? KERNBASE then fault "bad pointer" else
  lift (memset_k mem 0 PGSIZE) ;;;
  a <- lift (ldf temp LZ_addr) ;;
  n <- lift (rd32 (pr + P_n_upages)) ;;
  lift (wr32 (pr + P_n_upages) (n + 1)) ;;;
  lift (wr32 (va_at pr n) a) ;;;
  n <- lift (rd32 (pr + P_n_upages)) ;;
  lift (wr32 (pa_at pr (n - 1)) (V2P mem)) ;;;
  fd <- lift (ldf temp LZ_fd) ;;
  (if s32 fd =? -1 then ret tt
   else
     f <- lift (rd32 (u32 (pr + P_ofile + 4 * s32 fd))) ;;
     a <- lift (ldf temp LZ_addr) ;;
     lift (stf f F_off (u32 (va - a))) ;;;
     fileread f mem PGSIZE ;;;
     ret tt) ;;;
  pgdir <- lift (rd32 (pr + P_pgdir)) ;;
  lift (mappages pgdir va PGSIZE (V2P mem) (Z.lor PTE_W PTE_U)) ;;;
  ret tt.

(** The search; the result is [found]. *)
Fixpoint pgflt_lazy (fuel : nat) (temp va : Z) : M (kmem * F) bool :=
  match fuel with
  | O => nofuel
  | S k =>
      if temp =? 0 then ret false else
      a <- lift (ldf temp LZ_addr) ;;
      len <- lift (ldf temp LZ_length) ;;
      if covers a len va then pgflt_lazy_node temp va ;;; ret true
      else
        next <- lift (ldf temp LZ_next) ;;
        pgflt_lazy k next va
  end.

(** The whole case; [false] means the process is sent to [exit] after
    "Segmentation Fault". *)
Definition pgflt (fuel : nat) (err cr2 : Z) : M (kmem * F) bool :=
  temp <- lift (rd32 (pr + P_head)) ;;
  let va := PGROUNDDOWN cr2 in
  if truth (Z.land err 1) then lift (pgflt_cow fuel temp va) ;;; ret true
  else pgflt_lazy fuel temp va.

(** ** Reporting *)

(** The two loops of [sys_getpgdirinfo]; the result is [count] and the entries
    stored into [va], [pa]. *)
Fixpoint pgtab_scan (n : nat) (m : mem) (pgtab i j : Z) (acc : list (Z * Z)) : list (Z * Z) :=
  match n with
  | O => acc
  | S n =>
      let pte := load32 m (pgtab + 4 * j) in
      let acc := if truth (Z.land pte PTE_P) && truth (Z.land pte PTE_U) && (Z.of_nat (length acc) <? 32)
                 then acc ++ [(PGADDR i j 0, PTE_ADDR pte)] else acc in
      pgtab_scan n m pgtab i (j + 1) acc
  end.

Fixpoint pgdir_scan (n : nat) (m : mem) (pgdir i : Z) (acc : list (Z * Z)) : list (Z * Z) :=
  match n with
  | O => acc
  | S n =>
      let pde := load32 m (pgdir + 4 * i) in
      let acc := if truth (Z.land pde PTE_P)
                 then pgtab_scan (Z.to_nat NPTENTRIES) m (P2V (PTE_ADDR pde)) i 0 acc else acc in
      pgdir_scan n m pgdir (i + 1) acc
  end.

Definition sys_getpgdirinfo : M kmem (list (Z * Z)) :=
  pgdir <- rd32 (pr + P_pgdir) ;;
  gets (fun s => pgdir_scan (Z.to_nat NPDENTRIES) (km_mem s) pgdir 0 []).

(** [sys_getwmapinfo] writes a [struct wmapinfo] in the process's memory [u];
    [total_mmaps] is at offset 0, the three arrays of 16 follow. *)
Fixpoint getwmapinfo_loop (fuel : nat) (temp wminfo count : Z) : M (kmem * mem) unit :=
  match fuel with
  | O => nofuel
  | S k =>
      if temp =? 0 then ret tt else
      used <- lift (ldf temp LZ_used) ;;
      if negb (s32 used =? 1) then ret tt else
      let count := count + 1 in
      a <- lift (ldf temp LZ_addr) ;;
      modify (fun s => (fst s, store32 (snd s) (u32 (wminfo + 4 + 4 * (count - 1))) a)) ;;;
      len <- lift (ldf temp LZ_length) ;;
      modify (fun s => (fst s, store32 (snd s) (u32 (wminfo + 68 + 4 * (count - 1))) len)) ;;;
      np <- lift (ldf temp LZ_numPages) ;;
      modify (fun s => (fst s, store32 (snd s) (u32 (wminfo + 132 + 4 * (count - 1))) np)) ;;;
      modify (fun s => (fst s, store32 (snd s) (u32 wminfo) (load32 (snd s) (u32 wminfo) + 1))) ;;;
      next <- lift (ldf temp LZ_next) ;;
      getwmapinfo_loop k next wminfo count
  end.

Definition sys_getwmapinfo (fuel : nat) (addr : Z) : M (kmem * mem) Z :=
  temp <- lift (rd32 (pr + P_head)) ;;
  getwmapinfo_loop fuel temp (u32 addr) 0 ;;;
  ret 0.

(** ** Lemmas *)

Context {LKOK : LinkerOk}.

(** The parts of the state a step may change when it keeps list and address
    space: everything but the nodes and the fields of the process outside the
    [va]/[pa] tables. *)
Lemma wspace_step s s' d ns l l' : wspace pr s d ns l ->
  kmem_wf s' l' -> pgdir_wf (km_mem s') d l' -> user_wf (km_mem s') d l' ->
  (forall q, q ∈ map fst ns -> foreign (km_mem s') d l' q /\ unframed (km_mem s') d q /\
     forall x, q <= x < q + 4096 -> km_mem s' x = km_mem s x) ->
  (forall x, pr <= x < pr + P_size -> x < pr + P_n_upages \/ pr + P_head <= x -> km_mem s' x = km_mem s x) ->
  wspace pr s' d ns l'.
Proof.
  intros [[F0 Pr L Pgs Nd Us] Pg D U Nn] F1 D1 U1 Hn Hlow.
  assert (Hfld : forall off, 0 <= off -> off + 4 <= P_n_upages \/ P_head <= off -> off + 4 <= P_size ->
            load32 (km_mem s') (pr + off) = load32 (km_mem s) (pr + off)).
  { intros off H1 H2 H3. destruct Pr as [_ Hp]. apply load32_ext. intros z Hz. apply Hlow; unfold P_n_upages, P_head in *; lia. }
  constructor; auto.
  - constructor; auto.
    + rewrite !Hfld by (unfold P_n_upages, P_head, P_tail, P_size; lia). apply (dseg_frame (km_mem s)); [|exact L].
      intros q Hq. apply node_ext. intros z Hz. apply (Hn q Hq). unfold LZ_size in *. lia.
    + intros q Hq. apply (Hn q Hq).
  - rewrite Hfld by (unfold P_n_upages, P_pgdir, P_size; lia). exact Pg.
  - intros q Hq. destruct (Hn q Hq) as (? & ? & _). auto.
Qed.

(** A store into the tables of the process. *)
Lemma wspace_table s d ns l a v : wspace pr s d ns l -> pr + P_n_upages <= a -> a + 4 <= pr + P_head ->
  wspace pr (set_mem (store32 (km_mem s) a v) s) d ns l.
Proof.
  intros Hws H1 H2. pose proof Hws as [[F0 Pr L Pgs Nd Us] Pg D U Nn]. pose proof Pr as [_ Hend].
  set (m' := store32 (km_mem s) a v).
  assert (Hhi : forall x, sym_end <= x -> m' x = km_mem s x)
    by (intros x Hx; apply store32_frame; unfold P_head, P_size in *; lia).
  destruct (dir_same_wf _ _ d l (dir_same_low _ _ d l D Hhi) D U) as (D1 & U1 & Hf & Hu).
  apply (wspace_step s _ d ns l l Hws); auto.
  - apply kmem_wf_store; [exact F0|]. intros p Hp. destruct F0 as (_ & _ & Hok & _). rewrite Forall_forall in Hok.
    destruct (Hok p Hp) as (_ & ? & _). unfold P_head, P_size in *. lia.
  - intros q Hq. destruct (Nn q Hq) as [Hqf Hqu]. split_and!; auto.
    intros x Hx. apply Hhi. destruct Hqf as ((_ & ? & _) & _). lia.
  - intros x _ Hx. apply store32_frame. lia.
Qed.

Definition bump (r : region) : region :=
  mkRegion (rg_fd r) (rg_addr r) (rg_length r) (rg_shared r) (rg_used r) (u32 (rg_pages r + 1)).

(** A field of node [t] after a store to a field of [t]. *)
Ltac fld :=
  rewrite fld_store by (assumption || (unfold LZ_fd, LZ_addr, LZ_length, LZ_shared, LZ_used, LZ_numPages, LZ_next, LZ_prev; lia));
  rewrite Z.eqb_refl; reflexivity.

(** [temp->numPages++]. *)
Lemma wspace_bump s d ns1 t r ns2 l : wspace pr s d (ns1 ++ (t, r) :: ns2) l ->
  let m' := store32 (km_mem s) (t + LZ_numPages) (rg_pages r + 1) in
  wspace pr (set_mem m' s) d (ns1 ++ (t, bump r) :: ns2) l /\ dir_same (km_mem s) m' d.
Proof.
  intros Hws m'. pose proof Hws as [[F0 Pr L Pgs Nd Us] Pg D U Nn].
  assert (Em : map fst (ns1 ++ (t, bump r) :: ns2) = map fst (ns1 ++ (t, r) :: ns2)) by now rewrite !map_app.
  assert (Ht : t ∈ map fst (ns1 ++ (t, r) :: ns2)) by (rewrite map_app; apply elem_of_app; right; apply elem_of_cons; auto).
  destruct (Nn t Ht) as [Htf _]. pose proof Htf as (Htok & _).
  assert (Hds : dir_same (km_mem s) m' d) by (apply (dir_same_store _ _ l); auto; unfold LZ_numPages; lia).
  destruct (dir_same_wf _ _ d l Hds D U) as (D1 & U1 & Hf & Hu). split; [|exact Hds].
  assert (Hlow : forall x, x < sym_end -> m' x = km_mem s x)
    by (intros x Hx; destruct Htok as (_ & ? & _); apply store32_frame; unfold LZ_numPages; lia).
  assert (F1 : kmem_wf (set_mem m' s) l) by (apply node_store_wf; auto; unfold LZ_numPages; lia).
  assert (Hnode : forall q, page_ok q -> q <> t -> forall off, 0 <= off -> off + 4 <= 4096 ->
            load32 m' (q + off) = load32 (km_mem s) (q + off)).
  { intros q Hq Hne off H1 H2. unfold m'. rewrite fld_store by (auto; unfold LZ_numPages; lia).
    now rewrite (proj2 (Z.eqb_neq t q)) by auto. }
  assert (Hsame : forall q, q ∈ map fst (ns1 ++ (t, r) :: ns2) -> q <> t -> node_region m' q = node_region (km_mem s) q /\
            node_prev m' q = node_prev (km_mem s) q /\ node_next m' q = node_next (km_mem s) q).
  { intros q Hq Hne. rewrite Forall_forall in Pgs. specialize (Pgs q Hq). unfold node_region, node_prev, node_next,
      LZ_fd, LZ_addr, LZ_length, LZ_shared, LZ_used, LZ_numPages, LZ_next, LZ_prev.
    split_and!; [f_equal | |]; apply Hnode; auto; lia. }
  assert (Hnd := Nd). rewrite map_app in Hnd. apply NoDup_app in Hnd as (_ & Hdis & [Ht2 _]%NoDup_cons).
  constructor; auto; rewrite ?Em; auto.
  - constructor; rewrite ?Em; auto. cbn [km_mem set_mem].
    rewrite !(proc_load (km_mem s) m') by (auto; unfold P_head, P_tail, P_size; lia).
    apply dseg_app in L as (y & n & L1 & L2). apply dseg_app. exists y, n. split.
    + apply (dseg_frame (km_mem s)); [|exact L1]. intros q Hq. apply Hsame; [rewrite map_app; apply elem_of_app; auto|].
      intros ->. apply (Hdis t Hq), elem_of_cons. auto.
    + destruct L2 as (-> & Hr & Hp & L2).
      assert (Et : node_prev m' t = node_prev (km_mem s) t /\ node_next m' t = node_next (km_mem s) t)
        by (unfold node_prev, node_next, m'; split; fld). destruct Et as [Ep En].
      cbn [dseg]. rewrite Ep, En. split_and!; auto.
      * rewrite <- Hr. unfold node_region, bump. cbn [rg_fd rg_addr rg_length rg_shared rg_used rg_pages].
        unfold m'. rewrite <- Hr. unfold node_region. cbn [rg_pages]. f_equal; fld.
      * apply (dseg_frame (km_mem s)); [|exact L2]. intros q Hq.
        apply Hsame; [rewrite map_app; apply elem_of_app; right; apply elem_of_cons; auto | intros ->; contradiction].
  - rewrite <- Pg. cbn [km_mem set_mem]. apply proc_load; auto; unfold P_pgdir, P_size; lia.
  - intros q Hq. destruct (Nn q Hq). auto.
Qed.

(** A page that is allocated, zeroed or filled, and not yet mapped. *)
Definition fresh_page (s : kmem) (d : Z) (l : list Z) (p : Z) : Prop :=
  foreign (km_mem s) d l p /\ unframed (km_mem s) d p.

(** [kalloc] and [memset(mem, 0, PGSIZE)]. *)
Lemma wspace_alloc s d ns p l : wspace pr s d ns (p :: l) ->
  exists s1, kalloc s = Ok p (set_freelist (load32 (km_mem s) p) s) /\
    memset_k p 0 PGSIZE (set_freelist (load32 (km_mem s) p) s) = Ok tt s1 /\
    wspace pr s1 d ns l /\ fresh_page s1 d l p /\ (forall x, p <= x < p + 4096 -> km_mem s1 x = 0) /\
    (forall va, pte_of (km_mem s1) d va = pte_of (km_mem s) d va) /\
    absent (km_mem s1) d = absent (km_mem s) d /\ (forall x, x < sym_end -> km_mem s1 x = km_mem s x).
Proof.
  intros Hws. pose proof Hws as [[F0 Pr L Pgs Nd Us] Pg D U Nn].
  destruct (alloc_user s d p l F0 D U) as (s1 & Hrun & [F1 D1 U1 _ Hpte _ Hfor _ _ _ Hlow] & Hpf & Habs & Hfresh & Hz).
  specialize (fun va => Hpte va (in_pages_0 0 va)). exists s1.
  split; [apply (kalloc_pop s p l F0)|]. split; [exact Hrun|]. split; [|split_and!; auto; split; auto].
  apply (wspace_step s s1 d ns (p :: l) l Hws); auto; [|intros x Hx _; apply Hlow; destruct Pr; lia]. intros q Hq. destruct (Nn q Hq) as [Hqf Hqu].
  destruct (Hfor q Hqf) as [Hqf1 Hqc]. split_and!; auto. intros va Hva. unfold frame_of. rewrite Hpte. now apply Hqu.
Qed.

(** Mapping the fresh page. *)
Lemma wspace_map s d ns l p a : wspace pr s d ns l -> fresh_page s d l p -> (p ∉ map fst ns) ->
  0 <= a < KERNBASE -> a mod 4096 = 0 -> present (pte_of (km_mem s) d a) = false ->
  exists r s' l', mappages d a PGSIZE (V2P p) (Z.lor PTE_W PTE_U) s = Ok r s' /\ wspace pr s' d ns l' /\
    (forall x, p <= x < p + 4096 -> km_mem s' x = km_mem s x) /\ (forall x, x < sym_end -> km_mem s' x = km_mem s x) /\
    (forall c, (c + absent (km_mem s) d <= length l -> c + absent (km_mem s') d <= length l')%nat) /\
    ((r = 0 /\ forall va, pte_of (km_mem s') d va = if same_page a va then V2P p + 7 else pte_of (km_mem s) d va) \/
     (r = -1 /\ l' = [] /\ (length l < absent (km_mem s) d)%nat /\ fresh_page s' d l' p /\
      forall va, pte_of (km_mem s') d va = pte_of (km_mem s) d va)).
Proof.
  intros Hws [Hpf Hpu] Hpn Ha Hal Hnp. pose proof Hws as [[F0 Pr L Pgs Nd Us] Pg D U Nn].
  pose proof Hpf as (Hpok & _). pose proof (V2P_page p Hpok) as Hv. pose proof (page_ok_bounds p Hpok).
  unfold KERNBASE, PHYSTOP in *.
  destruct (mappages_page s d a (V2P p) (Z.lor PTE_W PTE_U) l) as (r & s' & l' & Hrun & F1 & Hst & Hr);
    auto; try (unfold two32; lia).
  destruct (user_pte p Hpok) as (Hval & Hpp & _ & Hpfr). rewrite Hval in Hr.
  exists r, s', l'. split; [exact Hrun|]. pose proof Hst as [D1 _ Hfor Hroom _ _ Hlow].
  destruct (Hfor p Hpf) as [Hpf1 Hpc].
  assert (Hcase : user_wf (km_mem s') d l' /\ forall q, unframed (km_mem s) d q -> q <> p -> unframed (km_mem s') d q).
  { destruct Hr as [[-> Hpte] | (-> & -> & _ & Hpte)]; split.
    - apply (user_wf_map (km_mem s) _ d l l' a p (V2P p + 7)); auto.
    - intros q Hqu Hqp va Hva. unfold frame_of. rewrite Hpte. destruct (same_page a va); [|now apply Hqu].
      intros _. rewrite Hpfr. auto.
    - apply (user_wf_sub (km_mem s) _ _ l); [exact U|]. intros va Hva. rewrite Hpte. split; [reflexivity|].
      now apply Hfor, U.
    - intros q Hqu _ va Hva. unfold frame_of. rewrite Hpte. now apply Hqu. }
  destruct Hcase as [U1 Hunf]. split; [|split_and!; auto].
  - apply (wspace_step s s' d ns l l' Hws); auto; [|intros x Hx _; apply Hlow; destruct Pr; lia]. intros q Hq. destruct (Nn q Hq) as [Hqf Hqu].
    destruct (Hfor q Hqf) as [Hqf1 Hqc]. split_and!; auto. apply Hunf; [exact Hqu|]. intros ->. contradiction.
  - destruct Hr as [[-> Hpte] | (-> & -> & Hlen & Hpte)]; [left; auto|]. right. split_and!; auto.
    split; [exact Hpf1|]. intros va Hva. unfold frame_of. rewrite Hpte. now apply Hpu.
Qed.

Lemma fresh_same s s' d l p : pgdir_wf (km_mem s) d l -> user_wf (km_mem s) d l ->
  (forall x, sym_end <= x -> km_mem s' x = km_mem s x) -> fresh_page s d l p -> fresh_page s' d l p.
Proof.
  intros D U Hx [Hf Hu]. destruct (dir_same_wf _ _ d l (dir_same_low _ _ d l D Hx) D U) as (_ & _ & H1 & H2).
  split; auto.
Qed.

(** The entry appended to [va], [pa]. *)
Definition booked (m : mem) (n a v : Z) : mem :=
  store32 (store32 (store32 m (pr + P_n_upages) (n + 1)) (va_at pr n) a) (pa_at pr n) v.

Lemma pgflt_book s d ns l p n a v : wspace pr s d ns l -> fresh_page s d l p ->
  0 <= n < 32 -> 0 <= a < two32 -> 0 <= v < two32 ->
  let m3 := booked (km_mem s) n a v in let s3 := set_mem m3 s in
  wspace pr s3 d ns l /\ fresh_page s3 d l p /\ (forall x, sym_end <= x -> m3 x = km_mem s x) /\
  (forall x, x < pr + P_n_upages \/ pr + P_head <= x -> m3 x = km_mem s x) /\
  load32 m3 (pr + P_n_upages) = n + 1 /\ load32 m3 (va_at pr n) = a /\ load32 m3 (pa_at pr n) = v.
Proof.
  intros Hws Hfr Hn Ha Hv m3 s3. pose proof Hws as [[F0 Pr L Pgs Nd Us] Pg D U Nn].
  destruct (arrays_at pr n Pr Hn) as [Eva Epa]. pose proof Pr as [_ Hend].
  assert (Hout : forall x, x < pr + P_n_upages \/ pr + P_head <= x -> m3 x = km_mem s x).
  { intros x Hx. unfold m3, booked. rewrite Eva, Epa.
    rewrite !store32_frame by (unfold P_n_upages, P_va, P_pa, P_head in *; lia). reflexivity. }
  assert (Hhi : forall x, sym_end <= x -> m3 x = km_mem s x)
    by (intros x Hx; apply Hout; unfold P_head, P_size in *; lia).
  split_and!; auto.
  - assert (H1 : wspace pr (set_mem (store32 (km_mem s) (pr + P_n_upages) (n + 1)) s) d ns l)
      by (apply wspace_table; auto; unfold P_n_upages, P_head; lia).
    assert (H2 : forall s1, wspace pr s1 d ns l -> wspace pr (set_mem (store32 (km_mem s1) (va_at pr n) a) s1) d ns l)
      by (intros s1 Hs1; apply wspace_table; auto; rewrite Eva; unfold P_n_upages, P_va, P_head; lia).
    assert (H3 : forall s1, wspace pr s1 d ns l -> wspace pr (set_mem (store32 (km_mem s1) (pa_at pr n) v) s1) d ns l)
      by (intros s1 Hs1; apply wspace_table; auto; rewrite Epa; unfold P_n_upages, P_pa, P_head; lia).
    exact (H3 _ (H2 _ H1)).
  - apply (fresh_same s); auto.
  - unfold m3, booked. rewrite Eva, Epa. rewrite 2 load32_store32_ne by (unfold P_n_upages, P_va, P_pa; lia).
    rewrite load32_store32_eq. apply u32_small. unfold two32. lia.
  - unfold m3, booked. rewrite Eva, Epa, load32_store32_ne by (unfold P_va, P_pa; lia).
    now rewrite load32_store32_eq, u32_small.
  - unfold m3, booked. now rewrite load32_store32_eq, u32_small.
Qed.

(** The handler's node code up to the choice between anonymous and file. *)
Lemma pgflt_prepare s fs d ns1 t r ns2 p l va :
  wspace pr s d (ns1 ++ (t, r) :: ns2) (p :: l) ->
  let n := load32 (km_mem s) (pr + P_n_upages) in n < 32 ->
  let ns := ns1 ++ (t, bump r) :: ns2 in
  exists s', wspace pr s' d ns l /\ fresh_page s' d l p /\ (p ∉ map fst ns) /\
    (forall x, p <= x < p + 4096 -> km_mem s' x = 0) /\
    (forall va, pte_of (km_mem s') d va = pte_of (km_mem s) d va) /\ absent (km_mem s') d = absent (km_mem s) d /\
    load32 (km_mem s') (pr + P_n_upages) = n + 1 /\ load32 (km_mem s') (va_at pr n) = rg_addr r /\
    load32 (km_mem s') (pa_at pr n) = V2P p /\
    (forall x, x < sym_end -> x < pr + P_n_upages \/ pr + P_head <= x -> km_mem s' x = km_mem s x) /\
    pgflt_lazy_node t va (s, fs) =
      ((if s32 (rg_fd r) =? -1 then ret tt
        else f <- lift (rd32 (u32 (pr + P_ofile + 4 * s32 (rg_fd r)))) ;;
             lift (stf f F_off (u32 (va - rg_addr r))) ;;; fileread f p PGSIZE ;;; ret tt) ;;;
       pgdir <- lift (rd32 (pr + P_pgdir)) ;;
       lift (mappages pgdir va PGSIZE (V2P p) (Z.lor PTE_W PTE_U)) ;;; ret tt) (s', fs).
Proof.
  intros Hws n Hn ns. pose proof Hws as [Lw _ D _ _]. pose proof Lw as [F0 Pr L Pgs _ _].
  destruct (lazy_cursor s pr ns1 t r ns2 _ Lw) as (Kt & _ & Ea & _).
  assert (Htok : page_ok t)
    by (rewrite Forall_forall in Pgs; apply Pgs; rewrite map_app; apply elem_of_app; right; apply elem_of_cons; auto).
  assert (Hr : node_region (km_mem s) t = r) by now apply dseg_mid_prev in L as (y & _ & (_ & ? & _) & _).
  destruct (wspace_bump s d ns1 t r ns2 _ Hws) as [Hws1 [Hpde1 Hpte1]].
  set (m1 := store32 (km_mem s) (t + LZ_numPages) (rg_pages r + 1)) in *. fold ns in Hws1.
  assert (Hpn : p ∉ map fst ns).
  { intros Hin. apply (lw_used _ _ _ _ (ws_lazy _ _ _ _ _ Hws1) p Hin). apply elem_of_cons. auto. }
  destruct (wspace_alloc (set_mem m1 s) d ns p l Hws1) as (s2 & Hka & Hms & Hws2 & Hfr2 & Hz2 & Hpte2 & Habs2 & Hlow2).
  cbn [km_mem set_mem] in Hlow2, Hpte2, Habs2.
  assert (Hlow1 : forall x, x < sym_end -> m1 x = km_mem s x)
    by (intros x Hx; destruct Htok as (_ & ? & _); apply store32_frame; unfold LZ_numPages; lia).
  assert (Habs1 : absent m1 d = absent (km_mem s) d)
    by (apply filter_length_ext; intros i Hi%elem_of_seq; now rewrite Hpde1 by lia).
  assert (En : load32 (km_mem s2) (pr + P_n_upages) = n).
  { unfold n. rewrite <- (proc_load (km_mem s) m1) by (auto; unfold P_n_upages, P_size; lia).
    apply proc_load; auto; unfold P_n_upages, P_size; lia. }
  assert (Hr2 : node_region (km_mem s2) t = bump r)
    by (destruct Hws2 as [[_ _ L2 _ _ _] _ _ _ _]; now apply dseg_mid_prev in L2 as (y & _ & (_ & ? & _) & _)).
  destruct Hfr2 as [Hpf2 Hpu2]. pose proof Hpf2 as (Hpok & _). pose proof (page_ok_bounds p Hpok) as Hpb.
  pose proof (load32_bound (km_mem s) (pr + P_n_upages) ltac:(apply F0)) as Hnb. fold n in Hnb.
  pose proof (load32_bound (km_mem s) (t + LZ_addr) ltac:(apply F0)) as Hab. rewrite Ea in Hab.
  assert (Hvb : 0 <= V2P p < two32) by (rewrite V2P_page by exact Hpok; unfold KERNBASE, PHYSTOP, two32 in *; lia).
  destruct (pgflt_book s2 d ns l p n (rg_addr r) (V2P p) Hws2 (conj Hpf2 Hpu2) ltac:(lia) Hab Hvb)
    as (Hws3 & Hfr3 & Hhi3 & Hout3 & E1 & E2 & E3).
  set (s3 := set_mem (booked (km_mem s2) n (rg_addr r) (V2P p)) s2) in *.
  exists s3. split_and!; auto.
  - intros x Hx. cbn [s3 km_mem set_mem]. rewrite Hhi3; [now apply Hz2|]. destruct Hpok as (_ & ? & _). lia.
  - intros va'. cbn [s3 km_mem set_mem].
    rewrite (proj2 (dir_same_low _ _ d l (ws_dir _ _ _ _ _ Hws2) Hhi3)), Hpte2. apply Hpte1.
  - cbn [s3 km_mem set_mem]. rewrite <- Habs1, <- Habs2. apply filter_length_ext. intros i Hi%elem_of_seq.
    now rewrite (proj1 (dir_same_low _ _ d l (ws_dir _ _ _ _ _ Hws2) Hhi3)) by lia.
  - intros x Hx Hx'. cbn [s3 km_mem set_mem]. now rewrite Hout3, Hlow2, Hlow1.
  - unfold pgflt_lazy_node. rewrite (bind_ok _ _ _ _ _ (lift_ok _ _ _ fs _ (ldf_ok t _ s Kt))).
    assert (Enp : load32 (km_mem s) (t + LZ_numPages) = rg_pages r) by now rewrite <- Hr. rewrite Enp.
    rewrite (bind_ok _ _ _ _ _ (lift_ok _ _ _ fs _ (stf_ok t _ _ s Kt))). fold m1.
    rewrite (bind_ok _ _ _ _ _ (lift_ok _ _ _ fs _ Hka)).
    pose proof (page_kernbase p Hpok) as Kp. rewrite (proj2 (Z.ltb_ge p KERNBASE)) by exact Kp.
    rewrite (bind_ok _ _ _ _ _ (lift_ok _ _ _ fs _ Hms)).
    rewrite (bind_ok _ _ _ _ _ (lift_ok _ _ _ fs _ (ldf_ok t _ s2 Kt))).
    replace (load32 (km_mem s2) (t + LZ_addr)) with (rg_addr r) by (change (rg_addr r) with (rg_addr (bump r)); now rewrite <- Hr2).
    rewrite (bind_ok _ _ _ _ _ (lift_ok _ _ _ fs _ (eq_refl : rd32 (pr + P_n_upages) s2 = Ok _ s2))), En.
    destruct (arrays_at pr n Pr ltac:(lia)) as [Eva Epa].
    set (ma := store32 (km_mem s2) (pr + P_n_upages) (n + 1)). set (mb := store32 ma (va_at pr n) (rg_addr r)).
    rewrite (bind_ok _ _ _ _ _ (lift_ok _ s2 (set_mem ma s2) fs _ (eq_refl : wr32 _ _ s2 = _))).
    rewrite (bind_ok _ _ _ _ _ (lift_ok _ _ (set_mem mb s2) fs _ (eq_refl : wr32 (va_at pr n) (rg_addr r) (set_mem ma s2) = _))).
    rewrite (bind_ok _ _ _ _ _ (lift_ok _ _ _ fs _ (eq_refl : rd32 (pr + P_n_upages) (set_mem mb s2) = Ok _ _))).
    assert (Enb : load32 (km_mem (set_mem mb s2)) (pr + P_n_upages) = n + 1).
    { cbn [km_mem set_mem]. unfold mb, ma. rewrite Eva, load32_store32_ne by (unfold P_n_upages, P_va; lia).
      rewrite load32_store32_eq. apply u32_small. unfold two32. lia. }
    rewrite Enb. replace (n + 1 - 1) with n by lia.
    rewrite (bind_ok _ _ _ _ _ (lift_ok _ _ s3 fs _ (eq_refl : wr32 (pa_at pr n) (V2P p) (set_mem mb s2) = _))).
    assert (Hr3 : node_region (km_mem s3) t = bump r)
      by (destruct Hws3 as [[_ _ L3 _ _ _] _ _ _ _]; now apply dseg_mid_prev in L3 as (y & _ & (_ & ? & _) & _)).
    rewrite (bind_ok _ _ _ _ _ (lift_ok _ _ _ fs _ (ldf_ok t _ s3 Kt))).
    replace (load32 (km_mem s3) (t + LZ_fd)) with (rg_fd r) by (change (rg_fd r) with (rg_fd (bump r)); now rewrite <- Hr3).
    destruct (s32 (rg_fd r) =? -1); [reflexivity|]. rewrite !bind_assoc.
    rewrite !(bind_ok _ _ _ _ _ (lift_ok _ _ _ fs _ (eq_refl : rd32 (u32 (pr + P_ofile + 4 * s32 (rg_fd r))) s3 = Ok _ s3))).
    rewrite bind_assoc. rewrite (bind_ok _ _ _ _ _ (lift_ok _ _ _ fs _ (ldf_ok t _ s3 Kt))).
    replace (load32 (km_mem s3) (t + LZ_addr)) with (rg_addr r) by (change (rg_addr r) with (rg_addr (bump r)); now rewrite <- Hr3).
    reflexivity.
Qed.

(** The search stops at the first region that covers the address. *)
Lemma pgflt_lazy_find va ns1' : forall fuel s fs ns1 t r ns2 l,
  lazy_wf s pr (ns1 ++ ns1' ++ (t, r) :: ns2) l -> (length ns1' < fuel)%nat ->
  Forall (fun n => covers (rg_addr (snd n)) (rg_length (snd n)) va = false) ns1' ->
  covers (rg_addr r) (rg_length r) va = true ->
  let p := match ns1' with [] => t | (t', _) :: _ => t' end in
  pgflt_lazy fuel p va (s, fs) = (pgflt_lazy_node t va ;;; ret true) (s, fs).
Proof.
  induction ns1' as [|[t' r'] ns1' IH]; intros fuel s fs ns1 t r ns2 l Hlw Hf Hne Hr p;
    (destruct fuel as [|fuel]; [cbn in Hf; lia|]); cbn [pgflt_lazy]; subst p.
  - destruct (lazy_cursor s pr ns1 t r ns2 l Hlw) as (Kt & T0 & Ead & Eln & _). rewrite T0.
    do 2 rewrite (bind_ok _ _ _ _ _ (lift_ok _ _ _ fs _ (ldf_ok t _ s Kt))). rewrite Ead, Eln, Hr. reflexivity.
  - cbn [app] in Hlw. destruct (lazy_cursor s pr ns1 t' r' _ l Hlw) as (Kt & T0 & Ead & Eln & Enx). rewrite T0.
    inversion Hne as [|?? Hne1 Hne2]. subst. cbn [snd] in Hne1.
    do 2 rewrite (bind_ok _ _ _ _ _ (lift_ok _ _ _ fs _ (ldf_ok t' _ s Kt))). rewrite Ead, Eln, Hne1.
    rewrite (bind_ok _ _ _ _ _ (lift_ok _ _ _ fs _ (ldf_ok t' _ s Kt))). fold (node_next (km_mem s) t'). rewrite Enx.
    specialize (IH fuel s fs (ns1 ++ [(t', r')]) t r ns2 l). rewrite <- app_assoc in IH. cbn [app] in IH.
    cbn [length] in Hf. specialize (IH Hlw ltac:(lia) Hne2 Hr). cbv zeta in IH. rewrite <- IH.
    destruct ns1' as [|[t1 r1] ns1']; reflexivity.
Qed.

(** Without such a region the search ends with [found == 0], changing nothing. *)
Lemma pgflt_lazy_none va ns2 : forall fuel s fs ns1 l,
  lazy_wf s pr (ns1 ++ ns2) l -> (length ns2 < fuel)%nat ->
  Forall (fun n => covers (rg_addr (snd n)) (rg_length (snd n)) va = false) ns2 ->
  let p := match ns2 with [] => 0 | (t', _) :: _ => t' end in
  pgflt_lazy fuel p va (s, fs) = Ok false (s, fs).
Proof.
  induction ns2 as [|[t' r'] ns2 IH]; intros fuel s fs ns1 l Hlw Hf Hne p;
    (destruct fuel as [|fuel]; [cbn in Hf; lia|]); cbn [pgflt_lazy]; subst p; [reflexivity|].
  destruct (lazy_cursor s pr ns1 t' r' _ l Hlw) as (Kt & T0 & Ead & Eln & Enx). rewrite T0.
  inversion Hne as [|?? Hne1 Hne2]. subst. cbn [snd] in Hne1.
  do 2 rewrite (bind_ok _ _ _ _ _ (lift_ok _ _ _ fs _ (ldf_ok t' _ s Kt))). rewrite Ead, Eln, Hne1.
  rewrite (bind_ok _ _ _ _ _ (lift_ok _ _ _ fs _ (ldf_ok t' _ s Kt))). fold (node_next (km_mem s) t'). rewrite Enx.
  cbn [length] in Hf. apply (IH fuel s fs (ns1 ++ [(t', r')]) l); auto; [now rewrite <- app_assoc | lia].
Qed.

(** A handled fault is not reported as a segmentation fault. *)
Lemma pgflt_lazy_node_true t va s s' b : (pgflt_lazy_node t va ;;; ret true) s = Ok b s' -> b = true.
Proof. intros (? & ? & _ & E)%bind_inv_ok. now injection E as <- _. Qed.

(** A [struct file] of the kernel's table, apart from the process. *)
Definition file_at (f : Z) : Prop :=
  KERNBASE <= f /\ f + F_off + 4 <= sym_end /\ (f + F_off + 4 <= pr \/ pr + P_size <= f).

(** Reading a file into the fresh page. *)
Lemma wspace_file s m' d ns l p f : wspace pr s d ns l -> fresh_page s d l p -> (p ∉ map fst ns) -> file_at f ->
  mem_ok m' -> (forall x, x < p \/ p + 4096 <= x -> x < f + F_off \/ f + F_off + 4 <= x -> m' x = km_mem s x) ->
  wspace pr (set_mem m' s) d ns l /\ fresh_page (set_mem m' s) d l p /\
  (forall va, pte_of m' d va = pte_of (km_mem s) d va) /\ absent m' d = absent (km_mem s) d.
Proof.
  intros Hws [Hpf Hpu] Hpn (Kf & Hf1 & Hf2) Hm Hx. pose proof Hws as [[F0 Pr L Pgs Nd Us] Pg D U Nn].
  pose proof Hpf as (Hpok & Hpl & Hpd & Hpt). destruct Pr as [Kpr Hpr].
  assert (Hpage : forall q, page_ok q -> q <> p -> forall x, q <= x < q + 4096 -> m' x = km_mem s x).
  { intros q Hq Hne x Hqx. pose proof (page_disjoint q p Hq Hpok Hne). destruct Hq as (_ & ? & _). apply Hx; lia. }
  assert (Hds : dir_same (km_mem s) m' d).
  { apply (dir_same_frame _ _ d l D); [apply Hpage; auto; apply D|].
    intros i Hi Hpi. apply Hpage; [apply (pw_tab _ _ _ D i Hi Hpi) | now apply Hpt]. }
  destruct (dir_same_wf _ _ d l Hds D U) as (D1 & U1 & H1 & H2). split_and!; [|split; auto|apply Hds|].
  - apply (wspace_step s _ d ns l l Hws); auto.
    + apply kmem_wf_set_mem; [exact F0 | exact Hm|]. intros q x Hq. apply Hpage; [|congruence].
      destruct F0 as (_ & _ & Hok & _). rewrite Forall_forall in Hok. auto.
    + intros q Hq. destruct (Nn q Hq) as [Hqf Hqu]. split_and!; auto. apply Hpage; [apply Hqf | congruence].
    + intros x Hx1 _. destruct Hpok as (_ & ? & _). apply Hx; unfold F_off in *; lia.
  - apply filter_length_ext. intros i Hi%elem_of_seq. now rewrite (proj1 Hds) by lia.
Qed.

(** [kalloc] alone. *)
Lemma wspace_pop s d ns p l : wspace pr s d ns (p :: l) ->
  let s1 := set_freelist (load32 (km_mem s) p) s in
  kalloc s = Ok p s1 /\ wspace pr s1 d ns l /\ fresh_page s1 d l p /\ (p ∉ map fst ns).
Proof.
  intros Hws s1. pose proof Hws as [[F0 Pr L Pgs Nd Us] Pg D U Nn]. destruct (kalloc_pop s p l F0) as [Hk F1].
  split_and!; auto.
  - apply (wspace_step s s1 d ns (p :: l) l Hws); auto.
    + now apply (pgdir_wf_tail _ _ p).
    + apply (user_wf_sub (km_mem s) _ _ (p :: l)); [exact U|]. intros va Hva Hp. split; [reflexivity|].
      apply (foreign_tail _ _ p). now apply U.
    + intros q Hq. destruct (Nn q Hq). split_and!; auto. now apply (foreign_tail _ _ p).
  - split; [now apply (foreign_popped s)|]. intros va Hva Hp E.
    destruct (uw_frame _ _ _ U va Hva Hp) as (_ & Hn & _). apply Hn. replace (frame_of (km_mem s) d va) with p by (symmetry; exact E). apply elem_of_cons. auto.
  - intros Hin. apply (Us p Hin), elem_of_cons. auto.
Qed.

(** Filling the fresh page. *)
Lemma wspace_fill s m' d ns l p : wspace pr s d ns l -> fresh_page s d l p -> (p ∉ map fst ns) ->
  mem_ok m' -> (forall x, x < p \/ p + 4096 <= x -> m' x = km_mem s x) ->
  wspace pr (set_mem m' s) d ns l /\ fresh_page (set_mem m' s) d l p /\
  dir_same (km_mem s) m' d.
Proof.
  intros Hws [Hpf Hpu] Hpn Hm Hx. pose proof Hws as [[F0 Pr L Pgs Nd Us] Pg D U Nn].
  pose proof Hpf as (Hpok & Hpl & Hpd & Hpt).
  assert (Hpage : forall q, page_ok q -> q <> p -> forall x, q <= x < q + 4096 -> m' x = km_mem s x).
  { intros q Hq Hne x Hqx. pose proof (page_disjoint q p Hq Hpok Hne). apply Hx; lia. }
  assert (Hds : dir_same (km_mem s) m' d).
  { apply (dir_same_frame _ _ d l D); [apply Hpage; auto; apply D|].
    intros i Hi Hpi. apply Hpage; [apply (pw_tab _ _ _ D i Hi Hpi) | now apply Hpt]. }
  destruct (dir_same_wf _ _ d l Hds D U) as (D1 & U1 & H1 & H2). split_and!; [|split; auto|exact Hds].
  apply (wspace_step s _ d ns l l Hws); auto.
  - apply kmem_wf_set_mem; [exact F0 | exact Hm|]. intros q x Hq. apply Hpage; [|congruence].
    destruct F0 as (_ & _ & Hok & _). rewrite Forall_forall in Hok. auto.
  - intros q Hq. destruct (Nn q Hq) as [Hqf Hqu]. split_and!; auto. apply Hpage; [apply Hqf | congruence].
  - intros x Hx1 _. destruct Hpok as (_ & ? & _), Pr as [_ Hpr]. apply Hx; lia.
Qed.

(** Redirecting a mapped page to the fresh page [p] by the entry [w]. *)
Lemma wspace_redirect s d ns l p a w : wspace pr s d ns l -> fresh_page s d l p -> (p ∉ map fst ns) ->
  0 <= a < KERNBASE -> present (pte_of (km_mem s) d a) = true -> 0 <= w < two32 -> P2V (PTE_ADDR w) = p ->
  let m' := store32 (km_mem s) (walk (km_mem s) d a) w in
  wspace pr (set_mem m' s) d ns l /\
  (forall va, pte_of m' d va = if same_page a va then w else pte_of (km_mem s) d va) /\
  (forall q, foreign (km_mem s) d l q -> forall x, q <= x < q + 4096 -> m' x = km_mem s x).
Proof.
  intros Hws [Hpf Hpu] Hpn Ha Hp Hw Hwp m'. pose proof Hws as [[F0 Pr L Pgs Nd Us] Pg D U Nn].
  assert (Hpd : present (pde_of (km_mem s) d (PDX a)) = true)
    by (unfold pte_of in Hp; destruct (present (pde_of _ _ _)); [reflexivity | discriminate]).
  destruct (pte_write s d a w l F0 D Hpd) as (F1 & Hst & Hpte). fold m' in F1, Hst, Hpte.
  rewrite (u32_small w Hw) in Hpte. pose proof Hst as [D1 _ Hfor _ _ _ Hlow].
  split_and!; [|exact Hpte | intros q Hq; now apply Hfor].
  apply (wspace_step s _ d ns l l Hws); auto.
  - apply (user_wf_map (km_mem s) _ d l l a p w); auto.
  - intros q Hq. destruct (Nn q Hq) as [Hqf Hqu]. destruct (Hfor q Hqf) as [Hqf1 Hqc]. split_and!; auto.
    intros va Hva. cbn [km_mem set_mem]. unfold frame_of. rewrite Hpte. destruct (same_page a va); [|now apply Hqu].
    intros _. rewrite Hwp. congruence.
  - intros x Hx _. apply Hlow. destruct Pr. lia.
Qed.

(** The entry the copy gets. *)
Definition cow_pte (v p : Z) : Z := Z.lor (V2P p) (Z.lor (PTE_FLAGS v) PTE_W).

Lemma cow_pte_spec v p : page_ok p -> 0 <= v < two32 -> present v = true ->
  0 <= cow_pte v p < two32 /\ P2V (PTE_ADDR (cow_pte v p)) = p /\ present (cow_pte v p) = true /\
  PTE_FLAGS (cow_pte v p) = Z.lor (PTE_FLAGS v) PTE_W.
Proof.
  intros Hp Hv Hpr. pose proof (page_ok_bounds p Hp) as Hb. pose proof (V2P_page p Hp) as Evp.
  assert (Hal : V2P p mod 4096 = 0) by (rewrite Evp; destruct Hp; unfold KERNBASE; word_lia).
  assert (Hfl : 0 <= Z.lor (PTE_FLAGS v) PTE_W < 4096).
  { replace (Z.lor (PTE_FLAGS v) PTE_W) with (Z.land (Z.lor (u32 v) PTE_W) 0xFFF) by apply Z.land_lor_distr_l.
    change 0xFFF with (Z.ones 12). rewrite Z.land_ones by lia. apply Z.mod_pos_bound. reflexivity. }
  assert (Hvb : 0 <= V2P p /\ V2P p + 4096 <= two32) by (rewrite Evp; unfold KERNBASE, PHYSTOP, two32 in *; lia).
  destruct (pte_compose (V2P p) (Z.lor (PTE_FLAGS v) PTE_W)) as [E1 E2]; auto; [lia|]. fold (cow_pte v p) in E1, E2.
  split_and!; auto.
  - unfold cow_pte. rewrite (lor_aligned _ _ 12) by (assumption || lia). lia.
  - unfold cow_pte. rewrite (lor_aligned _ _ 12) by (assumption || lia). lia.
  - rewrite E1, Evp. unfold P2V, KERNBASE, PHYSTOP in *. word_lia.
  - unfold present, cow_pte. rewrite !Z.land_lor_distr_l. unfold PTE_FLAGS. rewrite (u32_small v) by exact Hv.
    rewrite <- (Z.land_assoc v). change (Z.land 0xFFF PTE_P) with PTE_P. change (Z.land PTE_W PTE_P) with 0.
    rewrite Z.lor_0_r. unfold present in Hpr. rewrite truth_true in *. intros E. apply Z.lor_eq_0_iff in E. tauto.
Qed.

(** The node code for a private region. *)
Lemma pgflt_cow_copy s d ns t r p l va : wspace pr s d ns (p :: l) -> (t, r) ∈ ns -> rg_shared r = 0 ->
  0 <= va < KERNBASE -> present (pte_of (km_mem s) d va) = true ->
  let v := pte_of (km_mem s) d va in
  exists s', pgflt_cow_node t va s = Ok tt s' /\ wspace pr s' d ns l /\
    (forall a, pte_of (km_mem s') d a = if same_page va a then cow_pte v p else pte_of (km_mem s) d a) /\
    (forall i, 0 <= i < 4096 -> km_mem s' (p + i) = km_mem s (frame_of (km_mem s) d va + i)) /\
    (forall q, foreign (km_mem s) d (p :: l) q -> forall x, q <= x < q + 4096 -> km_mem s' x = km_mem s x).
Proof.
  intros Hws Hin Hsh Hva Hp v. destruct (wspace_pop s d ns p l Hws) as (Hk & Hws1 & Hfr1 & Hpn).
  pose proof Hws as [Lw Pg D U Nn]. pose proof (ws_lazy _ _ _ _ _ Hws) as [F0 _ _ _ _ _].
  assert (Hpd : present (pde_of (km_mem s) d (PDX va)) = true)
    by (unfold pte_of in Hp; destruct (present (pde_of _ _ _)); [reflexivity | discriminate]).
  assert (Htr : KERNBASE <= t /\ load32 (km_mem s) (t + LZ_shared) = rg_shared r).
  { apply list_elem_of_split in Hin as (n1 & n2 & ->). destruct (lazy_cursor s pr n1 t r n2 _ Lw) as (Kt & _). split; [exact Kt|].
    destruct Lw as [_ _ L _ _ _]. apply dseg_mid_prev in L as (y & _ & (_ & Hr & _) & _). now rewrite <- Hr. }
  destruct Htr as [Kt Esh]. set (s1 := set_freelist (load32 (km_mem s) p) s) in *.
  set (buf := frame_of (km_mem s) d va). set (m2 := memmove (km_mem s) p buf PGSIZE).
  assert (Hm2 : forall x, m2 x = if (p <=? x) && (x <? p + PGSIZE) then km_mem s (buf + (x - p)) else km_mem s x)
    by (intros x; apply memmove_eq; [apply F0 | unfold PGSIZE; lia]).
  destruct (wspace_fill s1 m2 d ns l p Hws1 Hfr1 Hpn) as (Hws2 & Hfr2 & Hds).
  { intros x. rewrite Hm2. destruct (_ && _); apply F0. }
  { intros x Hx. rewrite Hm2. unfold PGSIZE. case_bool; [lia | reflexivity]. }
  pose proof Hfr1 as [(Hpok & _) _].
  assert (Hvb : 0 <= v < two32) by (unfold v, pte_of; rewrite Hpd; apply load32_bound, F0).
  destruct (cow_pte_spec v p Hpok Hvb Hp) as (Hwb & Hwf & _).
  assert (Hwalk : walk m2 d va = walk (km_mem s) d va).
  { unfold walk, pt_of. pose proof (PDX_range va). now rewrite (proj1 Hds). }
  destruct (wspace_redirect (set_mem m2 s1) d ns l p va (cow_pte v p) Hws2 Hfr2 Hpn Hva) as (Hws3 & Hpte3 & Hfor3); auto.
  { cbn [km_mem set_mem]. now rewrite (proj2 Hds). }
  cbn [km_mem set_mem] in Hws3, Hpte3, Hfor3. rewrite Hwalk in Hws3, Hpte3, Hfor3.
  eexists. split; [|split; [exact Hws3|]].
  - unfold pgflt_cow_node. rewrite (bind_ok _ _ _ _ _ (eq_refl : rd32 (pr + P_pgdir) s = Ok _ s)), Pg.
    rewrite (bind_ok _ _ _ _ _ (walkpgdir_lookup d va s)).
    rewrite (proj2 (Z.eqb_neq _ _)) by (eapply walk_nonzero; eauto).
    rewrite (bind_ok _ _ _ _ _ (eq_refl : rd32 _ s = _)).
    assert (Hld : load32 (km_mem s) (walk (km_mem s) d va) = v) by (unfold v, pte_of; now rewrite Hpd). rewrite Hld.
    rewrite (bind_ok _ _ _ _ _ (ldf_ok t _ s Kt)), Esh, Hsh. change (0 =? 0) with true. cbv iota.
    rewrite (bind_ok _ _ _ _ _ Hk), (proj2 (Z.ltb_ge p KERNBASE)) by now apply page_kernbase. reflexivity.
  - cbn [km_mem set_mem]. split_and!.
    + intros a. rewrite Hpte3. destruct (same_page va a); [reflexivity | apply Hds].
    + intros i Hi. rewrite (Hfor3 p); [|apply Hfr2|lia]. rewrite Hm2. unfold PGSIZE. case_bool; [f_equal; lia|].
      exfalso. bool_split; lia.
    + intros q Hq x Hx. pose proof Hq as (Hqok & [Hqp _]%not_elem_of_cons & _).
      rewrite (Hfor3 q); [|destruct (dir_same_wf _ _ d l Hds (ws_dir _ _ _ _ _ Hws1) (ws_user _ _ _ _ _ Hws1)) as (_ & _ & Hf & _);
        now apply Hf, (foreign_tail _ _ p)|exact Hx].
      rewrite Hm2. pose proof (page_disjoint q p Hqok Hpok Hqp). unfold PGSIZE. case_bool; [lia | reflexivity].
Qed.

Definition first_node (ns : list (Z * region)) : Z := match ns with [] => 0 | (t, _) :: _ => t end.

(** The write-fault loop passes over regions that do not cover the address. *)
Lemma pgflt_cow_skip va fuel ns1' : forall s ns1 rest l,
  lazy_wf s pr (ns1 ++ ns1' ++ rest) l ->
  Forall (fun n => covers (rg_addr (snd n)) (rg_length (snd n)) va = false) ns1' ->
  pgflt_cow (length ns1' + fuel) (first_node (ns1' ++ rest)) va s = pgflt_cow fuel (first_node rest) va s.
Proof.
  induction ns1' as [|[t r] ns1' IH]; intros s ns1 rest l Hlw Hne; [reflexivity|].
  cbn [app length Nat.add pgflt_cow first_node]. cbn [app] in Hlw.
  destruct (lazy_cursor s pr ns1 t r _ l Hlw) as (Kt & T0 & Ead & Eln & Enx). rewrite T0.
  inversion Hne as [|?? Hne1 Hne2]. subst. cbn [snd] in Hne1.
  do 2 rewrite (bind_ok _ _ _ _ _ (ldf_ok t _ s Kt)). rewrite Ead, Eln, Hne1, bind_ret.
  rewrite (bind_ok _ _ _ _ _ (ldf_ok t _ s Kt)). fold (node_next (km_mem s) t). rewrite Enx.
  apply (IH s (ns1 ++ [(t, r)]) rest l); [now rewrite <- app_assoc | exact Hne2].
Qed.

(** *** sys_getpgdirinfo *)

Definition user_page (m : mem) (d va : Z) : bool :=
  truth (Z.land (pte_of m d va) PTE_P) && truth (Z.land (pte_of m d va) PTE_U).

(** The mapped user pages among the [n] pages from page number [k] on. *)
Definition user_pages (m : mem) (d : Z) (k : Z) (n : Z) : list (Z * Z) :=
  map (fun va => (va, PTE_ADDR (pte_of m d va))) (filter (fun va => user_page m d va = true) (map (Z.mul 4096) (seqZ k n))).

Lemma user_pages_cons m d k n : user_pages m d k (Z.of_nat (S n)) =
  (if user_page m d (4096 * k) then [(4096 * k, PTE_ADDR (pte_of m d (4096 * k)))] else []) ++ user_pages m d (k + 1) (Z.of_nat n).
Proof.
  unfold user_pages. rewrite seqZ_cons by lia. replace (Z.pred (Z.of_nat (S n))) with (Z.of_nat n) by lia.
  rewrite map_cons, filter_cons. replace (Z.succ k) with (k + 1) by lia.
  destruct (user_page m d (4096 * k)); [rewrite decide_True by reflexivity | rewrite decide_False by discriminate]; reflexivity.
Qed.

Lemma user_pages_app m d k n1 n2 : 0 <= n1 -> 0 <= n2 ->
  user_pages m d k (n1 + n2) = user_pages m d k n1 ++ user_pages m d (k + n1) n2.
Proof. intros H1 H2. unfold user_pages. now rewrite seqZ_app, !map_app, filter_app, map_app by assumption. Qed.

Lemma page_parts i j : 0 <= i < 1024 -> 0 <= j < 1024 ->
  PGADDR i j 0 = 4096 * (1024 * i + j) /\ PDX (4096 * (1024 * i + j)) = i /\ PTX (4096 * (1024 * i + j)) = j.
Proof.
  intros Hi Hj. rewrite PGADDR_eq, PDX_eq, PTX_eq, !u32_small by (unfold two32; lia). split_and!; [lia | word_lia | word_lia].
Qed.

Lemma pgtab_scan_spec m d n : forall i j acc, 0 <= i < 1024 -> 0 <= j -> j + Z.of_nat n <= 1024 ->
  present (pde_of m d i) = true -> (length acc <= 32)%nat ->
  pgtab_scan n m (pt_of m d i) i j acc = take 32 (acc ++ user_pages m d (1024 * i + j) (Z.of_nat n)).
Proof.
  induction n as [|n IH]; intros i j acc Hi Hj Hn Hp Hacc; cbn [pgtab_scan].
  - unfold user_pages. rewrite seqZ_nil by lia. cbn [map filter list_filter]. rewrite app_nil_r. now rewrite take_ge.
  - destruct (page_parts i j Hi ltac:(lia)) as (E1 & E2 & E3). rewrite user_pages_cons, E1.
    assert (Hpte : load32 m (pt_of m d i + 4 * j) = pte_of m d (4096 * (1024 * i + j)))
      by (unfold pte_of, walk; now rewrite E2, E3, Hp).
    rewrite Hpte. fold (user_page m d (4096 * (1024 * i + j))).
    replace (1024 * i + j + 1) with (1024 * i + (j + 1)) by lia.
    destruct (user_page m d (4096 * (1024 * i + j))); cbn [andb app]; [|now rewrite IH by (auto; lia)].
    destruct (Z.ltb_spec (Z.of_nat (length acc)) 32).
    + rewrite IH by (auto; try lia; rewrite length_app; cbn [length]; lia). now rewrite <- app_assoc.
    + rewrite IH by (auto; lia). rewrite !take_app_le by lia. reflexivity.
Qed.

Lemma pgdir_scan_spec m d n : forall i acc, 0 <= i -> i + Z.of_nat n <= 1024 -> (length acc <= 32)%nat ->
  pgdir_scan n m d i acc = take 32 (acc ++ user_pages m d (1024 * i) (1024 * Z.of_nat n)).
Proof.
  induction n as [|n IH]; intros i acc Hi Hn Hacc; cbn [pgdir_scan].
  - unfold user_pages. rewrite seqZ_nil by lia. cbn [map filter list_filter]. rewrite app_nil_r. now rewrite take_ge.
  - replace (1024 * Z.of_nat (S n)) with (1024 + 1024 * Z.of_nat n) by lia. rewrite user_pages_app, app_assoc by lia.
    fold (pde_of m d i). fold (present (pde_of m d i)). fold (pt_of m d i).
    replace (1024 * i + 1024) with (1024 * (i + 1)) by lia. destruct (present (pde_of m d i)) eqn:Ep.
    + rewrite (pgtab_scan_spec m d _ i 0 acc) by (auto; unfold NPTENTRIES; lia).
      replace (1024 * i + 0) with (1024 * i) by lia. change (Z.of_nat (Z.to_nat NPTENTRIES)) with 1024.
      rewrite IH by (try lia; rewrite length_take; lia). set (a := acc ++ user_pages m d (1024 * i) 1024).
      destruct (Nat.le_gt_cases (length a) 32); [now rewrite (take_ge a) by lia|].
      rewrite !take_app_le by (rewrite ?length_take; lia). now rewrite take_take.
    + rewrite IH by (auto; lia). enough (Hnone : user_pages m d (1024 * i) 1024 = []) by now rewrite Hnone, app_nil_r.
      unfold user_pages. rewrite filter_none; [reflexivity|]. intros va (k & -> & [Hk1 Hk2]%elem_of_seqZ)%list_elem_of_fmap.
      destruct (page_parts i (k - 1024 * i) ltac:(lia) ltac:(lia)) as (_ & E & _).
      replace (1024 * i + (k - 1024 * i)) with k in E by lia. unfold user_page, pte_of. rewrite E, Ep. discriminate.
Qed.

(** *** sys_getwmapinfo *)

(** The fields of the user's [struct wmapinfo] at [w] after the regions [rs],
    which start at index [i], have been written. *)
Definition reported (u : mem) (w : Z) (i : Z) (rs : list region) : Prop :=
  forall k r, rs !! k = Some r ->
    load32 u (w + 4 + 4 * (i + Z.of_nat k)) = rg_addr r /\
    load32 u (w + 68 + 4 * (i + Z.of_nat k)) = rg_length r /\
    load32 u (w + 132 + 4 * (i + Z.of_nat k)) = rg_pages r.

Definition used_regions (ns : list (Z * region)) : list region :=
  map snd (take_while (fun n => s32 (rg_used (snd n)) =? 1) ns).

(** The bytes of the struct that belong to entries before index [c]. *)
Definition before (w c x : Z) : Prop :=
  w + 4 <= x < w + 4 + 4 * c \/ w + 68 <= x < w + 68 + 4 * c \/ w + 132 <= x < w + 132 + 4 * c.

Lemma reported_cons u w c r rs : load32 u (w + 4 + 4 * c) = rg_addr r -> load32 u (w + 68 + 4 * c) = rg_length r ->
  load32 u (w + 132 + 4 * c) = rg_pages r -> reported u w (c + 1) rs -> reported u w c (r :: rs).
Proof.
  intros H1 H2 H3 Hr [|k] r' Hk.
  - injection Hk as <-. rewrite !Z.add_0_r. auto.
  - replace (c + Z.of_nat (S k)) with (c + 1 + Z.of_nat k) by lia. now apply Hr.
Qed.

Lemma getwmapinfo_loop_spec w ns2 : forall fuel s ns1 l u c,
  lazy_wf s pr (ns1 ++ ns2) l -> mem_ok u -> (length ns2 < fuel)%nat -> 0 <= w -> w + 196 <= two32 -> 0 <= c ->
  c + Z.of_nat (length (used_regions ns2)) <= 16 ->
  exists u', getwmapinfo_loop fuel (first_node ns2) w c (s, u) = Ok tt (s, u') /\
    reported u' w c (used_regions ns2) /\
    load32 u' w = u32 (load32 u w + Z.of_nat (length (used_regions ns2))) /\
    (forall x, x < w \/ w + 196 <= x \/ before w c x -> u' x = u x).
Proof.
  induction ns2 as [|[t r] ns2 IH]; intros fuel s ns1 l u c Hlw Hu Hf Hw Hw2 Hc Hn;
    (destruct fuel as [|fuel]; [cbn in Hf; lia|]); cbn [getwmapinfo_loop first_node].
  - exists u. split_and!; auto; [now intros k r' Hk|]. cbn. rewrite Z.add_0_r. symmetry. now apply u32_small, load32_bound.
  - destruct (lazy_cursor s pr ns1 t r ns2 l Hlw) as (Kt & T0 & Ead & Eln & Enx). rewrite T0.
    assert (Hr : node_region (km_mem s) t = r)
      by (destruct Hlw as [_ _ L _ _ _]; now apply dseg_mid_prev in L as (y & _ & (_ & ? & _) & _)).
    rewrite (bind_ok _ _ _ _ _ (lift_ok _ _ _ u _ (ldf_ok t _ s Kt))).
    replace (load32 (km_mem s) (t + LZ_used)) with (rg_used r) by now rewrite <- Hr.
    unfold used_regions in *. cbn [take_while snd] in *. destruct (s32 (rg_used r) =? 1); cbn [negb].
    2:{ exists u. split_and!; auto; [now intros k r' Hk|]. cbn. rewrite Z.add_0_r. symmetry. now apply u32_small, load32_bound. }
    cbn [map length] in *. unfold two32 in Hw2. replace (c + 1 - 1) with c by lia.
    rewrite !u32_small by (unfold two32; lia).
    do 2 (rewrite (bind_ok _ _ _ _ _ (lift_ok _ _ _ _ _ (ldf_ok t _ s Kt))); rewrite (bind_ok (modify _) _ _ _ _ eq_refl); cbn [fst snd]).
    rewrite (bind_ok _ _ _ _ _ (lift_ok _ _ _ _ _ (ldf_ok t _ s Kt))); rewrite (bind_ok (modify _) _ _ _ _ eq_refl); cbn [fst snd].
    rewrite (bind_ok (modify _) _ _ _ _ eq_refl). cbn [fst snd].
    rewrite (bind_ok _ _ _ _ _ (lift_ok _ _ _ _ _ (ldf_ok t _ s Kt))). fold (node_next (km_mem s) t). rewrite Enx, Ead, Eln.
    replace (load32 (km_mem s) (t + LZ_numPages)) with (rg_pages r) by now rewrite <- Hr.
    match goal with |- context [getwmapinfo_loop fuel _ w _ (s, ?m)] => set (u1 := m) end.
    assert (Hb : 0 <= rg_addr r < two32 /\ 0 <= rg_length r < two32 /\ 0 <= rg_pages r < two32)
      by (rewrite <- Hr; cbn [node_region rg_addr rg_length rg_pages]; split_and!; apply load32_bound; apply Hlw).
    destruct Hb as (Hb1 & Hb2 & Hb3).
    destruct (IH fuel s (ns1 ++ [(t, r)]) l u1 (c + 1)) as (u' & Hrun & Hrep & Htot & Hfr); try lia.
    { now rewrite <- app_assoc. }
    { unfold u1. now repeat apply mem_ok_store32. }
    { exact Hw2. }
    assert (E1 : load32 u1 (w + 4 + 4 * c) = rg_addr r /\ load32 u1 (w + 68 + 4 * c) = rg_length r /\
                 load32 u1 (w + 132 + 4 * c) = rg_pages r /\ load32 u1 w = u32 (load32 u w + 1)).
    { unfold u1. split_and!; repeat (rewrite load32_store32_eq || (rewrite load32_store32_ne by lia)); try now apply u32_small. reflexivity. }
    assert (E2 : forall x, x < w \/ w + 196 <= x \/ before w c x -> u1 x = u x).
    { intros x Hx. unfold u1, before in *. rewrite !store32_frame by lia. reflexivity. }
    destruct E1 as (Ea & El & Ep & Et).
    assert (Hkeep : forall off, off = 4 \/ off = 68 \/ off = 132 -> load32 u' (w + off + 4 * c) = load32 u1 (w + off + 4 * c)).
    { intros off Ho. apply load32_ext. intros x Hx. apply Hfr. unfold before. lia. }
    exists u'. split; [exact Hrun|]. split_and!.
    + apply reported_cons; [rewrite Hkeep by auto; exact Ea | rewrite Hkeep by auto; exact El | rewrite Hkeep by auto; exact Ep | exact Hrep].
    + rewrite Htot, Et. unfold u32, two32. rewrite Zplus_mod_idemp_l. f_equal. lia.
    + intros x Hx. rewrite Hfr, E2; auto. unfold before in *. lia.
Qed.

End Pgfault.

(** ** Properties *)

Section Properties.
Context `{LKOK : LinkerOk} {F : Type} `{FL : FileLayer F}.


(** C30: A write fault on a present page of a private region, the only one that
    covers it, gives the process a copy of its own: a page that was free receives
    the 4096 bytes of the frame mapped before, the entry points to it with the
    old flags and [PTE_W], every other translation and every page in use keep
    their contents, and the invariant of list and address space holds. *)
Theorem pgflt_copies_private (pr : Z) fuel s (fs : F) d ns1 t r ns2 p l err cr2 :
  let ns := ns1 ++ (t, r) :: ns2 in wspace pr s d ns (p :: l) -> (length ns < fuel)%nat ->
  let va := PGROUNDDOWN cr2 in 0 <= cr2 < KERNBASE -> truth (Z.land err 1) = true ->
  Forall (fun n => covers (rg_addr (snd n)) (rg_length (snd n)) va = false) (ns1 ++ ns2) ->
  covers (rg_addr r) (rg_length r) va = true -> rg_shared r = 0 ->
  present (pte_of (km_mem s) d va) = true ->
  exists s', pgflt pr fuel err cr2 (s, fs) = Ok true (s', fs) /\ wspace pr s' d ns l /\
    (forall a, pte_of (km_mem s') d a =
       if same_page va a then cow_pte (pte_of (km_mem s) d va) p else pte_of (km_mem s) d a) /\
    (forall i, 0 <= i < 4096 -> km_mem s' (p + i) = km_mem s (frame_of (km_mem s) d va + i)) /\
    (forall q, foreign (km_mem s) d (p :: l) q -> forall x, q <= x < q + 4096 -> km_mem s' x = km_mem s x).
Proof.
  intros ns Hws Hf va Hcr Herr [Hc1 Hc2]%Forall_app Hcov Hsh Hp. pose proof Hws as [Lw _ _ _ _].
  unfold pgflt. rewrite (bind_ok _ _ _ _ _ (lift_ok _ _ _ fs _ (eq_refl : rd32 (pr + P_head) s = Ok _ s))).
  rewrite (lazy_head s pr _ _ Lw), Herr. cbv iota zeta. fold va. fold (first_node ns).
  assert (Hva : 0 <= va < KERNBASE)
    by (unfold va; rewrite PGROUNDDOWN_eq, u32_small by (unfold KERNBASE, two32 in *; lia); unfold KERNBASE in *; word_lia).
  destruct (pgflt_cow_copy pr s d ns t r p l va Hws) as (s' & Hrun & Hws' & Hpte & Hcopy & Hfor); auto.
  { apply elem_of_app. right. apply elem_of_cons. auto. }
  exists s'. split_and!; auto. pose proof Hws' as [Lw' _ _ _ _].
  destruct (lazy_cursor s pr ns1 t r ns2 _ Lw) as (Kt & T0 & Ead & Eln & _).
  destruct (lazy_cursor s' pr ns1 t r ns2 _ Lw') as (_ & _ & _ & _ & Enx).
  assert (Hloop : pgflt_cow pr fuel (first_node ns) va s = Ok tt s').
  { unfold ns in Hf. rewrite length_app in Hf. cbn [length] in Hf.
    replace fuel with (length ns1 + S (length ns2 + (fuel - length ns1 - length ns2 - 1)))%nat by lia.
    unfold ns. rewrite (pgflt_cow_skip pr va _ ns1 s [] ((t, r) :: ns2) _ Lw Hc1). cbn [first_node pgflt_cow]. rewrite T0.
    do 2 rewrite (bind_ok _ _ _ _ _ (ldf_ok t _ s Kt)). rewrite Ead, Eln, Hcov, (bind_ok _ _ _ _ _ Hrun).
    rewrite (bind_ok _ _ _ _ _ (ldf_ok t _ s' Kt)). fold (node_next (km_mem s') t). rewrite Enx. fold (first_node ns2).
    replace (first_node ns2) with (first_node (ns2 ++ [])) by now rewrite app_nil_r.
    rewrite (pgflt_cow_skip pr va _ ns2 s' (ns1 ++ [(t, r)]) [] l); [|now rewrite app_nil_r, <- app_assoc | exact Hc2].
    destruct (fuel - length ns1 - length ns2 - 1)%nat eqn:E; [lia | reflexivity]. }
  now rewrite (bind_ok _ _ _ _ _ (lift_ok _ _ _ fs _ Hloop)).
Qed.

(** A fault on an absent page that no region covers is reported as a
    segmentation fault and changes nothing.  But a list that contains an empty
    node (the one [allocproc] starts every process with, [addr] and [length] 0)
    never reports one, whatever the address: its [end] wraps around to the
    largest address, so the node covers all of them. *)
Theorem pgflt_segv (pr : Z) fuel s (fs : F) ns l err cr2 :
  lazy_wf s pr ns l -> (length ns < fuel)%nat -> Z.land err 1 = 0 ->
  let va := PGROUNDDOWN cr2 in
  (Forall (fun n => covers (rg_addr (snd n)) (rg_length (snd n)) va = false) ns ->
     pgflt pr fuel err cr2 (s, fs) = Ok false (s, fs)) /\
  (Exists (fun n => empty_region (snd n)) ns -> forall s', pgflt pr fuel err cr2 (s, fs) <> Ok false s').
Proof.
  intros Lw Hf Herr va.
  assert (Hrun : pgflt pr fuel err cr2 (s, fs) = pgflt_lazy pr fuel (first_node ns) va (s, fs)).
  { unfold pgflt. rewrite (bind_ok _ _ _ _ _ (lift_ok _ _ _ fs _ (eq_refl : rd32 (pr + P_head) s = Ok _ s))).
    rewrite (lazy_head s pr _ _ Lw), Herr. reflexivity. }
  rewrite Hrun. split; [intros Hall; now apply (pgflt_lazy_none pr va ns fuel s fs [] l)|].
  intros Hex s' E.
  destruct (first_split (fun n => covers (rg_addr (snd n)) (rg_length (snd n)) va) ns) as [Hall|(ns1 & [t r] & ns2 & -> & H1 & H2)].
  - apply Exists_exists in Hex as (n & Hn & [He1 He2]). rewrite Forall_forall in Hall. specialize (Hall n Hn).
    cbn in Hall. rewrite He1, He2 in Hall. unfold covers in Hall. change (u32 (0 + 0 - 1)) with (two32 - 1) in Hall.
    unfold va in Hall. rewrite PGROUNDDOWN_eq in Hall. pose proof (u32_bound cr2). apply andb_false_iff in Hall as [Hall|Hall];
      bool_prop; unfold two32 in *; word_lia.
  - rewrite length_app in Hf. cbn [length] in Hf.
    assert (Hfirst : first_node (ns1 ++ (t, r) :: ns2) = match ns1 with [] => t | (t', _) :: _ => t' end)
      by (destruct ns1 as [|[? ?] ?]; reflexivity).
    rewrite Hfirst, (pgflt_lazy_find pr va ns1 fuel s fs [] t r ns2 l) in E; auto; [|lia].
    apply pgflt_lazy_node_true in E. discriminate.
Qed.

(** [sys_getpgdirinfo] reports the first 32 user pages the directory maps, in
    ascending order of their addresses, each with its physical frame. *)
Theorem getpgdirinfo_reports (pr : Z) (s : kmem) :
  sys_getpgdirinfo pr s = Ok (take 32 (user_pages (km_mem s) (load32 (km_mem s) (pr + P_pgdir)) 0 (1024 * 1024))) s.
Proof.
  unfold sys_getpgdirinfo. rewrite (bind_ok _ _ _ _ _ (eq_refl : rd32 (pr + P_pgdir) s = Ok _ s)). unfold gets. f_equal.
  rewrite pgdir_scan_spec by (unfold NPDENTRIES; cbn; lia). reflexivity.
Qed.

(** [sys_getwmapinfo] writes, for up to 16 regions, the address, length and
    page count of every region up to the first unused node into the struct the
    caller names, adds their number to [total_mmaps] and touches nothing else. *)
Theorem getwmapinfo_reports (pr : Z) fuel s ns l u addr :
  lazy_wf s pr ns l -> mem_ok u -> (length ns < fuel)%nat -> 0 <= addr -> addr + 196 <= two32 ->
  (length (used_regions ns) <= 16)%nat ->
  exists u', sys_getwmapinfo pr fuel addr (s, u) = Ok 0 (s, u') /\ reported u' addr 0 (used_regions ns) /\
    load32 u' addr = u32 (load32 u addr + Z.of_nat (length (used_regions ns))) /\
    (forall x, x < addr \/ addr + 196 <= x -> u' x = u x).
Proof.
  intros Lw Hu Hf Ha Hb Hn.
  destruct (getwmapinfo_loop_spec pr addr ns fuel s [] l u 0) as (u' & Hrun & Hrep & Htot & Hfr); auto; try lia.
  exists u'. split_and!; auto; [|intros x Hx; apply Hfr; lia]. unfold sys_getwmapinfo.
  rewrite (bind_ok _ _ _ _ _ (lift_ok _ _ _ u _ (eq_refl : rd32 (pr + P_head) s = Ok _ s))), (lazy_head s pr _ _ Lw).
  rewrite u32_small by (unfold two32 in *; lia). fold (first_node ns). now rewrite (bind_ok _ _ _ _ _ Hrun).
Qed.

Context {readable : F -> Z -> Prop} {file_bytes : F -> Z -> Z -> nat -> list Z}.
Context {FLOK : FileLayerOk F readable file_bytes}.

(** A fault on an absent page of a file region loads the page: the frame that
    is mapped holds the bytes of the file from the page's offset in the region
    on, and zeros behind the end of the file.  Every other translation is as
    before and the invariant of list and address space holds again. *)
Lemma pgflt_file (pr : Z) fuel s (fs : F) d ns1 t r ns2 p l err cr2 f :
  wspace pr s d (ns1 ++ (t, r) :: ns2) (p :: l) -> (length ns1 < fuel)%nat ->
  let va := PGROUNDDOWN cr2 in 0 <= cr2 < KERNBASE -> Z.land err 1 = 0 ->
  Forall (fun n => covers (rg_addr (snd n)) (rg_length (snd n)) va = false) ns1 ->
  covers (rg_addr r) (rg_length r) va = true -> 0 <= s32 (rg_fd r) < 16 ->
  load32 (km_mem s) (pr + P_ofile + 4 * s32 (rg_fd r)) = f -> file_at pr f ->
  readable fs f ->
  present (pte_of (km_mem s) d va) = false -> (absent (km_mem s) d <= length l)%nat ->
  load32 (km_mem s) (pr + P_n_upages) < 32 ->
  exists s' fs' l', pgflt pr fuel err cr2 (s, fs) = Ok true (s', fs') /\
    wspace pr s' d (ns1 ++ (t, bump r) :: ns2) l' /\
    (forall a, pte_of (km_mem s') d a = if same_page va a then V2P p + 7 else pte_of (km_mem s) d a) /\
    let bs := file_bytes fs f (va - rg_addr r) 4096 in
    bytes (km_mem s') p (length bs) = bs /\
    (forall x, p + Z.of_nat (length bs) <= x < p + 4096 -> km_mem s' x = 0).
Proof.
  intros Hws Hf va Hcr Herr Hfirst Hcov Hfd Hof Hfa Hread Hnp Habs Hn. pose proof Hws as [Lw _ _ _ _]. pose proof Lw as [F0 Pr _ _ _ _].
  unfold pgflt. rewrite (bind_ok _ _ _ _ _ (lift_ok _ _ _ fs _ (eq_refl : rd32 (pr + P_head) s = Ok _ s))).
  rewrite (lazy_head s pr _ _ Lw), Herr. change (truth 0) with false. cbv iota zeta. fold va.
  replace (match ns1 ++ (t, r) :: ns2 with [] => 0 | (t0, _) :: _ => t0 end)
    with (match ns1 with [] => t | (t0, _) :: _ => t0 end) by (destruct ns1 as [|[? ?] ?]; reflexivity).
  rewrite (pgflt_lazy_find pr va ns1 fuel s fs [] t r ns2 _ Lw Hf Hfirst Hcov).
  destruct (pgflt_prepare pr s fs d ns1 t r ns2 p l va Hws Hn)
    as (s1 & Hws1 & Hfr1 & Hpn & Hz1 & Hpte1 & Habs1 & E1 & E2 & E3 & Hlow1 & Hrun).
  unfold bind at 1. rewrite Hrun. rewrite (proj2 (Z.eqb_neq _ _)) by lia. rewrite !bind_assoc.
  assert (Hso : load32 (km_mem s1) (u32 (pr + P_ofile + 4 * s32 (rg_fd r))) = f).
  { destruct Pr as [Kpr Hpr]. pose proof end_high. rewrite u32_small by (unfold P_size, P_ofile, KERNBASE, two32 in *; lia).
    rewrite <- Hof. apply load32_ext. intros x Hx. apply Hlow1; unfold P_size, P_n_upages, P_ofile in *; lia. }
  rewrite (bind_ok _ _ _ _ _ (lift_ok _ _ _ fs _ (eq_refl : rd32 _ s1 = Ok _ s1))), Hso, bind_assoc.
  set (s2 := set_mem (store32 (km_mem s1) (f + F_off) (u32 (va - rg_addr r))) s1).
  rewrite (bind_ok _ _ _ _ _ (lift_ok _ _ s2 fs _ (stf_ok f _ _ s1 (proj1 Hfa)))), bind_assoc.
  assert (Hva : 0 <= va < KERNBASE /\ va mod 4096 = 0)
    by (unfold va; rewrite PGROUNDDOWN_eq, u32_small by (unfold KERNBASE, two32 in *; lia); unfold KERNBASE in *; word_lia).
  assert (Hoff : load32 (km_mem s2) (f + F_off) = va - rg_addr r).
  { cbn [s2 km_mem set_mem]. rewrite load32_store32_eq, u32_u32. apply u32_small.
    destruct (lazy_cursor s pr ns1 t r ns2 _ Lw) as (_ & _ & Ea & _).
    pose proof (load32_bound (km_mem s) (t + LZ_addr) ltac:(apply F0)) as Hab. rewrite Ea in Hab.
    unfold covers in Hcov. bool_prop. unfold KERNBASE, two32 in *. lia. }
  pose proof Hfr1 as [((Hpal & Hpe & Hph) & _) _]. pose proof Hfa as (Kf & Hfe & Hfp).
  assert (Hm2 : mem_ok (km_mem s2)) by (apply mem_ok_store32; apply (lw_free _ _ _ _ (ws_lazy _ _ _ _ _ Hws1))).
  destruct (fileread_ok f p PGSIZE s2 fs) as (r0 & k & fs' & Hfr & _ & Hlen & Hbs & _ & Hout & Hmk & Ek);
    [exact Hread | unfold PGSIZE, two31; lia | exact Kf | left; lia | exact Hm2 |].
  rewrite Hoff in Hlen, Hbs, Hout. change (Z.to_nat PGSIZE) with 4096%nat in *.
  set (bs := file_bytes fs f (va - rg_addr r) 4096) in *.
  rewrite (bind_ok _ _ _ _ _ Hfr), bind_ret.
  change (set_mem (km_mem k) s2) with (set_mem (km_mem k) s1) in Ek.
  destruct (wspace_file pr s1 (km_mem k) d _ l p f Hws1 Hfr1 Hpn Hfa Hmk) as (Hws3 & Hfr3 & Hpte3 & Habs3).
  { intros x H1 H2. rewrite Hout by (auto; lia). cbn [s2 km_mem set_mem]. now apply store32_frame. }
  rewrite <- Ek in Hws3, Hfr3.
  rewrite (bind_ok _ _ _ _ _ (lift_ok _ _ _ fs' _ (eq_refl : rd32 (pr + P_pgdir) k = Ok _ k))), (ws_pgdir _ _ _ _ _ Hws3).
  destruct (wspace_map pr k d _ l p va Hws3 Hfr3 Hpn (proj1 Hva) (proj2 Hva)) as (r2 & s4 & l4 & Hmap & Hws4 & Hpc & _ & _ & Hr2);
    [now rewrite Hpte3, Hpte1|].
  rewrite (bind_ok _ _ _ _ _ (lift_ok _ _ _ fs' _ Hmap)).
  destruct Hr2 as [[-> Hpte4] | (_ & _ & Hlt & _)]; [|lia].
  exists s4, fs', l4. split; [reflexivity|]. split_and!; auto.
  - intros a. rewrite Hpte4. destruct (same_page va a); [reflexivity | now rewrite Hpte3, Hpte1].
  - fold bs. rewrite <- Hbs at 2. apply bytes_ext. intros x Hx. apply Hpc. lia.
  - fold bs. intros x Hx. rewrite Hpc, Hout by (unfold F_off in *; lia). cbn [s2 km_mem set_mem].
    rewrite store32_frame by (unfold F_off in *; lia). apply Hz1. lia.
Qed.

End Properties.

(** *** Witnesses *)

Lemma absent_le m d : (absent m d <= 1024)%nat.
Proof. unfold absent. etransitivity; [apply length_filter|]. now rewrite length_seq. Qed.

(** The sample process with 1100 free pages. *)
Definition sample_fault (b : sample_kind) : kmem := sample_wspace b 1100.

Definition sample_free_pages : list Z := pages_from (pool_base + 4096) 1099.

Lemma sample_fault_wf b :
  @wspace sample_linker sample_proc (sample_fault b) 0x80210000 (sample_regions b) (pool_base :: sample_free_pages).
Proof. exact (sample_wspace_wf b 1100 ltac:(lia)). Qed.

Lemma sample_room b : (absent (km_mem (sample_fault b)) 0x80210000 <= length sample_free_pages)%nat.
Proof. unfold sample_free_pages. rewrite pages_from_length. pose proof (absent_le (km_mem (sample_fault b)) 0x80210000). lia. Qed.

Lemma sample_absent b : present (pte_of (km_mem (sample_fault b)) 0x80210000 0x60000000) = false.
Proof. unfold sample_fault. rewrite sample_pte. reflexivity. Qed.

Lemma sample_mapped b : present (pte_of (km_mem (sample_fault b)) 0x80210000 0x60001000) = true.
Proof. unfold sample_fault. rewrite sample_pte. reflexivity. Qed.

Lemma sample_count b : load32 (km_mem (sample_fault b)) (sample_proc + P_n_upages) = 0.
Proof.
  unfold sample_fault. apply sample_zero; [unfold sample_proc, P_n_upages, pool_base; lia|].
  unfold P_n_upages. destruct b; sample_away.
Qed.


Lemma pgflt_copies_private_witness : exists s',
  @pgflt unit no_files sample_proc 9 7 0x60001010 (sample_fault Three, tt) = Ok true (s', tt) /\
  (forall i, 0 <= i < 4096 -> km_mem s' (pool_base + i) = km_mem (sample_fault Three) (0x80240000 + i)).
Proof.
  destruct (@pgflt_copies_private sample_linker sample_linker_ok unit no_files sample_proc 9 (sample_fault Three) tt 0x80210000
    (take 1 (sample_regions Three)) 0x80221000 (sample_region Three 1) (drop 2 (sample_regions Three)) pool_base
    sample_free_pages 7 0x60001010) as (s' & Hrun & _ & _ & Hcopy & _).
  - exact (sample_fault_wf Three).
  - cbn. lia.
  - unfold KERNBASE. lia.
  - reflexivity.
  - repeat constructor.
  - reflexivity.
  - reflexivity.
  - exact (sample_mapped Three).
  - exists s'. split; [exact Hrun|]. intros i Hi. rewrite Hcopy by exact Hi. unfold frame_of, sample_fault.
    rewrite sample_pte. reflexivity.
Defined.

Lemma pgflt_segv_witness :
  @pgflt unit no_files sample_proc 9 2 0x70000000 (sample_fault Three, tt) = Ok false (sample_fault Three, tt) /\
  forall s', @pgflt unit no_files sample_proc 9 2 0x70000000 (sample_fault Single, tt) <> Ok false s'.
Proof.
  split.
  - apply (@pgflt_segv sample_linker sample_linker_ok unit no_files sample_proc 9 (sample_fault Three) tt (sample_regions Three)
      (pool_base :: sample_free_pages) 2 0x70000000).
    + apply (sample_fault_wf Three).
    + cbn. lia.
    + reflexivity.
    + repeat constructor.
  - apply (@pgflt_segv sample_linker sample_linker_ok unit no_files sample_proc 9 (sample_fault Single) tt (sample_regions Single)
      (pool_base :: sample_free_pages) 2 0x70000000).
    + apply (sample_fault_wf Single).
    + cbn. lia.
    + reflexivity.
    + right. left. split; reflexivity.
Defined.

Lemma getwmapinfo_reports_witness : exists u',
  @sys_getwmapinfo sample_proc 9 0x2000 (sample_fault Three, fun _ => 0) = Ok 0 (sample_fault Three, u') /\
  load32 u' 0x2000 = 3 /\ load32 u' 0x2008 = 0x60001000.
Proof.
  destruct (@getwmapinfo_reports sample_linker sample_linker_ok sample_proc 9 (sample_fault Three) (sample_regions Three)
    (pool_base :: sample_free_pages) (fun _ => 0) 0x2000) as (u' & Hrun & Hrep & Htot & _).
  - apply (sample_fault_wf Three).
  - intros a. lia.
  - cbn. lia.
  - lia.
  - unfold two32. lia.
  - apply Nat.leb_le. reflexivity.
  - exists u'. split_and!; [exact Hrun | rewrite Htot; reflexivity |].
    exact (proj1 (Hrep 1%nat (sample_region Three 1) eq_refl)).
Defined.
