(* ===== verification/Pipe.v ===== *)
(** Pipes: [src/xv6/xv6-public/pipe.c].

    [pipewrite] and [piperead] hold [p->lock] except while they sleep, so each
    runs from one sleep to the next as one step: [pipewrite_run] and
    [piperead_run] are that stretch of code, with the number of bytes left to
    write or read as the only local state.  Processes interleave as the steps of
    [pstep]: entering a call, running it up to its next sleep or its return,
    being killed, closing an end.  [sleep] on [&p->nread] or [&p->nwrite] and
    [wakeup] are the flag of a thread that is inside a call.

    The counters are [uint]s that wrap around; 512 divides 2^32, so the buffer
    index stays right. *)

From stdpp Require Import gmap.
From S2P Require Import Prelude.

Definition PIPESIZE : Z := 512.

Record pipe := mkPipe {
  pi_data : list Z;
  pi_nread : Z;
  pi_nwrite : Z;
  pi_readopen : Z;
  pi_writeopen : Z
}.

(** The pipe [pipealloc] sets up on a page with the contents [junk]. *)
Definition pipe_init (junk : list Z) : pipe := mkPipe junk 0 0 1 1.

Definition pipe_full (p : pipe) : bool := pi_nwrite p =? u32 (pi_nread p + PIPESIZE).
Definition pipe_empty (p : pipe) : bool := pi_nread p =? pi_nwrite p.

(** [p->data[p->nwrite++ % PIPESIZE] = c]. *)
Definition pipe_put (c : Z) (p : pipe) : pipe :=
  mkPipe (<[Z.to_nat (pi_nwrite p mod PIPESIZE) := c]> (pi_data p)) (pi_nread p) (u32 (pi_nwrite p + 1))
         (pi_readopen p) (pi_writeopen p).

(** [p->data[p->nread++ % PIPESIZE]]. *)
Definition pipe_get (p : pipe) : Z * pipe :=
  (default 0 (pi_data p !! Z.to_nat (pi_nread p mod PIPESIZE)),
   mkPipe (pi_data p) (u32 (pi_nread p + 1)) (pi_nwrite p) (pi_readopen p) (pi_writeopen p)).

(** How a stretch of [pipewrite] ends: returning [n] after [wakeup(&p->nread)],
    returning -1, or in [sleep(&p->nwrite)] after [wakeup(&p->nread)] with the
    bytes still to write. *)
Inductive wresult := WDone | WFail | WBlock (bs : list Z).

(** The loop from [addr + i = bs] on; the number is by how much it moves [i]. *)
Fixpoint pipewrite_run (killed : bool) (bs : list Z) (p : pipe) : pipe * nat * wresult :=
  match bs with
  | [] => (p, 0%nat, WDone)
  | b :: bs' =>
      if pipe_full p then
        if (pi_readopen p =? 0) || killed then (p, 0%nat, WFail) else (p, 0%nat, WBlock bs)
      else let '(p', k, r) := pipewrite_run killed bs' (pipe_put b p) in (p', S k, r)
  end.

(** [piperead]: the copy loop, and the stretch before it. *)
Fixpoint piperead_copy (n : nat) (p : pipe) : list Z * pipe :=
  match n with
  | O => ([], p)
  | S k =>
      if pipe_empty p then ([], p)
      else let (c, p1) := pipe_get p in
           let (cs, p2) := piperead_copy k p1 in (c :: cs, p2)
  end.

Inductive rresult := RDone (cs : list Z) | RFail | RBlock.

Definition piperead_run (killed : bool) (n : nat) (p : pipe) : pipe * rresult :=
  if pipe_empty p && truth (pi_writeopen p) then
    if killed then (p, RFail) else (p, RBlock)
  else let (cs, p') := piperead_copy n p in (p', RDone cs).

(** [pipeclose]; the flag says that the page is freed. *)
Definition pipeclose (writable : bool) (p : pipe) : pipe * bool :=
  let p' := if writable then mkPipe (pi_data p) (pi_nread p) (pi_nwrite p) (pi_readopen p) 0
            else mkPipe (pi_data p) (pi_nread p) (pi_nwrite p) 0 (pi_writeopen p) in
  (p', (pi_readopen p' =? 0) && (pi_writeopen p' =? 0)).

(** ** Processes *)

(** A process inside a call; [asleep] is set between [sleep] and [wakeup]. *)
Inductive thread := TWrite (bs : list Z) (asleep : bool) | TRead (n : nat) (asleep : bool).

Definition wake_readers (t : thread) : thread := match t with TRead n _ => TRead n false | t => t end.
Definition wake_writers (t : thread) : thread := match t with TWrite bs _ => TWrite bs false | t => t end.
Definition wake_any (t : thread) : thread := match t with TRead n _ => TRead n false | TWrite bs _ => TWrite bs false end.

Definition is_write (t : thread) : bool := match t with TWrite _ _ => true | _ => false end.

(** The pipe, the processes in a call, who is killed, and the history: the
    bytes put in and the bytes handed to readers. *)
Record pstate := mkPs {
  ps_pipe : pipe;
  ps_freed : bool;
  ps_threads : gmap nat thread;
  ps_killed : nat -> bool;
  ps_in : list Z;
  ps_out : list Z
}.

Definition pstart (junk : list Z) : pstate := mkPs (pipe_init junk) false ∅ (fun _ => false) [] [].

Inductive pstep : pstate -> pstate -> Prop :=
| ps_call_write s t bs : ps_freed s = false -> ps_threads s !! t = None -> pi_writeopen (ps_pipe s) = 1 ->
    pstep s (mkPs (ps_pipe s) false (<[t := TWrite bs false]> (ps_threads s)) (ps_killed s) (ps_in s) (ps_out s))
| ps_call_read s t n : ps_freed s = false -> ps_threads s !! t = None -> pi_readopen (ps_pipe s) = 1 ->
    pstep s (mkPs (ps_pipe s) false (<[t := TRead n false]> (ps_threads s)) (ps_killed s) (ps_in s) (ps_out s))
| ps_write s t bs p' k r : ps_threads s !! t = Some (TWrite bs false) ->
    pipewrite_run (ps_killed s t) bs (ps_pipe s) = (p', k, r) ->
    let ths := match r with
               | WDone => delete t (wake_readers <$> ps_threads s)
               | WFail => delete t (ps_threads s)
               | WBlock bs' => <[t := TWrite bs' true]> (wake_readers <$> ps_threads s)
               end in
    pstep s (mkPs p' (ps_freed s) ths (ps_killed s) (ps_in s ++ take k bs) (ps_out s))
| ps_read s t n p' r : ps_threads s !! t = Some (TRead n false) ->
    piperead_run (ps_killed s t) n (ps_pipe s) = (p', r) ->
    let ths := match r with
               | RDone _ => delete t (wake_writers <$> ps_threads s)
               | RFail => delete t (ps_threads s)
               | RBlock => <[t := TRead n true]> (ps_threads s)
               end in
    pstep s (mkPs p' (ps_freed s) ths (ps_killed s) (ps_in s)
                  (ps_out s ++ match r with RDone cs => cs | _ => [] end))
| ps_kill s t :
    pstep s (mkPs (ps_pipe s) (ps_freed s) (alter wake_any t (ps_threads s))
                  (fun u => if (u =? t)%nat then true else ps_killed s u) (ps_in s) (ps_out s))
| ps_close_write s p' fr : ps_freed s = false -> pi_writeopen (ps_pipe s) = 1 ->
    (forall t th, ps_threads s !! t = Some th -> is_write th = false) -> pipeclose true (ps_pipe s) = (p', fr) ->
    pstep s (mkPs p' fr (wake_readers <$> ps_threads s) (ps_killed s) (ps_in s) (ps_out s))
| ps_close_read s p' fr : ps_freed s = false -> pi_readopen (ps_pipe s) = 1 ->
    (forall t th, ps_threads s !! t = Some th -> is_write th = true) -> pipeclose false (ps_pipe s) = (p', fr) ->
    pstep s (mkPs p' fr (wake_writers <$> ps_threads s) (ps_killed s) (ps_in s) (ps_out s)).

(** ** The promise: a bounded queue *)

Definition pipe_len (p : pipe) : Z := u32 (pi_nwrite p - pi_nread p).

(** The bytes in the pipe, oldest first. *)
Definition contents (p : pipe) : list Z :=
  map (fun k => default 0 (pi_data p !! Z.to_nat ((pi_nread p + k) mod PIPESIZE))) (seqZ 0 (pipe_len p)).

Record pipe_wf (p : pipe) : Prop := {
  pw_data : length (pi_data p) = 512%nat;
  pw_nread : 0 <= pi_nread p < two32;
  pw_nwrite : 0 <= pi_nwrite p < two32;
  pw_len : pipe_len p <= PIPESIZE
}.

(** A sleeping writer has no room and still a reader. *)
Definition writer_ok (p : pipe) (th : thread) : Prop :=
  match th with TWrite _ true => pipe_len p = 512 /\ pi_readopen p <> 0 | _ => True end.

(** A sleeping reader has nothing to read and still a writer. *)
Definition reader_ok (p : pipe) (th : thread) : Prop :=
  match th with TRead _ true => pipe_len p = 0 /\ pi_writeopen p <> 0 | _ => True end.

(** What holds of every reachable state. *)
Record pinv (s : pstate) : Prop := {
  pv_pipe : pipe_wf (ps_pipe s);
  pv_queue : ps_in s = ps_out s ++ contents (ps_pipe s);
  pv_open : forall t th, ps_threads s !! t = Some th -> is_write th = false -> pi_readopen (ps_pipe s) <> 0;
  pv_writer : forall t th, ps_threads s !! t = Some th -> writer_ok (ps_pipe s) th;
  pv_reader : (forall u, ps_killed s u = false) ->
    forall t th, ps_threads s !! t = Some th -> reader_ok (ps_pipe s) th
}.

(** ** Lemmas *)

Lemma pipe_len_full p : pipe_wf p -> pipe_full p = (pipe_len p =? 512).
Proof.
  intros [_ Hr Hw _]. unfold pipe_full, pipe_len, PIPESIZE. apply eq_true_iff_eq. rewrite !Z.eqb_eq. word_lia.
Qed.

Lemma pipe_len_empty p : pipe_wf p -> pipe_empty p = (pipe_len p =? 0).
Proof.
  intros [_ Hr Hw _]. unfold pipe_empty, pipe_len. apply eq_true_iff_eq. rewrite !Z.eqb_eq. word_lia.
Qed.

Lemma contents_length p : length (contents p) = Z.to_nat (pipe_len p).
Proof. unfold contents. now rewrite length_map, length_seqZ. Qed.

Lemma pipe_nwrite p : pipe_wf p -> pi_nwrite p mod 512 = (pi_nread p + pipe_len p) mod 512.
Proof. intros [_ Hr Hw _]. unfold pipe_len. word_lia. Qed.

Lemma pipe_put_spec p c : pipe_wf p -> pipe_full p = false ->
  pipe_wf (pipe_put c p) /\ contents (pipe_put c p) = contents p ++ [c].
Proof.
  intros Hwf Hf. rewrite pipe_len_full in Hf by exact Hwf. bool_prop. pose proof (pipe_nwrite p Hwf) as Hnw.
  destruct Hwf as [Hd Hr Hw Hl]. unfold PIPESIZE in Hl.
  assert (Hlen : pipe_len (pipe_put c p) = pipe_len p + 1)
    by (unfold pipe_len, pipe_put in *; cbn [pi_nwrite pi_nread]; word_lia).
  assert (H0 : 0 <= pipe_len p) by apply u32_bound.
  split; [constructor; auto|].
  - unfold pipe_put. cbn [pi_data]. now rewrite length_insert.
  - apply u32_bound.
  - rewrite Hlen. unfold PIPESIZE. lia.
  - unfold contents. rewrite Hlen, seqZ_app, map_app by lia. cbn [map]. f_equal.
    + apply map_ext_in. intros k Hk%list_elem_of_In%elem_of_seqZ. unfold pipe_put, PIPESIZE. cbn [pi_data pi_nread].
      rewrite list_lookup_insert_ne; [reflexivity|]. rewrite Hnw. word_lia.
    + rewrite seqZ_cons, seqZ_nil by lia. cbn [map]. f_equal. unfold pipe_put, PIPESIZE. cbn [pi_data pi_nread].
      rewrite Z.add_0_l, <- Hnw, list_lookup_insert_eq; [reflexivity|]. rewrite Hd. word_lia.
Qed.

Lemma pipe_get_spec p : pipe_wf p -> pipe_empty p = false ->
  let (c, p') := pipe_get p in pipe_wf p' /\ contents p = c :: contents p'.
Proof.
  intros Hwf He. rewrite pipe_len_empty in He by exact Hwf. bool_prop. destruct Hwf as [Hd Hr Hw Hl].
  unfold pipe_get. set (p' := mkPipe _ _ _ _ _).
  assert (H0 : 0 <= pipe_len p) by apply u32_bound.
  assert (Hlen : pipe_len p' = pipe_len p - 1) by (unfold pipe_len, p' in *; cbn [pi_nwrite pi_nread]; word_lia).
  split; [constructor; auto; [apply u32_bound | lia]|].
  unfold contents. rewrite Hlen, seqZ_cons by lia. cbn [map]. rewrite Z.add_0_r. f_equal.
  change (Z.succ 0) with (1 + 0). rewrite <- (fmap_add_seqZ 1 0). unfold fmap. rewrite map_map.
  replace (Z.pred (pipe_len p)) with (pipe_len p - 1) by lia. apply map_ext. intros k. cbn [p' pi_data pi_nread].
  do 3 f_equal. unfold PIPESIZE. word_lia.
Qed.

(** A stretch of [pipewrite]. *)
Lemma pipewrite_run_spec killed bs : forall p p' k r, pipe_wf p -> pipewrite_run killed bs p = (p', k, r) ->
  pipe_wf p' /\ contents p' = contents p ++ take k bs /\ pi_readopen p' = pi_readopen p /\
  pi_writeopen p' = pi_writeopen p /\
  match r with
  | WDone => k = length bs
  | WFail => pipe_len p' = 512 /\ (pi_readopen p = 0 \/ killed = true)
  | WBlock bs' => bs' = drop k bs /\ pipe_len p' = 512 /\ pi_readopen p <> 0 /\ killed = false
  end.
Proof.
  induction bs as [|b bs IH]; intros p p' k r Hwf; cbn [pipewrite_run].
  - intros [= <- <- <-]. rewrite take_0, app_nil_r. auto.
  - destruct (pipe_full p) eqn:Ef.
    + pose proof Ef as El. rewrite pipe_len_full in El by exact Hwf. bool_prop.
      destruct ((pi_readopen p =? 0) || killed) eqn:Ek; intros [= <- <- <-]; rewrite take_0, app_nil_r; split_and!; auto.
      * apply orb_true_iff in Ek as [Ek|Ek]; bool_prop; auto.
      * bool_prop. auto.
      * bool_prop. auto.
    + destruct (pipe_put_spec p b Hwf Ef) as [Hwf1 Hc1].
      destruct (pipewrite_run killed bs (pipe_put b p)) as [[p1 k1] r1] eqn:E. intros [= <- <- <-].
      destruct (IH _ _ _ _ Hwf1 E) as (Hwf' & Hc & Hr & Hw & Hres). split_and!; auto.
      * now rewrite Hc, Hc1, <- app_assoc.
      * destruct r1; cbn [length drop]; auto.
Qed.

Lemma piperead_copy_spec n : forall p cs p', pipe_wf p -> piperead_copy n p = (cs, p') ->
  pipe_wf p' /\ contents p = cs ++ contents p' /\ pi_readopen p' = pi_readopen p /\ pi_writeopen p' = pi_writeopen p /\
  length cs = Nat.min n (length (contents p)).
Proof.
  induction n as [|n IH]; intros p cs p' Hwf; cbn [piperead_copy]; [intros [= <- <-]; auto|].
  destruct (pipe_empty p) eqn:Ee.
  - intros [= <- <-]. rewrite pipe_len_empty in Ee by exact Hwf. bool_prop.
    rewrite contents_length, Ee. split_and!; auto.
  - pose proof (pipe_get_spec p Hwf Ee) as Hg. cbn [pipe_get] in *. destruct Hg as [Hwf1 Hc1].
    match goal with |- context [piperead_copy n ?q] => set (p1 := q) in * end.
    destruct (piperead_copy n p1) as [cs1 p2] eqn:E. intros [= <- <-].
    destruct (IH _ _ _ Hwf1 E) as (Hwf' & Hc & Hr & Hw & Hl). split_and!; auto.
    + now rewrite Hc1, Hc.
    + rewrite Hc1. cbn [length]. lia.
Qed.

(** Waking. *)
Lemma wake_readers_ok p th : reader_ok p (wake_readers th).
Proof. destruct th as [bs []|n []]; exact I. Qed.

Lemma wake_writers_ok p th : writer_ok p (wake_writers th).
Proof. destruct th as [bs []|n []]; exact I. Qed.

Lemma wake_readers_writer p th : writer_ok p th -> writer_ok p (wake_readers th).
Proof. now destruct th. Qed.

Lemma wake_writers_reader p th : reader_ok p th -> reader_ok p (wake_writers th).
Proof. now destruct th. Qed.

Lemma wake_write f th : (f = wake_readers \/ f = wake_writers \/ f = wake_any) -> is_write (f th) = is_write th.
Proof. intros [->|[->| ->]]; now destruct th. Qed.

Create HintDb pipes.
#[export] Hint Resolve wake_readers_ok wake_writers_ok wake_readers_writer wake_writers_reader : pipes.

Lemma contents_len_le p p' l : contents p' = contents p ++ l -> pipe_len p <= pipe_len p'.
Proof.
  intros E%(f_equal length). rewrite length_app, !contents_length in E.
  pose proof (u32_bound (pi_nwrite p - pi_nread p)). pose proof (u32_bound (pi_nwrite p' - pi_nread p')).
  unfold pipe_len in *. lia.
Qed.

(** A full pipe stays full under writes. *)
Lemma writer_ok_grow p p' l th : pipe_wf p' -> contents p' = contents p ++ l -> pi_readopen p' = pi_readopen p ->
  writer_ok p th -> writer_ok p' th.
Proof.
  intros Hwf Hc Hr Hw. destruct th as [bs []|n []]; try exact I. destruct Hw as [Hl Ho]. cbn. rewrite Hr.
  pose proof (contents_len_le _ _ _ Hc). pose proof (pw_len _ Hwf) as Hb. unfold PIPESIZE in Hb. split; [lia | exact Ho].
Qed.

Lemma pinv_write s t bs p' k r : pinv s -> ps_threads s !! t = Some (TWrite bs false) ->
  pipewrite_run (ps_killed s t) bs (ps_pipe s) = (p', k, r) ->
  let ths := match r with
             | WDone => delete t (wake_readers <$> ps_threads s)
             | WFail => delete t (ps_threads s)
             | WBlock bs' => <[t := TWrite bs' true]> (wake_readers <$> ps_threads s)
             end in
  pinv (mkPs p' (ps_freed s) ths (ps_killed s) (ps_in s ++ take k bs) (ps_out s)).
Proof.
  intros [Hwf Hq Ho Hsw Hsr] Ht Hrun ths.
  destruct (pipewrite_run_spec _ _ _ _ _ _ Hwf Hrun) as (Hwf' & Hc & Hro & Hwo & Hres).
  assert (Hw : forall u th, ps_threads s !! u = Some th -> writer_ok p' th)
    by (intros u th Hu; eapply writer_ok_grow; eauto).
  constructor; cbn [ps_pipe ps_in ps_out ps_threads ps_killed]; [exact Hwf' | now rewrite Hq, Hc, app_assoc | rewrite Hro | |].
  - intros u th Hu Hn. destruct r as [| |bs']; unfold ths in Hu.
    + apply lookup_delete_Some in Hu as [_ Hu]. rewrite lookup_fmap in Hu. apply fmap_Some in Hu as (th0 & Hu & ->).
      rewrite wake_write in Hn by auto. eauto.
    + apply lookup_delete_Some in Hu as [_ Hu]. eauto.
    + tauto.
  - intros u th Hu. destruct r as [| |bs']; unfold ths in Hu.
    + apply lookup_delete_Some in Hu as [_ Hu]. rewrite lookup_fmap in Hu. apply fmap_Some in Hu as (th0 & Hu & ->). eauto with pipes.
    + apply lookup_delete_Some in Hu as [_ Hu]. eauto.
    + apply lookup_insert_Some in Hu as [[<- <-]|[_ Hu]]; [cbn; rewrite Hro; tauto|].
      rewrite lookup_fmap in Hu. apply fmap_Some in Hu as (th0 & Hu & ->). eauto with pipes.
  - intros Hk u th Hu. destruct r as [| |bs']; unfold ths in Hu.
    + apply lookup_delete_Some in Hu as [_ Hu]. rewrite lookup_fmap in Hu. apply fmap_Some in Hu as (th0 & Hu & ->). auto with pipes.
    + apply lookup_delete_Some in Hu as [_ Hu]. destruct Hres as [_ [Hr0|Hk0]]; [|congruence].
      destruct th as [bs1 b1|n b1]; [exact I|]. now destruct (Ho u _ Hu eq_refl).
    + apply lookup_insert_Some in Hu as [[<- <-]|[_ Hu]]; [exact I|].
      rewrite lookup_fmap in Hu. apply fmap_Some in Hu as (th0 & Hu & ->). auto with pipes.
Qed.

Lemma pinv_read s t n p' r : pinv s -> ps_threads s !! t = Some (TRead n false) ->
  piperead_run (ps_killed s t) n (ps_pipe s) = (p', r) ->
  let ths := match r with
             | RDone _ => delete t (wake_writers <$> ps_threads s)
             | RFail => delete t (ps_threads s)
             | RBlock => <[t := TRead n true]> (ps_threads s)
             end in
  pinv (mkPs p' (ps_freed s) ths (ps_killed s) (ps_in s) (ps_out s ++ match r with RDone cs => cs | _ => [] end)).
Proof.
  intros [Hwf Hq Ho Hsw Hsr] Ht. unfold piperead_run. destruct (pipe_empty (ps_pipe s) && truth (pi_writeopen (ps_pipe s))) eqn:E.
  - apply andb_prop in E as [Ee Ew]. pose proof Ee as El. rewrite pipe_len_empty in El by exact Hwf. bool_prop.
    apply truth_true in Ew.
    destruct (ps_killed s t); intros [= <- <-]; constructor; cbn [ps_pipe ps_in ps_out ps_threads ps_killed]; auto;
      try (now rewrite app_nil_r); try (intros u th [_ Hu]%lookup_delete_Some; now eauto).
    + intros Hk u th [_ Hu]%lookup_delete_Some. eauto.
    + intros u th [[<- <-]|[_ Hu]]%lookup_insert_Some; eauto.
    + intros u th [[<- <-]|[_ Hu]]%lookup_insert_Some; [exact I | eauto].
    + intros Hk u th [[<- <-]|[_ Hu]]%lookup_insert_Some; [now split | eauto].
  - destruct (piperead_copy n (ps_pipe s)) as [cs p1] eqn:Ec. intros [= <- <-].
    destruct (piperead_copy_spec _ _ _ _ Hwf Ec) as (Hwf' & Hc & Hro & Hwo & _).
    constructor; cbn [ps_pipe ps_in ps_out ps_threads ps_killed]; [exact Hwf' | now rewrite Hq, Hc, app_assoc | rewrite Hro | |].
    + intros u th [_ Hu]%lookup_delete_Some Hn. rewrite lookup_fmap in Hu. apply fmap_Some in Hu as (th0 & Hu & ->).
      rewrite wake_write in Hn by auto. eauto.
    + intros u th [_ Hu]%lookup_delete_Some. rewrite lookup_fmap in Hu. apply fmap_Some in Hu as (th0 & Hu & ->). auto with pipes.
    + intros Hk u th [_ Hu]%lookup_delete_Some. rewrite lookup_fmap in Hu. apply fmap_Some in Hu as (th0 & Hu & ->).
      apply wake_writers_reader. specialize (Hsr Hk u th0 Hu). destruct th0 as [bs []|m []]; try exact I.
      destruct Hsr as [Hl Hw]. cbn. rewrite Hwo. split; [|exact Hw].
      apply (f_equal length) in Hc. rewrite length_app, !contents_length, Hl in Hc. cbn in Hc.
      pose proof (u32_bound (pi_nwrite p1 - pi_nread p1)). unfold pipe_len in *. lia.
Qed.

Lemma pinv_step s s' : pinv s -> pstep s s' -> pinv s'.
Proof.
  intros Hi Hs. destruct Hs as [s t bs Hf Ht Hw|s t n Hf Ht Hr|s t bs p' k r Ht Hrun|s t n p' r Ht Hrun|s t
    |s p' fr Hf Hw Hno Hc|s p' fr Hf Hr Hno Hc].
  - destruct Hi as [Hwf Hq Ho Hsw Hsr]. constructor; cbn [ps_pipe ps_in ps_out ps_threads ps_killed]; auto.
    + intros u th [[<- <-]|[_ Hu]]%lookup_insert_Some Hn; [discriminate | eauto].
    + intros u th [[<- <-]|[_ Hu]]%lookup_insert_Some; [exact I | eauto].
    + intros Hk u th [[<- <-]|[_ Hu]]%lookup_insert_Some; [exact I | eauto].
  - destruct Hi as [Hwf Hq Ho Hsw Hsr]. constructor; cbn [ps_pipe ps_in ps_out ps_threads ps_killed]; auto.
    + intros u th [[<- <-]|[_ Hu]]%lookup_insert_Some Hn; [congruence | eauto].
    + intros u th [[<- <-]|[_ Hu]]%lookup_insert_Some; [exact I | eauto].
    + intros Hk u th [[<- <-]|[_ Hu]]%lookup_insert_Some; [exact I | eauto].
  - now apply (pinv_write s t).
  - now apply (pinv_read s t).
  - destruct Hi as [Hwf Hq Ho Hsw Hsr]. constructor; cbn [ps_pipe ps_in ps_out ps_threads ps_killed]; auto.
    + intros u th [[-> (th0 & Hu & ->)]|[_ Hu]]%lookup_alter_Some Hn; [rewrite wake_write in Hn by auto|]; eauto.
    + intros u th [[-> (th0 & Hu & ->)]|[_ Hu]]%lookup_alter_Some; [now destruct th0 | eauto].
    + intros Hk. specialize (Hk t). rewrite Nat.eqb_refl in Hk. discriminate.
  - destruct Hi as [Hwf Hq Ho Hsw Hsr]. injection Hc as <- _.
    constructor; cbn [ps_pipe ps_in ps_out ps_threads ps_killed pi_readopen]; auto.
    + destruct Hwf. now constructor.
    + intros u th Hu Hn. rewrite lookup_fmap in Hu. apply fmap_Some in Hu as (th0 & Hu & ->).
      rewrite wake_write in Hn by auto. eauto.
    + intros u th Hu. rewrite lookup_fmap in Hu. apply fmap_Some in Hu as (th0 & Hu & ->).
      apply wake_readers_writer. exact (Hsw u th0 Hu).
    + intros _ u th Hu. rewrite lookup_fmap in Hu. apply fmap_Some in Hu as (th0 & Hu & ->). auto with pipes.
  - destruct Hi as [Hwf Hq Ho Hsw Hsr]. injection Hc as <- _.
    constructor; cbn [ps_pipe ps_in ps_out ps_threads ps_killed pi_readopen]; auto.
    + destruct Hwf. now constructor.
    + intros u th Hu Hn. rewrite lookup_fmap in Hu. apply fmap_Some in Hu as (th0 & Hu & ->).
      rewrite wake_write in Hn by auto. specialize (Hno u th0 Hu). congruence.
    + intros u th Hu. rewrite lookup_fmap in Hu. apply fmap_Some in Hu as (th0 & Hu & ->). auto with pipes.
    + intros Hk u th Hu. rewrite lookup_fmap in Hu. apply fmap_Some in Hu as (th0 & Hu & ->).
      apply wake_writers_reader. exact (Hsr Hk u th0 Hu).
Qed.

Lemma pinv_start junk : length junk = 512%nat -> pinv (pstart junk).
Proof.
  intros Hj. constructor; cbn; try now intros.
Qed.

Lemma pinv_reach junk s : length junk = 512%nat -> rtc pstep (pstart junk) s -> pinv s.
Proof.
  intros Hj Hr. remember (pstart junk) as s0 eqn:E. assert (Hi : pinv s0) by (subst; now apply pinv_start).
  clear E. induction Hr as [s|s1 s2 s3 H1 _ IH]; [exact Hi|]. apply IH. eapply pinv_step; eauto.
Qed.

(** ** Properties *)

(** C19: A pipe is a bounded first-in first-out queue under every interleaving of
    reads, writes, kills and closes: the bytes writers have put in, in order, are
    the bytes readers have received followed by the bytes in the buffer, and the
    buffer never holds more than 512 bytes, also after the counters wrap. *)
Theorem pipe_fifo (junk : list Z) (s : pstate) : length junk = 512%nat -> rtc pstep (pstart junk) s ->
  ps_in s = ps_out s ++ contents (ps_pipe s) /\ (length (contents (ps_pipe s)) <= 512)%nat.
Proof.
  intros Hj Hr. destruct (pinv_reach junk s Hj Hr) as [Hwf Hq _ _ _]. split; [exact Hq|].
  rewrite contents_length. pose proof (pw_len _ Hwf). unfold PIPESIZE in *. lia.
Qed.

Lemma pipe_fifo_witness : exists s, rtc pstep (pstart (repeat 0 512)) s /\ ps_in s = [7; 8] /\
  ps_in s = ps_out s ++ contents (ps_pipe s) /\ (length (contents (ps_pipe s)) <= 512)%nat.
Proof.
  eexists. split; [|split; [|apply (pipe_fifo (repeat 0 512)); [reflexivity|]]].
  - eapply rtc_l; [apply (ps_call_write _ 0%nat [7; 8]); reflexivity|].
    eapply rtc_l; [eapply (ps_write _ 0%nat); [vm_compute; reflexivity | vm_compute; reflexivity]|]. apply rtc_refl.
  - reflexivity.
  - eapply rtc_l; [apply (ps_call_write _ 0%nat [7; 8]); reflexivity|].
    eapply rtc_l; [eapply (ps_write _ 0%nat); [vm_compute; reflexivity | vm_compute; reflexivity]|]. apply rtc_refl.
Defined.

(** C31: Nobody sleeps on a pipe without reason.  In every reachable state a
    sleeping writer faces a full pipe with an open read end, and as long as no
    process has been killed a sleeping reader faces an empty pipe with an open
    write end: every change that would let it continue wakes it. *)
Theorem pipe_no_lost_wakeup (junk : list Z) (s : pstate) : length junk = 512%nat -> rtc pstep (pstart junk) s ->
  (forall t bs, ps_threads s !! t = Some (TWrite bs true) ->
     length (contents (ps_pipe s)) = 512%nat /\ pi_readopen (ps_pipe s) <> 0) /\
  ((forall u, ps_killed s u = false) -> forall t n, ps_threads s !! t = Some (TRead n true) ->
     contents (ps_pipe s) = [] /\ pi_writeopen (ps_pipe s) <> 0).
Proof.
  intros Hj Hr. destruct (pinv_reach junk s Hj Hr) as [Hwf Hq _ Hsw Hsr]. split.
  - intros t bs Ht. destruct (Hsw t _ Ht) as [Hl Ho]. split; [|exact Ho]. now rewrite contents_length, Hl.
  - intros Hk t n Ht. destruct (Hsr Hk t _ Ht) as [Hl Ho]. split; [|exact Ho]. apply nil_length_inv.
    now rewrite contents_length, Hl.
Qed.

(** A writer that is killed while the pipe is full returns without waking the
    readers, so a reader can sleep on a full pipe with the write end open: a
    reader waits on the empty pipe, a killed process writes 513 bytes, stops at
    the 512th and returns -1. *)
Theorem pipe_killed_writer_strands_reader : exists s, rtc pstep (pstart (repeat 0 512)) s /\
  ps_threads s = {[0%nat := TRead 1 true]} /\ length (contents (ps_pipe s)) = 512%nat /\ pi_writeopen (ps_pipe s) = 1.
Proof.
  set (junk := repeat 0 512).
  assert (Hwf : pipe_wf (pipe_init junk)) by apply (pinv_start junk), repeat_length.
  destruct (pipewrite_run true (repeat 7 513) (pipe_init junk)) as [[p' k] r] eqn:E.
  destruct (pipewrite_run_spec _ _ _ _ _ _ Hwf E) as (Hwf' & Hc & Hro & Hwo & Hres).
  destruct r as [| |bs']; [exfalso | | destruct Hres as (_ & _ & _ & [=])].
  { pose proof (pw_len _ Hwf') as Hl. apply (f_equal length) in Hc. rewrite length_app, Hres, firstn_all, !contents_length, repeat_length in Hc.
    unfold PIPESIZE in Hl. lia. }
  eexists. split; [|split; [|split]].
  - eapply rtc_l; [apply (ps_call_read _ 0%nat 1); reflexivity|].
    eapply rtc_l; [eapply (ps_read _ 0%nat); [reflexivity | reflexivity]|].
    eapply rtc_l; [apply (ps_call_write _ 1%nat (repeat 7 513)); reflexivity|].
    eapply rtc_l; [apply (ps_kill _ 1%nat)|].
    eapply rtc_l; [eapply (ps_write _ 1%nat (repeat 7 513) p' k WFail); [reflexivity | exact E]|]. apply rtc_refl.
  - reflexivity.
  - cbn [ps_pipe]. now rewrite contents_length, (proj1 Hres).
  - exact Hwo.
Qed.

Lemma pipe_no_lost_wakeup_witness : exists s, rtc pstep (pstart (repeat 0 512)) s /\
  ps_threads s !! 0%nat = Some (TRead 1 true) /\ contents (ps_pipe s) = [] /\ pi_writeopen (ps_pipe s) <> 0.
Proof.
  set (s := mkPs (pipe_init (repeat 0 512)) false {[0%nat := TRead 1 true]} (fun _ => false) [] []).
  assert (Hr : rtc pstep (pstart (repeat 0 512)) s).
  { eapply rtc_l; [apply (ps_call_read _ 0%nat 1); reflexivity|].
    eapply rtc_l; [eapply (ps_read _ 0%nat); [reflexivity | reflexivity]|]. apply rtc_refl. }
  exists s. split; [exact Hr|]. split; [reflexivity|].
  apply (proj2 (pipe_no_lost_wakeup (repeat 0 512) s (repeat_length 0 512) Hr) (fun _ => eq_refl) 0%nat 1%nat). reflexivity.
Defined.
