(* ===== verification/Block.v ===== *)
(** The interface between the buffer cache ([src/xv6/xv6-public/bio.c]) and its
    clients, the log and the file system.

    A buffer is named by its index in [bcache.buf].  A client sees, for every
    block, its current contents [view] (in the cache or on the disk), the
    contents on the [disk], the set of [pinned] blocks whose buffers are dirty,
    and the history [writes] of the disk.  [boot d n] is the cache of a machine
    started on a disk of [n] blocks with contents [d].  [cache_wf s H] is the cache's
    invariant while the current process holds the buffers [H]. *)

From stdpp Require Import gmap.
From S2P Require Import Prelude Mem.

(** A disk block, as the bytes at 0 .. 511. *)
Definition block : Type := mem.
Definition BSIZE : Z := 512.
Definition NBUF : nat := 30.
Definition FSSIZE : Z := 1000.

Class BlockCache (S : Type) := {
  bread : Z -> M S nat;
  bwrite : nat -> M S unit;
  brelse : nat -> M S unit;
  bdata : S -> nat -> block;
  set_bdata : nat -> block -> S -> S;
  set_bdirty : nat -> S -> S;
  bblockno : S -> nat -> Z
}.

(** The abstract state of a cache. *)
Class CacheSpec (S : Type) := {
  cache_wf : S -> list (nat * Z) -> Prop;
  view : S -> Z -> block;
  disk : S -> Z -> block;
  pinned : S -> gset Z;
  writes : S -> list (Z * block);
  nblocks : S -> Z;
  boot : (Z -> block) -> Z -> S
}.

Definition upd {A} (f : Z -> A) (k : Z) (v : A) : Z -> A := fun x => if x =? k then v else f x.

Definition held_blocks (H : list (nat * Z)) : gset Z := list_to_set (map snd H).

(** Nothing a client can observe has changed. *)
Record same_view {S} `{CacheSpec S} (s s' : S) : Prop := {
  sv_view : forall b, view s' b = view s b;
  sv_disk : forall b, disk s' b = disk s b;
  sv_pinned : pinned s' = pinned s;
  sv_writes : writes s' = writes s;
  sv_nblocks : nblocks s' = nblocks s
}.

Class BlockCacheOk (S : Type) `{BlockCache S} `{CacheSpec S} : Prop := {
  bread_ok : forall s H b, cache_wf s H -> b ∉ map snd H -> 0 <= b < nblocks s ->
    b ∈ pinned s \/ (size (pinned s ∪ held_blocks H) < NBUF)%nat ->
    exists i s', bread b s = Ok i s' /\ cache_wf s' ((i, b) :: H) /\ same_view s s';
  held_ok : forall s H i b, cache_wf s H -> (i, b) ∈ H -> bdata s i = view s b /\ bblockno s i = b;
  set_bdata_ok : forall s H i b v, cache_wf s H -> (i, b) ∈ H ->
    cache_wf (set_bdata i v s) H /\ (forall c, view (set_bdata i v s) c = upd (view s) b v c) /\
    (forall c, disk (set_bdata i v s) c = disk s c) /\ pinned (set_bdata i v s) = pinned s /\
    writes (set_bdata i v s) = writes s /\ nblocks (set_bdata i v s) = nblocks s;
  set_bdirty_ok : forall s H i b, cache_wf s H -> (i, b) ∈ H ->
    cache_wf (set_bdirty i s) H /\ (forall c, view (set_bdirty i s) c = view s c) /\
    (forall c, disk (set_bdirty i s) c = disk s c) /\ pinned (set_bdirty i s) = {[b]} ∪ pinned s /\
    writes (set_bdirty i s) = writes s /\ nblocks (set_bdirty i s) = nblocks s;
  bwrite_ok : forall s H i b, cache_wf s H -> (i, b) ∈ H ->
    exists s', bwrite i s = Ok tt s' /\ cache_wf s' H /\ (forall c, view s' c = view s c) /\
      (forall c, disk s' c = upd (disk s) b (view s b) c) /\ pinned s' = pinned s ∖ {[b]} /\
      writes s' = writes s ++ [(b, view s b)] /\ nblocks s' = nblocks s;
  brelse_ok : forall s H i b, cache_wf s ((i, b) :: H) -> b ∈ pinned s \/ view s b = disk s b ->
    exists s', brelse i s = Ok tt s' /\ cache_wf s' H /\ same_view s s';
  held_perm : forall s H H', cache_wf s H -> H ≡ₚ H' -> cache_wf s H';
  boot_ok : forall d n, cache_wf (boot d n) [] /\ (forall b, view (boot d n) b = d b) /\ (forall b, disk (boot d n) b = d b) /\
    pinned (boot d n) = ∅ /\ writes (boot d n) = [] /\ nblocks (boot d n) = n
}.
