(* ===== verification/Bio.v ===== *)
(** The buffer cache, [src/xv6/xv6-public/bio.c], over the memory disk of
    [src/xv6/xv6-public/memide.c], with the sleeping locks of
    [src/xv6/xv6-public/sleeplock.c].

    [bcache.lock] makes each operation one step.  The doubly linked list through
    [prev]/[next] is the list [bs_mru] of buffer indices, most recently used
    first.  Module [Bio] holds the operations; the instances at the end show that
    they keep the promise of [Block]. *)

From stdpp Require Import gmap.
From S2P Require Import Prelude Mem Block.

Module Bio.

Definition B_VALID : Z := 0x2.
Definition B_DIRTY : Z := 0x4.

(** [struct sleeplock]: [locked] and [pid]. *)
Record sleeplock := mkSleep { sl_locked : Z; sl_pid : Z }.

Definition initsleeplock : sleeplock := mkSleep 0 0.

Record buf := mkBuf {
  b_flags : Z;
  b_dev : Z;
  b_blockno : Z;
  b_lock : sleeplock;
  b_refcnt : Z;
  b_data : block
}.

(** [bcache], [memdisk] and [disksize]; [bs_writes] records the disk's writes. *)
Record bstate := mkBs {
  bs_bufs : list buf;
  bs_mru : list nat;
  bs_disk : Z -> block;
  bs_disksize : Z;
  bs_writes : list (Z * block)
}.

Definition set_bufs (l : list buf) (s : bstate) : bstate :=
  mkBs l (bs_mru s) (bs_disk s) (bs_disksize s) (bs_writes s).
Definition set_mru (l : list nat) (s : bstate) : bstate :=
  mkBs (bs_bufs s) l (bs_disk s) (bs_disksize s) (bs_writes s).
Definition disk_write (n : Z) (v : block) (s : bstate) : bstate :=
  mkBs (bs_bufs s) (bs_mru s) (upd (bs_disk s) n v) (bs_disksize s) (bs_writes s ++ [(n, v)]).

(** The buffer an index names; the code only uses pointers into [bcache.buf]. *)
Definition get_buf (i : nat) : M bstate buf :=
  fun s => match bs_bufs s !! i with Some b => Ok b s | None => Fault "no such buffer" end.
Definition put_buf (i : nat) (b : buf) : M bstate unit :=
  modify (fun s => set_bufs (<[i := b]> (bs_bufs s)) s).

Definition with_flags (f : Z) (b : buf) : buf := mkBuf f (b_dev b) (b_blockno b) (b_lock b) (b_refcnt b) (b_data b).
Definition with_lock (l : sleeplock) (b : buf) : buf := mkBuf (b_flags b) (b_dev b) (b_blockno b) l (b_refcnt b) (b_data b).
Definition with_refcnt (n : Z) (b : buf) : buf := mkBuf (b_flags b) (b_dev b) (b_blockno b) (b_lock b) n (b_data b).
Definition with_data (d : block) (b : buf) : buf := mkBuf (b_flags b) (b_dev b) (b_blockno b) (b_lock b) (b_refcnt b) d.

Section Bio.

(** [myproc()->pid]. *)
Variable pid : Z.

(** The lock of the buffer [i].  A lock that is taken would put the process to
    sleep; as only this process runs, nobody would wake it. *)
Definition acquiresleep (i : nat) : M bstate unit :=
  b <- get_buf i ;;
  if truth (sl_locked (b_lock b)) then fault "acquiresleep: sleeps forever"
  else put_buf i (with_lock (mkSleep 1 pid) b).

Definition releasesleep (i : nat) : M bstate unit :=
  b <- get_buf i ;; put_buf i (with_lock (mkSleep 0 0) b).

Definition holdingsleep (i : nat) : M bstate bool :=
  b <- get_buf i ;; ret (truth (sl_locked (b_lock b)) && (sl_pid (b_lock b) =? pid)).

(** [binit]: each buffer goes to the front of the list. *)
Fixpoint binit_loop (n : nat) (i : nat) (mru : list nat) : list nat :=
  match n with O => mru | S n => binit_loop n (S i) (i :: mru) end.

Definition binit (d : Z -> block) (size : Z) : bstate :=
  mkBs (replicate NBUF (mkBuf 0 0 0 initsleeplock 0 (fun _ => 0))) (binit_loop NBUF 0 []) d size [].

(** The first index of the list whose buffer satisfies a test. *)
Fixpoint find_buf (P : buf -> bool) (bufs : list buf) (l : list nat) : option nat :=
  match l with
  | [] => None
  | i :: l => match bufs !! i with
              | Some b => if P b then Some i else find_buf P bufs l
              | None => find_buf P bufs l
              end
  end.

Definition bget (dev blockno : Z) : M bstate nat :=
  bufs <- gets bs_bufs ;;
  mru <- gets bs_mru ;;
  match find_buf (fun b => (b_dev b =? dev) && (b_blockno b =? blockno)) bufs mru with
  | Some i =>
      b <- get_buf i ;;
      put_buf i (with_refcnt (u32 (b_refcnt b + 1)) b) ;;;
      acquiresleep i ;;;
      ret i
  | None =>
      match find_buf (fun b => (b_refcnt b =? 0) && (Z.land (b_flags b) B_DIRTY =? 0)) bufs (rev mru) with
      | Some i =>
          b <- get_buf i ;;
          put_buf i (mkBuf 0 dev blockno (b_lock b) 1 (b_data b)) ;;;
          acquiresleep i ;;;
          ret i
      | None => panic "bget: no buffers"
      end
  end.

Definition iderw (i : nat) : M bstate unit :=
  h <- holdingsleep i ;;
  if negb h then panic "iderw: buf not locked" else
  b <- get_buf i ;;
  if Z.land (b_flags b) (Z.lor B_VALID B_DIRTY) =? B_VALID then panic "iderw: nothing to do" else
  if negb (b_dev b =? 1) then panic "iderw: request not for disk 1" else
  sz <- gets bs_disksize ;;
  if sz <=? b_blockno b then panic "iderw: block out of range" else
  if truth (Z.land (b_flags b) B_DIRTY) then
    modify (disk_write (b_blockno b) (b_data b)) ;;;
    put_buf i (with_flags (Z.lor (Z.land (b_flags b) (Z.lnot B_DIRTY)) B_VALID) b)
  else
    d <- gets bs_disk ;;
    put_buf i (with_flags (Z.lor (b_flags b) B_VALID) (with_data (d (b_blockno b)) b)).

(** The log and the file system use device 1 only. *)
Definition bread (blockno : Z) : M bstate nat :=
  i <- bget 1 blockno ;;
  b <- get_buf i ;;
  (if Z.land (b_flags b) B_VALID =? 0 then iderw i else ret tt) ;;;
  ret i.

Definition bwrite (i : nat) : M bstate unit :=
  h <- holdingsleep i ;;
  if negb h then panic "bwrite" else
  b <- get_buf i ;;
  put_buf i (with_flags (Z.lor (b_flags b) B_DIRTY) b) ;;;
  iderw i.

Definition brelse (i : nat) : M bstate unit :=
  h <- holdingsleep i ;;
  if negb h then panic "brelse" else
  releasesleep i ;;;
  b <- get_buf i ;;
  let b' := with_refcnt (u32 (b_refcnt b - 1)) b in
  put_buf i b' ;;;
  if b_refcnt b' =? 0 then
    modify (fun s => set_mru (i :: filter (fun j => j <> i) (bs_mru s)) s)
  else ret tt.

(** [b->data] and [b->flags |= B_DIRTY], as clients use them. *)
Definition bdata (s : bstate) (i : nat) : block := match bs_bufs s !! i with Some b => b_data b | None => fun _ => 0 end.
Definition bblockno (s : bstate) (i : nat) : Z := match bs_bufs s !! i with Some b => b_blockno b | None => 0 end.
Definition set_bdata (i : nat) (v : block) (s : bstate) : bstate := set_bufs (alter (with_data v) i (bs_bufs s)) s.
Definition set_bdirty (i : nat) (s : bstate) : bstate :=
  set_bufs (alter (fun b => with_flags (Z.lor (b_flags b) B_DIRTY) b) i (bs_bufs s)) s.

End Bio.

(** ** The abstract state *)

Definition dirty (b : buf) : bool := truth (Z.land (b_flags b) B_DIRTY).
Definition caches (bn : Z) (b : buf) : bool := (b_dev b =? 1) && (b_blockno b =? bn).

Definition find_block (bn : Z) (bufs : list buf) : option buf := head (filter (fun b => caches bn b = true) bufs).

Definition view (s : bstate) (bn : Z) : block :=
  match find_block bn (bs_bufs s) with Some b => b_data b | None => bs_disk s bn end.

Definition pinned (s : bstate) : gset Z :=
  list_to_set (map b_blockno (filter (fun b => dirty b = true) (bs_bufs s))).

(** A buffer nobody holds: unused, or the copy of a block, the same as on the
    disk unless dirty. *)
Definition idle (s : bstate) (b : buf) : Prop :=
  b_refcnt b = 0 /\ sl_locked (b_lock b) = 0 /\
  ((b_dev b = 0 /\ b_flags b = 0) \/
   (b_dev b = 1 /\ 0 <= b_blockno b < bs_disksize s /\
    ((b_flags b = 2 /\ b_data b = bs_disk s (b_blockno b)) \/ b_flags b = 6))).

(** A buffer the process [pid] holds for block [bn]. *)
Definition busy (pid : Z) (s : bstate) (bn : Z) (b : buf) : Prop :=
  b_refcnt b = 1 /\ b_lock b = mkSleep 1 pid /\ b_dev b = 1 /\ b_blockno b = bn /\ 0 <= bn < bs_disksize s /\
  (b_flags b = 2 \/ b_flags b = 6).

Record wf (pid : Z) (s : bstate) (H : list (nat * Z)) : Prop := {
  wf_len : length (bs_bufs s) = NBUF;
  wf_mru : bs_mru s ≡ₚ seq 0 NBUF;
  wf_held : forall i bn, (i, bn) ∈ H -> exists b, bs_bufs s !! i = Some b /\ busy pid s bn b;
  wf_idle : forall i b, bs_bufs s !! i = Some b -> i ∉ map fst H -> idle s b;
  wf_uniq : forall i j b b' bn, bs_bufs s !! i = Some b -> bs_bufs s !! j = Some b' ->
    caches bn b = true -> caches bn b' = true -> i = j;
  wf_nodup : NoDup (map fst H)
}.

(** ** Lemmas *)

Lemma find_buf_some P bufs l i : find_buf P bufs l = Some i -> i ∈ l /\ exists b, bufs !! i = Some b /\ P b = true.
Proof.
  induction l as [|j l IH]; cbn [find_buf]; [discriminate|].
  destruct (bufs !! j) as [b|] eqn:E; [destruct (P b) eqn:Ep|].
  - intros [= ->]. split; [apply elem_of_cons; auto | eauto].
  - intros [Hi Hb]%IH. split; [apply elem_of_cons|]; auto.
  - intros [Hi Hb]%IH. split; [apply elem_of_cons|]; auto.
Qed.

Lemma find_buf_none P bufs l : find_buf P bufs l = None -> forall i b, i ∈ l -> bufs !! i = Some b -> P b = false.
Proof.
  induction l as [|j l IH]; cbn [find_buf]; [intros _ i b Hi; now apply not_elem_of_nil in Hi|].
  intros Hn i b [->|Hi]%elem_of_cons Hb.
  - rewrite Hb in Hn. now destruct (P b).
  - apply (IH ltac:(destruct (bufs !! j); [destruct (P _)|]; congruence) i b); auto.
Qed.

Lemma find_block_hit (bufs : list buf) i b bn : (forall i j b b', bufs !! i = Some b -> bufs !! j = Some b' ->
    caches bn b = true -> caches bn b' = true -> i = j) ->
  bufs !! i = Some b -> caches bn b = true -> find_block bn bufs = Some b.
Proof.
  intros Hu Hi Hc. unfold find_block. destruct (filter _ bufs) as [|b' l] eqn:E.
  - exfalso. assert (Hin : b ∈ filter (fun b => caches bn b = true) bufs)
      by (apply list_elem_of_filter; split; [exact Hc | now apply list_elem_of_lookup_2 in Hi]).
    rewrite E in Hin. now apply not_elem_of_nil in Hin.
  - cbn. f_equal. assert (Hin : b' ∈ filter (fun b => caches bn b = true) bufs) by (rewrite E; apply elem_of_cons; auto).
    apply list_elem_of_filter in Hin as [Hc' [j Hj]%list_elem_of_lookup_1]. pose proof (Hu j i b' b Hj Hi Hc' Hc). congruence.
Qed.

Lemma find_block_miss (bufs : list buf) bn : (forall i b, bufs !! i = Some b -> caches bn b = false) -> find_block bn bufs = None.
Proof.
  intros Hn. unfold find_block. rewrite filter_none; [reflexivity|]. intros b [i Hi]%list_elem_of_lookup_1.
  now rewrite (Hn i b Hi).
Qed.

Lemma find_block_case (bufs : list buf) bn : (forall i b, bufs !! i = Some b -> caches bn b = false) \/
  exists i b, bufs !! i = Some b /\ caches bn b = true.
Proof.
  destruct (filter (fun b => caches bn b = true) bufs) as [|b l] eqn:E.
  - left. intros i b Hi. apply not_true_is_false. intros Hc.
    assert (Hin : b ∈ filter (fun b => caches bn b = true) bufs)
      by (apply list_elem_of_filter; split; [exact Hc | now apply list_elem_of_lookup_2 in Hi]).
    rewrite E in Hin. now apply not_elem_of_nil in Hin.
  - right. assert (Hin : b ∈ filter (fun b => caches bn b = true) bufs) by (rewrite E; apply elem_of_cons; auto).
    apply list_elem_of_filter in Hin as [Hc [j Hj]%list_elem_of_lookup_1]. eauto.
Qed.

Lemma elem_pinned s bn : bn ∈ pinned s <-> exists i b, bs_bufs s !! i = Some b /\ dirty b = true /\ b_blockno b = bn.
Proof.
  unfold pinned. rewrite elem_of_list_to_set, list_elem_of_fmap. split.
  - intros (b & -> & [Hd [i Hi]%list_elem_of_lookup_1]%list_elem_of_filter). eauto.
  - intros (i & b & Hi & Hd & <-). exists b. split; [reflexivity|]. apply list_elem_of_filter.
    split; [exact Hd | now apply list_elem_of_lookup_2 in Hi].
Qed.

(** What the lemmas on the contents need of the buffers. *)
Definition uniq (bufs : list buf) : Prop := forall i j b b' bn, bufs !! i = Some b -> bufs !! j = Some b' ->
  caches bn b = true -> caches bn b' = true -> i = j.
Definition dirty_dev (bufs : list buf) : Prop := forall i b, bufs !! i = Some b -> dirty b = true -> b_dev b = 1.

Lemma wf_dirty pid s H : wf pid s H -> dirty_dev (bs_bufs s).
Proof.
  intros [_ _ Hh Hi _ _] i b Hb Hd. destruct (decide (i ∈ map fst H)) as [Hin|Hni].
  - apply list_elem_of_fmap in Hin as ([j bn] & -> & Hin). destruct (Hh _ _ Hin) as (b0 & Hb0 & Hbusy).
    cbn [fst] in *. rewrite Hb in Hb0. injection Hb0 as <-. apply Hbusy.
  - destruct (Hi i b Hb Hni) as (_ & _ & [[_ Hf]|[Hd1 _]]); [|exact Hd1].
    unfold dirty in Hd. rewrite Hf in Hd. discriminate.
Qed.

Lemma caches_eq bn b : caches bn b = true <-> b_dev b = 1 /\ b_blockno b = bn.
Proof. unfold caches. rewrite andb_true_iff, !Z.eqb_eq. reflexivity. Qed.

Lemma lookup_set (bufs : list buf) i b b' j : bufs !! i = Some b ->
  <[i := b']> bufs !! j = if (i =? j)%nat then Some b' else bufs !! j.
Proof.
  intros Hi. destruct (Nat.eqb_spec i j) as [<-|Hne]; [|now apply list_lookup_insert_ne].
  apply list_lookup_insert_eq. now apply lookup_lt_Some in Hi.
Qed.

(** Changing a buffer without changing the block it caches. *)
Lemma update_same s i b b' bn : uniq (bs_bufs s) -> dirty_dev (bs_bufs s) ->
  bs_bufs s !! i = Some b -> caches bn b = true -> caches bn b' = true ->
  let s' := set_bufs (<[i := b']> (bs_bufs s)) s in
  uniq (bs_bufs s') /\ (forall c, view s' c = upd (view s) bn (b_data b') c) /\
  pinned s' = if dirty b' then {[bn]} ∪ pinned s else pinned s ∖ {[bn]}.
Proof.
  intros Hu Hdd Hi Hc Hc' s'.
  assert (Hu' : uniq (bs_bufs s')).
  { intros j k bj bk c. cbn [s' set_bufs bs_bufs]. rewrite !(lookup_set _ _ b) by exact Hi.
    destruct (Nat.eqb_spec i j) as [<-|Hij], (Nat.eqb_spec i k) as [<-|Hik]; intros Hj Hk Hcj Hck; auto.
    - injection Hj as <-. apply (Hu i k b bk c Hi Hk); auto. apply caches_eq in Hc, Hc', Hcj. apply caches_eq. split; [tauto|lia].
    - injection Hk as <-. apply (Hu j i bj b c Hj Hi); auto. apply caches_eq in Hc, Hc', Hck. apply caches_eq. split; [tauto|lia].
    - now apply (Hu j k bj bk c). }
  split; [exact Hu'|]. split.
  - intros c. unfold upd. destruct (Z.eqb_spec c bn) as [->|Hne].
    + unfold view at 1. rewrite (find_block_hit _ i b' bn); [reflexivity | | | exact Hc'].
      * intros j k bj bk Hj Hk. now apply (Hu' j k bj bk bn).
      * cbn [s' set_bufs bs_bufs]. now rewrite (lookup_set _ _ b), Nat.eqb_refl.
    + assert (Hnc : caches c b = false /\ caches c b' = false).
      { apply caches_eq in Hc, Hc'. split; apply not_true_is_false; intros [_ ?]%caches_eq; lia. }
      unfold view. change (bs_disk s') with (bs_disk s). destruct (find_block_case (bs_bufs s) c) as [Hm|(j & bj & Hj & Hcj)].
      * rewrite !find_block_miss; [reflexivity | exact Hm|]. intros j bj. cbn [s' set_bufs bs_bufs].
        rewrite (lookup_set _ _ b) by exact Hi. destruct (i =? j)%nat; [intros [= <-]; tauto | apply Hm].
      * assert (Hji : i <> j) by (intros <-; rewrite Hi in Hj; injection Hj as <-; destruct Hnc; congruence).
        rewrite (find_block_hit (bs_bufs s) j bj c), (find_block_hit (bs_bufs s') j bj c); auto.
        -- intros; eapply Hu'; eauto.
        -- cbn [s' set_bufs bs_bufs]. rewrite (lookup_set _ _ b), (proj2 (Nat.eqb_neq i j)) by auto. exact Hj.
        -- intros; eapply Hu; eauto.
  - assert (Hel : forall c, c ∈ pinned s' <-> (c = bn /\ dirty b' = true) \/ (c <> bn /\ c ∈ pinned s)).
    { intros c. rewrite !elem_pinned. split.
      - intros (j & bj & Hj & Hd & Hbn). cbn [s' set_bufs bs_bufs] in Hj. rewrite (lookup_set _ _ b) in Hj by exact Hi.
        destruct (Nat.eqb_spec i j) as [<-|Hij].
        + injection Hj as <-. left. apply caches_eq in Hc'. split; [lia | exact Hd].
        + right. split; [|eauto]. intros ->. apply Hij. apply (Hu i j b bj bn Hi Hj Hc). apply caches_eq. split; [eauto | exact Hbn].
      - intros [[-> Hd]|[Hne (j & bj & Hj & Hd & Hbn)]]; cbn [s' set_bufs bs_bufs].
        + exists i, b'. rewrite (lookup_set _ _ b), Nat.eqb_refl by exact Hi. apply caches_eq in Hc'. tauto.
        + exists j, bj. rewrite (lookup_set _ _ b) by exact Hi. destruct (Nat.eqb_spec i j) as [<-|Hij]; [|auto].
          rewrite Hi in Hj. injection Hj as <-. apply caches_eq in Hc. lia. }
    apply set_eq. intros c. rewrite Hel. destruct (dirty b').
    + rewrite elem_of_union, elem_of_singleton. destruct (decide (c = bn)); tauto.
    + rewrite elem_of_difference, elem_of_singleton. intuition discriminate.
Qed.

(** Giving a clean buffer to a block that is not cached. *)
Lemma update_recycle s i b b' bn : uniq (bs_bufs s) -> bs_bufs s !! i = Some b ->
  dirty b = false -> dirty b' = false -> (forall c, caches c b = true -> b_data b = bs_disk s c) ->
  (forall j bj, bs_bufs s !! j = Some bj -> caches bn bj = false) ->
  caches bn b' = true -> b_data b' = bs_disk s bn ->
  let s' := set_bufs (<[i := b']> (bs_bufs s)) s in
  uniq (bs_bufs s') /\ (forall c, view s' c = view s c) /\ pinned s' = pinned s.
Proof.
  intros Hu Hi Hd Hd' Hcl Hmiss Hc' Hdat s'.
  assert (Hl : forall j, bs_bufs s' !! j = if (i =? j)%nat then Some b' else bs_bufs s !! j)
    by (intros j; cbn [s' set_bufs bs_bufs]; now apply (lookup_set _ _ b)).
  assert (Hu' : uniq (bs_bufs s')).
  { intros j k bj bk c. rewrite !Hl.
    destruct (Nat.eqb_spec i j) as [<-|Hij], (Nat.eqb_spec i k) as [<-|Hik]; intros Hj Hk Hcj Hck; auto.
    - injection Hj as <-. apply caches_eq in Hc', Hcj. replace c with bn in Hck by lia. rewrite (Hmiss k bk Hk) in Hck. discriminate.
    - injection Hk as <-. apply caches_eq in Hc', Hck. replace c with bn in Hcj by lia. rewrite (Hmiss j bj Hj) in Hcj. discriminate.
    - now apply (Hu j k bj bk c). }
  split; [exact Hu'|]. split.
  - intros c. unfold view. change (bs_disk s') with (bs_disk s). destruct (Z.eq_dec c bn) as [->|Hne].
    + rewrite (find_block_hit (bs_bufs s') i b' bn); [| intros; eapply Hu'; eauto | now rewrite Hl, Nat.eqb_refl | exact Hc'].
      rewrite find_block_miss by exact Hmiss. exact Hdat.
    + assert (Hnc : caches c b' = false)
        by (apply caches_eq in Hc'; apply not_true_is_false; intros [_ ?]%caches_eq; lia).
      assert (Hmiss' : (forall j bj, bs_bufs s !! j = Some bj -> j <> i -> caches c bj = false) ->
                find_block c (bs_bufs s') = None).
      { intros Hm. apply find_block_miss. intros j bj. rewrite Hl. destruct (Nat.eqb_spec i j) as [<-|Hij]; [congruence|].
        intros Hj. apply (Hm j bj Hj). congruence. }
      destruct (find_block_case (bs_bufs s) c) as [Hm|(j & bj & Hj & Hcj)].
      * rewrite Hmiss', find_block_miss; [reflexivity | exact Hm | intros j bj Hj _; now apply (Hm j)].
      * rewrite (find_block_hit (bs_bufs s) j bj c); [| intros; eapply Hu; eauto | exact Hj | exact Hcj].
        destruct (Nat.eq_dec i j) as [<-|Hij].
        -- rewrite Hi in Hj. injection Hj as <-. rewrite Hmiss'; [symmetry; now apply Hcl|].
           intros k bk Hk Hki. apply not_true_is_false. intros Hck. apply Hki. now apply (Hu k i bk b c).
        -- rewrite (find_block_hit (bs_bufs s') j bj c); [reflexivity | intros; eapply Hu'; eauto | | exact Hcj].
           rewrite Hl, (proj2 (Nat.eqb_neq i j)) by exact Hij. exact Hj.
  - apply set_eq. intros c. rewrite !elem_pinned. split; intros (j & bj & Hj & Hdj & Hbn).
    + rewrite Hl in Hj. destruct (Nat.eqb_spec i j); [injection Hj as <-; congruence | eauto].
    + exists j, bj. rewrite Hl. destruct (Nat.eqb_spec i j) as [<-|]; [rewrite Hi in Hj; injection Hj as <-; congruence | auto].
Qed.

(** A buffer can be recycled while dirty and held buffers together are fewer
    than the cache has. *)
Lemma recyclable pid s H : wf pid s H -> (size (pinned s ∪ held_blocks H) < NBUF)%nat ->
  exists i b, bs_bufs s !! i = Some b /\ b_refcnt b = 0 /\ dirty b = false.
Proof.
  intros Hwf Hsz. pose proof (wf_dirty _ _ _ Hwf) as Hdd. destruct Hwf as [Hlen _ Hh Hi Hu _].
  destruct (filter (fun b => b_refcnt b = 0 /\ dirty b = false) (bs_bufs s)) as [|b l] eqn:E.
  2:{ assert (Hin : b ∈ filter (fun b => b_refcnt b = 0 /\ dirty b = false) (bs_bufs s)) by (rewrite E; apply elem_of_cons; auto).
      apply list_elem_of_filter in Hin as [[Hr Hd] [i Hb]%list_elem_of_lookup_1]. eauto. }
  exfalso. assert (Hall : forall i b, bs_bufs s !! i = Some b -> b_dev b = 1 /\ b_blockno b ∈ pinned s ∪ held_blocks H).
  { intros i b Hb. rewrite elem_of_union. unfold held_blocks. rewrite elem_of_list_to_set.
    destruct (decide (i ∈ map fst H)) as [Hin|Hni].
    - apply list_elem_of_fmap in Hin as ([j bn] & -> & Hin). destruct (Hh _ _ Hin) as (b0 & Hb0 & (_ & _ & Hdev & Hbn & _)).
      cbn [fst] in *. rewrite Hb in Hb0. injection Hb0 as <-. split; [exact Hdev|]. right. rewrite Hbn.
      apply list_elem_of_fmap. now exists (j, bn).
    - destruct (dirty b) eqn:Ed; [split; [eauto|]; left; apply elem_pinned; eauto|].
      exfalso. assert (Hin : b ∈ filter (fun b => b_refcnt b = 0 /\ dirty b = false) (bs_bufs s)).
      { apply list_elem_of_filter. split; [|now apply list_elem_of_lookup_2 in Hb]. split; [apply (Hi i b Hb Hni) | exact Ed]. }
      rewrite E in Hin. now apply not_elem_of_nil in Hin. }
  assert (Hnd : NoDup (map b_blockno (bs_bufs s))).
  { apply NoDup_alt. intros i j bn Hi' Hj'. apply list_lookup_fmap_Some in Hi' as (bi & -> & Hbi).
    apply list_lookup_fmap_Some in Hj' as (bj & Ebj & Hbj).
    apply (Hu i j bi bj (b_blockno bi)); auto; apply caches_eq; destruct (Hall _ _ Hbi), (Hall _ _ Hbj); auto. }
  assert (Hsub : list_to_set (map b_blockno (bs_bufs s)) ⊆ pinned s ∪ held_blocks H).
  { intros bn. rewrite elem_of_list_to_set. intros (b & -> & [i Hb]%list_elem_of_lookup_1)%list_elem_of_fmap. now apply (Hall i). }
  apply subseteq_size in Hsub. rewrite size_list_to_set in Hsub by exact Hnd. rewrite length_map, Hlen in Hsub. lia.
Qed.

Section Ops.
Variable pid : Z.

Lemma get_buf_ok s i b : bs_bufs s !! i = Some b -> get_buf i s = Ok b s.
Proof. intros Hi. unfold get_buf. now rewrite Hi. Qed.

Lemma put_put s i b1 b2 : set_bufs (<[i := b2]> (bs_bufs (set_bufs (<[i := b1]> (bs_bufs s)) s))) (set_bufs (<[i := b1]> (bs_bufs s)) s) =
  set_bufs (<[i := b2]> (bs_bufs s)) s.
Proof. unfold set_bufs. cbn [bs_bufs bs_mru bs_disk bs_disksize bs_writes]. now rewrite list_insert_insert_eq. Qed.

Lemma get_put s i b b' : bs_bufs s !! i = Some b -> get_buf i (set_bufs (<[i := b']> (bs_bufs s)) s) = Ok b' (set_bufs (<[i := b']> (bs_bufs s)) s).
Proof. intros Hi. apply get_buf_ok. cbn [set_bufs bs_bufs]. now rewrite (lookup_set _ _ b), Nat.eqb_refl. Qed.

(** The index of a buffer is in the list. *)
Lemma in_mru s H i b : wf pid s H -> bs_bufs s !! i = Some b -> i ∈ bs_mru s.
Proof.
  intros Hwf Hi. rewrite (wf_mru _ _ _ Hwf). apply elem_of_seq. apply lookup_lt_Some in Hi.
  rewrite (wf_len _ _ _ Hwf) in Hi. lia.
Qed.

Lemma wf_take s H i b b' bn : wf pid s H -> bs_bufs s !! i = Some b -> i ∉ map fst H ->
  uniq (<[i := b']> (bs_bufs s)) -> busy pid s bn b' ->
  wf pid (set_bufs (<[i := b']> (bs_bufs s)) s) ((i, bn) :: H).
Proof.
  intros [Hlen Hmru Hh Hid _ Hnd] Hi Hni Hu Hb. constructor; cbn [set_bufs bs_bufs bs_mru map fst]; auto.
  - now rewrite length_insert.
  - intros j c [[= -> ->]|Hin]%elem_of_cons.
    + exists b'. rewrite (lookup_set _ _ b), Nat.eqb_refl by exact Hi. auto.
    + destruct (Hh j c Hin) as (bj & Hj & Hbj). exists bj. rewrite (lookup_set _ _ b) by exact Hi.
      rewrite (proj2 (Nat.eqb_neq i j)); [auto|]. intros <-. apply Hni, list_elem_of_fmap. now exists (i, c).
  - intros j bj. rewrite (lookup_set _ _ b) by exact Hi. destruct (Nat.eqb_spec i j) as [<-|Hij].
    + intros _ Hn. exfalso. apply Hn, elem_of_cons. auto.
    + intros Hj [_ Hn]%not_elem_of_cons. exact (Hid j bj Hj Hn).
  - now apply NoDup_cons.
Qed.

Lemma bget_hit s H i b bn : wf pid s H -> bs_bufs s !! i = Some b -> caches bn b = true -> i ∉ map fst H ->
  let b' := with_lock (mkSleep 1 pid) (with_refcnt 1 b) in
  bget pid 1 bn s = Ok i (set_bufs (<[i := b']> (bs_bufs s)) s).
Proof.
  intros Hwf Hi Hc Hni b'. destruct (wf_idle _ _ _ Hwf i b Hi Hni) as (Hr & Hl & _).
  unfold bget. rewrite (bind_ok _ _ _ _ _ (eq_refl : gets bs_bufs s = Ok _ s)), (bind_ok _ _ _ _ _ (eq_refl : gets bs_mru s = Ok _ s)).
  destruct (find_buf _ _ _) as [j|] eqn:E.
  - apply find_buf_some in E as (_ & bj & Hj & Hcj).
    assert (Hji : j = i) by (apply (wf_uniq _ _ _ Hwf j i bj b bn); auto). subst j. rewrite Hi in Hj. injection Hj as <-.
    rewrite (bind_ok _ _ _ _ _ (get_buf_ok s i b Hi)). rewrite Hr. change (u32 (0 + 1)) with 1.
    rewrite (bind_ok _ _ _ _ _ (eq_refl : put_buf i (with_refcnt 1 b) s = Ok tt (set_bufs (<[i := with_refcnt 1 b]> (bs_bufs s)) s))).
    set (s1 := set_bufs (<[i := with_refcnt 1 b]> (bs_bufs s)) s).
    assert (Ha : acquiresleep pid i s1 = Ok tt (set_bufs (<[i := b']> (bs_bufs s)) s)).
    { unfold acquiresleep, s1. rewrite (bind_ok _ _ _ _ _ (get_put s i b _ Hi)). cbn [with_refcnt b_lock]. rewrite Hl.
      change (truth 0) with false. cbv iota. unfold put_buf, modify. now rewrite put_put. }
    now rewrite (bind_ok _ _ _ _ _ Ha).
  - pose proof (find_buf_none _ _ _ E i b (in_mru s H i b Hwf Hi) Hi) as Hno. cbn in Hno.
    unfold caches in Hc. congruence.
Qed.

Lemma bget_miss s H bn : wf pid s H -> (forall j bj, bs_bufs s !! j = Some bj -> caches bn bj = false) ->
  (size (pinned s ∪ held_blocks H) < NBUF)%nat ->
  exists i b, bs_bufs s !! i = Some b /\ (i ∉ map fst H) /\ dirty b = false /\
    let b' := mkBuf 0 1 bn (mkSleep 1 pid) 1 (b_data b) in
    bget pid 1 bn s = Ok i (set_bufs (<[i := b']> (bs_bufs s)) s).
Proof.
  intros Hwf Hmiss Hsz. unfold bget.
  rewrite (bind_ok _ _ _ _ _ (eq_refl : gets bs_bufs s = Ok _ s)), (bind_ok _ _ _ _ _ (eq_refl : gets bs_mru s = Ok _ s)).
  destruct (find_buf _ _ (bs_mru s)) as [j|] eqn:E1.
  { apply find_buf_some in E1 as (_ & bj & Hj & Hcj). specialize (Hmiss j bj Hj). unfold caches in Hmiss. congruence. }
  destruct (find_buf _ _ (rev (bs_mru s))) as [i|] eqn:E2.
  - apply find_buf_some in E2 as (_ & b & Hi & Hp). apply andb_prop in Hp as [Hr Hd]. bool_prop.
    assert (Hni : i ∉ map fst H).
    { intros ([j bn'] & -> & Hin)%list_elem_of_fmap. destruct (wf_held _ _ _ Hwf _ _ Hin) as (b0 & Hb0 & (Hr1 & _)).
      cbn [fst] in *. rewrite Hi in Hb0. injection Hb0 as <-. lia. }
    exists i, b. split_and!; auto; [unfold dirty; now rewrite Hd|]. set (b' := mkBuf 0 1 bn (mkSleep 1 pid) 1 (b_data b)).
    rewrite (bind_ok _ _ _ _ _ (get_buf_ok s i b Hi)). set (b1 := mkBuf 0 1 bn (b_lock b) 1 (b_data b)).
    rewrite (bind_ok _ _ _ _ _ (eq_refl : put_buf i b1 s = Ok tt (set_bufs (<[i := b1]> (bs_bufs s)) s))).
    destruct (wf_idle _ _ _ Hwf i b Hi Hni) as (_ & Hl & _).
    assert (Ha : acquiresleep pid i (set_bufs (<[i := b1]> (bs_bufs s)) s) = Ok tt (set_bufs (<[i := b']> (bs_bufs s)) s)).
    { unfold acquiresleep. rewrite (bind_ok _ _ _ _ _ (get_put s i b _ Hi)). cbn [b1 b_lock]. rewrite Hl.
      change (truth 0) with false. cbv iota. unfold put_buf, modify. now rewrite put_put. }
    now rewrite (bind_ok _ _ _ _ _ Ha).
  - exfalso. destruct (recyclable _ _ _ Hwf Hsz) as (i & b & Hi & Hr & Hd).
    pose proof (find_buf_none _ _ _ E2 i b) as Hno. cbn in Hno.
    rewrite (proj2 (Z.eqb_eq _ _) Hr) in Hno. unfold dirty in Hd. apply truth_false in Hd. rewrite Hd in Hno.
    discriminate Hno; [apply elem_of_rev; now apply (in_mru s H i b) | exact Hi].
Qed.

(** [iderw] on a held buffer. *)
Lemma iderw_read s i b : bs_bufs s !! i = Some b -> b_lock b = mkSleep 1 pid -> b_flags b = 0 -> b_dev b = 1 ->
  b_blockno b < bs_disksize s ->
  iderw pid i s = Ok tt (set_bufs (<[i := with_flags 2 (with_data (bs_disk s (b_blockno b)) b)]> (bs_bufs s)) s).
Proof.
  intros Hi Hl Hf Hd Hb. unfold iderw, holdingsleep. rewrite bind_assoc, (bind_ok _ _ _ _ _ (get_buf_ok s i b Hi)), bind_ret.
  rewrite Hl. cbn [sl_locked sl_pid]. change (truth 1) with true. rewrite Z.eqb_refl. cbn [andb negb].
  rewrite (bind_ok _ _ _ _ _ (get_buf_ok s i b Hi)), Hf, Hd. change (Z.land 0 (Z.lor B_VALID B_DIRTY) =? B_VALID) with false.
  change (negb (1 =? 1)) with false. cbv iota. rewrite (bind_ok _ _ _ _ _ (eq_refl : gets bs_disksize s = Ok _ s)).
  rewrite (proj2 (Z.leb_gt _ _)) by lia. change (truth (Z.land 0 B_DIRTY)) with false. cbv iota.
  rewrite (bind_ok _ _ _ _ _ (eq_refl : gets bs_disk s = Ok _ s)). reflexivity.
Qed.

Lemma iderw_write s i b : bs_bufs s !! i = Some b -> b_lock b = mkSleep 1 pid -> b_flags b = 6 -> b_dev b = 1 ->
  b_blockno b < bs_disksize s ->
  iderw pid i s = Ok tt (set_bufs (<[i := with_flags 2 b]> (bs_bufs s)) (disk_write (b_blockno b) (b_data b) s)).
Proof.
  intros Hi Hl Hf Hd Hb. unfold iderw, holdingsleep. rewrite bind_assoc, (bind_ok _ _ _ _ _ (get_buf_ok s i b Hi)), bind_ret.
  rewrite Hl. cbn [sl_locked sl_pid]. change (truth 1) with true. rewrite Z.eqb_refl. cbn [andb negb].
  rewrite (bind_ok _ _ _ _ _ (get_buf_ok s i b Hi)), Hf, Hd. change (Z.land 6 (Z.lor B_VALID B_DIRTY) =? B_VALID) with false.
  change (negb (1 =? 1)) with false. cbv iota. rewrite (bind_ok _ _ _ _ _ (eq_refl : gets bs_disksize s = Ok _ s)).
  rewrite (proj2 (Z.leb_gt _ _)) by lia. change (truth (Z.land 6 B_DIRTY)) with true. cbv iota. reflexivity.
Qed.

Lemma not_held s H i b bn : wf pid s H -> bs_bufs s !! i = Some b -> caches bn b = true -> bn ∉ map snd H -> i ∉ map fst H.
Proof.
  intros Hwf Hi [_ Hc]%caches_eq Hn ([j c] & -> & Hin)%list_elem_of_fmap. apply Hn.
  destruct (wf_held _ _ _ Hwf _ _ Hin) as (b0 & Hb0 & (_ & _ & _ & Hbn & _)). cbn [fst] in *.
  rewrite Hi in Hb0. injection Hb0 as <-. apply list_elem_of_fmap. exists (j, c). split; [cbn; lia | exact Hin].
Qed.

Lemma bread_spec s H bn : wf pid s H -> bn ∉ map snd H -> 0 <= bn < bs_disksize s ->
  bn ∈ pinned s \/ (size (pinned s ∪ held_blocks H) < NBUF)%nat ->
  exists i l', let s' := set_bufs l' s in bread pid bn s = Ok i s' /\ wf pid s' ((i, bn) :: H) /\
    (forall c, view s' c = view s c) /\ pinned s' = pinned s.
Proof.
  intros Hwf Hnh Hb Hroom. pose proof (wf_dirty _ _ _ Hwf) as Hdd. pose proof (wf_uniq _ _ _ Hwf) as Hu.
  destruct (find_block_case (bs_bufs s) bn) as [Hmiss|(i & b & Hi & Hc)].
  - destruct Hroom as [Hp|Hsz].
    { apply elem_pinned in Hp as (j & bj & Hj & Hd & Hbn). specialize (Hmiss j bj Hj). pose proof (Hdd j bj Hj Hd).
      rewrite (proj2 (caches_eq bn bj)) in Hmiss; [discriminate | auto]. }
    destruct (bget_miss s H bn Hwf Hmiss Hsz) as (i & b & Hi & Hni & Hd & Hrun).
    set (b1 := mkBuf 0 1 bn (mkSleep 1 pid) 1 (b_data b)) in *. set (b2 := with_flags 2 (with_data (bs_disk s bn) b1)).
    exists i, (<[i := b2]> (bs_bufs s)). cbv zeta.
    destruct (update_recycle s i b b2 bn) as (Hu' & Hv & Hp); auto; try reflexivity.
    + intros c [Hdev Hbn]%caches_eq. destruct (wf_idle _ _ _ Hwf i b Hi Hni) as (_ & _ & [[H0 _]|(_ & _ & [[_ E]|Hf])]); [lia | |].
      * now rewrite E, Hbn.
      * unfold dirty in Hd. rewrite Hf in Hd. discriminate.
    + apply caches_eq. auto.
    + split_and!; auto.
      * unfold bread. rewrite (bind_ok _ _ _ _ _ Hrun), (bind_ok _ _ _ _ _ (get_put s i b _ Hi)). cbn [b1 b_flags].
        change (Z.land 0 B_VALID =? 0) with true. cbv iota.
        assert (Hrd : iderw pid i (set_bufs (<[i := b1]> (bs_bufs s)) s) = Ok tt (set_bufs (<[i := b2]> (bs_bufs s)) s)).
        { rewrite (iderw_read _ i b1); auto; [now rewrite put_put | | cbn; lia].
          cbn [set_bufs bs_bufs]. now rewrite (lookup_set _ _ b), Nat.eqb_refl. }
        now rewrite (bind_ok _ _ _ _ _ Hrd).
      * apply (wf_take s H i b b2 bn); auto. repeat (split; [reflexivity|]). split; [exact Hb | left; reflexivity].
  - pose proof (not_held s H i b bn Hwf Hi Hc Hnh) as Hni. pose proof (bget_hit s H i b bn Hwf Hi Hc Hni) as Hrun.
    set (b' := with_lock (mkSleep 1 pid) (with_refcnt 1 b)) in *. cbv zeta in Hrun.
    destruct (update_same s i b b' bn Hu Hdd Hi Hc Hc) as (Hu' & Hv & Hp).
    destruct (wf_idle _ _ _ Hwf i b Hi Hni) as (_ & _ & [[H0 _]|(Hd1 & Hbb & Hfl)]); [apply caches_eq in Hc; lia|].
    assert (Hf : b_flags b = 2 \/ b_flags b = 6) by (destruct Hfl as [[? _]|?]; auto).
    assert (Hcb : view s bn = b_data b)
      by (unfold view; rewrite (find_block_hit _ i b bn); [reflexivity | intros; eapply Hu; eauto | exact Hi | exact Hc]).
    exists i, (<[i := b']> (bs_bufs s)). cbv zeta. split_and!.
    + unfold bread. rewrite (bind_ok _ _ _ _ _ Hrun), (bind_ok _ _ _ _ _ (get_put s i b _ Hi)). cbn [b' b_flags with_lock with_refcnt].
      replace (Z.land (b_flags b) B_VALID =? 0) with false by (destruct Hf as [-> | ->]; reflexivity). reflexivity.
    + apply (wf_take s H i b b' bn); auto. apply caches_eq in Hc as [_ Hbn]. repeat (split; [auto|]). exact Hf.
    + intros c. rewrite Hv. unfold upd. destruct (Z.eqb_spec c bn) as [->|]; [now rewrite Hcb | reflexivity].
    + rewrite Hp. destruct (dirty b') eqn:Ed; change (dirty b') with (dirty b) in Ed.
      * apply set_eq. intros c. rewrite elem_of_union, elem_of_singleton. split; [|tauto]. intros [->|Hc']; [|exact Hc'].
        apply elem_pinned. apply caches_eq in Hc as [_ Hbn]. eauto.
      * apply set_eq. intros c. rewrite elem_of_difference, elem_of_singleton. split; [tauto|]. intros Hc'. split; [exact Hc'|].
        intros ->. apply elem_pinned in Hc' as (j & bj & Hj & Hdj & Hbn). pose proof (Hdd j bj Hj Hdj) as Hdev.
        assert (j = i) by (apply (Hu j i bj b bn); auto; apply caches_eq; auto). subst j. congruence.
Qed.

Lemma alter_set (bufs : list buf) f i b : bufs !! i = Some b -> alter f i bufs = <[i := f b]> bufs.
Proof.
  intros Hi. apply list_eq. intros j. rewrite (lookup_set _ _ b) by exact Hi. destruct (Nat.eqb_spec i j) as [<-|Hne].
  - now rewrite list_lookup_alter_eq, Hi.
  - now rewrite list_lookup_alter_ne.
Qed.

(** A change of a held buffer that keeps it held for the same block. *)
Lemma wf_keep s s' H i b b' bn : wf pid s H -> (i, bn) ∈ H -> bs_bufs s !! i = Some b -> busy pid s bn b' ->
  bs_bufs s' = <[i := b']> (bs_bufs s) -> bs_mru s' = bs_mru s -> bs_disksize s' = bs_disksize s ->
  (forall c, c <> bn -> bs_disk s' c = bs_disk s c) -> wf pid s' H.
Proof.
  intros Hwf Hin Hi Hb Eb Em Es Ed. pose proof (wf_dirty _ _ _ Hwf) as Hdd. pose proof Hwf as [Hlen Hmru Hh Hid Hu Hnd].
  destruct (Hh i bn Hin) as (b0 & Hb0 & Hbusy). rewrite Hi in Hb0. injection Hb0 as <-.
  assert (Hc : caches bn b = true) by (apply caches_eq; destruct Hbusy as (_ & _ & ? & ? & _); auto).
  assert (Hc' : caches bn b' = true) by (apply caches_eq; destruct Hb as (_ & _ & ? & ? & _); auto).
  constructor; rewrite ?Eb, ?Em; auto.
  - now rewrite length_insert.
  - intros j c Hjc. destruct (Hh j c Hjc) as (bj & Hj & Hbj). rewrite (lookup_set _ _ b) by exact Hi.
    destruct (Nat.eqb_spec i j) as [<-|Hij].
    + rewrite Hi in Hj. injection Hj as <-. exists b'. split; [reflexivity|].
      assert (c = bn) by (destruct Hbj as (_ & _ & _ & ? & _), Hbusy as (_ & _ & _ & ? & _); lia). subst c.
      unfold busy in *. now rewrite Es.
    + exists bj. split; [exact Hj|]. unfold busy in *. now rewrite Es.
  - intros j bj. rewrite (lookup_set _ _ b) by exact Hi. destruct (Nat.eqb_spec i j) as [<-|Hij].
    + intros _ Hn. exfalso. apply Hn, list_elem_of_fmap. now exists (i, bn).
    + intros Hj Hn. destruct (Hid j bj Hj Hn) as (H1 & H2 & H3). split_and!; auto. rewrite Es.
      destruct H3 as [H3|(H3 & H4 & H5)]; [auto|]. right. split_and!; auto; try tauto.
      destruct H5 as [[H5 H6]|H5]; [|auto]. left. split; [exact H5|]. rewrite Ed; [exact H6|].
      intros E. apply Hij. apply (Hu i j b bj bn Hi Hj Hc). apply caches_eq. auto.
  - apply (update_same s i b b' bn); auto.
Qed.

Lemma held_buf s H i bn : wf pid s H -> (i, bn) ∈ H ->
  exists b, bs_bufs s !! i = Some b /\ busy pid s bn b /\ caches bn b = true /\ b_data b = view s bn.
Proof.
  intros Hwf Hin. destruct (wf_held _ _ _ Hwf i bn Hin) as (b & Hi & Hb).
  assert (Hc : caches bn b = true) by (apply caches_eq; destruct Hb as (_ & _ & ? & ? & _); auto).
  exists b. split_and!; auto. unfold view. rewrite (find_block_hit _ i b bn); auto. intros; eapply (wf_uniq _ _ _ Hwf); eauto.
Qed.

Lemma set_bdata_spec s H i bn v : wf pid s H -> (i, bn) ∈ H -> let s' := set_bdata i v s in
  wf pid s' H /\ (forall c, view s' c = upd (view s) bn v c) /\ pinned s' = pinned s.
Proof.
  intros Hwf Hin s'. destruct (held_buf s H i bn Hwf Hin) as (b & Hi & Hb & Hc & _).
  assert (E : s' = set_bufs (<[i := with_data v b]> (bs_bufs s)) s) by (unfold s', set_bdata; now rewrite (alter_set _ _ i b)).
  destruct (update_same s i b (with_data v b) bn) as (_ & Hv & Hp); auto; [exact (wf_uniq _ _ _ Hwf) | exact (wf_dirty _ _ _ Hwf)|].
  rewrite <- E in Hv, Hp. split_and!; [|exact Hv|].
  - apply (wf_keep s s' H i b (with_data v b) bn); auto; now rewrite E.
  - rewrite Hp. change (dirty (with_data v b)) with (dirty b). apply set_eq. intros c. destruct (dirty b) eqn:Ed.
    + rewrite elem_of_union, elem_of_singleton. split; [|tauto]. intros [->|Hcc]; [|exact Hcc]. apply elem_pinned.
      apply caches_eq in Hc. exists i, b. tauto.
    + rewrite elem_of_difference, elem_of_singleton. split; [tauto|]. intros Hcc. split; [exact Hcc|]. intros ->.
      apply elem_pinned in Hcc as (j & bj & Hj & Hdj & Hbn). pose proof (wf_dirty _ _ _ Hwf j bj Hj Hdj).
      assert (j = i) by (apply (wf_uniq _ _ _ Hwf j i bj b bn); auto; apply caches_eq; auto). subst j. congruence.
Qed.

Lemma set_bdirty_spec s H i bn : wf pid s H -> (i, bn) ∈ H -> let s' := set_bdirty i s in
  wf pid s' H /\ (forall c, view s' c = view s c) /\ pinned s' = {[bn]} ∪ pinned s.
Proof.
  intros Hwf Hin s'. destruct (held_buf s H i bn Hwf Hin) as (b & Hi & Hb & Hc & Hd).
  assert (Hf : Z.lor (b_flags b) B_DIRTY = 6) by (destruct Hb as (_ & _ & _ & _ & _ & [-> | ->]); reflexivity).
  assert (E : s' = set_bufs (<[i := with_flags 6 b]> (bs_bufs s)) s)
    by (unfold s', set_bdirty; now rewrite (alter_set _ _ i b), Hf).
  destruct (update_same s i b (with_flags 6 b) bn) as (_ & Hv & Hp); auto; [exact (wf_uniq _ _ _ Hwf) | exact (wf_dirty _ _ _ Hwf)|].
  rewrite <- E in Hv, Hp. split_and!; [| |exact Hp].
  - apply (wf_keep s s' H i b (with_flags 6 b) bn); auto; try now rewrite E.
    destruct Hb as (? & ? & ? & ? & ? & _). unfold busy. cbn. tauto.
  - intros c. rewrite Hv. unfold upd. destruct (Z.eqb_spec c bn) as [->|]; [exact Hd | reflexivity].
Qed.

Lemma bwrite_spec s H i bn : wf pid s H -> (i, bn) ∈ H ->
  exists s', bwrite pid i s = Ok tt s' /\ wf pid s' H /\ (forall c, view s' c = view s c) /\
    (forall c, bs_disk s' c = upd (bs_disk s) bn (view s bn) c) /\ pinned s' = pinned s ∖ {[bn]} /\
    bs_writes s' = bs_writes s ++ [(bn, view s bn)] /\ bs_disksize s' = bs_disksize s.
Proof.
  intros Hwf Hin. destruct (held_buf s H i bn Hwf Hin) as (b & Hi & Hb & Hc & Hd).
  pose proof Hb as (_ & Hl & Hdev & Hbn & Hrng & Hfl).
  assert (Hf : Z.lor (b_flags b) B_DIRTY = 6) by (destruct Hfl as [-> | ->]; reflexivity).
  set (s1 := set_bufs (<[i := with_flags 6 b]> (bs_bufs s)) s).
  set (s2 := set_bufs (<[i := with_flags 2 b]> (bs_bufs s)) s).
  set (s' := set_bufs (<[i := with_flags 2 b]> (bs_bufs s)) (disk_write bn (b_data b) s)).
  destruct (update_same s i b (with_flags 2 b) bn) as (Hu2 & Hv & Hp); auto; [exact (wf_uniq _ _ _ Hwf) | exact (wf_dirty _ _ _ Hwf)|].
  exists s'. split_and!.
  - unfold bwrite, holdingsleep. rewrite bind_assoc, (bind_ok _ _ _ _ _ (get_buf_ok s i b Hi)), bind_ret, Hl.
    cbn [sl_locked sl_pid]. change (truth 1) with true. rewrite Z.eqb_refl. cbn [andb negb].
    rewrite (bind_ok _ _ _ _ _ (get_buf_ok s i b Hi)), Hf.
    rewrite (bind_ok _ _ _ _ _ (eq_refl : put_buf i (with_flags 6 b) s = Ok tt s1)).
    rewrite (iderw_write s1 i (with_flags 6 b)); auto; [| |cbn; lia].
    + f_equal. unfold s', s1, set_bufs, disk_write. cbn. rewrite Hbn. now rewrite list_insert_insert_eq.
    + cbn [s1 set_bufs bs_bufs]. now rewrite (lookup_set _ _ b), Nat.eqb_refl.
  - apply (wf_keep s s' H i b (with_flags 2 b) bn); auto.
    + unfold busy in *. cbn. tauto.
    + intros c Hne. cbn. unfold upd. now rewrite (proj2 (Z.eqb_neq c bn)).
  - intros c. transitivity (view s2 c).
    + unfold view. cbn [s' s2 set_bufs disk_write bs_bufs bs_disk]. destruct (find_block_case (<[i := with_flags 2 b]> (bs_bufs s)) c) as [Hm|(j & bj & Hj & Hcj)].
      * rewrite find_block_miss by exact Hm. unfold upd. rewrite (proj2 (Z.eqb_neq c bn)); [reflexivity|]. intros ->.
        specialize (Hm i (with_flags 2 b)). rewrite (lookup_set _ _ b), Nat.eqb_refl in Hm by exact Hi.
        specialize (Hm eq_refl). change (caches bn (with_flags 2 b)) with (caches bn b) in Hm. congruence.
      * now rewrite (find_block_hit _ j bj c) by (auto; intros; eapply Hu2; eauto).
    + unfold s2. rewrite Hv. unfold upd. destruct (Z.eqb_spec c bn) as [->|]; [exact Hd | reflexivity].
  - intros c. cbn. now rewrite Hd.
  - exact Hp.
  - cbn. now rewrite Hd.
  - reflexivity.
Qed.

Lemma mru_front l i : l ≡ₚ seq 0 NBUF -> (i < NBUF)%nat -> i :: filter (fun j => j <> i) l ≡ₚ seq 0 NBUF.
Proof.
  intros Hp Hi. assert (Hnd : NoDup l) by (rewrite Hp; apply NoDup_ListNoDup, seq_NoDup).
  apply NoDup_Permutation; [| apply NoDup_ListNoDup, seq_NoDup |].
  - apply NoDup_cons. split; [intros [Hn _]%list_elem_of_filter; now apply Hn | now apply NoDup_filter].
  - intros j. rewrite elem_of_cons, list_elem_of_filter, Hp. split; [|destruct (Nat.eq_dec j i); tauto].
    intros [->|[_ Hj]]; [apply elem_of_seq; lia | exact Hj].
Qed.

Lemma brelse_spec s H i bn : wf pid s ((i, bn) :: H) -> bn ∈ pinned s \/ view s bn = bs_disk s bn ->
  exists s', brelse pid i s = Ok tt s' /\ wf pid s' H /\ (forall c, view s' c = view s c) /\
    bs_disk s' = bs_disk s /\ pinned s' = pinned s /\ bs_writes s' = bs_writes s /\ bs_disksize s' = bs_disksize s.
Proof.
  intros Hwf Hor. assert (Hin : (i, bn) ∈ (i, bn) :: H) by (apply elem_of_cons; auto).
  destruct (held_buf s _ i bn Hwf Hin) as (b & Hi & Hb & Hc & Hd). pose proof Hb as (Hr & Hl & Hdev & Hbn & Hrng & Hfl).
  pose proof (wf_dirty _ _ _ Hwf) as Hdd. pose proof Hwf as [Hlen Hmru Hh Hid Hu Hnd].
  set (b1 := with_lock (mkSleep 0 0) b). set (b' := with_refcnt 0 b1).
  set (s1 := set_bufs (<[i := b']> (bs_bufs s)) s). set (s' := set_mru (i :: filter (fun j => j <> i) (bs_mru s)) s1).
  destruct (update_same s i b b' bn Hu Hdd Hi Hc Hc) as (Hu' & Hv & Hp). fold s1 in Hv, Hp.
  assert (Hdp : dirty b = true <-> bn ∈ pinned s).
  { rewrite elem_pinned. split; [intros; exists i, b; auto|]. intros (j & bj & Hj & Hdj & Hbnj).
    assert (j = i) by (apply (Hu j i bj b bn); auto; apply caches_eq; eauto). subst j. congruence. }
  exists s'. split_and!; try reflexivity.
  - unfold brelse, holdingsleep. rewrite bind_assoc, (bind_ok _ _ _ _ _ (get_buf_ok s i b Hi)), bind_ret, Hl.
    cbn [sl_locked sl_pid]. change (truth 1) with true. rewrite Z.eqb_refl. cbn [andb negb].
    unfold releasesleep. rewrite bind_assoc, (bind_ok _ _ _ _ _ (get_buf_ok s i b Hi)).
    rewrite (bind_ok _ _ _ _ _ (eq_refl : put_buf i b1 s = Ok tt (set_bufs (<[i := b1]> (bs_bufs s)) s))).
    rewrite (bind_ok _ _ _ _ _ (get_put s i b b1 Hi)). cbn [b1 b_refcnt with_lock]. rewrite Hr. change (u32 (1 - 1)) with 0.
    fold b1 b'. assert (Hpp : put_buf i b' (set_bufs (<[i := b1]> (bs_bufs s)) s) = Ok tt s1)
      by (unfold put_buf, modify, s1; now rewrite put_put).
    rewrite (bind_ok _ _ _ _ _ Hpp). reflexivity.
  - apply NoDup_cons in Hnd as [Hni Hnd]. cbn [map fst] in Hni. constructor; auto.
    + cbn. now rewrite length_insert.
    + apply mru_front; [exact Hmru|]. apply lookup_lt_Some in Hi. lia.
    + intros j c Hjc. destruct (Hh j c) as (bj & Hj & Hbj); [apply elem_of_cons; auto|].
      assert (Hij : i <> j) by (intros <-; apply Hni, list_elem_of_fmap; now exists (i, c)).
      exists bj. split; [|exact Hbj]. cbn [s' s1 set_mru set_bufs bs_bufs].
      now rewrite (lookup_set _ _ b), (proj2 (Nat.eqb_neq i j)) by auto.
    + intros j bj. cbn [s' s1 set_mru set_bufs bs_bufs]. rewrite (lookup_set _ _ b) by exact Hi.
      destruct (Nat.eqb_spec i j) as [<-|Hij].
      * intros [= <-] _. split_and!; auto. right. cbn [b' b1 with_refcnt with_lock b_dev b_blockno b_flags b_data].
        split_and!; auto; try (cbn; lia). rewrite Hbn. destruct Hfl as [Hfl|Hfl]; [|auto]. left. split; [exact Hfl|].
        rewrite Hd. destruct Hor as [Hpin|Heq]; [|exact Heq]. apply Hdp in Hpin. unfold dirty in Hpin. rewrite Hfl in Hpin. discriminate.
      * intros Hj Hn. apply (Hid j bj Hj). cbn [map fst]. apply not_elem_of_cons. auto.
  - intros c. change (view s' c) with (view s1 c). rewrite Hv. unfold upd. destruct (Z.eqb_spec c bn) as [->|]; [exact Hd | reflexivity].
  - change (pinned s') with (pinned s1). rewrite Hp. change (dirty b') with (dirty b). apply set_eq. intros c.
    destruct (dirty b) eqn:Ed.
    + rewrite elem_of_union, elem_of_singleton. split; [|tauto]. intros [->|]; [now apply Hdp | auto].
    + rewrite elem_of_difference, elem_of_singleton. split; [tauto|]. intros Hcc. split; [exact Hcc|]. intros ->.
      apply Hdp in Hcc. congruence.
Qed.

Lemma wf_perm s H H' : wf pid s H -> H ≡ₚ H' -> wf pid s H'.
Proof.
  intros [Hl Hm Hh Hi Hu Hn] Hp. constructor; auto.
  - intros i bn. rewrite <- Hp. apply Hh.
  - intros i b. rewrite <- Hp. apply Hi.
  - now rewrite <- Hp.
Qed.

Lemma binit_loop_perm n i l : binit_loop n i l ≡ₚ seq i n ++ l.
Proof.
  revert i l. induction n as [|n IH]; intros i l; cbn [binit_loop seq app]; [reflexivity|].
  rewrite IH. symmetry. apply Permutation_middle.
Qed.

Lemma binit_spec d size : wf pid (binit d size) [] /\ (forall b, view (binit d size) b = d b) /\ pinned (binit d size) = ∅.
Proof.
  assert (Hb : forall i b, bs_bufs (binit d size) !! i = Some b -> b = mkBuf 0 0 0 initsleeplock 0 (fun _ => 0))
    by (intros i b Hi; cbn [binit bs_bufs] in Hi; now apply lookup_replicate_1 in Hi as [-> _]).
  split_and!.
  - constructor; cbn [map]; [reflexivity | | | | | apply NoDup_nil_2].
    + cbn [binit bs_mru]. now rewrite binit_loop_perm, app_nil_r.
    + intros i bn Hin. now apply not_elem_of_nil in Hin.
    + intros i b Hi _. rewrite (Hb i b Hi). split_and!; auto.
    + intros i j b b' bn Hi _ Hc. rewrite (Hb i b Hi) in Hc. discriminate.
  - intros b. unfold view. rewrite find_block_miss; [reflexivity|]. intros i bf Hi. now rewrite (Hb i bf Hi).
  - apply set_eq. intros c. rewrite elem_pinned. split; [|set_solver]. intros (i & b & Hi & Hd & _).
    rewrite (Hb i b Hi) in Hd. discriminate.
Qed.

End Ops.

End Bio.

(** ** The cache keeps its promise *)

Section Instances.
Variable pid : Z.

Definition bio_cache : BlockCache Bio.bstate := {|
  bread := Bio.bread pid; bwrite := Bio.bwrite pid; brelse := Bio.brelse pid;
  bdata := Bio.bdata; set_bdata := Bio.set_bdata; set_bdirty := Bio.set_bdirty; bblockno := Bio.bblockno |}.

Definition bio_spec : CacheSpec Bio.bstate := {|
  cache_wf := Bio.wf pid; view := Bio.view; disk := Bio.bs_disk; pinned := Bio.pinned;
  writes := Bio.bs_writes; nblocks := Bio.bs_disksize; boot := Bio.binit |}.

#[local] Existing Instance bio_cache.
#[local] Existing Instance bio_spec.

Lemma bio_ok : BlockCacheOk Bio.bstate.
Proof.
  constructor; cbn [cache_wf view disk pinned writes nblocks boot bread bwrite brelse bdata set_bdata set_bdirty bblockno bio_cache bio_spec].
  - intros s H b Hwf Hn Hb Hr. destruct (Bio.bread_spec pid s H b Hwf Hn Hb Hr) as (i & l' & Hrun & Hwf' & Hv & Hp).
    exists i. eexists. split_and!; [exact Hrun | exact Hwf' | now constructor].
  - intros s H i b Hwf Hin. destruct (Bio.held_buf pid s H i b Hwf Hin) as (bf & Hi & (_ & _ & _ & Hbn & _) & _ & Hd).
    unfold Bio.bdata, Bio.bblockno. rewrite Hi. auto.
  - intros s H i b v Hwf Hin. destruct (Bio.set_bdata_spec pid s H i b v Hwf Hin) as (H1 & H2 & H3).
    split_and!; auto; reflexivity.
  - intros s H i b Hwf Hin. destruct (Bio.set_bdirty_spec pid s H i b Hwf Hin) as (H1 & H2 & H3).
    split_and!; auto; reflexivity.
  - intros s H i b Hwf Hin. destruct (Bio.bwrite_spec pid s H i b Hwf Hin) as (s' & H1 & H2 & H3 & H4 & H5 & H6 & H7).
    exists s'. split_and!; auto.
  - intros s H i b Hwf Hor. destruct (Bio.brelse_spec pid s H i b Hwf Hor) as (s' & H1 & H2 & H3 & H4 & H5 & H6 & H7).
    exists s'. split_and!; auto. constructor; cbn; auto. intros c. now rewrite H4.
  - intros s H H' Hwf Hp. exact (Bio.wf_perm pid s H H' Hwf Hp).
  - intros d n. destruct (Bio.binit_spec pid d n) as (H1 & H2 & H3). split_and!; auto.
Qed.

End Instances.

(** ** Sessions

    What a process does with buffers between [bread] and [brelse], by block
    number.  [asession] runs a list of operations on the contents of the blocks
    alone and is [None] when the operations break the protocol of the cache;
    [session] runs them on the cache. *)

Inductive cop :=
| CRead (b : Z)
| CModify (b : Z) (f : block -> block)
| CPin (b : Z)
| CWrite (b : Z)
| CRelease (b : Z).

Record acache := mkA {
  a_view : Z -> block;
  a_disk : Z -> block;
  a_pinned : gset Z;
  a_changed : gset Z;
  a_held : list Z
}.

Definition astep (size : Z) (a : acache) (o : cop) : option acache :=
  let '(mkA v d p c h) := a in
  match o with
  | CRead b =>
      if negb (bool_decide (b ∈ h)) && (0 <=? b) && (b <? size) &&
         (bool_decide (b ∈ p) || bool_decide (base.size (p ∪ list_to_set h) < NBUF)%nat)
      then Some (mkA v d p c (b :: h)) else None
  | CModify b f => if bool_decide (b ∈ h) then Some (mkA (upd v b (f (v b))) d p ({[b]} ∪ c) h) else None
  | CPin b => if bool_decide (b ∈ h) then Some (mkA v d ({[b]} ∪ p) c h) else None
  | CWrite b => if bool_decide (b ∈ h) then Some (mkA v (upd d b (v b)) (p ∖ {[b]}) (c ∖ {[b]}) h) else None
  | CRelease b =>
      if bool_decide (b ∈ h) && (bool_decide (b ∈ p) || negb (bool_decide (b ∈ c)))
      then Some (mkA v d p c (filter (fun x => x <> b) h)) else None
  end.

Fixpoint asession (size : Z) (ops : list cop) (a : acache) : option acache :=
  match ops with [] => Some a | o :: ops => astep size a o ≫= asession size ops end.

(** The buffer held for a block. *)
Definition held_index (b : Z) (H : list (nat * Z)) : nat :=
  match list_find (fun x => snd x = b) H with Some (_, (i, _)) => i | None => 0%nat end.

Definition cstep (pid : Z) (H : list (nat * Z)) (o : cop) : M Bio.bstate (list (nat * Z)) :=
  match o with
  | CRead b => i <- Bio.bread pid b ;; ret ((i, b) :: H)
  | CModify b f => modify (fun s => Bio.set_bdata (held_index b H) (f (Bio.bdata s (held_index b H))) s) ;;; ret H
  | CPin b => modify (Bio.set_bdirty (held_index b H)) ;;; ret H
  | CWrite b => Bio.bwrite pid (held_index b H) ;;; ret H
  | CRelease b => Bio.brelse pid (held_index b H) ;;; ret (filter (fun x => snd x <> b) H)
  end.

Fixpoint session (pid : Z) (ops : list cop) (H : list (nat * Z)) : M Bio.bstate (list (nat * Z)) :=
  match ops with [] => ret H | o :: ops => H' <- cstep pid H o ;; session pid ops H' end.

Section Session.
Variable pid : Z.
Variable size : Z.

Record simulates (H : list (nat * Z)) (s : Bio.bstate) (a : acache) : Prop := {
  si_wf : Bio.wf pid s H;
  si_size : Bio.bs_disksize s = size;
  si_view : forall b, Bio.view s b = a_view a b;
  si_disk : forall b, Bio.bs_disk s b = a_disk a b;
  si_pinned : Bio.pinned s = a_pinned a;
  si_held : map snd H = a_held a;
  si_nodup : NoDup (map snd H);
  si_clean : forall b, b ∉ a_changed a -> a_view a b = a_disk a b
}.

Lemma held_index_in b H : b ∈ map snd H -> (held_index b H, b) ∈ H.
Proof.
  intros ([i c] & Hc & Hin)%list_elem_of_fmap. unfold held_index. destruct (list_find _ H) as [[k [j d]]|] eqn:E.
  - apply list_find_Some in E as (Hk & Hd & _). apply list_elem_of_lookup_2 in Hk. cbn in Hd. now subst d.
  - apply list_find_None in E. rewrite Forall_forall in E. exfalso. now apply (E (i, c) Hin).
Qed.

Lemma filter_keep (H : list (nat * Z)) b : b ∉ map snd H -> filter (fun x => snd x <> b) H = H.
Proof.
  induction H as [|[j c] H IH]; [reflexivity|]. cbn [map snd]. intros [Hc Hn]%not_elem_of_cons.
  rewrite filter_cons, decide_True by (cbn; auto). now rewrite IH.
Qed.

Lemma split_held (H : list (nat * Z)) i b : NoDup (map snd H) -> (i, b) ∈ H -> H ≡ₚ (i, b) :: filter (fun x => snd x <> b) H.
Proof.
  induction H as [|[j c] H IH]; cbn [map snd]; intros Hnd Hin; [now apply not_elem_of_nil in Hin|].
  apply NoDup_cons in Hnd as [Hn Hnd].
  apply elem_of_cons in Hin as [[= <- <-]|Hin].
  - rewrite filter_cons, decide_False by (cbn; auto). now rewrite filter_keep.
  - rewrite filter_cons, decide_True by (cbn; intros ->; apply Hn, list_elem_of_fmap; now exists (i, b)).
    rewrite Permutation_swap. f_equiv. now apply IH.
Qed.

Lemma map_filter_held H b : map snd (filter (fun x : nat * Z => snd x <> b) H) = filter (fun x => x <> b) (map snd H).
Proof.
  induction H as [|[j c] H IH]; [reflexivity|]. cbn [map snd]. rewrite !filter_cons. cbn [snd].
  destruct (decide (c <> b)); cbn [map snd]; now rewrite IH.
Qed.

Lemma cstep_sim H s a o a' : simulates H s a -> astep size a o = Some a' ->
  exists H' s', cstep pid H o s = Ok H' s' /\ simulates H' s' a'.
Proof.
  intros [Hwf Hsz Hv Hd Hp Hh Hnd Hcl] Ha. destruct a as [v d p c h]; cbn [a_view a_disk a_pinned a_changed a_held] in *.
  destruct o as [b|b f|b|b|b]; cbn [astep] in Ha; unfold cstep; subst h; destruct (bool_decide_reflect (b ∈ map snd H)) as [Hin|Hin]; cbn [negb andb] in Ha;
    try discriminate Ha; try (apply held_index_in in Hin as Hi).
  - destruct ((0 <=? b) && (b <? size) && _) eqn:E; [injection Ha as <- | discriminate]. bool_prop.
    destruct (Bio.bread_spec pid s H b) as (i & l' & Hr & Hwf' & Hv' & Hp'); auto; [lia| |].
    { rewrite Hp. unfold held_blocks. apply orb_true_iff in H1 as [H1|H1]; apply bool_decide_eq_true in H1; auto. }
    rewrite (bind_ok _ _ _ _ _ Hr). exists ((i, b) :: H), (Bio.set_bufs l' s). split; [reflexivity|].
    constructor; cbn [map snd a_view a_disk a_pinned a_changed a_held]; auto; [|now rewrite Hp' | now apply NoDup_cons].
    intros x. now rewrite Hv'.
  - injection Ha as <-. eexists H, _. split; [reflexivity|].
    destruct (Bio.held_buf pid s H _ b Hwf Hi) as (bf & Hbf & _ & _ & Hbd).
    assert (E : Bio.bdata s (held_index b H) = v b) by (unfold Bio.bdata; now rewrite Hbf, Hbd).
    destruct (Bio.set_bdata_spec pid s H _ b (f (Bio.bdata s (held_index b H))) Hwf Hi) as (Hwf' & Hv' & Hp').
    constructor; cbn [a_view a_disk a_pinned a_changed a_held]; auto.
    + intros x. rewrite Hv', E. unfold upd. now destruct (x =? b).
    + now rewrite Hp'.
    + intros x [Hx1 Hx2]%not_elem_of_union. apply not_elem_of_singleton in Hx1. unfold upd.
      rewrite (proj2 (Z.eqb_neq x b)) by exact Hx1. now apply Hcl.
  - injection Ha as <-. eexists H, _. split; [reflexivity|].
    destruct (Bio.set_bdirty_spec pid s H _ b Hwf Hi) as (Hwf' & Hv' & Hp').
    constructor; cbn [a_view a_disk a_pinned a_changed a_held]; auto; [|now rewrite Hp', Hp]. intros x. now rewrite Hv'.
  - injection Ha as <-. destruct (Bio.bwrite_spec pid s H _ b Hwf Hi) as (s' & Hr & Hwf' & Hv' & Hd' & Hp' & _ & Hsz').
    rewrite (bind_ok _ _ _ _ _ Hr). exists H, s'. split; [reflexivity|].
    constructor; cbn [a_view a_disk a_pinned a_changed a_held]; auto; [lia | | | now rewrite Hp', Hp |].
    + intros x. now rewrite Hv'.
    + intros x. rewrite Hd'. unfold upd. destruct (x =? b); auto.
    + intros x Hx. unfold upd. destruct (Z.eqb_spec x b) as [->|]; [reflexivity|]. apply Hcl. intros Hxc. apply Hx, elem_of_difference.
      split; [exact Hxc | now apply not_elem_of_singleton].
  - destruct (bool_decide (b ∈ p) || _) eqn:E; [injection Ha as <- | discriminate].
    assert (Hpm := split_held H _ b Hnd Hi).
    destruct (Bio.brelse_spec pid s (filter (fun x => snd x <> b) H) (held_index b H) b) as (s' & Hr & Hwf' & Hv' & Hd' & Hp' & _ & Hsz').
    { now apply (Bio.wf_perm pid s H). }
    { rewrite Hp, Hv, Hd. apply orb_true_iff in E as [E|E]; [left; now apply bool_decide_eq_true in E|].
      right. apply negb_true_iff, bool_decide_eq_false in E. now apply Hcl. }
    rewrite (bind_ok _ _ _ _ _ Hr). eexists _, s'. split; [reflexivity|].
    constructor; cbn [a_view a_disk a_pinned a_changed a_held]; auto; [lia | | | now rewrite Hp' | apply map_filter_held |].
    + intros x. now rewrite Hv'.
    + intros x. now rewrite Hd'.
    + rewrite map_filter_held. now apply NoDup_filter.
Qed.

End Session.

(** C11: After [binit], every session of reads, changes, pins, writes and releases
    that follows the protocol of the buffer cache runs without panic: never more
    than [NBUF] blocks pinned or held, each block held once, and a changed block
    released only when written or pinned.  Afterwards the cache holds exactly the
    contents the session gives the blocks, the disk has exactly what was written,
    and the same blocks are held and pinned. *)
Theorem cache_session pid size d ops a : asession size ops (mkA d d ∅ ∅ []) = Some a ->
  exists H s, session pid ops [] (Bio.binit d size) = Ok H s /\ Bio.wf pid s H /\
    (forall b, Bio.view s b = a_view a b) /\ (forall b, Bio.bs_disk s b = a_disk a b) /\
    Bio.pinned s = a_pinned a /\ map snd H = a_held a.
Proof.
  destruct (Bio.binit_spec pid d size) as (Hwf & Hv & Hp).
  assert (Hsim : simulates pid size [] (Bio.binit d size) (mkA d d ∅ ∅ [])) by (constructor; try assumption; try reflexivity; apply NoDup_nil_2).
  clear Hwf Hv Hp. revert Hsim. generalize (mkA d d ∅ ∅ []), (Bio.binit d size), (@nil (nat * Z)).
  induction ops as [|o ops IH]; intros a0 s0 H0 Hsim; cbn [asession session].
  - intros [= <-]. exists H0, s0. destruct Hsim. split_and!; auto.
  - destruct (astep size a0 o) as [a1|] eqn:E; cbn; [|discriminate]. intros Ha.
    destruct (cstep_sim pid size H0 s0 a0 o a1 Hsim E) as (H1 & s1 & Hr & Hsim1). rewrite (bind_ok _ _ _ _ _ Hr). eauto.
Qed.

Definition sample_session : list cop :=
  [CRead 3; CModify 3 (fun m => store8 m 0 65); CRead 4; CPin 3; CRelease 3; CModify 4 (fun m => store8 m 1 66); CWrite 4; CRelease 4].

Lemma cache_session_witness : exists a, asession 10 sample_session (mkA (fun _ _ => 0) (fun _ _ => 0) ∅ ∅ []) = Some a /\
  (exists H s, session 7 sample_session [] (Bio.binit (fun _ _ => 0) 10) = Ok H s /\ Bio.wf 7 s H /\
    (forall b, Bio.view s b = a_view a b) /\ (forall b, Bio.bs_disk s b = a_disk a b) /\
    Bio.pinned s = a_pinned a /\ map snd H = a_held a) /\ a_view a 3 0 = 65 /\ a_disk a 3 0 = 0 /\ a_disk a 4 1 = 66.
Proof.
  eexists. split; [vm_compute; reflexivity|]. split; [apply cache_session; vm_compute; reflexivity|]. vm_compute. auto.
Defined.
