(* ===== verification/Log.v ===== *)
(** The redo log, [src/xv6/xv6-public/log.c], over the buffer cache interface of
    [Block].

    [log.lock] makes [begin_op], [log_write] and the two halves of [end_op] one
    step each; [commit] runs between the halves with [log.committing] set.  A
    call of [begin_op] that goes to sleep returns [false] and is tried again
    after a wakeup.

    A crash keeps the disk and nothing else.  The disk writes of an operation
    are recorded in order, so the disks a crash can leave are the prefixes of
    these writes applied to the disk before.  [recovered] is the contents that
    recovery gives the blocks of such a disk. *)

From stdpp Require Import gmap.
From S2P Require Import Prelude Mem Block Bio.

Definition MAXOPBLOCKS : Z := 10.
Definition LOGSIZE : Z := MAXOPBLOCKS * 3.

(** [struct log] without its lock, with [lh.n] and [lh.block]; the device is
    always 1. *)
Record log := mkLog {
  lg_start : Z;
  lg_size : Z;
  lg_outstanding : Z;
  lg_committing : Z;
  lg_n : Z;
  lg_block : Z -> Z
}.

(** The [log] of a kernel whose cache has state [C]. *)
Record lstate (C : Type) := mkL { l_log : log; l_cache : C }.
Arguments mkL {C} _ _.
Arguments l_log {C} _.
Arguments l_cache {C} _.

Definition set_n (n : Z) (g : log) : log :=
  mkLog (lg_start g) (lg_size g) (lg_outstanding g) (lg_committing g) n (lg_block g).
Definition set_block (i v : Z) (g : log) : log :=
  mkLog (lg_start g) (lg_size g) (lg_outstanding g) (lg_committing g) (lg_n g) (upd (lg_block g) i v).
Definition set_outstanding (v : Z) (g : log) : log :=
  mkLog (lg_start g) (lg_size g) v (lg_committing g) (lg_n g) (lg_block g).
Definition set_committing (v : Z) (g : log) : log :=
  mkLog (lg_start g) (lg_size g) (lg_outstanding g) v (lg_n g) (lg_block g).

(** [struct superblock], the seven words of block 1. *)
Record superblock := mkSb {
  sb_size : Z;
  sb_nblocks : Z;
  sb_ninodes : Z;
  sb_nlog : Z;
  sb_logstart : Z;
  sb_inodestart : Z;
  sb_bmapstart : Z
}.

Definition parse_sb (b : block) : superblock :=
  mkSb (load32 b 0) (load32 b 4) (load32 b 8) (load32 b 12) (load32 b 16) (load32 b 20) (load32 b 24).

Section Ops.
Context {C : Type} `{BlockCache C}.

Definition cached {A} (m : M C A) : M (lstate C) A := zoom l_cache (fun c s => mkL (l_log s) c) m.
Definition glog {A} (f : log -> A) : M (lstate C) A := gets (fun s => f (l_log s)).
Definition mlog (f : log -> log) : M (lstate C) unit := modify (fun s => mkL (f (l_log s)) (l_cache s)).

(** [log.lh.block[i]], with the bounds of the array. *)
Definition in_lh (i : Z) : bool := (0 <=? i) && (i <? LOGSIZE).
Definition get_block (i : Z) : M (lstate C) Z := if in_lh i then glog (fun g => lg_block g i) else fault "lh.block out of bounds".
Definition put_block (i v : Z) : M (lstate C) unit := if in_lh i then mlog (set_block i v) else fault "lh.block out of bounds".

Definition readsb : M C superblock :=
  i <- bread 1 ;;
  sb <- gets (fun c => parse_sb (bdata c i)) ;;
  brelse i ;;;
  ret sb.

(** [memmove(b->data, a->data, BSIZE)]: the whole block. *)
Definition copy_block (a b : nat) : M C unit := modify (fun c => set_bdata b (bdata c a) c).

Fixpoint install_loop (k : nat) (tail : Z) : M (lstate C) unit :=
  match k with
  | O => ret tt
  | S k =>
      start <- glog lg_start ;;
      lbuf <- cached (bread (u32 (start + tail + 1))) ;;
      home <- get_block tail ;;
      dbuf <- cached (bread (u32 home)) ;;
      cached (copy_block lbuf dbuf) ;;;
      cached (bwrite dbuf) ;;;
      cached (brelse lbuf) ;;;
      cached (brelse dbuf) ;;;
      install_loop k (tail + 1)
  end.

Definition install_trans : M (lstate C) unit := n <- glog lg_n ;; install_loop (Z.to_nat n) 0.

Fixpoint read_head_loop (k : nat) (i : Z) (b : block) : M (lstate C) unit :=
  match k with
  | O => ret tt
  | S k => put_block i (s32 (load32 b (4 + 4 * i))) ;;; read_head_loop k (i + 1) b
  end.

Definition read_head : M (lstate C) unit :=
  start <- glog lg_start ;;
  buf <- cached (bread (u32 start)) ;;
  b <- cached (gets (fun c => bdata c buf)) ;;
  mlog (set_n (s32 (load32 b 0))) ;;;
  n <- glog lg_n ;;
  read_head_loop (Z.to_nat n) 0 b ;;;
  cached (brelse buf).

(** The header block with the entries [i ..] stored. *)
Fixpoint head_entries (k : nat) (i : Z) (f : Z -> Z) (b : block) : block :=
  match k with O => b | S k => head_entries k (i + 1) f (store32 b (4 + 4 * i) (f i)) end.

Definition head_block (n : Z) (f : Z -> Z) (b : block) : block := head_entries (Z.to_nat n) 0 f (store32 b 0 n).

Definition write_head : M (lstate C) unit :=
  start <- glog lg_start ;;
  buf <- cached (bread (u32 start)) ;;
  n <- glog lg_n ;;
  f <- glog lg_block ;;
  (if LOGSIZE <? n then fault "lh.block out of bounds" else ret tt) ;;;
  cached (modify (fun c => set_bdata buf (head_block n f (bdata c buf)) c)) ;;;
  cached (bwrite buf) ;;;
  cached (brelse buf).

Definition recover_from_log : M (lstate C) unit :=
  read_head ;;;
  install_trans ;;;
  mlog (set_n 0) ;;;
  write_head.

Definition initlog : M (lstate C) unit :=
  (if BSIZE <=? 4 + 4 * LOGSIZE then panic "initlog: too big logheader" else ret tt) ;;;
  sb <- cached readsb ;;
  mlog (fun g => mkLog (s32 (sb_logstart sb)) (s32 (sb_nlog sb)) (lg_outstanding g) (lg_committing g) (lg_n g) (lg_block g)) ;;;
  recover_from_log.

Definition begin_op : M (lstate C) bool :=
  g <- glog (fun g => g) ;;
  if truth (lg_committing g) then ret false
  else if LOGSIZE <? lg_n g + (lg_outstanding g + 1) * MAXOPBLOCKS then ret false
  else mlog (set_outstanding (lg_outstanding g + 1)) ;;; ret true.

Fixpoint write_log_loop (k : nat) (tail : Z) : M (lstate C) unit :=
  match k with
  | O => ret tt
  | S k =>
      start <- glog lg_start ;;
      to <- cached (bread (u32 (start + tail + 1))) ;;
      home <- get_block tail ;;
      from <- cached (bread (u32 home)) ;;
      cached (copy_block from to) ;;;
      cached (bwrite to) ;;;
      cached (brelse from) ;;;
      cached (brelse to) ;;;
      write_log_loop k (tail + 1)
  end.

Definition write_log : M (lstate C) unit := n <- glog lg_n ;; write_log_loop (Z.to_nat n) 0.

Definition commit : M (lstate C) unit :=
  n <- glog lg_n ;;
  if 0 <? n then
    write_log ;;;
    write_head ;;;
    install_trans ;;;
    mlog (set_n 0) ;;;
    write_head
  else ret tt.

(** The first critical section of [end_op]; its result is [do_commit]. *)
Definition end_op_begin : M (lstate C) bool :=
  g <- glog (fun g => g) ;;
  mlog (set_outstanding (lg_outstanding g - 1)) ;;;
  if truth (lg_committing g) then panic "log.committing"
  else if lg_outstanding g - 1 =? 0 then mlog (set_committing 1) ;;; ret true
  else ret false.

Definition end_op : M (lstate C) unit :=
  do_commit <- end_op_begin ;;
  if (do_commit : bool) then commit ;;; mlog (set_committing 0) else ret tt.

(** The index of a block in the header, or [lh.n]. *)
Fixpoint find_logged (k : nat) (i : Z) (f : Z -> Z) (blockno : Z) : Z :=
  match k with O => i | S k => if u32 (f i) =? blockno then i else find_logged k (i + 1) f blockno end.

Definition log_write (b : nat) : M (lstate C) unit :=
  g <- glog (fun g => g) ;;
  if (LOGSIZE <=? lg_n g) || (lg_size g - 1 <=? lg_n g) then panic "too big a transaction"
  else if lg_outstanding g <? 1 then panic "log_write outside of trans"
  else
    blockno <- cached (gets (fun c => bblockno c b)) ;;
    let i := find_logged (Z.to_nat (lg_n g)) 0 (lg_block g) blockno in
    put_block i (s32 blockno) ;;;
    (if i =? lg_n g then mlog (set_n (lg_n g + 1)) else ret tt) ;;;
    cached (modify (set_bdirty b)).

End Ops.

(** ** Disks and crashes *)

Definition apply_writes (ws : list (Z * block)) (d : Z -> block) : Z -> block :=
  fold_left (fun d w => upd d (fst w) (snd w)) ws d.

(** The transaction a header block describes. *)
Definition hdr_n (b : block) : Z := s32 (load32 b 0).
Definition hdr_block (b : block) (i : Z) : Z := s32 (load32 b (4 + 4 * i)).

(** The writes that install the logged blocks [i], ..., [i + k - 1]. *)
Definition installs (start : Z) (d : Z -> block) (f : Z -> Z) (i k : Z) : list (Z * block) :=
  map (fun i => (u32 (f i), d (start + i + 1))) (seqZ i k).

Definition recovered (start : Z) (d : Z -> block) : Z -> block :=
  apply_writes (installs start d (hdr_block (d start)) 0 (hdr_n (d start))) d.

(** The blocks outside the log. *)
Definition home (start size b : Z) : Prop := b < start \/ start + size <= b.

Definition home_eq (start size : Z) (d d' : Z -> block) : Prop := forall b, home start size b -> d b = d' b.

Lemma apply_writes_ext ws d d' b : (forall b, d b = d' b) -> apply_writes ws d b = apply_writes ws d' b.
Proof.
  revert d d'. induction ws as [|[x v] ws IH]; intros d d' Hd; [apply Hd|].
  apply IH. intros c. unfold upd. cbn. now destruct (c =? x).
Qed.

Lemma apply_writes_app ws1 ws2 d : apply_writes (ws1 ++ ws2) d = apply_writes ws2 (apply_writes ws1 d).
Proof. apply fold_left_app. Qed.

Lemma apply_writes_out ws d b : b ∉ map fst ws -> apply_writes ws d b = d b.
Proof.
  revert d. induction ws as [|[x v] ws IH]; intros d; [reflexivity|]. cbn [map fst]. intros [Hx Hn]%not_elem_of_cons.
  change (apply_writes ws (upd d x v) b = d b). rewrite IH by exact Hn. unfold upd. now rewrite (proj2 (Z.eqb_neq b x)).
Qed.

(** Writes give a block their contents whatever was there before. *)
Lemma apply_writes_in ws d d' b : b ∈ map fst ws -> apply_writes ws d b = apply_writes ws d' b.
Proof.
  revert d d'. induction ws as [|[x v] ws IH]; intros d d'; cbn [map fst]; intros Hin; [now apply not_elem_of_nil in Hin|].
  change (apply_writes ws (upd d x v) b = apply_writes ws (upd d' x v) b).
  destruct (decide (b ∈ map fst ws)) as [Hi|Hn]; [now apply IH|].
  apply elem_of_cons in Hin as [->|]; [|tauto]. rewrite !apply_writes_out by exact Hn. unfold upd. now rewrite Z.eqb_refl.
Qed.

(** Writes of the values of a function. *)
Lemma apply_writes_graph ws d g b : (forall w, w ∈ ws -> snd w = g (fst w)) -> b ∈ map fst ws -> apply_writes ws d b = g b.
Proof.
  revert d. induction ws as [|[x v] ws IH]; intros d Hg Hin; [now apply not_elem_of_nil in Hin|].
  change (apply_writes ws (upd d x v) b = g b).
  destruct (decide (b ∈ map fst ws)) as [Hi|Hn]; [apply IH; auto; intros w Hw; apply Hg, elem_of_cons; auto|].
  cbn [map fst] in Hin. apply elem_of_cons in Hin as [->|]; [|tauto]. rewrite apply_writes_out by exact Hn. unfold upd.
  rewrite Z.eqb_refl. apply (Hg (x, v)), elem_of_cons. auto.
Qed.

Lemma size_insert (x : Z) (X : gset Z) : (size (X ∪ {[x]}) <= S (size X))%nat.
Proof.
  rewrite union_comm_L, size_union_alt, size_singleton.
  assert (Hss : (size (X ∖ {[x]}) <= size X)%nat) by (apply subseteq_size, subseteq_difference_l; reflexivity). lia.
Qed.

Lemma not_in_difference (b y : Z) (X : gset Z) : b ∉ X ∖ {[y]} -> b <> y -> b ∉ X.
Proof. set_solver. Qed.

(** The writes that log the blocks [i], ..., [i + k - 1]. *)
Definition log_copies (start : Z) (v : Z -> block) (f : Z -> Z) (i k : Z) : list (Z * block) :=
  map (fun i => (start + i + 1, v (u32 (f i)))) (seqZ i k).

Lemma map_seqZ_ext {A} (f g : Z -> A) i k : (forall q, i <= q < i + k -> f q = g q) -> map f (seqZ i k) = map g (seqZ i k).
Proof. intros Hfg. apply map_ext_in. intros q Hq%list_elem_of_In%elem_of_seqZ. now apply Hfg. Qed.

Lemma installs_cons start d f i k : 0 < k ->
  installs start d f i k = (u32 (f i), d (start + i + 1)) :: installs start d f (i + 1) (k - 1).
Proof. intros Hk. unfold installs. now rewrite seqZ_cons by lia. Qed.

Lemma installs_ext start d d' f i k : (forall q, i <= q < i + k -> d (start + q + 1) = d' (start + q + 1)) ->
  installs start d f i k = installs start d' f i k.
Proof. intros Hd. apply map_seqZ_ext. intros q Hq. now rewrite Hd. Qed.

Lemma log_copies_cons start v f i k : 0 < k ->
  log_copies start v f i k = (start + i + 1, v (u32 (f i))) :: log_copies start v f (i + 1) (k - 1).
Proof. intros Hk. unfold log_copies. now rewrite seqZ_cons by lia. Qed.

Lemma log_copies_ext start v v' f i k : (forall q, i <= q < i + k -> v (u32 (f q)) = v' (u32 (f q))) ->
  log_copies start v f i k = log_copies start v' f i k.
Proof. intros Hd. apply map_seqZ_ext. intros q Hq. now rewrite Hd. Qed.

(** The header block that [write_head] stores. *)

Lemma head_entries_before k i f b a : a + 4 <= 4 + 4 * i -> load32 (head_entries k i f b) a = load32 b a.
Proof.
  revert i b. induction k as [|k IH]; intros i b Ha; [reflexivity|]. cbn [head_entries].
  rewrite IH by lia. apply load32_store32_ne. lia.
Qed.

Lemma head_entries_at k i f b q : i <= q < i + Z.of_nat k -> load32 (head_entries k i f b) (4 + 4 * q) = u32 (f q).
Proof.
  revert i b. induction k as [|k IH]; intros i b Hq; [lia|]. cbn [head_entries].
  destruct (Z.eq_dec q i) as [->|Hne]; [|apply IH; lia].
  rewrite head_entries_before by lia. apply load32_store32_eq.
Qed.

Lemma head_block_n n f b : 0 <= n <= LOGSIZE -> hdr_n (head_block n f b) = n.
Proof.
  intros Hn. unfold hdr_n, head_block. rewrite head_entries_before, load32_store32_eq by lia.
  unfold LOGSIZE, MAXOPBLOCKS in Hn. word_lia.
Qed.

Lemma head_block_at n f b q : 0 <= q < n -> 0 <= f q < two31 -> hdr_block (head_block n f b) q = f q.
Proof.
  intros Hq Hf. unfold hdr_block, head_block. rewrite head_entries_at by lia. word_lia.
Qed.

(** The disk writes of a commit: the blocks to the log, the header, the blocks to
    their homes, the empty header. *)

Definition home_writes (v : Z -> block) (f : Z -> Z) (n : Z) : list (Z * block) :=
  map (fun i => (u32 (f i), v (u32 (f i)))) (seqZ 0 n).

Definition commit_writes (start : Z) (v : Z -> block) (f : Z -> Z) (n : Z) (h1 h2 : block) : list (Z * block) :=
  (log_copies start v f 0 n ++ [(start, h1)]) ++ home_writes v f n ++ [(start, h2)].

Lemma elem_map_seqZ {A} (F : Z -> A) x i k : x ∈ map F (seqZ i k) <-> exists q, x = F q /\ i <= q < i + k.
Proof. rewrite list_elem_of_fmap. split; intros (q & -> & Hq); exists q; split; auto; now apply elem_of_seqZ. Qed.

Lemma installs_keys start d f i k b : b ∈ map fst (installs start d f i k) <-> exists q, b = u32 (f q) /\ i <= q < i + k.
Proof. unfold installs. rewrite map_map. apply elem_map_seqZ. Qed.

Lemma log_copies_keys start v f i k b : b ∈ map fst (log_copies start v f i k) <-> exists q, b = start + q + 1 /\ i <= q < i + k.
Proof. unfold log_copies. rewrite map_map. apply elem_map_seqZ. Qed.

Lemma home_writes_keys v f n b : b ∈ map fst (home_writes v f n) <-> exists q, b = u32 (f q) /\ 0 <= q < 0 + n.
Proof. unfold home_writes. rewrite map_map. apply elem_map_seqZ. Qed.

(** The log holds the logged contents. *)
Lemma log_copies_at start v f n d q : 0 <= q < n -> apply_writes (log_copies start v f 0 n) d (start + q + 1) = v (u32 (f q)).
Proof.
  intros Hq. rewrite (apply_writes_graph _ _ (fun b => v (u32 (f (b - start - 1))))).
  - now replace (start + q + 1 - start - 1) with q by lia.
  - intros w (p & -> & _)%elem_map_seqZ. cbn. now replace (start + p + 1 - start - 1) with p by lia.
  - apply log_copies_keys. exists q. lia.
Qed.

Lemma home_writes_in v f n d b : b ∈ map fst (home_writes v f n) -> apply_writes (home_writes v f n) d b = v b.
Proof. apply apply_writes_graph. intros w (q & -> & _)%elem_map_seqZ. reflexivity. Qed.

Lemma prefix_app_cases {A} (P X Y : list A) : P `prefix_of` X ++ Y ->
  P `prefix_of` X \/ exists P', P = X ++ P' /\ P' `prefix_of` Y.
Proof.
  intros [R HR]. symmetry in HR. apply app_eq_app in HR as [l [[-> E]|[-> E]]].
  - right. exists l. split; [reflexivity | now exists R].
  - left. now exists l.
Qed.

Lemma prefix_keys (P ws : list (Z * block)) b : P `prefix_of` ws -> b ∈ map fst P -> b ∈ map fst ws.
Proof. intros [R ->]. rewrite map_app, elem_of_app. auto. Qed.

(** Recovery ignores a log whose header is empty. *)
Lemma recovered_empty start d : hdr_n (d start) <= 0 -> recovered start d = d.
Proof. intros Hn. unfold recovered, installs. now rewrite seqZ_nil by lia. Qed.

Section Crash.
Variables (start size n : Z) (f : Z -> Z).
Hypothesis Hn : 0 <= n <= size - 1.
Hypothesis Hhome : forall i, 0 <= i < n -> home start size (u32 (f i)).

(** A committed transaction survives any part of its installation. *)
Lemma recovered_installing d v P : hdr_n (d start) = n -> (forall i, 0 <= i < n -> hdr_block (d start) i = f i) ->
  (forall i, 0 <= i < n -> d (start + i + 1) = v i) -> P `prefix_of` installs start (fun b => v (b - start - 1)) f 0 n ->
  home_eq start size (recovered start (apply_writes P d)) (apply_writes (installs start (fun b => v (b - start - 1)) f 0 n) d).
Proof.
  intros Hh Hb Hv HP b Hbh.
  assert (Hout : forall c, ~ home start size c -> apply_writes P d c = d c).
  { intros c Hc. apply apply_writes_out. intros Hin%(prefix_keys P _ _ HP). apply installs_keys in Hin as (q & -> & Hq).
    apply Hc, Hhome. lia. }
  unfold recovered. rewrite Hout, Hh by (unfold home; lia).
  assert (E : installs start (apply_writes P d) (hdr_block (d start)) 0 n = installs start (fun b => v (b - start - 1)) f 0 n).
  { apply map_seqZ_ext. intros q Hq. rewrite Hb, Hout, Hv by (unfold home; lia). do 2 f_equal. lia. }
  rewrite E. destruct (decide (b ∈ map fst (installs start (fun b => v (b - start - 1)) f 0 n))) as [Hin|Hni].
  - now apply apply_writes_in.
  - rewrite !apply_writes_out; auto. intros Hin. now apply Hni, (prefix_keys P).
Qed.

Lemma home_writes_installs v : home_writes v f n = installs start (fun b => v (u32 (f (b - start - 1)))) f 0 n.
Proof. apply map_seqZ_ext. intros q Hq. do 4 f_equal. lia. Qed.

Lemma home_writes_ext v d d' : home_eq start size d d' ->
  home_eq start size (apply_writes (home_writes v f n) d) (apply_writes (home_writes v f n) d').
Proof.
  intros Hd b Hb. destruct (decide (b ∈ map fst (home_writes v f n))); [now apply apply_writes_in|].
  rewrite !apply_writes_out by assumption. now apply Hd.
Qed.

Lemma not_home_out d ws : (forall b, b ∈ map fst ws -> ~ home start size b) -> home_eq start size (apply_writes ws d) d.
Proof. intros Hw b Hb. apply apply_writes_out. intros Hin. now apply (Hw b). Qed.

(** Whatever part of its writes a commit got to the disk, recovery gives the
    contents before the transaction or those after it. *)
Lemma commit_crash d v h1 h2 P : hdr_n (d start) <= 0 -> hdr_n h1 = n -> (forall i, 0 <= i < n -> hdr_block h1 i = f i) ->
  hdr_n h2 <= 0 -> P `prefix_of` commit_writes start v f n h1 h2 ->
  home_eq start size (recovered start (apply_writes P d)) d \/
  home_eq start size (recovered start (apply_writes P d)) (apply_writes (home_writes v f n) d).
Proof.
  intros Hd Hh1 Hb1 Hh2 HP. set (lc := log_copies start v f 0 n) in *.
  assert (Hlc : forall P, P `prefix_of` lc -> home_eq start size (recovered start (apply_writes P d)) d).
  { intros Q HQ. assert (Hk : forall b, b ∈ map fst Q -> start < b < start + size).
    { intros b Hin%(prefix_keys Q _ _ HQ). apply log_copies_keys in Hin as (q & -> & Hq). lia. }
    rewrite recovered_empty; [apply not_home_out; intros b Hb%Hk; unfold home; lia|].
    rewrite apply_writes_out; [exact Hd|]. intros Hin%Hk. lia. }
  set (d1 := apply_writes (lc ++ [(start, h1)]) d).
  assert (Hd1 : home_eq start size d1 d).
  { apply not_home_out. intros b. rewrite map_app, elem_of_app. intros [Hin|Hin].
    - apply log_copies_keys in Hin as (q & -> & Hq). unfold home. lia.
    - cbn in Hin. apply list_elem_of_singleton in Hin as ->. unfold home. lia. }
  assert (Hst : d1 start = h1) by (unfold d1; rewrite apply_writes_app; cbn; unfold upd; now rewrite Z.eqb_refl).
  assert (Hcm : forall Q, Q `prefix_of` home_writes v f n ->
    home_eq start size (recovered start (apply_writes Q d1)) (apply_writes (home_writes v f n) d)).
  { intros Q HQ b Hb. rewrite <- (home_writes_ext v d1 d Hd1 b Hb). rewrite home_writes_installs in *.
    apply (recovered_installing d1 (fun i => v (u32 (f i)))); auto; try (now rewrite Hst).
    intros i Hi. unfold d1. rewrite apply_writes_app. cbn. unfold upd. rewrite (proj2 (Z.eqb_neq _ _)) by lia. now apply log_copies_at. }
  apply prefix_app_cases in HP as [HP|(P' & -> & HP)].
  - apply prefix_app_cases in HP as [HP|(P' & -> & [R HP])]; [left; now apply Hlc|].
    destruct P' as [|x P']; [left; rewrite app_nil_r; now apply Hlc|]. right.
    destruct P' as [|]; [|discriminate]. injection HP as <- _. apply (Hcm []), prefix_nil.
  - right. rewrite apply_writes_app. fold d1. apply prefix_app_cases in HP as [HP|(P'' & -> & [R HP])]; [now apply Hcm|].
    destruct P'' as [|x P'']; [rewrite app_nil_r; now apply Hcm|]. destruct P'' as [|]; [|discriminate]. injection HP as <- _.
    rewrite apply_writes_app. cbn. rewrite recovered_empty by (unfold upd; now rewrite Z.eqb_refl).
    intros b Hb. unfold upd. rewrite (proj2 (Z.eqb_neq _ _)) by (unfold home in Hb; lia). now apply home_writes_ext.
Qed.

Lemma commit_writes_home d v h1 h2 :
  home_eq start size (apply_writes (commit_writes start v f n h1 h2) d) (apply_writes (home_writes v f n) d).
Proof.
  intros b Hb. unfold commit_writes. rewrite !apply_writes_app. cbn. unfold upd at 1.
  rewrite (proj2 (Z.eqb_neq b start)) by (unfold home in Hb; lia). apply home_writes_ext; [|exact Hb].
  intros c Hc. unfold upd. rewrite (proj2 (Z.eqb_neq c start)) by (unfold home in Hc; lia). apply apply_writes_out.
  intros (q & -> & Hq)%log_copies_keys. unfold home in Hc. lia.
Qed.

Lemma commit_writes_elem v h1 h2 b x : (b, x) ∈ commit_writes start v f n h1 h2 ->
  (start < b < start + size) \/ (b = start /\ (x = h1 \/ x = h2)) \/ exists q, b = u32 (f q) /\ 0 <= q < n.
Proof.
  unfold commit_writes. rewrite !elem_of_app, !list_elem_of_singleton. intros [[Hin|[= -> ->]]|[Hin|[= -> ->]]]; auto.
  - apply elem_map_seqZ in Hin as (q & [= -> ->] & Hq). left. lia.
  - apply elem_map_seqZ in Hin as (q & [= -> ->] & Hq). right. right. exists q. auto.
Qed.

(** Whatever part of its writes a recovery got to the disk, a second recovery
    gives the same contents. *)
Lemma recover_crash d h2 P : hdr_n (d start) = n -> (forall i, 0 <= i < n -> hdr_block (d start) i = f i) -> hdr_n h2 <= 0 ->
  P `prefix_of` installs start d f 0 n ++ [(start, h2)] ->
  home_eq start size (recovered start (apply_writes P d)) (recovered start d).
Proof.
  intros Hd Hb Hh2 HP. set (v := fun i => d (start + i + 1)).
  assert (E : installs start d f 0 n = installs start (fun b => v (b - start - 1)) f 0 n)
    by (apply installs_ext; intros q Hq; unfold v; f_equal; lia).
  assert (Er : recovered start d = apply_writes (installs start d f 0 n) d)
    by (unfold recovered; rewrite Hd; f_equal; apply map_seqZ_ext; intros q Hq; now rewrite Hb).
  assert (Hin : forall Q, Q `prefix_of` installs start d f 0 n -> home_eq start size (recovered start (apply_writes Q d)) (recovered start d))
    by (intros Q HQ; rewrite Er, E in *; now apply recovered_installing).
  apply prefix_app_cases in HP as [HP|(P' & -> & [R HP])]; [now apply Hin|].
  destruct P' as [|x P']; [rewrite app_nil_r; now apply Hin|]. destruct P' as [|]; [|discriminate]. injection HP as <- _.
  rewrite apply_writes_app. cbn. rewrite recovered_empty by (unfold upd; now rewrite Z.eqb_refl).
  intros b Hbh. rewrite Er. unfold upd. now rewrite (proj2 (Z.eqb_neq _ _)) by (unfold home in Hbh; lia).
Qed.

End Crash.

(** ** Effects on the cache *)

Section Effect.
Context {C : Type} `{BlockCacheOk C}.

(** Blocks that are neither pinned nor in [D] are the same in the cache and on
    the disk. *)
Definition clean (c : C) (D : gset Z) : Prop := forall b, b ∉ pinned c -> b ∉ D -> view c b = disk c b.

(** No buffer held, and the writes [ws] issued since [c]. *)
Record effect (c c' : C) (ws : list (Z * block)) : Prop := {
  ef_wf : cache_wf c' [];
  ef_clean : clean c' ∅;
  ef_view : forall b, view c' b = apply_writes ws (view c) b;
  ef_disk : forall b, disk c' b = apply_writes ws (disk c) b;
  ef_pinned : pinned c' = pinned c ∖ list_to_set (map fst ws);
  ef_writes : writes c' = writes c ++ ws;
  ef_nblocks : nblocks c' = nblocks c
}.

Lemma effect_nil c : cache_wf c [] -> clean c ∅ -> effect c c [].
Proof. intros Hw Hc. constructor; auto; [cbn; now rewrite difference_empty_L | now rewrite app_nil_r]. Qed.

Lemma effect_trans c1 c2 c3 w1 w2 : effect c1 c2 w1 -> effect c2 c3 w2 -> effect c1 c3 (w1 ++ w2).
Proof.
  intros [_ _ Hv Hd Hp Hw Hn] [Hwf Hc Hv' Hd' Hp' Hw' Hn']. constructor; auto.
  - intros b. rewrite Hv', apply_writes_app. now apply apply_writes_ext.
  - intros b. rewrite Hd', apply_writes_app. now apply apply_writes_ext.
  - now rewrite Hp', Hp, map_app, list_to_set_app_L, difference_difference_l_L.
  - now rewrite Hw', Hw, app_assoc.
  - lia.
Qed.

Lemma same_view_trans (c1 c2 c3 : C) : same_view c1 c2 -> same_view c2 c3 -> same_view c1 c3.
Proof. intros [S1 S2 S3 S4 S5] [T1 T2 T3 T4 T5]. constructor; intros; congruence. Qed.

(** Two blocks read one after the other. *)
Lemma pair_read c x y : cache_wf c [] -> x <> y -> 0 <= x < nblocks c -> 0 <= y < nblocks c ->
  (size (pinned c) < NBUF)%nat -> y ∈ pinned c \/ (S (size (pinned c)) < NBUF)%nat ->
  exists i c1 j c2, bread x c = Ok i c1 /\ bread y c1 = Ok j c2 /\ cache_wf c2 [(j, y); (i, x)] /\ same_view c c2.
Proof.
  intros Hwf Hne Hx Hy Hs1 Hs2. destruct (bread_ok c [] x Hwf) as (i & c1 & Hr1 & Hwf1 & Hs).
  { apply not_elem_of_nil. } { exact Hx. } { right. unfold held_blocks. cbn. now rewrite union_empty_r_L. }
  destruct (bread_ok c1 _ y Hwf1) as (j & c2 & Hr2 & Hwf2 & Hs').
  { cbn. rewrite list_elem_of_singleton. congruence. } { now rewrite (sv_nblocks _ _ Hs). }
  { rewrite (sv_pinned _ _ Hs). destruct Hs2 as [|Hs2]; [now left|]. right. unfold held_blocks. cbn.
    rewrite union_empty_r_L. pose proof (size_insert x (pinned c)). lia. }
  exists i, c1, j, c2. split_and!; auto. now apply (same_view_trans c c1).
Qed.

(** Copying a held block over another one, writing it and releasing both. *)
Lemma transfer c c2 i j x y Hl : clean c ∅ -> same_view c c2 -> cache_wf c2 Hl -> Hl ≡ₚ [(i, x); (j, y)] -> x <> y ->
  exists c3 c4 c5, bwrite j (set_bdata j (bdata c2 i) c2) = Ok tt c3 /\ brelse i c3 = Ok tt c4 /\
    brelse j c4 = Ok tt c5 /\ effect c c5 [(y, view c x)].
Proof.
  intros Hcl [Sv Sd Sp Sw Sn] Hwf Hp Hne. pose proof (held_perm c2 _ _ Hwf Hp) as Hwf2.
  set (H2 := [(i, x); (j, y)]) in *.
  assert (Hi : (i, x) ∈ H2) by (apply elem_of_cons; auto). assert (Hj : (j, y) ∈ H2) by (apply elem_of_cons; right; apply elem_of_cons; auto).
  destruct (held_ok c2 H2 i x Hwf2 Hi) as [Hbi _]. rewrite Hbi, Sv.
  destruct (set_bdata_ok c2 H2 j y (view c x) Hwf2 Hj) as (Hw3 & V3 & D3 & P3 & W3 & N3).
  destruct (bwrite_ok _ H2 j y Hw3 Hj) as (c3 & Hr3 & Hw4 & V4 & D4 & P4 & W4 & N4).
  assert (Evy : view (set_bdata j (view c x) c2) y = view c x) by (rewrite V3; unfold upd; now rewrite Z.eqb_refl).
  assert (EV : forall b, view c3 b = upd (view c) y (view c x) b) by (intros b; rewrite V4, V3; unfold upd; destruct (b =? y); [auto | apply Sv]).
  assert (ED : forall b, disk c3 b = upd (disk c) y (view c x) b) by (intros b; rewrite D4, Evy; unfold upd; destruct (b =? y); [auto | now rewrite D3, Sd]).
  assert (EP : pinned c3 = pinned c ∖ {[y]}) by now rewrite P4, P3, Sp.
  assert (HC : clean c3 ∅).
  { intros b Hb _. rewrite EV, ED. unfold upd. destruct (Z.eqb_spec b y); [reflexivity|].
    apply Hcl; [|apply not_elem_of_empty]. rewrite EP in Hb. now apply (not_in_difference b y). }
  assert (Hrel : forall b, b ∈ pinned c3 \/ view c3 b = disk c3 b).
  { intros b. destruct (decide (b ∈ pinned c3)); [now left | right; apply HC; [assumption | apply not_elem_of_empty]]. }
  destruct (brelse_ok c3 [(j, y)] i x Hw4 (Hrel x)) as (c4 & Hr4 & Hw5 & S4).
  destruct (brelse_ok c4 [] j y Hw5) as (c5 & Hr5 & Hw6 & S5).
  { rewrite (sv_pinned _ _ S4), (sv_view _ _ S4), (sv_disk _ _ S4). apply Hrel. }
  destruct (same_view_trans _ _ _ S4 S5) as [Tv Td Tp Tw Tn].
  exists c3, c4, c5. split_and!; auto. constructor; auto.
  - intros b Hb Hb'. rewrite Tv, Td. apply HC; auto. now rewrite <- Tp.
  - intros b. now rewrite Tv, EV.
  - intros b. now rewrite Td, ED.
  - rewrite Tp, EP. cbn. now rewrite union_empty_r_L.
  - now rewrite Tw, W4, W3, Sw, Evy.
  - lia.
Qed.

(** Changing and writing one block. *)
Lemma rewrite_block c x F : cache_wf c [] -> clean c ∅ -> 0 <= x < nblocks c -> (size (pinned c) < NBUF)%nat ->
  exists i c1 c2 c3, bread x c = Ok i c1 /\ bwrite i (set_bdata i (F (bdata c1 i)) c1) = Ok tt c2 /\
    brelse i c2 = Ok tt c3 /\ effect c c3 [(x, F (view c x))].
Proof.
  intros Hwf Hcl Hx Hs. destruct (bread_ok c [] x Hwf) as (i & c1 & Hr1 & Hwf1 & [Sv Sd Sp Sw Sn]).
  { apply not_elem_of_nil. } { exact Hx. } { right. unfold held_blocks. cbn. now rewrite union_empty_r_L. }
  assert (Hi : (i, x) ∈ [(i, x)]) by (apply elem_of_cons; auto).
  destruct (held_ok c1 _ i x Hwf1 Hi) as [Hbi _]. set (v := F (view c x)).
  destruct (set_bdata_ok c1 _ i x v Hwf1 Hi) as (Hw3 & V3 & D3 & P3 & W3 & N3).
  destruct (bwrite_ok _ _ i x Hw3 Hi) as (c2 & Hr3 & Hw4 & V4 & D4 & P4 & W4 & N4).
  assert (Evy : view (set_bdata i v c1) x = v) by (rewrite V3; unfold upd; now rewrite Z.eqb_refl).
  assert (EV : forall b, view c2 b = upd (view c) x v b) by (intros b; rewrite V4, V3; unfold upd; destruct (b =? x); [auto | apply Sv]).
  assert (ED : forall b, disk c2 b = upd (disk c) x v b) by (intros b; rewrite D4, Evy; unfold upd; destruct (b =? x); [auto | now rewrite D3, Sd]).
  assert (EP : pinned c2 = pinned c ∖ {[x]}) by now rewrite P4, P3, Sp.
  destruct (brelse_ok c2 [] i x Hw4) as (c3 & Hr5 & Hw6 & [Tv Td Tp Tw Tn]).
  { right. rewrite EV, ED. unfold upd. now rewrite Z.eqb_refl. }
  exists i, c1, c2, c3. rewrite Hbi, Sv. split_and!; auto. constructor; auto.
  - intros b Hb _. rewrite Tv, Td, EV, ED. unfold upd. destruct (Z.eqb_spec b x); [reflexivity|].
    apply Hcl; [|apply not_elem_of_empty]. rewrite Tp, EP in Hb. now apply (not_in_difference b x).
  - intros b. now rewrite Tv, EV.
  - intros b. now rewrite Td, ED.
  - rewrite Tp, EP. cbn. now rewrite union_empty_r_L.
  - now rewrite Tw, W4, W3, Sw, Evy.
  - lia.
Qed.

Lemma cached_ok {A} (m : M C A) g c a c' : m c = Ok a c' -> cached m (mkL g c) = Ok a (mkL g c').
Proof. intros E. unfold cached, zoom. cbn [l_cache l_log]. now rewrite E. Qed.

(** A log that lies on the disk, and logged blocks outside it. *)
Record log_geom (g : log) (c : C) : Prop := {
  lw_start : 0 <= lg_start g;
  lw_size : 0 < lg_size g;
  lw_end : lg_start g + lg_size g <= nblocks c;
  lw_disk : nblocks c <= two31;
  lw_n : 0 <= lg_n g <= LOGSIZE /\ lg_n g <= lg_size g - 1;
  lw_home : forall i, 0 <= i < lg_n g -> 0 <= lg_block g i < nblocks c /\ home (lg_start g) (lg_size g) (lg_block g i)
}.

Lemma geom_nblocks g c c' : log_geom g c -> nblocks c' = nblocks c -> log_geom g c'.
Proof. intros [G1 G2 G3 G4 G5 G6] Hn. constructor; rewrite ?Hn; auto. Qed.

Lemma geom_word g c x : log_geom g c -> 0 <= x < nblocks c -> u32 x = x.
Proof. intros G Hx. apply u32_small. pose proof (lw_disk _ _ G). unfold two31, two32 in *. lia. Qed.

Lemma get_block_ok g (c : C) i : 0 <= i < LOGSIZE -> get_block i (mkL g c) = Ok (lg_block g i) (mkL g c).
Proof.
  intros Hi. unfold get_block, in_lh. rewrite (proj2 (Z.leb_le 0 i)), (proj2 (Z.ltb_lt i LOGSIZE)) by lia. reflexivity.
Qed.

Lemma effect_pinned c c' ws b : effect c c' ws -> b ∈ pinned c -> b ∉ map fst ws -> b ∈ pinned c'.
Proof. intros E Hb Hn. rewrite (ef_pinned _ _ _ E). apply elem_of_difference. rewrite elem_of_list_to_set. auto. Qed.

Lemma effect_size c c' ws : effect c c' ws -> (size (pinned c') <= size (pinned c))%nat.
Proof. intros E. rewrite (ef_pinned _ _ _ E). apply subseteq_size, subseteq_difference_l. reflexivity. Qed.

Lemma install_loop_ok g k tail c : log_geom g c -> cache_wf c [] -> clean c ∅ -> 0 <= tail -> tail + Z.of_nat k = lg_n g ->
  (size (pinned c) < NBUF)%nat -> (k <> O -> lg_block g tail ∈ pinned c \/ (S (size (pinned c)) < NBUF)%nat) ->
  exists c', install_loop k tail (mkL g c) = Ok tt (mkL g c') /\
    effect c c' (installs (lg_start g) (view c) (lg_block g) tail (Z.of_nat k)).
Proof.
  revert tail c. induction k as [|k IH]; intros tail c G Hwf Hcl Ht Hk Hs Hp.
  { exists c. split; [reflexivity | now apply effect_nil]. }
  destruct (lw_n _ _ G) as [Hn1 Hn2], (lw_home _ _ G tail ltac:(lia)) as [Hb Hh].
  pose proof (lw_start _ _ G). pose proof (lw_size _ _ G). pose proof (lw_end _ _ G).
  set (x := lg_start g + tail + 1). set (y := lg_block g tail) in *.
  assert (Hxy : x <> y) by (unfold home in Hh; lia).
  destruct (pair_read c x y Hwf Hxy) as (i & c1 & j & c2 & R1 & R2 & Hwf2 & Hsv); try lia; [now apply Hp|].
  destruct (transfer c c2 i j x y _ Hcl Hsv Hwf2 (Permutation_swap _ _ _) Hxy) as (c3 & c4 & c5 & R3 & R4 & R5 & E).
  assert (Hsz := effect_size _ _ _ E).
  destruct (IH (tail + 1) c5) as (c' & Hr & E'); auto; try lia.
  { eapply geom_nblocks; [exact G | apply E]. } { apply E. } { apply E. }
  { intros _. right. destruct (Hp ltac:(easy)) as [Hy|]; [|lia]. rewrite (ef_pinned _ _ _ E). cbn. rewrite union_empty_r_L.
    rewrite size_difference by (now apply singleton_subseteq_l). rewrite size_singleton.
    assert (size (pinned c) <> 0)%nat; [|lia]. intros Hz%size_empty_inv. now apply (not_elem_of_empty (C := gset Z) y), Hz. }
  exists c'. split.
  - cbn [install_loop]. rewrite (bind_ok _ _ _ _ _ (eq_refl : glog lg_start (mkL g c) = Ok (lg_start g) (mkL g c))).
    fold x. rewrite (geom_word g c x G) by lia. rewrite (bind_ok _ _ _ _ _ (cached_ok _ g _ _ _ R1)).
    rewrite (bind_ok _ _ _ _ _ (get_block_ok g c1 tail ltac:(lia))). fold y. rewrite (geom_word g c y G Hb).
    rewrite (bind_ok _ _ _ _ _ (cached_ok _ g _ _ _ R2)).
    rewrite (bind_ok _ _ _ _ _ (cached_ok (copy_block i j) g _ _ _ (eq_refl : copy_block i j c2 = Ok tt _))).
    rewrite (bind_ok _ _ _ _ _ (cached_ok _ g _ _ _ R3)), (bind_ok _ _ _ _ _ (cached_ok _ g _ _ _ R4)), (bind_ok _ _ _ _ _ (cached_ok _ g _ _ _ R5)).
    exact Hr.
  - rewrite installs_cons by lia. replace (Z.of_nat (S k) - 1) with (Z.of_nat k) by lia. fold x y.
    rewrite (geom_word g c y G Hb). apply (effect_trans c c5 c' [_]); [exact E|].
    rewrite (installs_ext _ _ (view c5)); [exact E'|]. intros q Hq.
    rewrite (ef_view _ _ _ E). cbn. unfold upd. rewrite (proj2 (Z.eqb_neq _ _)); [reflexivity|]. unfold home in Hh. lia.
Qed.

Lemma write_log_loop_ok g k tail c : log_geom g c -> cache_wf c [] -> clean c ∅ -> 0 <= tail -> tail + Z.of_nat k = lg_n g ->
  (size (pinned c) < NBUF)%nat -> (forall i, 0 <= i < lg_n g -> lg_block g i ∈ pinned c) ->
  exists c', write_log_loop k tail (mkL g c) = Ok tt (mkL g c') /\
    effect c c' (log_copies (lg_start g) (view c) (lg_block g) tail (Z.of_nat k)).
Proof.
  revert tail c. induction k as [|k IH]; intros tail c G Hwf Hcl Ht Hk Hs Hp.
  { exists c. split; [reflexivity | now apply effect_nil]. }
  destruct (lw_n _ _ G) as [Hn1 Hn2], (lw_home _ _ G tail ltac:(lia)) as [Hb Hh].
  pose proof (lw_start _ _ G). pose proof (lw_size _ _ G). pose proof (lw_end _ _ G).
  set (x := lg_start g + tail + 1). set (y := lg_block g tail) in *.
  assert (Hxy : x <> y) by (unfold home in Hh; lia).
  destruct (pair_read c x y Hwf Hxy) as (i & c1 & j & c2 & R1 & R2 & Hwf2 & Hsv); try lia; [left; apply Hp; lia|].
  destruct (transfer c c2 j i y x _ Hcl Hsv Hwf2 (reflexivity _) (not_eq_sym Hxy)) as (c3 & c4 & c5 & R3 & R4 & R5 & E).
  assert (Hsz := effect_size _ _ _ E).
  destruct (IH (tail + 1) c5) as (c' & Hr & E'); auto; try lia.
  { eapply geom_nblocks; [exact G | apply E]. } { apply E. } { apply E. }
  { intros q Hq. apply (effect_pinned c _ _ _ E); [now apply Hp|]. cbn. rewrite list_elem_of_singleton.
    destruct (lw_home _ _ G q Hq) as [_ Hhq]. unfold home in Hhq. lia. }
  exists c'. split.
  - cbn [write_log_loop]. rewrite (bind_ok _ _ _ _ _ (eq_refl : glog lg_start (mkL g c) = Ok (lg_start g) (mkL g c))).
    fold x. rewrite (geom_word g c x G) by lia. rewrite (bind_ok _ _ _ _ _ (cached_ok _ g _ _ _ R1)).
    rewrite (bind_ok _ _ _ _ _ (get_block_ok g c1 tail ltac:(lia))). fold y. rewrite (geom_word g c y G Hb).
    rewrite (bind_ok _ _ _ _ _ (cached_ok _ g _ _ _ R2)).
    rewrite (bind_ok _ _ _ _ _ (cached_ok (copy_block j i) g _ _ _ (eq_refl : copy_block j i c2 = Ok tt _))).
    rewrite (bind_ok _ _ _ _ _ (cached_ok _ g _ _ _ R3)), (bind_ok _ _ _ _ _ (cached_ok _ g _ _ _ R4)), (bind_ok _ _ _ _ _ (cached_ok _ g _ _ _ R5)).
    exact Hr.
  - rewrite log_copies_cons by lia. replace (Z.of_nat (S k) - 1) with (Z.of_nat k) by lia. fold x y.
    rewrite (geom_word g c y G Hb). apply (effect_trans c c5 c' [_]); [exact E|].
    rewrite (log_copies_ext _ _ (view c5)); [exact E'|]. intros q Hq. destruct (lw_home _ _ G q ltac:(lia)) as [Hqb Hhq].
    rewrite (geom_word g c _ G Hqb), (ef_view _ _ _ E). cbn. unfold upd. rewrite (proj2 (Z.eqb_neq _ _)); [reflexivity|].
    unfold home in Hhq. lia.
Qed.

Lemma write_head_ok g c : log_geom g c -> cache_wf c [] -> clean c ∅ -> (size (pinned c) < NBUF)%nat ->
  exists c', write_head (mkL g c) = Ok tt (mkL g c') /\
    effect c c' [(lg_start g, head_block (lg_n g) (lg_block g) (view c (lg_start g)))].
Proof.
  intros G Hwf Hcl Hs. pose proof (lw_start _ _ G). pose proof (lw_size _ _ G). pose proof (lw_end _ _ G).
  destruct (lw_n _ _ G) as [Hn1 Hn2].
  destruct (rewrite_block c (lg_start g) (head_block (lg_n g) (lg_block g)) Hwf Hcl ltac:(lia) Hs) as (i & c1 & c2 & c3 & R1 & R2 & R3 & E).
  exists c3. split; [|exact E]. unfold write_head.
  rewrite (bind_ok _ _ _ _ _ (eq_refl : glog lg_start (mkL g c) = Ok (lg_start g) (mkL g c))).
  rewrite (geom_word g c _ G) by lia. rewrite (bind_ok _ _ _ _ _ (cached_ok _ g _ _ _ R1)).
  rewrite (bind_ok _ _ _ _ _ (eq_refl : glog lg_n (mkL g c1) = Ok (lg_n g) (mkL g c1))).
  rewrite (bind_ok _ _ _ _ _ (eq_refl : glog lg_block (mkL g c1) = Ok (lg_block g) (mkL g c1))).
  rewrite (proj2 (Z.ltb_ge LOGSIZE (lg_n g))), bind_ret by lia.
  rewrite (bind_ok _ _ _ _ _ (cached_ok (modify _) g _ _ _ (eq_refl : modify _ c1 = Ok tt _))).
  rewrite (bind_ok _ _ _ _ _ (cached_ok _ g _ _ _ R2)). now apply cached_ok.
Qed.

Lemma glog_ok {A} (F : log -> A) g (c : C) : glog F (mkL g c) = Ok (F g) (mkL g c).
Proof. reflexivity. Qed.

Lemma mlog_ok F g (c : C) : mlog F (mkL g c) = Ok tt (mkL (F g) c).
Proof. reflexivity. Qed.

Lemma geom_empty g c : log_geom g c -> log_geom (set_n 0 g) c.
Proof. intros [G1 G2 G3 G4 G5 G6]. constructor; cbn; auto; [|intros; lia]. unfold LOGSIZE, MAXOPBLOCKS. lia. Qed.

(** [commit] of a transaction that is pinned in the cache. *)
Lemma commit_ok g c : log_geom g c -> cache_wf c [] -> clean c ∅ -> (size (pinned c) < NBUF)%nat -> 0 < lg_n g ->
  (forall i, 0 <= i < lg_n g -> lg_block g i ∈ pinned c) ->
  exists c' h1 h2, commit (mkL g c) = Ok tt (mkL (set_n 0 g) c') /\
    effect c c' (commit_writes (lg_start g) (view c) (lg_block g) (lg_n g) h1 h2) /\
    hdr_n h1 = lg_n g /\ (forall i, 0 <= i < lg_n g -> hdr_block h1 i = lg_block g i) /\ hdr_n h2 = 0.
Proof.
  intros G Hwf Hcl Hs Hpos Hp. destruct (lw_n _ _ G) as [Hn1 Hn2]. pose proof (lw_disk _ _ G).
  destruct (write_log_loop_ok g (Z.to_nat (lg_n g)) 0 c G Hwf Hcl ltac:(lia) ltac:(lia) Hs Hp) as (c1 & R1 & E1).
  rewrite Z2Nat.id in E1 by lia. pose proof (effect_size _ _ _ E1).
  assert (G1 : log_geom g c1) by (eapply geom_nblocks; [exact G | apply E1]).
  destruct (write_head_ok g c1 G1 (ef_wf _ _ _ E1) (ef_clean _ _ _ E1) ltac:(lia)) as (c2 & R2 & E2).
  set (h1 := head_block _ _ _) in E2. pose proof (effect_trans _ _ _ _ _ E1 E2) as E12. pose proof (effect_size _ _ _ E12).
  assert (G2 : log_geom g c2) by (eapply geom_nblocks; [exact G | apply E12]).
  assert (Hkeys : forall i, 0 <= i < lg_n g -> lg_block g i ∉ map fst (log_copies (lg_start g) (view c) (lg_block g) 0 (lg_n g) ++ [(lg_start g, h1)])).
  { intros i Hi. rewrite map_app, not_elem_of_app, log_copies_keys. cbn. rewrite list_elem_of_singleton.
    destruct (lw_home _ _ G i Hi) as [_ Hh]. unfold home in Hh. pose proof (lw_size _ _ G). split; [intros (q & E & Hq) |]; lia. }
  destruct (install_loop_ok g (Z.to_nat (lg_n g)) 0 c2 G2 (ef_wf _ _ _ E2) (ef_clean _ _ _ E2) ltac:(lia) ltac:(lia) ltac:(lia)) as (c3 & R3 & E3).
  { intros _. left. apply (effect_pinned c _ _ _ E12); [apply Hp | apply Hkeys]; lia. }
  rewrite Z2Nat.id in E3 by lia. pose proof (effect_size _ _ _ E3).
  assert (Ei : installs (lg_start g) (view c2) (lg_block g) 0 (lg_n g) = home_writes (view c) (lg_block g) (lg_n g)).
  { apply map_seqZ_ext. intros q Hq. f_equal. rewrite (ef_view _ _ _ E12), apply_writes_app. cbn. unfold upd.
    rewrite (proj2 (Z.eqb_neq _ _)) by lia. apply log_copies_at. lia. }
  rewrite Ei in E3. assert (G3 : log_geom (set_n 0 g) c3) by (eapply geom_empty, geom_nblocks; [exact G2 | apply E3]).
  destruct (write_head_ok (set_n 0 g) c3 G3 (ef_wf _ _ _ E3) (ef_clean _ _ _ E3) ltac:(lia)) as (c4 & R4 & E4).
  set (h2 := head_block _ _ _) in E4. exists c4, h1, h2. split_and!.
  - unfold commit. rewrite (bind_ok _ _ _ _ _ (glog_ok lg_n g c)), (proj2 (Z.ltb_lt 0 _)) by lia.
    unfold write_log, install_trans. rewrite bind_assoc, (bind_ok _ _ _ _ _ (glog_ok lg_n g c)), (bind_ok _ _ _ _ _ R1), (bind_ok _ _ _ _ _ R2).
    rewrite bind_assoc, (bind_ok _ _ _ _ _ (glog_ok lg_n g c2)), (bind_ok _ _ _ _ _ R3), (bind_ok _ _ _ _ _ (mlog_ok _ g c3)). exact R4.
  - exact (effect_trans _ _ _ _ _ E12 (effect_trans _ _ _ _ _ E3 E4)).
  - now apply head_block_n.
  - intros i Hi. apply head_block_at; [exact Hi|]. destruct (lw_home _ _ G i Hi). lia.
  - apply (head_block_n 0). unfold LOGSIZE, MAXOPBLOCKS. lia.
Qed.

Lemma read_head_loop_ok k i b g (c : C) : 0 <= i -> i + Z.of_nat k <= LOGSIZE ->
  exists f, read_head_loop k i b (mkL g c) = Ok tt (mkL (mkLog (lg_start g) (lg_size g) (lg_outstanding g) (lg_committing g) (lg_n g) f) c) /\
    (forall q, q < i -> f q = lg_block g q) /\ (forall q, i <= q < i + Z.of_nat k -> f q = hdr_block b q).
Proof.
  revert i g. induction k as [|k IH]; intros i g Hi Hk.
  { exists (lg_block g). split; [now destruct g|]. split; [auto | lia]. }
  destruct (IH (i + 1) (set_block i (hdr_block b i) g)) as (f & R & H1' & H2'); try lia.
  exists f. split_and!.
  - cbn [read_head_loop]. rewrite (bind_ok _ _ _ tt (mkL (set_block i (hdr_block b i) g) c)); [exact R|].
    unfold put_block, in_lh. now rewrite (proj2 (Z.leb_le 0 i)), (proj2 (Z.ltb_lt i LOGSIZE)) by lia.
  - intros q Hq. rewrite H1' by lia. cbn. unfold upd. now rewrite (proj2 (Z.eqb_neq _ _)) by lia.
  - intros q Hq. destruct (Z.eq_dec q i) as [->|]; [|apply H2'; lia]. rewrite H1' by lia. cbn. unfold upd. now rewrite Z.eqb_refl.
Qed.

(** A header that [recover_from_log] can act on. *)
Record hdr_ok (g : log) (c : C) : Prop := {
  ho_geom : log_geom (set_n 0 g) c;
  ho_n : 0 <= hdr_n (disk c (lg_start g)) <= LOGSIZE /\ hdr_n (disk c (lg_start g)) <= lg_size g - 1;
  ho_home : forall i, 0 <= i < hdr_n (disk c (lg_start g)) ->
    0 <= hdr_block (disk c (lg_start g)) i < nblocks c /\ home (lg_start g) (lg_size g) (hdr_block (disk c (lg_start g)) i)
}.

Lemma recover_ok g c : hdr_ok g c -> cache_wf c [] -> clean c ∅ -> pinned c = ∅ ->
  exists f c' h2, recover_from_log (mkL g c) = Ok tt (mkL (mkLog (lg_start g) (lg_size g) (lg_outstanding g) (lg_committing g) 0 f) c') /\
    effect c c' (installs (lg_start g) (disk c) (hdr_block (disk c (lg_start g))) 0 (hdr_n (disk c (lg_start g))) ++ [(lg_start g, h2)]) /\
    hdr_n h2 = 0.
Proof.
  intros [G Hn Hh] Hwf Hcl Hp. set (st := lg_start g) in *. set (n := hdr_n (disk c st)) in *.
  pose proof (lw_start _ _ G) as Hst. pose proof (lw_size _ _ G) as Hsz. pose proof (lw_end _ _ G) as Hend. cbn in Hst, Hsz, Hend. fold st in Hst, Hend.
  assert (Evd : forall b, view c b = disk c b) by (intros b; apply Hcl; [rewrite Hp|]; apply not_elem_of_empty).
  destruct (bread_ok c [] st Hwf) as (i & c1 & R1 & Hwf1 & Sv1).
  { apply not_elem_of_nil. } { lia. } { right. unfold held_blocks. cbn. rewrite Hp, union_empty_r_L, size_empty. unfold NBUF. lia. }
  destruct (held_ok c1 _ i st Hwf1 ltac:(apply elem_of_cons; auto)) as [Hbi _]. rewrite (sv_view _ _ Sv1), Evd in Hbi.
  destruct (brelse_ok c1 [] i st Hwf1) as (c2 & R2 & Hwf2 & Sv2).
  { right. now rewrite (sv_view _ _ Sv1), (sv_disk _ _ Sv1). }
  pose proof (same_view_trans _ _ _ Sv1 Sv2) as Sv. assert (E0 : effect c c2 []).
  { constructor; auto; try apply Sv.
    - intros b _ _. now rewrite (sv_view _ _ Sv), (sv_disk _ _ Sv).
    - cbn. now rewrite difference_empty_L, (sv_pinned _ _ Sv).
    - now rewrite app_nil_r, (sv_writes _ _ Sv). }
  destruct (read_head_loop_ok (Z.to_nat n) 0 (disk c st) (set_n n g) c1 ltac:(lia) ltac:(lia)) as (f & R3 & _ & Hf).
  set (g1 := mkLog st (lg_size g) (lg_outstanding g) (lg_committing g) n f) in *.
  assert (G1 : log_geom g1 c2).
  { apply (geom_nblocks g1 c c2); [|apply Sv]. constructor; try apply G; [exact Hn|]. intros q Hq. cbn. rewrite Hf by (cbn in Hq; lia). now apply Hh. }
  destruct (install_loop_ok g1 (Z.to_nat n) 0 c2 G1 Hwf2 (ef_clean _ _ _ E0)) as (c3 & R4 & E3); try (cbn; lia).
  { rewrite (sv_pinned _ _ Sv), Hp, size_empty. unfold NBUF. lia. }
  { intros _. right. rewrite (sv_pinned _ _ Sv), Hp, size_empty. unfold NBUF. lia. }
  rewrite Z2Nat.id in E3 by lia. cbn [g1 lg_start lg_block] in E3.
  assert (Ei : installs st (view c2) f 0 n = installs st (disk c) (hdr_block (disk c st)) 0 n).
  { apply map_seqZ_ext. intros q Hq. now rewrite Hf, (sv_view _ _ Sv), Evd by lia. }
  rewrite Ei in E3. pose proof (effect_trans _ _ _ _ _ E0 E3) as E03. pose proof (effect_size _ _ _ E03) as Hs3.
  assert (G3 : log_geom (set_n 0 g1) c3) by (eapply geom_empty, geom_nblocks; [exact G1 | apply E3]).
  destruct (write_head_ok (set_n 0 g1) c3 G3 (ef_wf _ _ _ E3) (ef_clean _ _ _ E3)) as (c4 & R5 & E4).
  { rewrite Hp, size_empty in Hs3. unfold NBUF. lia. }
  exists f, c4, (head_block 0 f (view c3 st)). split_and!; [| exact (effect_trans _ _ _ _ _ E03 E4) | apply head_block_n; unfold LOGSIZE, MAXOPBLOCKS; lia].
  unfold recover_from_log, read_head. rewrite bind_assoc, (bind_ok _ _ _ _ _ (glog_ok lg_start g c)). fold st.
  rewrite bind_assoc, (u32_small st) by (pose proof (lw_disk _ _ G); unfold two31, two32 in *; lia).
  rewrite (bind_ok _ _ _ _ _ (cached_ok _ g _ _ _ R1)).
  rewrite bind_assoc, (bind_ok _ _ _ _ _ (cached_ok (gets _) g c1 _ _ eq_refl)), Hbi.
  rewrite bind_assoc, (bind_ok _ _ _ _ _ (mlog_ok _ g c1)). fold (hdr_n (disk c st)). fold n.
  rewrite bind_assoc, (bind_ok _ _ _ _ _ (glog_ok lg_n (set_n n g) c1)). cbn [set_n lg_n].
  rewrite bind_assoc, (bind_ok _ _ _ _ _ (R3 : _ = Ok tt (mkL g1 c1))).
  rewrite (bind_ok _ _ _ _ _ (cached_ok _ g1 _ _ _ R2)). unfold install_trans.
  rewrite bind_assoc, (bind_ok _ _ _ _ _ (glog_ok lg_n g1 c2)), (bind_ok _ _ _ _ _ R4), (bind_ok _ _ _ _ _ (mlog_ok _ g1 c3)). exact R5.
Qed.

End Effect.
