(* ===== verification/Txn.v ===== *)
(** Transactions on top of [Log]: the invariant of the log between the calls of
    the file system, the behaviour of each call under it, and what a crash in
    the middle of a group of transactions leaves behind. *)

From stdpp Require Import gmap.
From S2P Require Import Prelude Mem Block Bio Log.

(** The blocks of the current transaction. *)
Definition logged (g : log) : list Z := map (lg_block g) (seqZ 0 (lg_n g)).

Lemma logged_length g : 0 <= lg_n g -> Z.of_nat (length (logged g)) = lg_n g.
Proof. intros Hn. unfold logged. rewrite length_map, length_seqZ. lia. Qed.

Lemma elem_logged g b : b ∈ logged g <-> exists i, b = lg_block g i /\ 0 <= i < 0 + lg_n g.
Proof. apply elem_map_seqZ. Qed.

Lemma size_list_to_set_le (l : list Z) : (size (list_to_set l : gset Z) <= length l)%nat.
Proof.
  induction l as [|x l IH]; [easy|]. cbn [list_to_set length]. rewrite union_comm_L.
  pose proof (size_insert x (list_to_set l)). lia.
Qed.

Lemma find_logged_spec k i f b : let q := find_logged k i f b in
  i <= q <= i + Z.of_nat k /\ (q < i + Z.of_nat k -> u32 (f q) = b) /\
  (q = i + Z.of_nat k -> forall p, i <= p < q -> u32 (f p) <> b).
Proof.
  revert i. induction k as [|k IH]; intros i; cbn [find_logged]; [split_and!; intros; lia|].
  destruct (Z.eqb_spec (u32 (f i)) b) as [E|E]; [split; [lia|]; split; [auto | lia]|].
  destruct (IH (i + 1)) as (H1 & H2 & H3). split; [lia|]. split; [intros; apply H2; lia|].
  intros Hq p Hp. destruct (Z.eq_dec p i) as [->|]; [exact E | apply H3; lia].
Qed.

Section Txn.
Context {C : Type} `{BlockCacheOk C}.

(** The invariant of the log while a process holds the buffers [Hl] and has
    changed the blocks [D] without logging them yet. *)
Record txn (s : lstate C) (Hl : list (nat * Z)) (D : gset Z) : Prop := {
  tx_geom : log_geom (l_log s) (l_cache s);
  tx_wf : cache_wf (l_cache s) Hl;
  tx_clean : clean (l_cache s) D;
  tx_pinned : pinned (l_cache s) = list_to_set (logged (l_log s));
  tx_n : lg_n (l_log s) < Z.of_nat NBUF;
  tx_empty : hdr_n (disk (l_cache s) (lg_start (l_log s))) = 0
}.

(** Between the calls the log keeps everything but the list of logged blocks, and
    the disk is not written. *)
Record kept (s s' : lstate C) : Prop := {
  kp_start : lg_start (l_log s') = lg_start (l_log s);
  kp_size : lg_size (l_log s') = lg_size (l_log s);
  kp_outstanding : lg_outstanding (l_log s') = lg_outstanding (l_log s);
  kp_committing : lg_committing (l_log s') = lg_committing (l_log s);
  kp_disk : forall b, disk (l_cache s') b = disk (l_cache s) b;
  kp_writes : writes (l_cache s') = writes (l_cache s);
  kp_nblocks : nblocks (l_cache s') = nblocks (l_cache s)
}.

Lemma kept_refl s : kept s s.
Proof. now constructor. Qed.

Lemma kept_trans s1 s2 s3 : kept s1 s2 -> kept s2 s3 -> kept s1 s3.
Proof. intros [] []. constructor; intros; congruence. Qed.

Lemma txn_pinned_size s Hl D : txn s Hl D -> Z.of_nat (size (pinned (l_cache s))) <= lg_n (l_log s).
Proof.
  intros T. rewrite (tx_pinned _ _ _ T). destruct (lw_n _ _ (tx_geom _ _ _ T)) as [[Hn _] _].
  pose proof (size_list_to_set_le (logged (l_log s))). pose proof (logged_length (l_log s) Hn). lia.
Qed.

Lemma txn_bread s Hl D b : txn s Hl D -> b ∉ map snd Hl -> 0 <= b < nblocks (l_cache s) ->
  lg_n (l_log s) + Z.of_nat (length Hl) < Z.of_nat NBUF ->
  exists i s', cached (bread b) s = Ok i s' /\ txn s' ((i, b) :: Hl) D /\ kept s s' /\ l_log s' = l_log s /\
    (forall c, view (l_cache s') c = view (l_cache s) c).
Proof.
  destruct s as [g c]. intros T Hb Hr Hn. pose proof (txn_pinned_size _ _ _ T) as Hps. destruct T as [G Hwf Hcl Hp Hnn He]. cbn in *.
  destruct (bread_ok c Hl b Hwf Hb Hr) as (i & c' & R & Hwf' & [Sv Sd Sp Sw Sn]).
  { right. unfold held_blocks. rewrite size_union_alt.
    assert (Hss : (size ((list_to_set (map snd Hl) : gset Z) ∖ pinned c) <= length Hl)%nat); [|lia].
    etransitivity; [apply subseteq_size, subseteq_difference_l; reflexivity|].
    etransitivity; [apply size_list_to_set_le | now rewrite length_map]. }
  exists i, (mkL g c'). split_and!; auto; [now apply cached_ok | | now constructor].
  constructor; cbn; auto; [now apply (geom_nblocks g c) | | now rewrite Sp | now rewrite Sd].
  intros x Hx HD. rewrite Sv, Sd. apply Hcl; auto. now rewrite <- Sp.
Qed.

Lemma txn_set s Hl D i b v : txn s Hl D -> (i, b) ∈ Hl ->
  let s' := mkL (l_log s) (set_bdata i v (l_cache s)) in
  txn s' Hl ({[b]} ∪ D) /\ kept s s' /\ (forall c, view (l_cache s') c = upd (view (l_cache s)) b v c).
Proof.
  destruct s as [g c]. intros [G Hwf Hcl Hp Hnn He] Hi s'. cbn in *.
  destruct (set_bdata_ok c Hl i b v Hwf Hi) as (Hw & V & Dk & P & W & N). split_and!; [| now constructor | exact V].
  constructor; cbn; auto; [now apply (geom_nblocks g c) | | now rewrite P | now rewrite Dk].
  intros x Hx [Hxb HD]%not_elem_of_union. apply not_elem_of_singleton in Hxb. rewrite V, Dk. unfold upd.
  rewrite (proj2 (Z.eqb_neq x b)) by exact Hxb. apply Hcl; auto. now rewrite <- P.
Qed.

Lemma txn_data s Hl D i b : txn s Hl D -> (i, b) ∈ Hl -> bdata (l_cache s) i = view (l_cache s) b.
Proof. intros T Hi. apply (held_ok (l_cache s) Hl i b); [apply T | exact Hi]. Qed.

Lemma txn_brelse s Hl D i b : txn s ((i, b) :: Hl) D -> b ∉ D ->
  exists s', cached (brelse i) s = Ok tt s' /\ txn s' Hl D /\ kept s s' /\ l_log s' = l_log s /\
    (forall c, view (l_cache s') c = view (l_cache s) c).
Proof.
  destruct s as [g c]. intros [G Hwf Hcl Hp Hnn He] HbD. cbn in *.
  destruct (brelse_ok c Hl i b Hwf) as (c' & R & Hwf' & [Sv Sd Sp Sw Sn]).
  { destruct (decide (b ∈ pinned c)) as [|Hnp]; [now left | right; now apply Hcl]. }
  exists (mkL g c'). split_and!; auto; [now apply cached_ok | | now constructor].
  constructor; cbn; auto; [now apply (geom_nblocks g c) | | now rewrite Sp | now rewrite Sd].
  intros x Hx HD. rewrite Sv, Sd. apply Hcl; auto. now rewrite <- Sp.
Qed.

Lemma txn_perm s Hl Hl' D : txn s Hl D -> Hl ≡ₚ Hl' -> txn s Hl' D.
Proof. intros [G Hwf Hcl Hp Hnn He] Hpm. constructor; auto. now apply (held_perm _ Hl). Qed.

(** The transaction after [log_write] of block [b]. *)
Definition log_add (b : Z) (bs : list Z) : list Z := if decide (b ∈ bs) then bs else bs ++ [b].

Lemma logged_ext g g' : lg_n g' = lg_n g -> (forall i, 0 <= i < lg_n g -> lg_block g' i = lg_block g i) -> logged g' = logged g.
Proof. intros Hn Hb. unfold logged. rewrite Hn. now apply map_seqZ_ext. Qed.

(** The header array that [log_write] leaves. *)
Lemma log_add_ok g (c : C) b : log_geom g c -> 0 <= b < nblocks c -> home (lg_start g) (lg_size g) b ->
  lg_n g < LOGSIZE -> lg_n g < lg_size g - 1 ->
  let q := find_logged (Z.to_nat (lg_n g)) 0 (lg_block g) b in
  let g1 := set_block q b g in let g' := if q =? lg_n g then set_n (lg_n g + 1) g1 else g1 in
  0 <= q < LOGSIZE /\ logged g' = log_add b (logged g) /\ log_geom g' c.
Proof.
  intros G Hb Hh Hn1 Hn2 q g1 g'. destruct (lw_n _ _ G) as [[Hn0 _] _].
  destruct (find_logged_spec (Z.to_nat (lg_n g)) 0 (lg_block g) b) as (Hq & Hq1 & Hq2). fold q in Hq, Hq1, Hq2.
  assert (Hw : forall p, 0 <= p < lg_n g -> u32 (lg_block g p) = lg_block g p) by (intros p Hp; apply (geom_word g c); [exact G | now apply (lw_home _ _ G)]).
  split; [lia|]. unfold log_add, g', g1. destruct (Z.eqb_spec q (lg_n g)) as [Eq|Eq].
  - assert (Hni : b ∉ logged g).
    { intros (p & -> & Hp)%elem_logged. apply (Hq2 ltac:(lia) p ltac:(lia)). apply Hw. lia. }
    rewrite decide_False by exact Hni. rewrite Eq. split.
    + unfold logged. cbn [set_n set_block lg_n lg_block]. rewrite seqZ_app by lia. rewrite map_app. f_equal.
      * apply map_seqZ_ext. intros p Hp. unfold upd. now rewrite (proj2 (Z.eqb_neq p _)) by lia.
      * rewrite seqZ_cons, seqZ_nil by lia. cbn. unfold upd. now rewrite Z.add_0_l, Z.eqb_refl.
    + destruct G as [G1 G2 G3 G4 G5 G6]. constructor; cbn; auto; [lia|]. intros p Hp. unfold upd.
      destruct (Z.eqb_spec p (lg_n g)); [auto | apply G6; lia].
  - assert (Eb : lg_block g q = b) by (rewrite <- (Hw q), Hq1; lia).
    rewrite decide_True by (apply elem_logged; exists q; split; [congruence | lia]).
    assert (Hsame : forall p, upd (lg_block g) q b p = lg_block g p) by (intros p; unfold upd; destruct (Z.eqb_spec p q); congruence).
    split; [apply logged_ext; [reflexivity | intros p _; apply Hsame]|]. destruct G as [G1 G2 G3 G4 G5 G6]. constructor; cbn; auto.
    intros p Hp. rewrite Hsame. now apply G6.
Qed.

Lemma txn_log_write s Hl D i b : txn s Hl D -> (i, b) ∈ Hl -> 0 <= b < nblocks (l_cache s) ->
  home (lg_start (l_log s)) (lg_size (l_log s)) b -> lg_n (l_log s) < lg_size (l_log s) - 1 ->
  lg_n (l_log s) + 1 < Z.of_nat NBUF -> 1 <= lg_outstanding (l_log s) ->
  exists s', log_write i s = Ok tt s' /\ txn s' Hl (D ∖ {[b]}) /\ kept s s' /\
    logged (l_log s') = log_add b (logged (l_log s)) /\ (forall c, view (l_cache s') c = view (l_cache s) c).
Proof.
  destruct s as [g c]. intros [G Hwf Hcl Hp Hnn He] Hi Hb Hh Hn Hnb Ho. cbn in *.
  assert (HL : lg_n g < LOGSIZE) by (unfold LOGSIZE, MAXOPBLOCKS; unfold NBUF in Hnb; lia).
  destruct (log_add_ok g c b G Hb Hh HL Hn) as (Hq & Hlg & G'). set (q := find_logged _ _ _ _) in *.
  set (g1 := set_block q b g) in *. set (g' := if q =? lg_n g then _ else _) in *.
  destruct (set_bdirty_ok c Hl i b Hwf Hi) as (Hw & V & Dk & P & W & N).
  destruct (held_ok c Hl i b Hwf Hi) as [_ Hbn].
  exists (mkL g' (set_bdirty i c)). split_and!; auto.
  - unfold log_write.
    rewrite (proj2 (Z.leb_gt LOGSIZE _)), (proj2 (Z.leb_gt (lg_size g - 1) _)), (proj2 (Z.ltb_ge (lg_outstanding g) 1)) by lia.
    cbn [orb]. rewrite (bind_ok _ _ _ _ _ (cached_ok (gets _) g c _ _ eq_refl)), Hbn. fold q.
    rewrite (s32_small b) by (pose proof (lw_disk _ _ G); unfold two31 in *; lia).
    rewrite (bind_ok _ _ _ tt (mkL g1 c)); [unfold g'; now destruct (q =? lg_n g)|].
    unfold put_block, in_lh. now rewrite (proj2 (Z.leb_le 0 q)), (proj2 (Z.ltb_lt q LOGSIZE)) by lia.
  - assert (Hst : lg_start g' = lg_start g) by (unfold g'; now destruct (q =? lg_n g)).
    constructor; cbn; auto; [now apply (geom_nblocks g' c) | | | | now rewrite Hst, Dk].
    + intros x Hx HxD. rewrite V, Dk. rewrite P in Hx. apply not_elem_of_union in Hx as [Hx1 Hx2]. apply not_elem_of_singleton in Hx1.
      apply Hcl; [exact Hx2|]. now apply (not_in_difference x b).
    + rewrite P, Hlg, Hp. unfold log_add. destruct (decide (b ∈ logged g)) as [Hin|].
      * apply subseteq_union_1_L, singleton_subseteq_l, elem_of_list_to_set, Hin.
      * rewrite list_to_set_app_L. cbn. now rewrite union_empty_r_L, union_comm_L.
    + unfold g'. destruct (q =? lg_n g); cbn; lia.
  - constructor; cbn; auto; unfold g'; now destruct (q =? lg_n g).
Qed.

(** The typical use of [log_write]: read, change, log and release a block. *)
Definition update (b : Z) (F : block -> block) : M (lstate C) unit :=
  i <- cached (bread b) ;;
  cached (modify (fun c => set_bdata i (F (bdata c i)) c)) ;;;
  log_write i ;;;
  cached (brelse i).

Fixpoint updates (us : list (Z * (block -> block))) : M (lstate C) unit :=
  match us with [] => ret tt | (b, F) :: us => update b F ;;; updates us end.

Definition updated (us : list (Z * (block -> block))) (v : Z -> block) : Z -> block :=
  fold_left (fun v u => upd v (fst u) (snd u (v (fst u)))) us v.

Lemma updated_ext us v v' b : (forall b, v b = v' b) -> updated us v b = updated us v' b.
Proof.
  revert v v'. induction us as [|[x F] us IH]; intros v v' Hv; [apply Hv|]. apply IH. intros c. cbn. unfold upd. now rewrite !Hv.
Qed.

Lemma update_ok s b F : txn s [] ∅ -> 0 <= b < nblocks (l_cache s) -> home (lg_start (l_log s)) (lg_size (l_log s)) b ->
  lg_n (l_log s) < lg_size (l_log s) - 1 -> lg_n (l_log s) + 1 < Z.of_nat NBUF -> 1 <= lg_outstanding (l_log s) ->
  exists s', update b F s = Ok tt s' /\ txn s' [] ∅ /\ kept s s' /\ logged (l_log s') = log_add b (logged (l_log s)) /\
    (forall c, view (l_cache s') c = upd (view (l_cache s)) b (F (view (l_cache s) b)) c).
Proof.
  intros T Hb Hh Hn Hnb Ho. destruct (txn_bread s [] ∅ b T) as (i & s1 & R1 & T1 & K1 & L1 & V1); auto.
  { apply not_elem_of_nil. } { cbn. lia. }
  assert (Hi : (i, b) ∈ [(i, b)]) by (apply elem_of_cons; auto). pose proof (txn_data _ _ _ _ _ T1 Hi) as Hd.
  destruct (txn_set s1 _ _ i b (F (bdata (l_cache s1) i)) T1 Hi) as (T2 & K2 & V2). set (s2 := mkL _ _) in *.
  destruct (txn_log_write s2 _ _ i b T2 Hi) as (s3 & R3 & T3 & K3 & L3 & V3); auto.
  { now rewrite (kp_nblocks _ _ K2), (kp_nblocks _ _ K1). } { cbn. now rewrite L1. } { cbn. now rewrite L1. }
  { cbn. now rewrite L1. } { cbn. now rewrite L1. }
  destruct (txn_brelse s3 [] _ i b T3) as (s4 & R4 & T4 & K4 & L4 & V4).
  { rewrite elem_of_difference, elem_of_singleton. tauto. }
  exists s4. split_and!.
  - unfold update. rewrite (bind_ok _ _ _ _ _ R1). rewrite (bind_ok _ _ _ tt s2); [|now destruct s1].
    now rewrite (bind_ok _ _ _ _ _ R3).
  - now rewrite union_empty_r_L, difference_diag_L in T4.
  - exact (kept_trans _ _ _ (kept_trans _ _ _ K1 K2) (kept_trans _ _ _ K3 K4)).
  - rewrite L4, L3. cbn. now rewrite L1.
  - intros c. rewrite V4, V3, V2, Hd. unfold upd. rewrite V1. destruct (c =? b); [reflexivity | apply V1].
Qed.

Lemma log_add_length b bs : (length bs <= length (log_add b bs) <= S (length bs))%nat.
Proof. unfold log_add. destruct (decide _); [lia|]. rewrite length_app. cbn. lia. Qed.

Lemma elem_log_add b bs x : x ∈ log_add b bs <-> x = b \/ x ∈ bs.
Proof.
  unfold log_add. destruct (decide (b ∈ bs)); [split; [auto | now intros [->|]]|].
  rewrite elem_of_app, list_elem_of_singleton. tauto.
Qed.

(** The blocks a group of transactions may change. *)
Definition targets_ok (g : log) (nb : Z) (us : list (Z * (block -> block))) : Prop :=
  forall b, b ∈ map fst us -> 0 <= b < nb /\ home (lg_start g) (lg_size g) b /\ b <> 1.

Lemma updates_ok us s : txn s [] ∅ -> targets_ok (l_log s) (nblocks (l_cache s)) us ->
  lg_n (l_log s) + Z.of_nat (length us) <= lg_size (l_log s) - 1 -> lg_n (l_log s) + Z.of_nat (length us) < Z.of_nat NBUF ->
  1 <= lg_outstanding (l_log s) ->
  exists s', updates us s = Ok tt s' /\ txn s' [] ∅ /\ kept s s' /\
    (forall c, view (l_cache s') c = updated us (view (l_cache s)) c) /\
    (forall b, b ∈ logged (l_log s') <-> b ∈ logged (l_log s) \/ b ∈ map fst us).
Proof.
  revert s. induction us as [|[b F] us IH]; intros s T Ht Hs Hnb Ho.
  { exists s. split_and!; auto using kept_refl. intros b. cbn. rewrite elem_of_nil. tauto. }
  destruct (Ht b) as (Hb & Hh & _); [cbn; apply elem_of_cons; auto|]. cbn [length] in *.
  destruct (update_ok s b F T Hb Hh) as (s1 & R1 & T1 & K1 & L1 & V1); try lia.
  assert (Hn1 : lg_n (l_log s1) <= lg_n (l_log s) + 1).
  { destruct (lw_n _ _ (tx_geom _ _ _ T)) as [[Hn0 _] _], (lw_n _ _ (tx_geom _ _ _ T1)) as [[Hn1 _] _].
    rewrite <- (logged_length _ Hn0), <- (logged_length _ Hn1), L1. pose proof (log_add_length b (logged (l_log s))). lia. }
  destruct K1 as [A1 A2 A3 A4 A5 A6 A7].
  destruct (IH s1 T1) as (s2 & R2 & T2 & K2 & V2 & L2); try lia.
  { intros x Hx. rewrite A1, A2, A7. apply Ht. cbn. apply elem_of_cons. auto. }
  exists s2. split_and!; auto.
  - cbn [updates]. now rewrite (bind_ok _ _ _ _ _ R1).
  - apply (kept_trans _ s1); [now constructor | exact K2].
  - intros c. rewrite V2. cbn. now apply updated_ext.
  - intros x. rewrite L2, L1, elem_log_add. cbn [map fst]. rewrite elem_of_cons. tauto.
Qed.

(** *** The end of a group of transactions *)

Lemma begin_op_ok g (c : C) : lg_committing g = 0 -> lg_n g + (lg_outstanding g + 1) * MAXOPBLOCKS <= LOGSIZE ->
  begin_op (mkL g c) = Ok true (mkL (set_outstanding (lg_outstanding g + 1) g) c).
Proof.
  intros Hc Hn. unfold begin_op. rewrite (bind_ok _ _ _ _ _ (glog_ok (fun g => g) g c)), Hc, (proj2 (Z.ltb_ge LOGSIZE _)) by lia. reflexivity.
Qed.

Lemma txn_outstanding g (c : C) Hl D o m : txn (mkL g c) Hl D -> txn (mkL (set_outstanding o (set_committing m g)) c) Hl D.
Proof. intros [[G1 G2 G3 G4 G5 G6] Hwf Hcl Hp Hnn He]. constructor; cbn in *; auto. now constructor. Qed.

(** The contents of the home blocks once a group has committed, and those after a
    crash on the way. *)
Record committed (g : log) (c : C) (g' : log) (c' : C) (ws : list (Z * block)) : Prop := {
  cm_txn : txn (mkL g' c') [] ∅;
  cm_n : lg_n g' = 0;
  cm_start : lg_start g' = lg_start g;
  cm_size : lg_size g' = lg_size g;
  cm_writes : writes c' = writes c ++ ws;
  cm_nblocks : nblocks c' = nblocks c;
  cm_view : home_eq (lg_start g) (lg_size g) (view c') (view c);
  cm_disk : home_eq (lg_start g) (lg_size g) (disk c') (view c);
  cm_crash : forall P, P `prefix_of` ws ->
    home_eq (lg_start g) (lg_size g) (recovered (lg_start g) (apply_writes P (disk c))) (disk c) \/
    home_eq (lg_start g) (lg_size g) (recovered (lg_start g) (apply_writes P (disk c))) (view c);
  cm_keys : forall b v, (b, v) ∈ ws -> b ∈ logged g \/ (b = lg_start g /\ 0 <= hdr_n v <= lg_n g /\
    forall i, 0 <= i < hdr_n v -> hdr_block v i = lg_block g i) \/ lg_start g < b < lg_start g + lg_size g
}.

Lemma clean_view c : clean c ∅ -> pinned c = ∅ -> forall b, disk c b = view c b.
Proof. intros Hc Hp b. symmetry. apply Hc; [rewrite Hp|]; apply not_elem_of_empty. Qed.

Lemma commit_step g c : txn (mkL g c) [] ∅ -> exists c' ws, commit (mkL g c) = Ok tt (mkL (set_n 0 g) c') /\
  committed g c (set_n 0 g) c' ws.
Proof.
  intros T. pose proof (txn_pinned_size _ _ _ T) as Hps. destruct T as [G Hwf Hcl Hp Hnn He]. cbn in *.
  destruct (lw_n _ _ G) as [Hn0 Hn1], (Z.eq_dec (lg_n g) 0) as [E0|E0].
  - assert (Hpe : pinned c = ∅) by (rewrite Hp; unfold logged; now rewrite E0).
    exists c, []. split; [unfold commit; rewrite E0; destruct g; cbn in *; now subst|].
    constructor; cbn; auto; [constructor; cbn; auto using geom_empty; lia | now rewrite app_nil_r | easy | | |].
    + intros b _. now apply clean_view.
    + intros P [R HP]. symmetry in HP. apply app_eq_nil in HP as [-> _]. left. cbn. now rewrite recovered_empty by (rewrite He; lia).
    + intros b v Hb. now apply not_elem_of_nil in Hb.
  - assert (Hpin : forall i, 0 <= i < lg_n g -> lg_block g i ∈ pinned c).
    { intros i Hi. rewrite Hp. apply elem_of_list_to_set, elem_logged. exists i. auto. }
    destruct (commit_ok g c G Hwf Hcl ltac:(unfold NBUF in *; lia) ltac:(lia) Hpin) as (c' & h1 & h2 & R & E & Hh1 & Hb1 & Hh2).
    set (ws := commit_writes _ _ _ _ _ _) in E.
    assert (Hword : forall i, 0 <= i < lg_n g -> u32 (lg_block g i) = lg_block g i) by (intros i Hi; apply (geom_word g c _ G), (lw_home _ _ G i Hi)).
    assert (Hhome : forall i, 0 <= i < lg_n g -> home (lg_start g) (lg_size g) (u32 (lg_block g i))) by (intros i Hi; rewrite Hword by exact Hi; apply (lw_home _ _ G i Hi)).
    assert (Hnew : forall b, apply_writes (home_writes (view c) (lg_block g) (lg_n g)) (disk c) b = view c b).
    { intros b. destruct (decide (b ∈ map fst (home_writes (view c) (lg_block g) (lg_n g)))) as [Hin|Hni]; [now apply home_writes_in|].
      rewrite apply_writes_out by exact Hni. symmetry. apply Hcl; [|apply not_elem_of_empty]. rewrite Hp, elem_of_list_to_set, elem_logged.
      intros (q & -> & Hq). apply Hni, home_writes_keys. exists q. now rewrite Hword by lia. }
    assert (Hdisk : home_eq (lg_start g) (lg_size g) (disk c') (view c)).
    { intros b Hb. rewrite (ef_disk _ _ _ E). unfold ws.
      rewrite (commit_writes_home (lg_start g) (lg_size g) (lg_n g) (lg_block g) ltac:(lia) _ _ _ _ b Hb). apply Hnew. }
    assert (Hpe : pinned c' = ∅).
    { apply set_eq. intros b. split; [|intros Hb; now apply not_elem_of_empty in Hb]. rewrite (ef_pinned _ _ _ E), Hp, elem_of_difference, !elem_of_list_to_set.
      intros [(q & -> & Hq)%elem_logged Hni]. exfalso. apply Hni. unfold ws, commit_writes. rewrite !map_app, !elem_of_app, home_writes_keys.
      right. left. exists q. now rewrite Hword by lia. }
    exists c', ws. split; [exact R|]. constructor; cbn; auto; try apply E.
    + constructor; cbn; auto; try apply E; try lia.
      * eapply geom_empty, geom_nblocks; [exact G | apply E].
      * rewrite (ef_disk _ _ _ E). unfold ws, commit_writes. rewrite !apply_writes_app. cbn. unfold upd. now rewrite Z.eqb_refl.
    + intros b Hb. rewrite <- (clean_view c' (ef_clean _ _ _ E) Hpe). now apply Hdisk.
    + intros P HP. destruct (commit_crash (lg_start g) (lg_size g) (lg_n g) (lg_block g) ltac:(lia) Hhome (disk c) (view c) h1 h2 P) as [Hc|Hc]; auto; try lia.
      right. intros b Hb. now rewrite (Hc b Hb).
    + intros b v Hin. apply (commit_writes_elem (lg_start g) (lg_size g) (lg_n g) (lg_block g) ltac:(lia)) in Hin as [Hin|[(-> & Hx)|(q & -> & Hq)]]; auto.
      * right. left. split; [reflexivity|]. destruct Hx as [-> | ->]; [rewrite Hh1; auto with lia | rewrite Hh2; split; lia].
      * left. rewrite Hword by lia. apply elem_logged. exists q. auto.
Qed.

(** [k] system calls that begin, change blocks in some order, and end; the last
    [end_op] commits for all of them. *)
Fixpoint begin_ops (k : nat) : M (lstate C) bool :=
  match k with O => ret true | S k => ok <- begin_op ;; if (ok : bool) then begin_ops k else ret false end.

Fixpoint end_ops (k : nat) : M (lstate C) unit := match k with O => ret tt | S k => end_op ;;; end_ops k end.

Definition group (k : nat) (us : list (Z * (block -> block))) : M (lstate C) bool :=
  ok <- begin_ops k ;;
  if (ok : bool) then updates us ;;; end_ops k ;;; ret true else ret false.

Lemma begin_ops_ok k g (c : C) : lg_committing g = 0 -> lg_n g + (lg_outstanding g + Z.of_nat k) * MAXOPBLOCKS <= LOGSIZE ->
  begin_ops k (mkL g c) = Ok true (mkL (set_outstanding (lg_outstanding g + Z.of_nat k) g) c).
Proof.
  revert g. induction k as [|k IH]; intros g Hc Hn; cbn [begin_ops].
  { rewrite Z.add_0_r. now destruct g. }
  rewrite (bind_ok _ _ _ _ _ (begin_op_ok g c Hc ltac:(unfold MAXOPBLOCKS in *; lia))).
  rewrite IH; [|exact Hc | cbn; unfold MAXOPBLOCKS in *; lia]. cbn [set_outstanding lg_outstanding].
  now replace (lg_outstanding g + 1 + Z.of_nat k) with (lg_outstanding g + Z.of_nat (S k)) by lia.
Qed.

Lemma end_ops_ok k g c : txn (mkL g c) [] ∅ -> lg_outstanding g = Z.of_nat (S k) -> lg_committing g = 0 ->
  exists g' c' ws, end_ops (S k) (mkL g c) = Ok tt (mkL g' c') /\ committed g c g' c' ws /\
    lg_outstanding g' = 0 /\ lg_committing g' = 0.
Proof.
  revert g. induction k as [|k IH]; intros g T Ho Hc.
  - destruct (commit_step (set_outstanding 0 (set_committing 1 g)) c (txn_outstanding g c _ _ 0 1 T)) as (c' & ws & R & [A1 A2 A3 A4 A5 A6 A7 A8 A9 A10]).
    eexists _, c', ws. split; [|split; [constructor; [exact (txn_outstanding _ _ _ _ 0 0 A1) | auto..] | split; reflexivity]].
    cbn [end_ops]. unfold end_op, end_op_begin. rewrite !bind_assoc, (bind_ok _ _ _ _ _ (glog_ok (fun g => g) g c)).
    rewrite bind_assoc, (bind_ok _ _ _ _ _ (mlog_ok _ g c)), Hc, Ho. cbn [truth Z.eqb negb].
    change (truth 0) with false. change (Z.of_nat 1 - 1 =? 0) with true. cbv iota.
    rewrite bind_assoc, (bind_ok _ _ _ _ _ (mlog_ok _ _ c)), bind_ret, bind_assoc, (bind_ok _ _ _ _ _ R). reflexivity.
  - destruct (IH (set_outstanding (Z.of_nat (S k)) g)) as (g' & c' & ws & R & [A1 A2 A3 A4 A5 A6 A7 A8 A9 A10] & Ho' & Hc'); auto.
    { destruct T as [[G1 G2 G3 G4 G5 G6] Hwf Hcl Hp Hnn He]. constructor; cbn in *; auto. now constructor. }
    exists g', c', ws. split; [|split; [now constructor | auto]]. cbn [end_ops]. unfold end_op at 1, end_op_begin.
    rewrite !bind_assoc, (bind_ok _ _ _ _ _ (glog_ok (fun g => g) g c)).
    rewrite bind_assoc, (bind_ok _ _ _ _ _ (mlog_ok _ g c)), Hc, Ho. change (truth 0) with false. cbv iota.
    rewrite (proj2 (Z.eqb_neq _ 0)) by lia. rewrite !bind_ret. replace (Z.of_nat (S (S k)) - 1) with (Z.of_nat (S k)) by lia. exact R.
Qed.

(** *** Starting on a disk after a crash *)

(** A disk with a log at [st] of [sz] blocks. *)
Record disk_ok (st sz nb : Z) (d : Z -> block) : Prop := {
  dk_sb : s32 (sb_logstart (parse_sb (d 1))) = st /\ s32 (sb_nlog (parse_sb (d 1))) = sz;
  dk_geom : 0 <= st /\ 0 < sz /\ st + sz <= nb /\ nb <= two31 /\ home st sz 1 /\ 1 < nb;
  dk_n : 0 <= hdr_n (d st) <= LOGSIZE /\ hdr_n (d st) <= sz - 1;
  dk_home : forall i, 0 <= i < hdr_n (d st) -> 0 <= hdr_block (d st) i < nb /\ home st sz (hdr_block (d st) i) /\ hdr_block (d st) i <> 1
}.

(** [struct log log] before [initlog]. *)
Definition log0 : log := mkLog 0 0 0 0 0 (fun _ => 0).

(** Any number of restarts on a disk, each but the last one cut short by a crash. *)
Inductive reboots (nb : Z) : (Z -> block) -> (Z -> block) -> Prop :=
| reboot_done d g' c' : initlog (mkL log0 (boot d nb)) = Ok tt (mkL g' c') -> reboots nb d (disk c')
| reboot_crash d g' c' P d' : initlog (mkL log0 (boot d nb)) = Ok tt (mkL g' c') -> P `prefix_of` writes c' ->
    reboots nb (apply_writes P d) d' -> reboots nb d d'.

Lemma disk_ok_ext st sz nb d d' : disk_ok st sz nb d -> d' 1 = d 1 -> d' st = d st -> disk_ok st sz nb d'.
Proof. intros [D1 D2 D3 D4] E1 Es. constructor; rewrite ?E1, ?Es; auto. Qed.

Lemma apply_writes_cases ws (d : Z -> block) b : apply_writes ws d b = d b \/ (b, apply_writes ws d b) ∈ ws.
Proof.
  revert d. induction ws as [|[x v] ws IH]; intros d; [now left|]. change (apply_writes _ d) with (apply_writes ws (upd d x v)).
  destruct (IH (upd d x v)) as [E|Hin]; [|right; apply elem_of_cons; auto]. rewrite E. unfold upd.
  destruct (Z.eqb_spec b x) as [->|]; [right; apply elem_of_cons; auto | now left].
Qed.

Lemma initlog_ok st sz nb d : disk_ok st sz nb d -> exists g' c' h2,
  initlog (mkL log0 (boot d nb)) = Ok tt (mkL g' c') /\ hdr_n h2 = 0 /\
  writes c' = installs st d (hdr_block (d st)) 0 (hdr_n (d st)) ++ [(st, h2)] /\
  (forall b, disk c' b = apply_writes (writes c') d b).
Proof.
  intros [[Hs1 Hs2] (G1 & G2 & G3 & G4 & G5 & G6) Dn Dh].
  destruct (boot_ok d nb) as (Hwf & Hv & Hd & Hp & Hw & Hnb). set (c := boot d nb) in *.
  destruct (bread_ok c [] 1 Hwf) as (i & c1 & R1 & Hwf1 & Sv1).
  { apply not_elem_of_nil. } { lia. } { right. unfold held_blocks. cbn. rewrite Hp, union_empty_r_L, size_empty. unfold NBUF. lia. }
  destruct (held_ok c1 _ i 1 Hwf1 ltac:(apply elem_of_cons; auto)) as [Hbi _]. rewrite (sv_view _ _ Sv1), Hv in Hbi.
  destruct (brelse_ok c1 [] i 1 Hwf1) as (c2 & R2 & Hwf2 & Sv2).
  { right. now rewrite (sv_view _ _ Sv1), (sv_disk _ _ Sv1), Hv, Hd. }
  destruct (same_view_trans _ _ _ Sv1 Sv2) as [Tv Td Tp Tw Tn].
  set (g := mkLog st sz 0 0 0 (fun _ => 0)).
  destruct (recover_ok g c2) as (f & c' & h2 & R & E & Hh2); auto.
  { constructor; cbn; rewrite ?Td, ?Hd, ?Tn, ?Hnb; [constructor; cbn; rewrite ?Tn, ?Hnb; auto; unfold LOGSIZE, MAXOPBLOCKS; lia | exact Dn |].
    intros q Hq. destruct (Dh q Hq) as (A & B & _). auto. }
  { intros b _ _. now rewrite Tv, Td, Hv, Hd. } { now rewrite Tp. }
  cbn [g lg_start] in E. assert (Ed : disk c2 st = d st) by now rewrite Td, Hd. rewrite Ed in E.
  assert (Ei : installs st (disk c2) (hdr_block (d st)) 0 (hdr_n (d st)) = installs st d (hdr_block (d st)) 0 (hdr_n (d st)))
    by (apply installs_ext; intros q _; now rewrite Td, Hd).
  rewrite Ei in E. eexists _, c', h2. split_and!; [|exact Hh2 | now rewrite (ef_writes _ _ _ E), Tw, Hw |].
  - unfold initlog. change (BSIZE <=? 4 + 4 * LOGSIZE) with false. cbv iota. rewrite bind_ret.
    assert (Rsb : readsb c = Ok (parse_sb (d 1)) c2).
    { unfold readsb. rewrite (bind_ok _ _ _ _ _ R1), (bind_ok _ _ _ _ _ (eq_refl : gets _ c1 = Ok _ c1)), Hbi, (bind_ok _ _ _ _ _ R2). reflexivity. }
    rewrite (bind_ok _ _ _ _ _ (cached_ok _ log0 _ _ _ Rsb)), (bind_ok _ _ _ _ _ (mlog_ok _ log0 c2)), Hs1, Hs2. exact R.
  - intros b. rewrite (ef_disk _ _ _ E), (ef_writes _ _ _ E), Tw, Hw. apply apply_writes_ext. intros x. now rewrite Td, Hd.
Qed.

(** A crash during recovery leaves a disk with a log, and the same contents to
    recover. *)
Lemma reboot_prefix st sz nb d h2 P : disk_ok st sz nb d -> hdr_n h2 = 0 ->
  P `prefix_of` installs st d (hdr_block (d st)) 0 (hdr_n (d st)) ++ [(st, h2)] ->
  disk_ok st sz nb (apply_writes P d) /\ home_eq st sz (recovered st (apply_writes P d)) (recovered st d).
Proof.
  intros D Hh HP. destruct (dk_geom _ _ _ _ D) as (G1 & G2 & G3 & G4 & G5 & G6), (dk_n _ _ _ _ D) as [N1 N2].
  assert (Hw : forall i, 0 <= i < hdr_n (d st) -> u32 (hdr_block (d st) i) = hdr_block (d st) i).
  { intros i Hi. destruct (dk_home _ _ _ _ D i Hi). apply u32_small. unfold two31, two32 in *. lia. }
  assert (Hk : forall b v, (b, v) ∈ P -> (b = st /\ v = h2) \/ (home st sz b /\ b <> 1)).
  { intros b v Hin. destruct HP as [R HR]. assert (Hin' : (b, v) ∈ P ++ R) by (apply elem_of_app; auto). rewrite <- HR in Hin'.
    apply elem_of_app in Hin' as [Hi|Hi]; [|apply list_elem_of_singleton in Hi as [= -> ->]; auto].
    apply elem_map_seqZ in Hi as (q & [= -> ->] & Hq). right. rewrite Hw by lia. apply (dk_home _ _ _ _ D). lia. }
  split.
  - destruct (apply_writes_cases P d 1) as [E1|Hin]; [|apply Hk in Hin as [[E _]|[_ E]]; [unfold home in G5; lia | lia]].
    destruct (apply_writes_cases P d st) as [Es|Hin]; [now apply (disk_ok_ext st sz nb d)|].
    apply Hk in Hin as [[_ Es]|[E _]]; [|unfold home in E; lia].
    destruct D. constructor; rewrite ?E1, ?Es; auto; rewrite Hh; unfold LOGSIZE, MAXOPBLOCKS; lia.
  - apply (recover_crash st sz (hdr_n (d st)) (hdr_block (d st)) ltac:(lia)) with (h2 := h2); auto; [|lia].
    intros i Hi. rewrite Hw by exact Hi. apply (dk_home _ _ _ _ D i Hi).
Qed.

Lemma reboots_spec st sz nb d d' : disk_ok st sz nb d -> reboots nb d d' ->
  home_eq st sz d' (recovered st d) /\ hdr_n (d' st) = 0.
Proof.
  intros D R. revert D. induction R as [d g' c' Hi|d g' c' P d' Hi HP _ IH]; intros D;
    destruct (initlog_ok st sz nb d D) as (g1 & c1 & h2 & Hr & Hh & Hw & Hd); rewrite Hr in Hi; injection Hi as -> ->.
  - pose proof (reboot_prefix st sz nb d h2 _ D Hh (reflexivity _)) as [_ E]. rewrite <- Hw in E.
    assert (Es : disk c' st = h2) by (rewrite Hd, Hw, apply_writes_app; cbn; unfold upd; now rewrite Z.eqb_refl).
    split; [|now rewrite Es]. intros b Hb. rewrite <- (E b Hb), recovered_empty; [apply Hd|]. now rewrite <- Hd, Es, Hh.
  - rewrite Hw in HP. destruct (reboot_prefix st sz nb d h2 P D Hh HP) as [D' E]. destruct (IH D') as [E' Hz].
    split; [|exact Hz]. intros b Hb. now rewrite (E' b Hb), (E b Hb).
Qed.

Lemma reboots_progress st sz nb d : disk_ok st sz nb d -> exists d', reboots nb d d'.
Proof. intros D. destruct (initlog_ok st sz nb d D) as (g' & c' & h2 & Hr & _). exists (disk c'). now apply (reboot_done nb d g'). Qed.

Lemma recovered_ext st d d' b : (forall b, d b = d' b) -> recovered st d b = recovered st d' b.
Proof.
  intros Hd. unfold recovered. rewrite (Hd st), (installs_ext st d d') by auto. now apply apply_writes_ext.
Qed.

Lemma committed_disk_ok g c g' c' ws P d : log_geom g c -> committed g c g' c' ws -> (forall b, b ∈ logged g -> b <> 1) ->
  disk_ok (lg_start g) (lg_size g) (nblocks c) d -> P `prefix_of` ws -> disk_ok (lg_start g) (lg_size g) (nblocks c) (apply_writes P d).
Proof.
  intros G Cm H1' D [R ->]. pose proof (cm_keys _ _ _ _ _ Cm) as Hk. destruct (dk_geom _ _ _ _ D) as (G1 & G2 & G3 & G4 & G5 & G6).
  destruct (lw_n _ _ G) as [Hn0 Hn1]. unfold home in G5.
  assert (Hlog : forall b, b ∈ logged g -> 0 <= b < nblocks c /\ home (lg_start g) (lg_size g) b).
  { intros b (q & -> & Hq)%elem_logged. apply (lw_home _ _ G). lia. }
  assert (E1 : apply_writes P d 1 = d 1).
  { destruct (apply_writes_cases P d 1) as [E|Hin]; [exact E|]. destruct (Hk 1 _ ltac:(apply elem_of_app; eauto)) as [Hl|[(E & _)|Hl]]; try lia.
    now apply H1' in Hl. }
  destruct (apply_writes_cases P d (lg_start g)) as [Es|Hin]; [now apply (disk_ok_ext _ _ _ d)|].
  destruct (Hk _ _ ltac:(apply elem_of_app; eauto)) as [Hl|[(_ & Hh & Hb)|Hl]]; [apply Hlog in Hl as [_ Hl]; unfold home in Hl; lia | | lia].
  destruct D. constructor; rewrite ?E1; auto; [lia|]. intros i Hi. rewrite Hb by exact Hi.
  assert (Hl : lg_block g i ∈ logged g) by (apply elem_logged; exists i; split; [reflexivity | lia]).
  destruct (Hlog _ Hl). auto.
Qed.

(** C23: A disk whose log holds a complete transaction can always be started:
    [initlog] succeeds, and however often the machine crashes during recovery and
    starts again, every block outside the log ends up with its logged contents,
    the other ones keep theirs, and the log is empty. *)
Theorem recovery_idempotent st sz nb d : disk_ok st sz nb d ->
  (exists d', reboots nb d d') /\
  forall d', reboots nb d d' -> home_eq st sz d' (recovered st d) /\ hdr_n (d' st) = 0.
Proof. intros D. split; [now apply (reboots_progress st sz) | intros d'; now apply reboots_spec]. Qed.

(** C1: Group commit is atomic.  Up to three system calls begin, change blocks
    through [log_write] (29 at most) and end.  They never panic; afterwards the
    cache and the disk hold the changed contents outside the log, and the log is
    empty again.  If the machine crashes at any point of the disk writes, then
    after any number of restarts the disk has, outside the log, either all of the
    changes or none of them. *)
Theorem group_commit_atomic g c k us : txn (mkL g c) [] ∅ -> lg_n g = 0 -> lg_outstanding g = 0 -> lg_committing g = 0 ->
  (1 <= k <= 3)%nat -> Z.of_nat (length us) < Z.of_nat NBUF -> Z.of_nat (length us) <= lg_size g - 1 ->
  targets_ok g (nblocks c) us -> disk_ok (lg_start g) (lg_size g) (nblocks c) (disk c) ->
  exists g' c' ws, group k us (mkL g c) = Ok true (mkL g' c') /\ txn (mkL g' c') [] ∅ /\ lg_n g' = 0 /\ lg_outstanding g' = 0 /\
    home_eq (lg_start g) (lg_size g) (view c') (updated us (view c)) /\
    home_eq (lg_start g) (lg_size g) (disk c') (updated us (view c)) /\ writes c' = writes c ++ ws /\
    forall P, P `prefix_of` ws -> (exists d', reboots (nblocks c) (apply_writes P (disk c)) d') /\
      forall d', reboots (nblocks c) (apply_writes P (disk c)) d' ->
        home_eq (lg_start g) (lg_size g) d' (disk c) \/ home_eq (lg_start g) (lg_size g) d' (updated us (view c)).
Proof.
  intros T Hn Ho Hc Hk Hu1 Hu2 Ht D. set (g1 := set_outstanding (lg_outstanding g + Z.of_nat k) g).
  assert (T1 : txn (mkL g1 c) [] ∅).
  { destruct T as [[G1 G2 G3 G4 G5 G6] Hwf Hcl Hp Hnn He]. constructor; cbn in *; auto. now constructor. }
  destruct (updates_ok us (mkL g1 c) T1) as ([g2 c2] & R2 & T2 & [A1 A2 A3 A4 A5 A6 A7] & V2 & L2); cbn in *; try lia; [exact Ht|].
  destruct k as [|k]; [lia|].
  destruct (end_ops_ok k g2 c2 T2) as (g3 & c3 & ws & R3 & Cm & Ho3 & Hc3); [lia | now rewrite A4|].
  pose proof Cm as [B1 B2 B3 B4 B5 B6 B7 B8 B9 B10].
  rewrite A1, A2 in *. exists g3, c3, ws. split_and!; auto.
  - unfold group. rewrite (bind_ok _ _ _ _ _ (begin_ops_ok (S k) g c Hc ltac:(unfold LOGSIZE, MAXOPBLOCKS; lia))).
    now rewrite (bind_ok _ _ _ _ _ R2), (bind_ok _ _ _ _ _ R3).
  - intros b Hb. rewrite (B7 b Hb). apply V2.
  - intros b Hb. rewrite (B8 b Hb). apply V2.
  - now rewrite B5, A6.
  - intros P HP. set (d := apply_writes P (disk c)).
    assert (Ed : forall b, apply_writes P (disk c2) b = d b) by (intros b; now apply apply_writes_ext).
    assert (Dd : disk_ok (lg_start g) (lg_size g) (nblocks c) d).
    { rewrite <- A7, <- A1, <- A2 in D |- *. apply (committed_disk_ok g2 c2 g3 c3 ws); auto; [apply T2|].
      intros b Hb. apply (Ht b). apply L2 in Hb as [Hb|Hb]; [|exact Hb]. apply elem_logged in Hb as (q & _ & Hq). cbn in Hq. lia. }
    split; [now apply (reboots_progress (lg_start g) (lg_size g))|]. intros d' R. destruct (reboots_spec _ _ _ _ _ Dd R) as [E _].
    destruct (B9 P HP) as [Hc'|Hc']; [left | right]; intros b Hb; rewrite (E b Hb), <- (recovered_ext _ _ _ b Ed), (Hc' b Hb); auto.
Qed.

Lemma updates_app us1 us2 s : updates (us1 ++ us2) s = bind (updates us1) (fun _ => updates us2) s.
Proof.
  revert s. induction us1 as [|[b F] us1 IH]; intros s; [reflexivity|]. cbn [app updates].
  rewrite bind_assoc. unfold bind at 1 2. destruct (update b F s); auto.
Qed.

(** The reservation of [begin_op] is too large for the log that [mkfs] makes,
    whose [LOGSIZE] blocks include the header: three system calls are admitted,
    [MAXOPBLOCKS] blocks reserved for each, but when together they change as many
    blocks as reserved, the kernel panics in [log_write]. *)
Theorem begin_op_overcommits g c us : txn (mkL g c) [] ∅ -> lg_n g = 0 -> lg_outstanding g = 0 -> lg_committing g = 0 ->
  lg_size g = LOGSIZE -> Z.of_nat (length us) = 3 * MAXOPBLOCKS -> NoDup (map fst us) -> targets_ok g (nblocks c) us ->
  begin_ops 3 (mkL g c) = Ok true (mkL (set_outstanding 3 g) c) /\ group 3 us (mkL g c) = Panic "too big a transaction".
Proof.
  intros T Hn Ho Hc Hsz Hlen Hnd Ht.
  assert (R1 := begin_ops_ok 3 g c Hc ltac:(rewrite Hn, Ho; unfold LOGSIZE, MAXOPBLOCKS; lia)). rewrite Ho in R1. change (0 + Z.of_nat 3) with 3 in R1.
  split; [exact R1|]. unfold group. rewrite (bind_ok _ _ _ _ _ R1). set (g1 := set_outstanding 3 g) in *.
  unfold LOGSIZE, MAXOPBLOCKS in *. destruct (exists_last (l := us)) as (us1 & [b F] & ->); [intros ->; cbn in Hlen; lia|].
  rewrite length_app in Hlen. cbn in Hlen. rewrite map_app in Hnd. apply NoDup_app in Hnd as (Hnd & _ & _).
  assert (T1 : txn (mkL g1 c) [] ∅).
  { destruct T as [[G1 G2 G3 G4 G5 G6] Hwf Hcl Hp Hnn He]. constructor; cbn in *; auto. now constructor. }
  destruct (updates_ok us1 (mkL g1 c) T1) as ([g2 c2] & R2 & T2 & [A1 A2 A3 A4 A5 A6 A7] & V2 & L2); cbn in *; unfold NBUF in *; try lia.
  { intros x Hx. apply Ht. rewrite map_app. apply elem_of_app. auto. }
  assert (Hn2 : 29 <= lg_n g2).
  { destruct (lw_n _ _ (tx_geom _ _ _ T2)) as [[Hn0 _] _]. cbn in Hn0. rewrite <- (logged_length g2 Hn0).
    assert (Hsub : map fst us1 ⊆+ logged g2) by (apply NoDup_submseteq; [exact Hnd | intros x Hx; apply L2; auto]).
    apply submseteq_length in Hsub. rewrite length_map in Hsub. lia. }
  destruct (Ht b) as (Hb & Hh & _); [rewrite map_app; apply elem_of_app; right; cbn; apply elem_of_cons; auto|].
  pose proof (tx_n _ _ _ T2) as Hnn. cbn in Hnn.
  destruct (txn_bread (mkL g2 c2) [] ∅ b T2) as (i & [g3 c3] & R3 & _ & _ & L3 & _); cbn [l_log l_cache length] in *.
  { apply not_elem_of_nil. } { lia. } { lia. }
  subst g2. unfold bind at 1. rewrite updates_app, (bind_ok _ _ _ _ _ R2). cbn [updates]. unfold update.
  rewrite bind_assoc, (bind_ok _ _ _ _ _ R3), bind_assoc.
  rewrite (bind_ok _ _ _ _ _ (cached_ok (modify _) g3 c3 _ _ (eq_refl : modify _ c3 = Ok tt _))).
  rewrite bind_assoc. unfold log_write at 1. unfold bind at 1.
  rewrite (bind_ok _ _ _ _ _ (glog_ok (fun g => g) g3 _)), (proj2 (Z.leb_le (lg_size g3 - 1) _)), orb_true_r by lia. reflexivity.
Qed.

Lemma boot_txn st sz nb d f : disk_ok st sz nb d -> hdr_n (d st) = 0 -> txn (mkL (mkLog st sz 0 0 0 f) (boot d nb)) [] ∅.
Proof.
  intros [_ (G1 & G2 & G3 & G4 & _ & _) _ _] Hh. destruct (boot_ok d nb) as (Hwf & Hv & Hd & Hp & Hw & Hnb).
  constructor; cbn; auto.
  - constructor; cbn; rewrite ?Hnb; auto; unfold LOGSIZE, MAXOPBLOCKS; lia.
  - intros b _ _. now rewrite Hv, Hd.
  - reflexivity.
  - now rewrite Hd.
Qed.

End Txn.

(** ** An empty file system image of 100 blocks on the buffer cache *)

Definition sample_sb : block := store32 (store32 (fun _ => 0) 12 30) 16 2.
Definition sample_disk : Z -> block := fun b => if b =? 1 then sample_sb else fun _ => 0.

(** The same with a committed transaction in the log: block 50 is to become
    what block 3 of the log holds. *)
Definition sample_logged : Z -> block :=
  upd (upd sample_disk 3 (fun _ => 9)) 2 (head_block 1 (fun _ => 50) (fun _ => 0)).

Lemma sample_disk_ok : disk_ok 2 30 100 sample_disk.
Proof. constructor; [vm_compute; auto | unfold home, two31; lia | vm_compute; split; [split|]; discriminate|]. intros i Hi. replace (hdr_n (sample_disk 2)) with 0 in Hi by (vm_compute; reflexivity). lia. Qed.

Lemma sample_logged_ok : disk_ok 2 30 100 sample_logged.
Proof.
  constructor; [vm_compute; auto | unfold home, two31; lia | vm_compute; split; [split|]; discriminate|].
  intros i Hi. replace (hdr_n (sample_logged 2)) with 1 in Hi by (vm_compute; reflexivity). assert (i = 0) as -> by lia.
  replace (hdr_block (sample_logged 2) 0) with 50 by (vm_compute; reflexivity). unfold home. lia.
Qed.

Lemma recovery_idempotent_witness : disk_ok 2 30 100 sample_logged /\
  forall d', @reboots Bio.bstate (bio_cache 1) (bio_spec 1) 100 sample_logged d' -> d' 50 0 = 9.
Proof.
  split; [exact sample_logged_ok|]. intros d' R.
  pose proof (@recovery_idempotent Bio.bstate (bio_cache 1) (bio_spec 1) (bio_ok 1) 2 30 100 sample_logged sample_logged_ok) as [_ Hall].
  destruct (Hall d' R) as [E _]. rewrite (E 50) by (unfold home; lia). vm_compute. reflexivity.
Defined.

Definition sample_log : log := mkLog 2 30 0 0 0 (fun _ => 0).
Definition sample_updates : list (Z * (block -> block)) := [(40, fun m => store8 m 0 65); (41, fun m => store8 m 0 66)].

Lemma sample_targets us : (forall b, b ∈ map fst us -> 32 <= b < 100) -> targets_ok sample_log 100 us.
Proof. intros Hb b [H1 H2]%Hb. unfold home. cbn. lia. Qed.

Lemma group_commit_atomic_witness : exists g' c' ws,
  @group Bio.bstate (bio_cache 1) 2 sample_updates (mkL sample_log (Bio.binit sample_disk 100)) = Ok true (mkL g' c') /\
  Bio.bs_writes c' = ws /\
  forall P d', P `prefix_of` ws -> @reboots Bio.bstate (bio_cache 1) (bio_spec 1) 100 (apply_writes P sample_disk) d' ->
    (d' 40 0 = 0 /\ d' 41 0 = 0) \/ (d' 40 0 = 65 /\ d' 41 0 = 66).
Proof.
  destruct (@group_commit_atomic Bio.bstate (bio_cache 1) (bio_spec 1) (bio_ok 1) sample_log (Bio.binit sample_disk 100) 2 sample_updates)
    as (g' & c' & ws & R & _ & _ & _ & _ & _ & Hw & Hcr); try reflexivity; try lia.
  - apply (@boot_txn Bio.bstate (bio_cache 1) (bio_spec 1) (bio_ok 1) 2 30 100 sample_disk (fun _ => 0) sample_disk_ok). vm_compute. reflexivity.
  - cbn. lia.
  - apply sample_targets. intros b. cbn. rewrite !elem_of_cons, elem_of_nil. lia.
  - exact sample_disk_ok.
  - exists g', c', ws. split; [exact R|]. split; [exact Hw|]. intros P d' HP HR.
    destruct (Hcr P HP) as [_ Hd]. destruct (Hd d' HR) as [E|E]; [left | right]; rewrite (E 40), (E 41) by (unfold home; cbn; lia); vm_compute; auto.
Defined.

Definition sample_full : list (Z * (block -> block)) := map (fun b => (b, fun m => m)) (seqZ 40 30).

Lemma begin_op_overcommits_witness :
  @group Bio.bstate (bio_cache 1) 3 sample_full (mkL sample_log (Bio.binit sample_disk 100)) = Panic "too big a transaction".
Proof.
  apply (@begin_op_overcommits Bio.bstate (bio_cache 1) (bio_spec 1) (bio_ok 1) sample_log (Bio.binit sample_disk 100) sample_full); try reflexivity.
  - apply (@boot_txn Bio.bstate (bio_cache 1) (bio_spec 1) (bio_ok 1) 2 30 100 sample_disk (fun _ => 0) sample_disk_ok). vm_compute. reflexivity.
  - unfold sample_full. rewrite map_map, map_id. apply NoDup_seqZ.
  - apply sample_targets. unfold sample_full. rewrite map_map, map_id. intros b Hb%elem_of_seqZ. lia.
Defined.
