(* ===== verification/Fs.v ===== *)
(** The file system, [src/xv6/xv6-public/fs.c], on the log of [Log]: the block
    allocator, inodes and their cache, file contents, directories and paths.

    [icache.lock] makes the operations on the inode cache one step.  An inode
    pointer is the index of its entry in [icache.inode].  A buffer in the
    caller's memory is the function from its offsets to its bytes; [readi]
    returns the bytes it stores.  The device switch [devsw] is a table of
    functions that the kernel's drivers fill in. *)

From stdpp Require Import gmap.
From S2P Require Import Prelude Mem Block Bio Log Txn.

Definition NINODE : nat := 50.
Definition NDEV : Z := 10.
Definition ROOTINO : Z := 1.
Definition NDIRECT : Z := 12.
Definition NINDIRECT : Z := BSIZE / 4.
Definition MAXFILE : Z := NDIRECT + NINDIRECT.
Definition IPB : Z := BSIZE / 64.
Definition BPB : Z := BSIZE * 8.
Definition DIRSIZ : Z := 14.
Definition T_DIR : Z := 1.
Definition T_FILE : Z := 2.
Definition T_DEV : Z := 3.

(** [struct inode]: the entry of the cache and its copy of the disk inode. *)
Record inode := mkInode {
  i_dev : Z;
  i_inum : Z;
  i_ref : Z;
  i_lock : Bio.sleeplock;
  i_valid : Z;
  i_type : Z;
  i_major : Z;
  i_minor : Z;
  i_nlink : Z;
  i_size : Z;
  i_addrs : Z -> Z
}.

Definition with_ref (r : Z) (ip : inode) : inode :=
  mkInode (i_dev ip) (i_inum ip) r (i_lock ip) (i_valid ip) (i_type ip) (i_major ip) (i_minor ip) (i_nlink ip) (i_size ip) (i_addrs ip).
Definition with_ilock (l : Bio.sleeplock) (ip : inode) : inode :=
  mkInode (i_dev ip) (i_inum ip) (i_ref ip) l (i_valid ip) (i_type ip) (i_major ip) (i_minor ip) (i_nlink ip) (i_size ip) (i_addrs ip).
Definition with_valid (v : Z) (ip : inode) : inode :=
  mkInode (i_dev ip) (i_inum ip) (i_ref ip) (i_lock ip) v (i_type ip) (i_major ip) (i_minor ip) (i_nlink ip) (i_size ip) (i_addrs ip).
Definition with_type (t : Z) (ip : inode) : inode :=
  mkInode (i_dev ip) (i_inum ip) (i_ref ip) (i_lock ip) (i_valid ip) t (i_major ip) (i_minor ip) (i_nlink ip) (i_size ip) (i_addrs ip).
Definition with_devnos (ma mi : Z) (ip : inode) : inode :=
  mkInode (i_dev ip) (i_inum ip) (i_ref ip) (i_lock ip) (i_valid ip) (i_type ip) ma mi (i_nlink ip) (i_size ip) (i_addrs ip).
Definition with_nlink (n : Z) (ip : inode) : inode :=
  mkInode (i_dev ip) (i_inum ip) (i_ref ip) (i_lock ip) (i_valid ip) (i_type ip) (i_major ip) (i_minor ip) n (i_size ip) (i_addrs ip).
Definition with_size (n : Z) (ip : inode) : inode :=
  mkInode (i_dev ip) (i_inum ip) (i_ref ip) (i_lock ip) (i_valid ip) (i_type ip) (i_major ip) (i_minor ip) (i_nlink ip) n (i_addrs ip).
Definition with_addrs (a : Z -> Z) (ip : inode) : inode :=
  mkInode (i_dev ip) (i_inum ip) (i_ref ip) (i_lock ip) (i_valid ip) (i_type ip) (i_major ip) (i_minor ip) (i_nlink ip) (i_size ip) a.

(** [struct dinode] at offset [o] of a block: [type], [major], [minor], [nlink],
    [size] and the 13 words [addrs]. *)
Definition parse_dinode (b : block) (o : Z) (ip : inode) : inode :=
  mkInode (i_dev ip) (i_inum ip) (i_ref ip) (i_lock ip) (i_valid ip)
    (s16 (load16 b o)) (s16 (load16 b (o + 2))) (s16 (load16 b (o + 4))) (s16 (load16 b (o + 6)))
    (load32 b (o + 8)) (fun i => load32 b (o + 12 + 4 * i)).

Fixpoint store_addrs (k : nat) (i : Z) (f : Z -> Z) (o : Z) (b : block) : block :=
  match k with O => b | S k => store_addrs k (i + 1) f o (store32 b (o + 12 + 4 * i) (f i)) end.

Definition print_dinode (ip : inode) (b : block) (o : Z) : block :=
  store_addrs 13 0 (i_addrs ip) o
    (store32 (store16 (store16 (store16 (store16 b o (i_type ip)) (o + 2) (i_major ip)) (o + 4) (i_minor ip)) (o + 6) (i_nlink ip))
       (o + 8) (i_size ip)).

(** [struct dirent]: [inum] and [name]. *)
Record dirent := mkDe { de_inum : Z; de_name : Z -> Z }.

Definition parse_dirent (b : Z -> Z) : dirent := mkDe (load16 b 0) (fun i => b (2 + i)).
Definition print_dirent (de : dirent) : Z -> Z :=
  fun i => if i =? 0 then u8 (de_inum de) else if i =? 1 then u8 (de_inum de / 256) else de_name de (i - 2).

(** [struct stat]. *)
Record stat := mkStat { st_type : Z; st_dev : Z; st_ino : Z; st_nlink : Z; st_size : Z }.

(** The bytes of a list, as a buffer. *)
Definition buffer (l : list Z) : Z -> Z := fun i => if i <? 0 then 0 else nth (Z.to_nat i) l 0.

(** The file system's state on a log whose cache has state [C]. *)
Record fstate (C : Type) := mkF { f_log : lstate C; f_sb : superblock; f_icache : list inode }.
Arguments mkF {C} _ _ _.
Arguments f_log {C} _.
Arguments f_sb {C} _.
Arguments f_icache {C} _.

(** Two buffers side by side, for the string routines. *)
Definition beside (s t : Z -> Z) : mem := fun x => if x <? 4096 then s x else t (x - 4096).

Definition namecmp (s t : Z -> Z) : Z := strncmp (beside s t) 0 4096 (Z.to_nat DIRSIZ).

(** Drop and take characters of a path, the bytes of a string without its NUL. *)
Fixpoint skip_slashes (path : list Z) : list Z :=
  match path with c :: path' => if c =? 47 then skip_slashes path' else path | [] => [] end.

Fixpoint elem_of_path (path : list Z) : list Z * list Z :=
  match path with
  | c :: path' => if c =? 47 then ([], path) else let '(s, rest) := elem_of_path path' in (c :: s, rest)
  | [] => ([], [])
  end.

(** [Some (rest, name)], or [None] when there is no element. *)
Definition skipelem (path : list Z) : option (list Z * list Z) :=
  match skip_slashes path with
  | [] => None
  | path => let '(s, rest) := elem_of_path path in Some (skip_slashes rest, take (Z.to_nat DIRSIZ) s)
  end.

Section Ops.
Context {C : Type} `{BlockCache C}.

(** [myproc()->pid], and the entries of [devsw]. *)
Variable pid : Z.
Variable dev_read : Z -> option (nat -> Z -> M (fstate C) (Z * list Z)).
Variable dev_write : Z -> option (nat -> (Z -> Z) -> Z -> M (fstate C) Z).

Definition onlog {A} (m : M (lstate C) A) : M (fstate C) A := zoom f_log (fun l s => mkF l (f_sb s) (f_icache s)) m.
Definition fbread (b : Z) : M (fstate C) nat := onlog (cached (bread b)).
Definition fbrelse (i : nat) : M (fstate C) unit := onlog (cached (brelse i)).
Definition flog_write (i : nat) : M (fstate C) unit := onlog (log_write i).
Definition fdata (i : nat) : M (fstate C) block := onlog (cached (gets (fun c => bdata c i))).
Definition fset (i : nat) (v : block) : M (fstate C) unit := onlog (cached (modify (set_bdata i v))).
Definition gsb : M (fstate C) superblock := gets f_sb.

Definition get_inode (ip : nat) : M (fstate C) inode :=
  fun s => match f_icache s !! ip with Some n => Ok n s | None => Fault "no such inode" end.
Definition put_inode (ip : nat) (n : inode) : M (fstate C) unit :=
  modify (fun s => mkF (f_log s) (f_sb s) (<[ip := n]> (f_icache s))).

Definition IBLOCK (i : Z) (sb : superblock) : Z := u32 (i / IPB + sb_inodestart sb).
Definition BBLOCK (b : Z) (sb : superblock) : Z := u32 (b / BPB + sb_bmapstart sb).

Definition bzero (bno : Z) : M (fstate C) unit :=
  bp <- fbread bno ;;
  fset bp (fun _ => 0) ;;;
  flog_write bp ;;;
  fbrelse bp.

(** The first clear bit of a bitmap block, for the blocks [b + bi] below [size]. *)
Fixpoint free_bit (k : nat) (bi b size : Z) (d : block) : option Z :=
  match k with
  | O => None
  | S k =>
      if b + bi <? size then
        if Z.land (d (bi / 8)) (Z.shiftl 1 (bi mod 8)) =? 0 then Some bi else free_bit k (bi + 1) b size d
      else None
  end.

Fixpoint balloc_loop (fuel : nat) (b : Z) : M (fstate C) Z :=
  match fuel with
  | O => nofuel
  | S fuel =>
      sb <- gsb ;;
      if b <? sb_size sb then
        bp <- fbread (BBLOCK b sb) ;;
        d <- fdata bp ;;
        match free_bit (Z.to_nat BPB) 0 b (sb_size sb) d with
        | Some bi =>
            fset bp (store8 d (bi / 8) (Z.lor (d (bi / 8)) (Z.shiftl 1 (bi mod 8)))) ;;;
            flog_write bp ;;;
            fbrelse bp ;;;
            bzero (b + bi) ;;;
            ret (b + bi)
        | None => fbrelse bp ;;; balloc_loop fuel (b + BPB)
        end
      else panic "balloc: out of blocks"
  end.

(** One round per bitmap block, and the final test. *)
Definition balloc : M (fstate C) Z := sb <- gsb ;; balloc_loop (Z.to_nat (sb_size sb / BPB + 2)) 0.

Definition bfree (b : Z) : M (fstate C) unit :=
  sb <- gsb ;;
  bp <- fbread (BBLOCK b sb) ;;
  d <- fdata bp ;;
  let bi := b mod BPB in
  let m := Z.shiftl 1 (bi mod 8) in
  if Z.land (d (bi / 8)) m =? 0 then panic "freeing free block"
  else
    fset bp (store8 d (bi / 8) (Z.land (d (bi / 8)) (Z.lnot m))) ;;;
    flog_write bp ;;;
    fbrelse bp.

Definition iinit : M (fstate C) unit :=
  modify (fun s => mkF (f_log s) (f_sb s) (map (with_ilock Bio.initsleeplock) (f_icache s))) ;;;
  sb <- onlog (cached readsb) ;;
  modify (fun s => mkF (f_log s) sb (f_icache s)).

Definition iupdate (ip : nat) : M (fstate C) unit :=
  n <- get_inode ip ;;
  sb <- gsb ;;
  bp <- fbread (IBLOCK (i_inum n) sb) ;;
  d <- fdata bp ;;
  fset bp (print_dinode n d (64 * (i_inum n mod IPB))) ;;;
  flog_write bp ;;;
  fbrelse bp.

(** The loop of [iget]: the entry that holds the inode, or the first free one. *)
Fixpoint iget_scan (l : list inode) (i : nat) (dev inum : Z) (empty : option nat) : option nat * option nat :=
  match l with
  | [] => (None, empty)
  | n :: l =>
      if (0 <? i_ref n) && (i_dev n =? dev) && (i_inum n =? inum) then (Some i, empty)
      else iget_scan l (S i) dev inum (match empty with None => if i_ref n =? 0 then Some i else None | e => e end)
  end.

Definition iget (dev inum : Z) : M (fstate C) nat :=
  l <- gets f_icache ;;
  match iget_scan l 0 dev inum None with
  | (Some ip, _) => n <- get_inode ip ;; put_inode ip (with_ref (i_ref n + 1) n) ;;; ret ip
  | (None, None) => panic "iget: no inodes"
  | (None, Some ip) =>
      n <- get_inode ip ;;
      put_inode ip (mkInode dev inum 1 (i_lock n) 0 (i_type n) (i_major n) (i_minor n) (i_nlink n) (i_size n) (i_addrs n)) ;;;
      ret ip
  end.

Fixpoint ialloc_loop (fuel : nat) (type inum : Z) : M (fstate C) nat :=
  match fuel with
  | O => nofuel
  | S fuel =>
      sb <- gsb ;;
      if inum <? sb_ninodes sb then
        bp <- fbread (IBLOCK inum sb) ;;
        d <- fdata bp ;;
        let o := 64 * (inum mod IPB) in
        if load16 d o =? 0 then
          fset bp (store16 (memset d o 0 64) o type) ;;;
          flog_write bp ;;;
          fbrelse bp ;;;
          iget 1 inum
        else fbrelse bp ;;; ialloc_loop fuel type (inum + 1)
      else panic "ialloc: no inodes"
  end.

Definition ialloc (type : Z) : M (fstate C) nat := sb <- gsb ;; ialloc_loop (Z.to_nat (sb_ninodes sb + 1)) type 1.

Definition idup (ip : nat) : M (fstate C) nat :=
  n <- get_inode ip ;; put_inode ip (with_ref (i_ref n + 1) n) ;;; ret ip.

(** The sleeping lock of an inode, as in [Bio.acquiresleep]. *)
Definition iacquire (ip : nat) : M (fstate C) unit :=
  n <- get_inode ip ;;
  if truth (Bio.sl_locked (i_lock n)) then fault "acquiresleep: sleeps forever"
  else put_inode ip (with_ilock (Bio.mkSleep 1 pid) n).
Definition irelease (ip : nat) : M (fstate C) unit :=
  n <- get_inode ip ;; put_inode ip (with_ilock (Bio.mkSleep 0 0) n).
Definition iholding (n : inode) : bool := truth (Bio.sl_locked (i_lock n)) && (Bio.sl_pid (i_lock n) =? pid).

Definition ilock (ip : nat) : M (fstate C) unit :=
  n0 <- get_inode ip ;;
  if i_ref n0 <? 1 then panic "ilock" else
  iacquire ip ;;;
  n <- get_inode ip ;;
  if i_valid n =? 0 then
    sb <- gsb ;;
    bp <- fbread (IBLOCK (i_inum n) sb) ;;
    d <- fdata bp ;;
    let n' := with_valid 1 (parse_dinode d (64 * (i_inum n mod IPB)) n) in
    fbrelse bp ;;;
    put_inode ip n' ;;;
    if i_type n' =? 0 then panic "ilock: no type" else ret tt
  else ret tt.

Definition iunlock (ip : nat) : M (fstate C) unit :=
  n <- get_inode ip ;;
  if negb (iholding n) || (i_ref n <? 1) then panic "iunlock" else irelease ip.

(** The block at index [bn] of the file, allocated when missing. *)
Definition bmap (ip : nat) (bn : Z) : M (fstate C) Z :=
  n <- get_inode ip ;;
  if bn <? NDIRECT then
    if i_addrs n bn =? 0 then
      addr <- balloc ;;
      n <- get_inode ip ;;
      put_inode ip (with_addrs (upd (i_addrs n) bn addr) n) ;;;
      ret addr
    else ret (i_addrs n bn)
  else
    let bn := bn - NDIRECT in
    if bn <? NINDIRECT then
      (if i_addrs n NDIRECT =? 0 then
         addr <- balloc ;;
         n <- get_inode ip ;;
         put_inode ip (with_addrs (upd (i_addrs n) NDIRECT addr) n)
       else ret tt) ;;;
      n <- get_inode ip ;;
      bp <- fbread (i_addrs n NDIRECT) ;;
      a <- fdata bp ;;
      let addr := load32 a (4 * bn) in
      if addr =? 0 then
        addr <- balloc ;;
        a <- fdata bp ;;
        fset bp (store32 a (4 * bn) addr) ;;;
        flog_write bp ;;;
        fbrelse bp ;;;
        ret addr
      else fbrelse bp ;;; ret addr
    else panic "bmap: out of range".

Fixpoint itrunc_direct (k : nat) (i : Z) (ip : nat) : M (fstate C) unit :=
  match k with
  | O => ret tt
  | S k =>
      n <- get_inode ip ;;
      (if truth (i_addrs n i) then
         bfree (i_addrs n i) ;;;
         n <- get_inode ip ;;
         put_inode ip (with_addrs (upd (i_addrs n) i 0) n)
       else ret tt) ;;;
      itrunc_direct k (i + 1) ip
  end.

Fixpoint itrunc_indirect (k : nat) (j : Z) (bp : nat) : M (fstate C) unit :=
  match k with
  | O => ret tt
  | S k =>
      a <- fdata bp ;;
      (if truth (load32 a (4 * j)) then bfree (load32 a (4 * j)) else ret tt) ;;;
      itrunc_indirect k (j + 1) bp
  end.

Definition itrunc (ip : nat) : M (fstate C) unit :=
  itrunc_direct (Z.to_nat NDIRECT) 0 ip ;;;
  n <- get_inode ip ;;
  (if truth (i_addrs n NDIRECT) then
     bp <- fbread (i_addrs n NDIRECT) ;;
     itrunc_indirect (Z.to_nat NINDIRECT) 0 bp ;;;
     fbrelse bp ;;;
     bfree (i_addrs n NDIRECT) ;;;
     n <- get_inode ip ;;
     put_inode ip (with_addrs (upd (i_addrs n) NDIRECT 0) n)
   else ret tt) ;;;
  n <- get_inode ip ;;
  put_inode ip (with_size 0 n) ;;;
  iupdate ip.

Definition iput (ip : nat) : M (fstate C) unit :=
  iacquire ip ;;;
  n <- get_inode ip ;;
  (if truth (i_valid n) && (i_nlink n =? 0) && (i_ref n =? 1) then
     itrunc ip ;;;
     n <- get_inode ip ;;
     put_inode ip (with_type 0 n) ;;;
     iupdate ip ;;;
     n <- get_inode ip ;;
     put_inode ip (with_valid 0 n)
   else ret tt) ;;;
  irelease ip ;;;
  n <- get_inode ip ;;
  put_inode ip (with_ref (i_ref n - 1) n).

Definition iunlockput (ip : nat) : M (fstate C) unit := iunlock ip ;;; iput ip.

Definition stati (ip : nat) : M (fstate C) stat :=
  n <- get_inode ip ;; ret (mkStat (i_type n) (s32 (i_dev n)) (i_inum n) (i_nlink n) (i_size n)).

(** The bytes stored at [dst]; [off] and [n] are what is left of the request. *)
Fixpoint readi_loop (fuel : nat) (ip : nat) (off n : Z) : M (fstate C) (list Z) :=
  match fuel with
  | O => nofuel
  | S fuel =>
      if 0 <? n then
        addr <- bmap ip (off / BSIZE) ;;
        bp <- fbread addr ;;
        d <- fdata bp ;;
        let m := Z.min n (BSIZE - off mod BSIZE) in
        fbrelse bp ;;;
        rest <- readi_loop fuel ip (off + m) (n - m) ;;
        ret (map (fun i => d (off mod BSIZE + i)) (seqZ 0 m) ++ rest)
      else ret []
  end.

Definition readi (ip : nat) (off n : Z) : M (fstate C) (Z * list Z) :=
  nd <- get_inode ip ;;
  if i_type nd =? T_DEV then
    if (i_major nd <? 0) || (NDEV <=? i_major nd) then ret (-1, [])
    else match dev_read (i_major nd) with None => ret (-1, []) | Some f => f ip (s32 n) end
  else if (i_size nd <? off) || (u32 (off + n) <? off) then ret (-1, [])
  else
    let n := if i_size nd <? u32 (off + n) then i_size nd - off else n in
    bs <- readi_loop (S (Z.to_nat n)) ip off n ;;
    ret (s32 n, bs).

(** The loop of [writei]: [tot] bytes of [src] are written. *)
Fixpoint writei_loop (fuel : nat) (ip : nat) (src : Z -> Z) (tot off n : Z) : M (fstate C) unit :=
  match fuel with
  | O => nofuel
  | S fuel =>
      if tot <? n then
        addr <- bmap ip (off / BSIZE) ;;
        bp <- fbread addr ;;
        d <- fdata bp ;;
        let m := Z.min (n - tot) (BSIZE - off mod BSIZE) in
        fset bp (fun i => if (off mod BSIZE <=? i) && (i <? off mod BSIZE + m) then src (tot + (i - off mod BSIZE)) else d i) ;;;
        flog_write bp ;;;
        fbrelse bp ;;;
        writei_loop fuel ip src (tot + m) (off + m) n
      else ret tt
  end.

Definition writei (ip : nat) (src : Z -> Z) (off n : Z) : M (fstate C) Z :=
  nd <- get_inode ip ;;
  if i_type nd =? T_DEV then
    if (i_major nd <? 0) || (NDEV <=? i_major nd) then ret (-1)
    else match dev_write (i_major nd) with None => ret (-1) | Some f => f ip src (s32 n) end
  else if (i_size nd <? off) || (u32 (off + n) <? off) then ret (-1)
  else if MAXFILE * BSIZE <? u32 (off + n) then ret (-1)
  else
    writei_loop (S (Z.to_nat n)) ip src 0 off n ;;;
    nd <- get_inode ip ;;
    (if (0 <? n) && (i_size nd <? u32 (off + n)) then put_inode ip (with_size (u32 (off + n)) nd) ;;; iupdate ip else ret tt) ;;;
    ret (s32 n).

Fixpoint dirlookup_loop (fuel : nat) (dp : nat) (name : Z -> Z) (off : Z) : M (fstate C) (option (nat * Z)) :=
  match fuel with
  | O => nofuel
  | S fuel =>
      nd <- get_inode dp ;;
      if off <? i_size nd then
        r <- readi dp off 16 ;;
        if negb (fst r =? 16) then panic "dirlookup read" else
        let de := parse_dirent (buffer (snd r)) in
        if de_inum de =? 0 then dirlookup_loop fuel dp name (off + 16)
        else if namecmp name (de_name de) =? 0 then
          ip <- iget (i_dev nd) (de_inum de) ;; ret (Some (ip, off))
        else dirlookup_loop fuel dp name (off + 16)
      else ret None
  end.

(** The entry's inode and its offset ([*poff]), or [None] for the null pointer. *)
Definition dirlookup (dp : nat) (name : Z -> Z) : M (fstate C) (option (nat * Z)) :=
  nd <- get_inode dp ;;
  if negb (i_type nd =? T_DIR) then panic "dirlookup not DIR"
  else dirlookup_loop (S (Z.to_nat (i_size nd))) dp name 0.

(** The offset of the first empty entry, or the end of the directory. *)
Fixpoint dirlink_loop (fuel : nat) (dp : nat) (off : Z) : M (fstate C) Z :=
  match fuel with
  | O => nofuel
  | S fuel =>
      nd <- get_inode dp ;;
      if off <? i_size nd then
        r <- readi dp off 16 ;;
        if negb (fst r =? 16) then panic "dirlink read" else
        if de_inum (parse_dirent (buffer (snd r))) =? 0 then ret off else dirlink_loop fuel dp (off + 16)
      else ret off
  end.

(** [strncpy(de.name, name, DIRSIZ)]. *)
Definition dirent_name (old name : Z -> Z) : Z -> Z := strncpy (beside old name) 0 4096 DIRSIZ.

Definition dirlink (dp : nat) (name : Z -> Z) (inum : Z) : M (fstate C) Z :=
  r <- dirlookup dp name ;;
  match r with
  | Some (ip, _) => iput ip ;;; ret (-1)
  | None =>
      nd <- get_inode dp ;;
      off <- dirlink_loop (S (Z.to_nat (i_size nd))) dp 0 ;;
      w <- writei dp (print_dirent (mkDe (u16 inum) (dirent_name (fun _ => 0) name))) off 16 ;;
      if negb (w =? 16) then panic "dirlink" else ret 0
  end.

Fixpoint namex_loop (fuel : nat) (path : list Z) (parent : bool) (ip : nat) (name : list Z) : M (fstate C) (option nat * list Z) :=
  match fuel with
  | O => nofuel
  | S fuel =>
      match skipelem path with
      | None => if parent then iput ip ;;; ret (None, name) else ret (Some ip, name)
      | Some (path, name) =>
          ilock ip ;;;
          nd <- get_inode ip ;;
          if negb (i_type nd =? T_DIR) then iunlockput ip ;;; ret (None, name)
          else if parent && (match path with [] => true | _ => false end) then iunlock ip ;;; ret (Some ip, name)
          else
            r <- dirlookup ip (buffer name) ;;
            match r with
            | None => iunlockput ip ;;; ret (None, name)
            | Some (next, _) => iunlockput ip ;;; namex_loop fuel path parent next name
            end
      end
  end.

(** [cwd] is [myproc()->cwd]; the result is the inode, if any, and the last
    element left in [name]. *)
Definition namex (cwd : nat) (path : list Z) (parent : bool) : M (fstate C) (option nat * list Z) :=
  ip <- (match path with 47 :: _ => iget 1 ROOTINO | _ => idup cwd end) ;;
  namex_loop (S (length path)) path parent ip [].

Definition namei (cwd : nat) (path : list Z) : M (fstate C) (option nat) :=
  r <- namex cwd path false ;; ret (fst r).
Definition nameiparent (cwd : nat) (path : list Z) : M (fstate C) (option nat * list Z) := namex cwd path true.

End Ops.
