(* ===== verification/Balloc.v ===== *)
(** The behaviour of the block allocator of [Fs] inside a transaction: [balloc]
    and [bfree] on the free bitmap, with the lemmas that lift the log's promise
    to the file system's state. *)

From stdpp Require Import gmap.
From S2P Require Import Prelude Mem Block Bio Log Txn Fs.

Lemma IPB_pos : 0 < IPB.
Proof. reflexivity. Qed.
Lemma BPB_pos : 0 < BPB.
Proof. reflexivity. Qed.

(** ** Bits of a byte *)

Lemma land_bit x k : 0 <= k -> (Z.land x (Z.shiftl 1 k) =? 0) = negb (Z.testbit x k).
Proof.
  intros Hk. destruct (Z.testbit x k) eqn:E; cbn [negb].
  - apply Z.eqb_neq. intros H0. apply (f_equal (fun z => Z.testbit z k)) in H0.
    rewrite Z.land_spec, E, Z.shiftl_spec, Z.sub_diag, Z.bits_0 in H0 by lia. discriminate.
  - apply Z.eqb_eq, Z.bits_inj'. intros j Hj. rewrite Z.land_spec, Z.shiftl_spec, Z.bits_0 by lia.
    destruct (Z.eq_dec j k) as [->|Hne]; [now rewrite E|]. change 1 with (2 ^ 0). rewrite Z.pow2_bits_eqb by lia.
    rewrite (proj2 (Z.eqb_neq 0 (j - k))) by lia. apply andb_false_r.
Qed.

Lemma u8_testbit v j : 0 <= j < 8 -> Z.testbit (u8 v) j = Z.testbit v j.
Proof. intros Hj. unfold u8. change 256 with (2 ^ 8). apply Z.mod_pow2_bits_low. lia. Qed.

Lemma testbit_set x k j : 0 <= k -> 0 <= j -> Z.testbit (Z.lor x (Z.shiftl 1 k)) j = (j =? k) || Z.testbit x j.
Proof.
  intros Hk Hj. rewrite Z.lor_spec, Z.shiftl_spec by lia. change 1 with (2 ^ 0). rewrite Z.pow2_bits_eqb by lia.
  destruct (Z.eqb_spec j k), (Z.eqb_spec 0 (j - k)); try lia; destruct (Z.testbit x j); reflexivity.
Qed.

Lemma testbit_clear x k j : 0 <= k -> 0 <= j -> Z.testbit (Z.land x (Z.lnot (Z.shiftl 1 k))) j = negb (j =? k) && Z.testbit x j.
Proof.
  intros Hk Hj. rewrite Z.land_spec, Z.lnot_spec, Z.shiftl_spec by lia. change 1 with (2 ^ 0). rewrite Z.pow2_bits_eqb by lia.
  destruct (Z.eqb_spec j k), (Z.eqb_spec 0 (j - k)); try lia; destruct (Z.testbit x j); reflexivity.
Qed.

(** ** The layout of the disk *)

(** The first data block. *)
Definition datastart (sb : superblock) : Z := sb_bmapstart sb + sb_size sb / BPB + 1.

(** boot block, super block, log, inode blocks, free bit map, data blocks. *)
Record layout (sb : superblock) (st sz nb : Z) : Prop := {
  ly_log : 1 < st /\ 0 < sz /\ st + sz <= sb_inodestart sb;
  ly_inodes : 0 <= sb_ninodes sb /\ sb_inodestart sb + sb_ninodes sb / IPB + 1 <= sb_bmapstart sb;
  ly_bmap : 0 <= sb_size sb /\ datastart sb <= sb_size sb;
  ly_size : sb_size sb <= nb <= two31
}.

(** Is block [b] marked as used in the bitmap? *)
Definition used (V : Z -> block) (sb : superblock) (b : Z) : bool :=
  Z.testbit (V (BBLOCK b sb) (b mod BPB / 8)) (b mod 8).

Definition set_used (V : Z -> block) (sb : superblock) (b : Z) : Z -> block :=
  let d := V (BBLOCK b sb) in
  upd V (BBLOCK b sb) (store8 d (b mod BPB / 8) (Z.lor (d (b mod BPB / 8)) (Z.shiftl 1 (b mod 8)))).

Definition set_free (V : Z -> block) (sb : superblock) (b : Z) : Z -> block :=
  let d := V (BBLOCK b sb) in
  upd V (BBLOCK b sb) (store8 d (b mod BPB / 8) (Z.land (d (b mod BPB / 8)) (Z.lnot (Z.shiftl 1 (b mod 8))))).

Section Layout.
Variables (sb : superblock) (st sz nb : Z).
Hypothesis L : layout sb st sz nb.

Lemma bblock_eq b : 0 <= b < sb_size sb -> BBLOCK b sb = b / BPB + sb_bmapstart sb /\ b / BPB <= sb_size sb / BPB.
Proof.
  intros Hb. destruct L as [L1 L2 L3 L4]. assert (Hd : 0 <= b / BPB <= sb_size sb / BPB)
    by (split; [apply Z.div_pos; [lia | apply BPB_pos] | apply Z.div_le_mono; [apply BPB_pos | lia]]).
  assert (0 <= sb_ninodes sb / IPB) by (apply Z.div_pos; [lia | apply IPB_pos]).
  split; [|lia]. unfold BBLOCK. apply u32_small. unfold datastart, two31, two32 in *. lia.
Qed.

Lemma bblock_range b : 0 <= b < sb_size sb -> sb_bmapstart sb <= BBLOCK b sb < datastart sb /\ st + sz <= sb_bmapstart sb.
Proof.
  intros Hb. destruct (bblock_eq b Hb) as [E Hd]. assert (0 <= b / BPB) by (apply Z.div_pos; [lia | apply BPB_pos]).
  assert (0 <= sb_ninodes sb / IPB) by (apply Z.div_pos; [apply L | apply IPB_pos]).
  pose proof (ly_log _ _ _ _ L). pose proof (ly_inodes _ _ _ _ L). unfold datastart. lia.
Qed.

Lemma bblock_home b : 0 <= b < sb_size sb -> home st sz (BBLOCK b sb) /\ 0 <= BBLOCK b sb < nb.
Proof.
  intros Hb. destruct (bblock_range b Hb). pose proof (ly_log _ _ _ _ L). pose proof (ly_bmap _ _ _ _ L). pose proof (ly_size _ _ _ _ L).
  unfold home. lia.
Qed.

Lemma data_home b : datastart sb <= b < sb_size sb -> home st sz b /\ 0 <= b < nb.
Proof.
  intros Hb. pose proof (ly_log _ _ _ _ L). pose proof (ly_inodes _ _ _ _ L). pose proof (ly_size _ _ _ _ L).
  assert (0 <= sb_ninodes sb / IPB) by (apply Z.div_pos; [lia | apply IPB_pos]).
  assert (0 <= sb_size sb / BPB) by (apply Z.div_pos; [apply L | apply BPB_pos]). unfold home, datastart in *. lia.
Qed.

(** Two blocks with the same bit are the same block. *)
Lemma bit_inj b c : 0 <= b < sb_size sb -> 0 <= c < sb_size sb -> BBLOCK b sb = BBLOCK c sb ->
  b mod BPB / 8 = c mod BPB / 8 -> b mod 8 = c mod 8 -> b = c.
Proof.
  intros Hb Hc E1 E2 E3. destruct (bblock_eq b Hb) as [Eb _], (bblock_eq c Hc) as [Ec _]. unfold BPB, BSIZE in *.
  change (512 * 8) with 4096 in *. Z.to_euclidean_division_equations. lia.
Qed.

Lemma used_set V b c : 0 <= b < sb_size sb -> 0 <= c < sb_size sb ->
  used (set_used V sb b) sb c = (c =? b) || used V sb c.
Proof.
  intros Hb Hc. unfold used, set_used, upd. destruct (Z.eqb_spec (BBLOCK c sb) (BBLOCK b sb)) as [E|E].
  - unfold store8. destruct (Z.eqb_spec (c mod BPB / 8) (b mod BPB / 8)) as [E2|E2].
    + rewrite u8_testbit, testbit_set by (try apply Z.mod_pos_bound; try apply Z.mod_pos_bound; lia). rewrite E, E2. f_equal.
      destruct (Z.eqb_spec (c mod 8) (b mod 8)) as [E3|E3]; symmetry; [apply Z.eqb_eq; now apply bit_inj | apply Z.eqb_neq; congruence].
    + rewrite E, (proj2 (Z.eqb_neq c b)) by congruence. reflexivity.
  - rewrite (proj2 (Z.eqb_neq c b)) by congruence. reflexivity.
Qed.

Lemma used_free V b c : 0 <= b < sb_size sb -> 0 <= c < sb_size sb ->
  used (set_free V sb b) sb c = negb (c =? b) && used V sb c.
Proof.
  intros Hb Hc. unfold used, set_free, upd. destruct (Z.eqb_spec (BBLOCK c sb) (BBLOCK b sb)) as [E|E].
  - unfold store8. destruct (Z.eqb_spec (c mod BPB / 8) (b mod BPB / 8)) as [E2|E2].
    + rewrite u8_testbit, testbit_clear by (try apply Z.mod_pos_bound; try apply Z.mod_pos_bound; lia). rewrite E, E2. do 2 f_equal.
      destruct (Z.eqb_spec (c mod 8) (b mod 8)) as [E3|E3]; symmetry; [apply Z.eqb_eq; now apply bit_inj | apply Z.eqb_neq; congruence].
    + rewrite E, (proj2 (Z.eqb_neq c b)) by congruence. reflexivity.
  - rewrite (proj2 (Z.eqb_neq c b)) by congruence. reflexivity.
Qed.

End Layout.

Lemma used_ext V V' sb b : V' (BBLOCK b sb) = V (BBLOCK b sb) -> used V' sb b = used V sb b.
Proof. intros E. unfold used. now rewrite E. Qed.

(** The scan of one bitmap block. *)
Lemma free_bit_spec k bi b size d : 0 <= bi ->
  match free_bit k bi b size d with
  | Some r => bi <= r < bi + Z.of_nat k /\ b + r < size /\ Z.testbit (d (r / 8)) (r mod 8) = false /\
      forall q, bi <= q < r -> Z.testbit (d (q / 8)) (q mod 8) = true
  | None => forall q, bi <= q < bi + Z.of_nat k -> b + q < size -> Z.testbit (d (q / 8)) (q mod 8) = true
  end.
Proof.
  revert bi. induction k as [|k IH]; intros bi Hbi; cbn [free_bit]; [lia|].
  destruct (Z.ltb_spec (b + bi) size) as [Hs|Hs]; [|intros; lia].
  rewrite land_bit by (apply Z.mod_pos_bound; lia). destruct (Z.testbit (d (bi / 8)) (bi mod 8)) eqn:E; cbn [negb].
  - specialize (IH (bi + 1) ltac:(lia)). destruct (free_bit k (bi + 1) b size d) as [r|].
    + destruct IH as (H1 & H2 & H3 & H4). split; [lia|]. split; [lia|]. split; [exact H3|]. intros q Hq.
      destruct (Z.eq_dec q bi) as [->|]; [exact E | apply H4; lia].
    + intros q Hq Hqs. destruct (Z.eq_dec q bi) as [->|]; [exact E | apply IH; lia].
  - split; [lia|]. split; [lia|]. split; [exact E | intros; lia].
Qed.

(** ** Lifting the log's promise *)

Section Lift.
Context {C : Type} `{BlockCacheOk C}.

(** The contents of the blocks, and the number of logged ones. *)
Definition fview (s : fstate C) : Z -> block := view (l_cache (f_log s)).
Definition flogged (s : fstate C) : Z := lg_n (l_log (f_log s)).

(** A file system at rest, [Hl] the blocks that are held: the log's invariant and the
    layout of the disk. *)
Record fquiet (s : fstate C) (Hl : list (nat * Z)) : Prop := {
  fq_txn : txn (f_log s) Hl ∅;
  fq_layout : layout (f_sb s) (lg_start (l_log (f_log s))) (lg_size (l_log (f_log s))) (nblocks (l_cache (f_log s)))
}.

(** A transaction in progress. *)
Record ftxn (s : fstate C) (Hl : list (nat * Z)) : Prop := {
  ft_txn : txn (f_log s) Hl ∅;
  ft_open : 1 <= lg_outstanding (l_log (f_log s));
  ft_layout : layout (f_sb s) (lg_start (l_log (f_log s))) (lg_size (l_log (f_log s))) (nblocks (l_cache (f_log s)))
}.

Definition room (s : fstate C) (k : Z) : Prop :=
  flogged s + k < Z.of_nat NBUF /\ flogged s + k <= lg_size (l_log (f_log s)) - 1.

(** The steps of a transaction keep all but the contents, the logged blocks and
    the inodes. *)
Record fsame (s s' : fstate C) : Prop := {
  fs_kept : kept (f_log s) (f_log s');
  fs_sb : f_sb s' = f_sb s
}.

Lemma fsame_refl s : fsame s s.
Proof. constructor; [apply kept_refl | reflexivity]. Qed.

Lemma fsame_trans s1 s2 s3 : fsame s1 s2 -> fsame s2 s3 -> fsame s1 s3.
Proof. intros [K1 S1] [K2 S2]. constructor; [now apply (kept_trans _ (f_log s2)) | congruence]. Qed.

Lemma room_same s s' k k' : fsame s s' -> flogged s' <= flogged s + k -> room s (k + k') -> room s' k'.
Proof. intros [K _] Hn [R1 R2]. unfold room. rewrite (kp_size _ _ K). unfold flogged in *. lia. Qed.

Lemma room_weaken s k k' : room s k -> k' <= k -> room s k'.
Proof. unfold room. lia. Qed.

Lemma ftxn_same s s' Hl Hl' : ftxn s Hl -> fsame s s' -> txn (f_log s') Hl' ∅ -> ftxn s' Hl'.
Proof.
  intros [T O L] [[K1 K2 K3 K4 K5 K6 K7] Sb] T'. constructor; auto; [now rewrite K3|]. now rewrite Sb, K1, K2, K7.
Qed.

Lemma onlog_ok {A} (m : M (lstate C) A) (s : fstate C) a l' : m (f_log s) = Ok a l' -> onlog m s = Ok a (mkF l' (f_sb s) (f_icache s)).
Proof. intros E. unfold onlog, zoom. now rewrite E. Qed.

(** What a step leaves: its state, the inodes it does not touch, the new
    contents, and at most [k] more logged blocks. *)
Record fstep (s s' : fstate C) (Hl : list (nat * Z)) (V : Z -> block) (k : Z) : Prop := {
  fp_txn : ftxn s' Hl;
  fp_same : fsame s s';
  fp_icache : f_icache s' = f_icache s;
  fp_view : forall b, fview s' b = V b;
  fp_logged : flogged s <= flogged s' <= flogged s + k
}.

(** The same for a step that logs nothing, in a transaction or not. *)
Record fmove (s s' : fstate C) (Hl : list (nat * Z)) : Prop := {
  fm_quiet : fquiet s' Hl;
  fm_same : fsame s s';
  fm_icache : f_icache s' = f_icache s;
  fm_view : forall b, fview s' b = fview s b;
  fm_logged : flogged s' = flogged s
}.

Lemma ftxn_quiet s Hl : ftxn s Hl -> fquiet s Hl.
Proof. intros [T O L]. now constructor. Qed.

Lemma fmove_step s s' Hl Hl' : ftxn s Hl -> fmove s s' Hl' -> fstep s s' Hl' (fview s) 0.
Proof. intros T [[Q L] F I V N]. constructor; auto; [now apply (ftxn_same s _ Hl) | lia]. Qed.

Lemma fquiet_same s s' Hl Hl' : fquiet s Hl -> fsame s s' -> txn (f_log s') Hl' ∅ -> fquiet s' Hl'.
Proof. intros [T L] [[K1 K2 K3 K4 K5 K6 K7] Sb] T'. constructor; auto. now rewrite Sb, K1, K2, K7. Qed.

Lemma fmove_refl s Hl : fquiet s Hl -> fmove s s Hl.
Proof. intros Q. constructor; auto using fsame_refl. Qed.

Lemma fmove_trans s1 s2 s3 Hl2 Hl3 : fmove s1 s2 Hl2 -> fmove s2 s3 Hl3 -> fmove s1 s3 Hl3.
Proof.
  intros [Q1 F1 I1 V1 N1] [Q2 F2 I2 V2 N2]. constructor; [exact Q2 | now apply (fsame_trans _ s2) | congruence | | congruence].
  intros b. now rewrite V2, V1.
Qed.

Lemma fmove_room s s' Hl k : fmove s s' Hl -> room s k -> room s' k.
Proof. intros [Q F I V N] R. apply (room_same s s' 0); auto. lia. Qed.

Lemma q_bread s Hl b : fquiet s Hl -> b ∉ map snd Hl -> 0 <= b < nblocks (l_cache (f_log s)) ->
  flogged s + Z.of_nat (length Hl) < Z.of_nat NBUF -> exists i s', fbread b s = Ok i s' /\ fmove s s' ((i, b) :: Hl).
Proof.
  intros T Hb Hr Hn. destruct (txn_bread (f_log s) Hl ∅ b (fq_txn _ _ T) Hb Hr Hn) as (i & l' & R & T' & K & Lg & V).
  exists i, (mkF l' (f_sb s) (f_icache s)). split; [now apply onlog_ok|].
  assert (F : fsame s (mkF l' (f_sb s) (f_icache s))) by now constructor.
  constructor; auto; [now apply (fquiet_same s _ Hl)|]. unfold flogged. cbn. now rewrite Lg.
Qed.

Lemma q_data s Hl i b : fquiet s Hl -> (i, b) ∈ Hl -> fdata i s = Ok (fview s b) s.
Proof.
  intros T Hi. pose proof (txn_data _ _ _ _ _ (fq_txn _ _ T) Hi) as E. destruct s as [[g c] sb ic]. cbn in E.
  unfold fdata, onlog, cached, zoom. cbn. now rewrite E.
Qed.

Lemma q_brelse s Hl i b : fquiet s ((i, b) :: Hl) -> exists s', fbrelse i s = Ok tt s' /\ fmove s s' Hl.
Proof.
  intros T. destruct (txn_brelse (f_log s) Hl ∅ i b (fq_txn _ _ T) (not_elem_of_empty b)) as (l' & R & T' & K & Lg & V).
  exists (mkF l' (f_sb s) (f_icache s)). split; [now apply onlog_ok|].
  assert (F : fsame s (mkF l' (f_sb s) (f_icache s))) by now constructor.
  constructor; auto; [now apply (fquiet_same s _ ((i, b) :: Hl))|]. unfold flogged. cbn. now rewrite Lg.
Qed.

Lemma f_bread s Hl b : ftxn s Hl -> b ∉ map snd Hl -> 0 <= b < nblocks (l_cache (f_log s)) ->
  flogged s + Z.of_nat (length Hl) < Z.of_nat NBUF ->
  exists i s', fbread b s = Ok i s' /\ fstep s s' ((i, b) :: Hl) (fview s) 0.
Proof. intros T Hb Hr Hn. destruct (q_bread s Hl b (ftxn_quiet _ _ T) Hb Hr Hn) as (i & s' & R & F). eauto using fmove_step. Qed.

Lemma f_data s Hl i b : ftxn s Hl -> (i, b) ∈ Hl -> fdata i s = Ok (fview s b) s.
Proof. intros T. exact (q_data s Hl i b (ftxn_quiet _ _ T)). Qed.

Lemma f_brelse s Hl i b : ftxn s ((i, b) :: Hl) -> exists s', fbrelse i s = Ok tt s' /\ fstep s s' Hl (fview s) 0.
Proof. intros T. destruct (q_brelse s Hl i b (ftxn_quiet _ _ T)) as (s' & R & F). eauto using fmove_step. Qed.

(** Changing a held block and logging it. *)
Lemma f_put s Hl i b v : ftxn s Hl -> (i, b) ∈ Hl -> home (lg_start (l_log (f_log s))) (lg_size (l_log (f_log s))) b ->
  0 <= b < nblocks (l_cache (f_log s)) -> room s 1 ->
  exists s', (forall A (k : unit -> M (fstate C) A), (fset i v ;;; bind (flog_write i) k) s = k tt s') /\
    fstep s s' Hl (upd (fview s) b v) 1.
Proof.
  intros T Hi Hh Hb [R1 R2]. destruct (txn_set (f_log s) Hl ∅ i b v (ft_txn _ _ T) Hi) as (T1 & K1 & V1). set (l1 := mkL _ _) in *.
  destruct (txn_log_write l1 Hl _ i b T1 Hi) as (l2 & R & T2 & K2 & Lg & V2); auto.
  { now rewrite (kp_nblocks _ _ K1). } { unfold flogged in *. cbn. lia. } { apply T. }
  rewrite union_empty_r_L, difference_diag_L in T2.
  exists (mkF l2 (f_sb s) (f_icache s)). split.
  - intros A k. unfold fset, flog_write. rewrite (bind_ok _ _ _ tt (mkF l1 (f_sb s) (f_icache s))); [|now destruct s as [[g c] sb ic]].
    now rewrite (bind_ok _ _ _ _ _ (onlog_ok (log_write i) (mkF l1 (f_sb s) (f_icache s)) tt l2 R)).
  - assert (F : fsame s (mkF l2 (f_sb s) (f_icache s))) by (constructor; [now apply (kept_trans _ l1) | reflexivity]).
    constructor; auto; [now apply (ftxn_same s _ Hl) | |].
    + intros c. unfold fview. cbn. now rewrite V2, V1.
    + unfold flogged. cbn. destruct (lw_n _ _ (tx_geom _ _ _ T2)) as [[Hn2 _] _], (lw_n _ _ (tx_geom _ _ _ (ft_txn _ _ T))) as [[Hn0 _] _].
      rewrite <- (logged_length _ Hn2), <- (logged_length _ Hn0), Lg. cbn. pose proof (log_add_length b (logged (l_log (f_log s)))). lia.
Qed.

Lemma fstep_trans s1 s2 s3 Hl2 Hl3 V2 V3 k2 k3 : fstep s1 s2 Hl2 V2 k2 -> fstep s2 s3 Hl3 V3 k3 -> fstep s1 s3 Hl3 V3 (k2 + k3).
Proof.
  intros [T1 F1 I1 W1 N1] [T2 F2 I2 W2 N2]. constructor; auto; [now apply (fsame_trans _ s2) | congruence | lia].
Qed.

Lemma fstep_view s s' Hl V V' k : fstep s s' Hl V k -> (forall b, V b = V' b) -> fstep s s' Hl V' k.
Proof. intros [T F I W N] E. constructor; auto. intros b. now rewrite W. Qed.

Lemma fstep_room s s' Hl V k k' : fstep s s' Hl V k -> room s (k + k') -> room s' k'.
Proof. intros [T F I W N] R. apply (room_same s s' k); auto. lia. Qed.

(** Reading, changing, logging and releasing a block. *)
Lemma f_update s Hl b F : ftxn s Hl -> b ∉ map snd Hl -> home (lg_start (l_log (f_log s))) (lg_size (l_log (f_log s))) b ->
  0 <= b < nblocks (l_cache (f_log s)) -> room s (1 + Z.of_nat (length Hl)) ->
  exists s', (bp <- fbread b ;; d <- fdata bp ;; fset bp (F d) ;;; flog_write bp ;;; fbrelse bp) s = Ok tt s' /\
    fstep s s' Hl (upd (fview s) b (F (fview s b))) 1.
Proof.
  intros T Hn Hh Hb R. destruct (f_bread s Hl b T Hn Hb) as (i & s1 & R1 & F1); [unfold room in R; lia|].
  pose proof (fp_same _ _ _ _ _ F1) as [K1 _]. assert (Hi : (i, b) ∈ (i, b) :: Hl) by (apply elem_of_cons; auto).
  destruct (f_put s1 _ i b (F (fview s b)) (fp_txn _ _ _ _ _ F1) Hi) as (s2 & R2 & F2).
  { now rewrite (kp_start _ _ K1), (kp_size _ _ K1). } { now rewrite (kp_nblocks _ _ K1). }
  { apply (fstep_room s _ _ _ 0 _ F1). apply (room_weaken s _ _ R). lia. }
  destruct (f_brelse s2 Hl i b (fp_txn _ _ _ _ _ F2)) as (s3 & R3 & F3).
  exists s3. split.
  - now rewrite (bind_ok _ _ _ _ _ R1), (bind_ok _ _ _ _ _ (f_data s1 _ i b (fp_txn _ _ _ _ _ F1) Hi)), (fp_view _ _ _ _ _ F1), R2.
  - apply (fstep_trans s s1 s3 _ _ _ _ 0 1 F1). apply (fstep_view s1 s3 Hl (fview s2)).
    + exact (fstep_trans s1 s2 s3 _ _ _ _ 1 0 F2 F3).
    + intros c. rewrite (fp_view _ _ _ _ _ F2). unfold upd. destruct (c =? b); [reflexivity | apply (fp_view _ _ _ _ _ F1)].
Qed.

(** ** The allocator *)

(** All blocks before the data blocks are in use, and so are the held ones,
    which are data blocks. *)
Record bitmap_ok (V : Z -> block) (sb : superblock) (Hl : list (nat * Z)) : Prop := {
  bm_meta : forall b, 0 <= b < datastart sb -> used V sb b = true;
  bm_held : forall b, b ∈ map snd Hl -> datastart sb <= b < sb_size sb /\ used V sb b = true
}.

(** The contents after [balloc] has returned [b]. *)
Definition alloc_view (V : Z -> block) (sb : superblock) (b : Z) : Z -> block := upd (set_used V sb b) b (fun _ => 0).

Lemma bzero_ok s Hl b : ftxn s Hl -> b ∉ map snd Hl -> home (lg_start (l_log (f_log s))) (lg_size (l_log (f_log s))) b ->
  0 <= b < nblocks (l_cache (f_log s)) -> room s (1 + Z.of_nat (length Hl)) ->
  exists s', bzero b s = Ok tt s' /\ fstep s s' Hl (upd (fview s) b (fun _ => 0)) 1.
Proof.
  intros T Hn Hh Hb R. destruct (f_bread s Hl b T Hn Hb) as (i & s1 & R1 & F1); [unfold room in R; lia|].
  pose proof (fp_same _ _ _ _ _ F1) as [K1 _]. assert (Hi : (i, b) ∈ (i, b) :: Hl) by (apply elem_of_cons; auto).
  destruct (f_put s1 _ i b (fun _ => 0) (fp_txn _ _ _ _ _ F1) Hi) as (s2 & R2 & F2).
  { now rewrite (kp_start _ _ K1), (kp_size _ _ K1). } { now rewrite (kp_nblocks _ _ K1). }
  { apply (fstep_room s _ _ _ 0 _ F1). apply (room_weaken s _ _ R). lia. }
  destruct (f_brelse s2 Hl i b (fp_txn _ _ _ _ _ F2)) as (s3 & R3 & F3).
  exists s3. split; [unfold bzero; now rewrite (bind_ok _ _ _ _ _ R1), R2|].
  apply (fstep_trans s s1 s3 _ _ _ _ 0 1 F1). apply (fstep_view s1 s3 Hl (fview s2)).
  - exact (fstep_trans s1 s2 s3 _ _ _ _ 1 0 F2 F3).
  - intros c. rewrite (fp_view _ _ _ _ _ F2). unfold upd. destruct (c =? b); [reflexivity | apply (fp_view _ _ _ _ _ F1)].
Qed.

(** The bits that a scan of the bitmap block of [b] looks at. *)
Lemma used_scan V sb b q : b mod BPB = 0 -> 0 <= q < BPB -> BBLOCK (b + q) sb = BBLOCK b sb /\
  used V sb (b + q) = Z.testbit (V (BBLOCK b sb) (q / 8)) (q mod 8).
Proof.
  intros Hb Hq. assert (E : (b + q) / BPB = b / BPB /\ (b + q) mod BPB = q /\ (b + q) mod 8 = q mod 8).
  { unfold BPB, BSIZE in *. change (512 * 8) with 4096 in *. Z.to_euclidean_division_equations. lia. }
  destruct E as (E1 & E2 & E3). unfold used, BBLOCK. now rewrite E1, E2, E3.
Qed.

Lemma balloc_loop_ok fuel b s Hl x : ftxn s Hl -> bitmap_ok (fview s) (f_sb s) Hl -> room s (2 + Z.of_nat (length Hl)) ->
  0 <= b -> b mod BPB = 0 -> b <= x < sb_size (f_sb s) -> used (fview s) (f_sb s) x = false ->
  (forall c, 0 <= c < x -> used (fview s) (f_sb s) c = true) -> (x - b) / BPB < Z.of_nat fuel ->
  exists s', balloc_loop fuel b s = Ok x s' /\ fstep s s' Hl (alloc_view (fview s) (f_sb s) x) 2.
Proof.
  revert b s. induction fuel as [|fuel IH]; intros b s T Bm R Hb Hmod Hx Hfree Hleast Hfuel.
  { assert (0 <= (x - b) / BPB) by (apply Z.div_pos; [lia | apply BPB_pos]). lia. }
  set (sb := f_sb s) in *. pose proof (ft_layout _ _ T) as L. fold sb in L.
  destruct (bblock_home _ _ _ _ L b ltac:(lia)) as [Hh Hr], (bblock_range _ _ _ _ L b ltac:(lia)) as [Hbm _].
  assert (Hnh : forall c, 0 <= c < sb_size sb -> BBLOCK c sb ∉ map snd Hl).
  { intros c Hc Hin. destruct (bblock_range _ _ _ _ L c Hc). destruct (bm_held _ _ _ Bm _ Hin). lia. }
  destruct (f_bread s Hl (BBLOCK b sb) T (Hnh b ltac:(lia)) Hr) as (i & s1 & R1 & F1); [unfold room in R; lia|].
  assert (Hi : (i, BBLOCK b sb) ∈ (i, BBLOCK b sb) :: Hl) by (apply elem_of_cons; auto).
  pose proof (fp_same _ _ _ _ _ F1) as [K1 S1]. pose proof (f_data s1 _ i _ (fp_txn _ _ _ _ _ F1) Hi) as Rd. rewrite (fp_view _ _ _ _ _ F1) in Rd.
  cbn [balloc_loop]. rewrite (bind_ok _ _ _ _ _ (eq_refl : gsb s = Ok sb s)), (proj2 (Z.ltb_lt b (sb_size sb))) by lia.
  rewrite (bind_ok _ _ _ _ _ R1), (bind_ok _ _ _ _ _ Rd).
  assert (Hbits : forall q, 0 <= q < BPB -> Z.testbit (fview s (BBLOCK b sb) (q / 8)) (q mod 8) = used (fview s) sb (b + q))
    by (intros q Hq; now destruct (used_scan (fview s) sb b q Hmod Hq)).
  pose proof (free_bit_spec (Z.to_nat BPB) 0 b (sb_size sb) (fview s (BBLOCK b sb)) ltac:(lia)) as Hscan.
  rewrite Z2Nat.id in Hscan by (pose proof BPB_pos; lia). destruct (free_bit _ _ _ _ _) as [r|].
  - destruct Hscan as (Hr1 & Hr2 & Hr3 & Hr4). rewrite Hbits in Hr3 by lia.
    assert (Er : b + r = x).
    { destruct (Z.lt_total (b + r) x) as [Hlt|[E|Hgt]]; [rewrite Hleast in Hr3 by lia; discriminate | exact E|].
      specialize (Hr4 (x - b) ltac:(lia)). rewrite Hbits in Hr4 by lia. replace (b + (x - b)) with x in Hr4 by lia. congruence. }
    assert (Hds : datastart sb <= x).
    { destruct (Z.lt_ge_cases x (datastart sb)) as [Hlt|]; [|assumption]. rewrite (bm_meta _ _ _ Bm) in Hfree by lia. discriminate. }
    destruct (used_scan (fview s) sb b r Hmod ltac:(lia)) as [Eb _]. rewrite Er in Eb.
    assert (Em : x mod BPB = r /\ x mod 8 = r mod 8)
      by (rewrite <- Er; unfold BPB, BSIZE in *; change (512 * 8) with 4096 in *; Z.to_euclidean_division_equations; lia).
    destruct (f_put s1 _ i _ (store8 (fview s (BBLOCK b sb)) (r / 8) (Z.lor (fview s (BBLOCK b sb) (r / 8)) (Z.shiftl 1 (r mod 8)))) (fp_txn _ _ _ _ _ F1) Hi)
      as (s2 & R2 & F2).
    { now rewrite (kp_start _ _ K1), (kp_size _ _ K1). } { now rewrite (kp_nblocks _ _ K1). }
    { apply (fstep_room s _ _ _ 0 _ F1). apply (room_weaken s _ _ R). lia. }
    destruct (f_brelse s2 Hl i _ (fp_txn _ _ _ _ _ F2)) as (s3 & R3 & F3).
    assert (F13 : fstep s s3 Hl (set_used (fview s) sb x) 1).
    { apply (fstep_trans s s1 s3 _ _ _ _ 0 1 F1). apply (fstep_view s1 s3 Hl (fview s2)); [exact (fstep_trans s1 s2 s3 _ _ _ _ 1 0 F2 F3)|].
      intros c. rewrite (fp_view _ _ _ _ _ F2). unfold set_used. rewrite Eb. destruct Em as [-> ->]. unfold upd.
      destruct (c =? BBLOCK b sb); [reflexivity | apply (fp_view _ _ _ _ _ F1)]. }
    pose proof (fp_same _ _ _ _ _ F13) as [K3 S3]. destruct (data_home _ _ _ _ L x ltac:(lia)) as [Hhx Hrx].
    destruct (bzero_ok s3 Hl x (fp_txn _ _ _ _ _ F13)) as (s4 & R4 & F4).
    { intros Hin. destruct (bm_held _ _ _ Bm _ Hin). congruence. } { now rewrite (kp_start _ _ K3), (kp_size _ _ K3). }
    { now rewrite (kp_nblocks _ _ K3). } { apply (fstep_room s _ _ _ 1 _ F13). apply (room_weaken s _ _ R). lia. }
    exists s4. split; [rewrite R2, (bind_ok _ _ _ _ _ R3), Er, (bind_ok _ _ _ _ _ R4); reflexivity|].
    apply (fstep_trans s s3 s4 _ _ _ _ 1 1 F13). apply (fstep_view _ _ _ _ _ _ F4). intros c. unfold alloc_view, upd at 1 2.
    destruct (c =? x); [reflexivity | apply (fp_view _ _ _ _ _ F13)].
  - assert (Hge : b + BPB <= x).
    { destruct (Z.lt_ge_cases x (b + BPB)) as [Hlt|]; [|assumption]. specialize (Hscan (x - b) ltac:(lia) ltac:(lia)).
      rewrite Hbits in Hscan by lia. replace (b + (x - b)) with x in Hscan by lia. congruence. }
    destruct (f_brelse s1 Hl i _ (fp_txn _ _ _ _ _ F1)) as (s2 & R2 & F2). rewrite (bind_ok _ _ _ _ _ R2).
    pose proof (fstep_trans _ _ _ _ _ _ _ _ _ F1 F2) as F12. pose proof (fp_same _ _ _ _ _ F12) as [K2 S2].
    assert (EV : forall c, fview s2 c = fview s c) by (intros c; rewrite (fp_view _ _ _ _ _ F12); apply (fp_view _ _ _ _ _ F1)).
    assert (EU : forall c, used (fview s2) sb c = used (fview s) sb c) by (intros c; apply used_ext, EV).
    destruct (IH (b + BPB) s2) as (s3 & R3 & F3); rewrite ?S2; fold sb; auto; try lia.
    { apply F12. } { constructor; intros c Hc; rewrite EU; [now apply (bm_meta _ _ _ Bm) | now apply (bm_held _ _ _ Bm)]. }
    { apply (fstep_room s _ _ _ (0 + 0) _ F12). exact R. }
    { pose proof BPB_pos. lia. } { rewrite Z.add_mod, Hmod, Z_mod_same_full by (pose proof BPB_pos; lia). apply Z.mod_0_l. pose proof BPB_pos; lia. }
    { now rewrite EU. } { intros c Hc. rewrite EU. now apply Hleast. }
    { replace (x - (b + BPB)) with (x - b + (-1) * BPB) by lia. rewrite Z.div_add by (pose proof BPB_pos; lia). lia. }
    exists s3. split; [exact R3|]. apply (fstep_view _ _ _ (alloc_view (fview s2) (f_sb s2) x)); [exact (fstep_trans _ _ _ _ _ _ _ _ _ F12 F3)|].
    intros c. rewrite S2. fold sb. unfold alloc_view, set_used, upd. rewrite !EV. destruct (c =? x), (c =? BBLOCK x sb); auto.
Qed.

Lemma balloc_ok s Hl x : ftxn s Hl -> bitmap_ok (fview s) (f_sb s) Hl -> room s (2 + Z.of_nat (length Hl)) ->
  0 <= x < sb_size (f_sb s) -> used (fview s) (f_sb s) x = false -> (forall c, 0 <= c < x -> used (fview s) (f_sb s) c = true) ->
  exists s', balloc s = Ok x s' /\ fstep s s' Hl (alloc_view (fview s) (f_sb s) x) 2.
Proof.
  intros T Bm R Hx Hf Hl'. unfold balloc. rewrite (bind_ok _ _ _ _ _ (eq_refl : gsb s = Ok (f_sb s) s)).
  apply balloc_loop_ok; auto; try lia.
  assert (x / BPB <= sb_size (f_sb s) / BPB) by (apply Z.div_le_mono; [apply BPB_pos | lia]).
  assert (0 <= x / BPB) by (apply Z.div_pos; [lia | apply BPB_pos]). rewrite Z.sub_0_r. lia.
Qed.

(** The free block with the least number, when there is one. *)
Lemma first_free (V : Z -> block) sb : 0 <= sb_size sb -> (exists b, 0 <= b < sb_size sb /\ used V sb b = false) ->
  exists x, 0 <= x < sb_size sb /\ used V sb x = false /\ forall c, 0 <= c < x -> used V sb c = true.
Proof.
  intros Hs [b [Hb Hf]]. destruct (first_split (fun c => negb (used V sb c)) (seqZ 0 (sb_size sb))) as [Hall|(l1 & x & l2 & E & H1' & H2')].
  - rewrite Forall_forall in Hall. assert (Hin : b ∈ seqZ 0 (sb_size sb)) by (apply elem_of_seqZ; lia). specialize (Hall b Hin). rewrite Hf in Hall. discriminate.
  - apply negb_true_iff in H2'. assert (Hx : seqZ 0 (sb_size sb) !! length l1 = Some x) by (rewrite E, lookup_app_r, Nat.sub_diag; [reflexivity | lia]).
    apply lookup_seqZ in Hx as [Ex Hlt]. exists x. split_and!; try lia; auto. intros c Hc.
    rewrite Forall_forall in H1'. specialize (H1' c). apply negb_false_iff, H1', (list_elem_of_lookup_2 _ (Z.to_nat c)).
    assert (Hcl : seqZ 0 (sb_size sb) !! Z.to_nat c = Some c) by (apply lookup_seqZ; lia). rewrite E, lookup_app_l in Hcl by lia. exact Hcl.
Qed.

(** When every block is in use, [balloc] panics. *)
Lemma balloc_loop_full fuel b s Hl : ftxn s Hl -> bitmap_ok (fview s) (f_sb s) Hl -> room s (Z.of_nat (length Hl)) ->
  0 <= b -> b mod BPB = 0 -> (forall c, 0 <= c < sb_size (f_sb s) -> used (fview s) (f_sb s) c = true) -> (0 < fuel)%nat ->
  (b < sb_size (f_sb s) -> (sb_size (f_sb s) - b - 1) / BPB + 1 < Z.of_nat fuel) -> balloc_loop fuel b s = Panic "balloc: out of blocks".
Proof.
  revert b s. induction fuel as [|fuel IH]; intros b s T Bm R Hb Hmod Hall Hpos Hfuel; [lia|].
  set (sb := f_sb s) in *. cbn [balloc_loop]. rewrite (bind_ok _ _ _ _ _ (eq_refl : gsb s = Ok sb s)).
  destruct (Z.ltb_spec b (sb_size sb)) as [Hlt|Hge]; [|reflexivity]. specialize (Hfuel Hlt).
  pose proof (ft_layout _ _ T) as L. fold sb in L. pose proof BPB_pos as Hbpb.
  destruct (bblock_home _ _ _ _ L b ltac:(lia)) as [Hh Hr], (bblock_range _ _ _ _ L b ltac:(lia)) as [Hbm _].
  assert (Hnh : BBLOCK b sb ∉ map snd Hl) by (intros Hin; destruct (bm_held _ _ _ Bm _ Hin); lia).
  destruct (f_bread s Hl (BBLOCK b sb) T Hnh Hr) as (i & s1 & R1 & F1); [unfold room in R; lia|].
  assert (Hi : (i, BBLOCK b sb) ∈ (i, BBLOCK b sb) :: Hl) by (apply elem_of_cons; auto).
  pose proof (f_data s1 _ i _ (fp_txn _ _ _ _ _ F1) Hi) as Rd. rewrite (fp_view _ _ _ _ _ F1) in Rd.
  rewrite (bind_ok _ _ _ _ _ R1), (bind_ok _ _ _ _ _ Rd).
  pose proof (free_bit_spec (Z.to_nat BPB) 0 b (sb_size sb) (fview s (BBLOCK b sb)) ltac:(lia)) as Hscan. destruct (free_bit _ _ _ _ _) as [r|].
  { destruct Hscan as (H1' & H2' & H3' & _). rewrite Z2Nat.id in H1' by lia.
    destruct (used_scan (fview s) sb b r Hmod ltac:(lia)) as [_ E]. rewrite <- E, Hall in H3' by lia. discriminate. }
  destruct (f_brelse s1 Hl i _ (fp_txn _ _ _ _ _ F1)) as (s2 & R2 & F2). rewrite (bind_ok _ _ _ _ _ R2).
  pose proof (fstep_trans _ _ _ _ _ _ _ _ _ F1 F2) as F12. pose proof (fp_same _ _ _ _ _ F12) as [K2 S2].
  assert (EU : forall c, used (fview s2) sb c = used (fview s) sb c)
    by (intros c; apply used_ext; rewrite (fp_view _ _ _ _ _ F12); apply (fp_view _ _ _ _ _ F1)).
  assert (0 <= (sb_size sb - b - 1) / BPB) by (apply Z.div_pos; lia).
  apply IH; rewrite ?S2; fold sb; try lia.
  - apply F12.
  - constructor; intros c Hc; rewrite EU; [now apply (bm_meta _ _ _ Bm) | now apply (bm_held _ _ _ Bm)].
  - apply (fstep_room s _ _ _ (0 + 0) _ F12). exact R.
  - rewrite Z.add_mod, Hmod, Z_mod_same_full by lia. apply Z.mod_0_l. lia.
  - intros c Hc. rewrite EU. now apply Hall.
  - intros Hb'. replace (sb_size sb - b - 1) with (sb_size sb - (b + BPB) - 1 + 1 * BPB) in Hfuel by lia. rewrite Z.div_add in Hfuel by lia. lia.
Qed.

Lemma balloc_full s Hl : ftxn s Hl -> bitmap_ok (fview s) (f_sb s) Hl -> room s (Z.of_nat (length Hl)) ->
  (forall c, 0 <= c < sb_size (f_sb s) -> used (fview s) (f_sb s) c = true) -> balloc s = Panic "balloc: out of blocks".
Proof.
  intros T Bm R Hall. unfold balloc. rewrite (bind_ok _ _ _ _ _ (eq_refl : gsb s = Ok (f_sb s) s)).
  pose proof (ly_bmap _ _ _ _ (ft_layout _ _ T)) as [Hs _]. pose proof BPB_pos.
  assert (0 <= sb_size (f_sb s) / BPB) by (apply Z.div_pos; lia). apply (balloc_loop_full _ 0 s Hl); auto; try lia.
  intros _. assert ((sb_size (f_sb s) - 0 - 1) / BPB <= sb_size (f_sb s) / BPB) by (apply Z.div_le_mono; lia). lia.
Qed.

Lemma bfree_ok s Hl b : ftxn s Hl -> (forall c, c ∈ map snd Hl -> datastart (f_sb s) <= c) -> room s (1 + Z.of_nat (length Hl)) ->
  0 <= b < sb_size (f_sb s) -> used (fview s) (f_sb s) b = true ->
  exists s', bfree b s = Ok tt s' /\ fstep s s' Hl (set_free (fview s) (f_sb s) b) 1.
Proof.
  intros T Hhd R Hb Hu. set (sb := f_sb s) in *. pose proof (ft_layout _ _ T) as L. fold sb in L.
  destruct (bblock_home _ _ _ _ L b Hb) as [Hh Hr], (bblock_range _ _ _ _ L b Hb) as [Hbm _].
  assert (Hnh : BBLOCK b sb ∉ map snd Hl) by (intros Hin%Hhd; lia).
  assert (E8 : b mod BPB mod 8 = b mod 8) by (unfold BPB, BSIZE; change (512 * 8) with 4096; Z.to_euclidean_division_equations; lia).
  destruct (f_bread s Hl (BBLOCK b sb) T Hnh Hr) as (i & s1 & R1 & F1); [unfold room in R; lia|].
  pose proof (fp_same _ _ _ _ _ F1) as [K1 _]. assert (Hi : (i, BBLOCK b sb) ∈ (i, BBLOCK b sb) :: Hl) by (apply elem_of_cons; auto).
  pose proof (f_data s1 _ i _ (fp_txn _ _ _ _ _ F1) Hi) as Rd. rewrite (fp_view _ _ _ _ _ F1) in Rd. set (d := fview s (BBLOCK b sb)) in *.
  destruct (f_put s1 _ i _ (store8 d (b mod BPB / 8) (Z.land (d (b mod BPB / 8)) (Z.lnot (Z.shiftl 1 (b mod 8))))) (fp_txn _ _ _ _ _ F1) Hi) as (s2 & R2 & F2).
  { now rewrite (kp_start _ _ K1), (kp_size _ _ K1). } { now rewrite (kp_nblocks _ _ K1). }
  { apply (fstep_room s _ _ _ 0 _ F1). apply (room_weaken s _ _ R). lia. }
  destruct (f_brelse s2 Hl i _ (fp_txn _ _ _ _ _ F2)) as (s3 & R3 & F3).
  exists s3. split.
  - unfold bfree. rewrite (bind_ok _ _ _ _ _ (eq_refl : gsb s = Ok sb s)), (bind_ok _ _ _ _ _ R1), (bind_ok _ _ _ _ _ Rd). cbv zeta.
    rewrite E8, land_bit by (apply Z.mod_pos_bound; lia). unfold used in Hu. fold d in Hu. rewrite Hu. cbn [negb]. now rewrite R2.
  - apply (fstep_trans s s1 s3 _ _ _ _ 0 1 F1). apply (fstep_view s1 s3 Hl (fview s2)); [exact (fstep_trans s1 s2 s3 _ _ _ _ 1 0 F2 F3)|].
    intros c. rewrite (fp_view _ _ _ _ _ F2). unfold set_free, upd. destruct (c =? BBLOCK b sb); [reflexivity | apply (fp_view _ _ _ _ _ F1)].
Qed.

(** The block allocator.  [balloc] inside a transaction returns the free block
    with the least number, marks it and no other block as used, zeroes it and
    changes no other block but the bitmap; it panics exactly when every block of
    the disk is in use.  [bfree] of the block makes the allocation map what it was
    before. *)
Theorem balloc_bfree s : ftxn s [] -> bitmap_ok (fview s) (f_sb s) [] -> room s 3 ->
  let sb := f_sb s in
  match balloc s with
  | Ok b s1 =>
      datastart sb <= b < sb_size sb /\ used (fview s) sb b = false /\ (forall c, 0 <= c < b -> used (fview s) sb c = true) /\
      ftxn s1 [] /\ f_icache s1 = f_icache s /\ flogged s1 <= flogged s + 2 /\
      fview s1 b = (fun _ => 0) /\ (forall c, 0 <= c < sb_size sb -> used (fview s1) sb c = (c =? b) || used (fview s) sb c) /\
      (forall c, c <> b -> c <> BBLOCK b sb -> fview s1 c = fview s c) /\
      exists s2, bfree b s1 = Ok tt s2 /\ ftxn s2 [] /\
        (forall c, 0 <= c < sb_size sb -> used (fview s2) sb c = used (fview s) sb c) /\
        (forall c, c <> BBLOCK b sb -> fview s2 c = fview s1 c)
  | Panic e => e = "balloc: out of blocks"%string /\ forall c, 0 <= c < sb_size sb -> used (fview s) sb c = true
  | _ => False
  end.
Proof.
  intros T Bm R sb. change (f_sb s) with sb in Bm. pose proof (ft_layout _ _ T) as L. fold sb in L. destruct (ly_bmap _ _ _ _ L) as [Hs0 _].
  destruct (first_split (fun c => negb (used (fview s) sb c)) (seqZ 0 (sb_size sb))) as [Hall|(l1 & x0 & l2 & E & _ & Hx0)].
  { rewrite Forall_forall in Hall. assert (Hu : forall c, 0 <= c < sb_size sb -> used (fview s) sb c = true)
      by (intros c Hc; apply negb_false_iff, Hall, elem_of_seqZ; lia).
    rewrite (balloc_full s [] T Bm (room_weaken s 3 0 R ltac:(lia)) Hu). auto. }
  destruct (first_free (fview s) sb Hs0) as (x & Hx & Hf & Hleast).
  { exists x0. split; [|now apply negb_true_iff]. assert (Hin : x0 ∈ seqZ 0 (sb_size sb)) by (rewrite E; apply elem_of_app; right; apply elem_of_cons; auto).
    apply elem_of_seqZ in Hin. lia. }
  destruct (balloc_ok s [] x T Bm (room_weaken s 3 2 R ltac:(lia)) Hx Hf Hleast) as (s1 & R1 & F1). rewrite R1.
  assert (Hds : datastart sb <= x).
  { destruct (Z.lt_ge_cases x (datastart sb)) as [Hlt|]; [|assumption]. rewrite (bm_meta _ _ _ Bm) in Hf by lia. discriminate. }
  assert (Hbb : forall c, 0 <= c < sb_size sb -> BBLOCK c sb <> x) by (intros c Hc; destruct (bblock_range _ _ _ _ L c Hc); lia).
  assert (U1 : forall c, 0 <= c < sb_size sb -> used (fview s1) sb c = (c =? x) || used (fview s) sb c).
  { intros c Hc. rewrite <- (used_set _ _ _ _ L (fview s) x c Hx Hc). apply used_ext. rewrite (fp_view _ _ _ _ _ F1).
    unfold alloc_view, upd at 1. now rewrite (proj2 (Z.eqb_neq _ _)) by now apply Hbb. }
  pose proof (fp_same _ _ _ _ _ F1) as [_ S1].
  destruct (bfree_ok s1 [] x (fp_txn _ _ _ _ _ F1)) as (s2 & R2 & F2).
  { intros c Hc. now apply not_elem_of_nil in Hc. } { apply (fstep_room s _ _ _ 2 _ F1). apply (room_weaken _ _ _ R). cbn. lia. }
  { now rewrite S1. } { rewrite S1. fold sb. now rewrite U1, Z.eqb_refl. }
  rewrite S1 in F2. fold sb in F2. split_and!; auto; try apply F1; try lia.
  - rewrite (fp_view _ _ _ _ _ F1). unfold alloc_view, upd. now rewrite Z.eqb_refl.
  - intros c Hcx Hcb. rewrite (fp_view _ _ _ _ _ F1). unfold alloc_view, set_used, upd. fold sb. now rewrite !(proj2 (Z.eqb_neq _ _)) by assumption.
  - exists s2. split_and!; [exact R2 | apply F2 | |].
    + intros c Hc. rewrite (used_ext (set_free (fview s1) sb x)) by apply F2. rewrite (used_free _ _ _ _ L), U1 by assumption.
      destruct (Z.eqb_spec c x) as [->|]; [now rewrite Hf | reflexivity].
    + intros c Hc. rewrite (fp_view _ _ _ _ _ F2). unfold set_free, upd. now rewrite (proj2 (Z.eqb_neq _ _)).
Qed.

End Lift.
