(* ===== verification/Inode.v ===== *)
(** The contents of files: [bmap], [readi] and [writei] of [Fs] against the bytes
    a file holds. *)

From stdpp Require Import gmap.
From S2P Require Import Prelude Mem Block Bio Log Txn Fs Balloc.

(** ** The blocks and the bytes of a file *)

(** The block at index [bn] of a file with block addresses [a], or 0. *)
Definition faddr (V : Z -> block) (a : Z -> Z) (bn : Z) : Z :=
  if bn <? NDIRECT then a bn else if a NDIRECT =? 0 then 0 else load32 (V (a NDIRECT)) (4 * (bn - NDIRECT)).

(** The byte at offset [off]; blocks that are missing read as zeroes. *)
Definition content (V : Z -> block) (a : Z -> Z) (off : Z) : Z :=
  let b := faddr V a (off / BSIZE) in if b =? 0 then 0 else V b (off mod BSIZE).

(** The blocks of a file are used data blocks, each of them once. *)
Record blocks_ok (V : Z -> block) (sb : superblock) (a : Z -> Z) : Prop := {
  bo_ind : a NDIRECT = 0 \/ (datastart sb <= a NDIRECT < sb_size sb /\ used V sb (a NDIRECT) = true);
  bo_addr : forall bn, 0 <= bn < MAXFILE -> faddr V a bn = 0 \/
    (datastart sb <= faddr V a bn < sb_size sb /\ used V sb (faddr V a bn) = true /\ faddr V a bn <> a NDIRECT);
  bo_inj : forall bn bn', 0 <= bn < MAXFILE -> 0 <= bn' < MAXFILE -> faddr V a bn = faddr V a bn' -> faddr V a bn <> 0 -> bn = bn'
}.

(** A block that is not part of the file. *)
Definition outside (V : Z -> block) (a : Z -> Z) (x : Z) : Prop := x <> a NDIRECT /\ forall bn, 0 <= bn < MAXFILE -> faddr V a bn <> x.

Lemma MAXFILE_val : MAXFILE = 140.
Proof. reflexivity. Qed.

Section Blocks.
Variables (sb : superblock) (st sz nb : Z).
Hypothesis L : layout sb st sz nb.

Lemma datastart_pos : 0 < datastart sb.
Proof.
  destruct (ly_log _ _ _ _ L) as (L1 & L2 & L3), (ly_inodes _ _ _ _ L) as [L4 L5], (ly_bmap _ _ _ _ L) as [L6 _].
  assert (0 <= sb_ninodes sb / IPB) by (apply Z.div_pos; [lia | apply IPB_pos]).
  assert (0 <= sb_size sb / BPB) by (apply Z.div_pos; [lia | apply BPB_pos]). unfold datastart. lia.
Qed.

(** A change of blocks outside the file, and more used blocks. *)
Lemma blocks_frame V V' a : blocks_ok V sb a -> (a NDIRECT <> 0 -> V' (a NDIRECT) = V (a NDIRECT)) ->
  (forall b, datastart sb <= b < sb_size sb -> used V sb b = true -> used V' sb b = true) ->
  blocks_ok V' sb a /\ forall bn, faddr V' a bn = faddr V a bn.
Proof.
  intros [B1 B2 B3] Hi Hu.
  assert (E : forall bn, faddr V' a bn = faddr V a bn).
  { intros bn. unfold faddr. destruct (bn <? NDIRECT); [reflexivity|]. destruct (Z.eqb_spec (a NDIRECT) 0); [reflexivity | now rewrite Hi]. }
  split; [|exact E]. constructor.
  - destruct B1 as [|[? ?]]; auto.
  - intros bn Hbn. rewrite E. destruct (B2 bn Hbn) as [|(? & ? & ?)]; auto.
  - intros bn bn'. rewrite !E. apply B3.
Qed.

Lemma content_frame V V' a : blocks_ok V sb a -> (forall bn, faddr V' a bn = faddr V a bn) ->
  (forall bn, 0 <= bn < MAXFILE -> faddr V a bn <> 0 -> V' (faddr V a bn) = V (faddr V a bn)) ->
  forall off, 0 <= off < MAXFILE * BSIZE -> content V' a off = content V a off.
Proof.
  intros B E Hv off Hoff. unfold content. rewrite E. destruct (Z.eqb_spec (faddr V a (off / BSIZE)) 0); [reflexivity|].
  rewrite Hv; auto. unfold BSIZE in *. split; [apply Z.div_pos; lia | apply Z.div_lt_upper_bound; lia].
Qed.

(** A free block is outside of every file. *)
Lemma free_outside V a x : blocks_ok V sb a -> 0 <= x < sb_size sb -> used V sb x = false -> datastart sb <= x -> outside V a x.
Proof.
  intros [B1 B2 _] Hx Hf Hd. pose proof datastart_pos. split.
  - intros ->. destruct B1 as [E|[_ E]]; [lia | congruence].
  - intros bn Hbn E. destruct (B2 bn Hbn) as [E0|(_ & E0 & _)]; [lia | congruence].
Qed.

(** Allocating a block. *)
Lemma alloc_used V x b : 0 <= x < sb_size sb -> 0 <= b < sb_size sb -> datastart sb <= x ->
  used (alloc_view V sb x) sb b = (b =? x) || used V sb b.
Proof.
  intros Hx Hb Hd. rewrite <- (used_set _ _ _ _ L V x b Hx Hb). apply used_ext. unfold alloc_view, upd at 1.
  destruct (bblock_range _ _ _ _ L b Hb). now rewrite (proj2 (Z.eqb_neq _ _)) by lia.
Qed.

Lemma alloc_data V x b : datastart sb <= x < sb_size sb -> datastart sb <= b -> b <> x -> alloc_view V sb x b = V b.
Proof.
  intros Hx Hb Hne. pose proof datastart_pos. destruct (bblock_range _ _ _ _ L x ltac:(lia)). unfold alloc_view, set_used, upd.
  now rewrite !(proj2 (Z.eqb_neq _ _)) by lia.
Qed.

Lemma alloc_blocks V a x : blocks_ok V sb a -> datastart sb <= x < sb_size sb -> used V sb x = false ->
  blocks_ok (alloc_view V sb x) sb a /\ (forall bn, faddr (alloc_view V sb x) a bn = faddr V a bn) /\
  outside (alloc_view V sb x) a x /\ (forall off, 0 <= off < MAXFILE * BSIZE -> content (alloc_view V sb x) a off = content V a off).
Proof.
  intros B Hx Hf. pose proof datastart_pos as Hp. pose proof (free_outside V a x B ltac:(lia) Hf ltac:(lia)) as [Ho1 Ho2].
  assert (Hi : a NDIRECT <> 0 -> alloc_view V sb x (a NDIRECT) = V (a NDIRECT)).
  { intros Hn. apply alloc_data; auto. destruct (bo_ind _ _ _ B); lia. }
  destruct (blocks_frame V (alloc_view V sb x) a B Hi) as [B' E].
  { intros b Hb Hu. rewrite alloc_used by lia. rewrite Hu. apply orb_true_r. }
  split_and!; auto.
  - split; [exact Ho1|]. intros bn Hbn. rewrite E. now apply Ho2.
  - apply content_frame; auto. intros bn Hbn Hn. apply alloc_data; [exact Hx | destruct (bo_addr _ _ _ B bn Hbn); lia | now apply Ho2].
Qed.

(** Giving the file a direct block. *)
Lemma faddr_direct V a bn x q : 0 <= bn < NDIRECT -> faddr V (upd a bn x) q = if q =? bn then x else faddr V a q.
Proof.
  intros Hbn. unfold faddr, upd. unfold NDIRECT in *. rewrite (proj2 (Z.eqb_neq 12 bn)) by lia.
  destruct (Z.ltb_spec q 12); destruct (Z.eqb_spec q bn); auto; lia.
Qed.

Lemma zero_block_content V a b off : V b = (fun _ => 0) -> faddr V a (off / BSIZE) = b -> content V a off = 0.
Proof. intros Hz E. unfold content. rewrite E, Hz. now destruct (b =? 0). Qed.

Lemma set_direct V a bn x : blocks_ok V sb a -> 0 <= bn < NDIRECT -> faddr V a bn = 0 -> datastart sb <= x < sb_size sb ->
  used V sb x = true -> outside V a x -> V x = (fun _ => 0) ->
  blocks_ok V sb (upd a bn x) /\ (forall off, 0 <= off < MAXFILE * BSIZE -> content V (upd a bn x) off = content V a off).
Proof.
  intros [B1 B2 B3] Hbn H0 Hx Hu [Ho1 Ho2] Hz. pose proof datastart_pos as Hp.
  assert (En : upd a bn x NDIRECT = a NDIRECT) by (unfold upd; now rewrite (proj2 (Z.eqb_neq _ _)) by lia).
  split.
  - constructor; rewrite ?En; [exact B1 | |].
    + intros q Hq. rewrite faddr_direct by exact Hbn. destruct (Z.eqb_spec q bn) as [->|]; [right; auto | now apply B2].
    + intros q q' Hq Hq'. rewrite !faddr_direct by exact Hbn.
      destruct (Z.eqb_spec q bn) as [->|Hqn], (Z.eqb_spec q' bn) as [->|Hqn']; auto; intros E _; [symmetry in E|]; now apply Ho2 in E.
  - intros off Hoff. destruct (Z.eq_dec (off / BSIZE) bn) as [E|E].
    + rewrite (zero_block_content V (upd a bn x) x off Hz) by (rewrite faddr_direct by exact Hbn; now rewrite E, Z.eqb_refl).
      unfold content. now rewrite E, H0.
    + unfold content. now rewrite faddr_direct, (proj2 (Z.eqb_neq (off / BSIZE) bn)) by assumption.
Qed.

(** Giving the file an indirect block. *)
Lemma faddr_indirect V a y q : a NDIRECT = 0 -> V y = (fun _ => 0) -> faddr V (upd a NDIRECT y) q = faddr V a q.
Proof.
  intros H0 Hz. unfold faddr, upd. rewrite Z.eqb_refl, H0. destruct (Z.ltb_spec q NDIRECT) as [Hq|Hq].
  - now rewrite (proj2 (Z.eqb_neq q NDIRECT)) by lia.
  - rewrite Hz. now destruct (y =? 0).
Qed.

Lemma set_indirect V a y : blocks_ok V sb a -> a NDIRECT = 0 -> datastart sb <= y < sb_size sb -> used V sb y = true ->
  outside V a y -> V y = (fun _ => 0) ->
  blocks_ok V sb (upd a NDIRECT y) /\ (forall off, content V (upd a NDIRECT y) off = content V a off).
Proof.
  intros [B1 B2 B3] H0 Hy Hu [Ho1 Ho2] Hz. assert (E := faddr_indirect V a y). split.
  - constructor.
    + right. unfold upd. rewrite Z.eqb_refl. auto.
    + intros q Hq. rewrite E by auto. unfold upd. rewrite Z.eqb_refl. destruct (B2 q Hq) as [|(? & ? & _)]; auto.
    + intros q q'. rewrite !E by auto. apply B3.
  - intros off. unfold content. now rewrite E.
Qed.

(** Giving the file a block through its indirect block. *)
Lemma faddr_entry V a bn x q : a NDIRECT <> 0 -> NDIRECT <= bn < MAXFILE -> 0 <= x < two32 -> 0 <= q < MAXFILE ->
  faddr (upd V (a NDIRECT) (store32 (V (a NDIRECT)) (4 * (bn - NDIRECT)) x)) a q = if q =? bn then x else faddr V a q.
Proof.
  intros Hn Hbn Hx Hq. unfold faddr. destruct (Z.ltb_spec q NDIRECT) as [Hq'|Hq'].
  - now rewrite (proj2 (Z.eqb_neq q bn)) by lia.
  - rewrite (proj2 (Z.eqb_neq _ _)) by exact Hn. unfold upd. rewrite Z.eqb_refl. destruct (Z.eqb_spec q bn) as [->|Hne].
    + rewrite load32_store32_eq. now apply u32_small.
    + apply load32_store32_ne. lia.
Qed.

Lemma set_entry V a bn x : blocks_ok V sb a -> a NDIRECT <> 0 -> NDIRECT <= bn < MAXFILE -> faddr V a bn = 0 ->
  datastart sb <= x < sb_size sb -> used V sb x = true -> outside V a x -> V x = (fun _ => 0) ->
  let V' := upd V (a NDIRECT) (store32 (V (a NDIRECT)) (4 * (bn - NDIRECT)) x) in
  blocks_ok V' sb a /\ (forall b, 0 <= b < sb_size sb -> used V' sb b = used V sb b) /\
  (forall off, 0 <= off < MAXFILE * BSIZE -> content V' a off = content V a off).
Proof.
  intros B Hn Hbn H0 Hx Hu [Ho1 Ho2] Hz V'. pose proof datastart_pos as Hp. pose proof (ly_size _ _ _ _ L) as Hnb.
  assert (Hx32 : 0 <= x < two32) by (unfold two31, two32 in *; lia).
  assert (E : forall q, 0 <= q < MAXFILE -> faddr V' a q = if q =? bn then x else faddr V a q) by (intros q Hq; now apply faddr_entry).
  destruct B as [B1 B2 B3]. destruct B1 as [|[Hid Hiu]]; [lia|].
  assert (EU : forall b, 0 <= b < sb_size sb -> used V' sb b = used V sb b).
  { intros b Hb. apply used_ext. unfold V', upd. destruct (bblock_range _ _ _ _ L b Hb). now rewrite (proj2 (Z.eqb_neq _ _)) by lia. }
  split_and!; [constructor | exact EU |].
  - right. rewrite EU by lia. auto.
  - intros q Hq. rewrite E by exact Hq. destruct (Z.eqb_spec q bn); [right; rewrite EU by lia; auto|].
    destruct (B2 q Hq) as [|(? & ? & ?)]; [auto | right; rewrite EU by lia; auto].
  - intros q q' Hq Hq'. rewrite !E by assumption.
    destruct (Z.eqb_spec q bn) as [->|], (Z.eqb_spec q' bn) as [->|]; auto; intros Eq _; [symmetry in Eq|]; now apply Ho2 in Eq.
  - intros off Hoff. assert (Hq : 0 <= off / BSIZE < MAXFILE) by (unfold BSIZE in *; split; [apply Z.div_pos; lia | apply Z.div_lt_upper_bound; lia]).
    unfold content. rewrite E by exact Hq. destruct (Z.eqb_spec (off / BSIZE) bn) as [Eb|Eb].
    + rewrite Eb, H0. unfold V', upd. rewrite (proj2 (Z.eqb_neq x (a NDIRECT))), Hz by congruence. now destruct (x =? 0).
    + destruct (Z.eqb_spec (faddr V a (off / BSIZE)) 0); [reflexivity|]. unfold V', upd.
      rewrite (proj2 (Z.eqb_neq _ _)); [reflexivity|]. destruct (B2 _ Hq) as [|(_ & _ & ?)]; congruence.
Qed.

(** Writing a data block of the file. *)
Lemma set_data V a bn d : blocks_ok V sb a -> 0 <= bn < MAXFILE -> faddr V a bn <> 0 -> let V' := upd V (faddr V a bn) d in
  blocks_ok V' sb a /\ (forall q, faddr V' a q = faddr V a q) /\ (forall b, 0 <= b < sb_size sb -> used V' sb b = used V sb b) /\
  (forall off, 0 <= off < MAXFILE * BSIZE -> content V' a off = if off / BSIZE =? bn then d (off mod BSIZE) else content V a off).
Proof.
  intros B Hbn Hn V'. destruct (bo_addr _ _ _ B bn Hbn) as [|(Hd & Hu & Hni)]; [tauto|]. pose proof datastart_pos as Hp.
  assert (EU : forall b, 0 <= b < sb_size sb -> used V' sb b = used V sb b).
  { intros b Hb. apply used_ext. unfold V', upd. destruct (bblock_range _ _ _ _ L b Hb). now rewrite (proj2 (Z.eqb_neq _ _)) by lia. }
  destruct (blocks_frame V V' a B) as [B' E].
  { intros _. unfold V', upd. now rewrite (proj2 (Z.eqb_neq _ _)) by congruence. } { intros b Hb. rewrite EU by lia. auto. }
  split_and!; auto. intros off Hoff. unfold content. rewrite E. assert (Hq : 0 <= off / BSIZE < MAXFILE)
    by (unfold BSIZE in *; split; [apply Z.div_pos; lia | apply Z.div_lt_upper_bound; lia]).
  destruct (Z.eqb_spec (off / BSIZE) bn) as [->|Hne].
  - rewrite (proj2 (Z.eqb_neq _ 0)) by exact Hn. unfold V', upd. now rewrite Z.eqb_refl.
  - destruct (Z.eqb_spec (faddr V a (off / BSIZE)) 0) as [|Hn']; [reflexivity|]. unfold V', upd. rewrite (proj2 (Z.eqb_neq _ _)); [reflexivity|].
    intros Eq. apply Hne. now apply (bo_inj _ _ _ B).
Qed.

End Blocks.

(** ** Contents up to pointwise equality *)

Abbreviation veq := (pointwise_relation Z (@eq block)).

#[global] Instance used_proper : Proper (veq ==> eq ==> eq ==> eq) used.
Proof. intros V V' E sb ? <- b ? <-. apply used_ext, E. Qed.

#[global] Instance faddr_proper : Proper (veq ==> eq ==> eq ==> eq) faddr.
Proof. intros V V' E a ? <- bn ? <-. unfold faddr. now rewrite (E (a NDIRECT)). Qed.

#[global] Instance content_proper : Proper (veq ==> eq ==> eq ==> eq) content.
Proof. intros V V' E a ? <- off ? <-. unfold content. rewrite (faddr_proper V V' E a a eq_refl _ _ eq_refl). now rewrite (E (faddr V' a (off / BSIZE))). Qed.

#[global] Instance blocks_ok_proper : Proper (veq ==> eq ==> eq ==> iff) blocks_ok.
Proof.
  assert (Hi : forall V V' sb a, veq V V' -> blocks_ok V sb a -> blocks_ok V' sb a).
  { intros V V' sb a E B. apply (blocks_frame sb V V' a B); [intros _; symmetry; apply E | intros b _ Hu; now rewrite <- E]. }
  intros V V' E sb ? <- a ? <-. split; [now apply Hi | apply Hi; now symmetry].
Qed.

#[global] Instance bitmap_ok_proper : Proper (veq ==> eq ==> eq ==> iff) bitmap_ok.
Proof.
  assert (Hi : forall V V' sb Hl, veq V V' -> bitmap_ok V sb Hl -> bitmap_ok V' sb Hl).
  { intros V V' sb Hl E [B1 B2]. constructor; intros b Hb; rewrite <- E; auto. }
  intros V V' E sb ? <- Hl ? <-. split; [now apply Hi | apply Hi; now symmetry].
Qed.

(** The number of free blocks. *)
Definition frees (V : Z -> block) (sb : superblock) : Z :=
  Z.of_nat (length (filter (fun b => used V sb b = false) (seqZ 0 (sb_size sb)))).

#[global] Instance frees_proper : Proper (veq ==> eq ==> eq) frees.
Proof. intros V V' E sb ? <-. unfold frees. f_equal. apply filter_length_ext. intros b _. now rewrite E. Qed.

Lemma frees_pos V sb : 0 < frees V sb -> exists b, 0 <= b < sb_size sb /\ used V sb b = false.
Proof.
  unfold frees. intros Hp. destruct (filter _ _) as [|b l] eqn:E; [cbn in Hp; lia|].
  assert (Hin : b ∈ filter (fun b => used V sb b = false) (seqZ 0 (sb_size sb))) by (rewrite E; apply elem_of_cons; auto).
  apply list_elem_of_filter in Hin as [Hu Hb%elem_of_seqZ]. exists b. split; [lia | exact Hu].
Qed.

Section Frees.
Variables (sb : superblock) (st sz nb : Z).
Hypothesis L : layout sb st sz nb.

Lemma frees_alloc V x : datastart sb <= x < sb_size sb -> used V sb x = false -> frees (alloc_view V sb x) sb = frees V sb - 1.
Proof.
  intros Hx Hf. pose proof (datastart_pos sb st sz nb L). unfold frees.
  rewrite (filter_length_drop (fun b => used V sb b = false) (fun b => used (alloc_view V sb x) sb b = false) (seqZ 0 (sb_size sb)) x); [lia | | | exact Hf | |].
  - apply NoDup_seqZ.
  - apply elem_of_seqZ. lia.
  - rewrite (alloc_used sb st sz nb L) by lia. rewrite Z.eqb_refl. discriminate.
  - intros b Hb%elem_of_seqZ Hne. rewrite (alloc_used sb st sz nb L) by lia. now rewrite (proj2 (Z.eqb_neq b x)).
Qed.

Lemma frees_same V V' : (forall b, 0 <= b < sb_size sb -> used V' sb b = used V sb b) -> frees V' sb = frees V sb.
Proof. intros E. unfold frees. f_equal. apply filter_length_ext. intros b Hb%elem_of_seqZ. rewrite E by lia. reflexivity. Qed.

Lemma alloc_bitmap V x Hl : bitmap_ok V sb Hl -> datastart sb <= x < sb_size sb -> bitmap_ok (alloc_view V sb x) sb Hl.
Proof.
  intros [B1 B2] Hx. pose proof (datastart_pos sb st sz nb L). constructor.
  - intros b Hb. rewrite (alloc_used sb st sz nb L), B1 by lia. apply orb_true_r.
  - intros b Hb. destruct (B2 b Hb) as [Hd Hu]. split; [exact Hd|]. rewrite (alloc_used sb st sz nb L), Hu by lia. apply orb_true_r.
Qed.

End Frees.

Section Files.
Context {C : Type} `{BlockCacheOk C}.

Lemma alloc_step (s : fstate C) Hl : ftxn s Hl -> bitmap_ok (fview s) (f_sb s) Hl -> room s (2 + Z.of_nat (length Hl)) -> 0 < frees (fview s) (f_sb s) ->
  exists x s', balloc s = Ok x s' /\ fstep s s' Hl (alloc_view (fview s) (f_sb s) x) 2 /\ datastart (f_sb s) <= x < sb_size (f_sb s) /\
    used (fview s) (f_sb s) x = false.
Proof.
  intros T Bm R Hfr. pose proof (ft_layout _ _ T) as L. destruct (ly_bmap _ _ _ _ L) as [Hs0 _].
  destruct (first_free (fview s) (f_sb s) Hs0 (frees_pos _ _ Hfr)) as (x & Hx & Hf & Hleast).
  destruct (balloc_ok s Hl x T Bm R Hx Hf Hleast) as (s' & R' & F). exists x, s'. split_and!; auto; try lia.
  destruct (Z.lt_ge_cases x (datastart (f_sb s))) as [Hlt|]; [|assumption]. rewrite (bm_meta _ _ _ Bm) in Hf by lia. discriminate.
Qed.

(** A step that also changes an inode of the cache. *)
Record bmapped (s s' : fstate C) (ip : nat) (n : inode) (bn addr : Z) (a' : Z -> Z) : Prop := {
  bp_txn : ftxn s' [];
  bp_same : fsame s s';
  bp_icache : f_icache s' = <[ip := with_addrs a' n]> (f_icache s);
  bp_bitmap : bitmap_ok (fview s') (f_sb s) [];
  bp_blocks : blocks_ok (fview s') (f_sb s) a';
  bp_addr : faddr (fview s') a' bn = addr /\ addr <> 0;
  bp_others : forall q, 0 <= q < MAXFILE -> q <> bn -> faddr (fview s') a' q = faddr (fview s) (i_addrs n) q;
  bp_content : forall off, 0 <= off < MAXFILE * BSIZE -> content (fview s') a' off = content (fview s) (i_addrs n) off;
  bp_frame : forall b, (0 <= b < sb_size (f_sb s) -> used (fview s) (f_sb s) b = true) ->
    b < sb_bmapstart (f_sb s) \/ datastart (f_sb s) <= b -> b <> i_addrs n NDIRECT -> fview s' b = fview s b;
  bp_used : forall b, 0 <= b < sb_size (f_sb s) -> used (fview s) (f_sb s) b = true -> used (fview s') (f_sb s) b = true;
  bp_new : addr = faddr (fview s) (i_addrs n) bn \/ used (fview s) (f_sb s) addr = false;
  bp_ind : a' NDIRECT = i_addrs n NDIRECT \/ used (fview s) (f_sb s) (a' NDIRECT) = false;
  bp_logged : flogged s <= flogged s' <= flogged s + 5;
  bp_frees : frees (fview s) (f_sb s) - 2 <= frees (fview s') (f_sb s)
}.

Lemma get_inode_ok (s : fstate C) ip n : f_icache s !! ip = Some n -> get_inode ip s = Ok n s.
Proof. intros E. unfold get_inode. now rewrite E. Qed.

Lemma with_addrs_same n : with_addrs (i_addrs n) n = n.
Proof. now destruct n. Qed.

(** [bmap] of a block that the file has. *)
Lemma bmap_quiet (s : fstate C) ip n bn : fquiet s [] -> f_icache s !! ip = Some n -> blocks_ok (fview s) (f_sb s) (i_addrs n) -> room s 1 ->
  0 <= bn < MAXFILE -> faddr (fview s) (i_addrs n) bn <> 0 ->
  exists s', bmap ip bn s = Ok (faddr (fview s) (i_addrs n) bn) s' /\ fmove s s' [].
Proof.
  intros T Hn B R Hbn Ha. pose proof (fmove_refl s [] T) as F0.
  unfold bmap. rewrite (bind_ok _ _ _ _ _ (get_inode_ok s ip n Hn)). unfold faddr in *.
  destruct (Z.ltb_spec bn NDIRECT) as [Hlt|Hge]; [exists s; now rewrite (proj2 (Z.eqb_neq _ _))|].
  destruct (Z.eqb_spec (i_addrs n NDIRECT) 0) as [|Hi0]; [lia|]. pose proof MAXFILE_val.
  rewrite (proj2 (Z.ltb_lt (bn - NDIRECT) NINDIRECT)) by (change NINDIRECT with 128; unfold NDIRECT in *; lia).
  rewrite bind_ret, (bind_ok _ _ _ _ _ (get_inode_ok s ip n Hn)). pose proof (fq_layout _ _ T) as L.
  destruct (bo_ind _ _ _ B) as [|[Hd _]]; [lia|]. destruct (data_home _ _ _ _ L _ Hd) as [_ Hrange].
  destruct (q_bread s [] (i_addrs n NDIRECT) T) as (i & s1 & R1 & F1); [apply not_elem_of_nil | exact Hrange | unfold room in R; cbn; lia|].
  assert (Hi : (i, i_addrs n NDIRECT) ∈ [(i, i_addrs n NDIRECT)]) by (apply elem_of_cons; auto).
  pose proof (q_data s1 _ i _ (fm_quiet _ _ _ F1) Hi) as Rd. rewrite (fm_view _ _ _ F1) in Rd.
  destruct (q_brelse s1 [] i _ (fm_quiet _ _ _ F1)) as (s2 & R2 & F2).
  exists s2. rewrite (bind_ok _ _ _ _ _ R1), (bind_ok _ _ _ _ _ Rd). cbv zeta. rewrite (proj2 (Z.eqb_neq _ _)) by exact Ha.
  rewrite (bind_ok _ _ _ _ _ R2). split; [reflexivity|]. exact (fmove_trans _ _ _ _ _ F1 F2).
Qed.

Lemma bmap_mapped (s : fstate C) ip n bn : ftxn s [] -> f_icache s !! ip = Some n -> blocks_ok (fview s) (f_sb s) (i_addrs n) -> room s 1 ->
  0 <= bn < MAXFILE -> faddr (fview s) (i_addrs n) bn <> 0 ->
  exists s', bmap ip bn s = Ok (faddr (fview s) (i_addrs n) bn) s' /\ fstep s s' [] (fview s) 0.
Proof. intros T Hn B R Hbn Ha. destruct (bmap_quiet s ip n bn (ftxn_quiet _ _ T) Hn B R Hbn Ha) as (s' & Run & F). eauto using fmove_step. Qed.

(** Storing an inode in the cache. *)
Definition set_ic (l : list inode) (s : fstate C) : fstate C := mkF (f_log s) (f_sb s) l.

Lemma ftxn_ic s Hl l : ftxn s Hl -> ftxn (set_ic l s) Hl.
Proof. intros [T O L]. now constructor. Qed.

Lemma fsame_ic s s' l : fsame s s' -> fsame s (set_ic l s').
Proof. intros [K E]. now constructor. Qed.

Lemma lookup_put (l : list inode) ip n n' : l !! ip = Some n -> <[ip := n']> l !! ip = Some n'.
Proof. intros E. apply list_lookup_insert_eq. now apply lookup_lt_Some in E. Qed.

(** Allocating a block and changing the inode, for either kind of block. *)
Record allocated (s s' : fstate C) (ip : nat) (n : inode) (a' : Z -> Z) (x : Z) (Hl : list (nat * Z)) : Prop := {
  al_txn : ftxn s' Hl;
  al_same : fsame s s';
  al_icache : f_icache s' = <[ip := with_addrs a' n]> (f_icache s);
  al_view : forall b, fview s' b = alloc_view (fview s) (f_sb s) x b;
  al_x : datastart (f_sb s) <= x < sb_size (f_sb s);
  al_free : used (fview s) (f_sb s) x = false;
  al_logged : flogged s <= flogged s' <= flogged s + 2
}.

Lemma alloc_put (s : fstate C) ip n k : ftxn s [] -> f_icache s !! ip = Some n -> bitmap_ok (fview s) (f_sb s) [] -> room s 2 ->
  0 < frees (fview s) (f_sb s) -> exists x s', allocated s s' ip n (upd (i_addrs n) k x) x [] /\
    forall A (K : Z -> M (fstate C) A),
      (addr <- balloc ;; n <- get_inode ip ;; put_inode ip (with_addrs (upd (i_addrs n) k addr) n) ;;; K addr) s = K x s' /\
      (addr <- balloc ;; n <- get_inode ip ;; put_inode ip (with_addrs (upd (i_addrs n) k addr) n)) s = Ok tt s'.
Proof.
  intros T Hn Bm R Hfr. destruct (alloc_step s [] T Bm R Hfr) as (x & s1 & R1 & F1 & Hx & Hf).
  assert (Hn1 : f_icache s1 !! ip = Some n) by now rewrite (fp_icache _ _ _ _ _ F1).
  exists x, (set_ic (<[ip := with_addrs (upd (i_addrs n) k x) n]> (f_icache s1)) s1). split.
  - constructor; auto; try apply F1; [apply ftxn_ic, F1 | apply fsame_ic, F1|]. cbn. now rewrite (fp_icache _ _ _ _ _ F1).
  - intros A K. now rewrite !(bind_ok _ _ _ _ _ R1), !(bind_ok _ _ _ _ _ (get_inode_ok s1 ip n Hn1)).
Qed.

Lemma allocated_bitmap s s' ip n a' x Hl : ftxn s [] -> allocated s s' ip n a' x Hl -> bitmap_ok (fview s) (f_sb s) [] ->
  bitmap_ok (fview s') (f_sb s) [] /\ frees (fview s') (f_sb s) = frees (fview s) (f_sb s) - 1 /\
  (forall b, 0 <= b < sb_size (f_sb s) -> used (fview s') (f_sb s) b = (b =? x) || used (fview s) (f_sb s) b) /\
  (forall b, (0 <= b < sb_size (f_sb s) -> used (fview s) (f_sb s) b = true) ->
    b < sb_bmapstart (f_sb s) \/ datastart (f_sb s) <= b -> fview s' b = fview s b).
Proof.
  intros T A Bm. pose proof (ft_layout _ _ T) as L. pose proof (al_view _ _ _ _ _ _ _ A) as E. pose proof (al_x _ _ _ _ _ _ _ A) as Hx.
  pose proof (datastart_pos _ _ _ _ L). change (veq (fview s') (alloc_view (fview s) (f_sb s) x)) in E. split_and!.
  - rewrite E. now apply (alloc_bitmap _ _ _ _ L).
  - rewrite E. now apply (frees_alloc _ _ _ _ L), (al_free _ _ _ _ _ _ _ A).
  - intros b Hb. rewrite E. apply (alloc_used _ _ _ _ L); lia.
  - intros b Hu Hr. rewrite (E b). destruct (bblock_range _ _ _ _ L x ltac:(lia)) as [Hbr _]. unfold alloc_view, set_used, upd.
    rewrite (proj2 (Z.eqb_neq b x)), (proj2 (Z.eqb_neq b (BBLOCK x (f_sb s)))); [reflexivity | lia|].
    intros ->. rewrite (al_free _ _ _ _ _ _ _ A) in Hu. specialize (Hu ltac:(lia)). discriminate.
Qed.

Lemma bmap_direct (s : fstate C) ip n bn : ftxn s [] -> f_icache s !! ip = Some n -> bitmap_ok (fview s) (f_sb s) [] ->
  blocks_ok (fview s) (f_sb s) (i_addrs n) -> room s 2 -> 0 < frees (fview s) (f_sb s) -> 0 <= bn < NDIRECT ->
  faddr (fview s) (i_addrs n) bn = 0 -> exists addr s' a', bmap ip bn s = Ok addr s' /\ bmapped s s' ip n bn addr a'.
Proof.
  intros T Hn Bm B R Hfr Hbn Hz0. pose proof (ft_layout _ _ T) as L. pose proof (datastart_pos _ _ _ _ L) as Hp.
  destruct (alloc_put s ip n bn T Hn Bm R Hfr) as (x & s' & A & Run). pose proof (al_x _ _ _ _ _ _ _ A) as Hx.
  destruct (allocated_bitmap s s' ip n _ x [] T A Bm) as (Bm' & Hfr' & Hu' & Hfrm).
  destruct (alloc_blocks _ _ _ _ L (fview s) (i_addrs n) x B Hx (al_free _ _ _ _ _ _ _ A)) as (B1 & E1 & O1 & C1).
  assert (E : veq (fview s') (alloc_view (fview s) (f_sb s) x)) by exact (al_view _ _ _ _ _ _ _ A).
  destruct (set_direct _ _ _ _ L (alloc_view (fview s) (f_sb s) x) (i_addrs n) bn x B1 Hbn) as (B2 & C2); auto.
  { now rewrite E1. } { rewrite (alloc_used _ _ _ _ L) by lia. now rewrite Z.eqb_refl. }
  { unfold alloc_view, upd. now rewrite Z.eqb_refl. }
  exists x, s', (upd (i_addrs n) bn x). split.
  - unfold bmap. rewrite (bind_ok _ _ _ _ _ (get_inode_ok s ip n Hn)), (proj2 (Z.ltb_lt bn NDIRECT)) by lia.
    unfold faddr in Hz0. rewrite (proj2 (Z.ltb_lt bn NDIRECT)) in Hz0 by lia. rewrite Hz0. change (0 =? 0) with true. cbv iota. apply Run.
  - constructor; auto; try apply A.
    + now rewrite E.
    + rewrite E, faddr_direct, Z.eqb_refl by lia. split; [reflexivity | lia].
    + intros q Hq Hne. rewrite E, faddr_direct by lia. rewrite (proj2 (Z.eqb_neq q bn)) by exact Hne. apply E1.
    + intros off Hoff. rewrite E. now rewrite C2, C1.
    + intros b Hb Hub. rewrite Hu', Hub by exact Hb. apply orb_true_r.
    + right. apply A.
    + left. unfold upd. now rewrite (proj2 (Z.eqb_neq _ _)) by lia.
    + pose proof (al_logged _ _ _ _ _ _ _ A). lia.
    + lia.
Qed.

(** The inode has an indirect block, after [bmap] has allocated one if needed. *)
Record with_indirect (s s' : fstate C) (ip : nat) (n : inode) (a' : Z -> Z) : Prop := {
  wi_txn : ftxn s' [];
  wi_same : fsame s s';
  wi_icache : f_icache s' = <[ip := with_addrs a' n]> (f_icache s);
  wi_bitmap : bitmap_ok (fview s') (f_sb s) [];
  wi_blocks : blocks_ok (fview s') (f_sb s) a';
  wi_ind : a' NDIRECT <> 0;
  wi_faddr : forall q, 0 <= q < MAXFILE -> faddr (fview s') a' q = faddr (fview s) (i_addrs n) q;
  wi_content : forall off, 0 <= off < MAXFILE * BSIZE -> content (fview s') a' off = content (fview s) (i_addrs n) off;
  wi_frame : forall b, (0 <= b < sb_size (f_sb s) -> used (fview s) (f_sb s) b = true) ->
    b < sb_bmapstart (f_sb s) \/ datastart (f_sb s) <= b -> b <> i_addrs n NDIRECT -> fview s' b = fview s b /\ b <> a' NDIRECT;
  wi_used : forall b, 0 <= b < sb_size (f_sb s) -> used (fview s) (f_sb s) b = true -> used (fview s') (f_sb s) b = true;
  wi_new : a' NDIRECT = i_addrs n NDIRECT \/ used (fview s) (f_sb s) (a' NDIRECT) = false;
  wi_logged : flogged s <= flogged s' <= flogged s + 2;
  wi_frees : frees (fview s) (f_sb s) - 1 <= frees (fview s') (f_sb s)
}.

Lemma ensure_indirect (s : fstate C) ip n : ftxn s [] -> f_icache s !! ip = Some n -> bitmap_ok (fview s) (f_sb s) [] ->
  blocks_ok (fview s) (f_sb s) (i_addrs n) -> room s 2 -> 0 < frees (fview s) (f_sb s) ->
  exists s' a', with_indirect s s' ip n a' /\
    (if i_addrs n NDIRECT =? 0 then addr <- balloc ;; n <- get_inode ip ;; put_inode ip (with_addrs (upd (i_addrs n) NDIRECT addr) n) else ret tt) s = Ok tt s'.
Proof.
  intros T Hn Bm B R Hfr. pose proof (ft_layout _ _ T) as L. pose proof (datastart_pos _ _ _ _ L) as Hp.
  destruct (Z.eqb_spec (i_addrs n NDIRECT) 0) as [Hi0|Hi0].
  - destruct (alloc_put s ip n NDIRECT T Hn Bm R Hfr) as (x & s' & A & Run). pose proof (al_x _ _ _ _ _ _ _ A) as Hx.
    destruct (allocated_bitmap s s' ip n _ x [] T A Bm) as (Bm' & Hfr' & Hu' & Hfrm). pose proof (al_free _ _ _ _ _ _ _ A) as Hf.
    destruct (alloc_blocks _ _ _ _ L (fview s) (i_addrs n) x B Hx Hf) as (B1 & E1 & O1 & C1).
    assert (E : veq (fview s') (alloc_view (fview s) (f_sb s) x)) by exact (al_view _ _ _ _ _ _ _ A).
    assert (Hzx : alloc_view (fview s) (f_sb s) x x = (fun _ => 0)) by (unfold alloc_view, upd; now rewrite Z.eqb_refl).
    destruct (set_indirect _ (alloc_view (fview s) (f_sb s) x) (i_addrs n) x B1 Hi0) as (B2 & C2); auto.
    { rewrite (alloc_used _ _ _ _ L) by lia. now rewrite Z.eqb_refl. }
    exists s', (upd (i_addrs n) NDIRECT x). split; [|apply (Run unit (fun _ => ret tt))].
    constructor; auto; try apply A; try lia.
    + now rewrite E.
    + unfold upd. rewrite Z.eqb_refl. lia.
    + intros q Hq. rewrite E, faddr_indirect by auto. apply E1.
    + intros off Hoff. rewrite E. now rewrite C2, C1.
    + intros b Hb1 Hb2 Hb3. split; [now apply Hfrm|]. unfold upd. rewrite Z.eqb_refl. intros ->. rewrite Hb1 in Hf by lia. discriminate.
    + intros b Hb Hub. rewrite Hu', Hub by exact Hb. apply orb_true_r.
  - exists s, (i_addrs n). split; [|reflexivity]. constructor; auto using fsame_refl; try lia.
    rewrite with_addrs_same, list_insert_id; auto.
Qed.

(** The contents after an entry of the indirect block [ind] is set. *)
Definition entry_view (V : Z -> block) (sb : superblock) (ind k x : Z) : Z -> block :=
  upd (alloc_view V sb x) ind (store32 (V ind) (4 * k) x).

(** The second half of [bmap] for a missing entry. *)
Lemma add_entry (s : fstate C) ind k : ftxn s [] -> bitmap_ok (fview s) (f_sb s) [] -> datastart (f_sb s) <= ind < sb_size (f_sb s) ->
  used (fview s) (f_sb s) ind = true -> room s 4 -> 0 < frees (fview s) (f_sb s) -> load32 (fview s ind) (4 * k) = 0 ->
  exists x s', (bp <- fbread ind ;; a <- fdata bp ;;
      let addr := load32 a (4 * k) in
      if addr =? 0 then
        addr <- balloc ;; a <- fdata bp ;; fset bp (store32 a (4 * k) addr) ;;; flog_write bp ;;; fbrelse bp ;;; ret addr
      else fbrelse bp ;;; ret addr) s = Ok x s' /\
    fstep s s' [] (entry_view (fview s) (f_sb s) ind k x) 3 /\ datastart (f_sb s) <= x < sb_size (f_sb s) /\ used (fview s) (f_sb s) x = false.
Proof.
  intros T Bm Hd Hud R Hfr Hz0. pose proof (ft_layout _ _ T) as L. set (sb := f_sb s) in *.
  destruct (data_home _ _ _ _ L _ Hd) as [Hh Hrange].
  destruct (f_bread s [] ind T) as (i & s2 & Rb & F2); [apply not_elem_of_nil | exact Hrange | unfold room in R; cbn; lia|].
  assert (Hi : (i, ind) ∈ [(i, ind)]) by (apply elem_of_cons; auto). assert (V2 : veq (fview s2) (fview s)) by exact (fp_view _ _ _ _ _ F2).
  pose proof (f_data s2 _ i _ (fp_txn _ _ _ _ _ F2) Hi) as Rd. rewrite (V2 ind) in Rd.
  pose proof (fs_sb _ _ (fp_same _ _ _ _ _ F2)) as S2. fold sb in S2.
  destruct (alloc_step s2 [(i, ind)] (fp_txn _ _ _ _ _ F2)) as (x & s3 & Ra & F3 & Hx & Hf).
  { rewrite S2, V2. destruct Bm. constructor; [assumption|]. intros b Hb. cbn in Hb. apply list_elem_of_singleton in Hb as ->. auto. }
  { apply (fstep_room s _ _ _ 0 _ F2). apply (room_weaken s 4); [exact R | cbn; lia]. } { rewrite S2, V2. lia. }
  rewrite S2 in *. rewrite V2 in Hf. assert (Hne : ind <> x) by congruence.
  assert (V3 : veq (fview s3) (alloc_view (fview s) sb x)).
  { intros b. rewrite (fp_view _ _ _ _ _ F3). unfold alloc_view, set_used, upd. now rewrite !(V2 _). }
  pose proof (fp_same _ _ _ _ _ (fstep_trans _ _ _ _ _ _ _ _ _ F2 F3)) as [K3 S3].
  pose proof (f_data s3 _ i _ (fp_txn _ _ _ _ _ F3) Hi) as Rd3. rewrite (V3 ind), (alloc_data _ _ _ _ L) in Rd3 by (auto; lia).
  destruct (f_put s3 _ i ind (store32 (fview s ind) (4 * k) x) (fp_txn _ _ _ _ _ F3) Hi) as (s4 & Rp & F4).
  { now rewrite (kp_start _ _ K3), (kp_size _ _ K3). } { now rewrite (kp_nblocks _ _ K3). }
  { apply (fstep_room s _ _ _ (0 + 2) _ (fstep_trans _ _ _ _ _ _ _ _ _ F2 F3)). apply (room_weaken s 4); [exact R | lia]. }
  destruct (f_brelse s4 [] i ind (fp_txn _ _ _ _ _ F4)) as (s5 & Rr & F5).
  exists x, s5. split_and!; auto; try lia.
  - rewrite (bind_ok _ _ _ _ _ Rb), (bind_ok _ _ _ _ _ Rd). cbv zeta. rewrite Hz0. change (0 =? 0) with true. cbv iota.
    rewrite (bind_ok _ _ _ _ _ Ra), (bind_ok _ _ _ _ _ Rd3), Rp, (bind_ok _ _ _ _ _ Rr). reflexivity.
  - apply (fstep_view s s5 [] (fview s4)); [exact (fstep_trans _ _ _ _ _ _ _ _ _ (fstep_trans _ _ _ _ _ _ _ _ _ F2 F3) (fstep_trans _ _ _ _ _ _ _ _ _ F4 F5))|].
    intros b. rewrite (fp_view _ _ _ _ _ F4). unfold entry_view, upd at 1 2. destruct (b =? ind); [reflexivity | apply V3].
Qed.

(** [bmap] of a missing block in the indirect part. *)
Lemma bmap_indirect (s : fstate C) ip n bn : ftxn s [] -> f_icache s !! ip = Some n -> bitmap_ok (fview s) (f_sb s) [] ->
  blocks_ok (fview s) (f_sb s) (i_addrs n) -> room s 6 -> 1 < frees (fview s) (f_sb s) -> NDIRECT <= bn < MAXFILE ->
  faddr (fview s) (i_addrs n) bn = 0 -> exists addr s' a', bmap ip bn s = Ok addr s' /\ bmapped s s' ip n bn addr a'.
Proof.
  intros T Hn Bm B R Hfr Hbn Hz0. pose proof MAXFILE_val as HM.
  destruct (ensure_indirect s ip n T Hn Bm B) as (s1 & a1 & [T1 F1 I1 Bm1 B1 Hi1 E1 C1 Fr1 U1 Nw1 Lg1 Fe1] & Run1); [apply (room_weaken s 6); [exact R | lia] | lia|].
  pose proof (ft_layout _ _ T1) as L. pose proof (fs_sb _ _ F1) as S1. rewrite S1 in L. pose proof (datastart_pos _ _ _ _ L) as Hp.
  destruct (bo_ind _ _ _ B1) as [|[Hd Hud]]; [lia|]. set (ind := a1 NDIRECT) in *. set (k := bn - NDIRECT).
  assert (Hz1 : load32 (fview s1 ind) (4 * k) = 0).
  { specialize (E1 bn ltac:(unfold NDIRECT in *; lia)). rewrite Hz0 in E1. unfold faddr in E1. rewrite (proj2 (Z.ltb_ge bn NDIRECT)) in E1 by lia.
    fold ind in E1. rewrite (proj2 (Z.eqb_neq ind 0)) in E1 by exact Hi1. exact E1. }
  destruct (add_entry s1 ind k T1) as (x & s2 & Run2 & F2 & Hx & Hf); rewrite ?S1; auto; [apply (room_same s s1 2); auto; lia | lia|]. rewrite S1 in *.
  assert (V2 : veq (fview s2) (entry_view (fview s1) (f_sb s) ind k x)) by exact (fp_view _ _ _ _ _ F2).
  destruct (alloc_blocks _ _ _ _ L (fview s1) a1 x B1 Hx Hf) as (B2 & E2 & O2 & C2). set (V1 := alloc_view (fview s1) (f_sb s) x) in *.
  assert (Ev : V1 ind = fview s1 ind) by (apply (alloc_data _ _ _ _ L); [auto | lia | congruence]).
  destruct (set_entry _ _ _ _ L V1 a1 bn x B2 Hi1 Hbn) as (B3 & U3 & C3); auto.
  { rewrite E2, E1; [exact Hz0 | unfold NDIRECT in *; lia]. } { unfold V1. rewrite (alloc_used _ _ _ _ L) by lia. now rewrite Z.eqb_refl. }
  { unfold V1, alloc_view, upd. now rewrite Z.eqb_refl. }
  fold ind in B3, U3, C3. rewrite Ev in B3, U3, C3. fold k in B3, U3, C3. fold V1 in V2. change (entry_view (fview s1) (f_sb s) ind k x) with (upd V1 ind (store32 (fview s1 ind) (4 * k) x)) in V2.
  exists x, s2, a1. split.
  - unfold bmap. rewrite (bind_ok _ _ _ _ _ (get_inode_ok s ip n Hn)), (proj2 (Z.ltb_ge bn NDIRECT)) by lia. cbv zeta.
    rewrite (proj2 (Z.ltb_lt (bn - NDIRECT) NINDIRECT)) by (change NINDIRECT with 128; unfold NDIRECT in *; lia).
    rewrite (bind_ok _ _ _ _ _ Run1). assert (Hn1 : f_icache s1 !! ip = Some (with_addrs a1 n)) by (rewrite I1; now apply (lookup_put _ ip n)).
    rewrite (bind_ok _ _ _ _ _ (get_inode_ok s1 ip _ Hn1)). exact Run2.
  - assert (Hu2 : forall b, 0 <= b < sb_size (f_sb s) -> used (fview s2) (f_sb s) b = (b =? x) || used (fview s1) (f_sb s) b).
    { intros b Hb. rewrite V2, U3 by exact Hb. apply (alloc_used _ _ _ _ L); lia. }
    constructor; auto.
    + apply F2.
    + apply (fsame_trans s s1); [exact F1 | apply F2].
    + now rewrite (fp_icache _ _ _ _ _ F2).
    + constructor; [|intros b Hb; now apply not_elem_of_nil in Hb]. intros b Hb. pose proof (ly_bmap _ _ _ _ L). rewrite Hu2, (bm_meta _ _ _ Bm1) by lia. apply orb_true_r.
    + now rewrite V2.
    + rewrite V2. fold ind. rewrite <- Ev. split; [|lia]. unfold ind, k. rewrite faddr_entry; [now rewrite Z.eqb_refl | auto | auto | pose proof (ly_size _ _ _ _ L); unfold two31, two32 in *; lia | unfold NDIRECT in *; lia].
    + intros q Hq Hne. rewrite V2, <- Ev. unfold ind, k. rewrite faddr_entry; auto; [|pose proof (ly_size _ _ _ _ L); unfold two31, two32 in *; lia].
      rewrite (proj2 (Z.eqb_neq q bn)) by exact Hne. now rewrite E2, E1.
    + intros off Hoff. rewrite V2. now rewrite C3, C2, C1.
    + intros b Hb1 Hb2 Hb3. destruct (Fr1 b Hb1 Hb2 Hb3) as [Hv Hni]. rewrite (V2 b). unfold upd. rewrite (proj2 (Z.eqb_neq b ind)) by exact Hni.
      rewrite <- Hv. unfold V1, alloc_view, set_used, upd. destruct (bblock_range _ _ _ _ L x ltac:(lia)) as [Hbr _].
      rewrite (proj2 (Z.eqb_neq b x)), (proj2 (Z.eqb_neq b (BBLOCK x (f_sb s)))); [reflexivity | lia|].
      intros ->. rewrite (U1 x ltac:(lia) (Hb1 ltac:(lia))) in Hf. discriminate.
    + intros b Hb Hub. rewrite Hu2, (U1 b Hb Hub) by exact Hb. apply orb_true_r.
    + right. apply not_true_is_false. intros Hux. rewrite (U1 x ltac:(lia) Hux) in Hf. discriminate.
    + pose proof (fp_logged _ _ _ _ _ F2). lia.
    + rewrite V2, (frees_same _ V1 (upd V1 ind _)) by exact U3. unfold V1. rewrite (frees_alloc _ _ _ _ L) by auto. lia.
Qed.

Lemma bmap_ok (s : fstate C) ip n bn : ftxn s [] -> f_icache s !! ip = Some n -> bitmap_ok (fview s) (f_sb s) [] ->
  blocks_ok (fview s) (f_sb s) (i_addrs n) -> room s 6 -> 1 < frees (fview s) (f_sb s) -> 0 <= bn < MAXFILE ->
  exists addr s' a', bmap ip bn s = Ok addr s' /\ bmapped s s' ip n bn addr a'.
Proof.
  intros T Hn Bm B R Hfr Hbn. destruct (Z.eq_dec (faddr (fview s) (i_addrs n) bn) 0) as [E0|E0].
  - destruct (Z.lt_ge_cases bn NDIRECT); [apply bmap_direct; auto; [apply (room_weaken s 6); [exact R | lia] | lia..] | apply bmap_indirect; auto; lia].
  - destruct (bmap_mapped s ip n bn T Hn B) as (s' & Run & F); auto; [apply (room_weaken s 6); [exact R | lia]|].
    assert (V : veq (fview s') (fview s)) by exact (fp_view _ _ _ _ _ F).
    eexists _, s', (i_addrs n). split; [exact Run|]. constructor; auto; try apply F.
    + rewrite (fp_icache _ _ _ _ _ F), with_addrs_same, list_insert_id; auto.
    + now rewrite V.
    + now rewrite V.
    + rewrite V. auto.
    + intros q _ _. now rewrite V.
    + intros off _. now rewrite V.
    + intros b _ Hu. now rewrite V.
    + pose proof (fp_logged _ _ _ _ _ F). lia.
    + rewrite V. lia.
Qed.

(** ** Reading *)

Lemma block_offset off i : 0 <= off -> 0 <= i -> off mod BSIZE + i < BSIZE ->
  (off + i) / BSIZE = off / BSIZE /\ (off + i) mod BSIZE = off mod BSIZE + i.
Proof. unfold BSIZE. intros. Z.to_euclidean_division_equations. lia. Qed.

Lemma offset_block off : 0 <= off < MAXFILE * BSIZE -> 0 <= off / BSIZE < MAXFILE.
Proof. unfold BSIZE. intros. split; [apply Z.div_pos; lia | apply Z.div_lt_upper_bound; lia]. Qed.

Lemma readi_loop_quiet fuel (s : fstate C) ip n off cnt : fquiet s [] -> f_icache s !! ip = Some n -> blocks_ok (fview s) (f_sb s) (i_addrs n) ->
  room s 1 -> 0 <= off -> 0 <= cnt -> off + cnt <= MAXFILE * BSIZE ->
  (forall bn, 0 <= bn -> bn * BSIZE < off + cnt -> faddr (fview s) (i_addrs n) bn <> 0) -> (Z.to_nat cnt < fuel)%nat ->
  exists s', readi_loop fuel ip off cnt s = Ok (map (content (fview s) (i_addrs n)) (seqZ off cnt)) s' /\ fmove s s' [].
Proof.
  revert s off cnt. induction fuel as [|fuel IH]; intros s off cnt T Hn B R Hoff Hcnt Hmax Hm Hf; [lia|].
  cbn [readi_loop]. destruct (Z.ltb_spec 0 cnt) as [Hpos|]; [|exists s; rewrite seqZ_nil by lia; split; [reflexivity | now apply fmove_refl]].
  pose proof (offset_block off ltac:(lia)) as Hbn. pose proof (Z.mod_pos_bound off BSIZE ltac:(unfold BSIZE; lia)) as Hmod.
  assert (Ha : faddr (fview s) (i_addrs n) (off / BSIZE) <> 0) by (apply Hm; [lia|]; unfold BSIZE in *; Z.to_euclidean_division_equations; lia).
  destruct (bmap_quiet s ip n (off / BSIZE) T Hn B R Hbn Ha) as (s1 & R1 & F1). set (b := faddr _ _ _) in *.
  assert (V1 : veq (fview s1) (fview s)) by exact (fm_view _ _ _ F1).
  destruct (bo_addr _ _ _ B _ Hbn) as [|(Hd & _ & _)]; [tauto|]. destruct (data_home _ _ _ _ (fq_layout _ _ T) _ Hd) as [_ Hr]. fold b in Hr.
  destruct (q_bread s1 [] b (fm_quiet _ _ _ F1)) as (i & s2 & R2 & F2).
  { apply not_elem_of_nil. } { now rewrite (kp_nblocks _ _ (fs_kept _ _ (fm_same _ _ _ F1))). }
  { pose proof (fm_logged _ _ _ F1). unfold room in R. cbn. lia. }
  assert (Hi : (i, b) ∈ [(i, b)]) by (apply elem_of_cons; auto). pose proof (q_data s2 _ i b (fm_quiet _ _ _ F2) Hi) as Rd.
  rewrite (fm_view _ _ _ F2), (V1 b) in Rd. destruct (q_brelse s2 [] i b (fm_quiet _ _ _ F2)) as (s3 & R3 & F3).
  pose proof (fmove_trans _ _ _ _ _ F1 (fmove_trans _ _ _ _ _ F2 F3)) as F13.
  assert (V3 : veq (fview s3) (fview s)) by (intros c; rewrite (fm_view _ _ _ F3), (fm_view _ _ _ F2); apply V1).
  pose proof (fs_sb _ _ (fm_same _ _ _ F13)) as S3. set (m := Z.min cnt (BSIZE - off mod BSIZE)).
  destruct (IH s3 (off + m) (cnt - m)) as (s4 & R4 & F4); rewrite ?S3; try (unfold m; lia).
  { apply F13. } { now rewrite (fm_icache _ _ _ F13). } { now rewrite V3. } { exact (fmove_room _ _ _ _ F13 R). }
  { intros q Hq Hq2. rewrite V3. apply Hm; lia. }
  exists s4. split.
  - rewrite (bind_ok _ _ _ _ _ R1), (bind_ok _ _ _ _ _ R2), (bind_ok _ _ _ _ _ Rd). cbv zeta. fold m.
    rewrite (bind_ok _ _ _ _ _ R3), (bind_ok _ _ _ _ _ R4). unfold ret. f_equal.
    replace cnt with (m + (cnt - m)) at 2 by lia. rewrite seqZ_app by (unfold m; lia). rewrite map_app. f_equal.
    + assert (Es : seqZ off m = map (Z.add off) (seqZ 0 m)) by (rewrite <- (Z.add_0_r off) at 1; symmetry; apply (fmap_add_seqZ off 0 m)).
      rewrite Es, map_map. apply map_seqZ_ext.
      intros q Hq. destruct (block_offset off q Hoff ltac:(lia) ltac:(unfold m in Hq; lia)) as [E1 E2]. unfold content. rewrite E1, E2. fold b.
      now rewrite (proj2 (Z.eqb_neq b 0)).
    + apply map_ext. intros q. now rewrite V3.
  - exact (fmove_trans _ _ _ _ _ F13 F4).
Qed.

(** ** Writing *)

(** The effect of writing the bytes [g] (by file offset) at the offsets that
    satisfy [P], with at most [k] blocks touched. *)
Record written (s s' : fstate C) (ip : nat) (n : inode) (a' : Z -> Z) (P : Z -> bool) (g : Z -> Z) (k : Z) : Prop := {
  wr_txn : ftxn s' [];
  wr_same : fsame s s';
  wr_icache : f_icache s' = <[ip := with_addrs a' n]> (f_icache s);
  wr_bitmap : bitmap_ok (fview s') (f_sb s) [];
  wr_blocks : blocks_ok (fview s') (f_sb s) a';
  wr_content : forall o, 0 <= o < MAXFILE * BSIZE -> content (fview s') a' o = if P o then g o else content (fview s) (i_addrs n) o;
  wr_mapped : forall o, 0 <= o < MAXFILE * BSIZE -> P o = true \/ faddr (fview s) (i_addrs n) (o / BSIZE) <> 0 -> faddr (fview s') a' (o / BSIZE) <> 0;
  wr_frame : forall b, (0 <= b < sb_size (f_sb s) -> used (fview s) (f_sb s) b = true) ->
    b < sb_bmapstart (f_sb s) \/ datastart (f_sb s) <= b -> outside (fview s) (i_addrs n) b -> fview s' b = fview s b /\ outside (fview s') a' b;
  wr_used : forall b, 0 <= b < sb_size (f_sb s) -> used (fview s) (f_sb s) b = true -> used (fview s') (f_sb s) b = true;
  wr_logged : flogged s <= flogged s' <= flogged s + 6 * k;
  wr_frees : frees (fview s) (f_sb s) - 2 * k <= frees (fview s') (f_sb s)
}.

Lemma written_trans s1 s2 s3 ip n a2 a3 P Q g k l : f_icache s1 !! ip = Some n -> written s1 s2 ip n a2 P g k ->
  written s2 s3 ip (with_addrs a2 n) a3 Q g l -> written s1 s3 ip n a3 (fun o => Q o || P o) g (k + l).
Proof.
  intros Hn [T1 F1 I1 Bm1 B1 C1 M1 Fr1 U1 Lg1 Fe1] [T2 F2 I2 Bm2 B2 C2 M2 Fr2 U2 Lg2 Fe2]. pose proof (fs_sb _ _ F1) as S1. rewrite S1 in *.
  constructor; auto; try lia.
  - now apply (fsame_trans s1 s2).
  - rewrite I2, I1, list_insert_insert_eq. now destruct n.
  - intros o Ho. rewrite C2 by exact Ho. cbn [i_addrs with_addrs]. rewrite C1 by exact Ho. now destruct (Q o).
  - intros o Ho Hor. apply M2; [exact Ho|]. cbn [i_addrs with_addrs]. destruct (Q o); [now left | right; apply M1; auto].
  - intros b Hb1 Hb2 Ho. destruct (Fr1 b Hb1 Hb2 Ho) as [E1 O1]. destruct (Fr2 b) as [E2 O2]; auto. split; [congruence | exact O2].
Qed.

Lemma in_block off m o : 0 <= off -> 0 <= o -> off mod BSIZE + m <= BSIZE -> o / BSIZE = off / BSIZE ->
  o - off = o mod BSIZE - off mod BSIZE /\
  ((off <=? o) && (o <? off + m)) = ((off mod BSIZE <=? o mod BSIZE) && (o mod BSIZE <? off mod BSIZE + m)).
Proof.
  unfold BSIZE. intros H1' H2' H3' H4'. assert (E : o - off = o mod 512 - off mod 512) by (Z.to_euclidean_division_equations; lia).
  split; [exact E|]. f_equal; [destruct (Z.leb_spec off o), (Z.leb_spec (off mod 512) (o mod 512)) | destruct (Z.ltb_spec o (off + m)), (Z.ltb_spec (o mod 512) (off mod 512 + m))]; auto; lia.
Qed.

Lemma other_block off m o : 0 <= off -> 0 <= o -> off mod BSIZE + m <= BSIZE -> o / BSIZE <> off / BSIZE -> ((off <=? o) && (o <? off + m)) = false.
Proof.
  unfold BSIZE. intros H1' H2' H3' H4'. destruct (Z.leb_spec off o), (Z.ltb_spec o (off + m)); auto. exfalso. apply H4'.
  Z.to_euclidean_division_equations. lia.
Qed.

(** The body of the loop of [writei]. *)
Lemma write_block (s : fstate C) ip n off m src : ftxn s [] -> f_icache s !! ip = Some n -> bitmap_ok (fview s) (f_sb s) [] ->
  blocks_ok (fview s) (f_sb s) (i_addrs n) -> room s 6 -> 1 < frees (fview s) (f_sb s) -> 0 <= off -> 0 < m -> off mod BSIZE + m <= BSIZE ->
  off + m <= MAXFILE * BSIZE -> forall tot, exists s' a',
    written s s' ip n a' (fun o => (off <=? o) && (o <? off + m)) (fun o => src (tot + (o - off))) 1 /\
    forall A (K : M (fstate C) A), (addr <- bmap ip (off / BSIZE) ;; bp <- fbread addr ;; d <- fdata bp ;;
      fset bp (fun i => if (off mod BSIZE <=? i) && (i <? off mod BSIZE + m) then src (tot + (i - off mod BSIZE)) else d i) ;;;
      flog_write bp ;;; fbrelse bp ;;; K) s = K s'.
Proof.
  intros T Hn Bm B R Hfr Hoff Hm Hmod Hmax tot. pose proof (offset_block off ltac:(lia)) as Hbn. set (bn := off / BSIZE) in *. set (lo := off mod BSIZE) in *.
  destruct (bmap_ok s ip n bn T Hn Bm B R Hfr Hbn) as (addr & s1 & a' & R1 & [T1 F1 I1 Bm1 B1 [Ad1 Nz1] Oth1 C1 Fr1 U1 Nw1 Ni1 Lg1 Fe1]).
  pose proof (ft_layout _ _ T1) as L. pose proof (fs_sb _ _ F1) as S1. rewrite S1 in L. pose proof (datastart_pos _ _ _ _ L) as Hp.
  destruct (bo_addr _ _ _ B1 bn Hbn) as [|(Hd & Hu & _)]; [lia|]. rewrite Ad1 in Hd, Hu. destruct (data_home _ _ _ _ L _ Hd) as [Hh Hr].
  set (d' := fun i => if (lo <=? i) && (i <? lo + m) then src (tot + (i - lo)) else fview s1 addr i).
  assert (R1' : room s1 1) by (apply (room_same s s1 5); auto; lia).
  destruct (f_bread s1 [] addr T1) as (i & s2 & R2 & F2); [apply not_elem_of_nil | exact Hr | unfold room in R1'; cbn; lia|].
  assert (Hi : (i, addr) ∈ [(i, addr)]) by (apply elem_of_cons; auto). pose proof (f_data s2 _ i addr (fp_txn _ _ _ _ _ F2) Hi) as Rd.
  rewrite (fp_view _ _ _ _ _ F2) in Rd. pose proof (fs_kept _ _ (fp_same _ _ _ _ _ F2)) as K2.
  destruct (f_put s2 _ i addr d' (fp_txn _ _ _ _ _ F2) Hi) as (s3 & R3 & F3).
  { now rewrite (kp_start _ _ K2), (kp_size _ _ K2). } { now rewrite (kp_nblocks _ _ K2). } { apply (fstep_room s1 _ _ _ 0 _ F2). exact R1'. }
  destruct (f_brelse s3 [] i addr (fp_txn _ _ _ _ _ F3)) as (s4 & R4 & F4).
  pose proof (fstep_trans _ _ _ _ _ _ _ _ _ F2 (fstep_trans _ _ _ _ _ _ _ _ _ F3 F4)) as F14.
  assert (V4 : veq (fview s4) (upd (fview s1) addr d')).
  { intros c. rewrite (fp_view _ _ _ _ _ F4), (fp_view _ _ _ _ _ F3). unfold upd. destruct (c =? addr); [reflexivity | apply (fp_view _ _ _ _ _ F2)]. }
  destruct (set_data _ _ _ _ L (fview s1) a' bn d' B1 Hbn ltac:(now rewrite Ad1)) as (B4 & E4 & U4 & C4). rewrite Ad1 in B4, E4, U4, C4.
  exists s4, a'. split.
  2: { intros A K. rewrite (bind_ok _ _ _ _ _ R1), (bind_ok _ _ _ _ _ R2), (bind_ok _ _ _ _ _ Rd). fold d'. now rewrite R3, (bind_ok _ _ _ _ _ R4). }
  constructor.
  - apply F14.
  - apply (fsame_trans s s1); [exact F1 | apply F14].
  - now rewrite (fp_icache _ _ _ _ _ F14).
  - pose proof (ly_bmap _ _ _ _ L). constructor; [|intros b Hb; now apply not_elem_of_nil in Hb]. intros b Hb. rewrite V4, U4 by lia. now apply (bm_meta _ _ _ Bm1).
  - now rewrite V4.
  - intros o Ho. rewrite V4, C4 by exact Ho. unfold bn. destruct (Z.eqb_spec (o / BSIZE) (off / BSIZE)) as [Eq|Ne].
    + destruct (in_block off m o Hoff ltac:(lia) Hmod Eq) as [Ed ->]. unfold d', lo. rewrite Ed. destruct (_ && _); [reflexivity|].
      rewrite <- C1 by exact Ho. unfold content. fold bn in Eq. rewrite Eq, Ad1. now rewrite (proj2 (Z.eqb_neq addr 0)).
    + now rewrite (other_block off m o), C1 by (auto; lia).
  - intros o Ho Hor. rewrite V4, E4. destruct (Z.eq_dec (o / BSIZE) bn) as [->|Ne]; [now rewrite Ad1|]. rewrite Oth1 by (auto using offset_block).
    destruct Hor as [Hp1|]; [|assumption]. rewrite other_block in Hp1 by (auto; lia). discriminate.
  - intros b Hb1 Hb2 [Ho1 Ho2].
    assert (Hba : b <> addr) by (intros ->; destruct Nw1 as [E|E]; [now apply (Ho2 bn Hbn) | rewrite Hb1 in E by lia; discriminate]).
    assert (Hbi : b <> a' NDIRECT).
    { intros ->. destruct Ni1 as [E|E]; [congruence|]. pose proof (ly_bmap _ _ _ _ L). destruct (bo_ind _ _ _ B1); rewrite Hb1 in E by lia; discriminate. }
    split.
    + rewrite (V4 b). unfold upd. rewrite (proj2 (Z.eqb_neq b addr)) by exact Hba. now apply Fr1.
    + split; [exact Hbi|]. intros q Hq. rewrite V4, E4. destruct (Z.eq_dec q bn) as [->|Ne]; [congruence|]. rewrite Oth1 by auto. now apply Ho2.
  - intros b Hb Hub. rewrite V4, U4 by exact Hb. auto.
  - pose proof (fp_logged _ _ _ _ _ F14). lia.
  - rewrite V4, (frees_same _ (fview s1) (upd (fview s1) addr d')) by exact U4. lia.
Qed.

(** The number of blocks that [cnt] bytes at [off] touch. *)
Definition blocks_touched (off cnt : Z) : Z := if cnt <=? 0 then 0 else (off + cnt - 1) / BSIZE - off / BSIZE + 1.

Lemma blocks_touched_step off cnt : 0 <= off -> 0 < cnt -> let m := Z.min cnt (BSIZE - off mod BSIZE) in
  0 < m /\ off mod BSIZE + m <= BSIZE /\ m <= cnt /\ 0 <= blocks_touched (off + m) (cnt - m) /\ blocks_touched off cnt = 1 + blocks_touched (off + m) (cnt - m).
Proof.
  intros Hoff Hcnt m. unfold blocks_touched, BSIZE in *. pose proof (Z.mod_pos_bound off 512 ltac:(lia)).
  split; [lia|]. split; [lia|]. split; [lia|]. rewrite (proj2 (Z.leb_gt cnt 0)) by lia. destruct (Z.leb_spec (cnt - m) 0).
  - split; [lia|]. assert (m = cnt) by lia. unfold m in *. Z.to_euclidean_division_equations. lia.
  - assert (Em : m = 512 - off mod 512) by lia. rewrite Em. clearbody m. split; Z.to_euclidean_division_equations; lia.
Qed.

Lemma writei_loop_ok fuel (s : fstate C) ip n src tot off cnt : ftxn s [] -> f_icache s !! ip = Some n -> bitmap_ok (fview s) (f_sb s) [] ->
  blocks_ok (fview s) (f_sb s) (i_addrs n) -> let k := blocks_touched off (cnt - tot) in
  room s (6 * k) -> 2 * k <= frees (fview s) (f_sb s) -> 0 <= off -> tot <= cnt -> off + (cnt - tot) <= MAXFILE * BSIZE ->
  (Z.to_nat (cnt - tot) < fuel)%nat ->
  exists s' a', writei_loop fuel ip src tot off cnt s = Ok tt s' /\
    written s s' ip n a' (fun o => (off <=? o) && (o <? off + (cnt - tot))) (fun o => src (tot + (o - off))) k.
Proof.
  revert s n tot off. induction fuel as [|fuel IH]; intros s n tot off T Hn Bm B k R Hfr Hoff Htot Hmax Hf; [lia|].
  cbn [writei_loop]. destruct (Z.ltb_spec tot cnt) as [Hlt|Hge].
  - destruct (blocks_touched_step off (cnt - tot) Hoff ltac:(lia)) as (Hm1 & Hm2 & Hm3 & Hk0 & Hk). set (m := Z.min _ _) in *. fold k in Hk.
    destruct (write_block s ip n off m src T Hn Bm B) with (tot := tot) as (s1 & a1 & W1 & R1); auto; try lia; [apply (room_weaken s _ _ R); lia|].
    pose proof (fs_sb _ _ (wr_same _ _ _ _ _ _ _ _ W1)) as S1.
    assert (Hn1 : f_icache s1 !! ip = Some (with_addrs a1 n)) by (rewrite (wr_icache _ _ _ _ _ _ _ _ W1); now apply (lookup_put _ ip n)).
    replace (cnt - tot - m) with (cnt - (tot + m)) in * by lia.
    destruct (IH s1 (with_addrs a1 n) (tot + m) (off + m)) as (s2 & a2 & R2 & W2); rewrite ?S1; auto; try lia; try apply W1.
    { apply (room_same s s1 6); [apply W1 | pose proof (wr_logged _ _ _ _ _ _ _ _ W1); lia | apply (room_weaken s _ _ R); lia]. }
    { pose proof (wr_frees _ _ _ _ _ _ _ _ W1). lia. }
    exists s2, a2. split; [rewrite R1; exact R2|].
    assert (W2' : written s1 s2 ip (with_addrs a1 n) a2 (fun o => (off + m <=? o) && (o <? off + m + (cnt - (tot + m)))) (fun o => src (tot + (o - off))) (blocks_touched (off + m) (cnt - (tot + m)))).
    { destruct W2. constructor; auto. intros o Ho. rewrite wr_content0 by exact Ho. now replace (tot + m + (o - (off + m))) with (tot + (o - off)) by lia. }
    pose proof (written_trans s s1 s2 ip n a1 a2 _ _ _ _ _ Hn W1 W2') as W. rewrite <- Hk in W.
    assert (EP : forall o, ((off + m <=? o) && (o <? off + m + (cnt - (tot + m))) || (off <=? o) && (o <? off + m)) = ((off <=? o) && (o <? off + (cnt - tot)))).
    { intros o. destruct (Z.leb_spec (off + m) o), (Z.ltb_spec o (off + m + (cnt - (tot + m)))), (Z.leb_spec off o), (Z.ltb_spec o (off + m)), (Z.ltb_spec o (off + (cnt - tot))); cbn; auto; lia. }
    destruct W. constructor; auto; intros o Ho; rewrite <- EP; auto.
  - exists s, (i_addrs n). split; [reflexivity|]. unfold k in *. assert (Ek : blocks_touched off (cnt - tot) = 0) by (unfold blocks_touched; now rewrite (proj2 (Z.leb_le _ 0)) by lia).
    constructor; auto using fsame_refl; rewrite ?Ek; try lia.
    + rewrite with_addrs_same, list_insert_id; auto.
    + intros o Ho. destruct (Z.leb_spec off o), (Z.ltb_spec o (off + (cnt - tot))); cbn; auto; lia.
Qed.

(** ** The inode on the disk *)

Lemma iblock_range sb st sz nb i : layout sb st sz nb -> 0 <= i < sb_ninodes sb ->
  sb_inodestart sb <= IBLOCK i sb < sb_bmapstart sb /\ home st sz (IBLOCK i sb) /\ 0 <= IBLOCK i sb < nb.
Proof.
  intros L Hi. destruct (ly_log _ _ _ _ L) as (L1 & L2 & L3), (ly_inodes _ _ _ _ L) as [L4 L5], (ly_bmap _ _ _ _ L) as [L6 L7].
  pose proof (ly_size _ _ _ _ L) as L8. unfold datastart in L7.
  assert (0 <= i / IPB <= sb_ninodes sb / IPB) by (split; [apply Z.div_pos; [lia | apply IPB_pos] | apply Z.div_le_mono; [apply IPB_pos | lia]]).
  assert (0 <= sb_size sb / BPB) by (apply Z.div_pos; [lia | apply BPB_pos]).
  unfold IBLOCK. rewrite u32_small by (unfold two31, two32 in *; lia). unfold home. lia.
Qed.

Lemma iupdate_ok (s : fstate C) ip n : ftxn s [] -> f_icache s !! ip = Some n -> 0 <= i_inum n < sb_ninodes (f_sb s) -> room s 1 ->
  exists s', iupdate ip s = Ok tt s' /\ fstep s s' [] (upd (fview s) (IBLOCK (i_inum n) (f_sb s))
    (print_dinode n (fview s (IBLOCK (i_inum n) (f_sb s))) (64 * (i_inum n mod IPB)))) 1.
Proof.
  intros T Hn Hi R. destruct (iblock_range _ _ _ _ _ (ft_layout _ _ T) Hi) as (_ & Hh & Hr). set (b := IBLOCK _ _) in *.
  destruct (f_update s [] b (fun d => print_dinode n d (64 * (i_inum n mod IPB))) T (not_elem_of_nil b) Hh Hr R) as (s' & Run & F).
  exists s'. split; [|exact F]. unfold iupdate. rewrite (bind_ok _ _ _ _ _ (get_inode_ok s ip n Hn)), (bind_ok _ _ _ _ _ (eq_refl : gsb s = Ok (f_sb s) s)).
  exact Run.
Qed.

(** ** Files *)

Record file_ok (s : fstate C) (ip : nat) (n : inode) : Prop := {
  fo_lookup : f_icache s !! ip = Some n;
  fo_blocks : blocks_ok (fview s) (f_sb s) (i_addrs n);
  fo_size : 0 <= i_size n <= MAXFILE * BSIZE;
  fo_mapped : forall bn, 0 <= bn -> bn * BSIZE < i_size n -> faddr (fview s) (i_addrs n) bn <> 0;
  fo_inum : 0 <= i_inum n < sb_ninodes (f_sb s)
}.

Lemma readi_quiet dev_read (s : fstate C) ip n off cnt : fquiet s [] -> file_ok s ip n -> room s 1 -> i_type n <> T_DEV ->
  0 <= off <= i_size n -> 0 <= cnt -> off + cnt < two32 ->
  let m := Z.min cnt (i_size n - off) in
  exists s', readi dev_read ip off cnt s = Ok (m, map (content (fview s) (i_addrs n)) (seqZ off m)) s' /\ fmove s s' [].
Proof.
  intros T [Hn B Hsz Hm Hi] R Ht Hoff Hcnt Hov m.
  destruct (readi_loop_quiet (S (Z.to_nat m)) s ip n off m T Hn B R) as (s' & Run & F); try lia.
  { intros bn Hb Hlt. apply Hm; lia. }
  exists s'. split; [|exact F]. unfold readi. rewrite (bind_ok _ _ _ _ _ (get_inode_ok s ip n Hn)), (proj2 (Z.eqb_neq _ _)) by exact Ht.
  rewrite (u32_small (off + cnt)), (proj2 (Z.ltb_ge (i_size n) off)), (proj2 (Z.ltb_ge (off + cnt) off)) by lia. cbn [orb].
  assert (Em : (if i_size n <? off + cnt then i_size n - off else cnt) = m) by (destruct (Z.ltb_spec (i_size n) (off + cnt)); unfold m; lia).
  cbv zeta. rewrite Em, (bind_ok _ _ _ _ _ Run). unfold ret. rewrite s32_small; [reflexivity|].
  change (MAXFILE * BSIZE) with 71680 in Hsz. unfold two31. lia.
Qed.

Lemma readi_ok dev_read (s : fstate C) ip n off cnt : ftxn s [] -> file_ok s ip n -> room s 1 -> i_type n <> T_DEV ->
  0 <= off <= i_size n -> 0 <= cnt -> off + cnt < two32 ->
  let m := Z.min cnt (i_size n - off) in
  exists s', readi dev_read ip off cnt s = Ok (m, map (content (fview s) (i_addrs n)) (seqZ off m)) s' /\ fstep s s' [] (fview s) 0.
Proof. intros T Hf R Ht Ho Hc Hov. destruct (readi_quiet dev_read s ip n off cnt (ftxn_quiet _ _ T) Hf R Ht Ho Hc Hov) as (s' & Run & F). eauto using fmove_step. Qed.

(** The end of [writei]: a larger size is recorded. *)
Lemma grow_size (s : fstate C) ip n cnt e : ftxn s [] -> f_icache s !! ip = Some n -> 0 <= i_inum n < sb_ninodes (f_sb s) -> room s 1 ->
  (cnt <= 0 -> e <= i_size n) -> let sz := Z.max (i_size n) e in
  exists s', (if (0 <? cnt) && (i_size n <? e) then put_inode ip (with_size e n) ;;; iupdate ip else ret tt) s = Ok tt s' /\
    ftxn s' [] /\ fsame s s' /\ f_icache s' = <[ip := with_size sz n]> (f_icache s) /\
    (forall b, b < sb_inodestart (f_sb s) \/ sb_bmapstart (f_sb s) <= b -> fview s' b = fview s b) /\ flogged s <= flogged s' <= flogged s + 1.
Proof.
  intros T Hn Hi R Hc sz. destruct (Z.ltb_spec 0 cnt), (Z.ltb_spec (i_size n) e); cbn [andb].
  2-4: exists s; assert (with_size sz n = n) as -> by (unfold sz; rewrite Z.max_l by lia; now destruct n);
    rewrite list_insert_id by exact Hn; split_and!; auto using fsame_refl; lia.
  set (n2 := with_size e n). set (s2 := set_ic (<[ip := n2]> (f_icache s)) s).
  destruct (iupdate_ok s2 ip n2 (ftxn_ic _ _ _ T)) as (s3 & R3 & F3); [now apply (lookup_put _ ip n) | exact Hi | exact R|].
  exists s3. assert (sz = e) as -> by (unfold sz; lia). split_and!; auto; try apply F3.
  - pose proof (fp_same _ _ _ _ _ F3) as [K E]. now constructor.
  - intros b Hb. rewrite (fp_view _ _ _ _ _ F3). unfold upd. rewrite (proj2 (Z.eqb_neq _ _)); [reflexivity|].
    destruct (iblock_range _ _ _ _ _ (ft_layout _ _ T) Hi). cbn. lia.
Qed.

(** Blocks agree outside the inode blocks. *)
Lemma same_but_inodes sb st sz nb V V' a : layout sb st sz nb -> (forall b, b < sb_inodestart sb \/ sb_bmapstart sb <= b -> V' b = V b) ->
  blocks_ok V sb a -> blocks_ok V' sb a /\ (forall q, faddr V' a q = faddr V a q) /\ (forall b, 0 <= b < sb_size sb -> used V' sb b = used V sb b) /\
  (forall o, 0 <= o < MAXFILE * BSIZE -> content V' a o = content V a o).
Proof.
  intros L E B. pose proof (datastart_pos _ _ _ _ L). destruct (ly_bmap _ _ _ _ L) as [L6 L7].
  assert (Hbd : sb_bmapstart sb <= datastart sb) by (unfold datastart; assert (0 <= sb_size sb / BPB) by (apply Z.div_pos; [lia | apply BPB_pos]); lia).
  assert (EU : forall b, 0 <= b < sb_size sb -> used V' sb b = used V sb b).
  { intros b Hb. apply used_ext, E. destruct (bblock_range _ _ _ _ L b Hb). lia. }
  destruct (blocks_frame sb V V' a B) as [B' Ef].
  { intros Hn. apply E. destruct (bo_ind _ _ _ B); lia. } { intros b Hb. rewrite EU by lia. auto. }
  split_and!; auto. apply (content_frame sb); auto. intros bn Hbn Hn. apply E. destruct (bo_addr _ _ _ B bn Hbn); lia.
Qed.

Lemma writei_ok dev_write (s : fstate C) ip n src off cnt : ftxn s [] -> bitmap_ok (fview s) (f_sb s) [] -> file_ok s ip n -> i_type n <> T_DEV ->
  0 <= off <= i_size n -> 0 <= cnt -> off + cnt <= MAXFILE * BSIZE ->
  let k := blocks_touched off cnt in room s (6 * k + 1) -> 2 * k <= frees (fview s) (f_sb s) ->
  exists s' n', writei dev_write ip src off cnt s = Ok cnt s' /\ ftxn s' [] /\ fsame s s' /\ bitmap_ok (fview s') (f_sb s) [] /\ file_ok s' ip n' /\
    f_icache s' = <[ip := n']> (f_icache s) /\ i_size n' = Z.max (i_size n) (off + cnt) /\
    n' = with_size (i_size n') (with_addrs (i_addrs n') n) /\
    (forall o, 0 <= o < MAXFILE * BSIZE -> content (fview s') (i_addrs n') o =
      if (off <=? o) && (o <? off + cnt) then src (o - off) else content (fview s) (i_addrs n) o) /\
    (forall b, datastart (f_sb s) <= b < sb_size (f_sb s) -> used (fview s) (f_sb s) b = true -> outside (fview s) (i_addrs n) b -> fview s' b = fview s b) /\
    flogged s <= flogged s' <= flogged s + (6 * k + 1).
Proof.
  intros T Bm [Hn B Hsz Hm Hi] Ht Hoff Hcnt Hmax k R Hfr. pose proof (ft_layout _ _ T) as L. pose proof (datastart_pos _ _ _ _ L) as Hp.
  destruct (writei_loop_ok (S (Z.to_nat cnt)) s ip n src 0 off cnt T Hn Bm B) as (s1 & a1 & R1 & W); rewrite ?Z.sub_0_r in *; fold k; try lia.
  { apply (room_weaken s _ _ R). lia. }
  set (n1 := with_addrs a1 n). assert (Hn1 : f_icache s1 !! ip = Some n1) by (rewrite (wr_icache _ _ _ _ _ _ _ _ W); now apply (lookup_put _ ip n)).
  pose proof (fs_sb _ _ (wr_same _ _ _ _ _ _ _ _ W)) as S1.
  destruct (grow_size s1 ip n1 cnt (off + cnt)) as (s2 & R2 & T2 & F2 & I2 & V2 & Lg2); auto; try (cbn; rewrite ?S1; lia); [apply W | |].
  { apply (room_same s s1 (6 * k)); [apply W | apply W | exact R]. }
  rewrite S1 in V2. set (n2 := with_size (Z.max (i_size n1) (off + cnt)) n1) in *.
  destruct (same_but_inodes _ _ _ _ (fview s1) (fview s2) a1 L V2 (wr_blocks _ _ _ _ _ _ _ _ W)) as (B2 & E2 & U2 & C2).
  assert (F12 : fsame s s2) by (apply (fsame_trans s s1); [apply W | exact F2]). pose proof (fs_sb _ _ F12) as S2.
  assert (Hc2 : forall o, 0 <= o < MAXFILE * BSIZE -> content (fview s2) a1 o = if (off <=? o) && (o <? off + cnt) then src (o - off) else content (fview s) (i_addrs n) o)
    by (intros o Ho; rewrite C2, (wr_content _ _ _ _ _ _ _ _ W) by exact Ho; now rewrite !Z.add_0_l).
  change (MAXFILE * BSIZE) with 71680 in *. assert (Hu : u32 (off + cnt) = off + cnt) by (apply u32_small; unfold two32; lia).
  exists s2, n2. split_and!; auto; try reflexivity.
  - unfold writei. rewrite (bind_ok _ _ _ _ _ (get_inode_ok s ip n Hn)), (proj2 (Z.eqb_neq _ _)) by exact Ht. rewrite Hu.
    rewrite (proj2 (Z.ltb_ge (i_size n) off)), (proj2 (Z.ltb_ge (off + cnt) off)) by lia. cbn [orb].
    change (MAXFILE * BSIZE) with 71680. rewrite (proj2 (Z.ltb_ge 71680 (off + cnt))) by lia.
    rewrite (bind_ok _ _ _ _ _ R1), (bind_ok _ _ _ _ _ (get_inode_ok s1 ip n1 Hn1)), (bind_ok _ _ _ _ _ R2). unfold ret. rewrite s32_small; [reflexivity | unfold two31; lia].
  - pose proof (ly_bmap _ _ _ _ L). constructor; [|intros b Hb; now apply not_elem_of_nil in Hb]. intros b Hb. rewrite U2 by lia.
    now apply (bm_meta _ _ _ (wr_bitmap _ _ _ _ _ _ _ _ W)).
  - constructor; rewrite ?S2; [rewrite I2; now apply (lookup_put _ ip n1) | exact B2 | cbn; change (MAXFILE * BSIZE) with 71680; lia | | exact Hi].
    intros bn Hbn Hlt. cbn [n2 with_size i_addrs i_size] in *. rewrite E2. replace bn with (bn * BSIZE / BSIZE) by (apply Z.div_mul; discriminate).
    apply (wr_mapped _ _ _ _ _ _ _ _ W); [change (MAXFILE * BSIZE) with 71680; unfold BSIZE in *; cbn in Hlt; lia|]. rewrite Z.div_mul by discriminate.
    destruct (Z.lt_ge_cases (bn * BSIZE) (i_size n)) as [Hl|Hg]; [right; now apply Hm | left].
    rewrite (proj2 (Z.leb_le off _)), (proj2 (Z.ltb_lt _ (off + cnt))) by (cbn in Hlt; lia). reflexivity.
  - rewrite I2, (wr_icache _ _ _ _ _ _ _ _ W). apply list_insert_insert_eq.
  - intros b Hb Hub Ho. destruct (wr_frame _ _ _ _ _ _ _ _ W b) as [Hv _]; auto; [right; lia|]. rewrite <- Hv. apply V2. right.
    assert (0 <= sb_size (f_sb s) / BPB) by (apply Z.div_pos; [lia | apply BPB_pos]). unfold datastart in Hb. lia.
  - pose proof (wr_logged _ _ _ _ _ _ _ _ W). lia.
  - pose proof (wr_logged _ _ _ _ _ _ _ _ W). lia.
Qed.

(** [readi] of a regular file or directory returns the bytes of the file from
    the offset on, as many as asked for or as there are, and changes neither a
    block nor the log nor an inode; an offset past the end or a count that
    overflows gives -1. *)
Theorem readi_reads dev_read (s : fstate C) ip n off cnt : fquiet s [] -> file_ok s ip n -> room s 1 -> i_type n <> T_DEV ->
  0 <= off < two32 -> 0 <= cnt < two32 ->
  (i_size n < off \/ two32 <= off + cnt -> readi dev_read ip off cnt s = Ok (-1, []) s) /\
  (off <= i_size n -> off + cnt < two32 ->
    let m := Z.min cnt (i_size n - off) in
    exists s', readi dev_read ip off cnt s = Ok (m, map (content (fview s) (i_addrs n)) (seqZ off m)) s' /\
      fquiet s' [] /\ (forall b, fview s' b = fview s b) /\ flogged s' = flogged s /\ f_icache s' = f_icache s).
Proof.
  intros T Hf R Ht Hoff Hcnt. split.
  - intros Hbad. unfold readi. rewrite (bind_ok _ _ _ _ _ (get_inode_ok s ip n (fo_lookup _ _ _ Hf))), (proj2 (Z.eqb_neq _ _)) by exact Ht.
    destruct (Z.ltb_spec (i_size n) off) as [|Hle]; [reflexivity|]. cbn [orb].
    assert ((u32 (off + cnt) <? off) = true) as ->; [|reflexivity]. apply Z.ltb_lt. unfold two32 in *. word_lia.
  - intros Hle Hov m. destruct (readi_quiet dev_read s ip n off cnt T Hf R Ht ltac:(lia) ltac:(lia) Hov) as (s' & Run & F).
    exists s'. split_and!; [exact Run | apply F..].
Qed.

(** C3: [writei] writes.  At an offset up to the end of a file, with room in the
    log and enough free blocks, it returns the count, the file keeps its
    invariant (its blocks are marked as used and all distinct), has grown to hold
    the written range, holds the written bytes there and the old ones elsewhere,
    and no block of another file has changed; reading the range back returns what
    was written. *)
Theorem writei_readi dev_read dev_write (s : fstate C) ip n src off cnt : ftxn s [] -> bitmap_ok (fview s) (f_sb s) [] -> file_ok s ip n ->
  i_type n <> T_DEV -> 0 <= off <= i_size n -> 0 <= cnt -> off + cnt <= MAXFILE * BSIZE ->
  room s (6 * blocks_touched off cnt + 2) -> 2 * blocks_touched off cnt <= frees (fview s) (f_sb s) ->
  exists s' n', writei dev_write ip src off cnt s = Ok cnt s' /\ ftxn s' [] /\ bitmap_ok (fview s') (f_sb s) [] /\
    file_ok s' ip n' /\ i_size n' = Z.max (i_size n) (off + cnt) /\
    (forall o, 0 <= o < MAXFILE * BSIZE -> content (fview s') (i_addrs n') o =
      if (off <=? o) && (o <? off + cnt) then src (o - off) else content (fview s) (i_addrs n) o) /\
    (forall b, datastart (f_sb s) <= b < sb_size (f_sb s) -> used (fview s) (f_sb s) b = true -> outside (fview s) (i_addrs n) b -> fview s' b = fview s b) /\
    exists s'', readi dev_read ip off cnt s' = Ok (cnt, map src (seqZ 0 cnt)) s''.
Proof.
  intros T Bm Hf Ht Hoff Hcnt Hmax R Hfr.
  destruct (writei_ok dev_write s ip n src off cnt T Bm Hf Ht Hoff Hcnt Hmax) as (s' & n' & Rw & T' & F' & Bm' & Hf' & I' & Sz' & Ty' & C' & Fr' & Lg'); auto.
  { apply (room_weaken s _ _ R). lia. }
  assert (R' : room s' 1) by (apply (room_same s s' (6 * blocks_touched off cnt + 1)); [exact F' | apply Lg' | apply (room_weaken s _ _ R); lia]).
  destruct (readi_ok dev_read s' ip n' off cnt T' Hf' R') as (s'' & Rr & _); try lia; try (change (MAXFILE * BSIZE) with 71680 in *; unfold two32; lia).
  { rewrite Ty'. exact Ht. }
  exists s', n'. split_and!; auto. exists s''. rewrite Rr. assert (Em : Z.min cnt (i_size n' - off) = cnt) by lia. rewrite Em. do 2 f_equal.
  assert (Es : seqZ off cnt = map (Z.add off) (seqZ 0 cnt)) by (rewrite <- (Z.add_0_r off) at 1; symmetry; apply (fmap_add_seqZ off 0 cnt)).
  rewrite Es, map_map. apply map_seqZ_ext. intros q Hq. rewrite C' by (change (MAXFILE * BSIZE) with 71680 in *; lia).
  rewrite (proj2 (Z.leb_le off _)), (proj2 (Z.ltb_lt _ (off + cnt))) by lia. cbn [andb]. f_equal. lia.
Qed.

End Files.

(** ** A small file system on the buffer cache

    100 blocks, 8 inodes; inode 1 is a file of 5 bytes in block 35, held in entry
    0 of the inode cache. *)

Definition sample_fs_sb : superblock := mkSb 100 65 8 30 2 32 34.
Definition sample_bitmap : block := fun i => if i <? 0 then 0 else if i <? 4 then 255 else if i =? 4 then 15 else 0.
Definition sample_fs_disk : Z -> block :=
  upd (upd sample_disk 34 sample_bitmap) 35 (fun i => if (0 <=? i) && (i <? 5) then 104 + i else 0).
Definition sample_inode : inode := mkInode 1 1 1 (Bio.mkSleep 1 7) 1 T_FILE 0 0 1 5 (upd (fun _ => 0) 0 35).
Definition sample_fs : fstate Bio.bstate :=
  mkF (mkL (set_outstanding 1 sample_log) (Bio.binit sample_fs_disk 100)) sample_fs_sb [sample_inode].

#[local] Instance sample_cache : BlockCache Bio.bstate := bio_cache 7.
#[local] Instance sample_spec : CacheSpec Bio.bstate := bio_spec 7.
#[local] Instance sample_ok : BlockCacheOk Bio.bstate := bio_ok 7.

Lemma sample_layout : layout sample_fs_sb 2 30 100.
Proof. constructor; vm_compute; intuition discriminate. Qed.

Lemma sample_view : veq (fview sample_fs) sample_fs_disk.
Proof. intros b. apply (Bio.binit_spec 7). Qed.

Lemma sample_fs_disk_ok : disk_ok 2 30 100 sample_fs_disk.
Proof.
  apply (disk_ok_ext 2 30 100 sample_disk); [exact sample_disk_ok | reflexivity | reflexivity].
Qed.

Lemma sample_ftxn : ftxn sample_fs [].
Proof.
  constructor; [|cbn; lia | exact sample_layout].
  apply (txn_outstanding sample_log (Bio.binit sample_fs_disk 100) [] ∅ 1 0).
  exact (boot_txn 2 30 100 sample_fs_disk (fun _ => 0) sample_fs_disk_ok eq_refl).
Qed.

Lemma sample_bitmap_ok : bitmap_ok (fview sample_fs) sample_fs_sb [].
Proof.
  rewrite sample_view. constructor; [|intros b Hb; now apply not_elem_of_nil in Hb]. intros b Hb.
  assert (Hall : forallb (used sample_fs_disk sample_fs_sb) (seqZ 0 35) = true) by (vm_compute; reflexivity).
  rewrite forallb_forall in Hall. apply Hall, list_elem_of_In, elem_of_seqZ. change (datastart sample_fs_sb) with 35 in Hb. lia.
Qed.

Lemma sample_fs_room k : k < 29 -> room sample_fs k.
Proof. intros Hk. change (0 + k < 30 /\ 0 + k <= 30 - 1). lia. Qed.

Lemma sample_frees : frees (fview sample_fs) sample_fs_sb = 64.
Proof. rewrite sample_view. vm_compute. reflexivity. Qed.

Lemma sample_faddr V q : faddr V (upd (fun _ => 0) 0 35) q = if q =? 0 then 35 else 0.
Proof. rewrite faddr_direct by (unfold NDIRECT; lia). destruct (q =? 0); [reflexivity|]. unfold faddr. now destruct (q <? NDIRECT). Qed.

Lemma sample_file_ok : file_ok sample_fs 0 sample_inode.
Proof.
  constructor; cbn [f_icache f_sb sample_fs sample_inode i_addrs i_size i_inum]; [reflexivity | | vm_compute; split; discriminate | | vm_compute; split; [discriminate | reflexivity]].
  - constructor.
    + left. reflexivity.
    + intros bn Hbn. rewrite !sample_faddr. destruct (bn =? 0); [|now left]. right. rewrite sample_view. vm_compute. intuition discriminate.
    + intros bn bn' _ _. rewrite !sample_faddr. destruct (Z.eqb_spec bn 0), (Z.eqb_spec bn' 0); lia.
  - intros bn H1 H2. rewrite sample_faddr. unfold BSIZE in H2. assert (bn = 0) as -> by lia. discriminate.
Qed.

Lemma balloc_bfree_witness : exists s1, balloc sample_fs = Ok 36 s1 /\ used (fview sample_fs) sample_fs_sb 36 = false /\ fview s1 36 = (fun _ => 0).
Proof.
  pose proof (balloc_bfree sample_fs sample_ftxn sample_bitmap_ok (sample_fs_room 3 ltac:(lia))) as Hb. cbv zeta in Hb.
  destruct (balloc sample_fs) as [b s1|e|e|] eqn:E; [| destruct Hb as [_ Hall] | contradiction | contradiction].
  - destruct Hb as (Hb1 & Hb2 & Hb3 & _ & _ & _ & Hz & _). assert (Eb : b = 36).
    2: { rewrite Eb in Hb2, Hz. rewrite Eb. exists s1. split; [reflexivity|]. split; [exact Hb2 | exact Hz]. }
    clear E Hz. destruct (Z.lt_total b 36) as [Hlt|[Eb|Hgt]]; [|exact Eb|].
    + exfalso. change (datastart _) with 35 in Hb1. assert (Eb : b = 35) by lia. rewrite Eb, sample_view in Hb2. vm_compute in Hb2. discriminate.
    + exfalso. specialize (Hb3 36 ltac:(lia)). rewrite sample_view in Hb3. vm_compute in Hb3. discriminate.
  - exfalso. specialize (Hall 36 ltac:(cbn; lia)). rewrite sample_view in Hall. vm_compute in Hall. discriminate.
Defined.

Definition no_dev_read : Z -> option (nat -> Z -> M (fstate Bio.bstate) (Z * list Z)) := fun _ => None.
Definition no_dev_write : Z -> option (nat -> (Z -> Z) -> Z -> M (fstate Bio.bstate) Z) := fun _ => None.

Lemma readi_reads_witness : readi no_dev_read 0 6 1 sample_fs = Ok (-1, []) sample_fs /\
  exists s', readi no_dev_read 0 1 100 sample_fs = Ok (4, map (content (fview sample_fs) (i_addrs sample_inode)) (seqZ 1 4)) s'.
Proof.
  destruct (readi_reads no_dev_read sample_fs 0 sample_inode 6 1 (ftxn_quiet _ _ sample_ftxn) sample_file_ok (sample_fs_room 1 ltac:(lia))) as [Hbad _]; try (vm_compute; intuition discriminate).
  destruct (readi_reads no_dev_read sample_fs 0 sample_inode 1 100 (ftxn_quiet _ _ sample_ftxn) sample_file_ok (sample_fs_room 1 ltac:(lia))) as [_ Hok]; try (vm_compute; intuition discriminate).
  split; [apply Hbad; left; cbn; lia|]. destruct Hok as (s' & Run & _); [cbn; lia | vm_compute; reflexivity|].
  change (Z.min 100 (i_size sample_inode - 1)) with 4 in Run. exists s'. exact Run.
Defined.

(** 600 bytes at offset 3: in block 35 and in a new block. *)
Lemma writei_readi_witness : exists s' s'', writei no_dev_write 0 (fun i => 65 + i) 3 600 sample_fs = Ok 600 s' /\
  readi no_dev_read 0 3 600 s' = Ok (600, map (fun i => 65 + i) (seqZ 0 600)) s''.
Proof.
  destruct (writei_readi no_dev_read no_dev_write sample_fs 0 sample_inode (fun i => 65 + i) 3 600 sample_ftxn sample_bitmap_ok sample_file_ok)
    as (s' & n' & Rw & _ & _ & _ & _ & _ & _ & s'' & Rr).
  - discriminate.
  - cbn. lia.
  - lia.
  - vm_compute. discriminate.
  - apply sample_fs_room. vm_compute. reflexivity.
  - cbn [f_sb sample_fs]. rewrite sample_frees. vm_compute. discriminate.
  - exists s', s''. split; [exact Rw | exact Rr].
Defined.
