(* ===== verification/Icache.v ===== *)
(** The inode cache: references to inodes and their locks, [iget] to [namex] of
    [src/xv6/xv6-public/fs.c].

    The [ref] field of an entry of [icache] counts the pointers to it, and the
    sleeping lock of an entry is held or free.  Each operation is shown to add what
    it should to the two, on every path. *)

From stdpp Require Import gmap.
From S2P Require Import Prelude Mem Block Bio Log Txn Fs Balloc Inode.

(** The quantities kept for entry [j]: its [ref] field, and 1 when it is locked. *)
Inductive ikey := Ref (j : nat) | Lck (j : nat).

#[global] Instance ikey_eq_dec : EqDecision ikey.
Proof. solve_decision. Defined.

Definition ilocked (n : inode) : Z := if truth (Bio.sl_locked (i_lock n)) then 1 else 0.

Definition ibal (l : list inode) (k : ikey) : Z :=
  match k with
  | Ref j => match l !! j with Some n => i_ref n | None => 0 end
  | Lck j => match l !! j with Some n => ilocked n | None => 0 end
  end.

(** 1 for the key [k] itself. *)
Definition unit_of (k k' : ikey) : Z := if decide (k = k') then 1 else 0.

Section Icache.
Context {C : Type} `{BlockCache C}.
Variable pid : Z.

Abbreviation ishifts := (ledger (fun _ : fstate C => True) (fun s => ibal (f_icache s))).
Abbreviation still := (fun _ _ => 0).

(** ** Finding an entry *)

Definition live (dev inum : Z) (n : inode) : Prop := 0 < i_ref n /\ i_dev n = dev /\ i_inum n = inum.

(** A free entry that is taken for an inode. *)
Definition recycled (dev inum : Z) (n : inode) : inode :=
  mkInode dev inum 1 (i_lock n) 0 (i_type n) (i_major n) (i_minor n) (i_nlink n) (i_size n) (i_addrs n).

Lemma live_bool dev inum n : (0 <? i_ref n) && (i_dev n =? dev) && (i_inum n =? inum) = true <-> live dev inum n.
Proof. unfold live. rewrite !andb_true_iff, Z.ltb_lt, !Z.eqb_eq. tauto. Qed.

Lemma iget_scan_ok dev inum l : forall i empty,
  match iget_scan l i dev inum empty with
  | (Some ip, _) => exists k n, ip = (i + k)%nat /\ l !! k = Some n /\ live dev inum n
  | (None, e) => (forall k n, l !! k = Some n -> ~ live dev inum n) /\
      match empty with
      | Some _ => e = empty
      | None => match e with
                | Some ip => exists k n, ip = (i + k)%nat /\ l !! k = Some n /\ i_ref n = 0
                | None => forall k n, l !! k = Some n -> i_ref n <> 0
                end
      end
  end.
Proof.
  induction l as [|n l IH]; intros i empty; cbn [iget_scan]; [destruct empty; split; auto; intros k m; discriminate|].
  destruct (_ && _ && _) eqn:E; [apply live_bool in E; exists 0%nat, n; rewrite Nat.add_0_r; auto|].
  assert (Hn : ~ live dev inum n) by (rewrite <- live_bool, E; discriminate). clear E.
  specialize (IH (S i) (match empty with None => if i_ref n =? 0 then Some i else None | e => e end)).
  destruct (iget_scan l (S i) dev inum _) as [[ip|] e].
  { destruct IH as (k & m & -> & Hk & Hl). exists (S k), m. split; [lia | auto]. }
  destruct IH as [Hall He]. split; [intros [|k] m Hk; [injection Hk as <-; exact Hn | exact (Hall k m Hk)]|].
  destruct empty as [e0|]; [exact He|]. destruct (Z.eqb_spec (i_ref n) 0) as [Hz|Hz].
  - subst e. exists 0%nat, n. rewrite Nat.add_0_r. auto.
  - destruct e as [ip|]; [destruct He as (k & m & -> & Hk & Hr); exists (S k), m; split; [lia | auto]|].
    intros [|k] m Hk; [injection Hk as <-; exact Hz | exact (He k m Hk)].
Qed.

(** [iget]: the entry that already holds the inode, or a free one, or a panic
    when there is neither. *)
Lemma iget_ok dev inum (s : fstate C) :
  (iget dev inum s = Panic "iget: no inodes" /\ forall k n, f_icache s !! k = Some n -> ~ live dev inum n /\ i_ref n <> 0) \/
  exists ip n n', iget dev inum s = Ok ip (set_ic (<[ip := n']> (f_icache s)) s) /\ f_icache s !! ip = Some n /\
    ((live dev inum n /\ n' = with_ref (i_ref n + 1) n) \/
     (i_ref n = 0 /\ (forall k m, f_icache s !! k = Some m -> ~ live dev inum m) /\ n' = recycled dev inum n)).
Proof.
  pose proof (iget_scan_ok dev inum (f_icache s) 0 None) as Hs. unfold iget. rewrite (bind_ok _ _ _ _ _ (eq_refl : gets f_icache s = Ok (f_icache s) s)).
  destruct (iget_scan _ _ _ _ _) as [[ip|] [e|]]; [| | | left; split; [reflexivity | intros k n Hk; split; [now apply (proj1 Hs k n) | now apply (proj2 Hs k n)]]].
  - destruct Hs as (k & n & -> & Hk & Hl). right. exists k, n, (with_ref (i_ref n + 1) n). cbn [Nat.add]. now rewrite (bind_ok _ _ _ _ _ (get_inode_ok s k n Hk)); auto.
  - destruct Hs as (k & n & -> & Hk & Hl). right. exists k, n, (with_ref (i_ref n + 1) n). cbn [Nat.add]. now rewrite (bind_ok _ _ _ _ _ (get_inode_ok s k n Hk)); auto.
  - destruct Hs as (Hall & k & n & -> & Hk & Hr). right. exists k, n, (recycled dev inum n). cbn [Nat.add]. rewrite (bind_ok _ _ _ _ _ (get_inode_ok s k n Hk)). split_and!; auto.
Qed.

(** ** The primitive steps *)

Lemma ibal_insert l ip n n' k : l !! ip = Some n ->
  ibal (<[ip := n']> l) k = ibal l k + (i_ref n' - i_ref n) * unit_of (Ref ip) k + (ilocked n' - ilocked n) * unit_of (Lck ip) k.
Proof.
  intros L. pose proof (lookup_lt_Some _ _ _ L) as Hlt. unfold unit_of. destruct k as [j|j]; cbn [ibal]; destruct (decide (j = ip)) as [->|Hne].
  1, 3: rewrite list_lookup_insert_eq, L by exact Hlt; repeat destruct (decide _); try congruence; lia.
  all: rewrite list_lookup_insert_ne by congruence; repeat destruct (decide _); try congruence; lia.
Qed.

Lemma ishifts_same {A} (m : M (fstate C) A) : (forall s a s', m s = Ok a s' -> f_icache s' = f_icache s) -> ishifts m still.
Proof. intros Hm s a s' E _. rewrite (Hm _ _ _ E). split; [exact I|intros; lia]. Qed.

Lemma onlog_icache {A} (m : M (lstate C) A) (s : fstate C) a s' : onlog m s = Ok a s' -> f_icache s' = f_icache s.
Proof. unfold onlog, zoom. destruct (m _); try discriminate. now intros [= <- <-]. Qed.

Lemma ishifts_onlog {A} (m : M (lstate C) A) : ishifts (onlog m) still.
Proof. apply ishifts_same. intros s a s'. apply onlog_icache. Qed.

Lemma ishifts_get ip : ishifts (get_inode ip) still.
Proof. apply ishifts_same. intros s a s'. unfold get_inode. destruct (_ !! _); [now intros [= <- <-]|discriminate]. Qed.

Lemma get_inode_inv ip (s : fstate C) n s' : get_inode ip s = Ok n s' -> s' = s /\ f_icache s !! ip = Some n.
Proof. unfold get_inode. destruct (_ !! _); [|discriminate]. intros [= <- <-]. auto. Qed.

(** A change of an entry that was just read. *)
Lemma put_same ip n n' (s : fstate C) u s' : put_inode ip n' s = Ok u s' -> f_icache s !! ip = Some n -> i_ref n' = i_ref n -> i_lock n' = i_lock n ->
  forall k, ibal (f_icache s') k = ibal (f_icache s) k.
Proof. intros E L Hr Hl k. injection E as <- <-. cbn [f_icache]. unfold ilocked. rewrite (ibal_insert _ _ n) by exact L. unfold ilocked. rewrite Hr, Hl. lia. Qed.

Lemma ishifts_set {A} ip (g : inode -> inode) (k : inode -> M (fstate C) A) e : (forall n, i_ref (g n) = i_ref n /\ i_lock (g n) = i_lock n) ->
  (forall n, ishifts (k n) e) -> ishifts (n <- get_inode ip ;; put_inode ip (g n) ;;; k n) e.
Proof.
  intros G Hk s a s' E _. apply bind_inv_ok in E as (n & s1 & E1 & E). apply get_inode_inv in E1 as [-> L]. apply bind_inv_ok in E as (u & s2 & E2 & E).
  destruct (Hk n _ _ _ E I) as [_ R]. split; [exact I|]. intros j. rewrite R. now rewrite (put_same ip n _ _ _ _ E2 L) by apply G.
Qed.

Lemma ishifts_set_last ip (g : inode -> inode) : (forall n, i_ref (g n) = i_ref n /\ i_lock (g n) = i_lock n) ->
  ishifts (n <- get_inode ip ;; put_inode ip (g n)) still.
Proof.
  intros G s a s' E _. apply bind_inv_ok in E as (n & s1 & E1 & E). apply get_inode_inv in E1 as [-> L].
  split; [exact I|]. intros j. rewrite (put_same ip n _ _ _ _ E L) by apply G. lia.
Qed.

#[local] Hint Resolve ishifts_onlog ishifts_get : ledger.

(** As [still], with changes of an entry that is read first. *)
Ltac istill :=
  repeat first [solve [auto with ledger]
               |apply ishifts_onlog
               |apply ishifts_set; [intros; split; reflexivity|intros ?]
               |apply ishifts_set_last; intros; split; reflexivity
               |apply ledger_still; [|intros ?]
               |progress cbv zeta
               |match goal with
                | |- ledger _ _ (if ?b then _ else _) _ => destruct b
                | |- ledger _ _ (match ?x with _ => _ end) _ => destruct x
                end
               |apply ledger_gets].

Lemma balloc_loop_still fuel : forall b, ishifts (balloc_loop fuel b) still.
Proof. induction fuel as [|fuel IH]; intros b; cbn [balloc_loop]; unfold bzero; istill. Qed.
Lemma balloc_still : ishifts balloc still.
Proof. unfold balloc. istill. apply balloc_loop_still. Qed.
Lemma bfree_still b : ishifts (bfree b) still.
Proof. unfold bfree. istill. Qed.
#[local] Hint Resolve balloc_still bfree_still : ledger.

Lemma iupdate_still ip : ishifts (iupdate ip) still.
Proof. unfold iupdate. istill. Qed.
Lemma bmap_still ip bn : ishifts (bmap ip bn) still.
Proof. unfold bmap. istill. Qed.
#[local] Hint Resolve iupdate_still bmap_still : ledger.

Lemma itrunc_direct_still k ip : forall i, ishifts (itrunc_direct k i ip) still.
Proof. induction k as [|k IH]; intros i; cbn [itrunc_direct]; istill. Qed.
Lemma itrunc_indirect_still k bp : forall j, ishifts (itrunc_indirect k j bp) still.
Proof. induction k as [|k IH]; intros j; cbn [itrunc_indirect]; istill. Qed.
#[local] Hint Resolve itrunc_direct_still itrunc_indirect_still : ledger.
Lemma itrunc_still ip : ishifts (itrunc ip) still.
Proof. unfold itrunc. istill. Qed.
#[local] Hint Resolve itrunc_still : ledger.

(** ** References and locks *)

Lemma iget_shifts dev inum : ishifts (iget dev inum) (fun ip k => unit_of (Ref ip) k).
Proof.
  intros s ip s' E _. split; [exact I|]. intros k.
  destruct (iget_ok dev inum s) as [[E' _]|(ip' & n & n' & E' & L & D)]; rewrite E in E'; [discriminate|]. injection E' as -> ->.
  cbn [set_ic f_icache]. rewrite (ibal_insert _ _ n) by exact L. destruct D as [(_ & ->)|(Hz & _ & ->)]; unfold ilocked; cbn; lia.
Qed.

Lemma idup_shifts ip : ishifts (idup ip) (fun r k => unit_of (Ref r) k).
Proof.
  intros s r s' E _. split; [exact I|]. intros k. apply bind_inv_ok in E as (n & s1 & E1 & E). apply get_inode_inv in E1 as [-> L].
  apply bind_inv_ok in E as (u & s2 & E2 & E). injection E2 as <- <-. injection E as <- <-.
  cbn [f_icache]. rewrite (ibal_insert _ _ n) by exact L. unfold ilocked. cbn. lia.
Qed.

Lemma iacquire_shifts ip : ishifts (iacquire pid ip) (fun _ k => unit_of (Lck ip) k).
Proof.
  intros s r s' E _. split; [exact I|]. intros k. apply bind_inv_ok in E as (n & s1 & E1 & E). apply get_inode_inv in E1 as [-> L].
  destruct (truth _) eqn:Ht; [discriminate|]. injection E as <- <-. cbn [f_icache]. rewrite (ibal_insert _ _ n) by exact L.
  unfold ilocked. rewrite Ht. cbn. change (truth 1) with true. cbv iota. lia.
Qed.

Lemma irelease_locked ip (s : fstate C) u s' : irelease ip s = Ok u s' -> ibal (f_icache s) (Lck ip) = 1 ->
  forall k, ibal (f_icache s') k = ibal (f_icache s) k - unit_of (Lck ip) k.
Proof.
  intros E Hl k. apply bind_inv_ok in E as (n & s1 & E1 & E). apply get_inode_inv in E1 as [-> L]. injection E as <- <-.
  cbn [f_icache ibal] in *. rewrite L in Hl. rewrite (ibal_insert _ _ n), Hl by exact L. unfold ilocked. cbn. change (truth 0) with false. cbv iota. lia.
Qed.

Lemma ilock_shifts ip : ishifts (ilock pid ip) (fun _ k => unit_of (Lck ip) k).
Proof.
  unfold ilock. apply ledger_still; [auto with ledger|]. intros n0. destruct (i_ref n0 <? 1); [apply ledger_panic|].
  apply (ledger_bind _ _ _ _ _ _ (iacquire_shifts ip)). intros _. apply (ledger_ext _ _ _ still); [|intros; lia].
  intros s r s' E _. split; [exact I|]. intros k. apply bind_inv_ok in E as (n & s1 & E1 & E). apply get_inode_inv in E1 as [-> L].
  destruct (i_valid n =? 0); [|injection E as <- <-; lia]. apply bind_inv_ok in E as (sb & s1 & E1 & E). injection E1 as <- <-.
  apply bind_inv_ok in E as (bp & s1 & E1 & E). apply bind_inv_ok in E as (d & s2 & E2 & E). cbv zeta in E.
  apply bind_inv_ok in E as (u & s3 & E3 & E). apply bind_inv_ok in E as (u' & s4 & E4 & E).
  apply onlog_icache in E1, E2, E3. destruct (i_type _ =? 0); [discriminate|]. injection E as <- <-. rewrite <- E1, <- E2, <- E3 in *.
  rewrite (put_same ip n _ _ _ _ E4 L) by reflexivity. lia.
Qed.

Lemma iunlock_shifts ip : ishifts (iunlock pid ip) (fun _ k => - unit_of (Lck ip) k).
Proof.
  intros s r s' E _. split; [exact I|]. intros k. apply bind_inv_ok in E as (n & s1 & E1 & E). apply get_inode_inv in E1 as [-> L].
  destruct (negb (iholding pid n)) eqn:Hh; [discriminate|]. destruct (i_ref n <? 1); [discriminate|]. cbn [orb] in E.
  unfold iholding in Hh. apply negb_false_iff, andb_prop in Hh as [Hh _].
  rewrite (irelease_locked ip s _ _ E); [lia|]. cbn. rewrite L. unfold ilocked. now rewrite Hh.
Qed.

(** [iput] drops one reference, and leaves the lock as it was, which is free. *)
Lemma iput_shifts ip : ishifts (iput pid ip) (fun _ k => - unit_of (Ref ip) k).
Proof.
  intros s r s' E _. split; [exact I|]. intros k. apply bind_inv_ok in E as (u & s1 & E1 & E).
  assert (L0 : ibal (f_icache s) (Lck ip) = 0).
  { apply bind_inv_ok in E1 as (n & s0 & E0 & E1). apply get_inode_inv in E0 as [-> L]. cbn. rewrite L. unfold ilocked. destruct (truth _); [discriminate|reflexivity]. }
  destruct (iacquire_shifts ip _ _ _ E1 I) as [_ R1]. apply bind_inv_ok in E as (n & s2 & E2 & E). apply get_inode_inv in E2 as [-> L2].
  apply bind_inv_ok in E as (u2 & s3 & E3 & E).
  assert (Hs : ishifts (if truth (i_valid n) && (i_nlink n =? 0) && (i_ref n =? 1) then
     itrunc ip ;;; n <- get_inode ip ;; put_inode ip (with_type 0 n) ;;; iupdate ip ;;; n <- get_inode ip ;; put_inode ip (with_valid 0 n) else ret tt) still) by istill.
  destruct (Hs _ _ _ E3 I) as [_ R3]. apply bind_inv_ok in E as (u3 & s4 & E4 & E).
  pose proof (irelease_locked ip s3 _ _ E4) as R4. rewrite R3, R1, L0 in R4. unfold unit_of in R4 at 1. rewrite decide_True in R4 by reflexivity. specialize (R4 eq_refl).
  apply bind_inv_ok in E as (n5 & s5 & E5 & E). apply get_inode_inv in E5 as [-> L5]. injection E as <- <-. cbn [f_icache].
  rewrite (ibal_insert _ _ n5), R4, R3, R1 by exact L5. unfold ilocked. cbn. lia.
Qed.

Lemma iunlockput_shifts ip : ishifts (iunlockput pid ip) (fun _ k => - unit_of (Lck ip) k - unit_of (Ref ip) k).
Proof.
  unfold iunlockput. apply (ledger_bind _ _ _ _ _ _ (iunlock_shifts ip)). intros _. apply (ledger_ext _ _ _ _ _ (iput_shifts ip)). intros; lia.
Qed.

(** ** Paths

    The devices leave references and locks as they find them; the console unlocks
    the inode while it waits, and locks it again. *)

Variable dev_read : Z -> option (nat -> Z -> M (fstate C) (Z * list Z)).
Variable dev_write : Z -> option (nat -> (Z -> Z) -> Z -> M (fstate C) Z).
Hypothesis dev_read_still : forall major f ip n, dev_read major = Some f -> ishifts (f ip n) still.
Hypothesis dev_write_still : forall major f ip src n, dev_write major = Some f -> ishifts (f ip src n) still.

(** One more reference to the entry that is returned. *)
Definition returned (r : option nat) (k : ikey) : Z := match r with Some ip => unit_of (Ref ip) k | None => 0 end.

Lemma readi_loop_still fuel ip : forall off n, ishifts (readi_loop fuel ip off n) still.
Proof. induction fuel as [|fuel IH]; intros off n; cbn [readi_loop]; istill. Qed.
Lemma writei_loop_still fuel ip src : forall tot off n, ishifts (writei_loop fuel ip src tot off n) still.
Proof. induction fuel as [|fuel IH]; intros tot off n; cbn [writei_loop]; istill. Qed.
#[local] Hint Resolve readi_loop_still writei_loop_still : ledger.

Lemma readi_still ip off n : ishifts (readi dev_read ip off n) still.
Proof.
  unfold readi. apply ledger_still; [auto with ledger|]. intros nd. destruct (i_type nd =? T_DEV); [|istill].
  destruct (_ || _); [istill|]. destruct (dev_read (i_major nd)) as [f|] eqn:E; [exact (dev_read_still _ _ _ _ E)|istill].
Qed.

Lemma writei_still ip src off n : ishifts (writei dev_write ip src off n) still.
Proof.
  unfold writei. apply ledger_still; [auto with ledger|]. intros nd. destruct (i_type nd =? T_DEV).
  - destruct (_ || _); [istill|]. destruct (dev_write (i_major nd)) as [f|] eqn:E; [exact (dev_write_still _ _ _ _ _ E)|istill].
  - destruct (_ || _); [istill|]. destruct (_ <? _); [istill|]. apply ledger_still; [istill|]. intros _.
    intros s a s' E _. split; [exact I|]. intros k. apply bind_inv_ok in E as (n1 & s1 & E1 & E). apply get_inode_inv in E1 as [-> L].
    apply bind_inv_ok in E as (u & s2 & E2 & E). injection E as <- <-. destruct (_ && _); [|injection E2 as <- <-; lia].
    apply bind_inv_ok in E2 as (u2 & s3 & E3 & E2). destruct (iupdate_still ip _ _ _ E2 I) as [_ R].
    rewrite R, (put_same ip n1 _ _ _ _ E3 L) by reflexivity. lia.
Qed.
#[local] Hint Resolve readi_still writei_still : ledger.

Lemma dirlookup_loop_shifts fuel dp name : forall off, ishifts (dirlookup_loop dev_read fuel dp name off) (fun r => returned (fst <$> r)).
Proof.
  induction fuel as [|fuel IH]; intros off; cbn [dirlookup_loop]; [apply ledger_nofuel|]. apply ledger_still; [auto with ledger|]. intros nd.
  destruct (_ <? _); [|now apply ledger_return]. apply ledger_still; [auto with ledger|]. intros r. destruct (negb _); [apply ledger_panic|]. cbv zeta.
  destruct (_ =? 0); [apply IH|]. destruct (_ =? 0); [|apply IH]. apply (ledger_bind _ _ _ _ _ _ (iget_shifts _ _)). intros ip.
  apply ledger_return. intros k. cbn. lia.
Qed.

Lemma dirlookup_shifts dp name : ishifts (dirlookup dev_read dp name) (fun r => returned (fst <$> r)).
Proof.
  unfold dirlookup. apply ledger_still; [auto with ledger|]. intros nd. destruct (negb _); [apply ledger_panic|apply dirlookup_loop_shifts].
Qed.

Lemma dirlink_loop_still fuel dp : forall off, ishifts (dirlink_loop dev_read fuel dp off) still.
Proof. induction fuel as [|fuel IH]; intros off; cbn [dirlink_loop]; istill. Qed.
#[local] Hint Resolve dirlink_loop_still : ledger.

Lemma dirlink_still dp name inum : ishifts (dirlink pid dev_read dev_write dp name inum) still.
Proof.
  unfold dirlink. apply (ledger_bind _ _ _ _ _ _ (dirlookup_shifts dp name)). intros [[ip off]|]; cbn [fmap option_fmap option_map fst returned].
  - apply (ledger_bind _ _ _ _ _ _ (iput_shifts ip)). intros _. apply (ledger_ext _ _ _ _ _ (ledger_ret _ _ _)). intros; lia.
  - apply (ledger_ext _ _ _ still); [istill|intros; lia].
Qed.

Lemma ialloc_loop_shifts fuel type : forall inum, ishifts (ialloc_loop fuel type inum) (fun ip k => unit_of (Ref ip) k).
Proof.
  induction fuel as [|fuel IH]; intros inum; cbn [ialloc_loop]; [apply ledger_nofuel|]. apply ledger_still; [istill|]. intros sb.
  destruct (_ <? _); [|apply ledger_panic]. do 2 (apply ledger_still; [istill|]; intros ?). cbv zeta.
  destruct (_ =? 0); [do 3 (apply ledger_still; [istill|]; intros ?); apply iget_shifts|apply ledger_still; [istill|]; intros ?; apply IH].
Qed.

Lemma ialloc_shifts type : ishifts (ialloc type) (fun ip k => unit_of (Ref ip) k).
Proof. unfold ialloc. apply ledger_still; [istill|]. intros sb. apply ialloc_loop_shifts. Qed.

(** The loop of [namex] exchanges the reference it is given for the one it
    returns, or gives it up; the inodes it locks it unlocks. *)
Lemma namex_loop_shifts fuel parent : forall path ip name,
  ishifts (namex_loop pid dev_read fuel path parent ip name) (fun r k => returned (fst r) k - unit_of (Ref ip) k).
Proof.
  assert (Drop : forall (name : list Z) (m : M (fstate C) unit) d, ishifts m (fun _ => d) ->
    ishifts (m ;;; ret (None : option nat, name)) (fun r k => returned (fst r) k + d k)).
  { intros name m d Hm. apply (ledger_bind _ _ _ _ _ _ Hm). intros _. apply ledger_return. intros k. cbn. lia. }
  induction fuel as [|fuel IH]; intros path ip name; cbn [namex_loop]; [apply ledger_nofuel|].
  destruct (skipelem path) as [[rest nm]|].
  2: { destruct parent; [apply (ledger_ext _ _ _ _ _ (Drop name _ _ (iput_shifts ip))); intros; lia|].
       apply ledger_return. intros k. cbn. lia. }
  apply (ledger_bind _ _ _ _ _ _ (ilock_shifts ip)). intros _. apply ledger_still; [auto with ledger|]. intros nd. destruct (negb _).
  { apply (ledger_ext _ _ _ _ _ (Drop nm _ _ (iunlockput_shifts ip))). intros; lia. }
  destruct (parent && _).
  { apply (ledger_bind _ _ _ _ _ _ (iunlock_shifts ip)). intros _. apply ledger_return. intros k. cbn. lia. }
  apply (ledger_bind _ _ _ _ _ _ (dirlookup_shifts ip _)). intros [[next off]|]; cbn [fmap option_fmap option_map fst returned].
  - apply (ledger_bind _ _ _ _ _ _ (iunlockput_shifts ip)). intros _. apply (ledger_ext _ _ _ _ _ (IH _ _ _)). intros; lia.
  - apply (ledger_ext _ _ _ _ _ (Drop nm _ _ (iunlockput_shifts ip))). intros; lia.
Qed.

Lemma namex_shifts cwd path parent : ishifts (namex pid dev_read cwd path parent) (fun r => returned (fst r)).
Proof.
  unfold namex. apply (ledger_bind _ _ _ _ (fun ip k => unit_of (Ref ip) k)).
  - pose proof (idup_shifts cwd) as D.
    destruct path as [|c path]; [exact D|].
    repeat match goal with |- context [match ?x with _ => _ end] => is_var x; destruct x end; first [exact D|apply iget_shifts].
  - intros ip. apply namex_loop_shifts.
Qed.

Lemma namei_shifts cwd path : ishifts (namei pid dev_read cwd path) returned.
Proof.
  unfold namei. apply (ledger_bind _ _ _ _ _ _ (namex_shifts cwd path false)). intros r. apply ledger_return. intros k. lia.
Qed.
End Icache.
