(* ===== verification/Path.v ===== *)
(** Path names: [skipelem] of [src/xv6/xv6-public/fs.c] against the elements of a
    path. *)

From stdpp Require Import gmap.
From S2P Require Import Prelude Mem Fs.

(** The parts of a path between slashes. *)
Fixpoint split_slash (path : list Z) : list (list Z) :=
  match path with
  | [] => [[]]
  | c :: path => if c =? 47 then [] :: split_slash path
                 else match split_slash path with e :: es => (c :: e) :: es | [] => [[c]] end
  end.

(** Its elements: the parts that are not empty, cut to the length of a name. *)
Definition elements (path : list Z) : list (list Z) :=
  map (take (Z.to_nat DIRSIZ)) (filter (fun e => e <> []) (split_slash path)).

(** The elements that the loop of [namex] sees. *)
Fixpoint walk (fuel : nat) (path : list Z) : list (list Z) :=
  match fuel with
  | O => []
  | S fuel => match skipelem path with None => [] | Some (rest, name) => name :: walk fuel rest end
  end.

Definition starts_clean (path : list Z) : Prop := match path with c :: _ => c <> 47 | [] => True end.

Lemma skip_slashes_clean path : starts_clean (skip_slashes path).
Proof. induction path as [|c path IH]; [exact I|]. cbn [skip_slashes]. destruct (Z.eqb_spec c 47); [exact IH | cbn; assumption]. Qed.

Lemma skip_slashes_length path : (length (skip_slashes path) <= length path)%nat.
Proof. induction path as [|c path IH]; [easy|]. cbn [skip_slashes]. destruct (c =? 47); cbn; lia. Qed.

Lemma split_skip path : filter (fun e => e <> []) (split_slash (skip_slashes path)) = filter (fun e => e <> []) (split_slash path).
Proof.
  induction path as [|c path IH]; [reflexivity|]. cbn [skip_slashes]. destruct (Z.eqb_spec c 47) as [->|]; [|reflexivity].
  rewrite IH. cbn [split_slash]. change (47 =? 47) with true. cbv iota. now rewrite filter_cons, decide_False by auto.
Qed.

Lemma elem_of_path_split path : let '(s, rest) := elem_of_path path in
  exists es, split_slash path = s :: es /\ (match rest with [] => es = [] | d :: r => d = 47 /\ es = split_slash r end) /\
    (length rest <= length path)%nat /\ (s <> [] -> length rest < length path)%nat.
Proof.
  induction path as [|c path IH]; cbn [elem_of_path split_slash]; [exists []; split_and!; auto; easy|].
  destruct (c =? 47) eqn:E.
  - apply Z.eqb_eq in E. exists (split_slash path). split_and!; auto. easy.
  - destruct (elem_of_path path) as [s rest]. destruct IH as (es & -> & Hr & Hl & _). exists es. split_and!; auto; cbn; lia.
Qed.

Lemma elem_of_path_nonempty path : starts_clean path -> path <> [] -> fst (elem_of_path path) <> [].
Proof.
  destruct path as [|c path]; [easy|]. cbn. intros Hc _. rewrite (proj2 (Z.eqb_neq c 47)) by exact Hc.
  now destruct (elem_of_path path).
Qed.

Lemma clean_elements path : starts_clean path -> path = [] <-> elements path = [].
Proof.
  intros Hc. split; [now intros ->|]. destruct path as [|c path]; [easy|]. intros He. exfalso.
  pose proof (elem_of_path_split (c :: path)) as Hs. pose proof (elem_of_path_nonempty (c :: path) Hc ltac:(easy)) as Hne.
  destruct (elem_of_path (c :: path)) as [s rest]. destruct Hs as (es & Hs & _). unfold elements in He. rewrite Hs, filter_cons, decide_True in He by exact Hne.
  discriminate.
Qed.

(** One step: the first element, and a shorter rest with the other ones. *)
Lemma skipelem_step path : match skipelem path with
  | None => elements path = []
  | Some (rest, name) => elements path = name :: elements rest /\ (length rest < length path)%nat /\ starts_clean rest /\
      name <> [] /\ (length name <= Z.to_nat DIRSIZ)%nat /\ (rest = [] <-> elements rest = [])
  end.
Proof.
  unfold skipelem, elements. rewrite <- (split_skip path). pose proof (skip_slashes_clean path) as Hc. pose proof (skip_slashes_length path) as Hl.
  destruct (skip_slashes path) as [|c p] eqn:Ep; [reflexivity|].
  pose proof (elem_of_path_split (c :: p)) as Hs. pose proof (elem_of_path_nonempty (c :: p) Hc ltac:(easy)) as Hne.
  destruct (elem_of_path (c :: p)) as [s rest]. destruct Hs as (es & Hs & Hr & _ & Hlt). cbn [fst] in Hne. specialize (Hlt Hne).
  rewrite Hs, filter_cons, decide_True by exact Hne. cbn [map]. assert (Hes : filter (fun e => e <> []) es = filter (fun e => e <> []) (split_slash (skip_slashes rest))).
  { rewrite split_skip. destruct rest as [|d r]; [now subst es|]. destruct Hr as [-> ->]. cbn [split_slash]. change (47 =? 47) with true. cbv iota.
    now rewrite filter_cons, decide_False by auto. }
  pose proof (skip_slashes_length rest). split_and!.
  - now rewrite Hes.
  - lia.
  - apply skip_slashes_clean.
  - destruct s; [easy | discriminate].
  - rewrite length_take. lia.
  - apply clean_elements, skip_slashes_clean.
Qed.

(** [skipelem] splits paths.  Applied again and again, as [namex] does, it
    yields exactly the non-empty parts between the slashes of the path, each cut
    to [DIRSIZ] characters, and then reports the end; the rest it returns is
    shorter than the path, does not start with a slash, and is empty exactly when
    the element was the last one. *)
Theorem skipelem_splits path :
  (forall fuel, (length path < fuel)%nat -> walk fuel path = elements path) /\
  (skipelem path = None <-> elements path = []) /\
  (forall rest name, skipelem path = Some (rest, name) ->
    (length rest < length path)%nat /\ starts_clean rest /\ (rest = [] <-> elements path = [name])).
Proof.
  split_and!.
  - intros fuel. revert path. induction fuel as [|fuel IH]; intros path Hf; [lia|]. cbn [walk].
    pose proof (skipelem_step path) as Hs. destruct (skipelem path) as [[rest name]|]; [|now symmetry].
    destruct Hs as (-> & Hl & _). f_equal. apply IH. lia.
  - pose proof (skipelem_step path) as Hs. destruct (skipelem path) as [[rest name]|]; [|easy]. destruct Hs as (-> & _). easy.
  - intros rest name E. pose proof (skipelem_step path) as Hs. rewrite E in Hs. destruct Hs as (-> & Hl & Hc & _ & _ & Hr).
    split_and!; auto. rewrite Hr. split; [now intros -> | intros [= ?]; assumption].
Qed.
