(* ===== verification/Proc.v ===== *)
(** Processes: [src/xv6/xv6-public/proc.c] and [struct proc] of [proc.h].

    The process table is a list of records with the fields the scheduler and the
    system calls of [proc.c] work on.  The fields that the memory management
    code reaches through a [struct proc *] ([sz], [pgdir], [head], [tail]) stay
    in the kernel's memory, at the process's address [paddr i], where [Lazy],
    [Wunmap] and [Pgfault] find them.  Pointers to processes are addresses, as in
    the source, so that a process can be a channel.

    A call runs on one CPU with its interrupt state and [ptable.lock].  [swtch]
    leaves the calling kernel thread: [sched] is the part before it and
    [sched_back] the part after it, and the functions that call [sched] are cut
    at the same point.

    What the code needs of the file system is the interface [ProcFiles]. *)

From S2P Require Import Prelude Mem Mmu Spinlock Kalloc PageTable Uvm Kvm Lazy FileApi Wunmap.

Definition NPROC : nat := 64.
Definition NOFILE : nat := 16.
Definition KSTACKSIZE : Z := 4096.

(** Sizes and offsets of [struct trapframe] and [struct context]. *)
Definition TF_size : Z := 76.
Definition TF_eax : Z := 28.
Definition TF_es : Z := 40.
Definition TF_ds : Z := 44.
Definition TF_eip : Z := 56.
Definition TF_cs : Z := 60.
Definition TF_eflags : Z := 64.
Definition TF_esp : Z := 68.
Definition TF_ss : Z := 72.
Definition CTX_size : Z := 20.
Definition CTX_eip : Z := 16.

Inductive procstate := UNUSED | EMBRYO | SLEEPING | RUNNABLE | RUNNING | ZOMBIE.

#[global] Instance procstate_eq_dec : EqDecision procstate.
Proof. solve_decision. Defined.

Record proc := mkProc {
  p_kstack : Z;
  p_state : procstate;
  p_pid : Z;
  p_parent : Z;
  p_tf : Z;
  p_context : Z;
  p_chan : Z;
  p_killed : Z;
  p_ofile : list Z;
  p_cwd : Z;
  p_name : list Z }.

Definition with_kstack (v : Z) (p : proc) : proc :=
  mkProc v (p_state p) (p_pid p) (p_parent p) (p_tf p) (p_context p) (p_chan p) (p_killed p) (p_ofile p) (p_cwd p) (p_name p).
Definition with_state (v : procstate) (p : proc) : proc :=
  mkProc (p_kstack p) v (p_pid p) (p_parent p) (p_tf p) (p_context p) (p_chan p) (p_killed p) (p_ofile p) (p_cwd p) (p_name p).
Definition with_pid (v : Z) (p : proc) : proc :=
  mkProc (p_kstack p) (p_state p) v (p_parent p) (p_tf p) (p_context p) (p_chan p) (p_killed p) (p_ofile p) (p_cwd p) (p_name p).
Definition with_parent (v : Z) (p : proc) : proc :=
  mkProc (p_kstack p) (p_state p) (p_pid p) v (p_tf p) (p_context p) (p_chan p) (p_killed p) (p_ofile p) (p_cwd p) (p_name p).
Definition with_frame (tf ctx : Z) (p : proc) : proc :=
  mkProc (p_kstack p) (p_state p) (p_pid p) (p_parent p) tf ctx (p_chan p) (p_killed p) (p_ofile p) (p_cwd p) (p_name p).
Definition with_chan (v : Z) (p : proc) : proc :=
  mkProc (p_kstack p) (p_state p) (p_pid p) (p_parent p) (p_tf p) (p_context p) v (p_killed p) (p_ofile p) (p_cwd p) (p_name p).
Definition with_killed (v : Z) (p : proc) : proc :=
  mkProc (p_kstack p) (p_state p) (p_pid p) (p_parent p) (p_tf p) (p_context p) (p_chan p) v (p_ofile p) (p_cwd p) (p_name p).
Definition with_ofile (v : list Z) (p : proc) : proc :=
  mkProc (p_kstack p) (p_state p) (p_pid p) (p_parent p) (p_tf p) (p_context p) (p_chan p) (p_killed p) v (p_cwd p) (p_name p).
Definition with_cwd (v : Z) (p : proc) : proc :=
  mkProc (p_kstack p) (p_state p) (p_pid p) (p_parent p) (p_tf p) (p_context p) (p_chan p) (p_killed p) (p_ofile p) v (p_name p).
Definition with_name (v : list Z) (p : proc) : proc :=
  mkProc (p_kstack p) (p_state p) (p_pid p) (p_parent p) (p_tf p) (p_context p) (p_chan p) (p_killed p) (p_ofile p) (p_cwd p) v.

(** An entry of the zero-initialised table. *)
Definition proc_zero : proc := mkProc 0 UNUSED 0 0 0 0 0 0 (repeat 0 NOFILE) 0 (repeat 0 16).

(** ** The table, without the lock

    The bodies of the critical sections, as functions on the table. *)

Abbreviation table := (list proc).

Definition tget (t : table) (i : nat) : proc := nth i t proc_zero.
Definition tset (t : table) (i : nat) (f : proc -> proc) : table := alter f i t.

(** [if(p->state == SLEEPING && p->chan == chan) p->state = RUNNABLE;] *)
Definition wake (chan : Z) (p : proc) : proc :=
  if bool_decide (p_state p = SLEEPING) && (p_chan p =? chan) then with_state RUNNABLE p else p.

Definition wakeup1 (chan : Z) (t : table) : table := map (wake chan) t.

(** The first entry from [i] on that satisfies [f]. *)
Fixpoint scan (f : proc -> bool) (l : table) (i : nat) : option nat :=
  match l with
  | [] => None
  | p :: l => if f p then Some i else scan f l (S i)
  end.

Definition find_unused (t : table) : option nat := scan (fun p => bool_decide (p_state p = UNUSED)) t 0.

(** The loop of [kill]. *)
Definition kill_table (pid : Z) (t : table) : option table :=
  match scan (fun p => p_pid p =? pid) t 0 with
  | None => None
  | Some i =>
      Some (tset t i (fun p =>
        let p := with_killed 1 p in
        if bool_decide (p_state p = SLEEPING) then with_state RUNNABLE p else p))
  end.

(** One iteration of the loop of [exit] that passes children to init. *)
Fixpoint reparent_loop (n : nat) (i : nat) (me init : Z) (t : table) : table :=
  match n with
  | O => t
  | S n =>
      let t' :=
        if p_parent (tget t i) =? me then
          let t1 := tset t i (with_parent init) in
          if bool_decide (p_state (tget t1 i) = ZOMBIE) then wakeup1 init t1 else t1
        else t in
      reparent_loop n (S i) me init t'
  end.
Definition reparent (me init : Z) (t : table) : table := reparent_loop (length t) 0 me init t.

(** The critical section of [exit], up to [sched]. *)
Definition exit_table (i : nat) (me init : Z) (t : table) : table :=
  tset (reparent me init (wakeup1 (p_parent (tget t i)) t)) i (with_state ZOMBIE).

(** What the loop of [wait] finds: an exited child, children, or none. *)
Inductive found := Exited (i : nat) | Kids | NoKids.

Fixpoint wait_scan (me : Z) (l : table) (i : nat) (havekids : bool) : found :=
  match l with
  | [] => if havekids then Kids else NoKids
  | p :: l =>
      if negb (p_parent p =? me) then wait_scan me l (S i) havekids
      else if bool_decide (p_state p = ZOMBIE) then Exited i
      else wait_scan me l (S i) true
  end.

(** The fields of a reaped child; [name[0] = 0]. *)
Definition reaped (p : proc) : proc :=
  with_state UNUSED (with_killed 0 (with_name (<[0%nat := 0]> (p_name p)) (with_parent 0 (with_pid 0 (with_kstack 0 p))))).

(** The scheduler's loop from entry [k] on: the next process to run. *)
Definition next_runnable (k : nat) (t : table) : option nat :=
  scan (fun p => bool_decide (p_state p = RUNNABLE)) (drop k t) k.

(** ** The interface to the file system

    The calls of [proc.c] into [file.c], [fs.c] and [log.c], on the file system's
    state.  A call that ends in [wakeup] reports the channels it wakes up. *)
Class ProcFiles (F : Type) := {
  pf_filedup : Z -> M F Z;
  pf_fileclose : Z -> M F (list Z);
  pf_idup : Z -> M F Z;
  pf_iput : Z -> M F (list Z);
  pf_begin_op : M F unit;
  pf_end_op : M F (list Z);
  pf_namei : list Z -> M F Z;
  pf_iinit : M F unit;
  pf_initlog : M F unit }.

(** What [switchuvm] and [switchkvm] load into the CPU: a segment descriptor made
    by [SEG16], the fields of the task state and the registers. *)
Record segdesc := mkSeg {
  lim_15_0 : Z; base_15_0 : Z; base_23_16 : Z; sd_type : Z; sd_s : Z; sd_dpl : Z; sd_p : Z;
  lim_19_16 : Z; sd_avl : Z; sd_rsv1 : Z; sd_db : Z; sd_g : Z; base_31_24 : Z }.

Definition SEG16 (type base lim dpl : Z) : segdesc :=
  mkSeg (Z.land lim 0xffff) (Z.land base 0xffff) (Z.land (Z.shiftr base 16) 0xff) type 1 dpl 1
        (Z.shiftr lim 16) 0 0 1 0 (Z.shiftr base 24).

Definition with_s (v : Z) (d : segdesc) : segdesc :=
  mkSeg (lim_15_0 d) (base_15_0 d) (base_23_16 d) (sd_type d) v (sd_dpl d) (sd_p d) (lim_19_16 d) (sd_avl d) (sd_rsv1 d) (sd_db d) (sd_g d) (base_31_24 d).

Record hw := mkHw { hw_tss : segdesc; hw_ss0 : Z; hw_esp0 : Z; hw_iomb : Z; hw_tr : Z; hw_cr3 : Z }.

(** The state a call on one CPU works on.  [k_lk] is a lock other than
    [ptable.lock] that a caller passes to [sleep]; [k_curproc] is the [proc] field
    of the CPU. *)
Record kst (F : Type) := mkKst {
  k_table : table;
  k_nextpid : Z;
  k_initproc : Z;
  k_first : Z;
  k_cpu : cpu;
  k_curproc : Z;
  k_ptlock : spinlock;
  k_lk : spinlock;
  k_mem : kmem;
  k_files : F;
  k_hw : hw }.
Arguments mkKst {F}.
Arguments k_table {F}.
Arguments k_nextpid {F}.
Arguments k_initproc {F}.
Arguments k_first {F}.
Arguments k_cpu {F}.
Arguments k_curproc {F}.
Arguments k_ptlock {F}.
Arguments k_lk {F}.
Arguments k_mem {F}.
Arguments k_files {F}.
Arguments k_hw {F}.

(** [lk]: null, [&ptable.lock] or another lock. *)
Inductive sleeplk := LkNull | LkPtable | LkOther.

Section Proc.
Context `{Linker}.
Context {F : Type} `{ProcFiles F}.

(** The address of [ptable.proc], those of the code that a new process starts
    in, and the embedded initcode. *)
Variables ptable forkret_addr trapret_addr : Z.
Variables initcode_start initcode_size kpgdir : Z.

Definition paddr (i : nat) : Z := ptable + P_size * Z.of_nat i.

(** The table entry a pointer denotes. *)
Definition pindex (p : Z) : nat := Z.to_nat ((p - ptable) / P_size).

Abbreviation K := (M (kst F)).

Definition k_set_table (t : table) (s : kst F) : kst F :=
  mkKst t (k_nextpid s) (k_initproc s) (k_first s) (k_cpu s) (k_curproc s) (k_ptlock s) (k_lk s) (k_mem s) (k_files s) (k_hw s).
Definition k_set_nextpid (v : Z) (s : kst F) : kst F :=
  mkKst (k_table s) v (k_initproc s) (k_first s) (k_cpu s) (k_curproc s) (k_ptlock s) (k_lk s) (k_mem s) (k_files s) (k_hw s).
Definition k_set_initproc (v : Z) (s : kst F) : kst F :=
  mkKst (k_table s) (k_nextpid s) v (k_first s) (k_cpu s) (k_curproc s) (k_ptlock s) (k_lk s) (k_mem s) (k_files s) (k_hw s).
Definition k_set_first (v : Z) (s : kst F) : kst F :=
  mkKst (k_table s) (k_nextpid s) (k_initproc s) v (k_cpu s) (k_curproc s) (k_ptlock s) (k_lk s) (k_mem s) (k_files s) (k_hw s).
Definition k_set_cpu (v : cpu) (s : kst F) : kst F :=
  mkKst (k_table s) (k_nextpid s) (k_initproc s) (k_first s) v (k_curproc s) (k_ptlock s) (k_lk s) (k_mem s) (k_files s) (k_hw s).
Definition k_set_hw (v : hw) (s : kst F) : kst F :=
  mkKst (k_table s) (k_nextpid s) (k_initproc s) (k_first s) (k_cpu s) (k_curproc s) (k_ptlock s) (k_lk s) (k_mem s) (k_files s) v.
Definition k_set_curproc (v : Z) (s : kst F) : kst F :=
  mkKst (k_table s) (k_nextpid s) (k_initproc s) (k_first s) (k_cpu s) v (k_ptlock s) (k_lk s) (k_mem s) (k_files s) (k_hw s).

(** Calls into the other components. *)
Definition on_pt {A} (m : M lkst A) : K A :=
  zoom (fun s => mkLkst (k_cpu s) (k_ptlock s))
       (fun l s => mkKst (k_table s) (k_nextpid s) (k_initproc s) (k_first s) (st_cpu l) (k_curproc s) (st_lock l) (k_lk s) (k_mem s) (k_files s) (k_hw s)) m.
Definition on_lk {A} (m : M lkst A) : K A :=
  zoom (fun s => mkLkst (k_cpu s) (k_lk s))
       (fun l s => mkKst (k_table s) (k_nextpid s) (k_initproc s) (k_first s) (st_cpu l) (k_curproc s) (k_ptlock s) (st_lock l) (k_mem s) (k_files s) (k_hw s)) m.
Definition on_mem {A} (m : M kmem A) : K A :=
  zoom k_mem (fun v s => mkKst (k_table s) (k_nextpid s) (k_initproc s) (k_first s) (k_cpu s) (k_curproc s) (k_ptlock s) (k_lk s) v (k_files s) (k_hw s)) m.
Definition on_files {A} (m : M F A) : K A :=
  zoom k_files (fun v s => mkKst (k_table s) (k_nextpid s) (k_initproc s) (k_first s) (k_cpu s) (k_curproc s) (k_ptlock s) (k_lk s) (k_mem s) v (k_hw s)) m.

(** [acquire(&ptable.lock)] and [release(&ptable.lock)]; a lock that another
    CPU holds is waited for, so an attempt that succeeds is enough. *)
Definition acquire_pt : K unit := on_pt (acquire 1).
Definition release_pt : K unit := on_pt release.

Definition get_table : K table := gets k_table.
Definition put_table (t : table) : K unit := modify (k_set_table t).
Definition get_proc (i : nat) : K proc := gets (fun s => tget (k_table s) i).
Definition upd_proc (i : nat) (f : proc -> proc) : K unit := modify (fun s => k_set_table (tset (k_table s) i f) s).

Definition pinit : K unit := on_pt (modify initlock).

Definition myproc : K Z :=
  on_pt pushcli ;;;
  on_pt mycpu ;;;
  p <- gets k_curproc ;;
  on_pt popcli ;;;
  ret p.

Definition allocproc : K Z :=
  acquire_pt ;;;
  t <- get_table ;;
  match find_unused t with
  | None => release_pt ;;; ret 0
  | Some i =>
      upd_proc i (with_state EMBRYO) ;;;
      n <- gets k_nextpid ;;
      upd_proc i (with_pid n) ;;;
      modify (k_set_nextpid (s32 (n + 1))) ;;;
      release_pt ;;;
      kstack <- on_mem kalloc ;;
      upd_proc i (with_kstack kstack) ;;;
      if kstack =? 0 then upd_proc i (with_state UNUSED) ;;; ret 0 else
      let sp := kstack + KSTACKSIZE - TF_size in
      let tf := sp in
      let sp := sp - 4 in
      on_mem (wr32 sp trapret_addr) ;;;
      let sp := sp - CTX_size in
      upd_proc i (with_frame tf sp) ;;;
      on_mem (memset_k sp 0 CTX_size) ;;;
      on_mem (wr32 (sp + CTX_eip) forkret_addr) ;;;
      head <- on_mem kalloc ;;
      (if head =? 0 then fault "allocproc: null head" else ret tt) ;;;
      on_mem (memset_k head 0 LZ_size) ;;;
      on_mem (wr32 (paddr i + P_head) head) ;;;
      on_mem (wr32 (paddr i + P_tail) head) ;;;
      ret (paddr i)
  end.

Definition SEG_KDATA : Z := 2.
Definition SEG_UCODE : Z := 3.
Definition SEG_UDATA : Z := 4.
Definition SEG_TSS : Z := 5.
Definition DPL_USER : Z := 3.
Definition STS_T32A : Z := 0x9.

(** Offset of [ts] in [struct cpu] and the size of [struct taskstate]. *)
Definition CPU_ts : Z := 8.
Definition TS_size : Z := 104.

Definition rd16 (a : Z) : M kmem Z := gets (fun s => load16 (km_mem s) a).
Definition wr16 (a v : Z) : M kmem unit := modify (fun s => set_mem (store16 (km_mem s) a v) s).

Definition switchkvm : K unit :=
  modify (fun s => let h := k_hw s in k_set_hw (mkHw (hw_tss h) (hw_ss0 h) (hw_esp0 h) (hw_iomb h) (hw_tr h) (V2P kpgdir)) s).

Definition switchuvm (p : Z) : K unit :=
  if p =? 0 then panic "switchuvm: no process" else
  q <- get_proc (pindex p) ;;
  if p_kstack q =? 0 then panic "switchuvm: no kstack" else
  d <- on_mem (rd32 (p + P_pgdir)) ;;
  if d =? 0 then panic "switchuvm: no pgdir" else
  on_pt pushcli ;;;
  me <- on_pt mycpu ;;
  modify (k_set_hw (mkHw (with_s 0 (SEG16 STS_T32A (u32 (me + CPU_ts)) (TS_size - 1) 0))
    (u16 (Z.shiftl SEG_KDATA 3)) (u32 (p_kstack q + KSTACKSIZE)) 0xFFFF (Z.shiftl SEG_TSS 3) (V2P d))) ;;;
  on_pt popcli.

(** ["initcode"] in the 16 bytes of [name]. *)
Definition initcode_name : list Z := [105; 110; 105; 116; 99; 111; 100; 101].

(** [safestrcpy(dst, src, 16)] on the bytes of a name. *)
Definition copy_name (dst src : list Z) : list Z :=
  map (safestrcpy (fun a => if a <? 4096 then nth (Z.to_nat a) dst 0 else nth (Z.to_nat (a - 4096)) src 0) 0 4096 16) (seqZ 0 16).

Definition userinit : K unit :=
  p <- allocproc ;;
  modify (k_set_initproc p) ;;;
  (if p =? 0 then fault "userinit: null process" else ret tt) ;;;
  let i := pindex p in
  d <- on_mem setupkvm ;;
  on_mem (wr32 (p + P_pgdir) d) ;;;
  if d =? 0 then panic "userinit: out of memory?" else
  on_mem (inituvm d initcode_start initcode_size) ;;;
  on_mem (wr32 (p + P_sz) PGSIZE) ;;;
  q <- get_proc i ;;
  let tf := p_tf q in
  on_mem (memset_k tf 0 TF_size) ;;;
  on_mem (wr16 (tf + TF_cs) (Z.lor (Z.shiftl SEG_UCODE 3) DPL_USER)) ;;;
  on_mem (wr16 (tf + TF_ds) (Z.lor (Z.shiftl SEG_UDATA 3) DPL_USER)) ;;;
  ds <- on_mem (rd16 (tf + TF_ds)) ;;
  on_mem (wr16 (tf + TF_es) ds) ;;;
  on_mem (wr16 (tf + TF_ss) ds) ;;;
  on_mem (wr32 (tf + TF_eflags) FL_IF) ;;;
  on_mem (wr32 (tf + TF_esp) PGSIZE) ;;;
  on_mem (wr32 (tf + TF_eip) 0) ;;;
  upd_proc i (fun q => with_name (copy_name (p_name q) initcode_name) q) ;;;
  cwd <- on_files (pf_namei [47]) ;;
  upd_proc i (with_cwd cwd) ;;;
  acquire_pt ;;;
  upd_proc i (with_state RUNNABLE) ;;;
  release_pt.

Definition growproc (n : Z) : K Z :=
  p <- myproc ;;
  sz <- on_mem (rd32 (p + P_sz)) ;;
  d <- on_mem (rd32 (p + P_pgdir)) ;;
  r <- (if 0 <? n then sz' <- on_mem (allocuvm d sz (u32 (sz + n))) ;; ret (if sz' =? 0 then None else Some sz')
        else if n <? 0 then sz' <- on_mem (deallocuvm d sz (u32 (sz + n))) ;; ret (if sz' =? 0 then None else Some sz')
        else ret (Some sz)) ;;
  match r with
  | None => ret (-1)
  | Some sz => on_mem (wr32 (p + P_sz) sz) ;;; switchuvm p ;;; ret 0
  end.

(** ** fork *)

(** [while(temp) { memmove(child->next, temp, ...); ... }] *)
Fixpoint fork_list_loop (fuel : nat) (temp child : Z) : M kmem unit :=
  match fuel with
  | O => nofuel
  | S fuel =>
      if temp =? 0 then ret tt else
      cn <- ldf child LZ_next ;;
      (if cn <? KERNBASE then fault "bad pointer" else memmove_k cn temp LZ_size) ;;;
      child <- ldf child LZ_next ;;
      temp <- ldf temp LZ_next ;;
      fork_list_loop fuel temp child
  end.

(** The copy of the list of mappings, from process [p] to [np]. *)
Definition fork_list (fuel : nat) (p np : Z) : M kmem unit :=
  nh <- rd32 (np + P_head) ;;
  ph <- rd32 (p + P_head) ;;
  (if (nh <? KERNBASE) || (ph <? KERNBASE) then fault "bad pointer" else memmove_k nh ph LZ_size) ;;;
  ph <- rd32 (p + P_head) ;;
  temp <- ldf ph LZ_next ;;
  child <- rd32 (np + P_head) ;;
  fork_list_loop fuel temp child.

(** [for(i = 0; i < NOFILE; i++) if(curproc->ofile[i]) np->ofile[i] = filedup(...)] *)
Fixpoint fork_files (n i : nat) (me ni : nat) : K unit :=
  match n with
  | O => ret tt
  | S n =>
      p <- get_proc me ;;
      let f := nth i (p_ofile p) 0 in
      (if truth f then
         g <- on_files (pf_filedup f) ;;
         upd_proc ni (fun q => with_ofile (<[i := g]> (p_ofile q)) q)
       else ret tt) ;;;
      fork_files n (S i) me ni
  end.

Definition fork (fuel : nat) : K Z :=
  p <- myproc ;;
  let me := pindex p in
  np <- allocproc ;;
  if np =? 0 then ret (-1) else
  let ni := pindex np in
  d <- on_mem (rd32 (p + P_pgdir)) ;;
  sz <- on_mem (rd32 (p + P_sz)) ;;
  d' <- on_mem (forkuvm d sz) ;;
  on_mem (wr32 (np + P_pgdir) d') ;;;
  if d' =? 0 then
    q <- get_proc ni ;;
    on_mem (kfree (p_kstack q)) ;;;
    upd_proc ni (with_kstack 0) ;;;
    upd_proc ni (with_state UNUSED) ;;;
    ret (-1)
  else
  on_mem (fork_list fuel p np) ;;;
  sz <- on_mem (rd32 (p + P_sz)) ;;
  on_mem (wr32 (np + P_sz) sz) ;;;
  upd_proc ni (with_parent p) ;;;
  cur <- get_proc me ;;
  new <- get_proc ni ;;
  on_mem (memmove_k (p_tf new) (p_tf cur) TF_size) ;;;
  on_mem (wr32 (p_tf new + TF_eax) 0) ;;;
  fork_files NOFILE 0 me ni ;;;
  cur <- get_proc me ;;
  cwd <- on_files (pf_idup (p_cwd cur)) ;;
  upd_proc ni (with_cwd cwd) ;;;
  upd_proc ni (fun q => with_name (copy_name (p_name q) (p_name cur)) q) ;;;
  new <- get_proc ni ;;
  let pid := p_pid new in
  acquire_pt ;;;
  upd_proc ni (with_state RUNNABLE) ;;;
  release_pt ;;;
  ret pid.

(** ** sched, and what enters it *)

(** [sched] up to [swtch]: the value of [intena] it saves. *)
Definition sched : K Z :=
  p <- myproc ;;
  h <- on_pt holding ;;
  if negb h then panic "sched ptable.lock" else
  on_pt mycpu ;;;
  c <- gets k_cpu ;;
  if negb (ncli c =? 1) then panic "sched locks" else
  q <- get_proc (pindex p) ;;
  if bool_decide (p_state q = RUNNING) then panic "sched running" else
  fl <- on_pt readeflags ;;
  if truth (Z.land fl FL_IF) then panic "sched interruptible" else
  on_pt mycpu ;;;
  gets (fun s => intena (k_cpu s)).

(** [sched] after [swtch], on the CPU the thread continues on. *)
Definition sched_back (ie : Z) : K unit :=
  on_pt mycpu ;;;
  on_pt (modify (set_intena ie)).

Definition yield : K Z :=
  acquire_pt ;;;
  p <- myproc ;;
  upd_proc (pindex p) (with_state RUNNABLE) ;;;
  sched.

Definition yield_back (ie : Z) : K unit :=
  sched_back ie ;;;
  release_pt.

Definition forkret : K unit :=
  release_pt ;;;
  first <- gets k_first ;;
  if truth first then
    modify (k_set_first 0) ;;;
    on_files pf_iinit ;;;
    on_files pf_initlog
  else ret tt.

Definition sleep (chan : Z) (lk : sleeplk) : K Z :=
  p <- myproc ;;
  if p =? 0 then panic "sleep" else
  match lk with
  | LkNull => panic "sleep without lk"
  | _ =>
      (match lk with LkOther => acquire_pt ;;; on_lk release | _ => ret tt end) ;;;
      upd_proc (pindex p) (with_chan chan) ;;;
      upd_proc (pindex p) (with_state SLEEPING) ;;;
      sched
  end.

Definition sleep_back (p : Z) (lk : sleeplk) (ie : Z) : K unit :=
  sched_back ie ;;;
  upd_proc (pindex p) (with_chan 0) ;;;
  match lk with LkOther => release_pt ;;; on_lk (acquire 1) | _ => ret tt end.

Definition wakeup (chan : Z) : K unit :=
  acquire_pt ;;;
  t <- get_table ;;
  put_table (wakeup1 chan t) ;;;
  release_pt.

(** The [wakeup] calls of a call into the file system. *)
Fixpoint wakeups (chans : list Z) : K unit :=
  match chans with
  | [] => ret tt
  | c :: chans => wakeup c ;;; wakeups chans
  end.

Definition kill (pid : Z) : K Z :=
  acquire_pt ;;;
  t <- get_table ;;
  match kill_table pid t with
  | Some t => put_table t ;;; release_pt ;;; ret 0
  | None => release_pt ;;; ret (-1)
  end.

(** ** exit and wait *)

(** [for(fd = 0; fd < NOFILE; fd++) ...] *)
Fixpoint exit_files (n fd me : nat) : K unit :=
  match n with
  | O => ret tt
  | S n =>
      p <- get_proc me ;;
      let f := nth fd (p_ofile p) 0 in
      (if truth f then
         w <- on_files (pf_fileclose f) ;;
         wakeups w ;;;
         upd_proc me (fun q => with_ofile (<[fd := 0]> (p_ofile q)) q)
       else ret tt) ;;;
      exit_files n (S fd) me
  end.

(** [exit] up to its [swtch], from which it does not return. *)
Definition exit (fuel lim : nat) : K Z :=
  p <- myproc ;;
  let me := pindex p in
  init <- gets k_initproc ;;
  if p =? init then panic "init exiting" else
  on_mem (exit_unmap p fuel lim) ;;;
  exit_files NOFILE 0 me ;;;
  on_files pf_begin_op ;;;
  cur <- get_proc me ;;
  w <- on_files (pf_iput (p_cwd cur)) ;;
  wakeups w ;;;
  w <- on_files pf_end_op ;;
  wakeups w ;;;
  upd_proc me (with_cwd 0) ;;;
  acquire_pt ;;;
  t <- get_table ;;
  put_table (exit_table me p init t) ;;;
  sched.

(** How an iteration of the loop of [wait] ends: it returns, or it sleeps with
    the value of [intena] that [sched] saves. *)
Inductive waited := WReturn (r : Z) | WSleep (ie : Z).

(** One iteration of the loop of [wait], with [ptable.lock] held. *)
Definition wait_iter (p : Z) : K waited :=
  t <- get_table ;;
  match wait_scan p t 0 false with
  | Exited i =>
      q <- get_proc i ;;
      on_mem (kfree (p_kstack q)) ;;;
      d <- on_mem (rd32 (paddr i + P_pgdir)) ;;
      on_mem (freevm d) ;;;
      upd_proc i reaped ;;;
      release_pt ;;;
      ret (WReturn (p_pid q))
  | NoKids => release_pt ;;; ret (WReturn (-1))
  | Kids =>
      cur <- get_proc (pindex p) ;;
      if truth (p_killed cur) then release_pt ;;; ret (WReturn (-1))
      else ie <- sleep p LkPtable ;; ret (WSleep ie)
  end.

Definition wait : K waited :=
  p <- myproc ;;
  acquire_pt ;;;
  wait_iter p.

(** [wait] after a wakeup. *)
Definition wait_back (p ie : Z) : K waited :=
  sleep_back p LkPtable ie ;;;
  wait_iter p.

(** ** scheduler *)

(** Where the loop of [scheduler] leaves the CPU: in [swtch] to the process at an
    index, or at the end of a pass over the table. *)
Inductive picked := Switched (i : nat) | PassDone.

(** The loop over the table from index [k] on, with [ptable.lock] held. *)
Definition sched_loop (k : nat) : K picked :=
  t <- get_table ;;
  match next_runnable k t with
  | Some i =>
      modify (k_set_curproc (paddr i)) ;;;
      switchuvm (paddr i) ;;;
      upd_proc i (with_state RUNNING) ;;;
      ret (Switched i)
  | None => release_pt ;;; ret PassDone
  end.

(** A new pass. *)
Definition sched_pass : K picked :=
  on_pt Spinlock.sti ;;;
  acquire_pt ;;;
  sched_loop 0.

(** The loop after the process at [i] came back through [swtch]. *)
Definition sched_resume (i : nat) : K picked :=
  switchkvm ;;;
  modify (k_set_curproc 0) ;;;
  sched_loop (S i).

(** The loop of [scheduler] from where it left the CPU to where it leaves it next. *)
Definition sched_next (r : picked) : K picked :=
  match r with Switched i => sched_resume i | PassDone => sched_pass end.

Definition scheduler : K picked :=
  on_pt mycpu ;;;
  modify (k_set_curproc 0) ;;;
  sched_pass.

End Proc.
