(* ===== verification/Sched.v ===== *)
(** The process table under all interleavings: [src/xv6/xv6-public/proc.c].

    [gstep] runs the critical sections of [proc.c] on several CPUs, one at a time
    as [ptable.lock] makes them, with the accesses to an [EMBRYO] entry that the
    code makes without the lock as steps of their own.  A process that gives up
    its CPU hands the lock to the scheduler of that CPU, so leaving and the
    scheduler's next choice are one step.  [ginv] is the invariant of the table;
    the refinement theorem shows that the calls of [Proc] make only such steps. *)

From stdpp Require Import relations.
From S2P Require Import Prelude Mem Mmu Spinlock Kalloc PageTable Uvm Kvm Lazy FileApi Wunmap Proc.

(** ** Entries of the table *)

Lemma tget_tset t i j f : (i < length t)%nat -> tget (tset t i f) j = if decide (i = j) then f (tget t j) else tget t j.
Proof.
  intros Hi. unfold tget, tset. rewrite !nth_lookup. destruct (decide (i = j)) as [<-|n].
  - rewrite list_lookup_alter, decide_True by reflexivity. destruct (lookup_lt_is_Some_2 t i Hi) as [x ->]. reflexivity.
  - now rewrite list_lookup_alter_ne.
Qed.

Lemma tset_length t i f : length (tset t i f) = length t.
Proof. apply length_alter. Qed.

Lemma wakeup1_length c t : length (wakeup1 c t) = length t.
Proof. apply length_map. Qed.

Lemma tget_wakeup1 c t i : tget (wakeup1 c t) i = wake c (tget t i).
Proof. unfold tget, wakeup1. change proc_zero with (wake c proc_zero) at 1. apply map_nth. Qed.

Lemma wake_cases c p : wake c p = p /\ (p_state p = SLEEPING -> p_chan p <> c) \/
  p_state p = SLEEPING /\ p_chan p = c /\ wake c p = with_state RUNNABLE p.
Proof.
  unfold wake. destruct (bool_decide_reflect (p_state p = SLEEPING)) as [E|E]; cbn [andb]; [|left; split; [reflexivity|intros X; now elim E]].
  destruct (p_chan p =? c) eqn:Q; bool_prop; [right|left]; auto.
Qed.

Lemma tget_out t i : (length t <= i)%nat -> tget t i = proc_zero.
Proof. apply nth_overflow. Qed.

Lemma scan_some f l k i : scan f l k = Some i -> (k <= i < k + length l)%nat /\ f (nth (i - k) l proc_zero) = true /\
  forall j, (k <= j < i)%nat -> f (nth (j - k) l proc_zero) = false.
Proof.
  revert k; induction l as [|p l IH]; intros k; cbn [scan]; [discriminate|].
  destruct (f p) eqn:E; intros X.
  - injection X as <-. rewrite Nat.sub_diag. cbn. split; [lia|]. split; [exact E|intros; lia].
  - destruct (IH _ X) as (B & T & N). cbn [length]. split; [lia|].
    replace (i - k)%nat with (S (i - S k)) by lia. split; [exact T|].
    intros j Hj. destruct (Nat.eq_dec j k) as [->|n]; [now rewrite Nat.sub_diag|].
    replace (j - k)%nat with (S (j - S k)) by lia. apply N. lia.
Qed.

Lemma scan_none f l k : scan f l k = None -> forall j, (k <= j < k + length l)%nat -> f (nth (j - k) l proc_zero) = false.
Proof.
  revert k; induction l as [|p l IH]; intros k; cbn [scan length]; [intros; lia|].
  destruct (f p) eqn:E; [discriminate|]. intros X j Hj.
  destruct (Nat.eq_dec j k) as [->|n]; [now rewrite Nat.sub_diag|].
  replace (j - k)%nat with (S (j - S k)) by lia. apply (IH _ X). lia.
Qed.

Lemma next_runnable_some k t i : next_runnable k t = Some i -> (k <= i < length t)%nat /\ p_state (tget t i) = RUNNABLE /\
  forall j, (k <= j < i)%nat -> p_state (tget t j) <> RUNNABLE.
Proof.
  unfold next_runnable. intros X. apply scan_some in X as (B & T & N). rewrite length_drop in B.
  assert (G : forall j, (k <= j)%nat -> nth (j - k) (drop k t) proc_zero = tget t j)
    by (intros; unfold tget; rewrite !nth_lookup, lookup_drop; now replace (k + (j - k))%nat with j by lia).
  rewrite G in T by lia. apply bool_decide_eq_true in T. split; [lia|]. split; [exact T|].
  intros j Hj E. specialize (N j Hj). rewrite G in N by lia. now apply bool_decide_eq_false in N.
Qed.

Lemma next_runnable_none k t j : next_runnable k t = None -> (k <= j < length t)%nat -> p_state (tget t j) <> RUNNABLE.
Proof.
  unfold next_runnable. intros X Hj E. apply (scan_none _ _ _) with (j := j) in X; [|rewrite length_drop; lia].
  rewrite nth_lookup, lookup_drop in X. replace (k + (j - k))%nat with j in X by lia.
  unfold tget in E. rewrite nth_lookup in E. now apply bool_decide_eq_false in X.
Qed.

Lemma find_unused_some t i : find_unused t = Some i -> (i < length t)%nat /\ p_state (tget t i) = UNUSED.
Proof.
  unfold find_unused. intros X. apply scan_some in X as (B & T & _). rewrite Nat.sub_0_r in T.
  apply bool_decide_eq_true in T. split; [lia|exact T].
Qed.

(** What the loop of [wait] reports. *)
Lemma wait_scan_spec me l k b :
  match wait_scan me l k b with
  | Exited i => (k <= i < k + length l)%nat /\ p_parent (nth (i - k) l proc_zero) = me /\ p_state (nth (i - k) l proc_zero) = ZOMBIE /\
      forall j, (k <= j < i)%nat -> p_parent (nth (j - k) l proc_zero) = me -> p_state (nth (j - k) l proc_zero) <> ZOMBIE
  | Kids => (b = true \/ exists j, (k <= j < k + length l)%nat /\ p_parent (nth (j - k) l proc_zero) = me) /\
      forall j, (k <= j < k + length l)%nat -> p_parent (nth (j - k) l proc_zero) = me -> p_state (nth (j - k) l proc_zero) <> ZOMBIE
  | NoKids => b = false /\ forall j, (k <= j < k + length l)%nat -> p_parent (nth (j - k) l proc_zero) <> me
  end.
Proof.
  revert k b; induction l as [|p l IH]; intros k b; cbn [wait_scan length].
  - destruct b; (split; [auto|intros; lia]).
  - assert (Sx : forall j, (S k <= j)%nat -> nth (j - k) (p :: l) proc_zero = nth (j - S k) l proc_zero)
      by (intros j Hj; now replace (j - k)%nat with (S (j - S k)) by lia).
    assert (S0 : nth (k - k) (p :: l) proc_zero = p) by now rewrite Nat.sub_diag.
    destruct (p_parent p =? me) eqn:E; cbn [negb]; bool_prop.
    + destruct (bool_decide_reflect (p_state p = ZOMBIE)) as [Z0|Z0].
      * rewrite S0. split; [lia|]. repeat split; auto. intros; lia.
      * specialize (IH (S k) true). destruct (wait_scan me l (S k) true) as [i| |].
        -- destruct IH as (B & Pm & Zm & N). rewrite !Sx by lia. split; [lia|]. repeat split; auto.
           intros j Hj. destruct (Nat.eq_dec j k) as [->|n]; [now rewrite S0|]. rewrite Sx by lia. apply N. lia.
        -- destruct IH as (_ & N). split; [right; exists k; rewrite S0; split; [lia|exact E]|].
           intros j Hj. destruct (Nat.eq_dec j k) as [->|n]; [now rewrite S0|]. rewrite Sx by lia. apply N. lia.
        -- destruct IH as [X _]. discriminate.
    + specialize (IH (S k) b). destruct (wait_scan me l (S k) b) as [i| |].
      * destruct IH as (B & Pm & Zm & N). rewrite !Sx by lia. split; [lia|]. repeat split; auto.
        intros j Hj. destruct (Nat.eq_dec j k) as [->|n]; [now rewrite S0|]. rewrite Sx by lia. apply N. lia.
      * destruct IH as (Y & N). split.
        -- destruct Y as [Y|(j & Hj & Y)]; [auto|right; exists j; rewrite Sx by lia; split; [lia|exact Y]].
        -- intros j Hj. destruct (Nat.eq_dec j k) as [->|n]; [now rewrite S0|]. rewrite Sx by lia. apply N. lia.
      * destruct IH as (Y & N). split; [exact Y|].
        intros j Hj. destruct (Nat.eq_dec j k) as [->|n]; [now rewrite S0|]. rewrite Sx by lia. apply N. lia.
Qed.

(** [q] is [p] with another parent at most, and awake if it slept. *)
Definition eased (p q : proc) : Prop :=
  p_pid q = p_pid p /\ p_chan q = p_chan p /\ p_killed q = p_killed p /\
  (p_state q = p_state p \/ p_state p = SLEEPING /\ p_state q = RUNNABLE).

#[global] Instance eased_refl : Reflexive eased.
Proof. intros p. unfold eased. repeat split; auto. Qed.

#[global] Instance eased_trans : Transitive eased.
Proof. unfold eased. intros p q r (?&?&?&?) (?&?&?&?). intuition congruence. Qed.

Lemma wake_eased c p : eased p (wake c p).
Proof. destruct (wake_cases c p) as [[-> _]|(E & _ & ->)]; [reflexivity|]. unfold eased. cbn. repeat split; auto. Qed.

Lemma wake_parent c p : p_parent (wake c p) = p_parent p.
Proof. destruct (wake_cases c p) as [[-> _]|(E & _ & ->)]; reflexivity. Qed.

Lemma wake_sleeping c p : p_state (wake c p) = SLEEPING -> p_state p = SLEEPING /\ p_chan p <> c.
Proof. destruct (wake_cases c p) as [[-> N]|(E & _ & ->)]; [auto|discriminate]. Qed.

Lemma eased_sleeping p q : eased p q -> p_state q = SLEEPING -> p_state p = SLEEPING.
Proof. intros (_ & _ & _ & [E|[E X]]); congruence. Qed.

Lemma eased_zombie p q : eased p q -> p_state q = ZOMBIE <-> p_state p = ZOMBIE.
Proof. intros (_ & _ & _ & [E|[E X]]); rewrite ?E, ?X; intuition congruence. Qed.

(** One iteration of the loop that passes children on. *)
Definition adopt (i : nat) (me init : Z) (t : table) : table :=
  if p_parent (tget t i) =? me then
    let t1 := tset t i (with_parent init) in
    if bool_decide (p_state (tget t1 i) = ZOMBIE) then wakeup1 init t1 else t1
  else t.

Lemma adopt_spec i me init t j : (i < length t)%nat ->
  eased (tget t j) (tget (adopt i me init t) j) /\ length (adopt i me init t) = length t /\
  p_parent (tget (adopt i me init t) j) = (if decide (i = j /\ p_parent (tget t j) = me) then init else p_parent (tget t j)) /\
  (p_parent (tget t i) = me -> p_state (tget t i) = ZOMBIE -> p_state (tget (adopt i me init t) j) = SLEEPING -> p_chan (tget t j) <> init).
Proof.
  intros Hi. unfold adopt. destruct (p_parent (tget t i) =? me) eqn:E; bool_prop.
  2: { split; [reflexivity|]. split; [reflexivity|]. split; [|intros; congruence].
       destruct (decide _) as [[-> X]|]; [congruence|reflexivity]. }
  set (t1 := tset t i (with_parent init)).
  assert (G : tget t1 j = if decide (i = j) then with_parent init (tget t j) else tget t j) by (apply tget_tset; exact Hi).
  assert (Ez : eased (tget t j) (tget t1 j)) by (rewrite G; destruct (decide _); [unfold eased; cbn; repeat split; auto|reflexivity]).
  assert (Pj : p_parent (tget t1 j) = if decide (i = j /\ p_parent (tget t j) = me) then init else p_parent (tget t j)).
  { rewrite G. destruct (decide (i = j)) as [->|n]; [rewrite decide_True by auto; reflexivity|].
    rewrite decide_False by (intros [? _]; congruence). reflexivity. }
  destruct (bool_decide_reflect (p_state (tget t1 i) = ZOMBIE)) as [Z0|Z0].
  - rewrite tget_wakeup1, wakeup1_length, wake_parent. unfold t1 at 2. rewrite tset_length.
    split; [etransitivity; [exact Ez|apply wake_eased]|]. split; [reflexivity|]. split; [exact Pj|].
    intros _ _ Sl. apply wake_sleeping in Sl as [_ X]. destruct Ez as (_ & Ec & _). congruence.
  - split; [exact Ez|]. split; [apply tset_length|]. split; [exact Pj|].
    intros _ Zi. elim Z0. unfold t1. rewrite tget_tset, decide_True by auto. exact Zi.
Qed.

Lemma reparent_loop_spec n i me init t j : me <> init -> (i + n <= length t)%nat ->
  let t' := reparent_loop n i me init t in
  eased (tget t j) (tget t' j) /\ length t' = length t /\
  p_parent (tget t' j) = (if decide ((i <= j < i + n)%nat /\ p_parent (tget t j) = me) then init else p_parent (tget t j)) /\
  ((exists k, (i <= k < i + n)%nat /\ p_parent (tget t k) = me /\ p_state (tget t k) = ZOMBIE) ->
     p_state (tget t' j) = SLEEPING -> p_chan (tget t j) <> init).
Proof.
  intros Hne. revert i t; induction n as [|n IH]; intros i t Hi t'; cbn [reparent_loop] in t'.
  - split; [reflexivity|]. split; [reflexivity|]. rewrite decide_False by (intros [? _]; lia).
    split; [reflexivity|]. intros (k & Hk & _). lia.
  - destruct (adopt_spec i me init t j ltac:(lia)) as (Ez & L & Pj & W).
    change (if p_parent (tget t i) =? me then _ else t) with (adopt i me init t) in t'.
    specialize (IH (S i) (adopt i me init t) ltac:(lia)). fold t' in IH. destruct IH as (Ez' & L' & Pj' & W').
    split; [etransitivity; eassumption|]. split; [congruence|]. split.
    + rewrite Pj'. destruct (decide (i = j /\ _)) as [[-> X]|N]; rewrite Pj.
      * rewrite decide_False by (intros [? _]; lia). rewrite decide_True by (split; [lia|exact X]). reflexivity.
      * apply decide_ext. split; [intros [B X]; split; [lia|exact X]|].
        intros [B X]. split; [|exact X]. destruct (Nat.eq_dec i j) as [e|]; [elim N; split; [exact e|exact X]|lia].
    + intros (k & Hk & Pk & Zk) Sl. pose proof Ez as (_ & Ec & _). destruct (Nat.eq_dec k i) as [->|n0].
      * apply W; auto. exact (eased_sleeping _ _ Ez' Sl).
      * rewrite <- Ec. apply W'; [|exact Sl]. exists k. split; [lia|].
        destruct (adopt_spec i me init t k ltac:(lia)) as (Ek & _ & Pk' & _).
        rewrite Pk', decide_False by (intros [? _]; congruence). split; [exact Pk|]. now apply (eased_zombie _ _ Ek).
Qed.

(** The table after the critical section of [exit]. *)
Lemma exit_table_spec i me init t j : me <> init -> me <> 0 -> (i < length t)%nat ->
  let t' := exit_table i me init t in
  length t' = length t /\ p_state (tget t' i) = ZOMBIE /\
  (i <> j -> eased (tget t j) (tget t' j)) /\
  p_pid (tget t' j) = p_pid (tget t j) /\
  p_parent (tget t' j) = (if decide (p_parent (tget t j) = me) then init else p_parent (tget t j)) /\
  (i <> j -> p_state (tget t' j) = SLEEPING -> p_chan (tget t j) <> p_parent (tget t i) /\
     ((exists k, p_parent (tget t k) = me /\ p_state (tget t k) = ZOMBIE) -> p_chan (tget t j) <> init)).
Proof.
  intros Hne H0 Hi t'. unfold exit_table in t'. set (t0 := wakeup1 (p_parent (tget t i)) t) in t'.
  assert (L0 : length t0 = length t) by apply wakeup1_length.
  destruct (reparent_loop_spec (length t0) 0 me init t0 j Hne ltac:(lia)) as (Ez & L & Pj & W).
  change (reparent_loop (length t0) 0 me init t0) with (reparent me init t0) in *.
  assert (G : forall x, tget t' x = if decide (i = x) then with_state ZOMBIE (tget (reparent me init t0) x) else tget (reparent me init t0) x)
    by (intros; apply tget_tset; lia).
  assert (E0 : forall x, eased (tget t x) (tget t0 x)) by (intros; unfold t0; rewrite tget_wakeup1; apply wake_eased).
  assert (P0 : forall x, p_parent (tget t0 x) = p_parent (tget t x)) by (intros; unfold t0; rewrite tget_wakeup1; apply wake_parent).
  split; [unfold t'; rewrite tset_length; lia|]. split; [rewrite G, decide_True; reflexivity|]. split.
  { intros n. rewrite G, decide_False by exact n. etransitivity; [apply E0|exact Ez]. }
  split. { rewrite G. transitivity (p_pid (tget t0 j)); [|apply E0]. destruct (decide (i = j)); apply Ez. }
  split.
  { transitivity (p_parent (tget (reparent me init t0) j)); [rewrite G; now destruct (decide (i = j))|]. rewrite Pj, P0.
    destruct (decide (p_parent (tget t j) = me)) as [X|X]; [|rewrite decide_False by tauto; reflexivity].
    destruct (Nat.lt_ge_cases j (length t0)); [rewrite decide_True by (split; [lia|exact X]); reflexivity|].
    rewrite decide_False by (intros [? _]; lia). rewrite tget_out in X by lia. cbn in X. rewrite tget_out by lia.
    congruence. }
  intros n Sl. rewrite G, decide_False in Sl by exact n. pose proof (eased_sleeping _ _ Ez Sl) as S0.
  unfold t0 in S0. rewrite tget_wakeup1 in S0. apply wake_sleeping in S0 as [_ N]. split; [exact N|].
  intros (k & Pk & Zk). pose proof (E0 j) as (_ & Ec & _). rewrite <- Ec. apply W; [|exact Sl].
  exists k. rewrite P0. split; [|split; [exact Pk|now apply (eased_zombie _ _ (E0 k))]].
  destruct (Nat.lt_ge_cases k (length t0)); [lia|]. rewrite tget_out in Zk by lia. discriminate.
Qed.

(** ** The system *)

(** A CPU is in its scheduler, between two passes over the table, or runs the
    process at an index. *)
Inductive cpumode := Loop | Run (i : nat).

Record sys := mkSys { g_table : table; g_nextpid : Z; g_cpus : list cpumode }.

(** The same process in the fields that the table's invariant is about. *)
Definition same_core (p q : proc) : Prop :=
  p_state q = p_state p /\ p_pid q = p_pid p /\ p_parent q = p_parent p /\ p_chan q = p_chan p /\ p_killed q = p_killed p.

Section System.

(** The addresses of the table and of the first process, and its index. *)
Variable ptable : Z.
Variable init : nat.
Abbreviation addr := (paddr ptable).

(** What the process at [i] does without giving up its CPU: [allocproc], the rest
    of [fork], reaping in [wait], the end of [sleep], [wakeup] and [kill], and
    whatever does not concern the table's invariant. *)
Inductive lstep (i : nat) : table * Z -> table * Z -> Prop :=
| l_alloc t n e : find_unused t = Some e -> n + 1 < two31 ->
    lstep i (t, n) (tset t e (fun p => with_pid n (with_state EMBRYO p)), n + 1)
| l_abort t n e : (e < length t)%nat -> p_state (tget t e) = EMBRYO -> p_parent (tget t e) = 0 ->
    lstep i (t, n) (tset t e (with_state UNUSED), n)
| l_parent t n e : (e < length t)%nat -> p_state (tget t e) = EMBRYO -> p_parent (tget t e) = 0 ->
    lstep i (t, n) (tset t e (with_parent (addr i)), n)
| l_ready t n e : (e < length t)%nat -> p_state (tget t e) = EMBRYO -> p_parent (tget t e) <> 0 ->
    lstep i (t, n) (tset t e (with_state RUNNABLE), n)
| l_reap t n j : wait_scan (addr i) t 0 false = Exited j -> lstep i (t, n) (tset t j reaped, n)
| l_unsleep t n : (i < length t)%nat -> lstep i (t, n) (tset t i (with_chan 0), n)
| l_wakeup t n chan : lstep i (t, n) (wakeup1 chan t, n)
| l_kill t n pid t' : kill_table pid t = Some t' -> lstep i (t, n) (t', n)
| l_data t n t' : Forall2 same_core t t' -> lstep i (t, n) (t', n).

(** What the process at [i] does before [sched]. *)
Inductive leave (i : nat) : table -> table -> Prop :=
| v_yield t : leave i t (tset t i (with_state RUNNABLE))
| v_sleep t chan : chan <> addr i -> leave i t (tset t i (fun p => with_state SLEEPING (with_chan chan p)))
| v_wait t : wait_scan (addr i) t 0 false = Kids -> p_killed (tget t i) = 0 ->
    leave i t (tset t i (fun p => with_state SLEEPING (with_chan (addr i) p)))
| v_exit t : i <> init -> leave i t (exit_table i (addr i) (addr init) t).

(** The scheduler's choice from index [k] on. *)
Definition dispatch (k : nat) (t : table) : table * cpumode :=
  match next_runnable k t with
  | Some i => (tset t i (with_state RUNNING), Run i)
  | None => (t, Loop)
  end.

Inductive gstep : sys -> sys -> Prop :=
| g_local c i t n cs t' n' : cs !! c = Some (Run i) -> lstep i (t, n) (t', n') -> gstep (mkSys t n cs) (mkSys t' n' cs)
| g_leave c i t n cs t1 t' m : cs !! c = Some (Run i) -> leave i t t1 -> dispatch (S i) t1 = (t', m) ->
    gstep (mkSys t n cs) (mkSys t' n (<[c := m]> cs))
| g_pass c t n cs t' m : cs !! c = Some Loop -> dispatch 0 t = (t', m) ->
    gstep (mkSys t n cs) (mkSys t' n (<[c := m]> cs)).

(** ** The invariant *)

Definition alive (s : procstate) : Prop := s = SLEEPING \/ s = RUNNABLE \/ s = RUNNING.

(** A process's parent: an [EMBRYO] may not have one yet. *)
Definition parented (t : table) (i : nat) : Prop :=
  p_state (tget t i) = EMBRYO /\ p_parent (tget t i) = 0 \/
  exists j, p_parent (tget t i) = addr j /\ i <> j /\ alive (p_state (tget t j)).

Record tinv (t : table) (n : Z) : Prop := {
  ti_len : length t = NPROC;
  ti_pid : forall i, p_state (tget t i) <> UNUSED -> 1 <= p_pid (tget t i) < n;
  ti_inj : forall i j, p_state (tget t i) <> UNUSED -> p_state (tget t j) <> UNUSED ->
    p_pid (tget t i) = p_pid (tget t j) -> i = j;
  ti_free : forall i, p_state (tget t i) = UNUSED -> p_parent (tget t i) = 0;
  ti_parent : forall i, p_state (tget t i) <> UNUSED -> i <> init -> parented t i;
  ti_init : alive (p_state (tget t init)) /\ p_parent (tget t init) = 0;
  ti_wait : forall i, p_state (tget t i) = SLEEPING -> p_chan (tget t i) = addr i ->
    p_killed (tget t i) = 0 /\ (exists j, p_parent (tget t j) = addr i) /\
    forall j, p_parent (tget t j) = addr i -> p_state (tget t j) <> ZOMBIE }.

Record cinv (t : table) (cs : list cpumode) : Prop := {
  ci_run : forall c i, cs !! c = Some (Run i) -> p_state (tget t i) = RUNNING;
  ci_one : forall c c' i, cs !! c = Some (Run i) -> cs !! c' = Some (Run i) -> c = c';
  ci_on : forall i, p_state (tget t i) = RUNNING -> exists c, cs !! c = Some (Run i) }.

Definition ginv (g : sys) : Prop := tinv (g_table g) (g_nextpid g) /\ cinv (g_table g) (g_cpus g).

Hypothesis ptable_pos : 0 < ptable.

Lemma addr_pos i : addr i <> 0.
Proof. unfold paddr, P_size. lia. Qed.

Lemma addr_inj i j : addr i = addr j -> i = j.
Proof. unfold paddr, P_size. lia. Qed.

Lemma live_in t i : p_state (tget t i) <> UNUSED -> (i < length t)%nat.
Proof. intros Ht. destruct (Nat.lt_ge_cases i (length t)); [assumption|]. elim Ht. now rewrite tget_out. Qed.

Lemma child_not_init t n i j : tinv t n -> p_parent (tget t j) = addr i -> j <> init /\ p_state (tget t j) <> UNUSED.
Proof.
  intros T E. split; intros X.
  - subst. rewrite (proj2 (ti_init _ _ T)) in E. symmetry in E. now apply addr_pos in E.
  - rewrite (ti_free _ _ T _ X) in E. symmetry in E. now apply addr_pos in E.
Qed.

(** A change of one entry that no clause of the invariant can see. *)
Record quiet (a : Z) (p q : proc) : Prop := {
  q_pid : p_pid q = p_pid p;
  q_parent : p_parent q = p_parent p;
  q_unused : p_state q = UNUSED <-> p_state p = UNUSED;
  q_embryo : p_state p = EMBRYO -> p_parent p = 0 -> p_state q = EMBRYO;
  q_alive : alive (p_state p) -> alive (p_state q);
  q_zombie : p_state q = ZOMBIE -> p_state p = ZOMBIE;
  q_wait : p_state q = SLEEPING -> p_chan q = a -> p_state p = SLEEPING /\ p_chan p = a /\ p_killed q = p_killed p }.

Lemma quiet_refl a p : quiet a p p.
Proof. constructor; auto. Qed.

Lemma calm_tinv t t' n : tinv t n -> length t' = length t ->
  (forall i, p_pid (tget t' i) = p_pid (tget t i) /\ p_parent (tget t' i) = p_parent (tget t i) /\
     (p_state (tget t' i) = UNUSED <-> p_state (tget t i) = UNUSED) /\
     (p_state (tget t i) = EMBRYO -> p_parent (tget t i) = 0 -> p_state (tget t' i) = EMBRYO) /\
     (alive (p_state (tget t i)) -> alive (p_state (tget t' i))) /\
     (p_state (tget t' i) = ZOMBIE -> p_state (tget t i) = ZOMBIE)) ->
  (forall i, p_state (tget t' i) = SLEEPING -> p_chan (tget t' i) = addr i ->
     p_killed (tget t' i) = 0 /\ (exists j, p_parent (tget t j) = addr i) /\
     forall j, p_parent (tget t j) = addr i -> p_state (tget t j) <> ZOMBIE) -> tinv t' n.
Proof.
  intros T L Q W.
  assert (U : forall i, p_state (tget t' i) = UNUSED <-> p_state (tget t i) = UNUSED) by apply Q.
  assert (Pd : forall i, p_pid (tget t' i) = p_pid (tget t i)) by apply Q.
  assert (Pa : forall i, p_parent (tget t' i) = p_parent (tget t i)) by apply Q.
  assert (A : forall i, alive (p_state (tget t i)) -> alive (p_state (tget t' i))) by apply Q.
  constructor.
  - rewrite L. apply (ti_len _ _ T).
  - intros i Hi. rewrite Pd. apply (ti_pid _ _ T). now rewrite <- U.
  - intros i j Hi Hj. rewrite !Pd. apply (ti_inj _ _ T); now rewrite <- U.
  - intros i Hi. rewrite Pa. apply (ti_free _ _ T). now rewrite <- U.
  - intros i Hi Ni. rewrite U in Hi. unfold parented. rewrite Pa.
    destruct (ti_parent _ _ T i Hi Ni) as [[E P0]|(j & E & N & Aj)]; [left; split; [now apply Q|exact P0]|].
    right. exists j. auto.
  - rewrite Pa. split; [apply A|]; apply (ti_init _ _ T).
  - intros i Hs Hc. destruct (W i Hs Hc) as (K & (j & Ej) & Z0). split; [exact K|]. split; [exists j; now rewrite Pa|].
    intros k. rewrite Pa. intros Ek X. apply (Z0 k Ek). now apply Q.
Qed.

Lemma quiet_tinv t t' n : tinv t n -> length t' = length t -> (forall i, quiet (addr i) (tget t i) (tget t' i)) -> tinv t' n.
Proof.
  intros T L Q. apply (calm_tinv t); [exact T|exact L| |].
  - intros i. destruct (Q i). auto 7.
  - intros i Hs Hc. destruct (q_wait _ _ _ (Q i) Hs Hc) as (Hs' & Hc' & ->). now apply (ti_wait _ _ T).
Qed.

Lemma quiet_tset t n e f : tinv t n -> (e < length t)%nat -> quiet (addr e) (tget t e) (f (tget t e)) -> tinv (tset t e f) n.
Proof.
  intros T He Q. apply (quiet_tinv t); [exact T|apply tset_length|]. intros i. rewrite tget_tset by exact He.
  destruct (decide (e = i)) as [->|]; [exact Q|apply quiet_refl].
Qed.

Lemma quiet_wake a c p : quiet a p (wake c p).
Proof.
  destruct (wake_cases c p) as [[-> _]|(E & _ & ->)]; [apply quiet_refl|].
  constructor; cbn; rewrite ?E; try tauto; try congruence; unfold alive; auto. split; discriminate.
Qed.

Lemma quiet_core a p q : same_core p q -> quiet a p q.
Proof. intros (S0 & P0 & A0 & C0 & K0). constructor; rewrite ?S0, ?P0, ?A0, ?C0, ?K0; auto. Qed.

(** Giving an [alive] process another such state. *)
Lemma quiet_state a s p : alive (p_state p) -> s = RUNNABLE \/ s = RUNNING -> quiet a p (with_state s p).
Proof.
  intros A S0. constructor; cbn; auto.
  - unfold alive in A. destruct S0, A as [?|[?|?]]; subst; intuition congruence.
  - unfold alive in A. destruct A as [?|[?|?]]; intuition congruence.
  - unfold alive. tauto.
  - destruct S0; congruence.
  - destruct S0; congruence.
Qed.

Lemma kill_table_some pid t t' : kill_table pid t = Some t' -> exists i, (i < length t)%nat /\ p_pid (tget t i) = pid /\
  t' = tset t i (fun p => let p := with_killed 1 p in if bool_decide (p_state p = SLEEPING) then with_state RUNNABLE p else p).
Proof.
  unfold kill_table. destruct (scan _ t 0) as [i|] eqn:E; [|discriminate]. intros X. injection X as <-.
  apply scan_some in E as (B & P0 & _). rewrite Nat.sub_0_r in P0. bool_prop. exists i. split; [lia|]. split; [exact P0|reflexivity].
Qed.

Lemma quiet_kill a p : quiet a p (let p := with_killed 1 p in if bool_decide (p_state p = SLEEPING) then with_state RUNNABLE p else p).
Proof.
  cbn. destruct (bool_decide_reflect (p_state p = SLEEPING)) as [E|E].
  - constructor; cbn; rewrite ?E; try congruence; try (split; discriminate). unfold alive. auto.
  - constructor; cbn; auto. intros X. now elim E.
Qed.

Lemma data_quiet t n t' : tinv t n -> Forall2 same_core t t' -> tinv t' n.
Proof.
  intros T F. apply (quiet_tinv t); [exact T|symmetry; now apply Forall2_length in F|].
  intros i. destruct (Nat.lt_ge_cases i (length t)) as [Hi|Hi].
  - apply quiet_core. unfold tget. rewrite !nth_lookup.
    destruct (lookup_lt_is_Some_2 t i Hi) as [p Hp]. destruct (Forall2_lookup_l _ _ _ _ _ F Hp) as (q & Hq & R).
    now rewrite Hp, Hq.
  - rewrite !tget_out; [apply quiet_refl| |exact Hi]. apply Forall2_length in F. lia.
Qed.

Lemma not_alive_unused : ~ alive UNUSED.
Proof. intros [X|[X|X]]; discriminate. Qed.
Lemma not_alive_embryo : ~ alive EMBRYO.
Proof. intros [X|[X|X]]; discriminate. Qed.
Lemma not_alive_zombie : ~ alive ZOMBIE.
Proof. intros [X|[X|X]]; discriminate. Qed.

(** A change of an entry that is not [alive], and has no children, leaves the
    other entries as they were. *)
Lemma parented_other t e f i : (e < length t)%nat -> ~ alive (p_state (tget t e)) -> e <> i -> parented t i -> parented (tset t e f) i.
Proof.
  intros He Na Ni P. unfold parented. rewrite !tget_tset, decide_False by auto.
  destruct P as [P|(j & E & N & A)]; [left; exact P|right]. exists j. split; [exact E|]. split; [exact N|].
  rewrite tget_tset by exact He. destruct (decide (e = j)) as [->|]; [tauto|exact A].
Qed.

Lemma tset_tinv t n n' e f : tinv t n -> (e < length t)%nat -> n <= n' -> ~ alive (p_state (tget t e)) ->
  let q := f (tget t e) in
  (p_state q <> UNUSED -> 1 <= p_pid q < n' /\ (p_pid q = p_pid (tget t e) /\ p_state (tget t e) <> UNUSED \/ n <= p_pid q)) ->
  (p_state q = UNUSED -> p_parent q = 0) ->
  (p_state q <> UNUSED -> parented (tset t e f) e) ->
  p_state q <> SLEEPING -> p_state q <> ZOMBIE ->
  (forall k, p_parent (tget t e) = addr k -> p_parent q = addr k \/ p_state (tget t k) <> SLEEPING) ->
  tinv (tset t e f) n'.
Proof.
  intros T He Hn Na q Pid Fr Par Ns Nz Kid.
  assert (Ni : e <> init) by (intros ->; apply Na; apply (ti_init _ _ T)).
  assert (G : forall i, tget (tset t e f) i = if decide (e = i) then q else tget t i).
  { intros i. rewrite tget_tset by exact He. now destruct (decide (e = i)) as [->|]. }
  constructor.
  - rewrite tset_length. apply (ti_len _ _ T).
  - intros i. rewrite G. destruct (decide (e = i)); [apply Pid|]. intros Hi. pose proof (ti_pid _ _ T i Hi). lia.
  - intros i j. rewrite !G. destruct (decide (e = i)) as [<-|Ei], (decide (e = j)) as [<-|Ej]; try reflexivity; [| |apply (ti_inj _ _ T)].
    + intros U V E. destruct (proj2 (Pid U)) as [[Pq Ue]|Pq]; [rewrite Pq in E; now apply (ti_inj _ _ T)|].
      pose proof (ti_pid _ _ T j V). lia.
    + intros U V E. destruct (proj2 (Pid V)) as [[Pq Ue]|Pq]; [rewrite Pq in E; now apply (ti_inj _ _ T)|].
      pose proof (ti_pid _ _ T i U). lia.
  - intros i. rewrite G. destruct (decide (e = i)); [apply Fr|apply (ti_free _ _ T)].
  - intros i. rewrite G. destruct (decide (e = i)) as [<-|Ei]; [intros U _; now apply Par|].
    intros U I0. apply parented_other; auto. now apply (ti_parent _ _ T).
  - rewrite G, decide_False by exact Ni. apply (ti_init _ _ T).
  - intros i. rewrite G. destruct (decide (e = i)) as [<-|Ei]; [intros X; contradiction|]. intros Hs Hc.
    destruct (ti_wait _ _ T i Hs Hc) as (K0 & (j & Ej) & Z0). split; [exact K0|]. split.
    + destruct (decide (e = j)) as [<-|Ne]; [|exists j; now rewrite G, decide_False].
      exists e. rewrite G, decide_True by reflexivity. destruct (Kid i Ej); [assumption|contradiction].
    + intros k. rewrite G. destruct (decide (e = k)) as [<-|]; [intros _; exact Nz|apply Z0].
Qed.

Lemma wait_scan_exited me t j : wait_scan me t 0 false = Exited j ->
  (j < length t)%nat /\ p_parent (tget t j) = me /\ p_state (tget t j) = ZOMBIE /\
  forall k, (k < j)%nat -> p_parent (tget t k) = me -> p_state (tget t k) <> ZOMBIE.
Proof.
  intros E. pose proof (wait_scan_spec me t 0 false) as X. rewrite E in X. destruct X as (B & P0 & Z0 & N).
  rewrite Nat.sub_0_r in *. split; [lia|]. split; [exact P0|]. split; [exact Z0|].
  intros k Hk. specialize (N k ltac:(lia)). now rewrite Nat.sub_0_r in N.
Qed.

Lemma lstep_tinv i t n t' n' : lstep i (t, n) (t', n') -> tinv t n -> p_state (tget t i) = RUNNING -> tinv t' n'.
Proof.
  intros L T R. inversion L as [t0 n0 e Fu Bn|t0 n0 e He Em Pe|t0 n0 e He Em Pe|t0 n0 e He Em Pe|t0 n0 j Ws|t0 n0 Hi|t0 n0 ch|t0 n0 pid t1 Kt|t0 n0 t1 Fd]; subst; clear L.
  - destruct (find_unused_some _ _ Fu) as [He U].
    assert (1 <= n) by (pose proof (ti_pid _ _ T i ltac:(congruence)); lia).
    apply (tset_tinv t n); auto; cbn; rewrite ?U; try lia; try congruence.
    + apply not_alive_unused.
    + intros _. left. rewrite tget_tset, decide_True by auto. cbn. split; [reflexivity|]. now apply (ti_free _ _ T).
  - apply (tset_tinv t n'); auto; cbn; try lia; try congruence.
    rewrite Em. apply not_alive_embryo.
  - apply (tset_tinv t n'); auto; cbn; try lia; try congruence.
    + rewrite Em. apply not_alive_embryo.
    + intros U. split; [now apply (ti_pid _ _ T)|]. left. auto.
    + intros _. right. exists i. rewrite !tget_tset, decide_True by auto. cbn. split; [reflexivity|].
      assert (e <> i) by congruence. split; [assumption|]. rewrite decide_False by assumption. rewrite R. unfold alive. auto.
    + intros k E. rewrite Pe in E. symmetry in E. now apply addr_pos in E.
  - apply (quiet_tset t n'); auto. constructor; cbn; rewrite ?Em; try congruence; try (split; discriminate). unfold alive. auto.
  - destruct (wait_scan_exited _ _ _ Ws) as (Hj & Pj & Zj & _).
    apply (tset_tinv t n'); auto; cbn; try lia; try congruence; [rewrite Zj; apply not_alive_zombie|].
    intros k E. right. rewrite Pj in E. apply addr_inj in E as <-. congruence.
  - apply (quiet_tset t n'); auto. constructor; cbn; auto; rewrite R; congruence.
  - apply (quiet_tinv t); [exact T|apply wakeup1_length|]. intros j. rewrite tget_wakeup1. apply quiet_wake.
  - destruct (kill_table_some _ _ _ Kt) as (j & Hj & _ & ->). apply (quiet_tset t n'); auto. apply quiet_kill.
  - now apply (data_quiet t).
Qed.

Lemma eased_alive p q : eased p q -> alive (p_state p) -> alive (p_state q).
Proof. unfold alive. intros (_ & _ & _ & [E|[_ E]]); rewrite E; tauto. Qed.

Lemma eased_state p q s : eased p q -> s <> SLEEPING -> s <> RUNNABLE -> p_state q = s <-> p_state p = s.
Proof. intros (_ & _ & _ & [E|[E X]]); rewrite ?E, ?X; intuition congruence. Qed.

(** Nobody is left asleep in [wait] with a child that has exited. *)
Lemma exit_wait i t n k : tinv t n -> p_state (tget t i) = RUNNING -> i <> init ->
  let t' := exit_table i (addr i) (addr init) t in
  p_state (tget t' k) = SLEEPING -> p_chan (tget t' k) = addr k ->
  p_killed (tget t' k) = 0 /\ (exists j, p_parent (tget t' j) = addr k) /\
  forall j, p_parent (tget t' j) = addr k -> p_state (tget t' j) <> ZOMBIE.
Proof.
  intros T R Ni t' Hs Hc. assert (Hi : (i < length t)%nat) by (apply live_in; congruence).
  assert (Na : addr i <> addr init) by (intros X; apply Ni; now apply addr_inj).
  pose proof (fun j => exit_table_spec i (addr i) (addr init) t j Na (addr_pos i) Hi) as Sp. fold t' in Sp. cbn zeta in Sp.
  assert (Nk : i <> k) by (intros <-; destruct (Sp i) as (_ & Zi & _); congruence).
  destruct (Sp k) as (_ & _ & Ez & _ & _ & W). specialize (Ez Nk). specialize (W Nk Hs) as [W1 W2].
  pose proof Ez as (_ & Ec & Ek & _). rewrite Ec in Hc. pose proof (eased_sleeping _ _ Ez Hs) as Hs0.
  destruct (ti_wait _ _ T k Hs0 Hc) as (K0 & (j & Ej) & Z0).
  assert (Pa : forall x, p_parent (tget t' x) = if decide (p_parent (tget t x) = addr i) then addr init else p_parent (tget t x)) by (intros; apply Sp).
  split; [congruence|]. split.
  { exists j. rewrite Pa, decide_False; [exact Ej|]. rewrite Ej. intros X. apply Nk. symmetry. now apply addr_inj. }
  intros x. rewrite Pa. destruct (decide (p_parent (tget t x) = addr i)) as [E|E]; intros X Zx.
  - apply addr_inj in X as <-. destruct (child_not_init _ _ _ _ T E) as [Nx Ux].
    assert (Nix : i <> x).
    { intros <-. destruct (ti_parent _ _ T i Ux Nx) as [[Em _]|(y & Ey & Ny & _)]; [congruence|].
      rewrite E in Ey. now apply addr_inj in Ey. }
    apply W2; [|exact Hc]. exists x. split; [exact E|]. destruct (Sp x) as (_ & _ & Ex & _). now apply (eased_zombie _ _ (Ex Nix)).
  - destruct (Nat.eq_dec i x) as [<-|Nix]; [congruence|]. apply (Z0 x X).
    destruct (Sp x) as (_ & _ & Ex & _). now apply (eased_zombie _ _ (Ex Nix)).
Qed.

Lemma exit_tinv i t n : tinv t n -> p_state (tget t i) = RUNNING -> i <> init -> tinv (exit_table i (addr i) (addr init) t) n.
Proof.
  intros T R Ni. set (t' := exit_table _ _ _ _). assert (Hi : (i < length t)%nat) by (apply live_in; congruence).
  assert (Na : addr i <> addr init) by (intros X; apply Ni; now apply addr_inj).
  pose proof (fun j => exit_table_spec i (addr i) (addr init) t j Na (addr_pos i) Hi) as Sp. fold t' in Sp. cbn zeta in Sp.
  destruct (Sp i) as (L & Zi & _).
  assert (U : forall j, p_state (tget t' j) = UNUSED <-> p_state (tget t j) = UNUSED).
  { intros j. destruct (Nat.eq_dec i j) as [<-|N]; [rewrite Zi, R; split; discriminate|].
    destruct (Sp j) as (_ & _ & Ez & _). now apply eased_state; [apply Ez| |]. }
  assert (A : forall j, i <> j -> alive (p_state (tget t j)) -> alive (p_state (tget t' j)))
    by (intros j N; destruct (Sp j) as (_ & _ & Ez & _); now apply eased_alive, Ez).
  assert (Pa : forall j, p_parent (tget t' j) = if decide (p_parent (tget t j) = addr i) then addr init else p_parent (tget t j)) by (intros; apply Sp).
  assert (Pd : forall j, p_pid (tget t' j) = p_pid (tget t j)) by (intros; apply Sp).
  constructor.
  - rewrite L. apply (ti_len _ _ T).
  - intros j Hj. rewrite Pd. apply (ti_pid _ _ T). now rewrite <- U.
  - intros j k Hj Hk. rewrite !Pd. apply (ti_inj _ _ T); now rewrite <- U.
  - intros j Hj. rewrite Pa. apply U in Hj. rewrite (ti_free _ _ T j Hj). rewrite decide_False; [reflexivity|]. intros X. symmetry in X. now apply addr_pos in X.
  - intros j Hj Nj. rewrite U in Hj. unfold parented. rewrite Pa.
    destruct (decide (p_parent (tget t j) = addr i)) as [E|E].
    + right. exists init. split; [reflexivity|]. split; [exact Nj|]. apply A; [exact Ni|]. apply (ti_init _ _ T).
    + destruct (ti_parent _ _ T j Hj Nj) as [[Em P0]|(k & Ek & Njk & Ak)].
      * left. split; [|exact P0]. destruct (Nat.eq_dec i j) as [<-|N]; [congruence|]. destruct (Sp j) as (_ & _ & Ez & _).
        now apply (eased_state _ _ EMBRYO (Ez N)).
      * right. exists k. split; [exact Ek|]. split; [exact Njk|]. apply A; [|exact Ak]. intros <-. now elim E.
  - rewrite Pa, (proj2 (ti_init _ _ T)), decide_False by (intros X; symmetry in X; now apply addr_pos in X).
    split; [apply A; [exact Ni|apply (ti_init _ _ T)]|reflexivity].
  - intros k. now apply (exit_wait i t n k).
Qed.

Lemma wait_scan_kids i t : wait_scan (addr i) t 0 false = Kids -> (exists j, p_parent (tget t j) = addr i) /\
  forall j, p_parent (tget t j) = addr i -> p_state (tget t j) <> ZOMBIE.
Proof.
  intros E. pose proof (wait_scan_spec (addr i) t 0 false) as X. rewrite E in X. destruct X as ([X|(j & B & Pj)] & N); [discriminate|].
  rewrite Nat.sub_0_r in Pj. split; [exists j; exact Pj|].
  intros k Pk. destruct (Nat.lt_ge_cases k (length t)) as [Hk|Hk]; [|rewrite tget_out by lia; discriminate].
  specialize (N k ltac:(lia)). rewrite Nat.sub_0_r in N. now apply N.
Qed.

Lemma leave_tinv i t t1 n : leave i t t1 -> tinv t n -> p_state (tget t i) = RUNNING -> tinv t1 n.
Proof.
  intros V T R. assert (Hi : (i < length t)%nat) by (apply live_in; congruence).
  destruct V as [t|t chan Nc|t Ks Nk|t Ni].
  - apply (quiet_tset t n); auto. apply quiet_state; [rewrite R; unfold alive; auto|auto].
  - apply (quiet_tset t n); auto. constructor; cbn; rewrite ?R; try congruence; try (split; discriminate). unfold alive. auto.
  - destruct (wait_scan_kids _ _ Ks) as [Ex Nz]. apply (calm_tinv t); [exact T|apply tset_length| |].
    + intros j. rewrite tget_tset by exact Hi. destruct (decide (i = j)) as [<-|]; [|tauto].
      cbn. rewrite R. unfold alive. repeat split; auto; discriminate.
    + intros j. rewrite tget_tset by exact Hi. destruct (decide (i = j)) as [<-|]; [cbn; auto|apply (ti_wait _ _ T)].
  - now apply exit_tinv.
Qed.

Lemma dispatch_tinv k t n t' m : dispatch k t = (t', m) -> tinv t n -> tinv t' n.
Proof.
  unfold dispatch. destruct (next_runnable k t) as [i|] eqn:E; intros X T; injection X as <- <-; [|exact T].
  apply next_runnable_some in E as (B & R & _). apply (quiet_tset t n); [exact T|lia|].
  apply quiet_state; [rewrite R; unfold alive; auto|auto].
Qed.

(** ** Which process runs where *)

Lemma lstep_running i t n t' n' j : lstep i (t, n) (t', n') -> p_state (tget t' j) = RUNNING <-> p_state (tget t j) = RUNNING.
Proof.
  intros L. inversion L as [t0 n0 e Fu Bn|t0 n0 e He Em Pe|t0 n0 e He Em Pe|t0 n0 e He Em Pe|t0 n0 k Ws|t0 n0 Hi|t0 n0 ch|t0 n0 pid t1 Kt|t0 n0 t1 Fd]; subst.
  - destruct (find_unused_some _ _ Fu) as [He U]. rewrite tget_tset by exact He. destruct (decide (e = j)) as [<-|]; [cbn; rewrite U; split; discriminate|tauto].
  - rewrite tget_tset by exact He. destruct (decide (e = j)) as [<-|]; [cbn; rewrite Em; split; discriminate|tauto].
  - rewrite tget_tset by exact He. destruct (decide (e = j)) as [<-|]; reflexivity.
  - rewrite tget_tset by exact He. destruct (decide (e = j)) as [<-|]; [cbn; rewrite Em; split; discriminate|tauto].
  - destruct (wait_scan_exited _ _ _ Ws) as (Hk & _ & Zk & _). rewrite tget_tset by exact Hk.
    destruct (decide (k = j)) as [<-|]; [cbn; rewrite Zk; split; discriminate|tauto].
  - rewrite tget_tset by exact Hi. destruct (decide (i = j)) as [<-|]; reflexivity.
  - rewrite tget_wakeup1. now apply eased_state; [apply wake_eased| |].
  - destruct (kill_table_some _ _ _ Kt) as (k & Hk & _ & ->). rewrite tget_tset by exact Hk. destruct (decide (k = j)) as [<-|]; [|tauto].
    cbn. destruct (bool_decide_reflect (p_state (tget t k) = SLEEPING)) as [E|E]; cbn; [rewrite E; split; discriminate|tauto].
  - unfold tget. rewrite !nth_lookup. destruct (t !! j) as [p|] eqn:Hp.
    + destruct (Forall2_lookup_l _ _ _ _ _ Fd Hp) as (q & Hq & (E & _)). rewrite Hq. cbn. now rewrite E.
    + apply lookup_ge_None in Hp. rewrite (Forall2_length _ _ _ Fd) in Hp. apply lookup_ge_None in Hp. now rewrite Hp.
Qed.

Lemma leave_running i t t1 j : leave i t t1 -> (i < length t)%nat ->
  p_state (tget t1 i) <> RUNNING /\ (i <> j -> p_state (tget t1 j) = RUNNING <-> p_state (tget t j) = RUNNING).
Proof.
  intros V Hi. destruct V as [t|t chan Nc|t Ks Nk|t Ni].
  1-3: rewrite !tget_tset, decide_True by auto; cbn; split; [discriminate|intros N; now rewrite decide_False].
  assert (Na : addr i <> addr init) by (intros X; apply Ni; now apply addr_inj).
  destruct (exit_table_spec i (addr i) (addr init) t j Na (addr_pos i) Hi) as (_ & Zi & Ez & _).
  split; [congruence|]. intros N. now apply eased_state; [apply Ez| |].
Qed.

Lemma cinv_loop t t1 cs c i : cinv t cs -> cs !! c = Some (Run i) -> p_state (tget t1 i) <> RUNNING ->
  (forall j, i <> j -> p_state (tget t1 j) = RUNNING <-> p_state (tget t j) = RUNNING) -> cinv t1 (<[c := Loop]> cs).
Proof.
  intros C E Ni Ho. pose proof (lookup_lt_Some _ _ _ E) as Hc.
  assert (G : forall d j, <[c := Loop]> cs !! d = Some (Run j) -> c <> d /\ cs !! d = Some (Run j)).
  { intros d j X. destruct (Nat.eq_dec c d) as [<-|N]; [rewrite list_lookup_insert_eq in X by exact Hc; discriminate|].
    rewrite list_lookup_insert_ne in X by exact N. auto. }
  constructor.
  - intros d j X. apply G in X as [N X]. apply Ho; [intros <-; apply N; now apply (ci_one _ _ C c d i)|now apply (ci_run _ _ C d)].
  - intros d d' j X Y. apply G in X as [_ X]. apply G in Y as [_ Y]. now apply (ci_one _ _ C d d' j).
  - intros j X. assert (N : i <> j) by (intros <-; contradiction). apply (Ho j N) in X. destruct (ci_on _ _ C j X) as [d Hd].
    exists d. rewrite list_lookup_insert_ne; [exact Hd|]. intros <-. congruence.
Qed.

Lemma cinv_dispatch k t t' m cs c : cinv t cs -> cs !! c = Some Loop -> dispatch k t = (t', m) -> cinv t' (<[c := m]> cs).
Proof.
  intros C E. unfold dispatch. pose proof (lookup_lt_Some _ _ _ E) as Hc.
  destruct (next_runnable k t) as [i|] eqn:Nx; intros X; injection X as <- <-; [|now rewrite list_insert_id].
  apply next_runnable_some in Nx as (B & R & _).
  assert (Gt : forall j, tget (tset t i (with_state RUNNING)) j = if decide (i = j) then with_state RUNNING (tget t j) else tget t j)
    by (intros; apply tget_tset; lia).
  assert (N : forall d, cs !! d <> Some (Run i)) by (intros d X; apply (ci_run _ _ C) in X; congruence).
  assert (G : forall d j, <[c := Run i]> cs !! d = Some (Run j) -> c = d /\ i = j \/ c <> d /\ i <> j /\ cs !! d = Some (Run j)).
  { intros d j X. destruct (Nat.eq_dec c d) as [<-|Nd]; [rewrite list_lookup_insert_eq in X by exact Hc; left; split; congruence|].
    rewrite list_lookup_insert_ne in X by exact Nd. right. split; [exact Nd|]. split; [intros <-; now apply N in X|exact X]. }
  constructor.
  - intros d j X. rewrite Gt. apply G in X as [[_ <-]|(_ & Nj & X)]; [now rewrite decide_True|].
    rewrite decide_False by exact Nj. now apply (ci_run _ _ C d).
  - intros d d' j X Y. apply G in X. apply G in Y. destruct X as [[<- <-]|(_ & Nj & X)], Y as [[<- Ej]|(_ & Nj' & Y)]; [reflexivity|congruence|congruence|]. now apply (ci_one _ _ C d d' j).
  - intros j. rewrite Gt. destruct (decide (i = j)) as [<-|Nj]; intros X; [exists c; now rewrite list_lookup_insert_eq|].
    destruct (ci_on _ _ C j X) as [d Hd]. exists d. rewrite list_lookup_insert_ne; [exact Hd|]. intros <-. congruence.
Qed.

Lemma gstep_ginv g g' : gstep g g' -> ginv g -> ginv g'.
Proof.
  intros St [T C]. destruct St as [c i t n cs t' n' E L|c i t n cs t1 t' m E V D|c t n cs t' m E D]; cbn in *.
  - pose proof (ci_run _ _ C _ _ E) as R. split; cbn; [now apply (lstep_tinv i t n)|].
    pose proof (fun j => lstep_running i t n t' n' j L) as S0. constructor.
    + intros d j X. apply S0. now apply (ci_run _ _ C d).
    + apply (ci_one _ _ C).
    + intros j X. apply S0 in X. now apply (ci_on _ _ C).
  - pose proof (ci_run _ _ C _ _ E) as R. assert (Hi : (i < length t)%nat) by (apply live_in; congruence).
    pose proof (fun j => leave_running i t t1 j V Hi) as S0. split; cbn.
    + apply (dispatch_tinv _ _ _ _ _ D). now apply (leave_tinv i t).
    + rewrite <- (list_insert_insert_eq cs c m Loop). apply (cinv_dispatch (S i) t1); [|now apply list_lookup_insert_eq, (lookup_lt_Some _ _ _ E)|exact D].
      apply (cinv_loop t t1 cs c i); [exact C|exact E|apply (S0 i)|intros j; apply S0].
  - split; cbn; [now apply (dispatch_tinv 0 t _ _ m)|now apply (cinv_dispatch 0 t)].
Qed.

Lemma ginv_reach g g' : rtc gstep g g' -> ginv g -> ginv g'.
Proof. induction 1; [auto|]. intros G. apply IHrtc. now apply (gstep_ginv x). Qed.

End System.

(** The system when the boot CPU and the others enter [scheduler]: [userinit] has
    made the first process. *)
Definition first_proc : proc := with_state RUNNABLE (with_pid 1 proc_zero).
Definition booted (ncpu : nat) : sys := mkSys (first_proc :: repeat proc_zero (NPROC - 1)) 2 (replicate ncpu Loop).

Lemma tget_booted ncpu i : tget (g_table (booted ncpu)) i = if decide (i = 0%nat) then first_proc else proc_zero.
Proof.
  destruct i as [|i]; [reflexivity|]. unfold tget, booted. cbn [g_table nth]. rewrite decide_False by lia. apply nth_repeat.
Qed.

Lemma booted_ginv ptable ncpu : 0 < ptable -> ginv ptable 0 (booted ncpu).
Proof.
  intros Hp. assert (G := tget_booted ncpu). split; constructor; try (intros i; rewrite ?G).
  - reflexivity.
  - destruct (decide _); cbn; [lia|congruence].
  - intros j. rewrite G. destruct (decide (i = 0%nat)), (decide (j = 0%nat)); cbn; try congruence.
  - destruct (decide _); cbn; [discriminate|reflexivity].
  - intros U Ni. rewrite decide_False in U by exact Ni. now elim U.
  - rewrite G. cbn. unfold alive. auto.
  - destruct (decide _); cbn; discriminate.
  - intros j X. cbn in X. apply lookup_replicate in X as [X _]. discriminate.
  - intros d j X. cbn in X. apply lookup_replicate in X as [X _]. discriminate.
  - destruct (decide _); cbn; discriminate.
Qed.

(** C8: The process table is consistent in every reachable state, whatever the
    interleaving of the CPUs.  A process is [RUNNING] exactly when it is on a CPU,
    and then on one only; the processes have different pids, smaller than
    [nextpid]; every process other than the first, once [fork] has given it a
    parent, has a parent that has not exited, so that exited processes can always
    be reaped; the first process stays alive; and a process that sleeps in [wait]
    has a child, none of its children has exited, and it has not been killed: no
    wakeup is lost. *)
Theorem process_table_consistent (ptable : Z) (ncpu : nat) (g : sys) : 0 < ptable -> rtc (gstep ptable 0) (booted ncpu) g ->
  let st i := p_state (tget (g_table g) i) in
  let parent i := p_parent (tget (g_table g) i) in
  let pid i := p_pid (tget (g_table g) i) in
  (forall i, st i = RUNNING <-> exists c, g_cpus g !! c = Some (Run i)) /\
  (forall c c' i, g_cpus g !! c = Some (Run i) -> g_cpus g !! c' = Some (Run i) -> c = c') /\
  (forall i j, st i <> UNUSED -> st j <> UNUSED -> 1 <= pid i < g_nextpid g /\ (pid i = pid j -> i = j)) /\
  (forall i, st i <> UNUSED -> st i <> EMBRYO -> i <> 0%nat -> exists j, parent i = paddr ptable j /\ alive (st j)) /\
  alive (st 0%nat) /\
  (forall i, st i = SLEEPING -> p_chan (tget (g_table g) i) = paddr ptable i ->
     p_killed (tget (g_table g) i) = 0 /\ (exists j, parent j = paddr ptable i) /\
     forall j, parent j = paddr ptable i -> st j <> ZOMBIE).
Proof.
  intros Hp R st parent pid. destruct (ginv_reach ptable 0 Hp _ _ R (booted_ginv ptable ncpu Hp)) as [T C]. split_and!.
  - intros i. split; [apply (ci_on _ _ C)|intros [c E]; apply (ci_run _ _ C c i E)].
  - apply (ci_one _ _ C).
  - intros i j Ui Uj. split; [now apply (ti_pid _ _ _ _ T)|now apply (ti_inj _ _ _ _ T)].
  - intros i Ui Ue Ni. destruct (ti_parent _ _ _ _ T i Ui Ni) as [[E _]|(j & E & _ & A)]; [contradiction|exists j; auto].
  - apply (ti_init _ _ _ _ T).
  - apply (ti_wait _ _ _ _ T).
Qed.

(** Two CPUs: the first runs the first process, which forks; the second runs the
    child, the parent waits, the child exits and the parent is awake again. *)
Definition sample_forking : table := tset (g_table (booted 2)) 0 (with_state RUNNING).
Definition sample_embryo : table := tset sample_forking 1 (fun p => with_pid 2 (with_state EMBRYO p)).
Definition sample_child : table := tset sample_embryo 1 (with_parent (paddr 1000 0)).
Definition sample_ready : table := tset sample_child 1 (with_state RUNNABLE).
Definition sample_both : table := tset sample_ready 1 (with_state RUNNING).
Definition sample_waiting : table := tset sample_both 0 (fun p => with_state SLEEPING (with_chan (paddr 1000 0) p)).
Definition sample_exited : table := exit_table 1 (paddr 1000 1) (paddr 1000 0) sample_waiting.
Definition sample_awake : table := tset sample_exited 0 (with_state RUNNING).

Lemma sample_run_ready : rtc (gstep 1000 0) (booted 2) (mkSys sample_ready 3 [Run 0; Loop]).
Proof.
  apply (rtc_l _ _ (mkSys sample_forking 2 [Run 0; Loop])).
  { apply (g_pass 1000 0 0 (g_table (booted 2)) 2 [Loop; Loop]); vm_compute; reflexivity. }
  apply (rtc_l _ _ (mkSys sample_embryo 3 [Run 0; Loop])).
  { apply (g_local 1000 0 0 0); [reflexivity|]. apply (l_alloc 1000 0 sample_forking 2 1); vm_compute; reflexivity. }
  apply (rtc_l _ _ (mkSys sample_child 3 [Run 0; Loop])).
  { apply (g_local 1000 0 0 0); [reflexivity|]. apply (l_parent 1000 0 sample_embryo 3 1); [vm_compute; lia|vm_compute; reflexivity..]. }
  apply rtc_once. apply (g_local 1000 0 0 0); [reflexivity|].
  apply (l_ready 1000 0 sample_child 3 1); [vm_compute; lia|vm_compute; reflexivity|vm_compute; discriminate].
Qed.

Lemma sample_run : rtc (gstep 1000 0) (booted 2) (mkSys sample_awake 3 [Run 0; Loop]).
Proof.
  etransitivity; [apply sample_run_ready|].
  apply (rtc_l _ _ (mkSys sample_both 3 [Run 0; Run 1])).
  { apply (g_pass 1000 0 1 sample_ready 3 [Run 0; Loop]); vm_compute; reflexivity. }
  apply (rtc_l _ _ (mkSys sample_waiting 3 [Loop; Run 1])).
  { apply (g_leave 1000 0 0 0 sample_both 3 [Run 0; Run 1] sample_waiting); [reflexivity|apply v_wait; vm_compute; reflexivity|vm_compute; reflexivity]. }
  apply (rtc_l _ _ (mkSys sample_exited 3 [Loop; Loop])).
  { apply (g_leave 1000 0 1 1 sample_waiting 3 [Loop; Run 1] sample_exited); [reflexivity|apply v_exit; discriminate|vm_compute; reflexivity]. }
  apply rtc_once. apply (g_pass 1000 0 0 sample_exited 3 [Loop; Loop]); vm_compute; reflexivity.
Qed.

Lemma process_table_consistent_witness : p_state (tget sample_awake 1) = ZOMBIE /\
  exists j, p_parent (tget sample_awake 1) = paddr 1000 j /\ alive (p_state (tget sample_awake j)).
Proof.
  assert (Z1 : p_state (tget sample_awake 1) = ZOMBIE) by (vm_compute; reflexivity). split; [exact Z1|].
  destruct (process_table_consistent 1000 2 _ ltac:(lia) sample_run) as (_ & _ & _ & P & _).
  apply (P 1%nat); [cbn [g_table]; rewrite Z1; discriminate..|discriminate].
Defined.
