(* ===== verification/Calls.v ===== *)
(** The calls of [src/xv6/xv6-public/proc.c] as steps of the system of [Sched].

    The calls of [Proc] and the parts of them before and after [swtch] change the
    table by steps that [lstep], [leave] and [dispatch] describe, so the invariant
    of [Sched] is one of the code.  The file also gives the exact results of the
    calls that only use the table and the lock. *)

From stdpp Require Import relations.
From S2P Require Import Prelude Mem Mmu Spinlock Kalloc PageTable Uvm Kvm Lazy FileApi Wunmap Proc Sched.

Lemma tset_tset t i f g : tset (tset t i f) i g = tset t i (fun p => g (f p)).
Proof.
  unfold tset. apply list_eq. intros j. destruct (Nat.eq_dec i j) as [<-|N].
  - rewrite !list_lookup_alter, !decide_True by reflexivity. now destruct (t !! i).
  - now rewrite !list_lookup_alter_ne.
Qed.

#[global] Instance same_core_refl : Reflexive same_core.
Proof. intros p. unfold same_core. auto. Qed.

Lemma core_tget t t' j : Forall2 same_core t t' -> same_core (tget t j) (tget t' j).
Proof.
  intros Fd. unfold tget. rewrite !nth_lookup. destruct (t !! j) as [p|] eqn:Hp.
  - destruct (Forall2_lookup_l _ _ _ _ _ Fd Hp) as (q & -> & R). exact R.
  - apply lookup_ge_None in Hp. rewrite (Forall2_length _ _ _ Fd) in Hp. apply lookup_ge_None in Hp. now rewrite Hp.
Qed.

Lemma core_tset t i f : (forall p, same_core p (f p)) -> Forall2 same_core t (tset t i f).
Proof.
  intros Hf. apply Forall2_same_length_lookup_2; [symmetry; apply tset_length|].
  intros j p q Hp Hq. unfold tset in Hq. rewrite list_lookup_alter in Hq.
  destruct (decide (i = j)) as [<-|]; [rewrite Hp in Hq; injection Hq as <-; apply Hf|].
  rewrite Hp in Hq. now injection Hq as <-.
Qed.

Lemma core_refl t : Forall2 same_core t t.
Proof. induction t; constructor; [reflexivity|assumption]. Qed.

Lemma core_trans t t1 t2 : Forall2 same_core t t1 -> Forall2 same_core t1 t2 -> Forall2 same_core t t2.
Proof.
  intros A. revert t2. induction A as [|p q t t1 P A IH]; intros t2 B; inversion B as [|q' r t1' t2' Q B']; subst; constructor; auto.
  unfold same_core in *. intuition congruence.
Qed.

Section Calls.
Context `{Linker}.
Context {F : Type} `{ProcFiles F}.
Variables ptable forkret_addr trapret_addr kpgdir : Z.
Abbreviation addr := (paddr ptable).
Abbreviation K := (M (kst F)).

(** The part of the state the system's steps work on. *)
Definition tn (s : kst F) : table * Z := (k_table s, k_nextpid s).

(** [s'] has the table of [s]; [frame] alone says that the globals agree. *)
Definition frame (s s' : kst F) : Prop :=
  k_nextpid s' = k_nextpid s /\ k_initproc s' = k_initproc s /\ k_curproc s' = k_curproc s.
Definition keeps (s s' : kst F) : Prop := k_table s' = k_table s /\ frame s s'.

#[local] Instance frame_refl : Reflexive frame.
Proof. intros s. unfold frame. auto. Qed.
#[local] Instance frame_trans : Transitive frame.
Proof. unfold frame. intros a b c (?&?&?) (?&?&?). repeat split; congruence. Qed.
#[local] Instance keeps_refl : Reflexive keeps.
Proof. intros s. split; reflexivity. Qed.
#[local] Instance keeps_trans : Transitive keeps.
Proof. intros a b c [A A'] [B B']. split; [congruence|etransitivity; eassumption]. Qed.

Definition quietly {A} (m : K A) : Prop := forall s a s', m s = Ok a s' -> keeps s s'.

Lemma quietly_ret {A} (a : A) : quietly (ret a).
Proof. intros s b s' E. injection E as <- <-. reflexivity. Qed.
Lemma quietly_gets {A} (f : kst F -> A) : quietly (gets f).
Proof. intros s b s' E. injection E as <- <-. reflexivity. Qed.
Lemma quietly_get_proc i : quietly (get_proc i).
Proof. apply quietly_gets. Qed.
Lemma quietly_panic {A} msg : quietly (panic msg : K A).
Proof. intros s b s' E. discriminate. Qed.
Lemma quietly_bind {A B} (m : K A) (k : A -> K B) : quietly m -> (forall a, quietly (k a)) -> quietly (bind m k).
Proof. intros Hm Hk s b s' E. apply bind_inv_ok in E as (a & s1 & E1 & E2). etransitivity; [apply (Hm _ _ _ E1)|apply (Hk _ _ _ _ E2)]. Qed.
Lemma quietly_pt {A} (m : M lkst A) : quietly (on_pt m : K A).
Proof. intros s b s' E. unfold on_pt, zoom in E. destruct (m _); try discriminate. injection E as <- <-. repeat split. Qed.
Lemma quietly_lk {A} (m : M lkst A) : quietly (on_lk m : K A).
Proof. intros s b s' E. unfold on_lk, zoom in E. destruct (m _); try discriminate. injection E as <- <-. repeat split. Qed.
Lemma quietly_mem {A} (m : M kmem A) : quietly (on_mem m : K A).
Proof. intros s b s' E. unfold on_mem, zoom in E. destruct (m _); try discriminate. injection E as <- <-. repeat split. Qed.
Lemma quietly_files {A} (m : M F A) : quietly (on_files m : K A).
Proof. intros s b s' E. unfold on_files, zoom in E. destruct (m _); try discriminate. injection E as <- <-. repeat split. Qed.
Lemma quietly_hw h : quietly (modify (fun s : kst F => k_set_hw (h s) s)).
Proof. intros s b s' E. injection E as <- <-. repeat split. Qed.

Lemma quietly_acquire : quietly acquire_pt.
Proof. apply quietly_pt. Qed.
Lemma quietly_release : quietly release_pt.
Proof. apply quietly_pt. Qed.

Create HintDb quiet.
#[local] Hint Resolve quietly_ret quietly_gets quietly_get_proc quietly_panic quietly_pt quietly_lk quietly_mem quietly_files quietly_acquire quietly_release : quiet.

(** Actions without effect on the table, by their shape. *)
Ltac quietly :=
  repeat first [apply quietly_bind; [|intros ?]
               |match goal with |- quietly (if ?b then _ else _) => destruct b end];
  auto with quiet.

Lemma myproc_ok s p s' : myproc s = Ok p s' -> p = k_curproc s /\ keeps s s'.
Proof.
  intros E. unfold myproc in E. apply bind_inv_ok in E as ([] & s1 & E1 & E). apply bind_inv_ok in E as (c & s2 & E2 & E).
  apply bind_inv_ok in E as (q & s3 & E3 & E). apply bind_inv_ok in E as ([] & s4 & E4 & E).
  injection E3 as <- <-. injection E as <- <-. apply quietly_pt in E1, E2, E4.
  split; [|etransitivity; [exact E1|etransitivity; eassumption]]. destruct E1 as (_ & _ & _ & C1), E2 as (_ & _ & _ & C2). congruence.
Qed.

Lemma quietly_myproc : quietly myproc.
Proof. intros s p s' E. now apply myproc_ok in E. Qed.

#[local] Hint Resolve quietly_myproc : quiet.

Lemma quietly_sched : quietly (sched ptable).
Proof. unfold sched. quietly. Qed.

Lemma quietly_switchuvm p : quietly (switchuvm ptable p).
Proof. unfold switchuvm. quietly. apply quietly_hw. Qed.

#[local] Hint Resolve quietly_sched quietly_switchuvm : quiet.

Lemma upd_proc_ok i f s a s' : upd_proc i f s = Ok a s' -> k_table s' = tset (k_table s) i f /\ frame s s'.
Proof. intros E. injection E as <- <-. repeat split. Qed.

Lemma put_table_ok t s a s' : put_table t s = Ok a s' -> k_table s' = t /\ frame s s'.
Proof. intros E. injection E as <- <-. repeat split. Qed.

Lemma pindex_addr i : pindex ptable (addr i) = i.
Proof. unfold pindex, paddr, P_size. replace (ptable + 392 * Z.of_nat i - ptable) with (Z.of_nat i * 392) by lia. rewrite Z.div_mul by lia. lia. Qed.

(** ** Local steps *)

Definition lrun (i : nat) (s s' : kst F) : Prop :=
  rtc (lstep ptable i) (tn s) (tn s') /\ k_initproc s' = k_initproc s /\ k_curproc s' = k_curproc s.

#[local] Instance lrun_refl i : Reflexive (lrun i).
Proof. intros s. split; [reflexivity|auto]. Qed.
#[local] Instance lrun_trans i : Transitive (lrun i).
Proof. intros a b c (A & ? & ?) (B & ? & ?). split; [etransitivity; eassumption|split; congruence]. Qed.

Lemma keeps_tn s s' : keeps s s' -> tn s' = tn s.
Proof. intros (A & B & _). unfold tn. congruence. Qed.

Lemma keeps_lrun i s s' : keeps s s' -> lrun i s s'.
Proof. intros Ks. split; [rewrite (keeps_tn _ _ Ks); reflexivity|]. destruct Ks as (_ & _ & ? & ?). auto. Qed.

Lemma core_lrun i s s' : Forall2 same_core (k_table s) (k_table s') -> frame s s' -> lrun i s s'.
Proof.
  intros C (N & I0 & P). split; [|auto]. unfold tn. rewrite N. apply rtc_once. now apply l_data.
Qed.

Lemma lstep_lrun i s s' : lstep ptable i (k_table s, k_nextpid s) (k_table s', k_nextpid s') ->
  k_initproc s' = k_initproc s -> k_curproc s' = k_curproc s -> lrun i s s'.
Proof. intros L ? ?. split; [now apply rtc_once|auto]. Qed.

Lemma wakeup_run i c s a s' : wakeup c s = Ok a s' -> lrun i s s'.
Proof.
  intros E. unfold wakeup in E. apply bind_inv_ok in E as ([] & s1 & E1 & E). apply bind_inv_ok in E as (t & s2 & E2 & E).
  apply bind_inv_ok in E as ([] & s3 & E3 & E). injection E2 as <- <-. apply put_table_ok in E3 as [T3 (N3 & I3 & C3)].
  apply quietly_pt in E1, E. etransitivity; [apply keeps_lrun, E1|]. etransitivity; [|apply keeps_lrun, E].
  apply lstep_lrun; [|exact I3|exact C3]. rewrite T3, N3. constructor.
Qed.

Lemma wakeups_run i cs : forall s a s', wakeups cs s = Ok a s' -> lrun i s s'.
Proof.
  induction cs as [|c cs IH]; intros s a s' E; cbn [wakeups] in E; [injection E as <- <-; reflexivity|].
  apply bind_inv_ok in E as ([] & s1 & E1 & E). etransitivity; [apply (wakeup_run i _ _ _ _ E1)|apply (IH _ _ _ E)].
Qed.

Lemma kill_run i pid s r s' : kill pid s = Ok r s' -> lrun i s s'.
Proof.
  intros E. unfold kill in E. apply bind_inv_ok in E as ([] & s1 & E1 & E). apply bind_inv_ok in E as (t & s2 & E2 & E).
  injection E2 as <- <-. apply quietly_pt in E1. etransitivity; [apply keeps_lrun, E1|].
  destruct (kill_table pid (k_table s1)) as [t'|] eqn:Kt.
  - apply bind_inv_ok in E as ([] & s3 & E3 & E). apply put_table_ok in E3 as [T3 (N3 & I3 & C3)].
    apply bind_inv_ok in E as ([] & s4 & E4 & E). injection E as <- <-. apply quietly_pt in E4.
    etransitivity; [|apply keeps_lrun, E4]. apply lstep_lrun; [|exact I3|exact C3]. rewrite T3, N3. now apply (l_kill ptable i _ _ pid).
  - apply keeps_lrun. revert E. apply quietly_bind; [apply quietly_pt|intros; apply quietly_ret].
Qed.

(** Actions that leave the fields of the invariant alone, with a property of
    what they return. *)
Definition corely {A} (m : K A) (P : A -> Prop) : Prop :=
  forall s a s', m s = Ok a s' -> P a /\ Forall2 same_core (k_table s) (k_table s') /\ frame s s'.

Lemma corely_quiet {A} (m : K A) : quietly m -> corely m (fun _ => True).
Proof. intros Q s a s' E. apply Q in E as [T Fr]. split; [exact I|]. split; [rewrite T; apply core_refl|exact Fr]. Qed.

Lemma corely_ret {A} (a : A) (P : A -> Prop) : P a -> corely (ret a) P.
Proof. intros Pa s b s' E. injection E as <- <-. split; [exact Pa|]. split; [apply core_refl|reflexivity]. Qed.

Lemma corely_bind {A B} (m : K A) (k : A -> K B) P : corely m (fun _ => True) -> (forall a, corely (k a) P) -> corely (bind m k) P.
Proof.
  intros Hm Hk s b s' E. apply bind_inv_ok in E as (a & s1 & E1 & E2).
  destruct (Hm _ _ _ E1) as (_ & C1 & F1), (Hk _ _ _ _ E2) as (Pb & C2 & F2).
  split; [exact Pb|]. split; [eapply core_trans; eassumption|etransitivity; eassumption].
Qed.

Lemma corely_upd i f : (forall p, same_core p (f p)) -> corely (upd_proc i f) (fun _ => True).
Proof. intros Hf s a s' E. apply upd_proc_ok in E as [T Fr]. split; [exact I|]. split; [rewrite T; now apply core_tset|exact Fr]. Qed.

Ltac corely :=
  repeat first [apply corely_ret; reflexivity
               |apply corely_bind; [|intros ?]
               |apply corely_upd; intros; unfold same_core; cbn; repeat split; reflexivity
               |apply corely_quiet; solve [quietly]
               |match goal with |- corely (if ?b then _ else _) _ => destruct b end].

Lemma fork_files_core n : forall i me ni, corely (fork_files n i me ni) (fun _ => True).
Proof. induction n as [|n IH]; intros i me ni; cbn [fork_files]; corely. apply IH. Qed.

(** The part of [allocproc] after the allocation of the kernel stack. *)
Definition alloc_rest (i : nat) (kstack : Z) : K Z :=
  let sp := kstack + KSTACKSIZE - TF_size in
  on_mem (wr32 (sp - 4) trapret_addr) ;;;
  upd_proc i (with_frame sp (sp - 4 - CTX_size)) ;;;
  on_mem (memset_k (sp - 4 - CTX_size) 0 CTX_size) ;;;
  on_mem (wr32 (sp - 4 - CTX_size + CTX_eip) forkret_addr) ;;;
  head <- on_mem kalloc ;;
  (if head =? 0 then fault "allocproc: null head" else ret tt) ;;;
  on_mem (memset_k head 0 LZ_size) ;;;
  on_mem (wr32 (addr i + P_head) head) ;;;
  on_mem (wr32 (addr i + P_tail) head) ;;;
  ret (addr i).

Lemma quietly_fault {A} msg : quietly (fault msg : K A).
Proof. intros s b s' E. discriminate. Qed.
#[local] Hint Resolve quietly_fault : quiet.

Lemma alloc_rest_core i k : corely (alloc_rest i k) (fun p => p = addr i).
Proof. unfold alloc_rest. corely. Qed.

(** A fresh entry: the result of [allocproc]. *)
Definition fresh_at (e : nat) (t : table) : Prop :=
  (e < length t)%nat /\ p_state (tget t e) = EMBRYO /\ p_parent (tget t e) = 0.

Lemma core_fresh e t t' : Forall2 same_core t t' -> fresh_at e t -> fresh_at e t'.
Proof.
  intros C (L & S0 & P0). destruct (core_tget _ _ e C) as (S1 & _ & P1 & _).
  split; [rewrite <- (Forall2_length _ _ _ C); exact L|]. split; congruence.
Qed.

Lemma allocproc_run i s p s' : 1 <= k_nextpid s -> k_nextpid s + 1 < two31 ->
  (forall e, p_state (tget (k_table s) e) = UNUSED -> p_parent (tget (k_table s) e) = 0) ->
  allocproc ptable forkret_addr trapret_addr s = Ok p s' ->
  lrun i s s' /\ (p = 0 \/ exists e, p = addr e /\ fresh_at e (k_table s') /\ find_unused (k_table s) = Some e /\
    p_killed (tget (k_table s') e) = p_killed (tget (k_table s) e) /\ k_nextpid s' = k_nextpid s + 1 /\
    Forall2 same_core (tset (k_table s) e (fun p => with_pid (k_nextpid s) (with_state EMBRYO p))) (k_table s')).
Proof.
  intros N1 N2 Fr E. unfold allocproc in E. apply bind_inv_ok in E as ([] & s1 & E1 & E). apply bind_inv_ok in E as (t & s2 & E2 & E).
  injection E2 as <- <-. apply quietly_pt in E1. rewrite <- (proj1 E1) in *. rewrite <- (proj1 (proj2 E1)) in *.
  match goal with |- _ /\ ?Y => enough (X : lrun i s1 s' /\ Y) by (destruct X as [X Z0]; split; [etransitivity; [apply keeps_lrun, E1|exact X]|exact Z0]) end.
  clear E1 s. destruct (find_unused (k_table s1)) as [e|] eqn:Fu.
  2: { apply bind_inv_ok in E as ([] & s2 & E2 & E). injection E as <- <-. apply quietly_pt in E2. split; [apply keeps_lrun, E2|auto]. }
  pose proof (find_unused_some _ _ Fu) as [He U].
  apply bind_inv_ok in E as ([] & s2 & E2 & E). apply upd_proc_ok in E2 as [T2 F2].
  apply bind_inv_ok in E as (n & s3 & E3 & E). injection E3 as <- <-.
  apply bind_inv_ok in E as ([] & s4 & E4 & E). apply upd_proc_ok in E4 as [T4 F4].
  apply bind_inv_ok in E as ([] & s5 & E5 & E). injection E5 as <-.
  apply bind_inv_ok in E as ([] & s6 & E6 & E). apply quietly_pt in E6.
  assert (L6 : lrun i s1 s6).
  { etransitivity; [|apply keeps_lrun, E6]. apply lstep_lrun; [|cbn; apply (frame_trans _ _ _ F2 F4)..].
    cbn. rewrite T4, T2, tset_tset, (proj1 F2), s32_small by (unfold two31 in *; lia). now constructor. }
  assert (T6 : k_table s6 = tset (k_table s1) e (fun p => with_pid (k_nextpid s1) (with_state EMBRYO p)))
    by (rewrite (proj1 E6); cbn [k_set_nextpid k_table]; now rewrite T4, T2, tset_tset, (proj1 F2)).
  assert (N6 : k_nextpid s6 = k_nextpid s1 + 1)
    by (rewrite (proj1 (proj2 E6)); cbn; rewrite (proj1 F2); apply s32_small; unfold two31 in *; lia).
  assert (Fe : fresh_at e (k_table s6) /\ p_killed (tget (k_table s6) e) = p_killed (tget (k_table s1) e)).
  { rewrite T6. unfold fresh_at. rewrite tset_length, !tget_tset, !decide_True by auto. cbn. repeat split; auto. }
  destruct Fe as [Fe Ke].
  apply bind_inv_ok in E as (ks & s7 & E7 & E). apply quietly_mem in E7.
  apply bind_inv_ok in E as ([] & s8 & E8 & E). apply upd_proc_ok in E8 as [T8 F8].
  assert (C8 : Forall2 same_core (k_table s6) (k_table s8)) by (rewrite T8, (proj1 E7); apply core_tset; intros; repeat split).
  assert (L8 : lrun i s1 s8) by (etransitivity; [exact L6|apply core_lrun; [exact C8|etransitivity; [apply E7|exact F8]]]).
  apply (core_fresh _ _ _ C8) in Fe. destruct (core_tget _ _ e C8) as (_ & _ & _ & _ & K8). rewrite Ke in K8. destruct (ks =? 0).
  - apply bind_inv_ok in E as ([] & s9 & E9 & E). injection E as <- <-. apply upd_proc_ok in E9 as [T9 (N9 & I9 & C9)].
    split; [|auto]. etransitivity; [exact L8|]. apply lstep_lrun; [|exact I9|exact C9].
    rewrite T9, N9. apply l_abort; apply Fe.
  - destruct (alloc_rest_core e ks s8 p s' E) as (-> & C & Fr'). split; [etransitivity; [exact L8|now apply core_lrun]|].
    right. exists e. split; [reflexivity|]. split; [now apply (core_fresh _ _ _ C)|]. split; [reflexivity|].
    destruct (core_tget _ _ e C) as (_ & _ & _ & _ & K9). split; [congruence|]. split.
    + rewrite (proj1 Fr'), (proj1 F8), (proj1 (proj2 E7)). exact N6.
    + rewrite <- T6. eapply core_trans; eassumption.
Qed.

(** ** fork *)

Definition alike (s s' : kst F) : Prop := Forall2 same_core (k_table s) (k_table s') /\ frame s s'.

#[local] Instance alike_refl : Reflexive alike.
Proof. intros s. split; [apply core_refl|reflexivity]. Qed.
#[local] Instance alike_trans : Transitive alike.
Proof. intros a b c [A A'] [B B']. split; [eapply core_trans; eassumption|etransitivity; eassumption]. Qed.

Lemma alike_lrun i s s' : alike s s' -> lrun i s s'.
Proof. intros [C Fr]. now apply core_lrun. Qed.

(** Runs through a [corely] action at the front of [E], keeping in [C] how the
    state compares with the one [C] started from. *)
Ltac run_core E C :=
  let x := fresh "x" in let s1 := fresh "s" in let E1 := fresh "E" in let Q := fresh "Q" in let C' := fresh "C" in
  apply bind_inv_ok in E as (x & s1 & E1 & E);
  match type of E1 with ?m _ = Ok _ _ =>
    assert (Q : corely m (fun _ => True)) by (corely; apply fork_files_core);
    apply Q in E1; apply proj2 in E1;
    pose proof (alike_trans _ _ _ C E1) as C'; clear C E1 Q; rename C' into C
  end.

(** [fork] from its copy of the trap frame on. *)
Definition fork_rest (i e : nat) : K Z :=
  cur <- get_proc i ;;
  new <- get_proc e ;;
  on_mem (memmove_k (p_tf new) (p_tf cur) TF_size) ;;;
  on_mem (wr32 (p_tf new + TF_eax) 0) ;;;
  fork_files NOFILE 0 i e ;;;
  cur <- get_proc i ;;
  cwd <- on_files (pf_idup (p_cwd cur)) ;;
  upd_proc e (with_cwd cwd) ;;;
  upd_proc e (fun q => with_name (copy_name (p_name q) (p_name cur)) q) ;;;
  new <- get_proc e ;;
  let pid := p_pid new in
  acquire_pt ;;;
  upd_proc e (with_state RUNNABLE) ;;;
  release_pt ;;;
  ret pid.

Lemma fork_rest_run i e s r s' : (e < length (k_table s))%nat -> p_state (tget (k_table s) e) = EMBRYO -> p_parent (tget (k_table s) e) <> 0 ->
  fork_rest i e s = Ok r s' -> lrun i s s'.
Proof.
  intros He Em Pe E. unfold fork_rest in E. pose proof (alike_refl s) as C. do 11 run_core E C.
  apply bind_inv_ok in E as ([] & s11 & E11 & E). apply bind_inv_ok in E as ([] & s12 & E12 & E). injection E as _ <-.
  apply upd_proc_ok in E11 as [T11 (N11 & I11 & C11)]. apply quietly_pt in E12.
  etransitivity; [apply alike_lrun, C|]. etransitivity; [|apply keeps_lrun, E12].
  apply lstep_lrun; [|exact I11|exact C11]. rewrite T11, N11. destruct (core_tget _ _ e (proj1 C)) as (S1 & _ & P1 & _).
  apply l_ready; [rewrite <- (Forall2_length _ _ _ (proj1 C)); exact He|congruence|congruence].
Qed.

Lemma fork_run i fuel s r s' : 0 < ptable -> k_curproc s = addr i -> 1 <= k_nextpid s -> k_nextpid s + 1 < two31 ->
  (forall e, p_state (tget (k_table s) e) = UNUSED -> p_parent (tget (k_table s) e) = 0) ->
  fork ptable forkret_addr trapret_addr fuel s = Ok r s' -> lrun i s s'.
Proof.
  intros Hp Cp N1 N2 Fr E. unfold fork in E. apply bind_inv_ok in E as (p & s1 & E1 & E). apply myproc_ok in E1 as [-> K1].
  rewrite Cp, pindex_addr in E. rewrite <- (proj1 K1) in Fr. rewrite <- (proj1 (proj2 K1)) in N1, N2.
  etransitivity; [apply keeps_lrun, K1|]. clear K1 Cp s.
  apply bind_inv_ok in E as (np & s2 & E2 & E). destruct (allocproc_run i _ _ _ N1 N2 Fr E2) as [L2 Y].
  etransitivity; [exact L2|]. clear L2 E2 N1 N2 Fr. destruct Y as [->|(e & -> & Fe & _)]; clear s1; [injection E as _ <-; reflexivity|].
  rewrite (proj2 (Z.eqb_neq _ _) (addr_pos ptable Hp e)), pindex_addr in E.
  pose proof (alike_refl s2) as C. do 4 run_core E C. destruct (_ =? 0).
  - do 3 run_core E C. apply bind_inv_ok in E as ([] & s7 & E7 & E). injection E as _ <-. apply upd_proc_ok in E7 as [T7 (N7 & I7 & C7)].
    etransitivity; [apply alike_lrun, C|]. apply (core_fresh _ _ _ (proj1 C)) in Fe. apply lstep_lrun; [|exact I7|exact C7].
    rewrite T7, N7. apply l_abort; apply Fe.
  - do 3 run_core E C. apply bind_inv_ok in E as ([] & s7 & E7 & E). apply upd_proc_ok in E7 as [T7 (N7 & I7 & C7)].
    apply (core_fresh _ _ _ (proj1 C)) in Fe. etransitivity; [apply alike_lrun, C|]. transitivity s7.
    + apply lstep_lrun; [|exact I7|exact C7]. rewrite T7, N7. apply l_parent; apply Fe.
    + apply (fork_rest_run i e s7 r); [rewrite T7, tset_length; apply Fe| | |exact E];
        rewrite T7, tget_tset, decide_True by (auto; apply Fe); [apply Fe|cbn; now apply addr_pos].
Qed.

(** ** Leaving the CPU *)

Variable init : nat.

Lemma exit_files_run n : forall fd i s a s', exit_files n fd i s = Ok a s' -> lrun i s s'.
Proof.
  induction n as [|n IH]; intros fd i s a s' E; cbn [exit_files] in E; [injection E as <- <-; reflexivity|].
  apply bind_inv_ok in E as (p & s1 & E1 & E). injection E1 as <- <-. apply bind_inv_ok in E as ([] & s2 & E2 & E).
  etransitivity; [|apply (IH _ _ _ _ _ E)]. clear E. destruct (truth _); [|injection E2 as <-; reflexivity].
  apply bind_inv_ok in E2 as (w & s3 & E3 & E2). apply quietly_files in E3. apply bind_inv_ok in E2 as ([] & s4 & E4 & E2).
  etransitivity; [apply keeps_lrun, E3|]. etransitivity; [apply (wakeups_run i _ _ _ _ E4)|].
  apply upd_proc_ok in E2 as [T2 F2]. apply core_lrun; [|exact F2]. rewrite T2. apply core_tset. intros; repeat split.
Qed.

Lemma exit_run i fuel lim s r s' : 0 < ptable -> k_curproc s = addr i -> k_initproc s = addr init ->
  exit ptable fuel lim s = Ok r s' ->
  exists s1, lrun i s s1 /\ leave ptable init i (k_table s1) (k_table s') /\ k_nextpid s' = k_nextpid s1.
Proof.
  intros Hp Cp Ip E. unfold exit in E. apply bind_inv_ok in E as (p & s1 & E1 & E). apply myproc_ok in E1 as [-> K1].
  apply bind_inv_ok in E as (q & s2 & E2 & E). injection E2 as <- <-. pose proof K1 as (_ & _ & I1 & _).
  rewrite I1, Cp, Ip, pindex_addr in E. destruct (addr i =? addr init) eqn:Ne; [discriminate|]. bool_prop.
  apply bind_inv_ok in E as ([] & s3 & E3 & E). apply bind_inv_ok in E as ([] & s4 & E4 & E).
  apply bind_inv_ok in E as ([] & s5 & E5 & E). apply bind_inv_ok in E as (cur & s6 & E6 & E). injection E6 as <- <-.
  apply bind_inv_ok in E as (w & s7 & E7 & E). apply bind_inv_ok in E as ([] & s8 & E8 & E).
  apply bind_inv_ok in E as (w' & s9 & E9 & E). apply bind_inv_ok in E as ([] & s10 & E10 & E).
  apply bind_inv_ok in E as ([] & s11 & E11 & E). apply bind_inv_ok in E as ([] & s12 & E12 & E).
  apply bind_inv_ok in E as (t & s13 & E13 & E). injection E13 as <- <-. apply bind_inv_ok in E as ([] & s14 & E14 & E).
  apply quietly_mem in E3. apply quietly_files in E5, E7, E9. apply quietly_acquire in E12.
  apply upd_proc_ok in E11 as [T11 F11]. apply put_table_ok in E14 as [T14 F14]. apply quietly_sched in E.
  exists s12. split.
  - etransitivity; [apply keeps_lrun, K1|]. etransitivity; [apply keeps_lrun, E3|]. etransitivity; [apply (exit_files_run _ _ _ _ _ _ E4)|].
    etransitivity; [apply keeps_lrun, E5|]. etransitivity; [apply keeps_lrun, E7|]. etransitivity; [apply (wakeups_run i _ _ _ _ E8)|].
    etransitivity; [apply keeps_lrun, E9|]. etransitivity; [apply (wakeups_run i _ _ _ _ E10)|]. etransitivity; [|apply keeps_lrun, E12].
    apply core_lrun; [|exact F11]. rewrite T11. apply core_tset. intros; repeat split.
  - split; [|rewrite (proj1 (proj2 E)); apply F14]. rewrite (proj1 E), T14. apply v_exit. intros ->. now elim Ne.
Qed.

Lemma yield_run i s r s' : k_curproc s = addr i -> yield ptable s = Ok r s' ->
  leave ptable init i (k_table s) (k_table s') /\ frame s s'.
Proof.
  intros Cp E. unfold yield in E. apply bind_inv_ok in E as ([] & s1 & E1 & E). apply quietly_acquire in E1.
  apply bind_inv_ok in E as (p & s2 & E2 & E). apply myproc_ok in E2 as [-> K2]. apply bind_inv_ok in E as ([] & s3 & E3 & E).
  pose proof E1 as (T1 & _ & _ & C1). rewrite C1, Cp, pindex_addr in E3. apply upd_proc_ok in E3 as [T3 F3]. apply quietly_sched in E.
  split; [|etransitivity; [apply E1|etransitivity; [apply K2|etransitivity; [exact F3|apply E]]]].
  rewrite (proj1 E), T3, (proj1 K2), T1. constructor.
Qed.

(** [sleep] sets the channel and the state; whether the channel may be that of a
    waiting parent is the caller's business. *)
Lemma sleep_table i chan lk s r s' : k_curproc s = addr i -> sleep ptable chan lk s = Ok r s' ->
  k_table s' = tset (k_table s) i (fun p => with_state SLEEPING (with_chan chan p)) /\ frame s s'.
Proof.
  intros Cp E. unfold sleep in E. apply bind_inv_ok in E as (p & s1 & E1 & E). apply myproc_ok in E1 as [-> K1].
  rewrite Cp, pindex_addr in E. destruct (addr i =? 0); [discriminate|]. destruct lk; [discriminate| |];
    apply bind_inv_ok in E as ([] & s2 & E2 & E);
    (assert (K2 : keeps s1 s2) by (first [apply (quietly_ret _ _ _ _ E2)|revert E2; apply quietly_bind; [apply quietly_acquire|intros; apply quietly_lk]]));
    apply bind_inv_ok in E as ([] & s3 & E3 & E); apply bind_inv_ok in E as ([] & s4 & E4 & E);
    apply upd_proc_ok in E3 as [T3 F3]; apply upd_proc_ok in E4 as [T4 F4]; apply quietly_sched in E;
    (split; [rewrite (proj1 E), T4, T3, (proj1 K2), (proj1 K1); apply tset_tset|]);
    (etransitivity; [apply K1|]); (etransitivity; [apply K2|]); (etransitivity; [exact F3|]); (etransitivity; [exact F4|apply E]).
Qed.

Lemma wait_iter_run i s r s' : k_curproc s = addr i -> wait_iter ptable (addr i) s = Ok r s' ->
  match r with
  | WReturn _ => lrun i s s'
  | WSleep _ => leave ptable init i (k_table s) (k_table s') /\ frame s s'
  end.
Proof.
  intros Cp E. unfold wait_iter in E. apply bind_inv_ok in E as (t & s3 & E3 & E). injection E3 as <- <-.
  destruct (wait_scan (addr i) (k_table s) 0 false) as [j| |] eqn:Ws.
  - apply bind_inv_ok in E as (q & s4 & E4 & E). injection E4 as <- <-. apply bind_inv_ok in E as ([] & s5 & E5 & E).
    apply bind_inv_ok in E as (d & s6 & E6 & E). apply bind_inv_ok in E as ([] & s7 & E7 & E). apply bind_inv_ok in E as ([] & s8 & E8 & E).
    apply bind_inv_ok in E as ([] & s9 & E9 & E). injection E as <- <-. apply quietly_mem in E5, E6, E7. apply quietly_release in E9.
    apply upd_proc_ok in E8 as [T8 (N8 & I8 & C8)]. assert (K7 : keeps s s7) by (etransitivity; [exact E5|etransitivity; eassumption]).
    etransitivity; [apply keeps_lrun, K7|]. etransitivity; [|apply keeps_lrun, E9].
    apply lstep_lrun; [|exact I8|exact C8]. rewrite T8, N8, (proj1 K7). now apply l_reap.
  - apply bind_inv_ok in E as (cur & s4 & E4 & E). injection E4 as <- <-. rewrite pindex_addr in E. destruct (truth _) eqn:Tk.
    + apply bind_inv_ok in E as ([] & s5 & E5 & E). injection E as <- <-. apply quietly_release in E5. apply keeps_lrun, E5.
    + apply bind_inv_ok in E as (ie & s5 & E5 & E). injection E as <- <-.
      apply (sleep_table i) in E5 as [T5 F5]; [|exact Cp]. split; [|exact F5].
      rewrite T5. apply v_wait; [exact Ws|]. apply truth_false in Tk. exact Tk.
  - apply bind_inv_ok in E as ([] & s5 & E5 & E). injection E as <- <-. apply quietly_release in E5. apply keeps_lrun, E5.
Qed.

(** How a call gives up the CPU: some steps of the process, then [leave]. *)
Definition goes (i : nat) (s s' : kst F) : Prop :=
  exists s1, lrun i s s1 /\ leave ptable init i (k_table s1) (k_table s') /\ k_nextpid s' = k_nextpid s1.

Lemma goes_now i s s' : leave ptable init i (k_table s) (k_table s') /\ frame s s' -> goes i s s'.
Proof. intros [V (N & _)]. exists s. split; [reflexivity|auto]. Qed.

Lemma goes_after i s s1 s' : lrun i s s1 -> goes i s1 s' -> goes i s s'.
Proof. intros L (s2 & L2 & V & N). exists s2. split; [etransitivity; eassumption|auto]. Qed.

Definition wait_ends (i : nat) (s : kst F) (r : waited) (s' : kst F) : Prop :=
  match r with WReturn _ => lrun i s s' | WSleep _ => goes i s s' end.

Lemma wait_iter_ends i s s1 r s' : lrun i s s1 -> k_curproc s1 = addr i -> wait_iter ptable (addr i) s1 = Ok r s' -> wait_ends i s r s'.
Proof.
  intros L Cp E. apply (wait_iter_run i) in E; [|exact Cp].
  destruct r; cbn; [etransitivity; eassumption|now apply (goes_after i s s1), goes_now].
Qed.

Lemma wait_run i s r s' : k_curproc s = addr i -> wait ptable s = Ok r s' -> wait_ends i s r s'.
Proof.
  intros Cp E. unfold wait in E. apply bind_inv_ok in E as (p & s1 & E1 & E). apply myproc_ok in E1 as [-> K1].
  apply bind_inv_ok in E as ([] & s2 & E2 & E). apply quietly_acquire in E2. assert (K2 : keeps s s2) by (etransitivity; eassumption).
  rewrite Cp in E. apply (wait_iter_ends i s s2); [apply keeps_lrun, K2| |exact E]. destruct K2 as (_ & _ & _ & C2). congruence.
Qed.

(** ** Coming back *)

Lemma quietly_sched_back ie : quietly (sched_back ie).
Proof. unfold sched_back. quietly. Qed.

Lemma quietly_yield_back ie : quietly (yield_back ie).
Proof. unfold yield_back. quietly. Qed.

Lemma forkret_run i s a s' : forkret s = Ok a s' -> lrun i s s'.
Proof.
  intros E. unfold forkret in E. apply bind_inv_ok in E as ([] & s1 & E1 & E). apply quietly_release in E1.
  etransitivity; [apply keeps_lrun, E1|]. apply bind_inv_ok in E as (f & s2 & E2 & E). injection E2 as <- <-.
  destruct (truth (k_first s1)); [|injection E as _ <-; reflexivity].
  apply bind_inv_ok in E as ([] & s3 & E3 & E). injection E3 as <-.
  apply keeps_lrun. transitivity (k_set_first 0 s1); [repeat split|]. revert E. apply quietly_bind; auto with quiet.
Qed.

Lemma quietly_growproc n : quietly (growproc ptable n).
Proof.
  unfold growproc. quietly. match goal with |- quietly (match ?r with _ => _ end) => destruct r end; quietly.
Qed.

Lemma sleep_back_run i lk ie s a s' : (i < length (k_table s))%nat -> sleep_back ptable (addr i) lk ie s = Ok a s' -> lrun i s s'.
Proof.
  intros Hi E. unfold sleep_back in E. rewrite pindex_addr in E. apply bind_inv_ok in E as ([] & s1 & E1 & E). apply quietly_sched_back in E1.
  apply bind_inv_ok in E as ([] & s2 & E2 & E). apply upd_proc_ok in E2 as [T2 (N2 & I2 & C2)]. etransitivity; [apply keeps_lrun, E1|]. transitivity s2.
  - apply lstep_lrun; [|exact I2|exact C2]. rewrite T2, N2. apply l_unsleep. rewrite (proj1 E1). exact Hi.
  - apply keeps_lrun. destruct lk; try (injection E as _ <-; reflexivity). revert E. apply quietly_bind; auto with quiet.
Qed.

Lemma wait_back_run i ie s r s' : (i < length (k_table s))%nat -> k_curproc s = addr i -> wait_back ptable (addr i) ie s = Ok r s' -> wait_ends i s r s'.
Proof.
  intros Hi Cp E. unfold wait_back in E. apply bind_inv_ok in E as ([] & s1 & E1 & E). apply (sleep_back_run i) in E1; [|exact Hi].
  apply (wait_iter_ends i s s1); [exact E1| |exact E]. destruct E1 as (_ & _ & C1). congruence.
Qed.

(** ** The scheduler *)

Lemma sched_loop_run k (s : kst F) r s' : sched_loop ptable k s = Ok r s' ->
  exists m, dispatch k (k_table s) = (k_table s', m) /\ k_nextpid s' = k_nextpid s /\ k_initproc s' = k_initproc s /\
    match r with Switched i => m = Run i /\ k_curproc s' = addr i | PassDone => m = Loop end.
Proof.
  intros E. unfold sched_loop in E. apply bind_inv_ok in E as (t & s1 & E1 & E). injection E1 as <- <-. unfold dispatch.
  destruct (next_runnable k (k_table s)) as [i|].
  - apply bind_inv_ok in E as ([] & s2 & E2 & E). injection E2 as <-. apply bind_inv_ok in E as ([] & s3 & E3 & E).
    apply bind_inv_ok in E as ([] & s4 & E4 & E). injection E as <- <-. apply quietly_switchuvm in E3 as (T3 & N3 & I3 & C3).
    apply upd_proc_ok in E4 as [T4 (N4 & I4 & C4)]. cbn in *. exists (Run i). rewrite T4, T3, N4, N3, I4, I3, C4, C3. auto.
  - apply bind_inv_ok in E as ([] & s2 & E2 & E). injection E as <- <-. apply quietly_release in E2 as (T2 & N2 & I2 & _).
    exists Loop. rewrite T2. auto.
Qed.

(** The system as CPU [c] in state [s] sees it, the other CPUs being as in [cs]. *)
Definition at_sys (s : kst F) (cs : list cpumode) : sys := mkSys (k_table s) (k_nextpid s) cs.
Definition mode_of (r : picked) : cpumode := match r with Switched i => Run i | PassDone => Loop end.

(** From [g] the system comes to [g'], and the invariant holds there. *)
Definition moves (g g' : sys) : Prop := rtc (gstep ptable init) g g' /\ ginv ptable init g'.

Lemma lrun_gstep c i s s' cs : cs !! c = Some (Run i) -> lrun i s s' -> rtc (gstep ptable init) (at_sys s cs) (at_sys s' cs).
Proof.
  intros Hc (L & _). unfold at_sys, tn in *. remember (k_table s, k_nextpid s) as x eqn:Ex. remember (k_table s', k_nextpid s') as y eqn:Ey.
  replace (k_table s) with x.1 by now rewrite Ex. replace (k_nextpid s) with x.2 by now rewrite Ex.
  replace (k_table s') with y.1 by now rewrite Ey. replace (k_nextpid s') with y.2 by now rewrite Ey. clear Ex Ey.
  induction L as [|[t n] [t1 n1] y L1 _ IH]; [reflexivity|]. apply (rtc_l _ _ (mkSys t1 n1 cs)); [|exact IH].
  now apply (g_local ptable init c i).
Qed.

Lemma sched_resume_run i (s : kst F) r s' : sched_resume ptable kpgdir i s = Ok r s' ->
  dispatch (S i) (k_table s) = (k_table s', mode_of r) /\ k_nextpid s' = k_nextpid s.
Proof.
  intros E. unfold sched_resume in E. apply bind_inv_ok in E as ([] & s1 & E1 & E). apply quietly_hw in E1 as (T1 & N1 & _).
  apply bind_inv_ok in E as ([] & s2 & E2 & E). injection E2 as <-. apply sched_loop_run in E as (m & D & N & _ & R). cbn in *.
  rewrite T1 in D. split; [|congruence]. rewrite D. f_equal. destruct r; [exact (proj1 R)|exact R].
Qed.

Lemma goes_gstep c i (s s1 s2 : kst F) r cs : cs !! c = Some (Run i) -> goes i s s1 ->
  sched_resume ptable kpgdir i s1 = Ok r s2 -> rtc (gstep ptable init) (at_sys s cs) (at_sys s2 (<[c := mode_of r]> cs)).
Proof.
  intros Hc (s0 & L & V & N) R. eapply rtc_r; [apply (lrun_gstep c i _ _ _ Hc L)|]. apply sched_resume_run in R as [D N2].
  unfold at_sys. rewrite N2, N. now apply (g_leave ptable init c i _ _ _ (k_table s1)).
Qed.

Lemma sched_pass_run (s : kst F) r s' : sched_pass ptable s = Ok r s' ->
  dispatch 0 (k_table s) = (k_table s', mode_of r) /\ k_nextpid s' = k_nextpid s.
Proof.
  intros E. unfold sched_pass in E. apply bind_inv_ok in E as ([] & s1 & E1 & E). apply quietly_pt in E1.
  apply bind_inv_ok in E as ([] & s2 & E2 & E). apply quietly_acquire in E2. apply sched_loop_run in E as (m & D & N & _ & R).
  rewrite (proj1 E2), (proj1 E1) in D. split; [|now rewrite N, (proj1 (proj2 E2)), (proj1 (proj2 E1))].
  rewrite D. f_equal. destruct r; [apply R|exact R].
Qed.

Lemma scheduler_run (s : kst F) r s' : scheduler ptable s = Ok r s' ->
  dispatch 0 (k_table s) = (k_table s', mode_of r) /\ k_nextpid s' = k_nextpid s.
Proof.
  intros E. unfold scheduler in E. apply bind_inv_ok in E as (x & s1 & E1 & E). apply quietly_pt in E1.
  apply bind_inv_ok in E as ([] & s2 & E2 & E). injection E2 as <-. apply sched_pass_run in E as [D N]. cbn in *.
  now rewrite <- (proj1 E1), <- (proj1 (proj2 E1)).
Qed.

(** ** The first process *)

Variables initcode_start initcode_size : Z.

Lemma core_tset_mono t t' i f : (forall p q, same_core p q -> same_core (f p) (f q)) -> Forall2 same_core t t' -> Forall2 same_core (tset t i f) (tset t' i f).
Proof.
  intros Hf C. apply Forall2_same_length_lookup_2; [rewrite !tset_length; now apply Forall2_length in C|].
  intros j p q Hp Hq. unfold tset in *. rewrite list_lookup_alter in *. destruct (decide (i = j)) as [<-|].
  - destruct (t !! i) as [p0|] eqn:Ep; [|discriminate]. destruct (t' !! i) as [q0|] eqn:Eq; [|discriminate]. injection Hp as <-. injection Hq as <-.
    apply Hf. exact (Forall2_lookup_lr _ _ _ _ _ _ C Ep Eq).
  - exact (Forall2_lookup_lr _ _ _ _ _ _ C Hp Hq).
Qed.

(** [userinit] makes the first process, ready to run, and nothing else. *)
Lemma userinit_run s a s' : 0 < ptable -> k_table s = repeat proc_zero NPROC -> k_nextpid s = 1 ->
  userinit ptable forkret_addr trapret_addr initcode_start initcode_size s = Ok a s' ->
  k_initproc s' = addr 0 /\ k_nextpid s' = 2 /\ Forall2 same_core (g_table (booted 0)) (k_table s').
Proof.
  intros Hp T0 N0 E. unfold userinit in E. apply bind_inv_ok in E as (p & s1 & E1 & E).
  destruct (allocproc_run 0 _ _ _ ltac:(rewrite N0; lia) ltac:(rewrite N0; unfold two31; lia) ltac:(intros e _; rewrite T0; unfold tget; now rewrite nth_repeat) E1) as [_ Y].
  apply bind_inv_ok in E as ([] & s2 & E2 & E). injection E2 as <-.
  destruct Y as [->|(e & -> & _ & Fu & _ & N1 & C1)]; [rewrite Z.eqb_refl in E; apply bind_inv_ok in E as ([] & s3 & E3 & _); discriminate|].
  assert (e = 0%nat) as -> by (rewrite T0 in Fu; vm_compute in Fu; congruence). rewrite (proj2 (Z.eqb_neq _ _) (addr_pos ptable Hp 0)), pindex_addr in E.
  rewrite T0, N0 in C1. rewrite N0 in N1. set (s2 := k_set_initproc (addr 0) s1) in *. pose proof (alike_refl s2) as C. do 3 run_core E C. destruct (_ =? 0); [discriminate|].
  do 16 run_core E C. apply bind_inv_ok in E as ([] & sr & Er & E). apply upd_proc_ok in Er as [T4 (N4 & I4 & _)]. apply quietly_release in E as (T5 & N5 & I5 & _).
  destruct C as [C (N3 & I3 & _)]. split_and!; [now rewrite I5, I4, I3 | rewrite N5, N4, N3; exact N1 |].
  rewrite T5, T4. cbn [s2 k_set_initproc k_table] in C.
  eapply core_trans; [|apply core_tset_mono; [intros p q (?&?&?&?&?); repeat split; assumption | eapply core_trans; [exact C1 | exact C]]].
  vm_compute. repeat constructor.
Qed.

Lemma moves_intro g g' : 0 < ptable -> ginv ptable init g -> rtc (gstep ptable init) g g' -> moves g g'.
Proof. intros Hp G R. split; [exact R|]. now apply (ginv_reach ptable init Hp g). Qed.

Lemma boot_ginv (s : kst F) ncpu : 0 < ptable -> k_nextpid s = 2 -> Forall2 same_core (g_table (booted ncpu)) (k_table s) ->
  ginv ptable 0 (at_sys s (replicate ncpu Loop)).
Proof.
  intros Hp N C. pose proof (booted_ginv ptable ncpu Hp) as [T Ci]. split; cbn [at_sys g_table g_nextpid g_cpus] in *.
  - rewrite N. apply (quiet_tinv ptable 0 (g_table (booted ncpu))); [exact T|symmetry; apply (Forall2_length _ _ _ C)|].
    intros i. apply quiet_core, core_tget, C.
  - constructor; [| |intros i R].
    + intros c i X. apply lookup_replicate in X as [X _]. discriminate.
    + intros c c' i X. apply lookup_replicate in X as [X _]. discriminate.
    + destruct (core_tget _ _ i C) as (S0 & _). rewrite R in S0. symmetry in S0. apply (ci_on _ _ Ci) in S0. exact S0.
Qed.

(** The call [m], made in state [s] by the process at [i] on CPU [c], moves the system
    by steps of that process if it returns; if it gives up the CPU, it and the
    scheduler's loop up to its next choice move the system to that choice. *)
Definition stays {A} (s : kst F) (cs : list cpumode) (m : K A) : Prop :=
  forall a s', m s = Ok a s' -> moves (at_sys s cs) (at_sys s' cs).
Definition switches {A} (s : kst F) (c i : nat) (cs : list cpumode) (m : K A) : Prop :=
  forall a s1 r s2, m s = Ok a s1 -> sched_resume ptable kpgdir i s1 = Ok r s2 -> moves (at_sys s cs) (at_sys s2 (<[c := mode_of r]> cs)).
(** [wait] may do either. *)
Definition waits (s : kst F) (c i : nat) (cs : list cpumode) (m : K waited) : Prop :=
  (forall pid s', m s = Ok (WReturn pid) s' -> moves (at_sys s cs) (at_sys s' cs)) /\
  (forall ie s1 r s2, m s = Ok (WSleep ie) s1 -> sched_resume ptable kpgdir i s1 = Ok r s2 -> moves (at_sys s cs) (at_sys s2 (<[c := mode_of r]> cs))).
(** The scheduler of a CPU [c] that is between two passes comes to its next choice. *)
Definition passes (s sc : kst F) (c : nat) (cs : list cpumode) (m : K picked) : Prop :=
  forall r s', m sc = Ok r s' -> moves (at_sys s cs) (at_sys s' (<[c := mode_of r]> cs)).

(** C2: The calls of proc.c only take the steps of the process system.  On a CPU
    [c] that runs the process at [i], in any state of the table that satisfies the
    invariant, [fork], [kill], [wakeup], [growproc] and [forkret], and the parts of
    [sched], [yield] and [sleep] that run when the process is switched to again, move
    the system by steps of that process when they return; so does a [wait], on its
    first round or after a wakeup, that returns.  A [wait] that sleeps on its first
    or a later round, a [yield], an [exit] and a [sleep] on any channel but the
    process's own entry (which only [wait] uses), each followed by the scheduler's
    loop up to its next choice, move the system to that choice; so do a new pass and
    the start of [scheduler] on a CPU that is between two passes.  The invariant
    holds after each.  It also holds, for any number of CPUs that enter
    [scheduler], after [userinit] on the empty table, which makes the process at 0
    the first one. *)
Theorem proc_calls_refine (s : kst F) c i cs : 0 < ptable -> k_curproc s = addr i -> k_initproc s = addr init ->
  cs !! c = Some (Run i) -> ginv ptable init (at_sys s cs) -> k_nextpid s + 1 < two31 ->
  (forall fuel, stays s cs (fork ptable forkret_addr trapret_addr fuel)) /\
  (forall pid, stays s cs (kill pid)) /\
  (forall chan, stays s cs (wakeup chan)) /\
  (forall n, stays s cs (growproc ptable n)) /\
  stays s cs forkret /\
  (forall ie, stays s cs (sched_back ie)) /\
  (forall ie, stays s cs (yield_back ie)) /\
  (forall lk ie, stays s cs (sleep_back ptable (addr i) lk ie)) /\
  waits s c i cs (wait ptable) /\
  (forall ie, waits s c i cs (wait_back ptable (addr i) ie)) /\
  switches s c i cs (yield ptable) /\
  (forall chan lk, chan <> addr i -> switches s c i cs (sleep ptable chan lk)) /\
  (forall fuel lim, switches s c i cs (exit ptable fuel lim)) /\
  (forall c' sc, cs !! c' = Some Loop -> k_table sc = k_table s -> k_nextpid sc = k_nextpid s ->
     passes s sc c' cs (sched_pass ptable) /\ passes s sc c' cs (scheduler ptable)) /\
  (forall s0 u s', k_table s0 = repeat proc_zero NPROC -> k_nextpid s0 = 1 ->
     userinit ptable forkret_addr trapret_addr initcode_start initcode_size s0 = Ok u s' ->
     k_initproc s' = addr 0 /\ forall ncpu, ginv ptable 0 (at_sys s' (replicate ncpu Loop))).
Proof.
  intros Hp Cp Ip Hc G Bn. pose proof G as [T C]. pose proof (ci_run _ _ C _ _ Hc) as R0. cbn [at_sys g_table g_nextpid g_cpus] in T, R0.
  pose proof (ti_pid _ _ _ _ T i ltac:(congruence)) as Pi. assert (Hi : (i < length (k_table s))%nat) by (apply (live_in (k_table s)); congruence).
  assert (Lm : forall s', lrun i s s' -> moves (at_sys s cs) (at_sys s' cs)) by (intros s' L; apply moves_intro; auto; now apply (lrun_gstep c i)).
  assert (Gm : forall s1 r s2, goes i s s1 -> sched_resume ptable kpgdir i s1 = Ok r s2 -> moves (at_sys s cs) (at_sys s2 (<[c := mode_of r]> cs)))
    by (intros s1 r s2 Go R; apply moves_intro; auto; eapply goes_gstep; eassumption).
  assert (Wm : forall m, (forall r s', m s = Ok r s' -> wait_ends i s r s') -> waits s c i cs m)
    by (intros m Hm; split; [intros pid s' E; apply Lm; exact (Hm _ _ E)|intros ie s1 r s2 E; apply Gm; exact (Hm _ _ E)]).
  split_and!; try (intros ? ? E; apply Lm); try (intros ? ? ? E; apply Lm); try (intros ? ? ? ? E; apply Lm).
  - eapply fork_run; eauto; [lia|apply (ti_free _ _ _ _ T)].
  - eapply kill_run; eauto.
  - eapply wakeup_run; eauto.
  - eapply keeps_lrun, quietly_growproc; eauto.
  - eapply forkret_run; eauto.
  - eapply keeps_lrun, quietly_sched_back; eauto.
  - eapply keeps_lrun, quietly_yield_back; eauto.
  - eapply sleep_back_run; eauto.
  - apply Wm. intros r s'. now apply wait_run.
  - intros ie. apply Wm. intros r s'. now apply wait_back_run.
  - intros ie s1 r s2 E. apply Gm, goes_now. now apply (yield_run i) in E.
  - intros chan lk Nc ie s1 r s2 E. apply Gm, goes_now. apply (sleep_table i) in E as [V Fr]; [|exact Cp]. split; [rewrite V; now apply v_sleep|exact Fr].
  - intros fuel lim ie s1 r s2 E. apply Gm. eapply exit_run; eauto.
  - intros c' sc Hc' Et En. assert (Pm : forall r s', dispatch 0 (k_table sc) = (k_table s', mode_of r) /\ k_nextpid s' = k_nextpid sc ->
      moves (at_sys s cs) (at_sys s' (<[c' := mode_of r]> cs))).
    { intros r s' [D N]. apply moves_intro; auto. apply rtc_once. unfold at_sys. rewrite N, En. apply (g_pass ptable init c'); [exact Hc'|now rewrite <- Et]. }
    split; intros r s' E; apply Pm; [now apply sched_pass_run|now apply scheduler_run].
  - intros s0 u s' T0 N0 E. destruct (userinit_run s0 u s' Hp T0 N0 E) as (I' & N' & C'). split; [exact I'|]. intros ncpu. now apply boot_ginv.
Qed.

End Calls.

(** ** Critical sections *)

Section Exact.
Context `{Linker}.
Context {F : Type} `{ProcFiles F}.
Variables ptable forkret_addr trapret_addr : Z.

(** The state after a critical section that leaves the table [t]. *)
Definition unlocked (t : table) (s : kst F) : kst F :=
  mkKst t (k_nextpid s) (k_initproc s) (k_first s) (cpu_back (k_cpu s)) (k_curproc s) lock_free (k_lk s) (k_mem s) (k_files s) (k_hw s).

(** [ptable.lock] is free and the CPU's interrupt state consistent. *)
Definition lockable (s : kst F) : Prop := cpu_ok (k_cpu s) /\ truth (lk_locked (k_ptlock s)) = false.

Lemma locked_section (s : kst F) {A} (f : table -> table * A) : lockable s ->
  (acquire_pt ;;; t <- get_table ;; put_table (f t).1 ;;; release_pt ;;; ret (f t).2) s = Ok (f (k_table s)).2 (unlocked (f (k_table s)).1 s).
Proof.
  intros [Hc Hl]. assert (A1 : acquire 1 (mkLkst (k_cpu s) (k_ptlock s)) = Ok tt (mkLkst (cpu_off (k_cpu s)) (mkLock 1 (c_id (k_cpu s))))).
  { rewrite acquire_refines by exact Hc. unfold lock_acquire, lock_holding. now rewrite Hl. }
  assert (A2 : release (mkLkst (cpu_off (k_cpu s)) (mkLock 1 (c_id (k_cpu s)))) = Ok tt (mkLkst (cpu_back (k_cpu s)) lock_free)).
  { rewrite release_refines by exact Hc. unfold lock_release, lock_holding. cbn. now rewrite Z.eqb_refl. }
  unfold bind, acquire_pt, release_pt, on_pt, zoom, get_table, put_table, gets, modify. rewrite A1. cbn. rewrite A2. reflexivity.
Qed.

Lemma wakeup_exact chan (s : kst F) : lockable s -> wakeup chan s = Ok tt (unlocked (wakeup1 chan (k_table s)) s).
Proof.
  intros L. etransitivity; [|apply (locked_section s (fun t => (wakeup1 chan t, tt)) L)]. unfold wakeup. cbn.
  unfold bind. destruct (acquire_pt s) as [[] s1| | |]; try reflexivity. cbn. destruct (release_pt _) as [[] s2| | |]; reflexivity.
Qed.

Lemma unlocked_same (s : kst F) t : t = k_table s -> k_set_table t s = s.
Proof. intros ->. now destruct s. Qed.

Lemma kill_exact pid (s : kst F) : lockable s -> kill pid s =
  match kill_table pid (k_table s) with
  | Some t => Ok 0 (unlocked t s)
  | None => Ok (-1) (unlocked (k_table s) s)
  end.
Proof.
  intros L.
  pose proof (locked_section s (fun t => match kill_table pid t with Some t' => (t', 0) | None => (t, -1) end) L) as E.
  unfold kill. unfold bind in *. destruct (acquire_pt s) as [[] s1| | |] eqn:E1; try discriminate.
  assert (T1 : k_table s1 = k_table s) by (apply quietly_acquire in E1; apply E1).
  unfold get_table, gets in *. cbn in *. rewrite T1 in *. destruct (kill_table pid (k_table s)); cbn in *; unfold put_table, modify in *.
  - exact E.
  - rewrite (unlocked_same s1) in E by auto. exact E.
Qed.

(** The first entry with pid 0 is a free one. *)
Lemma scan_pid_zero (t : table) e : find_unused t = Some e -> p_pid (tget t e) = 0 ->
  (forall i, p_state (tget t i) <> UNUSED -> p_pid (tget t i) <> 0) -> scan (fun p => p_pid p =? 0) t 0 = Some e.
Proof.
  unfold find_unused, tget. revert e. assert (G : forall l k e, scan (fun p => bool_decide (p_state p = UNUSED)) l k = Some e ->
    p_pid (nth (e - k) l proc_zero) = 0 -> (forall i, p_state (nth i l proc_zero) <> UNUSED -> p_pid (nth i l proc_zero) <> 0) ->
    scan (fun p => p_pid p =? 0) l k = Some e).
  { induction l as [|p l IH]; intros k e; cbn [scan]; [discriminate|]. destruct (bool_decide_reflect (p_state p = UNUSED)) as [U|U]; intros E P0 N.
    - injection E as <-. rewrite Nat.sub_diag in P0. cbn in P0. now rewrite P0.
    - specialize (N 0%nat U) as N0. cbn in N0. rewrite (proj2 (Z.eqb_neq _ _) N0). pose proof (scan_some _ _ _ _ E) as (B & _).
      apply IH; [exact E|now replace (e - k)%nat with (S (e - S k)) in P0 by lia|]. intros i. apply (N (S i)). }
  intros e E P0. apply G; [exact E|now rewrite Nat.sub_0_r].
Qed.

Lemma find_unused_same t e f : find_unused t = Some e -> (forall p, p_state p = UNUSED -> p_state (f p) = UNUSED) -> find_unused (tset t e f) = Some e.
Proof.
  intros E Hf. unfold find_unused in *. assert (G : forall l k, scan (fun p => bool_decide (p_state p = UNUSED)) l k = Some e ->
    scan (fun p => bool_decide (p_state p = UNUSED)) (tset l (e - k) f) k = Some e).
  { induction l as [|p l IH]; intros k; cbn [scan]; [discriminate|]. destruct (bool_decide_reflect (p_state p = UNUSED)) as [U|U]; intros X.
    - injection X as <-. rewrite Nat.sub_diag. cbn. now rewrite (bool_decide_eq_true_2 _ (Hf _ U)).
    - pose proof (scan_some _ _ _ _ X) as (B & _). replace (e - k)%nat with (S (e - S k)) by lia. cbn.
      rewrite bool_decide_eq_false_2 by exact U. now apply IH. }
  specialize (G t 0%nat E). now rewrite Nat.sub_0_r in G.
Qed.

(** [kill(0)] kills a process that does not exist yet.  In a consistent table
    with a free entry that has never been used or has been reaped, [kill(0)]
    reports success and marks that entry as killed, and the process that the next
    [fork] puts into it starts with the mark. *)
Theorem kill_zero_marks_next_process init (s : kst F) e : lockable s -> tinv ptable init (k_table s) (k_nextpid s) ->
  find_unused (k_table s) = Some e -> p_pid (tget (k_table s) e) = 0 -> 1 <= k_nextpid s -> k_nextpid s + 1 < two31 ->
  exists s1, kill 0 s = Ok 0 s1 /\ p_state (tget (k_table s1) e) = UNUSED /\
    forall p s2, allocproc ptable forkret_addr trapret_addr s1 = Ok p s2 -> p <> 0 ->
      p = paddr ptable e /\ p_state (tget (k_table s2) e) = EMBRYO /\ p_killed (tget (k_table s2) e) = 1.
Proof.
  intros L T Fu P0 N1 N2. destruct (find_unused_some _ _ Fu) as [He U].
  pose proof (scan_pid_zero _ _ Fu P0 (fun i Ui => ltac:(pose proof (ti_pid _ _ _ _ T i Ui); lia))) as Sc.
  rewrite (kill_exact 0 s L). unfold kill_table. rewrite Sc. eexists. split; [reflexivity|].
  set (f := fun p => if bool_decide (p_state (with_killed 1 p) = SLEEPING) then with_state RUNNABLE (with_killed 1 p) else with_killed 1 p).
  change (k_table (unlocked _ s)) with (tset (k_table s) e f).
  assert (Fe : f (tget (k_table s) e) = with_killed 1 (tget (k_table s) e)) by (unfold f; cbn; now rewrite U).
  split; [rewrite tget_tset, decide_True, Fe by auto; exact U|]. intros p s2 E Np.
  assert (Free : forall x, p_state (tget (tset (k_table s) e f) x) = UNUSED -> p_parent (tget (tset (k_table s) e f) x) = 0).
  { intros x. rewrite tget_tset by exact He.
    destruct (decide (e = x)) as [<-|]; [rewrite Fe; intros _; now apply (ti_free _ _ _ _ T)|apply (ti_free _ _ _ _ T)]. }
  destruct (allocproc_run ptable forkret_addr trapret_addr 0 (unlocked (tset (k_table s) e f) s) p s2 N1 N2 Free E)
    as [_ [->|(e' & -> & Fr & Fu' & Ke & _)]]; [congruence|].
  change (k_table (unlocked _ s)) with (tset (k_table s) e f) in *. rewrite (find_unused_same _ _ f Fu) in Fu'.
  - injection Fu' as <-. split; [reflexivity|]. split; [apply Fr|]. rewrite Ke, tget_tset, decide_True, Fe by auto. reflexivity.
  - intros q Uq. unfold f. cbn. rewrite Uq. cbn. exact Uq.
Qed.

End Exact.

(** ** The scheduler's order *)

Section Fair.
Context `{Linker}.
Context {F : Type} `{ProcFiles F}.
Variables ptable kpgdir : Z.

Lemma sched_loop_choice k (s : kst F) r s' : sched_loop ptable k s = Ok r s' ->
  next_runnable k (k_table s) = match r with Switched i => Some i | PassDone => None end.
Proof.
  intros E. apply sched_loop_run in E as (m & D & _ & _ & R). unfold dispatch in D.
  destruct (next_runnable k (k_table s)) as [i|]; injection D as D Dm; rewrite <- Dm in R; destruct r; try reflexivity; try discriminate.
  - destruct R as [R _]. congruence.
  - destruct R as [R _]. discriminate.
Qed.

(** Where the loop goes on after it left the CPU. *)
Definition stands (p : picked) : nat := match p with Switched i => S i | PassDone => 0%nat end.

Lemma sched_next_choice p (s : kst F) r s' : sched_next ptable kpgdir p s = Ok r s' ->
  next_runnable (stands p) (k_table s) = match r with Switched i => Some i | PassDone => None end.
Proof.
  intros E. destruct p as [i|]; cbn [sched_next stands] in *.
  - unfold sched_resume in E. apply bind_inv_ok in E as ([] & s1 & E1 & E). apply quietly_hw in E1 as (T1 & _).
    apply bind_inv_ok in E as ([] & s2 & E2 & E). injection E2 as <-. apply sched_loop_choice in E. now rewrite <- T1.
  - unfold sched_pass in E. apply bind_inv_ok in E as ([] & s1 & E1 & E). apply quietly_pt in E1.
    apply bind_inv_ok in E as ([] & s2 & E2 & E). apply quietly_acquire in E2. apply sched_loop_choice in E. now rewrite <- (proj1 E1), <- (proj1 E2).
Qed.

(** The scheduler of one CPU: it left the CPU with [left 0], and runs from [left n] to
    [left (S n)] in the state [run n]. *)
Variables (run after : nat -> kst F) (left : nat -> picked) (j : nat).
Hypothesis choices : forall n, sched_next ptable kpgdir (left n) (run n) = Ok (left (S n)) (after n).
Hypothesis start : (stands (left 0) <= NPROC)%nat.
Hypothesis tables : forall n, length (k_table (run n)) = NPROC.
Hypothesis index : (j < NPROC)%nat.
Hypothesis waiting : forall n, (forall m, (m < n)%nat -> left (S m) <> Switched j) -> p_state (tget (k_table (run n)) j) = RUNNABLE.

Abbreviation pos n := (stands (left n)).
Abbreviation r n := (left (S n)).

Lemma pos_bound n : (pos n <= NPROC)%nat.
Proof.
  induction n as [|n _]; [exact start|]. pose proof (sched_next_choice _ _ _ _ (choices n)) as X.
  destruct (r n) as [i|]; cbn [stands]; [|lia]. apply next_runnable_some in X as [B _]. rewrite tables in B. lia.
Qed.

(** Below [j] the loop comes to [j]. *)
Lemma reaches d : forall n, (pos n <= j)%nat -> (j - pos n <= d)%nat -> (forall m, (m < n)%nat -> r m <> Switched j) ->
  exists m, (n <= m <= n + (j - pos n))%nat /\ r m = Switched j.
Proof.
  induction d as [|d IH]; intros n Hp Hd No; pose proof (sched_next_choice _ _ _ _ (choices n)) as X; pose proof (waiting n No) as Rj;
    (destruct (r n) as [i|] eqn:Rn; [|exfalso; apply (next_runnable_none _ _ j X); [rewrite tables; lia|exact Rj]]);
    pose proof (next_runnable_some _ _ _ X) as (B & _ & Least);
    (destruct (Nat.eq_dec i j) as [->|Ni]; [exists n; split; [lia|exact Rn]|]);
    (assert (i < j)%nat by (destruct (Nat.lt_ge_cases i j); [assumption|]; exfalso; apply (Least j); [lia|exact Rj])); [lia|].
  assert (Mn : pos (S n) = S i) by now rewrite Rn. destruct (IH (S n)) as (m & Bm & Rm); [lia|lia| |exists m; split; [lia|exact Rm]].
  intros m Hm. destruct (Nat.eq_dec m n) as [->|]; [rewrite Rn; congruence|apply No; lia].
Qed.

(** Above [j] the loop comes to its end, without choosing [j]. *)
Lemma wraps d : forall n, (j < pos n)%nat -> (NPROC - pos n <= d)%nat -> (forall m, (m < n)%nat -> r m <> Switched j) ->
  exists m, (n <= m <= n + (NPROC - pos n))%nat /\ pos (S m) = 0%nat /\ forall x, (x < S m)%nat -> r x <> Switched j.
Proof.
  induction d as [|d IH]; intros n Hp Hd No; pose proof (sched_next_choice _ _ _ _ (choices n)) as X;
    (assert (Nn : r n <> Switched j) by (intros E; rewrite E in X; apply next_runnable_some in X as [B _]; lia));
    (assert (No' : forall x, (x < S n)%nat -> r x <> Switched j) by (intros x Hx; destruct (Nat.eq_dec x n) as [->|]; [exact Nn|apply No; lia]));
    (destruct (r n) as [i|] eqn:Rn; [apply next_runnable_some in X as [B _]; rewrite tables in B|exists n; split; [lia|]; split; [now rewrite Rn|exact No']]);
    [lia|].
  assert (Mn : pos (S n) = S i) by now rewrite Rn.
  pose proof (pos_bound (S n)). destruct (IH (S n)) as (m & Bm & Pm & Nm); [lia|lia|exact No'|]. exists m. split; [lia|auto].
Qed.

Lemma chosen_soon : exists n, (n <= NPROC)%nat /\ r n = Switched j.
Proof.
  destruct (Nat.le_gt_cases (pos 0) j) as [Hp|Hp].
  - destruct (reaches j 0 Hp ltac:(lia) ltac:(lia)) as (m & B & R). exists m. split; [lia|exact R].
  - destruct (wraps NPROC 0 Hp ltac:(lia) ltac:(lia)) as (m & B & Pm & No).
    destruct (reaches j (S m) ltac:(lia) ltac:(lia) No) as (x & Bx & Rx). exists x. split; [lia|exact Rx].
Qed.

End Fair.

(** C22: The scheduler is fair.  Cut the loop of [scheduler] of a CPU at the points
    where it leaves the CPU to a process or ends a pass, so that each piece of it
    ([sched_next]) goes on from where the piece before left off, with whatever the
    processes and the other CPUs have made of the state in between.  Wherever the
    loop stands, a process that stays [RUNNABLE] until this CPU switches to it is
    switched to by one of the next [NPROC + 1] pieces. *)
Theorem scheduler_fair {F} (ptable kpgdir : Z) (run after : nat -> kst F) (left : nat -> picked) (j : nat) :
  (forall n, sched_next ptable kpgdir (left n) (run n) = Ok (left (S n)) (after n)) ->
  (forall i, left 0%nat = Switched i -> (i < NPROC)%nat) ->
  (forall n, length (k_table (run n)) = NPROC) -> (j < NPROC)%nat ->
  (forall n, (forall m, (m < n)%nat -> left (S m) <> Switched j) -> p_state (tget (k_table (run n)) j) = RUNNABLE) ->
  exists n, (n <= NPROC)%nat /\ left (S n) = Switched j.
Proof.
  intros Hc Hs. apply (chosen_soon ptable kpgdir run after left j Hc). destruct (left 0%nat) as [i|]; cbn; [|lia]. specialize (Hs i eq_refl). lia.
Qed.

(** ** The list of mappings after fork *)

(** The nodes from [a] on, by their [next] fields. *)
Fixpoint lz_chain (m : mem) (a : Z) (l : list Z) : Prop :=
  match l with
  | [] => a = 0
  | x :: l => a = x /\ KERNBASE <= x /\ lz_chain m (load32 m (x + LZ_next)) l
  end.

(** The 32 bytes of a node at [x] and the word at [a] do not meet [nh]'s node. *)
Definition apart (nh a len : Z) : Prop := a + len <= nh \/ nh + LZ_size <= a.

Lemma lz_chain_ext m m' l : forall a, (forall y x, y ∈ l -> y <= x < y + LZ_size -> m' x = m x) -> lz_chain m a l -> lz_chain m' a l.
Proof.
  induction l as [|y l IH]; intros a E; cbn; [auto|]. intros (-> & Ky & C). split; [reflexivity|]. split; [exact Ky|].
  rewrite (load32_ext m' m).
  - apply IH; [|exact C]. intros z x Hz. apply E. now right.
  - intros x Hx. apply (E y); [now left|]. unfold LZ_next, LZ_size in *. lia.
Qed.

Lemma fork_list_loop_same l : forall fuel k temp child, mem_ok (km_mem k) -> KERNBASE <= child ->
  load32 (km_mem k) (child + LZ_next) = temp -> lz_chain (km_mem k) temp l -> (length l < fuel)%nat ->
  exists k', fork_list_loop fuel temp child k = Ok tt k' /\ (forall x, km_mem k' x = km_mem k x).
Proof.
  induction l as [|y l IH]; intros fuel k temp child Mo Kc Nx C Hf; (destruct fuel as [|fuel]; [cbn in Hf; lia|]); cbn [fork_list_loop lz_chain] in *.
  { subst temp. rewrite C. exists k. split; [reflexivity|auto]. }
  destruct C as (Et & Ky & C). assert (N0 : (temp =? 0) = false) by (apply Z.eqb_neq; unfold KERNBASE in *; lia). rewrite N0.
  rewrite (bind_ok _ _ _ _ _ (ldf_ok child LZ_next k Kc)), Nx, (proj2 (Z.ltb_ge temp KERNBASE)) by lia.
  set (k1 := set_mem (memmove (km_mem k) temp temp LZ_size) k).
  assert (E1 : forall x, km_mem k1 x = km_mem k x).
  { intros x. cbn. rewrite memmove_eq by (auto; unfold LZ_size; lia). destruct (_ && _); f_equal; lia. }
  assert (L1 : forall a, load32 (km_mem k1) a = load32 (km_mem k) a) by (intros; apply load32_ext; auto).
  rewrite (bind_ok (memmove_k temp temp LZ_size) _ _ tt k1 eq_refl).
  rewrite (bind_ok _ _ _ _ _ (ldf_ok child LZ_next k1 Kc)), (L1 (child + LZ_next)), Nx.
  assert (Kt : KERNBASE <= temp) by lia. rewrite (bind_ok _ _ _ _ _ (ldf_ok temp LZ_next k1 Kt)), (L1 (temp + LZ_next)).
  destruct (IH fuel k1 (load32 (km_mem k) (temp + LZ_next)) temp) as (k' & R & E').
  - intros x. rewrite E1. apply Mo.
  - exact Kt.
  - apply L1.
  - rewrite Et. revert C. apply lz_chain_ext. intros; apply E1.
  - cbn in Hf. lia.
  - exists k'. split; [exact R|]. intros x. now rewrite E', E1.
Qed.

(** [fork] does not copy the list of mappings, it shares it.  The loop that
    follows the parent's list copies each node onto itself: after [fork] the
    child's first node is a copy of the parent's first node, [next] field
    included, and nothing else of the memory has changed, so the rest of the
    child's list consists of the parent's own nodes, and the child's [tail] is not
    its last node. *)
Theorem fork_shares_mappings fuel p np k ph nh rest : mem_ok (km_mem k) ->
  load32 (km_mem k) (p + P_head) = ph -> load32 (km_mem k) (np + P_head) = nh -> KERNBASE <= ph -> KERNBASE <= nh ->
  lz_chain (km_mem k) (load32 (km_mem k) (ph + LZ_next)) rest -> (length rest < fuel)%nat ->
  apart nh (p + P_head) 4 -> apart nh (np + P_head) 8 -> (forall y, y ∈ ph :: rest -> apart nh y LZ_size) ->
  exists k', fork_list fuel p np k = Ok tt k' /\
    (forall x, nh <= x < nh + LZ_size -> km_mem k' x = km_mem k (ph + (x - nh))) /\
    (forall x, x < nh \/ nh + LZ_size <= x -> km_mem k' x = km_mem k x) /\
    lz_chain (km_mem k') ph (ph :: rest) /\ lz_chain (km_mem k') nh (nh :: rest) /\
    load32 (km_mem k') (np + P_tail) = load32 (km_mem k) (np + P_tail).
Proof.
  intros Mo Hp Hn Kp Kn C Hf A1 A2 A3. unfold fork_list, apart, P_head, P_tail, LZ_size in *.
  set (k1 := set_mem (memmove (km_mem k) nh ph LZ_size) k).
  assert (E1 : forall x, km_mem k1 x = if (nh <=? x) && (x <? nh + 32) then km_mem k (ph + (x - nh)) else km_mem k x)
    by (intros; apply memmove_eq; [exact Mo|unfold LZ_size; lia]).
  assert (Eo : forall x, x < nh \/ nh + 32 <= x -> km_mem k1 x = km_mem k x).
  { intros x Hx. rewrite E1. destruct (_ && _) eqn:B; [bool_prop; lia|reflexivity]. }
  assert (Ei : forall x, nh <= x < nh + 32 -> km_mem k1 x = km_mem k (ph + (x - nh))).
  { intros x Hx. rewrite E1, (proj2 (Z.leb_le _ _)), (proj2 (Z.ltb_lt _ _)) by lia. reflexivity. }
  assert (Cr : lz_chain (km_mem k1) (load32 (km_mem k) (ph + LZ_next)) rest).
  { revert C. apply lz_chain_ext. intros y x Hy Hx. apply Eo. specialize (A3 y ltac:(now right)). unfold LZ_size in Hx. lia. }
  assert (Np : load32 (km_mem k1) (ph + LZ_next) = load32 (km_mem k) (ph + LZ_next)).
  { apply load32_ext. intros x Hx. apply Eo. specialize (A3 ph ltac:(now left)). unfold LZ_next in Hx. lia. }
  assert (Nn : load32 (km_mem k1) (nh + LZ_next) = load32 (km_mem k) (ph + LZ_next)).
  { unfold LZ_next, load32. rewrite !Ei by lia. now replace (ph + (nh + 24 - nh)) with (ph + 24) by lia;
    replace (ph + (nh + 24 + 1 - nh)) with (ph + 24 + 1) by lia; replace (ph + (nh + 24 + 2 - nh)) with (ph + 24 + 2) by lia;
    replace (ph + (nh + 24 + 3 - nh)) with (ph + 24 + 3) by lia. }
  destruct (fork_list_loop_same rest fuel k1 (load32 (km_mem k) (ph + LZ_next)) nh) as (k' & R & E'); auto.
  { intros x. rewrite E1. destruct (_ && _); apply Mo. }
  assert (L' : forall a, load32 (km_mem k') a = load32 (km_mem k1) a) by (intros; apply load32_ext; auto).
  assert (Cx : forall a, lz_chain (km_mem k1) a rest -> lz_chain (km_mem k') a rest) by (intros a; apply lz_chain_ext; auto).
  exists k'. split_and!.
  - rewrite (bind_ok (rd32 _) _ _ _ _ eq_refl), (bind_ok (rd32 _) _ _ _ _ eq_refl), Hn, Hp, (proj2 (Z.ltb_ge nh _)), (proj2 (Z.ltb_ge ph _)) by lia.
    cbn [orb]. rewrite (bind_ok (memmove_k nh ph LZ_size) _ _ tt k1 eq_refl), (bind_ok (rd32 _) _ _ _ _ eq_refl).
    assert (Pp : load32 (km_mem k1) (p + 384) = ph) by (rewrite <- Hp; apply load32_ext; intros; apply Eo; lia).
    assert (Pn : load32 (km_mem k1) (np + 384) = nh) by (rewrite <- Hn; apply load32_ext; intros; apply Eo; lia).
    rewrite Pp, (bind_ok _ _ _ _ _ (ldf_ok ph LZ_next k1 Kp)), (bind_ok (rd32 _) _ _ _ _ eq_refl), Pn, Np. exact R.
  - intros x Hx. rewrite E'. now apply Ei.
  - intros x Hx. rewrite E'. now apply Eo.
  - cbn. split; [reflexivity|]. split; [exact Kp|]. rewrite L', Np. now apply Cx.
  - cbn. split; [reflexivity|]. split; [exact Kn|]. rewrite L', Nn. now apply Cx.
  - rewrite L'. apply load32_ext. intros x Hx. apply Eo. lia.
Qed.

(** ** Concrete instances *)

#[local] Instance sample_files : ProcFiles unit := {
  pf_filedup f := ret f; pf_fileclose _ := ret []; pf_idup ip := ret ip; pf_iput _ := ret []; pf_begin_op := ret tt;
  pf_end_op := ret []; pf_namei _ := ret 1; pf_iinit := ret tt; pf_initlog := ret tt }.

Definition sample_hw : hw := mkHw (SEG16 0 0 0 0) 0 0 0 0 0.
Definition sample_memory : kmem := mkKmem (fun _ => 1) 0 false lock_free 0.

(** The process at 0 runs on CPU 5000, interrupts on, with the table [t]. *)
Definition sample_kst (t : table) (n : Z) : kst unit :=
  mkKst t n (paddr 1000 0) 0 (mkCpu 5000 FL_IF 0 0) (paddr 1000 0) lock_free lock_free sample_memory tt sample_hw.

Lemma sample_ginv : ginv 1000 0 (at_sys (sample_kst sample_ready 3) [Run 0; Loop]).
Proof.
  apply (ginv_reach 1000 0 ltac:(lia) _ _ sample_run_ready). apply booted_ginv. lia.
Qed.

#[local] Existing Instance sample_linker.

(** The same with a kernel stack for each process. *)
Definition sample_stacks : table := map (with_kstack 1) sample_ready.

Lemma sample_stacks_ginv : ginv 1000 0 (at_sys (sample_kst sample_stacks 3) [Run 0; Loop]).
Proof.
  apply (ginv_reach 1000 0 ltac:(lia) (at_sys (sample_kst sample_ready 3) [Run 0; Loop])); [|exact sample_ginv].
  apply rtc_once, (g_local 1000 0 0 0); [reflexivity|]. apply l_data. apply Forall2_fmap_r, Forall_Forall2_diag, Forall_forall. intros p _. repeat split.
Qed.

(** The other CPU, with interrupts off and no process. *)
Definition sample_idle : kst unit :=
  mkKst sample_stacks 3 (paddr 1000 0) 0 (mkCpu 6000 0 0 0) 0 lock_free lock_free sample_memory tt sample_hw.

Definition sample_ran {A} (m : M (kst unit) A) (s : kst unit) : kst unit := match m s with Ok _ s' => s' | _ => s end.

(** The first process kills its child; it yields, and its CPU switches to the child;
    it waits for the child and sleeps, and its CPU switches to the child; the other
    CPU starts its scheduler and switches to the child.  The invariant holds after
    each. *)
Lemma proc_calls_refine_witness :
  let s := sample_kst sample_stacks 3 in let g := at_sys s [Run 0; Loop] in
  moves 1000 0 g (at_sys (sample_ran (kill 2) s) [Run 0; Loop]) /\
  moves 1000 0 g (at_sys (sample_ran (yield 1000 ;;; sched_resume 1000 0 0) s) [Run 1; Loop]) /\
  moves 1000 0 g (at_sys (sample_ran (wait 1000 ;;; sched_resume 1000 0 0) s) [Run 1; Loop]) /\
  moves 1000 0 g (at_sys (sample_ran (scheduler 1000) sample_idle) [Run 0; Run 1]).
Proof.
  cbv zeta. destruct (@proc_calls_refine sample_linker unit sample_files 1000 0 0 0 0 0 0 (sample_kst sample_stacks 3) 0 0 [Run 0; Loop]
    ltac:(lia) eq_refl eq_refl eq_refl sample_stacks_ginv ltac:(unfold two31; cbn; lia)) as (_ & Kl & _ & _ & _ & _ & _ & _ & [_ Wt] & _ & Yd & _ & _ & Ps & _).
  split_and!.
  - apply (Kl 2 0). vm_compute. reflexivity.
  - apply (Yd FL_IF (sample_ran (yield 1000) (sample_kst sample_stacks 3)) (Switched 1)); vm_compute; reflexivity.
  - apply (Wt FL_IF (sample_ran (wait 1000) (sample_kst sample_stacks 3)) (Switched 1)); vm_compute; reflexivity.
  - destruct (Ps 1%nat sample_idle eq_refl eq_refl eq_refl) as [_ Sc]. apply (Sc (Switched 1) (sample_ran (scheduler 1000) sample_idle)).
    vm_compute. reflexivity.
Defined.

(** Processes 3 and 5 wait for a CPU whose scheduler starts a pass; it chooses 3,
    then 5, then ends the pass. *)
Definition sample_waiters : table :=
  tset (tset (repeat proc_zero 64) 3 (fun p => with_state RUNNABLE (with_kstack 1 p))) 5 (fun p => with_state RUNNABLE (with_kstack 1 p)).
Definition sample_sched : kst unit :=
  mkKst sample_waiters 9 (paddr 1000 0) 0 (mkCpu 5000 0 1 FL_IF) 0 (mkLock 1 5000) lock_free sample_memory tt sample_hw.

Definition sample_unheld : kst unit :=
  mkKst sample_waiters 9 (paddr 1000 0) 0 (mkCpu 5000 0 0 0) 0 lock_free lock_free sample_memory tt sample_hw.

Fixpoint sample_phase (n : nat) : nat :=
  match n with O => 0 | S n => match sample_phase n with 0 => 1 | 1 => 2 | _ => 0 end end%nat.
Definition sample_left (n : nat) : picked := match sample_phase n with 0 => PassDone | 1 => Switched 3 | _ => Switched 5 end%nat.
(** The scheduler starts a pass with interrupts off and the lock free, and comes back
    from a process holding the lock. *)
Definition sample_state (n : nat) : kst unit := match sample_left n with PassDone => sample_unheld | _ => sample_sched end.

Lemma scheduler_fair_witness : exists n, (n <= NPROC)%nat /\ sample_left (S n) = Switched 5.
Proof.
  apply (scheduler_fair 1000 0 sample_state (fun n => sample_ran (sched_next 1000 0 (sample_left n)) (sample_state n)) sample_left 5).
  - intros n. unfold sample_state, sample_left. cbn [sample_phase]. destruct (sample_phase n) as [|[|k]]; vm_compute; reflexivity.
  - intros i X. discriminate.
  - intros n. unfold sample_state. now destruct (sample_left n).
  - unfold NPROC. lia.
  - intros n _. unfold sample_state. now destruct (sample_left n).
Defined.

Lemma kill_zero_marks_next_process_witness : exists s1, @kill unit 0 (sample_kst sample_ready 3) = Ok 0 s1 /\
  p_killed (tget (k_table s1) 2) = 1 /\ p_state (tget (k_table s1) 2) = UNUSED.
Proof.
  destruct (kill_zero_marks_next_process 1000 0 0 0 (sample_kst sample_ready 3) 2) as (s1 & Kl & U & _).
  - split; [split; [cbn; lia|intros X; cbn in X; lia]|reflexivity].
  - apply sample_ginv.
  - vm_compute. reflexivity.
  - vm_compute. reflexivity.
  - cbn. lia.
  - unfold two31. cbn. lia.
  - exists s1. split; [exact Kl|]. split; [|exact U].
    assert (X : match @kill unit 0 (sample_kst sample_ready 3) with Ok _ s => p_killed (tget (k_table s) 2) | _ => 0 end = 1) by (vm_compute; reflexivity).
    rewrite Kl in X. exact X.
Defined.

(** A parent at 100 with two nodes, and a child at 600 whose head is a third. *)
Definition sample_lists : kmem :=
  mkKmem (store32 (store32 (store32 (fun _ => 0) (100 + P_head) 0x80100000) (600 + P_head) 0x80300000) (0x80100000 + LZ_next) 0x80200000) 0 false lock_free 0.

Lemma fork_shares_mappings_witness : exists k', fork_list 5 100 600 sample_lists = Ok tt k' /\
  load32 (km_mem k') (0x80300000 + LZ_next) = 0x80200000.
Proof.
  destruct (fork_shares_mappings 5 100 600 sample_lists 0x80100000 0x80300000 [0x80200000]) as (k' & R & _ & _ & _ & C & _).
  - intros x. cbn. unfold store32. repeat case_bool; apply u8_bound || lia.
  - vm_compute. reflexivity.
  - vm_compute. reflexivity.
  - unfold KERNBASE. lia.
  - unfold KERNBASE. lia.
  - vm_compute. repeat split; discriminate.
  - cbn. lia.
  - unfold apart, P_head, LZ_size. lia.
  - unfold apart, P_head, LZ_size. lia.
  - intros y Hy. rewrite !elem_of_cons in Hy. unfold apart, LZ_size. destruct Hy as [->|[->|Hy]]; [lia|lia|now apply elem_of_nil in Hy].
  - exists k'. split; [exact R|]. cbn in C. apply C.
Defined.
