(* ===== verification/File.v ===== *)
(** Open files: [src/xv6/xv6-public/file.c] and [pipealloc] of [pipe.c].

    [ftable.file] is a list of [struct file]; a [struct file *] is the index of
    its entry.  [ftable.lock] makes the accesses to it one step.  A pipe lives in
    a page of the kernel's memory: [x_pipes] maps the page to the pipe of [Pipe].
    The calls are those of one process that runs alone: where it would sleep for
    another process to act, the model stops with a [Fault]. *)

From stdpp Require Import gmap.
From S2P Require Import Prelude Mem Mmu Spinlock Kalloc Pipe Block Bio Log Txn Fs.

Definition NFILE : nat := 100.
Definition O_RDONLY : Z := 0x000.
Definition O_WRONLY : Z := 0x001.
Definition O_RDWR : Z := 0x002.
Definition O_CREATE : Z := 0x200.

Inductive ftype := FD_NONE | FD_PIPE | FD_INODE.

Record file := mkFile {
  fl_type : ftype;
  fl_ref : Z;
  fl_readable : Z;
  fl_writable : Z;
  fl_pipe : Z;
  fl_ip : nat;
  fl_off : Z }.

Definition file_zero : file := mkFile FD_NONE 0 0 0 0 0 0.

Definition with_fref (r : Z) (f : file) : file :=
  mkFile (fl_type f) r (fl_readable f) (fl_writable f) (fl_pipe f) (fl_ip f) (fl_off f).
Definition with_ftype (t : ftype) (f : file) : file :=
  mkFile t (fl_ref f) (fl_readable f) (fl_writable f) (fl_pipe f) (fl_ip f) (fl_off f).
Definition with_off (o : Z) (f : file) : file :=
  mkFile (fl_type f) (fl_ref f) (fl_readable f) (fl_writable f) (fl_pipe f) (fl_ip f) o.
(** The fields that [pipealloc] and [sys_open] set. *)
Definition as_pipe (r w p : Z) (f : file) : file := mkFile FD_PIPE (fl_ref f) r w p (fl_ip f) (fl_off f).
Definition as_inode (r w : Z) (ip : nat) (f : file) : file := mkFile FD_INODE (fl_ref f) r w (fl_pipe f) ip 0.

Record xstate (C : Type) := mkX {
  x_files : list file;
  x_fs : fstate C;
  x_pipes : gmap Z pipe;
  x_mem : kmem }.
Arguments mkX {C}.
Arguments x_files {C}.
Arguments x_fs {C}.
Arguments x_pipes {C}.
Arguments x_mem {C}.

Section File.
Context `{Linker}.
Context {C : Type} `{BlockCache C}.

(** [myproc()->pid], [myproc()->killed], and the entries of [devsw]. *)
Variable pid : Z.
Variable killed : bool.
Variable dev_read : Z -> option (nat -> Z -> M (fstate C) (Z * list Z)).
Variable dev_write : Z -> option (nat -> (Z -> Z) -> Z -> M (fstate C) Z).

Abbreviation X := (M (xstate C)).

Definition on_fs {A} (m : M (fstate C) A) : X A := zoom x_fs (fun v s => mkX (x_files s) v (x_pipes s) (x_mem s)) m.
Definition on_pages {A} (m : M kmem A) : X A := zoom x_mem (fun v s => mkX (x_files s) (x_fs s) (x_pipes s) v) m.
Definition get_pipe (p : Z) : X pipe :=
  fun s => match x_pipes s !! p with Some v => Ok v s | None => Fault "no such pipe" end.
Definition put_pipes (f : gmap Z pipe -> gmap Z pipe) : X unit := modify (fun s => mkX (x_files s) (x_fs s) (f (x_pipes s)) (x_mem s)).
Definition get_file (i : nat) : X file :=
  fun s => match x_files s !! i with Some f => Ok f s | None => Fault "no such file" end.
Definition upd_file (i : nat) (f : file -> file) : X unit :=
  modify (fun s => mkX (alter f i (x_files s)) (x_fs s) (x_pipes s) (x_mem s)).

(** [begin_op] and [end_op] of a process that finds room in the log. *)
Definition fs_begin : X unit :=
  b <- on_fs (onlog begin_op) ;; if (b : bool) then ret tt else fault "begin_op: sleeps".
Definition fs_end : X unit := on_fs (onlog end_op).

(** The first entry with [ref == 0]. *)
Fixpoint free_file (l : list file) (i : nat) : option nat :=
  match l with
  | [] => None
  | f :: l => if fl_ref f =? 0 then Some i else free_file l (S i)
  end.

Definition filealloc : X (option nat) :=
  l <- gets x_files ;;
  match free_file l 0 with
  | Some i => upd_file i (with_fref 1) ;;; ret (Some i)
  | None => ret None
  end.

Definition filedup (i : nat) : X nat :=
  f <- get_file i ;;
  if fl_ref f <? 1 then panic "filedup" else
  upd_file i (with_fref (fl_ref f + 1)) ;;;
  ret i.

(** [pipeclose(p, writable)], the page freed when both ends are closed. *)
Definition pipe_close (p : Z) (writable : bool) : X unit :=
  v <- get_pipe p ;;
  let '(v', freed) := pipeclose writable v in
  if (freed : bool) then put_pipes (delete p) ;;; on_pages (kfree p)
  else put_pipes (<[p := v']>).

Definition fileclose (i : nat) : X unit :=
  f <- get_file i ;;
  if fl_ref f <? 1 then panic "fileclose" else
  upd_file i (with_fref (fl_ref f - 1)) ;;;
  if 0 <? fl_ref f - 1 then ret tt else
  upd_file i (fun g => with_ftype FD_NONE (with_fref 0 g)) ;;;
  match fl_type f with
  | FD_PIPE => pipe_close (fl_pipe f) (truth (fl_writable f))
  | FD_INODE => fs_begin ;;; on_fs (iput pid (fl_ip f)) ;;; fs_end
  | FD_NONE => ret tt
  end.

Definition filestat (i : nat) : X (option stat) :=
  f <- get_file i ;;
  match fl_type f with
  | FD_INODE =>
      on_fs (ilock pid (fl_ip f)) ;;;
      st <- on_fs (stati (fl_ip f)) ;;
      on_fs (iunlock pid (fl_ip f)) ;;;
      ret (Some st)
  | _ => ret None
  end.

Definition piperead (p : Z) (n : Z) : X (Z * list Z) :=
  v <- get_pipe p ;;
  let '(v', r) := piperead_run killed (Z.to_nat n) v in
  put_pipes (<[p := v']>) ;;;
  match r with
  | RDone cs => ret (Z.of_nat (length cs), cs)
  | RFail => ret (-1, [])
  | RBlock => fault "piperead: sleeps"
  end.

Definition pipewrite (p : Z) (bs : list Z) : X Z :=
  v <- get_pipe p ;;
  let '(v', _, r) := pipewrite_run killed bs v in
  put_pipes (<[p := v']>) ;;;
  match r with
  | WDone => ret (Z.of_nat (length bs))
  | WFail => ret (-1)
  | WBlock _ => fault "pipewrite: sleeps"
  end.

(** The result and the bytes stored at [addr]. *)
Definition fileread (i : nat) (n : Z) : X (Z * list Z) :=
  f <- get_file i ;;
  if fl_readable f =? 0 then ret (-1, []) else
  match fl_type f with
  | FD_PIPE => piperead (fl_pipe f) n
  | FD_INODE =>
      on_fs (ilock pid (fl_ip f)) ;;;
      r <- on_fs (readi dev_read (fl_ip f) (fl_off f) (u32 n)) ;;
      (if 0 <? fst r then upd_file i (with_off (u32 (fl_off f + fst r))) else ret tt) ;;;
      on_fs (iunlock pid (fl_ip f)) ;;;
      ret r
  | FD_NONE => panic "fileread"
  end.

Definition WRITE_MAX : Z := (MAXOPBLOCKS - 1 - 1 - 2) / 2 * 512.

(** The loop of [filewrite]: [k] bytes of [src] are written. *)
Fixpoint filewrite_loop (fuel : nat) (i : nat) (src : Z -> Z) (k n : Z) : X Z :=
  match fuel with
  | O => nofuel
  | S fuel =>
      if k <? n then
        let n1 := if WRITE_MAX <? n - k then WRITE_MAX else n - k in
        fs_begin ;;;
        f <- get_file i ;;
        on_fs (ilock pid (fl_ip f)) ;;;
        r <- on_fs (writei dev_write (fl_ip f) (fun x => src (k + x)) (fl_off f) n1) ;;
        (if 0 <? r then upd_file i (with_off (u32 (fl_off f + r))) else ret tt) ;;;
        on_fs (iunlock pid (fl_ip f)) ;;;
        fs_end ;;;
        if r <? 0 then ret k
        else if negb (r =? n1) then panic "short filewrite"
        else filewrite_loop fuel i src (k + r) n
      else ret k
  end.

(** [src] is the function from the offsets of [addr] to the bytes. *)
Definition filewrite (i : nat) (src : Z -> Z) (n : Z) : X Z :=
  f <- get_file i ;;
  if fl_writable f =? 0 then ret (-1) else
  match fl_type f with
  | FD_PIPE => pipewrite (fl_pipe f) (map src (seqZ 0 n))
  | FD_INODE => k <- filewrite_loop (S (Z.to_nat n)) i src 0 n ;; ret (if k =? n then n else -1)
  | FD_NONE => panic "filewrite"
  end.

(** [pipealloc]: the files of the read and the write end. *)
Definition pipealloc : X (option (nat * nat)) :=
  f0 <- filealloc ;;
  match f0 with
  | None => ret None
  | Some f0 =>
      f1 <- filealloc ;;
      match f1 with
      | None => fileclose f0 ;;; ret None
      | Some f1 =>
          p <- on_pages kalloc ;;
          if p =? 0 then fileclose f0 ;;; fileclose f1 ;;; ret None else
          junk <- gets (fun s => bytes (km_mem (x_mem s)) (p + 52) 512) ;;
          put_pipes (<[p := pipe_init junk]>) ;;;
          upd_file f0 (as_pipe 1 0 p) ;;;
          upd_file f1 (as_pipe 0 1 p) ;;;
          ret (Some (f0, f1))
      end
  end.

End File.
