(* ===== verification/Mapfile.v ===== *)
(** Page faults on mapped files: the handler of [Pgfault] on top of [fileread] and
    [filewrite] of [File].

    [Pgfault] and [Wunmap] see a [struct file] through its address, and set its [off]
    in the kernel's memory; [File] has the entries of [ftable.file] as records.  Here
    the two views are joined: a call on an address takes [off] from the memory, runs
    the operation of [File] on the entry, and leaves the new [off] in the memory. *)

From stdpp Require Import gmap.
From S2P Require Import Prelude Mem Mmu Spinlock Kalloc PageTable Uvm Lazy FileApi Wunmap Pgfault Pipe Block Bio Log Txn Fs Balloc Inode File.

(** [sizeof(struct file)]. *)
Definition FILE_size : Z := 24.

Section Mapfile.
Context `{LK : Linker}.
Context {C : Type} `{BC : BlockCache C}.

Variable pid : Z.
Variable killed : bool.
Variable dev_read : Z -> option (nat -> Z -> M (fstate C) (Z * list Z)).
Variable dev_write : Z -> option (nat -> (Z -> Z) -> Z -> M (fstate C) Z).

(** [ftable.file]. *)
Variable ftable : Z.

(** The entry a [struct file *] points to. *)
Definition file_index (f : Z) : option nat :=
  let i := (f - ftable) / FILE_size in
  if ((f - ftable) mod FILE_size =? 0) && (0 <=? i) && (i <? Z.of_nat NFILE) then Some (Z.to_nat i) else None.

(** The entry of [f] with the offset that the memory has. *)
Definition enter_file (f : Z) (i : nat) (k : kmem) (x : xstate C) : xstate C :=
  mkX (alter (with_off (load32 (km_mem k) (f + F_off))) i (x_files x)) (x_fs x) (x_pipes x) k.

(** An operation of [File] on the entry of [f]; [out] stores what it returns. *)
Definition at_file {A} (f : Z) (out : A -> M kmem unit) (op : nat -> M (xstate C) A) : M (kmem * xstate C) A :=
  match file_index f with
  | None => fault "not a file"
  | Some i =>
      modify (fun s => (fst s, enter_file f i (fst s) (snd s))) ;;;
      r <- zoom snd (fun x _ => (x_mem x, x)) (op i) ;;
      lift (out r) ;;;
      o <- zoom snd (fun x s => (fst s, x)) (get_file i) ;;
      lift (wr32 (f + F_off) (fl_off o)) ;;;
      ret r
  end.

Definition fileread_at (f addr n : Z) : M (kmem * xstate C) Z :=
  r <- at_file f (fun r => modify (fun k => set_mem (store_bytes (km_mem k) addr (snd r)) k)) (fun i => File.fileread pid killed dev_read i n) ;;
  ret (fst r).

Definition filewrite_at (f addr n : Z) : M (kmem * xstate C) Z :=
  k <- gets fst ;;
  at_file f (fun _ => ret tt) (fun i => File.filewrite pid killed dev_write i (fun x => km_mem k (addr + x)) n).

Definition file_layer : FileLayer (xstate C) := {| FileApi.fileread := fileread_at; FileApi.filewrite := filewrite_at |}.

End Mapfile.

(** ** The promise of [fileread] *)

Section Reads.
Context `{LKOK : LinkerOk}.
Context {C : Type} `{BCO : BlockCacheOk C}.
Variable pid : Z.
Variable killed : bool.
Variable dev_read : Z -> option (nat -> Z -> M (fstate C) (Z * list Z)).
Variable dev_write : Z -> option (nat -> (Z -> Z) -> Z -> M (fstate C) Z).
Variable ftable : Z.

(** The file behind an entry: open for reading, its inode that of a regular file or
    directory, in the cache, loaded and not locked; the file system is at rest, with
    a buffer left, and its blocks hold bytes. *)
Record file_open (x : xstate C) (i : nat) (fl : file) (nd : inode) : Prop := {
  op_file : x_files x !! i = Some fl;
  op_readable : fl_readable fl <> 0;
  op_type : fl_type fl = FD_INODE;
  op_ok : file_ok (x_fs x) (fl_ip fl) nd;
  op_regular : i_type nd <> T_DEV;
  op_ref : 1 <= i_ref nd;
  op_valid : i_valid nd <> 0;
  op_unlocked : Bio.sl_locked (i_lock nd) = 0;
  op_quiet : fquiet (x_fs x) [];
  op_room : room (x_fs x) 1;
  op_bytes : forall b o, 0 <= fview (x_fs x) b o < 256
}.

(** The bytes of the file from [off] on, at most [n]. *)
Definition inode_bytes (s : fstate C) (nd : inode) (off : Z) (n : nat) : list Z :=
  map (content (fview s) (i_addrs nd)) (seqZ off (Z.min (Z.of_nat n) (i_size nd - off))).

Definition readable (x : xstate C) (f : Z) : Prop := exists i fl nd, file_index ftable f = Some i /\ file_open x i fl nd.
Definition file_bytes (x : xstate C) (f off : Z) (n : nat) : list Z :=
  match file_index ftable f with
  | Some i =>
      match x_files x !! i with
      | Some fl => match f_icache (x_fs x) !! fl_ip fl with Some nd => inode_bytes (x_fs x) nd off n | None => [] end
      | None => []
      end
  | None => []
  end.

(** Locking and unlocking a loaded inode leaves the file as it was. *)
Definition locked_fs (s : fstate C) (ip : nat) (nd : inode) : fstate C := mkF (f_log s) (f_sb s) (<[ip := with_ilock (Bio.mkSleep 1 pid) nd]> (f_icache s)).

Lemma ilock_loaded (s : fstate C) ip nd : f_icache s !! ip = Some nd -> 1 <= i_ref nd -> i_valid nd <> 0 -> Bio.sl_locked (i_lock nd) = 0 ->
  ilock pid ip s = Ok tt (locked_fs s ip nd).
Proof.
  intros Hn Hr Hv Hl. unfold ilock. rewrite (bind_ok _ _ _ _ _ (get_inode_ok s ip nd Hn)), (proj2 (Z.ltb_ge _ _)) by lia.
  unfold iacquire. rewrite bind_assoc, (bind_ok _ _ _ _ _ (get_inode_ok s ip nd Hn)), Hl. change (truth 0) with false. cbv iota.
  rewrite (bind_ok _ _ s tt (locked_fs s ip nd) eq_refl). assert (Hl' : f_icache (locked_fs s ip nd) !! ip = Some (with_ilock (Bio.mkSleep 1 pid) nd)).
  { cbn. apply list_lookup_insert_eq. eapply lookup_lt_Some, Hn. }
  rewrite (bind_ok _ _ _ _ _ (get_inode_ok _ ip _ Hl')). cbn [with_ilock i_valid]. now rewrite (proj2 (Z.eqb_neq _ _)).
Qed.

Lemma iunlock_locked (s : fstate C) ip nd : f_icache s !! ip = Some (with_ilock (Bio.mkSleep 1 pid) nd) -> 1 <= i_ref nd ->
  iunlock pid ip s = Ok tt (mkF (f_log s) (f_sb s) (<[ip := with_ilock (Bio.mkSleep 0 0) nd]> (f_icache s))).
Proof.
  intros Hn Hr. unfold iunlock. rewrite (bind_ok _ _ _ _ _ (get_inode_ok s ip _ Hn)). unfold iholding. cbn [with_ilock i_lock i_ref Bio.sl_locked Bio.sl_pid].
  change (truth 1) with true. rewrite Z.eqb_refl, (proj2 (Z.ltb_ge _ _)) by lia. cbn [negb andb orb]. unfold irelease. rewrite (bind_ok _ _ _ _ _ (get_inode_ok s ip _ Hn)). reflexivity.
Qed.

Lemma on_fs_ok {A} (m : M (fstate C) A) x a s' : m (x_fs x) = Ok a s' -> on_fs m x = Ok a (mkX (x_files x) s' (x_pipes x) (x_mem x)).
Proof. intros E. unfold on_fs, zoom. now rewrite E. Qed.

(** [readi] of the locked inode: the bytes, or -1 behind the end. *)
Lemma readi_locked (s : fstate C) ip nd off n : file_ok s ip nd -> i_type nd <> T_DEV -> fquiet s [] -> room s 1 -> 0 < n < two31 -> 0 <= off < two32 ->
  let bs := inode_bytes s nd off (Z.to_nat n) in
  exists r s', readi dev_read ip off (u32 n) (locked_fs s ip nd) = Ok (r, bs) s' /\ (r = Z.of_nat (length bs) \/ r = -1 /\ bs = []) /\
    f_icache s' !! ip = Some (with_ilock (Bio.mkSleep 1 pid) nd).
Proof.
  intros Hf Ht Q R Hn Hoff bs. rewrite u32_small by (unfold two31, two32 in *; lia). set (s1 := locked_fs s ip nd). set (nd1 := with_ilock (Bio.mkSleep 1 pid) nd).
  pose proof (lookup_lt_Some _ _ _ (fo_lookup _ _ _ Hf)) as Hip. assert (Hl : f_icache s1 !! ip = Some nd1) by now apply list_lookup_insert_eq.
  assert (Hf1 : file_ok s1 ip nd1) by (destruct Hf; now constructor). assert (Q1 : fquiet s1 []) by (destruct Q; now constructor).
  destruct (readi_reads dev_read s1 ip nd1 off n Q1 Hf1 R Ht Hoff ltac:(unfold two31, two32 in *; lia)) as [Bad Good]. destruct (Z.lt_ge_cases (i_size nd) off) as [Hlt|Hge].
  - exists (-1), s1. assert (E : bs = []) by (unfold bs, inode_bytes; now rewrite seqZ_nil by lia). rewrite Bad by now left. rewrite E. auto.
  - assert (Hov : off + n < two32) by (pose proof (fo_size _ _ _ Hf) as Hz; change (MAXFILE * BSIZE) with 71680 in Hz; unfold two31, two32 in *; lia).
    destruct (Good Hge Hov) as (s' & Run & _ & _ & _ & Ic). exists (Z.min n (i_size nd - off)), s'. split_and!; [|left|now rewrite Ic].
    + unfold bs, inode_bytes. rewrite Z2Nat.id by lia. exact Run.
    + unfold bs, inode_bytes. rewrite length_map, length_seqZ. lia.
Qed.

Lemma fileread_reads x i fl nd n : file_open x i fl nd -> 0 < n < two31 -> 0 <= fl_off fl < two32 ->
  let bs := inode_bytes (x_fs x) nd (fl_off fl) (Z.to_nat n) in
  exists r x', File.fileread pid killed dev_read i n x = Ok (r, bs) x' /\ (r = Z.of_nat (length bs) \/ r = -1 /\ bs = []) /\
    x_mem x' = x_mem x /\ x_files x' !! i = Some (with_off (u32 (fl_off fl + Z.of_nat (length bs))) fl).
Proof.
  intros [Hx Hr Hty Hf Ht Href Hv Hl Q R _] Hn Hoff bs. unfold File.fileread. rewrite (bind_ok (get_file i) _ x fl x) by (unfold get_file; now rewrite Hx).
  rewrite (proj2 (Z.eqb_neq _ _)) by exact Hr. rewrite Hty, (bind_ok _ _ _ _ _ (on_fs_ok _ x _ _ (ilock_loaded _ _ _ (fo_lookup _ _ _ Hf) Href Hv Hl))).
  destruct (readi_locked (x_fs x) (fl_ip fl) nd (fl_off fl) n Hf Ht Q R Hn Hoff) as (r & s' & Run & Hres & Ic). fold bs in Run, Hres. set (x1 := mkX (x_files x) _ _ _).
  rewrite (bind_ok _ _ _ _ _ (on_fs_ok _ x1 _ _ Run)). set (x2 := mkX _ s' _ _). set (fl' := with_off (u32 (fl_off fl + Z.of_nat (length bs))) fl).
  assert (Up : exists x3, (if 0 <? r then upd_file i (with_off (u32 (fl_off fl + r))) else ret tt) x2 = Ok tt x3 /\ x_fs x3 = s' /\ x_mem x3 = x_mem x /\ x_files x3 !! i = Some fl').
  { destruct (Z.ltb_spec 0 r) as [Hp|Hp].
    - eexists. split; [reflexivity|]. split_and!; auto. cbn. rewrite list_lookup_alter_eq, Hx. cbn. destruct Hres as [->|[? _]]; [reflexivity | lia].
    - exists x2. split_and!; auto. assert (E : length bs = 0%nat) by (destruct Hres as [?|[_ ->]]; [lia | reflexivity]). unfold fl'. cbn. rewrite E, Z.add_0_r, u32_small by exact Hoff.
      rewrite Hx. now destruct fl. }
  destruct Up as (x3 & R3 & F3 & M3 & L3). cbn [fst]. rewrite (bind_ok _ _ _ _ _ R3). rewrite <- F3 in Ic.
  rewrite (bind_ok _ _ _ _ _ (on_fs_ok _ x3 _ _ (iunlock_locked _ _ _ Ic Href))). eexists r, _. split; [reflexivity|]. split_and!; auto.
Qed.

Lemma file_open_enter x f i fl nd k : file_open x i fl nd -> file_open (enter_file f i k x) i (with_off (load32 (km_mem k) (f + F_off)) fl) nd.
Proof.
  intros [Hx Hr Hty Hf Ht Href Hv Hl Q R B]. constructor; auto. cbn. now rewrite list_lookup_alter_eq, Hx.
Qed.

Lemma inode_bytes_length s nd off n : (length (inode_bytes s nd off n) <= n)%nat.
Proof. unfold inode_bytes. rewrite length_map, length_seqZ. lia. Qed.

Lemma inode_bytes_range s nd off n : (forall b o, 0 <= fview s b o < 256) -> Forall (fun c => 0 <= c < 256) (inode_bytes s nd off n).
Proof.
  intros B. unfold inode_bytes. apply Forall_map, Forall_forall. intros o _. unfold content. destruct (_ =? 0); [lia | apply B].
Qed.

(** [fileread] keeps the promise of the file layer. *)
Lemma file_layer_ok : @FileLayerOk (xstate C) (file_layer pid killed dev_read dev_write ftable) readable file_bytes.
Proof.
  constructor. intros f addr n k x (i & fl & nd & Hi & O) Hn Kf Hap Hm off bs. pose proof (load32_bound _ (f + F_off) Hm) as Hoff. fold off in Hoff.
  assert (Eb : bs = inode_bytes (x_fs x) nd off (Z.to_nat n)) by (unfold bs, file_bytes; now rewrite Hi, (op_file _ _ _ _ O), (fo_lookup _ _ _ (op_ok _ _ _ _ O))).
  clearbody bs. pose proof (inode_bytes_length (x_fs x) nd off (Z.to_nat n)) as Hlen. pose proof (inode_bytes_range (x_fs x) nd off (Z.to_nat n) (op_bytes _ _ _ _ O)) as Hrng.
  rewrite <- Eb in Hlen, Hrng.
  destruct (fileread_reads _ i _ nd n (file_open_enter x f i fl nd k O) Hn) as (r & x' & Run & Hres & Hmem & Hent); [exact Hoff|]. cbn [with_off fl_off enter_file x_fs x_mem] in *. fold off in Run, Hres, Hent.
  rewrite <- Eb in Run, Hres, Hent. set (m1 := store_bytes (km_mem k) addr bs). set (o' := u32 (off + Z.of_nat (length bs))) in *.
  exists r, (set_mem (store32 m1 (f + F_off) o') k), x'. cbn [km_mem set_mem].
  assert (Hin : forall y, addr <= y < addr + Z.of_nat (length bs) -> y < f + F_off \/ f + F_off + 4 <= y) by (intros y Hy; unfold F_off in *; lia).
  split_and!; auto.
  - unfold FileApi.fileread, file_layer, fileread_at, at_file. rewrite Hi. unfold bind at 1 2. cbn [modify fst snd].
    unfold bind at 1. unfold zoom at 1. cbn [snd]. rewrite Run. rewrite Hmem. unfold bind, lift, zoom, modify, get_file. cbn [fst snd]. rewrite Hent. reflexivity.
  - rewrite <- (bytes_store_bytes (km_mem k) addr bs Hrng) at 2. apply bytes_ext. intros y Hy. now rewrite store32_frame by (apply Hin; lia).
  - rewrite load32_store32_eq. unfold o'. apply u32_u32.
  - intros y Ha Hb. rewrite store32_frame by exact Hb. unfold m1. now apply store_bytes_out.
  - apply mem_ok_store32, mem_ok_store_bytes, Hm.
Qed.

(** ** Properties *)


End Reads.

(** ** A run *)

(** The file of [Inode.sample_fs], open and not locked, with no transaction open. *)
#[local] Instance mapped_cache : BlockCache Bio.bstate := bio_cache 7.
#[local] Instance mapped_spec : CacheSpec Bio.bstate := bio_spec 7.
#[local] Instance mapped_ok : BlockCacheOk Bio.bstate := bio_ok 7.

Definition mapped_inode : inode := with_ilock (Bio.mkSleep 0 0) sample_inode.
Definition mapped_fs : fstate Bio.bstate := mkF (mkL sample_log (Bio.binit sample_fs_disk 100)) sample_fs_sb [mapped_inode].
Definition mapped_file : file := mkFile FD_INODE 1 1 0 0 0 0.
Definition mapped_x : xstate Bio.bstate := mkX [mapped_file] mapped_fs ∅ (sample_fault Filed).

Lemma sample_disk_bytes b o : 0 <= sample_fs_disk b o < 256.
Proof.
  unfold sample_fs_disk, sample_disk, sample_bitmap, sample_sb, upd. repeat first [apply mem_ok_store32 | case_bool; try lia]; try (intros ?; lia).
Qed.

Lemma mapped_open : file_open mapped_x 0 mapped_file mapped_inode.
Proof.
  constructor; try reflexivity; try (cbn; lia); try discriminate.
  - destruct sample_file_ok. now constructor.
  - constructor; [exact (boot_txn 2 30 100 sample_fs_disk (fun _ => 0) sample_fs_disk_ok eq_refl) | exact sample_layout].
  - apply (sample_fs_room 1). lia.
  - intros b o. change (0 <= fview sample_fs b o < 256). rewrite sample_view. apply sample_disk_bytes.
Qed.

