(* ===== verification/Syscall.v ===== *)
(** System call arguments and dispatch: [src/xv6/xv6-public/syscall.c].

    A system call reads its arguments from the user memory of the process, at the
    addresses above the saved [%esp], after checking them against [sz]. *)

From S2P Require Import Prelude Mem Mmu Spinlock Kalloc.

(** What the calls see of the current process: its memory at its own addresses,
    [sz] and [tf->esp]. *)
Record uview := mkU { u_mem : mem; u_sz : Z; u_esp : Z }.

(** [*ip], or [None] for the result -1. *)
Definition fetchint (v : uview) (addr : Z) : option Z :=
  if (u_sz v <=? addr) || (u_sz v <? u32 (addr + 4)) then None
  else Some (s32 (load32 (u_mem v) addr)).

(** The loop over the characters, from [s] up to [ep]. *)
Fixpoint fetchstr_loop (k : nat) (m : mem) (s : Z) : option (list Z) :=
  match k with
  | O => None
  | S k => if m s =? 0 then Some [] else match fetchstr_loop k m (s + 1) with Some l => Some (m s :: l) | None => None end
  end.

(** The string at [*pp]; its length is the result. *)
Definition fetchstr (v : uview) (addr : Z) : option (list Z) :=
  if u_sz v <=? addr then None else fetchstr_loop (Z.to_nat (u_sz v - addr)) (u_mem v) addr.

Definition argint (v : uview) (n : Z) : option Z := fetchint v (u32 (u_esp v + 4 + 4 * n)).

Definition argptr (v : uview) (n size : Z) : option Z :=
  match argint v n with
  | None => None
  | Some i =>
      if (size <? 0) || (u_sz v <=? u32 i) || (u_sz v <? u32 (u32 i + size)) then None else Some (u32 i)
  end.

Definition argstr (v : uview) (n : Z) : option (list Z) :=
  match argint v n with None => None | Some addr => fetchstr v (u32 addr) end.

(** ** Dispatch *)

(** The entries of [syscalls]. *)
Inductive sysno :=
| SYS_fork | SYS_exit | SYS_wait | SYS_pipe | SYS_read | SYS_kill | SYS_exec | SYS_fstat | SYS_chdir | SYS_dup
| SYS_getpid | SYS_sbrk | SYS_sleep | SYS_uptime | SYS_open | SYS_write | SYS_mknod | SYS_unlink | SYS_link
| SYS_mkdir | SYS_close | SYS_wmap | SYS_wunmap | SYS_wremap | SYS_getpgdirinfo | SYS_getwmapinfo.

(** [syscalls[num]], indices as in [syscall.h]. *)
Definition syscalls : list sysno :=
  [SYS_fork; SYS_exit; SYS_wait; SYS_pipe; SYS_read; SYS_kill; SYS_exec; SYS_fstat; SYS_chdir; SYS_dup;
   SYS_getpid; SYS_sbrk; SYS_sleep; SYS_uptime; SYS_open; SYS_write; SYS_mknod; SYS_unlink; SYS_link;
   SYS_mkdir; SYS_close; SYS_wmap; SYS_wunmap; SYS_wremap; SYS_getpgdirinfo; SYS_getwmapinfo].

Definition syscall_entry (num : Z) : option sysno :=
  if (0 <? num) && (num <? Z.of_nat (S (length syscalls))) then syscalls !! Z.to_nat (num - 1) else None.

(** [syscall] on a state [S] with the functions of the table: the new [tf->eax]. *)
Definition syscall {S} (handler : sysno -> M S Z) (eax : Z) : M S Z :=
  match syscall_entry (s32 eax) with
  | Some n => r <- handler n ;; ret (u32 r)
  | None => ret (u32 (-1))
  end.

(** ** What the checks guarantee *)

Lemma fetchint_spec v addr : 0 <= addr -> 0 <= u_sz v <= KERNBASE ->
  fetchint v addr = if addr + 4 <=? u_sz v then Some (s32 (load32 (u_mem v) addr)) else None.
Proof.
  intros Ha Hs. unfold fetchint, KERNBASE in *. destruct (u_sz v <=? addr) eqn:E; bool_prop; cbn [orb].
  - rewrite (proj2 (Z.leb_gt _ _)) by lia. reflexivity.
  - rewrite u32_small by (unfold two32; lia). destruct (u_sz v <? addr + 4) eqn:E2, (addr + 4 <=? u_sz v) eqn:E3; bool_prop; try reflexivity; lia.
Qed.

Lemma fetchstr_loop_spec k m : forall s l, fetchstr_loop k m s = Some l ->
  (length l < k)%nat /\ m (s + Z.of_nat (length l)) = 0 /\ bytes m s (length l) = l /\ (forall c, c ∈ l -> c <> 0).
Proof.
  induction k as [|k IH]; intros s l; cbn [fetchstr_loop]; [discriminate|]. destruct (m s =? 0) eqn:E; bool_prop.
  - intros X. injection X as <-. cbn. rewrite Z.add_0_r. split; [lia|]. split; [exact E|]. split; [reflexivity|]. intros c Hc. now apply elem_of_nil in Hc.
  - destruct (fetchstr_loop k m (s + 1)) as [r|] eqn:R; [|discriminate]. intros X. injection X as <-.
    destruct (IH _ _ R) as (L & N & B & Nz). cbn [length bytes]. split; [lia|]. split; [now replace (s + Z.of_nat (S (length r))) with (s + 1 + Z.of_nat (length r)) by lia|].
    split; [now rewrite B|]. intros c Hc. apply elem_of_cons in Hc as [->|Hc]; [exact E|now apply Nz].
Qed.

Lemma fetchstr_loop_none k m : forall s, fetchstr_loop k m s = None -> forall i, 0 <= i < Z.of_nat k -> m (s + i) <> 0.
Proof.
  induction k as [|k IH]; intros s; cbn [fetchstr_loop]; [intros; lia|]. destruct (m s =? 0) eqn:E; bool_prop; [discriminate|].
  destruct (fetchstr_loop k m (s + 1)) eqn:R; [discriminate|]. intros _ i Hi. destruct (Z.eq_dec i 0) as [->|N]; [now rewrite Z.add_0_r|].
  replace (s + i) with (s + 1 + (i - 1)) by lia. apply (IH _ R). lia.
Qed.

(** Strings without NUL are determined by where the NUL follows. *)
Lemma bytes_prefix m s l : forall l', bytes m s (length l) = l -> bytes m s (length l') = l' ->
  m (s + Z.of_nat (length l)) = 0 -> m (s + Z.of_nat (length l')) = 0 -> (forall c, c ∈ l -> c <> 0) -> (forall c, c ∈ l' -> c <> 0) -> l = l'.
Proof.
  revert s; induction l as [|c l IH]; intros s [|c' l'] B B' N N' Z0 Z0'; cbn [length bytes] in *; [reflexivity| | |].
  - injection B' as Ec _. rewrite Z.add_0_r in N. elim (Z0' c'); [now left|congruence].
  - injection B as Ec _. rewrite Z.add_0_r in N'. elim (Z0 c); [now left|congruence].
  - injection B as Ec B. injection B' as Ec' B'. f_equal; [congruence|]. apply (IH (s + 1)); auto.
    + now replace (s + 1 + Z.of_nat (length l)) with (s + Z.of_nat (S (length l))) by lia.
    + now replace (s + 1 + Z.of_nat (length l')) with (s + Z.of_nat (S (length l'))) by lia.
    + intros x Hx. apply Z0. now right.
    + intros x Hx. apply Z0'. now right.
Qed.

Lemma fetchstr_spec v addr l : 0 <= addr -> fetchstr v addr = Some l <-> addr + Z.of_nat (length l) < u_sz v /\
  bytes (u_mem v) addr (length l) = l /\ u_mem v (addr + Z.of_nat (length l)) = 0 /\ forall c, c ∈ l -> c <> 0.
Proof.
  intros Ha. unfold fetchstr. destruct (u_sz v <=? addr) eqn:E; bool_prop; [split; [discriminate|lia]|]. split.
  - intros R. apply fetchstr_loop_spec in R as (L & N & B & Nz). split; [lia|auto].
  - intros (L & B & N & Nz). destruct (fetchstr_loop _ _ addr) as [l'|] eqn:R.
    + f_equal. apply fetchstr_loop_spec in R as (L' & N' & B' & Nz'). now apply (bytes_prefix (u_mem v) addr).
    + exfalso. apply (fetchstr_loop_none _ _ _ R (Z.of_nat (length l))); [lia|exact N].
Qed.

(** C26: System calls check their arguments.  With [sz] at most [KERNBASE], an
    argument word is fetched exactly when it lies in the process's memory; a block
    that [argptr] accepts lies in it entirely, whatever the size and in spite of
    the wrap-around of 32-bit addition, and every block of non-negative size that
    starts and ends inside is accepted; [argstr] returns exactly the characters up
    to the first NUL before [sz], and fails exactly when there is none; and a call
    number outside the table changes nothing but [%eax]. *)
Theorem arguments_checked (v : uview) (n size : Z) : 0 <= u_sz v <= KERNBASE -> size < two31 ->
  let a := u32 (u_esp v + 4 + 4 * n) in
  let w := load32 (u_mem v) a in
  mem_ok (u_mem v) ->
  (argint v n = if a + 4 <=? u_sz v then Some (s32 w) else None) /\
  (forall p, argptr v n size = Some p <-> a + 4 <= u_sz v /\ p = w /\ 0 <= size /\ p < u_sz v /\ p + size <= u_sz v) /\
  (forall l, argstr v n = Some l <-> a + 4 <= u_sz v /\ w + Z.of_nat (length l) < u_sz v /\ bytes (u_mem v) w (length l) = l /\
     u_mem v (w + Z.of_nat (length l)) = 0 /\ forall c, c ∈ l -> c <> 0) /\
  (forall S (h : sysno -> M S Z) eax (s : S), s32 eax <= 0 \/ 26 < s32 eax -> syscall h eax s = Ok (u32 (-1)) s).
Proof.
  intros Hs Hz a w Mo. assert (Ha : 0 <= a) by apply u32_bound. assert (Ai : argint v n = if a + 4 <=? u_sz v then Some (s32 w) else None) by now apply fetchint_spec.
  assert (Wb : 0 <= w < two32) by (apply load32_bound; exact Mo).
  assert (Uw : u32 (s32 w) = w) by (rewrite u32_s32; apply u32_small; exact Wb).
  split; [exact Ai|]. split; [|split].
  - intros p. unfold argptr. rewrite Ai. destruct (a + 4 <=? u_sz v) eqn:E; bool_prop; [|split; [discriminate|intros (? & _); lia]].
    rewrite Uw. destruct (size <? 0) eqn:E1; bool_prop; cbn [orb]; [split; [discriminate|lia]|].
    destruct (u_sz v <=? w) eqn:E2; bool_prop; cbn [orb]; [split; [discriminate|lia]|].
    unfold KERNBASE, two31, two32 in *. rewrite u32_small by (unfold two32; lia).
    destruct (u_sz v <? w + size) eqn:E3; bool_prop; (split; [intros X; try discriminate; injection X as <-; lia|intros; try f_equal; lia]).
  - intros l. unfold argstr. rewrite Ai. destruct (a + 4 <=? u_sz v) eqn:E; bool_prop; [|split; [discriminate|intros (? & _); lia]].
    rewrite Uw, fetchstr_spec by lia. tauto.
  - intros S h eax s Hr. unfold syscall, syscall_entry. change (Z.of_nat _) with 27.
    destruct (0 <? s32 eax) eqn:E1, (s32 eax <? 27) eqn:E2; bool_prop; try reflexivity. lia.
Qed.

(** A process of two pages whose first argument points at the string [hi]. *)
Definition sample_user_mem : mem := store8 (store8 (store32 (fun _ => 0) 0x1f04 0x100) 0x100 104) 0x101 105.

Lemma arguments_checked_witness : argstr (mkU sample_user_mem 0x2000 0x1f00) 0 = Some [104; 105] /\
  argptr (mkU sample_user_mem 0x2000 0x1f00) 0 0x1f00 = Some 0x100 /\ argptr (mkU sample_user_mem 0x2000 0x1f00) 0 0x1f01 = None.
Proof.
  assert (Mo : mem_ok sample_user_mem) by (unfold sample_user_mem; intros x; unfold store8, store32; repeat case_bool; apply u8_bound || lia).
  destruct (arguments_checked (mkU sample_user_mem 0x2000 0x1f00) 0 0x1f00 ltac:(cbn; unfold KERNBASE; lia) ltac:(unfold two31; lia) Mo) as (_ & P & S0 & _).
  split; [|split; [|vm_compute; reflexivity]].
  - apply S0. vm_compute. repeat split; try discriminate. intros c Hc. repeat (apply elem_of_cons in Hc as [->|Hc]; [discriminate|]). now apply elem_of_nil in Hc.
  - apply P. vm_compute. repeat split; discriminate.
Defined.
