(* ===== verification/Sysfile.v ===== *)
(** The file system calls: [src/xv6/xv6-public/sysfile.c].

    The calls run on the open files of [File] and on what they use of the calling
    process: its descriptors [ofile], its directory [cwd] and its memory.  The
    last part counts references: the [ref] field of an open file is the number of
    descriptors, over all processes, that refer to it. *)

From stdpp Require Import gmap.
From S2P Require Import Prelude Mem Mmu Spinlock Kalloc Pipe Block Bio Log Txn Fs File Syscall.

Definition MAXARG : nat := 32.

Record ust (C : Type) := mkUs {
  s_x : xstate C;
  s_ofile : list (option nat);
  s_cwd : nat;
  s_view : uview }.
Arguments mkUs {C}.
Arguments s_x {C}.
Arguments s_ofile {C}.
Arguments s_cwd {C}.
Arguments s_view {C}.

(** [.] and [..] *)
Definition dot : Z -> Z := buffer [46].
Definition dotdot : Z -> Z := buffer [46; 46].

Section Sysfile.
Context `{Linker}.
Context {C : Type} `{BlockCache C}.
Variable pid : Z.
Variable killed : bool.
Variable dev_read : Z -> option (nat -> Z -> M (fstate C) (Z * list Z)).
Variable dev_write : Z -> option (nat -> (Z -> Z) -> Z -> M (fstate C) Z).

Abbreviation U := (M (ust C)).

Definition on_x {A} (m : M (xstate C) A) : U A := zoom s_x (fun x s => mkUs x (s_ofile s) (s_cwd s) (s_view s)) m.
Definition fs {A} (m : M (fstate C) A) : U A := on_x (on_fs m).
Definition view : U uview := gets s_view.
Definition put_umem (m : mem) : U unit :=
  modify (fun s => mkUs (s_x s) (s_ofile s) (s_cwd s) (mkU m (u_sz (s_view s)) (u_esp (s_view s)))).
Definition put_fd (fd : nat) (f : option nat) : U unit :=
  modify (fun s => mkUs (s_x s) (<[fd := f]> (s_ofile s)) (s_cwd s) (s_view s)).
Definition put_cwd (ip : nat) : U unit := modify (fun s => mkUs (s_x s) (s_ofile s) ip (s_view s)).

(** The descriptor and its file. *)
Definition argfd (n : Z) : U (option (nat * nat)) :=
  v <- view ;;
  l <- gets s_ofile ;;
  ret (match argint v n with
       | None => None
       | Some fd =>
           if (fd <? 0) || (16 <=? fd) then None
           else match l !! Z.to_nat fd with Some (Some f) => Some (Z.to_nat fd, f) | _ => None end
       end).

(** The first descriptor without a file. *)
Fixpoint free_fd {A} (l : list (option A)) (fd : nat) : option nat :=
  match l with
  | [] => None
  | None :: _ => Some fd
  | Some _ :: l => free_fd l (S fd)
  end.

Definition fdalloc (f : nat) : U (option nat) :=
  l <- gets s_ofile ;;
  match free_fd l 0 with
  | Some fd => put_fd fd (Some f) ;;; ret (Some fd)
  | None => ret None
  end.

Definition sys_dup : U Z :=
  a <- argfd 0 ;;
  match a with
  | None => ret (-1)
  | Some (_, f) =>
      fd <- fdalloc f ;;
      match fd with
      | None => ret (-1)
      | Some fd => on_x (filedup f) ;;; ret (Z.of_nat fd)
      end
  end.

(** [argint(2, &n)] and [argptr(1, &p, n)]. *)
Definition arg_buffer (v : uview) : option (Z * Z) :=
  match argint v 2 with
  | None => None
  | Some n => match argptr v 1 n with None => None | Some p => Some (p, n) end
  end.

Definition sys_read : U Z :=
  a <- argfd 0 ;;
  v <- view ;;
  match a, arg_buffer v with
  | Some (_, f), Some (p, n) =>
      r <- on_x (fileread pid killed dev_read f n) ;;
      put_umem (store_bytes (u_mem v) p (snd r)) ;;;
      ret (fst r)
  | _, _ => ret (-1)
  end.

Definition sys_write : U Z :=
  a <- argfd 0 ;;
  v <- view ;;
  match a, arg_buffer v with
  | Some (_, f), Some (p, n) => on_x (filewrite pid killed dev_write f (fun i => u_mem v (p + i)) n)
  | _, _ => ret (-1)
  end.

Definition sys_close : U Z :=
  a <- argfd 0 ;;
  match a with
  | None => ret (-1)
  | Some (fd, f) => put_fd fd None ;;; on_x (fileclose pid f) ;;; ret 0
  end.

(** [struct stat] in memory. *)
Definition stat_size : Z := 20.
Definition store_stat (m : mem) (p : Z) (st : stat) : mem :=
  store32 (store16 (store32 (store32 (store16 m p (st_type st)) (p + 4) (st_dev st)) (p + 8) (st_ino st)) (p + 12) (st_nlink st)) (p + 16) (st_size st).

Definition sys_fstat : U Z :=
  a <- argfd 0 ;;
  v <- view ;;
  match a, argptr v 1 stat_size with
  | Some (_, f), Some p =>
      r <- on_x (filestat pid f) ;;
      match r with
      | Some st => put_umem (store_stat (u_mem v) p st) ;;; ret 0
      | None => ret (-1)
      end
  | _, _ => ret (-1)
  end.

(** The label [bad] of [sys_link]. *)
Definition link_bad (ip : nat) : U Z :=
  fs (ilock pid ip) ;;;
  n <- fs (get_inode ip) ;;
  fs (put_inode ip (with_nlink (s16 (i_nlink n - 1)) n)) ;;;
  fs (iupdate ip) ;;;
  fs (iunlockput pid ip) ;;;
  on_x fs_end ;;;
  ret (-1).

Definition sys_link : U Z :=
  v <- view ;;
  match argstr v 0, argstr v 1 with
  | Some old, Some new =>
      on_x fs_begin ;;;
      cwd <- gets s_cwd ;;
      r <- fs (namei pid dev_read cwd old) ;;
      match r with
      | None => on_x fs_end ;;; ret (-1)
      | Some ip =>
          fs (ilock pid ip) ;;;
          n <- fs (get_inode ip) ;;
          if i_type n =? T_DIR then fs (iunlockput pid ip) ;;; on_x fs_end ;;; ret (-1) else
          fs (put_inode ip (with_nlink (s16 (i_nlink n + 1)) n)) ;;;
          fs (iupdate ip) ;;;
          fs (iunlock pid ip) ;;;
          d <- fs (nameiparent pid dev_read cwd new) ;;
          match fst d with
          | None => link_bad ip
          | Some dp =>
              fs (ilock pid dp) ;;;
              dn <- fs (get_inode dp) ;;
              n <- fs (get_inode ip) ;;
              ok <- (if negb (i_dev dn =? i_dev n) then ret false
                     else r <- fs (dirlink pid dev_read dev_write dp (buffer (snd d)) (i_inum n)) ;; ret (negb (r <? 0))) ;;
              fs (iunlockput pid dp) ;;;
              if (ok : bool) then fs (iput pid ip) ;;; on_x fs_end ;;; ret 0 else link_bad ip
          end
      end
  | _, _ => ret (-1)
  end.

Fixpoint isdirempty_loop (fuel : nat) (dp : nat) (off : Z) : M (fstate C) bool :=
  match fuel with
  | O => nofuel
  | S fuel =>
      n <- get_inode dp ;;
      if off <? i_size n then
        r <- readi dev_read dp off 16 ;;
        if negb (fst r =? 16) then panic "isdirempty: readi" else
        if truth (de_inum (parse_dirent (buffer (snd r)))) then ret false else isdirempty_loop fuel dp (off + 16)
      else ret true
  end.

Definition isdirempty (dp : nat) : M (fstate C) bool :=
  n <- get_inode dp ;; isdirempty_loop (S (Z.to_nat (i_size n))) dp 32.

(** The label [bad] of [sys_unlink]. *)
Definition unlink_bad (dp : nat) : U Z :=
  fs (iunlockput pid dp) ;;; on_x fs_end ;;; ret (-1).

Definition sys_unlink : U Z :=
  v <- view ;;
  match argstr v 0 with
  | None => ret (-1)
  | Some path =>
      on_x fs_begin ;;;
      cwd <- gets s_cwd ;;
      d <- fs (nameiparent pid dev_read cwd path) ;;
      match fst d with
      | None => on_x fs_end ;;; ret (-1)
      | Some dp =>
          fs (ilock pid dp) ;;;
          let name := buffer (snd d) in
          if (namecmp name dot =? 0) || (namecmp name dotdot =? 0) then unlink_bad dp else
          r <- fs (dirlookup dev_read dp name) ;;
          match r with
          | None => unlink_bad dp
          | Some (ip, off) =>
              fs (ilock pid ip) ;;;
              n <- fs (get_inode ip) ;;
              if i_nlink n <? 1 then panic "unlink: nlink < 1" else
              empty <- (if i_type n =? T_DIR then fs (isdirempty ip) else ret true) ;;
              if negb empty then fs (iunlockput pid ip) ;;; unlink_bad dp else
              w <- fs (writei dev_write dp (fun _ => 0) off 16) ;;
              if negb (w =? 16) then panic "unlink: writei" else
              (if i_type n =? T_DIR then
                 dn <- fs (get_inode dp) ;;
                 fs (put_inode dp (with_nlink (s16 (i_nlink dn - 1)) dn)) ;;;
                 fs (iupdate dp)
               else ret tt) ;;;
              fs (iunlockput pid dp) ;;;
              n <- fs (get_inode ip) ;;
              fs (put_inode ip (with_nlink (s16 (i_nlink n - 1)) n)) ;;;
              fs (iupdate ip) ;;;
              fs (iunlockput pid ip) ;;;
              on_x fs_end ;;;
              ret 0
          end
      end
  end.

(** [create]: the inode, locked, or [None]. *)
Definition create (cwd : nat) (path : list Z) (type major minor : Z) : M (fstate C) (option nat) :=
  d <- nameiparent pid dev_read cwd path ;;
  match fst d with
  | None => ret None
  | Some dp =>
      let name := buffer (snd d) in
      ilock pid dp ;;;
      r <- dirlookup dev_read dp name ;;
      match r with
      | Some (ip, _) =>
          iunlockput pid dp ;;;
          ilock pid ip ;;;
          n <- get_inode ip ;;
          if (type =? T_FILE) && (i_type n =? T_FILE) then ret (Some ip)
          else iunlockput pid ip ;;; ret None
      | None =>
          ip <- ialloc type ;;
          ilock pid ip ;;;
          n <- get_inode ip ;;
          put_inode ip (with_nlink 1 (with_devnos major minor n)) ;;;
          iupdate ip ;;;
          (if type =? T_DIR then
             dn <- get_inode dp ;;
             put_inode dp (with_nlink (s16 (i_nlink dn + 1)) dn) ;;;
             iupdate dp ;;;
             n <- get_inode ip ;;
             r1 <- dirlink pid dev_read dev_write ip dot (i_inum n) ;;
             if r1 <? 0 then panic "create dots" else
             dn <- get_inode dp ;;
             r2 <- dirlink pid dev_read dev_write ip dotdot (i_inum dn) ;;
             if r2 <? 0 then panic "create dots" else ret tt
           else ret tt) ;;;
          n <- get_inode ip ;;
          r <- dirlink pid dev_read dev_write dp name (i_inum n) ;;
          if r <? 0 then panic "create: dirlink" else
          iunlockput pid dp ;;;
          ret (Some ip)
      end
  end.

(** The part of [sys_open] that finds the inode, and leaves it locked. *)
Definition open_inode (path : list Z) (omode : Z) : U (option nat) :=
  cwd <- gets s_cwd ;;
  if truth (Z.land omode O_CREATE) then fs (create cwd path T_FILE 0 0)
  else
    r <- fs (namei pid dev_read cwd path) ;;
    match r with
    | None => ret None
    | Some ip =>
        fs (ilock pid ip) ;;;
        n <- fs (get_inode ip) ;;
        if (i_type n =? T_DIR) && negb (omode =? O_RDONLY) then fs (iunlockput pid ip) ;;; ret None
        else ret (Some ip)
    end.

(** [filealloc] and [fdalloc], undone when the second fails. *)
Definition open_file : U (option (nat * nat)) :=
  f <- on_x filealloc ;;
  match f with
  | None => ret None
  | Some f =>
      fd <- fdalloc f ;;
      match fd with
      | None => on_x (fileclose pid f) ;;; ret None
      | Some fd => ret (Some (f, fd))
      end
  end.

Definition sys_open : U Z :=
  v <- view ;;
  match argstr v 0, argint v 1 with
  | Some path, Some omode =>
      on_x fs_begin ;;;
      r <- open_inode path omode ;;
      match r with
      | None => on_x fs_end ;;; ret (-1)
      | Some ip =>
          r <- open_file ;;
          match r with
          | None => fs (iunlockput pid ip) ;;; on_x fs_end ;;; ret (-1)
          | Some (f, fd) =>
              fs (iunlock pid ip) ;;;
              on_x fs_end ;;;
              on_x (upd_file f (as_inode (if truth (Z.land omode O_WRONLY) then 0 else 1)
                                         (if truth (Z.land omode O_WRONLY) || truth (Z.land omode O_RDWR) then 1 else 0) ip)) ;;;
              ret (Z.of_nat fd)
          end
      end
  | _, _ => ret (-1)
  end.

Definition sys_mkdir : U Z :=
  on_x fs_begin ;;;
  v <- view ;;
  cwd <- gets s_cwd ;;
  r <- (match argstr v 0 with None => ret None | Some path => fs (create cwd path T_DIR 0 0) end) ;;
  match r with
  | None => on_x fs_end ;;; ret (-1)
  | Some ip => fs (iunlockput pid ip) ;;; on_x fs_end ;;; ret 0
  end.

Definition sys_mknod : U Z :=
  on_x fs_begin ;;;
  v <- view ;;
  cwd <- gets s_cwd ;;
  r <- (match argstr v 0, argint v 1, argint v 2 with
        | Some path, Some major, Some minor => fs (create cwd path T_DEV (s16 major) (s16 minor))
        | _, _, _ => ret None
        end) ;;
  match r with
  | None => on_x fs_end ;;; ret (-1)
  | Some ip => fs (iunlockput pid ip) ;;; on_x fs_end ;;; ret 0
  end.

Definition sys_chdir : U Z :=
  on_x fs_begin ;;;
  v <- view ;;
  cwd <- gets s_cwd ;;
  r <- (match argstr v 0 with None => ret None | Some path => fs (namei pid dev_read cwd path) end) ;;
  match r with
  | None => on_x fs_end ;;; ret (-1)
  | Some ip =>
      fs (ilock pid ip) ;;;
      n <- fs (get_inode ip) ;;
      if negb (i_type n =? T_DIR) then fs (iunlockput pid ip) ;;; on_x fs_end ;;; ret (-1) else
      fs (iunlock pid ip) ;;;
      fs (iput pid cwd) ;;;
      on_x fs_end ;;;
      put_cwd ip ;;;
      ret 0
  end.

(** The loop of [sys_exec] that collects the arguments, from [i] on; [None] for
    the result -1. *)
Fixpoint exec_args (k : nat) (v : uview) (uargv i : Z) : option (list (list Z)) :=
  match k with
  | O => None
  | S k =>
      match fetchint v (u32 (uargv + 4 * i)) with
      | None => None
      | Some uarg =>
          if uarg =? 0 then Some []
          else match fetchstr v (u32 uarg) with
               | None => None
               | Some s => match exec_args k v uargv (i + 1) with Some l => Some (s :: l) | None => None end
               end
      end
  end.

(** [sys_exec] before it calls [exec(path, argv)]. *)
Definition sys_exec_args (v : uview) : option (list Z * list (list Z)) :=
  match argstr v 0, argint v 1 with
  | Some path, Some uargv => match exec_args MAXARG v (u32 uargv) 0 with Some argv => Some (path, argv) | None => None end
  | _, _ => None
  end.

Definition sys_pipe : U Z :=
  v <- view ;;
  match argptr v 0 8 with
  | None => ret (-1)
  | Some p =>
      r <- on_x (pipealloc pid) ;;
      match r with
      | None => ret (-1)
      | Some (rf, wf) =>
          fd0 <- fdalloc rf ;;
          match fd0 with
          | None => on_x (fileclose pid rf) ;;; on_x (fileclose pid wf) ;;; ret (-1)
          | Some fd0 =>
              fd1 <- fdalloc wf ;;
              match fd1 with
              | None => put_fd fd0 None ;;; on_x (fileclose pid rf) ;;; on_x (fileclose pid wf) ;;; ret (-1)
              | Some fd1 => put_umem (store32 (store32 (u_mem v) p (Z.of_nat fd0)) (p + 4) (Z.of_nat fd1)) ;;; ret 0
              end
          end
      end
  end.

End Sysfile.
