(* ===== verification/Refs.v ===== *)
(** References to open files: [src/xv6/xv6-public/file.c] and [sysfile.c].

    The [ref] field of an entry of [ftable] is the number of descriptors that
    refer to it, over all processes.  The file system calls of [Sysfile] keep
    this, on every path, and so do the loops of [fork] and [exit] over the
    descriptors. *)

From stdpp Require Import gmap.
From S2P Require Import Prelude Mem Mmu Spinlock Kalloc Pipe Block Bio Log Txn Fs File Syscall Sysfile.

(** The references to [i] among descriptors. *)
Fixpoint count (i : nat) (l : list (option nat)) : Z :=
  match l with
  | [] => 0
  | o :: l => (if decide (o = Some i) then 1 else 0) + count i l
  end.

(** The [ref] field of entry [i]; there are no others. *)
Definition refs (l : list file) (i : nat) : Z := match l !! i with Some f => fl_ref f | None => 0 end.

(** Counts are not negative, and entries without references are closed. *)
Definition tidy (l : list file) : Prop := forall i f, l !! i = Some f -> 0 <= fl_ref f /\ (fl_ref f = 0 -> fl_type f = FD_NONE).

Definition counted (l : list file) (fds : list (option nat)) : Prop := tidy l /\ forall i, refs l i = count i fds.

(** 1 for the entry [i] itself. *)
Definition one (i j : nat) : Z := if decide (i = j) then 1 else 0.

Lemma count_app i l l' : count i (l ++ l') = count i l + count i l'.
Proof. induction l as [|o l IH]; cbn; [lia|]. rewrite IH. lia. Qed.

Lemma count_nonneg i l : 0 <= count i l.
Proof. induction l as [|o l IH]; cbn; [lia|]. destruct (decide _); lia. Qed.

Lemma count_insert j fd o o' l : l !! fd = Some o ->
  count j (<[fd := o']> l) = count j l - (match o with Some i => one i j | None => 0 end) + (match o' with Some i => one i j | None => 0 end).
Proof.
  revert fd; induction l as [|x l IH]; intros [|fd] E; try discriminate.
  - injection E as ->. change (<[0%nat := o']> (o :: l)) with (o' :: l). cbn [count]. unfold one. destruct o as [i|], o' as [i'|]; repeat destruct (decide _); simplify_eq; lia.
  - change (<[S fd := o']> (x :: l)) with (x :: <[fd := o']> l). cbn [count]. rewrite (IH fd E). lia.
Qed.

Lemma free_fd_some {A} (l : list (option A)) k fd : free_fd l k = Some fd -> (k <= fd)%nat /\ l !! (fd - k)%nat = Some None /\
  forall j, (k <= j < fd)%nat -> exists f, l !! (j - k)%nat = Some (Some f).
Proof.
  revert k; induction l as [|[f|] l IH]; intros k; cbn [free_fd]; [discriminate| |].
  - intros E. destruct (IH _ E) as (B & L & N). split; [lia|]. replace (fd - k)%nat with (S (fd - S k)) by lia. split; [exact L|].
    intros j Hj. destruct (Nat.eq_dec j k) as [->|n]; [rewrite Nat.sub_diag; exists f; reflexivity|].
    replace (j - k)%nat with (S (j - S k)) by lia. apply N. lia.
  - intros E. injection E as <-. rewrite Nat.sub_diag. split; [lia|]. split; [reflexivity|intros; lia].
Qed.

Lemma free_file_some l k i : free_file l k = Some i -> (k <= i)%nat /\ exists f, l !! (i - k)%nat = Some f /\ fl_ref f = 0.
Proof.
  revert k; induction l as [|f l IH]; intros k; cbn [free_file]; [discriminate|]. destruct (fl_ref f =? 0) eqn:E; bool_prop; intros X.
  - injection X as <-. split; [lia|]. rewrite Nat.sub_diag. exists f. auto.
  - destruct (IH _ X) as (B & g & L & R). split; [lia|]. exists g. now replace (i - k)%nat with (S (i - S k)) by lia.
Qed.

Lemma refs_alter l i f g j : l !! i = Some f -> refs (alter g i l) j = if decide (i = j) then fl_ref (g f) else refs l j.
Proof.
  intros L. unfold refs. rewrite list_lookup_alter. destruct (decide (i = j)) as [<-|]; [now rewrite L|reflexivity].
Qed.

Lemma tidy_alter l i g : tidy l ->
  (forall f, l !! i = Some f -> 0 <= fl_ref (g f) /\ (fl_ref (g f) = 0 -> fl_type (g f) = FD_NONE)) -> tidy (alter g i l).
Proof.
  intros T G j f. rewrite list_lookup_alter. destruct (decide (i = j)) as [<-|]; [|apply T].
  destruct (l !! i) as [f0|] eqn:E; [|discriminate]. cbn. intros X. injection X as <-. now apply G.
Qed.

Lemma alter_out {A} (g : A -> A) (i : nat) (l : list A) : l !! i = None -> alter g i l = l.
Proof.
  intros L. apply list_eq. intros j. rewrite list_lookup_alter. destruct (decide (i = j)) as [<-|]; [now rewrite L|reflexivity].
Qed.

Lemma refs_nonneg l i : tidy l -> 0 <= refs l i.
Proof. intros T. unfold refs. destruct (l !! i) as [f|] eqn:E; [apply (T i f E)|lia]. Qed.

Section Refs.
Context `{Linker}.
Context {C : Type} `{BlockCache C}.
Variable pid : Z.
Variable killed : bool.
Variable dev_read : Z -> option (nat -> Z -> M (fstate C) (Z * list Z)).
Variable dev_write : Z -> option (nat -> (Z -> Z) -> Z -> M (fstate C) Z).

(** ** Actions on the open files *)

(** How an action on the open files changes the references: tidy tables stay so
    and entry [j] gets [d a j] more. *)
Abbreviation shifts := (ledger (fun s : xstate C => tidy (x_files s)) (fun s j => refs (x_files s) j)).

Abbreviation still := (fun _ _ => 0).

Lemma same_files {A} (m : M (xstate C) A) : (forall s a s', m s = Ok a s' -> x_files s' = x_files s) -> shifts m still.
Proof. intros Hm s a s' E T. rewrite (Hm _ _ _ E). split; [exact T|intros; lia]. Qed.

Lemma shifts_fs {A} (m : M (fstate C) A) : shifts (on_fs m) still.
Proof. apply same_files. intros s b s' E. unfold on_fs, zoom in E. destruct (m _); try discriminate. now injection E as <- <-. Qed.
Lemma shifts_pages {A} (m : M kmem A) : shifts (on_pages m) still.
Proof. apply same_files. intros s b s' E. unfold on_pages, zoom in E. destruct (m _); try discriminate. now injection E as <- <-. Qed.
Lemma shifts_pipes g : shifts (put_pipes g) still.
Proof. apply same_files. intros s b s' E. now injection E as <- <-. Qed.
Lemma shifts_get_pipe p : shifts (get_pipe p) still.
Proof. apply same_files. intros s b s' E. unfold get_pipe in E. destruct (_ !! _); [now injection E as <- <-|discriminate]. Qed.
Lemma shifts_get_file i : shifts (get_file i) still.
Proof. apply same_files. intros s b s' E. unfold get_file in E. destruct (_ !! _); [now injection E as <- <-|discriminate]. Qed.

(** A change of the other fields of an entry that is in use. *)
Lemma shifts_field i g : (forall f, fl_ref (g f) = fl_ref f /\ (fl_type (g f) = fl_type f)) -> shifts (upd_file i g) still.
Proof.
  intros G s b s' E T. injection E as <- <-. cbn [x_files]. destruct (x_files s !! i) as [f|] eqn:L.
  - split; [apply tidy_alter; [exact T|]; intros f0 L0; rewrite (proj1 (G f0)), (proj2 (G f0)); apply (T i f0 L0)|].
    intros j. rewrite (refs_alter _ _ f) by exact L. destruct (decide (i = j)) as [<-|]; [rewrite (proj1 (G f)); unfold refs; rewrite L; lia|lia].
  - rewrite alter_out by exact L. split; [exact T|intros; lia].
Qed.

#[local] Hint Resolve shifts_fs shifts_pages shifts_pipes shifts_get_pipe shifts_get_file : ledger.

Lemma shifts_begin : shifts fs_begin still.
Proof. unfold fs_begin. still. Qed.
Lemma shifts_end : shifts fs_end still.
Proof. apply shifts_fs. Qed.
#[local] Hint Resolve shifts_begin shifts_end : ledger.

Lemma filealloc_shifts : shifts filealloc (fun r j => match r with Some i => one i j | None => 0 end).
Proof.
  intros s r s' E T. unfold filealloc in E. apply bind_inv_ok in E as (l & s1 & E1 & E). injection E1 as <- <-.
  destruct (free_file (x_files s) 0) as [i|] eqn:Fr.
  - apply free_file_some in Fr as (_ & f & L & R). rewrite Nat.sub_0_r in L. apply bind_inv_ok in E as ([] & s2 & E2 & E).
    injection E2 as <-. injection E as <- <-. cbn [x_files]. split; [apply tidy_alter; [exact T|]; intros; cbn in *; lia|].
    intros j. rewrite (refs_alter _ _ f) by exact L. unfold one. destruct (decide (i = j)) as [<-|]; [|lia]. unfold refs. rewrite L, R. cbn. lia.
  - injection E as <- <-. split; [exact T|intros; lia].
Qed.

Lemma filedup_shifts i : shifts (filedup i) (fun _ j => one i j).
Proof.
  intros s r s' E T. unfold filedup in E. apply bind_inv_ok in E as (f & s1 & E1 & E). unfold get_file in E1.
  destruct (x_files s !! i) as [f0|] eqn:L; [|discriminate]. injection E1 as -> <-. destruct (fl_ref f <? 1) eqn:R; [discriminate|]. bool_prop.
  apply bind_inv_ok in E as ([] & s2 & E2 & E). injection E2 as <-. injection E as <- <-. cbn [x_files].
  split; [apply tidy_alter; [exact T|]; intros; cbn in *; lia|]. intros j. rewrite (refs_alter _ _ f) by exact L. unfold one.
  destruct (decide (i = j)) as [<-|]; [|lia]. unfold refs. rewrite L. cbn. lia.
Qed.

Lemma fileclose_shifts i : shifts (fileclose pid i) (fun _ j => - one i j).
Proof.
  intros s r s' E T. unfold fileclose in E. apply bind_inv_ok in E as (f & s1 & E1 & E). unfold get_file in E1.
  destruct (x_files s !! i) as [f0|] eqn:L; [|discriminate]. injection E1 as -> <-. destruct (fl_ref f <? 1) eqn:R; [discriminate|]. bool_prop.
  apply bind_inv_ok in E as ([] & s2 & E2 & E). injection E2 as <-.
  assert (Fi : refs (x_files s) i = fl_ref f) by (unfold refs; now rewrite L).
  destruct (0 <? fl_ref f - 1) eqn:Pos; bool_prop.
  { injection E as <- <-. cbn [x_files]. split; [apply tidy_alter; [exact T|]; intros; cbn; lia|].
    intros j. rewrite (refs_alter _ _ f) by exact L. unfold one. destruct (decide (i = j)) as [<-|]; [cbn; lia|lia]. }
  apply bind_inv_ok in E as ([] & s3 & E3 & E). injection E3 as <-.
  set (l' := alter (fun g => with_ftype FD_NONE (with_fref 0 g)) i (alter (with_fref (fl_ref f - 1)) i (x_files s))) in *.
  assert (El : l' = alter (fun g => with_ftype FD_NONE (with_fref 0 g)) i (x_files s)).
  { unfold l'. apply list_eq. intros j. rewrite !list_lookup_alter. destruct (decide (i = j)) as [<-|]; [|reflexivity].
    rewrite decide_True by reflexivity. now destruct (x_files s !! i). }
  assert (T' : tidy l') by (rewrite El; apply tidy_alter; [exact T|intros; cbn; split; [lia|reflexivity]]).
  assert (R' : forall j, refs l' j = refs (x_files s) j + - one i j).
  { intros j. rewrite El, (refs_alter _ _ f) by exact L. unfold one. destruct (decide (i = j)) as [<-|]; [cbn; lia|lia]. }
  assert (K : shifts (match fl_type f with FD_PIPE => pipe_close (fl_pipe f) (truth (fl_writable f))
    | FD_INODE => fs_begin ;;; on_fs (iput pid (fl_ip f)) ;;; fs_end | FD_NONE => ret tt end) still) by (unfold pipe_close; still).
  destruct (K _ _ _ E T') as [T2 R2]. cbn [x_files] in R2. split; [exact T2|]. intros j. rewrite R2, R'. lia.
Qed.

(** Opening an entry that is in use as a pipe end or an inode. *)
Lemma open_entry i g (s : xstate C) a s' : upd_file i g s = Ok a s' -> (forall f, fl_ref (g f) = fl_ref f) -> tidy (x_files s) -> 0 < refs (x_files s) i ->
  tidy (x_files s') /\ forall j, refs (x_files s') j = refs (x_files s) j.
Proof.
  intros E G T P. injection E as <- <-. cbn [x_files]. unfold refs in P. destruct (x_files s !! i) as [f|] eqn:L; [|lia]. split.
  - apply tidy_alter; [exact T|]. intros f0 L0. rewrite L in L0. injection L0 as <-. rewrite G. lia.
  - intros j. rewrite (refs_alter _ _ f) by exact L. destruct (decide (i = j)) as [<-|]; [|reflexivity]. unfold refs. now rewrite L, G.
Qed.

Lemma pipealloc_shifts : shifts (pipealloc pid) (fun r j => match r with Some (f0, f1) => one f0 j + one f1 j | None => 0 end).
Proof.
  intros s r s' E T. unfold pipealloc in E. apply bind_inv_ok in E as (f0 & s1 & E1 & E).
  destruct (filealloc_shifts _ _ _ E1 T) as [T1 R1]. destruct f0 as [f0|]; [|injection E as <- <-; auto].
  apply bind_inv_ok in E as (f1 & s2 & E2 & E). destruct (filealloc_shifts _ _ _ E2 T1) as [T2 R2]. destruct f1 as [f1|].
  2: { apply bind_inv_ok in E as ([] & s3 & E3 & E). injection E as <- <-. destruct (fileclose_shifts _ _ _ _ E3 T2) as [T3 R3].
       split; [exact T3|]. intros j. rewrite R3, R2, R1. lia. }
  apply bind_inv_ok in E as (p & s3 & E3 & E). destruct (shifts_pages _ _ _ _ E3 T2) as [T3 R3]. destruct (p =? 0).
  { apply bind_inv_ok in E as ([] & s4 & E4 & E). apply bind_inv_ok in E as ([] & s5 & E5 & E). injection E as <- <-.
    destruct (fileclose_shifts _ _ _ _ E4 T3) as [T4 R4]. destruct (fileclose_shifts _ _ _ _ E5 T4) as [T5 R5].
    split; [exact T5|]. intros j. rewrite R5, R4, R3, R2, R1. lia. }
  apply bind_inv_ok in E as (junk & s4 & E4 & E). injection E4 as <- <-. apply bind_inv_ok in E as ([] & s5 & E5 & E).
  destruct (shifts_pipes _ _ _ _ E5 T3) as [T5 R5]. apply bind_inv_ok in E as ([] & s6 & E6 & E). apply bind_inv_ok in E as ([] & s7 & E7 & E).
  injection E as <- <-. assert (R5' : forall j, refs (x_files s5) j = refs (x_files s) j + (one f0 j + one f1 j)) by (intros j; rewrite R5, R3, R2, R1; lia).
  assert (O : forall i j, 0 <= one i j /\ one i i = 1) by (intros; unfold one; rewrite (decide_True _ _ eq_refl); destruct (decide _); lia).
  destruct (open_entry _ _ _ _ _ E6 ltac:(reflexivity) T5) as [T6 R6].
  { rewrite R5'. pose proof (refs_nonneg (x_files s) f0 T). pose proof (O f1 f0). pose proof (O f0 f0). lia. }
  destruct (open_entry _ _ _ _ _ E7 ltac:(reflexivity) T6) as [T7 R7].
  { rewrite R6, R5'. pose proof (refs_nonneg (x_files s) f1 T). pose proof (O f0 f1). pose proof (O f1 f1). lia. }
  split; [exact T7|]. intros j. now rewrite R7, R6, R5'.
Qed.

Lemma fileread_shifts i n : shifts (fileread pid killed dev_read i n) still.
Proof. unfold fileread, piperead. still; apply shifts_field; intros; cbn; auto. Qed.

Lemma filewrite_loop_shifts fuel i src : forall k n, shifts (filewrite_loop pid dev_write fuel i src k n) still.
Proof.
  induction fuel as [|fuel IH]; intros k n; cbn [filewrite_loop]; [intros s a s' E; discriminate|]. still.
  apply shifts_field; intros; cbn; auto.
Qed.

Lemma filewrite_shifts i src n : shifts (filewrite pid killed dev_write i src n) still.
Proof. unfold filewrite, pipewrite. still. apply filewrite_loop_shifts. Qed.

Lemma filestat_shifts i : shifts (filestat pid i) still.
Proof. unfold filestat. still. Qed.

(** ** Actions of a process *)

(** The references to [j] that are not the process's own. *)
Definition foreign_refs (s : ust C) (j : nat) : Z := refs (x_files (s_x s)) j - count j (s_ofile s).

(** As [shifts], for the references that are not the process's own. *)
Abbreviation ushifts := (ledger (fun s : ust C => tidy (x_files (s_x s))) foreign_refs).

Lemma ushifts_x {A} (m : M (xstate C) A) d : shifts m d -> ushifts (on_x m) d.
Proof.
  intros Hm s a s' E T. unfold on_x, zoom in E. destruct (m (s_x s)) as [b x| | |] eqn:Ex; try discriminate. injection E as <- <-.
  destruct (Hm _ _ _ Ex T) as [T' R]. split; [exact T'|]. intros j. unfold foreign_refs. cbn. rewrite R. lia.
Qed.

Lemma ushifts_fs {A} (m : M (fstate C) A) : ushifts (fs m) still.
Proof. apply ushifts_x, shifts_fs. Qed.
Lemma ushifts_view : ushifts view still.
Proof. apply ledger_gets. Qed.
Lemma ushifts_umem m : ushifts (put_umem m) still.
Proof. intros s b s' E T. injection E as <- <-. split; [exact T|intros; unfold foreign_refs; cbn; lia]. Qed.
Lemma ushifts_cwd ip : ushifts (put_cwd ip) still.
Proof. intros s b s' E T. injection E as <- <-. split; [exact T|intros; unfold foreign_refs; cbn; lia]. Qed.
Lemma ushifts_argfd n : ushifts (argfd n) still.
Proof. intros s b s' E T. injection E as <- <-. split; [exact T|intros; lia]. Qed.
Lemma ushifts_begin : ushifts (on_x fs_begin) still.
Proof. apply ushifts_x, shifts_begin. Qed.
Lemma ushifts_end : ushifts (on_x fs_end) still.
Proof. apply ushifts_x, shifts_end. Qed.

#[local] Hint Resolve ushifts_fs ushifts_view ushifts_umem ushifts_cwd ushifts_argfd ushifts_begin ushifts_end : ledger.
#[local] Hint Resolve fileread_shifts filewrite_shifts filestat_shifts ushifts_x : ledger.

Lemma sys_read_still : ushifts (sys_read pid killed dev_read) still.
Proof. unfold sys_read. still. Qed.
Lemma sys_write_still : ushifts (sys_write pid killed dev_write) still.
Proof. unfold sys_write. still. Qed.
Lemma sys_fstat_still : ushifts (sys_fstat pid) still.
Proof. unfold sys_fstat. still. Qed.
Lemma link_bad_still ip : ushifts (link_bad pid ip) still.
Proof. unfold link_bad. still. Qed.
#[local] Hint Resolve link_bad_still : ledger.
Lemma sys_link_still : ushifts (sys_link pid dev_read dev_write) still.
Proof. unfold sys_link. still. Qed.
Lemma unlink_bad_still dp : ushifts (unlink_bad pid dp) still.
Proof. unfold unlink_bad. still. Qed.
#[local] Hint Resolve unlink_bad_still : ledger.
Lemma sys_unlink_still : ushifts (sys_unlink pid dev_read dev_write) still.
Proof. unfold sys_unlink. still. Qed.
Lemma sys_mkdir_still : ushifts (sys_mkdir pid dev_read dev_write) still.
Proof. unfold sys_mkdir. still. Qed.
Lemma sys_mknod_still : ushifts (sys_mknod pid dev_read dev_write) still.
Proof. unfold sys_mknod. still. Qed.
Lemma sys_chdir_still : ushifts (sys_chdir pid dev_read) still.
Proof. unfold sys_chdir. still. Qed.
Lemma open_inode_still path omode : ushifts (open_inode pid dev_read dev_write path omode) still.
Proof. unfold open_inode. still. Qed.

Lemma fdalloc_ok f (s : ust C) r s' : fdalloc f s = Ok r s' -> s_x s' = s_x s /\
  match r with
  | Some fd => s_ofile s !! fd = Some None /\ s_ofile s' = <[fd := Some f]> (s_ofile s) /\ forall i, (i < fd)%nat -> exists g, s_ofile s !! i = Some (Some g)
  | None => s_ofile s' = s_ofile s
  end.
Proof.
  intros E. unfold fdalloc in E. apply bind_inv_ok in E as (l & s1 & E1 & E). injection E1 as <- <-.
  destruct (free_fd (s_ofile s) 0) as [fd|] eqn:Fr; [|injection E as <- <-; auto].
  apply bind_inv_ok in E as ([] & s2 & E2 & E). injection E2 as <-. injection E as <- <-. apply free_fd_some in Fr as (_ & L & N).
  rewrite Nat.sub_0_r in L. split; [reflexivity|]. split; [exact L|]. split; [reflexivity|].
  intros i Hi. specialize (N i ltac:(lia)). now rewrite Nat.sub_0_r in N.
Qed.

Lemma fdalloc_shifts f : ushifts (fdalloc f) (fun r j => match r with Some _ => - one f j | None => 0 end).
Proof.
  intros s r s' E T. destruct (fdalloc_ok _ _ _ _ E) as [X R]. unfold foreign_refs. rewrite X. split; [exact T|]. intros j.
  destruct r as [fd|]; [|rewrite R; lia]. destruct R as (L & -> & _). rewrite (count_insert _ _ _ _ _ L). lia.
Qed.

Lemma put_fd_none fd f (s : ust C) a s' : put_fd fd None s = Ok a s' -> s_ofile s !! fd = Some (Some f) -> s_x s' = s_x s /\
  forall j, foreign_refs s' j = foreign_refs s j + one f j.
Proof.
  intros E L. injection E as <- <-. split; [reflexivity|]. intros j. unfold foreign_refs. cbn [s_x s_ofile]. rewrite (count_insert _ _ _ _ _ L). lia.
Qed.

Lemma sys_dup_still : ushifts sys_dup still.
Proof.
  unfold sys_dup. apply ledger_still; [auto with ledger|]. intros [[fd f]|]; [|auto with ledger].
  apply (ledger_bind _ _ _ _ _ _ (fdalloc_shifts f)). intros [fd'|]; [|apply (ledger_ext _ _ _ _ _ (ledger_ret _ _ _)); intros; lia].
  apply (ledger_bind _ _ _ _ (fun _ j => one f j)); [apply ushifts_x, filedup_shifts|].
  intros a. apply (ledger_ext _ _ _ _ _ (ledger_ret _ _ _)). intros; lia.
Qed.

Lemma sys_close_still : ushifts (sys_close pid) still.
Proof.
  intros s r s' E T. unfold sys_close in E. apply bind_inv_ok in E as (a & s1 & E1 & E). injection E1 as Ea <-.
  destruct a as [[fd f]|]; [|injection E as <- <-; split; [exact T|intros; lia]].
  assert (L : s_ofile s !! fd = Some (Some f)).
  { destruct (argint (s_view s) 0) as [i|]; [|discriminate]. destruct (_ || _); [discriminate|].
    destruct (s_ofile s !! Z.to_nat i) as [[g|]|] eqn:L; try discriminate. injection Ea as <- <-. exact L. }
  apply bind_inv_ok in E as ([] & s2 & E2 & E). destruct (put_fd_none _ _ _ _ _ E2 L) as [X2 R2].
  apply bind_inv_ok in E as ([] & s3 & E3 & E). injection E as <- <-. rewrite <- X2 in T.
  destruct (ushifts_x _ _ (fileclose_shifts f) _ _ _ E3 T) as [T3 R3]. split; [exact T3|]. intros j. rewrite R3, R2. lia.
Qed.

Lemma sys_pipe_still : ushifts (sys_pipe pid) still.
Proof.
  intros s r s' E T. unfold sys_pipe in E. apply bind_inv_ok in E as (v & s1 & E1 & E). injection E1 as <- <-.
  destruct (argptr (s_view s) 0 8) as [p|]; [|injection E as <- <-; split; [exact T|intros; lia]].
  apply bind_inv_ok in E as (fs0 & s2 & E2 & E). destruct (ushifts_x _ _ pipealloc_shifts _ _ _ E2 T) as [T2 R2].
  destruct fs0 as [[rf wf]|]; [|injection E as <- <-; auto].
  apply bind_inv_ok in E as (fd0 & s3 & E3 & E). destruct (fdalloc_shifts _ _ _ _ E3 T2) as [T3 R3].
  destruct (fdalloc_ok _ _ _ _ E3) as [X3 O3].
  assert (Close : forall s0, tidy (x_files (s_x s0)) -> forall a s0', (on_x (fileclose pid rf) ;;; on_x (fileclose pid wf) ;;; ret (-1)) s0 = Ok a s0' ->
    tidy (x_files (s_x s0')) /\ forall j, foreign_refs s0' j = foreign_refs s0 j + (- one rf j - one wf j)).
  { intros s0 T0 a s0' E0. apply bind_inv_ok in E0 as ([] & s4 & E4 & E0). apply bind_inv_ok in E0 as ([] & s5 & E5 & E0). injection E0 as <- <-.
    destruct (ushifts_x _ _ (fileclose_shifts rf) _ _ _ E4 T0) as [T4 R4]. destruct (ushifts_x _ _ (fileclose_shifts wf) _ _ _ E5 T4) as [T5 R5].
    split; [exact T5|]. intros j. rewrite R5, R4. lia. }
  destruct fd0 as [fd0|]; [|destruct (Close s3 T3 _ _ E) as [T4 R4]; split; [exact T4|]; intros j; rewrite R4, R3, R2; lia].
  apply bind_inv_ok in E as (fd1 & s4 & E4 & E). destruct (fdalloc_shifts _ _ _ _ E4 T3) as [T4 R4].
  destruct (fdalloc_ok _ _ _ _ E4) as [X4 O4]. destruct fd1 as [fd1|].
  - apply bind_inv_ok in E as ([] & s5 & E5 & E). injection E as <- <-. destruct (ushifts_umem _ _ _ _ E5 T4) as [T5 R5].
    split; [exact T5|]. intros j. rewrite R5, R4, R3, R2. lia.
  - destruct O3 as (L0 & O3 & _). apply bind_inv_ok in E as ([] & s5 & E5 & E).
    destruct (put_fd_none fd0 rf _ _ _ E5) as [X5 R5].
    { rewrite O4, O3. apply list_lookup_insert_eq. apply (lookup_lt_Some _ _ _ L0). }
    rewrite <- X5 in T4. destruct (Close s5 T4 _ _ E) as [T6 R6]. split; [exact T6|]. intros j. rewrite R6, R5, R4, R3, R2. lia.
Qed.

(** [open_file] gives a new file one descriptor, the lowest free one. *)
Lemma open_file_ok s r s' : open_file pid s = Ok r s' -> tidy (x_files (s_x s)) ->
  tidy (x_files (s_x s')) /\ (forall j, foreign_refs s' j = foreign_refs s j) /\
  match r with
  | Some (f, fd) => s_ofile s !! fd = Some None /\ s_ofile s' = <[fd := Some f]> (s_ofile s)
  | None => True
  end.
Proof.
  intros E T. unfold open_file in E. apply bind_inv_ok in E as (f & s1 & E1 & E). destruct (ushifts_x _ _ filealloc_shifts _ _ _ E1 T) as [T1 R1].
  assert (O1 : s_ofile s1 = s_ofile s) by (unfold on_x, zoom in E1; destruct (filealloc _); try discriminate; now injection E1 as <- <-).
  destruct f as [f|]; [|injection E as <- <-; split; [exact T1|]; split; [intros; rewrite R1; lia|exact I]].
  apply bind_inv_ok in E as (fd & s2 & E2 & E). destruct (fdalloc_shifts _ _ _ _ E2 T1) as [T2 R2]. destruct (fdalloc_ok _ _ _ _ E2) as [X2 O2].
  destruct fd as [fd|].
  - injection E as <- <-. split; [exact T2|]. split; [intros j; rewrite R2, R1; lia|]. destruct O2 as (L & O2 & _). rewrite O1 in L, O2. auto.
  - apply bind_inv_ok in E as ([] & s3 & E3 & E). injection E as <- <-. destruct (ushifts_x _ _ (fileclose_shifts f) _ _ _ E3 T2) as [T3 R3].
    split; [exact T3|]. split; [intros j; rewrite R3, R2, R1; lia|exact I].
Qed.

Lemma sys_open_refs s r s' : sys_open pid dev_read dev_write s = Ok r s' -> tidy (x_files (s_x s)) -> (forall j, 0 <= foreign_refs s j) ->
  tidy (x_files (s_x s')) /\ forall j, foreign_refs s' j = foreign_refs s j.
Proof.
  intros E T F0. unfold sys_open in E. apply bind_inv_ok in E as (v & s1 & E1 & E). injection E1 as <- <-.
  destruct (argstr (s_view s) 0) as [path|], (argint (s_view s) 1) as [omode|]; try (injection E as <- <-; auto).
  apply bind_inv_ok in E as ([] & s2 & E2 & E). destruct (ushifts_begin _ _ _ E2 T) as [T2 R2].
  apply bind_inv_ok in E as (ip & s3 & E3 & E). destruct (open_inode_still _ _ _ _ _ E3 T2) as [T3 R3]. destruct ip as [ip|].
  2: { apply bind_inv_ok in E as ([] & s4 & E4 & E). injection E as <- <-. destruct (ushifts_end _ _ _ E4 T3) as [T4 R4].
       split; [exact T4|]. intros j. rewrite R4, R3, R2. lia. }
  apply bind_inv_ok in E as (fo & s4 & E4 & E). destruct (open_file_ok _ _ _ E4 T3) as (T4 & R4 & O4). destruct fo as [[f fd]|].
  2: { apply bind_inv_ok in E as ([] & s5 & E5 & E). apply bind_inv_ok in E as ([] & s6 & E6 & E). injection E as <- <-.
       destruct (ushifts_fs _ _ _ _ E5 T4) as [T5 R5]. destruct (ushifts_end _ _ _ E6 T5) as [T6 R6].
       split; [exact T6|]. intros j. rewrite R6, R5, R4, R3, R2. lia. }
  apply bind_inv_ok in E as ([] & s5 & E5 & E). apply bind_inv_ok in E as ([] & s6 & E6 & E). apply bind_inv_ok in E as ([] & s7 & E7 & E).
  injection E as <- <-. destruct (ushifts_fs _ _ _ _ E5 T4) as [T5 R5]. destruct (ushifts_end _ _ _ E6 T5) as [T6 R6].
  assert (O6 : s_ofile s6 = s_ofile s4).
  { unfold fs, on_x, zoom in E5, E6. destruct (on_fs _ _); try discriminate. injection E5 as _ <-. destruct (fs_end _); try discriminate. now injection E6 as _ <-. }
  assert (B6 : forall j, foreign_refs s6 j = foreign_refs s j) by (intros j; rewrite R6, R5, R4, R3, R2; lia).
  assert (P : 0 < refs (x_files (s_x s6)) f).
  { specialize (B6 f). specialize (F0 f). unfold foreign_refs in B6 at 1. destruct O4 as [L O4]. rewrite O6, O4, (count_insert _ _ _ _ _ L) in B6.
    pose proof (count_nonneg f (s_ofile s3)). unfold one in B6. rewrite decide_True in B6 by reflexivity. lia. }
  unfold on_x, zoom in E7. destruct (upd_file _ _ (s_x s6)) as [u x| | |] eqn:Eu; try discriminate. injection E7 as _ <-.
  destruct (open_entry _ _ _ _ _ Eu ltac:(reflexivity) T6 P) as [T7 R7]. split; [exact T7|]. intros j. rewrite <- B6. unfold foreign_refs. cbn [s_x s_ofile]. now rewrite R7.
Qed.

(** The loops over the descriptors in [fork] and [exit]. *)
Fixpoint dup_all (l : list (option nat)) : M (xstate C) unit :=
  match l with
  | [] => ret tt
  | Some f :: l => filedup f ;;; dup_all l
  | None :: l => dup_all l
  end.

Fixpoint close_all (l : list (option nat)) : M (xstate C) unit :=
  match l with
  | [] => ret tt
  | Some f :: l => fileclose pid f ;;; close_all l
  | None :: l => close_all l
  end.

Lemma dup_all_shifts l : shifts (dup_all l) (fun _ j => count j l).
Proof.
  induction l as [|[f|] l IH]; cbn [dup_all count]; [apply ledger_ret| |].
  - apply (ledger_bind _ _ _ _ _ _ (filedup_shifts f)). intros a s b s' E T. destruct (IH _ _ _ E T) as [T' R]. split; [exact T'|].
    intros j. rewrite R. unfold one. repeat destruct (decide _); simplify_eq; lia.
  - intros s b s' E T. destruct (IH _ _ _ E T) as [T' R]. split; [exact T'|]. intros j. rewrite R. destruct (decide _); [discriminate|lia].
Qed.

Lemma close_all_shifts l : shifts (close_all l) (fun _ j => - count j l).
Proof.
  induction l as [|[f|] l IH]; cbn [close_all count]; [apply ledger_ret| |].
  - apply (ledger_bind _ _ _ _ _ _ (fileclose_shifts f)). intros a s b s' E T. destruct (IH _ _ _ E T) as [T' R]. split; [exact T'|].
    intros j. rewrite R. unfold one. repeat destruct (decide _); simplify_eq; lia.
  - intros s b s' E T. destruct (IH _ _ _ E T) as [T' R]. split; [exact T'|]. intros j. rewrite R. destruct (decide _); [discriminate|lia].
Qed.

(** C4: References to open files are counted.  If the [ref] fields are the numbers
    of descriptors that refer to the entries, over the calling process and all
    [others], and the entries without references are closed, the same holds after
    every file system call of the process, on every path through it, successful or
    not; after the loop of [fork] that duplicates the descriptors, with the child's
    descriptors added; and after the loop of [exit] that closes them, without
    them. *)
Theorem file_references_counted (s : ust C) others : counted (x_files (s_x s)) (s_ofile s ++ others) ->
  (forall m, m ∈ [sys_dup; sys_read pid killed dev_read; sys_write pid killed dev_write; sys_close pid; sys_fstat pid;
                  sys_link pid dev_read dev_write; sys_unlink pid dev_read dev_write; sys_open pid dev_read dev_write;
                  sys_mkdir pid dev_read dev_write; sys_mknod pid dev_read dev_write; sys_chdir pid dev_read; sys_pipe pid] ->
     forall r s', m s = Ok r s' -> counted (x_files (s_x s')) (s_ofile s' ++ others)) /\
  (forall u x', dup_all (s_ofile s) (s_x s) = Ok u x' -> counted (x_files x') (s_ofile s ++ s_ofile s ++ others)) /\
  (forall u x', close_all (s_ofile s) (s_x s) = Ok u x' -> counted (x_files x') others).
Proof.
  intros [T Cn]. assert (F0 : forall j, foreign_refs s j = count j others) by (intros j; unfold foreign_refs; rewrite Cn, count_app; lia).
  assert (Done : forall s', tidy (x_files (s_x s')) -> (forall j, foreign_refs s' j = foreign_refs s j) -> counted (x_files (s_x s')) (s_ofile s' ++ others)).
  { intros s' T' R. split; [exact T'|]. intros j. specialize (R j). rewrite F0 in R. unfold foreign_refs in R. rewrite count_app. lia. }
  assert (Still : forall m : M (ust C) Z, ushifts m still -> forall r s', m s = Ok r s' -> counted (x_files (s_x s')) (s_ofile s' ++ others)).
  { intros m Hm r s' E. destruct (Hm _ _ _ E T) as [T' R]. apply Done; [exact T'|]. intros j. rewrite R. lia. }
  split; [|split].
  - intros m Hm r s'. repeat (apply elem_of_cons in Hm as [->|Hm]; [first [apply Still;
      first [apply sys_dup_still|apply sys_read_still|apply sys_write_still|apply sys_close_still|apply sys_fstat_still|apply sys_link_still
            |apply sys_unlink_still|apply sys_mkdir_still|apply sys_mknod_still|apply sys_chdir_still|apply sys_pipe_still]
      |intros E; destruct (sys_open_refs _ _ _ E T) as [T' R]; [intros j; rewrite F0; apply count_nonneg|now apply Done]]|]).
    now apply elem_of_nil in Hm.
  - intros u x' E. destruct (dup_all_shifts _ _ _ _ E T) as [T' R]. split; [exact T'|]. intros j. rewrite R, Cn, !count_app. lia.
  - intros u x' E. destruct (close_all_shifts _ _ _ _ E T) as [T' R]. split; [exact T'|]. intros j. rewrite R, Cn, count_app. lia.
Qed.

End Refs.

(** A process with one open pipe end that calls [dup(0)]. *)
#[local] Instance null_cache : BlockCache unit := {
  bread _ := fault "no disk"; bwrite _ := fault "no disk"; brelse _ := fault "no disk"; bdata _ _ _ := 0;
  set_bdata _ _ s := s; set_bdirty _ s := s; bblockno _ _ := 0 }.

Definition sample_open : ust unit :=
  mkUs (mkX [mkFile FD_PIPE 1 1 0 0x80400000 0 0; file_zero] (mkF (mkL (mkLog 2 30 0 0 0 (fun _ => 0)) tt) (mkSb 0 0 0 0 0 0 0) [])
            (<[0x80400000 := pipe_init (repeat 0 512)]> ∅) (mkKmem (fun _ => 0) 0 false lock_free 0))
       (Some 0%nat :: repeat None 15) 0 (mkU (fun _ => 0) 0x2000 0x1000).

Lemma file_references_counted_witness : exists s', sys_dup sample_open = Ok 1 s' /\
  s_ofile s' !! 1%nat = Some (Some 0%nat) /\ counted (x_files (s_x s')) (s_ofile s' ++ []).
Proof.
  assert (Cn : counted (x_files (s_x sample_open)) (s_ofile sample_open ++ [])).
  { split.
    - intros [|[|i]] f E; cbn in E; try discriminate; injection E as <-; cbn; split; (lia || discriminate || reflexivity).
    - intros [|[|i]]; reflexivity. }
  eexists. split; [reflexivity|]. split; [reflexivity|].
  eapply (proj1 (@file_references_counted sample_linker unit null_cache 7 false (fun _ => None) (fun _ => None) sample_open [] Cn) sys_dup);
    [left|reflexivity].
Defined.
