(* ===== verification/Dir.v ===== *)
(** Directories: [dirlookup] and [dirlink] of [src/xv6/xv6-public/fs.c] and
    [isdirempty] of [sysfile.c] against a map from names to inode numbers, on top
    of the contents of files of [Inode]. *)

From stdpp Require Import gmap.
From S2P Require Import Prelude Mem Block Bio Log Txn Fs Balloc Inode Icache Syscall Sysfile.

(** ** The entries of a directory *)

(** The name in a buffer, up to [DIRSIZ] characters. *)
Definition cname (f : Z -> Z) : list Z := cstr f 0 (Z.to_nat DIRSIZ).

(** Entry [i] of a directory with bytes [f]: its inode number and its name. *)
Definition slot (f : Z -> Z) (i : nat) : Z * list Z :=
  (load16 f (16 * Z.of_nat i), cstr f (16 * Z.of_nat i + 2) (Z.to_nat DIRSIZ)).

Definition slots (f : Z -> Z) (k i : nat) : list (Z * list Z) := map (slot f) (seq i k).

(** The first used entry with a name, and the first free entry, or the end. *)
Fixpoint dir_find (nm : list Z) (es : list (Z * list Z)) : option (nat * Z) :=
  match es with
  | [] => None
  | e :: es => if negb (fst e =? 0) && bool_decide (nm = snd e) then Some (0%nat, fst e) else prod_map S id <$> dir_find nm es
  end.

Fixpoint dir_free (es : list (Z * list Z)) : nat :=
  match es with [] => 0 | e :: es => if fst e =? 0 then 0 else S (dir_free es) end.

(** The map that a directory is. *)
Definition dir_get (es : list (Z * list Z)) (nm : list Z) : option Z := snd <$> dir_find nm es.

Definition dir_place (es : list (Z * list Z)) (e : Z * list Z) : list (Z * list Z) :=
  take (dir_free es) es ++ e :: drop (S (dir_free es)) es.

Lemma dir_free_le es : (dir_free es <= length es)%nat.
Proof. induction es as [|e es IH]; cbn; [lia|]. destruct (fst e =? 0); lia. Qed.

Lemma dir_place_cons e0 es e : fst e0 <> 0 -> dir_place (e0 :: es) e = e0 :: dir_place es e.
Proof. intros H. unfold dir_place. cbn [dir_free]. now rewrite (proj2 (Z.eqb_neq _ _) H). Qed.

(** Linking a name that is absent adds it, at the place of the entry. *)
Lemma dir_find_place nm es inum : inum <> 0 -> dir_find nm es = None -> dir_find nm (dir_place es (inum, nm)) = Some (dir_free es, inum).
Proof.
  intros Hi. assert (E0 : dir_find nm [(inum, nm)] = Some (0%nat, inum)) by (cbn; now rewrite (proj2 (Z.eqb_neq _ _) Hi), bool_decide_true).
  induction es as [|e es IH]; [now intros _|]. destruct (Z.eqb_spec (fst e) 0) as [E|E].
  - intros _. unfold dir_place. cbn [dir_free]. rewrite E. change (0 =? 0) with true. cbn [take app dir_find fst snd].
    now rewrite (proj2 (Z.eqb_neq _ _) Hi), bool_decide_true.
  - rewrite dir_place_cons by exact E. cbn [dir_find dir_free]. rewrite (proj2 (Z.eqb_neq _ _) E). cbn [negb andb].
    destruct (bool_decide _); [discriminate|]. intros Hn%fmap_None. now rewrite IH.
Qed.

Lemma dir_find_other nm nm' es inum : nm' <> nm -> dir_find nm' (dir_place es (inum, nm)) = dir_find nm' es.
Proof.
  intros Hne. induction es as [|e es IH]; [cbn; rewrite bool_decide_false by exact Hne; now rewrite andb_false_r|].
  destruct (Z.eqb_spec (fst e) 0) as [E|E].
  - unfold dir_place. cbn [dir_free]. rewrite E. change (0 =? 0) with true. cbn [take app dir_find fst snd].
    rewrite E, (bool_decide_false (nm' = nm)), andb_false_r by exact Hne. reflexivity.
  - rewrite dir_place_cons by exact E. cbn [dir_find]. now rewrite IH.
Qed.

Lemma dir_get_place nm es inum nm' : inum <> 0 -> dir_get es nm = None ->
  dir_get (dir_place es (inum, nm)) nm' = if decide (nm' = nm) then Some inum else dir_get es nm'.
Proof.
  intros Hi Hn. unfold dir_get in *. apply fmap_None in Hn. case_decide as E; [subst; now rewrite dir_find_place | now rewrite dir_find_other].
Qed.

(** The used entries of a directory have different names. *)
Definition dir_wf (es : list (Z * list Z)) : Prop :=
  forall i j e e', es !! i = Some e -> es !! j = Some e' -> fst e <> 0 -> fst e' <> 0 -> snd e = snd e' -> i = j.

Lemma dir_find_some nm es j x : dir_find nm es = Some (j, x) -> es !! j = Some (x, nm) /\ x <> 0.
Proof.
  revert j; induction es as [|e es IH]; intros j; cbn [dir_find]; [discriminate|]. destruct (negb _ && _) eqn:E.
  - intros [= <- <-]. apply andb_prop in E as [E1 E2]. apply negb_true_iff, Z.eqb_neq in E1. apply bool_decide_eq_true in E2.
    split; [destruct e; cbn in *; congruence|exact E1].
  - destruct (dir_find nm es) as [[j' x']|]; [|discriminate]. intros [= <- <-]. exact (IH j' eq_refl).
Qed.

Lemma dir_find_none nm es : dir_find nm es = None <-> forall i e, es !! i = Some e -> fst e <> 0 -> snd e <> nm.
Proof.
  induction es as [|e es IH]; cbn [dir_find]; [split; [intros _ i e; discriminate|reflexivity]|]. destruct (negb _ && _) eqn:E.
  - split; [discriminate|]. intros Hall. apply andb_prop in E as [E1 E2]. apply negb_true_iff, Z.eqb_neq in E1. apply bool_decide_eq_true in E2.
    now destruct (Hall 0%nat e eq_refl E1).
  - rewrite fmap_None, IH. split; [|intros Hall i e' L; exact (Hall (S i) e' L)]. intros Hall [|i] e' L; [|exact (Hall i e' L)].
    injection L as <-. intros Hn En. subst nm. rewrite (proj2 (Z.eqb_neq _ _) Hn), bool_decide_true in E by reflexivity. discriminate.
Qed.

(** An entry that is not the one looked for may be exchanged for another such. *)
Lemma dir_find_insert nm es j e0 e : es !! j = Some e0 -> fst e0 = 0 \/ snd e0 <> nm -> fst e = 0 \/ snd e <> nm -> dir_find nm (<[j := e]> es) = dir_find nm es.
Proof.
  assert (Skip : forall e, fst e = 0 \/ snd e <> nm -> negb (fst e =? 0) && bool_decide (nm = snd e) = false).
  { intros [y m] [Hz|Hn]; cbn in *; [now rewrite Hz|]. rewrite bool_decide_false by congruence. apply andb_false_r. }
  revert j; induction es as [|x es IH]; intros [|j] L H0 H1; try discriminate.
  - injection L as ->. change (<[0%nat := e]> (e0 :: es)) with (e :: es). cbn [dir_find]. now rewrite !Skip.
  - change (<[S j := e]> (x :: es)) with (x :: <[j := e]> es). cbn [dir_find]. now rewrite (IH j).
Qed.

(** Clearing the entry of a name removes it. *)
Lemma dir_get_clear nm es j x nm' : dir_wf es -> dir_find nm es = Some (j, x) ->
  dir_get (<[j := (0, [])]> es) nm' = if decide (nm' = nm) then None else dir_get es nm'.
Proof.
  intros W F. apply dir_find_some in F as [L Hx]. unfold dir_get. case_decide as E.
  - subst nm'. apply fmap_None, dir_find_none. intros i e Li Hn En. destruct (decide (i = j)) as [->|Hne].
    + rewrite list_lookup_insert_eq in Li by exact (lookup_lt_Some _ _ _ L). injection Li as <-. now destruct Hn.
    + rewrite list_lookup_insert_ne in Li by congruence. apply Hne. apply (W i j e (x, nm)); auto.
  - f_equal. apply (dir_find_insert nm' es j (x, nm)); [exact L|right; cbn; congruence|now left].
Qed.

Lemma dir_wf_clear es j : dir_wf es -> dir_wf (<[j := (0, [])]> es).
Proof.
  intros W i k e e' Li Lk Hn Hn' E.
  assert (Old : forall i e, (<[j := (0, [])]> es) !! i = Some e -> fst e <> 0 -> es !! i = Some e).
  { intros i0 e0 L0 H0. destruct (decide (i0 = j)) as [->|Hne]; [|now rewrite list_lookup_insert_ne in L0 by congruence].
    rewrite list_lookup_insert_eq in L0; [injection L0 as <-; now destruct H0|]. rewrite <- (length_insert es j (0, [])). exact (lookup_lt_Some _ _ _ L0). }
  apply (W i k e e'); auto.
Qed.

Lemma dir_place_lookup es e i e1 : dir_place es e !! i = Some e1 -> (i = dir_free es /\ e1 = e) \/ (i <> dir_free es /\ es !! i = Some e1).
Proof.
  unfold dir_place. pose proof (dir_free_le es) as Hf. assert (Hl : length (take (dir_free es) es) = dir_free es) by (rewrite length_take; lia).
  intros L. destruct (Nat.lt_total i (dir_free es)) as [Hlt|[->|Hgt]].
  - rewrite lookup_app_l, lookup_take_lt in L by lia. right. split; [lia|exact L].
  - rewrite lookup_app_r, Hl, Nat.sub_diag in L by lia. injection L as <-. auto.
  - rewrite lookup_app_r, Hl in L by lia. replace (i - dir_free es)%nat with (S (i - S (dir_free es))) in L by lia.
    change ((e :: ?l) !! S ?k) with (l !! k) in L. rewrite lookup_drop in L. replace (S (dir_free es) + (i - S (dir_free es)))%nat with i in L by lia. right. split; [lia|exact L].
Qed.

Lemma dir_wf_place nm es x : dir_wf es -> dir_find nm es = None -> dir_wf (dir_place es (x, nm)).
Proof.
  intros W Hn i j e e' Li Lj H1 H2 E. rewrite dir_find_none in Hn.
  destruct (dir_place_lookup _ _ _ _ Li) as [[-> ->]|[Ni Li']], (dir_place_lookup _ _ _ _ Lj) as [[-> ->]|[Nj Lj']]; auto.
  - now destruct (Hn _ _ Lj' H2).
  - now destruct (Hn _ _ Li' H1).
  - exact (W i j e e' Li' Lj' H1 H2 E).
Qed.

(** ** Names *)

Lemma cstr_shift f d n : forall p, cstr (fun x => f (d + x)) p n = cstr f (d + p) n.
Proof. induction n as [|n IH]; intros p; cbn [cstr]; [reflexivity|]. rewrite IH. now replace (d + (p + 1)) with (d + p + 1) by lia. Qed.

Lemma beside_left s t : cstr (beside s t) 0 (Z.to_nat DIRSIZ) = cname s.
Proof. apply cstr_ext. intros x Hx. unfold beside. change (Z.of_nat (Z.to_nat DIRSIZ)) with 14 in Hx. now rewrite (proj2 (Z.ltb_lt _ _)) by lia. Qed.

Lemma beside_right s t : cstr (beside s t) 4096 (Z.to_nat DIRSIZ) = cname t.
Proof.
  unfold cname. change 4096 with (4096 + 0). rewrite <- (cstr_shift (beside s t)). apply cstr_ext. intros x Hx. unfold beside.
  rewrite (proj2 (Z.ltb_ge _ _)) by lia. f_equal. lia.
Qed.

Lemma namecmp_zero s t : (namecmp s t =? 0) = bool_decide (cname s = cname t).
Proof.
  apply eq_true_iff_eq. rewrite Z.eqb_eq, bool_decide_eq_true. unfold namecmp. now rewrite strncmp_zero, beside_left, beside_right.
Qed.

(** The copy of a name has the same name. *)
Lemma strncpy_cstr n : forall m s t, mem_ok m -> s + Z.of_nat n <= t \/ t + Z.of_nat n <= s -> cstr (strncpy_loop m s t n) s n = cstr m t n.
Proof.
  induction n as [|n IH]; intros m s t Hm Hd; [reflexivity|]. cbn [strncpy_loop cstr]. cbv zeta. destruct (truth (m t)) eqn:E.
  - rewrite strncpy_frame, load8_store8_eq, u8_small, E by (lia || apply Hm). f_equal. rewrite IH by (auto with words; lia).
    apply cstr_ext. intros. apply load8_store8_ne. lia.
  - rewrite stosb_frame, load8_store8_eq by lia. apply truth_false in E. now rewrite E.
Qed.

Lemma dirent_name_cname name : mem_ok name -> cname (dirent_name (fun _ => 0) name) = cname name.
Proof.
  intros Hm. unfold dirent_name, strncpy, cname at 1. rewrite strncpy_cstr; [apply beside_right | | change (Z.of_nat (Z.to_nat DIRSIZ)) with 14; lia].
  intros a. unfold beside. destruct (a <? 4096); [lia | apply Hm].
Qed.

Lemma buffer_map (f : Z -> Z) o m i : 0 <= i < m -> buffer (map f (seqZ o m)) i = f (o + i).
Proof.
  intros Hi. unfold buffer. rewrite (proj2 (Z.ltb_ge i 0)) by lia. apply nth_lookup_Some.
  change (map f (seqZ o m)) with (f <$> seqZ o m). rewrite list_lookup_fmap, (proj2 (lookup_seqZ o m (Z.to_nat i) (o + i))) by lia. reflexivity.
Qed.

(** A directory entry read into a buffer. *)
Lemma parse_slot (f : Z -> Z) i : let de := parse_dirent (buffer (map f (seqZ (16 * Z.of_nat i) 16))) in (de_inum de, cname (de_name de)) = slot f i.
Proof.
  cbn. unfold slot, load16. rewrite !buffer_map by lia. rewrite Z.add_0_r. f_equal. unfold cname. set (o := 16 * _).
  replace (o + 2) with ((o + 2) + 0) by lia. rewrite <- (cstr_shift f). apply cstr_ext. intros x Hx. change (Z.of_nat (Z.to_nat DIRSIZ)) with 14 in Hx.
  rewrite buffer_map by lia. f_equal. lia.
Qed.

Lemma slots_ext f f' k i : (forall o, f o = f' o) -> slots f k i = slots f' k i.
Proof.
  intros E. apply map_ext. intros j. unfold slot, load16. rewrite !E. f_equal. apply cstr_ext. auto.
Qed.

Lemma slots_app f j k i : slots f (j + k) i = slots f j i ++ slots f k (i + j).
Proof. unfold slots. now rewrite seq_app, map_app. Qed.

Lemma slots_length f k i : length (slots f k i) = k.
Proof. unfold slots. now rewrite length_map, length_seq. Qed.

Lemma slots_frame f f' k i : (forall o, 16 * Z.of_nat i <= o < 16 * Z.of_nat (i + k) -> f' o = f o) -> slots f' k i = slots f k i.
Proof.
  intros E. apply map_ext_in. intros j Hj. apply in_seq in Hj. unfold slot, load16. rewrite !E by lia. f_equal.
  apply cstr_ext. change (Z.of_nat (Z.to_nat DIRSIZ)) with 14. intros x Hx. apply E. lia.
Qed.

(** The bytes that [dirlink] writes are those of the entry. *)
Lemma print_slot inum name f i : 0 <= inum < 65536 -> mem_ok name ->
  (forall o, 16 * Z.of_nat i <= o < 16 * Z.of_nat i + 16 -> f o = print_dirent (mkDe (u16 inum) (dirent_name (fun _ => 0) name)) (o - 16 * Z.of_nat i)) ->
  slot f i = (inum, cname name).
Proof.
  intros Hi Hm E. unfold slot, load16. set (o := 16 * Z.of_nat i) in *. rewrite !E by lia. f_equal.
  - unfold print_dirent. replace (o - o) with 0 by lia. replace (o + 1 - o) with 1 by lia. cbn [de_inum].
    assert (u16 inum = inum) as -> by (unfold u16; apply Z.mod_small; lia). change (0 =? 0) with true. change (1 =? 0) with false. change (1 =? 1) with true. unfold u8. Z.to_euclidean_division_equations. lia.
  - rewrite <- dirent_name_cname by exact Hm. unfold cname. replace (o + 2) with ((o + 2) + 0) by lia. rewrite <- (cstr_shift f). apply cstr_ext.
    change (Z.of_nat (Z.to_nat DIRSIZ)) with 14. intros x Hx. rewrite E by lia. unfold print_dirent. cbn [de_name].
    rewrite !(proj2 (Z.eqb_neq _ _)) by lia. f_equal. lia.
Qed.

(** ** The operations *)

Section Dir.
Context {C : Type} `{BO : BlockCacheOk C}.
Variable pid : Z.
Variable dev_read : Z -> option (nat -> Z -> M (fstate C) (Z * list Z)).
Variable dev_write : Z -> option (nat -> (Z -> Z) -> Z -> M (fstate C) Z).

Record dir_ok (s : fstate C) (dp : nat) (n : inode) : Prop := {
  do_file : file_ok s dp n;
  do_type : i_type n = T_DIR;
  do_size : (16 | i_size n)
}.

Definition dcount (n : inode) : nat := Z.to_nat (i_size n / 16).
Definition dbytes (s : fstate C) (n : inode) : Z -> Z := content (fview s) (i_addrs n).
Definition dentries (s : fstate C) (n : inode) : list (Z * list Z) := slots (dbytes s n) (dcount n) 0.

Lemma dcount_size s dp n : dir_ok s dp n -> i_size n = 16 * Z.of_nat (dcount n).
Proof.
  intros [[_ _ Hs _ _] _ [q Hq]]. unfold dcount. rewrite Hq in *. rewrite Z.div_mul by lia. lia.
Qed.

Lemma file_ok_step s s' ip n k : fstep s s' [] (fview s) k -> file_ok s ip n -> file_ok s' ip n.
Proof.
  intros F [Hn B Hs Hm Hi]. assert (V : veq (fview s') (fview s)) by exact (fp_view _ _ _ _ _ F). pose proof (fs_sb _ _ (fp_same _ _ _ _ _ F)) as S.
  constructor; rewrite ?S; auto; [now rewrite (fp_icache _ _ _ _ _ F) | now rewrite V | intros bn; rewrite V; apply Hm].
Qed.

Lemma dir_ok_step s s' dp n k : fstep s s' [] (fview s) k -> dir_ok s dp n -> dir_ok s' dp n.
Proof. intros F [Hf Ht Hs]. constructor; auto. now apply (file_ok_step s s' dp n k). Qed.

Lemma dbytes_step s s' n k : fstep s s' [] (fview s) k -> forall o, dbytes s' n o = dbytes s n o.
Proof. intros F o. unfold dbytes. assert (V : veq (fview s') (fview s)) by exact (fp_view _ _ _ _ _ F). now rewrite V. Qed.

Lemma fstep_same_trans s1 s2 s3 : fstep s1 s2 [] (fview s1) 0 -> fstep s2 s3 [] (fview s2) 0 -> fstep s1 s3 [] (fview s1) 0.
Proof.
  intros F1 F2. apply (fstep_view _ _ _ (fview s2)); [exact (fstep_trans _ _ _ _ _ _ _ 0 0 F1 F2) | apply F1].
Qed.

Lemma fstep_refl s : ftxn s [] -> fstep s s [] (fview s) 0.
Proof. intros T. constructor; auto using fsame_refl. lia. Qed.

(** Reading entry [i]. *)
Lemma read_slot s dp n i : ftxn s [] -> dir_ok s dp n -> room s 1 -> (i < dcount n)%nat ->
  exists s', readi dev_read dp (16 * Z.of_nat i) 16 s = Ok (16, map (dbytes s n) (seqZ (16 * Z.of_nat i) 16)) s' /\ fstep s s' [] (fview s) 0.
Proof.
  intros T D R Hi. pose proof (dcount_size s dp n D) as Hs. pose proof (fo_size _ _ _ (do_file _ _ _ D)) as Hm. change (MAXFILE * BSIZE) with 71680 in Hm.
  destruct (readi_ok dev_read s dp n (16 * Z.of_nat i) 16 T (do_file _ _ _ D) R) as (s' & Run & F); try (unfold two32; lia).
  { now rewrite (do_type _ _ _ D). }
  exists s'. split; [|exact F]. rewrite Run. now rewrite Z.min_l by lia.
Qed.

Lemma dir_more s dp n i : dir_ok s dp n -> (16 * Z.of_nat i <? i_size n) = bool_decide (i < dcount n)%nat.
Proof.
  intros D. rewrite (dcount_size s dp n D). apply eq_true_iff_eq. rewrite Z.ltb_lt, bool_decide_eq_true. lia.
Qed.

Lemma dirlookup_loop_ok dp name n fuel : forall k i s, ftxn s [] -> dir_ok s dp n -> room s 1 -> (i + k = dcount n)%nat -> (k < fuel)%nat ->
  exists s', fstep s s' [] (fview s) 0 /\
    dirlookup_loop dev_read fuel dp name (16 * Z.of_nat i) s =
    match dir_find (cname name) (slots (dbytes s n) k i) with
    | None => Ok None s'
    | Some (j, inum) => (ip <- iget (i_dev n) inum ;; ret (Some (ip, 16 * Z.of_nat (i + j)))) s'
    end.
Proof.
  induction fuel as [|fuel IH]; intros k i s T D R Hk Hf; [lia|]. cbn [dirlookup_loop].
  rewrite (bind_ok _ _ _ _ _ (get_inode_ok s dp n (fo_lookup _ _ _ (do_file _ _ _ D)))), (dir_more s dp n i D).
  destruct k as [|k].
  { exists s. rewrite bool_decide_false by lia. auto using fstep_refl. }
  rewrite bool_decide_true by lia. destruct (read_slot s dp n i T D R ltac:(lia)) as (s1 & R1 & F1). rewrite (bind_ok _ _ _ _ _ R1).
  cbn [fst snd]. change (negb (16 =? 16)) with false. cbv iota zeta. pose proof (parse_slot (dbytes s n) i) as Hp. cbv zeta in Hp.
  change (slots (dbytes s n) (S k) i) with (slot (dbytes s n) i :: slots (dbytes s n) k (S i)). cbn [dir_find]. rewrite <- Hp. cbn [fst snd].
  rewrite namecmp_zero. set (de := parse_dirent _) in *. clearbody de.
  destruct (IH k (S i) s1 (fp_txn _ _ _ _ _ F1) (dir_ok_step _ _ _ _ _ F1 D)) as (s2 & F2 & R2); try lia.
  { apply (fstep_room s _ _ _ 0 _ F1 R). }
  rewrite (slots_ext _ (dbytes s n)) in R2 by exact (dbytes_step _ _ _ _ F1). replace (16 * Z.of_nat i + 16) with (16 * Z.of_nat (S i)) by lia.
  pose proof (fstep_same_trans _ _ _ F1 F2) as F12.
  destruct (de_inum de =? 0); cbn [negb andb]; [|destruct (bool_decide _)].
  2: { exists s1. split; [exact F1|]. now rewrite Nat.add_0_r. }
  all: exists s2; split; [exact F12|]; rewrite R2; destruct (dir_find _ _) as [[j inum]|]; cbn; now rewrite ?Nat.add_succ_r.
Qed.

Lemma dirlookup_ok dp name n s : ftxn s [] -> dir_ok s dp n -> room s 1 ->
  exists s', fstep s s' [] (fview s) 0 /\
    dirlookup dev_read dp name s =
    match dir_find (cname name) (dentries s n) with
    | None => Ok None s'
    | Some (j, inum) => (ip <- iget (i_dev n) inum ;; ret (Some (ip, 16 * Z.of_nat j))) s'
    end.
Proof.
  intros T D R. unfold dirlookup. rewrite (bind_ok _ _ _ _ _ (get_inode_ok s dp n (fo_lookup _ _ _ (do_file _ _ _ D)))).
  rewrite (do_type _ _ _ D). change (negb (T_DIR =? T_DIR)) with false. cbv iota. pose proof (dcount_size s dp n D).
  apply (dirlookup_loop_ok dp name n (S (Z.to_nat (i_size n))) (dcount n) 0 s); auto; lia.
Qed.

Lemma dirlink_loop_ok dp n fuel : forall k i s, ftxn s [] -> dir_ok s dp n -> room s 1 -> (i + k = dcount n)%nat -> (k < fuel)%nat ->
  exists s', fstep s s' [] (fview s) 0 /\
    dirlink_loop dev_read fuel dp (16 * Z.of_nat i) s = Ok (16 * Z.of_nat (i + dir_free (slots (dbytes s n) k i))) s'.
Proof.
  induction fuel as [|fuel IH]; intros k i s T D R Hk Hf; [lia|]. cbn [dirlink_loop].
  rewrite (bind_ok _ _ _ _ _ (get_inode_ok s dp n (fo_lookup _ _ _ (do_file _ _ _ D)))), (dir_more s dp n i D).
  destruct k as [|k].
  { exists s. rewrite bool_decide_false by lia. split; [now apply fstep_refl|]. cbn. now rewrite Nat.add_0_r. }
  rewrite bool_decide_true by lia. destruct (read_slot s dp n i T D R ltac:(lia)) as (s1 & R1 & F1). rewrite (bind_ok _ _ _ _ _ R1).
  cbn [fst snd]. change (negb (16 =? 16)) with false. cbv iota zeta. pose proof (f_equal fst (parse_slot (dbytes s n) i)) as Hp. cbn [fst] in Hp. rewrite Hp.
  change (slots (dbytes s n) (S k) i) with (slot (dbytes s n) i :: slots (dbytes s n) k (S i)). cbn [dir_free].
  destruct (fst (slot _ _) =? 0); [exists s1; split; [exact F1 | now rewrite Nat.add_0_r]|].
  destruct (IH k (S i) s1 (fp_txn _ _ _ _ _ F1) (dir_ok_step _ _ _ _ _ F1 D)) as (s2 & F2 & R2); try lia.
  { apply (fstep_room s _ _ _ 0 _ F1 R). }
  rewrite (slots_ext _ (dbytes s n)) in R2 by exact (dbytes_step _ _ _ _ F1). replace (16 * Z.of_nat i + 16) with (16 * Z.of_nat (S i)) by lia.
  exists s2. split; [exact (fstep_same_trans _ _ _ F1 F2)|]. rewrite R2. now rewrite Nat.add_succ_r.
Qed.

(** Overwriting one entry, or adding it at the end. *)
Lemma slots_place f f' k i e : (i <= k)%nat ->
  (forall o, 0 <= o < 16 * Z.of_nat i \/ 16 * Z.of_nat (S i) <= o < 16 * Z.of_nat (Nat.max k (S i)) -> f' o = f o) -> slot f' i = e ->
  slots f' (Nat.max k (S i)) 0 = take i (slots f k 0) ++ e :: drop (S i) (slots f k 0).
Proof.
  intros Hi E He. assert (Ek : k = (i + (k - i))%nat) by lia. rewrite Ek at 2. rewrite slots_app, take_app_length' by (symmetry; apply slots_length).
  replace (Nat.max k (S i)) with (i + S (k - S i))%nat by lia. rewrite slots_app. f_equal; [apply slots_frame; intros o Ho; apply E; lia|].
  change (slots f' (S (k - S i)) (0 + i)) with (slot f' i :: slots f' (k - S i) (S i)). rewrite He. f_equal.
  destruct (Nat.eq_dec k i) as [->|Hne].
  - rewrite drop_ge by (rewrite slots_length; lia). now replace (i - S i)%nat with 0%nat by lia.
  - rewrite Ek at 2. replace (i + (k - i))%nat with (S i + (k - S i))%nat by lia. rewrite slots_app, drop_app_length' by (symmetry; apply slots_length).
    apply slots_frame. intros o Ho. apply E. lia.
Qed.

Lemma touched_one i : blocks_touched (16 * Z.of_nat i) 16 = 1.
Proof. unfold blocks_touched, BSIZE. change (16 <=? 0) with false. cbv iota. Z.to_euclidean_division_equations. lia. Qed.

(** Writing entry [i] of a directory, [i] up to the number of entries. *)
Lemma write_slot s dp n i src : ftxn s [] -> bitmap_ok (fview s) (f_sb s) [] -> dir_ok s dp n -> room s 7 -> 2 <= frees (fview s) (f_sb s) ->
  (i <= dcount n)%nat -> 16 * Z.of_nat (S i) <= MAXFILE * BSIZE ->
  exists s' n', writei dev_write dp src (16 * Z.of_nat i) 16 s = Ok 16 s' /\ ftxn s' [] /\ fsame s s' /\ bitmap_ok (fview s') (f_sb s) [] /\ dir_ok s' dp n' /\
    f_icache s' = <[dp := n']> (f_icache s) /\ i_dev n' = i_dev n /\
    (forall e, (forall f, (forall o, 16 * Z.of_nat i <= o < 16 * Z.of_nat i + 16 -> f o = src (o - 16 * Z.of_nat i)) -> slot f i = e) ->
      dentries s' n' = take i (dentries s n) ++ e :: drop (S i) (dentries s n)) /\
    (forall b, datastart (f_sb s) <= b < sb_size (f_sb s) -> used (fview s) (f_sb s) b = true -> outside (fview s) (i_addrs n) b -> fview s' b = fview s b) /\
    flogged s <= flogged s' <= flogged s + 7.
Proof.
  intros T Bm D R Hfr Hi Hmax. pose proof (dcount_size s dp n D) as Hs.
  destruct (writei_ok dev_write s dp n src (16 * Z.of_nat i) 16 T Bm (do_file _ _ _ D)) as (s' & n' & Rw & T' & F' & Bm' & Hf' & I' & Sz' & Ty' & C' & Fr' & Lg');
    rewrite ?touched_one; try lia; [now rewrite (do_type _ _ _ D) | exact R|].
  rewrite touched_one in Lg'. assert (Es : i_size n' = Z.of_nat (Nat.max (dcount n) (S i)) * 16) by (rewrite Sz', Hs; clear; lia).
  assert (Ek : dcount n' = Nat.max (dcount n) (S i)) by (unfold dcount at 1; rewrite Es, Z.div_mul by lia; lia).
  exists s', n'. split_and!; auto; try lia.
  - constructor; [exact Hf' | rewrite Ty'; exact (do_type _ _ _ D) | rewrite Es; apply Z.divide_factor_r].
  - now rewrite Ty'.
  - intros e He. unfold dentries. rewrite Ek. pose proof (fo_size _ _ _ (do_file _ _ _ D)). apply slots_place; [exact Hi | |].
    + intros o Ho. unfold dbytes. rewrite C' by lia. destruct (Z.leb_spec (16 * Z.of_nat i) o), (Z.ltb_spec o (16 * Z.of_nat i + 16)); cbn [andb]; auto; lia.
    + apply He. intros o Ho. unfold dbytes. rewrite C', (proj2 (Z.leb_le _ o)), (proj2 (Z.ltb_lt o _)) by lia. reflexivity.
Qed.


Lemma dentries_length s n : length (dentries s n) = dcount n.
Proof. apply slots_length. Qed.

Lemma dentries_step s s' n k : fstep s s' [] (fview s) k -> dentries s' n = dentries s n.
Proof. intros F. apply slots_ext, (dbytes_step s s' n k F). Qed.

(** The blocks of other files. *)
Definition others_kept (s s' : fstate C) (n : inode) : Prop :=
  forall b, datastart (f_sb s) <= b < sb_size (f_sb s) -> used (fview s) (f_sb s) b = true -> outside (fview s) (i_addrs n) b -> fview s' b = fview s b.

(** What a change of a directory leaves behind. *)
Record dir_changed (s s' : fstate C) (dp : nat) (n n' : inode) (es : list (Z * list Z)) : Prop := {
  dc_txn : ftxn s' [];
  dc_bitmap : bitmap_ok (fview s') (f_sb s) [];
  dc_dir : dir_ok s' dp n';
  dc_icache : f_icache s' = <[dp := n']> (f_icache s);
  dc_entries : dentries s' n' = es;
  dc_others : others_kept s s' n;
  dc_logged : flogged s <= flogged s' <= flogged s + 7
}.

Lemma set_slot s s0 dp n i src e : ftxn s [] -> fstep s s0 [] (fview s) 0 -> bitmap_ok (fview s) (f_sb s) [] -> dir_ok s dp n -> room s 7 -> 2 <= frees (fview s) (f_sb s) ->
  (i <= dcount n)%nat -> 16 * Z.of_nat (S i) <= MAXFILE * BSIZE ->
  (forall f, (forall o, 16 * Z.of_nat i <= o < 16 * Z.of_nat i + 16 -> f o = src (o - 16 * Z.of_nat i)) -> slot f i = e) ->
  exists s' n', writei dev_write dp src (16 * Z.of_nat i) 16 s0 = Ok 16 s' /\
    dir_changed s s' dp n n' (take i (dentries s n) ++ e :: drop (S i) (dentries s n)).
Proof.
  intros T F Bm D R Hfr Hi Hmax He. assert (V : veq (fview s0) (fview s)) by exact (fp_view _ _ _ _ _ F).
  pose proof (fs_sb _ _ (fp_same _ _ _ _ _ F)) as S0.
  destruct (write_slot s0 dp n i src (fp_txn _ _ _ _ _ F)) as (s' & n' & Rw & T' & F' & Bm' & D' & I' & _ & E' & O' & L'); rewrite ?S0, ?V; auto.
  { now apply (dir_ok_step s s0 dp n 0). } { now apply (fstep_room s s0 [] (fview s) 0 7). }
  rewrite S0 in *. exists s', n'. split; [exact Rw|]. constructor; auto.
  - now rewrite I', (fp_icache _ _ _ _ _ F).
  - now rewrite (E' e He), (dentries_step s s0 n 0 F).
  - intros b Hb Hu Ho. rewrite <- (fp_view _ _ _ _ _ F b). apply O'; [exact Hb|now rewrite V|]. destruct Ho as [Ho1 Ho2]. split; [exact Ho1|].
    intros bn Hbn. rewrite V. now apply Ho2.
  - pose proof (fp_logged _ _ _ _ _ F). lia.
Qed.

Lemma dirlink_new s dp n name inum : ftxn s [] -> bitmap_ok (fview s) (f_sb s) [] -> dir_ok s dp n -> room s 7 -> 2 <= frees (fview s) (f_sb s) ->
  i_size n + 16 <= MAXFILE * BSIZE -> mem_ok name -> 0 <= inum < 65536 -> dir_find (cname name) (dentries s n) = None ->
  exists s' n', dirlink pid dev_read dev_write dp name inum s = Ok 0 s' /\ dir_changed s s' dp n n' (dir_place (dentries s n) (inum, cname name)).
Proof.
  intros T Bm D R Hfr Hmax Hm Hi Hn. destruct (dirlookup_ok dp name n s T D (room_weaken s 7 1 R ltac:(lia))) as (s1 & F1 & R1). rewrite Hn in R1.
  pose proof (dir_ok_step s s1 dp n 0 F1 D) as D1. pose proof (dcount_size s dp n D) as Hs.
  destruct (dirlink_loop_ok dp n (S (Z.to_nat (i_size n))) (dcount n) 0 s1 (fp_txn _ _ _ _ _ F1) D1) as (s2 & F2 & R2); try lia.
  { apply (fstep_room s s1 [] (fview s) 0 1 F1). apply (room_weaken _ _ _ R). lia. }
  change (slots (dbytes s1 n) (dcount n) 0) with (dentries s1 n) in R2. rewrite (dentries_step s s1 n 0 F1) in R2. cbn [Nat.add] in R2.
  pose proof (dir_free_le (dentries s n)) as Hf. rewrite dentries_length in Hf.
  destruct (set_slot s s2 dp n (dir_free (dentries s n)) (print_dirent (mkDe (u16 inum) (dirent_name (fun _ => 0) name))) (inum, cname name) T
    (fstep_same_trans _ _ _ F1 F2) Bm D R Hfr Hf) as (s3 & n3 & R3 & D3); [lia|intros f Hf'; now apply print_slot|].
  exists s3, n3. split; [|exact D3]. unfold dirlink. rewrite (bind_ok _ _ _ _ _ R1), (bind_ok _ _ _ _ _ (get_inode_ok s1 dp n (fo_lookup _ _ _ (do_file _ _ _ D1)))).
  change (16 * Z.of_nat 0) with 0 in R2. now rewrite (bind_ok _ _ _ _ _ R2), (bind_ok _ _ _ _ _ R3).
Qed.

(** Clearing an entry, as [sys_unlink] does. *)
Lemma clear_slot s dp n j x nm : ftxn s [] -> bitmap_ok (fview s) (f_sb s) [] -> dir_ok s dp n -> room s 7 -> 2 <= frees (fview s) (f_sb s) ->
  dir_find nm (dentries s n) = Some (j, x) ->
  exists s' n', writei dev_write dp (fun _ => 0) (16 * Z.of_nat j) 16 s = Ok 16 s' /\ dir_changed s s' dp n n' (<[j := (0, [])]> (dentries s n)).
Proof.
  intros T Bm D R Hfr F. apply dir_find_some in F as [L _]. pose proof (lookup_lt_Some _ _ _ L) as Hlt. pose proof (dcount_size s dp n D) as Hs.
  pose proof (fo_size _ _ _ (do_file _ _ _ D)) as Hm. rewrite insert_take_drop by exact Hlt. rewrite dentries_length in Hlt.
  apply (set_slot s s dp n j (fun _ => 0) (0, []) T (fstep_refl s T) Bm D R Hfr); [lia|lia|].
  intros f E. unfold slot, load16. rewrite !E by lia. cbn [cstr]. change (Z.to_nat DIRSIZ) with 14%nat. cbn [cstr]. now rewrite E by lia.
Qed.

(** [isdirempty] looks at the entries after the first two. *)
Lemma isdirempty_loop_ok dp n fuel : forall k i s, ftxn s [] -> dir_ok s dp n -> room s 1 -> (i + k = dcount n)%nat -> (k < fuel)%nat ->
  exists s', fstep s s' [] (fview s) 0 /\
    isdirempty_loop dev_read fuel dp (16 * Z.of_nat i) s = Ok (forallb (fun e => fst e =? 0) (slots (dbytes s n) k i)) s'.
Proof.
  induction fuel as [|fuel IH]; intros k i s T D R Hk Hf; [lia|]. cbn [isdirempty_loop].
  rewrite (bind_ok _ _ _ _ _ (get_inode_ok s dp n (fo_lookup _ _ _ (do_file _ _ _ D)))), (dir_more s dp n i D).
  destruct k as [|k].
  { exists s. rewrite bool_decide_false by lia. auto using fstep_refl. }
  rewrite bool_decide_true by lia. destruct (read_slot s dp n i T D R ltac:(lia)) as (s1 & R1 & F1). rewrite (bind_ok _ _ _ _ _ R1).
  cbn [fst snd]. change (negb (16 =? 16)) with false. cbv iota zeta. pose proof (f_equal fst (parse_slot (dbytes s n) i)) as Hp. cbn [fst] in Hp. rewrite Hp.
  change (slots (dbytes s n) (S k) i) with (slot (dbytes s n) i :: slots (dbytes s n) k (S i)). cbn [forallb]. unfold truth.
  destruct (fst (slot _ _) =? 0); [|exists s1; split; [exact F1|reflexivity]].
  destruct (IH k (S i) s1 (fp_txn _ _ _ _ _ F1) (dir_ok_step _ _ _ _ _ F1 D)) as (s2 & F2 & R2); try lia.
  { apply (fstep_room s _ _ _ 0 _ F1 R). }
  rewrite (slots_ext _ (dbytes s n)) in R2 by exact (dbytes_step _ _ _ _ F1). replace (16 * Z.of_nat i + 16) with (16 * Z.of_nat (S i)) by lia.
  exists s2. split; [exact (fstep_same_trans _ _ _ F1 F2)|exact R2].
Qed.

Lemma isdirempty_ok dp n s : ftxn s [] -> dir_ok s dp n -> room s 1 ->
  exists s', fstep s s' [] (fview s) 0 /\ isdirempty dev_read dp s = Ok (forallb (fun e => fst e =? 0) (drop 2 (dentries s n))) s'.
Proof.
  intros T D R. pose proof (get_inode_ok s dp n (fo_lookup _ _ _ (do_file _ _ _ D))) as Hg. pose proof (dcount_size s dp n D) as Hs.
  unfold isdirempty. rewrite (bind_ok _ _ _ _ _ Hg). destruct (le_lt_dec 2 (dcount n)) as [H2|H2].
  - destruct (isdirempty_loop_ok dp n (S (Z.to_nat (i_size n))) (dcount n - 2) 2 s T D R ltac:(lia) ltac:(lia)) as (s' & F & Run).
    exists s'. split; [exact F|]. assert (Ed : drop 2 (dentries s n) = slots (dbytes s n) (dcount n - 2) 2); [|rewrite Ed; exact Run].
    unfold dentries. replace (dcount n) with (2 + (dcount n - 2))%nat at 1 by lia. reflexivity.
  - exists s. split; [now apply fstep_refl|]. cbn [isdirempty_loop]. rewrite (bind_ok _ _ _ _ _ Hg), (proj2 (Z.ltb_ge _ _)), drop_ge by (rewrite ?dentries_length; lia). reflexivity.
Qed.

(** ** Names that are taken *)

(** [iput] of an entry that stays in use: the lock is taken and released, and one
    reference dropped. *)
Lemma iput_keeps ip n (s : fstate C) : f_icache s !! ip = Some n -> truth (Bio.sl_locked (i_lock n)) = false -> i_valid n = 0 \/ i_ref n <> 1 ->
  iput pid ip s = Ok tt (set_ic (<[ip := with_ref (i_ref n - 1) (with_ilock (Bio.mkSleep 0 0) n)]> (f_icache s)) s).
Proof.
  intros L Hl Hk. pose proof (lookup_lt_Some _ _ _ L) as Hlt. set (n1 := with_ilock (Bio.mkSleep 1 pid) n). set (n2 := with_ilock (Bio.mkSleep 0 0) n).
  assert (E1 : iacquire pid ip s = Ok tt (set_ic (<[ip := n1]> (f_icache s)) s)) by (unfold iacquire; now rewrite (bind_ok _ _ _ _ _ (get_inode_ok s ip n L)), Hl).
  set (s1 := set_ic _ s) in *. assert (L1 : f_icache s1 !! ip = Some n1) by now apply list_lookup_insert_eq.
  unfold iput. rewrite (bind_ok _ _ _ _ _ E1), (bind_ok _ _ _ _ _ (get_inode_ok s1 ip n1 L1)).
  assert ((truth (i_valid n1) && (i_nlink n1 =? 0) && (i_ref n1 =? 1)) = false) as ->.
  { change (i_valid n1) with (i_valid n). destruct Hk as [Hv|Hr]; [now rewrite (proj2 (truth_false _) Hv)|]. change (i_ref n1) with (i_ref n). rewrite (proj2 (Z.eqb_neq _ _) Hr). apply andb_false_r. }
  rewrite bind_ret. assert (E2 : irelease ip s1 = Ok tt (set_ic (<[ip := n2]> (f_icache s)) s)).
  { unfold irelease. rewrite (bind_ok _ _ _ _ _ (get_inode_ok s1 ip n1 L1)). unfold put_inode, modify, s1. cbn. now rewrite list_insert_insert_eq. }
  rewrite (bind_ok _ _ _ _ _ E2). set (s2 := set_ic _ s). assert (L2 : f_icache s2 !! ip = Some n2) by now apply list_lookup_insert_eq.
  rewrite (bind_ok _ _ _ _ _ (get_inode_ok s2 ip n2 L2)). unfold put_inode, modify, s2. cbn. now rewrite list_insert_insert_eq.
Qed.

(** The entry that [iget] returns is in use. *)
Lemma iget_kept dev inum (s : fstate C) ip s' : iget dev inum s = Ok ip s' -> exists n', f_icache s' !! ip = Some n' /\ (i_valid n' = 0 \/ i_ref n' <> 1) /\
  (forall b, fview s' b = fview s b) /\ f_sb s' = f_sb s /\ f_log s' = f_log s.
Proof.
  intros E. destruct (iget_ok dev inum s) as [[E' _]|(ip' & n & n' & E' & L & D)]; rewrite E in E'; [discriminate|]. injection E' as -> ->.
  exists n'. split; [cbn; apply list_lookup_insert_eq, (lookup_lt_Some _ _ _ L)|]. split; [|auto]. destruct D as [[[Hr _] ->]|(_ & _ & ->)]; [right; cbn; lia|now left].
Qed.

(** [dirlink] of a name that is taken: it fails, and leaves the blocks as they
    are; but when the inode of the name is locked, the process waits for the lock,
    for ever if it holds it itself. *)
Lemma dirlink_taken dp name inum n (s : fstate C) ip off s1 : dirlookup dev_read dp name s = Ok (Some (ip, off)) s1 -> ftxn s [] -> dir_ok s dp n -> room s 1 ->
  exists n1, f_icache s1 !! ip = Some n1 /\ (forall b, fview s1 b = fview s b) /\
    dirlink pid dev_read dev_write dp name inum s =
    if truth (Bio.sl_locked (i_lock n1)) then Fault "acquiresleep: sleeps forever"
    else Ok (-1) (set_ic (<[ip := with_ref (i_ref n1 - 1) (with_ilock (Bio.mkSleep 0 0) n1)]> (f_icache s1)) s1).
Proof.
  intros E T D R. destruct (dirlookup_ok dp name n s T D R) as (s0 & F & E0). rewrite E in E0.
  destruct (dir_find _ _) as [[j x]|]; [|discriminate]. symmetry in E0. apply bind_inv_ok in E0 as (ip' & s1' & Eg & E0). injection E0 as -> _ ->.
  destruct (iget_kept _ _ _ _ _ Eg) as (n1 & L & Hk & Hv & _). exists n1. split; [exact L|]. split; [intros b; rewrite Hv; apply (fp_view _ _ _ _ _ F)|].
  unfold dirlink. rewrite (bind_ok _ _ _ _ _ E). destruct (truth _) eqn:Hl.
  - unfold iput, iacquire. rewrite bind_assoc. unfold bind at 1. rewrite (bind_ok _ _ _ _ _ (get_inode_ok s1 ip n1 L)), Hl. reflexivity.
  - now rewrite (bind_ok _ _ _ _ _ (iput_keeps ip n1 s1 L Hl Hk)).
Qed.

(** ** Properties *)

(** C6: A directory is a map from names to inode numbers.  [dirlookup] finds the
    entry of a name; [dirlink] of a new name adds it to the map and leaves the other
    names as they were; writing zeroes over the entry of a name, as [sys_unlink]
    does, removes it; [isdirempty] tells whether there are entries after the first
    two.  The changes keep the names of the used entries different, the invariants
    of the directory's file and of the bitmap, and the blocks of all other files. *)
Theorem directory_is_map (s : fstate C) dp n name inum : ftxn s [] -> bitmap_ok (fview s) (f_sb s) [] -> dir_ok s dp n -> dir_wf (dentries s n) ->
  room s 7 -> 2 <= frees (fview s) (f_sb s) -> i_size n + 16 <= MAXFILE * BSIZE -> mem_ok name -> 0 < inum < 65536 ->
  let es := dentries s n in
  (exists s1, fstep s s1 [] (fview s) 0 /\ dirlookup dev_read dp name s =
     match dir_find (cname name) es with
     | None => Ok None s1
     | Some (j, x) => (ip <- iget (i_dev n) x ;; ret (Some (ip, 16 * Z.of_nat j))) s1
     end) /\
  (dir_get es (cname name) = None ->
     exists s' n' es', dirlink pid dev_read dev_write dp name inum s = Ok 0 s' /\ dir_changed s s' dp n n' es' /\ dir_wf es' /\
       forall nm, dir_get es' nm = if decide (nm = cname name) then Some inum else dir_get es nm) /\
  (forall j x, dir_find (cname name) es = Some (j, x) ->
     exists s' n' es', writei dev_write dp (fun _ => 0) (16 * Z.of_nat j) 16 s = Ok 16 s' /\ dir_changed s s' dp n n' es' /\ dir_wf es' /\
       forall nm, dir_get es' nm = if decide (nm = cname name) then None else dir_get es nm) /\
  (exists s1, fstep s s1 [] (fview s) 0 /\ isdirempty dev_read dp s = Ok (forallb (fun e => fst e =? 0) (drop 2 es)) s1).
Proof.
  intros T Bm D W R Hfr Hmax Hm Hi es. pose proof (room_weaken s 7 1 R ltac:(lia)) as R1. split_and!.
  - now apply dirlookup_ok.
  - intros Hn. assert (Hf : dir_find (cname name) es = None) by now apply fmap_None in Hn.
    destruct (dirlink_new s dp n name inum T Bm D R Hfr Hmax Hm ltac:(lia) Hf) as (s' & n' & Run & Ch).
    exists s', n', (dir_place es (inum, cname name)). split_and!; auto; [now apply dir_wf_place|]. intros nm. apply dir_get_place; [lia|exact Hn].
  - intros j x Hf. destruct (clear_slot s dp n j x (cname name) T Bm D R Hfr Hf) as (s' & n' & Run & Ch).
    exists s', n', (<[j := (0, [])]> es). split_and!; auto; [now apply dir_wf_clear|]. intros nm. now apply (dir_get_clear (cname name) es j x).
  - now apply isdirempty_ok.
Qed.

(** Linking a name that a directory has for itself never returns.  When the
    name is in the directory and its inode is the directory, as for [.], [dirlink]
    called with the directory locked, as [sys_link] calls it, finds the directory's
    own entry of the inode cache, and the [iput] before its return -1 waits for the
    lock that the caller holds. *)
Theorem link_dot_deadlocks (s : fstate C) dp n name inum j : ftxn s [] -> dir_ok s dp n -> room s 1 ->
  dir_find (cname name) (dentries s n) = Some (j, i_inum n) -> 0 < i_ref n -> truth (Bio.sl_locked (i_lock n)) = true ->
  (forall k m, f_icache s !! k = Some m -> live (i_dev n) (i_inum n) m -> k = dp) ->
  dirlink pid dev_read dev_write dp name inum s = Fault "acquiresleep: sleeps forever".
Proof.
  intros T D R Hf Hr Hl Hu. pose proof (fo_lookup _ _ _ (do_file _ _ _ D)) as L. destruct (dirlookup_ok dp name n s T D R) as (s0 & F & E0).
  rewrite Hf in E0. assert (Hlive : live (i_dev n) (i_inum n) n) by (split; [exact Hr|auto]).
  pose proof (fp_icache _ _ _ _ _ F) as Ic. destruct (iget_ok (i_dev n) (i_inum n) s0) as [[_ Hno]|(ip & m & m' & Eg & Lm & Dm)].
  { rewrite Ic in Hno. now destruct (Hno dp n L). }
  rewrite Ic in Lm. destruct Dm as [[Hm ->]|(_ & Hno & _)]; [|rewrite Ic in Hno; now destruct (Hno dp n L)].
  pose proof (Hu ip m Lm Hm) as ->. rewrite L in Lm. injection Lm as <-.
  set (s1 := set_ic (<[dp := with_ref (i_ref n + 1) n]> (f_icache s0)) s0) in *. rewrite (bind_ok _ _ _ _ _ Eg) in E0.
  destruct (dirlink_taken dp name inum n s dp _ s1 E0 T D R) as (n1 & L1 & _ & ->).
  cbn in L1. rewrite Ic, list_lookup_insert_eq in L1 by exact (lookup_lt_Some _ _ _ L). injection L1 as <-. cbn. now rewrite Hl.
Qed.
End Dir.

(** ** A small directory

    As the file of [Inode], with the entries [.] and [..] in block 35. *)

Definition sample_entries : block := fun i => if (i =? 0) || (i =? 16) then 1 else if (i =? 2) || (i =? 18) || (i =? 19) then 46 else 0.
Definition sample_root_disk : Z -> block := upd (upd sample_disk 34 sample_bitmap) 35 sample_entries.
Definition sample_root : inode := mkInode 1 1 1 (Bio.mkSleep 1 7) 1 T_DIR 0 0 1 32 (upd (fun _ => 0) 0 35).
Definition sample_root_fs : fstate Bio.bstate :=
  mkF (mkL (set_outstanding 1 sample_log) (Bio.binit sample_root_disk 100)) sample_fs_sb [sample_root].

#[local] Instance sample_cache : BlockCache Bio.bstate := bio_cache 7.
#[local] Instance sample_spec : CacheSpec Bio.bstate := bio_spec 7.
#[local] Instance sample_ok : BlockCacheOk Bio.bstate := bio_ok 7.

Lemma sample_root_view : veq (fview sample_root_fs) sample_root_disk.
Proof. intros b. apply (Bio.binit_spec 7). Qed.

Lemma sample_root_ftxn : ftxn sample_root_fs [].
Proof.
  constructor; [|cbn; lia | exact sample_layout].
  apply (txn_outstanding sample_log (Bio.binit sample_root_disk 100) [] ∅ 1 0).
  assert (Ok : disk_ok 2 30 100 sample_root_disk) by (apply (disk_ok_ext 2 30 100 sample_disk); [exact sample_disk_ok | reflexivity | reflexivity]).
  exact (boot_txn 2 30 100 sample_root_disk (fun _ => 0) Ok eq_refl).
Qed.

Lemma sample_root_bitmap : bitmap_ok (fview sample_root_fs) sample_fs_sb [].
Proof.
  rewrite sample_root_view. constructor; [|intros b Hb; now apply not_elem_of_nil in Hb]. intros b Hb.
  assert (Hall : forallb (used sample_root_disk sample_fs_sb) (seqZ 0 35) = true) by (vm_compute; reflexivity).
  rewrite forallb_forall in Hall. apply Hall, list_elem_of_In, elem_of_seqZ. change (datastart sample_fs_sb) with 35 in Hb. lia.
Qed.

Lemma sample_root_ok : dir_ok sample_root_fs 0 sample_root.
Proof.
  constructor; [|reflexivity|exists 2; reflexivity].
  constructor; cbn [f_icache f_sb sample_root_fs sample_root i_addrs i_size i_inum]; [reflexivity | | vm_compute; split; discriminate | | vm_compute; split; [discriminate | reflexivity]].
  - constructor.
    + left. reflexivity.
    + intros bn Hbn. rewrite !sample_faddr. destruct (bn =? 0); [|now left]. right. rewrite sample_root_view. vm_compute. intuition discriminate.
    + intros bn bn' _ _. rewrite !sample_faddr. destruct (Z.eqb_spec bn 0), (Z.eqb_spec bn' 0); lia.
  - intros bn H1 H2. rewrite sample_faddr. unfold BSIZE in H2. assert (bn = 0) as -> by lia. discriminate.
Qed.

Lemma sample_root_entries : dentries sample_root_fs sample_root = [(1, [46]); (1, [46; 46])].
Proof.
  unfold dentries. rewrite (slots_ext _ (content sample_root_disk (i_addrs sample_root))); [vm_compute; reflexivity|].
  intros o. unfold dbytes. now rewrite sample_root_view.
Qed.

Lemma sample_root_wf : dir_wf (dentries sample_root_fs sample_root).
Proof.
  rewrite sample_root_entries. intros [|[|i]] [|[|j]] e e' Li Lj; cbn in Li, Lj; try discriminate; injection Li as <-; injection Lj as <-; auto; discriminate.
Qed.

(** Linking the name [a]. *)
Lemma directory_is_map_witness : exists s' n' es', dirlink 7 no_dev_read no_dev_write 0 (buffer [97]) 5 sample_root_fs = Ok 0 s' /\
  dir_changed sample_root_fs s' 0 sample_root n' es' /\ dir_get es' [97] = Some 5 /\ dir_get es' [46] = Some 1.
Proof.
  destruct (directory_is_map 7 no_dev_read no_dev_write sample_root_fs 0 sample_root (buffer [97]) 5 sample_root_ftxn sample_root_bitmap sample_root_ok sample_root_wf)
    as (_ & Hlink & _).
  - split; vm_compute; (reflexivity || discriminate).
  - cbn [f_sb sample_root_fs]. rewrite sample_root_view. vm_compute. discriminate.
  - vm_compute. discriminate.
  - intros a. unfold buffer. destruct (a <? 0); [lia|]. destruct (Z.to_nat a) as [|[|k]]; cbn; lia.
  - lia.
  - destruct Hlink as (s' & n' & es' & Run & Ch & _ & Get); [now rewrite sample_root_entries|].
    exists s', n', es'. rewrite !Get, sample_root_entries. split_and!; auto; reflexivity.
Defined.

Lemma link_dot_deadlocks_witness : dirlink 7 no_dev_read no_dev_write 0 (buffer [46]) 5 sample_root_fs = Fault "acquiresleep: sleeps forever".
Proof.
  apply (link_dot_deadlocks 7 no_dev_read no_dev_write sample_root_fs 0 sample_root (buffer [46]) 5 0 sample_root_ftxn sample_root_ok).
  - split; vm_compute; (reflexivity || discriminate).
  - now rewrite sample_root_entries.
  - reflexivity.
  - reflexivity.
  - intros [|k] m Lk; [auto|discriminate].
Defined.
