(* ===== verification/Exec.v ===== *)
(** Loading a program: [src/xv6/xv6-public/exec.c], [loaduvm] of [vm.c] and the
    formats of [elf.h].

    [exec] works on the kernel's memory and the file system ([xstate]); the
    process is at the address [pr], its trap frame at [tf].  The argument strings
    are given by their characters, as [sys_exec] found them in the memory of the
    old program. *)

From stdpp Require Import gmap.
From S2P Require Import Prelude Mem Mmu Spinlock Kalloc PageTable Uvm Kvm Lazy Pipe Block Bio Log Txn Fs File Syscall Sysfile.

Definition ELF_MAGIC : Z := 0x464C457F.
Definition ELF_PROG_LOAD : Z := 1.

Record elfhdr := mkElf {
  elf_magic : Z; elf_elf : Z -> Z; elf_type : Z; elf_machine : Z; elf_version : Z; elf_entry : Z; elf_phoff : Z; elf_shoff : Z;
  elf_flags : Z; elf_ehsize : Z; elf_phentsize : Z; elf_phnum : Z; elf_shentsize : Z; elf_shnum : Z; elf_shstrndx : Z }.
Definition elf_size : Z := 52.
Definition parse_elf (b : Z -> Z) : elfhdr :=
  mkElf (load32 b 0) (fun i => b (4 + i)) (load16 b 16) (load16 b 18) (load32 b 20) (load32 b 24) (load32 b 28) (load32 b 32)
        (load32 b 36) (load16 b 40) (load16 b 42) (load16 b 44) (load16 b 46) (load16 b 48) (load16 b 50).

Record proghdr := mkPh {
  ph_type : Z; ph_off : Z; ph_vaddr : Z; ph_paddr : Z; ph_filesz : Z; ph_memsz : Z; ph_flags : Z; ph_align : Z }.
Definition ph_size : Z := 32.
Definition parse_ph (b : Z -> Z) : proghdr :=
  mkPh (load32 b 0) (load32 b 4) (load32 b 8) (load32 b 12) (load32 b 16) (load32 b 20) (load32 b 24) (load32 b 28).

(** Offsets of [eip] and [esp] in the trap frame. *)
Definition tf_eip : Z := 56.
Definition tf_esp : Z := 68.

(** ** The arguments on the new stack *)

(** [sp = (sp - (strlen(arg) + 1)) & ~3] *)
Definition arg_sp (sp : Z) (arg : list Z) : Z := Z.land (u32 (sp - (Z.of_nat (length arg) + 1))) (Z.lnot 3).

(** The words of [ustack], for the addresses of the strings. *)
Definition ustack (sp : Z) (sps : list Z) : list Z :=
  let argc := Z.of_nat (length sps) in
  [0xffffffff; argc; u32 (sp - (argc + 1) * 4)] ++ sps ++ [0].

(** Words as bytes. *)
Definition word_bytes (w : Z) : list Z := [u8 w; u8 (w / 256); u8 (w / 65536); u8 (w / 16777216)].

(** [for(last=s=path; *s; s++) if [*s == '/'] last = s+1;] *)
Fixpoint last_elem (last s : list Z) : list Z :=
  match s with
  | [] => last
  | c :: s => last_elem (if c =? 47 then s else last) s
  end.

(** The bytes of a structure that [readi] has filled. *)
Definition chars (l : list Z) : Z -> Z := fun i => u8 (buffer l i).

Section Exec.
Context `{Linker}.
Context {C : Type} `{BlockCache C}.
Variable pid : Z.
Variable dev_read : Z -> option (nat -> Z -> M (fstate C) (Z * list Z)).
Variables pr tf : Z.

Abbreviation X := (M (xstate C)).

(** [readi] into the kernel's memory at [dst]. *)
Definition readi_to (ip : nat) (dst off n : Z) : X Z :=
  r <- on_fs (readi dev_read ip off n) ;;
  on_pages (modify (fun k => set_mem (store_bytes (km_mem k) dst (snd r)) k)) ;;;
  ret (fst r).

Fixpoint loaduvm_loop (fuel : nat) (pgdir addr : Z) (ip : nat) (offset sz i : Z) : X Z :=
  match fuel with
  | O => nofuel
  | S fuel =>
      if i <? sz then
        pte <- on_pages (walkpgdir pgdir (u32 (addr + i)) false) ;;
        if pte =? 0 then panic "loaduvm: address should exist" else
        v <- on_pages (rd32 pte) ;;
        let n := if sz - i <? PGSIZE then sz - i else PGSIZE in
        r <- readi_to ip (P2V (PTE_ADDR v)) (u32 (offset + i)) n ;;
        if negb (r =? n) then ret (-1) else loaduvm_loop fuel pgdir addr ip offset sz (u32 (i + PGSIZE))
      else ret 0
  end.

Definition loaduvm (pgdir addr : Z) (ip : nat) (offset sz : Z) : X Z :=
  if truth (addr mod PGSIZE) then panic "loaduvm: addr must be page aligned"
  else loaduvm_loop (Z.to_nat (sz / PGSIZE + 2)) pgdir addr ip offset sz 0.

(** [copyout] of bytes that do not lie in the kernel's page pool: the strings of
    the old program and [ustack]. *)
Fixpoint copyout_bytes (fuel : nat) (pgdir va : Z) (l : list Z) : M kmem Z :=
  match fuel with
  | O => nofuel
  | S k =>
      if negb (0 <? Z.of_nat (length l)) then ret 0 else
      let va0 := PGROUNDDOWN va in
      pa0 <- uva2ka pgdir va0 ;;
      if pa0 =? 0 then ret (-1) else
      let n := PGSIZE - (va - va0) in
      let n := if Z.of_nat (length l) <? n then Z.of_nat (length l) else n in
      modify (fun s => set_mem (store_bytes (km_mem s) (pa0 + (va - va0)) (take (Z.to_nat n) l)) s) ;;;
      copyout_bytes k pgdir (u32 (va0 + PGSIZE)) (drop (Z.to_nat n) l)
  end.

(** A byte list takes at most one round per page it touches. *)
Definition copyout_list (pgdir va : Z) (l : list Z) : X Z :=
  on_pages (copyout_bytes (S (S (length l))) pgdir va l).

(** The loop over the program headers; [None] for [goto bad]. *)
Fixpoint load_segments (k : nat) (pgdir : Z) (ip : nat) (off sz : Z) : X (option Z) :=
  match k with
  | O => ret (Some sz)
  | S k =>
      r <- on_fs (readi dev_read ip off ph_size) ;;
      if negb (fst r =? ph_size) then ret None else
      let ph := parse_ph (chars (snd r)) in
      if negb (ph_type ph =? ELF_PROG_LOAD) then load_segments k pgdir ip (u32 (off + ph_size)) sz else
      if ph_memsz ph <? ph_filesz ph then ret None else
      if u32 (ph_vaddr ph + ph_memsz ph) <? ph_vaddr ph then ret None else
      sz' <- on_pages (allocuvm pgdir sz (u32 (ph_vaddr ph + ph_memsz ph))) ;;
      if sz' =? 0 then ret None else
      if truth (ph_vaddr ph mod PGSIZE) then ret None else
      l <- loaduvm pgdir (ph_vaddr ph) ip (ph_off ph) (ph_filesz ph) ;;
      if l <? 0 then ret None else load_segments k pgdir ip (u32 (off + ph_size)) sz'
  end.

(** The loop that pushes the argument strings: the stack pointer after it and
    the addresses in [ustack]. *)
Fixpoint push_args (k : nat) (pgdir sp : Z) (argv : list (list Z)) : X (option (Z * list Z)) :=
  match argv with
  | [] => ret (Some (sp, []))
  | a :: argv =>
      match k with
      | O => ret None
      | S k =>
          let sp := arg_sp sp a in
          r <- copyout_list pgdir sp (a ++ [0]) ;;
          if r <? 0 then ret None else
          rest <- push_args k pgdir sp argv ;;
          ret (match rest with Some (sp', l) => Some (sp', sp :: l) | None => None end)
      end
  end.

(** From the end of the loading to the commit: the new [sz] and stack pointer. *)
Definition exec_stack (pgdir sz : Z) (argv : list (list Z)) : X (option (Z * Z)) :=
  let sz := PGROUNDUP sz in
  sz <- on_pages (allocuvm pgdir sz (u32 (sz + 2 * PGSIZE))) ;;
  if sz =? 0 then ret None else
  on_pages (clearpteu pgdir (u32 (sz - 2 * PGSIZE))) ;;;
  r <- push_args MAXARG pgdir sz argv ;;
  match r with
  | None => ret None
  | Some (sp, sps) =>
      let us := ustack sp sps in
      let sp := u32 (sp - 4 * Z.of_nat (length us)) in
      w <- copyout_list pgdir sp (concat (map word_bytes us)) ;;
      ret (if w <? 0 then None else Some (sz, sp))
  end.

(** [bad]: with the inode still locked in a transaction, or without. *)
Definition exec_bad (pgdir : Z) (ip : option nat) : X Z :=
  (if truth pgdir then on_pages (freevm pgdir) else ret tt) ;;;
  (match ip with Some ip => on_fs (iunlockput pid ip) ;;; fs_end | None => ret tt end) ;;;
  ret (-1).

(** [exec]; on success also the last element of the path, for [name].  The
    [switchuvm] before [freevm] loads the new directory. *)
Definition exec (cwd : nat) (path : list Z) (argv : list (list Z)) : X (Z * option (list Z)) :=
  fs_begin ;;;
  r <- on_fs (namei pid dev_read cwd path) ;;
  match r with
  | None => fs_end ;;; ret (-1, None)
  | Some ip =>
      on_fs (ilock pid ip) ;;;
      h <- on_fs (readi dev_read ip 0 elf_size) ;;
      let elf := parse_elf (chars (snd h)) in
      if negb (fst h =? elf_size) || negb (elf_magic elf =? ELF_MAGIC) then b <- exec_bad 0 (Some ip) ;; ret (b, None) else
      pgdir <- on_pages setupkvm ;;
      if pgdir =? 0 then b <- exec_bad 0 (Some ip) ;; ret (b, None) else
      l <- load_segments (Z.to_nat (elf_phnum elf)) pgdir ip (elf_phoff elf) 0 ;;
      match l with
      | None => b <- exec_bad pgdir (Some ip) ;; ret (b, None)
      | Some sz =>
          on_fs (iunlockput pid ip) ;;;
          fs_end ;;;
          st <- exec_stack pgdir sz argv ;;
          match st with
          | None => b <- exec_bad pgdir None ;; ret (b, None)
          | Some (sz, sp) =>
              oldpgdir <- on_pages (rd32 (pr + P_pgdir)) ;;
              on_pages (wr32 (pr + P_pgdir) pgdir) ;;;
              on_pages (wr32 (pr + P_sz) sz) ;;;
              on_pages (wr32 (tf + tf_eip) (elf_entry elf)) ;;;
              on_pages (wr32 (tf + tf_esp) sp) ;;;
              on_pages (freevm oldpgdir) ;;;
              ret (0, Some (last_elem path path))
          end
      end
  end.

(** [sys_exec]. *)
Definition sys_exec (cwd : nat) (v : uview) : X (Z * option (list Z)) :=
  match sys_exec_args v with
  | None => ret (-1, None)
  | Some (path, argv) => exec cwd path argv
  end.

End Exec.
