(* ===== verification/Irefs.v ===== *)
(** References to inodes across system calls: [src/xv6/xv6-public/file.c],
    [sysfile.c] and [exec.c].

    The [ref] field of an entry of the inode cache is the number of open files and
    of current directories that refer to it, and no inode is locked between system
    calls.  Every call of [Sysfile], and [exec], keeps this on every path. *)

From stdpp Require Import gmap.
From S2P Require Import Prelude Mem Mmu Spinlock Kalloc PageTable Uvm Kvm Lazy Pipe Block Bio Log Txn Fs Balloc Inode Icache File Syscall Sysfile Refs Exec.

(** The references of an open file, and of all of them. *)
Definition hold (f : file) (k : ikey) : Z := match fl_type f with FD_INODE => unit_of (Ref (fl_ip f)) k | _ => 0 end.

Fixpoint holders (l : list file) (k : ikey) : Z := match l with [] => 0 | f :: l => hold f k + holders l k end.

Lemma holders_alter l i f g k : l !! i = Some f -> holders (alter g i l) k = holders l k - hold f k + hold (g f) k.
Proof.
  revert i; induction l as [|x l IH]; intros [|i] L; try discriminate.
  - injection L as ->. cbn. lia.
  - change (alter g (S i) (x :: l)) with (x :: alter g i l). cbn [holders]. rewrite (IH i L). lia.
Qed.

(** No inode is locked, and the references to inodes are those of the open files,
    and of the directories [cwds]. *)
Definition icounted {C} (x : xstate C) (cwds : list nat) : Prop :=
  tidy (x_files x) /\
  (forall j, ibal (f_icache (x_fs x)) (Ref j) = holders (x_files x) (Ref j) + count j (map Some cwds)) /\
  (forall j, ibal (f_icache (x_fs x)) (Lck j) = 0).

Section Irefs.
Context `{Linker}.
Context {C : Type} `{BlockCache C}.
Variable pid : Z.
Variable killed : bool.
Variable dev_read : Z -> option (nat -> Z -> M (fstate C) (Z * list Z)).
Variable dev_write : Z -> option (nat -> (Z -> Z) -> Z -> M (fstate C) Z).

Abbreviation ishifts := (ledger (fun _ : fstate C => True) (fun s => ibal (f_icache s))).
Abbreviation still := (fun _ _ => 0).

Hypothesis dev_read_still : forall major f ip n, dev_read major = Some f -> ishifts (f ip n) still.
Hypothesis dev_write_still : forall major f ip src n, dev_write major = Some f -> ishifts (f ip src n) still.

(** ** Open files *)

(** The references that the open files do not account for. *)
Definition xbal (s : xstate C) (k : ikey) : Z := ibal (f_icache (x_fs s)) k - holders (x_files s) k.

Abbreviation shifts := (ledger (fun s : xstate C => tidy (x_files s)) (fun s j => refs (x_files s) j)).
Abbreviation xshifts := (ledger (fun s : xstate C => tidy (x_files s)) xbal).

Lemma x_fs_shifts {A} (m : M (fstate C) A) d : ishifts m d -> xshifts (on_fs m) d.
Proof.
  intros Hm s a s' E T. unfold on_fs, zoom in E. destruct (m (x_fs s)) as [b v| | |] eqn:Em; try discriminate. injection E as <- <-.
  split; [exact T|]. intros k. unfold xbal. cbn. rewrite (proj2 (Hm _ _ _ Em I)). lia.
Qed.

(** What the references to files say about the table of files, see [Refs]. *)
Lemma x_still {A} (m : M (xstate C) A) d : shifts m d -> (forall s a s', m s = Ok a s' -> tidy (x_files s) -> forall k, xbal s' k = xbal s k) -> xshifts m still.
Proof. intros Hs Hm s a s' E T. split; [apply (Hs _ _ _ E T)|]. intros k. rewrite (Hm _ _ _ E T). lia. Qed.

Lemma x_pages_still {A} (m : M kmem A) : xshifts (on_pages m) still.
Proof. apply (x_still _ _ (shifts_pages m)). intros s b s' E. unfold on_pages, zoom in E. destruct (m _); try discriminate. now injection E as <- <-. Qed.
Lemma x_pipes_still g : xshifts (put_pipes g) still.
Proof. apply (x_still _ _ (shifts_pipes g)). intros s b s' E. now injection E as <- <-. Qed.
Lemma x_get_pipe_still p : xshifts (get_pipe p) still.
Proof. apply (x_still _ _ (shifts_get_pipe p)). intros s b s' E. unfold get_pipe in E. destruct (_ !! _); [now injection E as <- <-|discriminate]. Qed.

Lemma get_file_inv i (s : xstate C) f s' : get_file i s = Ok f s' -> s' = s /\ x_files s !! i = Some f.
Proof. unfold get_file. destruct (_ !! _); [|discriminate]. intros [= <- <-]. auto. Qed.

Lemma x_get_file_still i : xshifts (get_file i) still.
Proof. apply (x_still _ _ (shifts_get_file i)). intros s b s' E. now apply get_file_inv in E as [-> _]. Qed.

Lemma xbal_upd i g f (s : xstate C) u s' : upd_file i g s = Ok u s' -> x_files s !! i = Some f -> forall k, xbal s' k = xbal s k + hold f k - hold (g f) k.
Proof. intros E L k. injection E as <- <-. unfold xbal. cbn. rewrite (holders_alter _ _ f) by exact L. lia. Qed.

Lemma xbal_upd_same i g (s : xstate C) u s' : upd_file i g s = Ok u s' -> (forall f, x_files s !! i = Some f -> forall k, hold (g f) k = hold f k) ->
  forall k, xbal s' k = xbal s k.
Proof.
  intros E Hg k. destruct (x_files s !! i) as [f|] eqn:L; [rewrite (xbal_upd _ _ _ _ _ _ E L), (Hg f eq_refl); lia|].
  injection E as <- <-. unfold xbal. cbn. now rewrite alter_out.
Qed.

Lemma x_field_still i g : (forall f, fl_ref (g f) = fl_ref f /\ fl_type (g f) = fl_type f) -> (forall f, fl_ip (g f) = fl_ip f) -> xshifts (upd_file i g) still.
Proof.
  intros G Gi. apply (x_still _ _ (shifts_field i g G)). intros s b s' E _. apply (xbal_upd_same i g _ _ _ E). intros f _ k. unfold hold.
  now rewrite (proj2 (G f)), Gi.
Qed.

#[local] Hint Resolve x_fs_shifts x_pages_still x_pipes_still x_get_pipe_still x_get_file_still ishifts_onlog ishifts_get ishifts_set_last : ledger.
#[local] Hint Resolve iupdate_still readi_still writei_still ilock_shifts iunlock_shifts : ledger.

Lemma x_begin_still : xshifts fs_begin still.
Proof. unfold fs_begin. still. Qed.
Lemma x_end_still : xshifts fs_end still.
Proof. apply x_fs_shifts, ishifts_onlog. Qed.
#[local] Hint Resolve x_begin_still x_end_still : ledger.

(** A new file has no inode. *)
Lemma filealloc_fresh (s : xstate C) i s' : filealloc s = Ok (Some i) s' -> tidy (x_files s) -> exists f, x_files s' !! i = Some f /\ fl_type f = FD_NONE /\ fl_ref f = 1.
Proof.
  intros E T. unfold filealloc in E. apply bind_inv_ok in E as (l & s1 & E1 & E). injection E1 as <- <-.
  destruct (free_file (x_files s) 0) as [i'|] eqn:Fr; [|discriminate]. apply free_file_some in Fr as (_ & f & L & R). rewrite Nat.sub_0_r in L.
  apply bind_inv_ok in E as (u & s2 & E2 & E). injection E2 as <- <-. injection E as -> <-. exists (with_fref 1 f). cbn.
  rewrite list_lookup_alter, decide_True, L by reflexivity. split; [reflexivity|]. split; [exact (proj2 (T _ _ L) R)|reflexivity].
Qed.

Lemma filealloc_still : xshifts filealloc still.
Proof.
  apply (x_still _ _ filealloc_shifts). intros s r s' E T k. unfold filealloc in E. apply bind_inv_ok in E as (l & s1 & E1 & E). injection E1 as <- <-.
  destruct (free_file (x_files s) 0) as [i|]; [|now injection E as <- <-]. apply bind_inv_ok in E as (u & s2 & E2 & E). injection E as <- <-.
  exact (xbal_upd_same _ _ _ _ _ E2 (fun _ _ _ => eq_refl) k).
Qed.

Lemma filedup_still i : xshifts (filedup i) still.
Proof.
  apply (x_still _ _ (filedup_shifts i)). intros s r s' E T k. unfold filedup in E. apply bind_inv_ok in E as (f & s1 & E1 & E).
  apply get_file_inv in E1 as [-> L]. destruct (_ <? 1); [discriminate|]. apply bind_inv_ok in E as (u & s2 & E2 & E). injection E as <- <-.
  exact (xbal_upd_same _ _ _ _ _ E2 (fun _ _ _ => eq_refl) k).
Qed.

(** Closing a file for the last time drops its reference to the inode. *)
Lemma fileclose_still i : xshifts (fileclose pid i) still.
Proof.
  apply (x_still _ _ (fileclose_shifts pid i)). intros s r s' E T k. unfold fileclose in E. apply bind_inv_ok in E as (f & s1 & E1 & E).
  apply get_file_inv in E1 as [-> L]. destruct (fl_ref f <? 1) eqn:R; [discriminate|]. bool_prop. apply bind_inv_ok in E as (u & s1 & E1 & E).
  pose proof (xbal_upd_same _ _ _ _ _ E1 (fun _ _ _ => eq_refl) k) as B1. destruct (0 <? fl_ref f - 1) eqn:P; [injection E as <- <-; exact B1|]. bool_prop.
  apply bind_inv_ok in E as (u2 & s2 & E2 & E).
  assert (L1 : x_files s1 !! i = Some (with_fref (fl_ref f - 1) f)) by (injection E1 as <- <-; cbn; now rewrite list_lookup_alter, decide_True, L).
  assert (B2 : xbal s2 k = xbal s1 k + hold f k) by (rewrite (xbal_upd _ _ _ _ _ _ E2 L1 k); unfold hold; cbn; lia).
  assert (T2 : tidy (x_files s2)).
  { injection E2 as <- <-. injection E1 as <- <-. cbn. intros j f0. rewrite list_lookup_alter. destruct (decide (i = j)) as [<-|Hne].
    - rewrite list_lookup_alter, decide_True, L by reflexivity. intros [= <-]. cbn. split; [lia|reflexivity].
    - rewrite list_lookup_alter, decide_False by exact Hne. apply T. }
  assert (K : xshifts (match fl_type f with FD_PIPE => pipe_close (fl_pipe f) (truth (fl_writable f))
    | FD_INODE => fs_begin ;;; on_fs (iput pid (fl_ip f)) ;;; fs_end | FD_NONE => ret tt end) (fun _ k => - hold f k)).
  { unfold hold. destruct (fl_type f); [apply ledger_return; reflexivity| |].
    - apply (ledger_ext _ _ _ still); [unfold pipe_close; still|intros; lia].
    - apply ledger_still; [auto with ledger|]. intros _. apply (ledger_bind _ _ _ _ _ _ (x_fs_shifts _ _ (iput_shifts pid _))). intros _.
      apply (ledger_ext _ _ _ still); [auto with ledger|intros; lia]. }
  rewrite (proj2 (K _ _ _ E T2)). lia.
Qed.
#[local] Hint Resolve filealloc_still filedup_still fileclose_still : ledger.

(** A file that is not on an inode. *)
Definition plain (s : xstate C) (i : nat) : Prop := forall f, x_files s !! i = Some f -> fl_type f <> FD_INODE.

Lemma filealloc_types (s : xstate C) r s' : filealloc s = Ok r s' -> forall j f, x_files s' !! j = Some f -> exists f0, x_files s !! j = Some f0 /\ fl_type f = fl_type f0.
Proof.
  intros E j f L. unfold filealloc in E. apply bind_inv_ok in E as (l & s1 & E1 & E). injection E1 as <- <-.
  destruct (free_file (x_files s) 0) as [i|]; [|injection E as <- <-; eauto]. apply bind_inv_ok in E as (u & s2 & E2 & E). injection E2 as <- <-. injection E as <- <-.
  cbn in L. rewrite list_lookup_alter in L. destruct (decide (i = j)) as [<-|]; [|eauto]. destruct (x_files s !! i) as [f0|]; [|discriminate].
  injection L as <-. eauto.
Qed.

Lemma filealloc_plain (s : xstate C) i s' : filealloc s = Ok (Some i) s' -> tidy (x_files s) -> plain s' i.
Proof. intros E T f L. destruct (filealloc_fresh s i s' E T) as (f' & L' & Ht & _). rewrite L in L'. injection L' as <-. now rewrite Ht. Qed.

Lemma as_pipe_same i r w p (s : xstate C) u s' : upd_file i (as_pipe r w p) s = Ok u s' -> plain s i -> forall k, xbal s' k = xbal s k.
Proof.
  intros E P. apply (xbal_upd_same _ _ _ _ _ E). intros f L k. specialize (P f L). unfold hold. cbn. now destruct (fl_type f).
Qed.

Lemma pipealloc_still : xshifts (pipealloc pid) still.
Proof.
  apply (x_still _ _ (pipealloc_shifts pid)). intros s r s' E T k. unfold pipealloc in E. apply bind_inv_ok in E as (f0 & s1 & E1 & E).
  destruct (filealloc_still _ _ _ E1 T) as [T1 B1]. destruct f0 as [f0|]; [|injection E as <- <-; rewrite B1; lia].
  apply bind_inv_ok in E as (f1 & s2 & E2 & E). destruct (filealloc_still _ _ _ E2 T1) as [T2 B2]. destruct f1 as [f1|].
  2: { assert (Q : xshifts (fileclose pid f0 ;;; ret (None : option (nat * nat))) still) by still. rewrite (proj2 (Q _ _ _ E T2)), B2, B1. lia. }
  apply bind_inv_ok in E as (p & s3 & E3 & E). destruct (x_pages_still _ _ _ _ E3 T2) as [T3 B3].
  assert (F3 : x_files s3 = x_files s2) by (unfold on_pages, zoom in E3; destruct (kalloc _); try discriminate; now injection E3 as <- <-).
  destruct (p =? 0).
  { assert (Q : xshifts (fileclose pid f0 ;;; fileclose pid f1 ;;; ret (None : option (nat * nat))) still) by still.
    rewrite (proj2 (Q _ _ _ E T3)), B3, B2, B1. lia. }
  apply bind_inv_ok in E as (junk & s4 & E4 & E). injection E4 as <- <-. apply bind_inv_ok in E as (u & s5 & E5 & E). injection E5 as <- <-.
  apply bind_inv_ok in E as (u6 & s6 & E6 & E). apply bind_inv_ok in E as (u7 & s7 & E7 & E). injection E as <- <-.
  rewrite (as_pipe_same _ _ _ _ _ _ _ E7), (as_pipe_same _ _ _ _ _ _ _ E6); [change (xbal s3 k = xbal s k); rewrite B3, B2, B1; lia| |].
  - intros f L. cbn in L. rewrite F3 in L. destruct (filealloc_types _ _ _ E2 _ _ L) as (f' & L' & ->). exact (filealloc_plain _ _ _ E1 T _ L').
  - intros f L. injection E6 as <- <-. cbn in L. rewrite list_lookup_alter in L. rewrite F3 in L. destruct (decide (f0 = f1)) as [<-|].
    + destruct (x_files s2 !! f0) as [g|]; [|discriminate]. injection L as <-. discriminate.
    + exact (filealloc_plain _ _ _ E2 T1 _ L).
Qed.

(** ** Reading and writing *)

(** A lock is taken, and released at the end. *)
Lemma x_lock {A} ip (k : unit -> M (xstate C) A) e : (forall u, xshifts (k u) (fun b j => e b j - unit_of (Lck ip) j)) -> xshifts (bind (on_fs (ilock pid ip)) k) e.
Proof. intros Hk. exact (ledger_bind _ _ _ _ _ _ (x_fs_shifts _ _ (ilock_shifts pid ip)) Hk). Qed.

Lemma x_unlock {A} ip (k : unit -> M (xstate C) A) : (forall u, xshifts (k u) still) ->
  xshifts (bind (on_fs (iunlock pid ip)) k) (fun _ j => 0 - unit_of (Lck ip) j).
Proof.
  intros Hk. apply (ledger_bind _ _ _ _ _ _ (x_fs_shifts _ _ (iunlock_shifts pid ip))). intros u. apply (ledger_ext _ _ _ _ _ (Hk u)). intros; lia.
Qed.

Lemma x_off_still i r (o : Z) : xshifts (if 0 <? r then upd_file i (with_off o) else ret tt) still.
Proof. destruct (0 <? r); [|auto with ledger]. apply x_field_still; intros; cbn; auto. Qed.
#[local] Hint Resolve x_off_still : ledger.

Lemma fileread_still i n : xshifts (fileread pid killed dev_read i n) still.
Proof.
  unfold fileread. apply ledger_still; [auto with ledger|]. intros f. destruct (_ =? 0); [auto with ledger|]. destruct (fl_type f); [auto with ledger|unfold piperead; still|].
  apply x_lock. intros _. apply ledger_still; [apply x_fs_shifts; auto with ledger|]. intros r.
  apply ledger_still; [auto with ledger|]. intros _. apply x_unlock. auto with ledger.
Qed.

Lemma filewrite_loop_still fuel i src : forall k n, xshifts (filewrite_loop pid dev_write fuel i src k n) still.
Proof.
  induction fuel as [|fuel IH]; intros k n; cbn [filewrite_loop]; [auto with ledger|]. destruct (k <? n); [|auto with ledger]. cbv zeta.
  apply ledger_still; [auto with ledger|]. intros _. apply ledger_still; [auto with ledger|]. intros f. apply x_lock. intros _.
  apply ledger_still; [apply x_fs_shifts; auto with ledger|]. intros r. apply ledger_still; [auto with ledger|]. intros _. apply x_unlock. intros _. still.
Qed.

Lemma filewrite_still i src n : xshifts (filewrite pid killed dev_write i src n) still.
Proof. pose proof filewrite_loop_still. unfold filewrite, pipewrite. still. Qed.

Lemma filestat_still i : xshifts (filestat pid i) still.
Proof.
  unfold filestat. apply ledger_still; [auto with ledger|]. intros f. destruct (fl_type f); [auto with ledger|auto with ledger|].
  apply x_lock. intros _. apply ledger_still; [apply x_fs_shifts; unfold stati; still|]. intros st. apply x_unlock. auto with ledger.
Qed.
#[local] Hint Resolve fileread_still filewrite_still filestat_still pipealloc_still : ledger.

(** ** Loading a program *)

Variables pr tf : Z.

Lemma readi_to_still ip dst off n : xshifts (readi_to dev_read ip dst off n) still.
Proof. unfold readi_to. still. Qed.
#[local] Hint Resolve readi_to_still : ledger.
Lemma loaduvm_loop_still fuel pgdir addr ip offset sz : forall i, xshifts (loaduvm_loop dev_read fuel pgdir addr ip offset sz i) still.
Proof. induction fuel as [|fuel IH]; intros i; cbn [loaduvm_loop]; still. Qed.
#[local] Hint Resolve loaduvm_loop_still : ledger.
Lemma loaduvm_still pgdir addr ip offset sz : xshifts (loaduvm dev_read pgdir addr ip offset sz) still.
Proof. unfold loaduvm. still. Qed.
#[local] Hint Resolve loaduvm_still : ledger.
Lemma load_segments_still k pgdir ip : forall off sz, xshifts (load_segments dev_read k pgdir ip off sz) still.
Proof. induction k as [|k IH]; intros off sz; cbn [load_segments]; still. Qed.
Lemma push_args_still pgdir : forall argv k sp, xshifts (push_args k pgdir sp argv) still.
Proof. induction argv as [|a argv IH]; intros [|k] sp; cbn [push_args]; unfold copyout_list; still. Qed.
#[local] Hint Resolve load_segments_still push_args_still : ledger.
Lemma exec_stack_still pgdir sz argv : xshifts (exec_stack pgdir sz argv) still.
Proof. unfold exec_stack, copyout_list. still. Qed.
#[local] Hint Resolve exec_stack_still : ledger.

Lemma exec_bad_shifts pgdir ip : xshifts (exec_bad pid pgdir ip) (fun _ k => match ip with Some ip => - unit_of (Lck ip) k - unit_of (Ref ip) k | None => 0 end).
Proof.
  unfold exec_bad. apply ledger_still; [still|]. intros _. destruct ip as [ip|]; [|still].
  apply (ledger_bind _ _ _ _ (fun _ k => - unit_of (Lck ip) k - unit_of (Ref ip) k)); [|intros _; apply ledger_return; intros; lia].
  apply (ledger_bind _ _ _ _ _ _ (x_fs_shifts _ _ (iunlockput_shifts pid ip))). intros _. apply (ledger_ext _ _ _ still); [auto with ledger|intros; lia].
Qed.

(** [exec] gives up the inode of the program, whether it succeeds or not. *)
Lemma exec_still cwd path argv : xshifts (exec pid dev_read pr tf cwd path argv) still.
Proof.
  unfold exec. apply ledger_still; [auto with ledger|]. intros _. apply (ledger_bind _ _ _ _ _ _ (x_fs_shifts _ _ (namei_shifts pid dev_read dev_read_still cwd path))).
  intros [ip|]; cbn [returned]; [|apply (ledger_ext _ _ _ still); [still|intros; lia]]. apply x_lock. intros _.
  assert (Bad : forall pgdir, xshifts (b <- exec_bad pid pgdir (Some ip) ;; ret (b, None : option (list Z))) (fun _ k => 0 - unit_of (Ref ip) k - unit_of (Lck ip) k)).
  { intros pgdir. apply (ledger_bind _ _ _ _ _ _ (exec_bad_shifts pgdir (Some ip))). intros b. apply ledger_return. intros; lia. }
  apply ledger_still; [apply x_fs_shifts; auto with ledger|]. intros h. cbv zeta. destruct (_ || _); [apply Bad|].
  apply ledger_still; [auto with ledger|]. intros pgdir. destruct (pgdir =? 0); [apply Bad|]. apply ledger_still; [auto with ledger|]. intros [sz|]; [|apply Bad].
  apply (ledger_bind _ _ _ _ _ _ (x_fs_shifts _ _ (iunlockput_shifts pid ip))). intros _. apply (ledger_ext _ _ _ still); [|intros; lia].
  apply ledger_still; [auto with ledger|]. intros _. apply ledger_still; [auto with ledger|]. intros [[sz' sp]|]; [still|].
  apply ledger_still; [exact (exec_bad_shifts pgdir None)|still].
Qed.

(** ** System calls *)

(** The references that neither the open files nor the process's directory
    account for. *)
Definition ubal (s : ust C) (k : ikey) : Z := xbal (s_x s) k - unit_of (Ref (s_cwd s)) k.

Abbreviation ushifts := (ledger (fun s : ust C => tidy (x_files (s_x s))) ubal).

Lemma u_x_shifts {A} (m : M (xstate C) A) d : xshifts m d -> ushifts (on_x m) d.
Proof.
  intros Hm s a s' E T. unfold on_x, zoom in E. destruct (m (s_x s)) as [b x| | |] eqn:Ex; try discriminate. injection E as <- <-.
  destruct (Hm _ _ _ Ex T) as [T' R]. split; [exact T'|]. intros j. unfold ubal. cbn. rewrite R. lia.
Qed.

Lemma u_fs_shifts {A} (m : M (fstate C) A) d : ishifts m d -> ushifts (fs m) d.
Proof. intros Hm. apply u_x_shifts, x_fs_shifts, Hm. Qed.

Lemma u_view_still : ushifts view still.
Proof. apply ledger_gets. Qed.
Lemma u_umem_still m : ushifts (put_umem m) still.
Proof. intros s b s' E T. injection E as <- <-. split; [exact T|intros; unfold ubal; cbn; lia]. Qed.
Lemma u_fd_still fd f : ushifts (put_fd fd f) still.
Proof. intros s b s' E T. injection E as <- <-. split; [exact T|intros; unfold ubal; cbn; lia]. Qed.
Lemma u_argfd_still n : ushifts (argfd n) still.
Proof. intros s b s' E T. injection E as <- <-. split; [exact T|intros; lia]. Qed.
Lemma u_begin_still : ushifts (on_x fs_begin) still.
Proof. apply u_x_shifts, x_begin_still. Qed.
Lemma u_end_still : ushifts (on_x fs_end) still.
Proof. apply u_x_shifts, x_end_still. Qed.
Lemma u_get_still ip : ushifts (fs (get_inode ip)) still.
Proof. apply u_fs_shifts, ishifts_get. Qed.
Lemma u_update_still ip : ushifts (fs (iupdate ip)) still.
Proof. apply u_fs_shifts, iupdate_still. Qed.
#[local] Hint Resolve u_x_shifts u_view_still u_umem_still u_fd_still u_argfd_still u_begin_still u_end_still u_get_still u_update_still : ledger.

Lemma u_fdalloc_still f : ushifts (fdalloc f) still.
Proof. unfold fdalloc. still. Qed.
#[local] Hint Resolve u_fdalloc_still : ledger.

(** A change of an entry that was just read. *)
Lemma u_set {A} ip (g : inode -> inode) (k : inode -> M (ust C) A) e : (forall n, i_ref (g n) = i_ref n /\ i_lock (g n) = i_lock n) ->
  (forall n, ushifts (k n) e) -> ushifts (n <- fs (get_inode ip) ;; fs (put_inode ip (g n)) ;;; k n) e.
Proof.
  intros G Hk s a s' E T. apply bind_inv_ok in E as (n & s1 & E1 & E). apply bind_inv_ok in E as (u & s2 & E2 & E).
  unfold fs, on_x, on_fs, zoom in E1, E2. destruct (get_inode ip (x_fs (s_x s))) as [n' v| | |] eqn:Eg; try discriminate. injection E1 as -> <-.
  apply get_inode_inv in Eg as [-> L]. cbn in E2. injection E2 as <- <-. destruct (Hk n _ _ _ E T) as [T' R]. split; [exact T'|].
  intros j. rewrite R. unfold ubal, xbal. cbn. rewrite (ibal_insert _ _ n) by exact L. unfold ilocked. rewrite (proj1 (G n)), (proj2 (G n)). lia.
Qed.

Lemma u_set_if {A} ip (b : inode -> bool) (g : inode -> inode) (m : inode -> M (ust C) A) (k : inode -> M (ust C) A) e :
  (forall n, i_ref (g n) = i_ref n /\ i_lock (g n) = i_lock n) -> (forall n, ushifts (m n) e) -> (forall n, ushifts (k n) e) ->
  ushifts (n <- fs (get_inode ip) ;; if b n then m n else fs (put_inode ip (g n)) ;;; k n) e.
Proof.
  intros G Hm Hk s a s' E T. pose proof (u_set ip g k e G Hk s a s') as Hs. pose proof (ledger_still _ _ _ _ e (u_get_still ip) Hm s a s') as Hb.
  apply bind_inv_ok in E as (n & s1 & E1 & E). rewrite !(bind_ok _ _ _ _ _ E1) in *. destruct (b n); auto.
Qed.

(** A computation that ends a call: what is added on the way there. *)
Lemma u_bind {A B} (m : M (fstate C) A) (k : A -> M (ust C) B) d e : ishifts m d -> (forall a, ushifts (k a) (fun b j => e b j - d a j)) -> ushifts (bind (fs m) k) e.
Proof. intros Hm Hk. exact (ledger_bind _ _ _ _ _ _ (u_fs_shifts m d Hm) Hk). Qed.

(** The last steps add nothing: what is expected before them is nothing. *)
Lemma u_done {A} (m : M (ust C) A) e : ushifts m still -> (forall a j, e a j = 0) -> ushifts m e.
Proof. intros Hm He. apply (ledger_ext _ _ _ _ _ Hm). intros a j. now rewrite He. Qed.

Lemma u_unlockput {A} ip (k : unit -> M (ust C) A) e : (forall u, ushifts (k u) still) -> (forall a j, e a j = - unit_of (Lck ip) j - unit_of (Ref ip) j) ->
  ushifts (bind (fs (iunlockput pid ip)) k) e.
Proof. intros Hk He. apply (u_bind _ _ _ _ (iunlockput_shifts pid ip)). intros u. apply u_done; [apply Hk|]. intros a j. rewrite He. lia. Qed.

(** The inode is returned with a reference and its lock. *)
Definition returned_locked (r : option nat) (k : ikey) : Z := match r with Some ip => unit_of (Ref ip) k + unit_of (Lck ip) k | None => 0 end.

Lemma sys_read_inodes : ushifts (sys_read pid killed dev_read) still.
Proof. unfold sys_read. still. Qed.
Lemma sys_write_inodes : ushifts (sys_write pid killed dev_write) still.
Proof. unfold sys_write. still. Qed.
Lemma sys_fstat_inodes : ushifts (sys_fstat pid) still.
Proof. unfold sys_fstat. still. Qed.
Lemma sys_dup_inodes : ushifts sys_dup still.
Proof. unfold sys_dup. still. Qed.
Lemma sys_close_inodes : ushifts (sys_close pid) still.
Proof. unfold sys_close. still. Qed.
Lemma sys_pipe_inodes : ushifts (sys_pipe pid) still.
Proof. unfold sys_pipe. still. Qed.

Lemma link_bad_inodes ip : ushifts (link_bad pid ip) (fun _ k => - unit_of (Ref ip) k).
Proof.
  unfold link_bad. apply (u_bind _ _ _ _ (ilock_shifts pid ip)). intros _. apply (u_set ip (fun n => with_nlink (s16 (i_nlink n - 1)) n)); [auto|]. intros n.
  apply ledger_still; [auto with ledger|]. intros _. apply u_unlockput; [intros _; still|intros; lia].
Qed.

Lemma sys_link_inodes : ushifts (sys_link pid dev_read dev_write) still.
Proof.
  unfold sys_link. apply ledger_still; [auto with ledger|]. intros v. destruct (argstr v 0) as [old|], (argstr v 1) as [new|]; try solve [auto with ledger].
  apply ledger_still; [auto with ledger|]. intros _. apply ledger_still; [apply ledger_gets|]. intros cwd.
  apply (u_bind _ _ _ _ (namei_shifts pid dev_read dev_read_still cwd old)). intros [ip|]; cbn [returned]; [|apply u_done; [still|intros; lia]].
  apply (u_bind _ _ _ _ (ilock_shifts pid ip)). intros _. apply (u_set_if ip (fun n => i_type n =? T_DIR) (fun n => with_nlink (s16 (i_nlink n + 1)) n)); [auto| |]; intros n.
  { apply u_unlockput; [intros _; still|intros; lia]. }
  apply ledger_still; [auto with ledger|]. intros _. apply (u_bind _ _ _ _ (iunlock_shifts pid ip)). intros _.
  apply (u_bind _ _ _ _ (namex_shifts pid dev_read dev_read_still cwd new true)). intros [[dp|] nm]; cbn [fst snd returned].
  2: { apply (ledger_ext _ _ _ _ _ (link_bad_inodes ip)). intros; lia. }
  apply (u_bind _ _ _ _ (ilock_shifts pid dp)). intros _. do 2 (apply ledger_still; [auto with ledger|]; intros ?).
  apply ledger_still; [destruct (negb _); [auto with ledger|]; apply ledger_still; [|auto with ledger]; apply u_fs_shifts, dirlink_still; assumption|]. intros ok.
  apply (u_bind _ _ _ _ (iunlockput_shifts pid dp)). intros _. destruct ok.
  - apply (u_bind _ _ _ _ (iput_shifts pid ip)). intros _. apply u_done; [still|intros; lia].
  - apply (ledger_ext _ _ _ _ _ (link_bad_inodes ip)). intros; lia.
Qed.

Lemma isdirempty_loop_still fuel dp : forall off, ishifts (isdirempty_loop dev_read fuel dp off) still.
Proof. pose proof (readi_still dev_read dev_read_still). pose proof (@ishifts_get C). induction fuel as [|fuel IH]; intros off; cbn [isdirempty_loop]; still. Qed.
Lemma isdirempty_still dp : ishifts (isdirempty dev_read dp) still.
Proof. pose proof (@ishifts_get C). pose proof isdirempty_loop_still. unfold isdirempty. still. Qed.

Lemma unlink_bad_inodes dp : ushifts (unlink_bad pid dp) (fun _ k => - unit_of (Lck dp) k - unit_of (Ref dp) k).
Proof. unfold unlink_bad. apply u_unlockput; [intros _; still|intros; lia]. Qed.

(** The end of [sys_unlink], with both inodes locked. *)
Lemma unlink_end_inodes dp ip : ushifts (fs (iunlockput pid dp) ;;; n <- fs (get_inode ip) ;; fs (put_inode ip (with_nlink (s16 (i_nlink n - 1)) n)) ;;;
    fs (iupdate ip) ;;; fs (iunlockput pid ip) ;;; on_x fs_end ;;; ret 0)
  (fun _ k => - unit_of (Lck dp) k - unit_of (Ref dp) k - unit_of (Lck ip) k - unit_of (Ref ip) k).
Proof.
  apply (u_bind _ _ _ _ (iunlockput_shifts pid dp)). intros _. apply (u_set ip (fun n => with_nlink (s16 (i_nlink n - 1)) n)); [auto|]. intros n.
  apply ledger_still; [auto with ledger|]. intros _. apply u_unlockput; [intros _; still|intros; lia].
Qed.

Lemma sys_unlink_inodes : ushifts (sys_unlink pid dev_read dev_write) still.
Proof.
  unfold sys_unlink. apply ledger_still; [auto with ledger|]. intros v. destruct (argstr v 0) as [path|]; [|auto with ledger].
  apply ledger_still; [auto with ledger|]. intros _. apply ledger_still; [apply ledger_gets|]. intros cwd.
  apply (u_bind _ _ _ _ (namex_shifts pid dev_read dev_read_still cwd path true)). intros [[dp|] nm]; cbn [fst snd returned]; [|apply u_done; [still|intros; lia]].
  apply (u_bind _ _ _ _ (ilock_shifts pid dp)). intros _. cbv zeta. destruct (_ || _); [apply (ledger_ext _ _ _ _ _ (unlink_bad_inodes dp)); intros; lia|].
  apply (u_bind _ _ _ _ (dirlookup_shifts dev_read dev_read_still dp _)). intros [[ip off]|]; cbn [fmap option_fmap option_map fst returned];
    [|apply (ledger_ext _ _ _ _ _ (unlink_bad_inodes dp)); intros; lia].
  apply (u_bind _ _ _ _ (ilock_shifts pid ip)). intros _. apply ledger_still; [auto with ledger|]. intros n. destruct (_ <? 1); [apply ledger_panic|].
  apply ledger_still; [destruct (_ =? _); [apply u_fs_shifts, isdirempty_still|auto with ledger]|]. intros empty. destruct (negb empty).
  { apply (u_bind _ _ _ _ (iunlockput_shifts pid ip)). intros _. apply (ledger_ext _ _ _ _ _ (unlink_bad_inodes dp)). intros; lia. }
  apply ledger_still; [apply u_fs_shifts; auto with ledger|]. intros w. destruct (negb (w =? 16)); [apply ledger_panic|]. apply ledger_still.
  { destruct (_ =? _); [|auto with ledger]. apply (u_set dp (fun dn => with_nlink (s16 (i_nlink dn - 1)) dn)); auto with ledger. }
  intros _. apply (ledger_ext _ _ _ _ _ (unlink_end_inodes dp ip)). intros; lia.
Qed.

(** ** Creating files *)

Lemma create_new dp name type major minor : ishifts (ip <- ialloc type ;; ilock pid ip ;;; n <- get_inode ip ;;
    put_inode ip (with_nlink 1 (with_devnos major minor n)) ;;; iupdate ip ;;;
    (if type =? T_DIR then
       dn <- get_inode dp ;; put_inode dp (with_nlink (s16 (i_nlink dn + 1)) dn) ;;; iupdate dp ;;;
       n <- get_inode ip ;; r1 <- dirlink pid dev_read dev_write ip dot (i_inum n) ;; if r1 <? 0 then panic "create dots" else
       dn <- get_inode dp ;; r2 <- dirlink pid dev_read dev_write ip dotdot (i_inum dn) ;; if r2 <? 0 then panic "create dots" else ret tt
     else ret tt) ;;;
    n <- get_inode ip ;; r <- dirlink pid dev_read dev_write dp name (i_inum n) ;; if r <? 0 then panic "create: dirlink" else
    iunlockput pid dp ;;; ret (Some ip))
  (fun r k => returned_locked r k - unit_of (Lck dp) k - unit_of (Ref dp) k).
Proof.
  pose proof (dirlink_still pid dev_read dev_write dev_read_still dev_write_still) as Hl.
  apply (ledger_bind _ _ _ _ _ _ (ialloc_shifts type)). intros ip. apply (ledger_bind _ _ _ _ _ _ (ilock_shifts pid ip)). intros _.
  apply (ishifts_set ip (fun n => with_nlink 1 (with_devnos major minor n))); [auto|]. intros n. apply ledger_still; [auto with ledger|]. intros _.
  apply ledger_still; [destruct (_ =? _); [|auto with ledger]; apply (ishifts_set dp (fun dn => with_nlink (s16 (i_nlink dn + 1)) dn)); [auto|]; intros dn; still|].
  intros _. apply ledger_still; [auto with ledger|]. intros n'. apply ledger_still; [apply Hl|]. intros r. destruct (r <? 0); [apply ledger_panic|].
  apply (ledger_bind _ _ _ _ _ _ (iunlockput_shifts pid dp)). intros _. apply ledger_return. intros k. cbn. lia.
Qed.

Lemma create_shifts cwd path type major minor : ishifts (create pid dev_read dev_write cwd path type major minor) returned_locked.
Proof.
  unfold create. apply (ledger_bind _ _ _ _ _ _ (namex_shifts pid dev_read dev_read_still cwd path true)). intros [[dp|] nm]; cbn [fst snd returned];
    [|apply ledger_return; intros; cbn; lia]. cbv zeta.
  apply (ledger_bind _ _ _ _ _ _ (ilock_shifts pid dp)). intros _. apply (ledger_bind _ _ _ _ _ _ (dirlookup_shifts dev_read dev_read_still dp _)).
  intros [[ip off]|]; cbn [fmap option_fmap option_map fst returned].
  - apply (ledger_bind _ _ _ _ _ _ (iunlockput_shifts pid dp)). intros _. apply (ledger_bind _ _ _ _ _ _ (ilock_shifts pid ip)). intros _.
    apply ledger_still; [auto with ledger|]. intros n. destruct (_ && _); [apply ledger_return; intros; cbn; lia|].
    apply (ledger_bind _ _ _ _ _ _ (iunlockput_shifts pid ip)). intros _. apply ledger_return. intros; cbn; lia.
  - apply (ledger_ext _ _ _ _ _ (create_new dp _ type major minor)). intros; lia.
Qed.

Lemma open_inode_shifts path omode : ushifts (open_inode pid dev_read dev_write path omode) returned_locked.
Proof.
  unfold open_inode. apply ledger_still; [apply ledger_gets|]. intros cwd. destruct (truth _); [apply u_fs_shifts, create_shifts|].
  apply (u_bind _ _ _ _ (namei_shifts pid dev_read dev_read_still cwd path)). intros [ip|]; cbn [returned]; [|apply ledger_return; intros; cbn; lia].
  apply (u_bind _ _ _ _ (ilock_shifts pid ip)). intros _. apply ledger_still; [auto with ledger|]. intros n. destruct (_ && _).
  - apply (u_bind _ _ _ _ (iunlockput_shifts pid ip)). intros _. apply ledger_return. intros; cbn; lia.
  - apply ledger_return. intros; cbn; lia.
Qed.

Lemma sys_mkdir_inodes : ushifts (sys_mkdir pid dev_read dev_write) still.
Proof.
  unfold sys_mkdir. apply ledger_still; [auto with ledger|]. intros _. apply ledger_still; [auto with ledger|]. intros v. apply ledger_still; [apply ledger_gets|]. intros cwd.
  apply (ledger_bind _ _ _ _ (fun r => returned_locked r)); [destruct (argstr v 0); [apply u_fs_shifts, create_shifts|now apply ledger_return]|].
  intros [ip|]; cbn [returned_locked]; [apply u_unlockput; [intros _; still|intros; lia]|apply u_done; [still|intros; lia]].
Qed.

Lemma sys_mknod_inodes : ushifts (sys_mknod pid dev_read dev_write) still.
Proof.
  unfold sys_mknod. apply ledger_still; [auto with ledger|]. intros _. apply ledger_still; [auto with ledger|]. intros v. apply ledger_still; [apply ledger_gets|]. intros cwd.
  apply (ledger_bind _ _ _ _ (fun r => returned_locked r)); [destruct (argstr v 0), (argint v 1), (argint v 2); try (now apply ledger_return); apply u_fs_shifts, create_shifts|].
  intros [ip|]; cbn [returned_locked]; [apply u_unlockput; [intros _; still|intros; lia]|apply u_done; [still|intros; lia]].
Qed.

Lemma open_file_inodes : ushifts (open_file pid) still.
Proof. unfold open_file. still. Qed.

Lemma open_file_fresh (s : ust C) f fd s' : open_file pid s = Ok (Some (f, fd)) s' -> tidy (x_files (s_x s)) ->
  exists g, x_files (s_x s') !! f = Some g /\ fl_type g = FD_NONE /\ fl_ref g = 1.
Proof.
  intros E T. unfold open_file in E. apply bind_inv_ok in E as (r & s1 & E1 & E). unfold on_x, zoom in E1.
  destruct (filealloc (s_x s)) as [r' x| | |] eqn:Ea; try discriminate. injection E1 as -> <-. destruct r as [i|]; [|discriminate].
  apply bind_inv_ok in E as (r & s2 & E2 & E). destruct (fdalloc_ok _ _ _ _ E2) as [X2 _]. destruct r as [fd'|].
  - injection E as <- <- <-. rewrite X2. exact (filealloc_fresh _ _ _ Ea T).
  - apply bind_inv_ok in E as (u & s3 & E3 & E). discriminate.
Qed.

Lemma fs_files {A} (m : M (fstate C) A) (s : ust C) a s' : fs m s = Ok a s' -> x_files (s_x s') = x_files (s_x s) /\ s_cwd s' = s_cwd s.
Proof. unfold fs, on_x, on_fs, zoom. destruct (m _); try discriminate. intros [= <- <-]. auto. Qed.

Lemma sys_open_inodes : ushifts (sys_open pid dev_read dev_write) still.
Proof.
  unfold sys_open. apply ledger_still; [auto with ledger|]. intros v. destruct (argstr v 0) as [path|], (argint v 1) as [omode|]; try solve [auto with ledger].
  apply ledger_still; [auto with ledger|]. intros _. apply (ledger_bind _ _ _ _ _ _ (open_inode_shifts path omode)). intros [ip|]; cbn [returned_locked];
    [|apply u_done; [still|intros; lia]].
  intros s r s' E T. apply bind_inv_ok in E as (o & s1 & E1 & E). destruct (open_file_inodes _ _ _ E1 T) as [T1 B1]. destruct o as [[f fd]|].
  2: { assert (Q : ushifts (fs (iunlockput pid ip) ;;; on_x fs_end ;;; ret (-1)) (fun _ k => - unit_of (Lck ip) k - unit_of (Ref ip) k))
         by (apply u_unlockput; [intros _; still|intros; lia]).
       destruct (Q _ _ _ E T1) as [T2 B2]. split; [exact T2|]. intros k. rewrite B2, B1. lia. }
  destruct (open_file_fresh _ _ _ _ E1 T) as (g & L & Hg & Hr). apply bind_inv_ok in E as (u & s2 & E2 & E).
  destruct (u_fs_shifts _ _ (iunlock_shifts pid ip) _ _ _ E2 T1) as [T2 B2]. apply bind_inv_ok in E as (u3 & s3 & E3 & E).
  destruct (u_end_still _ _ _ E3 T2) as [T3 B3]. apply bind_inv_ok in E as (u4 & s4 & E4 & E). injection E as <- <-.
  apply fs_files in E2 as [F2 _]. apply (fs_files (onlog end_op)) in E3 as [F3 _]. rewrite <- F2, <- F3 in L.
  unfold on_x, zoom in E4. destruct (upd_file _ _ (s_x s3)) as [u5 x| | |] eqn:Eu; try discriminate. injection E4 as _ <-.
  pose proof (xbal_upd _ _ _ _ _ _ Eu L) as B4. injection Eu as _ <-. split.
  - cbn. apply tidy_alter; [exact T3|]. intros g' L'. rewrite L in L'. injection L' as <-. cbn. rewrite Hr. split; [lia|discriminate].
  - intros k. specialize (B3 k). specialize (B2 k). specialize (B1 k). unfold ubal in *. cbn [s_x s_cwd]. rewrite B4.
    unfold hold. cbn [as_inode fl_type fl_ip]. rewrite Hg. lia.
Qed.

Lemma sys_chdir_inodes : ushifts (sys_chdir pid dev_read) still.
Proof.
  unfold sys_chdir. apply ledger_still; [auto with ledger|]. intros _. apply ledger_still; [auto with ledger|]. intros v.
  intros s r s' E T. apply bind_inv_ok in E as (cwd & s0 & E0 & E). injection E0 as <- <-. apply bind_inv_ok in E as (o & s1 & E1 & E).
  assert (H1 : tidy (x_files (s_x s1)) /\ (forall k, ubal s1 k = ubal s k + returned o k) /\ s_cwd s1 = s_cwd s).
  { destruct (argstr v 0) as [path|]; [|injection E1 as <- <-; split; [exact T|]; split; [intros; cbn; lia|reflexivity]].
    destruct (u_fs_shifts _ _ (namei_shifts pid dev_read dev_read_still _ path) _ _ _ E1 T) as [T1 B1]. apply fs_files in E1 as [_ W1]. auto. }
  destruct H1 as (T1 & B1 & W1). destruct o as [ip|]; cbn [returned] in B1.
  2: { assert (Q : ushifts (on_x fs_end ;;; ret (-1)) still) by still. destruct (Q _ _ _ E T1) as [T2 B2]. split; [exact T2|]. intros k. rewrite B2, B1. lia. }
  apply bind_inv_ok in E as (u2 & s2 & E2 & E). destruct (u_fs_shifts _ _ (ilock_shifts pid ip) _ _ _ E2 T1) as [T2 B2]. apply fs_files in E2 as [_ W2].
  apply bind_inv_ok in E as (n & s3 & E3 & E). destruct (u_get_still ip _ _ _ E3 T2) as [T3 B3]. apply fs_files in E3 as [_ W3]. destruct (negb _).
  { assert (Q : ushifts (fs (iunlockput pid ip) ;;; on_x fs_end ;;; ret (-1)) (fun _ k => - unit_of (Lck ip) k - unit_of (Ref ip) k))
      by (apply u_unlockput; [intros _; still|intros; lia]).
    destruct (Q _ _ _ E T3) as [T4 B4]. split; [exact T4|]. intros k. rewrite B4, B3, B2, B1. lia. }
  apply bind_inv_ok in E as (u4 & s4 & E4 & E). destruct (u_fs_shifts _ _ (iunlock_shifts pid ip) _ _ _ E4 T3) as [T4 B4]. apply fs_files in E4 as [_ W4].
  apply bind_inv_ok in E as (u5 & s5 & E5 & E). destruct (u_fs_shifts _ _ (iput_shifts pid (s_cwd s)) _ _ _ E5 T4) as [T5 B5]. apply fs_files in E5 as [_ W5].
  apply bind_inv_ok in E as (u6 & s6 & E6 & E). destruct (u_end_still _ _ _ E6 T5) as [T6 B6]. apply (fs_files (onlog end_op)) in E6 as [_ W6].
  apply bind_inv_ok in E as (u7 & s7 & E7 & E). injection E7 as <- <-. injection E as <- <-. split; [exact T6|]. intros k.
  specialize (B6 k). rewrite B5, B4, B3, B2, B1 in B6. unfold ubal in *. cbn. rewrite W6, W5, W4, W3, W2, W1 in B6. lia.
Qed.

(** ** The invariant *)

Lemma holders_lck l j : holders l (Lck j) = 0.
Proof. induction l as [|f l IH]; cbn; [reflexivity|]. rewrite IH. unfold hold. now destruct (fl_type f). Qed.

Lemma icounted_xbal (x : xstate C) cwds : icounted x cwds <->
  tidy (x_files x) /\ forall k, xbal x k = match k with Ref j => count j (map Some cwds) | Lck _ => 0 end.
Proof.
  unfold icounted, xbal. split.
  - intros (T & R & L). split; [exact T|]. intros [j|j]; [rewrite R|rewrite L, holders_lck]; lia.
  - intros [T B]. split; [exact T|]. split; intros j; [specialize (B (Ref j))|specialize (B (Lck j)); rewrite holders_lck in B]; cbn beta iota in B; lia.
Qed.

Lemma count_cons j c cwds : count j (map Some (c :: cwds)) = unit_of (Ref c) (Ref j) + count j (map Some cwds).
Proof. cbn [map count]. unfold unit_of. repeat destruct (decide _); simplify_eq; lia. Qed.

(** What a call adds for the directories of processes. *)
Lemma icounted_x {A} (m : M (xstate C) A) d x cwds cwds' r x' : xshifts m d -> icounted x cwds -> m x = Ok r x' ->
  (forall j, count j (map Some cwds') = count j (map Some cwds) + d r (Ref j)) -> (forall j, d r (Lck j) = 0) -> icounted x' cwds'.
Proof.
  intros Hm [T B]%icounted_xbal E Hr Hl. destruct (Hm _ _ _ E T) as [T' B']. apply icounted_xbal. split; [exact T'|].
  intros [j|j]; rewrite B', B; [now rewrite Hr|now rewrite Hl].
Qed.

Lemma icounted_still (m : M (ust C) Z) s cwds r s' : ushifts m still -> icounted (s_x s) (s_cwd s :: cwds) -> m s = Ok r s' -> icounted (s_x s') (s_cwd s' :: cwds).
Proof.
  intros Hm [T B]%icounted_xbal E. destruct (Hm _ _ _ E T) as [T' B']. apply icounted_xbal. split; [exact T'|].
  intros k. specialize (B k). specialize (B' k). unfold ubal in B'. destruct k as [j|j]; [rewrite count_cons in *|]; unfold unit_of in *; [lia|].
  repeat destruct (decide _); simplify_eq; lia.
Qed.

Lemma dup_all_inodes l : xshifts (dup_all l) still.
Proof. induction l as [|[f|] l IH]; cbn [dup_all]; still. Qed.

Lemma close_all_inodes l : xshifts (close_all pid l) still.
Proof. induction l as [|[f|] l IH]; cbn [close_all]; still. Qed.

(** C5: References to inodes are counted, and inodes are unlocked between system
    calls.  If the [ref] fields of the inode cache are the numbers of open files
    and of current directories that refer to the entries, and no inode is locked,
    the same holds after every file system call of a process that returns, on every
    path through it, successful or not, and after [exec]; after what [fork] does to
    files and directories, with the child's directory added; and after what [exit]
    does to them, without the directory of the process.  The devices are assumed to
    leave references and locks as they find them. *)
Theorem inode_references_counted (s : ust C) cwds : icounted (s_x s) (s_cwd s :: cwds) ->
  (forall m, m ∈ [sys_dup; sys_read pid killed dev_read; sys_write pid killed dev_write; sys_close pid; sys_fstat pid;
                  sys_link pid dev_read dev_write; sys_unlink pid dev_read dev_write; sys_open pid dev_read dev_write;
                  sys_mkdir pid dev_read dev_write; sys_mknod pid dev_read dev_write; sys_chdir pid dev_read; sys_pipe pid] ->
     forall r s', m s = Ok r s' -> icounted (s_x s') (s_cwd s' :: cwds)) /\
  (forall r x', sys_exec pid dev_read pr tf (s_cwd s) (s_view s) (s_x s) = Ok r x' -> icounted x' (s_cwd s :: cwds)) /\
  (forall c x', (dup_all (s_ofile s) ;;; on_fs (idup (s_cwd s))) (s_x s) = Ok c x' -> icounted x' (c :: s_cwd s :: cwds)) /\
  (forall u x', (close_all pid (s_ofile s) ;;; fs_begin ;;; on_fs (iput pid (s_cwd s)) ;;; fs_end) (s_x s) = Ok u x' -> icounted x' cwds).
Proof.
  intros Cn. split_and!.
  - intros m Hm r s' E. apply (icounted_still m s cwds r s'); [|exact Cn|exact E]. clear E.
    repeat (apply elem_of_cons in Hm as [->|Hm]; [first [apply sys_dup_inodes|apply sys_read_inodes|apply sys_write_inodes|apply sys_close_inodes
      |apply sys_fstat_inodes|apply sys_link_inodes|apply sys_unlink_inodes|apply sys_open_inodes|apply sys_mkdir_inodes|apply sys_mknod_inodes
      |apply sys_chdir_inodes|apply sys_pipe_inodes]|]). now apply elem_of_nil in Hm.
  - intros r x' E. unfold sys_exec in E. destruct (sys_exec_args _) as [[path argv]|]; [|injection E as <- <-; exact Cn].
    apply (icounted_x _ _ _ _ _ _ _ (exec_still _ _ _) Cn E); intros; lia.
  - intros c x' E. eapply (icounted_x _ (fun c k => unit_of (Ref c) k) _ _ _ _ _ _ Cn E); [intros j; rewrite count_cons; lia|reflexivity].
  - intros u x' E. eapply (icounted_x _ (fun _ k => - unit_of (Ref (s_cwd s)) k) _ _ _ _ _ _ Cn E); [intros j; rewrite count_cons; lia|reflexivity].
  Unshelve.
  + apply ledger_still; [apply dup_all_inodes|]. intros _. apply x_fs_shifts, idup_shifts.
  + apply ledger_still; [apply close_all_inodes|]. intros _. apply ledger_still; [auto with ledger|]. intros _.
    apply (ledger_bind _ _ _ _ _ _ (x_fs_shifts _ _ (iput_shifts pid _))). intros _. apply (ledger_ext _ _ _ still); [auto with ledger|intros; lia].
Qed.

End Irefs.

(** A process with an open file on its own directory that closes it. *)
Definition sample_dir : inode := mkInode 1 1 2 (Bio.mkSleep 0 0) 1 T_DIR 0 0 1 32 (fun _ => 0).

Definition sample_holder : ust unit :=
  mkUs (mkX [mkFile FD_INODE 1 1 0 0 0 0; file_zero] (mkF (mkL (mkLog 2 30 0 0 0 (fun _ => 0)) tt) (mkSb 0 0 0 0 0 0 0) [sample_dir])
            ∅ (mkKmem (fun _ => 0) 0 false lock_free 0))
       (Some 0%nat :: repeat None 15) 0 (mkU (fun _ => 0) 0x2000 0x1000).

#[local] Instance null_cache : BlockCache unit := {
  bread _ := fault "no disk"; bwrite _ := fault "no disk"; brelse _ := fault "no disk"; bdata _ _ _ := 0;
  set_bdata _ _ s := s; set_bdirty _ s := s; bblockno _ _ := 0 }.

#[local] Existing Instance sample_linker.

(** A device without data. *)
Definition null_read (major : Z) : option (nat -> Z -> M (fstate unit) (Z * list Z)) :=
  if major =? 1 then Some (fun _ _ => ret (0, [])) else None.
Definition null_write (major : Z) : option (nat -> (Z -> Z) -> Z -> M (fstate unit) Z) :=
  if major =? 1 then Some (fun _ _ n => ret n) else None.

Lemma inode_references_counted_witness : exists s', sys_close 7 sample_holder = Ok 0 s' /\
  i_ref <$> (f_icache (x_fs (s_x s')) !! 0%nat) = Some 1 /\ icounted (s_x s') [0%nat].
Proof.
  assert (Cn : icounted (s_x sample_holder) [s_cwd sample_holder]).
  { split; [|split].
    - intros [|[|i]] f E; cbn in E; try discriminate; injection E as <-; cbn; split; (lia || discriminate || reflexivity).
    - intros [|j]; reflexivity.
    - intros [|j]; reflexivity. }
  eexists. split; [vm_compute; reflexivity|]. split; [reflexivity|].
  refine (proj1 (@inode_references_counted sample_linker unit null_cache 7 false null_read null_write _ _ 0 0 sample_holder [] Cn) (sys_close 7) _ 0 _ _).
  - intros major f ip n E. unfold null_read in E. destruct (major =? 1); [|discriminate]. injection E as <-. apply ledger_ret.
  - intros major f ip src n E. unfold null_write in E. destruct (major =? 1); [|discriminate]. injection E as <-. apply ledger_ret.
  - do 3 (apply elem_of_cons; right). left.
  - vm_compute. reflexivity.
Defined.
