(* ===== verification/Print.v ===== *)
(** Formatted output: [src/xv6/xv6-public/printf.c], and [printint] and [cprintf]
    of [console.c].

    Both functions are run on the list of the characters they have given to
    [putc] or [consputc].  The format is the list of its characters before the
    NUL; the words of the variable arguments are a function of their index, as
    they lie on the stack; strings are read from the memory. *)

From stdpp Require Import gmap.
From S2P Require Import Prelude Mem.

(** Characters: [%], [-], [c], [d], [p], [s], [x]. *)
Definition PERCENT : Z := 37.
Definition MINUS : Z := 45.

Definition output := list Z.

Definition putc (c : Z) : M output unit := modify (fun out => out ++ [u8 c]).

Fixpoint putcs (l : list Z) : M output unit :=
  match l with [] => ret tt | c :: l => putc c ;;; putcs l end.

(** [static char digits[]]: upper case in [printf.c], lower case in [console.c]. *)
Definition digits_upper : list Z := [48; 49; 50; 51; 52; 53; 54; 55; 56; 57; 65; 66; 67; 68; 69; 70].
Definition digits_lower : list Z := [48; 49; 50; 51; 52; 53; 54; 55; 56; 57; 97; 98; 99; 100; 101; 102].

(** [buf[i++] = c] on [char buf[16]]; the list holds the [i] characters stored. *)
Definition buf_push (buf : list Z) (c : Z) : M output (list Z) :=
  if (length buf <? 16)%nat then ret (buf ++ [c]) else fault "buf[16]".

(** [do { buf[i++] = digits[x % base]; } while((x /= base) != 0);] *)
Fixpoint digit_loop (fuel : nat) (digits : list Z) (base x : Z) (buf : list Z) : M output (list Z) :=
  match fuel with
  | O => nofuel
  | S fuel =>
      buf <- buf_push buf (nth (Z.to_nat (x mod base)) digits 0) ;;
      if truth (x / base) then digit_loop fuel digits base (x / base) buf else ret buf
  end.

(** [while(--i >= 0) putc(fd, buf[i]);] is [putcs] of the reversed buffer. *)
Definition printint (xx base sgn : Z) : M output unit :=
  let neg := truth sgn && (xx <? 0) in
  let x := if neg then u32 (- xx) else u32 xx in
  buf <- digit_loop 33 digits_upper base x [] ;;
  buf <- (if neg then buf_push buf MINUS else ret buf) ;;
  putcs (rev buf).

Definition NULL_TEXT : list Z := [40; 110; 117; 108; 108; 41].

Section Printf.
(** The memory, a bound for the length of strings, and the argument words. *)
Variable m : mem.
Variable bound : nat.
Variable arg : nat -> Z.

(** The characters of [%s]. *)
Definition str_arg (s : Z) : list Z := if s =? 0 then NULL_TEXT else cstr m s bound.

(** The loop of [printf]: [state] is 0 or ['%'], [ap] the index of the next argument. *)
Fixpoint printf_loop (fmt : list Z) (state : bool) (ap : nat) : M output unit :=
  match fmt with
  | [] => ret tt
  | c :: fmt =>
      if negb state then
        if c =? PERCENT then printf_loop fmt true ap
        else putc c ;;; printf_loop fmt false ap
      else if c =? 100 then printint (s32 (arg ap)) 10 1 ;;; printf_loop fmt false (S ap)
      else if (c =? 120) || (c =? 112) then printint (s32 (arg ap)) 16 0 ;;; printf_loop fmt false (S ap)
      else if c =? 115 then putcs (str_arg (arg ap)) ;;; printf_loop fmt false (S ap)
      else if c =? 99 then putc (arg ap) ;;; printf_loop fmt false (S ap)
      else if c =? PERCENT then putc c ;;; printf_loop fmt false ap
      else putc PERCENT ;;; putc c ;;; printf_loop fmt false ap
  end.

Definition printf (fmt : list Z) : M output unit := printf_loop fmt false 0.

(** [printint] of [console.c]: [sign] is reused for the sign of [xx]. *)
Definition cprintint (xx base sign : Z) : M output unit :=
  let '(sign, x) :=
    if truth sign then (if xx <? 0 then (1, u32 (- xx)) else (0, u32 xx)) else (sign, u32 xx) in
  buf <- digit_loop 33 digits_lower base x [] ;;
  buf <- (if truth sign then buf_push buf MINUS else ret buf) ;;
  putcs (rev buf).

(** The loop of [cprintf]; the lock is not modelled. *)
Fixpoint cprintf_loop (fmt : list Z) (argp : nat) : M output unit :=
  match fmt with
  | [] => ret tt
  | c :: fmt =>
      if negb (c =? PERCENT) then putc c ;;; cprintf_loop fmt argp
      else match fmt with
           | [] => ret tt
           | c :: fmt =>
               if c =? 100 then cprintint (s32 (arg argp)) 10 1 ;;; cprintf_loop fmt (S argp)
               else if (c =? 120) || (c =? 112) then cprintint (s32 (arg argp)) 16 0 ;;; cprintf_loop fmt (S argp)
               else if c =? 115 then putcs (str_arg (arg argp)) ;;; cprintf_loop fmt (S argp)
               else if c =? PERCENT then putc PERCENT ;;; cprintf_loop fmt argp
               else putc PERCENT ;;; putc c ;;; cprintf_loop fmt argp
           end
  end.

Definition cprintf (fmt : list Z) : M output unit := cprintf_loop fmt 0.

End Printf.

(** ** Numerals *)

(** The value of a digit character, and of a numeral. *)
Definition digit_value (c : Z) : Z := if c <=? 57 then c - 48 else if c <=? 70 then c - 55 else c - 87.
Definition value (base : Z) (l : list Z) : Z := fold_left (fun a c => a * base + digit_value c) l 0.

(** [l] is the numeral of [x]: the value is right, and there is no leading zero
    (unless [x] is 0). *)
Record numeral (digits : list Z) (base x : Z) (l : list Z) : Prop := {
  nu_value : value base l = x;
  nu_digits : Forall (fun c => c ∈ take (Z.to_nat base) digits) l;
  nu_lead : l <> [] /\ (hd 0 l = 48 -> l = [48])
}.

(** The numeral of [x], the most significant digit first. *)
Fixpoint numeral_of (k : nat) (digits : list Z) (base x : Z) : list Z :=
  match k with
  | O => []
  | S k => (if x / base =? 0 then [] else numeral_of k digits base (x / base)) ++ [nth (Z.to_nat (x mod base)) digits 0]
  end.

Lemma value_snoc base l c : value base (l ++ [c]) = value base l * base + digit_value c.
Proof. unfold value. now rewrite fold_left_app. Qed.

(** The values of the sixteen digits. *)
Definition digit_table (digits : list Z) : Prop :=
  length digits = 16%nat /\ forall d, 0 <= d < 16 -> digit_value (nth (Z.to_nat d) digits 0) = d /\ (nth (Z.to_nat d) digits 0 = 48 -> d = 0) /\
    0 < nth (Z.to_nat d) digits 0 < 128.

Lemma all_below (P : Z -> Prop) n : Forall P (seqZ 0 n) -> forall d, 0 <= d < n -> P d.
Proof. rewrite Forall_forall. intros H d Hd. apply H, elem_of_seqZ. lia. Qed.

Lemma digits_upper_ok : digit_table digits_upper.
Proof. split; [reflexivity|]. apply all_below. vm_compute. repeat constructor; discriminate. Qed.

Lemma digits_lower_ok : digit_table digits_lower.
Proof. split; [reflexivity|]. apply all_below. vm_compute. repeat constructor; discriminate. Qed.

Section Numeral.
Variables (digits : list Z) (base : Z).
Hypothesis T : digit_table digits.
Hypothesis Hb : 2 <= base <= 16.

Lemma digit_in d : 0 <= d < base -> nth (Z.to_nat d) digits 0 ∈ take (Z.to_nat base) digits.
Proof.
  intros Hd. destruct T as [Hl _]. apply (list_elem_of_lookup_2 _ (Z.to_nat d)). rewrite lookup_take_lt by lia.
  destruct (nth_lookup_or_length digits (Z.to_nat d) 0) as [E|E]; [exact E|lia].
Qed.

Lemma numeral_of_ok k : forall x, 0 <= x < base ^ Z.of_nat k -> (0 < k)%nat -> numeral digits base x (numeral_of k digits base x).
Proof.
  destruct T as [_ HT]. induction k as [|k IH]; intros x Hx Hk; [lia|]. cbn [numeral_of]. pose proof (Z.mod_pos_bound x base ltac:(lia)) as Hm.
  pose proof (Z.div_mod x base ltac:(lia)) as Hdm. destruct (HT (x mod base) ltac:(lia)) as (Hv & Hz & _). pose proof (digit_in (x mod base) Hm) as Hin.
  destruct (Z.eqb_spec (x / base) 0) as [E|E].
  - constructor; cbn; [|auto|].
    + change (value base [nth (Z.to_nat (x mod base)) digits 0]) with (0 * base + digit_value (nth (Z.to_nat (x mod base)) digits 0)). rewrite Hv. lia.
    + split; [discriminate|]. now intros ->.
  - rewrite Nat2Z.inj_succ, Z.pow_succ_r in Hx by lia. assert (0 <= x / base) by (apply Z.div_pos; lia).
    assert (Hlt : x / base < base ^ Z.of_nat k) by (apply Z.div_lt_upper_bound; lia).
    destruct k as [|k]; [cbn in Hlt; lia|]. destruct (IH (x / base) ltac:(lia) ltac:(lia)) as [V D [L1 L2]]. set (l := numeral_of _ _ _ _) in *. clearbody l. constructor.
    + rewrite value_snoc, V, Hv. lia.
    + apply Forall_app. auto.
    + split; [now destruct l|]. destruct l as [|c l]; [easy|]. cbn. intros ->. specialize (L2 eq_refl). injection L2 as ->. exfalso. apply E. rewrite <- V. reflexivity.
Qed.

Lemma numeral_of_length k j : forall x, 0 <= x < base ^ Z.of_nat j -> (0 < j)%nat -> (length (numeral_of k digits base x) <= j)%nat.
Proof.
  revert j; induction k as [|k IH]; intros j x Hx Hj; cbn [numeral_of]; [cbn; lia|]. rewrite length_app. cbn [length]. destruct (Z.eqb_spec (x / base) 0) as [E|E]; [cbn; lia|].
  destruct j as [|j]; [lia|]. rewrite Nat2Z.inj_succ, Z.pow_succ_r in Hx by lia. assert (0 <= x / base) by (apply Z.div_pos; lia).
  assert (Hlt : x / base < base ^ Z.of_nat j) by (apply Z.div_lt_upper_bound; lia). destruct j as [|j]; [cbn in Hlt; lia|].
  specialize (IH (S j) (x / base) ltac:(lia) ltac:(lia)). lia.
Qed.

(** The loop stores the numeral, the least significant digit first. *)
Lemma digit_loop_ok fuel : forall x buf (out : output), 0 <= x -> (length buf + length (numeral_of fuel digits base x) <= 16)%nat ->
  x < base ^ Z.of_nat fuel -> (0 < fuel)%nat -> digit_loop fuel digits base x buf out = Ok (buf ++ rev (numeral_of fuel digits base x)) out.
Proof.
  induction fuel as [|fuel IH]; intros x buf out Hx Hlen Hp H0; [lia|]. cbn [digit_loop numeral_of] in *. rewrite length_app in Hlen. cbn [length] in Hlen.
  unfold buf_push. rewrite (proj2 (Nat.ltb_lt _ _)) by lia. rewrite bind_ret. unfold truth. rewrite rev_app_distr. cbn [rev app].
  destruct (Z.eqb_spec (x / base) 0) as [E|E]; cbn [negb]; [reflexivity|]. rewrite Nat2Z.inj_succ, Z.pow_succ_r in Hp by lia.
  assert (0 <= x / base) by (apply Z.div_pos; lia). assert (Hlt : x / base < base ^ Z.of_nat fuel) by (apply Z.div_lt_upper_bound; lia).
  destruct fuel as [|fuel]; [cbn in Hlt; lia|]. rewrite IH; [now rewrite <- app_assoc|lia|rewrite length_app; cbn [length]; lia|lia|lia].
Qed.
End Numeral.

Lemma putcs_ok l : forall out, Forall (fun c => 0 <= c < 256) l -> putcs l out = Ok tt (out ++ l).
Proof.
  induction l as [|c l IH]; intros out F; cbn [putcs]; [unfold ret; now rewrite app_nil_r|]. inversion F; subst.
  unfold putc, modify, bind. rewrite IH by assumption. now rewrite u8_small, <- app_assoc.
Qed.

(** ** What the formats mean *)

Inductive directive := Plain (c : Z) | Decimal | Hexadecimal | Text | Character | Unknown (c : Z).

Definition directive_of (c : Z) : directive :=
  if c =? 100 then Decimal else if (c =? 120) || (c =? 112) then Hexadecimal else if c =? 115 then Text else if c =? 99 then Character
  else if c =? PERCENT then Plain PERCENT else Unknown c.

(** The directives of a format; a [%] at the end is dropped. *)
Fixpoint directives (fmt : list Z) : list directive :=
  match fmt with
  | [] => []
  | c :: fmt => if c =? PERCENT then match fmt with [] => [] | d :: fmt => directive_of d :: directives fmt end else Plain c :: directives fmt
  end.

Definition decimal (digits : list Z) (xx : Z) : list Z :=
  if xx <? 0 then MINUS :: numeral_of 33 digits 10 (- xx) else numeral_of 33 digits 10 xx.

Section Render.
Variable m : mem.
Variable bound : nat.
Variable arg : nat -> Z.

Variable digits : list Z.

Fixpoint render (ds : list directive) (ap : nat) : list Z :=
  match ds with
  | [] => []
  | Plain c :: ds => u8 c :: render ds ap
  | Decimal :: ds => decimal digits (s32 (arg ap)) ++ render ds (S ap)
  | Hexadecimal :: ds => numeral_of 33 digits 16 (u32 (arg ap)) ++ render ds (S ap)
  | Text :: ds => str_arg m bound (arg ap) ++ render ds (S ap)
  | Character :: ds => u8 (arg ap) :: render ds (S ap)
  | Unknown c :: ds => PERCENT :: u8 c :: render ds ap
  end.
End Render.

Lemma numeral_bytes digits base x l : digit_table digits -> 2 <= base <= 16 -> numeral digits base x l -> Forall (fun c => 0 <= c < 256) l.
Proof.
  intros [Hl HT] Hb [_ D _]. apply (Forall_impl _ _ _ D). intros c Hc. apply elem_of_take in Hc as (i & Hc & Hi).
  pose proof (lookup_lt_Some _ _ _ Hc). destruct (HT (Z.of_nat i) ltac:(lia)) as (_ & _ & Hr). rewrite Nat2Z.id, (nth_lookup_Some _ _ 0 _ Hc) in Hr. lia.
Qed.

Lemma digits_fit base x : 10 <= base <= 16 -> 0 <= x < two32 -> 0 <= x < base ^ Z.of_nat 33 /\ 0 <= x < base ^ Z.of_nat 10.
Proof.
  intros Hb Hx. change (Z.of_nat 33) with 33. change (Z.of_nat 10) with 10. pose proof (Z.pow_le_mono_l 10 base 33 ltac:(lia)). pose proof (Z.pow_le_mono_l 10 base 10 ltac:(lia)).
  change (10 ^ 33) with 1000000000000000000000000000000000 in *. change (10 ^ 10) with 10000000000 in *. unfold two32 in *. lia.
Qed.

(** The common part of the two [printint]. *)
Lemma print_digits_ok digits base x (neg : bool) out : digit_table digits -> 10 <= base <= 16 -> 0 <= x < two32 ->
  (buf <- digit_loop 33 digits base x [] ;; buf <- (if neg then buf_push buf MINUS else ret buf) ;; putcs (rev buf)) out =
  Ok tt (out ++ (if neg then [MINUS] else []) ++ numeral_of 33 digits base x).
Proof.
  intros T Hb Hx. destruct (digits_fit base x Hb Hx) as [H33 H10]. pose proof (numeral_of_length digits base ltac:(lia) 33 10 x H10 ltac:(lia)) as Hlen.
  pose proof (numeral_bytes digits base x _ T ltac:(lia) (numeral_of_ok digits base T ltac:(lia) 33 x H33 ltac:(lia))) as Hby.
  rewrite (bind_ok _ _ _ _ _ (digit_loop_ok digits base ltac:(lia) 33 x [] out ltac:(lia) ltac:(cbn [length]; lia) ltac:(lia) ltac:(lia))). cbn [app].
  set (l := numeral_of 33 digits base x) in *. clearbody l. destruct neg; cbn [app].
  - unfold buf_push. rewrite length_rev, (proj2 (Nat.ltb_lt _ _)) by lia. rewrite bind_ret, rev_app_distr, rev_involutive. cbn [rev app].
    apply putcs_ok. constructor; [unfold MINUS; lia|exact Hby].
  - rewrite bind_ret, rev_involutive. now apply putcs_ok.
Qed.

Lemma printint_dec xx out : - two31 <= xx < two31 -> printint xx 10 1 out = Ok tt (out ++ decimal digits_upper xx).
Proof.
  intros Hx. unfold printint, decimal. change (truth 1) with true. cbn [andb]. unfold two31 in Hx. destruct (Z.ltb_spec xx 0).
  - rewrite u32_small by (unfold two32; lia). rewrite (print_digits_ok digits_upper 10 _ true); [reflexivity|exact digits_upper_ok|lia|unfold two32; lia].
  - rewrite u32_small by (unfold two32; lia). rewrite (print_digits_ok digits_upper 10 _ false); [reflexivity|exact digits_upper_ok|lia|unfold two32; lia].
Qed.

Lemma printint_hex xx out : printint xx 16 0 out = Ok tt (out ++ numeral_of 33 digits_upper 16 (u32 xx)).
Proof.
  unfold printint. change (truth 0) with false. cbn [andb]. cbv zeta iota. rewrite (print_digits_ok digits_upper 16 _ false); [reflexivity|exact digits_upper_ok|lia|apply u32_bound].
Qed.

Lemma cprintint_dec xx out : - two31 <= xx < two31 -> cprintint xx 10 1 out = Ok tt (out ++ decimal digits_lower xx).
Proof.
  intros Hx. unfold cprintint, decimal. change (truth 1) with true. cbv iota. unfold two31 in Hx. destruct (Z.ltb_spec xx 0).
  - rewrite u32_small by (unfold two32; lia). rewrite (print_digits_ok digits_lower 10 _ true); [reflexivity|exact digits_lower_ok|lia|unfold two32; lia].
  - rewrite u32_small by (unfold two32; lia). rewrite (print_digits_ok digits_lower 10 _ false); [reflexivity|exact digits_lower_ok|lia|unfold two32; lia].
Qed.

Lemma cprintint_hex xx out : cprintint xx 16 0 out = Ok tt (out ++ numeral_of 33 digits_lower 16 (u32 xx)).
Proof.
  unfold cprintint. change (truth 0) with false. cbv iota. rewrite (print_digits_ok digits_lower 16 _ false); [reflexivity|exact digits_lower_ok|lia|apply u32_bound].
Qed.

(** ** Properties *)

Section Properties.
Variable m : mem.
Variable bound : nat.
Variable arg : nat -> Z.
Hypothesis Hm : mem_ok m.

Lemma str_arg_bytes s : Forall (fun c => 0 <= c < 256) (str_arg m bound s).
Proof.
  unfold str_arg. destruct (s =? 0); [repeat constructor; lia|]. revert s. induction bound as [|n IH]; intros s; cbn [cstr]; [constructor|].
  destruct (truth (m s)); [|constructor]. constructor; [apply Hm|apply IH].
Qed.

Lemma puts_then l (k : M output unit) out : Forall (fun c => 0 <= c < 256) l -> (putcs l ;;; k) out = k (out ++ l).
Proof. intros F. now rewrite (bind_ok _ _ _ _ _ (putcs_ok l out F)). Qed.

Lemma putc_then c (k : M output unit) (out : output) : (putc c ;;; k) out = k (out ++ [u8 c]).
Proof. reflexivity. Qed.

Lemma printf_loop_ok fmt :
  (forall ap out, printf_loop m bound arg fmt false ap out = Ok tt (out ++ render m bound arg digits_upper (directives fmt) ap)) /\
  (forall ap out, printf_loop m bound arg fmt true ap out =
    Ok tt (out ++ render m bound arg digits_upper (match fmt with [] => [] | d :: fmt => directive_of d :: directives fmt end) ap)).
Proof.
  induction fmt as [|c fmt [IH0 IH1]]; [split; intros; cbn; now rewrite app_nil_r|]. split; intros ap out; cbn [printf_loop directives negb].
  - destruct (c =? PERCENT); [apply IH1|]. rewrite putc_then, IH0. cbn [render]. now rewrite <- app_assoc.
  - unfold directive_of. destruct (c =? 100); [rewrite (bind_ok _ _ _ _ _ (printint_dec _ _ (s32_bound _))), IH0; cbn [render]; now rewrite <- app_assoc|].
    destruct ((c =? 120) || (c =? 112)); [rewrite (bind_ok _ _ _ _ _ (printint_hex _ _)), IH0; cbn [render]; now rewrite u32_s32, <- app_assoc|].
    destruct (c =? 115); [rewrite puts_then, IH0 by apply str_arg_bytes; cbn [render]; now rewrite <- app_assoc|].
    destruct (c =? 99); [rewrite putc_then, IH0; cbn [render]; now rewrite <- app_assoc|].
    destruct (Z.eqb_spec c PERCENT) as [->|]; rewrite !putc_then, IH0; cbn [render]; now rewrite <- !app_assoc.
Qed.

(** The directives of [cprintf]: there is no [%c]. *)
Definition cdirective (d : directive) : directive := match d with Character => Unknown 99 | d => d end.

Lemma cprintf_loop_ok k : forall fmt ap out, (length fmt <= k)%nat ->
  cprintf_loop m bound arg fmt ap out = Ok tt (out ++ render m bound arg digits_lower (map cdirective (directives fmt)) ap).
Proof.
  induction k as [|k IH]; intros [|c fmt] ap out Hk; cbn [length] in Hk; try lia; try (cbn; now rewrite app_nil_r). cbn [cprintf_loop directives].
  destruct (c =? PERCENT) eqn:Ec; cbn [negb]; [|rewrite putc_then, IH by lia; cbn [map cdirective render]; now rewrite <- app_assoc].
  destruct fmt as [|d fmt]; [cbn; now rewrite app_nil_r|]. cbn [length] in Hk. assert (IH' : forall ap out, cprintf_loop m bound arg fmt ap out =
    Ok tt (out ++ render m bound arg digits_lower (map cdirective (directives fmt)) ap)) by (intros; apply IH; lia). clear IH. cbn [map]. unfold directive_of.
  destruct (d =? 100); [rewrite (bind_ok _ _ _ _ _ (cprintint_dec _ _ (s32_bound _))), IH'; cbn [render cdirective]; now rewrite <- app_assoc|].
  destruct ((d =? 120) || (d =? 112)); [rewrite (bind_ok _ _ _ _ _ (cprintint_hex _ _)), IH'; cbn [render cdirective]; now rewrite u32_s32, <- app_assoc|].
  destruct (d =? 115); [rewrite puts_then, IH' by apply str_arg_bytes; cbn [render cdirective]; now rewrite <- app_assoc|].
  destruct (Z.eqb_spec d 99) as [->|]; [change (99 =? PERCENT) with false; cbv iota; rewrite !putc_then, IH'; cbn [render cdirective]; now rewrite <- !app_assoc|].
  destruct (Z.eqb_spec d PERCENT) as [->|]; rewrite !putc_then, IH'; cbn [render cdirective]; now rewrite <- !app_assoc.
Qed.
End Properties.

(** [printf] and [cprintf] print what the format says: the characters of the
    format, with the numeral of the next argument for [%d], [%x] and [%p] and its
    characters for [%s] (and [%c] for [printf]); an unknown sequence is printed as
    it is, and a [%] at the end of the format is dropped.  The buffer of
    [printint] never overflows, also for the least integer.  The numerals have the
    value of the argument and no leading zeroes. *)
Theorem printf_renders m bound arg fmt out : mem_ok m ->
  printf m bound arg fmt out = Ok tt (out ++ render m bound arg digits_upper (directives fmt) 0) /\
  cprintf m bound arg fmt out = Ok tt (out ++ render m bound arg digits_lower (map cdirective (directives fmt)) 0) /\
  (forall base x, 10 <= base <= 16 -> 0 <= x < two32 ->
     numeral digits_upper base x (numeral_of 33 digits_upper base x) /\ numeral digits_lower base x (numeral_of 33 digits_lower base x)).
Proof.
  intros Hm. split; [apply (printf_loop_ok m bound arg Hm)|]. split; [now apply (cprintf_loop_ok m bound arg Hm (length fmt))|].
  intros base x Hb Hx. destruct (digits_fit base x Hb Hx) as [H33 _].
  split; apply numeral_of_ok; auto using digits_upper_ok, digits_lower_ok; lia.
Qed.

(** [printf(fd, "%d%%", -2147483648)]. *)
Lemma printf_renders_witness : printf (fun _ => 0) 0 (fun _ => 0x80000000) [37; 100; 37; 37] [] =
  Ok tt [45; 50; 49; 52; 55; 52; 56; 51; 54; 52; 56; 37].
Proof.
  rewrite (proj1 (printf_renders (fun _ => 0) 0 (fun _ => 0x80000000) [37; 100; 37; 37] [] ltac:(intros a; lia))). vm_compute. reflexivity.
Defined.
