(* ===== verification/Ulib.v ===== *)
(** The C library of user programs: [src/xv6/xv6-public/ulib.c].

    The string routines run on the memory of the process; loops that look for a
    NUL have a bound on the number of rounds, [None] when it is not enough. *)

From stdpp Require Import gmap.
From S2P Require Import Prelude Mem Print.

(** [while(( *s++ = *t++ ) != 0);] *)
Fixpoint strcpy (fuel : nat) (m : mem) (s t : Z) : option mem :=
  match fuel with
  | O => None
  | S fuel => let c := m t in let m := store8 m s c in if truth c then strcpy fuel m (s + 1) (t + 1) else Some m
  end.

Fixpoint strcmp (fuel : nat) (m : mem) (p q : Z) : option Z :=
  match fuel with
  | O => None
  | S fuel => if truth (m p) && (m p =? m q) then strcmp fuel m (p + 1) (q + 1) else Some (u8 (m p) - u8 (m q))
  end.

(** The address of the first [c], or 0. *)
Fixpoint strchr (fuel : nat) (m : mem) (s c : Z) : option Z :=
  match fuel with
  | O => None
  | S fuel => if truth (m s) then if m s =? c then Some s else strchr fuel m (s + 1) c else Some 0
  end.

Definition umemset (m : mem) (dst c n : Z) : mem := stosb m dst c (Z.to_nat n).

(** [gets] with the characters that [read(0, &c, 1)] will deliver: the memory, and
    the characters that are left. *)
Fixpoint gets_loop (fuel : nat) (m : mem) (buf i max : Z) (input : list Z) : option (mem * list Z) :=
  match fuel with
  | O => None
  | S fuel =>
      if i + 1 <? max then
        match input with
        | [] => Some (store8 m (buf + i) 0, [])
        | c :: input =>
            let m := store8 m (buf + i) c in
            if (c =? 10) || (c =? 13) then Some (store8 m (buf + (i + 1)) 0, input) else gets_loop fuel m buf (i + 1) max input
        end
      else Some (store8 m (buf + i) 0, input)
  end.

Definition ugets (m : mem) (buf max : Z) (input : list Z) : option (mem * list Z) := gets_loop (S (Z.to_nat max)) m buf 0 max input.

Fixpoint atoi_loop (fuel : nat) (m : mem) (s n : Z) : option Z :=
  match fuel with
  | O => None
  | S fuel => if (48 <=? m s) && (m s <=? 57) then atoi_loop fuel m (s + 1) (s32 (n * 10 + m s - 48)) else Some n
  end.

Definition atoi (fuel : nat) (m : mem) (s : Z) : option Z := atoi_loop fuel m s 0.

(** [while(n-- > 0) *dst++ = *src++;], whatever the order of the two regions. *)
Definition umemmove (m : mem) (vdst vsrc n : Z) : mem := copy_up m vdst vsrc (Z.to_nat n).

(** ** [gets] *)

Definition newline (c : Z) : bool := (c =? 10) || (c =? 13).

(** The line [gets] takes: at most [n] characters, up to the end of the line. *)
Fixpoint line_of (n : nat) (input : list Z) : list Z :=
  match n, input with
  | S n, c :: input => c :: (if newline c then [] else line_of n input)
  | _, _ => []
  end.

Lemma line_of_length n : forall input, (length (line_of n input) <= n)%nat.
Proof. induction n as [|n IH]; intros [|c input]; cbn; try lia. destruct (newline c); cbn; [lia|]. specialize (IH input). lia. Qed.

Lemma line_of_input n : forall input, (length (line_of n input) <= length input)%nat.
Proof. induction n as [|n IH]; intros [|c input]; cbn; try lia. destruct (newline c); cbn; [lia|]. specialize (IH input). lia. Qed.

(** The memory after a line was read at [p]. *)
Record line_read (m m' : mem) (p : Z) (l : list Z) : Prop := {
  lr_chars : bytes m' p (length l) = l;
  lr_nul : m' (p + Z.of_nat (length l)) = 0;
  lr_rest : forall x, ~ p <= x <= p + Z.of_nat (length l) -> m' x = m x
}.

Lemma line_read_cons m m' p c l : 0 <= c < 256 -> line_read (store8 m p c) m' (p + 1) l -> line_read m m' p (c :: l).
Proof.
  intros Hc [Ch N R]. constructor; cbn [length bytes].
  - rewrite Ch, R by lia. now rewrite load8_store8_eq, u8_small.
  - rewrite <- N. f_equal. lia.
  - intros x Hx. rewrite R by lia. apply load8_store8_ne. lia.
Qed.

Lemma line_read_nil m p : line_read m (store8 m p 0) p [].
Proof.
  constructor; cbn [length]; [reflexivity|now rewrite Z.add_0_r, load8_store8_eq|]. intros x Hx. apply load8_store8_ne. lia.
Qed.

Lemma gets_loop_ok n : forall m buf i max input, max = i + Z.of_nat n + 1 -> Forall (fun c => 0 <= c < 256) input ->
  exists m', gets_loop (S n) m buf i max input = Some (m', drop (length (line_of n input)) input) /\ line_read m m' (buf + i) (line_of n input).
Proof.
  induction n as [|n IH]; intros m buf i max input Hm Hi.
  - cbn [gets_loop line_of length drop]. rewrite (proj2 (Z.ltb_ge _ _)) by lia. exists (store8 m (buf + i) 0). destruct input; split; auto using line_read_nil.
  - remember (S n) as k. cbn [gets_loop]. subst k. rewrite (proj2 (Z.ltb_lt _ _)) by lia. destruct input as [|c input]; [cbn; eauto using line_read_nil|].
    inversion Hi as [|? ? Hc Hi']; subst. cbn beta in Hc. change ((c =? 10) || (c =? 13)) with (newline c). cbn [line_of]. destruct (newline c).
    + cbn [length drop]. replace (buf + (i + 1)) with (buf + i + 1) by lia. eauto using line_read_cons, line_read_nil.
    + destruct (IH (store8 m (buf + i) c) buf (i + 1) (i + Z.of_nat (S n) + 1) input ltac:(lia) Hi') as (m' & E & L). rewrite E. exists m'. split; [reflexivity|].
      apply line_read_cons; [exact Hc|]. now replace (buf + i + 1) with (buf + (i + 1)) by lia.
Qed.

(** [gets] takes the next line, or as much of it as fits, and terminates it. *)
Lemma ugets_ok m buf max input : 1 <= max -> Forall (fun c => 0 <= c < 256) input ->
  let l := line_of (Z.to_nat (max - 1)) input in
  exists m', ugets m buf max input = Some (m', drop (length l) input) /\ line_read m m' buf l.
Proof.
  intros Hm Hi l. unfold ugets. assert (Mono : forall f m i inp r, gets_loop f m buf i max inp = Some r -> gets_loop (S f) m buf i max inp = Some r).
  { clear. induction f as [|f IH]; intros m i inp r E; [discriminate|]. remember (S f) as k. cbn [gets_loop]. rewrite Heqk in E. cbn [gets_loop] in E. subst k.
    destruct (i + 1 <? max); [|exact E]. destruct inp as [|c inp]; [exact E|]. destruct (_ || _); [exact E|]. now apply IH. }
  destruct (gets_loop_ok (Z.to_nat (max - 1)) m buf 0 max input ltac:(lia) Hi) as (m' & E & L). rewrite Z.add_0_r in L. exists m'. split; [|exact L].
  replace (Z.to_nat max) with (S (Z.to_nat (max - 1))) by lia. now apply Mono.
Qed.

(** ** Reading back what was printed *)

Lemma atoi_loop_ok l : forall m s n, Forall (fun c => 48 <= c <= 57) l -> bytes m s (length l) = l ->
  ~ 48 <= m (s + Z.of_nat (length l)) <= 57 -> 0 <= n -> fold_left (fun a c => a * 10 + digit_value c) l n < two31 ->
  atoi_loop (S (length l)) m s n = Some (fold_left (fun a c => a * 10 + digit_value c) l n).
Proof.
  assert (Mono : forall l n, Forall (fun c => 48 <= c <= 57) l -> 0 <= n -> n <= fold_left (fun a c => a * 10 + digit_value c) l n).
  { clear. induction l as [|c l IH]; intros n F Hn; cbn [fold_left]; [lia|]. inversion F as [|? ? Hc F']; subst. cbn beta in Hc. 
    assert (Ed : digit_value c = c - 48) by (unfold digit_value; now rewrite (proj2 (Z.leb_le c 57)) by lia). rewrite Ed. specialize (IH (n * 10 + (c - 48)) F' ltac:(lia)). lia. }
  induction l as [|c l IH]; intros m s n F B End_ Hn Hlt.
  - cbn [length] in *. change (Z.of_nat 0) with 0 in End_. rewrite Z.add_0_r in End_. cbn [atoi_loop fold_left].
    destruct (Z.leb_spec 48 (m s)), (Z.leb_spec (m s) 57); cbn [andb]; auto; lia.
  - inversion F as [|? ? Hc F']; subst. cbn beta in Hc. cbn [length bytes] in B. injection B as Bc B. cbn [length].
    change (atoi_loop (S (S (length l))) m s n) with (if (48 <=? m s) && (m s <=? 57) then atoi_loop (S (length l)) m (s + 1) (s32 (n * 10 + m s - 48)) else Some n).
    rewrite Bc.
    rewrite (proj2 (Z.leb_le 48 c)), (proj2 (Z.leb_le c 57)) by lia. cbn [andb fold_left] in *.
    assert (Ed : digit_value c = c - 48) by (unfold digit_value; now rewrite (proj2 (Z.leb_le c 57)) by lia). rewrite Ed in *.
    pose proof (Mono l (n * 10 + (c - 48)) F' ltac:(lia)). rewrite s32_small by (unfold two31 in *; lia).
    replace (n * 10 + c - 48) with (n * 10 + (c - 48)) by lia.
    apply IH; auto; [|lia]. cbn [length] in End_. now replace (s + 1 + Z.of_nat (length l)) with (s + Z.of_nat (S (length l))) by lia.
Qed.

Lemma decimal_digits x l : numeral digits_upper 10 x l -> Forall (fun c => 48 <= c <= 57) l.
Proof.
  intros [_ D _]. apply (Forall_impl _ _ _ D). intros c Hc. change (take (Z.to_nat 10) digits_upper) with [48; 49; 50; 51; 52; 53; 54; 55; 56; 57] in Hc.
  repeat (apply elem_of_cons in Hc as [->|Hc]; [lia|]). now apply elem_of_nil in Hc.
Qed.

(** [atoi] reads what [printint] prints.  For every [int] that is not negative,
    [printint] in base 10 prints characters from which [atoi] gets the number back,
    wherever they are followed by something that is no digit. *)
Theorem printint_atoi x : 0 <= x < two31 -> exists l, printint x 10 1 [] = Ok tt l /\
  forall m s, bytes m s (length l) = l -> ~ 48 <= m (s + Z.of_nat (length l)) <= 57 -> atoi (S (length l)) m s = Some x.
Proof.
  intros Hx. exists (decimal digits_upper x). split; [rewrite printint_dec; [reflexivity|unfold two31 in *; lia]|].
  unfold decimal. rewrite (proj2 (Z.ltb_ge x 0)) by lia. destruct (digits_fit 10 x ltac:(lia) ltac:(unfold two31, two32 in *; lia)) as [H33 _].
  pose proof (numeral_of_ok digits_upper 10 digits_upper_ok ltac:(lia) 33 x H33 ltac:(lia)) as N. set (l := numeral_of 33 digits_upper 10 x) in *. clearbody l.
  intros m s B E. pose proof (nu_value _ _ _ _ N) as V. unfold value in V. unfold atoi.
  rewrite (atoi_loop_ok l m s 0 (decimal_digits x l N) B E ltac:(lia)); rewrite V; [reflexivity|lia].
Qed.

Lemma printint_atoi_witness : exists l, printint 507 10 1 [] = Ok tt l /\ atoi (S (length l)) (fun a => nth (Z.to_nat a) l 0) 0 = Some 507.
Proof.
  destruct (printint_atoi 507 ltac:(unfold two31; lia)) as (l & Hp & Ha). exists l. split; [exact Hp|].
  assert (El : l = [53; 48; 55]) by (vm_compute in Hp; now injection Hp as <-). rewrite El in *. apply Ha; [reflexivity|]. vm_compute. intros [Hd _]. now apply Hd.
Defined.
