(* ===== verification/Sh.v ===== *)
(** The parser of the shell: [src/xv6/xv6-public/sh.c].

    The line is in the memory, from [s] to the NUL at [es]; a [char *] is its
    address.  The functions that take [char **ps] run on the value of [*ps].  A
    [struct cmd *] is a tree; strings in it are the addresses of their first
    character and of the character after their last.  [malloc] is taken to
    succeed.

    The parser is compared with a grammar, given by the trees of its derivations:
    [sline], [spipe] and [sexec]. *)

From stdpp Require Import gmap.
From S2P Require Import Prelude Mem File.

(** [char whitespace[]], [char symbols[]] and [#define MAXARGS]. *)
Definition whitespace : list Z := [32; 9; 13; 10; 11].
Definition symbols : list Z := [60; 124; 62; 38; 59; 40; 41].
Definition MAXARGS : nat := 10.

(** [strchr(toks, c) != 0] for a constant string, given by its characters. *)
Definition in_set (toks : list Z) (c : Z) : bool := existsb (Z.eqb c) toks.

(** The results of [gettoken] that are not characters of the line: ['a'] for a
    word, ['+'] for [>>]. *)
Definition TWORD : Z := 97.
Definition TAPPEND : Z := 43.

Inductive cmd :=
| EXEC (argv : list (Z * Z))
| REDIR (c : cmd) (file efile mode fd : Z)
| PIPE (left right : cmd)
| LIST (left right : cmd)
| BACK (c : cmd).

(** The constructors; [malloc] is taken to succeed. *)
Definition execcmd : cmd := EXEC [].
Definition redircmd (subcmd : cmd) (file efile mode fd : Z) : cmd := REDIR subcmd file efile mode fd.
Definition pipecmd (left right : cmd) : cmd := PIPE left right.
Definition listcmd (left right : cmd) : cmd := LIST left right.
Definition backcmd (subcmd : cmd) : cmd := BACK subcmd.

(** [cmd->argv] of the [struct execcmd] that [parseexec] keeps a pointer to, below
    the redirections it has put around it. *)
Fixpoint set_argv (argv : list (Z * Z)) (c : cmd) : cmd :=
  match c with
  | EXEC _ => EXEC argv
  | REDIR c file efile mode fd => REDIR (set_argv argv c) file efile mode fd
  | c => c
  end.

Section Parser.
Variable m : mem.
Variable es : Z.

(** [while(s < es && strchr(whitespace, *s)) s++;] *)
Fixpoint skip_space_loop (k : nat) (s : Z) : Z :=
  match k with
  | O => s
  | S k => if (s <? es) && in_set whitespace (m s) then skip_space_loop k (s + 1) else s
  end.
Definition skip_space (s : Z) : Z := skip_space_loop (Z.to_nat (es - s)) s.

(** [while(s < es && !strchr(whitespace, *s) && !strchr(symbols, *s)) s++;] *)
Fixpoint skip_word_loop (k : nat) (s : Z) : Z :=
  match k with
  | O => s
  | S k => if (s <? es) && negb (in_set whitespace (m s)) && negb (in_set symbols (m s)) then skip_word_loop k (s + 1) else s
  end.
Definition skip_word (s : Z) : Z := skip_word_loop (Z.to_nat (es - s)) s.

(** The result, [*q] and [*eq]. *)
Definition gettoken : M Z (Z * Z * Z) := fun ps =>
  let q := skip_space ps in
  let c := m q in
  let '(ret, s) :=
    if c =? 0 then (0, q)
    else if in_set [124; 40; 41; 59; 38; 60] c then (c, q + 1)
    else if c =? 62 then if m (q + 1) =? 62 then (TAPPEND, q + 2) else (c, q + 1)
    else (TWORD, skip_word q) in
  Ok (ret, q, s) (skip_space s).

Definition peek (toks : list Z) : M Z bool := fun ps =>
  let s := skip_space ps in Ok (truth (m s) && in_set toks (m s)) s.

(** The redirection that [parseredirs] makes for a token. *)
Definition redir_for (tok : Z) (c : cmd) (q eq : Z) : cmd :=
  if tok =? 60 then redircmd c q eq O_RDONLY 0
  else if (tok =? 62) || (tok =? TAPPEND) then redircmd c q eq (Z.lor O_WRONLY O_CREATE) 1
  else c.

Fixpoint parseredirs (fuel : nat) (c : cmd) : M Z cmd :=
  match fuel with
  | O => nofuel
  | S fuel =>
      b <- peek [60; 62] ;;
      if (b : bool) then
        t <- gettoken ;;
        f <- gettoken ;;
        let '(tok, _, _) := t in
        let '(ftok, q, eq) := f in
        if negb (ftok =? TWORD) then panic "missing file for redirection"
        else parseredirs fuel (redir_for tok c q eq)
      else ret c
  end.

(** The loop of [parseexec] over the words of a command. *)
Fixpoint parseexec_loop (fuel : nat) (r : cmd) (argv : list (Z * Z)) : M Z cmd :=
  match fuel with
  | O => nofuel
  | S fuel =>
      b <- peek [124; 41; 38; 59] ;;
      if (b : bool) then ret r else
      t <- gettoken ;;
      let '(tok, q, eq) := t in
      if tok =? 0 then ret r
      else if negb (tok =? TWORD) then panic "syntax"
      else
        let argv := argv ++ [(q, eq)] in
        if (MAXARGS <=? length argv)%nat then panic "too many args"
        else r <- parseredirs fuel (set_argv argv r) ;; parseexec_loop fuel r argv
  end.

(** The loop of [parseline] over [&]. *)
Fixpoint parseback (fuel : nat) (c : cmd) : M Z cmd :=
  match fuel with
  | O => nofuel
  | S fuel => b <- peek [38] ;; if (b : bool) then gettoken ;;; parseback fuel (backcmd c) else ret c
  end.

Fixpoint parseline (fuel : nat) : M Z cmd :=
  match fuel with
  | O => nofuel
  | S fuel =>
      c <- parsepipe fuel ;;
      c <- parseback fuel c ;;
      b <- peek [59] ;;
      if (b : bool) then gettoken ;;; r <- parseline fuel ;; ret (listcmd c r) else ret c
  end
with parsepipe (fuel : nat) : M Z cmd :=
  match fuel with
  | O => nofuel
  | S fuel =>
      c <- parseexec fuel ;;
      b <- peek [124] ;;
      if (b : bool) then gettoken ;;; r <- parsepipe fuel ;; ret (pipecmd c r) else ret c
  end
with parseexec (fuel : nat) : M Z cmd :=
  match fuel with
  | O => nofuel
  | S fuel =>
      b <- peek [40] ;;
      if (b : bool) then parseblock fuel
      else r <- parseredirs fuel execcmd ;; parseexec_loop fuel r []
  end
with parseblock (fuel : nat) : M Z cmd :=
  match fuel with
  | O => nofuel
  | S fuel =>
      b <- peek [40] ;;
      if negb b then panic "parseblock" else
      gettoken ;;;
      c <- parseline fuel ;;
      b <- peek [41] ;;
      if negb b then panic "syntax - missing )" else
      gettoken ;;;
      parseredirs fuel c
  end.

End Parser.

(** NUL-terminate the strings of a command. *)
Fixpoint nulterminate (c : cmd) (m : mem) : mem :=
  match c with
  | EXEC argv => fold_left (fun m a => store8 m (snd a) 0) argv m
  | REDIR c file efile mode fd => store8 (nulterminate c m) efile 0
  | PIPE l r => nulterminate r (nulterminate l m)
  | LIST l r => nulterminate r (nulterminate l m)
  | BACK c => nulterminate c m
  end.

(** [parsecmd] of the string at [s]; [len] is a bound for its length, and [fuel]
    one for the depth of the calls of the parser. *)
Definition parsecmd (len fuel : nat) (s : Z) : M mem cmd := fun m =>
  match strlen m s len with
  | None => NoFuel
  | Some n =>
      let es := s + n in
      match parseline m es fuel s with
      | Ok c ps =>
          if negb (skip_space m es ps =? es) then Panic "syntax" else Ok c (nulterminate c m)
      | Panic e => Panic e
      | Fault e => Fault e
      | NoFuel => NoFuel
      end
  end.

(** ** Tokens *)

(** A character of a word. *)
Definition ordinary (c : Z) : bool := truth c && negb (in_set whitespace c) && negb (in_set symbols c).

(** A NUL-terminated line from [s] to [es]. *)
Record text (m : mem) (s es : Z) : Prop := {
  tx_le : s <= es;
  tx_end : m es = 0;
  tx_mid : forall x, s <= x < es -> m x <> 0
}.

(** A word of the line, from [q] to [e], as long as possible. *)
Record word (m : mem) (s es q e : Z) : Prop := {
  wd_range : s <= q < e /\ e <= es;
  wd_chars : forall x, q <= x < e -> ordinary (m x) = true;
  wd_end : ordinary (m e) = false
}.

Section Lexer.
Variable m : mem.
Variables s es : Z.
Hypothesis T : text m s es.

Abbreviation skip := (skip_space m es).

Lemma skip_space_spec p : p <= es -> p <= skip p <= es /\ (skip p = es \/ in_set whitespace (m (skip p)) = false).
Proof.
  unfold skip_space. remember (Z.to_nat (es - p)) as k eqn:Ek. revert p Ek. induction k as [|k IH]; intros p Ek Hp; cbn [skip_space_loop]; [lia|].
  rewrite (proj2 (Z.ltb_lt p es)) by lia. cbn [andb]. destruct (in_set whitespace (m p)) eqn:E; [|split; [lia|auto]].
  destruct (IH (p + 1) ltac:(lia) ltac:(lia)) as [R S]. split; [lia|exact S].
Qed.

Lemma skip_space_stop p : p = es \/ in_set whitespace (m p) = false -> skip p = p.
Proof.
  intros H. unfold skip_space. destruct (Z.to_nat (es - p)) as [|k]; cbn [skip_space_loop]; [reflexivity|].
  destruct H as [->|H]; [now rewrite Z.ltb_irrefl|]. rewrite H. now rewrite andb_false_r.
Qed.

Lemma skip_skip p : p <= es -> skip (skip p) = skip p.
Proof. intros Hp. apply skip_space_stop. now apply skip_space_spec. Qed.

Lemma skip_word_spec p : p <= es -> p <= skip_word m es p <= es /\ (forall x, p <= x < skip_word m es p -> negb (in_set whitespace (m x)) && negb (in_set symbols (m x)) = true) /\
  (skip_word m es p = es \/ negb (in_set whitespace (m (skip_word m es p))) && negb (in_set symbols (m (skip_word m es p))) = false).
Proof.
  unfold skip_word. remember (Z.to_nat (es - p)) as k eqn:Ek. revert p Ek. induction k as [|k IH]; intros p Ek Hp; cbn [skip_word_loop]; [split; [lia|]; split; [intros; lia|lia]|].
  rewrite (proj2 (Z.ltb_lt p es)) by lia. cbn [andb]. destruct (negb (in_set whitespace (m p)) && negb (in_set symbols (m p))) eqn:E.
  - destruct (IH (p + 1) ltac:(lia) ltac:(lia)) as (R & A & S). split; [lia|]. split; [|exact S]. intros x Hx. destruct (Z.eq_dec x p) as [->|]; [exact E|apply A; lia].
  - split; [lia|]. split; [intros; lia|auto].
Qed.

(** The token at [p], and the position after it. *)
Definition token (p : Z) : Z * Z * Z := match gettoken m es p with Ok t _ => t | _ => (0, 0, 0) end.
Definition code (p : Z) : Z := fst (fst (token p)).
Definition after (p : Z) : Z := skip (snd (token p)).

Lemma gettoken_token p : gettoken m es p = Ok (token p) (after p).
Proof.
  unfold after, token, gettoken. destruct (m (skip p) =? 0); [reflexivity|]. destruct (in_set _ _); [reflexivity|].
  destruct (m (skip p) =? 62); [|reflexivity]. now destruct (m (skip p + 1) =? 62).
Qed.

(** The first character of a token with a given code, when it is a symbol. *)
Definition lead (c : Z) : Z := if c =? TAPPEND then 62 else c.

Lemma in_set_spec toks c : in_set toks c = true <-> c ∈ toks.
Proof.
  unfold in_set. rewrite existsb_exists. split.
  - intros (x & Hx & E). apply Z.eqb_eq in E as ->. now apply list_elem_of_In.
  - intros H. exists c. split; [now apply list_elem_of_In|apply Z.eqb_refl].
Qed.

(** What [gettoken] finds at a position of the line. *)
Lemma token_spec p : s <= p <= es -> let '(c, q, e) := token p in
  q = skip p /\ p <= q <= e /\ e <= es /\
  ((c = 0 /\ q = es /\ e = es) \/
   (q < e /\ c = TWORD /\ word m s es q e /\ in_set symbols (m q) = false) \/
   (q < e /\ c <> TWORD /\ c <> 0 /\ lead c = m q /\ in_set symbols (m q) = true)).
Proof.
  intros Hp. destruct (skip_space_spec p ltac:(lia)) as [Hr Hs]. unfold token, gettoken. set (q := skip p) in *.
  destruct (Z.eqb_spec (m q) 0) as [E0|E0].
  { assert (q = es) by (destruct (Z.eq_dec q es); [assumption|destruct (tx_mid _ _ _ T q ltac:(lia)); exact E0]). split_and!; auto; lia. }
  assert (Hq : q < es) by (destruct (Z.eq_dec q es) as [E|]; [destruct E0; rewrite E; apply T|lia]).
  destruct Hs as [Hs|Hs]; [lia|].
  destruct (in_set [124; 40; 41; 59; 38; 60] (m q)) eqn:E1.
  { split_and!; auto; try lia. right. right. rewrite in_set_spec in E1. unfold lead, TWORD, TAPPEND.
    repeat (apply elem_of_cons in E1 as [E1|E1]; [rewrite E1; split_and!; [lia|discriminate|discriminate|reflexivity|reflexivity]|]). now apply elem_of_nil in E1. }
  destruct (Z.eqb_spec (m q) 62) as [E2|E2].
  - destruct (Z.eqb_spec (m (q + 1)) 62) as [E3|E3]; split_and!; auto; try lia.
    + destruct (Z.eq_dec (q + 1) es) as [E|]; [|lia]. rewrite E, (tx_end _ _ _ T) in E3. discriminate.
    + right. right. rewrite E2. split_and!; try lia; try discriminate; reflexivity.
    + right. right. rewrite E2. split_and!; try lia; try discriminate; reflexivity.
  - assert (Hsym : in_set symbols (m q) = false).
    { apply not_true_is_false. rewrite in_set_spec. intros H. unfold symbols in H. apply not_true_iff_false in E1. apply E1, in_set_spec.
      repeat (apply elem_of_cons in H as [H|H]; [rewrite H in *; try (now destruct E2); rewrite !elem_of_cons; tauto|]). now apply elem_of_nil in H. }
    destruct (skip_word_spec q ltac:(lia)) as (R & A & S). set (e := skip_word m es q) in *.
    assert (Hqe : q < e).
    { destruct (Z.eq_dec q e) as [E|]; [|lia]. destruct S as [S|S]; [lia|]. rewrite <- E, Hs, Hsym in S. discriminate. }
    split_and!; auto; try lia. right. left. split_and!; auto. constructor; [lia| |].
    + intros x Hx. unfold ordinary. rewrite <- andb_assoc, A by lia. unfold truth. rewrite (proj2 (Z.eqb_neq _ _)); [reflexivity|]. apply (tx_mid _ _ _ T). lia.
    + unfold ordinary. rewrite <- andb_assoc. destruct S as [S|S]; [rewrite S, (tx_end _ _ _ T); reflexivity|]. now rewrite S, andb_false_r.
Qed.

Lemma token_skip p : s <= p <= es -> token (skip p) = token p.
Proof. intros Hp. unfold token, gettoken. now rewrite skip_skip by lia. Qed.

Lemma after_range p : s <= p <= es -> skip p <= after p <= es /\ skip (after p) = after p /\ (code p <> 0 -> skip p < after p).
Proof.
  intros Hp. pose proof (token_spec p Hp) as H. unfold after, code. destruct (token p) as [[c q] e]. cbn [fst snd]. destruct H as (-> & H1 & H2 & H3).
  destruct (skip_space_spec e ltac:(lia)) as [He _]. rewrite skip_skip by lia. split; [lia|]. split; [reflexivity|].
  intros Hc. destruct H3 as [[? _]|[[? _]|[? _]]]; [congruence|lia|lia].
Qed.

(** [peek] looks at the token that comes next. *)
Lemma peek_code toks p : s <= p <= es -> Forall (fun c => c ∈ symbols) toks -> peek m es toks p = Ok (in_set toks (lead (code p))) (skip p).
Proof.
  intros Hp F. pose proof (token_spec p Hp) as H. unfold peek, code. destruct (token p) as [[c q] e]. cbn [fst snd]. destruct H as (-> & H1 & H2 & H3). f_equal.
  assert (Sub : forall x, in_set symbols x = false -> in_set toks x = false).
  { intros x Hx. apply not_true_is_false. rewrite in_set_spec. intros Hin. rewrite Forall_forall in F. specialize (F x Hin). apply in_set_spec in F. congruence. }
  destruct H3 as [(-> & Hq & _)|[(_ & -> & _ & Hs)|(_ & _ & Hc & Hl & Hs)]].
  - rewrite Hq, (tx_end _ _ _ T). symmetry. now apply Sub.
  - rewrite (Sub _ Hs), (Sub (lead TWORD)) by reflexivity. apply andb_false_r.
  - rewrite <- Hl. assert (lead c <> 0) as Hl0. { rewrite Hl. intros E. rewrite E in Hs. discriminate. }
    unfold truth. now rewrite (proj2 (Z.eqb_neq _ _) Hl0).
Qed.

(** ** The grammar *)

(** A token: a symbol, with [TAPPEND] for [>>], or a word. *)
Inductive tk := Sy (c : Z) | Wd (q e : Z).

Definition tk_of (t : Z * Z * Z) : tk := let '(c, q, e) := t in if c =? TWORD then Wd q e else Sy c.

(** The tokens from [p] on are [ts], and [p'] comes after them. *)
Inductive toks_at : Z -> list tk -> Z -> Prop :=
| ta_nil p : toks_at p [] (skip p)
| ta_cons p ts p' : code p <> 0 -> toks_at (after p) ts p' -> toks_at p (tk_of (token p) :: ts) p'.

Lemma toks_range p ts p' : s <= p <= es -> toks_at p ts p' -> p <= skip p <= p' /\ p' <= es /\ skip p' = p' /\ (ts <> [] -> skip p < p').
Proof.
  intros Hp Ht. induction Ht as [p|p ts p' Hc Ht IH]; destruct (skip_space_spec p ltac:(lia)) as [Hs _].
  - rewrite skip_skip by lia. split_and!; auto; try lia. congruence.
  - destruct (after_range p Hp) as (H1 & H2 & H3). specialize (H3 Hc). destruct IH as (I1 & I2 & I3 & I4); [lia|]. split_and!; auto; lia.
Qed.

Lemma toks_skip p ts p' : s <= p <= es -> toks_at (skip p) ts p' <-> toks_at p ts p'.
Proof.
  intros Hp. pose proof (skip_space_spec p ltac:(lia)) as [Hs _]. assert (E : token (skip p) = token p) by now apply token_skip.
  assert (Ea : after (skip p) = after p) by (unfold after; now rewrite E). assert (Ec : code (skip p) = code p) by (unfold code; now rewrite E).
  split; intros Ht; inversion Ht as [p1 E1|p1 ts1 p1' Hc Ht1 E1]; subst.
  - rewrite skip_skip by lia. constructor.
  - rewrite E. constructor; [congruence|]. now rewrite <- Ea.
  - pose proof (ta_nil (skip p)) as Hn. now rewrite skip_skip in Hn by lia.
  - rewrite <- E. constructor; [congruence|]. now rewrite Ea.
Qed.

Lemma toks_app p ts ts' p' : s <= p <= es -> toks_at p (ts ++ ts') p' <-> exists p1, toks_at p ts p1 /\ toks_at p1 ts' p'.
Proof.
  revert p; induction ts as [|t ts IH]; intros p Hp; cbn [app].
  - split; [intros Ht; exists (skip p); split; [constructor|now apply toks_skip]|]. intros (p1 & H1 & H2). inversion H1; subst. now apply toks_skip.
  - split.
    + intros Ht. inversion Ht as [|p1 ts1 p1' Hc Ht1 E1]; subst. destruct (after_range p Hp) as (R & _ & _). pose proof (skip_space_spec p ltac:(lia)) as [? _].
      apply IH in Ht1 as (p1 & H1 & H2); [|lia]. exists p1. split; [now constructor|exact H2].
    + intros (p1 & H1 & H2). inversion H1 as [|p2 ts1 p1' Hc Ht1 E1]; subst. destruct (after_range p Hp) as (R & _ & _). pose proof (skip_space_spec p ltac:(lia)) as [? _].
      constructor; [exact Hc|]. apply IH; [lia|]. eauto.
Qed.

Lemma toks_end p : s <= p <= es -> code p = 0 -> skip p = es /\ after p = es.
Proof.
  intros Hp Hc. pose proof (token_spec p Hp) as H. unfold code, after in *. destruct (token p) as [[c q] e]. cbn [fst snd] in *. subst c.
  destruct H as (-> & _ & _ & [(_ & E1 & E2)|[(_ & E & _)|(_ & _ & E & _)]]); try congruence; [|discriminate]. split; [exact E1|]. rewrite E2. apply skip_space_stop. now left.
Qed.

(** Redirections, and commands: a line is a pipeline, with [&] after it, and
    another line after [;]; a pipeline is made of blocks in parentheses and of
    simple commands, words with redirections before and after them. *)
Record redir := mkRd { rd_tok : Z; rd_q : Z; rd_e : Z }.

Inductive sline :=
| SLine (p : spipe) (amps : nat)
| SSeq (p : spipe) (amps : nat) (l : sline)
with spipe :=
| SOne (e : sexec)
| SPipe (e : sexec) (p : spipe)
with sexec :=
| SBlock (l : sline) (rs : list redir)
| SSimple (rs : list redir) (args : list (Z * Z * list redir)).

(** Their tokens, *)
Definition rd_toks (rs : list redir) : list tk := flat_map (fun r => [Sy (rd_tok r); Wd (rd_q r) (rd_e r)]) rs.
Definition arg_toks (args : list (Z * Z * list redir)) : list tk := flat_map (fun a => Wd (fst (fst a)) (snd (fst a)) :: rd_toks (snd a)) args.

Fixpoint line_toks (x : sline) : list tk :=
  match x with
  | SLine p k => pipe_toks p ++ repeat (Sy 38) k
  | SSeq p k l => pipe_toks p ++ repeat (Sy 38) k ++ Sy 59 :: line_toks l
  end
with pipe_toks (x : spipe) : list tk :=
  match x with
  | SOne e => exec_toks e
  | SPipe e p => exec_toks e ++ Sy 124 :: pipe_toks p
  end
with exec_toks (x : sexec) : list tk :=
  match x with
  | SBlock l rs => Sy 40 :: line_toks l ++ Sy 41 :: rd_toks rs
  | SSimple rs args => rd_toks rs ++ arg_toks args
  end.

(** what they mean, *)
Definition redirect (rs : list redir) (c : cmd) : cmd := fold_left (fun c r => redir_for (rd_tok r) c (rd_q r) (rd_e r)) rs c.
Fixpoint background (k : nat) (c : cmd) : cmd := match k with O => c | S k => background k (BACK c) end.

Fixpoint line_cmd (x : sline) : cmd :=
  match x with
  | SLine p k => background k (pipe_cmd p)
  | SSeq p k l => LIST (background k (pipe_cmd p)) (line_cmd l)
  end
with pipe_cmd (x : spipe) : cmd :=
  match x with
  | SOne e => exec_cmd e
  | SPipe e p => PIPE (exec_cmd e) (pipe_cmd p)
  end
with exec_cmd (x : sexec) : cmd :=
  match x with
  | SBlock l rs => redirect rs (line_cmd l)
  | SSimple rs args => redirect (rs ++ flat_map snd args) (EXEC (map fst args))
  end.

(** and when they are correct: redirections have one of the three symbols, and a
    command has fewer than [MAXARGS] words. *)
Definition rds_ok (rs : list redir) : bool := forallb (fun r => in_set [60; 62; TAPPEND] (rd_tok r)) rs.
Definition args_ok (args : list (Z * Z * list redir)) : bool := forallb (fun a => rds_ok (snd a)) args.

Fixpoint line_ok (x : sline) : bool :=
  match x with
  | SLine p k => pipe_ok p
  | SSeq p k l => pipe_ok p && line_ok l
  end
with pipe_ok (x : spipe) : bool :=
  match x with
  | SOne e => exec_ok e
  | SPipe e p => exec_ok e && pipe_ok p
  end
with exec_ok (x : sexec) : bool :=
  match x with
  | SBlock l rs => line_ok l && rds_ok rs
  | SSimple rs args => rds_ok rs && args_ok args && (length args <? MAXARGS)%nat
  end.

Lemma redirect_app rs rs' c : redirect (rs ++ rs') c = redirect rs' (redirect rs c).
Proof. apply fold_left_app. Qed.

Lemma set_argv_redirect argv rs c : set_argv argv (redirect rs c) = redirect rs (set_argv argv c).
Proof.
  revert c; induction rs as [|r rs IH]; intros c; [reflexivity|]. cbn. change (fold_left _ rs ?c) with (redirect rs c). rewrite IH. f_equal. unfold redir_for.
  destruct (rd_tok r =? 60); [reflexivity|]. now destruct (_ || _).
Qed.

(** ** The parser finds derivations *)

Lemma symbols_of toks : forallb (in_set symbols) toks = true -> Forall (fun c => c ∈ symbols) toks.
Proof. rewrite forallb_forall, Forall_forall. intros H x Hx. apply in_set_spec, H. now apply list_elem_of_In. Qed.

Lemma peek_then {A} toks (k : bool -> M Z A) p : s <= p <= es -> forallb (in_set symbols) toks = true ->
  bind (peek m es toks) k p = k (in_set toks (lead (code p))) (skip p).
Proof. intros Hp F. now rewrite (bind_ok _ _ _ _ _ (peek_code toks p Hp (symbols_of toks F))). Qed.

Lemma code_skip p : s <= p <= es -> code (skip p) = code p.
Proof. intros Hp. unfold code. now rewrite token_skip. Qed.

Lemma skip_range p : s <= p <= es -> s <= skip p <= es.
Proof. intros Hp. pose proof (skip_space_spec p ltac:(lia)) as [? _]. lia. Qed.

Lemma get_then {A} (k : Z * Z * Z -> M Z A) p : bind (gettoken m es) k p = k (token p) (after p).
Proof. now rewrite (bind_ok _ _ _ _ _ (gettoken_token p)). Qed.

Lemma get_skip_then {A} (k : Z * Z * Z -> M Z A) p : s <= p <= es -> bind (gettoken m es) k (skip p) = k (token p) (after p).
Proof. intros Hp. rewrite get_then. unfold after. now rewrite token_skip. Qed.

(** A run of a parsing function from [p]: it returns a command that satisfies [P]
    with the tokens it has read, or the shell panics. *)
Definition parses {A} (p : Z) (o : outcome Z A) (P : A -> list tk -> Prop) : Prop :=
  match o with
  | Ok c p' => exists ts, toks_at p ts p' /\ P c ts
  | Panic _ => True
  | _ => False
  end.

(** A symbol that [peek] has seen is the next token. *)
Lemma next_symbol p c : s <= p <= es -> in_set [c] (lead (code p)) = true -> in_set [124; 40; 41; 59; 38] c = true ->
  tk_of (token p) = Sy c /\ code p <> 0 /\ s <= after p <= es.
Proof.
  intros Hp Hc Hin. unfold in_set in Hc. cbn in Hc. rewrite orb_false_r in Hc. apply Z.eqb_eq in Hc.
  assert (Ec : code p = c).
  { unfold lead in Hc. destruct (Z.eqb_spec (code p) TAPPEND) as [E|E]; [|exact Hc]. rewrite <- Hc in Hin. discriminate. }
  destruct (after_range p Hp) as (R & _ & _). pose proof (skip_range p Hp). unfold code in *. unfold tk_of. destruct (token p) as [[c' q] e]. cbn [fst] in *. subst c'.
  split_and!; try lia.
  - destruct (Z.eqb_spec c TWORD) as [E|E]; [rewrite E in Hin; discriminate|reflexivity].
  - intros E. rewrite E in Hin. discriminate.
Qed.

Lemma parses_skip {A} p (o : outcome Z A) P : s <= p <= es -> parses (skip p) o P -> parses p o P.
Proof. intros Hp. destruct o as [c p'| | |]; auto. intros (ts & Ht & HP). exists ts. split; [now apply toks_skip|exact HP]. Qed.

Lemma parses_ret {A} p (c : A) (P : A -> list tk -> Prop) : P c [] -> parses p (Ok c (skip p)) P.
Proof. intros HP. exists []. split; [constructor|exact HP]. Qed.

Lemma parses_token {A} p (o : outcome Z A) P : code p <> 0 -> parses (after p) o (fun c ts => P c (tk_of (token p) :: ts)) -> parses p o P.
Proof. intros Hc. destruct o as [c p'| | |]; auto. intros (ts & Ht & HP). exists (tk_of (token p) :: ts). split; [now constructor|exact HP]. Qed.

Lemma parses_bind {A B} p (f : M Z A) (k : A -> M Z B) P (Q : B -> list tk -> Prop) : s <= p <= es -> parses p (f p) P ->
  (forall a p1 ts, P a ts -> toks_at p ts p1 -> p <= p1 <= es -> parses p1 (k a p1) (fun b ts' => Q b (ts ++ ts'))) -> parses p (bind f k p) Q.
Proof.
  intros Hp Hf Hk. unfold bind. destruct (f p) as [a p1| | |]; auto. destruct Hf as (ts & Ht & HP). destruct (toks_range p ts p1 Hp Ht) as (R1 & R2 & _ & _).
  specialize (Hk a p1 ts HP Ht ltac:(lia)). destruct (k a p1) as [b p2| | |]; auto. destruct Hk as (ts' & Ht' & HQ). exists (ts ++ ts'). split; [|exact HQ].
  apply toks_app; eauto.
Qed.

Lemma parses_impl {A} p (o : outcome Z A) (P Q : A -> list tk -> Prop) : parses p o P -> (forall c ts, P c ts -> Q c ts) -> parses p o Q.
Proof. intros H HPQ. destruct o; auto. destruct H as (ts & Ht & HP). exists ts. auto. Qed.

Lemma redir_token p : s <= p <= es -> in_set [60; 62] (lead (code p)) = true -> tk_of (token p) = Sy (code p) /\ in_set [60; 62; TAPPEND] (code p) = true /\ code p <> 0.
Proof.
  intros Hp Hc. assert (Hin : in_set [60; 62; TAPPEND] (code p) = true).
  { unfold lead in Hc. destruct (Z.eqb_spec (code p) TAPPEND) as [->|]; [reflexivity|]. apply in_set_spec in Hc. apply in_set_spec. rewrite !elem_of_cons in *. tauto. }
  split; [|split; [exact Hin|intros E; rewrite E in Hin; discriminate]]. unfold code in *. unfold tk_of. destruct (token p) as [[c q] e]. cbn [fst] in *.
  destruct (Z.eqb_spec c TWORD) as [->|]; [discriminate|reflexivity].
Qed.

Lemma parseredirs_parses n : forall c p, s <= p <= es -> es - p < Z.of_nat n ->
  parses p (parseredirs m es n c p) (fun c' ts => exists rs, rds_ok rs = true /\ ts = rd_toks rs /\ c' = redirect rs c).
Proof.
  induction n as [|n IH]; intros c p Hp Hn; [lia|]. cbn [parseredirs]. rewrite peek_then by auto. destruct (in_set _ _) eqn:E.
  2: { apply parses_ret. now exists []. }
  rewrite get_skip_then, get_then by exact Hp.
  destruct (redir_token p Hp E) as (Etk & Hin & Hc). destruct (after_range p Hp) as (R & _ & R'). specialize (R' Hc). pose proof (skip_range p Hp).
  pose proof (skip_space_spec p ltac:(lia)) as [Hs _].
  apply parses_token; [exact Hc|]. rewrite Etk. unfold code in *. destruct (token p) as [[tok q0] e0]. cbn [fst] in *.
  pose proof (token_spec (after p) ltac:(lia)) as Hf. destruct (token (after p)) as [[ft q] e] eqn:Ef. destruct (Z.eqb_spec ft TWORD) as [->|]; [|exact I]. cbn [negb].
  assert (Hc2 : code (after p) <> 0) by (unfold code; rewrite Ef; discriminate). destruct (after_range (after p) ltac:(lia)) as (R2 & _ & R2'). specialize (R2' Hc2).
  pose proof (skip_space_spec (after p) ltac:(lia)) as [Hs2 _].
  apply parses_token; [exact Hc2|]. rewrite Ef. change (tk_of (TWORD, q, e)) with (Wd q e).
  eapply parses_impl; [apply IH; lia|]. intros c' ts (rs & Hrs & -> & ->). exists (mkRd tok q e :: rs). split; [|split; reflexivity].
  change (rds_ok (mkRd tok q e :: rs)) with (in_set [60; 62; TAPPEND] tok && rds_ok rs). now rewrite Hin.
Qed.

Lemma parseback_parses n : forall c p, s <= p <= es -> es - p < Z.of_nat n ->
  parses p (parseback m es n c p) (fun c' ts => exists k, ts = repeat (Sy 38) k /\ c' = background k c).
Proof.
  induction n as [|n IH]; intros c p Hp Hn; [lia|]. cbn [parseback]. rewrite peek_then by auto. destruct (in_set _ _) eqn:E.
  2: { apply parses_ret. now exists 0%nat. }
  rewrite get_skip_then by exact Hp.
  destruct (next_symbol p 38 Hp E eq_refl) as (Etk & Hc & Ra). destruct (after_range p Hp) as (R & _ & R'). specialize (R' Hc). pose proof (skip_space_spec p ltac:(lia)) as [Hs _].
  apply parses_token; [exact Hc|]. rewrite Etk. eapply parses_impl; [apply IH; lia|]. intros c' ts (k & -> & ->). now exists (S k).
Qed.

(** The words of a command, the command [r] with the words [argv] before them. *)
Lemma parseexec_loop_parses n : forall rs0 argv p, s <= p <= es -> es - p < Z.of_nat n -> (length argv < MAXARGS)%nat ->
  parses p (parseexec_loop m es n (redirect rs0 (EXEC argv)) argv p) (fun c' ts => exists args, args_ok args = true /\ (length argv + length args < MAXARGS)%nat /\
    ts = arg_toks args /\ c' = redirect (rs0 ++ flat_map snd args) (EXEC (argv ++ map fst args))).
Proof.
  induction n as [|n IH]; intros rs0 argv p Hp Hn Hl; [lia|]. cbn [parseexec_loop]. rewrite peek_then by auto.
  assert (Stop : exists args, args_ok args = true /\ (length argv + length args < MAXARGS)%nat /\ [] = arg_toks args /\
    redirect rs0 (EXEC argv) = redirect (rs0 ++ flat_map snd args) (EXEC (argv ++ map fst args))).
  { exists []. cbn. rewrite !app_nil_r. split_and!; auto; lia. }
  destruct (in_set _ _) eqn:E; [now apply parses_ret|]. rewrite get_skip_then by exact Hp.
  pose proof (toks_end p Hp) as He. destruct (after_range p Hp) as (R & Ra & R'). pose proof (skip_space_spec p ltac:(lia)) as [Hs _].
  unfold code in *. destruct (token p) as [[tok q] e] eqn:Et. cbn [fst] in *. destruct (Z.eqb_spec tok 0) as [E0|E0].
  { destruct (He E0) as [E1 E2]. rewrite E2, <- E1. now apply parses_ret. }
  destruct (Z.eqb_spec tok TWORD) as [E1|E1]; [|exact I]. cbn [negb]. subst tok. specialize (R' E0). destruct (MAXARGS <=? length (argv ++ [(q, e)]))%nat eqn:Em; [exact I|].
  apply Nat.leb_gt in Em. rewrite set_argv_redirect. cbn [set_argv].
  apply parses_token; [unfold code; now rewrite Et|]. rewrite Et. change (tk_of (TWORD, q, e)) with (Wd q e).
  eapply parses_bind; [lia|apply parseredirs_parses; lia|]. intros r p1 ts (rs & Hrs & -> & ->) _ Hp1. rewrite <- redirect_app.
  eapply parses_impl; [apply IH; [lia|lia|exact Em]|]. intros c ts (args & Ha & Hla & -> & ->). exists ((q, e, rs) :: args). split_and!.
  - change (args_ok ((q, e, rs) :: args)) with (rds_ok rs && args_ok args). now rewrite Hrs, Ha.
  - rewrite length_app in Hla. cbn [length] in *. lia.
  - reflexivity.
  - cbn [flat_map map fst snd]. now rewrite <- !app_assoc.
Qed.

(** Bounds for the depth of the calls, by the length of the rest of the line. *)
Lemma parser_parses n :
  (forall p, s <= p <= es -> 4 * (es - p) + 4 <= Z.of_nat n -> parses p (parseline m es n p) (fun c ts => exists x, line_ok x = true /\ ts = line_toks x /\ c = line_cmd x)) /\
  (forall p, s <= p <= es -> 4 * (es - p) + 3 <= Z.of_nat n -> parses p (parsepipe m es n p) (fun c ts => exists x, pipe_ok x = true /\ ts = pipe_toks x /\ c = pipe_cmd x)) /\
  (forall p, s <= p <= es -> 4 * (es - p) + 2 <= Z.of_nat n -> parses p (parseexec m es n p) (fun c ts => exists x, exec_ok x = true /\ ts = exec_toks x /\ c = exec_cmd x)) /\
  (forall p, s <= p <= es -> 4 * (es - p) + 1 <= Z.of_nat n -> parses p (parseblock m es n p) (fun c ts => exists x, exec_ok x = true /\ ts = exec_toks x /\ c = exec_cmd x)).
Proof.
  induction n as [|n (IHl & IHp & IHe & IHb)]; [split_and!; intros; lia|]. split_and!; intros p Hp Hn.
  - cbn [parseline]. eapply parses_bind; [lia|apply IHp; lia|]. intros c p1 ts (x & Hx & -> & ->) _ Hp1.
    eapply parses_bind; [lia|apply parseback_parses; lia|]. intros c p2 ts (k & -> & ->) _ Hp2. rewrite peek_then by (auto; lia). destruct (in_set _ _) eqn:E.
    + rewrite get_skip_then by lia. destruct (next_symbol p2 59 ltac:(lia) E eq_refl) as (Etk & Hc & Ra). destruct (after_range p2 ltac:(lia)) as (R & _ & R').
      specialize (R' Hc). pose proof (skip_space_spec p2 ltac:(lia)) as [Hs _]. apply parses_token; [exact Hc|]. rewrite Etk.
      eapply parses_bind; [lia|apply IHl; lia|]. intros c p3 ts (l & Hl & -> & ->) Ht3 Hp3. destruct (toks_range (after p2) _ p3 ltac:(lia) Ht3) as (_ & _ & Es & _).
      unfold ret. rewrite <- Es at 2. apply parses_ret. exists (SSeq x k l). cbn [line_ok line_toks line_cmd]. rewrite Hx, Hl, app_nil_r. split_and!; auto.
    + apply parses_ret. exists (SLine x k). cbn [line_ok line_toks line_cmd]. rewrite app_nil_r. auto.
  - cbn [parsepipe]. eapply parses_bind; [lia|apply IHe; lia|]. intros c p1 ts (x & Hx & -> & ->) _ Hp1. rewrite peek_then by (auto; lia). destruct (in_set _ _) eqn:E.
    + rewrite get_skip_then by lia. destruct (next_symbol p1 124 ltac:(lia) E eq_refl) as (Etk & Hc & Ra). destruct (after_range p1 ltac:(lia)) as (R & _ & R').
      specialize (R' Hc). pose proof (skip_space_spec p1 ltac:(lia)) as [Hs _]. apply parses_token; [exact Hc|]. rewrite Etk.
      eapply parses_bind; [lia|apply IHp; lia|]. intros c p3 ts (l & Hl & -> & ->) Ht3 Hp3. destruct (toks_range (after p1) _ p3 ltac:(lia) Ht3) as (_ & _ & Es & _).
      unfold ret. rewrite <- Es at 2. apply parses_ret. exists (SPipe x l). cbn [pipe_ok pipe_toks pipe_cmd]. rewrite Hx, Hl, app_nil_r. split_and!; auto.
    + apply parses_ret. exists (SOne x). cbn [pipe_ok pipe_toks pipe_cmd]. rewrite app_nil_r. auto.
  - cbn [parseexec]. rewrite peek_then by auto. pose proof (skip_space_spec p ltac:(lia)) as [Hs _]. apply parses_skip; [exact Hp|]. destruct (in_set _ _) eqn:E; [apply IHb; lia|].
    eapply parses_bind; [lia|apply parseredirs_parses; lia|]. intros r p1 ts (rs & Hrs & -> & ->) _ Hp1.
    eapply parses_impl; [apply parseexec_loop_parses; [lia|lia|unfold MAXARGS; cbn; lia]|]. intros c ts (args & Ha & Hl & -> & ->). exists (SSimple rs args).
    cbn [exec_ok exec_toks exec_cmd]. rewrite Hrs, Ha, (proj2 (Nat.ltb_lt _ _)) by exact Hl. auto.
  - cbn [parseblock]. rewrite peek_then by auto. destruct (in_set _ _) eqn:E; cbn [negb]; [|exact I]. rewrite get_skip_then by lia.
    destruct (next_symbol p 40 Hp E eq_refl) as (Etk & Hc & Ra). destruct (after_range p Hp) as (R & _ & R'). specialize (R' Hc). pose proof (skip_space_spec p ltac:(lia)) as [Hs _].
    apply parses_token; [exact Hc|]. rewrite Etk. eapply parses_bind; [lia|apply IHl; lia|]. intros c p1 ts (l & Hl & -> & ->) _ Hp1.
    rewrite peek_then by (auto; lia). destruct (in_set _ (lead (code p1))) eqn:E1; cbn [negb]; [|exact I]. rewrite get_skip_then by lia.
    destruct (next_symbol p1 41 ltac:(lia) E1 eq_refl) as (Etk1 & Hc1 & Ra1). apply parses_token; [exact Hc1|]. rewrite Etk1.
    destruct (after_range p1 ltac:(lia)) as (R1 & _ & R1'). specialize (R1' Hc1). pose proof (skip_space_spec p1 ltac:(lia)) as [Hs1 _].
    eapply parses_impl; [apply parseredirs_parses; lia|]. intros c' ts (rs & Hrs & -> & ->). exists (SBlock l rs). cbn [exec_ok exec_toks exec_cmd]. now rewrite Hl, Hrs.
Qed.

(** ** Derivations are found by the parser *)

(** The code of the token that comes first. *)
Lemma toks_first p ts p' : s <= p <= es -> toks_at p ts p' ->
  match ts with
  | [] => p' = skip p /\ code p = code p'
  | Sy c :: ts => code p = c /\ c <> 0 /\ toks_at (after p) ts p' /\ s <= after p <= es /\ p < after p
  | Wd q e :: ts => token p = (TWORD, q, e) /\ toks_at (after p) ts p' /\ s <= after p <= es /\ p < after p
  end.
Proof.
  intros Hp Ht. inversion Ht as [p1 E1|p1 ts1 p1' Hc Ht1 E1]; subst; [split; [reflexivity|symmetry; now apply code_skip]|].
  destruct (after_range p Hp) as (R & _ & R'). specialize (R' Hc). pose proof (skip_space_spec p ltac:(lia)) as [Hs _].
  unfold code in *. destruct (token p) as [[c q] e]. cbn [fst] in *. unfold tk_of. destruct (Z.eqb_spec c TWORD) as [->|]; split_and!; auto; lia.
Qed.

(** No redirection comes next. *)
Definition no_redir (c : Z) : Prop := in_set [60; 62] (lead c) = false.

Lemma parseredirs_complete n : forall rs c p p', rds_ok rs = true -> toks_at p (rd_toks rs) p' -> no_redir (code p') -> s <= p <= es -> es - p < Z.of_nat n ->
  parseredirs m es n c p = Ok (redirect rs c) p'.
Proof.
  induction n as [|n IH]; intros rs c p p' Hrs Ht Hf Hp Hn; [lia|]. cbn [parseredirs]. rewrite peek_then by auto. unfold no_redir in Hf.
  destruct rs as [|r rs]; cbn [rd_toks flat_map app] in Ht; apply toks_first in Ht; auto.
  { destruct Ht as [-> Ec]. now rewrite Ec, Hf. }
  destruct Ht as (Ec & Hc & Ht & Ra & Rl). apply toks_first in Ht as (Et & Ht & Rb & Rm); [|exact Ra].
  change (rds_ok (r :: rs)) with (in_set [60; 62; TAPPEND] (rd_tok r) && rds_ok rs) in Hrs. apply andb_prop in Hrs as [Hr Hrs].
  assert (in_set [60; 62] (lead (code p)) = true) as ->.
  { rewrite Ec. apply in_set_spec in Hr. rewrite !elem_of_cons in Hr. destruct Hr as [->|[->|[->|Hr]]]; try reflexivity. now apply elem_of_nil in Hr. }
  rewrite get_skip_then, get_then by exact Hp. unfold code in Ec. destruct (token p) as [[tok q0] e0]. cbn [fst] in Ec. subst tok. rewrite Et.
  change (negb (TWORD =? TWORD)) with false. cbv iota. rewrite (IH rs _ _ p'); auto; lia.
Qed.

Lemma parseback_complete n : forall k c p p', toks_at p (repeat (Sy 38) k) p' -> code p' <> 38 -> s <= p <= es -> es - p < Z.of_nat n ->
  parseback m es n c p = Ok (background k c) p'.
Proof.
  induction n as [|n IH]; intros k c p p' Ht Hf Hp Hn; [lia|]. cbn [parseback]. rewrite peek_then by auto. destruct k as [|k]; cbn [repeat] in Ht; apply toks_first in Ht; auto.
  - destruct Ht as [-> Ec]. rewrite Ec. destruct (in_set _ _) eqn:E; [|reflexivity]. apply next_symbol in E as (Etk & _ & _); [|now apply skip_range|reflexivity].
    exfalso. apply Hf. unfold code, tk_of in *. destruct (token (skip p)) as [[c' q] e]. cbn [fst]. destruct (c' =? TWORD); [discriminate|now injection Etk].
  - destruct Ht as (Ec & _ & Ht & Ra & Rl). rewrite Ec. change (in_set [38] (lead 38)) with true. cbv iota. rewrite get_skip_then by exact Hp. cbn [background]. apply IH; auto; lia.
Qed.

(** What may come after a command, after a pipeline and after a line. *)
Definition ends_line (c : Z) : bool := in_set [0; 41] c.
Definition ends_pipe (c : Z) : bool := in_set [0; 41; 38; 59] c.
Definition ends_exec (c : Z) : bool := in_set [0; 41; 38; 59; 124] c.

Lemma ends_no_redir c : ends_exec c = true -> no_redir c.
Proof.
  unfold ends_exec. rewrite in_set_spec, !elem_of_cons. intros [->|[->|[->|[->|[->|H]]]]]; try reflexivity. now apply elem_of_nil in H.
Qed.

Lemma parseexec_loop_complete n : forall args rs0 argv p p', args_ok args = true -> (length argv + length args < MAXARGS)%nat ->
  toks_at p (arg_toks args) p' -> ends_exec (code p') = true -> s <= p <= es -> es - p < Z.of_nat n ->
  parseexec_loop m es n (redirect rs0 (EXEC argv)) argv p = Ok (redirect (rs0 ++ flat_map snd args) (EXEC (argv ++ map fst args))) p'.
Proof.
  induction n as [|n IH]; intros args rs0 argv p p' Ha Hl Ht Hf Hp Hn; [lia|]. cbn [parseexec_loop]. rewrite peek_then by auto.
  destruct args as [|[[q e] rs] args]; [apply toks_first in Ht; auto|].
  - destruct Ht as [Ep Ec]. cbn [flat_map map]. rewrite !app_nil_r. destruct (Z.eq_dec (code p) 0) as [E0|E0].
    + rewrite E0. change (in_set _ (lead 0)) with false. cbv iota. rewrite get_skip_then by exact Hp. destruct (toks_end p Hp E0) as [E1 E2]. rewrite E2, Ep, E1.
      unfold code in E0. destruct (token p) as [[c q] e]. cbn [fst] in E0. now subst c.
    + assert (in_set [124; 41; 38; 59] (lead (code p)) = true) as ->; [|now rewrite Ep].
      rewrite Ec. rewrite Ec in E0. unfold ends_exec in Hf. rewrite in_set_spec, !elem_of_cons in Hf. destruct Hf as [E|[->|[->|[->|[->|H]]]]]; try reflexivity; [congruence|now apply elem_of_nil in H].
  - change (arg_toks ((q, e, rs) :: args)) with (Wd q e :: rd_toks rs ++ arg_toks args) in Ht. apply toks_first in Ht as (Et & Ht & Ra & Rl); [|exact Hp].
    apply toks_app in Ht as (p1 & Ht1 & Ht2); [|exact Ra]. destruct (toks_range _ _ _ Ra Ht1) as (R1 & R2 & _ & _).
    assert (code p = TWORD) as -> by (unfold code; now rewrite Et). change (in_set _ (lead TWORD)) with false. cbv iota. rewrite get_skip_then, Et by exact Hp.
    change (TWORD =? 0) with false. change (negb (TWORD =? TWORD)) with false. cbv iota zeta. cbn [length] in Hl. rewrite (proj2 (Nat.leb_gt _ _)) by (rewrite length_app; cbn; lia).
    change (args_ok ((q, e, rs) :: args)) with (rds_ok rs && args_ok args) in Ha. apply andb_prop in Ha as [Hrs Ha].
    assert (Hno : no_redir (code p1)).
    { destruct args as [|[[q1 e1] rs1] args]; apply toks_first in Ht2; try lia; [destruct Ht2 as [_ ->]; now apply ends_no_redir|].
      destruct Ht2 as (Et1 & _). unfold code. rewrite Et1. reflexivity. }
    rewrite set_argv_redirect. cbn [set_argv]. rewrite (bind_ok _ _ _ _ _ (parseredirs_complete n rs _ _ p1 Hrs Ht1 Hno Ra ltac:(lia))), <- redirect_app.
    rewrite (IH args _ _ _ p'); auto; try lia; [|rewrite length_app; cbn; lia]. cbn [flat_map map fst snd]. now rewrite <- !app_assoc.
Qed.

(** [peek] for one symbol. *)
Lemma peek_one {A} c (k : bool -> M Z A) p : s <= p <= es -> in_set [124; 40; 41; 59; 38] c = true -> bind (peek m es [c]) k p = k (code p =? c) (skip p).
Proof.
  intros Hp Hc. assert (Hsym : forallb (in_set symbols) [c] = true).
  { apply in_set_spec in Hc. rewrite !elem_of_cons in Hc. destruct Hc as [->|[->|[->|[->|[->|H]]]]]; try reflexivity. now apply elem_of_nil in H. }
  rewrite peek_then by auto. f_equal. unfold in_set at 1. cbn [existsb]. rewrite orb_false_r. unfold lead. destruct (Z.eqb_spec (code p) TAPPEND) as [->|]; [|reflexivity].
  apply in_set_spec in Hc. rewrite !elem_of_cons in Hc. destruct Hc as [->|[->|[->|[->|[->|H]]]]]; try reflexivity. now apply elem_of_nil in H.
Qed.

Lemma ends_weaken c : (ends_line c = true -> ends_pipe c = true) /\ (ends_pipe c = true -> ends_exec c = true).
Proof. unfold ends_line, ends_pipe, ends_exec. rewrite !in_set_spec, !elem_of_cons. tauto. Qed.

Lemma ends_not c : (ends_line c = true -> c <> 38 /\ c <> 59) /\ (ends_pipe c = true -> c <> 124) /\ (ends_exec c = true -> c <> 40).
Proof.
  unfold ends_line, ends_pipe, ends_exec. rewrite !in_set_spec, !elem_of_cons, elem_of_nil. split; [|split]; [intros H; split|intros H|intros H]; intros ->; intuition discriminate.
Qed.

(** A simple command does not begin with a parenthesis. *)
Lemma simple_first rs args p p' : s <= p <= es -> rds_ok rs = true -> toks_at p (rd_toks rs ++ arg_toks args) p' -> ends_exec (code p') = true -> code p <> 40.
Proof.
  intros Hp Hrs Ht Hf. destruct rs as [|r rs].
  - destruct args as [|[[q e] rs] args]; apply toks_first in Ht; auto.
    + destruct Ht as [_ ->]. now apply (ends_not (code p')).
    + destruct Ht as (Et & _). unfold code. rewrite Et. discriminate.
  - apply toks_first in Ht as (-> & _); auto. change (rds_ok (r :: rs)) with (in_set [60; 62; TAPPEND] (rd_tok r) && rds_ok rs) in Hrs.
    apply andb_prop in Hrs as [Hr _]. intros E. rewrite E in Hr. discriminate.
Qed.

(** One step of each function, given that the calls it makes are right. *)
Definition line_found (n : nat) : Prop := forall x p p', line_ok x = true -> toks_at p (line_toks x) p' -> ends_line (code p') = true -> s <= p <= es ->
  4 * (es - p) + 4 <= Z.of_nat n -> parseline m es n p = Ok (line_cmd x) p'.
Definition pipe_found (n : nat) : Prop := forall x p p', pipe_ok x = true -> toks_at p (pipe_toks x) p' -> ends_pipe (code p') = true -> s <= p <= es ->
  4 * (es - p) + 3 <= Z.of_nat n -> parsepipe m es n p = Ok (pipe_cmd x) p'.
Definition exec_found (n : nat) : Prop := forall x p p', exec_ok x = true -> toks_at p (exec_toks x) p' -> ends_exec (code p') = true -> s <= p <= es ->
  4 * (es - p) + 2 <= Z.of_nat n -> parseexec m es n p = Ok (exec_cmd x) p'.
Definition block_found (n : nat) : Prop := forall l rs p p', line_ok l && rds_ok rs = true -> toks_at p (exec_toks (SBlock l rs)) p' -> ends_exec (code p') = true -> s <= p <= es ->
  4 * (es - p) + 1 <= Z.of_nat n -> parseblock m es n p = Ok (redirect rs (line_cmd l)) p'.

Section Step.
Variable n : nat.
Hypothesis IHl : line_found n.
Hypothesis IHp : pipe_found n.
Hypothesis IHe : exec_found n.
Hypothesis IHb : block_found n.

Lemma line_step : line_found (S n).
Proof.
  intros x p p' Hok Ht Hf Hp Hn. cbn [parseline]. destruct (ends_not (code p')) as [Hn1 _]. destruct (Hn1 Hf) as [Hn38 Hn59].
  destruct x as [x k|x k l]; cbn [line_ok line_toks line_cmd] in *.
  - apply toks_app in Ht as (p1 & Ht1 & Ht2); [|exact Hp]. destruct (toks_range _ _ _ Hp Ht1) as (R1 & R2 & _ & _). destruct (toks_range p1 _ _ ltac:(lia) Ht2) as (R3 & R4 & Es & _).
    assert (E1 : ends_pipe (code p1) = true) by (destruct k; apply toks_first in Ht2; try lia; destruct Ht2 as [-> Ec]; [rewrite Ec; now apply ends_weaken|reflexivity]).
    rewrite (bind_ok _ _ _ _ _ (IHp x p p1 Hok Ht1 E1 Hp ltac:(lia))), (bind_ok _ _ _ _ _ (parseback_complete n k _ p1 p' Ht2 Hn38 ltac:(lia) ltac:(lia))).
    rewrite peek_one, (proj2 (Z.eqb_neq _ _) Hn59) by (auto; lia). now rewrite Es.
  - apply andb_prop in Hok as [Hok Hl]. apply toks_app in Ht as (p1 & Ht1 & Ht2); [|exact Hp]. destruct (toks_range _ _ _ Hp Ht1) as (R1 & R2 & _ & _).
    apply toks_app in Ht2 as (p2 & Ht2 & Ht3); [|lia]. destruct (toks_range p1 _ _ ltac:(lia) Ht2) as (R3 & R4 & _ & _).
    apply toks_first in Ht3 as (E2 & _ & Ht3 & Ra & Rl); [|lia].
    assert (E1 : ends_pipe (code p1) = true) by (destruct k; apply toks_first in Ht2; try lia; destruct Ht2 as [-> Ec]; [rewrite Ec, E2; reflexivity|reflexivity]).
    rewrite (bind_ok _ _ _ _ _ (IHp x p p1 Hok Ht1 E1 Hp ltac:(lia))), (bind_ok _ _ _ _ _ (parseback_complete n k _ p1 p2 Ht2 ltac:(rewrite E2; discriminate) ltac:(lia) ltac:(lia))).
    rewrite peek_one, E2 by (auto; lia). change (59 =? 59) with true. cbv iota. rewrite get_skip_then by lia. now rewrite (bind_ok _ _ _ _ _ (IHl l _ p' Hl Ht3 Hf Ra ltac:(lia))).
Qed.

Lemma pipe_step : pipe_found (S n).
Proof.
  intros x p p' Hok Ht Hf Hp Hn. cbn [parsepipe]. destruct (ends_not (code p')) as [_ [Hn2 _]]. specialize (Hn2 Hf). destruct x as [e|e x]; cbn [pipe_ok pipe_toks pipe_cmd] in *.
  - destruct (toks_range _ _ _ Hp Ht) as (R1 & R2 & Es & _). rewrite (bind_ok _ _ _ _ _ (IHe e p p' Hok Ht (proj2 (ends_weaken _) Hf) Hp ltac:(lia))).
    rewrite peek_one, (proj2 (Z.eqb_neq _ _) Hn2) by (auto; lia). now rewrite Es.
  - apply andb_prop in Hok as [Hok Hx]. apply toks_app in Ht as (p1 & Ht1 & Ht2); [|exact Hp]. destruct (toks_range _ _ _ Hp Ht1) as (R1 & R2 & _ & _).
    apply toks_first in Ht2 as (E2 & _ & Ht2 & Ra & Rl); [|lia]. rewrite (bind_ok _ _ _ _ _ (IHe e p p1 Hok Ht1 ltac:(now rewrite E2) Hp ltac:(lia))).
    rewrite peek_one, E2 by (auto; lia). change (124 =? 124) with true. cbv iota. rewrite get_skip_then by lia. now rewrite (bind_ok _ _ _ _ _ (IHp x _ p' Hx Ht2 Hf Ra ltac:(lia))).
Qed.

Lemma exec_step : exec_found (S n).
Proof.
  intros x p p' Hok Ht Hf Hp Hn. cbn [parseexec]. rewrite peek_one by auto. pose proof (skip_space_spec p ltac:(lia)) as [Hs _]. destruct x as [l rs|rs args].
  - pose proof Ht as Ht0. apply toks_first in Ht as (E2 & _); auto. rewrite E2. change (40 =? 40) with true. cbv iota.
    apply IHb; auto; try lia. now apply toks_skip.
  - cbn [exec_ok exec_toks exec_cmd] in *. rewrite !andb_true_iff, Nat.ltb_lt in Hok. destruct Hok as [[Hrs Ha] Hl]. rewrite (proj2 (Z.eqb_neq _ _)) by now apply (simple_first rs args p p').
    apply (toks_skip p) in Ht; [|exact Hp]. apply toks_app in Ht as (p1 & Ht1 & Ht2); [|lia]. destruct (toks_range (skip p) _ _ ltac:(lia) Ht1) as (R1 & R2 & _ & _).
    assert (Hno : no_redir (code p1)).
    { destruct args as [|[[q1 e1] rs1] args]; apply toks_first in Ht2; try lia; [destruct Ht2 as [_ ->]; now apply ends_no_redir|].
      destruct Ht2 as (Et1 & _). unfold code. rewrite Et1. reflexivity. }
    rewrite (bind_ok _ _ _ _ _ (parseredirs_complete n rs (EXEC []) (skip p) p1 Hrs Ht1 Hno ltac:(lia) ltac:(lia))).
    apply (parseexec_loop_complete n args rs [] p1 p'); auto; lia.
Qed.

Lemma block_step : block_found (S n).
Proof.
  intros l rs p p' Hok Ht Hf Hp Hn. apply andb_prop in Hok as [Hl Hrs]. cbn [parseblock]. rewrite peek_one by auto.
  apply toks_first in Ht as (E2 & _ & Ht & Ra & Rl); auto. rewrite E2. change (40 =? 40) with true. cbn [negb]. rewrite get_skip_then by exact Hp.
  fold line_toks in Ht. apply toks_app in Ht as (p1 & Ht1 & Ht2); [|exact Ra]. destruct (toks_range _ _ _ Ra Ht1) as (R1 & R2 & _ & _).
  apply toks_first in Ht2 as (E3 & _ & Ht2 & Rb & Rm); [|lia]. rewrite (bind_ok _ _ _ _ _ (IHl l _ p1 Hl Ht1 ltac:(now rewrite E3) Ra ltac:(lia))).
  rewrite peek_one, E3 by (auto; lia). change (41 =? 41) with true. cbn [negb]. rewrite get_skip_then by lia.
  apply parseredirs_complete; auto; [now apply ends_no_redir|lia].
Qed.
End Step.

Lemma parser_complete n : line_found n /\ pipe_found n /\ exec_found n /\ block_found n.
Proof.
  induction n as [|n (IHl & IHp & IHe & IHb)]; [split_and!; red; intros; lia|]. auto using line_step, pipe_step, exec_step, block_step.
Qed.

(** ** The strings of a command *)

(** A word among the tokens is a word of the line. *)
Lemma toks_words p ts p' : s <= p <= es -> toks_at p ts p' -> forall q e, Wd q e ∈ ts -> word m s es q e.
Proof.
  intros Hp Ht. revert Hp. induction Ht as [p|p ts p' Hc Ht IH]; intros Hp q e Hin; [now apply elem_of_nil in Hin|].
  destruct (after_range p Hp) as (R & _ & _). pose proof (skip_range p Hp). apply elem_of_cons in Hin as [E|Hin]; [|apply IH; [lia|exact Hin]].
  pose proof (token_spec p Hp) as Hs. unfold tk_of in E. destruct (token p) as [[c q'] e']. destruct (Z.eqb_spec c TWORD) as [->|]; [|discriminate]. injection E as -> ->.
  destruct Hs as (_ & _ & _ & [(E & _)|[(_ & _ & Hw & _)|(_ & E & _)]]); [discriminate|exact Hw|congruence].
Qed.
End Lexer.

Fixpoint cmd_strings (c : cmd) : list (Z * Z) :=
  match c with
  | EXEC argv => argv
  | REDIR c file efile mode fd => cmd_strings c ++ [(file, efile)]
  | PIPE l r => cmd_strings l ++ cmd_strings r
  | LIST l r => cmd_strings l ++ cmd_strings r
  | BACK c => cmd_strings c
  end.

Lemma nulterminate_strings c : forall m, nulterminate c m = fold_left (fun m a => store8 m (snd a) 0) (cmd_strings c) m.
Proof.
  induction c as [argv|c IH file efile mode fd|l IHl r IHr|l IHl r IHr|c IH]; intros m; cbn [nulterminate cmd_strings]; auto.
  - now rewrite fold_left_app, IH.
  - now rewrite fold_left_app, <- IHl, <- IHr.
  - now rewrite fold_left_app, <- IHl, <- IHr.
Qed.

Lemma nul_at l : forall (m : mem) x, fold_left (fun m (a : Z * Z) => store8 m (snd a) 0) l m x = if in_set (map snd l) x then 0 else m x.
Proof.
  induction l as [|[q e] l IH]; intros m x; cbn [fold_left map]; [reflexivity|]. rewrite IH. unfold in_set. cbn [existsb snd]. unfold store8.
  destruct (existsb (Z.eqb x) (map snd l)); [now rewrite orb_true_r|]. rewrite orb_false_r. now destruct (x =? e).
Qed.

(** Every string of the command of a derivation is one of its words. *)
Definition tk_words (ts : list tk) : list (Z * Z) := flat_map (fun t => match t with Wd q e => [(q, e)] | Sy _ => [] end) ts.

Lemma tk_words_app ts ts' : tk_words (ts ++ ts') = tk_words ts ++ tk_words ts'.
Proof. apply flat_map_app. Qed.

Lemma tk_words_wd q e ts : tk_words (Wd q e :: ts) = (q, e) :: tk_words ts.
Proof. reflexivity. Qed.

Lemma tk_words_sy c ts : tk_words (Sy c :: ts) = tk_words ts.
Proof. reflexivity. Qed.

Lemma rd_toks_app rs rs' : rd_toks (rs ++ rs') = rd_toks rs ++ rd_toks rs'.
Proof. apply flat_map_app. Qed.

Lemma rd_toks_cons r rs : rd_toks (r :: rs) = Sy (rd_tok r) :: Wd (rd_q r) (rd_e r) :: rd_toks rs.
Proof. reflexivity. Qed.

Lemma arg_toks_cons q e rs args : arg_toks ((q, e, rs) :: args) = Wd q e :: rd_toks rs ++ arg_toks args.
Proof. reflexivity. Qed.

Create Rewrite HintDb tk_words.
#[local] Hint Rewrite tk_words_app tk_words_wd tk_words_sy rd_toks_app rd_toks_cons arg_toks_cons
  @elem_of_app @elem_of_cons : tk_words.

Lemma tk_words_elem ts q e : (q, e) ∈ tk_words ts -> Wd q e ∈ ts.
Proof. induction ts as [|[c|q' e'] ts IH]; autorewrite with tk_words; [intros H; now apply elem_of_nil in H|auto|intros [E|H]; [left; congruence|auto]]. Qed.

Lemma redircmd_strings c t q e a : a ∈ cmd_strings (redir_for t c q e) -> a ∈ cmd_strings c \/ a = (q, e).
Proof.
  unfold redir_for, redircmd. destruct (t =? 60); [|destruct (_ || _)]; cbn [cmd_strings]; rewrite ?elem_of_app, ?list_elem_of_singleton; tauto.
Qed.

Lemma redirect_strings rs : forall c a, a ∈ cmd_strings (redirect rs c) -> a ∈ cmd_strings c \/ a ∈ tk_words (rd_toks rs).
Proof.
  induction rs as [|r rs IH]; intros c a; [auto|]. change (redirect (r :: rs) c) with (redirect rs (redir_for (rd_tok r) c (rd_q r) (rd_e r))).
  autorewrite with tk_words. intros [H%redircmd_strings|H]%IH; tauto.
Qed.

Lemma args_strings args a : a ∈ map fst args \/ a ∈ tk_words (rd_toks (flat_map snd args)) -> a ∈ tk_words (arg_toks args).
Proof.
  induction args as [|[[q e] rs] args IH]; [intros [H|H]; now apply elem_of_nil in H|]. cbn [map flat_map fst snd].
  autorewrite with tk_words. tauto.
Qed.

Scheme sline_mind := Induction for sline Sort Prop
with spipe_mind := Induction for spipe Sort Prop
with sexec_mind := Induction for sexec Sort Prop.

Lemma background_strings k : forall c, cmd_strings (background k c) = cmd_strings c.
Proof. induction k as [|k IH]; intros c; cbn; [reflexivity|now rewrite IH]. Qed.

Lemma line_strings x : forall a, a ∈ cmd_strings (line_cmd x) -> a ∈ tk_words (line_toks x).
Proof.
  apply (sline_mind (fun x => forall a, a ∈ cmd_strings (line_cmd x) -> a ∈ tk_words (line_toks x)) (fun x => forall a, a ∈ cmd_strings (pipe_cmd x) -> a ∈ tk_words (pipe_toks x))
                    (fun x => forall a, a ∈ cmd_strings (exec_cmd x) -> a ∈ tk_words (exec_toks x))); clear x;
    cbn [line_cmd line_toks pipe_cmd pipe_toks exec_cmd exec_toks cmd_strings]; intros; rewrite ?background_strings in *; autorewrite with tk_words in *; auto.
  - destruct H1; auto.
  - destruct H1; auto.
  - destruct (redirect_strings _ _ _ H0); auto.
  - apply redirect_strings in H. autorewrite with tk_words in H. destruct H as [H|[H|H]]; auto using args_strings.
Qed.

(** ** [parsecmd] *)

Section Parsecmd.
Variable m : mem.
Variables s es : Z.
Variables len fuel : nat.
Hypothesis T : text m s es.
Hypothesis Hlen : es - s < Z.of_nat len.
Hypothesis Hfuel : 4 * (es - s) + 4 <= Z.of_nat fuel.

Lemma strlen_text : strlen m s len = Some (es - s).
Proof using T Hlen.
  clear Hfuel.
  destruct T as [Hle He Hm]. unfold strlen. cut (forall n, 0 <= n -> s + n <= es -> es - s - n < Z.of_nat len -> strlen_from m s n len = Some (es - s)); [intros H; apply H; lia|].
  clear Hlen. induction len as [|k IH]; intros n H0 Hn Hk; [lia|]. cbn [strlen_from]. unfold truth. destruct (Z.eqb_spec (m (s + n)) 0) as [E|E]; cbn [negb].
  - f_equal. destruct (Z.eq_dec (s + n) es); [lia|]. exfalso. apply (Hm (s + n)); [lia|exact E].
  - apply IH; try lia. destruct (Z.eq_dec (s + n) es) as [Ee|]; [congruence|lia].
Qed.

(** The command line is read as a derivation of the grammar that consumes all of it, or refused. *)
Lemma parsecmd_result :
  match parsecmd len fuel s m with
  | Ok c m' => exists x, line_ok x = true /\ toks_at m es s (line_toks x) es /\ c = line_cmd x /\ m' = nulterminate c m
  | Panic _ => forall x, line_ok x = true -> ~ toks_at m es s (line_toks x) es
  | _ => False
  end.
Proof.
  pose proof (tx_le _ _ _ T) as Hle. unfold parsecmd. rewrite strlen_text. replace (s + (es - s)) with es by lia.
  pose proof (proj1 (parser_parses m s es T fuel) s ltac:(lia) Hfuel) as Hs.
  assert (Hc : forall x, line_ok x = true -> toks_at m es s (line_toks x) es -> parseline m es fuel s = Ok (line_cmd x) es).
  { intros x Hx Ht. apply (proj1 (parser_complete m s es T fuel)); auto; [|lia]. unfold code, token, gettoken. rewrite skip_space_stop by now left.
    now rewrite (tx_end _ _ _ T). }
  destruct (parseline m es fuel s) as [c p|e|e|] eqn:E; cbn [parses] in Hs; try contradiction; [|intros x Hx Ht; specialize (Hc x Hx Ht); discriminate].
  destruct Hs as (ts & Ht & x & Hx & -> & ->). destruct (toks_range m s es T s _ _ ltac:(lia) Ht) as (_ & _ & Es & _). rewrite Es. destruct (Z.eqb_spec p es) as [->|Hp]; cbn [negb].
  - exists x. auto.
  - intros y Hy Hty. specialize (Hc y Hy Hty). congruence.
Qed.
End Parsecmd.

Lemma cstr_word m m' q (n : nat) : (forall x, q <= x < q + Z.of_nat n -> m' x = m x /\ m x <> 0) -> m' (q + Z.of_nat n) = 0 ->
  forall k, (n < k)%nat -> cstr m' q k = bytes m q n.
Proof.
  revert q. induction n as [|n IH]; intros q H H0 k Hk; destruct k as [|k]; try lia; cbn [cstr bytes].
  - replace (q + Z.of_nat 0) with q in H0 by lia. now rewrite H0.
  - destruct (H q ltac:(lia)) as [-> Hq]. unfold truth. destruct (Z.eqb_spec (m q) 0); [contradiction|]. cbn [negb]. f_equal.
    apply IH; [intros x Hx; apply H; lia|replace (q + 1 + Z.of_nat n) with (q + Z.of_nat (S n)) by lia; exact H0|lia].
Qed.

(** The line [(ab;c)>d&], at address 100. *)
Definition sample_line (x : Z) : Z := nth (Z.to_nat (x - 100)) [40; 97; 98; 59; 99; 41; 62; 100; 38] 0.
Definition sample_cmd : cmd := BACK (REDIR (LIST (EXEC [(101, 103)]) (EXEC [(104, 105)])) 107 108 (Z.lor O_WRONLY O_CREATE) 1).

Lemma sample_text : text sample_line 100 109.
Proof.
  constructor; [lia|reflexivity|]. intros x Hx. assert (D : In x [100; 101; 102; 103; 104; 105; 106; 107; 108]) by (cbn; lia).
  cbn in D. repeat (destruct D as [<-|D]; [discriminate|]). destruct D.
Qed.

(** [parsecmd] ends on every command line: for a line from [s] to its NUL at
    [es], calls nested [4 * (es - s) + 4] deep are enough for the parser, whatever
    the line holds, and then it gives a command or panics with a message;
    neither the loops of [gettoken], [peek], [parseredirs], [parseexec] and
    [parseline] nor the calls of [parseblock] and [parseline] for each other go
    on for ever. *)
Theorem parsecmd_terminates m s es len fuel : text m s es -> es - s < Z.of_nat len -> 4 * (es - s) + 4 <= Z.of_nat fuel ->
  (exists c m', parsecmd len fuel s m = Ok c m') \/ (exists msg, parsecmd len fuel s m = Panic msg).
Proof.
  intros T Hl Hf. pose proof (parsecmd_result m s es len fuel T Hl Hf) as H. destruct (parsecmd len fuel s m) as [c m'|e|e|]; try contradiction; eauto.
Qed.

Lemma parsecmd_terminates_witness : (exists c m', parsecmd 10 40 100 sample_line = Ok c m') \/ (exists msg, parsecmd 10 40 100 sample_line = Panic msg).
Proof. apply (parsecmd_terminates sample_line 100 109 10 40 sample_text); lia. Defined.

(** C32: [parsecmd] implements the grammar of the shell: it accepts a line exactly
    when the tokens of the line, from its first character to its NUL, are those
    of a derivation (a line of pipelines of blocks and simple commands with
    redirections, [&] and [;], with fewer than ten words in each command), and
    the command it builds is the meaning of that derivation. *)
Theorem parsecmd_grammar m s es len fuel c m' : text m s es -> es - s < Z.of_nat len -> 4 * (es - s) + 4 <= Z.of_nat fuel ->
  parsecmd len fuel s m = Ok c m' <->
  exists x, line_ok x = true /\ toks_at m es s (line_toks x) es /\ c = line_cmd x /\ m' = nulterminate c m.
Proof.
  intros T Hl Hf. pose proof (parsecmd_result m s es len fuel T Hl Hf) as H. split; [intros E; now rewrite E in H|].
  intros (x & Hx & Ht & -> & ->). pose proof (tx_le _ _ _ T) as Hle. unfold parsecmd. rewrite (strlen_text m s es) by auto. replace (s + (es - s)) with es by lia.
  assert (Hcode : code m es es = 0) by (unfold code, token, gettoken; rewrite skip_space_stop by (now left); now rewrite (tx_end _ _ _ T)).
  rewrite (proj1 (parser_complete m s es T fuel) x s es Hx Ht) by (rewrite ?Hcode; auto; lia). rewrite skip_space_stop by now left. now rewrite Z.eqb_refl.
Qed.

Lemma parsecmd_grammar_witness : exists x, line_ok x = true /\ toks_at sample_line 109 100 (line_toks x) 109 /\ sample_cmd = line_cmd x /\
  nulterminate sample_cmd sample_line = nulterminate sample_cmd sample_line.
Proof.
  apply (parsecmd_grammar sample_line 100 109 10 40 sample_cmd (nulterminate sample_cmd sample_line) sample_text); [lia|lia|]. vm_compute. reflexivity.
Defined.

(** after [parsecmd] every string of the command, its arguments and the files
    of its redirections, is NUL-terminated and reads as the word of the line it
    came from: a longest run of characters that are neither blanks nor symbols.
    [nulterminate] writes the NULs of one word over no character of another, and
    changes nothing outside of the line. *)
Theorem parsecmd_strings m s es len fuel c m' : text m s es -> es - s < Z.of_nat len -> 4 * (es - s) + 4 <= Z.of_nat fuel ->
  parsecmd len fuel s m = Ok c m' ->
  (forall q e, (q, e) ∈ cmd_strings c -> word m s es q e /\ forall k, e - q < Z.of_nat k -> cstr m' q k = bytes m q (Z.to_nat (e - q))) /\
  (forall x, ~ s < x < es -> m' x = m x).
Proof.
  intros T Hl Hf E. pose proof (parsecmd_result m s es len fuel T Hl Hf) as H. rewrite E in H. destruct H as (x & _ & Ht & -> & ->).
  pose proof (tx_le _ _ _ T) as Hle. set (l := cmd_strings (line_cmd x)).
  assert (Hw : forall q e, (q, e) ∈ l -> word m s es q e).
  { intros q e Hin. apply (toks_words m s es T s (line_toks x) es); [lia|exact Ht|]. now apply tk_words_elem, line_strings. }
  assert (Hn : forall y, nulterminate (line_cmd x) m y = if in_set (map snd l) y then 0 else m y) by (intros y; now rewrite nulterminate_strings, nul_at).
  assert (He : forall y, in_set (map snd l) y = true -> s < y <= es /\ ordinary (m y) = false).
  { intros y Hy%in_set_spec. apply list_elem_of_fmap in Hy as ([q e] & -> & Hin). destruct (Hw q e Hin) as [Hr _ Ho]. cbn. split; [lia|exact Ho]. }
  split.
  - intros q e Hin. split; [auto|]. intros k Hk. destruct (Hw q e Hin) as [Hr Hc Ho]. apply cstr_word; [intros y Hy| |lia]; rewrite Hn.
    + specialize (Hc y ltac:(lia)). destruct (in_set (map snd l) y) eqn:Ey; [destruct (He y Ey); congruence|]. split; [reflexivity|]. intros E0. rewrite E0 in Hc. discriminate.
    + replace (q + Z.of_nat (Z.to_nat (e - q))) with e by lia. rewrite (proj2 (in_set_spec _ _)); [reflexivity|]. apply list_elem_of_fmap. now exists (q, e).
  - intros y Hy. rewrite Hn. destruct (in_set (map snd l) y) eqn:Ey; [|reflexivity]. destruct (He y Ey) as [Hr _]. replace y with es by lia. symmetry. apply (tx_end _ _ _ T).
Qed.

Lemma parsecmd_strings_witness : cstr (nulterminate sample_cmd sample_line) 101 5 = [97; 98] /\ cstr (nulterminate sample_cmd sample_line) 107 5 = [100].
Proof.
  destruct (parsecmd_strings sample_line 100 109 10 40 sample_cmd (nulterminate sample_cmd sample_line) sample_text ltac:(lia) ltac:(lia) ltac:(vm_compute; reflexivity)) as [H _].
  split; [apply (proj2 (H 101 103 ltac:(apply list_elem_of_In; cbn; auto))); lia|apply (proj2 (H 107 108 ltac:(apply list_elem_of_In; cbn; auto))); lia].
Defined.
