(* ===== verification/Shell.v ===== *)
(** The shell: [main], [getcmd] and [runcmd] of [src/xv6/xv6-public/sh.c], on the
    parser of [Sh], the library of [Ulib] and the descriptors of [Sysfile].

    [runcmd] is a program of system calls.  What a call does to the descriptors
    of the process is the table operation that the kernel's own definitions
    implement, which the first part shows.  A run of [runcmd] is the tree of the
    processes it makes, with the descriptor tables of those that reach [exec];
    every call that may fail may fail in every run.  Pipes are named by the
    process that makes them. *)

From stdpp Require Import gmap.
From S2P Require Import Prelude Mem Mmu Spinlock Kalloc Pipe Block Bio Log Txn Fs File Syscall Sysfile Refs Print Ulib Sh.

(** ** Descriptor tables *)

Section Table.
Context {A : Type}.
Implicit Type t : list (option A).

Definition fd_get t (fd : Z) : option A :=
  if fd <? 0 then None else match t !! Z.to_nat fd with Some (Some o) => Some o | _ => None end.

Definition fd_close t (fd : Z) : list (option A) :=
  match fd_get t fd with Some _ => <[Z.to_nat fd := None]> t | None => t end.

(** The lowest free descriptor is given to [o]. *)
Definition fd_alloc t (o : A) : option (Z * list (option A)) :=
  match free_fd t 0 with Some fd => Some (Z.of_nat fd, <[fd := Some o]> t) | None => None end.

Definition fd_dup t (fd : Z) : option (Z * list (option A)) :=
  match fd_get t fd with Some o => fd_alloc t o | None => None end.

Definition fd_pipe t (r w : A) : option (Z * Z * list (option A)) :=
  match fd_alloc t r with
  | Some (p0, t) => match fd_alloc t w with Some (p1, t) => Some (p0, p1, t) | None => None end
  | None => None
  end.

Lemma fd_alloc_lowest t o fd : t !! fd = Some None -> (forall i, (i < fd)%nat -> exists o, t !! i = Some (Some o)) ->
  fd_alloc t o = Some (Z.of_nat fd, <[fd := Some o]> t).
Proof.
  intros L N. unfold fd_alloc. destruct (free_fd t 0) as [fd'|] eqn:E.
  - apply free_fd_some in E as (_ & L' & N'). rewrite Nat.sub_0_r in L'. destruct (Nat.lt_trichotomy fd fd') as [Hl|[->|Hl]]; [|reflexivity|].
    + destruct (N' fd ltac:(lia)) as [f Hf]. rewrite Nat.sub_0_r in Hf. congruence.
    + destruct (N fd' Hl) as [f Hf]. congruence.
  - exfalso. clear N. revert fd L E. generalize 0%nat. induction t as [|[x|] t IH]; intros k fd L E; [discriminate| |discriminate].
    destruct fd as [|fd]; [discriminate|]. exact (IH _ _ L E).
Qed.

Lemma fd_alloc_some t o fd t' : fd_alloc t o = Some (fd, t') -> exists n, fd = Z.of_nat n /\ t !! n = Some None /\ t' = <[n := Some o]> t /\
  forall i, (i < n)%nat -> exists o, t !! i = Some (Some o).
Proof.
  unfold fd_alloc. destruct (free_fd t 0) as [n|] eqn:E; [|discriminate]. intros H. injection H as <- <-. apply free_fd_some in E as (_ & L & N). rewrite Nat.sub_0_r in L.
  exists n. split_and!; auto. intros i Hi. specialize (N i ltac:(lia)). now rewrite Nat.sub_0_r in N.
Qed.
End Table.

(** ** The kernel implements the tables *)

Section Kernel.
Context `{Linker}.
Context {C : Type} `{BlockCache C}.
Variable pid : Z.
Variable killed : bool.
Variable dev_read : Z -> option (nat -> Z -> M (fstate C) (Z * list Z)).
Variable dev_write : Z -> option (nat -> (Z -> Z) -> Z -> M (fstate C) Z).

(** Computations that do not touch the descriptors. *)
Abbreviation keeps l m := (ledger (fun s : ust C => s_ofile s = l) (fun _ (_ : unit) => 0) m (fun _ _ => 0)).

Lemma keeps_x l {A} (m : M (xstate C) A) : keeps l (on_x m).
Proof. intros s a s' E T. unfold on_x, zoom in E. destruct (m (s_x s)); try discriminate. injection E as <- <-. auto. Qed.

Lemma keeps_view l : keeps l view.
Proof. apply ledger_gets. Qed.
Lemma keeps_umem l m : keeps l (put_umem m).
Proof. intros s a s' E T. injection E as <- <-. auto. Qed.
Lemma keeps_argfd l n : keeps l (argfd n).
Proof. intros s a s' E T. injection E as <- <-. auto. Qed.
#[local] Hint Resolve keeps_x keeps_view keeps_umem keeps_argfd : ledger.

Lemma keeps_fs l {A} (m : M (fstate C) A) : keeps l (fs m).
Proof. apply keeps_x. Qed.
#[local] Hint Resolve keeps_fs : ledger.

Lemma keeps_open_inode l path omode : keeps l (open_inode pid dev_read dev_write path omode).
Proof. unfold open_inode. still. Qed.

Lemma keeps_ofile {A} (m : M (ust C) A) s a s' : (forall l, keeps l m) -> m s = Ok a s' -> s_ofile s' = s_ofile s.
Proof. intros Hm E. now destruct (Hm (s_ofile s) _ _ _ E eq_refl). Qed.

(** The next step of the run [E] keeps the descriptors. *)
Ltac keeps_step E :=
  let X := fresh "K" in apply bind_inv_ok in E as (? & ? & X & E); apply keeps_ofile in X; [|intros ?; still].

Lemma fdalloc_table f (s : ust C) r s' : fdalloc f s = Ok r s' -> s_view s' = s_view s /\
  match r with
  | Some fd => fd_alloc (s_ofile s) f = Some (Z.of_nat fd, s_ofile s')
  | None => fd_alloc (s_ofile s) f = None /\ s_ofile s' = s_ofile s
  end.
Proof.
  unfold fdalloc, fd_alloc. intros E. apply bind_inv_ok in E as (l & s1 & E1 & E). injection E1 as <- <-. destruct (free_fd (s_ofile s) 0) as [fd|].
  - apply bind_inv_ok in E as ([] & s2 & E2 & E). injection E2 as <-. injection E as <- <-. auto.
  - injection E as <- <-. auto.
Qed.

Lemma argfd_table n (s : ust C) r s' : argfd n s = Ok r s' -> length (s_ofile s) = 16%nat -> s' = s /\
  match argint (s_view s) n with
  | None => r = None
  | Some fd => match fd_get (s_ofile s) fd with Some f => r = Some (Z.to_nat fd, f) | None => r = None end
  end.
Proof.
  intros E Hl. injection E as <- <-. split; [reflexivity|]. destruct (argint (s_view s) n) as [fd|]; [|reflexivity]. unfold fd_get.
  destruct (Z.ltb_spec fd 0); cbn [orb]; [reflexivity|]. destruct (Z.leb_spec 16 fd).
  - now rewrite (lookup_ge_None_2 (s_ofile s)) by lia.
  - now destruct (s_ofile s !! Z.to_nat fd) as [[f|]|].
Qed.

Lemma sys_close_table (s : ust C) r s' fd : sys_close pid s = Ok r s' -> length (s_ofile s) = 16%nat -> argint (s_view s) 0 = Some fd ->
  s_ofile s' = fd_close (s_ofile s) fd.
Proof.
  intros E Hl Ha. unfold sys_close in E. apply bind_inv_ok in E as (a & s1 & E1 & E). apply argfd_table in E1 as [-> E1]; [|exact Hl]. rewrite Ha in E1.
  unfold fd_close. destruct (fd_get (s_ofile s) fd) as [f|]; subst a; [|injection E as <- <-; reflexivity].
  apply bind_inv_ok in E as ([] & s2 & E2 & E). injection E2 as <-. apply keeps_ofile in E; [now rewrite E|]. intros l. still.
Qed.

Lemma sys_dup_table (s : ust C) r s' fd : sys_dup s = Ok r s' -> length (s_ofile s) = 16%nat -> argint (s_view s) 0 = Some fd ->
  match fd_dup (s_ofile s) fd with Some (r', t) => r = r' /\ s_ofile s' = t | None => r = -1 /\ s_ofile s' = s_ofile s end.
Proof.
  intros E Hl Ha. unfold sys_dup in E. apply bind_inv_ok in E as (a & s1 & E1 & E). apply argfd_table in E1 as [-> E1]; [|exact Hl]. rewrite Ha in E1.
  unfold fd_dup. destruct (fd_get (s_ofile s) fd) as [f|]; subst a; [|injection E as <- <-; auto].
  apply bind_inv_ok in E as (o & s2 & E2 & E). apply fdalloc_table in E2 as [_ E2]. destruct o as [n|]; [|destruct E2 as [-> E2]; injection E as <- <-; auto].
  rewrite E2. apply bind_inv_ok in E as (u & s3 & E3 & E). injection E as <- <-. apply keeps_ofile in E3; [auto|]. intros l. still.
Qed.

Lemma open_file_table (s : ust C) r s' : open_file pid s = Ok r s' ->
  match r with Some (f, fd) => fd_alloc (s_ofile s) f = Some (Z.of_nat fd, s_ofile s') | None => s_ofile s' = s_ofile s end.
Proof.
  unfold open_file. intros E. apply bind_inv_ok in E as (f & s1 & E1 & E). apply keeps_ofile in E1; [|intros l; still]. destruct f as [f|]; [|injection E as <- <-; exact E1].
  apply bind_inv_ok in E as (o & s2 & E2 & E). apply fdalloc_table in E2 as [_ E2]. destruct o as [fd|].
  - injection E as <- <-. now rewrite <- E1.
  - destruct E2 as [_ E2]. apply bind_inv_ok in E as (u & s3 & E3 & E). injection E as <- <-. apply keeps_ofile in E3; [congruence|]. intros l. still.
Qed.

Lemma sys_open_table (s : ust C) r s' : sys_open pid dev_read dev_write s = Ok r s' ->
  r = -1 /\ s_ofile s' = s_ofile s \/ exists f, fd_alloc (s_ofile s) f = Some (r, s_ofile s').
Proof.
  unfold sys_open. intros E. apply bind_inv_ok in E as (v & s1 & E1 & E). injection E1 as <- <-.
  destruct (argstr (s_view s) 0) as [path|]; [|injection E as <- <-; auto]. destruct (argint (s_view s) 1) as [omode|]; [|injection E as <- <-; auto].
  apply bind_inv_ok in E as (u & s2 & E2 & E). apply keeps_ofile in E2; [|intros l; still]. apply bind_inv_ok in E as (ip & s3 & E3 & E). apply keeps_ofile in E3; [|intros l; apply keeps_open_inode].
  destruct ip as [ip|].
  - apply bind_inv_ok in E as (o & s4 & E4 & E). apply open_file_table in E4. destruct o as [[f fd]|].
    + right. exists f. assert (Er : r = Z.of_nat fd /\ s_ofile s' = s_ofile s4); [|destruct Er as [-> ->]; congruence].
      do 3 keeps_step E. injection E as <- <-. split; [reflexivity|congruence].
    + left. do 2 keeps_step E. injection E as <- <-. split; [reflexivity|congruence].
  - left. keeps_step E. injection E as <- <-. split; [reflexivity|congruence].
Qed.

(** [sys_pipe] leaves the two descriptors in the memory of the process. *)
Lemma sys_pipe_table (s : ust C) r s' p : sys_pipe pid s = Ok r s' -> argptr (s_view s) 0 8 = Some p ->
  r = -1 /\ s_ofile s' = s_ofile s \/
  r = 0 /\ exists rf wf p0 p1, fd_pipe (s_ofile s) rf wf = Some (p0, p1, s_ofile s') /\
    u_mem (s_view s') = store32 (store32 (u_mem (s_view s)) p p0) (p + 4) p1.
Proof.
  unfold sys_pipe. intros E Ha. apply bind_inv_ok in E as (v & s1 & E1 & E). injection E1 as <- <-. rewrite Ha in E.
  apply bind_inv_ok in E as (o & s2 & E2 & E). apply keeps_ofile in E2; [|intros l; still]. destruct o as [[rf wf]|]; [|injection E as <- <-; auto].
  apply bind_inv_ok in E as (fd0 & s3 & E3 & E). apply fdalloc_table in E3 as [_ E3]. destruct fd0 as [fd0|].
  - apply bind_inv_ok in E as (fd1 & s4 & E4 & E). apply fdalloc_table in E4 as [_ E4]. destruct fd1 as [fd1|].
    + right. apply bind_inv_ok in E as ([] & s5 & E5 & E). injection E5 as <-. injection E as <- <-. split; [reflexivity|]. exists rf, wf, (Z.of_nat fd0), (Z.of_nat fd1).
      unfold fd_pipe. rewrite <- E2, E3, E4. auto.
    + left. destruct E4 as [_ E4]. apply bind_inv_ok in E as ([] & s5 & E5 & E). injection E5 as <-. do 2 keeps_step E. injection E as <- <-. split; [reflexivity|].
      rewrite K0, K. cbn [s_ofile]. rewrite E4. apply fd_alloc_some in E3 as (n & En & L & -> & _). apply Nat2Z.inj in En as ->.
      rewrite list_insert_insert_eq, list_insert_id by exact L. exact E2.
  - left. destruct E3 as [_ E3]. do 2 keeps_step E. injection E as <- <-. split; [reflexivity|congruence].
Qed.

(** The file system calls treat the descriptors of the process as the table
    operations do on which the shell is run: [sys_close] frees its descriptor,
    [sys_dup] and [sys_open] give the lowest free one to the same or to a new
    open file, or fail, and [sys_pipe] gives the two lowest free ones to the ends
    of a pipe and stores them at its argument; a call that fails leaves all
    descriptors as they were. *)
Theorem kernel_descriptors (s : ust C) r s' : length (s_ofile s) = 16%nat ->
  (forall fd, sys_close pid s = Ok r s' -> argint (s_view s) 0 = Some fd -> s_ofile s' = fd_close (s_ofile s) fd) /\
  (forall fd, sys_dup s = Ok r s' -> argint (s_view s) 0 = Some fd ->
     match fd_dup (s_ofile s) fd with Some (r', t) => r = r' /\ s_ofile s' = t | None => r = -1 /\ s_ofile s' = s_ofile s end) /\
  (sys_open pid dev_read dev_write s = Ok r s' ->
     r = -1 /\ s_ofile s' = s_ofile s \/ exists f, fd_alloc (s_ofile s) f = Some (r, s_ofile s')) /\
  (forall p, sys_pipe pid s = Ok r s' -> argptr (s_view s) 0 8 = Some p ->
     r = -1 /\ s_ofile s' = s_ofile s \/
     r = 0 /\ exists rf wf p0 p1, fd_pipe (s_ofile s) rf wf = Some (p0, p1, s_ofile s') /\
       u_mem (s_view s') = store32 (store32 (u_mem (s_view s)) p p0) (p + 4) p1).
Proof.
  intros Hl. split_and!.
  - intros fd E. exact (sys_close_table s r s' fd E Hl).
  - intros fd E. exact (sys_dup_table s r s' fd E Hl).
  - apply sys_open_table.
  - intros p E. now apply sys_pipe_table.
Qed.

End Kernel.

(** ** Programs of system calls *)

Inductive prog :=
| SysExit
| SysClose (fd : Z) (k : prog)
| SysOpen (file : Z * Z) (mode : Z) (k : Z -> prog)
| SysDup (fd : Z) (k : Z -> prog)
| SysPipe (k : option (Z * Z) -> prog)
| SysFork (k : Z -> prog)
| SysWait (k : prog)
| SysExec (argv : list (Z * Z)) (k : prog)
| Print (fmt : string) (args : list (Z * Z)) (k : prog).

(** [panic] of the shell, which exits. *)
Definition sh_panic (s : string) : prog := Print s [] SysExit.

Definition fork1 (k : Z -> prog) : prog := SysFork (fun pid => if pid =? -1 then sh_panic "fork" else k pid).

(** [runcmd] never returns: the calls after its recursive calls are not reached. *)
Fixpoint runcmd (c : cmd) : prog :=
  match c with
  | EXEC [] => SysExit
  | EXEC argv => SysExec argv (Print "exec %s failed" (take 1 argv) SysExit)
  | REDIR c file efile mode fd =>
      SysClose fd (SysOpen (file, efile) mode (fun r =>
        if r <? 0 then Print "open %s failed" [(file, efile)] SysExit else runcmd c))
  | LIST l r => fork1 (fun pid => if pid =? 0 then runcmd l else SysWait (runcmd r))
  | PIPE l r =>
      SysPipe (fun p =>
        match p with
        | None => sh_panic "pipe"
        | Some (p0, p1) =>
            fork1 (fun pid =>
              if pid =? 0 then SysClose 1 (SysDup p1 (fun _ => SysClose p0 (SysClose p1 (runcmd l))))
              else fork1 (fun pid =>
                if pid =? 0 then SysClose 0 (SysDup p0 (fun _ => SysClose p0 (SysClose p1 (runcmd r))))
                else SysClose p0 (SysClose p1 (SysWait (SysWait SysExit)))))
        end)
  | BACK c => fork1 (fun pid => if pid =? 0 then runcmd c else SysExit)
  end.

(** ** Runs *)

(** What a descriptor refers to: what the shell was started with, a file opened by
    a redirection, or an end of a pipe. *)
Inductive obj :=
| OStd (n : nat)
| OFile (file : Z * Z) (mode : Z)
| OPipe (id : list nat) (wr : bool).

Abbreviation table := (list (option obj)).

(** The processes of a run: what a process does after another, and the processes
    it forks. *)
Inductive ptree :=
| TExit
| TExec (argv : list (Z * Z)) (t : table)
| TFork (child rest : ptree)
| TWait (rest : ptree).

(** A run of a process: calls may fail when [F] is [true], and a call for which
    there is no descriptor always does.  [id] names the process; [fork] gives the
    child a process number that is not 0. *)
Inductive runs (F : bool) : list nat -> table -> prog -> ptree -> Prop :=
| r_exit id t : runs F id t SysExit TExit
| r_close id t fd k tr : runs F id (fd_close t fd) k tr -> runs F id t (SysClose fd k) tr
| r_open id t file mode k fd t' tr : fd_alloc t (OFile file mode) = Some (fd, t') -> runs F id t' (k fd) tr -> runs F id t (SysOpen file mode k) tr
| r_open_fail id t file mode k tr : F = true \/ fd_alloc t (OFile file mode) = None -> runs F id t (k (-1)) tr -> runs F id t (SysOpen file mode k) tr
| r_dup id t fd k fd' t' tr : fd_dup t fd = Some (fd', t') -> runs F id t' (k fd') tr -> runs F id t (SysDup fd k) tr
| r_dup_fail id t fd k tr : fd_dup t fd = None -> runs F id t (k (-1)) tr -> runs F id t (SysDup fd k) tr
| r_pipe id t k p0 p1 t' tr : fd_pipe t (OPipe id false) (OPipe id true) = Some (p0, p1, t') -> runs F id t' (k (Some (p0, p1))) tr -> runs F id t (SysPipe k) tr
| r_pipe_fail id t k tr : F = true \/ fd_pipe t (OPipe id false) (OPipe id true) = None -> runs F id t (k None) tr -> runs F id t (SysPipe k) tr
| r_fork id t k pid tr1 tr2 : 0 < pid -> runs F (id ++ [0%nat]) t (k 0) tr1 -> runs F (id ++ [1%nat]) t (k pid) tr2 -> runs F id t (SysFork k) (TFork tr1 tr2)
| r_fork_fail id t k tr : F = true -> runs F id t (k (-1)) tr -> runs F id t (SysFork k) tr
| r_wait id t k tr : runs F id t k tr -> runs F id t (SysWait k) (TWait tr)
| r_exec id t argv k : runs F id t (SysExec argv k) (TExec argv t)
| r_exec_fail id t argv k tr : F = true -> runs F id t k tr -> runs F id t (SysExec argv k) tr
| r_print id t fmt args k tr : runs F id t k tr -> runs F id t (Print fmt args k) tr.

(** The processes a command asks for. *)
Fixpoint wanted (c : cmd) (id : list nat) (t : table) : ptree :=
  match c with
  | EXEC [] => TExit
  | EXEC argv => TExec argv t
  | REDIR c file efile mode fd => wanted c id (<[Z.to_nat fd := Some (OFile (file, efile) mode)]> t)
  | LIST l r => TFork (wanted l (id ++ [0%nat]) t) (TWait (wanted r (id ++ [1%nat]) t))
  | PIPE l r =>
      TFork (wanted l (id ++ [0%nat]) (<[1%nat := Some (OPipe id true)]> t))
        (TFork (wanted r ((id ++ [1%nat]) ++ [0%nat]) (<[0%nat := Some (OPipe id false)]> t))
           (TWait (TWait TExit)))
  | BACK c => TFork (wanted c (id ++ [0%nat]) t) TExit
  end.

(** The programs started, with their descriptors. *)
Fixpoint execs (tr : ptree) : list (list (Z * Z) * table) :=
  match tr with
  | TExit => []
  | TExec argv t => [(argv, t)]
  | TFork child rest => execs child ++ execs rest
  | TWait rest => execs rest
  end.

(** The redirections of a command are for standard input and output, as those
    the parser makes are. *)
Fixpoint redirs_std (c : cmd) : bool :=
  match c with
  | EXEC _ => true
  | REDIR c file efile mode fd => ((fd =? 0) || (fd =? 1)) && redirs_std c
  | LIST l r | PIPE l r => redirs_std l && redirs_std r
  | BACK c => redirs_std c
  end.

(** Standard input, output and error are open. *)
Definition std_open (t : table) : Prop := forall i, (i < 3)%nat -> exists o, t !! i = Some (Some o).
Definition two_free (t : table) : Prop := exists i j, i <> j /\ t !! i = Some None /\ t !! j = Some None.

Lemma std_insert t i o : std_open t -> std_open (<[i := Some o]> t).
Proof. intros Hs k Hk. rewrite list_lookup_insert. destruct (decide _); [eauto|exact (Hs k Hk)]. Qed.

Lemma free_insert t i o : (i < 3)%nat -> std_open t -> two_free t -> two_free (<[i := Some o]> t).
Proof.
  intros Hi Hs (a & b & Hab & La & Lb). exists a, b. destruct (Hs i Hi) as [x Hx]. rewrite !list_lookup_insert_ne by congruence. auto.
Qed.

Lemma fd_get_nat (t : table) i o : fd_get t (Z.of_nat i) = Some o <-> t !! i = Some (Some o).
Proof.
  unfold fd_get. rewrite (proj2 (Z.ltb_ge _ _)), Nat2Z.id by lia. destruct (t !! i) as [[x|]|]; split; intros E; inversion E; auto.
Qed.

Lemma fd_close_nat (t : table) i o : t !! i = Some (Some o) -> fd_close t (Z.of_nat i) = <[i := None]> t.
Proof. intros L. unfold fd_close. apply fd_get_nat in L. now rewrite L, Nat2Z.id. Qed.

(** [close] of standard input or output, and the next [open] or [dup]. *)
Lemma fd_replace (t : table) i o : (i < 2)%nat -> std_open t ->
  fd_close t (Z.of_nat i) = <[i := None]> t /\ fd_alloc (<[i := None]> t) o = Some (Z.of_nat i, <[i := Some o]> t).
Proof.
  intros Hi Hs. destruct (Hs i ltac:(lia)) as [x Hx]. split; [now apply fd_close_nat with x|]. pose proof (lookup_lt_Some _ _ _ Hx).
  rewrite (fd_alloc_lowest _ o i), list_insert_insert_eq; [reflexivity|now apply list_lookup_insert_eq|].
  intros j Hj. rewrite list_lookup_insert_ne by lia. apply Hs. lia.
Qed.

(** The descriptors of a pipe, and what is left of them in the processes at its
    ends and in their parent. *)
Section Ends.
Variables (t t' : table) (r w : obj) (p0 p1 : Z).
Hypothesis Hs : std_open t.
Hypothesis Hp : fd_pipe t r w = Some (p0, p1, t').

Lemma fd_pipe_some : exists n0 n1, p0 = Z.of_nat n0 /\ p1 = Z.of_nat n1 /\ n0 <> n1 /\ (3 <= n0)%nat /\ (3 <= n1)%nat /\
  t !! n0 = Some None /\ t !! n1 = Some None /\ t' = <[n1 := Some w]> (<[n0 := Some r]> t).
Proof.
  unfold fd_pipe in Hp. destruct (fd_alloc t r) as [[q0 t1]|] eqn:E0; [|discriminate]. destruct (fd_alloc t1 w) as [[q1 t2]|] eqn:E1; [|discriminate]. injection Hp as <- <- <-.
  apply fd_alloc_some in E0 as (n0 & -> & L0 & -> & _). apply fd_alloc_some in E1 as (n1 & -> & L1 & -> & _). pose proof (lookup_lt_Some _ _ _ L0) as Hl.
  assert (Hn : n0 <> n1) by (intros <-; rewrite list_lookup_insert_eq in L1 by exact Hl; discriminate). rewrite list_lookup_insert_ne in L1 by exact Hn.
  assert (Ht : forall n, t !! n = Some None -> (3 <= n)%nat) by (intros n Ln; destruct (le_lt_dec 3 n) as [|Hlt]; [auto|destruct (Hs n Hlt); congruence]).
  exists n0, n1. split_and!; auto.
Qed.

Lemma pipe_parent : fd_close (fd_close t' p0) p1 = t.
Proof.
  destruct fd_pipe_some as (n0 & n1 & -> & -> & Hn & H0 & H1 & L0 & L1 & ->). pose proof (lookup_lt_Some _ _ _ L0). pose proof (lookup_lt_Some _ _ _ L1).
  rewrite (fd_close_nat _ n0 r) by (rewrite list_lookup_insert_ne, list_lookup_insert_eq by auto; reflexivity).
  rewrite (fd_close_nat _ n1 w) by (rewrite list_lookup_insert_ne, list_lookup_insert_eq by (rewrite ?length_insert; auto); reflexivity).
  rewrite (list_insert_insert_ne _ n0 n1) by exact Hn. rewrite !list_insert_insert_eq.
  now rewrite (list_insert_id t n0), list_insert_id by assumption.
Qed.

Lemma pipe_child i p o : (i < 2)%nat -> p = p0 /\ o = r \/ p = p1 /\ o = w ->
  exists t2, fd_dup (fd_close t' (Z.of_nat i)) p = Some (Z.of_nat i, t2) /\ fd_close (fd_close t2 p0) p1 = <[i := Some o]> t.
Proof.
  intros Hi Ho. destruct fd_pipe_some as (n0 & n1 & E0 & E1 & Hn & H0 & H1 & L0 & L1 & Et). pose proof (lookup_lt_Some _ _ _ L0). pose proof (lookup_lt_Some _ _ _ L1).
  assert (Hs' : std_open t') by (subst t'; now apply std_insert, std_insert). destruct (fd_replace t' i o Hi Hs') as [-> Ha].
  assert (G : fd_get (<[i := None]> t') p = Some o).
  { destruct Ho as [[-> ->]|[-> ->]]; [rewrite E0|rewrite E1]; rewrite fd_get_nat, list_lookup_insert_ne by lia; subst t'.
    - now rewrite list_lookup_insert_ne, list_lookup_insert_eq by auto.
    - now rewrite list_lookup_insert_eq by (rewrite length_insert; auto). }
  exists (<[i := Some o]> t'). split; [unfold fd_dup; rewrite G; exact Ha|]. subst t' p0 p1.
  rewrite (fd_close_nat _ n0 r) by (rewrite !list_lookup_insert_ne, list_lookup_insert_eq by (auto; lia); reflexivity).
  rewrite (fd_close_nat _ n1 w) by (rewrite !list_lookup_insert_ne, list_lookup_insert_eq by (rewrite ?length_insert; auto; lia); reflexivity).
  rewrite (list_insert_insert_ne _ n0 i), (list_insert_insert_ne _ n1 i) by lia. f_equal.
  rewrite (list_insert_insert_ne _ n0 n1) by exact Hn. rewrite !list_insert_insert_eq.
  now rewrite (list_insert_id t n0), list_insert_id by assumption.
Qed.
End Ends.

Lemma fd_pipe_free t r w : two_free t -> exists p0 p1 t', fd_pipe t r w = Some (p0, p1, t').
Proof.
  intros (a & b & Hab & La & Lb). unfold fd_pipe.
  assert (Al : forall (t : table) o k, t !! k = Some None -> exists fd t', fd_alloc t o = Some (fd, t')).
  { clear. intros t o k L. unfold fd_alloc. cut (exists fd, free_fd t 0 = Some fd); [intros [fd ->]; eauto|]. revert k L. generalize 0%nat.
    induction t as [|[x|] t IH]; intros n k L; [discriminate| |cbn; eauto]. destruct k as [|k]; [discriminate|]. exact (IH _ _ L). }
  destruct (Al t r a La) as (p0 & t1 & E0). rewrite E0. apply fd_alloc_some in E0 as (n0 & _ & L0 & -> & _).
  assert (exists k, <[n0 := Some r]> t !! k = Some None) as [k Hk].
  { destruct (decide (n0 = a)) as [->|]; [exists b|exists a]; rewrite list_lookup_insert_ne by auto; auto. }
  destruct (Al _ w k Hk) as (p1 & t2 & E1). rewrite E1. eauto.
Qed.

Lemma runs_panic F id t msg tr : runs F id t (sh_panic msg) tr -> tr = TExit.
Proof. intros R. inversion R as [| | | | | | | | | | | | |? ? ? ? ? ? R']; subst. now inversion R'. Qed.

Lemma runs_close F id t fd k tr : runs F id t (SysClose fd k) tr -> runs F id (fd_close t fd) k tr.
Proof. intros R. now inversion R. Qed.

Lemma runs_wait F id t k tr : runs F id t (SysWait k) tr -> exists tr', tr = TWait tr' /\ runs F id t k tr'.
Proof. intros R. inversion R; subst. eauto. Qed.

Lemma runs_dup F id t fd k fd' t' tr : fd_dup t fd = Some (fd', t') -> runs F id t (SysDup fd k) tr -> runs F id t' (k fd') tr.
Proof. intros E R. inversion R; subst; congruence. Qed.

Lemma runs_fork1 F id t k tr : runs F id t (fork1 k) tr ->
  F = true /\ tr = TExit \/
  exists pid tr1 tr2, 0 < pid /\ runs F (id ++ [0%nat]) t (k 0) tr1 /\ runs F (id ++ [1%nat]) t (k pid) tr2 /\ tr = TFork tr1 tr2.
Proof.
  intros R. inversion R as [| | | | | | | |? ? ? pid tr1 tr2 H0 R1 R2|? ? ? ? Hf R'| | | |]; subst.
  - right. exists pid, tr1, tr2. rewrite (proj2 (Z.eqb_neq pid (-1))) in R2 by lia. auto.
  - left. now apply runs_panic in R'.
Qed.

(** The end of a pipe: [close(i); dup(p); close(p[0]); close(p[1]); ...] *)
Lemma runs_end F id t t' r w p0 p1 i p o k tr : std_open t -> fd_pipe t r w = Some (p0, p1, t') -> (i < 2)%nat -> p = p0 /\ o = r \/ p = p1 /\ o = w ->
  runs F id t' (SysClose (Z.of_nat i) (SysDup p (fun _ => SysClose p0 (SysClose p1 k)))) tr <-> runs F id (<[i := Some o]> t) k tr.
Proof.
  intros Hs Hp Hi Ho. destruct (pipe_child t t' r w p0 p1 Hs Hp i p o Hi Ho) as (t2 & Hd & Hc). split.
  - intros R%runs_close. apply (runs_dup _ _ _ _ _ _ _ _ Hd) in R. apply runs_close, runs_close in R. now rewrite Hc in R.
  - intros R. constructor. apply (r_dup F _ _ _ _ _ _ _ Hd). do 2 constructor. now rewrite Hc.
Qed.

(** One run of [runcmd], redirections and the ends of pipes included. *)
Lemma runcmd_redir F id t c file efile mode fd tr : (fd =? 0) || (fd =? 1) = true -> std_open t -> runs F id t (runcmd (REDIR c file efile mode fd)) tr ->
  F = true /\ tr = TExit \/ runs F id (<[Z.to_nat fd := Some (OFile (file, efile) mode)]> t) (runcmd c) tr.
Proof.
  intros Hfd Hs R%runs_close. assert (Hi : (Z.to_nat fd < 2)%nat /\ fd = Z.of_nat (Z.to_nat fd)) by (bool_split; lia). destruct Hi as [Hi Ez].
  destruct (fd_replace t (Z.to_nat fd) (OFile (file, efile) mode) Hi Hs) as [Ec Ea]. rewrite <- Ez in Ec, Ea. rewrite Ec in R.
  inversion R as [| |? ? ? ? ? fd' t' ? E R'|? ? ? ? ? ? Hf R'| | | | | | | | | |]; subst.
  - rewrite Ea in E. injection E as <- <-. rewrite (proj2 (Z.ltb_ge fd 0)) in R' by lia. auto.
  - left. cbn in R'. inversion R' as [| | | | | | | | | | | | |? ? ? ? ? ? R'']; subst. inversion R''; subst. split; [|reflexivity]. destruct Hf; [auto|congruence].
Qed.

Lemma runcmd_pipe F id t l r tr : std_open t -> runs F id t (runcmd (PIPE l r)) tr ->
  (F = true \/ ~ two_free t) /\ tr = TExit \/
  exists tr1 tr2, runs F (id ++ [0%nat]) (<[1%nat := Some (OPipe id true)]> t) (runcmd l) tr1 /\ tr = TFork tr1 tr2 /\
    (F = true /\ tr2 = TExit \/
     exists tr3, runs F ((id ++ [1%nat]) ++ [0%nat]) (<[0%nat := Some (OPipe id false)]> t) (runcmd r) tr3 /\ tr2 = TFork tr3 (TWait (TWait TExit))).
Proof.
  intros Hs R. cbn [runcmd] in R. inversion R as [| | | | | |? ? ? p0 p1 t' ? E R'|? ? ? ? Hf R'| | | | | |]; subst.
  - apply runs_fork1 in R' as [[Hf ->]|(pid & tr1 & tr2 & Hpid & R1 & R2 & ->)]; [auto|]. right. cbn [Z.eqb] in R1. rewrite (proj2 (Z.eqb_neq pid 0)) in R2 by lia.
    apply (runs_end _ _ t t' _ _ p0 p1 1 p1 (OPipe id true) _ _ Hs E) in R1; [|lia|auto]. exists tr1, tr2. split_and!; auto.
    apply runs_fork1 in R2 as [[Hf ->]|(pid' & tr3 & tr4 & Hpid' & R3 & R4 & ->)]; [auto|]. right. cbn [Z.eqb] in R3. rewrite (proj2 (Z.eqb_neq pid' 0)) in R4 by lia.
    apply (runs_end _ _ t t' _ _ p0 p1 0 p0 (OPipe id false) _ _ Hs E) in R3; [|lia|auto]. exists tr3. split; [exact R3|].
    apply runs_close, runs_close, runs_wait in R4 as (? & -> & R4). apply runs_wait in R4 as (? & -> & R4). now inversion R4.
  - left. apply runs_panic in R' as ->. split; [|reflexivity]. destruct Hf as [Hf|Hf]; [auto|]. right. intros H2.
    destruct (fd_pipe_free t (OPipe id false) (OPipe id true) H2) as (? & ? & ? & E). congruence.
Qed.

Lemma runcmd_safe F c : forall id t tr, redirs_std c = true -> std_open t -> runs F id t (runcmd c) tr ->
  sublist (execs tr) (execs (wanted c id t)) /\ (F = false -> two_free t -> tr = wanted c id t).
Proof.
  induction c as [argv|c IH file efile mode fd|l IHl r IHr|l IHl r IHr|c IH]; intros id t tr Hc Hs R; cbn [redirs_std] in Hc.
  - destruct argv as [|a argv]; cbn [runcmd wanted] in *; inversion R as [| | | | | | | | | | | |? ? ? ? ? Hf R'|]; subst; [auto|auto|].
    inversion R' as [| | | | | | | | | | | | |? ? ? ? ? ? R'']; subst. inversion R''; subst. split; [apply sublist_nil_l|discriminate].
  - apply andb_prop in Hc as [Hfd Hc]. apply (runcmd_redir F) in R as [[-> ->]|R]; auto; [split; [apply sublist_nil_l|discriminate]|].
    destruct (IH id _ tr Hc (std_insert _ _ _ Hs) R) as [S E]. split; [exact S|]. intros Hf Ht. apply E; auto. apply free_insert; auto. bool_split; lia.
  - apply andb_prop in Hc as [Hl Hr]. apply (runcmd_pipe F) in R as [[Hf ->]|(tr1 & tr2 & R1 & -> & Hr2)]; auto; [split; [apply sublist_nil_l|intros -> ?; intuition discriminate]|].
    destruct (IHl _ _ _ Hl (std_insert _ _ _ Hs) R1) as [S1 E1]. cbn [execs wanted]. destruct Hr2 as [[-> ->]|(tr3 & R3 & ->)].
    + split; [|discriminate]. apply sublist_app; [exact S1|apply sublist_nil_l].
    + destruct (IHr _ _ _ Hr (std_insert _ _ _ Hs) R3) as [S3 E3]. cbn [execs]. rewrite app_nil_r in *. split; [rewrite app_nil_r; now apply sublist_app|].
      intros Hf Ht. rewrite E1, E3 by auto using free_insert with arith. reflexivity.
  - apply andb_prop in Hc as [Hl Hr]. cbn [runcmd wanted] in *. apply (runs_fork1 F) in R as [[-> ->]|(pid & tr1 & tr2 & Hpid & R1 & R2 & ->)]; [split; [apply sublist_nil_l|discriminate]|].
    cbn [Z.eqb] in R1. rewrite (proj2 (Z.eqb_neq pid 0)) in R2 by lia. apply runs_wait in R2 as (tr2' & -> & R2).
    destruct (IHl _ _ _ Hl Hs R1) as [S1 E1], (IHr _ _ _ Hr Hs R2) as [S2 E2]. cbn [execs]. split; [now apply sublist_app|]. intros. now rewrite E1, E2.
  - cbn [runcmd wanted] in *. apply (runs_fork1 F) in R as [[-> ->]|(pid & tr1 & tr2 & Hpid & R1 & R2 & ->)]; [split; [apply sublist_nil_l|discriminate]|].
    cbn [Z.eqb] in R1. rewrite (proj2 (Z.eqb_neq pid 0)) in R2 by lia. inversion R2; subst. destruct (IH _ _ _ Hc Hs R1) as [S1 E1]. cbn [execs].
    split; [now apply sublist_app|]. intros. now rewrite E1.
Qed.

Lemma runcmd_total F c : forall id t, redirs_std c = true -> std_open t -> two_free t -> runs F id t (runcmd c) (wanted c id t).
Proof.
  induction c as [argv|c IH file efile mode fd|l IHl r IHr|l IHl r IHr|c IH]; intros id t Hc Hs Ht; cbn [redirs_std runcmd wanted] in *.
  - destruct argv; constructor.
  - apply andb_prop in Hc as [Hfd Hc]. assert (Hi : (Z.to_nat fd < 2)%nat /\ fd = Z.of_nat (Z.to_nat fd)) by (bool_split; lia). destruct Hi as [Hi Ez].
    destruct (fd_replace t (Z.to_nat fd) (OFile (file, efile) mode) Hi Hs) as [Ec Ea]. rewrite <- Ez in Ec, Ea. constructor. rewrite Ec. apply (r_open F _ _ _ _ _ _ _ _ Ea).
    rewrite (proj2 (Z.ltb_ge fd 0)) by lia. apply IH; auto using std_insert, free_insert with arith.
  - apply andb_prop in Hc as [Hl Hr]. destruct (fd_pipe_free t (OPipe id false) (OPipe id true) Ht) as (p0 & p1 & t' & E). apply (r_pipe F _ _ _ _ _ _ _ E).
    apply (r_fork F _ _ _ 1); [lia| |]; cbn [Z.eqb Z.opp Pos.eqb].
    + apply (runs_end F _ t t' _ _ p0 p1 1 p1 (OPipe id true) _ _ Hs E); [lia|auto|]. apply IHl; auto using std_insert, free_insert with arith.
    + apply (r_fork F _ _ _ 1); [lia| |]; cbn [Z.eqb Z.opp Pos.eqb].
      * apply (runs_end F _ t t' _ _ p0 p1 0 p0 (OPipe id false) _ _ Hs E); [lia|auto|]. apply IHr; auto using std_insert, free_insert with arith.
      * do 5 constructor.
  - apply andb_prop in Hc as [Hl Hr]. apply (r_fork F _ _ _ 1); [lia|apply IHl; auto|]. constructor. apply IHr; auto.
  - apply (r_fork F _ _ _ 1); [lia|apply IH; auto|]. constructor.
Qed.

(** ** The redirections of the parser *)

Lemma redirect_std rs : forall c, redirs_std c = true -> redirs_std (redirect rs c) = true.
Proof.
  induction rs as [|r rs IH]; intros c Hc; [exact Hc|]. apply (IH (redir_for (rd_tok r) c (rd_q r) (rd_e r))). unfold redir_for, redircmd.
  destruct (_ =? 60); [|destruct (_ || _)]; cbn [redirs_std]; rewrite ?Hc; reflexivity.
Qed.

Lemma background_std k : forall c, redirs_std (background k c) = redirs_std c.
Proof. induction k as [|k IH]; intros c; cbn; [reflexivity|now rewrite IH]. Qed.

Lemma line_std x : redirs_std (line_cmd x) = true.
Proof.
  apply (sline_mind (fun x => redirs_std (line_cmd x) = true) (fun x => redirs_std (pipe_cmd x) = true) (fun x => redirs_std (exec_cmd x) = true)); clear x;
    cbn [line_cmd pipe_cmd exec_cmd redirs_std]; intros; rewrite ?background_std; auto using redirect_std; now apply andb_true_intro.
Qed.

(** ** The descriptors of programs in a pipeline *)

Lemma elem_insert (t : table) i x y : y ∈ <[i := x]> t -> y = x \/ y ∈ t.
Proof.
  intros (k & L)%list_elem_of_lookup. rewrite list_lookup_insert in L. destruct (decide _); [left; congruence|]. right. now apply (list_elem_of_lookup_2 _ k).
Qed.

(** A program has the descriptors of the shell, files of redirections, and ends
    of pipes made below [id]. *)
Lemma wanted_objs c : forall id t argv tb o, (argv, tb) ∈ execs (wanted c id t) -> Some o ∈ tb ->
  Some o ∈ t \/ match o with OStd _ => False | OFile _ _ => True | OPipe id' _ => id `prefix_of` id' end.
Proof.
  induction c as [av|c IH file efile mode fd|l IHl r IHr|l IHl r IHr|c IH]; intros id t argv tb o Hin Ho; cbn [wanted] in Hin.
  - destruct av; cbn in Hin; [now apply elem_of_nil in Hin|]. apply list_elem_of_singleton in Hin. injection Hin as -> ->. auto.
  - destruct (IH _ _ _ _ _ Hin Ho) as [H|H]; [|auto]. apply elem_insert in H as [H|H]; [|auto]. injection H as ->. auto.
  - cbn [execs] in Hin. rewrite app_nil_r in Hin. apply elem_of_app in Hin as [Hin|Hin]; [destruct (IHl _ _ _ _ _ Hin Ho) as [H|H]|destruct (IHr _ _ _ _ _ Hin Ho) as [H|H]].
    + apply elem_insert in H as [H|H]; [|auto]. injection H as ->. right. reflexivity.
    + right. destruct o; auto. etransitivity; [|exact H]. now apply prefix_app_r.
    + apply elem_insert in H as [H|H]; [|auto]. injection H as ->. right. reflexivity.
    + right. destruct o; auto. etransitivity; [|exact H]. rewrite <- app_assoc. now apply prefix_app_r.
  - cbn [execs] in Hin. apply elem_of_app in Hin as [Hin|Hin]; [destruct (IHl _ _ _ _ _ Hin Ho) as [H|H]|destruct (IHr _ _ _ _ _ Hin Ho) as [H|H]]; auto;
      right; destruct o; auto; (etransitivity; [|exact H]; now apply prefix_app_r).
  - cbn [execs] in Hin. rewrite app_nil_r in Hin. destruct (IH _ _ _ _ _ Hin Ho) as [H|H]; auto. right. destruct o; auto. etransitivity; [|exact H]. now apply prefix_app_r.
Qed.

(** C33: [runcmd] builds what the command asks for, when standard input, output and
    error are open.  Whatever calls fail, the programs that are started are among
    those of the command, each with its own descriptors: those of the shell, but
    for standard input and output, which are the ends of its pipes and the files
    of its redirections; nothing else is left open.  When no call fails and two
    descriptors are free, the processes made and waited for are exactly those of
    the command.  A program on the right of a pipe has no write end of it, and one
    on the left no read end, so the pipe ends when its writers have ended. *)
Theorem runcmd_wires c id t : redirs_std c = true -> std_open t ->
  (forall tr, runs true id t (runcmd c) tr -> sublist (execs tr) (execs (wanted c id t))) /\
  (two_free t -> forall tr, runs false id t (runcmd c) tr <-> tr = wanted c id t) /\
  (forall l r argv tb wr, c = PIPE l r -> Some (OPipe id (negb wr)) ∉ t ->
     (argv, tb) ∈ execs (if wr then wanted l (id ++ [0%nat]) (<[1%nat := Some (OPipe id true)]> t)
                         else wanted r ((id ++ [1%nat]) ++ [0%nat]) (<[0%nat := Some (OPipe id false)]> t)) ->
     Some (OPipe id (negb wr)) ∉ tb).
Proof.
  intros Hc Hs. split_and!.
  - intros tr R. now apply (runcmd_safe true c id t tr Hc Hs).
  - intros Ht tr. split; [intros R; now apply (runcmd_safe false c id t tr Hc Hs)|intros ->; now apply runcmd_total].
  - intros l r argv tb wr _ Hn Hin Ho. destruct wr; apply (wanted_objs _ _ _ _ _ _ Hin) in Ho as [H|H].
    + apply elem_insert in H as [H|H]; [discriminate|auto].
    + apply prefix_length in H. rewrite length_app in H. cbn in H. lia.
    + apply elem_insert in H as [H|H]; [discriminate|auto].
    + apply prefix_length in H. rewrite !length_app in H. cbn in H. lia.
Qed.

(** [ab | cd > ef], and a shell with three descriptors. *)
Definition sample_pipe : cmd := PIPE (EXEC [(1, 3)]) (REDIR (EXEC [(6, 8)]) 11 13 (Z.lor O_WRONLY O_CREATE) 1).
Definition sample_table : table := [Some (OStd 0); Some (OStd 1); Some (OStd 2)] ++ replicate 13 None.

Lemma runcmd_wires_witness : runs false [] sample_table (runcmd sample_pipe)
  (TFork (TExec [(1, 3)] (<[1%nat := Some (OPipe [] true)]> sample_table))
    (TFork (TExec [(6, 8)] (<[1%nat := Some (OFile (11, 13) (Z.lor O_WRONLY O_CREATE))]> (<[0%nat := Some (OPipe [] false)]> sample_table))) (TWait (TWait TExit)))).
Proof.
  assert (Hs : std_open sample_table) by (intros [|[|[|i]]] Hi; [eexists; reflexivity..|lia]).
  destruct (runcmd_wires sample_pipe [] sample_table eq_refl Hs) as (_ & R & _). apply R; [|reflexivity]. exists 3%nat, 4%nat. split; [discriminate|]. split; reflexivity.
Defined.

(** ** [main] *)

(** [while((fd = open("console", O_RDWR)) >= 0) if(fd >= 3){ close(fd); break; }];
    [console] tells whether the device can be opened. *)
Fixpoint open_console (fuel : nat) (console : bool) (t : table) : option table :=
  match fuel with
  | O => None
  | S fuel =>
      if console then
        match fd_alloc t (OStd 0) with
        | Some (fd, t) => if 3 <=? fd then Some (fd_close t fd) else open_console fuel console t
        | None => Some t
        end
      else Some t
  end.

Section Main.
(** [static char buf[100]] *)
Variable buf : Z.

(** The result of [getcmd], the memory and the input that is left. *)
Definition getcmd (m : mem) (nbuf : Z) (input : list Z) : option (Z * mem * list Z) :=
  let m := umemset m buf 0 nbuf in
  match ugets m buf nbuf input with
  | None => None
  | Some (m, input) => Some (if m buf =? 0 then -1 else 0, m, input)
  end.

(** What [main] does with a line: [chdir] to the string at an address, or a child
    that parses the line and, when that succeeds, runs the command. *)
Inductive action :=
| Chdir (path : Z) (m : mem)
| Child (o : outcome mem cmd).

(** [buf[0] == 'c' && buf[1] == 'd' && buf[2] == ' '] *)
Definition is_cd (m : mem) : bool := (m buf =? 99) && (m (buf + 1) =? 100) && (m (buf + 2) =? 32).

(** The loop of [main] over the characters of standard input; [fork] is taken to
    succeed.  The memory of the child is a copy. *)
Fixpoint main_loop (fuel : nat) (m : mem) (input : list Z) : option (list action) :=
  match fuel with
  | O => None
  | S fuel =>
      match getcmd m 100 input with
      | None => None
      | Some (r, m, input) =>
          if r <? 0 then Some []
          else if is_cd m then
            match strlen m buf 100 with
            | None => None
            | Some n =>
                let m := store8 m (buf + n - 1) 0 in
                match main_loop fuel m input with None => None | Some l => Some (Chdir (buf + 3) m :: l) end
            end
          else match main_loop fuel m input with None => None | Some l => Some (Child (parsecmd 100 404 buf m) :: l) end
      end
  end.

(** The lines of the input, as [gets] cuts them, up to an empty one. *)
Fixpoint input_lines (fuel : nat) (input : list Z) : list (list Z) :=
  match fuel with
  | O => []
  | S fuel => let l := line_of 99 input in if hd 0 l =? 0 then [] else l :: input_lines fuel (drop (length l) input)
  end.

(** The string in a line. *)
Definition str (l : list Z) : list Z := take_while (fun c => negb (c =? 0)) l.

(** What is to be done with a line. *)
Definition acts_on (l : list Z) (a : action) : Prop :=
  if decide (take 3 l = [99; 100; 32]) then
    exists m, a = Chdir (buf + 3) m /\ cstr m (buf + 3) 100 = take (length (str l) - 4) (drop 3 (str l))
  else exists m, text m buf (buf + Z.of_nat (length (str l))) /\ bytes m buf (length (str l)) = str l /\
    a = Child (parsecmd 100 404 buf m) /\
    match parsecmd 100 404 buf m with
    | Ok c _ => exists x, line_ok x = true /\ toks_at m (buf + Z.of_nat (length (str l))) buf (line_toks x) (buf + Z.of_nat (length (str l))) /\
        c = line_cmd x /\ redirs_std c = true
    | Panic _ => forall x, line_ok x = true -> ~ toks_at m (buf + Z.of_nat (length (str l))) buf (line_toks x) (buf + Z.of_nat (length (str l)))
    | _ => False
    end.

Lemma str_spec l : exists r, l = str l ++ r /\ Forall (fun c => c <> 0) (str l) /\ (r = [] \/ hd 0 r = 0).
Proof.
  induction l as [|c l (r & E & Fn & Hr)]; cbn [str take_while]; [exists []; auto|]. fold (str l). destruct (Z.eqb_spec c 0) as [->|Hc]; cbn [negb].
  - exists (0 :: l). auto.
  - exists r. split; [now rewrite E at 1|]. split; [now constructor|exact Hr].
Qed.

Lemma line_text m m' l : line_read m m' buf l ->
  text m' buf (buf + Z.of_nat (length (str l))) /\ bytes m' buf (length (str l)) = str l /\ (length (str l) <= length l)%nat.
Proof.
  intros [Ch N _]. destruct (str_spec l) as (r & E & Fn & Hr). set (n := length (str l)) in *. assert (Hl : length l = (n + length r)%nat) by (rewrite E at 1; apply length_app).
  assert (Hx : forall i, (i < length l)%nat -> Some (m' (buf + Z.of_nat i)) = l !! i) by (intros i Hi; rewrite <- Ch at 1; now rewrite bytes_lookup).
  assert (Hb : bytes m' buf n = str l).
  { apply list_eq. intros i. destruct (le_lt_dec n i) as [Hi|Hi]; [rewrite !lookup_ge_None_2; auto; now rewrite bytes_length|].
    rewrite bytes_lookup by exact Hi. rewrite Hx by lia. rewrite E at 1. apply lookup_app_l. exact Hi. }
  split; [|split; [exact Hb|lia]]. constructor; [lia| |].
  - destruct Hr as [->|Hr]; [cbn in Hl; rewrite Nat.add_0_r in Hl; now rewrite <- Hl|]. destruct r as [|c r]; [cbn in Hl; rewrite Nat.add_0_r in Hl; now rewrite <- Hl|].
    cbn in Hr. subst c. specialize (Hx n ltac:(cbn in Hl; lia)). rewrite E in Hx at 1. rewrite lookup_app_r in Hx by lia. fold n in Hx. rewrite Nat.sub_diag in Hx. cbn in Hx. congruence.
  - intros x Hxr E0. rewrite Forall_forall in Fn. apply (Fn (m' x)); [|exact E0]. rewrite <- Hb. apply (list_elem_of_lookup_2 _ (Z.to_nat (x - buf))).
    rewrite bytes_lookup by lia. do 2 f_equal. lia.
Qed.

Lemma line_char m m' l i : line_read m m' buf l -> (i <= length l)%nat -> m' (buf + Z.of_nat i) = nth i l 0.
Proof.
  intros [Ch N _] Hi. destruct (Nat.eq_dec i (length l)) as [->|]; [now rewrite N, nth_overflow|]. apply (inj Some). rewrite <- (bytes_lookup m' (length l)) by lia.
  rewrite Ch. destruct (nth_lookup_or_length l i 0) as [E|E]; [exact E|lia].
Qed.

Lemma is_cd_line m m' l : line_read m m' buf l -> is_cd m' = true <-> take 3 l = [99; 100; 32].
Proof.
  intros L. pose proof (fun i => line_char m m' l i L) as Hc. pose proof (Hc 0%nat) as H0. pose proof (Hc 1%nat) as H1. pose proof (Hc 2%nat) as H2. clear Hc.
  change (Z.of_nat 0) with 0 in H0. change (Z.of_nat 1) with 1 in H1. change (Z.of_nat 2) with 2 in H2. rewrite Z.add_0_r in H0. unfold is_cd.
  rewrite !andb_true_iff, !Z.eqb_eq. destruct l as [|a [|b [|c l]]]; cbn [length nth take] in *.
  - rewrite H0 by lia. intuition discriminate.
  - rewrite H1 by lia. intuition discriminate.
  - rewrite H2 by lia. intuition discriminate.
  - rewrite H0, H1, H2 by lia. rewrite take_0. split; [intros [[-> ->] ->]; reflexivity|]. intros E. injection E as -> -> ->. auto.
Qed.

Lemma getcmd_ok m input : Forall (fun c => 0 <= c < 256) input ->
  let l := line_of 99 input in
  exists m0 m', getcmd m 100 input = Some (if hd 0 l =? 0 then -1 else 0, m', drop (length l) input) /\ line_read m0 m' buf l.
Proof.
  intros Hi l. destruct (ugets_ok (umemset m buf 0 100) buf 100 input ltac:(lia) Hi) as (m' & E & L). change (line_of (Z.to_nat (100 - 1)) input) with l in *.
  exists (umemset m buf 0 100), m'. split; [|exact L]. unfold getcmd. rewrite E. do 4 f_equal. pose proof (line_char _ _ l 0 L ltac:(lia)) as H0.
  change (Z.of_nat 0) with 0 in H0. rewrite Z.add_0_r in H0. rewrite H0. now destruct l.
Qed.

(** The path of [cd]: the string without its last character. *)
Lemma chop_path m m' l : line_read m m' buf l -> take 3 l = [99; 100; 32] -> (length l <= 99)%nat ->
  exists n, strlen m' buf 100 = Some n /\
    cstr (store8 m' (buf + n - 1) 0) (buf + 3) 100 = take (length (str l) - 4) (drop 3 (str l)).
Proof.
  intros L Hcd Hl. destruct (line_text m m' l L) as (T & B & Hn). set (n := length (str l)) in *.
  assert (H3 : (3 <= n)%nat). { subst n. destruct l as [|a [|b [|c l]]]; cbn in Hcd; try discriminate. injection Hcd as -> -> ->. unfold str. cbn [take_while].
    change (negb (99 =? 0)) with true. change (negb (100 =? 0)) with true. change (negb (32 =? 0)) with true. cbn [length]. lia. }
  exists (Z.of_nat n). split; [rewrite (strlen_text m' buf _ 100 T) by lia; f_equal; lia|].
  assert (Hz : m' (buf + Z.of_nat n) = 0) by apply (tx_end _ _ _ T). pose proof (tx_mid _ _ _ T) as Hnz.
  rewrite (cstr_word m' _ (buf + 3) (n - 4)).
  - rewrite <- B. apply list_eq. intros i. destruct (le_lt_dec (n - 4) i) as [Hi|Hi].
    + rewrite !lookup_ge_None_2; [reflexivity|rewrite length_take; lia|now rewrite bytes_length].
    + rewrite lookup_take_lt, lookup_drop, !bytes_lookup by lia. do 2 f_equal. lia.
  - intros x Hx. split; [apply load8_store8_ne; lia|apply Hnz; lia].
  - destruct (Nat.eq_dec n 3%nat) as [E|]; [|replace (buf + 3 + Z.of_nat (n - 4)) with (buf + Z.of_nat n - 1) by lia; now rewrite load8_store8_eq].
    rewrite load8_store8_ne by lia. replace (buf + 3 + Z.of_nat (n - 4)) with (buf + Z.of_nat n) by lia. exact Hz.
  - lia.
Qed.

(** the shell works through its whole input: it stops after as many lines as
    there are characters at most, and what it does is given by the lines, each of
    at most 99 characters: for [cd] it changes to the directory named by the line
    without its last character, and for any other line it makes one child, which
    gets the line as it was read, and in which the parser ends, with the command of
    a derivation of the whole line when there is one, whose redirections are for
    standard input and output, and with a message otherwise. *)
Theorem main_handles_lines m input : Forall (fun c => 0 <= c < 256) input ->
  exists l, main_loop (S (length input)) m input = Some l /\ Forall2 (acts_on) (input_lines (S (length input)) input) l.
Proof.
  intros Hi. remember (S (length input)) as fuel eqn:Ef. assert (Hf : (length input < fuel)%nat) by lia. clear Ef. revert m input Hi Hf.
  induction fuel as [|fuel IH]; intros m input Hi Hf; [lia|]. cbn [main_loop input_lines]. destruct (getcmd_ok m input Hi) as (m0 & m' & E & L). cbv zeta in E. rewrite E.
  pose proof (line_of_length 99 input) as Hl99. pose proof (line_of_input 99 input) as Hlin. set (l := line_of 99 input) in *. destruct (Z.eqb_spec (hd 0 l) 0) as [H0|H0]; [exists []; auto|]. cbn [Z.ltb Z.compare].
  assert (Hlen : (length (drop (length l) input) < fuel)%nat).
  { rewrite length_drop. clearbody l. destruct l as [|c l']; [easy|]. cbn [length] in *. lia. }
  pose proof (Forall_drop _ (length l) _ Hi) as Hi'. destruct (is_cd m') eqn:Ecd.
  - apply (is_cd_line m0 m' l L) in Ecd. destruct (chop_path m0 m' l L Ecd Hl99) as (n & -> & Hp).
    destruct (IH (store8 m' (buf + n - 1) 0) _ Hi' Hlen) as (acts & -> & HA). eexists. split; [reflexivity|]. constructor; [|exact HA].
    unfold acts_on. rewrite decide_True by exact Ecd. eauto.
  - destruct (IH m' _ Hi' Hlen) as (acts & -> & HA). eexists. split; [reflexivity|]. constructor; [|exact HA]. unfold acts_on.
    rewrite decide_False by (intros X; apply (is_cd_line m0 m' l L) in X; congruence). destruct (line_text m0 m' l L) as (T & B & Hn). exists m'. split_and!; auto.
    pose proof (parsecmd_result m' buf _ 100 404 T ltac:(lia) ltac:(lia)) as R. destruct (parsecmd 100 404 buf m') as [c m1|e|e|]; auto.
    destruct R as (x & Hx & Ht & -> & _). eauto 6 using line_std.
Qed.

End Main.

(** The lines [cd a] and [b|c]. *)
Lemma main_handles_lines_witness : exists l, main_loop 1000 11 (fun _ => 0) [99; 100; 32; 97; 10; 98; 124; 99; 10; 0] = Some l /\ length l = 2%nat /\
  Forall2 (acts_on 1000) [[99; 100; 32; 97; 10]; [98; 124; 99; 10]] l.
Proof.
  destruct (main_handles_lines 1000 (fun _ => 0) [99; 100; 32; 97; 10; 98; 124; 99; 10; 0]) as (l & E & A); [repeat constructor; lia|].
  exists l. split; [exact E|]. split; [now rewrite <- (Forall2_length _ _ _ A)|exact A].
Defined.

(** The loop that opens the console: the first three descriptors are open after it,
    and the others as they were. *)
Lemma open_console_std a b c rest i : rest !! i = Some None ->
  exists t, open_console 4 true (a :: b :: c :: rest) = Some t /\ std_open t /\ drop 3 t = rest.
Proof.
  intros Li. assert (Last : forall x y z k, exists t, open_console (S k) true (Some x :: Some y :: Some z :: rest) = Some t /\ std_open t /\ drop 3 t = rest).
  { intros x y z k. set (t := _ :: _). assert (Hs : std_open t) by (intros [|[|[|k']]] Hk; [eexists; reflexivity..|lia]).
    cbn [open_console]. destruct (fd_alloc t (OStd 0)) as [[fd t']|] eqn:E; [|eauto]. apply fd_alloc_some in E as (n & -> & L & -> & _).
    assert (3 <= n)%nat by (destruct (le_lt_dec 3 n) as [|Hn]; [auto|destruct (Hs n Hn); congruence]). rewrite (proj2 (Z.leb_le 3 (Z.of_nat n))) by lia.
    rewrite (fd_close_nat _ n (OStd 0)) by (apply list_lookup_insert_eq; now apply lookup_lt_Some in L). rewrite list_insert_insert_eq, list_insert_id by exact L. eauto. }
  pose (d := fun o : option obj => match o with Some o => o | None => OStd 0 end). pose (n := fun o : option obj => match o with Some _ => 1%nat | None => 0%nat end).
  pose proof (Last (d a) (d b) (d c) (n a + n b + n c)%nat) as H. destruct a as [a|], b as [b|], c as [c|]; exact H.
Qed.
