(* ===== verification/Grep.v ===== *)
(** [src/xv6/xv6-public/grep.c]: the matcher of regular expressions, and the search
    through a file.

    A [char *] into a string is the rest of the string before its NUL.  The first
    part compares [match] with the languages of regular expressions, the second
    shows what [grep] prints of a file, and what it loses of a pipe. *)

From stdpp Require Import gmap.
From S2P Require Import Prelude.

(** ['$'], ['*'], ['.'] and ['^'] *)
Definition DOLLAR : Z := 36.
Definition STAR : Z := 42.
Definition DOT : Z := 46.
Definition CARET : Z := 94.

(** [matchstar(c, re, text)]; the calls of [matchhere(re, .)] are [here]. *)
Definition matchstar (here : list Z -> bool) (c : Z) : list Z -> bool :=
  fix loop (text : list Z) : bool :=
    here text ||
    match text with
    | [] => false
    | t :: text => ((t =? c) || (c =? DOT)) && loop text
    end.

Fixpoint matchhere (re text : list Z) : bool :=
  match re with
  | [] => true
  | c :: re1 =>
      let rest :=
        if (c =? DOLLAR) && (match re1 with [] => true | _ => false end) then match text with [] => true | _ => false end
        else match text with
             | [] => false
             | t :: text => ((c =? DOT) || (c =? t)) && matchhere re1 text
             end in
      match re1 with
      | [] => rest
      | c1 :: re2 => if c1 =? STAR then matchstar (matchhere re2) c text else rest
      end
  end.

(** [do { if(matchhere(re, text)) return 1; } while( *text++ != 0 );] *)
Fixpoint match_loop (re text : list Z) : bool :=
  matchhere re text || match text with [] => false | _ :: text => match_loop re text end.

Definition rmatch (re text : list Z) : bool :=
  match re with
  | [] => match_loop re text
  | c :: re1 => if c =? CARET then matchhere re1 text else match_loop re text
  end.

(** ** Regular expressions *)

(** A regular expression: nothing more, the end of the text, a character (or any,
    for [.]), or any number of them. *)
Inductive rx :=
| Done
| End
| One (c : Z) (r : rx)
| Many (c : Z) (r : rx).

Fixpoint parse_rx (re : list Z) : rx :=
  match re with
  | [] => Done
  | c :: re1 =>
      let rest := if (c =? DOLLAR) && (match re1 with [] => true | _ => false end) then End else One c (parse_rx re1) in
      match re1 with
      | [] => rest
      | c1 :: re2 => if c1 =? STAR then Many c (parse_rx re2) else rest
      end
  end.

Definition fits (c x : Z) : Prop := c = DOT \/ c = x.

(** [w] is in the language of [r] when [tail] follows it. *)
Fixpoint matches (r : rx) (w tail : list Z) : Prop :=
  match r with
  | Done => w = []
  | End => w = [] /\ tail = []
  | One c r => exists x w', w = x :: w' /\ fits c x /\ matches r w' tail
  | Many c r => exists u w', w = u ++ w' /\ Forall (fits c) u /\ matches r w' tail
  end.

Lemma fits_spec c x : (x =? c) || (c =? DOT) = true <-> fits c x.
Proof. unfold fits. rewrite orb_true_iff, !Z.eqb_eq. intuition congruence. Qed.

Lemma matchstar_spec here c text : matchstar here c text = true <-> exists u text', text = u ++ text' /\ Forall (fits c) u /\ here text' = true.
Proof.
  induction text as [|t text IH]; cbn; rewrite orb_true_iff.
  - split; [intros [H|H]; [exists [], []; auto|discriminate]|]. intros (u & t' & E & _ & H). symmetry in E. apply app_eq_nil in E as [-> ->]. auto.
  - rewrite andb_true_iff, fits_spec. fold (matchstar here c text). rewrite IH. split.
    + intros [H|[Hf (u & t' & -> & Hu & H)]]; [exists [], (t :: text); auto|]. exists (t :: u), t'. auto.
    + intros ([|x u] & t' & E & Hu & H); cbn in E; [left; congruence|]. injection E as -> ->. right. inversion Hu; subst. split; [auto|]. exists u, t'. auto.
Qed.

Lemma one_spec c re text (Hre : forall text, matchhere re text = true <-> exists w tail, text = w ++ tail /\ matches (parse_rx re) w tail) :
  match text with [] => false | t :: text => ((c =? DOT) || (c =? t)) && matchhere re text end = true <->
  exists w tail, text = w ++ tail /\ matches (One c (parse_rx re)) w tail.
Proof.
  destruct text as [|t text]; cbn [matches].
  - split; [discriminate|]. intros (w & tail & E & x & w' & -> & _). discriminate.
  - rewrite andb_true_iff, Hre. assert (Hf : (c =? DOT) || (c =? t) = true <-> fits c t) by (unfold fits; rewrite orb_true_iff, !Z.eqb_eq; tauto). rewrite Hf. split.
    + intros [Ht (w & tail & -> & M)]. exists (t :: w), tail. split; [reflexivity|]. eauto.
    + intros (w & tail & E & x & w' & -> & Hx & M). injection E as -> ->. split; [exact Hx|]. eauto.
Qed.

(** [matchhere] finds a word of the language at the beginning of the text. *)
Lemma matchhere_spec re : forall text, matchhere re text = true <-> exists w tail, text = w ++ tail /\ matches (parse_rx re) w tail.
Proof.
  induction re as [re IH] using (induction_ltof1 _ (@length Z)). unfold ltof in IH. intros text. destruct re as [|c re1].
  - split; [intros _; exists [], text; split; reflexivity|reflexivity].
  - assert (Hrest : (if (c =? DOLLAR) && (match re1 with [] => true | _ => false end) then match text with [] => true | _ => false end
                     else match text with [] => false | t :: text => ((c =? DOT) || (c =? t)) && matchhere re1 text end) = true <->
                    exists w tail, text = w ++ tail /\ matches (if (c =? DOLLAR) && (match re1 with [] => true | _ => false end) then End else One c (parse_rx re1)) w tail).
    { destruct ((c =? DOLLAR) && _); [|apply one_spec, IH; cbn; lia]. cbn [matches]. split.
      - destruct text; [|discriminate]. exists [], []. auto.
      - intros (w & tail & -> & -> & ->). reflexivity. }
    cbn [matchhere parse_rx]. destruct re1 as [|c1 re2]; [exact Hrest|]. destruct (c1 =? STAR); [|exact Hrest]. rewrite matchstar_spec. cbn [matches]. split.
    + intros (u & t' & -> & Hu & H). apply IH in H as (w & tail & -> & M); [|cbn; lia]. exists (u ++ w), tail. rewrite <- app_assoc. split; [reflexivity|]. eauto.
    + intros (w & tail & -> & u & w' & -> & Hu & M). exists u, (w' ++ tail). rewrite <- app_assoc. split_and!; auto. apply IH; [cbn; lia|]. eauto.
Qed.

Lemma match_loop_spec re text : match_loop re text = true <-> exists pre w tail, text = pre ++ w ++ tail /\ matches (parse_rx re) w tail.
Proof.
  induction text as [|t text IH]; cbn [match_loop]; rewrite orb_true_iff, matchhere_spec.
  - split; [intros [(w & tail & E & M)|H]; [exists [], w, tail; auto|discriminate]|]. intros (pre & w & tail & E & M). left. exists w, tail. split; [|exact M].
    symmetry in E. now apply app_eq_nil in E as [_ ->].
  - rewrite IH. split.
    + intros [(w & tail & E & M)|(pre & w & tail & -> & M)]; [exists [], w, tail; auto|]. exists (t :: pre), w, tail. auto.
    + intros ([|x pre] & w & tail & E & M); cbn in E; [left; eauto|]. injection E as -> ->. right. eauto.
Qed.

(** C37: [match] decides regular expressions: a text matches when it is split into
    some characters, a word of the language of the expression and a tail; after
    [^] there are no characters before the word, and [$] at the end asks for an
    empty tail.  [*] takes any number of characters, also when what follows it
    could match some of them. *)
Theorem match_decides re text :
  (rmatch (CARET :: re) text = true <-> exists w tail, text = w ++ tail /\ matches (parse_rx re) w tail) /\
  (hd 0 re <> CARET -> rmatch re text = true <-> exists pre w tail, text = pre ++ w ++ tail /\ matches (parse_rx re) w tail).
Proof.
  split; [apply matchhere_spec|]. intros Hc. rewrite <- match_loop_spec. destruct re as [|c re]; [reflexivity|]. cbn in Hc. cbn [rmatch].
  now destruct (Z.eqb_spec c CARET).
Qed.

(** [a.*b$] on [xacbb]. *)
Lemma match_decides_witness : exists pre w tail, [120; 97; 99; 98; 98] = pre ++ w ++ tail /\ matches (One 97 (Many DOT (One 98 End))) w tail.
Proof. apply (proj2 (match_decides [97; DOT; STAR; 98; DOLLAR] [120; 97; 99; 98; 98])); [discriminate|reflexivity]. Defined.

(** ** Searching *)

Section Grep.
Variable pattern : list Z.

(** [q = strchr(p, '\n')]: the line before [q], and what follows [q]. *)
Fixpoint find_newline (p : list Z) : option (list Z * list Z) :=
  match p with
  | [] => None
  | c :: p =>
      if c =? 0 then None
      else if c =? 10 then Some ([], p)
      else match find_newline p with Some (l, q) => Some (c :: l, q) | None => None end
  end.

(** The inner loop: the rest of the buffer from [p] on, and what was written. *)
Fixpoint grep_lines (fuel : nat) (p out : list Z) : option (list Z * list Z) :=
  match fuel with
  | O => None
  | S fuel =>
      match find_newline p with
      | None => Some (p, out)
      | Some (l, q) => grep_lines fuel q (if rmatch pattern l then out ++ l ++ [10] else out)
      end
  end.

(** [grep]: [b] are the [m] bytes in [buf], and [input] is what [read] will deliver:
    a call gets the first piece, or as much of it as fits into the buffer. *)
Fixpoint grep (fuel : nat) (b : list Z) (input : list (list Z)) (out : list Z) : option (list Z) :=
  match fuel with
  | O => None
  | S fuel =>
      match input with
      | [] => Some out
      | piece :: input =>
          let k := (1023 - length b)%nat in
          match take k piece with
          | [] => Some out
          | _ =>
              let b := b ++ take k piece in
              match grep_lines (S (length b)) b out with
              | None => None
              | Some (p, out) =>
                  let b := if decide (length p = length b) then [] else p in
                  grep fuel b (match drop k piece with [] => input | r => r :: input end) out
              end
          end
      end
  end.

(** The lines of a text that end with a newline; [cur] begins the first. *)
Fixpoint split_lines (cur data : list Z) : list (list Z) :=
  match data with
  | [] => []
  | c :: data => if c =? 10 then cur :: split_lines [] data else split_lines (cur ++ [c]) data
  end.

Definition render_lines (ls : list (list Z)) : list Z := flat_map (fun l => if rmatch pattern l then l ++ [10] else []) ls.

Lemma split_lines_no cur : forall data, 10 ∉ data -> split_lines cur data = [].
Proof.
  intros data. revert cur. induction data as [|c data IH]; intros cur Hn; cbn [split_lines]; [reflexivity|]. apply not_elem_of_cons in Hn as [Hc Hn].
  rewrite (proj2 (Z.eqb_neq c 10)) by congruence. now apply IH.
Qed.

Lemma split_lines_app cur x : 10 ∉ x -> forall y, split_lines cur (x ++ y) = split_lines (cur ++ x) y.
Proof.
  revert cur; induction x as [|c x IH]; intros cur Hn y; cbn [app split_lines]; [now rewrite app_nil_r|]. apply not_elem_of_cons in Hn as [Hc Hn].
  rewrite (proj2 (Z.eqb_neq c 10)) by congruence. rewrite IH by exact Hn. now rewrite <- app_assoc.
Qed.

Lemma find_newline_spec p : Forall (fun c => c <> 0) p ->
  match find_newline p with Some (l, q) => p = l ++ 10 :: q /\ 10 ∉ l | None => 10 ∉ p end.
Proof.
  induction p as [|c p IH]; intros Hz; cbn [find_newline]; [apply not_elem_of_nil|]. inversion Hz as [|? ? Hc Hz']; subst.
  rewrite (proj2 (Z.eqb_neq c 0)) by exact Hc. destruct (Z.eqb_spec c 10) as [->|Hn]; [split; [reflexivity|apply not_elem_of_nil]|].
  specialize (IH Hz'). destruct (find_newline p) as [[l q]|]; [destruct IH as [-> Hl]; split; [reflexivity|]|]; apply not_elem_of_cons; auto.
Qed.

(** The lines the inner loop goes through, and the text it leaves. *)
Lemma grep_lines_spec fuel : forall p out, (length p < fuel)%nat -> Forall (fun c => c <> 0) p ->
  exists r ls, grep_lines fuel p out = Some (r, out ++ render_lines ls) /\ (10 ∉ r) /\ (forall y, split_lines [] (p ++ y) = ls ++ split_lines r y) /\
    (length r <= length p)%nat /\ (ls = [] -> r = p) /\ (ls <> [] -> (length r < length p)%nat) /\ Forall (fun c => c <> 0) r.
Proof.
  induction fuel as [|fuel IH]; intros p out Hf Hz; [lia|]. cbn [grep_lines]. pose proof (find_newline_spec p Hz) as Hs. destruct (find_newline p) as [[l q]|].
  - destruct Hs as [-> Hl]. rewrite length_app in *. cbn [length] in *. apply Forall_app in Hz as [Hzl Hzq]. inversion Hzq as [|? ? _ Hzq']; subst.
    destruct (IH q (if rmatch pattern l then out ++ l ++ [10] else out) ltac:(lia) Hzq') as (r & ls & E & Hr & Hy & Hlen & H0 & H1 & Hzr). exists r, (l :: ls). split_and!; auto; try lia; [| |discriminate].
    + rewrite E. do 2 f_equal. unfold render_lines. cbn [flat_map]. destruct (rmatch pattern l); rewrite <- ?app_assoc; reflexivity.
    + intros y. rewrite <- app_assoc. cbn [app]. rewrite split_lines_app by exact Hl. cbn [split_lines app Z.eqb Pos.eqb]. now rewrite Hy.
  - exists p, []. split_and!; auto; [cbn; now rewrite app_nil_r|intros y; cbn [app]; now apply split_lines_app|contradiction].
Qed.

Lemma app_no (x y : list Z) : 10 ∉ x -> 10 ∉ y -> 10 ∉ (x ++ y).
Proof. rewrite elem_of_app. tauto. Qed.

(** A buffer without newline: there is none left at all, when lines are short. *)
Lemma no_newline b d : 10 ∉ b -> (length b <= 1022)%nat -> Forall (fun l => (length l <= 1022)%nat) (split_lines b d) -> 10 ∉ (b ++ take (1023 - length b) d) -> 10 ∉ d.
Proof.
  intros Hb Hlb Hl Hn Hd.
  assert (Hs : exists x y, d = x ++ 10 :: y /\ 10 ∉ x).
  { clear -Hd. induction d as [|c d IH]; [now apply elem_of_nil in Hd|]. destruct (Z.eq_dec c 10) as [->|Hc]; [exists [], d; split; [reflexivity|apply not_elem_of_nil]|].
    apply elem_of_cons in Hd as [E|Hd]; [congruence|]. destruct (IH Hd) as (x & y & -> & Hx). exists (c :: x), y. split; [reflexivity|]. apply not_elem_of_cons. auto. }
  destruct Hs as (x & y & -> & Hx). rewrite split_lines_app in Hl by exact Hx. cbn [split_lines Z.eqb Pos.eqb] in Hl. inversion Hl as [|? ? Hl1 _]; subst. cbn beta in Hl1. rewrite length_app in Hl1.
  apply Hn. rewrite elem_of_app. right. apply (list_elem_of_lookup_2 _ (length x)). rewrite lookup_take_lt by lia. rewrite lookup_app_r by lia. now rewrite Nat.sub_diag.
Qed.

Lemma grep_data fuel : forall b d out, (length d < fuel)%nat -> 10 ∉ b -> (length b <= 1022)%nat -> Forall (fun c => c <> 0) (b ++ d) ->
  Forall (fun l => (length l <= 1022)%nat) (split_lines b d) -> grep fuel b [d] out = Some (out ++ render_lines (split_lines b d)).
Proof.
  induction fuel as [|fuel IH]; intros b d out Hf Hb Hlb Hz Hl; [lia|]. cbn [grep]. set (k := (1023 - length b)%nat). destruct (take k d) as [|c0 t0] eqn:Et.
  - assert (d = []) as -> by (destruct d as [|c d]; [reflexivity|]; destruct k as [|k'] eqn:Ek; [lia|discriminate]). cbn. now rewrite app_nil_r.
  - rewrite <- Et. assert (Hd : d = take k d ++ drop k d) by (symmetry; apply take_drop). assert (Ht0 : (0 < length (take k d))%nat) by (rewrite Et; cbn; lia). clear Et c0 t0.
    assert (Hz' : Forall (fun c => c <> 0) (b ++ take k d) /\ Forall (fun c => c <> 0) (drop k d)) by (rewrite Hd, app_assoc in Hz; now apply Forall_app in Hz). destruct Hz' as [Hzb Hzd].
    destruct (grep_lines_spec (S (length (b ++ take k d))) (b ++ take k d) out ltac:(lia) Hzb) as (r & ls & -> & Hr & Hy & Hlen & H0 & H1 & Hzr).
    assert (Es : split_lines b d = ls ++ split_lines r (drop k d)).
    { rewrite <- Hy, <- app_assoc, <- Hd. symmetry. now apply (split_lines_app [] b Hb d). }
    assert (Hlt : (length (drop k d) < fuel)%nat) by (rewrite Hd, length_app in Hf; lia). destruct (decide (length r = length (b ++ take k d))) as [E|E].
    + destruct ls as [|l ls]; [|specialize (H1 ltac:(discriminate)); lia]. rewrite (H0 eq_refl) in Hr.
      pose proof (no_newline b d Hb Hlb Hl Hr) as Hnd. assert (Hnd' : 10 ∉ drop k d) by (intros Hin; apply Hnd; rewrite Hd; apply elem_of_app; auto).
      specialize (IH [] (drop k d) (out ++ render_lines []) Hlt (not_elem_of_nil _) ltac:(cbn; lia) Hzd ltac:(rewrite split_lines_no by exact Hnd'; constructor)).
      rewrite (split_lines_no [] _ Hnd') in IH. rewrite (split_lines_no b d Hnd). rewrite app_nil_r in IH. cbn [render_lines flat_map] in *. rewrite app_nil_r in *.
      destruct (drop k d) eqn:Ed; [|exact IH]. destruct fuel; [cbn in Hlt; lia|]. cbn in IH |- *. rewrite app_nil_r in *. exact IH.
    + assert (Hls : ls <> []) by (intros ->; apply E; now rewrite (H0 eq_refl)). specialize (H1 Hls). rewrite Es in Hl. apply Forall_app in Hl as [_ Hl].
      assert (Hlr : (length r <= 1022)%nat) by (rewrite length_app, length_take in H1; lia).
      specialize (IH r (drop k d) (out ++ render_lines ls) Hlt Hr Hlr ltac:(now apply Forall_app) Hl). rewrite Es.
      assert (Ea : out ++ render_lines (ls ++ split_lines r (drop k d)) = (out ++ render_lines ls) ++ render_lines (split_lines r (drop k d))) by (unfold render_lines; now rewrite flat_map_app, app_assoc).
      rewrite Ea. destruct (drop k d) eqn:Ed; [|exact IH]. destruct fuel; [cbn in Hlt; lia|]. cbn [grep split_lines render_lines flat_map]. now rewrite app_nil_r.
Qed.

End Grep.

(** [grep] prints the lines of a file that match, in order, each with its
    newline, when the file has no NUL and no line is longer than 1022 characters;
    the reads need as many rounds as the file has bytes at most, and lines that
    cross the end of the buffer are found.  A last line without newline is not
    printed. *)
Theorem grep_prints_matches pattern data : Forall (fun c => c <> 0) data -> Forall (fun l => (length l <= 1022)%nat) (split_lines [] data) ->
  grep pattern (S (length data)) [] [data] [] = Some (flat_map (fun l => if rmatch pattern l then l ++ [10] else []) (split_lines [] data)).
Proof. intros Hz Hl. apply (grep_data pattern (S (length data)) [] data []); auto; [apply not_elem_of_nil|cbn; lia]. Qed.

(** [grep b] of two lines. *)
Lemma grep_prints_matches_witness : grep [98] 7 [] [[97; 98; 10; 99; 10; 98]] [] = Some [97; 98; 10].
Proof.
  transitivity (Some (flat_map (fun l => if rmatch [98] l then l ++ [10] else []) (split_lines [] [97; 98; 10; 99; 10; 98]))); [|reflexivity].
  apply (grep_prints_matches [98] [97; 98; 10; 99; 10; 98]); [repeat constructor; discriminate|cbn; repeat constructor; cbn; lia].
Defined.

(** From a pipe the beginning of a line is lost when a read delivers it without its
    end: [grep ab] does not find [ab] when [a] and [b] are read one after the
    other. *)
Lemma grep_loses_pieces : grep [97; 98] 3 [] [[97]; [98; 10]] [] = Some [] /\ grep [97; 98] 3 [] [[97; 98; 10]] [] = Some [97; 98; 10].
Proof. split; reflexivity. Qed.
