(* ===== verification/Console.v ===== *)
(** The console: [src/xv6/xv6-public/console.c] but for [cprintf] and [panic], and
    [uartputc] of [uart.c].

    The state has the input buffer, the screen with its cursor, and the characters
    sent to the serial port.  Interrupts run [consoleintr] on the characters that
    [getc] delivers; a reader that has to sleep stops, and goes on when it is
    woken up.  The locks are not modelled: an interrupt and what a reader does
    between two sleeps are one step each. *)

From stdpp Require Import gmap.
From S2P Require Import Prelude.

Definition INPUT_BUF : Z := 128.
Definition BACKSPACE : Z := 0x100.

Record console := mkCons {
  c_buf : list Z;           (* input.buf *)
  c_r : Z;                  (* input.r *)
  c_w : Z;                  (* input.w *)
  c_e : Z;                  (* input.e *)
  c_uart : bool;            (* uart *)
  c_serial : list Z;        (* characters sent to the serial port *)
  c_pos : Z;                (* the cursor register of the screen *)
  c_crt : Z -> Z;           (* the screen *)
  c_panicked : bool;        (* panicked *)
  c_wakeups : nat           (* calls of wakeup(&input.r) *)
}.

Definition set_input (b : list Z) (r w e : Z) (s : console) : console :=
  mkCons b r w e (c_uart s) (c_serial s) (c_pos s) (c_crt s) (c_panicked s) (c_wakeups s).
Definition set_serial (l : list Z) (s : console) : console :=
  mkCons (c_buf s) (c_r s) (c_w s) (c_e s) (c_uart s) l (c_pos s) (c_crt s) (c_panicked s) (c_wakeups s).
Definition set_screen (pos : Z) (crt : Z -> Z) (s : console) : console :=
  mkCons (c_buf s) (c_r s) (c_w s) (c_e s) (c_uart s) (c_serial s) pos crt (c_panicked s) (c_wakeups s).
Definition count_wakeup (s : console) : console :=
  mkCons (c_buf s) (c_r s) (c_w s) (c_e s) (c_uart s) (c_serial s) (c_pos s) (c_crt s) (c_panicked s) (S (c_wakeups s)).

Abbreviation Con := (M console).

(** The port is written to after at most 128 delays. *)
Definition uartputc (c : Z) : Con unit :=
  modify (fun s => if c_uart s then set_serial (c_serial s ++ [u8 c]) s else s).

(** [crt[pos] = v] on the 25 rows of 80 characters. *)
Definition put_crt (pos v : Z) : Con unit :=
  s <- gets id ;;
  if (0 <=? pos) && (pos <? 25 * 80)
  then modify (set_screen (c_pos s) (fun x => if x =? pos then v else c_crt s x))
  else fault "crt".

(** [memmove(crt, crt+80, ...)] and [memset(crt+pos, 0, ...)] *)
Definition scroll (pos : Z) (crt : Z -> Z) : Z -> Z := fun x =>
  if (pos <=? x) && (x <? 24 * 80) then 0
  else if (0 <=? x) && (x <? 23 * 80) then crt (x + 80)
  else crt x.

Definition cgaputc (c : Z) : Con unit :=
  pos <- gets c_pos ;;
  pos <- (if c =? 10 then ret (pos + (80 - pos mod 80))
          else if c =? BACKSPACE then ret (if 0 <? pos then pos - 1 else pos)
          else put_crt pos (Z.lor (Z.land c 0xff) 0x0700) ;;; ret (pos + 1)) ;;
  if (pos <? 0) || (25 * 80 <? pos) then panic "pos under/overflow" else
  pos <- (if 24 <=? pos / 80 then
            modify (fun s => set_screen (c_pos s) (scroll (pos - 80) (c_crt s)) s) ;;; ret (pos - 80)
          else ret pos) ;;
  modify (fun s => set_screen (u16 pos) (c_crt s) s) ;;;
  put_crt pos (Z.lor 32 0x0700).

Definition consputc (c : Z) : Con unit :=
  p <- gets c_panicked ;;
  if (p : bool) then fault "panicked" else
  (if c =? BACKSPACE then uartputc 8 ;;; uartputc 32 ;;; uartputc 8 else uartputc c) ;;;
  cgaputc c.

(** ['@'] is 64. *)
Definition CTL_D : Z := 4.
Definition CTL_H : Z := 8.
Definition CTL_P : Z := 16.
Definition CTL_U : Z := 21.

Definition buf_at (s : console) (i : Z) : Z := nth (Z.to_nat (i mod INPUT_BUF)) (c_buf s) 0.

(** [input.e--; consputc(BACKSPACE);] *)
Definition rub_out : Con unit :=
  modify (fun s => set_input (c_buf s) (c_r s) (c_w s) (u32 (c_e s - 1)) s) ;;;
  consputc BACKSPACE.

(** The loop of control-U. *)
Fixpoint kill_line (fuel : nat) : Con unit :=
  match fuel with
  | O => nofuel
  | S fuel =>
      s <- gets id ;;
      if negb (c_e s =? c_w s) && negb (buf_at s (u32 (c_e s - 1)) =? 10) then rub_out ;;; kill_line fuel else ret tt
  end.

(** One character; the result is [doprocdump]. *)
Definition intr_char (c : Z) (dump : bool) : Con bool :=
  s <- gets id ;;
  if c =? CTL_P then ret true
  else if c =? CTL_U then kill_line (S (Z.to_nat (u32 (c_e s - c_w s)))) ;;; ret dump
  else if (c =? CTL_H) || (c =? 0x7f) then
    (if negb (c_e s =? c_w s) then rub_out else ret tt) ;;; ret dump
  else if truth c && (u32 (c_e s - c_r s) <? INPUT_BUF) then
    let c := if c =? 13 then 10 else c in
    modify (set_input (<[Z.to_nat (c_e s mod INPUT_BUF) := u8 c]> (c_buf s)) (c_r s) (c_w s) (u32 (c_e s + 1))) ;;;
    consputc c ;;;
    s <- gets id ;;
    (if (c =? 10) || (c =? CTL_D) || (c_e s =? u32 (c_r s + INPUT_BUF)) then
       modify (set_input (c_buf s) (c_r s) (c_e s) (c_e s)) ;;; modify count_wakeup
     else ret tt) ;;;
    ret dump
  else ret dump.

(** [consoleintr] on what [getc] returns before it returns a negative number; the
    result says whether [procdump] is called. *)
Fixpoint intr_loop (cs : list Z) (dump : bool) : Con bool :=
  match cs with
  | [] => ret dump
  | c :: cs => dump <- intr_char c dump ;; intr_loop cs dump
  end.

Definition consoleintr (cs : list Z) : Con bool := intr_loop cs false.

(** What a reader comes to: it sleeps, with [n] bytes still wanted, or returns. *)
Inductive read_state :=
| Sleeps (n : Z) (got : list Z)
| Returns (r : Z) (got : list Z).

(** [consoleread] from the head of its outer loop; [got] are the bytes stored at
    [dst]. *)
Fixpoint consoleread (fuel : nat) (killed : bool) (target n : Z) (got : list Z) : Con read_state :=
  match fuel with
  | O => nofuel
  | S fuel =>
      if 0 <? n then
        s <- gets id ;;
        if c_r s =? c_w s then ret (if killed then Returns (-1) got else Sleeps n got)
        else
          let c := buf_at s (c_r s) in
          modify (set_input (c_buf s) (u32 (c_r s + 1)) (c_w s) (c_e s)) ;;;
          if c =? CTL_D then
            (if n <? target then modify (set_input (c_buf s) (u32 (u32 (c_r s + 1) - 1)) (c_w s) (c_e s)) else ret tt) ;;;
            ret (Returns (target - n) got)
          else if c =? 10 then ret (Returns (target - (n - 1)) (got ++ [c]))
          else consoleread fuel killed target (n - 1) (got ++ [c])
      else ret (Returns (target - n) got)
  end.

(** [consolewrite] of the bytes [l]. *)
Fixpoint write_loop (l : list Z) : Con unit :=
  match l with [] => ret tt | c :: l => consputc (Z.land c 0xff) ;;; write_loop l end.

Definition consolewrite (l : list Z) : Con Z := write_loop l ;;; ret (Z.of_nat (length l)).

Lemma bind_modify {A} (f : console -> console) (k : unit -> Con A) s : bind (modify f) k s = k tt (f s).
Proof. reflexivity. Qed.

(** ** Output *)

(** The cursor is on the screen. *)
Definition screen_ok (s : console) : Prop := 0 <= c_pos s < 25 * 80 /\ c_panicked s = false.

(** From [s] to [s'] the characters [l] were sent to the serial port, and the input
    is the same. *)
Record shows (s s' : console) (l : list Z) : Prop := {
  sh_screen : screen_ok s';
  sh_input : set_input (c_buf s) (c_r s) (c_w s) (c_e s) s' = s' /\ c_wakeups s' = c_wakeups s;
  sh_uart : c_uart s' = c_uart s;
  sh_serial : c_serial s' = if c_uart s then c_serial s ++ l else c_serial s
}.

Lemma shows_refl s : screen_ok s -> shows s s [].
Proof. intros H. constructor; auto; [destruct s; auto|]. destruct (c_uart s); [now rewrite app_nil_r|reflexivity]. Qed.

Lemma shows_trans s s1 s2 l1 l2 : shows s s1 l1 -> shows s1 s2 l2 -> shows s s2 (l1 ++ l2).
Proof.
  intros [_ [I1 W1] U1 S1] [H2 [I2 W2] U2 S2]. constructor; [exact H2| |congruence|].
  - split; [|congruence]. rewrite <- I2, <- I1. reflexivity.
  - rewrite S2, S1, U1. destruct (c_uart s); [now rewrite app_assoc|reflexivity].
Qed.

Lemma uartputc_shows c s : screen_ok s -> exists s', uartputc c s = Ok tt s' /\ shows s s' [u8 c].
Proof.
  intros H. eexists. split; [reflexivity|]. destruct s as [b r w e u se pos crt pk wk]. cbn [c_uart]. destruct u; constructor; auto; split; reflexivity.
Qed.

Lemma put_crt_ok pos v s : 0 <= pos < 25 * 80 -> put_crt pos v s = Ok tt (set_screen (c_pos s) (fun x => if x =? pos then v else c_crt s x) s).
Proof. intros H. unfold put_crt, bind, gets, id, modify. now rewrite (proj2 (Z.leb_le 0 pos)), (proj2 (Z.ltb_lt pos (25 * 80))) by lia. Qed.

Lemma shows_screen s pos crt : screen_ok s -> 0 <= pos < 25 * 80 -> shows s (set_screen pos crt s) [].
Proof.
  intros [_ H] Hp. constructor; [split; [exact Hp|exact H]|destruct s; auto|reflexivity|]. cbn. destruct (c_uart s); [now rewrite app_nil_r|reflexivity].
Qed.

(** The cursor after [c], before the screen is scrolled. *)
Definition next_pos (c pos : Z) : Z :=
  if c =? 10 then pos + (80 - pos mod 80) else if c =? BACKSPACE then (if 0 <? pos then pos - 1 else pos) else pos + 1.

Lemma next_pos_range c pos : 0 <= pos < 25 * 80 -> 0 <= next_pos c pos <= 25 * 80.
Proof.
  intros H. unfold next_pos. pose proof (Z.mod_pos_bound pos 80 ltac:(lia)). pose proof (Z.div_mod pos 80 ltac:(lia)).
  assert (pos / 80 < 25) by (apply Z.div_lt_upper_bound; lia). destruct (c =? 10); [lia|]. destruct (c =? BACKSPACE); [destruct (Z.ltb_spec 0 pos); lia|lia].
Qed.

(** The character is on the screen, or the cursor has moved. *)
Lemma cgaputc_shows c s : screen_ok s -> exists s', cgaputc c s = Ok tt s' /\ shows s s' [] /\
  c_pos s' = (if 24 <=? next_pos c (c_pos s) / 80 then next_pos c (c_pos s) - 80 else next_pos c (c_pos s)).
Proof.
  intros Hs. pose proof Hs as [Hp _]. unfold cgaputc. set (pos := c_pos s) in *. pose proof (next_pos_range c pos Hp) as Hn. rewrite (bind_ok (gets c_pos) _ s pos s eq_refl).
  assert (E : exists s1, (if c =? 10 then ret (pos + (80 - pos mod 80)) else if c =? BACKSPACE then ret (if 0 <? pos then pos - 1 else pos)
                else put_crt pos (Z.lor (Z.land c 0xff) 0x0700) ;;; ret (pos + 1)) s = Ok (next_pos c pos) s1 /\ shows s s1 [] /\ c_pos s1 = pos).
  { unfold next_pos. destruct (c =? 10); [exists s; auto using shows_refl|]. destruct (c =? BACKSPACE); [exists s; auto using shows_refl|].
    rewrite (bind_ok _ _ _ _ _ (put_crt_ok pos _ s Hp)). eexists. split; [reflexivity|]. split; [now apply shows_screen|reflexivity]. }
  destruct E as (s1 & E1 & S1 & P1). rewrite (bind_ok _ _ _ _ _ E1). clear E1. set (np := next_pos c pos) in *.
  rewrite (proj2 (Z.ltb_ge np 0)), (proj2 (Z.ltb_ge (25 * 80) np)) by lia. cbn [orb]. set (np' := if 24 <=? np / 80 then np - 80 else np).
  assert (Hnp' : 0 <= np' < 25 * 80).
  { subst np'. pose proof (Z.div_mod np 80 ltac:(lia)). pose proof (Z.mod_pos_bound np 80 ltac:(lia)). destruct (Z.leb_spec 24 (np / 80)); lia. }
  assert (E : exists s2, (if 24 <=? np / 80 then modify (fun s => set_screen (c_pos s) (scroll (np - 80) (c_crt s)) s) ;;; ret (np - 80) else ret np) s1 = Ok np' s2 /\ shows s1 s2 []).
  { subst np'. destruct (24 <=? np / 80); [|exists s1; split; [reflexivity|apply shows_refl, S1]]. eexists. split; [reflexivity|]. apply shows_screen; [apply S1|]. rewrite P1. exact Hp. }
  destruct E as (s2 & E2 & S2). rewrite (bind_ok _ _ _ _ _ E2). unfold bind, modify. rewrite put_crt_ok by exact Hnp'. eexists. split; [reflexivity|].
  assert (Eu : u16 np' = np') by (unfold u16; rewrite Z.mod_small; lia). rewrite Eu. split; [|reflexivity].
  apply (shows_trans s s1 _ [] [] S1). apply (shows_trans s1 s2 _ [] [] S2).
  apply (shows_trans s2 (set_screen np' (c_crt s2) s2) _ [] []); (apply shows_screen; [|exact Hnp']); [apply S2|split; [exact Hnp'|apply S2]].
Qed.

Lemma consputc_shows c s : screen_ok s -> exists s', consputc c s = Ok tt s' /\ shows s s' (if c =? BACKSPACE then [8; 32; 8] else [u8 c]).
Proof.
  intros Hs. unfold consputc. rewrite (bind_ok (gets c_panicked) _ s (c_panicked s) s eq_refl). rewrite (proj2 Hs).
  assert (E : exists s1, (if c =? BACKSPACE then uartputc 8 ;;; uartputc 32 ;;; uartputc 8 else uartputc c) s = Ok tt s1 /\ shows s s1 (if c =? BACKSPACE then [8; 32; 8] else [u8 c])).
  { destruct (c =? BACKSPACE); [|now apply uartputc_shows]. destruct (uartputc_shows 8 s Hs) as (s1 & E1 & S1). destruct (uartputc_shows 32 s1 (sh_screen _ _ _ S1)) as (s2 & E2 & S2).
    destruct (uartputc_shows 8 s2 (sh_screen _ _ _ S2)) as (s3 & E3 & S3). exists s3. rewrite (bind_ok _ _ _ _ _ E1), (bind_ok _ _ _ _ _ E2). split; [exact E3|].
    change [8; 32; 8] with ([u8 8] ++ [u8 32] ++ [u8 8]). eauto using shows_trans. }
  destruct E as (s1 & E1 & S1). rewrite (bind_ok _ _ _ _ _ E1). destruct (cgaputc_shows c s1 (sh_screen _ _ _ S1)) as (s2 & E2 & S2 & _). exists s2. split; [exact E2|].
  pose proof (shows_trans _ _ _ _ _ S1 S2) as X. now rewrite app_nil_r in X.
Qed.

(** ** Input *)

(** The characters from [r] to [w] are [q], those from [w] to [e] are [p]: the
    lines that can be read, and the line that is being edited.  The indices count
    on for ever, and are stored modulo 2^32. *)
Record input_is (s : console) (R : Z) (q p : list Z) : Prop := {
  in_len : length (c_buf s) = 128%nat;
  in_r : 0 <= R /\ c_r s = u32 R;
  in_w : c_w s = u32 (R + Z.of_nat (length q));
  in_e : c_e s = u32 (R + Z.of_nat (length q) + Z.of_nat (length p));
  in_room : (length q + length p <= 128)%nat;
  in_chars : forall i, (i < length q + length p)%nat -> nth (Z.to_nat ((R + Z.of_nat i) mod INPUT_BUF)) (c_buf s) 0 = nth i (q ++ p) 0;
  in_bytes : Forall (fun c => 0 <= c < 256) (q ++ p)
}.

Lemma u32_diff a b : 0 <= b - a < two32 -> u32 (u32 b - u32 a) = b - a.
Proof. intros H. word_lia. Qed.

Lemma u32_same a b : 0 <= b - a < two32 -> u32 b = u32 a -> b = a.
Proof. intros H E. word_lia. Qed.

Lemma u32_step a d : u32 (u32 a + d) = u32 (a + d).
Proof. word_lia. Qed.

Lemma u32_ring a : u32 a mod INPUT_BUF = a mod INPUT_BUF.
Proof. unfold INPUT_BUF. word_lia. Qed.

(** What a character does to the lines. *)
Definition commits (c : Z) (q p : list Z) : bool := (c =? 10) || (c =? CTL_D) || (length q + S (length p) =? 128)%nat.

Definition key (c : Z) (qp : list Z * list Z) : list Z * list Z :=
  let '(q, p) := qp in
  if c =? CTL_P then (q, p)
  else if c =? CTL_U then (q, [])
  else if (c =? CTL_H) || (c =? 0x7f) then (q, removelast p)
  else if truth c && (length q + length p <? 128)%nat then
    let c := if c =? 13 then 10 else c in
    if commits c q p then (q ++ p ++ [c], []) else (q, p ++ [c])
  else (q, p).

Section Input.
Variables (s : console) (R : Z) (q p : list Z).
Hypothesis H : input_is s R q p.

Lemma input_empty : (c_e s =? c_w s) = true <-> p = [].
Proof.
  destruct H as [_ [HR _] Hw He Hroom _ _]. rewrite Z.eqb_eq, Hw, He. split.
  - intros E. apply u32_same in E; [|unfold two32; lia]. apply length_zero_iff_nil. lia.
  - intros ->. cbn. now rewrite Z.add_0_r.
Qed.

Lemma input_none : (c_r s =? c_w s) = true <-> q = [].
Proof.
  destruct H as [_ [HR Hr] Hw He Hroom _ _]. rewrite Z.eqb_eq, Hw, Hr. split.
  - intros E. symmetry in E. apply u32_same in E; [|unfold two32; lia]. apply length_zero_iff_nil. lia.
  - intros ->. cbn. now rewrite Z.add_0_r.
Qed.

Lemma input_used : u32 (c_e s - c_r s) = Z.of_nat (length q + length p).
Proof. destruct H as [_ [HR Hr] Hw He Hroom _ _]. rewrite He, Hr. rewrite u32_diff; [lia|unfold two32; lia]. Qed.

Lemma input_last x p' : p = p' ++ [x] -> buf_at s (u32 (c_e s - 1)) = x.
Proof.
  intros Ep. destruct H as [_ [HR Hr] Hw He Hroom Hc _]. subst p. rewrite length_app in *. cbn [length] in *. unfold buf_at. rewrite He.
  assert (E : u32 (u32 (R + Z.of_nat (length q) + Z.of_nat (length p' + 1)) - 1) = u32 (R + Z.of_nat (length q + length p'))) by word_lia.
  rewrite E, u32_ring, Hc by lia. rewrite app_assoc, app_nth2 by (rewrite length_app; lia). now rewrite length_app, Nat.sub_diag.
Qed.

Lemma input_shows s' l : shows s s' l -> input_is s' R q p.
Proof. intros [_ [I _] _ _]. destruct H. rewrite <- I. now constructor. Qed.

(** [input.e--] *)
Lemma input_rub x p' : p = p' ++ [x] -> input_is (set_input (c_buf s) (c_r s) (c_w s) (u32 (c_e s - 1)) s) R q p'.
Proof.
  intros Ep. destruct H as [Hl Hr Hw He Hroom Hc Hf]. subst p. rewrite length_app in *. cbn [length] in *. constructor; cbn [c_buf c_r c_w c_e set_input]; auto; try lia.
  - rewrite He. word_lia.
  - intros i Hi. rewrite Hc by lia. rewrite app_assoc. apply app_nth1. rewrite length_app. lia.
  - rewrite app_assoc in Hf. now apply Forall_app in Hf as [Hf _].
Qed.

(** [input.buf[input.e++ % INPUT_BUF] = c] *)
Lemma input_put c : 0 <= c < 256 -> (length q + length p < 128)%nat ->
  input_is (set_input (<[Z.to_nat (c_e s mod INPUT_BUF) := u8 c]> (c_buf s)) (c_r s) (c_w s) (u32 (c_e s + 1)) s) R q (p ++ [c]).
Proof.
  intros Hb Hlt. destruct H as [Hl Hr Hw He Hroom Hc Hf]. constructor; cbn [c_buf c_r c_w c_e set_input]; auto.
  - now rewrite length_insert.
  - rewrite He, u32_step, length_app. cbn [length]. f_equal. lia.
  - rewrite length_app. cbn. lia.
  - intros i Hi. rewrite length_app in Hi. cbn [length] in Hi. rewrite He, u32_ring. pose proof (Z.mod_pos_bound (R + Z.of_nat (length q) + Z.of_nat (length p)) INPUT_BUF eq_refl) as Hm.
    rewrite (nth_lookup (<[_ := _]> _)), app_assoc. destruct (Nat.eq_dec i (length q + length p)%nat) as [->|Hne].
    + rewrite app_nth2, length_app, Nat.sub_diag by (rewrite length_app; lia). rewrite Nat2Z.inj_add, Z.add_assoc, list_lookup_insert_eq by (unfold INPUT_BUF in *; lia).
      cbn. now rewrite u8_small.
    + rewrite list_lookup_insert_ne; [rewrite app_nth1 by (rewrite length_app; lia); rewrite <- Hc by lia; symmetry; apply nth_lookup|].
      intros E. assert (Ei : (R + Z.of_nat (length q) + Z.of_nat (length p)) mod INPUT_BUF = (R + Z.of_nat i) mod INPUT_BUF).
      { pose proof (Z.mod_pos_bound (R + Z.of_nat i) INPUT_BUF eq_refl). lia. }
      unfold INPUT_BUF in Ei. clear -Ei Hi Hne Hlt. Z.to_euclidean_division_equations. lia.
  - rewrite app_assoc. apply Forall_app. split; [exact Hf|]. repeat constructor; lia.
Qed.

(** [input.w = input.e] *)
Lemma input_commit : input_is (set_input (c_buf s) (c_r s) (c_e s) (c_e s) s) R (q ++ p) [].
Proof.
  destruct H as [Hl Hr Hw He Hroom Hc Hf]. constructor; cbn [c_buf c_r c_w c_e set_input length]; rewrite ?app_nil_r; auto; rewrite ?length_app; try lia.
  - rewrite He. f_equal. lia.
  - rewrite He. f_equal. lia.
  - intros i Hi. apply Hc. lia.
Qed.

(** [input.r++] *)
Lemma input_get c q' : q = c :: q' -> buf_at s (c_r s) = c /\ input_is (set_input (c_buf s) (u32 (c_r s + 1)) (c_w s) (c_e s) s) (R + 1) q' p.
Proof.
  intros Eq. destruct H as [Hl [HR Hr] Hw He Hroom Hc Hf]. subst q. cbn [length] in *. split.
  - unfold buf_at. rewrite Hr, u32_ring. specialize (Hc 0%nat ltac:(lia)). now rewrite Z.add_0_r in Hc.
  - constructor; cbn [c_buf c_r c_w c_e set_input]; auto; try lia.
    + split; [lia|]. rewrite Hr. apply u32_step.
    + rewrite Hw. f_equal. lia.
    + rewrite He. f_equal. lia.
    + intros i Hi. specialize (Hc (S i) ltac:(lia)). cbn in Hc. rewrite <- Hc. do 3 f_equal. lia.
    + cbn in Hf. now inversion Hf.
Qed.
End Input.

(** The state of the console: the lines, and a screen that works. *)
Definition cons_is (s : console) (R : Z) (q p : list Z) : Prop := screen_ok s /\ input_is s R q p /\ 10 ∉ p.

Lemma rub_out_ok s R q p x : screen_ok s -> input_is s R q (p ++ [x]) ->
  exists s', rub_out s = Ok tt s' /\ screen_ok s' /\ input_is s' R q p /\ c_wakeups s' = c_wakeups s.
Proof.
  intros Hs Hi. unfold rub_out. pose proof (input_rub s R q _ Hi x p eq_refl) as H1. set (s1 := set_input _ _ _ _ s) in *.
  destruct (consputc_shows BACKSPACE s1 Hs) as (s' & E & S). exists s'. split; [exact E|]. split; [apply S|]. split; [now apply (input_shows s1 R q p H1 s' _ S)|].
  now destruct S as [_ [_ ->] _ _].
Qed.

Lemma snoc_case {A} (l : list A) : l = [] \/ exists l' x, l = l' ++ [x].
Proof. destruct l as [|y l] using rev_ind; eauto. Qed.

(** Control-U removes the whole line that is being edited: there is no newline in it. *)
Lemma kill_line_ok fuel : forall s R q p, (length p < fuel)%nat -> cons_is s R q p ->
  exists s', kill_line fuel s = Ok tt s' /\ cons_is s' R q [] /\ c_wakeups s' = c_wakeups s.
Proof.
  induction fuel as [|fuel IH]; intros s R q p Hf (Hs & Hi & Hn); [lia|]. cbn [kill_line]. rewrite (bind_ok (gets id) _ s s s eq_refl).
  destruct (snoc_case p) as [->|(p' & x & ->)].
  - rewrite (proj2 (input_empty s R q [] Hi) eq_refl). cbn [negb andb]. exists s. split; [reflexivity|]. split; [split; auto|reflexivity].
  - destruct (c_e s =? c_w s) eqn:E; [apply (input_empty s R q _ Hi) in E; now destruct p'|]. rewrite (input_last s R q _ Hi x p' eq_refl).
    rewrite elem_of_app, list_elem_of_singleton in Hn. rewrite (proj2 (Z.eqb_neq x 10)) by (intros ->; tauto). cbn [negb andb].
    destruct (rub_out_ok s R q p' x Hs Hi) as (s1 & E1 & Hs1 & Hi1 & W1). rewrite (bind_ok _ _ _ _ _ E1). rewrite length_app in Hf. cbn in Hf.
    destruct (IH s1 R q p' ltac:(lia)) as (s2 & E2 & C2 & W2); [split; [exact Hs1|]; split; [exact Hi1|tauto]|]. exists s2. split; [exact E2|]. split; [exact C2|congruence].
Qed.

Definition cr_nl (c : Z) : Z := if c =? 13 then 10 else c.

(** A character that is added to the line. *)
Lemma intr_add s R q p c (dump : bool) : cons_is s R q p -> 0 < c < 256 -> (length q + length p < 128)%nat ->
  let c := cr_nl c in
  exists s', (modify (set_input (<[Z.to_nat (c_e s mod INPUT_BUF) := u8 c]> (c_buf s)) (c_r s) (c_w s) (u32 (c_e s + 1))) ;;;
    consputc c ;;;
    s <- gets id ;;
    (if (c =? 10) || (c =? CTL_D) || (c_e s =? u32 (c_r s + INPUT_BUF)) then
       modify (set_input (c_buf s) (c_r s) (c_e s) (c_e s)) ;;; modify count_wakeup
     else ret tt) ;;;
    ret dump) s = Ok dump s' /\
    (if commits c q p then cons_is s' R (q ++ p ++ [c]) [] /\ c_wakeups s' = S (c_wakeups s) else cons_is s' R q (p ++ [c]) /\ c_wakeups s' = c_wakeups s).
Proof.
  intros (Hs & Hi & Hn) Hc Hlt c'. assert (Hc' : 0 <= c' < 256) by (subst c'; unfold cr_nl; destruct (c =? 13); lia). clearbody c'.
  pose proof (input_put s R q p Hi c' Hc' Hlt) as H1. set (s1 := set_input _ _ _ _ s) in *.
  rewrite bind_modify. fold s1.
  destruct (consputc_shows c' s1 Hs) as (s2 & E2 & S2). rewrite (bind_ok _ _ _ _ _ E2), (bind_ok (gets id) _ s2 s2 s2 eq_refl). pose proof (input_shows s1 R q _ H1 s2 _ S2) as H2.
  assert (W2 : c_wakeups s2 = c_wakeups s) by (now destruct S2 as [_ [_ ->] _ _]).
  assert (Efull : (c_e s2 =? u32 (c_r s2 + INPUT_BUF)) = (length q + S (length p) =? 128)%nat).
  { destruct H2 as [_ [HR Hr] _ He _ _ _]. rewrite He, Hr, u32_step, length_app. cbn [length]. apply eq_true_iff_eq. rewrite Z.eqb_eq, Nat.eqb_eq. unfold INPUT_BUF. split.
    - intros E. symmetry in E. apply u32_same in E; [lia|unfold two32; lia].
    - intros E. f_equal. lia. }
  rewrite Efull. fold (commits c' q p). destruct (commits c' q p) eqn:Ec.
  - eexists. split; [reflexivity|]. pose proof (input_commit s2 R q _ H2) as H3. set (s3 := set_input _ _ _ _ s2) in *.
    split; [|cbn; congruence]. split; [exact (sh_screen _ _ _ S2)|]. split; [|apply not_elem_of_nil]. destruct H3. now constructor.
  - exists s2. split; [reflexivity|]. split; [|exact W2]. split; [apply S2|]. split; [exact H2|]. rewrite elem_of_app, list_elem_of_singleton.
    unfold commits in Ec. apply orb_false_elim in Ec as [Ec _]. apply orb_false_elim in Ec as [Ec _]. apply Z.eqb_neq in Ec. intuition congruence.
Qed.

Lemma intr_char_ok s R q p c dump : cons_is s R q p -> 0 <= c < 256 ->
  exists s', intr_char c dump s = Ok (dump || (c =? CTL_P)) s' /\ cons_is s' R (fst (key c (q, p))) (snd (key c (q, p))) /\
    (length (fst (key c (q, p))) <> length q -> (c_wakeups s < c_wakeups s')%nat).
Proof.
  intros C Hc. pose proof C as (Hs & Hi & Hn). unfold intr_char. rewrite (bind_ok (gets id) _ s s s eq_refl). unfold key.
  destruct (c =? CTL_P) eqn:EP; [exists s; rewrite orb_true_r; split; [reflexivity|]; split; [exact C|easy]|]. rewrite orb_false_r. destruct (c =? CTL_U).
  { destruct (kill_line_ok (S (Z.to_nat (u32 (c_e s - c_w s)))) s R q p) as (s1 & E1 & C1 & _); [|exact C|].
    - destruct Hi as [_ [HR _] Hw He Hroom _ _]. rewrite He, Hw, u32_diff by (unfold two32; lia). lia.
    - rewrite (bind_ok _ _ _ _ _ E1). exists s1. split; [reflexivity|]. split; [exact C1|easy]. }
  destruct ((c =? CTL_H) || (c =? 0x7f)).
  { destruct (snoc_case p) as [->|(p' & x & ->)].
    - rewrite (proj2 (input_empty s R q [] Hi) eq_refl). cbn [negb]. rewrite (bind_ret tt). exists s. split; [reflexivity|]. split; [exact C|easy].
    - destruct (c_e s =? c_w s) eqn:E; [apply (input_empty s R q _ Hi) in E; now destruct p'|]. cbn [negb]. destruct (rub_out_ok s R q p' x Hs Hi) as (s1 & E1 & Hs1 & Hi1 & _).
      rewrite (bind_ok _ _ _ _ _ E1). exists s1. split; [reflexivity|]. cbn [fst snd]. rewrite removelast_last. split; [|easy]. split; [exact Hs1|]. split; [exact Hi1|].
      rewrite elem_of_app in Hn. tauto. }
  rewrite (input_used s R q p Hi). replace (Z.of_nat (length q + length p) <? INPUT_BUF) with (length q + length p <? 128)%nat
    by (apply eq_true_iff_eq; rewrite Nat.ltb_lt, Z.ltb_lt; unfold INPUT_BUF; lia).
  destruct (truth c) eqn:Et; cbn [andb]; [|exists s; split; [reflexivity|]; split; [exact C|easy]].
  destruct (Nat.ltb_spec (length q + length p) 128) as [Hlt|_]; [|exists s; split; [reflexivity|]; split; [exact C|easy]].
  apply truth_true in Et. destruct (intr_add s R q p c dump C ltac:(lia) Hlt) as (s1 & E1 & R1). exists s1. split; [exact E1|]. fold (cr_nl c) in *.
  destruct (commits (cr_nl c) q p); cbn [fst snd].
  - destruct R1 as [C1 W1]. split; [exact C1|lia].
  - destruct R1 as [C1 _]. split; [exact C1|easy].
Qed.

Lemma consoleintr_ok cs : forall s R q p dump, cons_is s R q p -> Forall (fun c => 0 <= c < 256) cs ->
  exists s', intr_loop cs dump s = Ok (dump || existsb (Z.eqb CTL_P) cs) s' /\
    cons_is s' R (fst (fold_left (fun qp c => key c qp) cs (q, p))) (snd (fold_left (fun qp c => key c qp) cs (q, p))).
Proof.
  induction cs as [|c cs IH]; intros s R q p dump C Hb; [exists s; cbn; now rewrite orb_false_r|]. inversion Hb as [|? ? Hc Hb']; subst. cbn [intr_loop fold_left existsb].
  destruct (intr_char_ok s R q p c dump C Hc) as (s1 & E1 & C1 & _). rewrite (bind_ok _ _ _ _ _ E1). destruct (key c (q, p)) as [q1 p1]. cbn [fst snd] in C1.
  destruct (IH s1 R q1 p1 (dump || (c =? CTL_P)) C1 Hb') as (s2 & E2 & C2). exists s2. split; [|exact C2]. rewrite E2, <- orb_assoc, (Z.eqb_sym c). reflexivity.
Qed.

(** What a reader gets of the lines, and the rest of them. *)
Fixpoint read_queue (killed : bool) (target n : Z) (got q : list Z) : read_state * list Z :=
  if 0 <? n then
    match q with
    | [] => (if killed then Returns (-1) got else Sleeps n got, [])
    | c :: q' =>
        if c =? CTL_D then (Returns (target - n) got, if n <? target then q else q')
        else if c =? 10 then (Returns (target - (n - 1)) (got ++ [c]), q')
        else read_queue killed target (n - 1) (got ++ [c]) q'
    end
  else (Returns (target - n) got, q).

Lemma consoleread_ok killed target p fuel : forall s R q n got, cons_is s R q p -> (Z.to_nat n < fuel)%nat ->
  exists s' R', consoleread fuel killed target n got s = Ok (fst (read_queue killed target n got q)) s' /\ cons_is s' R' (snd (read_queue killed target n got q)) p.
Proof.
  induction fuel as [|fuel IH]; intros s R q n got C Hf; [lia|]. pose proof C as (Hs & Hi & Hn). cbn [consoleread]. destruct q as [|c q]; cbn [read_queue].
  - destruct (0 <? n); [|exists s, R; auto]. rewrite (bind_ok (gets id) _ s s s eq_refl), (proj2 (input_none s R [] p Hi) eq_refl). exists s, R. auto.
  - destruct (Z.ltb_spec 0 n) as [Hpos|_]; [|exists s, R; auto]. rewrite (bind_ok (gets id) _ s s s eq_refl).
    destruct (c_r s =? c_w s) eqn:E; [apply (input_none s R _ p Hi) in E; discriminate|]. destruct (input_get s R _ p Hi c q eq_refl) as [-> H1].
    set (s1 := set_input (c_buf s) (u32 (c_r s + 1)) (c_w s) (c_e s) s) in *. cbv zeta.
    assert (C1 : cons_is s1 (R + 1) q p) by (split; [exact Hs|]; auto).
    rewrite bind_modify. fold s1. destruct (c =? CTL_D).
    + destruct (n <? target); [|exists s1, (R + 1); auto]. exists s, R. split; [|exact C].
      assert (Eb : set_input (c_buf s) (u32 (u32 (c_r s + 1) - 1)) (c_w s) (c_e s) s1 = s); [|unfold bind, modify; now rewrite Eb].
      assert (Er : u32 (u32 (c_r s + 1) - 1) = c_r s) by (destruct Hi as [_ [_ Hr] _ _ _ _ _]; rewrite Hr; word_lia). rewrite Er. now destruct s.
    + destruct (c =? 10); [exists s1, (R + 1); auto|]. apply (IH s1 (R + 1) q (n - 1) (got ++ [c]) C1). lia.
Qed.

(** ** Sessions *)

(** Interrupts and readers, in any order; a reader that has been woken up goes on
    with the [n] bytes that it still wants. *)
Inductive event :=
| Keys (cs : list Z)
| Read (killed : bool) (target n : Z).

Definition got_of (r : read_state) : list Z := match r with Sleeps _ got => got | Returns _ got => got end.

(** The bytes that readers get, in order. *)
Fixpoint session (es : list event) : Con (list Z) :=
  match es with
  | [] => ret []
  | Keys cs :: es => consoleintr cs ;;; session es
  | Read killed target n :: es =>
      r <- consoleread (S (Z.to_nat n)) killed target n [] ;;
      l <- session es ;;
      ret (got_of r ++ l)
  end.

(** The characters of the lines that are finished, in order; [q] and [p] are as in
    [key]. *)
Fixpoint finished (es : list event) (q p : list Z) : list Z :=
  match es with
  | [] => []
  | Keys cs :: es =>
      let '(q', p') := fold_left (fun qp c => key c qp) cs (q, p) in
      drop (length q) q' ++ finished es q' p'
  | Read killed target n :: es => finished es (snd (read_queue killed target n [] q)) p
  end.

Definition event_ok (ev : event) : Prop := match ev with Keys cs => Forall (fun c => 0 <= c < 256) cs | Read _ _ _ => True end.

(** Readers do not see control-D. *)
Definition plain (l : list Z) : list Z := List.filter (fun c => negb (c =? CTL_D)) l.

Lemma keys_append cs : forall q p, exists l, fst (fold_left (fun qp c => key c qp) cs (q, p)) = q ++ l.
Proof.
  assert (K : forall c q p, exists l, fst (key c (q, p)) = q ++ l).
  { intros c q p. unfold key. destruct (c =? CTL_P); [exists []; cbn; now rewrite app_nil_r|]. destruct (c =? CTL_U); [exists []; cbn; now rewrite app_nil_r|].
    destruct (_ || _); [exists []; cbn; now rewrite app_nil_r|]. destruct (_ && _); [|exists []; cbn; now rewrite app_nil_r]. cbv zeta.
    destruct (commits _ q p); [eexists; reflexivity|exists []; cbn; now rewrite app_nil_r]. }
  induction cs as [|c cs IH]; intros q p; cbn [fold_left]; [exists []; cbn; now rewrite app_nil_r|]. destruct (K c q p) as [l1 E1]. destruct (key c (q, p)) as [q1 p1]. cbn in E1. subst q1.
  destruct (IH (q ++ l1) p1) as [l2 E2]. exists (l1 ++ l2). rewrite E2. now rewrite app_assoc.
Qed.

Lemma read_queue_takes killed target q : forall n got, exists d, q = d ++ snd (read_queue killed target n got q) /\ got_of (fst (read_queue killed target n got q)) = got ++ plain d.
Proof.
  induction q as [|c q IH]; intros n got; cbn [read_queue].
  - exists []. cbn. rewrite app_nil_r. destruct (0 <? n), killed; auto.
  - destruct (0 <? n); [|exists []; cbn; now rewrite app_nil_r]. destruct (c =? CTL_D) eqn:Ed.
    + destruct (n <? target); [exists []; cbn; now rewrite app_nil_r|]. exists [c]. cbn. rewrite Ed. cbn. now rewrite app_nil_r.
    + destruct (c =? 10) eqn:En; [exists [c]; cbn; now rewrite Ed|]. destruct (IH (n - 1) (got ++ [c])) as (d & E & G). exists (c :: d). cbn [app snd]. split; [now rewrite <- E|].
      rewrite G. cbn. rewrite Ed. cbn. now rewrite <- app_assoc.
Qed.

(** C35: the console is a line discipline in front of a queue.  Under any sequence of
    keyboard interrupts and readers, no index goes out of the buffer, the screen
    is never left and nothing panics, and what the readers get, in order, are the
    characters of the finished lines, in order, without control-D: none is lost,
    repeated or overwritten before it was read, also when the indices wrap around.
    Only backspace and control-U of an unfinished line take characters away. *)
Theorem console_delivers s R q p es : cons_is s R q p -> Forall event_ok es ->
  exists l s' R' q' p', session es s = Ok l s' /\ cons_is s' R' q' p' /\ plain q ++ plain (finished es q p) = l ++ plain q'.
Proof.
  revert s R q p. induction es as [|ev es IH]; intros s R q p C Hev.
  - exists [], s, R, q, p. cbn. rewrite app_nil_r. auto.
  - inversion Hev as [|? ? Hok Hev']; subst. destruct ev as [cs|killed target n]; cbn [session finished].
    + destruct (consoleintr_ok cs s R q p false C Hok) as (s1 & E1 & C1). rewrite (bind_ok (consoleintr cs) _ _ _ _ E1).
      destruct (keys_append cs q p) as [l1 El1]. destruct (fold_left _ cs (q, p)) as [q1 p1]. cbn [fst snd] in *. subst q1.
      destruct (IH s1 R (q ++ l1) p1 C1 Hev') as (l & s2 & R2 & q2 & p2 & E2 & C2 & P2). exists l, s2, R2, q2, p2. split; [exact E2|]. split; [exact C2|].
      rewrite <- P2, drop_app_length. unfold plain. now rewrite !List.filter_app, app_assoc.
    + destruct (consoleread_ok killed target p (S (Z.to_nat n)) s R q n [] C ltac:(lia)) as (s1 & R1 & E1 & C1). rewrite (bind_ok _ _ _ _ _ E1).
      destruct (read_queue_takes killed target q n []) as (d & Eq & Eg). destruct (IH s1 R1 _ p C1 Hev') as (l & s2 & R2 & q2 & p2 & E2 & C2 & P2).
      rewrite (bind_ok _ _ _ _ _ E2). eexists _, s2, R2, q2, p2. split; [reflexivity|]. split; [exact C2|]. rewrite Eg. cbn [app]. rewrite <- app_assoc, <- P2.
      rewrite Eq at 1. unfold plain. now rewrite List.filter_app, <- app_assoc.
Qed.

(** The console after [consoleinit]. *)
Definition console0 : console := mkCons (replicate 128 0) 0 0 0 true [] 0 (fun _ => 0) false 0.

Lemma console0_is : cons_is console0 0 [] [].
Proof. split; [split; cbn; [lia|reflexivity]|]. split; [|apply not_elem_of_nil]. constructor; cbn; auto; try lia; try (split; [lia|reflexivity]). all: try reflexivity. Qed.

(** [ab], backspace, return, and a reader. *)
Lemma console_delivers_witness : exists s' R' q' p', session [Keys [97; 98; 8; 13]; Read false 100 100] console0 = Ok [97; 10] s' /\ cons_is s' R' q' p' /\
  plain (finished [Keys [97; 98; 8; 13]; Read false 100 100] [] []) = [97; 10] ++ plain q'.
Proof.
  destruct (console_delivers console0 0 [] [] [Keys [97; 98; 8; 13]; Read false 100 100] console0_is) as (l & s' & R' & q' & p' & E & C & P); [repeat constructor; lia|].
  exists s', R', q', p'. assert (El : l = [97; 10]) by (vm_compute in E; now injection E). subst l. auto.
Defined.

(** [consolewrite] sends every byte, and keeps the cursor on the screen. *)
Lemma consolewrite_shows l : forall s, screen_ok s -> Forall (fun c => 0 <= c < 256) l ->
  exists s', consolewrite l s = Ok (Z.of_nat (length l)) s' /\ shows s s' l.
Proof.
  intros s Hs Hl. unfold consolewrite. cut (exists s', write_loop l s = Ok tt s' /\ shows s s' l); [intros (s' & E & S); exists s'; now rewrite (bind_ok _ _ _ _ _ E)|].
  revert s Hs. induction Hl as [|c l Hc Hl IH]; intros s Hs; [exists s; auto using shows_refl|]. cbn [write_loop].
  assert (Ec : Z.land c 0xff = c) by (change 0xff with (Z.ones 8); rewrite Z.land_ones by lia; now rewrite Z.mod_small). rewrite Ec.
  destruct (consputc_shows c s Hs) as (s1 & E1 & S1). rewrite (bind_ok _ _ _ _ _ E1). destruct (IH s1 (sh_screen _ _ _ S1)) as (s2 & E2 & S2). exists s2. split; [exact E2|].
  rewrite (proj2 (Z.eqb_neq c BACKSPACE)) in S1 by (unfold BACKSPACE; lia). rewrite u8_small in S1 by lia. exact (shows_trans _ _ _ _ _ S1 S2).
Qed.
