(* ===== verification/Umalloc.v ===== *)
(** The memory allocator of user programs: [src/xv6/xv6-public/umalloc.c].

    The headers of the blocks are in the memory of the process: for a [Header] at
    [p], [p->s.ptr] is the word at [p] and [p->s.size], in units of 8 bytes, the
    word at [p + 4].  [sbrk] gives the memory from the break on, up to a limit.

    The heap is compared with the list of its blocks in the order of their
    addresses, free ones and used ones: they fill the heap without gaps. *)

From Stdlib Require Import Sorting.Sorted.
From stdpp Require Import gmap.
From S2P Require Import Prelude Mem.

Record heap := mkHeap {
  h_mem : mem;
  h_freep : Z;     (* freep *)
  h_brk : Z        (* the size of the process *)
}.

Section Umalloc.
(** The address of [base], and the limit of [sbrk]. *)
Variables base limit : Z.

Abbreviation H := (M heap).

Definition hdr_ptr (p : Z) : H Z := gets (fun s => load32 (h_mem s) p).
Definition hdr_size (p : Z) : H Z := gets (fun s => load32 (h_mem s) (p + 4)).
Definition set_hdr_ptr (p v : Z) : H unit := modify (fun s => mkHeap (store32 (h_mem s) p v) (h_freep s) (h_brk s)).
Definition set_hdr_size (p v : Z) : H unit := modify (fun s => mkHeap (store32 (h_mem s) (p + 4) v) (h_freep s) (h_brk s)).
Definition set_freep (p : Z) : H unit := modify (fun s => mkHeap (h_mem s) p (h_brk s)).

(** [sbrk(n)] of the kernel, for [n] that is not negative. *)
Definition sbrk (n : Z) : H Z :=
  brk <- gets h_brk ;;
  if (0 <=? n) && (brk + n <=? limit) then modify (fun s => mkHeap (h_mem s) (h_freep s) (brk + n)) ;;; ret brk
  else ret (-1).

(** The loop of [free]: the free block before [bp]. *)
Fixpoint free_loop (fuel : nat) (bp p : Z) : H Z :=
  match fuel with
  | O => nofuel
  | S fuel =>
      nx <- hdr_ptr p ;;
      if (p <? bp) && (bp <? nx) then ret p
      else if (nx <=? p) && ((p <? bp) || (bp <? nx)) then ret p
      else free_loop fuel bp nx
  end.

(** The block is joined with the free block after it, [p->s.ptr], *)
Definition join_next (bp p : Z) : H unit :=
  bs <- hdr_size bp ;;
  nx <- hdr_ptr p ;;
  if bp + 8 * bs =? nx then
    ns <- hdr_size nx ;;
    set_hdr_size bp (u32 (bs + ns)) ;;;
    nn <- hdr_ptr nx ;;
    set_hdr_ptr bp nn
  else set_hdr_ptr bp nx.

(** and with the free block [p] before it. *)
Definition join_prev (bp p : Z) : H unit :=
  ps <- hdr_size p ;;
  if p + 8 * ps =? bp then
    bs <- hdr_size bp ;;
    set_hdr_size p (u32 (ps + bs)) ;;;
    bn <- hdr_ptr bp ;;
    set_hdr_ptr p bn
  else set_hdr_ptr p bp.

Definition ufree (fuel : nat) (ap : Z) : H unit :=
  let bp := ap - 8 in
  fp <- gets h_freep ;;
  p <- free_loop fuel bp fp ;;
  join_next bp p ;;;
  join_prev bp p ;;;
  set_freep p.

Definition morecore (fuel : nat) (nu : Z) : H Z :=
  let nu := if nu <? 4096 then 4096 else nu in
  p <- sbrk (s32 (u32 (nu * 8))) ;;
  if p =? -1 then ret 0 else
  set_hdr_size p nu ;;;
  ufree fuel (p + 8) ;;;
  gets h_freep.

(** A block that is large enough was found: it is unlinked, or its end is taken. *)
Definition take_block (nunits prevp p : Z) : H Z :=
  sz <- hdr_size p ;;
  p <- (if sz =? nunits then
          nx <- hdr_ptr p ;;
          set_hdr_ptr prevp nx ;;;
          ret p
        else
          set_hdr_size p (u32 (sz - nunits)) ;;;
          let p := p + 8 * (sz - nunits) in
          set_hdr_size p nunits ;;;
          ret p) ;;
  set_freep prevp ;;;
  ret (p + 8).

Fixpoint malloc_loop (fuel : nat) (nunits prevp p : Z) : H Z :=
  match fuel with
  | O => nofuel
  | S fuel =>
      sz <- hdr_size p ;;
      if nunits <=? sz then take_block nunits prevp p
      else
        fp <- gets h_freep ;;
        if p =? fp then
          p <- morecore fuel nunits ;;
          if p =? 0 then ret 0
          else nx <- hdr_ptr p ;; malloc_loop fuel nunits p nx
        else nx <- hdr_ptr p ;; malloc_loop fuel nunits p nx
  end.

(** The units of a request: [sizeof(Header)] is 8. *)
Definition units (nbytes : Z) : Z := u32 (u32 (nbytes + 8 - 1) / 8 + 1).

Definition malloc (fuel : nat) (nbytes : Z) : H Z :=
  let nunits := units nbytes in
  fp <- gets h_freep ;;
  (if fp =? 0 then set_freep base ;;; set_hdr_ptr base base ;;; set_hdr_size base 0 else ret tt) ;;;
  prevp <- gets h_freep ;;
  p <- hdr_ptr prevp ;;
  malloc_loop fuel nunits prevp p.

(** ** The blocks of the heap *)

(** The units of each block, and whether it is free. *)
Abbreviation blocks := (list (Z * bool)).

Definition span (bs : blocks) : Z := 8 * fold_right (fun b n => fst b + n) 0 bs.

Fixpoint frees (a : Z) (bs : blocks) : list Z :=
  match bs with
  | [] => []
  | (u, f) :: bs => if f then a :: frees (a + 8 * u) bs else frees (a + 8 * u) bs
  end.

Fixpoint used (a : Z) (bs : blocks) : list (Z * Z) :=
  match bs with
  | [] => []
  | (u, f) :: bs => if f then used (a + 8 * u) bs else (a, u) :: used (a + 8 * u) bs
  end.

(** The sizes are in the headers. *)
Fixpoint sized (m : mem) (a : Z) (bs : blocks) : Prop :=
  match bs with
  | [] => True
  | (u, f) :: bs => load32 m (a + 4) = u /\ sized m (a + 8 * u) bs
  end.

(** The headers at [l] are linked, the last one to [e]. *)
Fixpoint linked (m : mem) (l : list Z) (e : Z) : Prop :=
  match l with
  | [] => True
  | a :: l => load32 m a = hd e l /\ linked m l e
  end.

(** Free neighbours have been joined. *)
Fixpoint joined (bs : blocks) : Prop :=
  match bs with
  | [] => True
  | (_, f) :: bs => match f, bs with true, (_, true) :: _ => False | _, _ => True end /\ joined bs
  end.

Record heap_ok (lo : Z) (s : heap) (bs : blocks) : Prop := {
  ok_base : 0 < base /\ base + 8 <= lo;
  ok_units : Forall (fun b => 1 <= fst b) bs;
  ok_brk : h_brk s = lo + span bs /\ h_brk s <= limit /\ limit < two31;
  ok_joined : joined bs;
  ok_sized : sized (h_mem s) lo bs /\ load32 (h_mem s) (base + 4) = 0;
  ok_linked : linked (h_mem s) (base :: frees lo bs) base;
  ok_freep : h_freep s ∈ base :: frees lo bs
}.

(** *** Lists of blocks *)

Lemma span_app A B : span (A ++ B) = span A + span B.
Proof. induction A as [|[u f] A IH]; unfold span in *; cbn in *; lia. Qed.

Lemma span_cons u f B : span ((u, f) :: B) = 8 * u + span B.
Proof. unfold span. cbn. lia. Qed.

Lemma span_nonneg bs : Forall (fun b => 1 <= fst b) bs -> 0 <= span bs.
Proof. induction 1 as [|[u f] bs Hu _ IH]; [unfold span; cbn; lia|]. rewrite span_cons. cbn in Hu. lia. Qed.

Lemma frees_app A : forall a B, frees a (A ++ B) = frees a A ++ frees (a + span A) B.
Proof.
  induction A as [|[u f] A IH]; intros a B; cbn [app frees]; [unfold span; cbn; now rewrite Z.add_0_r|].
  rewrite IH, span_cons, Z.add_assoc. now destruct f.
Qed.

Lemma used_app A : forall a B, used a (A ++ B) = used a A ++ used (a + span A) B.
Proof.
  induction A as [|[u f] A IH]; intros a B; cbn [app used]; [unfold span; cbn; now rewrite Z.add_0_r|].
  rewrite IH, span_cons, Z.add_assoc. now destruct f.
Qed.

Lemma sized_app m A : forall a B, sized m a (A ++ B) <-> sized m a A /\ sized m (a + span A) B.
Proof.
  induction A as [|[u f] A IH]; intros a B; cbn [app sized]; [unfold span; cbn; rewrite Z.add_0_r; tauto|].
  rewrite IH, span_cons, Z.add_assoc. tauto.
Qed.

Lemma joined_app A B : joined (A ++ B) -> joined A /\ joined B.
Proof.
  induction A as [|[u f] A IH]; cbn [app joined]; [tauto|]. intros [H1 H2]. destruct (IH H2) as [HA HB]. split; [split; [|exact HA]|exact HB].
  destruct f; [|exact I]. destruct A as [|[v g] A]; [exact I|exact H1].
Qed.

(** Addresses of free blocks. *)
Lemma frees_range bs : forall a x, Forall (fun b => 1 <= fst b) bs -> x ∈ frees a bs -> a <= x /\ x + 8 <= a + span bs.
Proof.
  induction bs as [|[u f] bs IH]; intros a x Hu Hx; [now apply elem_of_nil in Hx|]. inversion Hu as [|? ? Hu1 Hu2]; subst. cbn in Hu1. rewrite span_cons.
  pose proof (span_nonneg bs Hu2). cbn [frees] in Hx. destruct f; [apply elem_of_cons in Hx as [->|Hx]; [lia|]|]; apply IH in Hx; auto; lia.
Qed.

(** *** Stores *)

Lemma linked_app m l e : forall l' , linked m (l ++ l') e <-> linked m l (hd e l') /\ linked m l' e.
Proof.
  induction l as [|a l IH]; intros l'; cbn [app linked]; [tauto|]. rewrite IH. destruct l; cbn; tauto.
Qed.

Lemma linked_frame m x v l e : (forall a, a ∈ l -> a + 4 <= x \/ x + 4 <= a) -> linked m l e -> linked (store32 m x v) l e.
Proof.
  induction l as [|a l IH]; intros Hx Hl; cbn [linked] in *; [exact I|]. destruct Hl as [Ha Hl]. split.
  - rewrite load32_store32_ne; [exact Ha|]. specialize (Hx a ltac:(apply elem_of_cons; auto)). lia.
  - apply IH; [|exact Hl]. intros b Hb. apply Hx, elem_of_cons. auto.
Qed.

(** A store at or below the first header's pointer, or above the blocks. *)
Lemma sized_below m x v bs : forall a, Forall (fun b => 1 <= fst b) bs -> x <= a -> sized m a bs -> sized (store32 m x v) a bs.
Proof.
  induction bs as [|[u f] bs IH]; intros a Hu Hx Hs; cbn [sized] in *; [exact I|]. inversion Hu as [|? ? Hu1 Hu2]; subst. cbn in Hu1. destruct Hs as [Ha Hs]. split.
  - rewrite load32_store32_ne by lia. exact Ha.
  - apply IH; auto. lia.
Qed.

Lemma sized_above m x v bs : forall a, Forall (fun b => 1 <= fst b) bs -> a + span bs <= x -> sized m a bs -> sized (store32 m x v) a bs.
Proof.
  induction bs as [|[u f] bs IH]; intros a Hu Hx Hs; cbn [sized] in *; [exact I|]. inversion Hu as [|? ? Hu1 Hu2]; subst. cbn in Hu1. destruct Hs as [Ha Hs].
  rewrite span_cons in Hx. pose proof (span_nonneg bs Hu2). split.
  - rewrite load32_store32_ne by lia. exact Ha.
  - apply IH; auto. lia.
Qed.

(** A store at the pointer of a header. *)
Lemma sized_ptr m v bs A u f B a : Forall (fun b => 1 <= fst b) bs -> bs = A ++ (u, f) :: B -> sized m a bs -> sized (store32 m (a + span A) v) a bs.
Proof.
  intros Hu -> Hs. apply Forall_app in Hu as [HA HB]. apply sized_app in Hs as [SA SB]. apply sized_app. split; [apply sized_above; auto; lia|apply sized_below; auto; lia].
Qed.

(** A store at the size of a header. *)
Lemma sized_size m v w A u f B a : Forall (fun b => 1 <= fst b) (A ++ (u, f) :: B) -> 1 <= w < two32 ->
  sized m a A -> sized m (a + span A + 8 * w) B -> v = w -> sized (store32 m (a + span A + 4) v) a (A ++ (w, f) :: B).
Proof.
  intros Hu Hw SA SB ->. apply Forall_app in Hu as [HA HB]. inversion HB as [|? ? _ HB']; subst. apply sized_app. split; [apply sized_above; auto; lia|].
  cbn [sized]. split; [rewrite load32_store32_eq; now apply u32_small; lia|apply sized_below; auto; lia].
Qed.


(** *** The search of [free] *)

Lemma frees_sorted bs : forall a, Forall (fun b => 1 <= fst b) bs -> StronglySorted Z.lt (frees a bs).
Proof.
  induction bs as [|[u f] bs IH]; intros a Hu; cbn [frees]; [constructor|]. inversion Hu as [|? ? Hu1 Hu2]; subst. cbn in Hu1. destruct f; [|auto].
  constructor; [auto|]. apply Forall_forall. intros x Hx. apply frees_range in Hx; auto. lia.
Qed.

Lemma frees_spaced bs : forall a, Forall (fun b => 1 <= fst b) bs -> StronglySorted (fun a b => a + 8 <= b) (frees a bs).
Proof.
  induction bs as [|[u f] bs IH]; intros a Hu; cbn [frees]; [constructor|]. inversion Hu as [|? ? Hu1 Hu2]; subst. cbn in Hu1. destruct f; [|auto].
  constructor; [auto|]. apply Forall_forall. intros x Hx. apply frees_range in Hx; auto. lia.
Qed.

Lemma frees_split bs : forall a x, x ∈ frees a bs -> exists A w B, bs = A ++ (w, true) :: B /\ x = a + span A.
Proof.
  induction bs as [|[u f] bs IH]; intros a x Hx; [now apply elem_of_nil in Hx|]. cbn [frees] in Hx.
  assert (Hrec : x ∈ frees (a + 8 * u) bs -> exists A w B, (u, f) :: bs = A ++ (w, true) :: B /\ x = a + span A).
  { intros H. destruct (IH _ _ H) as (A & w & B & -> & ->). exists ((u, f) :: A), w, B. split; [reflexivity|]. rewrite span_cons. lia. }
  destruct f; [|auto]. apply elem_of_cons in Hx as [->|Hx]; [|auto]. exists [], u, bs. split; [reflexivity|]. unfold span. cbn. lia.
Qed.

Lemma sorted_split (X : list Z) p Y : StronglySorted Z.lt (X ++ p :: Y) -> (forall x, x ∈ X -> x < p) /\ (forall y, y ∈ Y -> p < y).
Proof.
  induction X as [|x X IH]; cbn [app]; intros Hs; inversion Hs as [|? ? Hs' Hf]; subst.
  - split; [intros x Hx; now apply elem_of_nil in Hx|]. rewrite Forall_forall in Hf. exact Hf.
  - destruct (IH Hs') as [H1 H2]. split; [|exact H2]. intros z [->|Hz]%elem_of_cons; [|auto]. rewrite Forall_forall in Hf. apply Hf, elem_of_app. right. apply elem_of_cons. auto.
Qed.

Section Search.
Variables (s : heap) (N : list Z) (bp : Z).
Hypothesis HL : linked (h_mem s) N base.
Hypothesis HS : StronglySorted Z.lt N.
Hypothesis Hb : hd 0 N = base /\ base < bp.
Hypothesis Hnot : bp ∉ N.

Lemma free_forward fuel : forall Y X p, N = X ++ p :: Y -> p < bp -> (length Y < fuel)%nat ->
  exists L1 t L2, N = L1 ++ t :: L2 /\ t < bp /\ (forall x, x ∈ L2 -> bp < x) /\ free_loop fuel bp p s = Ok t s.
Proof.
  induction fuel as [|fuel IH]; intros Y X p EN Hp Hf; [lia|]. cbn [free_loop]. assert (Ep : load32 (h_mem s) p = hd base Y) by (rewrite EN in HL; now apply linked_app in HL as [_ [E _]]).
  rewrite (bind_ok (hdr_ptr p) _ s (hd base Y) s) by (unfold hdr_ptr, gets; now rewrite Ep). rewrite (proj2 (Z.ltb_lt p bp)) by exact Hp. cbn [andb orb].
  assert (HY : forall y, y ∈ Y -> p < y) by (rewrite EN in HS; now apply sorted_split in HS).
  destruct Y as [|y Y]; cbn [hd].
  - rewrite (proj2 (Z.ltb_ge bp base)) by lia. assert (base <= p).
    { destruct X as [|x X]; rewrite EN in Hb; cbn in Hb; [lia|]. rewrite EN in HS. apply sorted_split in HS as [HX _]. specialize (HX x ltac:(apply elem_of_cons; auto)). lia. }
    rewrite (proj2 (Z.leb_le base p)) by lia. cbn [andb]. exists X, p, []. split_and!; auto. intros x Hx. now apply elem_of_nil in Hx.
  - pose proof (HY y ltac:(apply elem_of_cons; auto)) as Hpy. destruct (Z.ltb_spec bp y) as [Hby|Hby].
    + exists X, p, (y :: Y). split_and!; auto. intros x [->|Hx]%elem_of_cons; [exact Hby|]. assert (y < x); [|lia].
      rewrite EN in HS. change (X ++ p :: y :: Y) with (X ++ [p] ++ y :: Y) in HS. rewrite app_assoc in HS. apply sorted_split in HS as [_ H2]. auto.
    + rewrite (proj2 (Z.leb_gt y p)) by exact Hpy. cbn [andb]. assert (y <> bp) by (intros ->; apply Hnot; rewrite EN; apply elem_of_app; right; apply elem_of_cons; right; apply elem_of_cons; auto).
      apply (IH Y (X ++ [p]) y); [rewrite <- app_assoc; exact EN|lia|cbn in Hf; lia].
Qed.

Lemma free_backward fuel : forall Y X p, N = X ++ p :: Y -> bp < p -> (length Y + length N < fuel)%nat ->
  exists L1 t L2, N = L1 ++ t :: L2 /\ t < bp /\ (forall x, x ∈ L2 -> bp < x) /\ free_loop fuel bp p s = Ok t s.
Proof.
  induction fuel as [|fuel IH]; intros Y X p EN Hp Hf; [lia|]. cbn [free_loop]. assert (Ep : load32 (h_mem s) p = hd base Y) by (rewrite EN in HL; now apply linked_app in HL as [_ [E _]]).
  rewrite (bind_ok (hdr_ptr p) _ s (hd base Y) s) by (unfold hdr_ptr, gets; now rewrite Ep). rewrite (proj2 (Z.ltb_ge p bp)) by lia. cbn [andb orb].
  destruct Y as [|y Y]; cbn [hd].
  - rewrite (proj2 (Z.ltb_ge bp base)), andb_false_r by lia. assert (EN' : exists N', N = [] ++ base :: N').
    { pose proof (proj1 Hb) as Hh. rewrite EN in *. destruct X as [|x X]; cbn in Hh; subst; [exists []|exists (X ++ [p])]; reflexivity. }
    destruct EN' as [N' EN']. apply (free_forward fuel N' [] base EN'); [apply Hb|]. rewrite EN' in Hf at 1. cbn in Hf. lia.
  - assert (Hpy : p < y) by (rewrite EN in HS; apply sorted_split in HS as [_ H2]; apply H2, elem_of_cons; auto).
    rewrite (proj2 (Z.leb_gt y p)) by exact Hpy. cbn [andb]. apply (IH Y (X ++ [p]) y); [rewrite <- app_assoc; exact EN|lia|cbn in Hf; lia].
Qed.

Lemma free_search fuel p : p ∈ N -> (2 * length N < fuel)%nat ->
  exists L1 t L2, N = L1 ++ t :: L2 /\ t < bp /\ (forall x, x ∈ L2 -> bp < x) /\ free_loop fuel bp p s = Ok t s.
Proof.
  intros Hin Hf. apply list_elem_of_split in Hin as (X & Y & EN). assert (Hl : (length N = length X + S (length Y))%nat) by (rewrite EN, length_app; reflexivity).
  assert (p <> bp) by (intros ->; apply Hnot; rewrite EN; apply elem_of_app; right; apply elem_of_cons; auto).
  destruct (Z.lt_ge_cases p bp); [apply (free_forward fuel Y X p EN); lia|apply (free_backward fuel Y X p EN); lia].
Qed.
End Search.


(** *** Neighbours *)

Definition starts_free (B : blocks) : bool := match B with (_, true) :: _ => true | _ => false end.
Definition ends_free (A : blocks) : Prop := exists A' w, A = A' ++ [(w, true)].

Lemma joined_mid A u B : joined A -> joined B -> ~ ends_free A -> starts_free B = false -> joined (A ++ (u, true) :: B).
Proof.
  induction A as [|[v f] A IH]; intros HA HB He Hs; cbn [app joined] in *.
  - split; [|exact HB]. destruct B as [|[w [|]] B]; [exact I|discriminate|exact I].
  - destruct HA as [Hf HA]. split; [|apply IH; auto; intros (A' & w & ->); apply He; exists ((v, f) :: A'), w; reflexivity].
    destruct f; [|exact I]. destruct A as [|[w g] A]; cbn [app]; [exfalso; apply He; exists [], v; reflexivity|exact Hf].
Qed.

Lemma joined_used A u B : joined A -> joined B -> joined (A ++ (u, false) :: B).
Proof.
  induction A as [|[v f] A IH]; intros HA HB; cbn [app joined] in *; [auto|]. destruct HA as [Hf HA]. split; [|auto].
  destruct f; [|exact I]. destruct A as [|[w g] A]; cbn [app]; [exact I|exact Hf].
Qed.

Lemma joined_ends A w : joined (A ++ [(w, true)]) -> ~ ends_free A.
Proof.
  induction A as [|[v f] A IH]; cbn [app joined]; intros Hj (A' & x & E); [now destruct A'|]. destruct Hj as [Hf Hj]. destruct A' as [|y A']; cbn in E.
  - injection E as -> -> ->. cbn in Hf. exact Hf.
  - injection E as _ E. apply (IH Hj). exists A', x. exact E.
Qed.

Lemma ends_case A : ends_free A \/ A = [] \/ exists A' w, A = A' ++ [(w, false)].
Proof. destruct A as [|[w [|]] A _] using rev_ind; [auto|left; exists A, w; auto|right; right; exists A, w; auto]. Qed.

Lemma used_not_ends A w : ~ ends_free (A ++ [(w, false)]).
Proof. intros (A' & x & E). apply app_inj_tail in E as [_ E]. discriminate. Qed.

(** Where the used blocks are, and that other memory is as it was. *)
Definition keeps_data (m m' : mem) (l : list (Z * Z)) : Prop := forall a u x, (a, u) ∈ l -> a + 8 <= x < a + 8 * u -> m' x = m x.

Lemma used_range bs : forall a x u, Forall (fun b => 1 <= fst b) bs -> (x, u) ∈ used a bs -> a <= x /\ 1 <= u /\ x + 8 * u <= a + span bs.
Proof.
  induction bs as [|[v f] bs IH]; intros a x u Hu Hx; [now apply elem_of_nil in Hx|]. inversion Hu as [|? ? Hu1 Hu2]; subst. cbn in Hu1. rewrite span_cons.
  pose proof (span_nonneg bs Hu2). cbn [used] in Hx. destruct f; [|apply elem_of_cons in Hx as [E|Hx]; [injection E as -> ->; lia|]]; apply IH in Hx; auto; lia.
Qed.

(** *** [free] *)

Section Free.
Variables (lo fp brk : Z) (A B : blocks) (u : Z).
Hypothesis Hbase : 0 < base /\ base + 8 <= lo.
Hypothesis Hlim : lo + span (A ++ (u, false) :: B) < two31.
Hypothesis Hunits : Forall (fun b => 1 <= fst b) (A ++ (u, false) :: B).
Hypothesis Hjoin : joined A /\ joined B.

Abbreviation bp := (lo + span A).
Abbreviation P := (base :: frees lo A).

Lemma units_parts : Forall (fun b => 1 <= fst b) A /\ 1 <= u /\ Forall (fun b => 1 <= fst b) B /\ 0 <= span A /\ 0 <= span B.
Proof.
  pose proof Hunits as HU. apply Forall_app in HU as [HA HB]. inversion HB as [|? ? Hu HB']; subst. cbn in Hu. split_and!; auto using span_nonneg.
Qed.

Lemma P_below a : a ∈ P -> a + 8 <= bp.
Proof.
  destruct units_parts as (HA & _ & _ & H0 & _). intros [->|Hin]%elem_of_cons; [lia|]. apply frees_range in Hin; auto. lia.
Qed.

(** The memory once the block has been joined with the one after it: [B'] follows
    a block of [u'] units. *)
Record next_joined (m m' : mem) (u' : Z) (B' : blocks) : Prop := {
  nj_sized : sized m' lo (A ++ (u', false) :: B') /\ load32 m' (base + 4) = 0;
  nj_before : linked m' P (hd base (frees (bp + 8 * u) B));
  nj_at : load32 m' bp = hd base (frees (bp + 8 * u') B');
  nj_after : linked m' (frees (bp + 8 * u') B') base;
  nj_span : 8 * u' + span B' = 8 * u + span B;
  nj_units : u <= u' /\ Forall (fun b => 1 <= fst b) B';
  nj_used : used (bp + 8 * u') B' = used (bp + 8 * u) B;
  nj_joined : joined B' /\ starts_free B' = false;
  nj_length : (length B' <= length B)%nat;
  nj_data : forall x, ~ bp <= x < bp + 8 -> m' x = m x
}.

Lemma sized_frame m m' bs : forall a, (forall x, a <= x < a + span bs -> m' x = m x) -> Forall (fun b => 1 <= fst b) bs -> sized m a bs -> sized m' a bs.
Proof.
  induction bs as [|[v f] bs IH]; intros a E HU Hs; cbn [sized] in *; [exact I|]. inversion HU as [|? ? Hv HU']; subst. cbn in Hv. rewrite span_cons in E. pose proof (span_nonneg bs HU').
  destruct Hs as [Ha Hs]. split; [|apply IH; auto; intros; apply E; lia]. rewrite <- Ha. apply load32_ext. intros x Hx. apply E. lia.
Qed.

Lemma linked_ext m m' l e : (forall a x, a ∈ l -> a <= x < a + 4 -> m' x = m x) -> linked m l e -> linked m' l e.
Proof.
  induction l as [|a l IH]; intros E Hl; cbn [linked] in *; [exact I|]. destruct Hl as [Ha Hl]. split.
  - rewrite <- Ha. apply load32_ext. intros x Hx. apply (E a); [apply elem_of_cons; auto|exact Hx].
  - apply IH; [|exact Hl]. intros b x Hb. apply E, elem_of_cons. auto.
Qed.

(** What does not change when only the header at [bp] does. *)
Lemma header_frame m m' : (forall x, ~ bp <= x < bp + 8 -> m' x = m x) -> forall e,
  (linked m P e -> linked m' P e) /\ (sized m lo A -> sized m' lo A) /\ (load32 m (base + 4) = 0 -> load32 m' (base + 4) = 0).
Proof.
  intros E e. destruct units_parts as (HA & _ & _ & H0 & _). split; [|split].
  - apply linked_ext. intros a x Ha Hx. apply E. apply P_below in Ha. lia.
  - apply sized_frame; [|exact HA]. intros x Hx. apply E. lia.
  - intros <-. apply load32_ext. intros x Hx. apply E. lia.
Qed.

Lemma join_next_ok m p : sized m lo (A ++ (u, false) :: B) -> load32 m (base + 4) = 0 -> linked m P (hd base (frees (bp + 8 * u) B)) ->
  linked m (frees (bp + 8 * u) B) base -> load32 m p = hd base (frees (bp + 8 * u) B) ->
  exists m' u' B', join_next bp p (mkHeap m fp brk) = Ok tt (mkHeap m' fp brk) /\ next_joined m m' u' B'.
Proof.
  intros HS Hb HP HQ Hp. pose proof header_frame as HF. pose proof Hjoin as [_ HJ]. pose proof Hlim as HL. destruct units_parts as (HA & Hu & HB & H0 & H1). apply sized_app in HS as [SA SB]. cbn [sized] in SB. destruct SB as [Su SB].
  rewrite span_app, span_cons in HL. unfold join_next, hdr_size, hdr_ptr, set_hdr_size, set_hdr_ptr, bind, gets, modify. cbn [h_mem h_freep h_brk]. rewrite Su, Hp.
  destruct (starts_free B) eqn:Es.
  - assert (EB : exists v B', B = (v, true) :: B') by (destruct B as [|[v [|]] B']; try discriminate; eauto). destruct EB as (v & B' & EB).
    rewrite EB in HP, HQ, Hp, SB, HB, H1, HJ, HL |- *. cbn [frees hd] in *. rewrite Z.eqb_refl. cbn [sized] in SB. destruct SB as [Sv SB]. cbn [h_mem h_freep h_brk]. rewrite Sv. cbn [linked] in HQ. destruct HQ as [Hn HQ].
    assert (Ea : bp + 8 * u + 8 * v = bp + 8 * (u + v)) by lia. rewrite Ea in Hn, HQ, SB.
    rewrite span_cons in HL, H1. apply Forall_cons in HB as [Hv HB']. cbn in Hv. pose proof (span_nonneg B' HB').
    assert (Eu : u32 (u + v) = u + v) by (apply u32_small; unfold two31, two32 in *; lia). rewrite Eu.
    rewrite (load32_store32_ne _ _ (bp + 8 * u)) by lia. rewrite Hn. set (m' := store32 (store32 m _ _) _ _).
    assert (Out : forall x, ~ bp <= x < bp + 8 -> m' x = m x) by (intros x Hx; subst m'; rewrite !store32_frame by lia; reflexivity).
    exists m', (u + v), B'. split; [reflexivity|].
    destruct (HF m m' Out (bp + 8 * u)) as (FP & FA & Fb).
    constructor; auto.
    + split; [|auto]. apply sized_app. split; [auto|]. cbn [sized]. split.
      * subst m'. rewrite load32_store32_ne, load32_store32_eq by lia. apply u32_small. unfold two31, two32 in *. lia.
      * apply sized_frame with m; auto. intros x Hx. apply Out. lia.
    + rewrite EB. apply FP. exact HP.
    + subst m'. rewrite load32_store32_eq. apply u32_small. destruct (frees (bp + 8 * (u + v)) B') as [|y l] eqn:Ef; cbn [hd]; [unfold two31, two32 in *; lia|].
      assert (Hy : y ∈ frees (bp + 8 * (u + v)) B') by (rewrite Ef; apply elem_of_cons; auto). apply frees_range in Hy; auto. unfold two31, two32 in *. lia.
    + apply linked_ext with m; [|exact HQ]. intros a x Ha Hx. apply Out. apply frees_range in Ha; auto. lia.
    + rewrite EB, span_cons. lia.
    + split; [lia|exact HB'].
    + rewrite EB. cbn [used]. f_equal. lia.
    + cbn [joined] in HJ. destruct HJ as [Hf HJ]. split; [exact HJ|]. destruct B' as [|[w [|]] B']; [reflexivity|contradiction|reflexivity].
    + rewrite EB. cbn. lia.
  - assert (Hne : bp + 8 * u <> hd base (frees (bp + 8 * u) B)).
    { destruct (frees (bp + 8 * u) B) as [|y l] eqn:Ef; cbn [hd]; [lia|]. assert (EB : exists v B', B = (v, false) :: B') by (destruct B as [|[v [|]] B']; try discriminate; eauto). destruct EB as (v & B' & EB).
      rewrite EB in Ef, HB. cbn [frees] in Ef.
      apply Forall_cons in HB as [Hv HB']. cbn in Hv. assert (Hy : y ∈ frees (bp + 8 * u + 8 * v) B') by (rewrite Ef; apply elem_of_cons; auto). apply frees_range in Hy; auto. lia. }
    destruct (Z.eqb_spec (bp + 8 * u) (hd base (frees (bp + 8 * u) B))) as [Eq|_]; [contradiction|]. cbn [h_mem h_freep h_brk]. set (m' := store32 m bp _).
    assert (Out : forall x, ~ bp <= x < bp + 8 -> m' x = m x) by (intros x Hx; subst m'; rewrite store32_frame by lia; reflexivity).
    destruct (HF m m' Out (hd base (frees (bp + 8 * u) B))) as (FP & FA & Fb). exists m', u, B. split; [reflexivity|]. constructor; auto.
    + split; [|auto]. apply sized_app. split; [auto|]. cbn [sized]. split; [subst m'; rewrite load32_store32_ne by lia; exact Su|].
      apply sized_frame with m; auto. intros x Hx. apply Out. lia.
    + subst m'. rewrite load32_store32_eq. apply u32_small. destruct (frees (bp + 8 * u) B) as [|y l] eqn:Ef; cbn [hd]; [unfold two31, two32 in *; lia|].
      assert (Hy : y ∈ frees (bp + 8 * u) B) by (rewrite Ef; apply elem_of_cons; auto). apply frees_range in Hy; auto. unfold two31, two32 in *. lia.
    + apply linked_ext with m; [|exact HQ]. intros a x Ha Hx. apply Out. apply frees_range in Ha; auto. lia.
    + split; [lia|exact HB].
Qed.


(** The last free block below [bp]. *)
Lemma last_before L1 p : P = L1 ++ [p] -> (forall a, a ∈ L1 -> a + 8 <= p) /\ p + 8 <= bp /\
  (p = base \/ exists A1 w A2, A = A1 ++ (w, true) :: A2 /\ p = lo + span A1).
Proof.
  intros EP. destruct units_parts as (HA & _ & _ & _ & _). assert (Hin : p ∈ P) by (rewrite EP; apply elem_of_app; right; apply elem_of_cons; auto). split; [|split].
  - assert (SS : StronglySorted (fun a b => a + 8 <= b) P).
    { constructor; [now apply frees_spaced|]. apply Forall_forall. intros x Hx. apply frees_range in Hx; auto. lia. }
    rewrite EP in SS. clear -SS. induction L1 as [|b L1 IH]; intros a Ha; [now apply elem_of_nil in Ha|]. cbn [app] in SS. inversion SS as [|? ? SS' Hf]; subst.
    apply elem_of_cons in Ha as [->|Ha]; [|auto]. rewrite Forall_forall in Hf. apply Hf, elem_of_app. right. apply elem_of_cons. auto.
  - now apply P_below.
  - apply elem_of_cons in Hin as [->|Hin]; [auto|]. right. now apply frees_split.
Qed.

(** What the heap is after [free]. *)
Record freed (m : mem) (s : heap) (bs : blocks) : Prop := {
  fr_ok : heap_ok lo s bs;
  fr_used : used lo bs = used lo A ++ used (bp + 8 * u) B;
  fr_brk : h_brk s = brk;
  fr_free : (exists A' w B', bs = A' ++ (w, true) :: B' /\ u <= w) /\ (length bs <= length (A ++ (u, false) :: B))%nat;
  fr_data : keeps_data m (h_mem s) (used lo A ++ used (bp + 8 * u) B)
}.

Hypothesis Hbrk : brk = lo + span (A ++ (u, false) :: B) /\ brk <= limit /\ limit < two31.

Lemma data_kept m m1 m2 u' B' p L1 : next_joined m m1 u' B' -> P = L1 ++ [p] -> (forall x, ~ p <= x < p + 8 -> m2 x = m1 x) ->
  keeps_data m m2 (used lo A ++ used (bp + 8 * u) B).
Proof.
  intros J EP H2 a v x Hin Hx. destruct units_parts as (HA & Hu & HB & H0 & _). destruct (last_before L1 p EP) as (_ & Hp & Hcase).
  assert (Hbp : x < bp \/ bp + 8 <= x /\ bp <= a).
  { apply elem_of_app in Hin as [Hin|Hin]; apply used_range in Hin; auto; lia. }
  rewrite H2; [apply (nj_data _ _ _ _ J); lia|]. intros Hpx. destruct Hcase as [->|(A1 & w & A2 & EA & Ep)].
  - apply elem_of_app in Hin as [Hin|Hin]; apply used_range in Hin; auto; lia.
  - apply elem_of_app in Hin as [Hin|Hin]; [|apply used_range in Hin; auto; lia]. rewrite EA in HA, Hin. apply Forall_app in HA as [HA1 HA2]. apply Forall_cons in HA2 as [Hw HA2].
    cbn in Hw. rewrite used_app in Hin. cbn [used] in Hin. apply elem_of_app in Hin as [Hin|Hin]; apply used_range in Hin; auto; lia.
Qed.


Lemma free_bounds bs : Forall (fun b => 1 <= fst b) bs -> lo + span bs <= brk -> forall a, a ∈ base :: frees lo bs -> 0 < a < two32.
Proof.
  intros HU Hs a [->|Ha]%elem_of_cons; [|apply frees_range in Ha; auto]; destruct Hbrk as (? & ? & ?); pose proof (span_nonneg _ Hunits); unfold two31, two32 in *; lia.
Qed.

(** [free] makes one block of a free one before the block and the block itself. *)
Lemma join_prev_merge m m1 u' B' A' w L1 : A = A' ++ [(w, true)] -> next_joined m m1 u' B' -> P = L1 ++ [lo + span A'] ->
  exists s', (join_prev bp (lo + span A') ;;; set_freep (lo + span A')) (mkHeap m1 fp brk) = Ok tt s' /\ freed m s' (A' ++ (w + u', true) :: B').
Proof.
  intros EA J EP. pose proof (last_before L1 _ EP) as (HL1 & Hp & _). pose proof (fun m2 => data_kept m m1 m2 u' B' _ L1 J EP) as HD. pose proof units_parts as (HA & Hu & HB & H0 & H1).
  destruct J as [[S1 Sb] Lb La Ln Es [Hu' HB'] Eu [J1 J2] JL _]. set (p := lo + span A') in *. assert (Ebp : bp = p + 8 * w) by (subst p; rewrite EA, span_app, span_cons; unfold span at 2; cbn; lia).
  rewrite EA in HA. apply Forall_app in HA as [HA' Hw]. apply Forall_cons in Hw as [Hw _]. cbn in Hw. pose proof (span_nonneg A' HA').
  assert (Sw : load32 m1 (p + 4) = w /\ load32 m1 (bp + 4) = u' /\ sized m1 lo A' /\ sized m1 (bp + 8 * u') B').
  { apply sized_app in S1 as [SA SB]. cbn [sized] in SB. rewrite EA in SA. apply sized_app in SA as [SA' [Sw _]]. tauto. }
  destruct Sw as (Sw & Su & SA' & SB). destruct Hbrk as (Eb & Hb1 & Hb2). rewrite span_app, span_cons in Eb. pose proof (span_nonneg B' HB').
  unfold join_prev, set_freep, hdr_size, hdr_ptr, set_hdr_size, set_hdr_ptr, bind, gets, modify. cbn [h_mem h_freep h_brk]. rewrite Sw. destruct (Z.eqb_spec (p + 8 * w) bp) as [_|]; [|lia].
  cbn [h_mem h_freep h_brk]. rewrite Su, (load32_store32_ne _ _ bp) by lia. rewrite La. rewrite (u32_small (w + u')) by (unfold two31, two32 in *; lia).
  set (m2 := store32 (store32 m1 _ _) _ _). assert (Out : forall x, ~ p <= x < p + 8 -> m2 x = m1 x) by (intros x Hx; subst m2; rewrite !store32_frame by lia; reflexivity).
  eexists. split; [reflexivity|]. assert (Ef : p + 8 * (w + u') = bp + 8 * u') by lia.
  assert (HU2 : Forall (fun b => 1 <= fst b) (A' ++ (w + u', true) :: B')) by (apply Forall_app; split; [exact HA'|]; constructor; [cbn; lia|exact HB']).
  assert (Esp : span (A' ++ (w + u', true) :: B') = span (A ++ (u, false) :: B)) by (rewrite EA, !span_app, !span_cons; unfold span at 4; cbn [fold_right]; lia).
  constructor; [constructor|..]; auto; cbn [h_mem h_freep h_brk].
  - rewrite Esp, span_app, span_cons. auto.
  - apply joined_mid; auto; [destruct Hjoin as [HJ _]; rewrite EA in HJ; now apply joined_app in HJ as [HJ _]|]. destruct Hjoin as [HJ _]. rewrite EA in HJ. now apply joined_ends in HJ.
  - split; [|rewrite (load32_ext m2 m1) by (intros; apply Out; lia); exact Sb]. apply sized_app. split; [apply sized_frame with m1; auto; intros; apply Out; lia|].
    cbn [sized]. fold p. rewrite Ef. split; [|apply sized_frame with m1; auto; intros; apply Out; lia].
    subst m2. rewrite load32_store32_ne, load32_store32_eq by lia. apply u32_small. unfold two31, two32 in *. lia.
  - rewrite frees_app. cbn [frees]. fold p. rewrite Ef.
    assert (EL1 : base :: frees lo A' = L1).
    { assert (EP' : (base :: frees lo A') ++ [p] = L1 ++ [p]) by (rewrite <- EP, EA, frees_app; reflexivity). now apply app_inj_tail in EP' as [EP' _]. }
    change (base :: frees lo A' ++ p :: frees (bp + 8 * u') B') with ((base :: frees lo A') ++ p :: frees (bp + 8 * u') B'). rewrite EL1. rewrite EP in Lb. apply linked_app in Lb as [Lb _].
    apply linked_app. split; [apply linked_ext with m1; [|exact Lb]; intros a x Ha Hx; apply Out; specialize (HL1 a Ha); lia|]. cbn [linked]. split.
    + subst m2. rewrite load32_store32_eq. apply u32_small. destruct (frees (bp + 8 * u') B') as [|y l] eqn:Ef'; cbn [hd]; [unfold two31, two32 in *; lia|].
      assert (Hy : y ∈ frees (bp + 8 * u') B') by (rewrite Ef'; apply elem_of_cons; auto). apply frees_range in Hy; auto. unfold two31, two32 in *. lia.
    + apply linked_ext with m1; [|exact Ln]. intros a x Ha Hx. apply Out. apply frees_range in Ha; auto. lia.
  - rewrite frees_app. cbn [frees]. fold p. apply elem_of_cons. right. apply elem_of_app. right. apply elem_of_cons. auto.
  - rewrite used_app. cbn [used]. fold p. rewrite Ef, Eu, EA, used_app. cbn [used]. now rewrite app_nil_r.
  - split; [exists A', (w + u'), B'; split; [reflexivity|lia]|]. rewrite EA, !length_app. cbn. lia.
Qed.


(** The free block before does not reach to the block when a used one is between them. *)
Lemma not_adjacent m1 u' B' L1 p : ~ ends_free A -> sized m1 lo (A ++ (u', false) :: B') -> load32 m1 (base + 4) = 0 -> P = L1 ++ [p] -> p + 8 * load32 m1 (p + 4) < bp.
Proof.
  intros He HS Hb EP. pose proof units_parts as (HA & _ & _ & H0 & _). destruct (last_before L1 p EP) as (_ & Hp & [->|(A1 & w & A2 & EA & ->)]); [rewrite Hb; lia|].
  apply sized_app in HS as [SA _]. rewrite EA in HA, SA. apply sized_app in SA as [_ [Sw _]]. rewrite Sw, EA, span_app, span_cons. apply Forall_app in HA as [_ HA]. apply Forall_cons in HA as [_ HA].
  destruct A2 as [|[v f] A2]; [exfalso; apply He; exists A1, w; exact EA|]. apply Forall_cons in HA as [Hv HA]. cbn in Hv. pose proof (span_nonneg A2 HA). rewrite span_cons. lia.
Qed.

Lemma join_prev_link m m1 u' B' p L1 : ~ ends_free A -> next_joined m m1 u' B' -> P = L1 ++ [p] ->
  exists s', (join_prev bp p ;;; set_freep p) (mkHeap m1 fp brk) = Ok tt s' /\ freed m s' (A ++ (u', true) :: B').
Proof.
  intros He J EP. pose proof (last_before L1 _ EP) as (HL1 & Hp & Hcase). pose proof (fun m2 => data_kept m m1 m2 u' B' _ L1 J EP) as HD. pose proof units_parts as (HA & Hu & HB & H0 & H1).
  destruct J as [[S1 Sb] Lb La Ln Es [Hu' HB'] Eu [J1 J2] JL _]. pose proof (not_adjacent m1 u' B' L1 p He S1 Sb EP) as Hna. destruct Hbrk as (Eb & Hb1 & Hb2). pose proof (span_nonneg B' HB').
  unfold join_prev, set_freep, hdr_size, hdr_ptr, set_hdr_size, set_hdr_ptr, bind, gets, modify. cbn [h_mem h_freep h_brk]. destruct (Z.eqb_spec (p + 8 * load32 m1 (p + 4)) bp) as [E|_]; [lia|].
  cbn [h_mem h_freep h_brk]. set (m2 := store32 m1 p bp). assert (Out : forall x, ~ p <= x < p + 4 -> m2 x = m1 x) by (intros x Hx; subst m2; rewrite store32_frame by lia; reflexivity).
  eexists. split; [reflexivity|]. assert (Esp : span (A ++ (u', true) :: B') = span (A ++ (u, false) :: B)) by (rewrite !span_app, !span_cons; lia).
  assert (HU2 : Forall (fun b => 1 <= fst b) (A ++ (u', true) :: B')) by (apply Forall_app; split; [exact HA|]; constructor; [cbn; lia|exact HB']).
  assert (Hbp : 0 < bp < two32) by (rewrite span_app, span_cons in Eb; unfold two31, two32 in *; lia).
  constructor; [constructor|..]; auto; cbn [h_mem h_freep h_brk].
  - rewrite Esp. auto.
  - apply joined_mid; auto. apply Hjoin.
  - split; [|rewrite (load32_ext m2 m1) by (intros; apply Out; destruct Hcase as [->|(A1 & w & A2 & EA & ->)]; [lia|rewrite EA in HA; apply Forall_app in HA as [HA1 _]; pose proof (span_nonneg A1 HA1); lia]); exact Sb].
    apply sized_app. apply sized_app in S1 as [SA SB]. cbn [sized] in SB |- *. split.
    + destruct Hcase as [->|(A1 & w & A2 & EA & ->)]; [apply sized_below; auto; lia|now apply (sized_ptr m1 bp A A1 w true A2 lo)].
    + destruct SB as [Su SB]. split; [rewrite (load32_ext m2 m1) by (intros; apply Out; lia); exact Su|apply sized_frame with m1; auto; intros; apply Out; lia].
  - rewrite frees_app. cbn [frees]. change (base :: frees lo A ++ bp :: frees (bp + 8 * u') B') with (P ++ bp :: frees (bp + 8 * u') B'). rewrite EP in Lb |- *.
    apply linked_app in Lb as [Lb _]. rewrite <- app_assoc. cbn [app]. apply linked_app. cbn [linked hd]. split_and!.
    + apply linked_ext with m1; [|exact Lb]. intros a x Ha Hx. apply Out. specialize (HL1 a Ha). lia.
    + subst m2. rewrite load32_store32_eq. apply u32_small. lia.
    + rewrite (load32_ext m2 m1) by (intros; apply Out; lia). exact La.
    + apply linked_ext with m1; [|exact Ln]. intros a x Ha Hx. apply Out. apply frees_range in Ha; auto. lia.
  - assert (Hin : p ∈ P) by (rewrite EP; apply elem_of_app; right; apply elem_of_cons; auto). rewrite frees_app. change (base :: frees lo A ++ ?l) with (P ++ l). apply elem_of_app. auto.
  - rewrite used_app. cbn [used]. now rewrite Eu.
  - split; [exists A, u', B'; auto|]. rewrite !length_app. cbn. lia.
  - apply HD. intros x Hx. apply Out. lia.
Qed.
End Free.

Lemma app_cut (X Y L1 L2 : list Z) t b : X ++ Y = L1 ++ t :: L2 -> (forall x, x ∈ X -> x < b) -> (forall y, y ∈ Y -> b < y) -> t < b -> (forall x, x ∈ L2 -> b < x) ->
  (forall x, x ∈ L1 -> x < t) -> X = L1 ++ [t] /\ Y = L2.
Proof.
  revert L1; induction X as [|x X IH]; intros L1 E HX HY Ht H2 H1.
  - cbn in E. exfalso. assert (Hin : t ∈ Y) by (rewrite E; apply elem_of_app; right; apply elem_of_cons; auto). apply HY in Hin. lia.
  - destruct L1 as [|y L1]; cbn in E.
    + injection E as -> E. destruct X as [|x' X]; [auto|]. exfalso. assert (Hx' : x' ∈ L2) by (rewrite <- E; apply elem_of_cons; auto). apply H2 in Hx'.
      specialize (HX x' ltac:(apply elem_of_cons; right; apply elem_of_cons; auto)). lia.
    + injection E as -> E. destruct (IH L1 E) as [-> ->]; auto; [intros z Hz; apply HX, elem_of_cons; auto|intros z Hz; apply H1, elem_of_cons; auto].
Qed.

(** [free] of a used block gives a heap without it. *)
Lemma ufree_ok lo s A u B fuel : heap_ok lo s (A ++ (u, false) :: B) -> (2 * length (base :: frees lo (A ++ (u, false) :: B)) < fuel)%nat ->
  exists s' bs, ufree fuel (lo + span A + 8) s = Ok tt s' /\ freed lo (h_brk s) A B u (h_mem s) s' bs.
Proof.
  intros [Hb HU (Ebrk & Hlim & Hl31) HJ [HS Hsb] HL Hfp] Hf. destruct s as [m fp brk]. cbn [h_mem h_freep h_brk] in *.
  assert (HU' := HU). apply Forall_app in HU' as [HA HB]. apply Forall_cons in HB as [Hu HB]. cbn in Hu. pose proof (span_nonneg A HA). set (bp := lo + span A).
  pose proof HL as HL'. rewrite frees_app in HL', Hfp. cbn [frees] in HL', Hfp. fold bp in HL', Hfp. set (Q := frees (bp + 8 * u) B) in *. set (P := base :: frees lo A).
  change (base :: frees lo A ++ Q) with (P ++ Q) in HL', Hfp. assert (HP : forall x, x ∈ P -> x < bp) by (intros x [->|Hx]%elem_of_cons; [lia|apply frees_range in Hx; auto; lia]).
  assert (HQ : forall y, y ∈ Q -> bp < y) by (intros y Hy; apply frees_range in Hy; auto; lia).
  assert (EN : base :: frees lo (A ++ (u, false) :: B) = P ++ Q) by (rewrite frees_app; reflexivity). rewrite EN in Hf.
  assert (SS : StronglySorted Z.lt (P ++ Q)).
  { rewrite <- EN. constructor; [now apply frees_sorted|]. apply Forall_forall. intros x Hx. apply frees_range in Hx; auto. lia. }
  destruct (free_search (mkHeap m fp brk) (P ++ Q) bp HL' SS ltac:(split; [reflexivity|lia]) ltac:(intros [Hx|Hx]%elem_of_app; [apply HP in Hx|apply HQ in Hx]; lia) fuel fp Hfp Hf)
    as (L1 & t & L2 & E & Ht & H2 & ES).
  rewrite E in SS. destruct (sorted_split _ _ _ SS) as [H1 _]. destruct (app_cut P Q L1 L2 t bp E HP HQ Ht H2 H1) as [EP _]. apply linked_app in HL' as [LP LQ].
  assert (Jab : joined A /\ joined B) by (apply joined_app in HJ as [HJA HJB]; cbn [joined] in HJB; tauto).
  destruct (join_next_ok lo fp brk A B u Hb ltac:(lia) HU Jab m t HS Hsb LP LQ) as (m1 & u' & B' & E1 & J1).
  { rewrite EP in LP. apply linked_app in LP as [_ [LP _]]. exact LP. }
  unfold ufree. replace (bp + 8 - 8) with bp by lia. rewrite (bind_ok (gets h_freep) _ (mkHeap m fp brk) fp (mkHeap m fp brk) eq_refl), (bind_ok _ _ _ _ _ ES), (bind_ok _ _ _ _ _ E1).
  destruct (ends_case A) as [(A' & w & EA)|Hne].
  - assert (Et : t = lo + span A') by (unfold P in EP; rewrite EA, frees_app in EP; cbn [frees] in EP; change (base :: frees lo A' ++ [lo + span A']) with ((base :: frees lo A') ++ [lo + span A']) in EP; now apply app_inj_tail in EP as [_ <-]).
    subst t. destruct (join_prev_merge lo fp brk A B u Hb ltac:(lia) HU Jab ltac:(auto) m m1 u' B' A' w L1 EA J1 EP) as (s' & E2 & R). eauto.
  - assert (He : ~ ends_free A) by (destruct Hne as [->|(A' & w & ->)]; [intros (A' & w & EA); now destruct A'|apply used_not_ends]).
    destruct (join_prev_link lo fp brk A B u Hb ltac:(lia) HU Jab ltac:(auto) m m1 u' B' t L1 He J1 EP) as (s' & E2 & R). eauto.
Qed.


(** *** [malloc] *)

Lemma split_at (X Y X' Y' : list Z) r : X ++ r :: Y = X' ++ r :: Y' -> (forall x, x ∈ X -> x < r) -> (forall x, x ∈ X' -> x < r) -> X = X' /\ Y = Y'.
Proof.
  revert X'; induction X as [|x X IH]; intros [|x' X'] E HX HX'; cbn in E.
  - injection E as ->. auto.
  - injection E as -> _. specialize (HX' x' ltac:(apply elem_of_cons; auto)). lia.
  - injection E as -> _. specialize (HX r ltac:(apply elem_of_cons; auto)). lia.
  - injection E as -> E. destruct (IH X' E) as [-> ->]; auto; [intros z Hz; apply HX, elem_of_cons; auto|intros z Hz; apply HX', elem_of_cons; auto].
Qed.

Lemma nodes_sorted lo s bs : heap_ok lo s bs -> StronglySorted Z.lt (base :: frees lo bs).
Proof.
  intros [Hb HU _ _ _ _ _]. constructor; [now apply frees_sorted|]. apply Forall_forall. intros x Hx. apply frees_range in Hx; auto. lia.
Qed.

(** What the heap is after [malloc] has found [n] units at [a]. *)
Record allocated (lo : Z) (s s' : heap) (bs bs' : blocks) (a n : Z) : Prop := {
  al_ok : heap_ok lo s' bs';
  al_used : used lo bs' ≡ₚ (a, n) :: used lo bs;
  al_data : keeps_data (h_mem s) (h_mem s') (used lo bs);
  al_len : (length bs' <= S (length bs))%nat
}.

Section Take.
Variables (lo : Z) (s : heap) (A B : blocks) (w n q : Z) (L1 : list Z).
Hypothesis Hok : heap_ok lo s (A ++ (w, true) :: B).
Hypothesis HP : base :: frees lo A = L1 ++ [q].
Hypothesis Hn : 1 <= n.

Abbreviation r := (lo + span A).

Lemma take_facts : Forall (fun b => 1 <= fst b) A /\ 1 <= w /\ Forall (fun b => 1 <= fst b) B /\ 0 <= span A /\ 0 <= span B /\ lo + (span A + (8 * w + span B)) < two31 /\
  sized (h_mem s) lo A /\ load32 (h_mem s) (r + 4) = w /\ sized (h_mem s) (r + 8 * w) B /\ linked (h_mem s) (L1 ++ [q]) r /\
  load32 (h_mem s) r = hd base (frees (r + 8 * w) B) /\ linked (h_mem s) (frees (r + 8 * w) B) base /\ joined A /\ joined B /\ ~ ends_free A.
Proof.
  destruct Hok as [Hb HU (E & Hl & H31) HJ [HS _] HL _]. pose proof HU as HU'. apply Forall_app in HU' as [HA HB]. apply Forall_cons in HB as [Hw HB]. cbn in Hw.
  apply sized_app in HS as [SA [Sw SB]]. rewrite frees_app in HL. cbn [frees] in HL. change (base :: frees lo A ++ ?l) with ((base :: frees lo A) ++ l) in HL. rewrite HP in HL.
  apply linked_app in HL as [HLP HLQ]. cbn [linked hd] in HLP, HLQ. rewrite span_app, span_cons in E. destruct HLQ as [HLr HLQ].
  assert (HJ' := HJ). apply joined_app in HJ' as [JA JB]. cbn [joined] in JB. split_and!; auto using span_nonneg; try lia; [apply JB|].
  intros (A' & v & ->). rewrite <- app_assoc in HJ. apply joined_app in HJ as [_ HJ]. cbn [app joined] in HJ. tauto.
Qed.

Lemma q_facts : (forall a, a ∈ L1 -> a + 8 <= q) /\ q + 8 <= r /\ base <= q /\ (q = base \/ exists A1 v A2, A = A1 ++ (v, true) :: A2 /\ q = lo + span A1).
Proof.
  destruct Hok as [Hb HU (E & Hl & H31) _ _ _ _]. destruct take_facts as (HA & Hw & HB & H0 & H1 & H2 & _).
  assert (HU' : Forall (fun b => 1 <= fst b) (A ++ (w, false) :: B)) by (apply Forall_app; split; [auto|now constructor]).
  destruct (last_before lo A B w Hb HU' L1 q HP) as (X1 & X2 & X3). split_and!; auto. destruct X3 as [->|(A1 & v & A2 & EA & ->)]; [lia|].
  rewrite EA in HA. apply Forall_app in HA as [HA1 _]. pose proof (span_nonneg A1 HA1). lia.
Qed.

(** A block of the right size is unlinked. *)
Lemma take_all : n = w -> exists s', take_block n q r s = Ok (r + 8) s' /\ allocated lo s s' (A ++ (w, true) :: B) (A ++ (w, false) :: B) r n.
Proof.
  intros ->. destruct take_facts as (HA & Hw & HB & H0 & H1 & H2 & SA & Sw & SB & LP & Lr & LQ & JA & JB & He). destruct q_facts as (HL1 & Hq & Hbq & Hcase).
  destruct Hok as [Hb HU (E & Hl & H31) HJ [_ Hs0] _ _]. unfold take_block, hdr_size, hdr_ptr, set_hdr_ptr, set_freep, bind, gets, modify. rewrite Sw, Z.eqb_refl, Lr. cbn [h_mem h_freep h_brk].
  unfold ret. set (m' := store32 (h_mem s) q _). assert (Out : forall x, ~ q <= x < q + 4 -> m' x = h_mem s x) by (intros x Hx; subst m'; rewrite store32_frame by lia; reflexivity).
  eexists. split; [reflexivity|]. assert (HU2 : Forall (fun b => 1 <= fst b) (A ++ (w, false) :: B)) by (apply Forall_app; split; [auto|now constructor]).
  constructor; [constructor|..]; auto; cbn [h_mem h_freep h_brk].
  - rewrite E, !span_app, !span_cons in *. auto.
  - now apply joined_used.
  - split; [|rewrite (load32_ext m' (h_mem s)) by (intros; apply Out; destruct Hcase as [->|(A1 & v & A2 & EA & ->)]; [lia|rewrite EA in HA; apply Forall_app in HA as [HA1 _]; pose proof (span_nonneg A1 HA1); lia]); exact Hs0].
    apply sized_app. cbn [sized]. split; [|split].
    + destruct Hcase as [->|(A1 & v & A2 & EA & ->)]; [apply sized_below; auto; lia|now apply (sized_ptr (h_mem s) _ A A1 v true A2 lo)].
    + rewrite (load32_ext m' (h_mem s)) by (intros; apply Out; lia). exact Sw.
    + apply sized_frame with (h_mem s); auto. intros; apply Out; lia.
  - rewrite frees_app. cbn [frees]. change (base :: frees lo A ++ ?l) with ((base :: frees lo A) ++ l). rewrite HP. rewrite <- app_assoc. cbn [app].
    apply linked_app in LP as [LP _]. apply linked_app. cbn [linked hd]. split_and!.
    + apply linked_ext with (h_mem s); [|exact LP]. intros a x Ha Hx. apply Out. specialize (HL1 a Ha). lia.
    + subst m'. rewrite load32_store32_eq. apply u32_small. destruct (frees (r + 8 * w) B) as [|y l] eqn:Ef; cbn [hd]; [unfold two31, two32 in *; lia|].
      assert (Hy : y ∈ frees (r + 8 * w) B) by (rewrite Ef; apply elem_of_cons; auto). apply frees_range in Hy; auto. unfold two31, two32 in *. lia.
    + apply linked_ext with (h_mem s); [|exact LQ]. intros a x Ha Hx. apply Out. apply frees_range in Ha; auto. lia.
  - rewrite frees_app. change (base :: frees lo A ++ ?l) with ((base :: frees lo A) ++ l). rewrite HP. apply elem_of_app. left. apply elem_of_app. right. apply elem_of_cons. auto.
  - rewrite !used_app. cbn [used]. symmetry. apply Permutation_middle.
  - intros a v x Hin Hx. apply Out. rewrite used_app in Hin. cbn [used] in Hin. apply elem_of_app in Hin as [Hin|Hin]; [|apply used_range in Hin; auto; lia].
    destruct Hcase as [->|(A1 & z & A2 & EA & ->)]; [apply used_range in Hin; auto; lia|]. rewrite EA in HA, Hin. apply Forall_app in HA as [HA1 HA2]. apply Forall_cons in HA2 as [Hz HA2].
    cbn in Hz. rewrite used_app in Hin. cbn [used] in Hin. apply elem_of_app in Hin as [Hin|Hin]; apply used_range in Hin; auto; lia.
  - rewrite !length_app. cbn. lia.
Qed.

(** The end of a larger block is taken. *)
Lemma take_tail : n < w -> exists s', take_block n q r s = Ok (r + 8 * (w - n) + 8) s' /\
  allocated lo s s' (A ++ (w, true) :: B) (A ++ (w - n, true) :: (n, false) :: B) (r + 8 * (w - n)) n.
Proof.
  intros Hlt. destruct take_facts as (HA & Hw & HB & H0 & H1 & H2 & SA & Sw & SB & LP & Lr & LQ & JA & JB & He). destruct q_facts as (HL1 & Hq & Hbq & _).
  destruct Hok as [Hb HU (E & Hl & H31) HJ [_ Hs0] _ _]. unfold take_block, hdr_size, hdr_ptr, set_hdr_size, set_freep, bind, gets, modify. rewrite Sw. destruct (Z.eqb_spec w n); [lia|].
  rewrite (u32_small (w - n)) by (unfold two31, two32 in *; lia). unfold ret. cbn [h_mem h_freep h_brk]. set (a := r + 8 * (w - n)). set (m' := store32 (store32 (h_mem s) _ _) _ _).
  assert (Out : forall x, ~ r + 4 <= x < r + 8 -> ~ a + 4 <= x < a + 8 -> m' x = h_mem s x) by (intros x Hx Hx'; subst m'; rewrite !store32_frame by lia; reflexivity).
  eexists. split; [reflexivity|]. assert (HU2 : Forall (fun b => 1 <= fst b) (A ++ (w - n, true) :: (n, false) :: B)) by (apply Forall_app; split; [auto|]; repeat constructor; cbn; auto; lia).
  assert (Ea : a + 8 * n = r + 8 * w) by (subst a; lia).
  assert (HQ : linked m' (frees (r + 8 * w) B) base) by (apply linked_ext with (h_mem s); [|exact LQ]; intros b x Hb' Hx; apply frees_range in Hb'; auto; apply Out; lia).
  constructor; [constructor|..]; auto; cbn [h_mem h_freep h_brk].
  - rewrite E, !span_app, !span_cons in *. split; [lia|auto].
  - apply joined_mid; auto. cbn [joined]. auto.
  - split; [|rewrite (load32_ext m' (h_mem s)) by (intros; apply Out; lia); exact Hs0]. apply sized_app. cbn [sized]. fold a. rewrite Ea. split_and!.
    + apply sized_frame with (h_mem s); auto. intros; apply Out; lia.
    + subst m'. rewrite load32_store32_ne, load32_store32_eq by lia. apply u32_small. unfold two31, two32 in *. lia.
    + subst m'. rewrite load32_store32_eq. apply u32_small. unfold two31, two32 in *. lia.
    + apply sized_frame with (h_mem s); auto. intros; apply Out; lia.
  - rewrite frees_app. cbn [frees]. fold a. rewrite Ea. change (base :: frees lo A ++ ?l) with ((base :: frees lo A) ++ l). rewrite HP. apply linked_app. cbn [linked hd]. split_and!; auto.
    + apply linked_ext with (h_mem s); [|exact LP]. intros b x Hb' Hx. apply Out; (apply elem_of_app in Hb' as [Hb'|Hb']; [specialize (HL1 b Hb'); lia|apply list_elem_of_singleton in Hb'; lia]).
    + rewrite (load32_ext m' (h_mem s)) by (intros; apply Out; lia). exact Lr.
  - rewrite frees_app. change (base :: frees lo A ++ ?l) with ((base :: frees lo A) ++ l). rewrite HP. apply elem_of_app. left. apply elem_of_app. right. apply elem_of_cons. auto.
  - rewrite !used_app. cbn [used]. fold a. rewrite Ea. symmetry. apply Permutation_middle.
  - intros b v x Hin Hx. rewrite used_app in Hin. cbn [used] in Hin. apply elem_of_app in Hin as [Hin|Hin]; apply used_range in Hin; auto; apply Out; lia.
  - rewrite !length_app. cbn. lia.
Qed.
End Take.


Lemma take_ok lo s bs n q r L1 L2 : heap_ok lo s bs -> 1 <= n -> base :: frees lo bs = L1 ++ q :: r :: L2 -> n <= load32 (h_mem s) (r + 4) ->
  exists s' a bs', take_block n q r s = Ok (a + 8) s' /\ allocated lo s s' bs bs' a n /\ lo <= a.
Proof.
  intros Hok Hn EN Hfit. pose proof (nodes_sorted lo s bs Hok) as SS. change (L1 ++ q :: r :: L2) with (L1 ++ [q] ++ r :: L2) in EN. rewrite app_assoc in EN. rewrite EN in SS.
  destruct (sorted_split _ _ _ SS) as [HX _]. assert (Hr : r ∈ frees lo bs).
  { assert (Hin : r ∈ base :: frees lo bs) by (rewrite EN; apply elem_of_app; right; apply elem_of_cons; auto). apply elem_of_cons in Hin as [->|Hin]; [|exact Hin].
    exfalso. destruct (L1 ++ [q]) as [|b X] eqn:EX; [now destruct L1|]. injection EN as <- _. specialize (HX base ltac:(apply elem_of_cons; auto)). lia. }
  apply frees_split in Hr as (A & w & B & -> & ->). assert (EP : base :: frees lo A = L1 ++ [q]).
  { rewrite frees_app in EN. cbn [frees] in EN. change (base :: frees lo A ++ ?l) with ((base :: frees lo A) ++ l) in EN. apply split_at in EN as [EN _]; auto.
    destruct Hok as [Hb HU _ _ _ _ _]. apply Forall_app in HU as [HA _]. pose proof (span_nonneg A HA). intros x [->|Hx]%elem_of_cons; [lia|]. apply frees_range in Hx; auto. lia. }
  destruct (take_facts lo s A B w q L1 Hok EP) as (HA & Hw & _ & H0 & _ & _ & _ & Sw & _). rewrite Sw in Hfit. destruct (Z.eq_dec n w) as [E|E].
  - destruct (take_all lo s A B w n q L1 Hok EP Hn E) as (s' & E1 & R). exists s', (lo + span A), (A ++ (w, false) :: B). split_and!; auto. lia.
  - destruct (take_tail lo s A B w n q L1 Hok EP Hn ltac:(lia)) as (s' & E1 & R). exists s', (lo + span A + 8 * (w - n)), (A ++ (w - n, true) :: (n, false) :: B). split_and!; auto. lia.
Qed.

(** What [malloc] does when it has been round the whole list. *)
Definition grow (fuel : nat) (n : Z) : H Z :=
  p <- morecore fuel n ;;
  if p =? 0 then ret 0 else nx <- hdr_ptr p ;; malloc_loop fuel n p nx.

Section Look.
Variables (s : heap) (N : list Z) (n : Z).
Hypothesis HL : linked (h_mem s) N base.
Hypothesis HN : NoDup N.
Hypothesis Hbase : hd 0 N = base /\ load32 (h_mem s) (base + 4) = 0 /\ 1 <= n.

Definition small (r : Z) : Prop := load32 (h_mem s) (r + 4) < n.

(** The search comes to a block that is large enough, *)
Definition hits (o : outcome heap Z) : Prop := exists L1 q r L2, N = L1 ++ q :: r :: L2 /\ n <= load32 (h_mem s) (r + 4) /\ o = take_block n q r s.

Lemma look_step fuel X q r Y : N = X ++ q :: r :: Y -> h_freep s <> r ->
  hits (malloc_loop (S fuel) n q r s) \/ small r /\ malloc_loop (S fuel) n q r s = malloc_loop fuel n r (hd base Y) s.
Proof.
  intros EN Hr. assert (Ep : load32 (h_mem s) r = hd base Y).
  { rewrite EN in HL. change (X ++ q :: r :: Y) with (X ++ [q] ++ r :: Y) in HL. rewrite app_assoc in HL. now apply linked_app in HL as [_ [E _]]. }
  cbn [malloc_loop]. rewrite (bind_ok (hdr_size r) _ s (load32 (h_mem s) (r + 4)) s eq_refl). destruct (Z.leb_spec n (load32 (h_mem s) (r + 4))) as [Hf|Hf].
  - left. exists X, q, r, Y. auto.
  - right. split; [exact Hf|]. rewrite (bind_ok (gets h_freep) _ s (h_freep s) s eq_refl). destruct (Z.eqb_spec r (h_freep s)) as [E|_]; [congruence|].
    rewrite (bind_ok (hdr_ptr r) _ s (load32 (h_mem s) r) s eq_refl). now rewrite Ep.
Qed.

(** or goes on to the end of the list, *)
Lemma look_end : forall Y X q r fuel, N = X ++ q :: r :: Y -> h_freep s ∈ X ++ [q] -> (length Y < fuel)%nat ->
  hits (malloc_loop fuel n q r s) \/
  (forall a, a ∈ r :: Y -> small a) /\ exists last, malloc_loop fuel n q r s = malloc_loop (fuel - S (length Y)) n last base s.
Proof.
  induction Y as [|y Y IH]; intros X q r fuel EN Hin Hf; (destruct fuel as [|fuel]; [lia|]);
    (assert (Hr : h_freep s <> r) by (intros <-; change (X ++ q :: h_freep s :: ?l) with (X ++ [q] ++ h_freep s :: l) in EN; rewrite app_assoc in EN; rewrite EN in HN;
       apply NoDup_app in HN as (_ & HD & _); apply (HD _ Hin), elem_of_cons; auto));
    (destruct (look_step fuel X q r _ EN Hr) as [Hh|[Hs E]]; [auto|]); cbn [hd] in E.
  - right. split; [intros a [->|Ha]%elem_of_cons; [exact Hs|now apply elem_of_nil in Ha]|]. exists r. replace (S fuel - S (length (@nil Z)))%nat with fuel by (cbn; lia). exact E.
  - rewrite E. assert (EN' : N = (X ++ [q]) ++ r :: y :: Y) by (rewrite <- app_assoc; exact EN).
    destruct (IH (X ++ [q]) r y fuel EN' ltac:(apply elem_of_app; auto) ltac:(cbn in Hf; lia)) as [Hh|[Hy (last & El)]]; [auto|]. right. split; [intros a [->|Ha]%elem_of_cons; auto|].
    exists last. replace (S fuel - S (length (y :: Y)))%nat with (fuel - S (length Y))%nat by (cbn; lia). exact El.
Qed.

(** and from its beginning to [freep]. *)
Lemma look_freep : forall Y1 X q r Y Y2 fuel, N = X ++ q :: r :: Y -> r :: Y = Y1 ++ h_freep s :: Y2 -> (length Y1 < fuel)%nat ->
  hits (malloc_loop fuel n q r s) \/
  (forall a, a ∈ Y1 ++ [h_freep s] -> small a) /\ exists f, (fuel <= f + S (length Y1))%nat /\ malloc_loop fuel n q r s = grow f n s.
Proof.
  induction Y1 as [|y Y1 IH]; intros X q r Y Y2 fuel EN EY Hf; (destruct fuel as [|fuel]; [lia|]).
  - cbn [app] in EY. injection EY as Er ->. cbn [malloc_loop]. rewrite (bind_ok (hdr_size r) _ s (load32 (h_mem s) (r + 4)) s eq_refl).
    destruct (Z.leb_spec n (load32 (h_mem s) (r + 4))) as [Hfit|Hfit]; [left; eexists X, q, r, _; eauto|]. right.
    rewrite (bind_ok (gets h_freep) _ s (h_freep s) s eq_refl), <- Er, Z.eqb_refl. cbn [app]. split; [intros a Ha; apply list_elem_of_singleton in Ha as ->; exact Hfit|].
    exists fuel. split; [cbn; lia|reflexivity].
  - cbn [app] in EY. injection EY as <- ->. assert (Er : h_freep s <> r).
    { intros E. rewrite EN in HN. apply NoDup_app in HN as (_ & _ & HN'). inversion HN' as [|? ? _ HN2]; subst. inversion HN2 as [|? ? Hni _]; subst. apply Hni, elem_of_app. right. apply elem_of_cons. auto. }
    destruct (look_step fuel X q r _ EN Er) as [Hh|[Hs E]]; [auto|]. rewrite E.
    assert (Ey : exists y Y, Y1 ++ h_freep s :: Y2 = y :: Y) by (destruct Y1; cbn; eauto). destruct Ey as (y & Y & Ey). rewrite Ey in EN |- *. cbn [hd].
    assert (EN' : N = (X ++ [q]) ++ r :: y :: Y) by (rewrite <- app_assoc; exact EN). destruct (IH (X ++ [q]) r y Y Y2 fuel EN' (eq_sym Ey) ltac:(cbn in Hf; lia)) as [Hh|[Hsm (f & Hff & El)]]; [auto|].
    right. split; [intros a Ha; cbn [app] in Ha; apply elem_of_cons in Ha as [->|Ha]; auto|]. exists f. split; [cbn; lia|exact El].
Qed.

(** From the first header, which is [base] and never large enough. *)
Lemma look_wrap X Y q fuel : N = X ++ h_freep s :: Y -> (length N < fuel)%nat ->
  hits (malloc_loop fuel n q base s) \/
  (forall a, a ∈ X ++ [h_freep s] -> small a) /\ exists f, (fuel <= f + S (length N))%nat /\ malloc_loop fuel n q base s = grow f n s.
Proof.
  intros EN Hf. destruct Hbase as (Hh & Hb0 & Hn). assert (Sb : small base) by (unfold small; lia). destruct fuel as [|fuel]; [lia|]. cbn [malloc_loop].
  rewrite (bind_ok (hdr_size base) _ s (load32 (h_mem s) (base + 4)) s eq_refl). destruct (Z.leb_spec n (load32 (h_mem s) (base + 4))) as [E|_]; [lia|].
  rewrite (bind_ok (gets h_freep) _ s (h_freep s) s eq_refl). destruct X as [|x X].
  - rewrite EN in Hh. cbn in Hh. rewrite Hh, Z.eqb_refl. right. cbn [app]. split; [intros a Ha; now apply list_elem_of_singleton in Ha as ->|]. exists fuel. split; [lia|reflexivity].
  - assert (x = base) as -> by (rewrite EN in Hh; exact Hh).
    assert (Hne : base <> h_freep s) by (intros E; rewrite EN in HN; cbn in HN; inversion HN as [|? ? Hni _]; subst; apply Hni, elem_of_app; right; apply elem_of_cons; auto).
    destruct (Z.eqb_spec base (h_freep s)); [contradiction|]. assert (Ey : exists y Z, X ++ h_freep s :: Y = y :: Z) by (destruct X; cbn; eauto). destruct Ey as (y & Z & Ey).
    assert (EN' : N = [] ++ base :: y :: Z) by (rewrite EN; cbn; now rewrite Ey). assert (Ep : load32 (h_mem s) base = y) by (rewrite EN' in HL; apply HL).
    rewrite (bind_ok (hdr_ptr base) _ s (load32 (h_mem s) base) s eq_refl), Ep. assert (Hl : (length N = S (length X + S (length Y)))%nat) by (rewrite EN; cbn; now rewrite length_app).
    destruct (look_freep X [] base y Z Y fuel EN' (eq_sym Ey) ltac:(lia)) as [Hh'|[Hsm (f & Hff & El)]]; [auto|]. right. split; [intros a Ha; cbn [app] in Ha; apply elem_of_cons in Ha as [->|Ha]; auto|].
    exists f. split; [lia|exact El].
Qed.

Lemma look fuel : h_freep s ∈ N -> (2 * length N < fuel)%nat ->
  hits (malloc_loop fuel n (h_freep s) (load32 (h_mem s) (h_freep s)) s) \/
  (forall a, a ∈ N -> small a) /\ exists f, (fuel <= f + 2 * length N)%nat /\ malloc_loop fuel n (h_freep s) (load32 (h_mem s) (h_freep s)) s = grow f n s.
Proof.
  intros Hin Hf. apply list_elem_of_split in Hin as (X & Y & EN). assert (Hl : (length N = length X + S (length Y))%nat) by (rewrite EN, length_app; reflexivity).
  assert (Ep : load32 (h_mem s) (h_freep s) = hd base Y) by (rewrite EN in HL; now apply linked_app in HL as [_ [E _]]). rewrite Ep.
  assert (Hall : (forall a, a ∈ X ++ [h_freep s] -> small a) -> (forall a, a ∈ Y -> small a) -> forall a, a ∈ N -> small a).
  { intros H1 H2 a Ha. rewrite EN in Ha. change (h_freep s :: Y) with ([h_freep s] ++ Y) in Ha. rewrite app_assoc in Ha. apply elem_of_app in Ha as [Ha|Ha]; auto. }
  destruct Y as [|r Y]; cbn [hd].
  - destruct (look_wrap X [] (h_freep s) fuel EN ltac:(lia)) as [Hh|[Hsm (f & Hff & El)]]; [auto|]. right. split; [apply Hall; auto; intros a Ha; now apply elem_of_nil in Ha|]. exists f. split; [cbn in Hl; lia|exact El].
  - cbn [length] in Hl. destruct (look_end Y X (h_freep s) r fuel EN ltac:(apply elem_of_app; right; apply elem_of_cons; auto) ltac:(lia)) as [Hh|[Hsm (last & El)]]; [auto|]. rewrite El.
    destruct (look_wrap X (r :: Y) last (fuel - S (length Y)) EN ltac:(lia)) as [Hh|[Hsm2 (f & Hff & El2)]]; [auto|]. right. split; [now apply Hall|]. exists f. split; [lia|exact El2].
Qed.
End Look.

Lemma frees_length bs : forall a, (length (frees a bs) <= length bs)%nat.
Proof. induction bs as [|[u f] bs IH]; intros a; cbn; [lia|]. specialize (IH (a + 8 * u)). destruct f; cbn; lia. Qed.

Lemma keeps_trans m1 m2 m3 l : keeps_data m1 m2 l -> keeps_data m2 m3 l -> keeps_data m1 m3 l.
Proof. intros H1 H2 a u x Hin Hx. rewrite (H2 a u x Hin Hx). eauto. Qed.

(** New memory from [sbrk], as a used block. *)
Lemma sbrk_block lo s bs nu : heap_ok lo s bs -> 1 <= nu -> h_brk s + 8 * nu <= limit ->
  heap_ok lo (mkHeap (store32 (h_mem s) (h_brk s + 4) nu) (h_freep s) (h_brk s + 8 * nu)) (bs ++ [(nu, false)]).
Proof.
  intros [Hb HU (E & Hl & H31) HJ [HS Hs0] HL Hfp] Hn Hlim. pose proof (span_nonneg bs HU). assert (Esp : span [(nu, false)] = 8 * nu) by (unfold span; cbn; lia).
  constructor; cbn [h_mem h_freep h_brk]; auto.
  - apply Forall_app. split; [exact HU|repeat constructor; cbn; lia].
  - rewrite span_app, Esp. lia.
  - apply joined_used; [exact HJ|exact I].
  - split; [|rewrite load32_store32_ne by lia; exact Hs0]. apply sized_app. split; [apply sized_above; auto; lia|]. rewrite <- E. cbn [sized]. split; [|exact I].
    rewrite load32_store32_eq. apply u32_small. unfold two31, two32 in *. lia.
  - rewrite frees_app. cbn [frees]. rewrite app_nil_r. apply linked_frame; [|exact HL]. intros a [->|Ha]%elem_of_cons; [lia|]. apply frees_range in Ha; auto. lia.
  - rewrite frees_app. cbn [frees]. now rewrite app_nil_r.
Qed.

Lemma morecore_ok lo s bs n fuel : heap_ok lo s bs -> 1 <= n -> 8 * n < two31 -> (2 * length bs + 4 < fuel)%nat ->
  let nu := if n <? 4096 then 4096 else n in
  (limit < h_brk s + 8 * nu /\ morecore fuel n s = Ok 0 s) \/
  exists s' bs', morecore fuel n s = Ok (h_freep s') s' /\ heap_ok lo s' bs' /\ used lo bs' = used lo bs /\ keeps_data (h_mem s) (h_mem s') (used lo bs) /\
    (exists A w B, bs' = A ++ (w, true) :: B /\ nu <= w) /\ (length bs' <= S (length bs))%nat.
Proof.
  intros Hok Hn H31 Hf nu. assert (Hnu : 1 <= nu /\ n <= nu /\ 8 * nu < two31) by (subst nu; destruct (Z.ltb_spec n 4096); unfold two31 in *; lia). unfold morecore. fold nu.
  rewrite (u32_small (nu * 8)), (s32_small (nu * 8)) by (unfold two31, two32 in *; lia). unfold sbrk. rewrite bind_assoc, (bind_ok (gets h_brk) _ s (h_brk s) s eq_refl).
  rewrite (proj2 (Z.leb_le 0 (nu * 8))) by lia. cbn [andb]. pose proof Hok as [Hb HU (E & Hl & _) _ _ _ _]. pose proof (span_nonneg bs HU). destruct (Z.leb_spec (h_brk s + nu * 8) limit) as [Hlim|Hlim].
  - right. pose proof (sbrk_block lo s bs nu Hok ltac:(lia) ltac:(lia)) as H1. set (s1 := mkHeap (store32 (h_mem s) (h_brk s + 4) nu) (h_freep s) (h_brk s + 8 * nu)) in *.
    destruct (ufree_ok lo s1 bs nu [] fuel H1) as (s2 & bs2 & E2 & [R1 R2 R3 [R4 R6] R5]).
    { rewrite frees_app. cbn [frees]. rewrite app_nil_r. pose proof (frees_length bs lo). cbn [length]. lia. }
    exists s2, bs2. cbn [used] in R2, R5. rewrite app_nil_r in R2, R5. rewrite length_app in R6. cbn [length] in R6. split_and!; auto; [| |lia].
    + unfold bind, modify, ret, set_hdr_size, gets. rewrite (proj2 (Z.eqb_neq (h_brk s) (-1))) by lia. cbn [h_mem h_freep h_brk]. replace (h_brk s + nu * 8) with (h_brk s + 8 * nu) by lia.
      unfold modify. cbn [h_mem h_freep h_brk]. fold s1. rewrite <- E in E2. rewrite E2. reflexivity.
    + apply (keeps_trans _ (h_mem s1)); [|exact R5]. intros a u x Hin Hx. apply used_range in Hin; auto. cbn. rewrite store32_frame by lia. reflexivity.
  - left. split; [lia|reflexivity].
Qed.


Lemma nodes_nodup lo s bs : heap_ok lo s bs -> NoDup (base :: frees lo bs).
Proof.
  intros Hok. pose proof (nodes_sorted lo s bs Hok) as SS. revert SS. generalize (base :: frees lo bs). induction l as [|a l IH]; intros SS; [constructor|].
  inversion SS as [|? ? SS' Hf]; subst. constructor; [|auto]. intros Hin. rewrite Forall_forall in Hf. specialize (Hf a Hin). lia.
Qed.

Lemma look_heap lo s bs n fuel : heap_ok lo s bs -> 1 <= n -> (2 * length bs + 2 < fuel)%nat ->
  (exists s' a bs', malloc_loop fuel n (h_freep s) (load32 (h_mem s) (h_freep s)) s = Ok (a + 8) s' /\ allocated lo s s' bs bs' a n /\ lo <= a) \/
  (forall A w B, bs = A ++ (w, true) :: B -> w < n) /\ exists f, (fuel <= f + 2 * length bs + 2)%nat /\ malloc_loop fuel n (h_freep s) (load32 (h_mem s) (h_freep s)) s = grow f n s.
Proof.
  intros Hok Hn Hf. pose proof Hok as [Hb HU _ _ [HS Hs0] HL Hfp]. pose proof (frees_length bs lo) as Hfl.
  destruct (look s (base :: frees lo bs) n HL (nodes_nodup lo s bs Hok) ltac:(auto) fuel Hfp ltac:(cbn; lia)) as [(L1 & q & r & L2 & EN & Hfit & E)|[Hsm (f & Hff & E)]].
  - left. rewrite E. exact (take_ok lo s bs n q r L1 L2 Hok Hn EN Hfit).
  - right. split; [|exists f; split; [cbn in Hff; lia|exact E]]. intros A w B ->. apply sized_app in HS as [_ [Sw _]]. specialize (Hsm (lo + span A)). unfold small in Hsm. rewrite Sw in Hsm.
    apply Hsm, elem_of_cons. right. rewrite frees_app. apply elem_of_app. right. cbn [frees]. apply elem_of_cons. auto.
Qed.

(** [malloc] on a heap that has been set up. *)
Lemma malloc_loop_ok lo s bs n fuel : heap_ok lo s bs -> 1 <= n -> 8 * n < two31 -> (4 * length bs + 12 < fuel)%nat ->
  let nu := if n <? 4096 then 4096 else n in
  (malloc_loop fuel n (h_freep s) (load32 (h_mem s) (h_freep s)) s = Ok 0 s /\ (forall A w B, bs = A ++ (w, true) :: B -> w < n) /\ limit < h_brk s + 8 * nu) \/
  exists s' a bs', malloc_loop fuel n (h_freep s) (load32 (h_mem s) (h_freep s)) s = Ok (a + 8) s' /\ heap_ok lo s' bs' /\ used lo bs' ≡ₚ (a, n) :: used lo bs /\
    keeps_data (h_mem s) (h_mem s') (used lo bs) /\ lo <= a /\ (length bs' <= length bs + 2)%nat.
Proof.
  intros Hok Hn H31 Hf nu. destruct (look_heap lo s bs n fuel Hok Hn ltac:(lia)) as [(s' & a & bs' & E & [R1 R2 R3 R4] & Ha)|[Hsm (f & Hff & E)]].
  - right. exists s', a, bs'. split_and!; auto. lia.
  - rewrite E. unfold grow. destruct (morecore_ok lo s bs n f Hok Hn H31 ltac:(lia)) as [[Hlim E1]|(s1 & bs1 & E1 & Ok1 & U1 & D1 & (A & w & B & EB & Hw) & Hl1)].
    + left. rewrite (bind_ok _ _ _ _ _ E1). auto.
    + right. rewrite (bind_ok _ _ _ _ _ E1). pose proof Ok1 as [Hb HU _ _ _ _ Hfp1]. assert (Hpos : h_freep s1 <> 0).
      { apply elem_of_cons in Hfp1 as [->|Hin]; [lia|]. apply frees_range in Hin; auto. lia. }
      destruct (Z.eqb_spec (h_freep s1) 0); [contradiction|]. rewrite (bind_ok (hdr_ptr (h_freep s1)) _ s1 (load32 (h_mem s1) (h_freep s1)) s1 eq_refl).
      destruct (look_heap lo s1 bs1 n f Ok1 Hn ltac:(lia)) as [(s' & a & bs' & E2 & [R1 R2 R3 R4] & Ha)|[Hsm1 _]].
      * exists s', a, bs'. rewrite U1 in R2, R3. split_and!; auto; [eauto using keeps_trans|lia].
      * exfalso. specialize (Hsm1 A w B EB). subst nu. destruct (Z.ltb_spec n 4096); lia.
Qed.


(** The heap, also before the first call of [malloc]. *)
Definition heap_inv (lo : Z) (s : heap) (bs : blocks) : Prop :=
  heap_ok lo s bs \/
  bs = [] /\ h_freep s = 0 /\ h_brk s = lo /\ 0 < base /\ base + 8 <= lo /\ lo <= limit /\ limit < two31.

Lemma units_ok nbytes : 0 <= nbytes < two31 - 16 -> 1 <= units nbytes /\ 8 * units nbytes < two31 /\ nbytes <= 8 * (units nbytes - 1).
Proof.
  intros H. unfold units. rewrite (u32_small (nbytes + 8 - 1)) by (unfold two31, two32 in *; lia).
  pose proof (Z.div_mod (nbytes + 8 - 1) 8 ltac:(lia)). pose proof (Z.mod_pos_bound (nbytes + 8 - 1) 8 ltac:(lia)). rewrite u32_small by (unfold two31, two32 in *; lia). unfold two31 in *. lia.
Qed.

(** A call of [malloc] that succeeds, and one that fails: no free block is large
    enough, and [sbrk] has reached the limit. *)
Lemma malloc_ok lo s bs nbytes fuel : heap_inv lo s bs -> 0 <= nbytes < two31 - 16 -> (4 * length bs + 12 < fuel)%nat ->
  let n := units nbytes in
  exists r s' bs', malloc fuel nbytes s = Ok r s' /\ heap_inv lo s' bs' /\ keeps_data (h_mem s) (h_mem s') (used lo bs) /\ (length bs' <= length bs + 2)%nat /\
  (r = 0 /\ bs' = bs /\ (forall A w B, bs = A ++ (w, true) :: B -> w < n) /\ limit < h_brk s + 8 * (if n <? 4096 then 4096 else n) \/
   lo <= r - 8 /\ used lo bs' ≡ₚ (r - 8, n) :: used lo bs).
Proof.
  intros Hinv Hnb Hf n. destruct (units_ok nbytes Hnb) as (Hn & H31 & _). fold n in Hn, H31.
  assert (Hready : exists s1, (fp <- gets h_freep ;; (if fp =? 0 then set_freep base ;;; set_hdr_ptr base base ;;; set_hdr_size base 0 else ret tt)) s = Ok tt s1 /\
            heap_ok lo s1 bs /\ keeps_data (h_mem s) (h_mem s1) (used lo bs) /\ h_brk s1 = h_brk s).
  { rewrite (bind_ok (gets h_freep) _ s (h_freep s) s eq_refl). destruct Hinv as [Hok|(-> & Hfp & Ebrk & Hb0 & Hb8 & Hlo & Hlim)].
    - exists s. assert (h_freep s <> 0); [|destruct (Z.eqb_spec (h_freep s) 0); [contradiction|split_and!; auto; easy]].
      destruct Hok as [Hb HU _ _ _ _ Hin]. apply elem_of_cons in Hin as [->|Hin]; [lia|]. apply frees_range in Hin; auto. lia.
    - rewrite Hfp. eexists. split; [reflexivity|]. cbn [h_mem h_freep h_brk]. split; [|split; [intros a u x Hin; now apply elem_of_nil in Hin|reflexivity]].
      constructor; cbn [h_mem h_freep h_brk sized frees linked hd joined]; auto.
      + unfold span. cbn. lia.
      + split; [exact I|]. now rewrite load32_store32_eq.
      + split; [|exact I]. rewrite load32_store32_ne, load32_store32_eq by lia. apply u32_small. unfold two31, two32 in *. lia.
      + apply elem_of_cons. auto. }
  destruct Hready as (s1 & E1 & Hok1 & D1 & B1). unfold malloc. fold n.
  assert (EM : forall k : unit -> M heap Z, (fp <- gets h_freep ;; (if fp =? 0 then set_freep base ;;; set_hdr_ptr base base ;;; set_hdr_size base 0 else ret tt) ;;; k tt) s = k tt s1).
  { intros k. unfold bind at 1 in E1. unfold bind at 1. unfold gets in *. now rewrite (bind_ok _ _ _ _ _ E1). }
  rewrite (EM (fun _ => prevp <- gets h_freep ;; p <- hdr_ptr prevp ;; malloc_loop fuel n prevp p)), (bind_ok (gets h_freep) _ s1 (h_freep s1) s1 eq_refl).
  rewrite (bind_ok (hdr_ptr (h_freep s1)) _ s1 (load32 (h_mem s1) (h_freep s1)) s1 eq_refl).
  destruct (malloc_loop_ok lo s1 bs n fuel Hok1 Hn H31 Hf) as [(E2 & Hsm & Hlim)|(s2 & a & bs' & E2 & Ok2 & U2 & D2 & Ha & Hl)].
  - exists 0, s1, bs. rewrite E2. split_and!; auto; [now left|lia|]. left. rewrite <- B1. auto.
  - exists (a + 8), s2, bs'. rewrite E2. replace (a + 8 - 8) with a by lia. split_and!; auto; [now left|eauto using keeps_trans].
Qed.

Lemma used_split bs : forall a x u, (x, u) ∈ used a bs -> exists A B, bs = A ++ (u, false) :: B /\ x = a + span A.
Proof.
  induction bs as [|[v f] bs IH]; intros a x u Hx; [now apply elem_of_nil in Hx|]. cbn [used] in Hx.
  assert (Hrec : (x, u) ∈ used (a + 8 * v) bs -> exists A B, (v, f) :: bs = A ++ (u, false) :: B /\ x = a + span A).
  { intros H. destruct (IH _ _ _ H) as (A & B & -> & ->). exists ((v, f) :: A), B. split; [reflexivity|]. rewrite span_cons. lia. }
  destruct f; [auto|]. apply elem_of_cons in Hx as [E|Hx]; [|auto]. injection E as -> ->. exists [], bs. split; [reflexivity|]. unfold span. cbn. lia.
Qed.

Lemma free_ok lo s bs a u fuel : heap_inv lo s bs -> (a, u) ∈ used lo bs -> (2 * length bs + 2 < fuel)%nat ->
  exists s' bs', ufree fuel (a + 8) s = Ok tt s' /\ heap_inv lo s' bs' /\ used lo bs ≡ₚ (a, u) :: used lo bs' /\ keeps_data (h_mem s) (h_mem s') (used lo bs') /\
    (length bs' <= length bs)%nat.
Proof.
  intros Hinv Hin Hf. destruct (used_split _ _ _ _ Hin) as (A & B & -> & ->). destruct Hinv as [Hok|[E _]]; [|now destruct A].
  pose proof (frees_length (A ++ (u, false) :: B) lo). destruct (ufree_ok lo s A u B fuel Hok ltac:(cbn [length]; lia)) as (s' & bs' & E & [R1 R2 R3 [_ R6] R5]).
  exists s', bs'. rewrite R2. split_and!; auto; [now left|]. rewrite used_app. cbn [used]. symmetry. apply Permutation_middle.
Qed.

(** Distinct used blocks are apart. *)
Lemma used_apart bs : forall a x u y v, Forall (fun b => 1 <= fst b) bs -> (x, u) ∈ used a bs -> (y, v) ∈ used a bs -> (x, u) <> (y, v) -> x + 8 * u <= y \/ y + 8 * v <= x.
Proof.
  induction bs as [|[w f] bs IH]; intros a x u y v HU Hx Hy Hne; [now apply elem_of_nil in Hx|]. inversion HU as [|? ? Hw HU']; subst. cbn in Hw. cbn [used] in Hx, Hy. destruct f; [eauto|].
  apply elem_of_cons in Hx as [Ex|Hx], Hy as [Ey|Hy]; [congruence| | |eauto].
  - injection Ex as -> ->. apply used_range in Hy; auto. lia.
  - injection Ey as -> ->. apply used_range in Hx; auto. lia.
Qed.

Lemma used_nodup bs : forall a, Forall (fun b => 1 <= fst b) bs -> NoDup (used a bs).
Proof.
  induction bs as [|[w f] bs IH]; intros a HU; cbn [used]; [constructor|]. inversion HU as [|? ? Hw HU']; subst. cbn in Hw. destruct f; [auto|]. constructor; [|auto].
  intros Hin. apply used_range in Hin; auto. lia.
Qed.

(** The program writes to a block it has. *)
Lemma poke_ok lo s bs a u x v : heap_inv lo s bs -> (a, u) ∈ used lo bs -> a + 8 <= x < a + 8 * u -> heap_inv lo (mkHeap (store8 (h_mem s) x v) (h_freep s) (h_brk s)) bs.
Proof.
  intros Hinv Hin Hx. destruct (used_split _ _ _ _ Hin) as (A & B & -> & ->). destruct Hinv as [Hok|[E _]]; [|now destruct A]. left.
  destruct Hok as [Hb HU Hbrk HJ [HS Hs0] HL Hfp]. pose proof HU as HU'. apply Forall_app in HU' as [HA HB]. apply Forall_cons in HB as [Hu HB]. cbn in Hu. pose proof (span_nonneg A HA).
  set (m' := store8 (h_mem s) x v). assert (Out : forall y, y <> x -> m' y = h_mem s y) by (intros y Hy; apply load8_store8_ne; exact Hy).
  constructor; cbn [h_mem h_freep h_brk]; auto.
  - split; [|rewrite (load32_ext m' (h_mem s)) by (intros; apply Out; lia); exact Hs0]. apply sized_app in HS as [SA [Su SB]]. apply sized_app. cbn [sized]. split_and!.
    + apply sized_frame with (h_mem s); auto. intros; apply Out; lia.
    + rewrite (load32_ext m' (h_mem s)) by (intros; apply Out; lia). exact Su.
    + apply sized_frame with (h_mem s); auto. intros; apply Out; lia.
  - apply linked_ext with (h_mem s); [|exact HL]. intros b y Hb' Hy. apply Out. rewrite frees_app in Hb'. cbn [frees] in Hb'.
    apply elem_of_cons in Hb' as [->|Hb']; [lia|]. apply elem_of_app in Hb' as [Hb'|Hb']; apply frees_range in Hb'; auto; lia.
Qed.


(** ** Programs that use the allocator *)

(** A call of [malloc], of [free] for the [k]-th block the program has, or a store
    of a byte into it. *)
Inductive op :=
| Malloc (nbytes : Z)
| Free (k : nat)
| Poke (k : nat) (i v : Z).

(** A block of the program: its header, its units, and the bytes that were stored. *)
Record live := mkLive { l_addr : Z; l_units : Z; l_bytes : Z -> option Z }.

Fixpoint session (fuel : nat) (ops : list op) (ls : list live) : H (list live) :=
  match ops with
  | [] => ret ls
  | Malloc nbytes :: ops =>
      r <- malloc fuel nbytes ;;
      if r =? 0 then session fuel ops ls else session fuel ops (ls ++ [mkLive (r - 8) (units nbytes) (fun _ => None)])
  | Free k :: ops =>
      match ls !! k with
      | None => session fuel ops ls
      | Some b => ufree fuel (l_addr b + 8) ;;; session fuel ops (delete k ls)
      end
  | Poke k i v :: ops =>
      match ls !! k with
      | None => session fuel ops ls
      | Some b =>
          if (0 <=? i) && (i <? 8 * (l_units b - 1)) then
            modify (fun s => mkHeap (store8 (h_mem s) (l_addr b + 8 + i) v) (h_freep s) (h_brk s)) ;;;
            session fuel ops (<[k := mkLive (l_addr b) (l_units b) (fun j => if j =? i then Some (u8 v) else l_bytes b j)]> ls)
          else session fuel ops ls
      end
  end.

Definition op_ok (o : op) : Prop := match o with Malloc nbytes => 0 <= nbytes < two31 - 16 | _ => True end.

Definition place (b : live) : Z * Z := (l_addr b, l_units b).

(** The blocks of the program are the used blocks of the heap, and hold the bytes
    that were stored. *)
Definition holds (m : mem) (b : live) : Prop := forall i v, l_bytes b i = Some v -> 0 <= i < 8 * (l_units b - 1) /\ m (l_addr b + 8 + i) = v.
Definition lives (lo : Z) (s : heap) (bs : blocks) (ls : list live) : Prop := used lo bs ≡ₚ map place ls /\ Forall (holds (h_mem s)) ls.

Lemma holds_kept m m' l ls : keeps_data m m' l -> (forall b, b ∈ ls -> place b ∈ l) -> Forall (holds m) ls -> Forall (holds m') ls.
Proof.
  intros K Hin Hh. rewrite Forall_forall in *. intros b Hb i v E. destruct (Hh b Hb i v E) as [Hi Hv]. split; [exact Hi|]. rewrite <- Hv.
  apply (K (l_addr b) (l_units b)); [exact (Hin b Hb)|lia].
Qed.

Lemma place_elem b ls : b ∈ ls -> place b ∈ map place ls.
Proof. intros H. apply list_elem_of_In, in_map, list_elem_of_In, H. Qed.

Lemma map_delete ls : forall k b, ls !! k = Some b -> map place ls ≡ₚ place b :: map place (delete k ls).
Proof.
  induction ls as [|c ls IH]; intros [|k] b E; try discriminate; cbn in *; [now injection E as ->|].
  rewrite (IH k b E). apply Permutation_swap.
Qed.

Lemma inv_units lo s bs : heap_inv lo s bs -> Forall (fun b => 1 <= fst b) bs.
Proof. intros [Hok|(-> & _)]; [apply Hok|constructor]. Qed.

(** A store into one block leaves the bytes of the others. *)
Lemma poke_holds lo s bs ls k b i v : heap_inv lo s bs -> used lo bs ≡ₚ map place ls -> Forall (holds (h_mem s)) ls -> ls !! k = Some b -> 0 <= i -> i < 8 * (l_units b - 1) ->
  Forall (holds (store8 (h_mem s) (l_addr b + 8 + i) v)) (<[k := mkLive (l_addr b) (l_units b) (fun j => if j =? i then Some (u8 v) else l_bytes b j)]> ls).
Proof.
  intros Hinv HU HH Ek Hi0 Hi. pose proof (inv_units _ _ _ Hinv) as Hun. assert (ND : NoDup (map place ls)) by (rewrite <- HU; now apply used_nodup).
  rewrite Forall_lookup in HH |- *. intros j c Ec. destruct (Nat.eq_dec k j) as [<-|Hj].
  - rewrite list_lookup_insert_eq in Ec by now apply lookup_lt_Some in Ek. injection Ec as <-. intros j w E. cbn [l_addr l_units l_bytes] in *. destruct (Z.eqb_spec j i) as [->|Hji].
    + injection E as <-. split; [lia|apply load8_store8_eq].
    + destruct (HH k b Ek j w E) as [Hr Hw]. split; [exact Hr|]. rewrite load8_store8_ne by lia. exact Hw.
  - rewrite list_lookup_insert_ne in Ec by exact Hj. intros j' w E. destruct (HH j c Ec j' w E) as [Hr Hw]. split; [exact Hr|]. rewrite load8_store8_ne; [exact Hw|].
    assert (Hne : place c <> place b).
    { intros Ep. apply Hj. apply (NoDup_lookup (map place ls) k j (place b) ND); [now rewrite list_lookup_fmap, Ek|]. now rewrite list_lookup_fmap, Ec, <- Ep. }
    destruct (used_apart bs lo (l_addr c) (l_units c) (l_addr b) (l_units b) Hun) as [A|A]; try exact Hne; try lia; rewrite HU;
      [apply (place_elem c), (list_elem_of_lookup_2 _ _ _ Ec)|apply (place_elem b), (list_elem_of_lookup_2 _ _ _ Ek)].
Qed.

Lemma session_ok lo fuel ops : forall s bs ls, heap_inv lo s bs -> lives lo s bs ls -> Forall op_ok ops -> (8 * length ops + 4 * length bs + 12 < fuel)%nat ->
  exists ls' s' bs', session fuel ops ls s = Ok ls' s' /\ heap_inv lo s' bs' /\ lives lo s' bs' ls'.
Proof.
  induction ops as [|o ops IH]; intros s bs ls Hinv [HU HH] Hops Hf; [exists ls, s, bs; split_and!; auto; split; auto|]. inversion Hops as [|? ? Ho Hops']; subst. cbn [length] in Hf.
  destruct o as [nbytes|k|k i v]; cbn [session].
  - destruct (malloc_ok lo s bs nbytes fuel Hinv Ho ltac:(lia)) as (r & s1 & bs1 & E & Hinv1 & K & Hl & Hr). rewrite (bind_ok _ _ _ _ _ E).
    assert (HH1 : Forall (holds (h_mem s1)) ls) by (apply (holds_kept _ _ _ _ K); auto; intros b Hb; rewrite HU; now apply place_elem).
    destruct Hr as [(-> & -> & _)|(Hlo & U1)]; [apply (IH s1 bs); auto; [split; auto|lia]|].
    assert (Hr0 : r <> 0) by (destruct Hinv as [[? _ _ _ _ _ _]|(_ & _ & _ & ? & ? & _)]; lia). destruct (Z.eqb_spec r 0); [contradiction|].
    apply (IH s1 bs1); auto; [|lia]. split; [rewrite map_app; cbn [map]; rewrite U1, HU; apply Permutation_cons_append|].
    apply Forall_app. split; [exact HH1|]. constructor; [|constructor]. intros j w X. discriminate.
  - destruct (ls !! k) as [b|] eqn:Ek; [|apply (IH s bs); auto; [split; auto|lia]]. pose proof (map_delete ls k b Ek) as Hd.
    assert (Hin : (l_addr b, l_units b) ∈ used lo bs) by (rewrite HU; apply (place_elem b), (list_elem_of_lookup_2 _ _ _ Ek)).
    destruct (free_ok lo s bs (l_addr b) (l_units b) fuel Hinv Hin ltac:(lia)) as (s1 & bs1 & E & Hinv1 & U1 & K & Hl). rewrite (bind_ok _ _ _ _ _ E).
    assert (U2 : used lo bs1 ≡ₚ map place (delete k ls)) by (apply (Permutation_cons_inv (a := place b)); rewrite <- Hd, <- HU; now symmetry).
    apply (IH s1 bs1); auto; [|lia]. split; [exact U2|]. apply (holds_kept _ _ _ _ K); [intros c Hc; rewrite U2; now apply place_elem|now apply Forall_delete].
  - destruct (ls !! k) as [b|] eqn:Ek; [|apply (IH s bs); auto; [split; auto|lia]]. destruct ((0 <=? i) && _) eqn:Ei; [|apply (IH s bs); auto; [split; auto|lia]]. bool_prop.
    assert (Hb : b ∈ ls) by (apply (list_elem_of_lookup_2 _ _ _ Ek)). assert (Hin : (l_addr b, l_units b) ∈ used lo bs) by (rewrite HU; now apply (place_elem b)).
    set (s1 := mkHeap (store8 (h_mem s) (l_addr b + 8 + i) v) (h_freep s) (h_brk s)). set (b1 := mkLive (l_addr b) (l_units b) _).
    match goal with |- exists ls' s' bs', bind (modify ?f) ?k s = _ /\ _ => change (bind (modify f) k s) with (k tt s1) end. cbv beta.
    apply (IH s1 bs); auto; [|split|lia]; [apply (poke_ok lo s bs (l_addr b) (l_units b)); auto; lia| |].
    + rewrite HU. replace (map place (<[k := b1]> ls)) with (map place ls); [reflexivity|]. rewrite list_fmap_insert. symmetry. apply list_insert_id. now rewrite list_lookup_fmap, Ek.
    + now apply (poke_holds lo s bs).
Qed.



End Umalloc.


(** A request of almost 2^32 bytes wraps around to the smallest block. *)
Lemma malloc_wraps : exists s', malloc 0x1000 0x100000 60 0xffffffff (mkHeap (fun _ => 0) 0 0x2000) = Ok 0xa000 s' /\ h_brk s' = 0xa000.
Proof. eexists. split; vm_compute; reflexivity. Qed.
