(* ===== verification/Mkfs.v ===== *)
(** [src/xv6/xv6-public/mkfs.c], the host program that builds the first image of
    the file system: the super block, an empty log, the inodes, the bitmap, one file
    per argument and the root directory that names them.

    The image is a map from sectors to blocks with its length in sectors; reading a
    sector past the end fails, as does a failed assertion or an argument that cannot
    be opened ([Panic], for [exit(1)] and [abort]).  What [mkfs] reads from the host
    is a parameter: for each name the pieces that [read] returns.  The theorem says
    that the image is one on which the kernel's theorems start: its log is
    consistent, its bitmap marks exactly the blocks in use, and each file has its
    bytes, in blocks of its own. *)

From stdpp Require Import gmap.
From S2P Require Import Prelude Mem Block Bio Log Txn Fs Balloc Inode Icache Syscall Sysfile Dir.

(** ** The program *)

Definition NINODES : Z := 200.
Definition nbitmap : Z := FSSIZE / (BSIZE * 8) + 1.
Definition ninodeblocks : Z := NINODES / IPB + 1.
Definition nlog : Z := LOGSIZE.
Definition nmeta : Z := 2 + nlog + ninodeblocks + nbitmap.
Definition sb0 : superblock := mkSb FSSIZE (FSSIZE - nmeta) NINODES nlog 2 (2 + nlog) (2 + nlog + ninodeblocks).

(** The image file and the two counters. *)
Record mkfs := mkK { k_img : Z -> block; k_sectors : Z; k_freeinode : Z; k_freeblock : Z }.

Definition mkfs0 : mkfs := mkK (fun _ _ => 0) 0 1 0.

Definition zeroes : block := fun _ => 0.

(** The offset [sec * BSIZE] is an [uint]. *)
Definition sector (sec : Z) : Z := u32 (sec * BSIZE) / BSIZE.

Definition wsect (sec : Z) (buf : block) : M mkfs unit :=
  modify (fun s => mkK (upd (k_img s) (sector sec) buf) (Z.max (k_sectors s) (sector sec + 1)) (k_freeinode s) (k_freeblock s)).

Definition rsect (sec : Z) : M mkfs block :=
  n <- gets k_sectors ;; if sector sec <? n then gets (fun s => k_img s (sector sec)) else panic "read".

(** A [struct dinode] is the part of an [inode] that is on the disk. *)
Definition dinode0 : inode := mkInode 0 0 0 (Bio.mkSleep 0 0) 0 0 0 0 0 0 (fun _ => 0).

Definition winode (inum : Z) (din : inode) : M mkfs unit :=
  let bn := IBLOCK inum sb0 in
  buf <- rsect bn ;; wsect bn (print_dinode din buf (64 * (inum mod IPB))).

Definition rinode (inum : Z) : M mkfs inode :=
  let bn := IBLOCK inum sb0 in
  buf <- rsect bn ;; ret (parse_dinode buf (64 * (inum mod IPB)) dinode0).

Definition ialloc (type : Z) : M mkfs Z :=
  inum <- gets k_freeinode ;;
  modify (fun s => mkK (k_img s) (k_sectors s) (u32 (k_freeinode s + 1)) (k_freeblock s)) ;;;
  winode inum (with_size 0 (with_nlink 1 (with_type type dinode0))) ;;;
  ret inum.

(** The loop of [balloc] over the bits of the blocks in use. *)
Fixpoint set_bits (k : nat) (i : Z) (buf : block) : block :=
  match k with
  | O => buf
  | S k => set_bits k (i + 1) (store8 buf (i / 8) (Z.lor (buf (i / 8)) (Z.shiftl 1 (i mod 8))))
  end.

Definition balloc (used : Z) : M mkfs unit :=
  if used <? BSIZE * 8 then wsect (sb_bmapstart sb0) (set_bits (Z.to_nat used) 0 zeroes) else panic "assert".

(** [freeblock++]. *)
Definition newblock : M mkfs Z :=
  x <- gets k_freeblock ;;
  modify (fun s => mkK (k_img s) (k_sectors s) (k_freeinode s) (u32 (k_freeblock s + 1))) ;;;
  ret x.

(** The block at index [fbn] of the file [din], allocated if there is none. *)
Definition iappend_block (din : inode) (fbn : Z) : M mkfs (Z * inode) :=
  if fbn <? NDIRECT then
    din <- (if i_addrs din fbn =? 0 then x <- newblock ;; ret (with_addrs (upd (i_addrs din) fbn x) din) else ret din) ;;
    ret (i_addrs din fbn, din)
  else
    din <- (if i_addrs din NDIRECT =? 0 then x <- newblock ;; ret (with_addrs (upd (i_addrs din) NDIRECT x) din) else ret din) ;;
    indirect <- rsect (i_addrs din NDIRECT) ;;
    indirect <- (if load32 indirect (4 * (fbn - NDIRECT)) =? 0 then
        x <- newblock ;;
        let indirect := store32 indirect (4 * (fbn - NDIRECT)) x in
        wsect (i_addrs din NDIRECT) indirect ;;; ret indirect
      else ret indirect) ;;
    ret (load32 indirect (4 * (fbn - NDIRECT)), din).

(** The loop of [iappend]: [k] bytes of [p] are written, [n] are left. *)
Fixpoint iappend_loop (fuel : nat) (din : inode) (p : Z -> Z) (k off n : Z) : M mkfs (inode * Z) :=
  match fuel with
  | O => nofuel
  | S fuel =>
      if 0 <? n then
        let fbn := off / BSIZE in
        if fbn <? MAXFILE then
          r <- iappend_block din fbn ;;
          let n1 := Z.min n ((fbn + 1) * BSIZE - off) in
          buf <- rsect (fst r) ;;
          let o := off - fbn * BSIZE in
          wsect (fst r) (fun i => if (o <=? i) && (i <? o + n1) then p (k + (i - o)) else buf i) ;;;
          iappend_loop fuel (snd r) p (k + n1) (u32 (off + n1)) (n - n1)
        else panic "assert"
      else ret (din, off)
  end.

Definition iappend (inum : Z) (p : Z -> Z) (n : Z) : M mkfs unit :=
  din <- rinode inum ;;
  r <- iappend_loop (Z.to_nat n + 1) din p 0 (i_size din) n ;;
  winode inum (with_size (snd r) (fst r)).

(** A directory entry in a cleared [struct dirent]. *)
Definition mkdirent (inum : Z) (name : list Z) : Z -> Z := print_dirent (mkDe (u16 inum) (dirent_name (fun _ => 0) (buffer name))).

(** Skip a leading [_]. *)
Definition skip_underscore (name : list Z) : list Z :=
  match name with c :: r => if c =? 95 then r else name | [] => name end.

(** [while((cc = read(fd, buf, sizeof(buf))) > 0) iappend(inum, buf, cc)]. *)
Fixpoint append_pieces (inum : Z) (pieces : list (list Z)) : M mkfs unit :=
  match pieces with
  | [] => ret tt
  | b :: pieces => iappend inum (buffer b) (Z.of_nat (length b)) ;;; append_pieces inum pieces
  end.

Section Main.
Variable host : list Z -> option (list (list Z)).

(** The body of the loop over the arguments. *)
Definition add_file (rootino : Z) (name : list Z) : M mkfs unit :=
  if existsb (Z.eqb 47) name then panic "assert" else
  match host name with
  | None => panic "open"
  | Some pieces =>
      inum <- ialloc T_FILE ;;
      iappend rootino (mkdirent inum (skip_underscore name)) 16 ;;;
      append_pieces inum pieces
  end.

Fixpoint add_files (rootino : Z) (names : list (list Z)) : M mkfs unit :=
  match names with [] => ret tt | name :: names => add_file rootino name ;;; add_files rootino names end.

Fixpoint clear_image (k : nat) (i : Z) : M mkfs unit :=
  match k with O => ret tt | S k => wsect i zeroes ;;; clear_image k (i + 1) end.

(** [struct superblock] in a cleared block. *)
Definition print_sb (sb : superblock) (b : block) : block :=
  store32 (store32 (store32 (store32 (store32 (store32 (store32 b 0 (sb_size sb)) 4 (sb_nblocks sb)) 8 (sb_ninodes sb))
    12 (sb_nlog sb)) 16 (sb_logstart sb)) 20 (sb_inodestart sb)) 24 (sb_bmapstart sb).

(** Round the size of the root directory up. *)
Definition fix_root (rootino : Z) : M mkfs unit :=
  din <- rinode rootino ;;
  winode rootino (with_size (u32 ((i_size din / BSIZE + 1) * BSIZE)) din).

Definition main (argv : list (list Z)) : M mkfs unit :=
  match argv with
  | _ :: _ :: files =>
      modify (fun s => mkK (fun _ => zeroes) 0 (k_freeinode s) nmeta) ;;;
      clear_image (Z.to_nat FSSIZE) 0 ;;;
      wsect 1 (print_sb sb0 zeroes) ;;;
      rootino <- ialloc T_DIR ;;
      if negb (rootino =? ROOTINO) then panic "assert" else
      iappend rootino (mkdirent rootino [46]) 16 ;;;
      iappend rootino (mkdirent rootino [46; 46]) 16 ;;;
      add_files rootino files ;;;
      fix_root rootino ;;;
      used <- gets k_freeblock ;;
      balloc used
  | _ => panic "usage"
  end.
End Main.

(** ** Sectors, the bitmap and the inodes of an image *)

Lemma nmeta_val : nmeta = 59.
Proof. reflexivity. Qed.
Lemma datastart_val : datastart sb0 = 59.
Proof. reflexivity. Qed.

Lemma sb0_layout : layout sb0 2 30 FSSIZE.
Proof. constructor; cbn; try (vm_compute; intuition discriminate). Qed.

Lemma sector_small sec : 0 <= sec < 8388608 -> sector sec = sec.
Proof. intros H. unfold sector, BSIZE. rewrite u32_small by (unfold two32; lia). apply Z.div_mul. lia. Qed.

Lemma wsect_ok sec buf s : 0 <= sec < FSSIZE -> k_sectors s = FSSIZE ->
  wsect sec buf s = Ok tt (mkK (upd (k_img s) sec buf) FSSIZE (k_freeinode s) (k_freeblock s)).
Proof.
  intros H E. unfold FSSIZE in *. unfold wsect, modify. rewrite sector_small, E by lia. do 2 f_equal. lia.
Qed.

Lemma rsect_ok sec s : 0 <= sec < FSSIZE -> k_sectors s = FSSIZE -> rsect sec s = Ok (k_img s sec) s.
Proof.
  intros H E. unfold rsect. unfold FSSIZE in *. rewrite (bind_ok (gets k_sectors) _ s _ s eq_refl), E, sector_small by lia. now rewrite (proj2 (Z.ltb_lt _ _)) by lia.
Qed.

Lemma set_bits_testbit k : forall i buf c, 0 <= i -> 0 <= c ->
  Z.testbit (set_bits k i buf (c / 8)) (c mod 8) = (i <=? c) && (c <? i + Z.of_nat k) || Z.testbit (buf (c / 8)) (c mod 8).
Proof.
  induction k as [|k IH]; intros i buf c Hi Hc; cbn [set_bits].
  - rewrite (andb_comm (i <=? c)). destruct (Z.ltb_spec c (i + Z.of_nat 0)), (Z.leb_spec i c); cbn; try reflexivity. lia.
  - rewrite IH by lia. assert (E : Z.testbit (store8 buf (i / 8) (Z.lor (buf (i / 8)) (Z.shiftl 1 (i mod 8))) (c / 8)) (c mod 8) = (c =? i) || Z.testbit (buf (c / 8)) (c mod 8)).
    { unfold store8. destruct (Z.eqb_spec (c / 8) (i / 8)) as [E|E].
      - rewrite u8_testbit, testbit_set by (apply Z.mod_pos_bound || (apply Z.mod_pos_bound; lia); lia). rewrite E. f_equal.
        destruct (Z.eqb_spec (c mod 8) (i mod 8)), (Z.eqb_spec c i); try reflexivity; subst; Z.to_euclidean_division_equations; lia.
      - rewrite (proj2 (Z.eqb_neq c i)) by congruence. reflexivity. }
    rewrite E. destruct (Z.eqb_spec c i) as [->|Hne].
    + rewrite (proj2 (Z.leb_le i i)), (proj2 (Z.ltb_lt i (i + Z.of_nat (S k)))) by lia. cbn [andb orb]. apply orb_true_r.
    + cbn [orb]. f_equal. destruct (Z.leb_spec (i + 1) c), (Z.leb_spec i c); try lia; cbn; auto.
      destruct (Z.ltb_spec c (i + 1 + Z.of_nat k)), (Z.ltb_spec c (i + Z.of_nat (S k))); auto; lia.
Qed.

(** The image as it will be once the bitmap is written. *)
Definition img_view (img : Z -> block) (fb : Z) : Z -> block := upd img (sb_bmapstart sb0) (set_bits (Z.to_nat fb) 0 zeroes).

Lemma view_used img fb b : 0 <= b < FSSIZE -> 0 <= fb -> used (img_view img fb) sb0 b = (b <? fb).
Proof.
  intros Hb Hf. unfold FSSIZE in Hb. unfold used. assert (BBLOCK b sb0 = 58) as ->.
  { unfold BBLOCK. change BPB with 4096. rewrite Z.div_small by lia. reflexivity. }
  unfold img_view, upd. change (58 =? sb_bmapstart sb0) with true. cbv iota. change BPB with 4096. rewrite Z.mod_small by lia.
  rewrite set_bits_testbit by lia. unfold zeroes. rewrite Z.bits_0, orb_false_r, (proj2 (Z.leb_le 0 b)) by lia. cbn [andb].
  rewrite Z2Nat.id by lia. reflexivity.
Qed.

Lemma view_data img fb b : b <> 58 -> img_view img fb b = img b.
Proof. intros Hb. unfold img_view, upd. change (sb_bmapstart sb0) with 58. now rewrite (proj2 (Z.eqb_neq _ _)). Qed.

Lemma view_upd img fb b d : b <> 58 -> veq (img_view (upd img b d) fb) (upd (img_view img fb) b d).
Proof.
  intros Hb x. unfold img_view, upd. change (sb_bmapstart sb0) with 58. destruct (Z.eqb_spec x 58), (Z.eqb_spec x b); try reflexivity. lia.
Qed.

(** *** A disk inode in its block *)

Lemma store_addrs_frame k : forall i f o b x, 0 <= i -> x < o + 12 + 4 * i \/ o + 12 + 4 * (i + Z.of_nat k) <= x -> store_addrs k i f o b x = b x.
Proof. induction k as [|k IH]; intros i f o b x Hi Hx; cbn [store_addrs]; [reflexivity|]. rewrite IH by lia. apply store32_frame. lia. Qed.

Lemma store_addrs_load k : forall i f o b j, 0 <= i -> (forall q, i <= q < i + Z.of_nat k -> 0 <= f q < two32) -> i <= j < i + Z.of_nat k ->
  load32 (store_addrs k i f o b) (o + 12 + 4 * j) = f j.
Proof.
  induction k as [|k IH]; intros i f o b j Hi Hf Hj; cbn [store_addrs]; [lia|]. destruct (Z.eq_dec j i) as [->|Hne].
  - rewrite (load32_ext _ (store32 b (o + 12 + 4 * i) (f i))) by (intros; apply store_addrs_frame; lia). rewrite load32_store32_eq. apply u32_small, Hf. lia.
  - apply IH; [lia | intros q Hq; apply Hf; lia | lia].
Qed.

Lemma store16_frame m a v x : x < a \/ a + 2 <= x -> store16 m a v x = m x.
Proof. intros H. unfold store16. rewrite !load8_store8_ne by lia. reflexivity. Qed.

Lemma load16_store16_eq m a v : load16 (store16 m a v) a = u16 v.
Proof.
  unfold load16, store16. rewrite load8_store8_eq, load8_store8_ne, load8_store8_eq by lia. unfold u8, u16. Z.to_euclidean_division_equations. lia.
Qed.

Definition short (z : Z) : Prop := -32768 <= z < 32768.

Lemma s16_u16 z : short z -> s16 (u16 z) = z.
Proof. intros H. unfold short in H. unfold s16, u16. Z.to_euclidean_division_equations. lia. Qed.

Lemma load16_ext m m' a : (forall x, a <= x < a + 2 -> m x = m' x) -> load16 m a = load16 m' a.
Proof. intros H. unfold load16. now rewrite !H by lia. Qed.

Lemma print_dinode_frame d b o x : x < o \/ o + 64 <= x -> print_dinode d b o x = b x.
Proof. intros H. unfold print_dinode. rewrite store_addrs_frame, store32_frame, !store16_frame by lia. reflexivity. Qed.

(** Two disk inodes with the same fields, the 13 addresses up to pointwise equality. *)
Record din_eq (d d' : inode) : Prop := {
  de_type : i_type d = i_type d';
  de_major : i_major d = i_major d';
  de_minor : i_minor d = i_minor d';
  de_nlink : i_nlink d = i_nlink d';
  de_size : i_size d = i_size d';
  de_addrs : forall i, 0 <= i <= NDIRECT -> i_addrs d i = i_addrs d' i
}.

(** The fields fit their widths. *)
Definition din_fits (d : inode) : Prop :=
  short (i_type d) /\ short (i_major d) /\ short (i_minor d) /\ short (i_nlink d) /\ 0 <= i_size d < two32 /\
  forall i, 0 <= i <= NDIRECT -> 0 <= i_addrs d i < two32.

Lemma parse_print_dinode d b o d0 : din_fits d -> din_eq (parse_dinode (print_dinode d b o) o d0) d.
Proof.
  intros (H1 & H2 & H3 & H4 & H5 & H6). unfold NDIRECT in *.
  assert (E16 : forall j, 0 <= j -> j + 2 <= 8 -> load16 (print_dinode d b o) (o + j) =
    load16 (store16 (store16 (store16 (store16 b o (i_type d)) (o + 2) (i_major d)) (o + 4) (i_minor d)) (o + 6) (i_nlink d)) (o + j)).
  { intros j Hj Hj'. apply load16_ext. intros x Hx. unfold print_dinode. rewrite store_addrs_frame, store32_frame by lia. reflexivity. }
  assert (E32 : load32 (print_dinode d b o) (o + 8) = u32 (i_size d)).
  { unfold print_dinode. rewrite <- (load32_store32_eq (store16 (store16 (store16 (store16 b o (i_type d)) (o + 2) (i_major d)) (o + 4) (i_minor d)) (o + 6) (i_nlink d)) (o + 8)).
    apply load32_ext. intros x Hx. apply store_addrs_frame; lia. }
  assert (Skip : forall m a v a', a' + 2 <= a -> load16 (store16 m a v) a' = load16 m a') by (intros; apply load16_ext; intros; apply store16_frame; lia).
  constructor; cbn [parse_dinode i_type i_major i_minor i_nlink i_size i_addrs].
  - pose proof (E16 0 ltac:(lia) ltac:(lia)) as E0. rewrite Z.add_0_r in E0. rewrite E0, 3!Skip, load16_store16_eq by lia. now apply s16_u16.
  - rewrite E16, 2!Skip, load16_store16_eq by lia. now apply s16_u16.
  - rewrite E16, Skip, load16_store16_eq by lia. now apply s16_u16.
  - rewrite E16, load16_store16_eq by lia. now apply s16_u16.
  - rewrite E32. now apply u32_small.
  - unfold NDIRECT. intros i Hi. apply store_addrs_load; [lia | intros q Hq; apply H6; lia | lia].
Qed.

Lemma parse_dinode_ext b b' o d0 : (forall x, o <= x < o + 64 -> b' x = b x) -> din_eq (parse_dinode b' o d0) (parse_dinode b o d0).
Proof.
  intros E. constructor; cbn [parse_dinode i_type i_major i_minor i_nlink i_size i_addrs]; try (f_equal; apply load16_ext; intros; apply E; lia).
  - apply load32_ext. intros; apply E; lia.
  - unfold NDIRECT. intros i Hi. apply load32_ext. intros; apply E; lia.
Qed.

(** ** Appending to a file *)

Abbreviation sview s := (img_view (k_img s) (k_freeblock s)).

(** The image has all its sectors, and the blocks that are not allocated are clear. *)
Record st_ok (s : mkfs) : Prop := {
  so_sectors : k_sectors s = FSSIZE;
  so_free : nmeta <= k_freeblock s <= FSSIZE;
  so_zero : forall b, k_freeblock s <= b < FSSIZE -> k_img s b = zeroes
}.

(** Block [x] is part of the file with addresses [a]. *)
Definition owns (V : Z -> block) (a : Z -> Z) (x : Z) : Prop :=
  x <> 0 /\ (x = a NDIRECT \/ exists bn, 0 <= bn < MAXFILE /\ faddr V a bn = x).

Definition alloc1 (s : mkfs) : mkfs := mkK (k_img s) (k_sectors s) (k_freeinode s) (k_freeblock s + 1).

Lemma newblock_ok s : st_ok s -> k_freeblock s < FSSIZE -> newblock s = Ok (k_freeblock s) (alloc1 s) /\ st_ok (alloc1 s).
Proof.
  intros [S1 S2 S3] H. split; [|constructor; cbn; auto; [lia | intros b Hb; apply S3; lia]].
  unfold newblock. rewrite (bind_ok (gets k_freeblock) _ s _ s eq_refl). unfold bind, modify, ret, alloc1. rewrite u32_small by (unfold FSSIZE, two32 in *; rewrite nmeta_val in *; lia). reflexivity.
Qed.

(** Allocating a block leaves every file as it is. *)
Lemma alloc1_file s a : st_ok s -> k_freeblock s < FSSIZE -> blocks_ok (sview s) sb0 a ->
  let V' := sview (alloc1 s) in let x := k_freeblock s in
  blocks_ok V' sb0 a /\ (forall bn, faddr V' a bn = faddr (sview s) a bn) /\ outside V' a x /\
  (forall off, 0 <= off < MAXFILE * BSIZE -> content V' a off = content (sview s) a off) /\
  used V' sb0 x = true /\ V' x = zeroes /\ datastart sb0 <= x < sb_size sb0.
Proof.
  intros S Hfb B V' x. pose proof (so_free _ S) as Hf. rewrite nmeta_val in Hf. pose proof datastart_val as Hd. change (sb_size sb0) with FSSIZE.
  assert (Ev : forall b, 59 <= b -> V' b = sview s b) by (intros b Hb; unfold V'; now rewrite !view_data by lia).
  assert (Ha : forall b, used (sview s) sb0 b = true -> datastart sb0 <= b < sb_size sb0 -> b < x /\ used V' sb0 b = true).
  { intros b Hu Hb. change (sb_size sb0) with FSSIZE in Hb. rewrite view_used in Hu by lia. apply Z.ltb_lt in Hu. unfold V'. rewrite view_used by (cbn; lia).
    split; [exact Hu | cbn; apply Z.ltb_lt; lia]. }
  destruct (blocks_frame sb0 (sview s) V' a B) as [B' E]; [|intros b Hb Hu; now apply Ha|].
  { intros Hn. apply Ev. destruct (bo_ind _ _ _ B) as [|[? _]]; lia. }
  split_and!; auto; try lia.
  - split; [|intros bn Hbn; rewrite E]; intros Hx.
    + destruct (bo_ind _ _ _ B) as [|[Hr Hu]]; [lia|]. destruct (Ha _ Hu Hr). lia.
    + destruct (bo_addr _ _ _ B bn Hbn) as [|(Hr & Hu & _)]; [lia|]. destruct (Ha _ Hu Hr). lia.
  - apply (content_frame sb0); auto. intros bn Hbn Hn. apply Ev. destruct (bo_addr _ _ _ B bn Hbn) as [|(Hr & _)]; lia.
  - unfold V'. rewrite view_used by (cbn; lia). apply Z.ltb_lt. cbn. lia.
  - unfold V'. rewrite view_data by lia. apply S. lia.
Qed.

(** What finding or allocating block [bn] of a file does. *)
Record mapped (s s' : mkfs) (a a' : Z -> Z) (bn x new : Z) : Prop := {
  mp_ok : st_ok s';
  mp_inode : k_freeinode s' = k_freeinode s;
  mp_free : k_freeblock s' = k_freeblock s + new;
  mp_blocks : blocks_ok (sview s') sb0 a';
  mp_addr : faddr (sview s') a' bn = x /\ x <> 0;
  mp_others : forall q, 0 <= q < MAXFILE -> q <> bn -> faddr (sview s') a' q = faddr (sview s) a q;
  mp_content : forall off, 0 <= off < MAXFILE * BSIZE -> content (sview s') a' off = content (sview s) a off;
  mp_has_ind : a' NDIRECT <> 0 <-> a NDIRECT <> 0 \/ NDIRECT <= bn;
  mp_ind : a' NDIRECT = a NDIRECT \/ k_freeblock s <= a' NDIRECT < k_freeblock s';
  mp_x : x = faddr (sview s) a bn \/ k_freeblock s <= x < k_freeblock s';
  mp_frame : forall b, b < k_freeblock s -> b <> a NDIRECT \/ b < nmeta -> k_img s' b = k_img s b
}.

(** The number of blocks that are allocated for it. *)
Definition new_blocks (V : Z -> block) (a : Z -> Z) (bn : Z) : Z :=
  if faddr V a bn =? 0 then if bn <? NDIRECT then 1 else if a NDIRECT =? 0 then 2 else 1 else 0.

Lemma iappend_direct s din bn : let a := i_addrs din in st_ok s -> blocks_ok (sview s) sb0 a -> 0 <= bn < NDIRECT ->
  k_freeblock s + new_blocks (sview s) a bn <= FSSIZE ->
  exists x s' a', iappend_block din bn s = Ok (x, with_addrs a' din) s' /\ mapped s s' a a' bn x (new_blocks (sview s) a bn).
Proof.
  intros a S B Hbn Hfb. pose proof (so_free _ S) as Hf. rewrite nmeta_val in Hf. pose proof datastart_val as Hd.
  unfold iappend_block, new_blocks in *. rewrite (proj2 (Z.ltb_lt bn NDIRECT)) in * by lia.
  assert (Ea : faddr (sview s) a bn = a bn) by (unfold faddr; now rewrite (proj2 (Z.ltb_lt bn NDIRECT)) by lia). rewrite Ea in *. fold a.
  assert (Hmf : 0 <= bn < MAXFILE) by (rewrite MAXFILE_val; unfold NDIRECT in *; lia).
  destruct (Z.eqb_spec (a bn) 0) as [E0|E0].
  - destruct (newblock_ok s S ltac:(lia)) as [R S1]. destruct (alloc1_file s a S ltac:(lia) B) as (B1 & E1 & O1 & C1 & U1 & Z1 & X1).
    destruct (set_direct _ _ _ _ sb0_layout (sview (alloc1 s)) a bn (k_freeblock s) B1 Hbn) as (B2 & C2); auto; [now rewrite E1, Ea|].
    exists (k_freeblock s), (alloc1 s), (upd a bn (k_freeblock s)). rewrite bind_assoc, (bind_ok _ _ _ _ _ R), bind_ret. cbn [i_addrs with_addrs].
    split; [unfold ret; unfold upd at 1; now rewrite Z.eqb_refl|]. constructor; auto.
    + rewrite faddr_direct, Z.eqb_refl by lia. split; [reflexivity | lia].
    + intros q Hq Hne. rewrite faddr_direct, (proj2 (Z.eqb_neq q bn)) by (lia || exact Hne). apply E1.
    + intros off Hoff. now rewrite C2, C1.
    + unfold upd. rewrite (proj2 (Z.eqb_neq NDIRECT bn)) by lia. split; [tauto | intros [?|?]; [assumption | lia]].
    + left. unfold upd. now rewrite (proj2 (Z.eqb_neq NDIRECT bn)) by lia.
    + right. cbn. lia.
  - exists (a bn), s, a. rewrite bind_ret. split; [unfold ret; fold a; now rewrite <- (with_addrs_same din) at 1|].
    constructor; auto; lia.
Qed.

(** The first half of the indirect case: there is an indirect block. *)
Lemma iappend_ind s din : let a := i_addrs din in let k := (if a NDIRECT =? 0 then 1 else 0) in st_ok s -> blocks_ok (sview s) sb0 a ->
  k_freeblock s + k <= FSSIZE ->
  exists s1 a1, (if a NDIRECT =? 0 then x <- newblock ;; ret (with_addrs (upd a NDIRECT x) din) else ret din) s = Ok (with_addrs a1 din) s1 /\
    st_ok s1 /\ k_freeinode s1 = k_freeinode s /\ k_freeblock s1 = k_freeblock s + k /\ k_img s1 = k_img s /\ blocks_ok (sview s1) sb0 a1 /\
    a1 NDIRECT <> 0 /\ (forall q, 0 <= q < MAXFILE -> faddr (sview s1) a1 q = faddr (sview s) a q) /\
    (forall off, 0 <= off < MAXFILE * BSIZE -> content (sview s1) a1 off = content (sview s) a off) /\
    (a1 NDIRECT = a NDIRECT \/ k_freeblock s <= a1 NDIRECT < k_freeblock s1).
Proof.
  intros a k S B Hfb. pose proof (so_free _ S) as Hf. rewrite nmeta_val in Hf. pose proof datastart_val as Hd. unfold k in *. clear k.
  destruct (Z.eqb_spec (a NDIRECT) 0) as [E0|E0].
  - destruct (newblock_ok s S ltac:(lia)) as [R S1]. destruct (alloc1_file s a S ltac:(lia) B) as (B1 & E1 & O1 & C1 & U1 & Z1 & X1).
    destruct (set_indirect _ (sview (alloc1 s)) a (k_freeblock s) B1 E0) as (B2 & C2); auto.
    assert (Eu : upd a NDIRECT (k_freeblock s) NDIRECT = k_freeblock s) by (unfold upd; now rewrite Z.eqb_refl).
    exists (alloc1 s), (upd a NDIRECT (k_freeblock s)). rewrite (bind_ok _ _ _ _ _ R). split_and!; auto; rewrite ?Eu; try lia.
    + intros q Hq. rewrite faddr_indirect by auto. apply E1.
    + intros off Hoff. now rewrite C2, C1.
    + right. cbn. lia.
  - exists s, a. split; [unfold a; now rewrite with_addrs_same|]. split_and!; auto; lia.
Qed.

(** The second half: the entry of the indirect block is set. *)
Lemma iappend_entry {A} (d0 : A) s a bn : st_ok s -> blocks_ok (sview s) sb0 a -> a NDIRECT <> 0 -> NDIRECT <= bn < MAXFILE ->
  let k := (if faddr (sview s) a bn =? 0 then 1 else 0) in k_freeblock s + k <= FSSIZE ->
  exists x s', (indirect <- rsect (a NDIRECT) ;;
      indirect <- (if load32 indirect (4 * (bn - NDIRECT)) =? 0 then
          x <- newblock ;;
          let indirect := store32 indirect (4 * (bn - NDIRECT)) x in
          wsect (a NDIRECT) indirect ;;; ret indirect
        else ret indirect) ;;
      ret (load32 indirect (4 * (bn - NDIRECT)), d0)) s = Ok (x, d0) s' /\ mapped s s' a a bn x k.
Proof.
  intros S B Hi Hbn k Hfb. pose proof (so_free _ S) as Hf. rewrite nmeta_val in Hf. pose proof datastart_val as Hd. pose proof (so_sectors _ S) as Hs.
  destruct (bo_ind _ _ _ B) as [|[Hr _]]; [lia|]. change (sb_size sb0) with FSSIZE in Hr. rewrite (bind_ok _ _ _ _ _ (rsect_ok (a NDIRECT) s ltac:(lia) Hs)).
  assert (Ea : faddr (sview s) a bn = load32 (k_img s (a NDIRECT)) (4 * (bn - NDIRECT))).
  { unfold faddr. rewrite (proj2 (Z.ltb_ge bn NDIRECT)) by lia. rewrite (proj2 (Z.eqb_neq _ 0)) by exact Hi. rewrite view_data by lia. reflexivity. }
  rewrite <- Ea. unfold k in *. clear k. destruct (Z.eqb_spec (faddr (sview s) a bn) 0) as [E0|E0].
  - destruct (newblock_ok s S ltac:(lia)) as [R S1]. destruct (alloc1_file s a S ltac:(lia) B) as (B1 & E1 & O1 & C1 & U1 & Z1 & X1).
    change (sb_size sb0) with FSSIZE in X1. set (x := k_freeblock s) in *. set (d := store32 (k_img s (a NDIRECT)) (4 * (bn - NDIRECT)) x).
    destruct (set_entry _ _ _ _ sb0_layout (sview (alloc1 s)) a bn x B1 Hi Hbn) as (B2 & U2 & C2); auto; [now rewrite E1|].
    assert (Ex : load32 d (4 * (bn - NDIRECT)) = x) by (unfold d; rewrite load32_store32_eq; apply u32_small; unfold FSSIZE, two32 in *; lia).
    set (s' := mkK (upd (k_img s) (a NDIRECT) d) FSSIZE (k_freeinode s) (x + 1)). exists x, s'. split.
    { rewrite bind_assoc, (bind_ok _ _ _ _ _ R). cbv zeta. fold d. rewrite bind_assoc, (bind_ok _ _ _ _ _ (wsect_ok (a NDIRECT) d (alloc1 s) ltac:(lia) Hs)).
      rewrite bind_ret. now rewrite Ex. }
    assert (Hne : a NDIRECT <> x) by (intros Ex'; apply O1; congruence).
    assert (Ev : veq (sview s') (upd (sview (alloc1 s)) (a NDIRECT) (store32 (sview (alloc1 s) (a NDIRECT)) (4 * (bn - NDIRECT)) x))).
    { rewrite (view_data (k_img (alloc1 s))) by lia. apply view_upd. lia. }
    assert (Efa : forall q, 0 <= q < MAXFILE -> faddr (sview s') a q = if q =? bn then x else faddr (sview s) a q).
    { intros q Hq. rewrite Ev, faddr_entry, E1 by (auto; unfold FSSIZE, two32 in *; lia). reflexivity. }
    assert (Hm : 0 <= bn < MAXFILE) by (unfold NDIRECT in *; lia).
    constructor; auto.
    + constructor; cbn; try reflexivity; [rewrite nmeta_val; lia|]. intros b Hb. unfold upd. rewrite (proj2 (Z.eqb_neq b _)) by (destruct (bo_ind _ _ _ B) as [|[_ Hu]]; [lia|]; rewrite view_used in Hu by lia; apply Z.ltb_lt in Hu; fold x in Hu; lia). apply S. unfold x in *. lia.
    + now rewrite Ev.
    + rewrite Efa, Z.eqb_refl by exact Hm. split; [reflexivity | lia].
    + intros q Hq Hq'. now rewrite Efa, (proj2 (Z.eqb_neq q bn)).
    + intros off Hoff. rewrite Ev. now rewrite C2, C1.
    + split; [tauto | auto].
    + right. cbn. lia.
    + intros b Hb [Hb'|Hb']; cbn; unfold upd; rewrite (proj2 (Z.eqb_neq b _)) by (rewrite ?nmeta_val in *; lia || auto); reflexivity.
  - exists (faddr (sview s) a bn), s. rewrite bind_ret, <- Ea. split; [reflexivity|]. constructor; auto; lia.
Qed.

Lemma iappend_block_ok s din bn : let a := i_addrs din in st_ok s -> blocks_ok (sview s) sb0 a -> 0 <= bn < MAXFILE ->
  k_freeblock s + new_blocks (sview s) a bn <= FSSIZE ->
  exists x s' a', iappend_block din bn s = Ok (x, with_addrs a' din) s' /\ mapped s s' a a' bn x (new_blocks (sview s) a bn).
Proof.
  intros a S B Hbn Hfb. destruct (Z.lt_ge_cases bn NDIRECT) as [Hlt|Hge]; [apply iappend_direct; auto; lia|].
  unfold iappend_block, new_blocks in *. rewrite (proj2 (Z.ltb_ge bn NDIRECT)) in * by lia. fold a.
  assert (Hz : a NDIRECT = 0 -> faddr (sview s) a bn = 0).
  { intros E. unfold faddr. now rewrite (proj2 (Z.ltb_ge bn NDIRECT)), E by lia. }
  pose proof (iappend_ind s din S B) as Hind. cbv zeta in Hind. fold a in Hind.
  destruct Hind as (s1 & a1 & R1 & S1 & I1 & F1 & M1 & B1 & N1 & E1 & C1 & D1).
  { destruct (Z.eqb_spec (a NDIRECT) 0) as [E|]; [rewrite (Hz E) in Hfb; change (0 =? 0) with true in Hfb; cbv iota in Hfb; lia|]. pose proof (so_free _ S). lia. }
  destruct (iappend_entry (with_addrs a1 din) s1 a1 bn S1 B1 N1 ltac:(lia)) as (x & s' & R2 & [P1 P2 P3 P4 P5 P6 P7 P8 P9 P10 P11]).
  { cbv zeta. rewrite E1, F1 by lia. destruct (Z.eqb_spec (a NDIRECT) 0) as [E|]; [rewrite (Hz E) in *; change (0 =? 0) with true in *; cbv iota in *; lia|].
    destruct (faddr (sview s) a bn =? 0); lia. }
  exists x, s', a1. split.
  - rewrite (bind_ok _ _ _ _ _ R1). cbn [i_addrs with_addrs]. exact R2.
  - assert (Hk : k_freeblock s' = k_freeblock s + (if faddr (sview s) a bn =? 0 then if a NDIRECT =? 0 then 2 else 1 else 0)).
    { rewrite P3, E1, F1 by lia. destruct (Z.eqb_spec (a NDIRECT) 0) as [E|]; [rewrite (Hz E); change (0 =? 0) with true; cbv iota; lia|]. destruct (_ =? 0); lia. }
    assert (Hmono : k_freeblock s <= k_freeblock s1 <= k_freeblock s') by (clear - P3 F1; destruct (faddr _ _ _ =? 0), (a NDIRECT =? 0); lia).
    constructor; auto.
    + congruence.
    + intros q Hq Hne. now rewrite P6, E1.
    + intros off Hoff. now rewrite P7, C1.
    + split; [auto | intros _; exact N1].
    + destruct D1; [auto | right; lia].
    + destruct P10 as [P|P]; [left; rewrite P; apply E1; lia | right; lia].
    + intros b Hb Hb'. rewrite P11, M1; [reflexivity | lia|]. destruct D1 as [->|]; [exact Hb' | left; lia].
Qed.

(** The file with addresses [a] holds the bytes [l], in no more blocks than it needs. *)
Record bytes_ok (V : Z -> block) (a : Z -> Z) (l : list Z) : Prop := {
  by_blocks : blocks_ok V sb0 a;
  by_mapped : forall bn, 0 <= bn < MAXFILE -> faddr V a bn <> 0 <-> bn * BSIZE < Z.of_nat (length l);
  by_ind : a NDIRECT <> 0 <-> NDIRECT * BSIZE < Z.of_nat (length l);
  by_bytes : forall off, 0 <= off < MAXFILE * BSIZE -> content V a off = buffer l off
}.

(** The blocks of a file of [z] bytes, its indirect block included. *)
Definition file_blocks (z : Z) : Z := (z + BSIZE - 1) / BSIZE + (if NDIRECT * BSIZE <? z then 1 else 0).

(** What appending does: [l] becomes [l']; only blocks of the file and new ones change. *)
Record appended (s s' : mkfs) (a a' : Z -> Z) (l l' : list Z) : Prop := {
  ap_ok : st_ok s';
  ap_inode : k_freeinode s' = k_freeinode s;
  ap_free : k_freeblock s' = k_freeblock s + file_blocks (Z.of_nat (length l')) - file_blocks (Z.of_nat (length l));
  ap_mono : k_freeblock s <= k_freeblock s';
  ap_bytes : bytes_ok (sview s') a' l';
  ap_frame : forall b, b < k_freeblock s -> ~ owns (sview s) a b -> k_img s' b = k_img s b;
  ap_owns : forall y, owns (sview s') a' y -> owns (sview s) a y \/ k_freeblock s <= y < k_freeblock s'
}.

Lemma appended_trans s1 s2 s3 a1 a2 a3 l1 l2 l3 : appended s1 s2 a1 a2 l1 l2 -> appended s2 s3 a2 a3 l2 l3 -> appended s1 s3 a1 a3 l1 l3.
Proof.
  intros [A1 A2 A3 A4 A5 A6 A7] [B1 B2 B3 B4 B5 B6 B7]. constructor; auto; try lia.
  - intros b Hb Ho. rewrite B6, A6; auto; [lia|]. intros Ho'. apply A7 in Ho' as [|]; [tauto | lia].
  - intros y Hy. apply B7 in Hy as [Hy|Hy]; [apply A7 in Hy as [|]; [tauto | right; lia] | right; lia].
Qed.

Lemma new_blocks_count V a l m : bytes_ok V a l -> let z := Z.of_nat (length l) in 0 < m <= BSIZE - z mod BSIZE -> z / BSIZE < MAXFILE ->
  new_blocks V a (z / BSIZE) = file_blocks (z + m) - file_blocks z.
Proof.
  intros [_ M I _] z Hm Hb. assert (Hz : 0 <= z) by (unfold z; lia). specialize (M (z / BSIZE)). fold z in M, I. unfold new_blocks, file_blocks. rewrite MAXFILE_val in *. unfold BSIZE, NDIRECT in *.
  specialize (M ltac:(Z.to_euclidean_division_equations; lia)).
  destruct (Z.eqb_spec (faddr V a (z / 512)) 0) as [E|E], (Z.ltb_spec (z / 512) 12), (Z.eqb_spec (a 12) 0), (Z.ltb_spec (12 * 512) (z + m)), (Z.ltb_spec (12 * 512) z);
    Z.to_euclidean_division_equations; lia.
Qed.

Lemma buffer_app l l' off : 0 <= off -> buffer (l ++ l') off = if off <? Z.of_nat (length l) then buffer l off else buffer l' (off - Z.of_nat (length l)).
Proof.
  intros H. unfold buffer. rewrite (proj2 (Z.ltb_ge off 0)) by lia. destruct (Z.ltb_spec off (Z.of_nat (length l))) as [Hl|Hl].
  - apply app_nth1. lia.
  - rewrite (proj2 (Z.ltb_ge _ 0)) by lia. rewrite app_nth2 by lia. f_equal. lia.
Qed.

Lemma buffer_out l off : Z.of_nat (length l) <= off -> buffer l off = 0.
Proof. intros H. unfold buffer. rewrite (proj2 (Z.ltb_ge off 0)) by lia. apply nth_overflow. lia. Qed.

(** Writing the next [m] bytes into block [bn] of the file. *)
Lemma put_bytes V a l l' d : bytes_ok V a l -> let z := Z.of_nat (length l) in let m := Z.of_nat (length l') in let bn := z / BSIZE in
  forall a' V', blocks_ok V' sb0 a' -> (forall q, 0 <= q < MAXFILE -> q <> bn -> faddr V' a' q = faddr V a q) -> faddr V' a' bn <> 0 ->
  (a' NDIRECT <> 0 <-> a NDIRECT <> 0 \/ NDIRECT <= bn) -> 0 < m <= BSIZE - z mod BSIZE -> bn < MAXFILE ->
  (forall off, 0 <= off < MAXFILE * BSIZE -> content V' a' off = if off / BSIZE =? bn then d (off mod BSIZE) else content V a off) ->
  (forall i, 0 <= i < BSIZE -> d i = if (z mod BSIZE <=? i) && (i <? z mod BSIZE + m) then buffer l' (i - z mod BSIZE) else content V a (bn * BSIZE + i)) ->
  bytes_ok V' a' (l ++ l').
Proof.
  intros [_ M I Y] z m bn a' V' B' F' N' Ha' Hm Hbn Hc Hd. assert (Hz : 0 <= z) by (unfold z; lia). rewrite MAXFILE_val in *. constructor; rewrite ?length_app, ?Nat2Z.inj_add; fold z m; auto.
  - intros q Hq. rewrite MAXFILE_val in Hq. destruct (Z.eq_dec q bn) as [->|Hne].
    + unfold bn, BSIZE in *. split; [intros _; Z.to_euclidean_division_equations; lia | auto].
    + rewrite F', M by lia. fold z. unfold bn, BSIZE in *. split; Z.to_euclidean_division_equations; lia.
  - rewrite Ha', I. fold z. unfold bn, BSIZE, NDIRECT in *. split; Z.to_euclidean_division_equations; lia.
  - intros off Hoff. rewrite MAXFILE_val in Hoff. assert (Hr : 0 <= off mod BSIZE < BSIZE) by (apply Z.mod_pos_bound; reflexivity).
    rewrite Hc, buffer_app by lia. fold z. destruct (Z.eqb_spec (off / BSIZE) bn) as [E|E].
    + rewrite Hd by exact Hr. replace (bn * BSIZE + off mod BSIZE) with off by (rewrite <- E; unfold BSIZE; Z.to_euclidean_division_equations; lia).
      destruct (Z.ltb_spec off z) as [Hl|Hl].
      * rewrite (proj2 (Z.leb_gt _ _)) by (unfold bn, BSIZE in *; Z.to_euclidean_division_equations; lia). cbn [andb]. apply Y. lia.
      * rewrite (proj2 (Z.leb_le _ _)) by (unfold bn, BSIZE in *; Z.to_euclidean_division_equations; lia). cbn [andb].
        assert (Ez : off mod BSIZE - z mod BSIZE = off - z) by (unfold bn, BSIZE in *; Z.to_euclidean_division_equations; lia).
        destruct (Z.ltb_spec (off mod BSIZE) (z mod BSIZE + m)) as [Hl'|Hl']; [now rewrite Ez|].
        rewrite Y, !buffer_out by (fold z m; rewrite ?MAXFILE_val; lia). reflexivity.
    + rewrite Y by lia. destruct (Z.ltb_spec off z) as [Hl|Hl]; [reflexivity|].
      rewrite !buffer_out; [reflexivity | fold m; unfold bn, BSIZE in *; Z.to_euclidean_division_equations; lia | lia].
Qed.

Lemma file_blocks_mono z z' : 0 <= z <= z' -> file_blocks z <= file_blocks z'.
Proof.
  intros H. unfold file_blocks, BSIZE, NDIRECT. destruct (Z.ltb_spec (12 * 512) z), (Z.ltb_spec (12 * 512) z'); Z.to_euclidean_division_equations; lia.
Qed.

(** A block of a file is a data block below [freeblock]. *)
Lemma owns_range s a y : st_ok s -> blocks_ok (sview s) sb0 a -> owns (sview s) a y -> nmeta <= y < k_freeblock s.
Proof.
  intros S B [Hy Ho]. pose proof (so_free _ S) as Hf. rewrite nmeta_val in *. pose proof datastart_val as Hd.
  assert (Hr : (datastart sb0 <= y < sb_size sb0) /\ used (sview s) sb0 y = true).
  { destruct Ho as [->|(bn & Hbn & E)]; [destruct (bo_ind _ _ _ B); [lia | tauto]|]. subst y. destruct (bo_addr _ _ _ B bn Hbn); [lia | tauto]. }
  destruct Hr as [Hr Hu]. change (sb_size sb0) with FSSIZE in Hr. rewrite view_used in Hu by lia. apply Z.ltb_lt in Hu. lia.
Qed.

Section Append.
Variable p : Z -> Z.

(** One turn of the loop. *)
Lemma iappend_step s din k n l : let a := i_addrs din in let z := Z.of_nat (length l) in let bn := z / BSIZE in let m := Z.min n (BSIZE - z mod BSIZE) in
  st_ok s -> bytes_ok (sview s) a l -> 0 < n -> z + n <= MAXFILE * BSIZE -> k_freeblock s + file_blocks (z + m) - file_blocks z <= FSSIZE ->
  exists x s1 s2 a' buf, iappend_block din bn s = Ok (x, with_addrs a' din) s1 /\ rsect x s1 = Ok buf s1 /\
    wsect x (fun i => if (z mod BSIZE <=? i) && (i <? z mod BSIZE + m) then p (k + (i - z mod BSIZE)) else buf i) s1 = Ok tt s2 /\
    appended s s2 a a' l (l ++ map p (seqZ k m)).
Proof.
  intros a z bn m S Y Hn Hmax Hfb. pose proof MAXFILE_val as HM. assert (Hm : 0 < m <= BSIZE - z mod BSIZE) by (unfold m, BSIZE; Z.to_euclidean_division_equations; lia).
  assert (Hbn : 0 <= bn < MAXFILE) by (unfold bn, z, BSIZE in *; Z.to_euclidean_division_equations; lia).
  assert (Hlen : Z.of_nat (length (map p (seqZ k m))) = m) by (rewrite length_map, length_seqZ; lia).
  pose proof (new_blocks_count _ _ _ m Y Hm ltac:(unfold bn, z in Hbn; lia)) as Hnew. fold z bn in Hnew.
  destruct (iappend_block_ok s din bn S (by_blocks _ _ _ Y) Hbn) as (x & s1 & a' & R1 & P); [fold a; lia|]. fold a in P. rewrite Hnew in P.
  pose proof P as [P1 P2 P3 P4 [P5 P5'] P6 P7 P8 P9 P10 P11]. pose proof (so_free _ P1) as Hf1. pose proof (so_free _ S) as Hf. rewrite nmeta_val in *.
  assert (Hx : 59 <= x < k_freeblock s1) by (rewrite <- nmeta_val; apply (owns_range s1 a'); auto; split; [exact P5' | right; eauto]).
  set (d := fun i => if (z mod BSIZE <=? i) && (i <? z mod BSIZE + m) then p (k + (i - z mod BSIZE)) else k_img s1 x i).
  set (s2 := mkK (upd (k_img s1) x d) FSSIZE (k_freeinode s1) (k_freeblock s1)).
  exists x, s1, s2, a', (k_img s1 x). pose proof (so_sectors _ P1) as Hs1.
  split; [exact R1|]. split; [apply rsect_ok; [lia | exact Hs1]|]. split; [apply wsect_ok; [lia | exact Hs1]|].
  destruct (set_data _ _ _ _ sb0_layout (sview s1) a' bn d P4 Hbn ltac:(lia)) as (B2 & E2 & U2 & C2). rewrite P5 in *.
  assert (Ev : veq (sview s2) (upd (sview s1) x d)) by (apply view_upd; lia).
  assert (Y2 : bytes_ok (sview s2) a' (l ++ map p (seqZ k m))).
  { apply (put_bytes (sview s) a l (map p (seqZ k m)) d Y); fold z bn; rewrite ?Hlen; auto; try lia.
    - now rewrite Ev.
    - intros q Hq Hne. rewrite Ev, E2. now apply P6.
    - now rewrite Ev, E2, P5.
    - intros off Hoff. rewrite Ev, C2 by exact Hoff. destruct (_ =? _); [reflexivity | now apply P7].
    - intros i Hi. unfold d. destruct (_ && _) eqn:Ei; bool_prop; [rewrite buffer_map by lia; f_equal; lia|].
      rewrite <- P7 by (unfold bn, BSIZE in *; lia). unfold content. replace ((bn * BSIZE + i) / BSIZE) with bn by (unfold BSIZE in *; Z.to_euclidean_division_equations; lia).
      replace ((bn * BSIZE + i) mod BSIZE) with i by (unfold BSIZE in *; Z.to_euclidean_division_equations; lia).
      rewrite P5, (proj2 (Z.eqb_neq x 0)), view_data by lia. reflexivity. }
  assert (Own : forall y, owns (sview s2) a' y -> owns (sview s) a y \/ k_freeblock s <= y < k_freeblock s1).
  { intros y [Hy [->|(q & Hq & E)]]; [destruct P9 as [E|]; [left; split; [exact Hy | left; exact E] | auto]|]. rewrite Ev, E2 in E.
    destruct (Z.eq_dec q bn) as [->|Hne]; [|left; split; [auto | right; exists q; now rewrite <- P6]].
    rewrite P5 in E. subst y. destruct P10 as [E|]; [left; split; [exact Hy | right; eauto] | auto]. }
  constructor; auto; cbn [k_freeblock k_freeinode s2].
  - constructor; cbn [s2 k_sectors k_freeblock k_img]; [reflexivity | rewrite nmeta_val; lia|]. intros b Hb. unfold upd. rewrite (proj2 (Z.eqb_neq b x)) by lia. now apply P1.
  - rewrite length_app, Nat2Z.inj_add, Hlen. fold z. lia.
  - pose proof (file_blocks_mono z (z + m)). unfold z in *. lia.
  - intros b Hb Ho. cbn [s2 k_img]. unfold upd. destruct (Z.eqb_spec b x) as [->|]; [|apply P11; [exact Hb|]].
    + destruct P10 as [E|]; [|lia]. exfalso. apply Ho. split; [exact P5' | right; eauto].
    + destruct (Z.lt_ge_cases b nmeta); [auto | left]. intros ->. apply Ho. rewrite nmeta_val in *. split; [lia | auto].
Qed.

Lemma map_seqZ_split k m n : 0 <= m <= n -> map p (seqZ k n) = map p (seqZ k m) ++ map p (seqZ (k + m) (n - m)).
Proof. intros H. rewrite <- map_app, <- seqZ_app by lia. do 2 f_equal. lia. Qed.

Lemma iappend_loop_ok fuel : forall s din k n l, let a := i_addrs din in let z := Z.of_nat (length l) in
  st_ok s -> bytes_ok (sview s) a l -> 0 <= n -> z + n <= MAXFILE * BSIZE -> k_freeblock s + file_blocks (z + n) - file_blocks z <= FSSIZE ->
  n < Z.of_nat fuel ->
  exists s' a', iappend_loop fuel din p k z n s = Ok (with_addrs a' din, z + n) s' /\ appended s s' a a' l (l ++ map p (seqZ k n)).
Proof.
  induction fuel as [|fuel IH]; intros s din k n l a z S Y Hn Hmax Hfb Hfu; [lia|]. cbn [iappend_loop].
  destruct (Z.ltb_spec 0 n) as [Hpos|].
  2: { assert (n = 0) as -> by lia. exists s, a. unfold a. rewrite with_addrs_same, Z.add_0_r, app_nil_r. split; [reflexivity|].
       constructor; auto; try lia. }
  set (m := Z.min n (BSIZE - z mod BSIZE)). assert (Hm : 0 < m <= n) by (unfold m, BSIZE; Z.to_euclidean_division_equations; lia).
  assert (Hz : 0 <= z) by (unfold z; lia). pose proof MAXFILE_val as HM.
  rewrite (proj2 (Z.ltb_lt (z / BSIZE) MAXFILE)) by (unfold BSIZE in *; Z.to_euclidean_division_equations; lia).
  destruct (iappend_step s din k n l S Y Hpos Hmax) as (x & s1 & s2 & a2 & buf & R1 & R2 & R3 & A).
  { fold z m. pose proof (file_blocks_mono (z + m) (z + n)). lia. }
  fold z m in R1, R3, A. cbv zeta. rewrite (bind_ok _ _ _ _ _ R1). cbn [fst snd].
  replace (Z.min n ((z / BSIZE + 1) * BSIZE - z)) with m by (unfold m, BSIZE; Z.to_euclidean_division_equations; lia).
  replace (z - z / BSIZE * BSIZE) with (z mod BSIZE) by (unfold BSIZE; Z.to_euclidean_division_equations; lia).
  rewrite (bind_ok _ _ _ _ _ R2), (bind_ok _ _ _ _ _ R3), u32_small by (unfold BSIZE, two32 in *; lia).
  assert (El : Z.of_nat (length (l ++ map p (seqZ k m))) = z + m) by (rewrite length_app, length_map, length_seqZ; unfold z; lia).
  pose proof (IH s2 (with_addrs a2 din) (k + m) (n - m) (l ++ map p (seqZ k m)) (ap_ok _ _ _ _ _ _ A) (ap_bytes _ _ _ _ _ _ A)) as H2.
  cbv zeta in H2. rewrite El in H2. replace (z + m + (n - m)) with (z + n) in H2 by lia.
  destruct H2 as (s' & a' & R' & A'); try lia.
  { pose proof (ap_free _ _ _ _ _ _ A) as Hf. rewrite El in Hf. fold z in Hf. lia. }
  exists s', a'. split; [exact R'|]. rewrite (map_seqZ_split k m n), app_assoc by lia. exact (appended_trans _ _ _ _ _ _ _ _ _ A A').
Qed.
End Append.

(** ** Images *)

(** Inode [i] of an image. *)
Definition din_at (img : Z -> block) (i : Z) : inode := parse_dinode (img (IBLOCK i sb0)) (64 * (i mod IPB)) dinode0.

Record node_ok (V : Z -> block) (d : inode) (t : Z) (l : list Z) : Prop := {
  nd_type : i_type d = t;
  nd_device : i_major d = 0 /\ i_minor d = 0;
  nd_nlink : i_nlink d = 1;
  nd_size : i_size d = Z.of_nat (length l) /\ Z.of_nat (length l) <= MAXFILE * BSIZE;
  nd_bytes : bytes_ok V (i_addrs d) l
}.

Definition nodes_blocks (nodes : list (Z * list Z)) : Z := foldr (fun n z => file_blocks (Z.of_nat (length (snd n))) + z) 0 nodes.

(** Node [k] of [nodes], a type and a content, is inode [k + 1]; no block is part of
    two files, the blocks in use are counted exactly and the other inodes are clear. *)
Record image_ok (s : mkfs) (nodes : list (Z * list Z)) : Prop := {
  im_st : st_ok s;
  im_next : k_freeinode s = 1 + Z.of_nat (length nodes) /\ Z.of_nat (length nodes) < NINODES;
  im_free : k_freeblock s = nmeta + nodes_blocks nodes;
  im_meta : forall b, 0 <= b < sb_inodestart sb0 -> k_img s b = upd (fun _ => zeroes) 1 (print_sb sb0 zeroes) b;
  im_nodes : forall k t l, nodes !! k = Some (t, l) -> node_ok (sview s) (din_at (k_img s) (Z.of_nat k + 1)) t l;
  im_clear : forall i, 0 <= i <= NINODES -> i = 0 \/ Z.of_nat (length nodes) < i ->
    forall x, 64 * (i mod IPB) <= x < 64 * (i mod IPB) + 64 -> k_img s (IBLOCK i sb0) x = 0;
  im_apart : forall j k, (j < length nodes)%nat -> (k < length nodes)%nat -> j <> k -> forall y,
    owns (sview s) (i_addrs (din_at (k_img s) (Z.of_nat j + 1))) y -> owns (sview s) (i_addrs (din_at (k_img s) (Z.of_nat k + 1))) y -> False
}.

Lemma iblock_val i : 0 <= i <= NINODES -> IBLOCK i sb0 = 32 + i / 8 /\ 32 <= IBLOCK i sb0 < 58.
Proof.
  unfold NINODES. intros H. assert (IBLOCK i sb0 = 32 + i / 8) as ->.
  { unfold IBLOCK. change IPB with 8. change (sb_inodestart sb0) with 32. rewrite u32_small by (unfold two32; Z.to_euclidean_division_equations; lia). lia. }
  Z.to_euclidean_division_equations. lia.
Qed.

(** A file in another view, where its blocks are the same. *)
Lemma faddr_ext V a a' bn : (forall i, 0 <= i <= NDIRECT -> a' i = a i) -> 0 <= bn -> faddr V a' bn = faddr V a bn.
Proof.
  intros E Hb. unfold faddr. rewrite (E NDIRECT) by (unfold NDIRECT; lia). destruct (Z.ltb_spec bn NDIRECT); [apply E; lia | reflexivity].
Qed.

Lemma bytes_addrs V a a' l : bytes_ok V a l -> (forall i, 0 <= i <= NDIRECT -> a' i = a i) -> bytes_ok V a' l /\ forall y, owns V a' y <-> owns V a y.
Proof.
  intros [[B1 B2 B3] M I Y] E. assert (Ei : a' NDIRECT = a NDIRECT) by (apply E; unfold NDIRECT; lia).
  assert (Ef : forall bn, 0 <= bn -> faddr V a' bn = faddr V a bn) by (intros bn Hb; now apply faddr_ext). split.
  - constructor; [constructor | | |]; rewrite ?Ei; auto.
    + intros bn Hbn. rewrite Ef by lia. auto.
    + intros bn bn' H H'. rewrite !Ef by lia. auto.
    + intros bn Hbn. rewrite Ef by lia. auto.
    + intros off Hoff. rewrite <- Y by exact Hoff. unfold content. rewrite Ef by (apply Z.div_pos; unfold BSIZE; lia). reflexivity.
  - intros y. unfold owns. rewrite Ei. split; intros [Hy [?|(bn & Hbn & Eb)]]; split; auto; right; exists bn; rewrite Ef in * by lia; auto.
Qed.

Lemma bytes_frame V V' a l : bytes_ok V a l -> (forall y, owns V a y -> V' y = V y) ->
  (forall b, datastart sb0 <= b < sb_size sb0 -> used V sb0 b = true -> used V' sb0 b = true) ->
  bytes_ok V' a l /\ forall y, owns V' a y <-> owns V a y.
Proof.
  intros [B M I Y] Hv Hu. destruct (blocks_frame sb0 V V' a B) as [B' E]; [intros Hn; apply Hv; split; auto | exact Hu|]. split.
  - constructor; auto; [intros bn Hbn; rewrite E; auto|]. intros off Hoff. rewrite <- Y by exact Hoff. apply (content_frame sb0 V V' a B E); auto.
    intros bn Hbn Hn. apply Hv. split; [exact Hn | right; eauto].
  - intros y. unfold owns. split; intros [Hy [?|(bn & Hbn & Eb)]]; split; auto; right; exists bn; rewrite E in *; auto.
Qed.

(** The same, for the whole inode. *)
Lemma node_frame V V' d d' t l : node_ok V d t l -> din_eq d' d -> (forall y, owns V (i_addrs d) y -> V' y = V y) ->
  (forall b, datastart sb0 <= b < sb_size sb0 -> used V sb0 b = true -> used V' sb0 b = true) ->
  node_ok V' d' t l /\ forall y, owns V' (i_addrs d') y <-> owns V (i_addrs d) y.
Proof.
  intros [N1 [N2 N2'] N3 [N4 N4'] N5] [D1 D2 D3 D4 D5 D6] Hv Hu. destruct (bytes_frame V V' _ l N5 Hv Hu) as [Y O].
  destruct (bytes_addrs V' _ (i_addrs d') l Y D6) as [Y' O']. split; [constructor; [congruence | split; congruence | congruence | split; [congruence | assumption] | exact Y']|].
  intros y. now rewrite O', O.
Qed.

Lemma winode_ok i d s : 0 <= i <= NINODES -> k_sectors s = FSSIZE ->
  winode i d s = Ok tt (mkK (upd (k_img s) (IBLOCK i sb0) (print_dinode d (k_img s (IBLOCK i sb0)) (64 * (i mod IPB)))) FSSIZE (k_freeinode s) (k_freeblock s)).
Proof.
  intros Hi Hs. destruct (iblock_val i Hi) as [_ Hb]. unfold winode. cbv zeta. assert (Hb' : 0 <= IBLOCK i sb0 < FSSIZE) by (unfold FSSIZE; lia).
  rewrite (bind_ok _ _ _ _ _ (rsect_ok _ s Hb' Hs)). now apply wsect_ok.
Qed.

Lemma rinode_ok i s : 0 <= i <= NINODES -> k_sectors s = FSSIZE -> rinode i s = Ok (din_at (k_img s) i) s.
Proof.
  intros Hi Hs. destruct (iblock_val i Hi) as [_ Hb]. unfold rinode. cbv zeta. assert (Hb' : 0 <= IBLOCK i sb0 < FSSIZE) by (unfold FSSIZE; lia).
  now rewrite (bind_ok _ _ _ _ _ (rsect_ok _ s Hb' Hs)).
Qed.

(** The image after [winode]. *)
Definition put_din (img : Z -> block) (i : Z) (d : inode) : Z -> block :=
  upd img (IBLOCK i sb0) (print_dinode d (img (IBLOCK i sb0)) (64 * (i mod IPB))).

Lemma put_din_same img i d : din_fits d -> din_eq (din_at (put_din img i d) i) d.
Proof. intros H. unfold din_at, put_din, upd. rewrite Z.eqb_refl. now apply parse_print_dinode. Qed.

Lemma put_din_bytes img i j d x : 0 <= i <= NINODES -> 0 <= j <= NINODES -> i <> j -> 64 * (j mod IPB) <= x < 64 * (j mod IPB) + 64 ->
  put_din img i d (IBLOCK j sb0) x = img (IBLOCK j sb0) x.
Proof.
  intros Hi Hj Hne Hx. destruct (iblock_val i Hi) as [Ei _], (iblock_val j Hj) as [Ej _]. unfold put_din, upd. change IPB with 8 in *.
  destruct (Z.eqb_spec (IBLOCK j sb0) (IBLOCK i sb0)) as [E|E]; [|reflexivity]. rewrite E. apply print_dinode_frame.
  rewrite Ei, Ej in E. Z.to_euclidean_division_equations. lia.
Qed.

Lemma put_din_other img i j d : 0 <= i <= NINODES -> 0 <= j <= NINODES -> i <> j -> din_eq (din_at (put_din img i d) j) (din_at img j).
Proof. intros Hi Hj Hne. apply parse_dinode_ext. intros x Hx. now apply put_din_bytes. Qed.

Lemma put_din_block img i d b : 0 <= i <= NINODES -> b < sb_inodestart sb0 \/ 58 <= b -> put_din img i d b = img b.
Proof.
  intros Hi Hb. destruct (iblock_val i Hi) as [_ H]. unfold put_din, upd. change (sb_inodestart sb0) with 32 in Hb. now rewrite (proj2 (Z.eqb_neq _ _)) by lia.
Qed.

Lemma din_at_ext img img' i : img' (IBLOCK i sb0) = img (IBLOCK i sb0) -> din_at img' i = din_at img i.
Proof. intros E. unfold din_at. now rewrite E. Qed.

Lemma nodes_blocks_app n n' : nodes_blocks (n ++ n') = nodes_blocks n + nodes_blocks n'.
Proof. induction n as [|x n IH]; cbn; [reflexivity|]. unfold nodes_blocks in *. lia. Qed.

Lemma nodes_blocks_insert nodes k t l t' l' : nodes !! k = Some (t, l) ->
  nodes_blocks (<[k := (t', l')]> nodes) = nodes_blocks nodes + file_blocks (Z.of_nat (length l')) - file_blocks (Z.of_nat (length l)).
Proof.
  revert k. induction nodes as [|x nodes IH]; intros [|k] E; try discriminate.
  - injection E as ->. cbn. lia.
  - change (<[S k := (t', l')]> (x :: nodes)) with (x :: <[k := (t', l')]> nodes). cbn in *. specialize (IH k E). unfold nodes_blocks in IH. lia.
Qed.

(** The fields of a node fit their widths. *)
Lemma node_fits V d t l a' z : node_ok V d t l -> short t -> 0 <= z < two32 ->
  (forall i, 0 <= i <= NDIRECT -> 0 <= a' i < two32) -> din_fits (with_size z (with_addrs a' d)).
Proof.
  intros [N1 [N2 N2'] N3 _ _] Ht Hz Ha. unfold din_fits. cbn. rewrite N1, N2, N2', N3. split_and!; auto; unfold short; lia.
Qed.

Lemma addrs_fit s a l : st_ok s -> bytes_ok (sview s) a l -> forall i, 0 <= i <= NDIRECT -> 0 <= a i < two32.
Proof.
  intros S Y i Hi. pose proof (so_free _ S) as Hf. destruct (Z.eq_dec (a i) 0) as [->|Hn]; [unfold two32; lia|].
  assert (O : owns (sview s) a (a i)).
  { split; [exact Hn|]. destruct (Z.eq_dec i NDIRECT) as [->|]; [now left | right; exists i]. rewrite MAXFILE_val. unfold faddr.
    rewrite (proj2 (Z.ltb_lt i NDIRECT)) by lia. unfold NDIRECT in *. split; [lia | reflexivity]. }
  apply owns_range in O; [|assumption | apply Y]. rewrite nmeta_val in *. unfold FSSIZE, two32 in *. lia.
Qed.

(** Writing an inode leaves the data blocks and the bitmap as they are. *)
Lemma put_din_view img i d fb : 0 <= i <= NINODES -> forall y, nmeta <= y -> img_view (put_din img i d) fb y = img_view img fb y.
Proof. intros Hi y Hy. rewrite nmeta_val in Hy. rewrite !view_data, put_din_block by (lia || (right; lia)). reflexivity. Qed.

Lemma view_used_mono img img' fb fb' : 0 <= fb <= fb' ->
  forall b, datastart sb0 <= b < sb_size sb0 -> used (img_view img fb) sb0 b = true -> used (img_view img' fb') sb0 b = true.
Proof.
  intros Hf b Hb. rewrite datastart_val in Hb. change (sb_size sb0) with FSSIZE in Hb. rewrite !view_used by lia. intros H%Z.ltb_lt. apply Z.ltb_lt. lia.
Qed.

(** The node that is written: inode [i] gets the addresses and size of the new content. *)
Lemma appended_node s s1 i t l l' a' : let d := din_at (k_img s) i in 0 <= i <= NINODES -> short t -> node_ok (sview s) d t l ->
  appended s s1 (i_addrs d) a' l l' -> Z.of_nat (length l') <= MAXFILE * BSIZE ->
  let d' := with_size (Z.of_nat (length l')) (with_addrs a' d) in let img := put_din (k_img s1) i d' in
  node_ok (img_view img (k_freeblock s1)) (din_at img i) t l' /\
  forall y, owns (img_view img (k_freeblock s1)) (i_addrs (din_at img i)) y <-> owns (sview s1) a' y.
Proof.
  intros d Hi Ht N A Hmax d' img. pose proof (so_free _ (ap_ok _ _ _ _ _ _ A)) as Hf. rewrite nmeta_val in Hf.
  pose proof (ap_bytes _ _ _ _ _ _ A) as Y. assert (F : din_fits d').
  { apply (node_fits _ _ _ _ a' _ N Ht); [change (MAXFILE * BSIZE) with 71680 in Hmax; unfold two32; lia|]. exact (addrs_fit s1 a' l' (ap_ok _ _ _ _ _ _ A) Y). }
  apply (node_frame (sview s1) _ d'); [|now apply put_din_same | |apply view_used_mono; lia].
  - destruct N as [N1 N2 N3 N4 N5]. constructor; auto.
  - intros y Hy. apply put_din_view; [exact Hi|]. apply owns_range in Hy; [lia | apply A | apply Y].
Qed.

(** The nodes that are not written. *)
Lemma appended_other s s1 i j t l tj lj a' l' d' : let d := din_at (k_img s) i in 0 <= i <= NINODES -> 0 <= j <= NINODES -> i <> j -> st_ok s ->
  node_ok (sview s) d t l -> node_ok (sview s) (din_at (k_img s) j) tj lj ->
  (forall y, owns (sview s) (i_addrs d) y -> owns (sview s) (i_addrs (din_at (k_img s) j)) y -> False) ->
  appended s s1 (i_addrs d) a' l l' -> let img := put_din (k_img s1) i d' in
  node_ok (img_view img (k_freeblock s1)) (din_at img j) tj lj /\
  forall y, owns (img_view img (k_freeblock s1)) (i_addrs (din_at img j)) y <-> owns (sview s) (i_addrs (din_at (k_img s) j)) y.
Proof.
  intros d Hi Hj Hne S N Nj Ap A img. pose proof (so_free _ S) as Hf. rewrite nmeta_val in Hf. destruct (iblock_val j Hj) as [_ Hb].
  apply (node_frame (sview s)); auto.
  - assert (E : din_at (k_img s1) j = din_at (k_img s) j).
    { apply din_at_ext, (ap_frame _ _ _ _ _ _ A); [lia|]. intros O. apply owns_range in O; [rewrite nmeta_val in O; lia | exact S | apply N]. }
    rewrite <- E. now apply put_din_other.
  - intros y Hy. pose proof (owns_range s _ y S (by_blocks _ _ _ (nd_bytes _ _ _ _ Nj)) Hy) as Hr. unfold img. rewrite put_din_view by (auto; lia).
    rewrite nmeta_val in Hr. rewrite !view_data by lia. apply (ap_frame _ _ _ _ _ _ A); [lia | intros O; exact (Ap y O Hy)].
  - apply view_used_mono. pose proof (ap_mono _ _ _ _ _ _ A). lia.
Qed.

(** Writing one inode of an image, with its blocks. *)
Lemma image_write s s1 nodes nodes' k d' : let i := Z.of_nat k + 1 in let img := put_din (k_img s1) i d' in let V' := img_view img (k_freeblock s1) in
  image_ok s nodes -> st_ok s1 -> k_freeinode s1 = 1 + Z.of_nat (length nodes') -> Z.of_nat (length nodes') < NINODES ->
  k_freeblock s1 = nmeta + nodes_blocks nodes' -> (forall b, b < nmeta -> k_img s1 b = k_img s b) ->
  (k < length nodes')%nat -> (length nodes <= length nodes')%nat -> (forall j, j <> k -> nodes' !! j = nodes !! j) ->
  (forall j tj lj, j <> k -> nodes !! j = Some (tj, lj) -> node_ok V' (din_at img (Z.of_nat j + 1)) tj lj /\
    forall y, owns V' (i_addrs (din_at img (Z.of_nat j + 1))) y <-> owns (sview s) (i_addrs (din_at (k_img s) (Z.of_nat j + 1))) y) ->
  (forall t l, nodes' !! k = Some (t, l) -> node_ok V' (din_at img i) t l) ->
  (forall j y, (j < length nodes)%nat -> j <> k -> owns (sview s) (i_addrs (din_at (k_img s) (Z.of_nat j + 1))) y -> owns V' (i_addrs (din_at img i)) y -> False) ->
  image_ok (mkK img FSSIZE (k_freeinode s1) (k_freeblock s1)) nodes'.
Proof.
  intros i img V' [S _ F M No Cl Ap] S1 N1 N2 F1 Low Hk Hlen Same Other Nk Ak. assert (Hi : 0 <= i <= NINODES) by lia.
  assert (Hj : forall j, (j < length nodes')%nat -> j <> k -> exists tj lj, nodes !! j = Some (tj, lj) /\ (j < length nodes)%nat).
  { intros j Hj Hjk. destruct (lookup_lt_is_Some_2 nodes' j Hj) as [[tj lj] Lj]. rewrite Same in Lj by exact Hjk. exists tj, lj. split; [exact Lj | exact (lookup_lt_Some _ _ _ Lj)]. }
  constructor; cbn [k_img k_freeblock k_freeinode]; [|exact (conj N1 N2) | exact F1|..].
  - destruct S1 as [A1 A2 A3]. constructor; cbn [k_img k_freeblock k_sectors]; auto. rewrite nmeta_val in A2. intros b Hb. unfold img. rewrite put_din_block by (auto; lia). auto.
  - intros b Hb. change (sb_inodestart sb0) with 32 in *. unfold img. rewrite put_din_block, Low, M by (auto; rewrite ?nmeta_val; change (sb_inodestart sb0) with 32; lia). reflexivity.
  - intros j tj lj Lj. destruct (decide (j = k)) as [->|Hjk]; [now apply Nk|]. rewrite Same in Lj by exact Hjk. now apply Other.
  - intros j Hj' Hc x Hx. destruct (iblock_val j Hj') as [_ Hb]. unfold img. rewrite put_din_bytes by (auto; lia). rewrite Low by (rewrite nmeta_val; lia). apply Cl; auto; lia.
  - intros j j' Hjl Hjl' Hne y Oj Oj'. destruct (decide (j = k)) as [->|Hjk].
    + destruct (Hj j' Hjl' ltac:(lia)) as (tj & lj & Lj & Hl). apply (Other j' tj lj) in Oj'; auto. exact (Ak j' y Hl ltac:(lia) Oj' Oj).
    + destruct (Hj j Hjl Hjk) as (tj & lj & Lj & Hl). apply (Other j tj lj Hjk Lj) in Oj. destruct (decide (j' = k)) as [->|Hjk']; [exact (Ak j y Hl Hjk Oj Oj')|].
      destruct (Hj j' Hjl' Hjk') as (tj' & lj' & Lj' & Hl'). apply (Other j' tj' lj' Hjk' Lj') in Oj'. exact (Ap j j' Hl Hl' Hne y Oj Oj').
Qed.

Lemma iappend_ok s nodes k t l p n : image_ok s nodes -> nodes !! k = Some (t, l) -> short t -> 0 <= n -> Z.of_nat (length l) + n <= MAXFILE * BSIZE ->
  let nodes' := <[k := (t, l ++ map p (seqZ 0 n))]> nodes in nmeta + nodes_blocks nodes' <= FSSIZE ->
  exists s', iappend (Z.of_nat k + 1) p n s = Ok tt s' /\ image_ok s' nodes'.
Proof.
  intros Im Lk Ht Hn Hmax nodes' Hfb. pose proof Im as [S [N1 N2] F _ No _ Ap]. pose proof (lookup_lt_Some _ _ _ Lk) as Hk.
  set (i := Z.of_nat k + 1). assert (Hi : 0 <= i <= NINODES) by lia. pose proof (so_sectors _ S) as Hs. set (d := din_at (k_img s) i).
  pose proof (No k t l Lk) as Nk. fold i d in Nk. set (l' := l ++ map p (seqZ 0 n)) in *.
  assert (El : Z.of_nat (length l') = Z.of_nat (length l) + n) by (unfold l'; rewrite length_app, length_map, length_seqZ; lia).
  assert (Eb := nodes_blocks_insert nodes k t l t l' Lk). fold nodes' in Eb. assert (Eb' := Eb). rewrite El in Eb'.
  destruct (iappend_loop_ok p (Z.to_nat n + 1) s d 0 n l S (nd_bytes _ _ _ _ Nk) Hn Hmax) as (s1 & a' & R1 & A); [lia | lia|]. fold l' in A.
  set (d' := with_size (Z.of_nat (length l')) (with_addrs a' d)).
  exists (mkK (put_din (k_img s1) i d') FSSIZE (k_freeinode s1) (k_freeblock s1)). split.
  { unfold iappend. rewrite (bind_ok _ _ _ _ _ (rinode_ok i s Hi Hs)). fold d. rewrite (proj1 (nd_size _ _ _ _ Nk)), (bind_ok _ _ _ _ _ R1). cbn [fst snd].
    rewrite <- El. fold d'. rewrite winode_ok; [reflexivity | exact Hi | apply A]. }
  destruct (appended_node s s1 i t l l' a' Hi Ht Nk A ltac:(lia)) as [Nk' Ok']. fold d d' in Nk', Ok'.
  apply (image_write s s1 nodes); unfold nodes'; rewrite ?length_insert; [exact Im | apply A | rewrite (ap_inode _ _ _ _ _ _ A); exact N1 | exact N2 | | | exact Hk | lia|..].
  - fold nodes'. rewrite (ap_free _ _ _ _ _ _ A). lia.
  - intros b Hb. pose proof (so_free _ S). apply (ap_frame _ _ _ _ _ _ A); [lia|]. intros O. apply owns_range in O; [lia | exact S | apply Nk].
  - intros j Hj. apply list_lookup_insert_ne. lia.
  - intros j tj lj Hj Lj. pose proof (lookup_lt_Some _ _ _ Lj). apply (appended_other s s1 i (Z.of_nat j + 1) t l tj lj a' l' d'); auto; try lia.
    intros y Hy Hy'. exact (Ap k j Hk ltac:(lia) ltac:(lia) y Hy Hy').
  - intros t0 l0. rewrite list_lookup_insert_eq by exact Hk. intros [= <- <-]. exact Nk'.
  - intros j y Hj Hjk Oj Oi. destruct (lookup_lt_is_Some_2 nodes j Hj) as [[tj lj] Lj]. apply Ok' in Oi.
    apply (ap_owns _ _ _ _ _ _ A) in Oi as [Oi|Oi]; [exact (Ap k j Hk Hj ltac:(lia) y Oi Oj)|].
    apply owns_range in Oj; [lia | exact S | apply (No j tj lj Lj)].
Qed.

(** A new file is empty. *)
Lemma bytes_empty V a : (forall i, 0 <= i <= NDIRECT -> a i = 0) -> bytes_ok V a [] /\ forall y, ~ owns V a y.
Proof.
  intros E. assert (Ei : a NDIRECT = 0) by (apply E; unfold NDIRECT; lia).
  assert (Ef : forall bn, 0 <= bn -> faddr V a bn = 0).
  { intros bn Hb. unfold faddr. rewrite Ei. destruct (Z.ltb_spec bn NDIRECT); [apply E; lia | reflexivity]. }
  split; [constructor; [constructor| | |]; rewrite ?Ei; auto|].
  - intros bn Hb. left. apply Ef. lia.
  - intros bn bn' Hb Hb'. rewrite Ef by lia. tauto.
  - intros bn Hb. rewrite Ef by lia. unfold BSIZE. cbn. lia.
  - unfold BSIZE, NDIRECT. cbn. lia.
  - intros off Hoff. unfold content. rewrite Ef by (apply Z.div_pos; unfold BSIZE; lia). unfold buffer. destruct (off <? 0); [reflexivity|]. now destruct (Z.to_nat off).
  - intros y [Hy [->|(bn & Hbn & Eb)]]; [lia|]. rewrite Ef in Eb by lia. lia.
Qed.

Lemma ialloc_ok s nodes t : image_ok s nodes -> Z.of_nat (length nodes) + 1 < NINODES -> short t ->
  exists s', ialloc t s = Ok (Z.of_nat (length nodes) + 1) s' /\ image_ok s' (nodes ++ [(t, [])]).
Proof.
  intros Im Hlen Ht. pose proof Im as [S [N1 N2] F _ No _ Ap]. set (k := length nodes). set (i := Z.of_nat k + 1). assert (Hi : 0 <= i <= NINODES) by lia.
  pose proof (so_free _ S) as Hf. rewrite nmeta_val in Hf. set (d := with_size 0 (with_nlink 1 (with_type t dinode0))). set (s1 := mkK (k_img s) (k_sectors s) (i + 1) (k_freeblock s)).
  assert (Fd : din_fits d) by (unfold din_fits, short in *; cbn; unfold two32; split_and!; auto; lia).
  assert (Dk := put_din_same (k_img s1) i d Fd). set (img := put_din (k_img s1) i d) in *. set (V' := img_view img (k_freeblock s1)).
  destruct (bytes_empty V' (i_addrs (din_at img i))) as [Y0 O0]; [intros j Hj; now rewrite (de_addrs _ _ Dk)|].
  exists (mkK img FSSIZE (i + 1) (k_freeblock s)). split.
  { unfold ialloc. rewrite (bind_ok (gets k_freeinode) _ s _ s eq_refl), N1. unfold bind at 1, modify. rewrite N1, u32_small by (unfold NINODES, two32 in *; lia).
    replace (1 + Z.of_nat (length nodes)) with i by (unfold i, k; lia). fold d. rewrite (bind_ok _ _ _ _ _ (winode_ok i d s1 Hi (so_sectors _ S))). reflexivity. }
  assert (Hl1 : length (nodes ++ [(t, [])]) = Datatypes.S k) by (rewrite length_app; cbn; lia).
  apply (image_write s s1 nodes (nodes ++ [(t, [])]) k d); fold i img V'; rewrite ?Hl1; cbn [s1 k_freeinode k_freeblock k_img]; [exact Im | now destruct S | lia | lia | | reflexivity | lia | lia|..].
  - rewrite F, nodes_blocks_app. change (nodes_blocks [(t, [])]) with 0. lia.
  - intros j Hj. destruct (Nat.lt_ge_cases j k) as [|Hge]; [now apply lookup_app_l|]. rewrite (lookup_ge_None_2 nodes), lookup_ge_None_2; auto; rewrite ?Hl1; unfold k in *; lia.
  - intros j tj lj Hj Lj. pose proof (lookup_lt_Some _ _ _ Lj). apply (node_frame (sview s)); auto.
    + apply put_din_other; lia.
    + intros y Hy. apply put_din_view; [exact Hi|]. apply owns_range in Hy; [lia | exact S | apply (No j tj lj Lj)].
    + apply view_used_mono. cbn. lia.
  - intros t0 l0. rewrite list_lookup_middle by reflexivity. intros [= <- <-]. destruct Dk as [D1 D2 D3 D4 D5 D6]. constructor; auto.
    split; [exact D5 | unfold BSIZE; cbn; rewrite MAXFILE_val; lia].
  - intros j y _ _ _ O. exact (O0 y O).
Qed.

(** ** The arguments *)

Lemma buffer_list l : map (buffer l) (seqZ 0 (Z.of_nat (length l))) = l.
Proof.
  apply list_eq. intros i. change (map (buffer l) ?x) with (buffer l <$> x). rewrite list_lookup_fmap. destruct (Nat.lt_ge_cases i (length l)) as [Hi|Hi].
  - rewrite (proj2 (lookup_seqZ 0 _ i (Z.of_nat i))) by lia. cbn. unfold buffer. rewrite (proj2 (Z.ltb_ge _ 0)), Nat2Z.id by lia.
    destruct (lookup_lt_is_Some_2 l i Hi) as [x Hx]. rewrite Hx. f_equal. now apply nth_lookup_Some.
  - rewrite !lookup_ge_None_2; [reflexivity | lia | rewrite length_seqZ; lia].
Qed.

Lemma nodes_blocks_bound nodes k t l l0 : nodes !! k = Some (t, l0) -> (length l <= length l0)%nat -> nodes_blocks (<[k := (t, l)]> nodes) <= nodes_blocks nodes.
Proof. intros L H. rewrite (nodes_blocks_insert nodes k t l0 t l L). pose proof (file_blocks_mono (Z.of_nat (length l)) (Z.of_nat (length l0))). lia. Qed.

Lemma nodes_blocks_pos nodes : 0 <= nodes_blocks nodes.
Proof.
  induction nodes as [|[t l] nodes IH]; [reflexivity|]. change (nodes_blocks ((t, l) :: nodes)) with (file_blocks (Z.of_nat (length l)) + nodes_blocks nodes).
  pose proof (file_blocks_mono 0 (Z.of_nat (length l)) ltac:(lia)) as H. change (file_blocks 0) with 0 in H. lia.
Qed.

Lemma append_pieces_ok pieces : forall s nodes k t l, image_ok s nodes -> nodes !! k = Some (t, l) -> short t ->
  let l' := l ++ concat pieces in Z.of_nat (length l') <= MAXFILE * BSIZE -> nmeta + nodes_blocks (<[k := (t, l')]> nodes) <= FSSIZE ->
  exists s', append_pieces (Z.of_nat k + 1) pieces s = Ok tt s' /\ image_ok s' (<[k := (t, l')]> nodes).
Proof.
  induction pieces as [|b pieces IH]; intros s nodes k t l Im L Ht l' Hmax Hfb; cbn [append_pieces].
  - exists s. split; [reflexivity|]. unfold l'. rewrite app_nil_r, list_insert_id; auto.
  - pose proof (lookup_lt_Some _ _ _ L) as Hk. assert (El : l' = (l ++ b) ++ concat pieces) by (unfold l'; cbn; now rewrite app_assoc).
    assert (Hb : (length (l ++ b) <= length l')%nat) by (rewrite El, (length_app (l ++ b)); lia). rewrite length_app in Hb.
    pose proof (nodes_blocks_bound (<[k := (t, l')]> nodes) k t (l ++ b) l') as Hle. rewrite list_insert_insert_eq, list_lookup_insert_eq in Hle by exact Hk.
    specialize (Hle eq_refl ltac:(rewrite length_app; lia)).
    destruct (iappend_ok s nodes k t l (buffer b) (Z.of_nat (length b)) Im L Ht) as (s1 & R1 & Im1); rewrite ?buffer_list in *; try lia.
    rewrite (bind_ok _ _ _ _ _ R1). destruct (IH s1 _ k t (l ++ b) Im1 (list_lookup_insert_eq _ _ _ Hk) Ht) as (s2 & R2 & Im2); rewrite <- ?El, ?list_insert_insert_eq; auto.
    exists s2. split; [exact R2|]. now rewrite <- El, list_insert_insert_eq in Im2.
Qed.

Section Files.
Variable host : list Z -> option (list (list Z)).

(** The bytes of a host file. *)
Definition contents (name : list Z) : list Z := match host name with Some pieces => concat pieces | None => [] end.

Definition arg_ok (name : list Z) : Prop :=
  Forall (fun c => 0 < c < 256) name /\ (47 ∉ name) /\ is_Some (host name) /\ Z.of_nat (length (contents name)) <= MAXFILE * BSIZE.

Definition entry_bytes (inum : Z) (name : list Z) : list Z := map (mkdirent inum name) (seqZ 0 16).

(** The entries for the files that get the inodes from [i] on. *)
Fixpoint dir_bytes (i : Z) (names : list (list Z)) : list Z :=
  match names with [] => [] | name :: names => entry_bytes i (skip_underscore name) ++ dir_bytes (i + 1) names end.

Definition file_nodes (names : list (list Z)) : list (Z * list Z) := map (fun name => (T_FILE, contents name)) names.

Lemma entry_bytes_length i name : length (entry_bytes i name) = 16%nat.
Proof. unfold entry_bytes. now rewrite length_map, length_seqZ. Qed.

Lemma dir_bytes_length names : forall i, length (dir_bytes i names) = (16 * length names)%nat.
Proof. induction names as [|n names IH]; intros i; cbn [dir_bytes length]; [reflexivity|]. rewrite length_app, entry_bytes_length, IH. lia. Qed.

Lemma add_file_ok s r fs name : image_ok s ((T_DIR, r) :: fs) -> arg_ok name -> Z.of_nat (length fs) + 2 < NINODES ->
  let r' := r ++ entry_bytes (Z.of_nat (length fs) + 2) (skip_underscore name) in
  Z.of_nat (length r') <= MAXFILE * BSIZE -> nmeta + nodes_blocks ((T_DIR, r') :: fs ++ [(T_FILE, contents name)]) <= FSSIZE ->
  exists s', add_file host ROOTINO name s = Ok tt s' /\ image_ok s' ((T_DIR, r') :: fs ++ [(T_FILE, contents name)]).
Proof.
  intros Im (Hc & Hs & [pieces Hh] & Hm) Hn r' Hr Hfb. set (k := S (length fs)).
  assert (Hd : short T_DIR /\ short T_FILE) by (unfold short; split; reflexivity || (vm_compute; intuition discriminate)). destruct Hd as [Hd Hf].
  unfold add_file. assert (existsb (Z.eqb 47) name = false) as ->.
  { apply not_true_is_false. rewrite existsb_exists. intros (x & Hx & E). apply Z.eqb_eq in E. subst x. now apply Hs, list_elem_of_In. }
  assert (Ec : contents name = concat pieces) by (unfold contents; now rewrite Hh). rewrite Hh. rewrite Ec in *.
  destruct (ialloc_ok s _ T_FILE Im) as (s1 & R1 & Im1); [cbn [length]; lia | exact Hf|]. rewrite (bind_ok _ _ _ _ _ R1).
  assert (Eb : nodes_blocks ((T_DIR, r') :: fs ++ [(T_FILE, [])]) <= nodes_blocks ((T_DIR, r') :: fs ++ [(T_FILE, concat pieces)])).
  { change (?x :: fs ++ ?y) with ((x :: fs) ++ y). rewrite !nodes_blocks_app. pose proof (file_blocks_mono 0 (Z.of_nat (length (concat pieces))) ltac:(lia)).
    apply Z.add_le_mono_l. unfold nodes_blocks. cbn [foldr snd length]. change (Z.of_nat 0) with 0. lia. }
  assert (Ek : Z.of_nat (length ((T_DIR, r) :: fs)) + 1 = Z.of_nat (length fs) + 2) by (cbn [length]; lia). rewrite Ek.
  destruct (iappend_ok s1 (((T_DIR, r) :: fs) ++ [(T_FILE, [])]) 0 T_DIR r (mkdirent (Z.of_nat (length fs) + 2) (skip_underscore name)) 16 Im1) as (s2 & R2 & Im2); auto; try lia.
  { unfold r' in Hr. rewrite length_app, entry_bytes_length in Hr. lia. } { cbn. unfold r', entry_bytes in *. cbn in Eb, Hfb. lia. }
  change (Z.of_nat 0 + 1) with ROOTINO in R2. rewrite (bind_ok _ _ _ _ _ R2).
  change (<[0%nat := (T_DIR, r ++ map (mkdirent (Z.of_nat (length fs) + 2) (skip_underscore name)) (seqZ 0 16))]> (((T_DIR, r) :: fs) ++ [(T_FILE, [])]))
    with (((T_DIR, r') :: fs) ++ [(T_FILE, [])]) in Im2.
  assert (Ins : forall x, <[k := x]> (((T_DIR, r') :: fs) ++ [(T_FILE, [])]) = (T_DIR, r') :: fs ++ [x]).
  { intros x. change k with (length ((T_DIR, r') :: fs)). rewrite <- (Nat.add_0_r (length _)), insert_app_r. reflexivity. }
  destruct (append_pieces_ok pieces s2 _ k T_FILE [] Im2) as (s3 & R3 & Im3); rewrite ?Ins; auto.
  { change k with (length ((T_DIR, r') :: fs)). now apply list_lookup_middle. }
  exists s3. split; [|now rewrite Ins in Im3]. now replace (Z.of_nat (length fs) + 2) with (Z.of_nat k + 1) by (unfold k; lia).
Qed.

Lemma add_files_ok names : forall s r fs, image_ok s ((T_DIR, r) :: fs) -> Forall arg_ok names -> Z.of_nat (length fs + length names) + 1 < NINODES ->
  let r' := r ++ dir_bytes (Z.of_nat (length fs) + 2) names in let nodes' := (T_DIR, r') :: fs ++ file_nodes names in
  Z.of_nat (length r') <= MAXFILE * BSIZE -> nmeta + nodes_blocks nodes' <= FSSIZE ->
  exists s', add_files host ROOTINO names s = Ok tt s' /\ image_ok s' nodes'.
Proof.
  induction names as [|name names IH]; intros s r fs Im Ha Hn r' nodes' Hr Hfb; cbn [add_files].
  - exists s. split; [reflexivity|]. unfold nodes', r'. cbn. now rewrite !app_nil_r.
  - apply Forall_cons in Ha as [Ha Has]. cbn [length] in Hn. set (r1 := r ++ entry_bytes (Z.of_nat (length fs) + 2) (skip_underscore name)).
    assert (Er : r' = r1 ++ dir_bytes (Z.of_nat (length (fs ++ [(T_FILE, contents name)])) + 2) names).
    { unfold r', r1. cbn [dir_bytes]. rewrite app_assoc. do 2 f_equal. rewrite length_app. cbn [length]. lia. }
    assert (En : nodes' = (T_DIR, r') :: (fs ++ [(T_FILE, contents name)]) ++ file_nodes names) by (unfold nodes'; cbn; now rewrite <- app_assoc).
    assert (Hr1 : (length r1 <= length r')%nat) by (rewrite Er, (length_app r1); lia).
    assert (Hb1 : nodes_blocks ((T_DIR, r1) :: fs ++ [(T_FILE, contents name)]) <= nodes_blocks nodes').
    { rewrite En. pose proof (file_blocks_mono (Z.of_nat (length r1)) (Z.of_nat (length r')) ltac:(lia)).
      change (nodes_blocks ((T_DIR, ?x) :: ?y)) with (file_blocks (Z.of_nat (length x)) + nodes_blocks y). rewrite (nodes_blocks_app _ (file_nodes names)).
      pose proof (nodes_blocks_pos (file_nodes names)). lia. }
    destruct (add_file_ok s r fs name Im Ha) as (s1 & R1 & Im1); fold r1; try lia. fold r1 in Im1. rewrite (bind_ok _ _ _ _ _ R1).
    destruct (IH s1 r1 (fs ++ [(T_FILE, contents name)]) Im1 Has) as (s2 & R2 & Im2); rewrite <- ?Er, <- ?En; auto.
    + rewrite length_app. cbn [length]. lia.
    + exists s2. split; [exact R2|]. now rewrite <- Er, <- En in Im2.
Qed.
End Files.

(** ** The whole image *)

Lemma clear_image_ok k : forall i s, 0 <= i -> i + Z.of_nat k <= FSSIZE -> k_sectors s = i -> (forall b, k_img s b = zeroes) ->
  exists s', clear_image k i s = Ok tt s' /\ k_sectors s' = i + Z.of_nat k /\ k_freeinode s' = k_freeinode s /\ k_freeblock s' = k_freeblock s /\
    forall b, k_img s' b = zeroes.
Proof.
  induction k as [|k IH]; intros i s Hi Hk Hs Hz; cbn [clear_image]; [exists s; split_and!; auto; lia|].
  unfold FSSIZE in *. unfold bind, wsect, modify. rewrite sector_small by lia.
  destruct (IH (i + 1) (mkK (upd (k_img s) i zeroes) (Z.max (k_sectors s) (i + 1)) (k_freeinode s) (k_freeblock s))) as (s' & R & S1 & S2 & S3 & S4); try (cbn; lia).
  { intros b. cbn. unfold upd. destruct (b =? i); [reflexivity | apply Hz]. }
  exists s'. split_and!; auto. lia.
Qed.

(** The image before the first inode. *)
Lemma empty_image_ok s : k_sectors s = FSSIZE -> k_freeinode s = 1 -> k_freeblock s = nmeta -> (forall b, k_img s b = upd (fun _ => zeroes) 1 (print_sb sb0 zeroes) b) ->
  image_ok s [].
Proof.
  intros Hs Hi Hf Hz. pose proof nmeta_val as Hn. assert (Hz' : forall b, b <> 1 -> k_img s b = zeroes) by (intros b Hb; rewrite Hz; unfold upd; now rewrite (proj2 (Z.eqb_neq b 1))).
  constructor; auto.
  - constructor; [exact Hs | rewrite Hf; unfold FSSIZE; lia | intros b Hb; apply Hz'; lia].
  - split; [exact Hi | unfold NINODES; cbn; lia].
  - intros k t l L. discriminate.
  - intros i Hi' _ x _. rewrite Hz'; [reflexivity|]. destruct (iblock_val i Hi'). lia.
  - intros j k Hj. cbn in Hj. lia.
Qed.

(** [fix_root] and [balloc]: the root directory is as long as its blocks, or one
    block longer. *)
Definition root_size (n : Z) : Z := (n / BSIZE + 1) * BSIZE.

Lemma finish_ok s nodes r : image_ok s ((T_DIR, r) :: nodes) -> let d := din_at (k_img s) ROOTINO in
  let img := put_din (k_img s) ROOTINO (with_size (root_size (Z.of_nat (length r))) d) in
  (fix_root ROOTINO ;;; used <- gets k_freeblock ;; balloc used) s = Ok tt (mkK (img_view img (k_freeblock s)) FSSIZE (k_freeinode s) (k_freeblock s)).
Proof.
  intros Im d img. pose proof (im_nodes _ _ Im 0 T_DIR r eq_refl) as N. change (Z.of_nat 0 + 1) with ROOTINO in N. fold d in N. destruct (nd_size _ _ _ _ N) as [N1 N2].
  pose proof (im_st _ _ Im) as [S1 S2 S3]. change (MAXFILE * BSIZE) with 71680 in N2. assert (Hi : 0 <= ROOTINO <= NINODES) by (unfold ROOTINO, NINODES; lia).
  unfold fix_root. rewrite bind_assoc, (bind_ok _ _ _ _ _ (rinode_ok ROOTINO s Hi S1)). fold d. rewrite N1, u32_small by (unfold BSIZE, two32; Z.to_euclidean_division_equations; lia).
  fold (root_size (Z.of_nat (length r))). rewrite (bind_ok _ _ _ _ _ (winode_ok ROOTINO _ s Hi S1)). fold (put_din (k_img s) ROOTINO (with_size (root_size (Z.of_nat (length r))) d)). fold img.
  rewrite (bind_ok (gets k_freeblock) _ _ _ _ eq_refl). cbn [k_freeblock]. unfold balloc. rewrite (proj2 (Z.ltb_lt _ _)) by (unfold FSSIZE, BSIZE in *; lia).
  rewrite wsect_ok; [reflexivity | vm_compute; intuition discriminate | reflexivity].
Qed.

(** The files of a finished image. *)
Lemma finished_node s nodes r k t l d' : image_ok s ((T_DIR, r) :: nodes) -> nodes !! k = Some (t, l) ->
  let V := img_view (put_din (k_img s) ROOTINO d') (k_freeblock s) in
  node_ok V (din_at V (Z.of_nat k + 2)) t l /\
  forall y, owns V (i_addrs (din_at V (Z.of_nat k + 2))) y <-> owns (sview s) (i_addrs (din_at (k_img s) (Z.of_nat k + 2))) y.
Proof.
  intros Im L V. pose proof (lookup_lt_Some _ _ _ L) as Hk. pose proof (im_st _ _ Im) as S. pose proof (so_free _ S) as Hf. rewrite nmeta_val in Hf.
  destruct (im_next _ _ Im) as [_ Hn]. cbn [length] in Hn. assert (Hi : 0 <= ROOTINO <= NINODES) by (unfold ROOTINO, NINODES; lia).
  pose proof (im_nodes _ _ Im (Datatypes.S k) t l L) as N. replace (Z.of_nat (Datatypes.S k) + 1) with (Z.of_nat k + 2) in N by lia. set (j := Z.of_nat k + 2) in *.
  assert (Hj : 0 <= j <= NINODES) by (unfold j; lia). destruct (iblock_val j Hj) as [_ Hb].
  apply (node_frame (sview s)); auto; [| |apply view_used_mono; lia].
  - rewrite (din_at_ext (put_din (k_img s) ROOTINO d') V) by (apply view_data; lia). apply put_din_other; auto. unfold ROOTINO, j. lia.
  - intros y Hy. apply put_din_view; [exact Hi|]. apply owns_range in Hy; [lia | exact S | apply N].
Qed.

(** *** The entries of the root directory *)

Lemma cstr_buffer l n : forall p, Forall (fun c => 0 < c < 256) l -> cstr (buffer l) (Z.of_nat p) n = take n (drop p l).
Proof.
  induction n as [|n IH]; intros p Hl; [now rewrite take_0|]. cbn [cstr]. unfold buffer at 1 2. rewrite (proj2 (Z.ltb_ge _ 0)), Nat2Z.id by lia.
  destruct (Nat.lt_ge_cases p (length l)) as [Hp|Hp].
  - destruct (lookup_lt_is_Some_2 l p Hp) as [c Hc]. rewrite (nth_lookup_Some _ _ _ _ Hc), (drop_S _ c p Hc). pose proof (Forall_lookup_1 _ _ _ _ Hl Hc) as Hr. cbn in Hr.
    unfold truth. rewrite (proj2 (Z.eqb_neq c 0)) by lia. cbn [negb take]. f_equal. rewrite <- IH by exact Hl. f_equal. lia.
  - rewrite nth_overflow, drop_ge by lia. now destruct n.
Qed.

Definition char_ok (name : list Z) : Prop := Forall (fun c => 0 < c < 256) name.

Lemma cname_buffer name : char_ok name -> cname (buffer name) = take 14 name.
Proof. intros H. unfold cname. change 0 with (Z.of_nat 0). rewrite cstr_buffer by exact H. reflexivity. Qed.

Lemma buffer_mem_ok l : Forall (fun c => 0 <= c < 256) l -> mem_ok (buffer l).
Proof.
  intros H x. unfold buffer. destruct (x <? 0); [lia|]. destruct (nth_in_or_default (Z.to_nat x) l 0) as [Hin| ->]; [|lia].
  rewrite Forall_forall in H. apply H. now apply list_elem_of_In.
Qed.

(** The bytes of a list of entries. *)
Definition entries_bytes (es : list (Z * list Z)) : list Z := concat (map (fun e => entry_bytes (fst e) (snd e)) es).
Definition stored (e : Z * list Z) : Z * list Z := (fst e, take 14 (snd e)).
Definition entry_ok (e : Z * list Z) : Prop := 0 <= fst e < 65536 /\ char_ok (snd e).

Lemma entries_bytes_length es : length (entries_bytes es) = (16 * length es)%nat.
Proof. induction es as [|e es IH]; [reflexivity|]. unfold entries_bytes in *. cbn [map concat length]. rewrite length_app, entry_bytes_length, IH. lia. Qed.

Lemma slots_entries f es : forall i, Forall entry_ok es ->
  (forall o, 16 * Z.of_nat i <= o < 16 * Z.of_nat (i + length es) -> f o = buffer (entries_bytes es) (o - 16 * Z.of_nat i)) ->
  slots f (length es) i = map stored es.
Proof.
  induction es as [|e es IH]; intros i He Hf; [reflexivity|]. apply Forall_cons in He as [[He1 He2] He]. cbn [length map] in *.
  change (slots f (S (length es)) i) with (slot f i :: slots f (length es) (S i)).
  assert (Hb : forall x, 0 <= x -> buffer (entries_bytes (e :: es)) x = if x <? 16 then mkdirent (fst e) (snd e) x else buffer (entries_bytes es) (x - 16)).
  { intros x Hx. unfold entries_bytes. cbn [map concat]. rewrite buffer_app, entry_bytes_length by exact Hx. change (Z.of_nat 16) with 16.
    destruct (Z.ltb_spec x 16); [unfold entry_bytes; now rewrite buffer_map by lia | reflexivity]. }
  f_equal.
  - unfold stored. rewrite <- cname_buffer by exact He2. apply print_slot; [exact He1 | |].
    + apply buffer_mem_ok. eapply Forall_impl; [exact He2 | cbn; lia].
    + intros o Ho. rewrite Hf, Hb, (proj2 (Z.ltb_lt _ 16)) by lia. reflexivity.
  - apply IH; [exact He|]. intros o Ho. rewrite Hf, Hb, (proj2 (Z.ltb_ge _ 16)) by lia. f_equal. lia.
Qed.

Lemma slots_clear f k : forall i, (forall o, 16 * Z.of_nat i <= o < 16 * Z.of_nat (i + k) -> f o = 0) -> slots f k i = replicate k (0, []).
Proof.
  induction k as [|k IH]; intros i Hf; [reflexivity|]. change (slots f (S k) i) with (slot f i :: slots f k (S i)). cbn [replicate]. f_equal; [|apply IH; intros o Ho; apply Hf; lia].
  unfold slot, load16. rewrite !Hf by lia. change (Z.to_nat DIRSIZ) with 14%nat. cbn [cstr]. now rewrite Hf by lia.
Qed.

(** The entries that [mkfs] writes. *)
Fixpoint numbered (i : Z) (names : list (list Z)) : list (Z * list Z) :=
  match names with [] => [] | name :: names => (i, skip_underscore name) :: numbered (i + 1) names end.

Definition root_entries (names : list (list Z)) : list (Z * list Z) := (1, [46]) :: (1, [46; 46]) :: numbered 2 names.

Lemma numbered_length names : forall i, length (numbered i names) = length names.
Proof. induction names as [|n names IH]; intros i; cbn; [reflexivity | now rewrite IH]. Qed.

Lemma dir_bytes_numbered names : forall i, dir_bytes i names = entries_bytes (numbered i names).
Proof. induction names as [|n names IH]; intros i; [reflexivity|]. cbn [dir_bytes numbered]. rewrite IH. reflexivity. Qed.

Lemma skip_underscore_ok name : char_ok name -> char_ok (skip_underscore name).
Proof. intros H. destruct name as [|c r]; [exact H|]. cbn. destruct (c =? 95); [now apply Forall_cons in H as [_ H] | exact H]. Qed.

Lemma numbered_ok names : forall i, 0 <= i -> i + Z.of_nat (length names) <= 65536 -> Forall char_ok names -> Forall entry_ok (numbered i names).
Proof.
  induction names as [|n names IH]; intros i Hi Hn Hc; [constructor|]. apply Forall_cons in Hc as [Hc Hcs]. cbn [length] in Hn. cbn [numbered].
  apply Forall_cons. split; [split; [cbn; lia | now apply skip_underscore_ok] | apply IH; auto; lia].
Qed.

Lemma root_entries_ok names : Z.of_nat (length names) <= 65534 -> Forall char_ok names -> Forall entry_ok (root_entries names).
Proof.
  intros Hn Hc. unfold root_entries. apply Forall_cons. split; [split; [cbn; lia | repeat constructor; lia]|]. apply Forall_cons.
  split; [split; [cbn; lia | repeat constructor; lia]|]. apply numbered_ok; [lia | lia | exact Hc].
Qed.

(** Different names are found again. *)
Lemma entries_wf es k : NoDup (map snd es) -> dir_wf (es ++ replicate k (0, [])).
Proof.
  intros Hn. assert (In : forall i e, (es ++ replicate k (0, [])) !! i = Some e -> fst e <> 0 -> es !! i = Some e).
  { intros i e L He. destruct (Nat.lt_ge_cases i (length es)) as [Hi|Hi]; [now rewrite lookup_app_l in L|].
    rewrite lookup_app_r in L by exact Hi. apply lookup_replicate in L as [-> _]. now destruct He. }
  intros i j e e' Li Lj He He' E. apply (NoDup_lookup (map snd es) i j (snd e)); [exact Hn | |];
    change (map snd es) with (snd <$> es); rewrite list_lookup_fmap; [now rewrite (In i e) | now rewrite (In j e'), E].
Qed.

Lemma dir_get_wf es j x nm : dir_wf es -> es !! j = Some (x, nm) -> x <> 0 -> dir_get es nm = Some x.
Proof.
  intros W L Hx. unfold dir_get. destruct (dir_find nm es) as [[j' x']|] eqn:E.
  - apply dir_find_some in E as [L' Hx']. assert (j = j') as <- by (apply (W j j' _ _ L L'); auto). cbn. congruence.
  - rewrite dir_find_none in E. now destruct (E j _ L Hx).
Qed.

Lemma numbered_lookup names : forall i k name, names !! k = Some name -> numbered i names !! k = Some (i + Z.of_nat k, skip_underscore name).
Proof.
  induction names as [|n names IH]; intros i [|k] name L; try discriminate; cbn in *.
  - injection L as ->. do 2 f_equal. lia.
  - transitivity (Some (i + 1 + Z.of_nat k, skip_underscore name)); [exact (IH (i + 1) k name L) | do 2 f_equal; lia].
Qed.

Section Image.
Variable host : list Z -> option (list (list Z)).

(** What is in an image made for the files [names]. *)
Definition root_bytes (names : list (list Z)) : list Z := entries_bytes (root_entries names).
Definition image_nodes (names : list (list Z)) : list (Z * list Z) := (T_DIR, root_bytes names) :: file_nodes host names.

Record mkfs_image (V : Z -> block) (names : list (list Z)) : Prop := {
  mi_super : parse_sb (V 1) = sb0;
  mi_log : disk_ok 2 nlog FSSIZE V /\ hdr_n (V 2) = 0;
  mi_used : forall b, 0 <= b < FSSIZE -> used V sb0 b = (b <? nmeta + nodes_blocks (image_nodes names));
  mi_bitmap : bitmap_ok V sb0 [];
  mi_root : let d := din_at V ROOTINO in let n := Z.of_nat (length (root_bytes names)) in
    i_type d = T_DIR /\ i_nlink d = 1 /\ i_size d = root_size n /\ blocks_ok V sb0 (i_addrs d) /\
    (forall bn, 0 <= bn < MAXFILE -> faddr V (i_addrs d) bn <> 0 <-> bn * BSIZE < n) /\
    slots (content V (i_addrs d)) (Z.to_nat (i_size d / 16)) 0 = map stored (root_entries names) ++ replicate (Z.to_nat ((root_size n - n) / 16)) (0, []);
  mi_names : let d := din_at V ROOTINO in let es := slots (content V (i_addrs d)) (Z.to_nat (i_size d / 16)) 0 in
    NoDup (map snd (map stored (root_entries names))) -> dir_wf es /\
    forall k name, names !! k = Some name -> dir_get es (take 14 (skip_underscore name)) = Some (Z.of_nat k + 2);
  mi_files : forall k name, names !! k = Some name -> node_ok V (din_at V (Z.of_nat k + 2)) T_FILE (contents host name);
  mi_apart : forall i j, 1 <= i <= Z.of_nat (length names) + 1 -> 1 <= j <= Z.of_nat (length names) + 1 -> i <> j ->
    forall y, owns V (i_addrs (din_at V i)) y -> owns V (i_addrs (din_at V j)) y -> False;
  mi_free : forall i, Z.of_nat (length names) + 1 < i < NINODES -> i_type (din_at V i) = 0
}.

Lemma parse_print_sb : parse_sb (print_sb sb0 zeroes) = sb0.
Proof. reflexivity. Qed.

(** The finished root directory. *)
Lemma finished_root s nodes r : image_ok s ((T_DIR, r) :: nodes) -> let d := din_at (k_img s) ROOTINO in
  let V := img_view (put_din (k_img s) ROOTINO (with_size (root_size (Z.of_nat (length r))) d)) (k_freeblock s) in
  let d' := din_at V ROOTINO in i_type d' = T_DIR /\ i_nlink d' = 1 /\ i_size d' = root_size (Z.of_nat (length r)) /\ bytes_ok V (i_addrs d') r /\
  forall y, owns V (i_addrs d') y <-> owns (sview s) (i_addrs d) y.
Proof.
  intros Im d V d'. pose proof (im_st _ _ Im) as S. pose proof (so_free _ S) as Hf. rewrite nmeta_val in Hf. assert (Hi : 0 <= ROOTINO <= NINODES) by (unfold ROOTINO, NINODES; lia).
  pose proof (im_nodes _ _ Im 0 T_DIR r eq_refl) as N. change (Z.of_nat 0 + 1) with ROOTINO in N. fold d in N. pose proof N as [N1 _ N3 [N4 N5] N6].
  destruct (iblock_val ROOTINO Hi) as [_ Hb]. change (MAXFILE * BSIZE) with 71680 in N5.
  assert (Ft : din_fits (with_size (root_size (Z.of_nat (length r))) d)).
  { rewrite <- (with_addrs_same d) at 1. apply (node_fits _ _ _ _ _ _ N); [unfold short; vm_compute; intuition discriminate | unfold root_size, BSIZE, two32; Z.to_euclidean_division_equations; lia|].
    exact (addrs_fit s _ r S N6). }
  assert (De : din_eq d' (with_size (root_size (Z.of_nat (length r))) d)).
  { unfold d'. rewrite (din_at_ext (put_din (k_img s) ROOTINO (with_size (root_size (Z.of_nat (length r))) d)) V) by (apply view_data; lia). now apply put_din_same. }
  destruct (bytes_frame (sview s) V (i_addrs d) r N6) as [Y O]; [|apply view_used_mono; lia|].
  { intros y Hy. apply put_din_view; [exact Hi|]. apply owns_range in Hy; [lia | exact S | apply N6]. }
  destruct De as [D1 D2 D3 D4 D5 D6]. destruct (bytes_addrs V (i_addrs d) (i_addrs d') r Y D6) as [Y' O'].
  split_and!; [now rewrite D1 | now rewrite D4 | exact D5 | exact Y' | intros y; now rewrite O', O].
Qed.

Lemma root_slots V a es : bytes_ok V a (entries_bytes es) -> Forall entry_ok es -> let n := Z.of_nat (length (entries_bytes es)) in root_size n <= MAXFILE * BSIZE ->
  slots (content V a) (Z.to_nat (root_size n / 16)) 0 = map stored es ++ replicate (Z.to_nat ((root_size n - n) / 16)) (0, []).
Proof.
  intros Y He n Hn. assert (En : n = 16 * Z.of_nat (length es)) by (unfold n; rewrite entries_bytes_length; lia).
  assert (Hr : n <= root_size n) by (unfold root_size, BSIZE; Z.to_euclidean_division_equations; lia).
  assert (Ed : root_size n = 16 * (32 * (n / BSIZE + 1))) by (unfold root_size, BSIZE; lia).
  assert (E1 : root_size n / 16 = 32 * (n / BSIZE + 1)) by (rewrite Ed, Z.mul_comm; apply Z.div_mul; lia).
  assert (E2 : (root_size n - n) / 16 = root_size n / 16 - Z.of_nat (length es)) by (rewrite E1; symmetry; apply Z.div_unique_exact; lia).
  replace (Z.to_nat (root_size n / 16)) with (length es + Z.to_nat ((root_size n - n) / 16))%nat by (rewrite E2; lia).
  rewrite slots_app. f_equal.
  - apply slots_entries; [exact He|]. intros o Ho. rewrite (by_bytes _ _ _ Y) by lia. f_equal. lia.
  - apply slots_clear. intros o Ho. rewrite (by_bytes _ _ _ Y) by lia. apply buffer_out. fold n. lia.
Qed.

(** Inode [i] of the finished image owns what it owned before. *)
Lemma finished_owns s names i : image_ok s (image_nodes names) -> 1 <= i <= Z.of_nat (length names) + 1 ->
  let V := img_view (put_din (k_img s) ROOTINO (with_size (root_size (Z.of_nat (length (root_bytes names)))) (din_at (k_img s) ROOTINO))) (k_freeblock s) in
  forall y, owns V (i_addrs (din_at V i)) y <-> owns (sview s) (i_addrs (din_at (k_img s) i)) y.
Proof.
  intros Im Hi V. destruct (Z.eq_dec i ROOTINO) as [->|Hne]; [exact (proj2 (proj2 (proj2 (proj2 (finished_root _ _ _ Im)))))|]. unfold ROOTINO in Hne.
  assert (Hl : (Z.to_nat (i - 2) < length (file_nodes host names))%nat) by (unfold file_nodes; rewrite length_map; lia).
  destruct (lookup_lt_is_Some_2 _ _ Hl) as [[t l] L]. replace i with (Z.of_nat (Z.to_nat (i - 2)) + 2) by lia. exact (proj2 (finished_node s (file_nodes host names) (root_bytes names) _ t l _ Im L)).
Qed.

Lemma finished_image s names : image_ok s (image_nodes names) -> Forall char_ok names ->
  mkfs_image (img_view (put_din (k_img s) ROOTINO (with_size (root_size (Z.of_nat (length (root_bytes names)))) (din_at (k_img s) ROOTINO))) (k_freeblock s)) names.
Proof.
  intros Im Hc. pose proof (im_st _ _ Im) as S. pose proof (so_free _ S) as Hf. rewrite nmeta_val in Hf. assert (Hi : 0 <= ROOTINO <= NINODES) by (unfold ROOTINO, NINODES; lia).
  destruct (im_next _ _ Im) as [_ Hn]. unfold image_nodes, file_nodes in Hn. cbn [length] in Hn. rewrite length_map in Hn. unfold NINODES in Hn.
  pose proof (finished_root _ _ _ Im) as Fr. pose proof (fun i H => finished_owns s names i Im H) as Fo. cbv zeta in Fr, Fo. set (d := with_size _ (din_at (k_img s) ROOTINO)) in *. set (V := img_view _ _) in *.
  assert (Meta : forall b, 0 <= b < 32 -> V b = upd (fun _ => zeroes) 1 (print_sb sb0 zeroes) b).
  { intros b Hb. unfold V. rewrite view_data, put_din_block by (auto; change (sb_inodestart sb0) with 32; lia). now apply (im_meta _ _ Im). }
  assert (M1 : V 1 = print_sb sb0 zeroes) by (rewrite Meta by lia; reflexivity). assert (M2 : V 2 = zeroes) by (rewrite Meta by lia; reflexivity).
  assert (Hu : forall b, 0 <= b < FSSIZE -> used V sb0 b = (b <? k_freeblock s)) by (intros b Hb; apply view_used; lia).
  assert (El : Z.of_nat (length (root_bytes names)) = 16 * (Z.of_nat (length names) + 2)).
  { unfold root_bytes. rewrite entries_bytes_length. unfold root_entries. cbn [length]. rewrite numbered_length. lia. }
  set (n := Z.of_nat (length (root_bytes names))) in *.
  assert (Es : slots (content V (i_addrs (din_at V ROOTINO))) (Z.to_nat (i_size (din_at V ROOTINO) / 16)) 0 =
    map stored (root_entries names) ++ replicate (Z.to_nat ((root_size n - n) / 16)) (0, [])).
  { destruct Fr as (_ & _ & T3 & Y & _). rewrite T3. apply root_slots; [exact Y | now apply root_entries_ok; [lia|]|].
    fold (root_bytes names) n. rewrite El. change (MAXFILE * BSIZE) with 71680. unfold root_size, BSIZE. Z.to_euclidean_division_equations. lia. }
  constructor.
  - now rewrite M1.
  - split; [|now rewrite M2]. constructor; rewrite ?M1, ?M2; try (vm_compute; intuition discriminate).
  - intros b Hb. now rewrite Hu, (im_free _ _ Im).
  - constructor; [|intros b Hb; now apply not_elem_of_nil in Hb]. rewrite datastart_val. intros b Hb. rewrite Hu by (unfold FSSIZE; lia). apply Z.ltb_lt. lia.
  - cbv zeta. destruct Fr as (T1 & T2 & T3 & Y & _). split_and!; auto; apply Y.
  - cbv zeta. rewrite Es. intros Hnd. pose proof (entries_wf _ (Z.to_nat ((root_size n - n) / 16)) Hnd) as W. split; [exact W|]. intros k name L.
    apply (dir_get_wf _ (Datatypes.S (Datatypes.S k)) _ _ W); [|lia]. rewrite lookup_app_l by (unfold root_entries; cbn [map length]; rewrite length_map, numbered_length; apply lookup_lt_Some in L; lia).
    change (map stored ?l) with (stored <$> l). rewrite list_lookup_fmap.
    change (root_entries names !! Datatypes.S (Datatypes.S k)) with (numbered 2 names !! k). rewrite (numbered_lookup names 2 k name L). unfold stored. cbn [fst snd fmap option_fmap option_map]. now rewrite (Z.add_comm 2).
  - intros k name L. refine (proj1 (finished_node s (file_nodes host names) (root_bytes names) k T_FILE (contents host name) d Im _)).
    unfold file_nodes. change (map ?f names) with (f <$> names). now rewrite list_lookup_fmap, L.
  - intros i j Hi' Hj Hne y Oi Oj. apply Fo in Oi; [|exact Hi']. apply Fo in Oj; [|exact Hj].
    assert (Hl : length (image_nodes names) = Datatypes.S (length names)) by (unfold image_nodes, file_nodes; cbn [length]; now rewrite length_map).
    assert (Ei : Z.of_nat (Z.to_nat (i - 1)) + 1 = i) by lia. assert (Ej : Z.of_nat (Z.to_nat (j - 1)) + 1 = j) by lia.
    apply (im_apart _ _ Im (Z.to_nat (i - 1)) (Z.to_nat (j - 1)) ltac:(lia) ltac:(lia) ltac:(lia) y); rewrite ?Ei, ?Ej; assumption.
  - intros i Hi'. unfold NINODES in Hi'. destruct (iblock_val i) as [_ Hb]; [unfold NINODES; lia|]. unfold V. rewrite (din_at_ext (put_din (k_img s) ROOTINO d)) by (apply view_data; lia).
    unfold din_at. cbn [parse_dinode i_type]. assert (load16 (put_din (k_img s) ROOTINO d (IBLOCK i sb0)) (64 * (i mod IPB)) = 0) as ->; [|reflexivity].
    assert (Hz : forall x, 64 * (i mod IPB) <= x < 64 * (i mod IPB) + 64 -> put_din (k_img s) ROOTINO d (IBLOCK i sb0) x = 0).
    { intros x Hx. rewrite put_din_bytes by (unfold ROOTINO, NINODES in *; auto; lia). apply (im_clear _ _ Im); [unfold NINODES; lia | | exact Hx].
      right. unfold image_nodes, file_nodes. cbn [length]. rewrite length_map. lia. }
    unfold load16. rewrite !Hz by lia. reflexivity.
Qed.

(** C7: [mkfs] builds an image that the kernel can start on.  For arguments that can be
    opened, without a slash in the name, at most 198 of them, each of at most
    [MAXFILE] blocks and all of them together not more than the image has room for,
    it succeeds and writes all [FSSIZE] sectors.  The super block describes the
    layout; the log is empty and consistent; the bitmap marks the blocks before the
    first data block and exactly as many data blocks as the files need; inode
    [k + 2] is a file with the bytes of argument [k], in blocks that no other file
    has; and the root directory consists of the entries for itself and for the
    arguments, without a leading underscore, followed by free entries. *)
Theorem mkfs_builds_image argv0 image names : Forall (arg_ok host) names -> Z.of_nat (length names) <= 198 ->
  nmeta + nodes_blocks (image_nodes names) <= FSSIZE ->
  exists s, main host (argv0 :: image :: names) mkfs0 = Ok tt s /\ k_sectors s = FSSIZE /\ mkfs_image (k_img s) names.
Proof.
  intros Ha Hn Hfb. assert (Hd : short T_DIR) by (unfold short; vm_compute; intuition discriminate). unfold main.
  rewrite (bind_ok (modify _) _ mkfs0 tt (mkK (fun _ => zeroes) 0 1 nmeta) eq_refl).
  destruct (clear_image_ok (Z.to_nat FSSIZE) 0 (mkK (fun _ => zeroes) 0 1 nmeta)) as (s0 & R0 & S0 & I0 & F0 & Z0); [lia | unfold FSSIZE; lia | reflexivity | reflexivity|].
  change (0 + Z.of_nat (Z.to_nat FSSIZE)) with FSSIZE in S0. rewrite (bind_ok _ _ _ _ _ R0), (bind_ok _ _ _ _ _ (wsect_ok 1 _ s0 ltac:(unfold FSSIZE; lia) S0)).
  set (s1 := mkK _ FSSIZE _ _). assert (Im1 : image_ok s1 []).
  { apply empty_image_ok; auto. intros b. unfold s1, upd. cbn [k_img]. now rewrite Z0. }
  destruct (ialloc_ok s1 [] T_DIR Im1 ltac:(unfold NINODES; cbn; lia) Hd) as (s2 & R2 & Im2). rewrite (bind_ok _ _ _ _ _ R2). cbn [length app] in *.
  change (negb (Z.of_nat 0 + 1 =? ROOTINO)) with false. cbv iota. change (Z.of_nat 0 + 1) with ROOTINO.
  assert (Er : length (root_bytes names) = (16 * (length names + 2))%nat).
  { unfold root_bytes. rewrite entries_bytes_length. unfold root_entries. cbn [length]. rewrite numbered_length. lia. }
  assert (Eb : root_bytes names = (entry_bytes 1 [46] ++ entry_bytes 1 [46; 46]) ++ dir_bytes 2 names) by (rewrite dir_bytes_numbered, <- app_assoc; reflexivity).
  destruct (iappend_ok s2 _ 0 T_DIR [] (mkdirent ROOTINO [46]) 16 Im2 eq_refl Hd) as (s3 & R3 & Im3); [lia | vm_compute; discriminate | vm_compute; discriminate|]. change (Z.of_nat 0 + 1) with ROOTINO in R3. rewrite (bind_ok _ _ _ _ _ R3).
  destruct (iappend_ok s3 _ 0 T_DIR (entry_bytes 1 [46]) (mkdirent ROOTINO [46; 46]) 16 Im3 eq_refl Hd) as (s4 & R4 & Im4); [lia | vm_compute; discriminate | vm_compute; discriminate|]. change (Z.of_nat 0 + 1) with ROOTINO in R4. rewrite (bind_ok _ _ _ _ _ R4).
  destruct (add_files_ok host names s4 (entry_bytes 1 [46] ++ entry_bytes 1 [46; 46]) [] Im4 Ha) as (s5 & R5 & Im5); cbn [length Nat.add app] in *; change (Z.of_nat 0 + 2) with 2 in *; rewrite <- ?Eb; auto.
  { unfold NINODES. lia. } { change (MAXFILE * BSIZE) with 71680. lia. }
  rewrite (bind_ok _ _ _ _ _ R5). rewrite <- Eb in Im5. change ((T_DIR, root_bytes names) :: file_nodes host names) with (image_nodes names) in Im5.
  rewrite (finish_ok s5 _ _ Im5). eexists. split; [reflexivity|]. split; [reflexivity|]. apply finished_image; [exact Im5|].
  eapply Forall_impl; [exact Ha|]. intros name (Hc & _). exact Hc.
Qed.
End Image.

(** With a number of entries that fills whole blocks, the size of the root directory
    is rounded up to a block that the directory does not have. *)
Lemma root_hole host V names : mkfs_image host V names -> (Z.of_nat (length names) + 2) mod 32 = 0 -> Z.of_nat (length names) <= 198 ->
  let d := din_at V ROOTINO in exists bn, 0 <= bn /\ bn * BSIZE < i_size d /\ faddr V (i_addrs d) bn = 0.
Proof.
  intros I Hm Hl d. destruct (mi_root _ _ _ I) as (_ & _ & Sz & _ & Mp & _). fold d in Sz, Mp.
  assert (El : Z.of_nat (length (root_bytes names)) = 16 * (Z.of_nat (length names) + 2)).
  { unfold root_bytes. rewrite entries_bytes_length. unfold root_entries. cbn [length]. rewrite numbered_length. lia. }
  rewrite El in *. exists ((Z.of_nat (length names) + 2) / 32). rewrite Sz. unfold root_size, BSIZE. split_and!; [Z.to_euclidean_division_equations; lia..|].
  destruct (Z.eq_dec (faddr V (i_addrs d) ((Z.of_nat (length names) + 2) / 32)) 0) as [E|E]; [exact E|]. apply Mp in E; [|rewrite MAXFILE_val]; unfold BSIZE in *; Z.to_euclidean_division_equations; lia.
Qed.

(** ** A small image *)

Definition sample_host (name : list Z) : option (list (list Z)) :=
  if decide (name = [95; 99; 97; 116]) then Some [replicate 512 7; replicate 100 8]
  else if decide (name = [82; 69; 65; 68; 77; 69]) then Some [[104; 105; 10]] else None.

Lemma mkfs_builds_image_witness : exists s, main sample_host [[109]; [102]; [95; 99; 97; 116]; [82; 69; 65; 68; 77; 69]] mkfs0 = Ok tt s /\
  k_sectors s = FSSIZE /\ mkfs_image sample_host (k_img s) [[95; 99; 97; 116]; [82; 69; 65; 68; 77; 69]].
Proof.
  apply (mkfs_builds_image sample_host [109] [102] [[95; 99; 97; 116]; [82; 69; 65; 68; 77; 69]]).
  - constructor; [|constructor; [|constructor]]; unfold arg_ok; (split; [repeat (constructor; [lia|]); constructor|]);
      (split; [apply (bool_decide_unpack _); vm_compute; exact I|]); (split; [eexists; vm_compute; reflexivity | vm_compute; discriminate]).
  - vm_compute. discriminate.
  - vm_compute. discriminate.
Defined.
