(* ===== verification/Ide.v ===== *)
(** The disk driver [src/xv6/xv6-public/ide.c]: the queue of buffers through
    [qnext], [idestart], the interrupt handler and [iderw], under every interleaving
    of callers, disk and interrupts.

    The controller is described by what the ATA standard says of the ports the driver
    uses: a byte written to a port stays in its register, a write to the command port
    [0x1f7] starts the command that the registers describe, and the status is busy
    until the drive has performed it, with or without an error, and interrupts.
    [idelock] makes the parts of [iderw] between two sleeps and the handler one step
    each.  Buffers are those of [Bio], with [qnext] beside them. *)

From stdpp Require Import functions.
From S2P Require Import Prelude Mem Block Bio.

Definition SECTOR_SIZE : Z := 512.
Definition IDE_BSY : Z := 0x80.
Definition IDE_DRDY : Z := 0x40.
Definition IDE_DF : Z := 0x20.
Definition IDE_ERR : Z := 0x01.
Definition IDE_CMD_READ : Z := 0x20.
Definition IDE_CMD_WRITE : Z := 0x30.
Definition IDE_CMD_RDMUL : Z := 0xc4.
Definition IDE_CMD_WRMUL : Z := 0xc5.

(** ** The controller *)

Record command := mkCmd { c_cmd : Z; c_count : Z; c_drive : Z; c_lba : Z }.

(** The registers, the status, the command in progress, a pending interrupt, the data
    port in both directions, whether drive 1 is there, and the two drives. *)
Record ata := mkAta {
  a_ports : Z -> Z;
  a_status : Z;
  a_active : option command;
  a_irq : bool;
  a_out : block;
  a_in : block;
  a_drive1 : bool;
  a_disk : Z -> Z -> block
}.

Definition ata_command (p : Z -> Z) (cmd : Z) : command :=
  mkCmd cmd (p 0x1f2) (p 0x1f6 / 16 mod 2) (p 0x1f3 + 256 * p 0x1f4 + 65536 * p 0x1f5 + 16777216 * (p 0x1f6 mod 16)).

Definition ata_outb (port v : Z) (a : ata) : ata :=
  let p := upd (a_ports a) port (u8 v) in
  if port =? 0x1f7 then mkAta p IDE_BSY (Some (ata_command p (u8 v))) (a_irq a) (a_out a) (a_in a) (a_drive1 a) (a_disk a)
  else mkAta p (a_status a) (a_active a) (a_irq a) (a_out a) (a_in a) (a_drive1 a) (a_disk a).

(** The status register of the selected drive; a drive that is not there reads 0. *)
Definition ata_inb (a : ata) : Z :=
  if (a_ports a 0x1f6 / 16 mod 2 =? 1) && negb (a_drive1 a) then 0 else a_status a.

Definition ata_outsl (d : block) (a : ata) : ata :=
  mkAta (a_ports a) (a_status a) (a_active a) (a_irq a) d (a_in a) (a_drive1 a) (a_disk a).

(** The drive ends the command [c] with the error bits [e]. *)
Definition ata_finish (c : command) (e : Z) (a : ata) : ata :=
  let err := Z.land e (Z.lor IDE_DF IDE_ERR) in
  let d := if negb (err =? 0) then (a_in a, a_disk a)
           else if c_cmd c =? IDE_CMD_WRITE then (a_in a, upd (a_disk a) (c_drive c) (upd (a_disk a (c_drive c)) (c_lba c) (a_out a)))
           else if c_cmd c =? IDE_CMD_READ then (a_disk a (c_drive c) (c_lba c), a_disk a)
           else (a_in a, a_disk a) in
  mkAta (a_ports a) (Z.lor IDE_DRDY err) None true (a_out a) (fst d) (a_drive1 a) (snd d).

(** The processor takes the interrupt. *)
Definition ata_ack (a : ata) : ata :=
  mkAta (a_ports a) (a_status a) (a_active a) false (a_out a) (a_in a) (a_drive1 a) (a_disk a).

(** ** The driver *)

(** A process in [iderw] for a buffer sleeps, or has been woken. *)
Inductive wstate := Idle | Asleep | Awake.

Record ide := mkIde {
  d_buf : nat -> Bio.buf;
  d_qnext : nat -> option nat;
  d_queue : option nat;
  d_havedisk1 : bool;
  d_ata : ata;
  d_wait : nat -> wstate
}.

Definition on_ata (f : ata -> ata) : M ide unit := modify (fun s => mkIde (d_buf s) (d_qnext s) (d_queue s) (d_havedisk1 s) (f (d_ata s)) (d_wait s)).
Definition outb (port v : Z) : M ide unit := on_ata (ata_outb port v).
Definition put_buf (i : nat) (b : Bio.buf) : M ide unit :=
  modify (fun s => mkIde (<[i := b]> (d_buf s)) (d_qnext s) (d_queue s) (d_havedisk1 s) (d_ata s) (d_wait s)).
Definition set_queue (p : option nat) : M ide unit := modify (fun s => mkIde (d_buf s) (d_qnext s) p (d_havedisk1 s) (d_ata s) (d_wait s)).
Definition set_qnext (i : nat) (p : option nat) : M ide unit :=
  modify (fun s => mkIde (d_buf s) (<[i := p]> (d_qnext s)) (d_queue s) (d_havedisk1 s) (d_ata s) (d_wait s)).
Definition set_wait (i : nat) (w : wstate) : M ide unit :=
  modify (fun s => mkIde (d_buf s) (d_qnext s) (d_queue s) (d_havedisk1 s) (d_ata s) (<[i := w]> (d_wait s))).
Definition set_havedisk1 : M ide unit := modify (fun s => mkIde (d_buf s) (d_qnext s) (d_queue s) true (d_ata s) (d_wait s)).

(** A disk that is busy makes the processor poll. *)
Definition idewait (checkerr : bool) : M ide Z :=
  r <- gets (fun s => ata_inb (d_ata s)) ;;
  if negb (Z.land r (Z.lor IDE_BSY IDE_DRDY) =? IDE_DRDY) then fault "idewait: polls a busy disk"
  else if checkerr && negb (Z.land r (Z.lor IDE_DF IDE_ERR) =? 0) then ret (-1) else ret 0.

(** The loop of [ideinit] that looks for disk 1. *)
Fixpoint probe (k : nat) : M ide unit :=
  match k with
  | O => ret tt
  | S k => r <- gets (fun s => ata_inb (d_ata s)) ;; if negb (r =? 0) then set_havedisk1 else probe k
  end.

Definition ideinit : M ide unit :=
  idewait false ;;;
  outb 0x1f6 (Z.lor 0xe0 (Z.shiftl 1 4)) ;;;
  probe 1000 ;;;
  outb 0x1f6 (Z.lor 0xe0 (Z.shiftl 0 4)).

Definition idestart (b : option nat) : M ide unit :=
  match b with
  | None => panic "idestart"
  | Some i =>
      b <- gets (fun s => d_buf s i) ;;
      if FSSIZE <=? Bio.b_blockno b then panic "incorrect blockno" else
      let sector_per_block := BSIZE / SECTOR_SIZE in
      let sector := Bio.b_blockno b * sector_per_block in
      let read_cmd := if sector_per_block =? 1 then IDE_CMD_READ else IDE_CMD_RDMUL in
      let write_cmd := if sector_per_block =? 1 then IDE_CMD_WRITE else IDE_CMD_WRMUL in
      if 7 <? sector_per_block then panic "idestart" else
      idewait false ;;;
      outb 0x3f6 0 ;;;
      outb 0x1f2 sector_per_block ;;;
      outb 0x1f3 (Z.land sector 0xff) ;;;
      outb 0x1f4 (Z.land (Z.shiftr sector 8) 0xff) ;;;
      outb 0x1f5 (Z.land (Z.shiftr sector 16) 0xff) ;;;
      outb 0x1f6 (Z.lor (Z.lor 0xe0 (Z.shiftl (Z.land (Bio.b_dev b) 1) 4)) (Z.land (Z.shiftr sector 24) 0x0f)) ;;;
      if truth (Z.land (Bio.b_flags b) Bio.B_DIRTY) then
        outb 0x1f7 write_cmd ;;; on_ata (ata_outsl (Bio.b_data b))
      else outb 0x1f7 read_cmd
  end.

(** [wakeup(b)]. *)
Definition wake_buf (i : nat) : M ide unit :=
  w <- gets (fun s => d_wait s i) ;; match w with Asleep => set_wait i Awake | _ => ret tt end.

Definition ideintr : M ide unit :=
  q <- gets d_queue ;;
  match q with
  | None => ret tt
  | Some i =>
      n <- gets (fun s => d_qnext s i) ;;
      set_queue n ;;;
      b <- gets (fun s => d_buf s i) ;;
      (if negb (truth (Z.land (Bio.b_flags b) Bio.B_DIRTY)) then
         r <- idewait true ;;
         if 0 <=? r then d <- gets (fun s => a_in (d_ata s)) ;; put_buf i (Bio.with_data d b) else ret tt
       else ret tt) ;;;
      b <- gets (fun s => d_buf s i) ;;
      put_buf i (Bio.with_flags (Z.land (Z.lor (Bio.b_flags b) Bio.B_VALID) (Z.lnot Bio.B_DIRTY)) b) ;;;
      wake_buf i ;;;
      q <- gets d_queue ;;
      match q with None => ret tt | Some _ => idestart q end
  end.

(** The loop over [pp]: the link that ends the queue, [idequeue] itself or the
    [qnext] of a buffer. *)
Fixpoint last_link (fuel : nat) (pp : option nat) : M ide (option nat) :=
  match fuel with
  | O => nofuel
  | S fuel =>
      p <- gets (fun s => match pp with None => d_queue s | Some i => d_qnext s i end) ;;
      match p with None => ret pp | Some j => last_link fuel (Some j) end
  end.

(** [while((b->flags & (B_VALID|B_DIRTY)) != B_VALID) sleep(b, &idelock)], up to the
    next sleep: has the loop ended? *)
Definition iderw_loop (i : nat) : M ide bool :=
  b <- gets (fun s => d_buf s i) ;;
  if negb (Z.land (Bio.b_flags b) (Z.lor Bio.B_VALID Bio.B_DIRTY) =? Bio.B_VALID) then set_wait i Asleep ;;; ret false
  else set_wait i Idle ;;; ret true.

(** [iderw] up to its first sleep. *)
Definition iderw (pid : Z) (i : nat) : M ide bool :=
  b <- gets (fun s => d_buf s i) ;;
  if negb (truth (Bio.sl_locked (Bio.b_lock b)) && (Bio.sl_pid (Bio.b_lock b) =? pid)) then panic "iderw: buf not locked" else
  if Z.land (Bio.b_flags b) (Z.lor Bio.B_VALID Bio.B_DIRTY) =? Bio.B_VALID then panic "iderw: nothing to do" else
  have <- gets d_havedisk1 ;;
  if negb (Bio.b_dev b =? 0) && negb have then panic "iderw: ide disk 1 not present" else
  set_qnext i None ;;;
  pp <- last_link (NBUF + 1) None ;;
  (match pp with None => set_queue (Some i) | Some j => set_qnext j (Some i) end) ;;;
  q <- gets d_queue ;;
  (if bool_decide (q = Some i) then idestart (Some i) else ret tt) ;;;
  iderw_loop i.

(** ** Interleavings *)

(** A process calls [iderw], the drive ends its command, the processor takes the
    interrupt, a process that was woken tests its buffer again ([r]: and returns), and
    the owner of a buffer that is not in [iderw] changes it. *)
Inductive event := Call (pid : Z) (i : nat) | Disk (e : Z) | Intr | Resume (i : nat) (r : bool) | Use (i : nat) (b : Bio.buf).

(** The lock of the buffer keeps others out of it; the file system asks for blocks of
    the image only. *)
Inductive istep : ide -> event -> ide -> Prop :=
| step_call s pid i r s' : (i < NBUF)%nat -> d_wait s i = Idle -> 0 <= Bio.b_blockno (d_buf s i) < FSSIZE -> iderw pid i s = Ok r s' -> istep s (Call pid i) s'
| step_disk s c e : a_active (d_ata s) = Some c ->
    istep s (Disk e) (mkIde (d_buf s) (d_qnext s) (d_queue s) (d_havedisk1 s) (ata_finish c e (d_ata s)) (d_wait s))
| step_intr s s' : a_irq (d_ata s) = true ->
    ideintr (mkIde (d_buf s) (d_qnext s) (d_queue s) (d_havedisk1 s) (ata_ack (d_ata s)) (d_wait s)) = Ok tt s' -> istep s Intr s'
| step_resume s i r s' : d_wait s i = Awake -> iderw_loop i s = Ok r s' -> istep s (Resume i r) s'
| step_use s i b : d_wait s i = Idle ->
    istep s (Use i b) (mkIde (<[i := b]> (d_buf s)) (d_qnext s) (d_queue s) (d_havedisk1 s) (d_ata s) (d_wait s)).

Inductive runs {S} (R : S -> event -> S -> Prop) : S -> list event -> S -> Prop :=
| runs_nil s : runs R s [] s
| runs_snoc s tr s1 e s2 : runs R s tr s1 -> R s1 e s2 -> runs R s (tr ++ [e]) s2.

(** ** What the driver promises

    A disk that serves whole requests, one after the other in the order of the calls.
    [v_ended] is the result of the drive for the first request, if it has ended. *)
Record vdisk := mkDisk {
  v_buf : nat -> Bio.buf;
  v_queue : list nat;
  v_ended : option Z;
  v_disk : Z -> Z -> block;
  v_in : nat -> bool
}.

Definition dirty (b : Bio.buf) : bool := truth (Z.land (Bio.b_flags b) Bio.B_DIRTY).
Definition failed (e : Z) : bool := negb (Z.land e (Z.lor IDE_DF IDE_ERR) =? 0).
Definition drive (b : Bio.buf) : Z := Z.land (Bio.b_dev b) 1.

(** The buffer and the drives after a request. *)
Definition served_buf (e : Z) (dk : Z -> Z -> block) (b : Bio.buf) : Bio.buf :=
  Bio.with_flags (Z.land (Z.lor (Bio.b_flags b) Bio.B_VALID) (Z.lnot Bio.B_DIRTY))
    (if dirty b || failed e then b else Bio.with_data (dk (drive b) (Bio.b_blockno b)) b).
Definition served_disk (e : Z) (dk : Z -> Z -> block) (b : Bio.buf) : Z -> Z -> block :=
  if dirty b && negb (failed e) then upd dk (drive b) (upd (dk (drive b)) (Bio.b_blockno b) (Bio.b_data b)) else dk.

Inductive vstep : vdisk -> event -> vdisk -> Prop :=
| vstep_call v pid i : v_in v i = false -> vstep v (Call pid i) (mkDisk (v_buf v) (v_queue v ++ [i]) (v_ended v) (v_disk v) (<[i := true]> (v_in v)))
| vstep_disk v i q e : v_queue v = i :: q -> v_ended v = None -> vstep v (Disk e) (mkDisk (v_buf v) (v_queue v) (Some e) (v_disk v) (v_in v))
| vstep_intr v i q e : v_queue v = i :: q -> v_ended v = Some e -> let b := v_buf v i in
    vstep v Intr (mkDisk (<[i := served_buf e (v_disk v) b]> (v_buf v)) q None (served_disk e (v_disk v) b) (v_in v))
| vstep_resume v i : v_in v i = true -> (i ∉ v_queue v) -> vstep v (Resume i true) (mkDisk (v_buf v) (v_queue v) (v_ended v) (v_disk v) (<[i := false]> (v_in v)))
| vstep_use v i b : v_in v i = false -> vstep v (Use i b) (mkDisk (<[i := b]> (v_buf v)) (v_queue v) (v_ended v) (v_disk v) (v_in v)).

(** ** Starting a request *)

(** The command for a buffer. *)
Definition request (b : Bio.buf) : command := mkCmd (if dirty b then IDE_CMD_WRITE else IDE_CMD_READ) 1 (drive b) (Bio.b_blockno b).

(** The selected drive is there. *)
Definition selected (a : ata) : Prop := a_ports a 0x1f6 / 16 mod 2 = 1 -> a_drive1 a = true.

Definition ready (a : ata) : Prop := selected a /\ Z.land (a_status a) (Z.lor IDE_BSY IDE_DRDY) = IDE_DRDY.

Lemma inb_selected a : selected a -> ata_inb a = a_status a.
Proof. intros H. unfold ata_inb. destruct (Z.eqb_spec (a_ports a 502 / 16 mod 2) 1) as [E|]; [now rewrite (H E) | reflexivity]. Qed.

Lemma idewait_ok s c : ready (d_ata s) -> idewait c s = Ok (if c && negb (Z.land (a_status (d_ata s)) (Z.lor IDE_DF IDE_ERR) =? 0) then -1 else 0) s.
Proof.
  intros [H1 H2]. unfold idewait, bind, gets. rewrite inb_selected, H2 by exact H1. change (IDE_DRDY =? IDE_DRDY) with true. cbn [negb]. now destruct (_ && _).
Qed.

(** The bytes that [idestart] writes to the ports give the sector and the drive back. *)
Lemma lba_bytes n d : 0 <= n < FSSIZE -> d = 0 \/ d = 1 ->
  let p6 := u8 (Z.lor (Z.lor 0xe0 (Z.shiftl d 4)) (Z.land (Z.shiftr n 24) 0x0f)) in
  p6 / 16 mod 2 = d /\
  u8 (Z.land n 0xff) + 256 * u8 (Z.land (Z.shiftr n 8) 0xff) + 65536 * u8 (Z.land (Z.shiftr n 16) 0xff) + 16777216 * (p6 mod 16) = n.
Proof.
  intros Hn Hd. set (P := fun n d => let p6 := u8 (Z.lor (Z.lor 0xe0 (Z.shiftl d 4)) (Z.land (Z.shiftr n 24) 0x0f)) in (p6 / 16 mod 2 =? d) &&
    (u8 (Z.land n 0xff) + 256 * u8 (Z.land (Z.shiftr n 8) 0xff) + 65536 * u8 (Z.land (Z.shiftr n 16) 0xff) + 16777216 * (p6 mod 16) =? n)).
  assert (All : forallb (fun n => P n 0 && P n 1) (seqZ 0 FSSIZE) = true) by (vm_compute; reflexivity).
  rewrite forallb_forall in All. specialize (All n ltac:(apply list_elem_of_In, elem_of_seqZ; lia)). apply andb_prop in All as [A0 A1].
  assert (A : P n d = true) by (destruct Hd as [->| ->]; assumption). unfold P in A. apply andb_prop in A as [A2 A3]. split; now apply Z.eqb_eq.
Qed.

Lemma drive_01 b : drive b = 0 \/ drive b = 1.
Proof.
  unfold drive. pose proof (Z.land_ones (Bio.b_dev b) 1 ltac:(lia)) as E. change (Z.ones 1) with 1 in E. change (2 ^ 1) with 2 in E. rewrite E.
  pose proof (Z.mod_pos_bound (Bio.b_dev b) 2). lia.
Qed.

(** The controller after [idestart]. *)
Record started (b : Bio.buf) (a a' : ata) : Prop := {
  sd_active : a_active a' = Some (request b);
  sd_status : a_status a' = IDE_BSY;
  sd_irq : a_irq a' = a_irq a;
  sd_out : dirty b = true -> a_out a' = Bio.b_data b;
  sd_drive1 : a_drive1 a' = a_drive1 a;
  sd_disk : a_disk a' = a_disk a;
  sd_selected : selected a'
}.

Definition with_ata (a : ata) (s : ide) : ide := mkIde (d_buf s) (d_qnext s) (d_queue s) (d_havedisk1 s) a (d_wait s).

Definition set_port (port v : Z) (a : ata) : ata :=
  mkAta (upd (a_ports a) port (u8 v)) (a_status a) (a_active a) (a_irq a) (a_out a) (a_in a) (a_drive1 a) (a_disk a).

Lemma outb_ok port v s : (port =? 0x1f7) = false -> outb port v s = Ok tt (with_ata (set_port port v (d_ata s)) s).
Proof. intros E. unfold outb, on_ata, modify, ata_outb, with_ata, set_port. now rewrite E. Qed.

Lemma idestart_ok s i : let b := d_buf s i in 0 <= Bio.b_blockno b < FSSIZE -> ready (d_ata s) -> (drive b = 1 -> a_drive1 (d_ata s) = true) ->
  exists a', idestart (Some i) s = Ok tt (with_ata a' s) /\ started b (d_ata s) a'.
Proof.
  intros b Hb Hr Hd. destruct (lba_bytes (Bio.b_blockno b) (drive b) Hb (drive_01 b)) as [E6 El].
  unfold idestart. rewrite (bind_ok (gets (fun s => d_buf s i)) _ s b s eq_refl). rewrite (proj2 (Z.leb_gt _ _)) by lia. cbv zeta. change (BSIZE / SECTOR_SIZE) with 1.
  change (1 =? 1) with true. change (7 <? 1) with false. cbv iota. rewrite Z.mul_1_r, (bind_ok _ _ _ _ _ (idewait_ok s false Hr)).
  fold (dirty b). fold (drive b). set (p6 := Z.lor (Z.lor 224 (Z.shiftl (drive b) 4)) (Z.land (Z.shiftr (Bio.b_blockno b) 24) 15)) in *. cbv zeta in E6, El. fold p6 in E6, El.
  assert (Ec : forall p cmd, p 0x1f2 = 1 -> p 0x1f3 = u8 (Z.land (Bio.b_blockno b) 255) -> p 0x1f4 = u8 (Z.land (Z.shiftr (Bio.b_blockno b) 8) 255) ->
    p 0x1f5 = u8 (Z.land (Z.shiftr (Bio.b_blockno b) 16) 255) -> p 0x1f6 = u8 p6 -> ata_command p cmd = mkCmd cmd 1 (drive b) (Bio.b_blockno b)).
  { intros p cmd H2 H3 H4 H5 H6. unfold ata_command. rewrite H2, H3, H4, H5, H6, E6, El. reflexivity. }
  rewrite (bind_ok _ _ _ _ _ (outb_ok 0x3f6 _ s eq_refl)). rewrite (bind_ok _ _ _ _ _ (outb_ok 0x1f2 _ _ eq_refl)). rewrite (bind_ok _ _ _ _ _ (outb_ok 0x1f3 _ _ eq_refl)).
  rewrite (bind_ok _ _ _ _ _ (outb_ok 0x1f4 _ _ eq_refl)). rewrite (bind_ok _ _ _ _ _ (outb_ok 0x1f5 _ _ eq_refl)). rewrite (bind_ok _ _ _ _ _ (outb_ok 0x1f6 _ _ eq_refl)).
  set (a1 := set_port 0x1f6 _ _). assert (Es : forall cmd, upd (a_ports a1) 0x1f7 cmd 0x1f6 = u8 p6) by reflexivity.
  assert (Ea : forall cmd, ata_command (upd (a_ports a1) 0x1f7 cmd) cmd = mkCmd cmd 1 (drive b) (Bio.b_blockno b)) by (intros cmd; apply Ec; reflexivity).
  assert (Sel : forall cmd s' c q o n d1 dk, d1 = a_drive1 (d_ata s) -> selected (mkAta (upd (a_ports a1) 0x1f7 cmd) s' c q o n d1 dk)).
  { intros cmd s' c q o n d1 dk -> E. cbn [a_ports] in E. rewrite Es in E. apply Hd. congruence. }
  destruct (dirty b) eqn:Ed.
  - exists (mkAta (upd (a_ports a1) 0x1f7 (u8 IDE_CMD_WRITE)) IDE_BSY (Some (ata_command (upd (a_ports a1) 0x1f7 (u8 IDE_CMD_WRITE)) (u8 IDE_CMD_WRITE))) (a_irq (d_ata s)) (Bio.b_data b) (a_in (d_ata s)) (a_drive1 (d_ata s)) (a_disk (d_ata s))).
    split; [reflexivity|]. constructor; auto. cbn [a_active]. rewrite Ea. unfold request. now rewrite Ed.
  - exists (mkAta (upd (a_ports a1) 0x1f7 (u8 IDE_CMD_READ)) IDE_BSY (Some (ata_command (upd (a_ports a1) 0x1f7 (u8 IDE_CMD_READ)) (u8 IDE_CMD_READ))) (a_irq (d_ata s)) (a_out (d_ata s)) (a_in (d_ata s)) (a_drive1 (d_ata s)) (a_disk (d_ata s))).
    split; [reflexivity|]. constructor; auto; [|congruence]. cbn [a_active]. rewrite Ea. unfold request. now rewrite Ed.
Qed.

(** ** The queue *)

(** The buffers from [p] on along [qnext] are [q]. *)
Fixpoint chain (nx : nat -> option nat) (p : option nat) (q : list nat) : Prop :=
  match q with [] => p = None | i :: q => p = Some i /\ chain nx (nx i) q end.

Lemma chain_unique nx : forall q q' p, chain nx p q -> chain nx p q' -> q = q'.
Proof. induction q as [|i q IH]; intros [|j q'] p; cbn; intros H1 H2; [reflexivity | destruct H2; congruence | destruct H1; congruence|]. destruct H1 as [-> H1], H2 as [E H2]. injection E as <-. f_equal. eauto. Qed.

Lemma queue_chain_ext nx nx' p q : (forall i, i ∈ q -> nx' i = nx i) -> chain nx p q -> chain nx' p q.
Proof.
  revert p. induction q as [|i q IH]; intros p E C; [exact C|]. destruct C as [-> C]. split; [reflexivity|]. rewrite (E i) by (apply elem_of_cons; auto).
  apply IH; [|exact C]. intros j Hj. apply E. apply elem_of_cons; auto.
Qed.

Lemma chain_insert nx p q i x : i ∉ q -> chain nx p q -> chain (<[i := x]> nx) p q.
Proof. intros Hi. apply queue_chain_ext. intros j Hj. apply fn_lookup_insert_ne. congruence. Qed.

(** Hanging [i] onto the end. *)
Lemma chain_snoc nx p q j i : chain nx p (q ++ [j]) -> NoDup (q ++ [j]) -> nx i = None -> i ∉ q ++ [j] -> chain (<[j := Some i]> nx) p ((q ++ [j]) ++ [i]).
Proof.
  revert p. induction q as [|k q IH]; intros p C Hn Hi Ho; cbn [app chain] in *.
  - destruct C as [-> _]. rewrite fn_lookup_insert, fn_lookup_insert_ne; [now rewrite Hi|]. intros ->. apply Ho. apply elem_of_cons; auto.
  - destruct C as [-> C]. apply NoDup_cons in Hn as [Hk Hn]. rewrite fn_lookup_insert_ne by (intros ->; apply Hk, elem_of_app; right; apply elem_of_cons; auto).
    split; [reflexivity|]. apply IH; auto. intros Hin. apply Ho. apply elem_of_cons; auto.
Qed.

(** The link that [pp] names. *)
Definition link (s : ide) (pp : option nat) : option nat := match pp with None => d_queue s | Some i => d_qnext s i end.

Lemma last_link_ok fuel : forall q pp s, chain (d_qnext s) (link s pp) q -> (length q < fuel)%nat ->
  last_link fuel pp s = Ok (match last q with Some j => Some j | None => pp end) s.
Proof.
  induction fuel as [|fuel IH]; intros q pp s C Hf; [lia|]. cbn [last_link]. rewrite (bind_ok (gets _) _ s (link s pp) s eq_refl).
  destruct q as [|i q]; [now rewrite C|]. destruct C as [-> C]. cbn [length] in Hf. rewrite (IH q (Some i) s C) by lia. rewrite last_cons. now destruct (last q).
Qed.

(** ** The simulation *)

Definition settled (b : Bio.buf) : Prop := Z.land (Bio.b_flags b) (Z.lor Bio.B_VALID Bio.B_DIRTY) = Bio.B_VALID.

Definition controls (v : vdisk) (a : ata) : Prop :=
  match v_queue v, v_ended v with
  | [], None => a_active a = None /\ a_irq a = false /\ ready a /\ a_disk a = v_disk v
  | i :: _, None => a_active a = Some (request (v_buf v i)) /\ a_irq a = false /\ (dirty (v_buf v i) = true -> a_out a = Bio.b_data (v_buf v i)) /\ a_disk a = v_disk v
  | i :: _, Some e => let b := v_buf v i in a_active a = None /\ a_irq a = true /\ a_status a = Z.lor IDE_DRDY (Z.land e (Z.lor IDE_DF IDE_ERR)) /\
      a_disk a = served_disk e (v_disk v) b /\ (dirty b = false -> failed e = false -> a_in a = v_disk v (drive b) (Bio.b_blockno b))
  | [], Some _ => False
  end.

Definition waits (v : vdisk) (i : nat) (w : wstate) : Prop :=
  match w with
  | Idle => v_in v i = false /\ (i ∉ v_queue v)
  | Asleep => v_in v i = true /\ i ∈ v_queue v
  | Awake => v_in v i = true /\ (i ∉ v_queue v) /\ settled (v_buf v i)
  end.

Record sim (s : ide) (v : vdisk) : Prop := {
  sm_buf : forall i, d_buf s i = v_buf v i;
  sm_queue : chain (d_qnext s) (d_queue s) (v_queue v);
  sm_nodup : NoDup (v_queue v) /\ Forall (fun i => (i < NBUF)%nat) (v_queue v);
  sm_wait : forall i, waits v i (d_wait s i);
  sm_request : forall i, i ∈ v_queue v -> let b := v_buf v i in ~ settled b /\ 0 <= Bio.b_blockno b < FSSIZE /\ (drive b = 1 -> a_drive1 (d_ata s) = true);
  sm_disk1 : d_havedisk1 s = true -> a_drive1 (d_ata s) = true;
  sm_selected : selected (d_ata s);
  sm_controls : controls v (d_ata s)
}.

Lemma queue_short q : NoDup q -> Forall (fun i => (i < NBUF)%nat) q -> (length q <= NBUF)%nat.
Proof.
  intros Hn Hs. rewrite <- (length_seq NBUF 0). apply submseteq_length, NoDup_submseteq; [exact Hn|]. intros i Hi. rewrite Forall_forall in Hs. apply elem_of_seq. specialize (Hs i Hi). lia.
Qed.

(** Serving a request settles its buffer. *)
Lemma served_settled e dk b : settled (served_buf e dk b).
Proof.
  unfold settled, served_buf, Bio.B_VALID, Bio.B_DIRTY. destruct (_ || _); cbn [Bio.with_flags Bio.b_flags Bio.with_data];
    apply Z.bits_inj'; intros n Hn; rewrite !Z.land_spec, Z.lnot_spec, !Z.lor_spec by lia;
    (destruct (decide (n < 3)) as [Hlt|Hge];
     [assert (n = 0 \/ n = 1 \/ n = 2) as [->|[->| ->]] by lia; cbn; try reflexivity; destruct (Z.testbit _ _); reflexivity
     | rewrite (Z.bits_above_log2 2 n), (Z.bits_above_log2 4 n) by (cbn; lia); cbn; apply andb_false_r]).
Qed.

Lemma sim_disk s v c e : sim s v -> a_active (d_ata s) = Some c -> exists v', vstep v (Disk e) v' /\ sim (with_ata (ata_finish c e (d_ata s)) s) v'.
Proof.
  intros [B Q N W R D1 Se Co] Hc. unfold controls in Co. destruct (v_queue v) as [|i q] eqn:Eq; destruct (v_ended v) as [e'|] eqn:Ee.
  1: destruct Co. 1: destruct Co as [Co _]; congruence. 1: destruct Co as [Co _]; congruence.
  destruct Co as (C1 & C2 & C3 & C4). rewrite C1 in Hc. injection Hc as <-. set (b := v_buf v i) in *.
  eexists. split; [exact (vstep_disk v i q e Eq Ee)|]. constructor; cbn [with_ata d_buf d_qnext d_queue d_wait d_havedisk1 d_ata v_buf v_queue]; rewrite ?Eq; auto.
  - intros j. specialize (W j). unfold waits in *. cbn [v_in v_queue v_buf] in *. now rewrite Eq in *.
  - unfold controls. cbn [v_queue v_ended v_buf v_disk]. cbv zeta. fold b. cbn [ata_finish a_active a_irq a_status a_disk a_in]. split_and!; auto.
    + unfold served_disk. fold (failed e). cbn [request c_cmd c_drive c_lba]. destruct (failed e), (dirty b) eqn:Ed; cbn [negb andb fst snd]; auto. now rewrite C4, C3.
    + intros Ed Ef. fold (failed e). rewrite Ef. cbn [request c_cmd c_drive c_lba]. rewrite Ed, C4. reflexivity.
Qed.

(** What [ideintr] does to the buffer of the first request. *)
Lemma intr_buffer s i e dk : let b := d_buf s i in ready (d_ata s) ->
  a_status (d_ata s) = Z.lor IDE_DRDY (Z.land e (Z.lor IDE_DF IDE_ERR)) -> (dirty b = false -> failed e = false -> a_in (d_ata s) = dk (drive b) (Bio.b_blockno b)) ->
  exists f, (forall j, f j = <[i := served_buf e dk b]> (d_buf s) j) /\ forall A (K : M ide A),
    (b <- gets (fun s => d_buf s i) ;;
     (if negb (truth (Z.land (Bio.b_flags b) Bio.B_DIRTY)) then
        r <- idewait true ;;
        if 0 <=? r then d <- gets (fun s => a_in (d_ata s)) ;; put_buf i (Bio.with_data d b) else ret tt
      else ret tt) ;;;
     b <- gets (fun s => d_buf s i) ;;
     put_buf i (Bio.with_flags (Z.land (Z.lor (Bio.b_flags b) Bio.B_VALID) (Z.lnot Bio.B_DIRTY)) b) ;;;
     K) s = K (mkIde f (d_qnext s) (d_queue s) (d_havedisk1 s) (d_ata s) (d_wait s)).
Proof.
  intros b Hr Hs Hin. unfold served_buf. destruct (dirty b) eqn:Ed; cbn [orb].
  - eexists. split; [reflexivity|]. intros A K. rewrite (bind_ok (gets (fun s => d_buf s i)) _ s b s eq_refl). fold (dirty b). rewrite Ed. cbn [negb]. now rewrite bind_ret.
  - assert (El : Z.land (Z.lor IDE_DRDY (Z.land e (Z.lor IDE_DF IDE_ERR))) (Z.lor IDE_DF IDE_ERR) = Z.land e (Z.lor IDE_DF IDE_ERR)).
    { rewrite Z.land_lor_distr_l. change (Z.land IDE_DRDY (Z.lor IDE_DF IDE_ERR)) with 0. rewrite Z.lor_0_l, <- Z.land_assoc, Z.land_diag. reflexivity. }
    assert (Hw := idewait_ok s true Hr). rewrite Hs, El in Hw. cbn [andb] in Hw. fold (failed e) in Hw. destruct (failed e) eqn:Ef.
    + eexists. split; [reflexivity|]. intros A K. rewrite (bind_ok (gets (fun s => d_buf s i)) _ s b s eq_refl). fold (dirty b). rewrite Ed. cbn [negb].
      rewrite bind_assoc, (bind_ok _ _ _ _ _ Hw). change (0 <=? -1) with false. cbv iota. now rewrite bind_ret.
    + rewrite <- (Hin eq_refl eq_refl). exists (<[i := Bio.with_flags (Z.land (Z.lor (Bio.b_flags b) Bio.B_VALID) (Z.lnot Bio.B_DIRTY)) (Bio.with_data (a_in (d_ata s)) b)]> (<[i := Bio.with_data (a_in (d_ata s)) b]> (d_buf s))).
      split; [intros j; destruct (decide (i = j)) as [<-|Hne]; [now rewrite !fn_lookup_insert | now rewrite !fn_lookup_insert_ne]|].
      intros A K. rewrite (bind_ok (gets (fun s => d_buf s i)) _ s b s eq_refl). fold (dirty b). rewrite Ed. cbn [negb].
      rewrite bind_assoc, (bind_ok _ _ _ _ _ Hw). change (0 <=? 0) with true. cbv iota. unfold bind, gets, put_buf, modify. cbn [d_buf d_qnext d_queue d_havedisk1 d_ata d_wait]. now rewrite fn_lookup_insert.
Qed.

Lemma status_ready a e : selected a -> a_status a = Z.lor IDE_DRDY (Z.land e (Z.lor IDE_DF IDE_ERR)) -> ready a.
Proof.
  intros Hs E. split; [exact Hs|]. rewrite E, Z.land_lor_distr_l, <- Z.land_assoc. change (Z.land (Z.lor IDE_DF IDE_ERR) (Z.lor IDE_BSY IDE_DRDY)) with 0. rewrite Z.land_0_r. reflexivity.
Qed.

Lemma sim_intr s v : sim s v -> a_irq (d_ata s) = true -> exists s' v', ideintr (with_ata (ata_ack (d_ata s)) s) = Ok tt s' /\ vstep v Intr v' /\ sim s' v'.
Proof.
  intros [B Q N W R D1 Se Co] Hi. unfold controls in Co. destruct (v_queue v) as [|i q] eqn:Eq; destruct (v_ended v) as [e|] eqn:Ee.
  1: destruct Co. 1: destruct Co as (_ & Co & _); congruence. 2: destruct Co as (_ & Co & _); congruence.
  destruct Co as (C1 & C2 & C3 & C4 & C5). destruct Q as [Q1 Q2]. destruct N as [N1 N2]. apply NoDup_cons in N1 as [Ni N1]. apply Forall_cons in N2 as [_ N2].
  pose proof (W i) as Wi. unfold waits in Wi. rewrite Eq in Wi. assert (Hw : d_wait s i = Asleep).
  { destruct (d_wait s i); [destruct Wi as [_ []]; apply elem_of_cons; auto | reflexivity | destruct Wi as (_ & [] & _); apply elem_of_cons; auto]. }
  rewrite Hw in Wi. set (a := ata_ack (d_ata s)). assert (Hr : ready a) by exact (status_ready a e Se C3).
  set (s1 := mkIde (d_buf s) (d_qnext s) (d_qnext s i) (d_havedisk1 s) a (d_wait s)).
  destruct (intr_buffer s1 i e (v_disk v) Hr C3) as (f & Ef & Run); [cbn [s1 d_buf]; rewrite B; exact C5|].
  set (s2 := mkIde f (d_qnext s) (d_qnext s i) (d_havedisk1 s) a (<[i := Awake]> (d_wait s))).
  set (b := v_buf v i) in *. set (v' := mkDisk (<[i := served_buf e (v_disk v) b]> (v_buf v)) q None (served_disk e (v_disk v) b) (v_in v)).
  assert (V : vstep v Intr v') by exact (vstep_intr v i q e Eq Ee).
  assert (Oth : forall j, j <> i -> v_buf v' j = v_buf v j) by (intros j Hj; apply fn_lookup_insert_ne; congruence).
  assert (Fb : forall j, f j = v_buf v' j).
  { intros j. rewrite Ef. cbn [s1 d_buf v' v_buf]. destruct (decide (i = j)) as [<-|Hj]; [rewrite !fn_lookup_insert, B; reflexivity | rewrite !fn_lookup_insert_ne by exact Hj; apply B]. }
  assert (Fin : forall a', selected a' -> a_drive1 a' = a_drive1 (d_ata s) -> controls v' a' -> sim (with_ata a' s2) v').
  { intros a' S' D' C'. constructor; cbn [with_ata s2 d_buf d_qnext d_queue d_wait d_havedisk1 d_ata]; auto.
    - intros j. destruct (decide (i = j)) as [<-|Hj].
      + rewrite fn_lookup_insert. cbn [waits v' v_in v_queue v_buf]. rewrite fn_lookup_insert. split_and!; [exact (proj1 Wi) | exact Ni | apply served_settled].
      + rewrite fn_lookup_insert_ne by exact Hj. specialize (W j). unfold waits in *. rewrite Eq in W. rewrite (Oth j) by congruence. cbn [v' v_in v_queue].
        destruct (d_wait s j); rewrite ?elem_of_cons in W; intuition congruence.
    - intros j Hj. cbn [v' v_queue] in Hj. rewrite (Oth j) by congruence. rewrite D'. apply R, elem_of_cons. auto.
    - rewrite D'. exact D1. }
  assert (E1 : ideintr (with_ata a s) = (q <- gets d_queue ;; match q with None => ret tt | Some _ => idestart q end) s2).
  { unfold ideintr. rewrite (bind_ok (gets d_queue) _ (with_ata a s) (Some i) (with_ata a s)) by (unfold gets; cbn [with_ata d_queue]; now rewrite Q1).
    rewrite (bind_ok (gets (fun s => d_qnext s i)) _ (with_ata a s) _ (with_ata a s) eq_refl). rewrite (bind_ok (set_queue (d_qnext s i)) _ (with_ata a s) tt s1 eq_refl). rewrite Run.
    unfold wake_buf. rewrite bind_assoc. unfold bind at 1, gets at 1. cbn [s1 d_wait]. rewrite Hw. reflexivity. }
  rewrite E1, (bind_ok (gets d_queue) _ s2 (d_qnext s i) s2 eq_refl). destruct q as [|j q]; cbn [chain] in Q2.
  - rewrite Q2. exists s2, v'. split_and!; auto. apply (Fin a); auto. unfold controls. cbn [v' v_queue v_ended v_disk]. auto.
  - destruct Q2 as [Q2 Q3]. rewrite Q2. assert (Hj : j <> i) by (intros ->; apply Ni, elem_of_cons; auto).
    destruct (R j) as (R1 & R2 & R3); [rewrite !elem_of_cons; auto|]. assert (Eb : d_buf s2 j = v_buf v j) by (cbn [s2 d_buf]; now rewrite Fb, Oth).
    destruct (idestart_ok s2 j) as (a' & Ra & [A1 A2 A3 A4 A5 A6 A7]); rewrite ?Eb; auto. rewrite Eb in *.
    exists (with_ata a' s2), v'. split_and!; auto. apply Fin; auto. unfold controls. cbn [v' v_queue v_ended v_disk]. rewrite (Oth j) by exact Hj. cbn [s2 d_ata] in *. rewrite A3, A6. auto.
Qed.

(** The checks at the start of [iderw]. *)
Definition may_call (s : ide) (pid : Z) (i : nat) : Prop :=
  let b := d_buf s i in truth (Bio.sl_locked (Bio.b_lock b)) && (Bio.sl_pid (Bio.b_lock b) =? pid) = true /\ ~ settled b /\ (Bio.b_dev b = 0 \/ d_havedisk1 s = true).

Lemma iderw_checks s pid i r s' : iderw pid i s = Ok r s' -> may_call s pid i.
Proof.
  unfold iderw, may_call. rewrite (bind_ok (gets (fun s => d_buf s i)) _ s _ s eq_refl). set (b := d_buf s i).
  destruct (truth _ && _) eqn:E1; cbn [negb]; [|discriminate]. destruct (Z.eqb_spec (Z.land (Bio.b_flags b) (Z.lor Bio.B_VALID Bio.B_DIRTY)) Bio.B_VALID) as [E2|E2]; [discriminate|].
  rewrite (bind_ok (gets d_havedisk1) _ s _ s eq_refl). destruct (Z.eqb_spec (Bio.b_dev b) 0) as [E3|E3]; cbn [negb andb]; [auto|]. destruct (d_havedisk1 s) eqn:E4; cbn [negb]; [auto | discriminate].
Qed.

(** The call after its checks: the buffer is put at the end of the queue. *)
Lemma enqueue_ok s q i : chain (d_qnext s) (d_queue s) q -> NoDup q -> Forall (fun i => (i < NBUF)%nat) q -> i ∉ q ->
  exists nx p, chain nx p (q ++ [i]) /\ (p = Some i <-> q = []) /\ forall A (K : M ide A),
    (set_qnext i None ;;; pp <- last_link (NBUF + 1) None ;;
     (match pp with None => set_queue (Some i) | Some j => set_qnext j (Some i) end) ;;; K) s = K (mkIde (d_buf s) nx p (d_havedisk1 s) (d_ata s) (d_wait s)).
Proof.
  intros Q N Sm Hi. pose proof (queue_short q N Sm) as Hl. set (nx1 := <[i := None]> (d_qnext s)).
  set (s1 := mkIde (d_buf s) nx1 (d_queue s) (d_havedisk1 s) (d_ata s) (d_wait s)).
  assert (Q1 : chain nx1 (d_queue s) q) by now apply chain_insert. pose proof (last_link_ok (NBUF + 1) q None s1 Q1 ltac:(lia)) as Ll.
  destruct q as [|j0 q0] eqn:Eq using rev_ind; [|clear IHq0].
  - exists nx1, (Some i). split_and!; [split; [reflexivity | unfold nx1; now rewrite fn_lookup_insert] | tauto|]. intros A K.
    rewrite (bind_ok (set_qnext i None) _ s tt s1 eq_refl), (bind_ok _ _ _ _ _ Ll). reflexivity.
  - exists (<[j0 := Some i]> nx1), (d_queue s). split_and!.
    + apply chain_snoc; auto. unfold nx1. now rewrite fn_lookup_insert.
    + split; [|intros E; now apply app_eq_nil in E as [_ E]]. intros E. exfalso. destruct q0 as [|k q0]; cbn [app chain] in Q; destruct Q as [Q _]; rewrite E in Q; injection Q as ->; apply Hi, elem_of_cons; auto.
    + intros A K. rewrite last_snoc in Ll. rewrite (bind_ok (set_qnext i None) _ s tt s1 eq_refl), (bind_ok _ _ _ _ _ Ll). reflexivity.
Qed.

Lemma iderw_loop_ok s i : (settled (d_buf s i) -> iderw_loop i s = Ok true (mkIde (d_buf s) (d_qnext s) (d_queue s) (d_havedisk1 s) (d_ata s) (<[i := Idle]> (d_wait s)))) /\
  (~ settled (d_buf s i) -> iderw_loop i s = Ok false (mkIde (d_buf s) (d_qnext s) (d_queue s) (d_havedisk1 s) (d_ata s) (<[i := Asleep]> (d_wait s)))).
Proof.
  unfold iderw_loop, settled. rewrite (bind_ok (gets (fun s => d_buf s i)) _ s _ s eq_refl). destruct (Z.eqb_spec (Z.land (Bio.b_flags (d_buf s i)) (Z.lor Bio.B_VALID Bio.B_DIRTY)) Bio.B_VALID) as [E|E]; split; intros H; (reflexivity || tauto).
Qed.

Lemma drive_dev b : drive b = 1 -> Bio.b_dev b <> 0.
Proof. unfold drive. intros H E. rewrite E in H. discriminate. Qed.

Lemma sim_call s v pid i : sim s v -> (i < NBUF)%nat -> d_wait s i = Idle -> 0 <= Bio.b_blockno (d_buf s i) < FSSIZE -> may_call s pid i ->
  exists s' v', iderw pid i s = Ok false s' /\ vstep v (Call pid i) v' /\ sim s' v'.
Proof.
  intros [B Q [N1 N2] W R D1 Se Co] Hi Hw Hb (M1 & M2 & M3). pose proof (W i) as Wi. rewrite Hw in Wi. destruct Wi as [Hin Hni].
  destruct (enqueue_ok s (v_queue v) i Q N1 N2 Hni) as (nx & p & Ch & Hp & Run).
  set (v' := mkDisk (v_buf v) (v_queue v ++ [i]) (v_ended v) (v_disk v) (<[i := true]> (v_in v))).
  assert (V : vstep v (Call pid i) v') by now apply vstep_call.
  set (s1 := mkIde (d_buf s) nx p (d_havedisk1 s) (d_ata s) (d_wait s)).
  assert (Hd : drive (v_buf v i) = 1 -> a_drive1 (d_ata s) = true).
  { intros E. apply drive_dev in E. rewrite <- B in E. destruct M3 as [M3|M3]; [tauto | auto]. }
  assert (Fin : forall a', selected a' -> a_drive1 a' = a_drive1 (d_ata s) -> controls v' a' ->
    sim (mkIde (d_buf s) nx p (d_havedisk1 s) a' (<[i := Asleep]> (d_wait s))) v').
  { intros a' S' D' C'. constructor; cbn [d_buf d_qnext d_queue d_wait d_havedisk1 d_ata]; auto.
    - split; [apply NoDup_app; split_and!; auto; [|apply NoDup_singleton] | apply Forall_app; split; auto]. intros j Hj ->%list_elem_of_singleton. tauto.
    - intros j. destruct (decide (i = j)) as [<-|Hj].
      + rewrite fn_lookup_insert. cbn [waits v' v_in v_queue]. rewrite fn_lookup_insert, elem_of_app, list_elem_of_singleton. auto.
      + rewrite fn_lookup_insert_ne by exact Hj. specialize (W j). unfold waits in *. cbn [v' v_in v_queue v_buf]. rewrite fn_lookup_insert_ne by exact Hj.
        destruct (d_wait s j); rewrite ?elem_of_app, ?list_elem_of_singleton; intuition congruence.
    - intros j Hj. cbn [v' v_queue v_buf] in *. rewrite D'. apply elem_of_app in Hj as [Hj| ->%list_elem_of_singleton]; [now apply R|]. rewrite <- B. rewrite <- B in Hd. auto.
    - rewrite D'. exact D1. }
  assert (E1 : iderw pid i s = (q <- gets d_queue ;; (if bool_decide (q = Some i) then idestart (Some i) else ret tt) ;;; iderw_loop i) s1).
  { unfold iderw. rewrite (bind_ok (gets (fun s => d_buf s i)) _ s _ s eq_refl), M1. cbn [negb]. unfold settled in M2. rewrite (proj2 (Z.eqb_neq _ _) M2).
    rewrite (bind_ok (gets d_havedisk1) _ s _ s eq_refl). assert (negb (Bio.b_dev (d_buf s i) =? 0) && negb (d_havedisk1 s) = false) as -> by (destruct M3 as [->| ->]; [reflexivity | apply andb_false_r]).
    apply Run. }
  rewrite E1, (bind_ok (gets d_queue) _ s1 p s1 eq_refl). destruct (v_queue v) as [|j q] eqn:Eq.
  - rewrite bool_decide_true by now apply Hp. unfold controls in Co. rewrite Eq in Co. destruct (v_ended v) as [e|] eqn:Ee; [destruct Co|]. destruct Co as (C1 & C2 & C3 & C4).
    destruct (idestart_ok s1 i Hb C3) as (a' & Ra & [A1 A2 A3 A4 A5 A6 A7]); [cbn [s1 d_buf d_ata]; now rewrite B|].
    rewrite (bind_ok _ _ _ _ _ Ra). rewrite (proj2 (iderw_loop_ok (with_ata a' s1) i) M2). eexists _, v'. split; [reflexivity|]. split; [exact V|].
    apply Fin; auto. unfold controls, v'. cbn [v_queue v_ended v_disk v_buf app]. change (d_ata (with_ata a' s1)) with a'. cbn [s1 d_ata d_buf] in *. rewrite <- B, A3, A6. auto.
  - rewrite bool_decide_false by (intros E; apply Hp in E; discriminate). rewrite bind_ret, (proj2 (iderw_loop_ok s1 i) M2). eexists _, v'. split; [reflexivity|].
    split; [exact V|]. apply Fin; auto. unfold controls in *. rewrite Eq in Co. exact Co.
Qed.

Lemma sim_step s v e s' : sim s v -> istep s e s' -> exists v', vstep v e v' /\ sim s' v'.
Proof.
  intros S St. destruct St as [s pid i r s' Hi Hw Hb Run|s c e Hc|s s' Hq Run|s i r s' Hw Run|s i b Hw].
  - destruct (sim_call s v pid i S Hi Hw Hb (iderw_checks _ _ _ _ _ Run)) as (s2 & v' & R2 & V & S2). rewrite R2 in Run. injection Run as <- <-. eauto.
  - exact (sim_disk s v c e S Hc).
  - destruct (sim_intr s v S Hq) as (s2 & v' & R2 & V & S2). unfold with_ata in R2. rewrite R2 in Run. injection Run as <-. eauto.
  - destruct S as [B Q N W R D1 Se Co]. pose proof (W i) as Wi. rewrite Hw in Wi. destruct Wi as (W1 & W2 & W3). rewrite (proj1 (iderw_loop_ok s i)) in Run by now rewrite B.
    injection Run as <- <-. eexists. split; [now apply vstep_resume|]. constructor; cbn [d_buf d_qnext d_queue d_wait d_havedisk1 d_ata v_buf v_queue]; auto.
    intros j. destruct (decide (i = j)) as [<-|Hj]; [rewrite fn_lookup_insert; cbn; rewrite fn_lookup_insert; auto|].
    rewrite fn_lookup_insert_ne by exact Hj. specialize (W j). unfold waits in *. cbn [v_in v_queue v_buf]. now rewrite fn_lookup_insert_ne by exact Hj.
  - destruct S as [B Q N W R D1 Se Co]. pose proof (W i) as Wi. rewrite Hw in Wi. destruct Wi as [W1 W2]. eexists. split; [now apply vstep_use|].
    assert (Oth : forall j, j ∈ v_queue v -> <[i := b]> (v_buf v) j = v_buf v j) by (intros j Hj; apply fn_lookup_insert_ne; congruence).
    constructor; cbn [d_buf d_qnext d_queue d_wait d_havedisk1 d_ata v_buf v_queue]; auto.
    + intros j. destruct (decide (i = j)) as [<-|Hj]; [now rewrite !fn_lookup_insert | now rewrite !fn_lookup_insert_ne].
    + intros j. specialize (W j). unfold waits in *. cbn [v_in v_queue v_buf]. destruct (d_wait s j) eqn:Ej; auto. rewrite fn_lookup_insert_ne by congruence. exact W.
    + intros j Hj. rewrite Oth by exact Hj. now apply R.
    + unfold controls in *. cbn [v_queue v_ended v_disk v_buf]. destruct (v_queue v) as [|j q]; [exact Co|]. rewrite Oth by (apply elem_of_cons; auto). exact Co.
Qed.

Lemma sim_runs s v tr s' : sim s v -> runs istep s tr s' -> exists v', runs vstep v tr v' /\ sim s' v'.
Proof.
  intros S Hr. induction Hr as [s|s tr s1 e s2 Hr IH Hs]; [exists v; split; [constructor | exact S]|].
  destruct (IH S) as (v1 & R1 & S1). destruct (sim_step s1 v1 e s2 S1 Hs) as (v2 & V2 & S2). exists v2. split; [econstructor; eassumption | exact S2].
Qed.

(** ** Start-up *)

Definition ide0 (bufs : nat -> Bio.buf) (a : ata) : ide := mkIde bufs (fun _ => None) None false a (fun _ => Idle).
Definition disk0 (bufs : nat -> Bio.buf) (a : ata) : vdisk := mkDisk bufs [] None (a_disk a) (fun _ => false).

(** A controller with nothing to do. *)
Definition quiet (a : ata) : Prop := ready a /\ a_active a = None /\ a_irq a = false.

Lemma probe_absent k s : ata_inb (d_ata s) = 0 -> probe k s = Ok tt s.
Proof. intros E. induction k as [|k IH]; [reflexivity|]. cbn [probe]. unfold bind, gets. rewrite E. exact IH. Qed.

Lemma ideinit_ok bufs a : quiet a -> exists s, ideinit (ide0 bufs a) = Ok tt s /\ d_havedisk1 s = a_drive1 a /\ sim s (disk0 bufs a).
Proof.
  intros (Hr & Ha & Hq). pose proof Hr as [Hs Hst]. unfold ideinit. rewrite (bind_ok _ _ _ _ _ (idewait_ok (ide0 bufs a) false Hr)).
  rewrite (bind_ok _ _ _ _ _ (outb_ok 0x1f6 _ (ide0 bufs a) eq_refl)). set (a1 := set_port 0x1f6 _ _). set (s1 := with_ata a1 _).
  assert (Hi : ata_inb a1 = if a_drive1 a then a_status a else 0) by (unfold ata_inb; cbn; now destruct (a_drive1 a)).
  assert (Hn : a_status a <> 0) by (intros E; rewrite E in Hst; discriminate).
  set (s2 := mkIde bufs (fun _ => None) None (a_drive1 a) a1 (fun _ => Idle)).
  assert (Hp : probe 1000 s1 = Ok tt s2).
  { destruct (a_drive1 a) eqn:Ed; [|now rewrite probe_absent].
    change 1000%nat with (S 999). cbn [probe]. unfold bind, gets. cbn [s1 with_ata d_ata]. rewrite Hi, (proj2 (Z.eqb_neq _ _) Hn). reflexivity. }
  rewrite (bind_ok _ _ _ _ _ Hp), (outb_ok 0x1f6 _ s2 eq_refl). eexists. split; [reflexivity|]. split; [reflexivity|].
  constructor; cbn; auto; try (split; constructor); try (split; [auto | apply not_elem_of_nil]).
  - intros i Hin. now apply not_elem_of_nil in Hin.
  - intros E. discriminate.
  - split_and!; auto. split; [intros E; discriminate | exact Hst].
Qed.

(** ** Draining the queue *)

(** The steps that are not taken by a process. *)
Definition by_disk (e : event) : bool := match e with Disk _ | Intr => true | _ => false end.
Definition disk_steps (tr : list event) : nat := length (List.filter by_disk tr).

Lemma disk_steps_snoc tr e : disk_steps (tr ++ [e]) = (disk_steps tr + if by_disk e then 1 else 0)%nat.
Proof. unfold disk_steps. rewrite List.filter_app, length_app. cbn. now destruct (by_disk e). Qed.

(** A queue that is not empty can go on: a command is in progress, which may end with
    any result, or an interrupt is pending, whose handler returns. *)
Lemma queue_moves s v : sim s v -> v_queue v <> [] -> (forall e, exists s', istep s (Disk e) s') \/ exists s', istep s Intr s'.
Proof.
  intros S Hn. pose proof (sm_controls _ _ S) as Co. unfold controls in Co. destruct (v_queue v) as [|i q] eqn:Eq; [congruence|]. destruct (v_ended v) as [e|].
  - right. destruct (sim_intr s v S) as (s' & v' & R' & _); [apply Co|]. exists s'. apply step_intr; [apply Co | exact R'].
  - left. intros e. eexists. eapply step_disk, Co.
Qed.

(** The steps of disk and processor that are left for the first [n] requests. *)
Definition steps_left (v : vdisk) (n : nat) : nat := (2 * n - match v_ended v with Some _ => 1 | None => 0 end)%nat.

(** A step of disk or processor brings the request at position [j] nearer to the
    head, and at the head wakes its process; no other step moves it. *)
Lemma position_step s v e s' v' j i : sim s v -> vstep v e v' -> sim s' v' -> v_queue v !! j = Some i ->
  (d_wait s' i = Awake /\ settled (d_buf s' i)) \/
  exists j', v_queue v' !! j' = Some i /\ (steps_left v' (j' + 1) + (if by_disk e then 1 else 0) = steps_left v (j + 1))%nat.
Proof.
  intros S V S' Hj. pose proof (lookup_lt_Some _ _ _ Hj) as Hl. pose proof (sm_wait _ _ S' i) as W'. pose proof (sm_wait _ _ S i) as W.
  assert (Hin : v_in v i = true) by (assert (i ∈ v_queue v) by (eapply list_elem_of_lookup_2, Hj); unfold waits in W; destruct (d_wait s i); tauto).
  inversion V; subst; unfold steps_left; cbn [v_queue v_ended v_in v_buf by_disk] in *.
  - right. exists j. split; [now rewrite lookup_app_l | lia].
  - right. exists j. split; [exact Hj|]. rewrite H0. lia.
  - rewrite H in Hj. rewrite H0. destruct j as [|j]; cbn in Hj.
    + injection Hj as <-. left. pose proof (proj1 (sm_nodup _ _ S)) as N. rewrite H in N. apply NoDup_cons in N as [N _]. rewrite (sm_buf _ _ S').
      unfold waits in W'. cbn [v_in v_queue v_buf] in *. destruct (d_wait s' i0); [destruct W'; congruence | tauto | split; [reflexivity | apply W']].
    + right. exists j. split; [exact Hj | lia].
  - right. exists j. split; [exact Hj | lia].
  - right. exists j. split; [exact Hj | lia].
Qed.

(** The process whose buffer [i] is is awake at some point of the run [tr], after at
    most [n] steps of disk and processor. *)
Definition woken (s : ide) (tr : list event) (s' : ide) (n i : nat) : Prop :=
  exists t1 t2 s2, tr = t1 ++ t2 /\ runs istep s t1 s2 /\ runs istep s2 t2 s' /\ (disk_steps t1 <= n)%nat /\ d_wait s2 i = Awake /\ settled (d_buf s2 i).

Lemma position_runs s v tr s' j i : sim s v -> v_queue v !! j = Some i -> runs istep s tr s' -> exists v', sim s' v' /\
  (woken s tr s' (2 * (j + 1)) i \/ exists j', v_queue v' !! j' = Some i /\ (steps_left v' (j' + 1) + disk_steps tr = steps_left v (j + 1))%nat).
Proof.
  intros S Hj Hr. induction Hr as [s|s tr s1 e s2 Hr IH Hs]; [exists v; split; [exact S | right; exists j; split; [exact Hj | unfold disk_steps; cbn; lia]]|].
  destruct (IH S) as (v1 & S1 & P). destruct (sim_step s1 v1 e s2 S1 Hs) as (v2 & V2 & S2). exists v2. split; [exact S2|].
  destruct P as [(t1 & t2 & sm & -> & R1 & R2 & D & W)|(j1 & Hj1 & E1)].
  - left. exists t1, (t2 ++ [e]), sm. split_and!; try tauto; [now rewrite app_assoc | econstructor; eassumption].
  - destruct (position_step s1 v1 e s2 v2 j1 i S1 V2 S2 Hj1) as [W|(j2 & Hj2 & E2)].
    + left. exists (tr ++ [e]), [], s2. split_and!; try tauto; [now rewrite app_nil_r | econstructor; eassumption | constructor|].
      rewrite disk_steps_snoc. unfold steps_left in *. destruct (v_ended v), (v_ended v1), (by_disk e); lia.
    + right. exists j2. split; [exact Hj2|]. rewrite disk_steps_snoc. lia.
Qed.

(** Disk and processor alone take no more steps than are left. *)
Lemma disk_runs v tr v' : runs vstep v tr v' -> Forall by_disk tr -> (steps_left v' (length (v_queue v')) + length tr = steps_left v (length (v_queue v)))%nat.
Proof.
  intros H. induction H as [v|v tr v1 e v2 H IH Hs]; intros F; [cbn; lia|]. apply Forall_app in F as [F Fe]. apply Forall_cons in Fe as [Fe _].
  rewrite length_app, <- (IH F). unfold steps_left. inversion Hs; subst; cbn [v_queue v_ended] in *; try destruct Fe.
  all: rewrite H0, H1; cbn [length]; lia.
Qed.

(** Disk and interrupts do not let a process return. *)
Lemma in_call_stays v tr v' : runs vstep v tr v' -> Forall by_disk tr -> v_in v' = v_in v.
Proof.
  intros H. induction H as [v|v tr v1 e v2 H IH Hs]; intros F; [reflexivity|]. apply Forall_app in F as [F Fe]. apply Forall_cons in Fe as [Fe _].
  rewrite <- (IH F). inversion Hs; subst; cbn in *; try destruct Fe; reflexivity.
Qed.

(** A drive that reports an error goes unnoticed: the buffer counts as read or
    written although neither it nor the disk has changed. *)
Lemma error_unnoticed e dk b : failed e = true -> settled (served_buf e dk b) /\ Bio.b_data (served_buf e dk b) = Bio.b_data b /\ served_disk e dk b = dk.
Proof.
  intros E. split; [apply served_settled|]. unfold served_buf, served_disk. rewrite E, orb_true_r, andb_false_r. auto.
Qed.

(** ** Properties *)

(** C12: The driver is a disk that serves whole requests in the order of the calls.
    Every sequence of calls, ended commands, interrupts and resumptions after [ideinit]
    is one of the specification, in which the request at the head of the queue reads
    its block into its buffer or writes its buffer to its block in one step; at every
    moment the buffers are those of the specification, the links [qnext] from
    [idequeue] on are its queue, exactly the processes whose buffers are in the queue
    sleep, a process that is awake has a buffer that is valid and not dirty, and
    when the queue is empty the drives hold what the specification's do. *)
Theorem ide_serves_requests bufs a : quiet a -> exists s1, ideinit (ide0 bufs a) = Ok tt s1 /\ d_havedisk1 s1 = a_drive1 a /\
  forall tr s, runs istep s1 tr s -> exists v, runs vstep (disk0 bufs a) tr v /\ (forall i, d_buf s i = v_buf v i) /\
    chain (d_qnext s) (d_queue s) (v_queue v) /\ NoDup (v_queue v) /\
    (forall i, d_wait s i = Asleep <-> i ∈ v_queue v) /\ (forall i, d_wait s i = Awake -> settled (d_buf s i)) /\
    (d_queue s = None -> a_disk (d_ata s) = v_disk v).
Proof.
  intros Hq. destruct (ideinit_ok bufs a Hq) as (s1 & R1 & D1 & S1). exists s1. split_and!; auto. intros tr s Hr.
  destruct (sim_runs s1 _ tr s S1 Hr) as (v & Rv & [B Q [N _] W R D Se Co]). exists v. split_and!; auto.
  - intros i. specialize (W i). destruct (d_wait s i); cbn in W; split; intros H; intuition congruence.
  - intros i Hw. specialize (W i). rewrite Hw in W. rewrite B. apply W.
  - intros E. unfold controls in Co. destruct (v_queue v) as [|i q]; [|destruct Q as [Q _]; congruence]. destruct (v_ended v); [destruct Co | apply Co].
Qed.

(** C13: Every request ends, in its turn.  In every state that can be reached, a queue
    that is not empty has a command in progress, which may end with any result, or an
    interrupt pending, whose handler returns.  In every run from there, whatever the
    drives answer and whatever processes do in between, the process whose buffer is
    at position [j] of the queue is awake with a buffer that is valid and not dirty
    after at most two steps of disk and processor for each buffer up to its own.  Disk
    and processor alone take at most two steps for each buffer of the queue, and when
    they can take no more the queue is empty and every process of it is awake. *)
Theorem ide_drains bufs a s1 tr s q : quiet a -> ideinit (ide0 bufs a) = Ok tt s1 -> runs istep s1 tr s -> chain (d_qnext s) (d_queue s) q ->
  (q <> [] -> (forall e, exists s', istep s (Disk e) s') \/ exists s', istep s Intr s') /\
  forall tr' s', runs istep s tr' s' ->
    (forall j i, q !! j = Some i -> (2 * (j + 1) <= disk_steps tr')%nat -> woken s tr' s' (2 * (j + 1)) i) /\
    (Forall by_disk tr' -> (length tr' <= 2 * length q)%nat /\
      ((forall e s'', ~ istep s' (Disk e) s'') -> (forall s'', ~ istep s' Intr s'') -> d_queue s' = None /\ forall i, i ∈ q -> d_wait s' i = Awake /\ settled (d_buf s' i))).
Proof.
  intros Hq Hi Hr Hc. destruct (ideinit_ok bufs a Hq) as (s1' & R1 & _ & S1). rewrite Hi in R1. injection R1 as <-. destruct (sim_runs s1 _ tr s S1 Hr) as (v & _ & S).
  pose proof (chain_unique _ _ _ _ Hc (sm_queue _ _ S)) as ->. split; [exact (queue_moves s v S)|]. intros tr' s' Hr'. split.
  - intros j i Hj Hd. destruct (position_runs s v tr' s' j i S Hj Hr') as (v' & _ & [W|(j' & _ & E)]); [exact W|].
    unfold steps_left in E. destruct (v_ended v), (v_ended v'); lia.
  - intros F. destruct (sim_runs s v tr' s' S Hr') as (v' & R' & S'). pose proof (disk_runs v tr' v' R' F) as E. split; [unfold steps_left in E; lia|]. intros Nd Ni.
    assert (Em : v_queue v' = []) by (destruct (v_queue v') eqn:Eq; [reflexivity|]; exfalso; destruct (queue_moves s' v' S') as [Y|[s'' Y]]; [congruence | destruct (Y 0) as [s'' Z0]; exact (Nd _ _ Z0) | exact (Ni _ Y)]).
    pose proof (sm_queue _ _ S') as Q'. rewrite Em in Q'. split; [exact Q'|]. intros i Hin. pose proof (sm_wait _ _ S i) as W. pose proof (sm_wait _ _ S' i) as W'.
    rewrite (sm_buf _ _ S'). unfold waits in W, W'. rewrite Em, (in_call_stays _ _ _ R' F) in W'.
    destruct (d_wait s i), (d_wait s' i); try tauto; [destruct W', W; congruence | destruct W' as [_ W']; now apply not_elem_of_nil in W'].
Qed.

(** ** A run *)

(** Two buffers on drive 1: one to be read, one to be written. *)
Definition sample_buf (i : nat) : Bio.buf :=
  Bio.mkBuf (match i with O => 0 | _ => Bio.B_DIRTY end) 1 (Z.of_nat i + 7) (Bio.mkSleep 1 3) 1 (fun x => x mod 5).
Definition sample_ata : ata := mkAta (fun _ => 0) IDE_DRDY None false (fun _ => 0) (fun _ => 0) true (fun d n x => (d + n + x) mod 256).

Lemma sample_quiet : quiet sample_ata.
Proof. unfold quiet, ready, selected. split; [split; [cbn; discriminate | reflexivity] | split; reflexivity]. Qed.

Lemma ide_serves_requests_witness : exists s1, ideinit (ide0 sample_buf sample_ata) = Ok tt s1 /\ d_havedisk1 s1 = a_drive1 sample_ata /\
  forall tr s, runs istep s1 tr s -> exists v, runs vstep (disk0 sample_buf sample_ata) tr v /\ (forall i, d_buf s i = v_buf v i) /\
    chain (d_qnext s) (d_queue s) (v_queue v) /\ NoDup (v_queue v) /\
    (forall i, d_wait s i = Asleep <-> i ∈ v_queue v) /\ (forall i, d_wait s i = Awake -> settled (d_buf s i)) /\
    (d_queue s = None -> a_disk (d_ata s) = v_disk v).
Proof. apply (ide_serves_requests sample_buf sample_ata). exact sample_quiet. Defined.

(** The state after [ideinit] and after the two calls. *)
Definition ran (m : M ide bool) (s : ide) : ide := match m s with Ok _ s' => s' | _ => s end.
Lemma ran_ok m s : match m s with Ok r _ => r = false | _ => False end -> m s = Ok false (ran m s).
Proof. unfold ran. destruct (m s); intros H; [now rewrite H | destruct H..]. Qed.

Definition sample_start : ide := ran (ideinit ;;; ret true) (ide0 sample_buf sample_ata).
Definition sample_calls : ide := ran (iderw 3 1) (ran (iderw 3 0) sample_start).

Lemma ide_drains_witness :
  ([0%nat; 1%nat] <> [] -> (forall e, exists s', istep sample_calls (Disk e) s') \/ exists s', istep sample_calls Intr s') /\
  forall tr' s', runs istep sample_calls tr' s' ->
    (forall j i, [0%nat; 1%nat] !! j = Some i -> (2 * (j + 1) <= disk_steps tr')%nat -> woken sample_calls tr' s' (2 * (j + 1)) i) /\
    (Forall by_disk tr' -> (length tr' <= 2 * length [0%nat; 1%nat])%nat /\
      ((forall e s'', ~ istep s' (Disk e) s'') -> (forall s'', ~ istep s' Intr s'') -> d_queue s' = None /\ forall i, i ∈ [0%nat; 1%nat] -> d_wait s' i = Awake /\ settled (d_buf s' i))).
Proof.
  apply (ide_drains sample_buf sample_ata sample_start [Call 3 0; Call 3 1] sample_calls [0%nat; 1%nat]).
  - exact sample_quiet.
  - reflexivity.
  - change [Call 3 0; Call 3 1] with (([] ++ [Call 3 0]) ++ [Call 3 1]).
    apply (runs_snoc istep _ _ (ran (iderw 3 0) sample_start)); [apply (runs_snoc istep _ _ sample_start); [constructor|]|];
      (apply (step_call _ 3 _ false); [unfold NBUF; lia | vm_compute; reflexivity | vm_compute; split; [discriminate | reflexivity] | apply ran_ok; vm_compute; reflexivity]).
  - vm_compute. split_and!; reflexivity.
Defined.
