(* ===== verification/Kbd.v ===== *)
(** The keyboard, [src/xv6/xv6-public/kbd.c] with the tables of [kbd.h], in front of
    the console of [Console].

    The keyboard controller holds the scan codes that have not been read; [kbdintr]
    passes all of them through [kbdgetc] to [consoleintr].  The theorem takes a line
    from the keys to the readers of the console. *)

From S2P Require Import Prelude Mem Print Console.

Definition KBS_DIB : Z := 0x01.
Definition SHIFT : Z := Z.shiftl 1 0.
Definition CTL : Z := Z.shiftl 1 1.
Definition ALT : Z := Z.shiftl 1 2.
Definition CAPSLOCK : Z := Z.shiftl 1 3.
Definition NUMLOCK : Z := Z.shiftl 1 4.
Definition SCROLLLOCK : Z := Z.shiftl 1 5.
Definition E0ESC : Z := Z.shiftl 1 6.

(** An array with an initialiser: the first elements in order, then those with a
    designator; the others are 0. *)
Definition keymap (first : list Z) (rest : list (Z * Z)) (k : Z) : Z :=
  match find (fun e => fst e =? k) rest with
  | Some e => snd e
  | None => if (0 <=? k) && (k <? Z.of_nat (length first)) then nth (Z.to_nat k) first 0 else 0
  end.

Definition shiftcode : Z -> Z := keymap
  []
  [(0x1d, CTL); (0x2a, SHIFT); (0x36, SHIFT); (0x38, ALT); (0x9d, CTL); (0xb8, ALT)].
Definition togglecode : Z -> Z := keymap
  []
  [(0x3a, CAPSLOCK); (0x45, NUMLOCK); (0x46, SCROLLLOCK)].
Definition normalmap : Z -> Z := keymap
  [0; 27; 49; 50; 51; 52; 53; 54; 55; 56; 57; 48; 45; 61; 8; 9;
   113; 119; 101; 114; 116; 121; 117; 105; 111; 112; 91; 93; 10; 0; 97; 115;
   100; 102; 103; 104; 106; 107; 108; 59; 39; 96; 0; 92; 122; 120; 99; 118;
   98; 110; 109; 44; 46; 47; 0; 42; 0; 32; 0; 0; 0; 0; 0; 0;
   0; 0; 0; 0; 0; 0; 0; 55; 56; 57; 45; 52; 53; 54; 43; 49;
   50; 51; 48; 46; 0; 0; 0; 0]
  [(0x9c, 10); (0xb5, 47); (0xc8, 0xe2); (0xd0, 0xe3); (0xc9, 0xe6); (0xd1, 0xe7); (0xcb, 0xe4); (0xcd, 0xe5); (0x97, 0xe0); (0xcf, 0xe1); (0xd2, 0xe8); (0xd3, 0xe9)].
Definition shiftmap : Z -> Z := keymap
  [0; 27; 33; 64; 35; 36; 37; 94; 38; 42; 40; 41; 95; 43; 8; 9;
   81; 87; 69; 82; 84; 89; 85; 73; 79; 80; 123; 125; 10; 0; 65; 83;
   68; 70; 71; 72; 74; 75; 76; 58; 34; 126; 0; 124; 90; 88; 67; 86;
   66; 78; 77; 60; 62; 63; 0; 42; 0; 32; 0; 0; 0; 0; 0; 0;
   0; 0; 0; 0; 0; 0; 0; 55; 56; 57; 45; 52; 53; 54; 43; 49;
   50; 51; 48; 46; 0; 0; 0; 0]
  [(0x9c, 10); (0xb5, 47); (0xc8, 0xe2); (0xd0, 0xe3); (0xc9, 0xe6); (0xd1, 0xe7); (0xcb, 0xe4); (0xcd, 0xe5); (0x97, 0xe0); (0xcf, 0xe1); (0xd2, 0xe8); (0xd3, 0xe9)].
Definition ctlmap : Z -> Z := keymap
  [0; 0; 0; 0; 0; 0; 0; 0; 0; 0; 0; 0; 0; 0; 0; 0;
   17; 23; 5; 18; 20; 25; 21; 9; 15; 16; 0; 0; 13; 0; 1; 19;
   4; 6; 7; 8; 10; 11; 12; 0; 0; 0; 0; 28; 26; 24; 3; 22;
   2; 14; 13; 0; 0; 239; 0; 0]
  [(0x9c, 13); (0xb5, 239); (0xc8, 0xe2); (0xd0, 0xe3); (0xc9, 0xe6); (0xd1, 0xe7); (0xcb, 0xe4); (0xcd, 0xe5); (0x97, 0xe0); (0xcf, 0xe1); (0xd2, 0xe8); (0xd3, 0xe9)].

(** The static [shift] of [kbdgetc] and the controller's buffer. *)
Record kbd := mkKbd { kb_shift : Z; kb_data : list Z }.

(** [kbdgetc] on the byte [data]: the new [shift] and the result. *)
Definition kbd_byte (shift data : Z) : Z * Z :=
  if data =? 0xE0 then (Z.lor shift E0ESC, 0)
  else if truth (Z.land data 0x80) then
    let data := if truth (Z.land shift E0ESC) then data else Z.land data 0x7F in
    (Z.land shift (Z.lnot (Z.lor (shiftcode data) E0ESC)), 0)
  else
    let esc := truth (Z.land shift E0ESC) in
    let data := if esc then Z.lor data 0x80 else data in
    let shift := if esc then Z.land shift (Z.lnot E0ESC) else shift in
    let shift := Z.lxor (Z.lor shift (shiftcode data)) (togglecode data) in
    let map := nth (Z.to_nat (Z.land shift (Z.lor CTL SHIFT))) [normalmap; shiftmap; ctlmap; ctlmap] ctlmap in
    let c := map data in
    let c := if truth (Z.land shift CAPSLOCK) then
               if (97 <=? c) && (c <=? 122) then c + (65 - 97)
               else if (65 <=? c) && (c <=? 90) then c + (97 - 65) else c
             else c in
    (shift, c).

Definition kbdgetc : M kbd Z :=
  s <- gets id ;;
  let st := match kb_data s with [] => 0 | _ => KBS_DIB end in
  if Z.land st KBS_DIB =? 0 then ret (-1) else
  match kb_data s with
  | [] => ret (-1)
  | data :: rest => modify (fun _ => mkKbd (fst (kbd_byte (kb_shift s) data)) rest) ;;; ret (snd (kbd_byte (kb_shift s) data))
  end.

(** The calls of [kbdgetc] by [consoleintr], up to the first negative result. *)
Fixpoint kbd_drain (fuel : nat) : M kbd (list Z) :=
  match fuel with
  | O => nofuel
  | S fuel => c <- kbdgetc ;; if 0 <=? c then cs <- kbd_drain fuel ;; ret (c :: cs) else ret []
  end.

(** The keyboard and the console. *)
Definition kbdintr : M (kbd * console) bool :=
  n <- gets (fun s => length (kb_data (fst s))) ;;
  cs <- zoom fst (fun k s => (k, snd s)) (kbd_drain (S n)) ;;
  zoom snd (fun c s => (fst s, c)) (consoleintr cs).

(** Interrupts for the scan codes that have arrived since the last one. *)
Fixpoint kbd_session (batches : list (list Z)) : M (kbd * console) unit :=
  match batches with
  | [] => ret tt
  | b :: batches =>
      modify (fun s => (mkKbd (kb_shift (fst s)) (kb_data (fst s) ++ b), snd s)) ;;;
      kbdintr ;;; kbd_session batches
  end.

(** ** Sequences of scan codes *)

Fixpoint kbd_run (shift : Z) (data : list Z) : Z * list Z :=
  match data with
  | [] => (shift, [])
  | d :: data => let r := kbd_run (fst (kbd_byte shift d)) data in (fst r, snd (kbd_byte shift d) :: snd r)
  end.

Lemma kbd_run_app a b : forall shift, kbd_run shift (a ++ b) = (fst (kbd_run (fst (kbd_run shift a)) b), snd (kbd_run shift a) ++ snd (kbd_run (fst (kbd_run shift a)) b)).
Proof.
  induction a as [|d a IH]; intros shift; cbn [app kbd_run fst snd]; [now destruct (kbd_run shift b)|]. rewrite IH. reflexivity.
Qed.

(** The results of [kbdgetc] on bytes are bytes; [shift] stays below 128. *)
Definition byte_ok (shift data : Z) : bool :=
  let r := kbd_byte shift data in (0 <=? fst r) && (fst r <? 128) && (0 <=? snd r) && (snd r <? 256).

Lemma kbd_byte_range shift data : 0 <= shift < 128 -> 0 <= data < 256 -> 0 <= fst (kbd_byte shift data) < 128 /\ 0 <= snd (kbd_byte shift data) < 256.
Proof.
  intros Hs Hd. assert (All : forallb (fun s => forallb (byte_ok s) (seqZ 0 256)) (seqZ 0 128) = true) by (vm_compute; reflexivity).
  rewrite forallb_forall in All. specialize (All shift ltac:(apply list_elem_of_In, elem_of_seqZ; lia)). rewrite forallb_forall in All.
  specialize (All data ltac:(apply list_elem_of_In, elem_of_seqZ; lia)). unfold byte_ok in All. bool_prop. lia.
Qed.

Definition bytes_in (l : list Z) : Prop := Forall (fun d => 0 <= d < 256) l.

Lemma kbd_run_range data : forall shift, 0 <= shift < 128 -> bytes_in data -> 0 <= fst (kbd_run shift data) < 128 /\ bytes_in (snd (kbd_run shift data)).
Proof.
  induction data as [|d data IH]; intros shift Hs Hd; [split; [exact Hs | constructor]|]. apply Forall_cons in Hd as [Hd Hds]. cbn [kbd_run fst snd].
  destruct (kbd_byte_range shift d Hs Hd) as [H1 H2]. destruct (IH _ H1 Hds) as [H3 H4]. split; [exact H3 | now apply Forall_cons].
Qed.

Lemma kbd_drain_ok data : forall fuel shift, 0 <= shift < 128 -> bytes_in data -> (length data < fuel)%nat ->
  kbd_drain fuel (mkKbd shift data) = Ok (snd (kbd_run shift data)) (mkKbd (fst (kbd_run shift data)) []).
Proof.
  induction data as [|d data IH]; intros [|fuel] shift Hs Hd Hf; try (cbn in Hf; lia).
  - reflexivity.
  - apply Forall_cons in Hd as [Hd Hds]. destruct (kbd_byte_range shift d Hs Hd) as [H1 H2]. cbn [kbd_drain].
    rewrite (bind_ok kbdgetc _ (mkKbd shift (d :: data)) (snd (kbd_byte shift d)) (mkKbd (fst (kbd_byte shift d)) data) eq_refl). rewrite (proj2 (Z.leb_le _ _)) by lia.
    rewrite (bind_ok _ _ _ _ _ (IH fuel _ H1 Hds ltac:(cbn in Hf; lia))). reflexivity.
Qed.

(** ** Typing *)

(** The US keyboard.  The keys of a row have consecutive scan codes (set 1); a row is the
    first of them, its characters, and its characters with shift. *)
Definition codes (s : string) : list Z := map (fun a => Z.of_nat (Ascii.nat_of_ascii a)) (String.list_ascii_of_string s).
Definition us_rows : list (Z * list Z * list Z) :=
  [(0x02, codes "1234567890-=", codes "!@#$%^&*()_+");
   (0x10, codes "qwertyuiop[]", codes "QWERTYUIOP{}");
   (0x1E, codes "asdfghjkl;'`", codes "ASDFGHJKL:" ++ [34; 126]);
   (0x2B, codes "\zxcvbnm,./", codes "|ZXCVBNM<>?")].

(** The characters with the scan codes of their keys, without and with shift; the
    space bar and the enter key. *)
Definition us_plain : list (Z * Z) :=
  concat (map (fun '(k, cs, _) => combine cs (seqZ k (Z.of_nat (length cs)))) us_rows) ++ [(32, 0x39); (10, 0x1C)].
Definition us_shifted : list (Z * Z) := concat (map (fun '(k, _, cs) => combine cs (seqZ k (Z.of_nat (length cs)))) us_rows).

(** The ways to type a character: its key pressed and released, alone or while the left
    or the right shift key is held; releasing a key sends its code plus 0x80. *)
Definition strokes (c : Z) : list (list Z) :=
  map (fun e => [snd e; snd e + 0x80]) (List.filter (fun e => fst e =? c) us_plain) ++
  concat (map (fun e => map (fun sh => [sh; snd e; snd e + 0x80; sh + 0x80]) [0x2A; 0x36]) (List.filter (fun e => fst e =? c) us_shifted)).

(** The printable characters. *)
Definition printable (c : Z) : Prop := 32 <= c < 127.

Definition nonzero (l : list Z) : list Z := List.filter truth l.

Definition types (c : Z) (ks : list Z) : bool :=
  let r := kbd_run 0 ks in
  (fst r =? 0) && bool_decide (nonzero (snd r) = [c]) && forallb (fun d => (0 <=? d) && (d <? 256)) ks.

(** Every character can be typed, and every way to type it gives it. *)
Lemma strokes_ok c : printable c \/ c = 10 -> strokes c <> [] /\ forall ks, In ks (strokes c) ->
  fst (kbd_run 0 ks) = 0 /\ nonzero (snd (kbd_run 0 ks)) = [c] /\ bytes_in ks.
Proof.
  intros Hc. assert (All : forallb (fun c => negb (Nat.eqb (length (strokes c)) 0) && forallb (types c) (strokes c)) (10 :: seqZ 32 95) = true) by (vm_compute; reflexivity). rewrite forallb_forall in All.
  specialize (All c). assert (Hin : In c (10 :: seqZ 32 95)) by (destruct Hc as [Hc| ->]; [right; apply list_elem_of_In, elem_of_seqZ; unfold printable in Hc; lia | now left]).
  apply All in Hin. apply andb_prop in Hin as [Hne Hin]. split; [intros E; now rewrite E in Hne|]. intros ks Hks. rewrite forallb_forall in Hin. specialize (Hin ks Hks). unfold types in Hin.
  apply andb_prop in Hin as [Hin H3]. apply andb_prop in Hin as [H1 H2]. split_and!; [now apply Z.eqb_eq | now apply bool_decide_eq_true in H2|].
  apply Forall_forall. intros d Hd%list_elem_of_In. rewrite forallb_forall in H3. specialize (H3 d Hd). bool_prop. lia.
Qed.

Lemma typed_ok l kss : Forall (fun c => printable c \/ c = 10) l -> Forall2 (fun c ks => In ks (strokes c)) l kss ->
  fst (kbd_run 0 (concat kss)) = 0 /\ nonzero (snd (kbd_run 0 (concat kss))) = l /\ bytes_in (concat kss).
Proof.
  intros Hl F. induction F as [|c ks l kss Hks F IH]; [split_and!; try reflexivity; constructor|]. apply Forall_cons in Hl as [Hc Hl].
  destruct (strokes_ok c Hc) as [_ Hs]. destruct (Hs ks Hks) as (H1 & H2 & H3). destruct (IH Hl) as (H4 & H5 & H6). cbn [concat]. rewrite kbd_run_app, H1. cbn [fst snd].
  split_and!; [exact H4 | unfold nonzero in *; rewrite List.filter_app, H2, H5; reflexivity | now apply Forall_app].
Qed.

Lemma key_zero qp : key 0 qp = qp.
Proof. destruct qp. reflexivity. Qed.

Lemma keys_nonzero cs : forall qp, fold_left (fun qp c => key c qp) cs qp = fold_left (fun qp c => key c qp) (nonzero cs) qp.
Proof.
  induction cs as [|c cs IH]; intros qp; [reflexivity|]. cbn [fold_left nonzero List.filter]. destruct (truth c) eqn:E; [apply IH|].
  unfold truth in E. apply negb_false_iff, Z.eqb_eq in E. subst c. rewrite key_zero. apply IH.
Qed.

(** Characters of an unfinished line. *)
Lemma keys_text l : forall q p, Forall printable l -> (length q + length p + length l < 127)%nat -> fold_left (fun qp c => key c qp) l (q, p) = (q, p ++ l).
Proof.
  induction l as [|c l IH]; intros q p Hl Hn; cbn [fold_left]; [now rewrite app_nil_r|]. apply Forall_cons in Hl as [Hc Hl]. cbn [length] in Hn. unfold printable in Hc.
  assert (E : key c (q, p) = (q, p ++ [c])).
  { unfold key, CTL_P, CTL_U, CTL_H. rewrite !(proj2 (Z.eqb_neq _ _)) by lia. cbn [orb]. assert (truth c = true) as -> by (unfold truth; rewrite (proj2 (Z.eqb_neq _ _)) by lia; reflexivity).
    rewrite (proj2 (Nat.ltb_lt _ _)) by lia. cbn [andb].
    assert (commits c q p = false) as ->; [|reflexivity]. unfold commits, CTL_D. rewrite !(proj2 (Z.eqb_neq _ _)), (proj2 (Nat.eqb_neq _ _)) by lia. reflexivity. }
  rewrite E, IH; [now rewrite <- app_assoc | exact Hl | rewrite length_app; cbn [length]; lia].
Qed.

Lemma kbdintr_ok shift data c R q p : 0 <= shift < 128 -> bytes_in data -> cons_is c R q p ->
  let r := kbd_run shift data in let qp := fold_left (fun qp c => key c qp) (snd r) (q, p) in
  exists dump c', kbdintr (mkKbd shift data, c) = Ok dump (mkKbd (fst r) [], c') /\ cons_is c' R (fst qp) (snd qp).
Proof.
  intros Hs Hd C r qp. destruct (kbd_run_range data shift Hs Hd) as [_ Hb]. fold r in Hb.
  destruct (consoleintr_ok (snd r) c R q p false C Hb) as (c' & E & C'). eexists _, c'. split; [|exact C'].
  unfold kbdintr. rewrite (bind_ok (gets _) _ _ (length data) (mkKbd shift data, c) eq_refl). unfold bind at 1, zoom at 1. cbn [fst snd].
  rewrite (kbd_drain_ok data (S (length data)) shift Hs Hd) by lia. unfold zoom, consoleintr. cbn [fst snd]. fold r. rewrite E. reflexivity.
Qed.

Lemma kbd_session_ok batches : forall shift c R q p, 0 <= shift < 128 -> bytes_in (concat batches) -> cons_is c R q p ->
  let r := kbd_run shift (concat batches) in let qp := fold_left (fun qp c => key c qp) (snd r) (q, p) in
  exists c', kbd_session batches (mkKbd shift [], c) = Ok tt (mkKbd (fst r) [], c') /\ cons_is c' R (fst qp) (snd qp).
Proof.
  induction batches as [|b batches IH]; intros shift c R q p Hs Hb C; [exists c; auto|]. cbn [concat kbd_session] in *. apply Forall_app in Hb as [Hb Hbs].
  destruct (kbdintr_ok shift b c R q p Hs Hb C) as (dump & c1 & E1 & C1). destruct (kbd_run_range b shift Hs Hb) as [H1 _].
  rewrite (bind_ok (modify _) _ (mkKbd shift [], c) tt (mkKbd shift b, c) eq_refl), (bind_ok _ _ _ _ _ E1).
  destruct (IH _ c1 R _ _ H1 Hbs C1) as (c2 & E2 & C2). exists c2. rewrite kbd_run_app. cbn [fst snd]. rewrite fold_left_app. split; [exact E2|].
  destruct (fold_left _ (snd (kbd_run shift b)) (q, p)). exact C2.
Qed.

(** C36: A line that is typed on a US keyboard reaches the readers of the console.
    Every printable character can be typed.  Whatever printable characters the line
    has, if there is room for it in the buffer, and whichever key and shift key is
    used for each of them, the scan codes of pressing and releasing those keys and
    the enter key, split over interrupts in any way, put exactly the line and its
    newline behind the finished lines, and leave no modifier set and no character
    pending. *)
Theorem keyboard_line c R q l kss batches : cons_is c R q [] -> Forall printable l -> (length q + length l < 127)%nat ->
  Forall2 (fun x ks => In ks (strokes x)) (l ++ [10]) kss -> concat batches = concat kss ->
  (forall x, printable x -> strokes x <> []) /\
  exists c', kbd_session batches (mkKbd 0 [], c) = Ok tt (mkKbd 0 [], c') /\ cons_is c' R (q ++ l ++ [10]) [].
Proof.
  intros C Hl Hn Hk Hb. split; [intros x Hx; apply strokes_ok; now left|]. destruct (typed_ok (l ++ [10]) kss) as (H1 & H2 & H3); [|exact Hk|].
  { apply Forall_app. split; [apply (Forall_impl printable); [exact Hl | intros x Hx; now left] | apply Forall_singleton; now right]. }
  rewrite <- Hb in *. destruct (kbd_session_ok batches 0 c R q [] ltac:(lia) H3 C) as (c' & E & C'). exists c'. rewrite H1 in E. split; [exact E|].
  rewrite keys_nonzero, H2, fold_left_app, keys_text in C' by (auto; cbn; lia). cbn [fold_left app] in C'.
  assert (Ek : key 10 (q, l) = (q ++ l ++ [10], [])).
  { unfold key. change (10 =? CTL_P) with false. change (10 =? CTL_U) with false. change ((10 =? CTL_H) || (10 =? 127)) with false. change (truth 10) with true. cbv iota.
    rewrite (proj2 (Nat.ltb_lt _ _)) by lia. reflexivity. }
  rewrite Ek in C'. exact C'.
Qed.

(** "Hi!", typed with either shift key in three interrupts. *)
Lemma keyboard_line_witness : exists c', kbd_session [[0x2A]; [0x23; 0xA3; 0xAA; 0x17; 0x97; 0x36]; [0x02; 0x82; 0xB6; 0x1C; 0x9C]] (mkKbd 0 [], console0) = Ok tt (mkKbd 0 [], c') /\
  cons_is c' 0 ([] ++ [72; 105; 33] ++ [10]) [].
Proof.
  apply (keyboard_line console0 0 [] [72; 105; 33] [[0x2A; 0x23; 0xA3; 0xAA]; [0x17; 0x97]; [0x36; 0x02; 0x82; 0xB6]; [0x1C; 0x9C]]).
  - exact console0_is.
  - repeat constructor; lia.
  - cbn. lia.
  - repeat (constructor; [vm_compute; tauto|]). constructor.
  - vm_compute. reflexivity.
Defined.

(** Letters: upper case if one of shift and caps lock is on. *)
Definition letter_ok (shift k : Z) : bool :=
  let r := kbd_byte shift k in
  let lower := normalmap k in
  negb ((97 <=? lower) && (lower <=? 122)) || truth (Z.land shift (Z.lor CTL E0ESC)) ||
  (snd r =? if xorb (truth (Z.land shift SHIFT)) (truth (Z.land shift CAPSLOCK)) then lower - 32 else lower).

Lemma letters_case shift k : 0 <= shift < 128 -> 0 <= k < 128 -> 97 <= normalmap k <= 122 -> Z.land shift (Z.lor CTL E0ESC) = 0 ->
  snd (kbd_byte shift k) = if xorb (truth (Z.land shift SHIFT)) (truth (Z.land shift CAPSLOCK)) then normalmap k - 32 else normalmap k.
Proof.
  intros Hs Hk Hl Hm. assert (All : forallb (fun s => forallb (letter_ok s) (seqZ 0 128)) (seqZ 0 128) = true) by (vm_compute; reflexivity).
  rewrite forallb_forall in All. specialize (All shift ltac:(apply list_elem_of_In, elem_of_seqZ; lia)). rewrite forallb_forall in All.
  specialize (All k ltac:(apply list_elem_of_In, elem_of_seqZ; lia)). unfold letter_ok in All. rewrite Hm, (proj2 (Z.leb_le 97 _)), (proj2 (Z.leb_le _ 122)) in All by lia.
  cbn [andb negb orb] in All. now apply Z.eqb_eq.
Qed.
