(* ===== verification/Trap.v ===== *)
(** Traps: [trap] of [src/xv6/xv6-public/trap.c] with the clock, and the system calls
    of [sysproc.c] about processes and time, on the calls of [Proc].

    A call of [exit] or [yield], and a system call that sleeps, leave the processor in
    [swtch]; what the code does when the process runs again is a definition of its
    own.  The device handlers are an interface; they report the channels that they
    wake up.  The lock beside [ptable.lock] in the state of [Proc] is [tickslock]. *)

From stdpp Require Import relations.
From S2P Require Import Prelude Mem Mmu Spinlock Kalloc PageTable Uvm Kvm Lazy FileApi Wunmap Proc Sched Calls.

Definition T_PGFLT : Z := 14.
Definition T_SYSCALL : Z := 64.
Definition T_IRQ0 : Z := 32.
Definition IRQ_TIMER : Z := 0.
Definition IRQ_KBD : Z := 1.
Definition IRQ_COM1 : Z := 4.
Definition IRQ_IDE : Z := 14.
Definition IRQ_SPURIOUS : Z := 31.
Definition CPU_size : Z := 176.

(** The handlers of the devices. *)
Class TrapDevices (D : Type) := {
  td_ideintr : M D (list Z);
  td_kbdintr : M D (list Z);
  td_uartintr : M D (list Z);
  td_lapiceoi : M D unit }.

(** The kernel, [ticks] and the devices. *)
Record trapst (F D : Type) := mkTrap { t_k : kst F; t_ticks : Z; t_dev : D }.
Arguments mkTrap {F D}.
Arguments t_k {F D}.
Arguments t_ticks {F D}.
Arguments t_dev {F D}.

(** Where a trap leaves the processor: back to the interrupted code, in the [swtch] of
    [exit] or of [yield], or in that of the system call itself. *)
Inductive trapped := TReturn | TGone (ie : Z) | TYield (ie : Z) | TAway (ie : Z).

(** How the wait of [sys_sleep] goes on: it returns, or the process sleeps. *)
Inductive slept := SDone (r : Z) | SAway (ie : Z).

Section Trap.
Context `{Linker}.
Context {F : Type} `{ProcFiles F}.
Context {D : Type} `{TrapDevices D}.
Variables ptable cpus ticks_addr kpgdir : Z.
(** The bounds of the loops of [exit]. *)
Variables fuel lim : nat.

Abbreviation T := (M (trapst F D)).

Definition on_k {A} (m : M (kst F) A) : T A := zoom t_k (fun k s => mkTrap k (t_ticks s) (t_dev s)) m.
Definition on_dev {A} (m : M D A) : T A := zoom t_dev (fun d s => mkTrap (t_k s) (t_ticks s) d) m.

(** [myproc()->killed]. *)
Definition is_killed : T bool := p <- on_k myproc ;; q <- on_k (get_proc (pindex ptable p)) ;; ret (truth (p_killed q)).

Definition exit_now : T trapped := ie <- on_k (exit ptable fuel lim) ;; ret (TGone ie).

Definition cpuid : T Z := c <- on_k (on_pt mycpu) ;; ret ((c - cpus) / CPU_size).

(** A handler and the wakeups it makes. *)
Definition handler (m : M D (list Z)) : T unit := w <- on_dev m ;; on_k (wakeups w).

(** [case T_IRQ0 + IRQ_TIMER]. *)
Definition timer_intr : T unit :=
  c <- cpuid ;;
  (if c =? 0 then
     on_k (on_lk (acquire 1)) ;;;
     modify (fun s => mkTrap (t_k s) (u32 (t_ticks s + 1)) (t_dev s)) ;;;
     on_k (wakeup ticks_addr) ;;;
     on_k (on_lk release)
   else ret tt) ;;;
  on_dev td_lapiceoi.

(** [if(myproc() && myproc()->killed && (tf->cs&3) == DPL_USER) exit();] *)
Definition killed_check (cs : Z) : T (option trapped) :=
  p <- on_k myproc ;;
  if p =? 0 then ret None else
  k <- is_killed ;;
  if k && (Z.land cs 3 =? DPL_USER) then r <- exit_now ;; ret (Some r) else ret None.

(** The last check of [trap]. *)
Definition trap_end (cs : Z) : T trapped := r <- killed_check cs ;; ret (match r with Some r => r | None => TReturn end).

(** [trap] after its [switch]. *)
Definition trap_tail (trapno cs : Z) : T trapped :=
  r <- killed_check cs ;;
  match r with
  | Some r => ret r
  | None =>
      p <- on_k myproc ;;
      q <- on_k (get_proc (pindex ptable p)) ;;
      if negb (p =? 0) && bool_decide (p_state q = RUNNING) && (trapno =? T_IRQ0 + IRQ_TIMER) then
        ie <- on_k (yield ptable) ;; ret (TYield ie)
      else trap_end cs
  end.

(** [trap] once the process that gave up the processor runs again. *)
Definition trap_yield_back (cs ie : Z) : T trapped := on_k (yield_back ie) ;;; trap_end cs.

(** After [syscall()]. *)
Definition trap_syscall_end : T trapped := k <- is_killed ;; if k then exit_now else ret TReturn.

Section Handlers.
(** [syscall()]: the value of [intena] if it leaves the processor in [swtch]; the
    case [T_PGFLT]: false if no mapping covers an address that is not present. *)
Variable syscall : T (option Z).
Variable pgflt : T bool.

Definition trap_syscall (tf : Z) : T trapped :=
  k <- is_killed ;;
  if k then exit_now else
  p <- on_k myproc ;;
  on_k (upd_proc (pindex ptable p) (fun q => with_frame tf (p_context q) q)) ;;;
  r <- syscall ;;
  match r with Some ie => ret (TAway ie) | None => trap_syscall_end end.

(** The [switch]; the result of the process's exit, if it ends it. *)
Definition trap_switch (trapno cs : Z) : T (option trapped) :=
  if trapno =? T_IRQ0 + IRQ_TIMER then timer_intr ;;; ret None
  else if trapno =? T_IRQ0 + IRQ_IDE then handler td_ideintr ;;; on_dev td_lapiceoi ;;; ret None
  else if trapno =? T_IRQ0 + IRQ_IDE + 1 then ret None
  else if trapno =? T_IRQ0 + IRQ_KBD then handler td_kbdintr ;;; on_dev td_lapiceoi ;;; ret None
  else if trapno =? T_IRQ0 + IRQ_COM1 then handler td_uartintr ;;; on_dev td_lapiceoi ;;; ret None
  else if (trapno =? T_IRQ0 + 7) || (trapno =? T_IRQ0 + IRQ_SPURIOUS) then cpuid ;;; on_dev td_lapiceoi ;;; ret None
  else if trapno =? T_PGFLT then
    found <- pgflt ;; if found then ret None else r <- exit_now ;; ret (Some r)
  else
    p <- on_k myproc ;;
    if (p =? 0) || (Z.land cs 3 =? 0) then panic "trap" else
    p <- on_k myproc ;;
    on_k (upd_proc (pindex ptable p) (with_killed 1)) ;;;
    ret None.

Definition trap (tf trapno cs : Z) : T trapped :=
  if trapno =? T_SYSCALL then trap_syscall tf else
  r <- trap_switch trapno cs ;;
  match r with Some r => ret r | None => trap_tail trapno cs end.
End Handlers.

(** ** sysproc.c; an argument is what [argint] has fetched, if it succeeds *)

Definition sys_fork (forkret_addr trapret_addr : Z) (fuel : nat) : T Z := on_k (fork ptable forkret_addr trapret_addr fuel).
Definition sys_exit : T trapped := exit_now.
Definition sys_wait : T waited := on_k (wait ptable).
Definition sys_kill (pid : option Z) : T Z := match pid with None => ret (-1) | Some pid => on_k (kill pid) end.
Definition sys_getpid : T Z := p <- on_k myproc ;; q <- on_k (get_proc (pindex ptable p)) ;; ret (p_pid q).

Definition sys_sbrk (n : option Z) : T Z :=
  match n with
  | None => ret (-1)
  | Some n =>
      p <- on_k myproc ;;
      addr <- on_k (on_mem (rd32 (p + P_sz))) ;;
      r <- on_k (growproc ptable n) ;;
      if r <? 0 then ret (-1) else ret (s32 addr)
  end.

(** The test of the loop of [sys_sleep], up to the next [sleep]. *)
Definition sleep_iter (ticks0 n : Z) : T slept :=
  t <- gets t_ticks ;;
  if u32 (t - ticks0) <? u32 n then
    k <- is_killed ;;
    if k then on_k (on_lk release) ;;; ret (SDone (-1))
    else ie <- on_k (sleep ptable ticks_addr LkOther) ;; ret (SAway ie)
  else on_k (on_lk release) ;;; ret (SDone 0).

Definition sys_sleep (n : option Z) : T slept :=
  match n with
  | None => ret (SDone (-1))
  | Some n =>
      on_k (on_lk (acquire 1)) ;;;
      ticks0 <- gets t_ticks ;;
      sleep_iter ticks0 n
  end.

(** [sys_sleep] after a wakeup. *)
Definition sys_sleep_back (p ie ticks0 n : Z) : T slept :=
  on_k (sleep_back ptable p LkOther ie) ;;; sleep_iter ticks0 n.

Definition sys_uptime : T Z :=
  on_k (on_lk (acquire 1)) ;;;
  xticks <- gets t_ticks ;;
  on_k (on_lk release) ;;;
  ret (s32 xticks).

(** ** What the parts do *)

Abbreviation killed s := (p_killed (tget (k_table (t_k s)) (pindex ptable (k_curproc (t_k s))))).

(** Nothing that matters here has changed. *)
Definition idle (s s' : trapst F D) : Prop := keeps (t_k s) (t_k s') /\ t_ticks s' = t_ticks s /\ t_dev s' = t_dev s.

Lemma idle_trans s1 s2 s3 : idle s1 s2 -> idle s2 s3 -> idle s1 s3.
Proof. intros ((A1 & A2 & A3 & A4) & A5 & A6) ((B1 & B2 & B3 & B4) & B5 & B6). unfold idle, keeps, frame. repeat split; congruence. Qed.

Lemma idle_killed s s' : idle s s' -> killed s' = killed s /\ k_curproc (t_k s') = k_curproc (t_k s).
Proof. intros ((A1 & _ & _ & A4) & _). now rewrite A1, A4. Qed.

Lemma on_k_inv {A} (m : M (kst F) A) s a s' : on_k m s = Ok a s' -> exists k', m (t_k s) = Ok a k' /\ s' = mkTrap k' (t_ticks s) (t_dev s).
Proof. unfold on_k, zoom. destruct (m (t_k s)) as [x k'| | |] eqn:E; intros R; try discriminate. injection R as <- <-. eauto. Qed.

Lemma on_k_quiet {A} (m : M (kst F) A) s a s' : quietly m -> on_k m s = Ok a s' -> idle s s'.
Proof. intros Q R. apply on_k_inv in R as (k' & R & ->). split; [exact (Q _ _ _ R) | auto]. Qed.

Lemma on_k_myproc s p s' : on_k myproc s = Ok p s' -> p = k_curproc (t_k s) /\ idle s s'.
Proof. intros R. apply on_k_inv in R as (k' & R & ->). apply myproc_ok in R as [-> K]. split; [reflexivity | split; [exact K | auto]]. Qed.

Lemma is_killed_ok s b s' : is_killed s = Ok b s' -> idle s s' /\ b = truth (killed s').
Proof.
  intros E. unfold is_killed in E. apply bind_inv_ok in E as (p & s1 & E1 & E). apply on_k_myproc in E1 as [-> I1].
  apply bind_inv_ok in E as (q & s2 & E2 & E). apply on_k_inv in E2 as (k' & E2 & ->). injection E2 as <- <-. injection E as <- <-.
  assert (I2 : idle s1 (mkTrap (t_k s1) (t_ticks s1) (t_dev s1))) by (split; [apply keeps_refl | auto]). split; [exact (idle_trans _ _ _ I1 I2)|].
  cbn [t_k]. destruct (idle_killed _ _ I1) as [_ C]. now rewrite C.
Qed.

Lemma killed_check_ok cs s s' : killed_check cs s = Ok None s' -> idle s s' /\ (Z.land cs 3 = DPL_USER -> k_curproc (t_k s') <> 0 -> killed s' = 0).
Proof.
  intros E. unfold killed_check in E. apply bind_inv_ok in E as (p & s1 & E1 & E). apply on_k_myproc in E1 as [-> I1].
  destruct (Z.eqb_spec (k_curproc (t_k s)) 0) as [E0|E0].
  - injection E as <-. split; [exact I1|]. intros _ Hn. destruct (idle_killed _ _ I1) as [_ C]. congruence.
  - apply bind_inv_ok in E as (k & s2 & E2 & E). apply is_killed_ok in E2 as [I2 ->]. destruct (truth (killed s2) && (Z.land cs 3 =? DPL_USER)) eqn:Ek.
    + apply bind_inv_ok in E as (r & s3 & _ & E). discriminate.
    + injection E as <-. split; [exact (idle_trans _ _ _ I1 I2)|]. intros Hu _. rewrite Hu, Z.eqb_refl, andb_true_r in Ek. unfold truth in Ek. now apply negb_false_iff, Z.eqb_eq in Ek.
Qed.

Lemma exit_now_gone s s' : exit_now s = Ok TReturn s' -> False.
Proof. intros E. unfold exit_now in E. apply bind_inv_ok in E as (ie & s1 & _ & E). discriminate. Qed.

Lemma killed_check_some cs s r s' : killed_check cs s = Ok (Some r) s' -> r <> TReturn.
Proof.
  intros E ->. unfold killed_check in E. apply bind_inv_ok in E as (p & s1 & _ & E). destruct (p =? 0); [discriminate|].
  apply bind_inv_ok in E as (k & s2 & _ & E). destruct (_ && _); [|discriminate]. apply bind_inv_ok in E as (r & s3 & E3 & E). injection E as -> _. now apply exit_now_gone in E3.
Qed.

Lemma trap_end_ok cs s s' : trap_end cs s = Ok TReturn s' -> Z.land cs 3 = DPL_USER -> k_curproc (t_k s') <> 0 -> killed s' = 0.
Proof.
  intros E. unfold trap_end in E. apply bind_inv_ok in E as (r & s1 & E1 & E). destruct r as [r|].
  - injection E as -> _. now apply killed_check_some in E1.
  - injection E as <-. now apply killed_check_ok in E1.
Qed.

Lemma trap_tail_ok trapno cs s s' : trap_tail trapno cs s = Ok TReturn s' -> Z.land cs 3 = DPL_USER -> k_curproc (t_k s') <> 0 -> killed s' = 0.
Proof.
  intros E. unfold trap_tail in E. apply bind_inv_ok in E as (r & s1 & E1 & E). destruct r as [r|].
  - injection E as -> _. now apply killed_check_some in E1.
  - apply bind_inv_ok in E as (p & s2 & _ & E). apply bind_inv_ok in E as (q & s3 & _ & E). destruct (_ && _ && _); [|exact (trap_end_ok _ _ _ E)].
    apply bind_inv_ok in E as (ie & s4 & _ & E). discriminate.
Qed.

Lemma trap_syscall_end_ok s s' : trap_syscall_end s = Ok TReturn s' -> killed s' = 0.
Proof.
  intros E. unfold trap_syscall_end in E. apply bind_inv_ok in E as (k & s1 & E1 & E). apply is_killed_ok in E1 as [_ ->].
  destruct (truth (killed s1)) eqn:Ek; [now apply exit_now_gone in E|]. injection E as <-. unfold truth in Ek. now apply negb_false_iff, Z.eqb_eq in Ek.
Qed.

Lemma trap_switch_gone pgflt trapno cs s s' : trap_switch pgflt trapno cs s = Ok (Some TReturn) s' -> False.
Proof.
  assert (No : forall (m : T unit) s s', (m ;;; ret (@None trapped)) s = Ok (Some TReturn) s' -> False).
  { intros m s0 s1 E. apply bind_inv_ok in E as ([] & ? & _ & E). discriminate. }
  intros E. unfold trap_switch in E. repeat (match type of E with (if ?b then _ else _) _ = _ => destruct b end); try discriminate E; try (now apply No in E);
    apply bind_inv_ok in E as (x & s1 & E1 & E); try (now apply No in E).
  - destruct x; [discriminate|]. apply bind_inv_ok in E as (r & s2 & E2 & E). injection E as -> _. now apply exit_now_gone in E2.
  - destruct (_ || _); [discriminate|]. apply bind_inv_ok in E as (p2 & s2 & _ & E). now apply No in E.
Qed.

(** ** Properties *)

(** C14: A process that has been killed does not get back to user mode.  Whatever the
    handlers, the page fault code and the system calls do: when [trap] returns to user
    code, when it returns after the process had given up the processor, and when it
    returns from a system call that slept, the [killed] flag of the process is
    clear in the state it returns in; a set flag has led to [exit]. *)
Theorem killed_never_returns_to_user syscall pgflt tf trapno cs ie s s' : (trapno = T_SYSCALL \/ Z.land cs 3 = DPL_USER) -> k_curproc (t_k s') <> 0 ->
  trap syscall pgflt tf trapno cs s = Ok TReturn s' \/ (trapno <> T_SYSCALL /\ trap_yield_back cs ie s = Ok TReturn s') \/ trap_syscall_end s = Ok TReturn s' ->
  killed s' = 0.
Proof.
  intros Hu Hc [E|[[Hn E]|E]].
  - unfold trap in E. destruct (Z.eqb_spec trapno T_SYSCALL) as [Et|Et].
    + unfold trap_syscall in E. apply bind_inv_ok in E as (k & s1 & _ & E). destruct k; [now apply exit_now_gone in E|].
      apply bind_inv_ok in E as (p & s2 & _ & E). apply bind_inv_ok in E as ([] & s3 & _ & E). apply bind_inv_ok in E as (r & s4 & _ & E).
      destruct r; [discriminate | now apply trap_syscall_end_ok in E].
    + destruct Hu as [|Hu]; [tauto|]. apply bind_inv_ok in E as (r & s1 & E1 & E). destruct r as [r|]; [|exact (trap_tail_ok _ _ _ _ E Hu Hc)]. injection E as -> <-. exfalso.
      now apply trap_switch_gone in E1.
  - destruct Hu as [|Hu]; [tauto|]. unfold trap_yield_back in E. apply bind_inv_ok in E as ([] & s1 & _ & E). exact (trap_end_ok _ _ _ E Hu Hc).
  - now apply trap_syscall_end_ok in E.
Qed.

(** *** The clock *)

Definition cpu0 (s : trapst F D) : bool := (c_id (k_cpu (t_k s)) - cpus) / CPU_size =? 0.

Lemma wakeup_table c k u k' : wakeup c k = Ok u k' -> k_table k' = wakeup1 c (k_table k) /\ @frame F k k'.
Proof.
  intros E. unfold wakeup in E. apply bind_inv_ok in E as ([] & s1 & E1 & E). apply bind_inv_ok in E as (t & s2 & E2 & E).
  apply bind_inv_ok in E as ([] & s3 & E3 & E). injection E2 as <- <-. apply put_table_ok in E3 as [T3 F3]. apply quietly_pt in E1 as [T1 F1], E as [T4 F4].
  split; [congruence|]. unfold frame in *. destruct F1 as (? & ? & ?), F3 as (? & ? & ?), F4 as (? & ? & ?). repeat split; congruence.
Qed.

Lemma cpuid_ok s c s' : cpuid s = Ok c s' -> c = (c_id (k_cpu (t_k s)) - cpus) / CPU_size /\ idle s s'.
Proof.
  intros E. unfold cpuid in E. apply bind_inv_ok in E as (x & s1 & E1 & E). injection E as <- <-. pose proof (on_k_quiet _ _ _ _ (quietly_pt _) E1) as I. split; [|exact I].
  apply on_k_inv in E1 as (k' & E1 & _). unfold on_pt, zoom, mycpu, bind, readeflags, gets in E1. cbn in E1. destruct (truth _); [discriminate|]. now injection E1 as <- _.
Qed.

(** An interrupt of the clock: on the first CPU [ticks] is increased and everybody who
    sleeps on it is made runnable. *)
Lemma timer_intr_ok s s' : timer_intr s = Ok tt s' ->
  t_ticks s' = (if cpu0 s then u32 (t_ticks s + 1) else t_ticks s) /\
  k_table (t_k s') = if cpu0 s then wakeup1 ticks_addr (k_table (t_k s)) else k_table (t_k s).
Proof.
  intros E. unfold timer_intr in E. apply bind_inv_ok in E as (c & s1 & E1 & E). apply cpuid_ok in E1 as [-> I1]. fold (cpu0 s) in E.
  apply bind_inv_ok in E as ([] & s2 & E2 & E). assert (Ed : t_ticks s' = t_ticks s2 /\ t_k s' = t_k s2).
  { unfold on_dev, zoom in E. destruct (td_lapiceoi _); try discriminate. injection E as _ <-. auto. }
  destruct Ed as [-> ->]. destruct I1 as ((T1 & _) & K1 & _). destruct (cpu0 s); [|injection E2 as <-; auto].
  apply bind_inv_ok in E2 as ([] & s3 & E3 & E2). apply (on_k_quiet _ _ _ _ (quietly_lk _)) in E3 as ((T3 & _) & K3 & _).
  apply bind_inv_ok in E2 as ([] & s4 & E4 & E2). injection E4 as <-. apply bind_inv_ok in E2 as ([] & s5 & E5 & E2). apply on_k_inv in E5 as (k5 & E5 & ->). cbn [t_k t_ticks] in *.
  apply wakeup_table in E5 as [T5 _]. apply (on_k_quiet _ _ _ _ (quietly_lk _)) in E2 as ((T6 & _) & K6 & _). cbn [t_k t_ticks] in *. split; congruence.
Qed.

Lemma sleep_entry c (k : kst F) ie k' : sleep ptable c LkOther k = Ok ie k' -> (pindex ptable (k_curproc k) < length (k_table k))%nat ->
  k_curproc k' = k_curproc k /\ p_state (tget (k_table k') (pindex ptable (k_curproc k))) = SLEEPING /\ p_chan (tget (k_table k') (pindex ptable (k_curproc k))) = c.
Proof.
  intros E Hl. unfold sleep in E. apply bind_inv_ok in E as (p & s1 & E1 & E). apply myproc_ok in E1 as [-> (T1 & _ & _ & C1)].
  destruct (k_curproc k =? 0); [discriminate|]. apply bind_inv_ok in E as ([] & s2 & E2 & E).
  assert (Q : @quietly F unit (acquire_pt ;;; on_lk release)) by (apply quietly_bind; [apply quietly_pt | intros; apply quietly_lk]).
  apply Q in E2 as (T2 & _ & _ & C2). apply bind_inv_ok in E as ([] & s3 & E3 & E). apply upd_proc_ok in E3 as [T3 (_ & _ & C3)].
  apply bind_inv_ok in E as ([] & s4 & E4 & E). apply upd_proc_ok in E4 as [T4 (_ & _ & C4)]. apply quietly_sched in E as (T5 & _ & _ & C5).
  set (i := pindex ptable (k_curproc k)) in *. assert (L2 : (i < length (k_table s2))%nat) by (rewrite T2, T1; exact Hl).
  split; [congruence|]. rewrite T5, T4, T3, !tget_tset, !decide_True by (rewrite ?tset_length; auto). auto.
Qed.

(** What [sys_sleep] has done when it gives a result. *)
Definition slept_ok (ticks0 n : Z) (r : slept) (s s' : trapst F D) : Prop :=
  let late := u32 n <= u32 (t_ticks s - ticks0) in
  match r with
  | SDone v => (v = 0 /\ late) \/ (v = -1 /\ ~ late /\ killed s' <> 0)
  | SAway ie => ~ late /\ killed s = 0 /\
      forall s1 s2, let i := pindex ptable (k_curproc (t_k s)) in tget (k_table (t_k s1)) i = tget (k_table (t_k s')) i -> cpu0 s1 = true ->
        timer_intr s1 = Ok tt s2 -> t_ticks s2 = u32 (t_ticks s1 + 1) /\ p_state (tget (k_table (t_k s2)) i) = RUNNABLE
  end.

Lemma sleep_iter_ok ticks0 n s r s' : sleep_iter ticks0 n s = Ok r s' -> (pindex ptable (k_curproc (t_k s)) < length (k_table (t_k s)))%nat ->
  slept_ok ticks0 n r s s'.
Proof.
  intros E Hl. unfold slept_ok. set (late := _ <= _). unfold sleep_iter in E. apply bind_inv_ok in E as (t & s1 & E1 & E). injection E1 as <- <-. destruct (Z.ltb_spec (u32 (t_ticks s - ticks0)) (u32 n)) as [Hlt|Hge].
  - apply bind_inv_ok in E as (k & s2 & E2 & E). apply is_killed_ok in E2 as [I2 ->]. destruct (truth (killed s2)) eqn:Ek.
    + apply bind_inv_ok in E as ([] & s3 & E3 & E). injection E as <- <-. apply (on_k_quiet _ _ _ _ (quietly_lk _)) in E3. right. split_and!; [reflexivity | unfold late; lia|].
      rewrite (proj1 (idle_killed _ _ E3)). unfold truth in Ek. now apply negb_true_iff, Z.eqb_neq in Ek.
    + apply bind_inv_ok in E as (ie & s3 & E3 & E). injection E as <- <-. apply on_k_inv in E3 as (k3 & E3 & ->). destruct (idle_killed _ _ I2) as [K2 C2].
      assert (T2 : k_table (t_k s2) = k_table (t_k s)) by apply I2.
      destruct (sleep_entry _ _ _ _ E3) as (C3 & S3 & H3); [now rewrite C2, T2|]. rewrite C2 in S3, H3. split_and!; [unfold late; lia | rewrite <- K2; unfold truth in Ek; now apply negb_false_iff, Z.eqb_eq in Ek|].
      intros a b Ea Hc Et. apply timer_intr_ok in Et as [-> Tb]. rewrite Hc in *. split; [reflexivity|]. rewrite Tb, tget_wakeup1, Ea. cbn [t_k]. unfold wake.
      rewrite S3, H3, bool_decide_true, Z.eqb_refl by reflexivity. reflexivity.
  - apply bind_inv_ok in E as ([] & s3 & E3 & E). injection E as <- <-. left. split; [reflexivity | exact Hge].
Qed.

Lemma sleep_back_same p ie s u s' : on_k (sleep_back ptable p LkOther ie) s = Ok u s' ->
  t_ticks s' = t_ticks s /\ k_curproc (t_k s') = k_curproc (t_k s) /\ length (k_table (t_k s')) = length (k_table (t_k s)) /\ ((pindex ptable p < length (k_table (t_k s)))%nat -> forall i, p_killed (tget (k_table (t_k s')) i) = p_killed (tget (k_table (t_k s)) i)).
Proof.
  intros E. apply on_k_inv in E as (k' & E & ->). cbn [t_k t_ticks]. unfold sleep_back in E. apply bind_inv_ok in E as ([] & k1 & E1 & E). apply quietly_sched_back in E1 as (T1 & _ & _ & C1).
  apply bind_inv_ok in E as ([] & k2 & E2 & E). apply upd_proc_ok in E2 as [T2 (_ & _ & C2)].
  assert (Q : @quietly F unit (release_pt ;;; on_lk (acquire 1))) by (apply quietly_bind; [apply quietly_pt | intros; apply quietly_lk]).
  apply Q in E as (T3 & _ & _ & C3). split_and!; [reflexivity | congruence | rewrite T3, T2, tset_length; congruence|].
  intros Hl i. rewrite T3, T2, tget_tset by (rewrite T1; exact Hl). rewrite T1. case_decide; reflexivity.
Qed.

(** [sys_sleep] waits for the clock.  It returns 0 only when at least [n] ticks
    have passed since the call, with [ticks] taken modulo 2{^32} and [n] as an unsigned
    number; it returns -1 only for a process that has been killed before its time;
    otherwise the process sleeps on [ticks], its time is not over, and the next
    interrupt of the clock on the first CPU, in any state with its entry, makes it
    runnable.  The same holds of what it does after a wakeup. *)
Theorem sys_sleep_waits ticks0 n s r s' : (pindex ptable (k_curproc (t_k s)) < length (k_table (t_k s)))%nat ->
  (sys_sleep (Some n) s = Ok r s' /\ ticks0 = t_ticks s) \/ (exists ie, sys_sleep_back (k_curproc (t_k s)) ie ticks0 n s = Ok r s') ->
  slept_ok ticks0 n r s s'.
Proof.
  intros Hl E. assert (X : exists s1, sleep_iter ticks0 n s1 = Ok r s' /\ t_ticks s1 = t_ticks s /\ k_curproc (t_k s1) = k_curproc (t_k s) /\ length (k_table (t_k s1)) = length (k_table (t_k s)) /\ killed s1 = killed s).
  { destruct E as [[E ->]|[ie E]].
    - unfold sys_sleep in E. apply bind_inv_ok in E as ([] & s1 & E1 & E). apply (on_k_quiet _ _ _ _ (quietly_lk _)) in E1. apply bind_inv_ok in E as (t & s2 & E2 & E). injection E2 as <- <-.
      exists s1. destruct (idle_killed _ _ E1) as [K1 C1]. destruct E1 as ((T1 & _) & U1 & _). rewrite <- U1. split_and!; congruence.
    - unfold sys_sleep_back in E. apply bind_inv_ok in E as ([] & s1 & E1 & E). apply sleep_back_same in E1 as (U1 & C1 & L1 & K1). exists s1. rewrite C1. split_and!; auto. }
  destruct X as (s1 & E1 & U1 & C1 & L1 & K1). apply sleep_iter_ok in E1; [|now rewrite C1, L1]. unfold slept_ok in *. rewrite U1, K1, C1 in E1. exact E1.
Qed.

End Trap.

(** *** Samples *)

#[local] Instance no_files : ProcFiles unit := {
  pf_filedup f := ret f; pf_fileclose _ := ret []; pf_idup ip := ret ip; pf_iput _ := ret []; pf_begin_op := ret tt;
  pf_end_op := ret []; pf_namei _ := ret 1; pf_iinit := ret tt; pf_initlog := ret tt }.

#[local] Instance no_devices : TrapDevices unit := {
  td_ideintr := ret []; td_kbdintr := ret [7]; td_uartintr := ret []; td_lapiceoi := ret tt }.

(** The first process runs on the CPU at 5000; the trap has turned the interrupts off. *)
Definition sample_trap : trapst unit unit :=
  mkTrap (mkKst sample_ready 3 (paddr 1000 0) 0 (mkCpu 5000 0 0 0) (paddr 1000 0) lock_free lock_free sample_memory tt sample_hw) 5 tt.

(** A key pressed while the process runs in user mode. *)
Definition key_trapped : trapst unit unit :=
  match @trap sample_linker unit no_files unit no_devices 1000 0 0 10 10 (ret None) (ret true) 0 33 27 sample_trap with Ok _ s' => s' | _ => sample_trap end.

Lemma killed_never_returns_to_user_witness :
  @trap sample_linker unit no_files unit no_devices 1000 0 0 10 10 (ret None) (ret true) 0 33 27 sample_trap = Ok TReturn key_trapped /\ p_killed (tget (k_table (t_k key_trapped)) 0) = 0.
Proof.
  assert (C : k_curproc (t_k key_trapped) = 1000) by (vm_compute; reflexivity).
  match goal with |- ?E /\ _ => assert (Er : E) by (vm_compute; reflexivity) end. split; [exact Er|].
  pose proof (@killed_never_returns_to_user sample_linker unit no_files unit no_devices 1000 0 0 10 10 (ret None) (ret true) 0 33 27 0 sample_trap key_trapped (or_intror eq_refl)) as T.
  rewrite C in T. change (pindex 1000 1000) with 0%nat in T. exact (T ltac:(discriminate) (or_introl Er)).
Defined.
