(* ===== verification/Boot.v ===== *)
(** The boot loader [src/xv6/xv6-public/bootmain.c]: it reads the kernel, an ELF file
    from sector 1 on, through the ports of the disk controller of [Ide].

    The drive needs [latency] polls of its status for a command; [polls] bounds the
    loop of [waitdisk]. *)

From stdpp Require Import functions.
From S2P Require Import Prelude Mem Block Bio Ide Exec.

Definition SECTSIZE : Z := 512.

(** The memory, the controller, and the polls left until the drive is done. *)
Record bootst := mkBoot { bt_mem : mem; bt_ata : ata; bt_left : nat }.

Section Boot.
Variable latency : command -> nat.
Variable polls : nat.

Definition boot_outb (port v : Z) : M bootst unit :=
  modify (fun s => let a := ata_outb port v (bt_ata s) in
    mkBoot (bt_mem s) a (match a_active a with Some c => if port =? 0x1f7 then latency c else bt_left s | None => bt_left s end)).

(** A read of the status; the drive goes on with its command. *)
Definition boot_inb : M bootst Z :=
  modify (fun s => match a_active (bt_ata s), bt_left s with
                   | Some c, O => mkBoot (bt_mem s) (ata_finish c 0 (bt_ata s)) O
                   | Some _, S n => mkBoot (bt_mem s) (bt_ata s) n
                   | None, _ => s
                   end) ;;;
  gets (fun s => ata_inb (bt_ata s)).

(** [insl(0x1F0, dst, SECTSIZE/4)] *)
Definition boot_insl (dst : Z) : M bootst unit :=
  modify (fun s => mkBoot (fun x => if (dst <=? x) && (x <? dst + SECTSIZE) then a_in (bt_ata s) (x - dst) else bt_mem s x) (bt_ata s) (bt_left s)).

Fixpoint waitdisk (fuel : nat) : M bootst unit :=
  match fuel with
  | O => nofuel
  | S fuel => r <- boot_inb ;; if negb (Z.land r 0xC0 =? 0x40) then waitdisk fuel else ret tt
  end.

Definition readsect (dst offset : Z) : M bootst unit :=
  waitdisk polls ;;;
  boot_outb 0x1F2 1 ;;;
  boot_outb 0x1F3 offset ;;;
  boot_outb 0x1F4 (Z.shiftr offset 8) ;;;
  boot_outb 0x1F5 (Z.shiftr offset 16) ;;;
  boot_outb 0x1F6 (Z.lor (Z.shiftr offset 24) 0xE0) ;;;
  boot_outb 0x1F7 0x20 ;;;
  waitdisk polls ;;;
  boot_insl dst.

(** [for(; pa < epa; pa += SECTSIZE, offset++) readsect(pa, offset);] *)
Fixpoint readseg_loop (fuel : nat) (pa epa offset : Z) : M bootst unit :=
  match fuel with
  | O => nofuel
  | S fuel => if pa <? epa then readsect pa offset ;;; readseg_loop fuel (u32 (pa + SECTSIZE)) epa (u32 (offset + 1)) else ret tt
  end.

Definition readseg (pa count offset : Z) : M bootst unit :=
  let epa := u32 (pa + count) in
  let pa := u32 (pa - offset mod SECTSIZE) in
  readseg_loop (Z.to_nat ((epa - pa) / SECTSIZE + 2)) pa epa (offset / SECTSIZE + 1).

Definition read_ph (a : Z) : M bootst proghdr := gets (fun s => parse_ph (fun i => bt_mem s (a + i))).

(** [if(ph->memsz > ph->filesz) stosb(pa + ph->filesz, 0, ph->memsz - ph->filesz);] *)
Definition zero_rest (pa : Z) (h : proghdr) : M bootst unit :=
  if ph_filesz h <? ph_memsz h then
    modify (fun s => mkBoot (stosb (bt_mem s) (u32 (pa + ph_filesz h)) 0 (Z.to_nat (ph_memsz h - ph_filesz h))) (bt_ata s) (bt_left s))
  else ret tt.

Fixpoint load_kernel (fuel : nat) (ph eph : Z) : M bootst unit :=
  match fuel with
  | O => nofuel
  | S fuel =>
      if ph <? eph then
        h <- read_ph ph ;;
        let pa := ph_paddr h in
        readseg pa (ph_filesz h) (ph_off h) ;;;
        h <- read_ph ph ;;
        zero_rest pa h ;;;
        load_kernel fuel (u32 (ph + ph_size)) eph
      else ret tt
  end.

(** The entry point that it calls; nothing if the file is not an ELF file. *)
Definition bootmain : M bootst (option Z) :=
  let elf := 0x10000 in
  readseg elf 4096 0 ;;;
  h <- gets (fun s => parse_elf (fun i => bt_mem s (elf + i))) ;;
  if negb (elf_magic h =? ELF_MAGIC) then ret None else
  let ph := u32 (elf + elf_phoff h) in
  let eph := u32 (ph + elf_phnum h * ph_size) in
  load_kernel (Z.to_nat (elf_phnum h) + 1) ph eph ;;;
  h <- gets (fun s => parse_elf (fun i => bt_mem s (elf + i))) ;;
  ret (Some (elf_entry h)).

(** ** Sectors *)

Definition fast : Prop := forall c, (latency c < polls)%nat.

(** The drive 0 is selected, or both are there, and no command is running. *)
Record ready (s : bootst) : Prop := {
  rd_idle : a_active (bt_ata s) = None;
  rd_status : Z.land (a_status (bt_ata s)) 0xC0 = 0x40;
  rd_drive : a_drive1 (bt_ata s) = true \/ a_ports (bt_ata s) 0x1f6 / 16 mod 2 = 0 }.

Lemma ready_inb s : ready s -> Z.land (ata_inb (bt_ata s)) 0xC0 = 0x40.
Proof.
  intros [I S D]. unfold ata_inb. destruct D as [-> | ->]; [|exact S]. rewrite andb_false_r. exact S.
Qed.

Lemma waitdisk_ready s n : ready s -> waitdisk (Datatypes.S n) s = Ok tt s.
Proof.
  intros R. cbn [waitdisk]. unfold bind at 1, boot_inb. unfold bind at 1, modify. rewrite (rd_idle _ R). cbn [gets]. rewrite (ready_inb _ R). reflexivity.
Qed.

(** The drive works until it has ended the command. *)
Lemma waitdisk_busy c a m k : a_active a = Some c -> a_status a = IDE_BSY -> (a_drive1 a = true \/ a_ports a 0x1f6 / 16 mod 2 = 0) ->
  forall n, (k < n)%nat -> waitdisk n (mkBoot m a k) = Ok tt (mkBoot m (ata_finish c 0 a) 0).
Proof.
  intros Ha Hs Hd. induction k as [|k IH]; intros [|n] Hn; try lia; cbn [waitdisk]; unfold bind at 1, boot_inb; unfold bind at 1, modify; cbn [bt_ata bt_left]; rewrite Ha.
  - cbn [gets bt_ata]. unfold ata_inb, gets, ata_finish. cbn. destruct Hd as [-> | ->]; [rewrite andb_false_r|]; reflexivity.
  - unfold gets. cbn [bt_ata]. unfold ata_inb. rewrite Hs. destruct Hd as [E|E]; rewrite E; [rewrite andb_false_r|]; cbn; apply IH; lia.
Qed.

Lemma lba28 n : 0 <= n < 268435456 ->
  u8 n + 256 * u8 (Z.shiftr n 8) + 65536 * u8 (Z.shiftr n 16) + 16777216 * (u8 (Z.lor (Z.shiftr n 24) 0xE0) mod 16) = n /\
  u8 (Z.lor (Z.shiftr n 24) 0xE0) / 16 mod 2 = 0.
Proof.
  intros Hn. rewrite !Z.shiftr_div_pow2 by lia. change (2 ^ 8) with 256. change (2 ^ 16) with 65536. change (2 ^ 24) with 16777216.
  assert (H : let q := n / 16777216 in u8 (Z.lor q 0xE0) mod 16 = q /\ u8 (Z.lor q 0xE0) / 16 mod 2 = 0).
  { assert (Hq : 0 <= n / 16777216 < 16) by (split; [apply Z.div_pos | apply Z.div_lt_upper_bound]; lia). revert Hq. generalize (n / 16777216). intros q Hq.
    assert (E : exists k : nat, q = Z.of_nat k /\ (k < 16)%nat) by (exists (Z.to_nat q); lia). destruct E as (k & -> & Hk).
    do 16 (destruct k as [|k]; [vm_compute; auto|]). lia. }
  destruct H as [-> ->]. split; [|reflexivity]. unfold u8. word_lia.
Qed.

Lemma bind_outb {A} port v (k : unit -> M bootst A) m ports st irq out inp d1 disk left : (port =? 0x1f7) = false ->
  bind (boot_outb port v) k (mkBoot m (mkAta ports st None irq out inp d1 disk) left) = k tt (mkBoot m (mkAta (upd ports port (u8 v)) st None irq out inp d1 disk) left).
Proof. intros E. unfold bind, boot_outb, modify, ata_outb. cbn. now rewrite E. Qed.

(** [readsect] copies a sector of the disk into memory. *)
Lemma readsect_ok s dst n : fast -> ready s -> 0 <= n < 268435456 ->
  exists s', readsect dst n s = Ok tt s' /\ ready s' /\ a_disk (bt_ata s') = a_disk (bt_ata s) /\
    forall x, bt_mem s' x = if (dst <=? x) && (x <? dst + SECTSIZE) then a_disk (bt_ata s) 0 n (x - dst) else bt_mem s x.
Proof.
  intros Hf R Hn. destruct (lba28 n Hn) as [El Ed]. assert (Hp : exists p, polls = Datatypes.S p) by (pose proof (Hf (mkCmd 0 0 0 0)); exists (pred polls); lia). destruct Hp as [p Ep].
  assert (W : waitdisk polls s = Ok tt s) by (rewrite Ep; exact (waitdisk_ready s p R)). unfold readsect. rewrite (bind_ok _ _ _ _ _ W). destruct s as [m [ports st act irq out inp d1 disk] left]. cbn [bt_ata a_disk bt_mem] in *.
  assert (act = None) as -> by exact (rd_idle _ R).
  rewrite !bind_outb by reflexivity. unfold bind at 1, boot_outb at 1, modify, ata_outb. cbn [bt_mem bt_ata bt_left a_active a_ports a_status a_irq a_out a_in a_drive1 a_disk Z.eqb Pos.eqb].
  set (P := upd _ 0x1f7 _). set (c := ata_command P _).
  assert (Hc : c = mkCmd 0x20 1 0 n) by (cbv [c ata_command P upd Z.eqb Pos.eqb]; rewrite Ed, El; reflexivity).
  unfold bind at 1. rewrite (waitdisk_busy c); [|reflexivity | reflexivity | right; exact Ed | apply Hf].
  eexists. split; [reflexivity|]. rewrite Hc. cbn. split; [|split; reflexivity]. split; cbn; [reflexivity | reflexivity|]. right. exact Ed.
Qed.

(** ** Segments *)

(** The byte at [o] of the kernel's file. *)
Definition image (d : Z -> Z -> block) (o : Z) : Z := d 0 (o / SECTSIZE + 1) (o mod SECTSIZE).

Definition sectors (pa epa : Z) : Z := Z.max 0 ((epa - pa + (SECTSIZE - 1)) / SECTSIZE).

Lemma readseg_loop_ok n : forall pa epa off s, fast -> ready s -> 0 <= pa -> epa + SECTSIZE <= two32 -> 0 <= off -> off + sectors pa epa <= 268435456 ->
  sectors pa epa < Z.of_nat n ->
  exists s', readseg_loop n pa epa off s = Ok tt s' /\ ready s' /\ a_disk (bt_ata s') = a_disk (bt_ata s) /\
    forall x, bt_mem s' x = if (pa <=? x) && (x <? pa + SECTSIZE * sectors pa epa) then a_disk (bt_ata s) 0 (off + (x - pa) / SECTSIZE) ((x - pa) mod SECTSIZE) else bt_mem s x.
Proof.
  unfold sectors, SECTSIZE, two32. induction n as [|n IH]; intros pa epa off s Hf R Hp He Ho Hs Hn; [lia|]. cbn [readseg_loop].
  assert (Hk : 512 * ((epa - pa + 511) / 512) <= epa - pa + 511 < 512 * ((epa - pa + 511) / 512) + 512) by word_lia.
  assert (Hk1 : (epa - (pa + 512) + 511) / 512 = (epa - pa + 511) / 512 - 1) by word_lia.
  change (512 - 1) with 511 in *. set (k := (epa - pa + 511) / 512) in *. destruct (Z.ltb_spec pa epa) as [Hlt|Hge].
  - destruct (readsect_ok s pa off Hf R) as (s1 & E1 & R1 & D1 & M1); [lia|]. rewrite (bind_ok _ _ _ _ _ E1). unfold SECTSIZE in *.
    rewrite !u32_small by (unfold two32; lia).
    destruct (IH (pa + 512) epa (off + 1) s1) as (s2 & E2 & R2 & D2 & M2); rewrite ?Hk1; auto; try lia. rewrite Hk1 in M2.
    exists s2. split_and!; [exact E2 | exact R2 | congruence|]. intros x. rewrite M2, M1, D1. rewrite !Z.max_r by lia.
    destruct (Z.leb_spec pa x), (Z.leb_spec (pa + 512) x), (Z.ltb_spec x (pa + 512)), (Z.ltb_spec x (pa + 512 + 512 * (k - 1))),
      (Z.ltb_spec x (pa + 512 * k)); cbn [andb]; try lia; try reflexivity.
    + replace (x - (pa + 512)) with (x - pa + (-1) * 512) by lia. rewrite Z.div_add, Z.mod_add by lia. f_equal. lia.
    + rewrite Z.div_small, Z.mod_small, Z.add_0_r by lia. reflexivity.
  - exists s. split_and!; auto. intros x. rewrite Z.max_l by lia. destruct (Z.leb_spec pa x), (Z.ltb_spec x (pa + 512 * 0)); cbn [andb]; try lia; reflexivity.
Qed.

(** The range that [readseg] writes. *)
Definition seg_lo (pa off : Z) : Z := pa - off mod SECTSIZE.
Definition seg_hi (pa count off : Z) : Z := seg_lo pa off + SECTSIZE * sectors (seg_lo pa off) (pa + count).

(** [readseg] fills the range with the bytes of the file around the segment. *)
Lemma readseg_ok pa count off s : fast -> ready s -> 0 <= seg_lo pa off -> 0 <= count -> pa + count + SECTSIZE <= two32 -> 0 <= off -> off + count + 3 * SECTSIZE <= 137438953472 ->
  exists s', readseg pa count off s = Ok tt s' /\ ready s' /\ a_disk (bt_ata s') = a_disk (bt_ata s) /\
    forall x, bt_mem s' x = if (seg_lo pa off <=? x) && (x <? seg_hi pa count off) then image (a_disk (bt_ata s)) (off + (x - pa)) else bt_mem s x.
Proof.
  unfold seg_hi, seg_lo, readseg, SECTSIZE, two32. intros Hf R H1 H2 H3 H4 H5. assert (Hm : 0 <= off mod 512 < 512) by (apply Z.mod_pos_bound; lia).
  assert (Hd : off = 512 * (off / 512) + off mod 512) by (apply Z.div_mod; lia). rewrite !(u32_small (pa + count)), u32_small by (unfold two32; lia).
  set (m := off mod 512) in *. set (q := off / 512) in *. replace (pa + count - (pa - m)) with (count + m) by lia.
  pose proof (Z.mul_div_le (count + m + 511) 512 ltac:(lia)) as L1. pose proof (Z.mul_succ_div_gt (count + m) 512 ltac:(lia)) as L2.
  destruct (readseg_loop_ok (Z.to_nat ((count + m) / 512 + 2)) (pa - m) (pa + count) (q + 1) s) as (s' & E & R' & D' & M'); auto;
    unfold sectors, SECTSIZE, two32 in *; change (512 - 1) with 511 in *; replace (pa + count - (pa - m) + 511) with (count + m + 511) in * by lia; try lia.
  exists s'. split_and!; auto. intros x. rewrite M'. destruct (_ && _); [|reflexivity]. unfold image, SECTSIZE.
  replace (off + (x - pa)) with (x - (pa - m) + q * 512) by lia. rewrite Z.div_add, Z.mod_add by lia. f_equal. lia.
Qed.

(** ** The kernel *)

Section Kernel.
(** The two drives. *)
Variable d : Z -> Z -> block.
Hypothesis d_bytes : mem_ok (image d).

Definition ph_of (o : Z) : proghdr := parse_ph (fun i => image d (o + i)).

Fixpoint phs (n : nat) (o : Z) : list proghdr :=
  match n with O => [] | S n => ph_of o :: phs n (o + ph_size) end.

(** Where the contents of a segment end, and the range that loading it writes. *)
Definition seg_end (p : proghdr) : Z := ph_paddr p + Z.max (ph_filesz p) (ph_memsz p).
Definition first_written (p : proghdr) : Z := seg_lo (ph_paddr p) (ph_off p).
Definition last_written (p : proghdr) : Z := Z.max (seg_hi (ph_paddr p) (ph_filesz p) (ph_off p)) (ph_paddr p + ph_memsz p).

(** A segment in the address space, off the page of the headers. *)
Definition seg_fits (p : proghdr) : Prop :=
  0 <= first_written p /\ ph_paddr p + ph_filesz p + SECTSIZE <= two32 /\ ph_paddr p + ph_memsz p <= two32 /\ (last_written p <= 0x10000 \/ 0x11000 <= first_written p).

(** Loading [q] later does not write into [p]. *)
Definition spares (p q : proghdr) : Prop := seg_end p <= first_written q \/ last_written q <= ph_paddr p.

(** The file's bytes, and zeros after them. *)
Definition loaded (m : mem) (p : proghdr) : Prop :=
  forall x, ph_paddr p <= x < seg_end p -> m x = if x <? ph_paddr p + ph_filesz p then image d (ph_off p + (x - ph_paddr p)) else 0.

Definition header_in (m : mem) : Prop := forall x, 0x10000 <= x < 0x11000 -> m x = image d (x - 0x10000).

Lemma load32_shift m o j k : header_in m -> 0 <= o -> 0 <= j -> o + j + 4 <= 4096 -> k = 0x10000 + o ->
  load32 (fun i => m (k + i)) j = load32 (fun i => image d (o + i)) j.
Proof. intros H Ho Hj Hl ->. apply load32_ext. intros x Hx. rewrite H by lia. f_equal. lia. Qed.

Lemma load16_shift m j : header_in m -> 0 <= j -> j + 2 <= 4096 -> load16 (fun i => m (0x10000 + i)) j = load16 (image d) j.
Proof. intros H Hj Hl. unfold load16. rewrite !H by lia. f_equal; [|f_equal]; f_equal; lia. Qed.

Lemma read_ph_ok o s : header_in (bt_mem s) -> 0 <= o -> o + ph_size <= 4096 -> read_ph (0x10000 + o) s = Ok (ph_of o) s.
Proof.
  unfold ph_size. intros H Ho Hl. unfold read_ph, gets, ph_of, parse_ph. do 2 f_equal; now apply load32_shift; auto; lia.
Qed.

Lemma ph_bounds o : 0 <= ph_off (ph_of o) < two32 /\ 0 <= ph_paddr (ph_of o) < two32 /\ 0 <= ph_filesz (ph_of o) < two32 /\ 0 <= ph_memsz (ph_of o) < two32.
Proof. unfold ph_of, parse_ph. cbn. split_and!; apply load32_bound; intros x; apply d_bytes. Qed.

Lemma seg_hi_covers pa count off : 0 <= count -> pa + count <= seg_hi pa count off.
Proof.
  intros H. unfold seg_hi, sectors. set (lo := seg_lo pa off). pose proof (Z.mul_succ_div_gt (pa + count - lo + (SECTSIZE - 1)) SECTSIZE). unfold SECTSIZE in *. lia.
Qed.

(** Loading one segment. *)
Lemma load_segment_ok o s : fast -> ready s -> a_disk (bt_ata s) = d -> let h := ph_of o in seg_fits h ->
  exists s1 s2, readseg (ph_paddr h) (ph_filesz h) (ph_off h) s = Ok tt s1 /\ zero_rest (ph_paddr h) h s1 = Ok tt s2 /\ ready s2 /\ a_disk (bt_ata s2) = d /\
    loaded (bt_mem s2) h /\ (forall x, x < first_written h \/ last_written h <= x -> bt_mem s1 x = bt_mem s x /\ bt_mem s2 x = bt_mem s x).
Proof.
  intros Hf R D h (F1 & F2 & F3 & F4). destruct (ph_bounds o) as (B1 & B2 & B3 & B4). fold h in B1, B2, B3, B4.
  destruct (readseg_ok (ph_paddr h) (ph_filesz h) (ph_off h) s) as (s1 & E1 & R1 & D1 & M1); auto; try (unfold SECTSIZE, two32 in *; lia).
  pose proof (seg_hi_covers (ph_paddr h) (ph_filesz h) (ph_off h) ltac:(lia)) as Hc. rewrite D in *.
  assert (Hlo : first_written h <= ph_paddr h) by (unfold first_written, seg_lo; pose proof (Z.mod_pos_bound (ph_off h) SECTSIZE ltac:(unfold SECTSIZE; lia)); lia).
  assert (Z : exists s2, zero_rest (ph_paddr h) h s1 = Ok tt s2 /\ bt_ata s2 = bt_ata s1 /\
    forall x, bt_mem s2 x = if (ph_paddr h + ph_filesz h <=? x) && (x <? ph_paddr h + ph_memsz h) then 0 else bt_mem s1 x).
  { unfold zero_rest. destruct (Z.ltb_spec (ph_filesz h) (ph_memsz h)).
    - eexists. split; [reflexivity|]. split; [reflexivity|]. intros x. cbn [bt_mem]. rewrite stosb_spec, u32_small, Z2Nat.id by lia.
      replace (ph_paddr h + ph_filesz h + (ph_memsz h - ph_filesz h)) with (ph_paddr h + ph_memsz h) by lia. reflexivity.
    - exists s1. split_and!; auto. intros x. destruct (Z.leb_spec (ph_paddr h + ph_filesz h) x), (Z.ltb_spec x (ph_paddr h + ph_memsz h)); cbn [andb]; auto; lia. }
  destruct Z as (s2 & E2 & A2 & M2). exists s1, s2. unfold first_written, last_written, loaded, seg_end in *. split_and!; auto.
  - destruct R1. split; rewrite A2; auto.
  - now rewrite A2.
  - intros x Hx. rewrite M2, M1. destruct (Z.ltb_spec x (ph_paddr h + ph_filesz h)), (Z.leb_spec (ph_paddr h + ph_filesz h) x), (Z.ltb_spec x (ph_paddr h + ph_memsz h)),
      (Z.leb_spec (seg_lo (ph_paddr h) (ph_off h)) x), (Z.ltb_spec x (seg_hi (ph_paddr h) (ph_filesz h) (ph_off h))); cbn [andb]; try lia; reflexivity.
  - intros x Hx. rewrite M2, M1. destruct (Z.leb_spec (ph_paddr h + ph_filesz h) x), (Z.ltb_spec x (ph_paddr h + ph_memsz h)),
      (Z.leb_spec (seg_lo (ph_paddr h) (ph_off h)) x), (Z.ltb_spec x (seg_hi (ph_paddr h) (ph_filesz h) (ph_off h))); cbn [andb]; try lia; auto.
Qed.

Lemma header_kept h m m' : header_in m -> seg_fits h -> (forall x, x < first_written h \/ last_written h <= x -> m' x = m x) -> header_in m'.
Proof. intros Hh (_ & _ & _ & F) E x Hx. rewrite E by lia. now apply Hh. Qed.

Lemma loaded_kept h m m' : loaded m h -> (forall x, ph_paddr h <= x < seg_end h -> m' x = m x) -> loaded m' h.
Proof. intros L E x Hx. rewrite E by exact Hx. now apply L. Qed.

Lemma load_kernel_ok n : forall o s, fast -> ready s -> a_disk (bt_ata s) = d -> header_in (bt_mem s) -> 0 <= o -> o + ph_size * Z.of_nat n <= 4096 ->
  Forall seg_fits (phs n o) -> ForallOrdPairs spares (phs n o) ->
  exists s', load_kernel (n + 1) (0x10000 + o) (0x10000 + o + ph_size * Z.of_nat n) s = Ok tt s' /\ ready s' /\ header_in (bt_mem s') /\ Forall (loaded (bt_mem s')) (phs n o) /\
    forall x, Forall (fun p => x < first_written p \/ last_written p <= x) (phs n o) -> bt_mem s' x = bt_mem s x.
Proof.
  induction n as [|n IH]; intros o s Hf R D Hh Ho Hl Fs Os.
  - exists s. cbn [Nat.add load_kernel]. rewrite (proj2 (Z.ltb_ge _ _)) by (unfold ph_size; lia). split_and!; auto.
  - cbn [phs] in Fs, Os. inversion Fs as [|? ? F1 F2]; subst. inversion Os as [|? ? O1 O2]; subst.
    destruct (load_segment_ok o s Hf R D F1) as (s1 & s2 & E1 & E2 & R2 & D2 & L2 & K). set (h := ph_of o) in *. cbn [Nat.add load_kernel].
    rewrite (proj2 (Z.ltb_lt _ _)) by (unfold ph_size; lia). rewrite (bind_ok _ _ _ _ _ (read_ph_ok o s Hh Ho ltac:(unfold ph_size in *; lia))). rewrite (bind_ok _ _ _ _ _ E1).
    assert (H1 : header_in (bt_mem s1)) by (apply (header_kept h (bt_mem s)); auto; intros x Hx; now apply K).
    assert (H2 : header_in (bt_mem s2)) by (apply (header_kept h (bt_mem s)); auto; intros x Hx; now apply K).
    rewrite (bind_ok _ _ _ _ _ (read_ph_ok o s1 H1 Ho ltac:(unfold ph_size in *; lia))). rewrite (bind_ok _ _ _ _ _ E2).
    destruct (IH (o + ph_size) s2) as (s3 & E3 & R3 & H3 & L3 & K3); auto; try (unfold ph_size in *; lia).
    rewrite u32_small by (unfold ph_size, two32 in *; lia). replace (0x10000 + o + ph_size) with (0x10000 + (o + ph_size)) by lia.
    replace (0x10000 + o + ph_size * Z.of_nat (Datatypes.S n)) with (0x10000 + (o + ph_size) + ph_size * Z.of_nat n) by lia.
    exists s3. split_and!; auto.
    + constructor; [|exact L3]. apply (loaded_kept _ (bt_mem s2)); [exact L2|]. intros x Hx. apply K3. apply (Forall_impl _ _ _ O1). intros q Hq. subst h. unfold spares in Hq. lia.
    + intros x Hx. inversion Hx; subst. rewrite K3 by assumption. now apply K.
Qed.

(** The kernel's file: an ELF file whose program headers lie in its first page and
    whose segments fit, with no segment written over by a later one. *)
Record bootable : Prop := {
  bk_magic : elf_magic (parse_elf (image d)) = ELF_MAGIC;
  bk_headers : elf_phoff (parse_elf (image d)) + ph_size * elf_phnum (parse_elf (image d)) <= 4096;
  bk_fits : Forall seg_fits (phs (Z.to_nat (elf_phnum (parse_elf (image d)))) (elf_phoff (parse_elf (image d))));
  bk_order : ForallOrdPairs spares (phs (Z.to_nat (elf_phnum (parse_elf (image d)))) (elf_phoff (parse_elf (image d)))) }.

(** C21: The boot loader loads the kernel.  With a drive that ends each command within
    the polls, [bootmain] ends, calls the entry point of the ELF file that starts at
    sector 1 of drive 0, and at that time every segment is in memory at its physical
    address: the bytes of the file, and zeros up to its size in memory.  The bytes
    that [readseg] reads too much, before and after a segment, do no harm as long
    as no segment lies in what is read for a later one. *)
Theorem bootmain_loads_kernel s : fast -> ready s -> a_disk (bt_ata s) = d -> bootable ->
  exists s', bootmain s = Ok (Some (elf_entry (parse_elf (image d)))) s' /\
    Forall (loaded (bt_mem s')) (phs (Z.to_nat (elf_phnum (parse_elf (image d)))) (elf_phoff (parse_elf (image d)))).
Proof.
  intros Hf R D [Bm Bh Bf Bo]. unfold bootmain. assert (le : forall a b, (a <=? b) = true -> a <= b) by (intros a b; apply Z.leb_le).
  destruct (readseg_ok 0x10000 4096 0 s Hf R) as (s1 & E1 & R1 & D1 & M1); [apply le; reflexivity ..|].
  assert (H1 : header_in (bt_mem s1)) by (intros x Hx; rewrite M1, D; change (seg_lo 0x10000 0) with 0x10000; change (seg_hi 0x10000 4096 0) with 0x11000;
    rewrite (proj2 (Z.leb_le _ _)), (proj2 (Z.ltb_lt _ _)) by lia; f_equal).
  assert (Hp : 0 <= elf_phoff (parse_elf (image d)) < two32) by (apply load32_bound, d_bytes).
  assert (Hn : 0 <= elf_phnum (parse_elf (image d))) by (change (0 <= image d 44 + 256 * image d 45); pose proof (d_bytes 44); pose proof (d_bytes 45); lia).
  assert (P : forall m, header_in m -> let h := parse_elf (fun i => m (0x10000 + i)) in elf_magic h = ELF_MAGIC /\ elf_entry h = elf_entry (parse_elf (image d)) /\
    elf_phoff h = elf_phoff (parse_elf (image d)) /\ elf_phnum h = elf_phnum (parse_elf (image d))).
  { intros m Hm h. rewrite <- Bm. cbn. split_and!; [rewrite (load32_shift m 0) | rewrite (load32_shift m 0) | rewrite (load32_shift m 0) | apply load16_shift]; auto; lia. }
  rewrite (bind_ok _ _ _ _ _ E1), (bind_ok (gets _) _ s1 _ s1 eq_refl). destruct (P _ H1) as (P1 & P2 & P3 & P4). cbv zeta. rewrite P1, P3, P4, Z.eqb_refl. cbn [negb].
  destruct (load_kernel_ok (Z.to_nat (elf_phnum (parse_elf (image d)))) (elf_phoff (parse_elf (image d))) s1) as (s2 & E2 & R2 & H2 & L2 & _); auto; [congruence | lia | rewrite Z2Nat.id by lia; lia|].
  rewrite Z2Nat.id in E2 by lia. rewrite !u32_small by (unfold ph_size, two32 in *; lia). rewrite (Z.mul_comm (elf_phnum _)), (bind_ok _ _ _ _ _ E2), (bind_ok (gets _) _ s2 _ s2 eq_refl).
  exists s2. destruct (P _ H2) as (_ & -> & _). auto.
Qed.

End Kernel.
End Boot.

(** *** A kernel with two segments *)

Definition word (w : Z) : list Z := [u8 w; u8 (w / 256); u8 (w / 65536); u8 (w / 16777216)].

Definition sample_phs : list proghdr := [mkPh 1 4096 0x80100000 0x100000 700 1000 5 4096; mkPh 1 4796 0x80100800 0x100800 300 300 6 4096].

Definition sample_elf : list Z :=
  word ELF_MAGIC ++ repeat 0 12 ++ word 0x00030002 ++ word 1 ++ word 0x10000c ++ word 52 ++ word 0 ++ word 0 ++ word 0x200034 ++ word 2 ++ word 0 ++
  concat (map (fun p => concat (map word [ph_type p; ph_off p; ph_vaddr p; ph_paddr p; ph_filesz p; ph_memsz p; ph_flags p; ph_align p])) sample_phs).

Definition sample_drives (drive sector : Z) : block :=
  fun i => if (drive =? 0) && (sector =? 1) then u8 (nth (Z.to_nat i) sample_elf 0) else u8 (sector + i).

Definition sample_boot : bootst := mkBoot (fun _ => 0) (mkAta (fun _ => 0) IDE_DRDY None false (fun _ => 0) (fun _ => 0) false sample_drives) 0.

Lemma sample_headers : phs sample_drives (Z.to_nat (elf_phnum (parse_elf (image sample_drives)))) (elf_phoff (parse_elf (image sample_drives))) = sample_phs.
Proof. vm_compute. reflexivity. Qed.

Lemma sample_bootable : bootable sample_drives.
Proof.
  split; [vm_compute; reflexivity | vm_compute; discriminate | rewrite sample_headers | rewrite sample_headers].
  - repeat constructor; try (vm_compute; discriminate); right; vm_compute; discriminate.
  - repeat constructor. vm_compute. discriminate.
Qed.

Lemma bootmain_loads_kernel_witness : exists s', bootmain (fun _ => 3%nat) 5 sample_boot = Ok (Some 0x10000c) s' /\ Forall (loaded sample_drives (bt_mem s')) sample_phs.
Proof.
  rewrite <- sample_headers. change 0x10000c with (elf_entry (parse_elf (image sample_drives))).
  apply (bootmain_loads_kernel (fun _ => 3%nat) 5 sample_drives).
  - intros x. unfold image, sample_drives. destruct (_ && _); apply u8_bound.
  - intros c. lia.
  - split; [reflexivity | reflexivity | right; reflexivity].
  - reflexivity.
  - exact sample_bootable.
Defined.
