(* ===== verification/Mp.v ===== *)
(** The search for the processors, [src/xv6/xv6-public/mp.c]: the MP floating pointer
    and the configuration table of [mp.h] in the memory of the BIOS.

    The fields are read at their offsets; [struct mp] has 16 bytes and [struct
    mpconf] 44. *)

From S2P Require Import Prelude Mem Mmu.

Definition NCPU : Z := 8.
Definition MPPROC : Z := 0.
Definition MPBUS : Z := 1.
Definition MPIOAPIC : Z := 2.
Definition MPIOINTR : Z := 3.
Definition MPLINTR : Z := 4.

Definition mp_size : Z := 16.
Definition mp_physaddr (m : mem) (mp : Z) : Z := load32 m (mp + 4).
Definition mp_imcrp (m : mem) (mp : Z) : Z := m (mp + 12).
Definition conf_size : Z := 44.
Definition conf_length (m : mem) (conf : Z) : Z := load16 m (conf + 4).
Definition conf_version (m : mem) (conf : Z) : Z := m (conf + 6).
Definition conf_lapicaddr (m : mem) (conf : Z) : Z := load32 m (conf + 36).
Definition mpproc_size : Z := 20.
Definition mpioapic_size : Z := 8.

(** The memory, the ports, [lapic], [cpus[].apicid], [ncpu] and [ioapicid]. *)
Record mpst := mkMp { mp_mem : mem; mp_ports : Z -> Z; mp_lapic : Z; mp_apicid : Z -> Z; mp_ncpu : Z; mp_ioapicid : Z }.

Fixpoint sum_loop (m : mem) (addr : Z) (len : nat) (sum : Z) : Z :=
  match len with O => sum | S len => sum_loop m (addr + 1) len (sum + m addr) end.
Definition sum (m : mem) (addr len : Z) : Z := u8 (sum_loop m addr (Z.to_nat len) 0).

(** [memcmp(p, "...", n) == 0] for a string constant. *)
Definition same_bytes (m : mem) (p : Z) (l : list Z) : bool := bool_decide (bytes m p (length l) = l).
Definition MP_sig : list Z := [95; 77; 80; 95].
Definition PCMP_sig : list Z := [80; 67; 77; 80].

(** Is there a floating pointer at [p]? *)
Definition mp_here (m : mem) (p : Z) : bool := same_bytes m p MP_sig && (sum m p mp_size =? 0).

Fixpoint mpsearch1_loop (fuel : nat) (m : mem) (p e : Z) : option Z :=
  match fuel with
  | O => None
  | S fuel => if p <? e then if mp_here m p then Some p else mpsearch1_loop fuel m (u32 (p + mp_size)) e else None
  end.

Definition mpsearch1 (m : mem) (a len : Z) : option Z :=
  let addr := P2V a in
  mpsearch1_loop (Z.to_nat (len / mp_size) + 1) m addr (u32 (addr + len)).

Definition mpsearch (m : mem) : option Z :=
  let bda := P2V 0x400 in
  let p := Z.shiftl (Z.lor (Z.shiftl (m (bda + 0x0F)) 8) (m (bda + 0x0E))) 4 in
  let first :=
    if truth p then mpsearch1 m p 1024
    else let p := Z.lor (Z.shiftl (m (bda + 0x14)) 8) (m (bda + 0x13)) * 1024 in mpsearch1 m (u32 (p - 1024)) 1024 in
  match first with Some mp => Some mp | None => mpsearch1 m 0xF0000 0x10000 end.

(** The floating pointer and the configuration table. *)
Definition mpconfig (m : mem) : option (Z * Z) :=
  match mpsearch m with
  | None => None
  | Some mp =>
      if mp_physaddr m mp =? 0 then None else
      let conf := P2V (mp_physaddr m mp) in
      if negb (same_bytes m conf PCMP_sig) then None else
      if negb (conf_version m conf =? 1) && negb (conf_version m conf =? 4) then None else
      if negb (sum m conf (conf_length m conf) =? 0) then None else
      Some (mp, conf)
  end.

(** The loop of [mpinit] over the entries; the value of [ismp].  The [break] of the
    default case leaves the [switch], not the loop. *)
Fixpoint mp_entries (fuel : nat) (p e : Z) (ismp : bool) : M mpst bool :=
  match fuel with
  | O => nofuel
  | S fuel =>
      if p <? e then
        m <- gets mp_mem ;;
        if m p =? MPPROC then
          modify (fun s => if mp_ncpu s <? NCPU
            then mkMp m (mp_ports s) (mp_lapic s) (fun i => if i =? mp_ncpu s then m (p + 1) else mp_apicid s i) (mp_ncpu s + 1) (mp_ioapicid s) else s) ;;;
          mp_entries fuel (p + mpproc_size) e ismp
        else if m p =? MPIOAPIC then
          modify (fun s => mkMp m (mp_ports s) (mp_lapic s) (mp_apicid s) (mp_ncpu s) (m (p + 1))) ;;;
          mp_entries fuel (p + mpioapic_size) e ismp
        else if (m p =? MPBUS) || (m p =? MPIOINTR) || (m p =? MPLINTR) then mp_entries fuel (p + 8) e ismp
        else mp_entries fuel p e false
      else ret ismp
  end.

Definition mp_outb (port v : Z) : M mpst unit :=
  modify (fun s => mkMp (mp_mem s) (fun q => if q =? port then u8 v else mp_ports s q) (mp_lapic s) (mp_apicid s) (mp_ncpu s) (mp_ioapicid s)).

Definition mpinit (fuel : nat) : M mpst unit :=
  m <- gets mp_mem ;;
  match mpconfig m with
  | None => panic "Expect to run on an SMP"
  | Some (mp, conf) =>
      modify (fun s => mkMp m (mp_ports s) (conf_lapicaddr m conf) (mp_apicid s) (mp_ncpu s) (mp_ioapicid s)) ;;;
      ismp <- mp_entries fuel (conf + conf_size) (conf + conf_length m conf) true ;;
      if negb ismp then panic "Didn't find a suitable machine" else
      if truth (mp_imcrp m mp) then
        mp_outb 0x22 0x70 ;;;
        v <- gets (fun s => mp_ports s 0x23) ;;
        mp_outb 0x23 (Z.lor v 1)
      else ret tt
  end.

(** ** The search *)

Lemma sum_spec m a n : sum m a (Z.of_nat n) = u8 (fold_right Z.add 0 (bytes m a n)).
Proof.
  unfold sum. rewrite Nat2Z.id. f_equal. assert (E : forall n a acc, sum_loop m a n acc = acc + fold_right Z.add 0 (bytes m a n)).
  { induction n0 as [|k IH]; intros a0 acc; cbn; [lia|]. rewrite IH. lia. }
  rewrite E. lia.
Qed.

(** *** Where the tables are *)

(** The addresses on 16 byte boundaries of [len] bytes at [start]. *)
Definition area (start len : Z) : list Z := map (fun k => start + 16 * k) (seqZ 0 (len / 16)).

(** The places of a floating pointer, in the order of the specification: the first
    kilobyte of the extended BIOS data area, whose segment is at 0x40E, or without
    one the last kilobyte of the base memory, whose size in kilobytes is at 0x413;
    then the BIOS between 0xF0000 and 0xFFFFF. *)
Definition places (m : mem) : list Z :=
  let seg := load16 m (P2V 0x40E) in
  let kb := load16 m (P2V 0x413) in
  area (P2V (if seg =? 0 then u32 (1024 * kb - 1024) else 16 * seg)) 1024 ++ area (P2V 0xF0000) 0x10000.

(** The bytes of a structure add up to 0. *)
Definition checksum (m : mem) (p len : Z) : Prop := fold_right Z.add 0 (bytes m p (Z.to_nat len)) mod 256 = 0.

Definition floating (m : mem) (p : Z) : Prop := bytes m p 4 = MP_sig /\ checksum m p 16.

(** The first floating pointer of the machine is at [mp] and leads to a valid
    configuration table at [conf]. *)
Record located (m : mem) (mp conf : Z) : Prop := {
  lo_first : exists l1 l2, places m = l1 ++ mp :: l2 /\ Forall (fun q => ~ floating m q) l1;
  lo_floating : floating m mp;
  lo_physaddr : load32 m (mp + 4) <> 0;
  lo_conf : conf = P2V (load32 m (mp + 4));
  lo_signature : bytes m conf 4 = PCMP_sig;
  lo_version : m (conf + 6) = 1 \/ m (conf + 6) = 4;
  lo_checksum : checksum m conf (load16 m (conf + 4))
}.

Lemma sum_checksum m p len : 0 <= len -> (sum m p len =? 0) = true <-> checksum m p len.
Proof. intros Hl. unfold checksum. rewrite <- (Z2Nat.id len) at 1 by exact Hl. rewrite sum_spec. apply Z.eqb_eq. Qed.

Lemma mp_here_floating m p : mp_here m p = true <-> floating m p.
Proof.
  unfold mp_here, same_bytes, floating. rewrite andb_true_iff, bool_decide_eq_true. change (length MP_sig) with 4%nat. change mp_size with 16.
  rewrite (sum_checksum m p 16) by lia. reflexivity.
Qed.

(** The first element that passes a test. *)
Lemma find_first {A} (f : A -> bool) (l : list A) x : find f l = Some x <-> exists l1 l2, l = l1 ++ x :: l2 /\ f x = true /\ Forall (fun y => f y = false) l1.
Proof.
  split.
  - induction l as [|y l IH]; cbn [find]; [discriminate|]. destruct (f y) eqn:E.
    + intros X. injection X as <-. exists [], l. split_and!; auto.
    + intros X. destruct (IH X) as (l1 & l2 & -> & Hx & H1). exists (y :: l1), l2. split_and!; auto.
  - intros (l1 & l2 & -> & Hx & H1). induction H1 as [|y l1 Hy _ IH]; cbn [app find]; [now rewrite Hx | now rewrite Hy].
Qed.

Lemma find_app {A} (f : A -> bool) (l l' : list A) : find f (l ++ l') = match find f l with Some x => Some x | None => find f l' end.
Proof. induction l as [|x l IH]; cbn [app find]; [reflexivity|]. now destruct (f x). Qed.

Lemma mpsearch1_loop_find fuel m e : forall p k, 0 <= p -> e + mp_size <= two32 -> e = p + 16 * Z.of_nat k -> (k < fuel)%nat ->
  mpsearch1_loop fuel m p e = find (mp_here m) (map (fun j => p + 16 * j) (seqZ 0 (Z.of_nat k))).
Proof.
  induction fuel as [|fuel IH]; intros p k Hp He Ee Hk; [lia|]. cbn [mpsearch1_loop]. destruct k as [|k].
  - rewrite (proj2 (Z.ltb_ge _ _)) by lia. reflexivity.
  - rewrite (proj2 (Z.ltb_lt _ _)) by lia. rewrite (seqZ_cons 0) by lia. cbn [map find]. replace (p + 16 * 0) with p by lia. destruct (mp_here m p); [reflexivity|].
    unfold mp_size in *. rewrite u32_small by lia. rewrite (IH (p + 16) k) by lia. replace (Z.pred (Z.of_nat (S k))) with (Z.of_nat k) by lia. f_equal.
    assert (Es : seqZ (Z.succ 0) (Z.of_nat k) = map (Z.add 1) (seqZ 0 (Z.of_nat k))) by (symmetry; apply (fmap_add_seqZ 1 0)).
    rewrite Es, map_map. apply map_ext. intros j. lia.
Qed.

Lemma mpsearch1_find m a len : 0 <= len -> len mod 16 = 0 -> P2V a + len + 16 <= two32 -> mpsearch1 m a len = find (mp_here m) (area (P2V a) len).
Proof.
  intros Hl Hm Hb. unfold mpsearch1, area. assert (0 <= P2V a) by apply u32_bound. rewrite u32_small by (unfold two32 in *; lia). unfold mp_size.
  rewrite (mpsearch1_loop_find _ m _ (P2V a) (Z.to_nat (len / 16))); [|unfold mp_size in *; Z.to_euclidean_division_equations; lia..]. do 3 f_equal. Z.to_euclidean_division_equations. lia.
Qed.

Lemma lor_bytes hi lo : 0 <= hi < 256 -> 0 <= lo < 256 -> Z.lor (Z.shiftl hi 8) lo = lo + 256 * hi.
Proof.
  intros Hh Hl. rewrite Z.shiftl_mul_pow2 by lia. change (2 ^ 8) with 256. rewrite <- Z.lxor_lor; [rewrite <- Z.add_nocarry_lxor; [lia|]|].
  all: apply Z.bits_inj'; intros j Hj; rewrite Z.land_spec, Z.bits_0; change 256 with (2 ^ 8); destruct (Z.lt_ge_cases j 8) as [Hlt|Hge];
    [now rewrite Z.mul_pow2_bits_low by lia|].
  all: destruct (Z.eq_dec lo 0) as [->|]; [now rewrite Z.bits_0, andb_false_r | rewrite (Z.bits_above_log2 lo j), andb_false_r; [reflexivity | lia|]].
  all: apply (Z.lt_le_trans _ 8); [apply Z.log2_lt_pow2; lia | lia].
Qed.

Lemma mpsearch_places m : mem_ok m -> mpsearch m = find (mp_here m) (places m).
Proof.
  intros Hm. unfold mpsearch, places. change (P2V 1024 + 15) with (P2V 0x40E + 1). change (P2V 1024 + 14) with (P2V 0x40E).
  change (P2V 1024 + 20) with (P2V 0x413 + 1). change (P2V 1024 + 19) with (P2V 0x413). rewrite !lor_bytes by apply Hm. fold (load16 m (P2V 0x40E)) (load16 m (P2V 0x413)).
  set (seg := load16 m _). set (kb := load16 m (P2V 0x413)).
  assert (Hs : 0 <= seg < 65536) by (unfold seg, load16; pose proof (Hm (P2V 0x40E)); pose proof (Hm (P2V 0x40E + 1)); lia).
  assert (Hk : 0 <= kb < 65536) by (unfold kb, load16; pose proof (Hm (P2V 0x413)); pose proof (Hm (P2V 0x413 + 1)); lia). clearbody seg kb. cbv zeta.
  rewrite Z.shiftl_mul_pow2 by lia. change (2 ^ 4) with 16. rewrite (Z.mul_comm seg), (Z.mul_comm kb), find_app.
  rewrite (mpsearch1_find m 0xF0000 0x10000) by (try reflexivity; vm_compute; discriminate). destruct (Z.eqb_spec seg 0) as [->|Hn].
  - change (truth (16 * 0)) with false. cbv iota. rewrite mpsearch1_find; [reflexivity | lia | reflexivity|]. unfold P2V, KERNBASE, two32. word_lia.
  - assert (Ht : truth (16 * seg) = true) by (unfold truth; rewrite (proj2 (Z.eqb_neq _ _)) by lia; reflexivity). rewrite Ht.
    rewrite mpsearch1_find; [reflexivity | lia | reflexivity|]. unfold P2V, KERNBASE, two32. word_lia.
Qed.

(** [mpconfig] finds the tables of the specification. *)
Lemma mpconfig_located m mp conf : mem_ok m -> mpconfig m = Some (mp, conf) <-> located m mp conf.
Proof.
  intros Hm. unfold mpconfig. rewrite mpsearch_places by exact Hm.
  assert (Hc : forall q, (sum m q (conf_length m q) =? 0) = true <-> checksum m q (load16 m (q + 4)))
    by (intros q; apply sum_checksum; unfold conf_length, load16; pose proof (Hm (q + 4)); pose proof (Hm (q + 4 + 1)); lia).
  split.
  - destruct (find (mp_here m) (places m)) as [q|] eqn:Ef; [|discriminate]. apply find_first in Ef as (l1 & l2 & Ep & Hq & Hl).
    destruct (Z.eqb_spec (mp_physaddr m q) 0) as [|Hp]; [discriminate|]. set (cf := P2V (mp_physaddr m q)).
    destruct (same_bytes m cf PCMP_sig) eqn:Es; [|discriminate]. destruct (_ && _) eqn:Ev; [discriminate|]. destruct (sum _ _ _ =? 0) eqn:Ec; [|discriminate].
    cbn [negb]. intros X. injection X as <- <-. constructor; auto.
    + exists l1, l2. split; [exact Ep|]. eapply Forall_impl; [exact Hl|]. intros y Hy F. apply mp_here_floating in F. cbv beta in Hy. congruence.
    + now apply mp_here_floating.
    + now apply bool_decide_eq_true in Es.
    + unfold conf_version in Ev. destruct (Z.eqb_spec (m (cf + 6)) 1), (Z.eqb_spec (m (cf + 6)) 4); auto; discriminate.
    + now apply Hc.
  - intros [(l1 & l2 & Ep & Hl) Hq Hp -> Hs Hv Hk]. rewrite (proj2 (find_first (mp_here m) (places m) mp)).
    + unfold mp_physaddr. rewrite (proj2 (Z.eqb_neq _ _)) by exact Hp. set (cf := P2V _) in *.
      assert (Es : same_bytes m cf PCMP_sig = true) by now apply bool_decide_eq_true. rewrite Es, (proj2 (Hc cf) Hk). cbn [negb]. unfold conf_version.
      destruct Hv as [-> | ->]; reflexivity.
    + exists l1, l2. split_and!; [exact Ep | now apply mp_here_floating|]. eapply Forall_impl; [exact Hl|]. intros y Hy. cbv beta in *.
      destruct (mp_here m y) eqn:E; [|reflexivity]. now apply mp_here_floating in E.
Qed.

(** *** The table *)

(** An entry of the table, as far as [mpinit] looks at it. *)
Inductive entry := EProc (apicid : Z) | EIoapic (apicno : Z) | EOther (type : Z).

Definition entry_size (x : entry) : Z := match x with EProc _ => mpproc_size | EIoapic _ => mpioapic_size | EOther _ => 8 end.

Definition entry_at (m : mem) (p : Z) (x : entry) : Prop :=
  match x with
  | EProc id => m p = MPPROC /\ m (p + 1) = id
  | EIoapic no => m p = MPIOAPIC /\ m (p + 1) = no
  | EOther t => m p = t /\ (t = MPBUS \/ t = MPIOINTR \/ t = MPLINTR)
  end.

(** The entries that begin before [e], from [p] on. *)
Fixpoint table_at (m : mem) (p e : Z) (l : list entry) : Prop :=
  match l with
  | [] => e <= p
  | x :: l => p < e /\ entry_at m p x /\ table_at m (p + entry_size x) e l
  end.

(** Entries from [p] to one at [q] of an unknown type. *)
Fixpoint unknown_at (m : mem) (p e : Z) (l : list entry) : Prop :=
  match l with
  | [] => p < e /\ m p <> MPPROC /\ m p <> MPIOAPIC /\ m p <> MPBUS /\ m p <> MPIOINTR /\ m p <> MPLINTR
  | x :: l => p < e /\ entry_at m p x /\ unknown_at m (p + entry_size x) e l
  end.

Definition procs (l : list entry) : list Z := omap (fun x => match x with EProc id => Some id | _ => None end) l.
Definition ioapics (l : list entry) : list Z := omap (fun x => match x with EIoapic no => Some no | _ => None end) l.

(** [cpus] holds the processors of [ids]. *)
Record cpus_are (s : mpst) (ids : list Z) : Prop := {
  ca_ncpu : mp_ncpu s = Z.of_nat (length ids);
  ca_max : mp_ncpu s <= NCPU;
  ca_ids : forall i id, ids !! i = Some id -> mp_apicid s (Z.of_nat i) = id }.

Lemma cpus_push s ids id : cpus_are s ids -> mp_ncpu s < NCPU ->
  forall s', mp_ncpu s' = mp_ncpu s + 1 -> (forall i, mp_apicid s' i = if i =? mp_ncpu s then id else mp_apicid s i) -> cpus_are s' (ids ++ [id]).
Proof.
  intros [N M I] Hlt s' N' I'. split; [rewrite length_app; cbn; lia | lia|]. intros i x Hx. rewrite I'. apply lookup_app_Some in Hx as [Hx|[Hl Hx]].
  - rewrite (proj2 (Z.eqb_neq _ _)) by (apply lookup_lt_Some in Hx; lia). now apply I.
  - apply list_lookup_singleton_Some in Hx as [Hi <-]. rewrite (proj2 (Z.eqb_eq _ _)) by lia. reflexivity.
Qed.

(** One entry: what it adds to [cpus] and [ioapicid]. *)
Definition take_cpus (ids : list Z) (x : entry) : list Z := match x with EProc id => if (Z.of_nat (length ids) <? NCPU) then ids ++ [id] else ids | _ => ids end.
Definition take_ioapic (no : Z) (x : entry) : Z := match x with EIoapic no => no | _ => no end.

Lemma entry_step fuel p e ismp x s ids : p < e -> entry_at (mp_mem s) p x -> cpus_are s ids ->
  exists s', mp_entries (S fuel) p e ismp s = mp_entries fuel (p + entry_size x) e ismp s' /\ cpus_are s' (take_cpus ids x) /\ mp_mem s' = mp_mem s /\
    mp_lapic s' = mp_lapic s /\ mp_ports s' = mp_ports s /\ mp_ioapicid s' = take_ioapic (mp_ioapicid s) x.
Proof.
  intros Hlt Hx C. cbn [mp_entries]. rewrite (proj2 (Z.ltb_lt _ _)) by exact Hlt. unfold bind at 1, gets. destruct x as [id|no|t]; cbn [entry_at] in Hx.
  - destruct Hx as [-> <-]. change (MPPROC =? MPPROC) with true. cbv iota. unfold bind, modify. cbn [take_cpus entry_size take_ioapic]. rewrite <- (ca_ncpu _ _ C). destruct (Z.ltb_spec (mp_ncpu s) NCPU).
    + eexists. split; [reflexivity|]. split_and!; try reflexivity. apply (cpus_push s); auto.
    + exists s. split_and!; auto.
  - destruct Hx as [-> <-]. change (MPIOAPIC =? MPPROC) with false. change (MPIOAPIC =? MPIOAPIC) with true. cbv iota. unfold bind, modify. eexists. split; [reflexivity|]. split_and!; try reflexivity. destruct C. split; auto.
  - exists s. destruct Hx as [-> Ht]. split_and!; auto. destruct Ht as [-> |[-> | ->]]; reflexivity.
Qed.

Lemma mp_entries_ok l : forall fuel p e ismp s ids, table_at (mp_mem s) p e l -> cpus_are s ids -> (length l < fuel)%nat ->
  exists s', mp_entries fuel p e ismp s = Ok ismp s' /\ cpus_are s' (fold_left take_cpus l ids) /\ mp_mem s' = mp_mem s /\
    mp_lapic s' = mp_lapic s /\ mp_ports s' = mp_ports s /\ mp_ioapicid s' = fold_left take_ioapic l (mp_ioapicid s).
Proof.
  induction l as [|x l IH]; intros [|fuel] p e ismp s ids T C Hf; cbn [length] in Hf; try lia.
  - exists s. cbn [mp_entries]. rewrite (proj2 (Z.ltb_ge _ _)) by exact T. split_and!; auto.
  - destruct T as (Hlt & Hx & T). destruct (entry_step fuel p e ismp x s ids Hlt Hx C) as (s1 & -> & C1 & M1 & L1 & P1 & I1).
    destruct (IH fuel (p + entry_size x) e ismp s1 _ ltac:(rewrite M1; exact T) C1 ltac:(lia)) as (s2 & E2 & C2 & M2 & L2 & P2 & I2).
    exists s2. cbn [fold_left]. rewrite <- I1. split_and!; auto; congruence.
Qed.

Lemma take_cpus_all l : forall ids, fold_left take_cpus l ids = ids ++ take (Z.to_nat NCPU - length ids) (procs l) .
Proof.
  induction l as [|x l IH]; intros ids; cbn [fold_left procs omap list_omap]; [now rewrite take_nil, app_nil_r|]. rewrite IH. fold (procs l). destruct x; cbn [take_cpus]; try reflexivity. unfold NCPU.
  destruct (Z.ltb_spec (Z.of_nat (length ids)) 8) as [Hlt|Hge].
  - rewrite length_app. cbn [length]. replace (Z.to_nat 8 - length ids)%nat with (S (Z.to_nat 8 - (length ids + 1))) by lia. cbn [take]. now rewrite <- app_assoc.
  - replace (Z.to_nat 8 - length ids)%nat with 0%nat by lia. now rewrite !take_0.
Qed.

Lemma last_ioapic l : forall no, fold_left take_ioapic l no = default no (last (ioapics l)).
Proof.
  induction l as [|x l IH]; intros no; cbn [fold_left ioapics omap list_omap]; [reflexivity|]. rewrite IH. fold (ioapics l). destruct x; cbn [take_ioapic]; try reflexivity.
  destruct (ioapics l) as [|y r] eqn:E; [reflexivity|]. change (last (apicno :: y :: r)) with (last (y :: r)). destruct (last (y :: r)) eqn:E2; [reflexivity|]. now apply last_None in E2.
Qed.

(** An entry of an unknown type keeps [mpinit] busy for ever. *)
Lemma mp_entries_stuck fuel : forall p e ismp s, unknown_at (mp_mem s) p e [] -> mp_entries fuel p e ismp s = NoFuel.
Proof.
  induction fuel as [|fuel IH]; intros p e ismp s (Hlt & H1 & H2 & H3 & H4 & H5); [reflexivity|]. cbn [mp_entries]. rewrite (proj2 (Z.ltb_lt _ _)) by exact Hlt. unfold bind, gets.
  rewrite !(proj2 (Z.eqb_neq _ _)) by assumption. cbn [orb]. apply IH. split_and!; assumption.
Qed.

Lemma mp_entries_unknown l : forall fuel p e ismp s ids, unknown_at (mp_mem s) p e l -> cpus_are s ids -> mp_entries fuel p e ismp s = NoFuel.
Proof.
  induction l as [|x l IH]; intros [|fuel] p e ismp s ids U C; try reflexivity; [now apply mp_entries_stuck|].
  destruct U as (Hlt & Hx & U). destruct (entry_step fuel p e ismp x s ids Hlt Hx C) as (s1 & -> & C1 & M1 & _). apply (IH _ _ _ _ _ _ ltac:(rewrite M1; exact U) C1).
Qed.

(** C38: [mpinit] finds the processors.  If the first floating pointer among the places
    of the specification leads to a valid configuration table, of any entries that the
    specification knows, [mpinit] ends; then [cpus] holds the local APIC ids of the
    processors of the table in their order, the first eight of them if there are
    more, [ioapicid] is that of the last I/O APIC and [lapic] the address in the
    header.  One entry of another type instead, and it never ends: the panic for
    such a machine is not reached.  Without such tables it panics. *)
Theorem mpinit_finds_cpus s : mem_ok (mp_mem s) -> mp_ncpu s = 0 ->
  (forall mp conf, located (mp_mem s) mp conf ->
    (forall l fuel, table_at (mp_mem s) (conf + conf_size) (conf + conf_length (mp_mem s) conf) l -> (length l < fuel)%nat ->
       exists s', mpinit fuel s = Ok tt s' /\ cpus_are s' (take (Z.to_nat NCPU) (procs l)) /\ mp_ioapicid s' = default (mp_ioapicid s) (last (ioapics l)) /\
         mp_lapic s' = conf_lapicaddr (mp_mem s) conf /\ mp_mem s' = mp_mem s) /\
    (forall l fuel, unknown_at (mp_mem s) (conf + conf_size) (conf + conf_length (mp_mem s) conf) l -> mpinit fuel s = NoFuel)) /\
  ((forall mp conf, ~ located (mp_mem s) mp conf) -> forall fuel, mpinit fuel s = Panic "Expect to run on an SMP").
Proof.
  intros Hm N0. split.
  2: { intros No fuel. unfold mpinit, bind at 1, gets at 1. destruct (mpconfig (mp_mem s)) as [[mp conf]|] eqn:E; [|reflexivity].
       apply mpconfig_located in E; [|exact Hm]. now apply No in E. }
  intros mp conf E%mpconfig_located; [|exact Hm]. set (s0 := mkMp (mp_mem s) (mp_ports s) (conf_lapicaddr (mp_mem s) conf) (mp_apicid s) (mp_ncpu s) (mp_ioapicid s)).
  assert (C0 : cpus_are s0 []) by (split; cbn; [lia | unfold NCPU; lia | intros i id Hi; rewrite lookup_nil in Hi; discriminate]).
  split; intros l fuel T.
  - intros Hf. destruct (mp_entries_ok l fuel _ _ true s0 [] T C0 Hf) as (s1 & E1 & C1 & M1 & L1 & P1 & I1). rewrite take_cpus_all in C1. rewrite last_ioapic in I1. cbn [length app] in C1. rewrite Nat.sub_0_r in C1.
    unfold mpinit. unfold bind at 1, gets at 1. rewrite E. unfold bind at 1, modify. rewrite (bind_ok _ _ _ _ _ E1). cbn [negb]. destruct (truth _).
    + eexists. split; [reflexivity|]. cbn. split_and!; auto. destruct C1. split; auto.
    + exists s1. split_and!; auto.
  - unfold mpinit. unfold bind at 1, gets at 1. rewrite E. unfold bind at 1, modify. unfold bind at 1. pose proof (mp_entries_unknown l fuel _ _ true s0 [] T C0) as U. subst s0. now rewrite U.
Qed.

(** *** A machine with two processors *)

Definition sample_mp_table : list Z :=
  PCMP_sig ++ [100; 0; 4; 133] ++ repeat 0 28 ++ [0; 0; 0xE0; 0xFE; 0; 0; 0; 0] ++
  repeat 0 20 ++ [0; 1] ++ repeat 0 18 ++ [1] ++ repeat 0 7 ++ [2; 1] ++ repeat 0 6.

Definition sample_mp_mem : mem := fun x =>
  if x <? 0x800F0100 then nth (Z.to_nat (x - 0x800F0010)) (if x <? 0x800F0010 then [] else MP_sig ++ [0; 1; 0x0F; 0; 1; 4; 144]) 0
  else nth (Z.to_nat (x - 0x800F0100)) sample_mp_table 0.

Definition sample_mp : mpst := mkMp sample_mp_mem (fun _ => 0) 0 (fun _ => 0) 0 0.

Lemma sample_mp_bytes : mem_ok sample_mp_mem.
Proof.
  assert (H : forall l i, forallb (fun b => (0 <=? b) && (b <? 256)) l = true -> 0 <= nth i l 0 < 256).
  { intros l i Hl. destruct (nth_in_or_default i l 0) as [Hi | ->]; [|lia]. rewrite forallb_forall in Hl. specialize (Hl _ Hi). bool_prop. lia. }
  intros x. unfold sample_mp_mem. repeat case_bool; apply H; vm_compute; reflexivity.
Qed.

Lemma mpinit_finds_cpus_witness : exists s', mpinit 5 sample_mp = Ok tt s' /\ cpus_are s' [0; 1].
Proof.
  destruct (mpinit_finds_cpus sample_mp sample_mp_bytes eq_refl) as [F _]. destruct (F 0x800F0010 0x800F0100) as [F1 _]; [apply mpconfig_located; [exact sample_mp_bytes | vm_compute; reflexivity]|].
  destruct (F1 [EProc 0; EProc 1; EOther 1; EIoapic 1] 5%nat) as (s' & E & C & _); [|cbn; lia | exists s'; split; [exact E | exact C]].
  cbn [table_at entry_at]. repeat (split; [first [vm_compute; reflexivity | split; [vm_compute; reflexivity | first [vm_compute; reflexivity | left; reflexivity]]]|]). vm_compute. discriminate.
Defined.
