(* ===== verification/Apic.v ===== *)
(** The interrupt controllers and the clock: [src/xv6/xv6-public/ioapic.c],
    [picirq.c] and [lapic.c].

    The I/O APIC has a register that selects one of its registers and a window on the
    selected one; the registers of the local APIC are an array, and writes to them are
    also kept in order, since they command the other processors.  [latency] is the
    number of reads of [ICRLO] until an interrupt is delivered.  The clock of the CMOS
    goes on with every access, so that it may change between two reads. *)

From stdpp Require Import list.
From S2P Require Import Prelude Mem Mmu Trap.

(** ** The I/O APIC *)

Definition REG_ID : Z := 0x00.
Definition REG_VER : Z := 0x01.
Definition REG_TABLE : Z := 0x10.
Definition INT_DISABLED : Z := 0x00010000.

Record ioapic := mkIo { io_reg : Z; io_regs : Z -> Z }.

Definition ioapicread (reg : Z) : M ioapic Z :=
  modify (fun s => mkIo reg (io_regs s)) ;;;
  gets (fun s => io_regs s (io_reg s)).

Definition ioapicwrite (reg data : Z) : M ioapic unit :=
  modify (fun s => mkIo reg (io_regs s)) ;;;
  modify (fun s => mkIo (io_reg s) (fun r => if r =? io_reg s then u32 data else io_regs s r)).

(** The loop from [i] on, [k] more entries. *)
Fixpoint ioapic_mask (k : nat) (i : Z) : M ioapic unit :=
  match k with
  | O => ret tt
  | S k =>
      ioapicwrite (REG_TABLE + 2 * i) (Z.lor INT_DISABLED (T_IRQ0 + i)) ;;;
      ioapicwrite (REG_TABLE + 2 * i + 1) 0 ;;;
      ioapic_mask k (i + 1)
  end.

(** Is the id another one than [ioapicid], which it reports? *)
Definition ioapicinit (ioapicid : Z) : M ioapic bool :=
  ver <- ioapicread REG_VER ;;
  let maxintr := Z.land (Z.shiftr ver 16) 0xFF in
  id <- ioapicread REG_ID ;;
  ioapic_mask (Z.to_nat (maxintr + 1)) 0 ;;;
  ret (negb (Z.shiftr id 24 =? ioapicid)).

Definition ioapicenable (irq cpunum : Z) : M ioapic unit :=
  ioapicwrite (REG_TABLE + 2 * irq) (T_IRQ0 + irq) ;;;
  ioapicwrite (REG_TABLE + 2 * irq + 1) (Z.shiftl cpunum 24).

(** The calls of [ioapicenable] by the drivers. *)
Fixpoint ioapic_enables (l : list (Z * Z)) : M ioapic unit :=
  match l with [] => ret tt | (irq, cpu) :: l => ioapicenable irq cpu ;;; ioapic_enables l end.

(** *** Routes *)

(** Where interrupts go: to no processor, or to that with an id. *)
Definition route (l : list (Z * Z)) : Z -> option Z := fold_left (fun f p i => if i =? fst p then Some (snd p) else f i) l (fun _ => None).

Definition entry_low (r : option Z) (i : Z) : Z := match r with None => Z.lor INT_DISABLED (T_IRQ0 + i) | Some _ => T_IRQ0 + i end.
Definition entry_high (r : option Z) : Z := match r with None => 0 | Some c => Z.shiftl c 24 end.

Definition routed (n : Z) (f : Z -> option Z) (s : ioapic) : Prop :=
  forall i, 0 <= i < n -> io_regs s (REG_TABLE + 2 * i) = entry_low (f i) i /\ io_regs s (REG_TABLE + 2 * i + 1) = entry_high (f i).

Lemma ioapicwrite_ok reg data s : ioapicwrite reg data s = Ok tt (mkIo reg (fun r => if r =? reg then u32 data else io_regs s r)).
Proof. reflexivity. Qed.

Lemma write_pair i lo hi s : (ioapicwrite (REG_TABLE + 2 * i) lo ;;; ioapicwrite (REG_TABLE + 2 * i + 1) hi) s =
  Ok tt (mkIo (REG_TABLE + 2 * i + 1) (fun r => if r =? REG_TABLE + 2 * i + 1 then u32 hi else if r =? REG_TABLE + 2 * i then u32 lo else io_regs s r)).
Proof. reflexivity. Qed.

(** Writing the two registers of an entry. *)
Lemma pair_routed n f i r s : 0 <= i -> u32 (entry_low r i) = entry_low r i -> u32 (entry_high r) = entry_high r -> routed n f s -> forall s',
  (forall x, io_regs s' x = if x =? REG_TABLE + 2 * i + 1 then entry_high r else if x =? REG_TABLE + 2 * i then entry_low r i else io_regs s x) ->
  routed n (fun j => if j =? i then r else f j) s'.
Proof.
  intros Hi Hlo Hhi R s' E j Hj. rewrite !E. destruct (Z.eqb_spec j i) as [->|Hn].
  - rewrite Z.eqb_refl, !(proj2 (Z.eqb_neq (REG_TABLE + 2 * i) (REG_TABLE + 2 * i + 1))), Z.eqb_refl by lia. auto.
  - rewrite !(proj2 (Z.eqb_neq _ _)) by lia. now apply R.
Qed.

Lemma irq_word i : 0 <= i < 256 -> u32 (T_IRQ0 + i) = T_IRQ0 + i /\ u32 (Z.lor INT_DISABLED (T_IRQ0 + i)) = Z.lor INT_DISABLED (T_IRQ0 + i).
Proof.
  intros Hi. assert (All : forallb (fun n => let i := Z.of_nat n in (u32 (T_IRQ0 + i) =? T_IRQ0 + i) && (u32 (Z.lor INT_DISABLED (T_IRQ0 + i)) =? Z.lor INT_DISABLED (T_IRQ0 + i))) (seq 0 256) = true) by (vm_compute; reflexivity).
  rewrite forallb_forall in All. specialize (All (Z.to_nat i) ltac:(apply in_seq; lia)). cbv zeta in All. rewrite Z2Nat.id in All by lia. bool_prop. lia.
Qed.

Lemma ioapic_mask_ok k : forall i s, 0 <= i -> i + Z.of_nat k <= 256 -> routed i (fun _ => None) s ->
  exists s', ioapic_mask k i s = Ok tt s' /\ routed (i + Z.of_nat k) (fun _ => None) s'.
Proof.
  induction k as [|k IH]; intros i s Hi Hk R; [exists s; rewrite Z.add_0_r; auto|]. cbn [ioapic_mask]. rewrite <- bind_assoc, (bind_ok _ _ _ _ _ (write_pair i _ _ s)).
  match goal with |- exists _, ioapic_mask k _ ?t = _ /\ _ => set (s1 := t) end. destruct (irq_word i ltac:(lia)) as [W1 W2].
  destruct (IH (i + 1) s1) as (s' & E & R'); [lia | lia | | exists s'; replace (i + Z.of_nat (S k)) with (i + 1 + Z.of_nat k) by lia; auto].
  intros j Hj. destruct (Z.eq_dec j i) as [->|Hn].
  - unfold s1. cbn [io_regs]. rewrite Z.eqb_refl, !(proj2 (Z.eqb_neq (REG_TABLE + 2 * i) (REG_TABLE + 2 * i + 1))), Z.eqb_refl by lia. now rewrite W2.
  - unfold s1. cbn [io_regs]. rewrite !(proj2 (Z.eqb_neq _ _)) by lia. apply R. lia.
Qed.

Lemma ioapicenable_ok n f irq cpu s : 0 <= irq < 256 -> 0 <= cpu < 256 -> routed n f s ->
  exists s', ioapicenable irq cpu s = Ok tt s' /\ routed n (fun i => if i =? irq then Some cpu else f i) s'.
Proof.
  intros Hi Hc R. eexists. split; [apply write_pair|]. destruct (irq_word irq Hi) as [W1 _].
  assert (W3 : u32 (Z.shiftl cpu 24) = Z.shiftl cpu 24) by (rewrite Z.shiftl_mul_pow2 by lia; apply u32_small; unfold two32; lia).
  apply (pair_routed n f irq (Some cpu) s ltac:(lia) W1 W3 R). intros x. cbn [io_regs entry_low entry_high]. now rewrite W1, W3.
Qed.

Lemma ioapic_enables_ok n l : forall f s, Forall (fun p => 0 <= fst p < 256 /\ 0 <= snd p < 256) l -> routed n f s ->
  exists s', ioapic_enables l s = Ok tt s' /\ routed n (fold_left (fun f p i => if i =? fst p then Some (snd p) else f i) l f) s'.
Proof.
  induction l as [|[irq cpu] l IH]; intros f s Hl R; [exists s; auto|]. apply Forall_cons in Hl as [[Hi Hc] Hl]. cbn [fst snd] in Hi, Hc. cbn [ioapic_enables fold_left].
  destruct (ioapicenable_ok n f irq cpu s Hi Hc R) as (s1 & E1 & R1). rewrite (bind_ok _ _ _ _ _ E1). apply (IH _ s1 Hl R1).
Qed.

Definition low_ok (i : Z) : bool :=
  Z.testbit (Z.lor INT_DISABLED (T_IRQ0 + i)) 16 && (Z.lor INT_DISABLED (T_IRQ0 + i) mod 256 =? T_IRQ0 + i) && negb (Z.testbit (T_IRQ0 + i) 16).

Lemma entry_bits r i : 0 <= i < 224 -> Z.testbit (entry_low r i) 16 = bool_decide (r = None) /\ entry_low r i mod 256 = T_IRQ0 + i.
Proof.
  intros Hi. assert (All : forallb (fun n => low_ok (Z.of_nat n)) (seq 0 224) = true) by (vm_compute; reflexivity).
  rewrite forallb_forall in All. specialize (All (Z.to_nat i) ltac:(apply in_seq; lia)). rewrite Z2Nat.id in All by lia. unfold low_ok in All.
  apply andb_prop in All as [All H3]. apply andb_prop in All as [H1 H2]. apply Z.eqb_eq in H2. apply negb_true_iff in H3. destruct r; cbn [entry_low].
  - rewrite H3. split; [reflexivity|]. apply Z.mod_small. unfold T_IRQ0. lia.
  - rewrite H1. auto.
Qed.

(** The I/O APIC sends each interrupt where it was told to.  After [ioapicinit] and
    any calls of [ioapicenable], every entry of the table has the vector that [trap]
    expects for the interrupt; it is masked, and names no processor, if nothing
    enabled it, and otherwise it is not masked and names the processor of the last
    call for it. *)
Theorem ioapic_routes ioapicid l s : let n := Z.land (Z.shiftr (io_regs s REG_VER) 16) 0xFF in
  Forall (fun p => 0 <= fst p < 256 /\ 0 <= snd p < 256) l ->
  exists b s', (b <- ioapicinit ioapicid ;; ioapic_enables l ;;; ret b) s = Ok b s' /\
    forall i, 0 <= i <= n -> i < 224 ->
      let low := io_regs s' (REG_TABLE + 2 * i) in let high := io_regs s' (REG_TABLE + 2 * i + 1) in
      low mod 256 = T_IRQ0 + i /\ (Z.testbit low 16 = true <-> route l i = None) /\ Z.shiftr high 24 = default 0 (route l i).
Proof.
  intros n Hl. assert (Hn : 0 <= n < 256) by (unfold n; change 0xFF with (Z.ones 8); rewrite Z.land_ones by lia; apply Z.mod_pos_bound; lia).
  set (s0 := mkIo REG_ID (io_regs s)). destruct (ioapic_mask_ok (Z.to_nat (n + 1)) 0 s0 ltac:(lia) ltac:(lia)) as (s1 & E1 & R1); [intros i Hi; lia|].
  rewrite Z2Nat.id in R1 by lia. destruct (ioapic_enables_ok (0 + (n + 1)) l (fun _ => None) s1 Hl R1) as (s2 & E2 & R2). fold (route l) in R2.
  exists (negb (Z.shiftr (io_regs s REG_ID) 24 =? ioapicid)), s2. split.
  - assert (E : ioapicinit ioapicid s = Ok (negb (Z.shiftr (io_regs s REG_ID) 24 =? ioapicid)) s1).
    { unfold ioapicinit. unfold bind at 1. change (ioapicread REG_VER s) with (Ok (io_regs s REG_VER) (mkIo REG_VER (io_regs s))). cbv iota zeta. fold n.
      unfold bind at 1. change (ioapicread REG_ID (mkIo REG_VER (io_regs s))) with (Ok (io_regs s REG_ID) s0). cbv iota. now rewrite (bind_ok _ _ _ _ _ E1). }
    rewrite (bind_ok _ _ _ _ _ E), (bind_ok _ _ _ _ _ E2). reflexivity.
  - intros i Hi Hi2 low high. destruct (R2 i ltac:(lia)) as [El Eh]. subst low high. rewrite El, Eh. destruct (entry_bits (route l i) i ltac:(lia)) as [B1 B2]. rewrite B1, B2, bool_decide_eq_true.
    split_and!; [reflexivity | reflexivity|]. destruct (route l i) as [c|]; cbn [entry_high default]; [|reflexivity].
    rewrite Z.shiftr_shiftl_l, Z.sub_diag, Z.shiftl_0_r by lia. reflexivity.
Qed.

(** The keyboard, the disk and the serial port, as [main] enables them. *)
Lemma ioapic_routes_witness : let s := mkIo 0 (fun r => if r =? REG_VER then 0x170011 else 0) in
  exists b s', (b <- ioapicinit 0 ;; ioapic_enables [(IRQ_KBD, 0); (IRQ_IDE, 1); (IRQ_COM1, 0)] ;;; ret b) s = Ok b s' /\ Z.shiftr (io_regs s' (REG_TABLE + 2 * 14 + 1)) 24 = 1.
Proof.
  intros s. destruct (ioapic_routes 0 [(IRQ_KBD, 0); (IRQ_IDE, 1); (IRQ_COM1, 0)] s) as (b & s' & E & H).
  - repeat (apply List.Forall_cons; [cbv; repeat split; discriminate|]). apply List.Forall_nil.
  - exists b, s'. split; [exact E|]. destruct (H 14) as (_ & _ & R); [vm_compute; split; discriminate | lia | exact R].
Defined.

(** ** picirq.c *)

Definition IO_PIC1 : Z := 0x20.
Definition IO_PIC2 : Z := 0xA0.

(** The writes to ports, in order. *)
Definition picinit : list (Z * Z) := [(IO_PIC1 + 1, 0xFF); (IO_PIC2 + 1, 0xFF)].

(** ** The local APIC *)

Definition LA_ID : Z := 0x0020 / 4.
Definition VER : Z := 0x0030 / 4.
Definition TPR : Z := 0x0080 / 4.
Definition EOI : Z := 0x00B0 / 4.
Definition SVR : Z := 0x00F0 / 4.
Definition ENABLE : Z := 0x00000100.
Definition ESR : Z := 0x0280 / 4.
Definition ICRLO : Z := 0x0300 / 4.
Definition INIT : Z := 0x00000500.
Definition STARTUP : Z := 0x00000600.
Definition DELIVS : Z := 0x00001000.
Definition ASSERT : Z := 0x00004000.
Definition LEVEL : Z := 0x00008000.
Definition BCAST : Z := 0x00080000.
Definition ICRHI : Z := 0x0310 / 4.
Definition TIMER : Z := 0x0320 / 4.
Definition X1 : Z := 0x0000000B.
Definition PERIODIC : Z := 0x00020000.
Definition PCINT : Z := 0x0340 / 4.
Definition LINT0 : Z := 0x0350 / 4.
Definition LINT1 : Z := 0x0360 / 4.
Definition ERROR : Z := 0x0370 / 4.
Definition MASKED : Z := 0x00010000.
Definition TICR : Z := 0x0380 / 4.
Definition TDCR : Z := 0x03E0 / 4.
Definition IRQ_ERROR : Z := 19.

(** The registers, the writes in order, the reads left until the last interrupt is
    delivered, the memory and the writes to ports. *)
Record lapicst := mkLa { la_regs : Z -> Z; la_log : list (Z * Z); la_left : nat; la_mem : mem; la_out : list (Z * Z) }.

Section Lapic.
Variable latency : nat.
(** [lapic] is not 0. *)
Variable present : bool.

Definition lapicw (index value : Z) : M lapicst unit :=
  modify (fun s => mkLa (fun r => if r =? index then u32 value else la_regs s r) (la_log s ++ [(index, u32 value)])
                        (if index =? ICRLO then latency else la_left s) (la_mem s) (la_out s)).

(** A read of [ICRLO]. *)
Definition lapic_icrlo : M lapicst Z :=
  s <- gets id ;;
  modify (fun s => mkLa (la_regs s) (la_log s) (pred (la_left s)) (la_mem s) (la_out s)) ;;;
  ret (if (0 <? la_left s)%nat then Z.lor (la_regs s ICRLO) DELIVS else Z.land (la_regs s ICRLO) (Z.lnot DELIVS)).

Fixpoint lapic_delivered (fuel : nat) : M lapicst unit :=
  match fuel with
  | O => nofuel
  | S fuel => r <- lapic_icrlo ;; if truth (Z.land r DELIVS) then lapic_delivered fuel else ret tt
  end.

Definition lapicinit (fuel : nat) : M lapicst unit :=
  if negb present then ret tt else
  lapicw SVR (Z.lor ENABLE (T_IRQ0 + IRQ_SPURIOUS)) ;;;
  lapicw TDCR X1 ;;;
  lapicw TIMER (Z.lor PERIODIC (T_IRQ0 + IRQ_TIMER)) ;;;
  lapicw TICR 10000000 ;;;
  lapicw LINT0 MASKED ;;;
  lapicw LINT1 MASKED ;;;
  v <- gets (fun s => la_regs s VER) ;;
  (if 4 <=? Z.land (Z.shiftr v 16) 0xFF then lapicw PCINT MASKED else ret tt) ;;;
  lapicw ERROR (T_IRQ0 + IRQ_ERROR) ;;;
  lapicw ESR 0 ;;;
  lapicw ESR 0 ;;;
  lapicw EOI 0 ;;;
  lapicw ICRHI 0 ;;;
  lapicw ICRLO (Z.lor (Z.lor BCAST INIT) LEVEL) ;;;
  lapic_delivered fuel ;;;
  lapicw TPR 0.

Definition lapicid : M lapicst Z := if negb present then ret 0 else v <- gets (fun s => la_regs s LA_ID) ;; ret (Z.shiftr v 24).

Definition lapiceoi : M lapicst unit := if present then lapicw EOI 0 else ret tt.

Definition CMOS_PORT : Z := 0x70.

Definition la_outb (port v : Z) : M lapicst unit :=
  modify (fun s => mkLa (la_regs s) (la_log s) (la_left s) (la_mem s) (la_out s ++ [(port, u8 v)])).
Definition la_wr16 (a v : Z) : M lapicst unit :=
  modify (fun s => mkLa (la_regs s) (la_log s) (la_left s) (store16 (la_mem s) a v) (la_out s)).

(** Two startup interrupts. *)
Fixpoint startup_ipis (k : nat) (apicid addr : Z) : M lapicst unit :=
  match k with
  | O => ret tt
  | S k => lapicw ICRHI (Z.shiftl apicid 24) ;;; lapicw ICRLO (Z.lor STARTUP (Z.shiftr addr 12)) ;;; startup_ipis k apicid addr
  end.

Definition lapicstartap (apicid addr : Z) : M lapicst unit :=
  la_outb CMOS_PORT 0xF ;;;
  la_outb (CMOS_PORT + 1) 0x0A ;;;
  let wrv := P2V (Z.lor (Z.shiftl 0x40 4) 0x67) in
  la_wr16 wrv 0 ;;;
  la_wr16 (wrv + 2) (Z.shiftr addr 4) ;;;
  lapicw ICRHI (Z.shiftl apicid 24) ;;;
  lapicw ICRLO (Z.lor (Z.lor INIT LEVEL) ASSERT) ;;;
  lapicw ICRLO (Z.lor INIT LEVEL) ;;;
  startup_ipis 2 apicid addr.

(** *** What they set up *)

(** The interrupts that are sent: the writes of [ICRLO], each with the processor in
    [ICRHI] at that time. *)
Fixpoint sent (dest : Z) (log : list (Z * Z)) : list (Z * Z) :=
  match log with
  | [] => []
  | (r, v) :: log => if r =? ICRHI then sent (Z.shiftr v 24) log else if r =? ICRLO then (dest, v) :: sent dest log else sent dest log
  end.

Lemma lapic_delivered_ok fuel : forall s, (la_left s < fuel)%nat ->
  lapic_delivered fuel s = Ok tt (mkLa (la_regs s) (la_log s) 0 (la_mem s) (la_out s)).
Proof.
  induction fuel as [|fuel IH]; intros [regs log left m out] Hf; cbn [la_left] in Hf; [lia|]. cbn [lapic_delivered]. unfold lapic_icrlo, bind, gets, modify, id, ret. cbn [la_left la_regs la_log la_mem la_out].
  destruct left as [|left]; cbn [Nat.ltb Nat.leb pred].
  - assert (E : Z.land (Z.land (regs ICRLO) (Z.lnot DELIVS)) DELIVS = 0) by (rewrite <- Z.land_assoc; change (Z.land (Z.lnot DELIVS) DELIVS) with 0; apply Z.land_0_r). now rewrite E.
  - assert (E : truth (Z.land (Z.lor (regs ICRLO) DELIVS) DELIVS) = true).
    { apply truth_true. intros E. assert (B : Z.testbit (Z.land (Z.lor (regs ICRLO) DELIVS) DELIVS) 12 = true) by (rewrite Z.land_spec, Z.lor_spec; change (Z.testbit DELIVS 12) with true; now rewrite orb_true_r).
      rewrite E in B. discriminate. }
    rewrite E. rewrite IH by (cbn; lia). reflexivity.
Qed.

Lemma bind_lapicw {A} index value (k : unit -> M lapicst A) regs log left m out : index <> ICRLO ->
  bind (lapicw index value) k (mkLa regs log left m out) = k tt (mkLa (fun r => if r =? index then u32 value else regs r) (log ++ [(index, u32 value)]) left m out).
Proof. intros H. unfold bind, lapicw, modify. cbn [la_left]. now rewrite (proj2 (Z.eqb_neq _ _)) by exact H. Qed.

Lemma bind_icrlo {A} value (k : unit -> M lapicst A) regs log left m out :
  bind (lapicw ICRLO value) k (mkLa regs log left m out) = k tt (mkLa (fun r => if r =? ICRLO then u32 value else regs r) (log ++ [(ICRLO, u32 value)]) latency m out).
Proof. reflexivity. Qed.

(** [lapicinit] ends, with the clock's interrupt on, the lines of the processor masked
    and every priority accepted. *)
Lemma lapicinit_ok fuel s : (latency < fuel)%nat -> present = true ->
  exists s', lapicinit fuel s = Ok tt s' /\ la_regs s' TIMER = Z.lor PERIODIC (T_IRQ0 + IRQ_TIMER) /\ Z.testbit (la_regs s' TIMER) 16 = false /\ la_regs s' TICR = 10000000 /\
    la_regs s' LINT0 = MASKED /\ la_regs s' LINT1 = MASKED /\ Z.testbit (la_regs s' SVR) 8 = true /\ la_regs s' TPR = 0 /\
    (4 <= Z.land (Z.shiftr (la_regs s VER) 16) 0xFF -> la_regs s' PCINT = MASKED).
Proof.
  intros Hf Hp. destruct s as [regs log left m out]. unfold lapicinit. rewrite Hp. cbn [negb]. rewrite 6!bind_lapicw by discriminate. unfold bind at 1, gets at 1. cbn [la_regs].
  change (VER =? LINT1) with false. change (VER =? LINT0) with false. change (VER =? TICR) with false. change (VER =? TIMER) with false. change (VER =? TDCR) with false. change (VER =? SVR) with false. cbv iota.
  destruct (4 <=? Z.land (Z.shiftr (regs VER) 16) 0xFF) eqn:Ev; [rewrite bind_lapicw by discriminate | rewrite bind_ret].
  all: rewrite 5!bind_lapicw by discriminate; rewrite bind_icrlo; unfold bind at 1; rewrite (lapic_delivered_ok fuel) by exact Hf; cbn [la_regs la_log la_mem la_out].
  all: eexists; split; [reflexivity|]; cbn [la_regs]; split_and!; try reflexivity.
  intros H. apply Z.leb_gt in Ev. lia.
Qed.

Lemma startup_byte n : 0 <= n < 256 -> u32 (Z.lor STARTUP n) mod 256 = n.
Proof.
  intros Hn. assert (All : all_bytes (fun n => u32 (Z.lor STARTUP n) mod 256 =? n) = true) by (vm_compute; reflexivity).
  apply Z.eqb_eq. exact (all_bytes_spec _ n All Hn).
Qed.

(** [lapicstartap] resets the processor [apicid] and sends it two startup interrupts, to
    no other one; the page of their vector and the warm reset vector are both the
    start address. *)
Lemma lapicstartap_ok apicid addr s : 0 <= apicid < 256 -> 0 <= addr < 0x100000 -> addr mod 4096 = 0 ->
  exists s' v, lapicstartap apicid addr s = Ok tt s' /\
    la_log s' = la_log s ++ drop (length (la_log s)) (la_log s') /\
    sent 0 (drop (length (la_log s)) (la_log s')) = [(apicid, Z.lor (Z.lor INIT LEVEL) ASSERT); (apicid, Z.lor INIT LEVEL); (apicid, v); (apicid, v)] /\
    v mod 256 * 4096 = addr /\ load16 (la_mem s') 0x80000469 * 16 + load16 (la_mem s') 0x80000467 = addr.
Proof.
  intros Ha Hr Hm. set (v := u32 (Z.lor STARTUP (Z.shiftr addr 12))).
  destruct s as [regs log left m out].
  eexists _, v. split; [cbv [lapicstartap startup_ipis bind la_outb la_wr16 lapicw modify ret la_regs la_log la_left la_mem la_out]; reflexivity|]. cbn [la_log la_mem]. rewrite <- !app_assoc, drop_app_length. split; [reflexivity|].
  assert (Hs : Z.shiftr (u32 (Z.shiftl apicid 24)) 24 = apicid) by (rewrite Z.shiftl_mul_pow2, Z.shiftr_div_pow2, u32_small by (unfold two32; lia); apply Z.div_mul; lia).
  split_and!.
  - cbn [app sent]. change (ICRHI =? ICRHI) with true. change (ICRLO =? ICRHI) with false. change (ICRLO =? ICRLO) with true. cbv iota. rewrite Hs. reflexivity.
  - unfold v. assert (H : 0 <= Z.shiftr addr 12 < 256) by (rewrite Z.shiftr_div_pow2 by lia; change (2 ^ 12) with 4096; word_lia).
    rewrite startup_byte by exact H. rewrite Z.shiftr_div_pow2 by lia. change (2 ^ 12) with 4096. word_lia.
  - change (P2V (Z.lor (Z.shiftl 0x40 4) 0x67)) with 0x80000467. unfold load16, store16, store8. cbn [Z.add]. rewrite Z.shiftr_div_pow2 by lia. change (2 ^ 4) with 16.
    clear - Hr Hm. repeat case_bool; try lia. cbn. unfold u8. word_lia.
Qed.

End Lapic.

(** ** The clock *)

Record rtcdate := mkDate { second : Z; minute : Z; hour : Z; day : Z; month : Z; year : Z }.

#[export] Instance rtcdate_eq_dec : EqDecision rtcdate.
Proof. solve_decision. Defined.

Definition CMOS_STATA : Z := 0x0a.
Definition CMOS_STATB : Z := 0x0b.
Definition CMOS_UIP : Z := Z.shiftl 1 7.
Definition SECS : Z := 0x00.
Definition MINS : Z := 0x02.
Definition HOURS : Z := 0x04.
Definition DAY : Z := 0x07.
Definition MONTH : Z := 0x08.
Definition YEAR : Z := 0x09.

Section Cmos.
(** The registers of the clock at the time of the [t]th access. *)
Variable rtc : nat -> Z -> Z.

Definition cmos_read (reg : Z) : M nat Z := t <- gets id ;; modify Datatypes.S ;;; ret (rtc t reg).

Definition fill_rtcdate : M nat rtcdate :=
  s <- cmos_read SECS ;;
  m <- cmos_read MINS ;;
  h <- cmos_read HOURS ;;
  d <- cmos_read DAY ;;
  mo <- cmos_read MONTH ;;
  y <- cmos_read YEAR ;;
  ret (mkDate s m h d mo y).

(** Two equal dates, one after the other. *)
Fixpoint cmos_stable (fuel : nat) : M nat rtcdate :=
  match fuel with
  | O => nofuel
  | S fuel =>
      t1 <- fill_rtcdate ;;
      a <- cmos_read CMOS_STATA ;;
      if truth (Z.land a CMOS_UIP) then cmos_stable fuel else
      t2 <- fill_rtcdate ;;
      if bool_decide (t1 = t2) then ret t1 else cmos_stable fuel
  end.

(** [CONV] *)
Definition CONV (x : Z) : Z := Z.shiftr x 4 * 10 + Z.land x 0xf.

Definition cmostime (fuel : nat) : M nat rtcdate :=
  sb <- cmos_read CMOS_STATB ;;
  let bcd := Z.land sb (Z.shiftl 1 2) =? 0 in
  t1 <- cmos_stable fuel ;;
  let t1 := if (bcd : bool) then mkDate (CONV (second t1)) (CONV (minute t1)) (CONV (hour t1)) (CONV (day t1)) (CONV (month t1)) (CONV (year t1)) else t1 in
  ret (mkDate (second t1) (minute t1) (hour t1) (day t1) (month t1) (year t1 + 2000)).

(** The date that the clock shows at an access. *)
Definition shown (t : nat) : rtcdate := mkDate (rtc t SECS) (rtc t MINS) (rtc t HOURS) (rtc t DAY) (rtc t MONTH) (rtc t YEAR).

Lemma fill_ok t : fill_rtcdate t = Ok (mkDate (rtc t SECS) (rtc (1 + t) MINS) (rtc (2 + t) HOURS) (rtc (3 + t) DAY) (rtc (4 + t) MONTH) (rtc (5 + t) YEAR)) (6 + t)%nat.
Proof. reflexivity. Qed.

(** In [n] accesses from [t] on, the clock changes the date at most once. *)
Definition one_update (t n : nat) : Prop := exists u, forall k, (t <= k < t + n)%nat -> shown k = if (k <? u)%nat then shown t else shown (t + n - 1).

(** A date that stays for six accesses is read. *)
Lemma fill_const t d : (forall k, (t <= k < t + 6)%nat -> shown k = d) -> fill_rtcdate t = Ok d (6 + t)%nat.
Proof.
  intros H. rewrite fill_ok. f_equal. pose proof (H t ltac:(lia)) as H0. pose proof (H (1 + t)%nat ltac:(lia)) as H1. pose proof (H (2 + t)%nat ltac:(lia)) as H2.
  pose proof (H (3 + t)%nat ltac:(lia)) as H3. pose proof (H (4 + t)%nat ltac:(lia)) as H4. pose proof (H (5 + t)%nat ltac:(lia)) as H5. unfold shown in *. clear H. destruct d. congruence.
Qed.

(** A date that is read twice is one that the clock has shown. *)
Lemma read_twice t d : one_update t 13 -> fill_rtcdate t = Ok d (6 + t)%nat -> fill_rtcdate (7 + t)%nat = Ok d (13 + t)%nat ->
  exists k, (t <= k < t + 13)%nat /\ d = shown k.
Proof.
  intros (u & U) E1 E2. destruct (le_lt_dec u (7 + t)) as [Hu|Hu].
  - exists (t + 12)%nat. split; [lia|]. rewrite (fill_const (7 + t) (shown (t + 12))) in E2; [congruence|].
    intros k Hk. rewrite (U k ltac:(lia)), (proj2 (Nat.ltb_ge _ _)) by lia. f_equal. lia.
  - exists t. split; [lia|]. rewrite (fill_const t (shown t)) in E1; [congruence|]. intros k Hk. now rewrite (U k ltac:(lia)), (proj2 (Nat.ltb_lt _ _)) by lia.
Qed.

Lemma cmos_stable_step fuel t : cmos_stable (S fuel) t =
  if truth (Z.land (rtc (6 + t) CMOS_STATA) CMOS_UIP) then cmos_stable fuel (7 + t)%nat
  else match fill_rtcdate t, fill_rtcdate (7 + t)%nat with
       | Ok d1 _, Ok d2 _ => if bool_decide (d1 = d2) then Ok d1 (13 + t)%nat else cmos_stable fuel (13 + t)%nat
       | _, _ => NoFuel
       end.
Proof. rewrite !fill_ok. cbn [cmos_stable]. rewrite (bind_ok _ _ _ _ _ (fill_ok t)). unfold bind at 1, cmos_read, bind at 1, gets, modify. cbn. destruct (truth _); [reflexivity|]. rewrite (bind_ok _ _ _ _ _ (fill_ok _)). now destruct (bool_decide _). Qed.

(** Whatever [cmos_stable] returns is a date that the clock showed while it ran. *)
Lemma cmos_stable_shown fuel : forall t d t', (forall t0, one_update t0 13) -> cmos_stable fuel t = Ok d t' -> exists k, (t <= k < t')%nat /\ d = shown k.
Proof.
  induction fuel as [|fuel IH]; intros t d t' U E; [discriminate|]. rewrite cmos_stable_step in E. destruct (truth _).
  - destruct (IH _ _ _ U E) as (k & Hk & ->). exists k. split; [lia | reflexivity].
  - pose proof (fill_ok t) as F1. pose proof (fill_ok (7 + t)) as F2. rewrite F1, F2 in E. case_bool_decide as B.
    + injection E as <- <-. rewrite <- B in F2. destruct (read_twice t _ (U t) F1 F2) as (k & Hk & Ek). exists k. split; [lia | exact Ek].
    + destruct (IH _ _ _ U E) as (k & Hk & ->). exists k. split; [lia | reflexivity].
Qed.

(** It returns once the clock has stayed the same for 26 accesses. *)
Lemma cmos_stable_returns n fuel : forall t, (forall k, (n <= k < n + 26)%nat -> shown k = shown n /\ Z.land (rtc k CMOS_STATA) CMOS_UIP = 0) ->
  (t <= n + 12)%nat -> (n < t + fuel)%nat -> (0 < fuel)%nat -> exists d t', cmos_stable fuel t = Ok d t' /\ (t' <= n + 25)%nat.
Proof.
  induction fuel as [|fuel IH]; intros t S Ht Hf H0; [lia|]. rewrite cmos_stable_step. destruct (le_lt_dec n t) as [Hn|Hn].
  - rewrite (proj2 (S (6 + t)%nat ltac:(lia))). change (truth 0) with false. cbv iota.
    rewrite (fill_const t (shown n)), (fill_const (7 + t) (shown n)) by (intros k Hk; apply S; lia). rewrite bool_decide_true by reflexivity. eexists _, _. split; [reflexivity|lia].
  - destruct (truth _); [apply IH; auto; lia|]. rewrite !fill_ok. case_bool_decide; [|apply IH; auto; lia]. eexists _, _. split; [reflexivity|lia].
Qed.

(** BCD digits. *)
Definition to_bcd (v : Z) : Z := 16 * (v / 10) + v mod 10.

Lemma CONV_bcd v : 0 <= v < 100 -> CONV (to_bcd v) = v.
Proof.
  intros Hv. assert (All : all_bytes (fun v => (100 <=? v) || (CONV (to_bcd v) =? v)) = true) by (vm_compute; reflexivity).
  pose proof (all_bytes_spec _ v All ltac:(lia)) as H. apply orb_prop in H as [H|H]; [apply Z.leb_le in H; lia | now apply Z.eqb_eq].
Qed.

(** The clock in the mode that its status register B tells. *)
Definition encode (bcd : bool) (d : rtcdate) : rtcdate :=
  if bcd then mkDate (to_bcd (second d)) (to_bcd (minute d)) (to_bcd (hour d)) (to_bcd (day d)) (to_bcd (month d)) (to_bcd (year d)) else d.

Definition two_digits (d : rtcdate) : Prop :=
  0 <= second d < 100 /\ 0 <= minute d < 100 /\ 0 <= hour d < 100 /\ 0 <= day d < 100 /\ 0 <= month d < 100 /\ 0 <= year d < 100.

(** C39: [cmostime] reads a consistent date.  If the clock changes the date at most once
    within 13 accesses, what it returns is the date that the clock showed at some
    access of the call, in binary whichever way the clock encodes it, and with the
    century: never a mixture of the fields before and after a change, like 10:59 and 11:00
    read as 10:00.  It returns as soon as the clock has stayed the same, with no update
    in progress, for 26 accesses. *)
Theorem cmostime_consistent (date : nat -> rtcdate) t0 : (forall t, two_digits (date t)) -> (forall t, one_update t 13) ->
  (forall t, shown t = encode (Z.land (rtc t0 CMOS_STATB) (Z.shiftl 1 2) =? 0) (date t)) ->
  (forall fuel d t', cmostime fuel t0 = Ok d t' -> exists k, (t0 < k < t')%nat /\ d = mkDate (second (date k)) (minute (date k)) (hour (date k)) (day (date k)) (month (date k)) (year (date k) + 2000)) /\
  (forall n fuel, (t0 < n)%nat -> (n < fuel)%nat -> (forall k, (n <= k < n + 26)%nat -> shown k = shown n /\ Z.land (rtc k CMOS_STATA) CMOS_UIP = 0) ->
     exists d t', cmostime fuel t0 = Ok d t' /\ (t' <= n + 25)%nat).
Proof.
  intros D U Sh. unfold cmostime. set (bcd := Z.land (rtc t0 CMOS_STATB) (Z.shiftl 1 2) =? 0) in *.
  assert (E0 : cmos_read CMOS_STATB t0 = Ok (rtc t0 CMOS_STATB) (S t0)) by reflexivity. split.
  - intros fuel d t' E. rewrite (bind_ok _ _ _ _ _ E0) in E. cbv zeta in E. fold bcd in E. apply bind_inv_ok in E as (t1 & t2 & E & R). injection R as <- <-.
    destruct (cmos_stable_shown _ _ _ _ U E) as (k & Hk & ->). exists k. split; [lia|]. rewrite Sh. destruct (D k) as (D1 & D2 & D3 & D4 & D5 & D6).
    destruct bcd; cbn [encode second minute hour day month year]; [|reflexivity]. now rewrite !CONV_bcd.
  - intros n fuel Hn Hf S. destruct (cmos_stable_returns n fuel (1 + t0) S ltac:(lia) ltac:(lia) ltac:(lia)) as (d & t' & E & Ht). rewrite (bind_ok _ _ _ _ _ E0). cbv zeta. fold bcd.
    rewrite (bind_ok _ _ _ _ _ E). eexists _, t'. split; [reflexivity | exact Ht].
Qed.

End Cmos.

(** A clock in BCD that goes from 10:59:59 to 11:00:00 at the tenth access. *)
Definition sample_date (t : nat) : rtcdate := if (t <? 10)%nat then mkDate 59 59 10 31 12 25 else mkDate 0 0 11 31 12 25.
Definition sample_rtc (t : nat) (r : Z) : Z :=
  let d := encode true (sample_date t) in
  if r =? SECS then second d else if r =? MINS then minute d else if r =? HOURS then hour d else if r =? DAY then day d else if r =? MONTH then month d else if r =? YEAR then year d else 0.

Lemma cmostime_consistent_witness : exists d t', cmostime sample_rtc 100 0%nat = Ok d t' /\ hour d = 11.
Proof.
  destruct (cmostime_consistent sample_rtc sample_date 0%nat) as [C R].
  - intros t. unfold sample_date, two_digits. destruct (_ <? _)%nat; cbn; lia.
  - intros t. exists 10%nat. intros k Hk. assert (E : forall k, shown sample_rtc k = encode true (sample_date k)) by reflexivity. rewrite !E. unfold sample_date.
    destruct (Nat.ltb_spec k 10), (Nat.ltb_spec t 10), (Nat.ltb_spec (t + 13 - 1) 10); try reflexivity; lia.
  - intros t. unfold shown, sample_rtc. reflexivity.
  - destruct (R 20%nat 100%nat) as (d & t' & E & _); [lia | lia | |].
    + intros k Hk. unfold shown, sample_rtc, sample_date. rewrite (proj2 (Nat.ltb_ge _ _)) by lia. split; reflexivity.
    + exists d, t'. split; [exact E|]. vm_compute in E. injection E as <- <-. reflexivity.
Defined.
