(* ===== verification/Execmem.v ===== *)
(** The memory that [exec] builds: the pages of the new address space while
    [exec.c] fills it, and what is left when [exec] fails.

    [building] says of a directory that it holds an image of [sz] bytes all of whose
    pages came off the free list; every part of [exec] keeps it. *)

From S2P Require Import Prelude Mem Mmu Spinlock Kalloc PageTable Uvm Kvm Lazy FileApi Wunmap Block Bio Log Txn Fs File Syscall Sysfile Exec.

Section Building.
Context `{LK : Linker}.
Context {LKOK : LinkerOk}.

(** A page of the directory [d]: the directory itself, a page table, a frame, or a
    page that is free. *)
Definition claimed (m : mem) (d : Z) (l : list Z) (p : Z) : Prop :=
  owned m d l p \/ exists va, 0 <= va < KERNBASE /\ present (pte_of m d va) = true /\ frame_of m d va = p.

(** From [k0] with the free pages [l0] to [k] with [l]: [d] maps [sz] bytes. *)
Record building (k0 : kmem) (l0 : list Z) (d sz : Z) (k : kmem) (l : list Z) : Prop := {
  bd_free : kmem_wf k l;
  bd_dir : pgdir_wf (km_mem k) d l;
  bd_user : user_wf (km_mem k) d l;
  bd_low : forall x, x < sym_end -> km_mem k x = km_mem k0 x;
  bd_keep : forall q, page_ok q -> q ∉ l0 -> foreign (km_mem k) d l q /\ unframed (km_mem k) d q /\
    forall x, q <= x < q + 4096 -> km_mem k x = km_mem k0 x;
  bd_account : forall p, p ∈ l0 -> claimed (km_mem k) d l p;
  bd_sz : 0 <= sz < KERNBASE;
  bd_below : forall va, 0 <= va < PGROUNDUP sz -> present (pte_of (km_mem k) d va) = true;
  bd_above : forall va, PGROUNDUP sz <= va < KERNBASE -> pte_of (km_mem k) d va = 0;
  bd_kernel : forall va, KERNBASE <= va < two32 -> Z.land (pte_of (km_mem k) d va) PTE_U = 0 }.

(** The pages are as before: the same ones are free, and the others unchanged. *)
Definition released (k0 : kmem) (l0 : list Z) (k : kmem) : Prop :=
  exists l, kmem_wf k l /\ (forall p, p ∈ l <-> p ∈ l0) /\ (forall x, x < sym_end -> km_mem k x = km_mem k0 x) /\
    forall q, page_ok q -> q ∉ l0 -> forall x, q <= x < q + 4096 -> km_mem k x = km_mem k0 x.

Lemma released_refl k l : kmem_wf k l -> released k l k.
Proof. intros Hwf. exists l. split_and!; auto. Qed.

Lemma all_user va : 0 <= va < 0 + 4096 * Z.of_nat (npages 0 KERNBASE) -> 0 <= va < KERNBASE.
Proof. unfold npages, KERNBASE. word_lia. Qed.

(** [freevm] gives up an image that is being built. *)
Lemma building_freed k0 l0 d sz k l : building k0 l0 d sz k l -> exists k', freevm d k = Ok tt k' /\ released k0 l0 k'.
Proof.
  intros [F D U L K A _ _ _ _]. destruct (freevm_spec k d l F D U) as (k' & E & W & Kp & Lw). exists k'. split; [exact E|].
  exists (freevm_list (km_mem k) d l). split_and!; auto.
  - intros p. split.
    + intros Hp. destruct (decide (p ∈ l0)) as [|Hn]; [assumption|]. exfalso. assert (Hok : page_ok p) by (destruct W as (_ & _ & Hall & _); rewrite Forall_forall in Hall; auto).
      destruct (K p Hok Hn) as ((_ & Hl & Hd & Ht) & Hu & _). unfold freevm_list in Hp. rewrite elem_of_cons, !elem_of_app, !elem_of_rev in Hp.
      destruct Hp as [->|[(j & Hj & Hp & Ej)%tables_elem|[(va & Hva & Hp & Ef)%frames_elem|Hp]]]; try contradiction; try lia; [now apply (Ht j ltac:(lia) Hp)|].
      apply (Hu va); [apply all_user; lia | exact Hp | now symmetry].
    + intros Hp. destruct (A p Hp) as [Ho|(va & Hva & Hpr & <-)]; [now apply freevm_list_owned | now apply freevm_list_frame].
  - intros x Hx. now rewrite Lw, L.
  - intros q Hq Hn x Hx. destruct (K q Hq Hn) as (Hf & Hu & E1). rewrite (Kp q Hf); [now apply E1| |exact Hx].
    intros (va & Hva & Hp & Ef)%frames_elem. apply (Hu va); [apply all_user; lia | exact Hp | now symmetry].
Qed.

(** *** The start *)

Lemma bit2 v : Z.land v PTE_U = 0 <-> Z.testbit v 2 = false.
Proof.
  split; intros E.
  - assert (X : Z.testbit (Z.land v PTE_U) 2 = false) by now rewrite E. rewrite Z.land_spec in X. now rewrite andb_true_r in X.
  - apply Z.bits_inj'. intros n Hn. rewrite Z.bits_0, Z.land_spec. destruct (Z.eq_dec n 2) as [->|Hne]; [now rewrite E|].
    change PTE_U with (2 ^ 2). rewrite Z.pow2_bits_false by auto. apply andb_false_r.
Qed.

Lemma bit2_u32 v : Z.testbit (u32 v) 2 = Z.testbit v 2.
Proof. unfold u32. change two32 with (2 ^ 32). now rewrite Z.mod_pow2_bits_low by lia. Qed.

Lemma kpte_no_user k va : phys_start k mod 4096 = 0 -> Z.land (kperm k) PTE_U = 0 -> Z.land (kpte k va) PTE_U = 0.
Proof.
  intros Ha Hp. apply bit2. apply bit2 in Hp. unfold kpte. rewrite bit2_u32, !Z.lor_spec, Hp, bit2_u32. set (y := (u32 va - virt k) / 4096).
  assert (B : Z.testbit (phys_start k + y * 4096) 2 = false) by (apply Z.testbit_false; [lia|]; change (2 ^ 2) with 4; word_lia). now rewrite B.
Qed.

Lemma kmap_no_user va : Z.land (kmap_pte kmap 0 va) PTE_U = 0.
Proof.
  assert (Hd : V2P sym_data mod 4096 = 0) by (pose proof data_aligned; unfold V2P, KERNBASE, PGSIZE in *; word_lia).
  unfold kmap. cbn [kmap_pte]. repeat (destruct (kin _ va); [apply kpte_no_user; [|reflexivity]; first [exact Hd | reflexivity]|]). reflexivity.
Qed.

(** [setupkvm] starts an image of no bytes. *)
Lemma building_start k0 l0 : kmem_wf k0 l0 -> exists d k, setupkvm k0 = Ok d k /\ ((d = 0 /\ released k0 l0 k) \/ (d <> 0 /\ exists l, building k0 l0 d 0 k l)).
Proof.
  intros Hwf. destruct (setupkvm_spec k0 l0 Hwf) as (d & k & l & E & Hwf' & Hkeep & Hlow & Hnew & Hr). exists d, k. split; [exact E|].
  destruct Hr as [[Hd [D [used Eu] P K A Rm]]|(-> & _ & Hall)].
  - right. split; [exact Hd|]. exists l. assert (Hz : forall va, 0 <= va < KERNBASE -> pte_of (km_mem k) d va = 0) by (intros va Hva; rewrite P; now apply kmap_user).
    assert (Hnp : forall va, 0 <= va < KERNBASE -> present (pte_of (km_mem k) d va) = false) by (intros va Hva; now rewrite Hz).
    split; auto.
    + now apply user_wf_empty.
    + intros q Hq Hn. split; [now apply K|]. split; [|now apply Hkeep]. intros va Hva Hp. rewrite Hnp in Hp by exact Hva. discriminate.
    + intros p Hp. left. now apply A.
    + unfold KERNBASE. lia.
    + change (PGROUNDUP 0) with 0. intros va Hva. lia.
    + intros va _. rewrite P. apply kmap_no_user.
  - left. split; [reflexivity|]. exists l. split_and!; auto. intros p. split; [|apply Hall]. intros Hp. destruct (decide (p ∈ l0)) as [|Hn]; [assumption|].
    assert (Hok : page_ok p) by (destruct Hwf' as (_ & _ & Ha & _); rewrite Forall_forall in Ha; auto). now destruct (Hnew p Hok Hn).
Qed.

(** *** Growing *)

Lemma npages_up sz newsz : 0 <= sz <= newsz -> newsz < KERNBASE -> PGROUNDUP sz + 4096 * Z.of_nat (npages (PGROUNDUP sz) newsz) = PGROUNDUP newsz.
Proof.
  intros H1 H2. unfold KERNBASE in *. rewrite !PGROUNDUP_eq by (unfold two32; lia). unfold npages. word_lia.
Qed.

Lemma in_range a n va : 0 <= va < two32 -> in_pages a n va = true <-> a <= va < a + 4096 * Z.of_nat n.
Proof. intros H. unfold in_pages. rewrite u32_small, andb_true_iff, Z.leb_le, Z.ltb_lt by exact H. reflexivity. Qed.

Lemma building_grown k0 l0 d sz newsz k l k' l' : building k0 l0 d sz k l -> sz <= newsz < KERNBASE ->
  grown k k' d (PGROUNDUP sz) (npages (PGROUNDUP sz) newsz) l l' [] -> building k0 l0 d newsz k' l'.
Proof.
  intros [F D U L K A Sz B1 B2 B3] Hn [F' D' U' [used Eu] O N G T _ Ac Lw]. pose proof (npages_up sz newsz ltac:(lia) ltac:(lia)) as En.
  set (a := PGROUNDUP sz) in *. set (n := npages a newsz) in *. pose proof (PGROUNDUP_bound newsz) as [Hb _].
  assert (Hk : PGROUNDUP newsz <= KERNBASE) by (unfold KERNBASE in *; rewrite PGROUNDUP_eq by (unfold two32; lia); word_lia).
  assert (Hold : forall va, 0 <= va < KERNBASE -> present (pte_of (km_mem k) d va) = true -> pte_of (km_mem k') d va = pte_of (km_mem k) d va).
  { intros va Hva Hp. apply O. destruct (in_pages a n va) eqn:E; [|reflexivity]. apply in_range in E; [|unfold KERNBASE, two32 in *; lia]. rewrite B2 in Hp by lia. discriminate. }
  split; auto.
  - intros x Hx. now rewrite Lw, L.
  - intros q Hq Hql. destruct (K q Hq Hql) as (Hf & Hu & Hx). destruct (G q Hf) as [Hf' Hx']. split_and!; [exact Hf' | | intros x Hxq; now rewrite Hx', Hx].
    intros va Hva Hp E. destruct (in_pages a n va) eqn:Ei.
    + destruct (N va Ei) as (f & Hfl & Hok & Hpf & _). destruct (user_pte f Hok) as (_ & _ & _ & Ef). unfold frame_of in E. rewrite Hpf, Ef in E. destruct Hf as (_ & Hnl & _). congruence.
    + rewrite (O va Ei) in Hp. apply (Hu va Hva Hp). unfold frame_of in *. now rewrite <- (O va Ei).
  - intros p Hp. destruct (A p Hp) as [[->|[Hl|(i & Hi & Hpi & Ei)]]|(va & Hva & Hpr & Ef)].
    + left. now left.
    + destruct (Ac p Hl) as [H|[H|[H|(va & Hva & Ef)]]]; [left; right; now left | now apply not_elem_of_nil in H | left; right; now right|].
      right. exists (u32 va). assert (Hin : in_pages a n va = true) by exact Hva. unfold in_pages in Hva. bool_prop. split; [unfold KERNBASE in *; pose proof (u32_bound va); lia|]. split; [|now rewrite frame_u32].
      rewrite pte_u32. destruct (N va Hin) as (f & _ & Hok & Hpf & _). rewrite Hpf. now destruct (user_pte f Hok) as (_ & ? & _).
    + left. right. right. exists i. destruct (T i Hi Hpi) as [H1 H2]. split; [exact Hi|]. split; [exact H1 | congruence].
    + right. exists va. pose proof (Hold va Hva Hpr) as Eo. unfold frame_of in *. rewrite Eo. auto.
  - lia.
  - intros va Hva. rewrite <- En in Hva. destruct (Z.lt_ge_cases va a) as [Hlt|Hge].
    + rewrite Hold; [apply B1; lia | unfold KERNBASE in *; lia | apply B1; lia].
    + assert (Hin : in_pages a n va = true) by (apply in_range; [unfold KERNBASE, two32 in *; lia | lia]). destruct (N va Hin) as (f & _ & Hok & Hpf & _). rewrite Hpf. now destruct (user_pte f Hok) as (_ & ? & _).
  - intros va Hva. rewrite O; [apply B2; rewrite <- En in Hva; lia|]. apply not_true_is_false. intros Hin. apply in_range in Hin; unfold KERNBASE, two32 in *; lia.
  - intros va Hva. rewrite O; [now apply B3|]. apply not_true_is_false. intros Hin. apply in_range in Hin; unfold KERNBASE, two32 in *; lia.
Qed.

Lemma building_restored k0 l0 d sz k l k' l' : building k0 l0 d sz k l -> restored k k' d l l' -> building k0 l0 d sz k' l'.
Proof.
  intros [F D U L K A Sz B1 B2 B3] [F' D' U' P Ac G Lw T]. split; auto.
  - intros x Hx. now rewrite Lw, L.
  - intros q Hq Hql. destruct (K q Hq Hql) as (Hf & Hu & Hx). destruct (G q Hf) as [Hf' Hx']. split_and!; [exact Hf' | | intros x Hxq; now rewrite Hx', Hx].
    intros va Hva. unfold frame_of. rewrite P. now apply Hu.
  - intros p Hp. destruct (A p Hp) as [[->|[Hl|(i & Hi & Hpi & Ei)]]|(va & Hva & Hpr & Ef)].
    + left. now left.
    + destruct (Ac p Hl) as [H|H]; [left; right; now left | left; right; now right].
    + left. right. right. exists i. destruct (T i Hi Hpi) as [H1 H2]. split; [exact Hi|]. split; [exact H1 | congruence].
    + right. exists va. unfold frame_of in *. rewrite P. auto.
  - intros va Hva. rewrite P. now apply B1.
  - intros va Hva. rewrite P. now apply B2.
  - intros va Hva. rewrite P. now apply B3.
Qed.

(** [allocuvm] grows the image, or leaves it as it was. *)
Lemma building_alloc k0 l0 d sz k l newsz r k' : building k0 l0 d sz k l -> 0 <= newsz -> allocuvm d sz newsz k = Ok r k' ->
  exists l', building k0 l0 d (if r =? 0 then sz else r) k' l' /\ (r <> 0 -> newsz <= r).
Proof.
  intros B H0 E. pose proof B as [F D U L K A Sz B1 B2 B3]. destruct (Z.le_gt_cases KERNBASE newsz) as [Hk|Hk].
  - unfold allocuvm in E. rewrite (proj2 (Z.leb_le _ _)) in E by exact Hk. injection E as <- <-. exists l. split; [exact B | lia].
  - destruct (allocuvm_spec k d sz newsz l F D U ltac:(lia)) as (r1 & k1 & E1 & _ & C2 & C3).
    + intros va Hin. rewrite <- pte_u32. unfold in_pages in Hin. bool_prop. apply B2. destruct (Z.le_gt_cases sz newsz).
      * rewrite npages_up in * by lia. assert (PGROUNDUP newsz <= KERNBASE) by (unfold KERNBASE in *; rewrite PGROUNDUP_eq by (unfold two32; lia); word_lia). lia.
      * pose proof (PGROUNDUP_bounds sz ltac:(unfold KERNBASE in *; lia)). assert (npages (PGROUNDUP sz) newsz = 0%nat) as En by (unfold npages; word_lia). rewrite En in *. lia.
    + rewrite E in E1. injection E1 as <- <-. destruct (Z.lt_ge_cases newsz sz) as [Hlt|Hge].
      * destruct (C2 Hlt Hk) as [-> ->]. rewrite (proj2 (Z.eqb_neq _ _)) by lia. exists l. split; [exact B | lia].
      * destruct (C3 ltac:(lia)) as (l' & [[-> Hg]|(-> & Hr & _)]); exists l'.
        -- destruct (Z.eqb_spec newsz 0) as [->|]; [|split; [apply (building_grown k0 l0 d sz newsz k l); auto; lia | lia]].
           assert (sz = 0) as -> by lia. split; [apply (building_grown k0 l0 d 0 0 k l); auto; unfold KERNBASE; lia | lia].
        -- split; [now apply (building_restored k0 l0 d sz k l) | lia].
Qed.

(** *** Filling pages *)

(** What is stored in a frame of the image touches nothing else. *)
Lemma building_write k0 l0 d sz k l va m' : building k0 l0 d sz k l -> 0 <= va < KERNBASE -> present (pte_of (km_mem k) d va) = true -> mem_ok m' ->
  (forall x, x < frame_of (km_mem k) d va \/ frame_of (km_mem k) d va + 4096 <= x -> m' x = km_mem k x) -> building k0 l0 d sz (set_mem m' k) l.
Proof.
  intros [F D U L K A Sz B1 B2 B3] Hva Hp Hm Hx. pose proof (uw_frame _ _ _ U va Hva Hp) as (Hok & Hfl & Hfd & Hft). set (f := frame_of (km_mem k) d va) in *.
  assert (Hpage : forall q, page_ok q -> q <> f -> forall x, q <= x < q + 4096 -> m' x = km_mem k x) by (intros q Hq Hne x Hxq; pose proof (page_disjoint q f Hq Hok Hne); apply Hx; lia).
  assert (Hds : dir_same (km_mem k) m' d).
  { apply (dir_same_frame _ _ d l D); [apply Hpage; auto; apply D|]. intros i Hi Hpi. apply Hpage; [apply (pw_tab _ _ _ D i Hi Hpi) | now apply Hft]. }
  destruct (dir_same_wf _ _ d l Hds D U) as (D1 & U1 & Hf1 & Hu1). destruct Hds as [Hpde Hpte]. split; cbn [km_mem set_mem]; auto.
  - apply kmem_wf_set_mem; [exact F | exact Hm|]. intros q x Hq. apply Hpage; [|congruence]. destruct F as (_ & _ & Ho & _). rewrite Forall_forall in Ho. auto.
  - intros x Hxl. destruct Hok as (_ & ? & _). rewrite Hx by lia. now apply L.
  - intros q Hq Hql. destruct (K q Hq Hql) as (Hqf & Hqu & Hqx). split; [now apply Hf1|]. split; [now apply Hu1|].
    intros x Hxq. rewrite (Hpage q Hq) by (auto; intros ->; now apply (Hqu va)). now apply Hqx.
  - intros p0 Hp0. destruct (A p0 Hp0) as [[->|[Hl|(i & Hi & Hpi & Ei)]]|(va' & Hva' & Hpr & Ef)].
    + left. now left.
    + left. right. now left.
    + left. right. right. exists i. unfold pt_of. rewrite Hpde by exact Hi. auto.
    + right. exists va'. unfold frame_of. rewrite Hpte. auto.
  - intros v Hv. rewrite Hpte. auto.
  - intros v Hv. rewrite Hpte. auto.
  - intros v Hv. rewrite Hpte. auto.
Qed.

(** The same for bytes that fit into the frame. *)
Lemma building_bytes k0 l0 d sz k l va o bs : building k0 l0 d sz k l -> 0 <= va < KERNBASE -> present (pte_of (km_mem k) d va) = true ->
  0 <= o -> o + Z.of_nat (length bs) <= 4096 -> building k0 l0 d sz (set_mem (store_bytes (km_mem k) (frame_of (km_mem k) d va + o) bs) k) l.
Proof.
  intros B Hva Hp Ho Hl. apply (building_write _ _ _ _ _ _ va); auto; [apply mem_ok_store_bytes, (bd_free _ _ _ _ _ _ B)|].
  intros x Hx. apply store_bytes_out. lia.
Qed.

Lemma pte_load m d va : walk m d va <> 0 -> load32 m (walk m d va) = pte_of m d va.
Proof. unfold walk, pte_of, walk. destruct (present _); congruence. Qed.

(** [uva2ka] finds only frames of the image. *)
Lemma uva2ka_frame k0 l0 d sz k l va pa k' : building k0 l0 d sz k l -> 0 <= va < two32 -> uva2ka d va k = Ok pa k' ->
  k' = k /\ (pa = 0 \/ (va < KERNBASE /\ present (pte_of (km_mem k) d va) = true /\ pa = frame_of (km_mem k) d va)).
Proof.
  intros B Hva E. unfold uva2ka in E. rewrite (bind_ok _ _ _ _ _ (walkpgdir_lookup d va k)) in E. destruct (Z.eqb_spec (walk (km_mem k) d va) 0) as [|Hw]; [discriminate|].
  rewrite (bind_ok (rd32 _) _ k (load32 (km_mem k) (walk (km_mem k) d va)) k eq_refl) in E. rewrite pte_load in E by exact Hw.
  destruct (Z.eqb_spec (Z.land (pte_of (km_mem k) d va) PTE_P) 0) as [|Hp]; [injection E as <- <-; auto|].
  destruct (Z.eqb_spec (Z.land (pte_of (km_mem k) d va) PTE_U) 0) as [|Hu]; [injection E as <- <-; auto|]. injection E as <- <-. split; [reflexivity|]. right.
  split_and!; [|unfold present; now apply truth_true|reflexivity]. destruct (Z.lt_ge_cases va KERNBASE); [assumption|]. elim Hu. apply (bd_kernel _ _ _ _ _ _ B). lia.
Qed.

(** [copyout] writes into the image or fails. *)
Lemma building_copyout k0 l0 d sz fuel : forall k l va bs r k', building k0 l0 d sz k l -> 0 <= va < two32 -> copyout_bytes fuel d va bs k = Ok r k' -> building k0 l0 d sz k' l.
Proof.
  induction fuel as [|fuel IH]; intros k l va bs r k' B Hva E; [discriminate|]. cbn [copyout_bytes] in E. destruct (0 <? Z.of_nat (length bs)); [|now injection E as <- <-].
  cbn [negb] in E. assert (Hd : 0 <= PGROUNDDOWN va < two32 /\ 0 <= va - PGROUNDDOWN va < 4096) by (rewrite PGROUNDDOWN_eq, u32_small by exact Hva; unfold two32 in *; word_lia).
  apply bind_inv_ok in E as (pa & k1 & E1 & E). destruct (uva2ka_frame _ _ _ _ _ _ _ _ _ B (proj1 Hd) E1) as [-> Hpa]. destruct (Z.eqb_spec pa 0) as [|Hn]; [now injection E as <- <-|].
  destruct Hpa as [|(Hk & Hp & ->)]; [contradiction|]. cbv zeta in E. apply bind_inv_ok in E as ([] & k2 & E2 & E). injection E2 as <-. refine (IH _ l _ _ _ _ _ (u32_bound _) E).
  apply (building_bytes _ _ _ _ _ _ (PGROUNDDOWN va)); auto; [lia | lia|]. unfold PGSIZE. rewrite length_take. destruct (Z.ltb_spec (Z.of_nat (length bs)) (4096 - (va - PGROUNDDOWN va))); lia.
Qed.

Lemma guard_pte v : 0 <= v < two32 -> let w := Z.land v (Z.lnot PTE_U) in 0 <= w < two32 /\ present w = present v /\ PTE_ADDR w = PTE_ADDR v.
Proof.
  intros Hv w. assert (Ew : u32 w = w) by now apply u32_land. split; [rewrite <- Ew; apply u32_bound|]. unfold present, PTE_ADDR. rewrite Ew, (u32_small v) by exact Hv. subst w.
  rewrite <- !Z.land_assoc. split; f_equal.
Qed.

(** [clearpteu] takes the guard page away from the user. *)
Lemma building_guard k0 l0 d sz k l va u k' : building k0 l0 d sz k l -> 0 <= va < PGROUNDUP sz -> clearpteu d va k = Ok u k' -> building k0 l0 d sz k' l.
Proof.
  intros B Hva E. pose proof B as [F D U L K A Sz B1 B2 B3]. assert (Hup : PGROUNDUP sz <= KERNBASE) by (unfold KERNBASE in *; rewrite PGROUNDUP_eq by (unfold two32; lia); word_lia).
  unfold clearpteu in E. rewrite (bind_ok _ _ _ _ _ (walkpgdir_lookup d va k)) in E. destruct (Z.eqb_spec (walk (km_mem k) d va) 0) as [|Hw]; [discriminate|].
  rewrite (bind_ok (rd32 _) _ k (load32 (km_mem k) (walk (km_mem k) d va)) k eq_refl), pte_load in E by exact Hw. injection E as _ <-. pose proof (B1 va Hva) as Hp.
  assert (Hpd : present (pde_of (km_mem k) d (PDX va)) = true) by (unfold walk in Hw; destruct (present _); congruence).
  set (v := pte_of (km_mem k) d va) in *. set (w := Z.land v (Z.lnot PTE_U)). destruct (pte_write k d va w l F D Hpd) as (F' & St & Hpte). set (m' := store32 _ _ _) in *.
  assert (Hv : 0 <= v < two32) by (apply pte_bound, F). destruct (guard_pte v Hv) as (W1 & W2 & W3). fold w in W1, W2, W3.
  assert (Hsame : forall va', present (pte_of m' d va') = present (pte_of (km_mem k) d va') /\ PTE_ADDR (pte_of m' d va') = PTE_ADDR (pte_of (km_mem k) d va')).
  { intros va'. rewrite Hpte. destruct (same_page va va') eqn:Es; [|auto]. rewrite u32_small by exact W1. rewrite <- (same_page_pte _ _ _ _ Es). auto. }
  assert (Hfr : forall va', frame_of m' d va' = frame_of (km_mem k) d va') by (intros va'; unfold frame_of; now rewrite (proj2 (Hsame va'))).
  assert (Hother : forall va', (PGROUNDUP sz <= va' < two32) -> pte_of m' d va' = pte_of (km_mem k) d va').
  { intros va' Hva'. rewrite Hpte. destruct (same_page va va') eqn:Es; [|reflexivity]. exfalso. unfold same_page in Es. apply Z.eqb_eq in Es.
    rewrite !u32_small in Es by (unfold KERNBASE, two32 in *; lia). destruct (PGROUNDUP_bounds sz ltac:(lia)) as [Hal _]. word_lia. }
  split; cbn [km_mem set_mem]; auto; [apply St | | | | | | |].
  - split.
    + intros va' Hva' Hp'. rewrite Hfr. rewrite (proj1 (Hsame va')) in Hp'. now apply (ps_foreign _ _ _ _ _ St), (uw_frame _ _ _ U).
    + intros v1 v2 H1 H2 P1 P2. rewrite !Hfr. rewrite (proj1 (Hsame v1)) in P1. rewrite (proj1 (Hsame v2)) in P2. now apply (uw_inj _ _ _ U).
  - intros x Hx. rewrite (ps_low _ _ _ _ _ St) by exact Hx. now apply L.
  - intros q Hq Hql. destruct (K q Hq Hql) as (Hqf & Hqu & Hqx). destruct (ps_foreign _ _ _ _ _ St q Hqf) as [Hqf' Ex]. split; [exact Hqf'|]. split; [|intros x Hx; now rewrite Ex, Hqx].
    intros va' Hva' Hp'. rewrite Hfr. rewrite (proj1 (Hsame va')) in Hp'. now apply Hqu.
  - intros p0 Hp0. destruct (A p0 Hp0) as [[->|[Hl|(i & Hi & Hpi & Ei)]]|(va' & Hva' & Hpr & Ef)].
    + left. now left.
    + left. right. now left.
    + left. right. right. exists i. destruct (ps_tables _ _ _ _ _ St i Hi Hpi) as [H1 H2]. split; [exact Hi|]. split; [exact H1 | congruence].
    + right. exists va'. rewrite Hfr, (proj1 (Hsame va')). auto.
  - intros va' Hva'. rewrite (proj1 (Hsame va')). now apply B1.
  - intros va' Hva'. rewrite Hother by (unfold KERNBASE, two32 in *; lia). now apply B2.
  - intros va' Hva'. rewrite Hother by lia. now apply B3.
Qed.

End Building.

(** ** The parts of [exec] *)

Section Exec.
Context `{LK : Linker}.
Context {LKOK : LinkerOk}.
Context {C : Type} `{BlockCache C}.
Variable pid : Z.
Variable dev_read : Z -> option (nat -> Z -> M (fstate C) (Z * list Z)).
(** A device does not deliver more than it was asked for. *)
Hypothesis dev_read_short : forall major f ip n s r s', dev_read major = Some f -> f ip n s = Ok r s' -> Z.of_nat (length (snd r)) <= Z.max 0 n.
Variables pr tf : Z.

Lemma on_fs_mem {A} (m : M (fstate C) A) (s : xstate C) a s' : on_fs m s = Ok a s' -> x_mem s' = x_mem s.
Proof. unfold on_fs, zoom. destruct (m _); try discriminate. now intros [= <- <-]. Qed.

Lemma on_pages_mem {A} (m : M kmem A) (s : xstate C) a s' : on_pages m s = Ok a s' -> m (x_mem s) = Ok a (x_mem s').
Proof. unfold on_pages, zoom. destruct (m _); try discriminate. now intros [= <- <-]. Qed.

Lemma on_fs_inv {A} (m : M (fstate C) A) (s : xstate C) a s' : on_fs m s = Ok a s' -> m (x_fs s) = Ok a (x_fs s').
Proof. unfold on_fs, zoom. destruct (m _); try discriminate. now intros [= <- <-]. Qed.

Lemma fs_begin_mem (s : xstate C) u s' : fs_begin s = Ok u s' -> x_mem s' = x_mem s.
Proof. intros E. unfold fs_begin in E. apply bind_inv_ok in E as (b & s1 & E1 & E). apply on_fs_mem in E1. destruct b; [now injection E as <- <-|discriminate]. Qed.

(** [readi] delivers at most the bytes it was asked for. *)
Lemma readi_loop_length fuel ip : forall off n (s : fstate C) bs s', readi_loop fuel ip off n s = Ok bs s' -> 0 <= n -> Z.of_nat (length bs) = n.
Proof.
  induction fuel as [|fuel IH]; intros off n s bs s' E Hn; [discriminate|]. cbn [readi_loop] in E. destruct (Z.ltb_spec 0 n); [|injection E as <- <-; cbn; lia].
  apply bind_inv_ok in E as (addr & s1 & _ & E). apply bind_inv_ok in E as (bp & s2 & _ & E). apply bind_inv_ok in E as (dd & s3 & _ & E). cbv zeta in E.
  apply bind_inv_ok in E as (u & s4 & _ & E). apply bind_inv_ok in E as (rest & s5 & E5 & E). injection E as <- <-.
  assert (Hm : 0 <= Z.min n (BSIZE - off mod BSIZE) <= n) by (pose proof (Z.mod_pos_bound off BSIZE ltac:(unfold BSIZE; lia)); lia).
  apply IH in E5; [|lia]. rewrite length_app, length_map, length_seqZ. lia.
Qed.

Lemma readi_length ip off n (s : fstate C) r s' : readi dev_read ip off n s = Ok r s' -> 0 <= off < two32 -> 0 <= n < two31 -> Z.of_nat (length (snd r)) <= n.
Proof.
  intros E Ho Hn. unfold readi in E. apply bind_inv_ok in E as (nd & s1 & _ & E). destruct (i_type nd =? T_DEV).
  - destruct (_ || _); [injection E as <- <-; cbn; lia|]. destruct (dev_read (i_major nd)) as [f|] eqn:Ed; [|injection E as <- <-; cbn; lia].
    apply (dev_read_short _ _ _ _ _ _ _ Ed) in E. rewrite s32_small in E by (unfold two31 in *; lia). lia.
  - destruct ((i_size nd <? off) || (u32 (off + n) <? off)) eqn:Eb; [injection E as <- <-; cbn; lia|]. apply orb_false_elim in Eb as [E1 E2]. apply Z.ltb_ge in E1, E2. cbv zeta in E.
    apply bind_inv_ok in E as (bs & s2 & E3 & E). injection E as <- <-. cbn [snd].
    assert (Hw : u32 (off + n) = off + n) by (unfold two31, two32 in *; word_lia). rewrite Hw in *. destruct (Z.ltb_spec (i_size nd) (off + n)); apply readi_loop_length in E3; lia.
Qed.

Section Image.
Variable k0 : kmem.
Variable l0 : list Z.
Variable d : Z.

(** The image has [sz] bytes. *)
Definition image_of (sz : Z) (s : xstate C) : Prop := exists l, building k0 l0 d sz (x_mem s) l.

Lemma image_same sz s s' : x_mem s' = x_mem s -> image_of sz s -> image_of sz s'.
Proof. unfold image_of. now intros ->. Qed.

Lemma loaduvm_loop_keeps fuel addr ip off n sz : forall i s r s', image_of sz s -> 0 <= i -> 0 <= addr -> addr mod 4096 = 0 -> i mod 4096 = 0 -> addr + n <= sz -> n < two31 ->
  loaduvm_loop dev_read fuel d addr ip off n i s = Ok r s' -> image_of sz s'.
Proof.
  induction fuel as [|fuel IH]; intros i s r s' I Hi Ha Hal Hil Hn Hnb E; [discriminate|]. cbn [loaduvm_loop] in E. destruct (Z.ltb_spec i n) as [Hlt|]; [|now injection E as <- <-].
  pose proof I as (l & B). pose proof (bd_sz _ _ _ _ _ _ B) as Hsz.
  assert (Hva : u32 (addr + i) = addr + i) by (apply u32_small; unfold KERNBASE, two32 in *; lia). rewrite Hva in E.
  apply bind_inv_ok in E as (pte & s1 & E1 & E). apply on_pages_mem in E1. rewrite walkpgdir_lookup in E1. injection E1 as <- M1. destruct (Z.eqb_spec (walk (km_mem (x_mem s)) d (addr + i)) 0) as [|Hw]; [discriminate|].
  apply bind_inv_ok in E as (v & s2 & E2 & E). apply on_pages_mem in E2. injection E2 as <- M2. rewrite <- M1, pte_load in E by exact Hw. cbv zeta in E. fold (frame_of (km_mem (x_mem s)) d (addr + i)) in E.
  apply bind_inv_ok in E as (q & s3 & E3 & E). unfold readi_to in E3. apply bind_inv_ok in E3 as (rr & s4 & E4 & E3). pose proof (on_fs_mem _ _ _ _ E4) as M4. apply on_fs_inv in E4.
  apply bind_inv_ok in E3 as ([] & s5 & E5 & E3). apply on_pages_mem in E5. injection E5 as M5. injection E3 as <- ->.
  assert (Hp : present (pte_of (km_mem (x_mem s)) d (addr + i)) = true) by (apply (bd_below _ _ _ _ _ _ B); pose proof (PGROUNDUP_bounds sz Hsz); lia).
  assert (I3 : image_of sz s3).
  { exists l. rewrite <- M5, M4, <- M2, <- M1. rewrite <- (Z.add_0_r (frame_of _ _ _)). apply (building_bytes _ _ _ _ _ _ (addr + i)); auto; [lia | lia|].
    apply readi_length in E4; [unfold PGSIZE in *; destruct (Z.ltb_spec (n - i) 4096); lia | apply u32_bound | unfold PGSIZE, two31 in *; destruct (Z.ltb_spec (n - i) 4096); lia]. }
  destruct (negb _); [now injection E as <- <-|]. unfold PGSIZE in E. rewrite u32_small in E by (unfold two31, two32 in *; lia). refine (IH _ _ _ _ I3 _ Ha Hal _ Hn Hnb E); [lia | word_lia].
Qed.

Lemma load_segments_keeps n ip : forall off sz s r s', image_of sz s -> load_segments dev_read n d ip off sz s = Ok r s' ->
  (forall sz', r = Some sz' -> image_of sz' s') /\ exists sz', image_of sz' s'.
Proof.
  induction n as [|n IH]; intros off sz s r s' I E; cbn [load_segments] in E; [injection E as <- <-; split; [intros ? [= <-]; exact I | eauto]|].
  assert (None_ok : forall sz s r s', image_of sz s -> @ret (xstate C) (option Z) None s = Ok r s' -> (forall sz', r = Some sz' -> image_of sz' s') /\ exists sz', image_of sz' s')
    by (intros sz0 s0 r0 s0' I0 [= <- <-]; split; [discriminate | eauto]).
  apply bind_inv_ok in E as (q & s1 & E1 & E). apply on_fs_mem in E1. apply (image_same sz s s1 E1) in I. destruct (negb (fst q =? ph_size)); [now apply (None_ok sz s1)|]. cbv zeta in E.
  set (ph := parse_ph (chars (snd q))) in *. destruct (negb (ph_type ph =? ELF_PROG_LOAD)); [exact (IH _ _ _ _ _ I E)|].
  destruct (Z.ltb_spec (ph_memsz ph) (ph_filesz ph)); [now apply (None_ok sz s1)|]. destruct (Z.ltb_spec (u32 (ph_vaddr ph + ph_memsz ph)) (ph_vaddr ph)); [now apply (None_ok sz s1)|].
  apply bind_inv_ok in E as (sz' & s2 & E2 & E). apply on_pages_mem in E2. destruct I as (l & B). destruct (building_alloc _ _ _ _ _ _ _ _ _ B (proj1 (u32_bound _)) E2) as (l' & B' & Hr).
  destruct (Z.eqb_spec sz' 0) as [|Hz]; [apply (None_ok sz s2); [exists l'; exact B' | exact E]|]. assert (I2 : image_of sz' s2) by (exists l'; exact B'). specialize (Hr Hz).
  destruct (truth (ph_vaddr ph mod PGSIZE)) eqn:Ea; [now apply (None_ok sz' s2)|]. apply truth_false in Ea. apply bind_inv_ok in E as (ld & s3 & E3 & E).
  assert (Hb : 0 <= ph_vaddr ph < two32 /\ 0 <= ph_memsz ph < two32) by (split; apply load32_bound; intros x; apply u8_bound).
  assert (I3 : image_of sz' s3).
  { unfold loaduvm in E3. unfold PGSIZE in *. rewrite Ea in E3. cbn [truth Z.eqb negb] in E3. pose proof (bd_sz _ _ _ _ _ _ B').
    assert (Hw : ph_vaddr ph + ph_memsz ph <= sz') by (unfold two32 in *; word_lia).
    refine (loaduvm_loop_keeps _ _ _ _ _ _ _ _ _ _ I2 _ _ _ _ _ _ E3); try reflexivity; try lia. unfold KERNBASE, two31 in *. lia. }
  destruct (ld <? 0); [now apply (None_ok sz' s3) | exact (IH _ _ _ _ _ I3 E)].
Qed.

Lemma copyout_list_keeps sz va bs s r s' : image_of sz s -> 0 <= va < two32 -> copyout_list d va bs s = Ok r s' -> image_of sz s'.
Proof. intros (l & B) Hva E. apply on_pages_mem in E. exists l. exact (building_copyout _ _ _ _ _ _ _ _ _ _ _ B Hva E). Qed.

Lemma arg_sp_bound sp a : 0 <= arg_sp sp a < two32.
Proof. unfold arg_sp. rewrite <- u32_land by apply u32_bound. apply u32_bound. Qed.

Lemma push_args_keeps n sz : forall argv sp s r s', image_of sz s -> push_args n d sp argv s = Ok r s' -> image_of sz s'.
Proof.
  induction n as [|n IH]; intros [|a argv] sp s r s' I E; cbn [push_args] in E; try (now injection E as <- <-). cbv zeta in E.
  apply bind_inv_ok in E as (q & s1 & E1 & E). apply (copyout_list_keeps sz) in E1; [|exact I|apply arg_sp_bound]. destruct (q <? 0); [now injection E as <- <-|].
  apply bind_inv_ok in E as (rest & s2 & E2 & E). injection E as <- <-. exact (IH _ _ _ _ _ E1 E2).
Qed.

Lemma exec_stack_keeps sz argv s r s' : image_of sz s -> exec_stack d sz argv s = Ok r s' ->
  (forall sz' sp, r = Some (sz', sp) -> image_of sz' s') /\ exists sz', image_of sz' s'.
Proof.
  intros I E. unfold exec_stack in E. cbv zeta in E. destruct I as (l & B). pose proof (bd_sz _ _ _ _ _ _ B) as Hsz. destruct (PGROUNDUP_bounds sz Hsz) as [Hal Hup].
  apply bind_inv_ok in E as (sz' & s1 & E1 & E). apply on_pages_mem in E1. set (a := PGROUNDUP sz) in *.
  assert (Ha : u32 (a + 2 * PGSIZE) = a + 8192) by (unfold PGSIZE, KERNBASE in *; apply u32_small; unfold two32; lia). rewrite Ha in E1.
  destruct (Z.lt_ge_cases a KERNBASE) as [Hk|Hk].
  - assert (Ea : PGROUNDUP a = a) by (rewrite PGROUNDUP_eq by (unfold KERNBASE, two32 in *; lia); word_lia).
    assert (B1 : building k0 l0 d a (x_mem s) l) by (destruct B as [F D U L K A Sz B1 B2 B3]; split; rewrite ?Ea; [exact F | exact D | exact U | exact L | exact K | exact A | lia | exact B1 | exact B2 | exact B3]).
    destruct (building_alloc k0 l0 d a (x_mem s) l (a + 8192) sz' (x_mem s1) B1 ltac:(lia) E1) as (l1 & B2 & Hr). destruct (Z.eqb_spec sz' 0) as [->|Hz]; [injection E as <- <-; split; [discriminate | exists a, l1; exact B2]|].
    specialize (Hr Hz). apply bind_inv_ok in E as ([] & s2 & E2 & E). apply on_pages_mem in E2. pose proof (bd_sz _ _ _ _ _ _ B2) as Hsz2. destruct (PGROUNDUP_bounds sz' Hsz2) as [_ Hup2].
    assert (Hg : u32 (sz' - 2 * PGSIZE) = sz' - 8192) by (unfold PGSIZE, KERNBASE in *; apply u32_small; unfold two32; lia). rewrite Hg in E2.
    assert (I2 : image_of sz' s2) by (exists l1; refine (building_guard _ _ _ _ _ _ _ _ _ B2 _ E2); lia).
    apply bind_inv_ok in E as (q & s3 & E3 & E). apply (push_args_keeps _ sz') in E3; [|exact I2]. destruct q as [[sp sps]|]; [|injection E as <- <-; split; [discriminate | eauto]].
    apply bind_inv_ok in E as (w & s4 & E4 & E). apply (copyout_list_keeps sz') in E4; [|exact E3|apply u32_bound]. injection E as <- <-. split; [|eauto].
    intros z y. destruct (w <? 0); [discriminate|]. now intros [= <- _].
  - unfold allocuvm in E1. rewrite (proj2 (Z.leb_le _ _)) in E1 by lia. injection E1 as <- M1. injection E as <- <-. split; [discriminate|]. exists sz, l. rewrite <- M1. exact B.
Qed.

End Image.

(** ** The commit *)

Lemma sub_free k0 l0 d sz k l : building k0 l0 d sz k l -> forall p, p ∈ l -> p ∈ l0.
Proof.
  intros B p Hp. destruct (decide (p ∈ l0)) as [|Hn]; [assumption|]. exfalso. destruct (bd_free _ _ _ _ _ _ B) as (_ & _ & Ho & _). rewrite Forall_forall in Ho.
  destruct (bd_keep _ _ _ _ _ _ B p (Ho p Hp) Hn) as ((_ & Hl & _) & _). contradiction.
Qed.

(** All pages of the image were free. *)
Lemma claimed_was_free k0 l0 d sz k l p : building k0 l0 d sz k l -> claimed (km_mem k) d l p -> p ∈ l0.
Proof.
  intros B Hc. destruct (decide (p ∈ l0)) as [|Hn]; [assumption|]. exfalso.
  assert (Hok : page_ok p).
  { destruct Hc as [[->|[Hl|(i & Hi & Hp & <-)]]|(va & Hva & Hp & <-)]; [apply (bd_dir _ _ _ _ _ _ B) | elim Hn; exact (sub_free _ _ _ _ _ _ B p Hl) | now apply (pw_tab _ _ _ (bd_dir _ _ _ _ _ _ B)) | now apply (uw_frame _ _ _ (bd_user _ _ _ _ _ _ B))]. }
  destruct (bd_keep _ _ _ _ _ _ B p Hok Hn) as ((_ & Hl & Hd & Ht) & Hu & _).
  destruct Hc as [[->|[Hl'|(i & Hi & Hp & Ei)]]|(va & Hva & Hp & Ef)]; [contradiction | contradiction | now apply (Ht i) | now apply (Hu va)].
Qed.

Lemma in_freevm_list m d l p : p ∈ freevm_list m d l <-> claimed m d l p.
Proof.
  split.
  - unfold freevm_list. rewrite elem_of_cons, !elem_of_app, !elem_of_rev. intros [->|[(j & Hj & Hp & Ej)%tables_elem|[(va & Hva & Hp & Ef)%frames_elem|Hp]]]; try lia.
    + left. now left.
    + left. right. right. exists j. split; [lia|]. auto.
    + right. exists va. split; [now apply all_user|]. auto.
    + left. right. now left.
  - intros [Ho|(va & Hva & Hpr & <-)]; [now apply freevm_list_owned | now apply freevm_list_frame].
Qed.

(** A directory whose pages are not touched, while the free pages become [l']. *)
Lemma space_kept m m' d l l' : pgdir_wf m d l -> user_wf m d l -> (forall q, claimed m d [] q -> (q ∉ l') /\ forall x, q <= x < q + 4096 -> m' x = m x) ->
  dir_same m m' d /\ pgdir_wf m' d l' /\ user_wf m' d l'.
Proof.
  intros D U K. assert (Ct : forall i, 0 <= i < 1024 -> present (pde_of m d i) = true -> claimed m d [] (pt_of m d i)) by (intros i Hi Hp; left; right; right; eauto).
  assert (Hds : dir_same m m' d) by (apply (dir_same_frame _ _ d l D); [apply K; left; now left | intros i Hi Hp; now apply K, Ct]). pose proof Hds as [Hpde Hpte].
  split; [exact Hds|]. split.
  - split; [apply D | apply K; left; now left | |].
    + intros i Hi. unfold pt_of. rewrite Hpde by exact Hi. intros Hp. destruct (pw_tab _ _ _ D i Hi Hp) as (H1 & H2 & _). split; [exact H1|]. split; [exact H2 | now apply K, Ct].
    + intros i j Hi Hj. unfold pt_of. rewrite !Hpde by auto. now apply (pw_inj _ _ _ D).
  - split.
    + intros va Hva. unfold frame_of. rewrite Hpte. intros Hp. destruct (uw_frame _ _ _ U va Hva Hp) as (H1 & _ & H3 & H4). split; [exact H1|]. split; [apply K; right; eauto|]. split; [exact H3|].
      intros i Hi. unfold pt_of. rewrite Hpde by exact Hi. now apply H4.
    + intros va va' Hva Hva'. unfold frame_of. rewrite !Hpte. now apply (uw_inj _ _ _ U).
Qed.

(** The process runs the image [d] of [sz] bytes from [entry] on with the stack at
    [sp]; the pages of the old image and the free ones are those of the new image
    and the free ones now, and nothing else has changed. *)
Record replaced (kst : Z) (k0 : kmem) (l0 : list Z) (d0 d sz entry sp : Z) (k : kmem) (l : list Z) : Prop := {
  rp_free : kmem_wf k l;
  rp_dir : pgdir_wf (km_mem k) d l;
  rp_user : user_wf (km_mem k) d l;
  rp_pages : forall p, claimed (km_mem k) d l p <-> claimed (km_mem k0) d0 l0 p;
  rp_below : forall va, 0 <= va < PGROUNDUP sz -> present (pte_of (km_mem k) d va) = true;
  rp_above : forall va, PGROUNDUP sz <= va < KERNBASE -> pte_of (km_mem k) d va = 0;
  rp_pgdir : load32 (km_mem k) (pr + P_pgdir) = d;
  rp_sz : load32 (km_mem k) (pr + P_sz) = sz;
  rp_eip : load32 (km_mem k) (tf + tf_eip) = u32 entry;
  rp_esp : load32 (km_mem k) (tf + tf_esp) = u32 sp;
  rp_keep : forall q, page_ok q -> ~ claimed (km_mem k0) d0 l0 q -> q <> kst -> forall x, q <= x < q + 4096 -> km_mem k x = km_mem k0 x;
  rp_low : forall x, x < sym_end -> x < pr + P_sz \/ pr + P_pgdir + 4 <= x -> km_mem k x = km_mem k0 x }.

Definition commit_words (d sz entry sp : Z) (m : mem) : mem :=
  store32 (store32 (store32 (store32 m (pr + P_pgdir) d) (pr + P_sz) sz) (tf + tf_eip) entry) (tf + tf_esp) sp.

Lemma claimed_same m m' d l q : dir_same m m' d -> claimed m' d l q <-> claimed m d l q.
Proof.
  intros [Hpde Hpte]. unfold claimed, owned, frame_of. split; (intros [[->|[Hl|(i & Hi & Hp & Ei)]]|(va & Hva & Hp & Ef)]; [left; now left | left; right; now left | |]).
  - unfold pt_of in Ei. rewrite Hpde in Hp, Ei by exact Hi. left. right. right. exists i. auto.
  - rewrite Hpte in Hp, Ef. right. exists va. auto.
  - left. right. right. exists i. unfold pt_of. rewrite Hpde by exact Hi. auto.
  - right. exists va. rewrite Hpte. auto.
Qed.

Lemma claimed_split m d l q : claimed m d l q <-> claimed m d [] q \/ q ∈ l.
Proof.
  unfold claimed, owned. split.
  - intros [[->|[Hl|Ht]]|Hf]; auto 6.
  - intros [[[->|[Hn|Ht]]|Hf]|Hl]; auto 6. now apply not_elem_of_nil in Hn.
Qed.

Lemma unclaimed_foreign m d l q : page_ok q -> ~ claimed m d l q -> foreign m d l q /\ q ∉ frames m d 0 (npages 0 KERNBASE).
Proof.
  intros Hq Hn. split.
  - split; [exact Hq|]. split; [intros Hl; apply Hn; left; right; now left|]. split; [intros ->; apply Hn; left; now left|]. intros i Hi Hp <-. apply Hn. left. right. right. eauto.
  - intros (va & Hva & Hp & Ef)%frames_elem. apply Hn. right. exists va. split; [now apply all_user|]. auto.
Qed.

Section Commit.
Variable kst : Z.
Hypothesis pr_ok : proc_ok pr.
Hypothesis kst_ok : page_ok kst.
Hypothesis tf_in : kst <= tf /\ tf + 76 <= kst + 4096.

Lemma commit_frame d sz entry sp m x : x < pr \/ pr + 8 <= x -> x < kst \/ kst + 4096 <= x -> commit_words d sz entry sp m x = m x.
Proof.
  intros H1 H2. unfold commit_words, P_pgdir, P_sz, tf_eip, tf_esp. rewrite !store32_frame by lia. reflexivity.
Qed.

Lemma commit_page d sz entry sp m q : page_ok q -> q <> kst -> forall x, q <= x < q + 4096 -> commit_words d sz entry sp m x = m x.
Proof.
  intros Hq Hne x Hx. pose proof (page_disjoint q kst Hq kst_ok Hne). destruct pr_ok as [_ Hp], Hq as (_ & Hs & _). apply commit_frame; unfold P_size in *; lia.
Qed.

Lemma commit_loads d sz entry sp m : let m1 := commit_words d sz entry sp m in
  load32 m1 (pr + P_pgdir) = u32 d /\ load32 m1 (pr + P_sz) = u32 sz /\ load32 m1 (tf + tf_eip) = u32 entry /\ load32 m1 (tf + tf_esp) = u32 sp.
Proof.
  destruct pr_ok as [_ Hp], kst_ok as (_ & Hs & _). unfold commit_words, P_pgdir, P_sz, P_size, tf_eip, tf_esp in *. cbv zeta.
  split_and!; repeat rewrite load32_store32_ne by lia; apply load32_store32_eq.
Qed.

Lemma mem_ok_commit d sz entry sp m : mem_ok m -> mem_ok (commit_words d sz entry sp m).
Proof. intros Hm. unfold commit_words. now repeat apply mem_ok_store32. Qed.

Variables (k0 : kmem) (l0 : list Z) (d0 : Z).
Hypothesis wf0 : kmem_wf k0 l0.
Hypothesis dir0 : pgdir_wf (km_mem k0) d0 l0.
Hypothesis user0 : user_wf (km_mem k0) d0 l0.
Hypothesis kst_apart : ~ claimed (km_mem k0) d0 l0 kst.

Lemma old_page q : claimed (km_mem k0) d0 [] q -> page_ok q /\ (q ∉ l0) /\ q <> kst.
Proof.
  intros Hc. assert (Hcl : claimed (km_mem k0) d0 l0 q) by (destruct Hc as [[->|[Hn|Ht]]|Hf]; [left; now left | now apply not_elem_of_nil in Hn | left; right; now right | now right]).
  assert (Hne : q <> kst) by (intros ->; contradiction). clear Hcl. destruct Hc as [[->|[Hn|(i & Hi & Hp & <-)]]|(va & Hva & Hp & <-)].
  - split; [apply dir0|]. split; [apply dir0 | exact Hne].
  - now apply not_elem_of_nil in Hn.
  - destruct (pw_tab _ _ _ dir0 i Hi Hp) as (H1 & _ & H3). auto.
  - destruct (uw_frame _ _ _ user0 va Hva Hp) as (H1 & H2 & _). auto.
Qed.

Lemma exec_commit d sz entry sp k l : building k0 l0 d sz k l ->
  let m1 := commit_words d sz entry sp (km_mem k) in
  exists k' l', freevm d0 (set_mem m1 k) = Ok tt k' /\ replaced kst k0 l0 d0 d sz entry sp k' l'.
Proof.
  intros B m1. pose proof B as [F D U L K A Sz B1 B2 B3].
  assert (Old : forall q, page_ok q -> (q ∉ l0) -> q <> kst -> forall x, q <= x < q + 4096 -> m1 x = km_mem k0 x).
  { intros q Hq Hn Hne x Hx. unfold m1. rewrite (commit_page _ _ _ _ _ q) by auto. now apply (K q Hq Hn). }
  destruct (space_kept (km_mem k0) m1 d0 l0 l dir0 user0) as (Hds0 & D0 & U0).
  { intros q Hc. destruct (old_page q Hc) as (H1 & H2 & H3). split; [|now apply Old]. intros Hl. now apply H2, (sub_free _ _ _ _ _ _ B). }
  assert (Knew : forall q, claimed (km_mem k) d [] q -> page_ok q /\ q ∈ l0 /\ (q ∉ l) /\ q <> kst).
  { intros q Hc. assert (Hl0 : q ∈ l0) by (apply (claimed_was_free _ _ _ _ _ _ q B); destruct Hc as [[->|[Hn|Ht]]|Hf]; [left; now left | now apply not_elem_of_nil in Hn | left; right; now right | now right]).
    split; [destruct wf0 as (_ & _ & Ho & _); rewrite Forall_forall in Ho; auto|]. split; [exact Hl0|]. split; [|intros ->; apply kst_apart; left; right; now left].
    destruct Hc as [[->|[Hn|(i & Hi & Hp & <-)]]|(va & Hva & Hp & <-)]; [apply D | now apply not_elem_of_nil in Hn | now apply (pw_tab _ _ _ D) | now apply (uw_frame _ _ _ U)]. }
  destruct (space_kept (km_mem k) m1 d l l D U) as (Hds1 & D1 & U1).
  { intros q Hc. destruct (Knew q Hc) as (H1 & _ & H3 & H4). split; [exact H3 | now apply commit_page]. }
  assert (F1 : kmem_wf (set_mem m1 k) l).
  { apply kmem_wf_set_mem; [exact F | apply mem_ok_commit, F|]. intros q x Hq. assert (Hq0 : q ∈ l0) by exact (sub_free _ _ _ _ _ _ B q Hq).
    apply commit_page; [destruct wf0 as (_ & _ & Ho & _); rewrite Forall_forall in Ho; auto | intros ->; apply kst_apart; left; right; now left]. }
  destruct (freevm_spec (set_mem m1 k) d0 l F1 D0 U0) as (k' & E & W & Kp & Lw). cbn [km_mem set_mem] in *.
  assert (Cl : forall q, claimed m1 d0 l q <-> claimed (km_mem k0) d0 [] q \/ q ∈ l) by (intros q; rewrite claimed_split, (claimed_same _ _ d0 [] q Hds0); reflexivity).
  assert (Same : forall q, page_ok q -> ~ claimed m1 d0 l q -> forall x, q <= x < q + 4096 -> km_mem k' x = m1 x).
  { intros q Hq Hn. destruct (unclaimed_foreign _ _ _ _ Hq Hn) as [H1 H2]. now apply Kp. }
  assert (New : forall q, claimed m1 d [] q -> ~ claimed m1 d0 l q).
  { intros q Hc. rewrite (claimed_same _ _ d [] q Hds1) in Hc. destruct (Knew q Hc) as (_ & H2 & H3 & _). rewrite Cl. intros [Ho|Hl]; [now apply old_page in Ho as (_ & ? & _) | contradiction]. }
  destruct (space_kept m1 (km_mem k') d l (freevm_list m1 d0 l) D1 U1) as (Hds2 & D2 & U2).
  { intros q Hc. rewrite in_freevm_list. split; [now apply New|]. apply Same; [|now apply New]. rewrite (claimed_same _ _ d [] q Hds1) in Hc. now apply Knew. }
  exists k', (freevm_list m1 d0 l). split; [exact E|]. assert (Hpt : forall va, pte_of (km_mem k') d va = pte_of (km_mem k) d va) by (intros va; rewrite (proj2 Hds2); apply Hds1).
  assert (Low : forall x, x < sym_end -> km_mem k' x = m1 x) by exact Lw.
  assert (Tf : forall x, kst <= x < kst + 4096 -> km_mem k' x = m1 x).
  { apply (Same kst kst_ok). rewrite Cl. intros [Ho|Hl]; [now apply old_page in Ho as (_ & _ & ?) | apply kst_apart; left; right; left; exact (sub_free _ _ _ _ _ _ B _ Hl)]. }
  destruct (commit_loads d sz entry sp (km_mem k)) as (W1 & W2 & W3 & W4). fold m1 in W1, W2, W3, W4. pose proof pr_ok as [_ Hpr]. unfold P_size in Hpr.
  assert (Hl : forall o, 0 <= o -> o + 4 <= 392 -> load32 (km_mem k') (pr + o) = load32 m1 (pr + o)) by (intros o H1 H2; apply load32_ext; intros x Hx; apply Low; lia).
  assert (Ht : forall o, 0 <= o -> o + 4 <= 76 -> load32 (km_mem k') (tf + o) = load32 m1 (tf + o)) by (intros o H1 H2; apply load32_ext; intros x Hx; apply Tf; lia).
  split; auto.
  - intros p. rewrite claimed_split, (claimed_same _ _ d [] p Hds2), (claimed_same _ _ d [] p Hds1), in_freevm_list, Cl, (claimed_split (km_mem k0) d0 l0 p). split.
    + intros [Hc|[Ho|Hc]]; [right; now apply Knew | now left | right; exact (sub_free _ _ _ _ _ _ B _ Hc)].
    + intros [Ho|Hl0]; [auto|]. destruct (proj1 (claimed_split _ _ _ _) (A p Hl0)); auto.
  - intros va Hva. rewrite Hpt. auto.
  - intros va Hva. rewrite Hpt. auto.
  - rewrite Hl, W1 by (unfold P_pgdir; lia). apply u32_small. exact (page_ok_u32 _ (pw_dir _ _ _ D)).
  - rewrite Hl, W2 by (unfold P_sz; lia). apply u32_small. unfold KERNBASE, two32 in *. lia.
  - rewrite Ht, W3 by (unfold tf_eip; lia). reflexivity.
  - rewrite Ht, W4 by (unfold tf_esp; lia). reflexivity.
  - intros q Hq Hn Hne x Hx. rewrite claimed_split in Hn. rewrite (Same q Hq); [|rewrite Cl; intros [Ho|Hlq]; [tauto | apply Hn; right; exact (sub_free _ _ _ _ _ _ B _ Hlq)] | exact Hx].
    apply (Old q); auto.
  - intros x Hx Hp. rewrite Low by exact Hx. unfold m1. destruct kst_ok as (_ & ? & _). rewrite commit_frame by (unfold P_sz, P_pgdir in *; lia). now apply L.
Qed.

(** [bad]: with no directory, or with an image. *)
Lemma exec_bad_ends (s : xstate C) b s' pgdir oip : exec_bad pid pgdir oip s = Ok b s' -> (pgdir = 0 /\ released k0 l0 (x_mem s)) \/ (pgdir <> 0 /\ exists sz, image_of k0 l0 pgdir sz s) ->
  b = -1 /\ released k0 l0 (x_mem s').
Proof.
  intros E Hs. unfold exec_bad in E. apply bind_inv_ok in E as ([] & s1 & E1 & E). assert (R1 : released k0 l0 (x_mem s1)).
  { destruct Hs as [[-> Hr]|(Hn & sz & l & B)]; [now injection E1 as <-|]. rewrite (proj2 (truth_true pgdir) Hn) in E1. apply on_pages_mem in E1.
    destruct (building_freed _ _ _ _ _ _ B) as (k' & E' & R'). rewrite E' in E1. injection E1 as <-. exact R'. }
  apply bind_inv_ok in E as ([] & s2 & E2 & E). injection E as <- <-. split; [reflexivity|]. destruct oip as [ip|]; [|now injection E2 as <-].
  apply bind_inv_ok in E2 as (u & s3 & E3 & E4). apply on_fs_mem in E3. apply on_fs_mem in E4. now rewrite E4, E3.
Qed.

Lemma exec_fails (s : xstate C) r s' pgdir oip : (b <- exec_bad pid pgdir oip ;; ret (b, None : option (list Z))) s = Ok r s' ->
  (pgdir = 0 /\ released k0 l0 (x_mem s)) \/ (pgdir <> 0 /\ exists sz, image_of k0 l0 pgdir sz s) -> fst r = -1 /\ released k0 l0 (x_mem s').
Proof. intros E Hs. apply bind_inv_ok in E as (b & s1 & E1 & E). injection E as <- <-. now apply exec_bad_ends in E1. Qed.

Lemma on_pages_wr a v (s : xstate C) u s' : on_pages (wr32 a v) s = Ok u s' -> x_mem s' = set_mem (store32 (km_mem (x_mem s)) a v) (x_mem s).
Proof. intros E. apply on_pages_mem in E. now injection E as _ <-. Qed.

(** The writes of the commit, and [freevm]. *)
Lemma exec_commits d sz entry sp oldpgdir (x : Z * option (list Z)) (s : xstate C) r s' : image_of k0 l0 d sz s -> oldpgdir = d0 ->
  (on_pages (wr32 (pr + P_pgdir) d) ;;; on_pages (wr32 (pr + P_sz) sz) ;;; on_pages (wr32 (tf + tf_eip) entry) ;;; on_pages (wr32 (tf + tf_esp) sp) ;;;
   on_pages (freevm oldpgdir) ;;; ret x) s = Ok r s' -> r = x /\ exists l, replaced kst k0 l0 d0 d sz entry sp (x_mem s') l.
Proof.
  intros (l & B) -> E. apply bind_inv_ok in E as (? & s1 & E1%on_pages_wr & E). apply bind_inv_ok in E as (? & s2 & E2%on_pages_wr & E). apply bind_inv_ok in E as (? & s3 & E3%on_pages_wr & E).
  apply bind_inv_ok in E as (? & s4 & E4%on_pages_wr & E). apply bind_inv_ok in E as (? & s5 & E5%on_pages_mem & E). injection E as <- <-. split; [reflexivity|].
  rewrite E1 in E2. rewrite E2 in E3. rewrite E3 in E4. cbn [km_mem set_mem] in E4. destruct (exec_commit d sz entry sp (x_mem s) l B) as (k' & l' & Ef & R).
  exists l'. assert (Em : x_mem s4 = set_mem (commit_words d sz entry sp (km_mem (x_mem s))) (x_mem s)) by exact E4. rewrite Em, Ef in E5. injection E5 as _ <-. exact R.
Qed.

(** C20: [exec] replaces the memory of a process or leaves it alone.  If it fails, at
    whatever point, with a missing or malformed file, a segment that does not fit, too
    many arguments or no memory left, it returns -1, every page that was free is
    free again and no byte of any other page nor of the process has changed.  If it
    succeeds, the process has a directory of its own that maps the new image
    and nothing above it, its trap frame starts the program, and each page of the old
    image and of the free list is now either a page of the new image or free:
    none is lost, used twice or still used by the old image. *)
Theorem exec_all_or_nothing cwd path argv (s : xstate C) r s' : x_mem s = k0 -> load32 (km_mem k0) (pr + P_pgdir) = d0 ->
  exec pid dev_read pr tf cwd path argv s = Ok r s' ->
  (fst r = -1 /\ released k0 l0 (x_mem s')) \/
  (fst r = 0 /\ exists d sz entry sp l, replaced kst k0 l0 d0 d sz entry sp (x_mem s') l).
Proof.
  intros Es Ed E. unfold exec in E. apply bind_inv_ok in E as ([] & s1 & E1%fs_begin_mem & E). apply bind_inv_ok in E as (nm & s2 & E2%on_fs_mem & E).
  assert (Rel : released k0 l0 k0) by now apply released_refl. assert (M2 : x_mem s2 = k0) by congruence.
  destruct nm as [ip|]; [|apply bind_inv_ok in E as (u & s3 & E3%on_fs_mem & E); injection E as <- <-; left; split; [reflexivity | now rewrite E3, M2]].
  apply bind_inv_ok in E as (u & s3 & E3%on_fs_mem & E). apply bind_inv_ok in E as (h & s4 & E4%on_fs_mem & E). assert (M4 : x_mem s4 = k0) by congruence. cbv zeta in E.
  destruct (_ || _); [left; apply exec_fails in E; [exact E | left; split; [reflexivity | now rewrite M4]]|].
  apply bind_inv_ok in E as (d & s5 & E5%on_pages_mem & E). rewrite M4 in E5. destruct (building_start k0 l0 wf0) as (d' & k & Ek & Hk). rewrite E5 in Ek. injection Ek as <- <-.
  destruct Hk as [[-> Hr]|(Hd & l & B)]; [left; apply exec_fails in E; [exact E | left; auto]|]. rewrite (proj2 (Z.eqb_neq _ _) Hd) in E.
  assert (I5 : image_of k0 l0 d 0 s5) by (exists l; exact B). apply bind_inv_ok in E as (ld & s6 & E6 & E). apply (load_segments_keeps k0 l0) in E6 as [L6 A6]; [|exact I5].
  destruct ld as [sz|]; [|left; apply exec_fails in E; [exact E | right; auto]]. specialize (L6 sz eq_refl). apply bind_inv_ok in E as (v & s7 & E7%on_fs_mem & E). apply bind_inv_ok in E as (w & s8 & E8%on_fs_mem & E).
  assert (I8 : image_of k0 l0 d sz s8) by (apply (image_same _ _ _ _ s6); [congruence | exact L6]). apply bind_inv_ok in E as (st & s9 & E9 & E). apply (exec_stack_keeps k0 l0) in E9 as [L9 A9]; [|exact I8].
  destruct st as [[sz' sp]|]; [|left; apply exec_fails in E; [exact E | right; auto]]. specialize (L9 sz' sp eq_refl).
  apply bind_inv_ok in E as (old & s10 & E10%on_pages_mem & E). injection E10 as <- M10. apply exec_commits in E as [-> [l' R]].
  - right. split; [reflexivity|]. exists d, sz', (elf_entry (parse_elf (chars (snd h)))), sp, l'. exact R.
  - apply (image_same _ _ _ _ s9); [congruence | exact L9].
  - destruct L9 as (l9 & B9). rewrite (load32_ext _ (km_mem k0)); [exact Ed|]. intros x Hx. apply (bd_low _ _ _ _ _ _ B9). destruct pr_ok as [_ Hp]. unfold P_pgdir, P_size in *. lia.
Qed.

End Commit.
End Exec.

(** *** A program, and memory for its directory only *)

#[local] Instance empty_cache : BlockCache unit := {
  bread _ := fault "no disk"; bwrite _ := fault "no disk"; brelse _ := fault "no disk"; bdata _ _ _ := 0;
  set_bdata _ _ s := s; set_bdirty _ s := s; bblockno _ _ := 0 }.

(** A device that delivers the header of an ELF file without segments. *)
Definition sample_header : list Z := [127; 69; 76; 70] ++ repeat 0 48.
Definition elf_device (major : Z) : option (nat -> Z -> M (fstate unit) (Z * list Z)) :=
  if major =? 1 then Some (fun _ n => ret (n, take (Z.to_nat n) sample_header)) else None.

Definition sample_exec_mem : kmem := set_mem (store32 (fun _ => 0) (0x80110000 + P_pgdir) 0x80210000) (sample_kmem 0x80200000).
Definition sample_exec : xstate unit :=
  mkX [] (mkF (mkL (mkLog 2 30 0 0 0 (fun _ => 0)) tt) (mkSb 0 0 0 0 0 0 0) [mkInode 1 1 1 (Bio.mkSleep 0 0) 1 T_DEV 1 0 1 0 (fun _ => 0)]) ∅ sample_exec_mem.

Lemma sample_exec_wf : @kmem_wf sample_linker sample_exec_mem [0x80200000].
Proof.
  apply (@kmem_wf_store sample_linker (sample_kmem 0x80200000)); [apply sample_free, (sample_page 0); lia|]. intros p Hp. apply list_elem_of_singleton in Hp. subst p. unfold P_pgdir. lia.
Qed.

Lemma sample_exec_dir : @pgdir_wf sample_linker (km_mem sample_exec_mem) 0x80210000 [0x80200000] /\ (forall va, pte_of (km_mem sample_exec_mem) 0x80210000 va = 0).
Proof.
  destruct (@empty_dir sample_linker (km_mem sample_exec_mem) 0x80210000 [0x80200000]) as (D & P & _); [apply (sample_page 16); lia | now apply not_in_1 | | auto].
  intros i Hi. unfold pde_of. cbn [sample_exec_mem km_mem set_mem]. rewrite load32_store32_ne by (unfold P_pgdir; lia). reflexivity.
Qed.

Definition end_state {S A} (s : S) (o : outcome S A) : S := match o with Ok _ s' => s' | _ => s end.
Definition end_value {S A} (o : outcome S A) : option A := match o with Ok a _ => Some a | _ => None end.

Lemma end_ok {S A} (s : S) (o : outcome S A) a : end_value o = Some a -> o = Ok a (end_state s o).
Proof. destruct o; cbn; congruence. Qed.

Lemma exec_all_or_nothing_witness :
  (@exec sample_linker unit empty_cache 7 elf_device 0x80110000 0x80220F00 0 [] [] sample_exec) = Ok (-1, None) (end_state sample_exec (@exec sample_linker unit empty_cache 7 elf_device 0x80110000 0x80220F00 0 [] [] sample_exec)) /\
  @released sample_linker sample_exec_mem [0x80200000] (x_mem (end_state sample_exec (@exec sample_linker unit empty_cache 7 elf_device 0x80110000 0x80220F00 0 [] [] sample_exec))).
Proof.
  destruct sample_exec_dir as [D P]. assert (Er : (@exec sample_linker unit empty_cache 7 elf_device 0x80110000 0x80220F00 0 [] [] sample_exec) = Ok (-1, None) (end_state sample_exec (@exec sample_linker unit empty_cache 7 elf_device 0x80110000 0x80220F00 0 [] [] sample_exec))) by (apply end_ok; vm_compute; reflexivity). split; [exact Er|].
  assert (Np : forall va, present (pte_of (km_mem sample_exec_mem) 0x80210000 va) = false) by (intros va; now rewrite P).
  destruct (@exec_all_or_nothing sample_linker sample_linker_ok unit empty_cache 7 elf_device) with (pr := 0x80110000) (tf := 0x80220F00) (kst := 0x80220000) (k0 := sample_exec_mem)
    (l0 := [0x80200000]) (d0 := 0x80210000) (cwd := 0%nat) (path := @nil Z) (argv := @nil (list Z)) (s := sample_exec) (r := (-1, @None (list Z))) (s' := end_state sample_exec (@exec sample_linker unit empty_cache 7 elf_device 0x80110000 0x80220F00 0 [] [] sample_exec)) as [[_ R]|[F _]].
  - intros major f ip n s r s' E1 E2. unfold elf_device in E1. destruct (major =? 1); [|discriminate]. injection E1 as <-. injection E2 as <- <-. cbn [snd]. rewrite length_take. lia.
  - split; vm_compute; discriminate.
  - apply (sample_page 32). lia.
  - lia.
  - exact sample_exec_wf.
  - exact D.
  - apply user_wf_empty. auto.
  - intros [[E|[E|(i & Hi & Hp & _)]]|(va & _ & Hp & _)]; [discriminate E | now apply list_elem_of_singleton in E | | now rewrite Np in Hp].
    destruct (pw_tab _ _ _ D i Hi Hp) as (_ & _ & _). revert Hp. unfold pde_of. cbn [sample_exec_mem km_mem set_mem]. rewrite load32_store32_ne by (unfold P_pgdir; lia). discriminate.
  - reflexivity.
  - vm_compute. reflexivity.
  - exact Er.
  - exact R.
  - discriminate F.
Defined.
