(* ===== verification/User.v ===== *)
(** User programs: [cat.c], [wc.c], [echo.c], [rm.c], [mkdir.c] and [ls.c] of
    [src/xv6/xv6-public], and [stat] of [ulib.c].

    A program runs on what it has written to its descriptors 1 and 2.  What it
    reads is given by streams: the pieces that [read] will find, as in [Grep],
    and whether the last [read] fails.  [wr] says how many bytes of a [write]
    are accepted after what was written before, -1 for an error.  The strings
    of the arguments are in memory.  [exit()] ends the program; a routine that
    may call it returns whether it did. *)

From stdpp Require Import gmap strings.
From S2P Require Import Prelude Mem Fs Print Ulib Sh.

(** The characters of a string constant. *)
Definition text (s : string) : list Z := map (fun c => Z.of_N (Ascii.N_of_ascii c)) (String.list_ascii_of_string s).
Definition NL : list Z := [10].

Record io := mkIo { io_out : list Z; io_err : list Z }.

Record stream := mkStream { sm_pieces : list (list Z); sm_fails : bool }.

(** [read(fd, buf, k)]: the result, the bytes and the rest of the stream. *)
Definition uread (k : nat) (st : stream) : Z * list Z * stream :=
  match sm_pieces st with
  | [] => (if sm_fails st then -1 else 0, [], st)
  | p :: ps => (Z.of_nat (length (take k p)), take k p, mkStream (match drop k p with [] => ps | r => r :: ps end) (sm_fails st))
  end.

Definition io_get (fd : Z) (s : io) : list Z := if fd =? 1 then io_out s else io_err s.
Definition io_add (fd : Z) (l : list Z) (s : io) : io := if fd =? 1 then mkIo (io_out s ++ l) (io_err s) else mkIo (io_out s) (io_err s ++ l).

Section Programs.
(** The memory with the strings of the arguments, a bound for their lengths, the
    files that [open] finds and the device or file behind the descriptors 1 and 2. *)
Variable m : mem.
Variable bound : nat.
Variable files : list Z -> option stream.
Variable wr : Z -> list Z -> list Z -> Z.

Definition uwrite (fd : Z) (b : list Z) : M io Z :=
  s <- gets id ;;
  let n := wr fd (io_get fd s) b in
  modify (io_add fd (take (Z.to_nat n) b)) ;;;
  ret n.

Fixpoint uputs (fd : Z) (l : list Z) : M io unit :=
  match l with [] => ret tt | c :: l => uwrite fd [c] ;;; uputs fd l end.

(** [printf(fd, fmt, ...)]: [putc] writes the characters one by one and does not
    look at the result. *)
Definition uprintf (fd : Z) (fmt : list Z) (args : list Z) : M io unit :=
  match printf m bound (fun i => nth i args 0) fmt [] with
  | Ok _ l => uputs fd l
  | Panic e => fun _ => Panic e
  | Fault e => fun _ => Fault e
  | NoFuel => nofuel
  end.

Definition uopen (p : Z) : option stream := files (cstr m p bound).

(** *** cat *)

Fixpoint cat (fuel : nat) (fd : stream) : M io bool :=
  match fuel with
  | O => nofuel
  | S fuel =>
      let '(n, buf, fd) := uread 512 fd in
      if 0 <? n then
        r <- uwrite 1 buf ;;
        if negb (r =? n) then uprintf 1 (text "cat: write error" ++ NL) [] ;;; ret true else cat fuel fd
      else if n <? 0 then uprintf 1 (text "cat: read error" ++ NL) [] ;;; ret true
      else ret false
  end.

Fixpoint cat_files (fuel : nat) (argv : list Z) : M io unit :=
  match argv with
  | [] => ret tt
  | a :: argv =>
      match uopen a with
      | None => uprintf 1 (text "cat: cannot open %s" ++ NL) [a]
      | Some fd => e <- cat fuel fd ;; if e : bool then ret tt else cat_files fuel argv
      end
  end.

(** [main] of [cat.c]; [argv] without [argv[0]]. *)
Definition cat_main (fuel : nat) (stdin : stream) (argv : list Z) : M io unit :=
  match argv with
  | [] => cat fuel stdin ;;; ret tt
  | _ => cat_files fuel argv
  end.

(** *** wc *)

Record counts := mkCounts { wc_l : Z; wc_w : Z; wc_c : Z; wc_inword : bool }.

(** The string of [strchr]: blank, carriage return, tab, newline, vertical tab. *)
Definition blanks : list Z := [32; 13; 9; 10; 11].

(** One round of the inner loop. *)
Definition wc_byte (k : counts) (b : Z) : counts :=
  let c := wc_c k + 1 in
  let l := if b =? 10 then wc_l k + 1 else wc_l k in
  if in_set blanks b then mkCounts l (wc_w k) c false
  else if negb (wc_inword k) then mkCounts l (wc_w k + 1) c true
  else mkCounts l (wc_w k) c (wc_inword k).

Fixpoint wc_loop (fuel : nat) (fd : stream) (k : counts) : M io (option counts) :=
  match fuel with
  | O => nofuel
  | S fuel =>
      let '(n, buf, fd) := uread 512 fd in
      if 0 <? n then wc_loop fuel fd (fold_left wc_byte buf k)
      else if n <? 0 then uprintf 1 (text "wc: read error" ++ NL) [] ;;; ret None
      else ret (Some k)
  end.

Definition wc (fuel : nat) (fd : stream) (name : Z) : M io bool :=
  k <- wc_loop fuel fd (mkCounts 0 0 0 false) ;;
  match k with
  | None => ret true
  | Some k => uprintf 1 (text "%d %d %d %s" ++ NL) [wc_l k; wc_w k; wc_c k; name] ;;; ret false
  end.

Fixpoint wc_files (fuel : nat) (argv : list Z) : M io unit :=
  match argv with
  | [] => ret tt
  | a :: argv =>
      match uopen a with
      | None => uprintf 1 (text "wc: cannot open %s" ++ NL) [a]
      | Some fd => e <- wc fuel fd a ;; if e : bool then ret tt else wc_files fuel argv
      end
  end.

(** [main] of [wc.c]; [empty] is the address of the constant for no name. *)
Definition wc_main (fuel : nat) (empty : Z) (stdin : stream) (argv : list Z) : M io unit :=
  match argv with
  | [] => wc fuel stdin empty ;;; ret tt
  | _ => wc_files fuel argv
  end.

(** *** echo; [blank] and [newline] are the addresses of its two constants *)

Fixpoint echo_main (blank newline : Z) (argv : list Z) : M io unit :=
  match argv with
  | [] => ret tt
  | a :: argv => uprintf 1 (text "%s%s") [a; match argv with [] => newline | _ => blank end] ;;; echo_main blank newline argv
  end.
End Programs.

(** ** What the programs do *)

(** The bytes that [read] delivers until it returns 0 or fails. *)
Fixpoint contents (ps : list (list Z)) : list Z := match ps with [] => [] | [] :: _ => [] | p :: ps => p ++ contents ps end.

(** Whether the reads end with an error. *)
Definition ends_badly (st : stream) : bool := sm_fails st && forallb (fun p => negb (length p =? 0)%nat) (sm_pieces st).

(** Rounds that are enough to read a stream. *)
Definition reads (st : stream) : nat := S (length (concat (sm_pieces st))).

Definition newlines (d : list Z) : Z := Z.of_nat (count_occ Z.eq_dec d 10).

(** A word starts at [i]: no blank, after a blank or at the beginning. *)
Definition word_start (d : list Z) (i : nat) : bool :=
  negb (in_set blanks (nth i d 0)) && match i with O => true | S j => in_set blanks (nth j d 0) end.
Definition word_count (d : list Z) : Z := Z.of_nat (length (List.filter (word_start d) (seq 0 (length d)))).

Lemma uread_step k st n b st' : (0 < k)%nat -> uread k st = (n, b, st') ->
  (0 < n /\ n = Z.of_nat (length b) /\ contents (sm_pieces st) = b ++ contents (sm_pieces st') /\ ends_badly st' = ends_badly st /\ (reads st' < reads st)%nat) \/
  (n = 0 /\ b = [] /\ contents (sm_pieces st) = [] /\ ends_badly st = false) \/ (n = -1 /\ b = [] /\ contents (sm_pieces st) = [] /\ ends_badly st = true).
Proof.
  intros Hk. destruct st as [[|p ps] f]; unfold uread, ends_badly, reads; cbn [sm_pieces sm_fails forallb concat contents]; intros E; injection E as <- <- <-.
  - destruct f; cbn; auto 10.
  - destruct p as [|c p]; [right; left; rewrite take_nil; cbn; now rewrite andb_false_r|]. left. destruct k as [|k]; [lia|].
    assert (El : (length (drop (S k) (c :: p)) < length (c :: p))%nat) by (rewrite length_drop; cbn [length]; lia).
    assert (Es : c :: p = take (S k) (c :: p) ++ drop (S k) (c :: p)) by (symmetry; apply take_drop).
    destruct (drop (S k) (c :: p)) as [|x r] eqn:Ed; cbn [sm_pieces sm_fails contents forallb concat].
    + rewrite app_nil_r in Es. rewrite <- Es. split_and!; [cbn [length]; lia|auto..|]. rewrite length_app. cbn [length]. lia.
    + split_and!; [cbn [take length]; lia|auto| |auto|rewrite !length_app; lia]. change ((c :: p) ++ contents ps = take (S k) (c :: p) ++ (x :: r) ++ contents ps). rewrite Es at 1. now rewrite <- app_assoc.
Qed.

Section Counting.
Lemma word_start_app d e i : (i < length d)%nat -> word_start (d ++ e) i = word_start d i.
Proof.
  intros Hi. unfold word_start. rewrite app_nth1 by exact Hi. destruct i as [|j]; [reflexivity|]. now rewrite app_nth1 by lia.
Qed.

Lemma word_count_snoc d c : word_count (d ++ [c]) = word_count d + (if word_start (d ++ [c]) (length d) then 1 else 0).
Proof.
  unfold word_count. rewrite length_app. cbn [length]. rewrite seq_app, List.filter_app, length_app. cbn [seq List.filter].
  rewrite (List.filter_ext_in (word_start (d ++ [c])) (word_start d)) by (intros i Hi; apply in_seq in Hi; apply word_start_app; lia).
  rewrite Nat.add_0_l. destruct (word_start (d ++ [c]) (length d)); cbn [length]; lia.
Qed.

Definition counts_of (d : list Z) : counts :=
  mkCounts (newlines d) (word_count d) (Z.of_nat (length d)) (match d with [] => false | _ => negb (in_set blanks (List.last d 0)) end).

(** The counters after the bytes [d], one more byte. *)
Lemma wc_byte_ok d c : wc_byte (counts_of d) c = counts_of (d ++ [c]).
Proof.
  unfold wc_byte, counts_of. cbn [wc_l wc_w wc_c wc_inword]. rewrite word_count_snoc, List.last_last, length_app. unfold newlines. rewrite count_occ_app. cbn [length count_occ].
  assert (Ew : word_start (d ++ [c]) (length d) = negb (in_set blanks c) && negb (match d with [] => false | _ => negb (in_set blanks (List.last d 0)) end)).
  { unfold word_start. rewrite nth_middle. f_equal. destruct d as [|x d] using rev_ind; [reflexivity|]. rewrite length_app. cbn [length].
    rewrite Nat.add_1_r, <- app_assoc. cbn [app]. rewrite nth_middle, List.last_last. destruct (d ++ [x]) eqn:E; [now destruct d|]. now rewrite negb_involutive. }
  rewrite Ew. destruct (d ++ [c]) as [|y r] eqn:E; [now destruct d|]. replace (Z.of_nat (length d + 1)) with (Z.of_nat (length d) + 1) by lia.
  destruct (Z.eqb_spec c 10), (Z.eq_dec c 10); try congruence; (destruct (in_set blanks c); cbn [negb andb];
    [|destruct (match d with [] => false | _ => negb (in_set blanks (List.last d 0)) end); cbn [negb]]); f_equal; try lia.
Qed.

Lemma wc_bytes_ok l : forall d, fold_left wc_byte l (counts_of d) = counts_of (d ++ l).
Proof. induction l as [|c l IH]; intros d; cbn [fold_left]; [now rewrite app_nil_r|]. now rewrite wc_byte_ok, IH, <- app_assoc. Qed.
End Counting.

(** Programs whose output is all accepted. *)
Section Output.
Variable m : mem.
Variable bound : nat.
Variable files : list Z -> option stream.
Variable wr : Z -> list Z -> list Z -> Z.
Hypothesis Hm : mem_ok m.
Hypothesis Hwr : forall fd out b, wr fd out b = Z.of_nat (length b).

Abbreviation str := (str_arg m bound).

Lemma io_add_nil fd s : io_add fd [] s = s.
Proof. unfold io_add. destruct s, (fd =? 1); cbn; now rewrite app_nil_r. Qed.

Lemma io_add_app fd l l' s : io_add fd l' (io_add fd l s) = io_add fd (l ++ l') s.
Proof. unfold io_add. destruct (fd =? 1); cbn; now rewrite app_assoc. Qed.

Lemma uwrite_ok fd b s : uwrite wr fd b s = Ok (Z.of_nat (length b)) (io_add fd b s).
Proof. unfold uwrite. cbn. rewrite Hwr, Nat2Z.id. now rewrite firstn_all. Qed.

Lemma uputs_ok fd l : forall s, uputs wr fd l s = Ok tt (io_add fd l s).
Proof.
  induction l as [|c l IH]; intros s; cbn [uputs]; [now rewrite io_add_nil|].
  rewrite (bind_ok _ _ _ _ _ (uwrite_ok fd [c] s)), IH. now rewrite io_add_app.
Qed.

Definition printed (fmt args : list Z) : list Z := render m bound (fun i => nth i args 0) digits_upper (directives fmt) 0.

Lemma uprintf_ok fd fmt args s : uprintf m bound wr fd fmt args s = Ok tt (io_add fd (printed fmt args) s).
Proof. unfold uprintf. rewrite (proj1 (printf_renders m bound _ fmt [] Hm)). apply uputs_ok. Qed.

(** Messages with one string. *)
Lemma printed_plain s args : Forall (fun c => c <> PERCENT /\ 0 <= c < 256) s -> printed s args = s.
Proof.
  intros F. unfold printed. generalize 0%nat. induction F as [|c s [Hc Hb] F IH]; intros ap; [reflexivity|]. cbn [directives].
  rewrite (proj2 (Z.eqb_neq _ _) Hc). cbn [render]. now rewrite IH, u8_small.
Qed.

(** **** cat *)

Definition cat_one (st : stream) : list Z := contents (sm_pieces st) ++ if ends_badly st then text "cat: read error" ++ NL else [].

Fixpoint cat_text (argv : list Z) : list Z :=
  match argv with
  | [] => []
  | a :: argv =>
      match uopen m bound files a with
      | None => text "cat: cannot open " ++ str a ++ NL
      | Some st => cat_one st ++ if ends_badly st then [] else cat_text argv
      end
  end.

Lemma cat_ok fuel : forall st s, (reads st <= fuel)%nat -> cat m bound wr fuel st s = Ok (ends_badly st) (io_add 1 (cat_one st) s).
Proof.
  induction fuel as [|fuel IH]; intros st s Hf; [unfold reads in Hf; lia|]. unfold cat_one. cbn [cat]. destruct (uread 512 st) as [[n b] st'] eqn:E.
  apply uread_step in E as [(Hn & El & Ec & Eb & Hr)|[(-> & -> & Ec & Eb)|(-> & -> & Ec & Eb)]]; [| | |lia].
  - rewrite (proj2 (Z.ltb_lt _ _) Hn), (bind_ok _ _ _ _ _ (uwrite_ok 1 b s)), <- El, Z.eqb_refl. cbn [negb]. rewrite IH by lia.
    unfold cat_one. now rewrite io_add_app, Eb, Ec, <- app_assoc.
  - rewrite Ec, Eb. cbn [Z.ltb Z.compare app]. now rewrite io_add_nil.
  - rewrite Ec, Eb. change (0 <? -1) with false. change (-1 <? 0) with true. cbv iota. rewrite (bind_ok _ _ _ _ _ (uprintf_ok 1 _ [] s)), printed_plain by (repeat constructor; discriminate || lia). reflexivity.
Qed.

Lemma cat_files_ok fuel argv : forall s, (forall a st, a ∈ argv -> uopen m bound files a = Some st -> (reads st <= fuel)%nat) ->
  cat_files m bound files wr fuel argv s = Ok tt (io_add 1 (cat_text argv) s).
Proof.
  induction argv as [|a argv IH]; intros s Hf; cbn [cat_files cat_text]; [now rewrite io_add_nil|]. destruct (uopen m bound files a) as [st|] eqn:Eo.
  - rewrite (bind_ok _ _ _ _ _ (cat_ok fuel st s (Hf a st ltac:(left) Eo))). destruct (ends_badly st); [now rewrite app_nil_r|].
    rewrite IH by (intros a' st' Ha; apply Hf; now right). now rewrite io_add_app.
  - now rewrite uprintf_ok.
Qed.

(** [cat] writes the contents of the files one after the other, up to the first that
    cannot be opened or read; without arguments it copies its input.  It makes no
    difference how much each [read] delivers. *)
Theorem cat_copies fuel stdin argv s : (reads stdin <= fuel)%nat -> (forall a st, a ∈ argv -> uopen m bound files a = Some st -> (reads st <= fuel)%nat) ->
  cat_main m bound files wr fuel stdin argv s = Ok tt (io_add 1 (match argv with [] => cat_one stdin | _ => cat_text argv end) s).
Proof.
  intros Hi Hf. unfold cat_main. destruct argv as [|a argv]; [|now apply cat_files_ok]. now rewrite (bind_ok _ _ _ _ _ (cat_ok fuel stdin s Hi)).
Qed.

(** **** wc *)

(** The line for the file with contents [d]. *)
Definition wc_line (d : list Z) (name : Z) : list Z :=
  decimal digits_upper (newlines d) ++ [32] ++ decimal digits_upper (word_count d) ++ [32] ++ decimal digits_upper (Z.of_nat (length d)) ++ [32] ++ str name ++ NL.

Definition wc_one (st : stream) (name : Z) : list Z :=
  if ends_badly st then text "wc: read error" ++ NL else wc_line (contents (sm_pieces st)) name.

Fixpoint wc_text (argv : list Z) : list Z :=
  match argv with
  | [] => []
  | a :: argv =>
      match uopen m bound files a with
      | None => text "wc: cannot open " ++ str a ++ NL
      | Some st => wc_one st a ++ if ends_badly st then [] else wc_text argv
      end
  end.

Lemma wc_loop_ok fuel : forall st d s, (reads st <= fuel)%nat -> wc_loop m bound wr fuel st (counts_of d) s =
  if ends_badly st then Ok None (io_add 1 (text "wc: read error" ++ NL) s) else Ok (Some (counts_of (d ++ contents (sm_pieces st)))) s.
Proof.
  induction fuel as [|fuel IH]; intros st d s Hf; [unfold reads in Hf; lia|]. cbn [wc_loop]. destruct (uread 512 st) as [[n b] st'] eqn:E.
  apply uread_step in E as [(Hn & El & Ec & Eb & Hr)|[(-> & -> & Ec & Eb)|(-> & -> & Ec & Eb)]]; [| | |lia].
  - rewrite (proj2 (Z.ltb_lt _ _) Hn), wc_bytes_ok, IH, Eb, Ec, <- app_assoc by lia. reflexivity.
  - now rewrite Ec, Eb, app_nil_r.
  - rewrite Eb. change (0 <? -1) with false. change (-1 <? 0) with true. cbv iota.
    rewrite (bind_ok _ _ _ _ _ (uprintf_ok 1 _ [] s)), printed_plain by (repeat constructor; discriminate || lia). reflexivity.
Qed.

Lemma newlines_le d : 0 <= newlines d <= Z.of_nat (length d).
Proof. unfold newlines. pose proof (count_occ_bound Z.eq_dec 10 d). lia. Qed.

Lemma word_count_le d : 0 <= word_count d <= Z.of_nat (length d).
Proof. unfold word_count. pose proof (List.filter_length_le (word_start d) (seq 0 (length d))) as Hl. rewrite length_seq in Hl. lia. Qed.

Lemma wc_ok fuel st name s : (reads st <= fuel)%nat -> Z.of_nat (length (contents (sm_pieces st))) < two31 ->
  wc m bound wr fuel st name s = Ok (ends_badly st) (io_add 1 (wc_one st name) s).
Proof.
  intros Hf Hl. unfold wc, wc_one. change (mkCounts 0 0 0 false) with (counts_of []). pose proof (wc_loop_ok fuel st [] s Hf) as E. destruct (ends_badly st).
  - now rewrite (bind_ok _ _ _ _ _ E).
  - rewrite (bind_ok _ _ _ _ _ E). cbn [app]. set (d := contents (sm_pieces st)) in *. rewrite (bind_ok _ _ _ _ _ (uprintf_ok 1 _ _ s)). unfold ret. do 2 f_equal.
    pose proof (newlines_le d). pose proof (word_count_le d). unfold wc_line.
    rewrite <- (s32_small (newlines d)), <- (s32_small (word_count d)), <- (s32_small (Z.of_nat (length d))) by (unfold two31 in *; lia). reflexivity.
Qed.
Lemma wc_files_ok fuel argv : forall s,
  (forall a st, a ∈ argv -> uopen m bound files a = Some st -> (reads st <= fuel)%nat /\ Z.of_nat (length (contents (sm_pieces st))) < two31) ->
  wc_files m bound files wr fuel argv s = Ok tt (io_add 1 (wc_text argv) s).
Proof.
  induction argv as [|a argv IH]; intros s Hf; cbn [wc_files wc_text]; [now rewrite io_add_nil|]. destruct (uopen m bound files a) as [st|] eqn:Eo.
  - destruct (Hf a st ltac:(left) Eo) as [H1 H2]. rewrite (bind_ok _ _ _ _ _ (wc_ok fuel st a s H1 H2)). destruct (ends_badly st); [now rewrite app_nil_r|].
    rewrite IH by (intros a' st' Ha; apply Hf; now right). now rewrite io_add_app.
  - now rewrite uprintf_ok.
Qed.

(** **** echo *)

Fixpoint echo_text (argv : list Z) : list Z :=
  match argv with [] => [] | [a] => str a ++ NL | a :: argv => str a ++ [32] ++ echo_text argv end.

(** [echo] writes its arguments with one blank between them and a newline at the end. *)
Theorem echo_writes blank newline argv s : str blank = [32] -> str newline = NL ->
  echo_main m bound wr blank newline argv s = Ok tt (io_add 1 (echo_text argv) s).
Proof.
  intros Hb Hn. revert s. induction argv as [|a argv IH]; intros s; cbn [echo_main]; [now rewrite io_add_nil|]. rewrite (bind_ok _ _ _ _ _ (uprintf_ok 1 _ _ s)), IH, io_add_app.
  do 2 f_equal. unfold printed. change (directives (text "%s%s")) with [Text; Text]. cbn [render nth]. rewrite app_nil_r, <- app_assoc.
  destruct argv as [|a' argv]; [now rewrite Hn, app_nil_r|]. rewrite Hb. reflexivity.
Qed.
End Output.

(** [wc] counts right.  For each file that can be read, and for the input when there
    are no arguments, it prints the number of newlines, of words and of bytes: a word
    starts at each byte that is no blank and has a blank or nothing before it.  The
    counts do not depend on how the reads cut the file, also when they cut a word,
    and [wc] stops at the first file that it cannot open or read. *)
Theorem wc_counts m bound files wr fuel empty stdin argv s : mem_ok m -> (forall fd out b, wr fd out b = Z.of_nat (length b)) ->
  (forall st, (argv = [] /\ st = stdin) \/ (exists a, a ∈ argv /\ uopen m bound files a = Some st) ->
     (reads st <= fuel)%nat /\ Z.of_nat (length (contents (sm_pieces st))) < two31) ->
  wc_main m bound files wr fuel empty stdin argv s =
    Ok tt (mkIo (io_out s ++ match argv with [] => wc_one m bound stdin empty | _ => wc_text m bound files argv end) (io_err s)).
Proof.
  intros Hm Hwr Hf. unfold wc_main. destruct argv as [|a argv].
  - destruct (Hf stdin ltac:(auto)) as [H1 H2]. now rewrite (bind_ok _ _ _ _ _ (wc_ok m bound wr Hm Hwr fuel stdin empty s H1 H2)).
  - rewrite (wc_files_ok m bound files wr Hm Hwr); [reflexivity|]. intros a' st Ha E. apply Hf. right. eauto.
Qed.

(** [wc] of a pipe that delivers [a b] and a newline in three reads, one in the middle of a word. *)
Lemma wc_counts_witness : wc_main (fun _ => 0) 1 (fun _ => None) (fun _ _ b => Z.of_nat (length b)) 8 5 (mkStream [[97; 97]; [97; 32; 98]; [10]] false) [] (mkIo [] []) =
  Ok tt (mkIo [49; 32; 50; 32; 54; 32; 10] []).
Proof.
  rewrite (wc_counts (fun _ => 0) 1 (fun _ => None) (fun _ _ b => Z.of_nat (length b)) 8 5 (mkStream [[97; 97]; [97; 32; 98]; [10]] false) [] (mkIo [] [])).
  - vm_compute. reflexivity.
  - intros x. lia.
  - reflexivity.
  - intros st [[_ ->]|(a & Ha & _)]; [split; [apply Nat.leb_le; reflexivity|reflexivity]|inversion Ha].
Defined.
