(* ===== verification/Ls.v ===== *)
(** [ls]: [src/xv6/xv6-public/ls.c], and [stat] of [ulib.c].

    The program runs on its memory and its output.  A path names a node: what
    [fstat] says of it ([None]: it fails) and what [read] delivers of it.  The
    static buffer of [fmtname] is at [fbuf] and the local one of [ls] at [buf];
    the variables [de] and [st] are values. *)

From stdpp Require Import gmap strings.
From S2P Require Import Prelude Mem Fs Print Ulib User.

Record node := mkNode { nd_stat : option stat; nd_data : stream }.

Record lsst := mkLs { ls_mem : mem; ls_io : io }.

(** A routine that needs more rounds than the bound ends the run. *)
Definition rounds {S A} (o : option A) : M S A := match o with Some a => ret a | None => nofuel end.

Section Ls.
Variable nodes : list Z -> option node.
Variable wr : Z -> list Z -> list Z -> Z.
Variables fbuf buf : Z.
(** The bound for the length of strings. *)
Variable bound : nat.

Definition memory : M lsst mem := gets ls_mem.
Definition set_memory (m : mem) : M lsst unit := modify (fun s => mkLs m (ls_io s)).
Definition len (p : Z) : M lsst Z := m <- memory ;; rounds (strlen m p bound).

Definition lsprintf (fd : Z) (fmt args : list Z) : M lsst unit :=
  m <- memory ;; zoom ls_io (fun o s => mkLs (ls_mem s) o) (uprintf m bound wr fd fmt args).

(** [stat] of [ulib.c]. *)
Definition ustat (m : mem) (n : Z) : option stat :=
  match nodes (cstr m n bound) with None => None | Some nd => nd_stat nd end.

(** [for(p = ...; p >= path && *p != '/'; p--);] *)
Fixpoint fmt_scan (fuel : nat) (m : mem) (path p : Z) : option Z :=
  match fuel with
  | O => None
  | S fuel => if (path <=? p) && negb (m p =? 47) then fmt_scan fuel m path (p - 1) else Some p
  end.

Definition fmtname (path : Z) : M lsst Z :=
  n <- len path ;;
  m <- memory ;;
  p <- rounds (fmt_scan (S bound) m path (path + n)) ;;
  let p := p + 1 in
  k <- len p ;;
  if DIRSIZ <=? k then ret p else
  k <- len p ;;
  m <- memory ;;
  set_memory (umemmove m fbuf p k) ;;;
  k <- len p ;;
  m <- memory ;;
  set_memory (umemset m (fbuf + k) 32 (DIRSIZ - k)) ;;;
  ret fbuf.

(** The line of a node: [printf] gets the result of [fmtname]. *)
Definition ls_line (path : Z) (st : stat) : M lsst unit :=
  name <- fmtname path ;;
  lsprintf 1 (text "%s %d %d %d" ++ NL) [name; st_type st; st_ino st; st_size st].

(** The bytes [l] stored at [p]. *)
Definition put_bytes (m : mem) (p : Z) (l : list Z) : mem :=
  fun x => if (p <=? x) && (x <? p + Z.of_nat (length l)) then nth (Z.to_nat (x - p)) l 0 else m x.

(** The body of the loop over a directory, for the entry [de]. *)
Definition ls_entry (p : Z) (de : list Z) : M lsst unit :=
  if u16 (de_inum (parse_dirent (buffer de))) =? 0 then ret tt else
  m <- memory ;;
  set_memory (store8 (put_bytes m p (drop 2 de)) (p + DIRSIZ) 0) ;;;
  m <- memory ;;
  match ustat m buf with
  | None => lsprintf 1 (text "ls: cannot stat %s" ++ NL) [buf]
  | Some st => ls_line buf st
  end.

(** [while(read(fd, &de, sizeof(de)) == sizeof(de))] *)
Fixpoint ls_entries (fuel : nat) (p : Z) (fd : stream) : M lsst unit :=
  match fuel with
  | O => nofuel
  | S fuel =>
      let '(n, de, fd) := uread 16 fd in
      if n =? 16 then ls_entry p de ;;; ls_entries fuel p fd else ret tt
  end.

Definition ls_dir (path : Z) (fd : stream) : M lsst unit :=
  n <- len path ;;
  if 512 <? n + 1 + DIRSIZ + 1 then lsprintf 1 (text "ls: path too long" ++ NL) [] else
  m <- memory ;;
  m <- rounds (strcpy bound m buf path) ;;
  set_memory m ;;;
  n <- len buf ;;
  let p := buf + n in
  m <- memory ;;
  set_memory (store8 m p 47) ;;;
  ls_entries (reads fd) (p + 1) fd.

Definition ls (path : Z) : M lsst unit :=
  m <- memory ;;
  match nodes (cstr m path bound) with
  | None => lsprintf 2 (text "ls: cannot open %s" ++ NL) [path]
  | Some nd =>
      match nd_stat nd with
      | None => lsprintf 2 (text "ls: cannot stat %s" ++ NL) [path]
      | Some st =>
          if st_type st =? T_FILE then ls_line path st
          else if st_type st =? T_DIR then ls_dir path (nd_data nd)
          else ret tt
      end
  end.

Fixpoint ls_args (argv : list Z) : M lsst unit := match argv with [] => ret tt | a :: argv => ls a ;;; ls_args argv end.

(** [main]; [dot] is the address of the constant for no arguments. *)
Definition ls_main (dot : Z) (argv : list Z) : M lsst unit :=
  match argv with [] => ls dot | _ => ls_args argv end.
End Ls.

(** ** Strings in memory *)

Fixpoint str_at (m : mem) (p : Z) (s : list Z) : Prop :=
  match s with [] => m p = 0 | c :: s => c <> 0 /\ m p = c /\ str_at m (p + 1) s end.

Lemma str_at_cstr m s : forall p k, str_at m p s -> (length s < k)%nat -> cstr m p k = s.
Proof.
  induction s as [|c s IH]; intros p k H Hk; (destruct k as [|k]; [cbn in Hk; lia|]); cbn [cstr length str_at] in *.
  - now rewrite H.
  - destruct H as (Hc & -> & H). unfold truth. rewrite (proj2 (Z.eqb_neq _ _) Hc). cbn [negb]. f_equal. apply IH; [exact H|lia].
Qed.

Lemma str_at_intro m s : forall p, Forall (fun c => c <> 0) s -> (forall i c, s !! i = Some c -> m (p + Z.of_nat i) = c) -> m (p + Z.of_nat (length s)) = 0 -> str_at m p s.
Proof.
  induction s as [|c s IH]; intros p F H H0; cbn [str_at length] in *; [now rewrite Z.add_0_r in H0|]. inversion F; subst. split_and!; [auto|rewrite <- (H 0%nat c eq_refl); f_equal; lia|].
  apply IH; [auto|intros i d Hi; rewrite <- (H (S i) d Hi); f_equal; lia|rewrite <- H0; f_equal; lia].
Qed.

Lemma str_at_char m s : forall p i c, str_at m p s -> s !! i = Some c -> m (p + Z.of_nat i) = c.
Proof.
  induction s as [|d s IH]; intros p i c H Hi; [discriminate|]. destruct H as (_ & Hp & H). destruct i as [|i]; [injection Hi as <-; rewrite <- Hp; f_equal; lia|].
  rewrite <- (IH _ _ _ H Hi). f_equal. lia.
Qed.

Lemma str_at_end m s : forall p, str_at m p s -> m (p + Z.of_nat (length s)) = 0.
Proof. induction s as [|d s IH]; intros p H; cbn [str_at length] in *; [rewrite <- H; f_equal; lia|]. destruct H as (_ & _ & H). rewrite <- (IH _ H). f_equal. lia. Qed.

Lemma str_at_nonzero m s : forall p, str_at m p s -> Forall (fun c => c <> 0) s.
Proof. induction s as [|d s IH]; intros p H; [constructor|]. destruct H as (Hd & _ & H). constructor; eauto. Qed.

Lemma str_at_drop m a b : forall p, str_at m p (a ++ b) -> str_at m (p + Z.of_nat (length a)) b.
Proof.
  induction a as [|d a IH]; intros p H; cbn [app str_at length] in *; [now rewrite Z.add_0_r|]. destruct H as (_ & _ & H). apply IH in H.
  now replace (p + Z.of_nat (S (length a))) with (p + 1 + Z.of_nat (length a)) by lia.
Qed.

Lemma str_at_ext m m' s p : (forall x, p <= x <= p + Z.of_nat (length s) -> m' x = m x) -> str_at m p s -> str_at m' p s.
Proof.
  revert p. induction s as [|d s IH]; intros p E H; cbn [str_at length] in *; [rewrite E; auto; lia|]. destruct H as (Hd & Hp & H). split_and!; [auto|rewrite E; auto; lia|].
  apply IH; [intros; apply E; lia|exact H].
Qed.

Lemma str_at_strlen m s p bound : str_at m p s -> (length s < bound)%nat -> strlen m p bound = Some (Z.of_nat (length s)).
Proof.
  intros H Hb. unfold strlen. assert (Hc : cstr m (p + 0) bound = s) by (rewrite Z.add_0_r; now apply str_at_cstr).
  rewrite strlen_from_spec by (rewrite Hc; lia). now rewrite Hc.
Qed.

(** [strcpy] copies the string with its NUL. *)
Lemma strcpy_ok s : forall fuel m d t, mem_ok m -> str_at m t s -> (length s < fuel)%nat -> d + Z.of_nat (length s) < t \/ t + Z.of_nat (length s) < d ->
  exists m', strcpy fuel m d t = Some m' /\ str_at m' d s /\ mem_ok m' /\ (forall x, x < d \/ d + Z.of_nat (length s) < x -> m' x = m x).
Proof.
  induction s as [|c s IH]; intros [|fuel] m d t Hm H Hf Hd; cbn [length] in *; try lia; cbn [strcpy str_at] in *.
  - rewrite H. cbn [truth negb Z.eqb]. eexists. split; [reflexivity|]. split; [now rewrite load8_store8_eq|]. split; [auto with words|]. intros x Hx. apply load8_store8_ne. lia.
  - destruct H as (Hc & Ht & H). rewrite Ht. unfold truth. rewrite (proj2 (Z.eqb_neq _ _) Hc). cbn [negb].
    destruct (IH fuel (store8 m d c) (d + 1) (t + 1)) as (m' & E & S' & O' & F'); [auto with words| |lia|lia|].
    { revert H. apply str_at_ext. intros x Hx. apply load8_store8_ne. lia. }
    exists m'. split_and!; [exact E|exact Hc| |exact S'|exact O'|].
    + rewrite F' by lia. rewrite load8_store8_eq. apply u8_small. rewrite <- Ht. apply Hm.
    + intros x Hx. rewrite F' by lia. apply load8_store8_ne. lia.
Qed.

(** ** The name in a path *)

(** What follows the last slash. *)
Definition basename (s : list Z) : list Z := fold_left (fun l c => if c =? 47 then [] else l ++ [c]) s [].
Definition padded (l : list Z) : list Z := l ++ replicate (14 - length l) 32.

Lemma basename_snoc s c : basename (s ++ [c]) = if c =? 47 then [] else basename s ++ [c].
Proof. unfold basename. now rewrite fold_left_app. Qed.

Lemma basename_suffix s : exists d, s = d ++ basename s.
Proof.
  induction s as [|c s [d E]] using rev_ind; [now exists []|]. rewrite basename_snoc. destruct (c =? 47); [exists (s ++ [c]); now rewrite app_nil_r|].
  exists d. rewrite app_assoc. now rewrite <- E.
Qed.

Lemma basename_name d n : 47 ∉ n -> basename (d ++ [47] ++ n) = n.
Proof.
  intros Hn. rewrite app_assoc. induction n as [|c n IH] using rev_ind; [rewrite app_nil_r; apply basename_snoc|].
  rewrite app_assoc, basename_snoc. rewrite elem_of_app, list_elem_of_singleton in Hn. rewrite (proj2 (Z.eqb_neq c 47)) by (intros ->; tauto). rewrite IH by tauto. reflexivity.
Qed.

Lemma fmt_scan_ok m path s : str_at m path s -> forall j fuel, (j <= length s)%nat -> (j < fuel)%nat ->
  fmt_scan fuel m path (path + Z.of_nat j - 1) = Some (path + Z.of_nat j - Z.of_nat (length (basename (take j s))) - 1).
Proof.
  intros H. induction j as [|j IH]; intros [|fuel] Hj Hf; try lia; cbn [fmt_scan].
  - rewrite (proj2 (Z.leb_gt _ _)) by lia. change (basename (take 0 s)) with (@nil Z). cbn [andb length]. f_equal. lia.
  - rewrite (proj2 (Z.leb_le _ _)) by lia. destruct (lookup_lt_is_Some_2 s j ltac:(lia)) as [c Hc].
    replace (path + Z.of_nat (S j) - 1) with (path + Z.of_nat j) by lia. rewrite (str_at_char _ _ _ _ _ H Hc), (take_S_r _ _ _ Hc), basename_snoc.
    destruct (c =? 47); cbn [andb negb length]; [f_equal; lia|]. rewrite IH by lia. f_equal. rewrite length_app. cbn [length]. lia.
Qed.

(** ** What [ls] prints *)

Section Listing.
Variable nodes : list Z -> option node.
Variable wr : Z -> list Z -> list Z -> Z.
Variables fbuf buf : Z.
Variable bound : nat.
Hypothesis Hwr : forall fd out b, wr fd out b = Z.of_nat (length b).
Hypothesis Hbound : (512 <= bound)%nat.
(** The two buffers do not overlap. *)
Hypothesis Hbufs : fbuf + 15 <= buf \/ buf + 512 <= fbuf.

Abbreviation at_mem m o := (mkLs m o).

Lemma len_ok p l m o : str_at m p l -> (length l < bound)%nat -> len bound p (at_mem m o) = Ok (Z.of_nat (length l)) (at_mem m o).
Proof. intros H Hl. unfold len, memory, bind, gets. cbn [ls_mem]. now rewrite (str_at_strlen _ _ _ _ H Hl). Qed.

(** The string [l] is apart from the buffer of [fmtname]. *)
Definition apart (p : Z) (l : list Z) : Prop := p + Z.of_nat (length l) < fbuf \/ fbuf + 15 <= p.

(** The change that [fmtname] may make. *)
Record named (m m' : mem) : Prop := {
  nm_ok : mem_ok m';
  nm_out : forall x, x < fbuf \/ fbuf + 14 <= x -> m' x = m x
}.

Lemma named_str m m' p l : named m m' -> apart p l -> str_at m p l -> str_at m' p l.
Proof. intros [_ E] A. apply str_at_ext. intros x Hx. apply E. unfold apart in A. lia. Qed.

Lemma padded_at m p l : mem_ok m -> m (fbuf + 14) = 0 -> str_at m p l -> apart p l -> (length l < 14)%nat ->
  let m1 := umemmove m fbuf p (Z.of_nat (length l)) in let m2 := umemset m1 (fbuf + Z.of_nat (length l)) 32 (DIRSIZ - Z.of_nat (length l)) in
  named m m1 /\ named m m2 /\ str_at m2 fbuf (padded l).
Proof.
  intros Hm H0 H A Hl m1 m2. unfold apart, DIRSIZ in *.
  assert (E1 : forall x, m1 x = if (fbuf <=? x) && (x <? fbuf + Z.of_nat (length l)) then m (x - fbuf + p) else m x).
  { intros x. subst m1. unfold umemmove. rewrite Nat2Z.id. apply copy_up_spec; [exact Hm|lia]. }
  assert (E2 : forall x, m2 x = if (fbuf + Z.of_nat (length l) <=? x) && (x <? fbuf + 14) then 32 else m1 x).
  { intros x. subst m2. unfold umemset. rewrite stosb_spec. rewrite Z2Nat.id by (unfold DIRSIZ; lia). unfold DIRSIZ. repeat case_bool; try reflexivity; lia. }
  assert (O1 : mem_ok m1) by (intros x; rewrite E1; destruct (_ && _); apply Hm).
  assert (O2 : mem_ok m2) by (intros x; rewrite E2; destruct (_ && _); [lia|apply O1]).
  split; [split; [exact O1|intros x Hx; rewrite E1; case_bool; [lia|reflexivity]]|].
  split; [split; [exact O2|intros x Hx; rewrite E2; case_bool; [lia|]; rewrite E1; case_bool; [lia|reflexivity]]|].
  unfold padded. apply str_at_intro.
  - apply Forall_app. split; [exact (str_at_nonzero _ _ _ H)|]. apply Forall_replicate. lia.
  - intros i c Hi. apply lookup_app_Some in Hi as [Hi|[Hge Hi]].
    + pose proof (lookup_lt_Some _ _ _ Hi). rewrite E2. case_bool; [lia|]. rewrite E1. case_bool; [|lia]. rewrite <- (str_at_char _ _ _ _ _ H Hi). f_equal. lia.
    + apply lookup_replicate in Hi as [-> Hi]. rewrite E2. case_bool; [reflexivity|lia].
  - rewrite length_app, length_replicate. rewrite E2. case_bool; [lia|]. rewrite E1. case_bool; [lia|]. rewrite <- H0. f_equal. lia.
Qed.

Lemma fmtname_ok path l m o : mem_ok m -> m (fbuf + 14) = 0 -> str_at m path l -> apart path l -> (length l < bound)%nat -> 0 < fbuf -> 0 < path ->
  exists r m', fmtname fbuf bound path (at_mem m o) = Ok r (at_mem m' o) /\ str_at m' r (padded (basename l)) /\ named m m' /\ 0 < r.
Proof.
  intros Hm H0 H A Hl Hfb Hpa. unfold fmtname. rewrite (bind_ok _ _ _ _ _ (len_ok path l m o H Hl)). unfold memory at 1. unfold bind at 1, gets at 1. cbn [ls_mem].
  destruct (basename_suffix l) as [d Ed]. assert (Hlen : length l = (length d + length (basename l))%nat) by (rewrite Ed at 1; apply length_app).
  assert (Es : fmt_scan (S bound) m path (path + Z.of_nat (length l)) = Some (path + Z.of_nat (length d) - 1)).
  { cbn [fmt_scan]. rewrite (proj2 (Z.leb_le _ _)) by lia. rewrite (str_at_end _ _ _ H). cbn [andb negb Z.eqb]. rewrite (fmt_scan_ok m path l H) by lia. rewrite firstn_all. f_equal. lia. }
  rewrite Es. cbn [rounds]. rewrite bind_ret. cbv zeta. replace (path + Z.of_nat (length d) - 1 + 1) with (path + Z.of_nat (length d)) by lia.
  assert (Hb : str_at m (path + Z.of_nat (length d)) (basename l)) by (apply str_at_drop; now rewrite <- Ed).
  assert (Ab : apart (path + Z.of_nat (length d)) (basename l)) by (unfold apart in *; lia). set (b := basename l) in *. clearbody b. set (p := path + Z.of_nat (length d)) in *.
  rewrite (bind_ok _ _ _ _ _ (len_ok p b m o Hb ltac:(lia))). unfold DIRSIZ at 1. destruct (Z.leb_spec 14 (Z.of_nat (length b))).
  - exists p, m. split; [reflexivity|]. split; [|split; [now split|lia]]. unfold padded. replace (14 - length b)%nat with 0%nat by lia. now rewrite app_nil_r.
  - destruct (padded_at m p b Hm H0 Hb Ab ltac:(lia)) as (N1 & N2 & S2). rewrite (bind_ok _ _ _ _ _ (len_ok p b m o Hb ltac:(lia))).
    unfold memory, set_memory, bind, gets, modify. cbn [ls_mem ls_io]. pose proof (len_ok p b _ o (named_str _ _ _ _ N1 Ab Hb) ltac:(lia)) as E. rewrite E. cbn [ls_mem ls_io].
    eexists _, _. split; [reflexivity|]. split; [exact S2|]. split; [exact N2|exact Hfb].
Qed.
Hypothesis Hfbuf : 0 < fbuf.
Hypothesis Hbuf : 0 < buf.

Lemma lsprintf_ok fd fmt args m o : mem_ok m -> lsprintf wr bound fd fmt args (at_mem m o) = Ok tt (at_mem m (io_add fd (printed m bound fmt args) o)).
Proof. intros Hm. unfold lsprintf, memory, bind, gets, zoom. cbn [ls_mem ls_io]. now rewrite (uprintf_ok m bound wr Hm Hwr). Qed.

Lemma str_arg_at m p l : str_at m p l -> (length l < bound)%nat -> p <> 0 -> str_arg m bound p = l.
Proof. intros H Hl Hp. unfold str_arg. rewrite (proj2 (Z.eqb_neq _ _) Hp). now apply str_at_cstr. Qed.

(** The line of the node with the path [l]. *)
Definition node_line (l : list Z) (st : stat) : list Z :=
  padded (basename l) ++ [32] ++ decimal digits_upper (s32 (st_type st)) ++ [32] ++ decimal digits_upper (s32 (st_ino st)) ++ [32] ++ decimal digits_upper (s32 (st_size st)) ++ NL.

Lemma ls_line_ok path l st m o : mem_ok m -> m (fbuf + 14) = 0 -> str_at m path l -> apart path l -> (length l < bound)%nat -> 0 < path ->
  exists m', ls_line wr fbuf bound path st (at_mem m o) = Ok tt (at_mem m' (io_add 1 (node_line l st) o)) /\ named m m'.
Proof.
  intros Hm H0 H A Hl Hp. destruct (fmtname_ok path l m o Hm H0 H A Hl Hfbuf Hp) as (r & m' & E & Hr & N & Hr0). unfold ls_line. rewrite (bind_ok _ _ _ _ _ E).
  rewrite lsprintf_ok by apply N. exists m'. split; [|exact N]. do 3 f_equal. unfold printed, node_line.
  rewrite <- (str_arg_at m' r (padded (basename l)) Hr); [reflexivity| |lia]. destruct (basename_suffix l) as [d Ed]. apply (f_equal length) in Ed. rewrite length_app in Ed.
  unfold padded. rewrite length_app, length_replicate. lia.
Qed.

(** *** Entries of a directory *)

Fixpoint name_of (l : list Z) : list Z := match l with [] => [] | c :: l => if c =? 0 then [] else c :: name_of l end.

(** What is printed for the entry [e] of the directory [l]. *)
Definition entry_line (l e : list Z) : list Z :=
  if u16 (de_inum (parse_dirent (buffer e))) =? 0 then []
  else let f := l ++ [47] ++ name_of (drop 2 e) in
    match match nodes f with None => None | Some nd => nd_stat nd end with
    | None => text "ls: cannot stat " ++ f ++ NL
    | Some st => node_line f st
    end.

(** [buf] holds the path and the slash. *)
Record dir_mem (l : list Z) (m : mem) : Prop := {
  dm_ok : mem_ok m;
  dm_pad : m (fbuf + 14) = 0;
  dm_path : forall i c, (l ++ [47]) !! i = Some c -> m (buf + Z.of_nat i) = c
}.

(** Only the buffers change. *)
Record scribbled (m m' : mem) : Prop := {
  sc_ok : mem_ok m';
  sc_out : forall x, (x < fbuf \/ fbuf + 14 <= x) -> (x < buf \/ buf + 512 <= x) -> m' x = m x
}.

Lemma scribbled_trans m1 m2 m3 : scribbled m1 m2 -> scribbled m2 m3 -> scribbled m1 m3.
Proof. intros [O1 E1] [O2 E2]. split; [exact O2|]. intros x Hf Hb. rewrite E2, E1; auto. Qed.

Lemma scribbled_named m m' : named m m' -> scribbled m m'.
Proof. intros [O E]. split; [exact O|]. intros x Hf _. auto. Qed.

Lemma name_of_prefix l : exists r, l = name_of l ++ r /\ (r = [] \/ exists r', r = 0 :: r') /\ Forall (fun c => c <> 0) (name_of l).
Proof.
  induction l as [|c l (r & E & Hr & F)]; [exists []; cbn; auto|]. cbn [name_of]. destruct (Z.eqb_spec c 0) as [->|Hc]; [exists (0 :: l); cbn; eauto|].
  exists r. split; [cbn [app]; congruence|]. split; [exact Hr|]. now constructor.
Qed.

Lemma entry_path l e m : Forall (fun c => c <> 0) l -> (length l + 16 <= 512)%nat -> length e = 16%nat -> Forall (fun c => 0 <= c < 256) e -> dir_mem l m ->
  let m1 := store8 (put_bytes m (buf + Z.of_nat (length l) + 1) (drop 2 e)) (buf + Z.of_nat (length l) + 1 + DIRSIZ) 0 in
  dir_mem l m1 /\ scribbled m m1 /\ str_at m1 buf (l ++ [47] ++ name_of (drop 2 e)).
Proof.
  intros Fl Hl He Fe [Hm H0 Hp] m1. set (p := buf + Z.of_nat (length l) + 1) in *. assert (Ld : length (drop 2 e) = 14%nat) by (rewrite length_drop; lia).
  assert (E1 : forall x, m1 x = if x =? p + 14 then 0 else if (p <=? x) && (x <? p + 14) then nth (Z.to_nat (x - p)) (drop 2 e) 0 else m x).
  { intros x. subst m1. unfold store8, put_bytes, DIRSIZ. rewrite Ld. destruct (Z.eqb_spec x (p + 14)); reflexivity. }
  assert (O1 : mem_ok m1).
  { intros x. rewrite E1. destruct (x =? p + 14); [lia|]. destruct (_ && _); [|apply Hm]. 
    destruct (nth_in_or_default (Z.to_nat (x - p)) (drop 2 e) 0) as [Hi| ->]; [|lia]. apply (Forall_drop _ 2) in Fe. rewrite Forall_forall in Fe. apply Fe. now apply list_elem_of_In. }
  assert (K : forall i c, (l ++ [47]) !! i = Some c -> m1 (buf + Z.of_nat i) = c).
  { intros i c Hi. pose proof (lookup_lt_Some _ _ _ Hi) as Hlt. rewrite length_app in Hlt. cbn [length] in Hlt. rewrite E1. subst p. case_bool; [lia|]. case_bool; [lia|]. auto. }
  split; [|split].
  - split; [exact O1| |exact K]. rewrite E1. subst p. case_bool; [lia|]. case_bool; [lia|]. exact H0.
  - split; [exact O1|]. intros x _ Hb. rewrite E1. subst p. case_bool; [lia|]. case_bool; [lia|]. reflexivity.
  - destruct (name_of_prefix (drop 2 e)) as (r & Er & Hr & Fn). set (n := name_of (drop 2 e)) in *. assert (Ln : (length n + length r = 14)%nat) by (rewrite <- Ld, Er at 1; now rewrite length_app).
    rewrite app_assoc. apply str_at_intro.
    + apply Forall_app. split; [apply Forall_app; split; [exact Fl|repeat constructor; lia]|exact Fn].
    + intros i c Hi. apply lookup_app_Some in Hi as [Hi|[Hge Hi]]; [now apply K|]. rewrite length_app in *. cbn [length] in *. pose proof (lookup_lt_Some _ _ _ Hi).
      rewrite E1. subst p. case_bool; [lia|]. case_bool; [|lia]. rewrite Er, app_nth1 by lia. rewrite <- (nth_lookup_Some _ _ 0 _ Hi). f_equal. lia.
    + rewrite !length_app. cbn [length]. rewrite E1. subst p. destruct Hr as [->|[r' ->]]; cbn [length] in Ln; [case_bool; [reflexivity|lia]|].
      case_bool; [lia|]. case_bool; [|bool_split; lia]. rewrite Er, app_nth2 by lia. replace (_ - length n)%nat with 0%nat by lia. reflexivity.
Qed.
Lemma dir_mem_named l m m' : (length l + 16 <= 512)%nat -> named m m' -> dir_mem l m -> dir_mem l m'.
Proof.
  intros Hl [O E] [Hm H0 Hp]. split; [exact O|rewrite E; auto; lia|]. intros i c Hi. pose proof (lookup_lt_Some _ _ _ Hi) as Hlt. rewrite length_app in Hlt. cbn [length] in Hlt.
  rewrite E by lia. auto.
Qed.

Lemma entry_name_length e : length e = 16%nat -> (length (name_of (drop 2 e)) <= 14)%nat.
Proof. intros He. destruct (name_of_prefix (drop 2 e)) as (r & Er & _). apply (f_equal length) in Er. rewrite length_app, length_drop in Er. lia. Qed.

Lemma ls_entry_ok l e m o : Forall (fun c => c <> 0) l -> (length l + 16 <= 512)%nat -> length e = 16%nat -> Forall (fun c => 0 <= c < 256) e -> dir_mem l m ->
  exists m', ls_entry nodes wr fbuf buf bound (buf + Z.of_nat (length l) + 1) e (at_mem m o) = Ok tt (at_mem m' (io_add 1 (entry_line l e) o)) /\
    dir_mem l m' /\ scribbled m m'.
Proof.
  intros Fl Hl He Fe D. destruct (entry_path l e m Fl Hl He Fe D) as (D1 & S1 & P1). unfold ls_entry, entry_line. cbv zeta in *.
  destruct (u16 _ =? 0); [exists m; rewrite io_add_nil; split; [reflexivity|]; split; [exact D|split; [apply D|auto]]|].
  set (m1 := store8 _ _ 0) in *. unfold memory, set_memory. unfold bind, gets, modify. cbn [ls_mem ls_io]. fold m1. pose proof (entry_name_length e He) as Hn.
  set (f := l ++ [47] ++ name_of (drop 2 e)) in *. assert (Lf : (length f < 512)%nat) by (subst f; rewrite !length_app; cbn [length]; lia).
  unfold ustat. rewrite (str_at_cstr m1 f buf bound P1) by lia. destruct (match nodes f with Some nd => nd_stat nd | None => None end) as [st|].
  - destruct (ls_line_ok buf f st m1 o (dm_ok _ _ D1) (dm_pad _ _ D1) P1) as (m2 & E & N); [unfold apart; lia|lia|exact Hbuf|].
    exists m2. split; [exact E|]. split; [now apply (dir_mem_named l m1)|]. apply (scribbled_trans _ m1); [exact S1|now apply scribbled_named].
  - exists m1. rewrite lsprintf_ok by apply D1. split; [|auto]. do 3 f_equal. rewrite <- (str_arg_at m1 buf f P1) by lia. reflexivity.
Qed.

Lemma ls_entries_ok l es : forall fuel fl m o, Forall (fun c => c <> 0) l -> (length l + 16 <= 512)%nat ->
  Forall (fun e => length e = 16%nat /\ Forall (fun c => 0 <= c < 256) e) es -> dir_mem l m -> (length es < fuel)%nat ->
  exists m', ls_entries nodes wr fbuf buf bound fuel (buf + Z.of_nat (length l) + 1) (mkStream es fl) (at_mem m o) =
    Ok tt (at_mem m' (io_add 1 (concat (map (entry_line l) es)) o)) /\ scribbled m m'.
Proof.
  induction es as [|e es IH]; intros [|fuel] fl m o Fl Hl Fe D Hf; cbn [length] in Hf; try lia; cbn [ls_entries map concat]; unfold uread; cbn [sm_pieces sm_fails].
  - rewrite io_add_nil. exists m. split; [now destruct fl|]. split; [apply D|auto].
  - inversion Fe as [|? ? [He Be] Fe']; subst. rewrite take_ge, drop_ge, He by lia. cbn [Z.of_nat Z.eqb Pos.eqb]. change (Z.of_nat 16 =? 16) with true. cbv iota.
    destruct (ls_entry_ok l e m o Fl Hl He Be D) as (m1 & E1 & D1 & S1). rewrite (bind_ok _ _ _ _ _ E1).
    destruct (IH fuel fl m1 (io_add 1 (entry_line l e) o) Fl Hl Fe' D1 ltac:(lia)) as (m2 & E2 & S2). exists m2. rewrite E2, io_add_app. split; [reflexivity|]. now apply (scribbled_trans _ m1).
Qed.
(** *** The whole program *)

Definition entries_ok (es : list (list Z)) : Prop := Forall (fun e => length e = 16%nat /\ Forall (fun c => 0 <= c < 256) e) es.

Definition dir_text (l : list Z) (es : list (list Z)) : list Z :=
  if 512 <? Z.of_nat (length l) + 16 then text "ls: path too long" ++ NL else concat (map (entry_line l) es).

(** A path of the arguments: not in a buffer, and not longer than the bound. *)
Record arg_at (m : mem) (path : Z) (l : list Z) : Prop := {
  ar_str : str_at m path l;
  ar_fbuf : apart path l;
  ar_buf : path + Z.of_nat (length l) < buf \/ buf + 512 <= path;
  ar_len : (length l < bound)%nat;
  ar_pos : 0 < path
}.

Lemma arg_at_scribbled m m' path l : scribbled m m' -> arg_at m path l -> arg_at m' path l.
Proof. intros [_ E] [S A B L P]. split; auto. revert S. apply str_at_ext. intros x Hx. apply E; unfold apart in A; lia. Qed.

Lemma entries_reads es fl : entries_ok es -> (length es < reads (mkStream es fl))%nat.
Proof. unfold reads. cbn [sm_pieces]. induction 1 as [|e es [He _] F IH]; cbn [concat length] in *; [lia|]. rewrite length_app. lia. Qed.

Lemma ls_dir_ok path l es fl m o : mem_ok m -> m (fbuf + 14) = 0 -> arg_at m path l -> entries_ok es ->
  exists m', ls_dir nodes wr fbuf buf bound path (mkStream es fl) (at_mem m o) = Ok tt (at_mem m' (io_add 1 (dir_text l es) o)) /\ scribbled m m'.
Proof.
  intros Hm H0 [S A B L P] Fe. unfold ls_dir, dir_text. rewrite (bind_ok _ _ _ _ _ (len_ok path l m o S L)). unfold DIRSIZ. replace (Z.of_nat (length l) + 1 + 14 + 1) with (Z.of_nat (length l) + 16) by lia.
  destruct (Z.ltb_spec 512 (Z.of_nat (length l) + 16)).
  - rewrite lsprintf_ok, printed_plain by (auto; repeat constructor; discriminate || lia). exists m. split; [reflexivity|now split].
  - destruct (strcpy_ok l bound m buf path Hm S ltac:(lia) ltac:(lia)) as (m1 & E1 & S1 & O1 & F1). pose proof (str_at_nonzero _ _ _ S) as Fl.
    unfold memory at 1. unfold bind at 1, gets at 1. cbn [ls_mem]. rewrite E1. cbn [rounds]. rewrite bind_ret. unfold set_memory at 1. unfold bind at 1, modify at 1. cbn [ls_io].
    rewrite (bind_ok _ _ _ _ _ (len_ok buf l m1 o S1 ltac:(lia))). cbv zeta. unfold memory, set_memory. unfold bind, gets, modify. cbn [ls_mem ls_io].
    set (m2 := store8 m1 (buf + Z.of_nat (length l)) 47).
    assert (D : dir_mem l m2).
    { split; [subst m2; auto with words| |].
      - subst m2. rewrite load8_store8_ne by lia. rewrite F1 by lia. exact H0.
      - intros i c Hi. subst m2. apply lookup_app_Some in Hi as [Hi|[Hge Hi]].
        + pose proof (lookup_lt_Some _ _ _ Hi). rewrite load8_store8_ne by lia. exact (str_at_char _ _ _ _ _ S1 Hi).
        + apply list_lookup_singleton_Some in Hi as [Hi <-]. replace i with (length l) by lia. now rewrite load8_store8_eq. }
    destruct (ls_entries_ok l es (reads (mkStream es fl)) fl m2 o Fl ltac:(lia) Fe D (entries_reads es fl Fe)) as (m3 & E3 & S3).
    exists m3. split; [exact E3|]. apply (scribbled_trans _ m2); [|exact S3]. split; [apply D|]. intros x _ Hx. subst m2. rewrite load8_store8_ne by lia. apply F1. lia.
Qed.

(** What [ls] writes for the path [l], and its complaints on descriptor 2. *)
Definition ls_text (l : list Z) : list Z * list Z :=
  match nodes l with
  | None => ([], text "ls: cannot open " ++ l ++ NL)
  | Some nd =>
      match nd_stat nd with
      | None => ([], text "ls: cannot stat " ++ l ++ NL)
      | Some st => (if st_type st =? T_FILE then node_line l st else if st_type st =? T_DIR then dir_text l (sm_pieces (nd_data nd)) else [], [])
      end
  end.

Definition both (t : list Z * list Z) (o : io) : io := mkIo (io_out o ++ fst t) (io_err o ++ snd t).

Hypothesis Hdirs : forall l nd st, nodes l = Some nd -> nd_stat nd = Some st -> st_type st = T_DIR -> entries_ok (sm_pieces (nd_data nd)).

Lemma both_out l o : io_add 1 l o = both (l, []) o.
Proof. unfold io_add, both. cbn. now rewrite app_nil_r. Qed.
Lemma both_err l o : io_add 2 l o = both ([], l) o.
Proof. unfold io_add, both. cbn. now rewrite app_nil_r. Qed.

Lemma ls_ok path l m o : mem_ok m -> m (fbuf + 14) = 0 -> arg_at m path l ->
  exists m', ls nodes wr fbuf buf bound path (at_mem m o) = Ok tt (at_mem m' (both (ls_text l) o)) /\ scribbled m m'.
Proof.
  intros Hm H0 R. destruct R as [S A B L P] eqn:ER. unfold ls, ls_text, memory. unfold bind at 1, gets. cbn [ls_mem]. rewrite (str_at_cstr m l path bound S L).
  assert (Same : scribbled m m) by (now split). destruct (nodes l) as [nd|] eqn:En; [destruct (nd_stat nd) as [st|] eqn:Es|].
  - destruct (st_type st =? T_FILE); [|destruct (Z.eqb_spec (st_type st) T_DIR) as [Ed|]].
    + destruct (ls_line_ok path l st m o Hm H0 S A L P) as (m' & E & N). exists m'. rewrite <- both_out. split; [exact E|now apply scribbled_named].
    + destruct (nd_data nd) as [es fl] eqn:Edat. specialize (Hdirs l nd st En Es Ed). rewrite Edat in Hdirs. rewrite <- both_out. exact (ls_dir_ok path l es fl m o Hm H0 R Hdirs).
    + exists m. split; [|exact Same]. unfold both, ret. cbn. rewrite !app_nil_r. now destruct o.
  - rewrite lsprintf_ok by exact Hm. exists m. rewrite <- both_err. split; [|exact Same]. do 3 f_equal. rewrite <- (str_arg_at m path l S L) by lia. reflexivity.
  - rewrite lsprintf_ok by exact Hm. exists m. rewrite <- both_err. split; [|exact Same]. do 3 f_equal. rewrite <- (str_arg_at m path l S L) by lia. reflexivity.
Qed.
Lemma both_nil o : both ([], []) o = o.
Proof. unfold both. cbn. rewrite !app_nil_r. now destruct o. Qed.

Lemma ls_args_ok argv paths : forall m o, mem_ok m -> m (fbuf + 14) = 0 -> Forall2 (arg_at m) argv paths ->
  exists m', ls_args nodes wr fbuf buf bound argv (at_mem m o) =
    Ok tt (at_mem m' (both (concat (map (fun l => fst (ls_text l)) paths), concat (map (fun l => snd (ls_text l)) paths)) o)) /\ scribbled m m'.
Proof.
  revert paths. induction argv as [|a argv IH]; intros paths m o Hm H0 F; inversion F as [|? l ? rest Ha F']; subst; cbn [ls_args map concat].
  - exists m. rewrite both_nil. split; [reflexivity|now split].
  - destruct (ls_ok a l m o Hm H0 Ha) as (m1 & E1 & S1). rewrite (bind_ok _ _ _ _ _ E1).
    destruct (IH rest m1 (both (ls_text l) o) (sc_ok _ _ S1)) as (m2 & E2 & S2).
    { rewrite (sc_out _ _ S1); [exact H0|lia|lia]. }
    { apply (Forall2_impl _ _ _ _ F'). intros a' l'. now apply arg_at_scribbled. }
    exists m2. rewrite E2. split; [|now apply (scribbled_trans _ m1)]. unfold both. cbn [fst snd io_out io_err]. now rewrite <- !app_assoc.
Qed.

(** C40: [ls] lists files and directories.  For each argument, or for the current
    directory, it writes one line for a file, and for a directory one line for every
    entry in use, in the order of the entries: the name, cut after its last slash and
    filled with blanks to 14 characters, and the type, the inode number and the size
    that [stat] reports; it says so if that fails.  It ends, a name of 14
    characters without NUL is not read past its end, and whatever the
    entries hold, nothing outside its two buffers is written. *)
Theorem ls_lists dot argv paths m o : mem_ok m -> m (fbuf + 14) = 0 -> Forall2 (arg_at m) (match argv with [] => [dot] | _ => argv end) paths ->
  exists m', ls_main nodes wr fbuf buf bound dot argv (mkLs m o) =
    Ok tt (mkLs m' (mkIo (io_out o ++ concat (map (fun l => fst (ls_text l)) paths)) (io_err o ++ concat (map (fun l => snd (ls_text l)) paths)))) /\ scribbled m m'.
Proof.
  intros Hm H0 F. unfold ls_main. destruct argv as [|a argv]; [|exact (ls_args_ok _ _ m o Hm H0 F)].
  destruct (ls_args_ok _ _ m o Hm H0 F) as (m' & E & S). exists m'. split; [|exact S]. cbn [ls_args] in E. unfold bind in E.
  destruct (ls nodes wr fbuf buf bound dot (mkLs m o)) as [[] s| | |]; try discriminate. exact E.
Qed.
End Listing.

(** A directory with a file [ab], a free entry and an entry whose file is missing. *)
Definition sample_nodes (l : list Z) : option node :=
  if decide (l = [46]) then Some (mkNode (Some (mkStat T_DIR 1 1 1 48)) (mkStream [[2; 0; 97; 98] ++ replicate 12 0; replicate 16 0; [3; 0; 99] ++ replicate 13 0] false))
  else if decide (l = [46; 47; 97; 98]) then Some (mkNode (Some (mkStat T_FILE 1 2 1 7)) (mkStream [] false)) else None.

Lemma ls_lists_witness : exists m', ls_main sample_nodes (fun _ _ b => Z.of_nat (length b)) 100 200 512 10 [] (mkLs (fun x => if x =? 10 then 46 else 0) (mkIo [] [])) =
  Ok tt (mkLs m' (mkIo (text "ab             2 2 7" ++ NL ++ text "ls: cannot stat ./c" ++ NL) [])).
Proof.
  destruct (ls_lists sample_nodes (fun _ _ b => Z.of_nat (length b)) 100 200 512 ltac:(reflexivity) ltac:(lia) ltac:(lia) ltac:(lia) ltac:(lia)) with
    (dot := 10) (argv := @nil Z) (paths := [[46]]) (m := fun x => if x =? 10 then 46 else 0) (o := mkIo [] []) as (m' & E & _).
  - intros l nd st En Es Et. unfold sample_nodes in En. destruct (decide _); [injection En as <-; repeat constructor; cbn; lia|]. destruct (decide _); [|discriminate].
    injection En as <-. injection Es as <-. discriminate.
  - intros x. destruct (x =? 10); lia.
  - reflexivity.
  - constructor; [|constructor]. split; [|unfold apart; cbn [length]; lia..|lia]. split; [discriminate|]. split; reflexivity.
  - exists m'. exact E.
Defined.
