(* ===== verification/Uart.v ===== *)
(** The serial port: [uartinit], [uartgetc] and [uartintr] of
    [src/xv6/xv6-public/uart.c], with the console of [Console] (which has
    [uartputc]) and the I/O APIC of [Apic].

    The port answers 0xFF in the status register if it is missing.  Otherwise
    its transmitter is empty, bit 0 of the status says that a byte has arrived,
    and reading the data register takes that byte.  What is written to the
    registers is recorded. *)

From stdpp Require Import gmap strings.
From S2P Require Import Prelude Trap Apic Console Kbd User.

Definition COM1 : Z := 0x3f8.

Record port := mkPort {
  po_there : bool;
  po_rx : list Z;               (* bytes that have arrived *)
  po_set : list (Z * Z)         (* register writes, in their order *)
}.

Record uartst := mkUart { u_port : port; u_cons : console; u_ioapic : Apic.ioapic }.

Abbreviation U := (M uartst).

Definition set_port (p : port) (s : uartst) : uartst := mkUart p (u_cons s) (u_ioapic s).
Definition set_uart (b : bool) (c : console) : console :=
  mkCons (c_buf c) (c_r c) (c_w c) (c_e c) b (c_serial c) (c_pos c) (c_crt c) (c_panicked c) (c_wakeups c).
Definition on_cons {A} (m : M console A) : U A := zoom u_cons (fun c s => mkUart (u_port s) c (u_ioapic s)) m.
Definition on_ioapic {A} (m : M Apic.ioapic A) : U A := zoom u_ioapic (fun a s => mkUart (u_port s) (u_cons s) a) m.

Definition uart_outb (reg data : Z) : U unit :=
  modify (fun s => let p := u_port s in set_port (mkPort (po_there p) (po_rx p) (po_set p ++ [(reg, u8 data)])) s).

Definition uart_status (p : port) : Z := if po_there p then Z.lor 0x60 (match po_rx p with [] => 0 | _ => 1 end) else 0xFF.

Definition uart_inb (reg : Z) : U Z :=
  p <- gets u_port ;;
  if reg =? COM1 + 5 then ret (uart_status p)
  else if reg =? COM1 then
    match po_rx p with
    | [] => ret 0
    | c :: l => modify (set_port (mkPort (po_there p) l (po_set p))) ;;; ret (u8 c)
    end
  else ret 0.

Fixpoint uart_puts (l : list Z) : U unit := match l with [] => ret tt | c :: l => on_cons (uartputc c) ;;; uart_puts l end.

Definition uartinit : U unit :=
  uart_outb (COM1 + 2) 0 ;;;
  uart_outb (COM1 + 3) 0x80 ;;;
  uart_outb (COM1 + 0) (115200 / 9600) ;;;
  uart_outb (COM1 + 1) 0 ;;;
  uart_outb (COM1 + 3) 0x03 ;;;
  uart_outb (COM1 + 4) 0 ;;;
  uart_outb (COM1 + 1) 0x01 ;;;
  st <- uart_inb (COM1 + 5) ;;
  if st =? 0xFF then ret tt else
  on_cons (modify (set_uart true)) ;;;
  uart_inb (COM1 + 2) ;;;
  uart_inb (COM1 + 0) ;;;
  on_ioapic (ioapicenable IRQ_COM1 0) ;;;
  uart_puts (text "xv6..." ++ NL).

Definition uartgetc : U Z :=
  u <- gets (fun s => c_uart (u_cons s)) ;;
  if negb u then ret (-1) else
  st <- uart_inb (COM1 + 5) ;;
  if negb (truth (Z.land st 0x01)) then ret (-1) else
  uart_inb (COM1 + 0).

(** The calls of [getc] that [consoleintr] makes, up to the first negative result. *)
Fixpoint uart_drain (fuel : nat) : U (list Z) :=
  match fuel with
  | O => nofuel
  | S fuel => c <- uartgetc ;; if 0 <=? c then cs <- uart_drain fuel ;; ret (c :: cs) else ret []
  end.

Definition uartintr : U bool :=
  n <- gets (fun s => length (po_rx (u_port s))) ;;
  cs <- uart_drain (S n) ;;
  on_cons (consoleintr cs).

(** Interrupts for the bytes that have arrived since the last one. *)
Fixpoint uart_session (batches : list (list Z)) : U unit :=
  match batches with
  | [] => ret tt
  | b :: batches =>
      modify (fun s => let p := u_port s in set_port (mkPort (po_there p) (po_rx p ++ b) (po_set p)) s) ;;;
      uartintr ;;; uart_session batches
  end.

(** ** Properties *)

(** The console never changes [uart]. *)
Section Flag.
Variable u : bool.
Abbreviation keeps m := (ledger (fun s : console => c_uart s = u) (fun _ (_ : unit) => 0) m (fun _ _ => 0)).

Lemma keeps_modify f : (forall s, c_uart (f s) = c_uart s) -> keeps (modify f).
Proof. intros Hf s a s' E T. injection E as <- <-. split; [now rewrite Hf|lia]. Qed.

Lemma keeps_uartputc c : keeps (uartputc c).
Proof. apply keeps_modify. intros s. now destruct (c_uart s) eqn:E. Qed.
Lemma keeps_put_crt pos v : keeps (put_crt pos v).
Proof. unfold put_crt. apply ledger_still; [apply ledger_gets|]. intros s0. destruct (_ && _); [|apply ledger_fault]. now apply keeps_modify. Qed.
#[local] Hint Resolve keeps_uartputc keeps_put_crt : ledger.
#[local] Hint Extern 1 (ledger _ _ (modify _) _) => apply keeps_modify; intros; reflexivity : ledger.

Lemma keeps_consputc c : keeps (consputc c).
Proof. unfold consputc, cgaputc. still. Qed.
#[local] Hint Resolve keeps_consputc : ledger.

Lemma keeps_rub_out : keeps rub_out.
Proof. unfold rub_out. still. Qed.
#[local] Hint Resolve keeps_rub_out : ledger.

Lemma keeps_kill_line fuel : keeps (kill_line fuel).
Proof. induction fuel as [|fuel IH]; cbn [kill_line]; still. Qed.
#[local] Hint Resolve keeps_kill_line : ledger.

Lemma keeps_intr cs : forall dump, keeps (intr_loop cs dump).
Proof. induction cs as [|c cs IH]; intros dump; cbn [intr_loop]; [still|]. apply ledger_still; [unfold intr_char; still|]. intros d. apply IH. Qed.
End Flag.

Lemma cons_is_uart c R q p b : cons_is c R q p -> cons_is (set_uart b c) R q p.
Proof. intros (S & I & N). split; [exact S|]. split; [|exact N]. destruct I. now constructor. Qed.

Lemma uart_puts_ok l : forall s R q p, cons_is (u_cons s) R q p -> c_uart (u_cons s) = true ->
  exists c, uart_puts l s = Ok tt (mkUart (u_port s) c (u_ioapic s)) /\ cons_is c R q p /\ c_uart c = true /\ c_serial c = c_serial (u_cons s) ++ map u8 l.
Proof.
  induction l as [|x l IH]; intros [po c a] R q p C Hu; cbn [uart_puts u_cons u_port u_ioapic map] in *; [exists c; rewrite app_nil_r; auto|].
  destruct (uartputc_shows x c (proj1 C)) as (c1 & E1 & S1). unfold bind at 1, on_cons at 1, zoom at 1. cbn [u_cons u_port u_ioapic]. rewrite E1.
  assert (C1 : cons_is c1 R q p) by (split; [apply S1|split; [exact (input_shows c R q p (proj1 (proj2 C)) c1 _ S1)|apply C]]).
  destruct (IH (mkUart po c1 a) R q p C1) as (c2 & E2 & C2 & U2 & L2); [cbn [u_cons]; now rewrite (sh_uart _ _ _ S1)|]. exists c2. split; [exact E2|]. split; [exact C2|]. split; [exact U2|].
  rewrite L2. cbn [u_cons]. rewrite (sh_serial _ _ _ S1), Hu, <- app_assoc. reflexivity.
Qed.

Lemma uart_drain_ok l : forall fuel po c a, po_there po = true -> po_rx po = l -> c_uart c = true -> bytes_in l -> (length l < fuel)%nat ->
  uart_drain fuel (mkUart po c a) = Ok l (mkUart (mkPort true [] (po_set po)) c a).
Proof.
  induction l as [|x l IH]; intros [|fuel] [th rx se] c a Ht Hl Hu Hb Hf; cbn [length] in Hf; try lia; cbn [po_there po_rx po_set] in *; subst th rx; cbn [uart_drain].
  - unfold uartgetc, bind, gets. cbn [u_cons]. now rewrite Hu.
  - apply Forall_cons in Hb as [Hx Hb]. rewrite (bind_ok uartgetc _ (mkUart (mkPort true (x :: l) se) c a) x (mkUart (mkPort true l se) c a)).
    + rewrite (proj2 (Z.leb_le _ _)) by lia. now rewrite (bind_ok _ _ _ _ _ (IH fuel (mkPort true l se) c a eq_refl eq_refl Hu Hb ltac:(lia))).
    + unfold uartgetc. unfold bind at 1, gets at 1. cbn [u_cons]. rewrite Hu. rewrite <- (u8_small x Hx) at 2. reflexivity.
Qed.

Lemma uartintr_ok po c a R q p : po_there po = true -> c_uart c = true -> bytes_in (po_rx po) -> cons_is c R q p ->
  let qp := fold_left (fun qp c => key c qp) (po_rx po) (q, p) in
  exists dump c', uartintr (mkUart po c a) = Ok dump (mkUart (mkPort true [] (po_set po)) c' a) /\ cons_is c' R (fst qp) (snd qp) /\ c_uart c' = true.
Proof.
  intros Ht Hu Hb C qp. destruct (consoleintr_ok (po_rx po) c R q p false C Hb) as (c' & E & C'). eexists _, c'. split; [|split; [exact C'|]].
  - unfold uartintr. rewrite (bind_ok (gets _) _ _ (length (po_rx po)) (mkUart po c a) eq_refl).
    rewrite (bind_ok _ _ _ _ _ (uart_drain_ok (po_rx po) (S (length (po_rx po))) po c a Ht eq_refl Hu Hb ltac:(lia))). unfold on_cons, zoom, consoleintr. cbn [u_cons]. now rewrite E.
  - exact (proj1 (keeps_intr true _ _ _ _ _ E Hu)).
Qed.

Lemma uart_session_ok batches : forall se c a R q p, c_uart c = true -> bytes_in (concat batches) -> cons_is c R q p ->
  let qp := fold_left (fun qp c => key c qp) (concat batches) (q, p) in
  exists c', uart_session batches (mkUart (mkPort true [] se) c a) = Ok tt (mkUart (mkPort true [] se) c' a) /\ cons_is c' R (fst qp) (snd qp).
Proof.
  induction batches as [|b batches IH]; intros se c a R q p Hu Hb C; [exists c; auto|]. cbn [concat uart_session] in *. apply Forall_app in Hb as [Hb Hbs].
  destruct (uartintr_ok (mkPort true b se) c a R q p eq_refl Hu Hb C) as (dump & c1 & E1 & C1 & U1).
  rewrite (bind_ok (modify _) _ (mkUart (mkPort true [] se) c a) tt (mkUart (mkPort true b se) c a) eq_refl), (bind_ok _ _ _ _ _ E1).
  destruct (IH se c1 a R _ _ U1 Hbs C1) as (c2 & E2 & C2). exists c2. split; [exact E2|]. cbn [po_rx] in C2. rewrite fold_left_app. now destruct (fold_left _ b (q, p)).
Qed.

Lemma uartinit_ok rx se c a R q p : (length rx <= 1)%nat -> cons_is c R q p ->
  exists se' c1 a', uartinit (mkUart (mkPort true rx se) c a) = Ok tt (mkUart (mkPort true [] se') c1 a') /\ cons_is c1 R q p /\ c_uart c1 = true /\
    io_regs a' (REG_TABLE + 2 * IRQ_COM1) = T_IRQ0 + IRQ_COM1 /\ io_regs a' (REG_TABLE + 2 * IRQ_COM1 + 1) = 0 /\ c_serial c1 = c_serial c ++ text "xv6..." ++ NL.
Proof.
  intros Hrx C.
  assert (E : forall po' a', exists c1, uart_puts (text "xv6..." ++ NL) (mkUart po' (set_uart true c) a') = Ok tt (mkUart po' c1 a') /\ cons_is c1 R q p /\ c_uart c1 = true /\
    c_serial c1 = c_serial c ++ text "xv6..." ++ NL).
  { intros po' a'. destruct (uart_puts_ok (text "xv6..." ++ NL) (mkUart po' (set_uart true c) a') R q p (cons_is_uart _ _ _ _ true C) eq_refl) as (c1 & E1 & C1 & U1 & L1). eauto. }
  destruct rx as [|x [|]]; [| |cbn in Hrx; lia]; (edestruct E as (c1 & E1 & C1 & U1 & L1); eexists _, c1, _; split; [exact E1|auto]).
Qed.

Lemma uart_absent batches : forall rx se c a, c_uart c = false -> exists rx' se', uart_session batches (mkUart (mkPort false rx se) c a) = Ok tt (mkUart (mkPort false rx' se') c a).
Proof.
  induction batches as [|b batches IH]; intros rx se c a Hu; [eexists _, _; reflexivity|]. cbn [uart_session]. rewrite (bind_ok (modify _) _ (mkUart (mkPort false rx se) c a) tt (mkUart (mkPort false (rx ++ b) se) c a) eq_refl).
  rewrite (bind_ok uartintr _ _ false (mkUart (mkPort false (rx ++ b) se) c a)); [apply IH; exact Hu|].
  unfold uartintr. rewrite (bind_ok (gets _) _ _ (length (rx ++ b)) (mkUart (mkPort false (rx ++ b) se) c a) eq_refl). cbn [uart_drain]. unfold uartgetc, bind, gets. cbn [u_cons]. rewrite Hu. reflexivity.
Qed.

(** What arrives at the serial port is typed at the console.  After [uartinit], which
    drops a byte that was there before, programs the speed, routes the interrupt to the
    first processor and sends its greeting, the bytes that arrive, split over interrupts
    in any way, edit the lines of the console just like keys; nothing is lost.
    Without a port both do nothing to the console. *)
Theorem uart_line s batches R q p : (length (po_rx (u_port s)) <= 1)%nat -> cons_is (u_cons s) R q p -> bytes_in (concat batches) -> c_uart (u_cons s) = false ->
  let qp := if po_there (u_port s) then fold_left (fun qp c => key c qp) (concat batches) (q, p) else (q, p) in
  exists s', (uartinit ;;; uart_session batches) s = Ok tt s' /\ cons_is (u_cons s') R (fst qp) (snd qp) /\
    if po_there (u_port s) then po_rx (u_port s') = [] /\ io_regs (u_ioapic s') (REG_TABLE + 2 * IRQ_COM1) = T_IRQ0 + IRQ_COM1 /\ io_regs (u_ioapic s') (REG_TABLE + 2 * IRQ_COM1 + 1) = 0
    else u_cons s' = u_cons s.
Proof.
  destruct s as [[th rx se] c a]. cbn [u_port po_rx u_cons po_there]. intros Hrx C Hb Hu. destruct th.
  - destruct (uartinit_ok rx se c a R q p Hrx C) as (se' & c1 & a' & E & C1 & U1 & A1 & A2 & _). rewrite (bind_ok _ _ _ _ _ E).
    destruct (uart_session_ok batches se' c1 a' R q p U1 Hb C1) as (c2 & E2 & C2). eexists. split; [exact E2|]. split; [exact C2|]. auto.
  - edestruct (uart_absent batches rx) as (rx' & se' & E); [exact Hu|]. eexists. split; [exact E|]. auto.
Qed.
