(* ===== verification/Segs.v ===== *)
(** Segments and gates: the descriptor formats of [src/xv6/xv6-public/mmu.h],
    [seginit] of [vm.c], [tvinit] and [idtinit] of [trap.c], and [lgdt] and
    [lidt] of [x86.h].

    The tables are arrays of descriptors.  The processor sees a descriptor as
    the 64-bit word that its bit fields make up, and the tables through the base
    and the limit in the registers that [lgdt] and [lidt] load.  How it takes an
    interrupt, and what it demands of an [int] instruction, is the last part of the
    model. *)

From stdpp Require Import gmap.
From S2P Require Import Prelude Mmu Spinlock Proc Trap.

Definition SEG_KCODE : Z := 1.
Definition NSEGS : Z := 6.
Definition STA_X : Z := 0x8.
Definition STA_W : Z := 0x2.
Definition STA_R : Z := 0x2.
Definition STS_IG32 : Z := 0xE.
Definition STS_TG32 : Z := 0xF.

(** A bit field of [w] bits. *)
Definition field (w v : Z) : Z := v mod 2 ^ w.

Definition SEG (type base lim dpl : Z) : segdesc :=
  mkSeg (Z.land (Z.shiftr lim 12) 0xffff) (Z.land (u32 base) 0xffff) (Z.land (Z.shiftr (u32 base) 16) 0xff) (field 4 type) 1 (field 2 dpl) 1
        (field 4 (Z.shiftr (u32 lim) 28)) 0 0 1 1 (field 8 (Z.shiftr (u32 base) 24)).

Record gatedesc := mkGate {
  off_15_0 : Z; g_cs : Z; g_args : Z; g_rsv1 : Z; g_type : Z; g_s : Z; g_dpl : Z; g_p : Z; off_31_16 : Z }.

(** [SETGATE] sets every field. *)
Definition SETGATE (istrap sel off d : Z) : gatedesc :=
  mkGate (Z.land (u32 off) 0xffff) (field 16 sel) 0 0 (if truth istrap then STS_TG32 else STS_IG32) 0 (field 2 d) 1 (Z.shiftr (u32 off) 16).

(** What [lgdt] and [lidt] load: the three words [pd]. *)
Definition pseudo (p size : Z) : Z * Z * Z := (u16 (size - 1), u16 p, u16 (Z.shiftr (u32 p) 16)).

(** The state: the table of this processor at [sg_gdt], the interrupt table, the two
    registers and the lock of [ticks]. *)
Record segst := mkSegs {
  sg_gdt : list segdesc;
  sg_idt : list gatedesc;
  sg_gdtr : Z * Z * Z;
  sg_idtr : Z * Z * Z;
  sg_tickslock : spinlock
}.

(** [c->gdt[i] = d]; out of range it would write past the array. *)
Definition set_gdt (i : Z) (d : segdesc) : M segst unit :=
  s <- gets id ;;
  if (Z.to_nat i <? length (sg_gdt s))%nat
  then modify (fun s => mkSegs (<[Z.to_nat i := d]> (sg_gdt s)) (sg_idt s) (sg_gdtr s) (sg_idtr s) (sg_tickslock s))
  else fault "gdt".

Definition set_idt (i : Z) (g : gatedesc) : M segst unit :=
  s <- gets id ;;
  if (Z.to_nat i <? length (sg_idt s))%nat
  then modify (fun s => mkSegs (sg_gdt s) (<[Z.to_nat i := g]> (sg_idt s)) (sg_gdtr s) (sg_idtr s) (sg_tickslock s))
  else fault "idt".

Definition lgdt (p size : Z) : M segst unit :=
  modify (fun s => mkSegs (sg_gdt s) (sg_idt s) (pseudo p size) (sg_idtr s) (sg_tickslock s)).
Definition lidt (p size : Z) : M segst unit :=
  modify (fun s => mkSegs (sg_gdt s) (sg_idt s) (sg_gdtr s) (pseudo p size) (sg_tickslock s)).

Section Tables.
(** The addresses of the two tables, and the table of entry points that [vectors.pl]
    makes. *)
Variables gdt idt : Z.
Variable vectors : Z -> Z.

Definition seginit : M segst unit :=
  set_gdt SEG_KCODE (SEG (Z.lor STA_X STA_R) 0 0xffffffff 0) ;;;
  set_gdt SEG_KDATA (SEG STA_W 0 0xffffffff 0) ;;;
  set_gdt SEG_UCODE (SEG (Z.lor STA_X STA_R) 0 0xffffffff DPL_USER) ;;;
  set_gdt SEG_UDATA (SEG STA_W 0 0xffffffff DPL_USER) ;;;
  lgdt gdt (NSEGS * 8).

(** [for(i = 0; i < 256; i++)], [k] rounds from [i] on. *)
Fixpoint tvinit_loop (k : nat) (i : Z) : M segst unit :=
  match k with
  | O => ret tt
  | S k => set_idt i (SETGATE 0 (Z.shiftl SEG_KCODE 3) (vectors i) 0) ;;; tvinit_loop k (i + 1)
  end.

Definition tvinit : M segst unit :=
  tvinit_loop 256 0 ;;;
  set_idt T_SYSCALL (SETGATE 1 (Z.shiftl SEG_KCODE 3) (vectors T_SYSCALL) DPL_USER) ;;;
  modify (fun s => mkSegs (sg_gdt s) (sg_idt s) (sg_gdtr s) (sg_idtr s) (mkLock 0 0)).

Definition idtinit : M segst unit := lidt idt (256 * 8).
End Tables.

(** ** What the processor does with the tables *)

(** The words: the bit fields from the lowest bit on. *)
Definition seg_word (d : segdesc) : Z :=
  lim_15_0 d + base_15_0 d * 2 ^ 16 + base_23_16 d * 2 ^ 32 + sd_type d * 2 ^ 40 + sd_s d * 2 ^ 44 + sd_dpl d * 2 ^ 45 + sd_p d * 2 ^ 47 +
  lim_19_16 d * 2 ^ 48 + sd_avl d * 2 ^ 52 + sd_rsv1 d * 2 ^ 53 + sd_db d * 2 ^ 54 + sd_g d * 2 ^ 55 + base_31_24 d * 2 ^ 56.
Definition gate_word (g : gatedesc) : Z :=
  off_15_0 g + g_cs g * 2 ^ 16 + g_args g * 2 ^ 32 + g_rsv1 g * 2 ^ 37 + g_type g * 2 ^ 40 + g_s g * 2 ^ 44 + g_dpl g * 2 ^ 45 + g_p g * 2 ^ 47 + off_31_16 g * 2 ^ 48.

(** [w] bits from bit [a] on. *)
Definition bits (a w x : Z) : Z := x / 2 ^ a mod 2 ^ w.

Definition seg_base (x : Z) : Z := bits 16 24 x + bits 56 8 x * 2 ^ 24.
Definition seg_limit (x : Z) : Z :=
  let l := bits 0 16 x + bits 48 4 x * 2 ^ 16 in if bits 55 1 x =? 1 then l * 4096 + 4095 else l.
Definition seg_dpl (x : Z) : Z := bits 45 2 x.
(** Present, and not a system descriptor; bit 3 of the type tells code from data. *)
Definition seg_present (x : Z) : bool := (bits 47 1 x =? 1) && (bits 44 1 x =? 1).
Definition seg_code (x : Z) : bool := bits 43 1 x =? 1.

(** The base address in a register: the second and the third word. *)
Definition reg_base (r : Z * Z * Z) : Z := snd (fst r) + snd r * 2 ^ 16.

Section Processor.
(** Where the two tables lie in memory. *)
Variables gdt idt : Z.

(** The entries that the register leads to: its base is the address of the table, and
    they lie within its limit. *)
Definition gdt_entry (s : segst) (i : Z) : option Z :=
  if (reg_base (sg_gdtr s) =? u32 gdt) && (8 * i + 7 <=? fst (fst (sg_gdtr s))) then option_map seg_word (sg_gdt s !! Z.to_nat i) else None.
Definition idt_entry (s : segst) (n : Z) : option Z :=
  if (reg_base (sg_idtr s) =? u32 idt) && (8 * n + 7 <=? fst (fst (sg_idtr s))) then option_map gate_word (sg_idt s !! Z.to_nat n) else None.

(** Vector [n] at privilege level [cpl], by an [int] instruction or not: the new level,
    the address of the handler and whether interrupts stay enabled; [None] is a
    protection fault. *)
Definition enter (s : segst) (cpl : Z) (int : bool) (n : Z) : option (Z * Z * bool) :=
  match idt_entry s n with
  | None => None
  | Some g =>
      let type := bits 40 5 g in
      if negb (bits 47 1 g =? 1) || negb ((type =? STS_IG32) || (type =? STS_TG32)) then None
      else if int && (bits 45 2 g <? cpl) then None
      else
        match gdt_entry s (bits 19 13 g) with
        | None => None
        | Some d =>
            if seg_present d && seg_code d && (seg_dpl d <=? cpl)
            then Some (seg_dpl d, u32 (seg_base d + bits 0 16 g + bits 48 16 g * 2 ^ 16), type =? STS_TG32)
            else None
        end
  end.

End Processor.

(** ** Properties *)

(** The processor reads the address that [lgdt] or [lidt] was given. *)
Lemma pseudo_base p size : reg_base (pseudo p size) = u32 p.
Proof.
  unfold reg_base, pseudo, u16, u32, two32. cbn [fst snd]. rewrite Z.shiftr_div_pow2 by lia. change (2 ^ 16) with 65536. Z.to_euclidean_division_equations. lia.
Qed.

(** The processor reads from a gate what [SETGATE] was given. *)
Lemma gate_bits istrap off d : 0 <= off < two32 -> d = 0 \/ d = DPL_USER ->
  let g := gate_word (SETGATE istrap (Z.shiftl SEG_KCODE 3) off d) in
  bits 47 1 g = 1 /\ bits 40 5 g = (if truth istrap then STS_TG32 else STS_IG32) /\ bits 45 2 g = d /\ bits 19 13 g = SEG_KCODE /\
  bits 0 16 g + bits 48 16 g * 2 ^ 16 = off.
Proof.
  intros Ho Hd. cbv zeta. unfold gate_word, SETGATE. cbn [off_15_0 g_cs g_args g_rsv1 g_type g_s g_dpl g_p off_31_16]. rewrite (u32_small off Ho).
  change 0xffff with (Z.ones 16). rewrite Z.land_ones, Z.shiftr_div_pow2 by lia. unfold bits, field, two32, DPL_USER, STS_TG32, STS_IG32 in *.
  change (Z.shiftl SEG_KCODE 3) with 8. change SEG_KCODE with 1.
  assert (Hg : exists lo hi, off mod 2 ^ 16 = lo /\ off / 2 ^ 16 = hi /\ 0 <= lo < 65536 /\ 0 <= hi < 65536 /\ off = lo + 65536 * hi).
  { eexists _, _. split; [reflexivity|]. split; [reflexivity|]. change (2 ^ 16) with 65536. Z.to_euclidean_division_equations. lia. }
  destruct Hg as (lo & hi & -> & -> & Hlo & Hhi & ->). clear Ho.
  destruct (truth istrap), Hd as [-> | ->]; change (2 ^ 16) with 65536; change (2 ^ 48) with 281474976710656; cbn; split_and!; Z.to_euclidean_division_equations; lia.
Qed.

Section Entry.
Variables gdt idt : Z.
Variable vectors : Z -> Z.
Hypothesis Hvec : forall n, 0 <= vectors n < two32.

Abbreviation kgate n := (SETGATE 0 (Z.shiftl SEG_KCODE 3) (vectors n) 0).

Lemma set_idt_ok i g s : 0 <= i -> (Z.to_nat i < length (sg_idt s))%nat ->
  set_idt i g s = Ok tt (mkSegs (sg_gdt s) (<[Z.to_nat i := g]> (sg_idt s)) (sg_gdtr s) (sg_idtr s) (sg_tickslock s)).
Proof. intros Hi Hl. unfold set_idt, bind, gets, id. now rewrite (proj2 (Nat.ltb_lt _ _) Hl). Qed.

Lemma tvinit_loop_ok k : forall i s, 0 <= i -> (Z.to_nat i + k <= length (sg_idt s))%nat ->
  exists l, tvinit_loop vectors k i s = Ok tt (mkSegs (sg_gdt s) l (sg_gdtr s) (sg_idtr s) (sg_tickslock s)) /\ length l = length (sg_idt s) /\
    forall j, l !! j = if decide (Z.to_nat i <= j < Z.to_nat i + k)%nat then Some (kgate (Z.of_nat j)) else sg_idt s !! j.
Proof.
  induction k as [|k IH]; intros i s Hi Hk; cbn [tvinit_loop].
  - exists (sg_idt s). split; [now destruct s|]. split; [reflexivity|]. intros j. now rewrite decide_False by lia.
  - rewrite (bind_ok _ _ _ _ _ (set_idt_ok i (kgate i) s Hi ltac:(lia))).
    destruct (IH (i + 1) (mkSegs (sg_gdt s) (<[Z.to_nat i := kgate i]> (sg_idt s)) (sg_gdtr s) (sg_idtr s) (sg_tickslock s)) ltac:(lia) ltac:(cbn [sg_idt]; rewrite length_insert; lia)) as (l & E & Ll & L).
    exists l. cbn [sg_gdt sg_idt sg_gdtr sg_idtr sg_tickslock] in *. rewrite length_insert in Ll. split; [exact E|]. split; [exact Ll|]. intros j. rewrite L.
    destruct (decide (Z.to_nat i = j)) as [<-|Hne].
    + rewrite decide_False, decide_True by lia. rewrite list_lookup_insert_eq by lia. now rewrite Z2Nat.id.
    + rewrite list_lookup_insert_ne by exact Hne. destruct (decide (Z.to_nat (i + 1) <= j < Z.to_nat (i + 1) + k)%nat); [rewrite decide_True by lia|rewrite decide_False by lia]; reflexivity.
Qed.

(** The state after the three routines. *)
Record tables_set (s : segst) : Prop := {
  ts_gdtr : fst (fst (sg_gdtr s)) = 47 /\ reg_base (sg_gdtr s) = u32 gdt;
  ts_idtr : fst (fst (sg_idtr s)) = 2047 /\ reg_base (sg_idtr s) = u32 idt;
  ts_kcode : sg_gdt s !! 1%nat = Some (SEG (Z.lor STA_X STA_R) 0 0xffffffff 0);
  ts_kdata : sg_gdt s !! 2%nat = Some (SEG STA_W 0 0xffffffff 0);
  ts_ucode : sg_gdt s !! 3%nat = Some (SEG (Z.lor STA_X STA_R) 0 0xffffffff DPL_USER);
  ts_udata : sg_gdt s !! 4%nat = Some (SEG STA_W 0 0xffffffff DPL_USER);
  ts_gates : forall n, 0 <= n < 256 -> sg_idt s !! Z.to_nat n =
    Some (if n =? T_SYSCALL then SETGATE 1 (Z.shiftl SEG_KCODE 3) (vectors T_SYSCALL) DPL_USER else kgate n)
}.

Lemma seginit_ok s : length (sg_gdt s) = 6%nat ->
  exists g, seginit gdt s = Ok tt (mkSegs g (sg_idt s) (pseudo gdt (NSEGS * 8)) (sg_idtr s) (sg_tickslock s)) /\
    g !! 1%nat = Some (SEG (Z.lor STA_X STA_R) 0 0xffffffff 0) /\ g !! 2%nat = Some (SEG STA_W 0 0xffffffff 0) /\
    g !! 3%nat = Some (SEG (Z.lor STA_X STA_R) 0 0xffffffff DPL_USER) /\ g !! 4%nat = Some (SEG STA_W 0 0xffffffff DPL_USER).
Proof.
  destruct s as [g l gr ir tl]. cbn [sg_gdt]. intros Hg. do 6 (destruct g as [|? g]; [discriminate|]). destruct g; [|discriminate].
  eexists. split; [reflexivity|]. repeat split.
Qed.

Lemma tvinit_ok s : length (sg_idt s) = 256%nat ->
  exists l, tvinit vectors s = Ok tt (mkSegs (sg_gdt s) l (sg_gdtr s) (sg_idtr s) (mkLock 0 0)) /\
    forall n, 0 <= n < 256 -> l !! Z.to_nat n = Some (if n =? T_SYSCALL then SETGATE 1 (Z.shiftl SEG_KCODE 3) (vectors T_SYSCALL) DPL_USER else kgate n).
Proof.
  intros Hi. destruct (tvinit_loop_ok 256 0 s ltac:(lia) ltac:(change (Z.to_nat 0) with 0%nat; lia)) as (l & E & Ll & L). rewrite Hi in Ll.
  unfold tvinit. rewrite (bind_ok _ _ _ _ _ E).
  erewrite (bind_ok (set_idt _ _)) by (apply set_idt_ok; [unfold T_SYSCALL; lia|cbn [sg_idt]; rewrite Ll; unfold T_SYSCALL; lia]).
  exists (<[Z.to_nat T_SYSCALL := SETGATE 1 (Z.shiftl SEG_KCODE 3) (vectors T_SYSCALL) DPL_USER]> l). split; [reflexivity|]. intros n Hn. destruct (Z.eqb_spec n T_SYSCALL) as [->|Hne].
  - apply list_lookup_insert_eq. rewrite Ll. unfold T_SYSCALL. lia.
  - rewrite list_lookup_insert_ne by (unfold T_SYSCALL in *; lia). rewrite L, decide_True by (change (Z.to_nat 0) with 0%nat; lia). now rewrite Z2Nat.id by lia.
Qed.

Lemma tables_ok s : length (sg_gdt s) = 6%nat -> length (sg_idt s) = 256%nat ->
  exists s', (seginit gdt ;;; tvinit vectors ;;; idtinit idt) s = Ok tt s' /\ tables_set s' /\ sg_tickslock s' = mkLock 0 0.
Proof.
  intros Hg Hi. destruct (seginit_ok s Hg) as (g & E1 & G1 & G2 & G3 & G4). rewrite (bind_ok _ _ _ _ _ E1).
  destruct (tvinit_ok (mkSegs g (sg_idt s) (pseudo gdt (NSEGS * 8)) (sg_idtr s) (sg_tickslock s)) Hi) as (l & E2 & L). rewrite (bind_ok _ _ _ _ _ E2).
  eexists. split; [reflexivity|]. split; [|reflexivity]. constructor; auto; (split; [reflexivity|apply pseudo_base]).
Qed.

Definition flat (s : segst) (i dpl : Z) (code : bool) : Prop :=
  exists x, gdt_entry gdt s i = Some x /\ seg_base x = 0 /\ seg_limit x = two32 - 1 /\ seg_dpl x = dpl /\ seg_present x = true /\ seg_code x = code.

Lemma tables_flat s : tables_set s -> flat s SEG_KCODE 0 true /\ flat s SEG_KDATA 0 false /\ flat s SEG_UCODE 3 true /\ flat s SEG_UDATA 3 false.
Proof.
  intros T. unfold flat, gdt_entry. rewrite (proj1 (ts_gdtr s T)), (proj2 (ts_gdtr s T)), Z.eqb_refl. cbn [andb]. change (Z.to_nat SEG_KCODE) with 1%nat. change (Z.to_nat SEG_KDATA) with 2%nat.
  change (Z.to_nat SEG_UCODE) with 3%nat. change (Z.to_nat SEG_UDATA) with 4%nat. rewrite (ts_kcode s T), (ts_kdata s T), (ts_ucode s T), (ts_udata s T).
  split_and!; eexists; (split; [reflexivity|]); vm_compute; auto.
Qed.

Lemma enter_ok s cpl int n : tables_set s -> 0 <= cpl -> 0 <= n < 256 ->
  enter gdt idt s cpl int n = if int && ((if n =? T_SYSCALL then 3 else 0) <? cpl) then None else Some (0, vectors n, n =? T_SYSCALL).
Proof.
  intros T Hc Hn. unfold enter, idt_entry. rewrite (proj1 (ts_idtr s T)), (proj2 (ts_idtr s T)), Z.eqb_refl, (ts_gates s T n Hn). cbn [andb]. rewrite (proj2 (Z.leb_le _ _)) by lia. cbn [option_map].
  destruct (tables_flat s T) as ((x & Ex & Xb & _ & Xd & Xp & Xc) & _).
  destruct (Z.eqb_spec n T_SYSCALL) as [->|_];
    [destruct (gate_bits 1 (vectors T_SYSCALL) DPL_USER (Hvec _) ltac:(auto)) as (P & Y & D & C & O)|destruct (gate_bits 0 (vectors n) 0 (Hvec _) ltac:(auto)) as (P & Y & D & C & O)];
    cbv zeta in *; rewrite P, Y, D, C, Ex, Xp, Xc, Xd, Xb; cbn [truth negb Z.eqb Pos.eqb orb andb STS_TG32 STS_IG32 DPL_USER];
    destruct (int && _); try reflexivity; rewrite (proj2 (Z.leb_le _ _) Hc), <- Z.add_assoc, O, Z.add_0_l; cbn [andb]; now rewrite (u32_small _ (Hvec _)).
Qed.

(** C15: User programs enter the kernel only through its gates.  After [seginit],
    [tvinit] and [idtinit], an interrupt or exception [n] continues at [vectors[n]] with
    the privileges of the kernel, from whatever level, and with interrupts
    disabled except for system calls.  Of the [int] instructions a user program may
    use only that for system calls, which goes to its vector; every other one is a
    protection fault, while the kernel could use them all.  Kernel and user
    segments span the whole address space, and only the latter are for users. *)
Theorem gates_protect s : length (sg_gdt s) = 6%nat -> length (sg_idt s) = 256%nat ->
  exists s', (seginit gdt ;;; tvinit vectors ;;; idtinit idt) s = Ok tt s' /\
    (forall n cpl, 0 <= n < 256 -> 0 <= cpl -> enter gdt idt s' cpl false n = Some (0, vectors n, n =? T_SYSCALL)) /\
    (forall n, 0 <= n < 256 -> enter gdt idt s' DPL_USER true n = if n =? T_SYSCALL then Some (0, vectors n, true) else None) /\
    (forall n, 0 <= n < 256 -> enter gdt idt s' 0 true n = Some (0, vectors n, n =? T_SYSCALL)) /\
    flat s' SEG_KCODE 0 true /\ flat s' SEG_KDATA 0 false /\ flat s' SEG_UCODE DPL_USER true /\ flat s' SEG_UDATA DPL_USER false.
Proof.
  intros Hg Hi. destruct (tables_ok s Hg Hi) as (s' & E & T & _). exists s'. split; [exact E|]. split; [intros n cpl Hn Hc; now rewrite (enter_ok s' cpl false n T Hc Hn)|].
  split; [|split; [|exact (tables_flat s' T)]]; intros n Hn; rewrite enter_ok by (auto; unfold DPL_USER; lia); now destruct (n =? T_SYSCALL).
Qed.
End Entry.

Lemma gates_protect_witness : exists s', (seginit 0x80112000 ;;; tvinit (fun n => 0x80105000 + 7 * n mod 256) ;;; idtinit 0x80113000)
    (mkSegs (replicate 6 (SEG 0 0 0 0)) (replicate 256 (SETGATE 0 0 0 0)) (0, 0, 0) (0, 0, 0) (mkLock 1 1)) = Ok tt s' /\
  enter 0x80112000 0x80113000 s' 3 true 64 = Some (0, 0x801050C0, true) /\ enter 0x80112000 0x80113000 s' 3 true 14 = None /\ enter 0x80112000 0x80113000 s' 3 false 14 = Some (0, 0x80105062, false).
Proof.
  destruct (gates_protect 0x80112000 0x80113000 (fun n => 0x80105000 + 7 * n mod 256) ltac:(intros n; unfold two32; Z.to_euclidean_division_equations; lia)
    (mkSegs (replicate 6 (SEG 0 0 0 0)) (replicate 256 (SETGATE 0 0 0 0)) (0, 0, 0) (0, 0, 0) (mkLock 1 1)) eq_refl eq_refl) as (s' & E & H1 & H2 & _).
  exists s'. split; [exact E|]. split; [exact (H2 64 ltac:(lia))|]. split; [exact (H2 14 ltac:(lia))|exact (H1 14 3 ltac:(lia) ltac:(lia))].
Defined.
