(* ===== verification/Asm.v ===== *)
(** Context switches and trap frames: [swtch.S] and [trapasm.S] of
    [src/xv6/xv6-public], with [struct context] of [proc.h] and [struct
    trapframe] of [x86.h].

    The two files are lists of the instructions of the processor that they
    use.  A routine runs until its [ret] or [iret].  [trap], which [alltraps]
    calls, is C code: it is an argument, of which the calling convention is
    assumed. *)

From stdpp Require Import gmap.
From S2P Require Import Prelude Mem Mmu Spinlock Proc.

Inductive reg := EAX | ECX | EDX | EBX | ESP | EBP | ESI | EDI.
Inductive sreg := CS | SS | DS | ES | FS | GS.

Record regs := mkRegs { r_eax : Z; r_ecx : Z; r_edx : Z; r_ebx : Z; r_esp : Z; r_ebp : Z; r_esi : Z; r_edi : Z }.
Record segs := mkSgs { s_cs : Z; s_ss : Z; s_ds : Z; s_es : Z; s_fs : Z; s_gs : Z }.

Record mach := mkMach { mc_mem : mem; mc_regs : regs; mc_segs : segs; mc_eip : Z; mc_flags : Z }.

Definition mc_reg (s : mach) (r : reg) : Z :=
  match r with
  | EAX => r_eax (mc_regs s) | ECX => r_ecx (mc_regs s) | EDX => r_edx (mc_regs s) | EBX => r_ebx (mc_regs s)
  | ESP => r_esp (mc_regs s) | EBP => r_ebp (mc_regs s) | ESI => r_esi (mc_regs s) | EDI => r_edi (mc_regs s)
  end.
Definition mc_seg (s : mach) (r : sreg) : Z :=
  match r with
  | CS => s_cs (mc_segs s) | SS => s_ss (mc_segs s) | DS => s_ds (mc_segs s) | ES => s_es (mc_segs s) | FS => s_fs (mc_segs s) | GS => s_gs (mc_segs s)
  end.

Definition set_reg (r : reg) (v : Z) (s : mach) : mach :=
  let 'mkMach m (mkRegs a c d b sp bp si di) g e f := s in
  let v := u32 v in
  mkMach m
    match r with
    | EAX => mkRegs v c d b sp bp si di | ECX => mkRegs a v d b sp bp si di | EDX => mkRegs a c v b sp bp si di | EBX => mkRegs a c d v sp bp si di
    | ESP => mkRegs a c d b v bp si di | EBP => mkRegs a c d b sp v si di | ESI => mkRegs a c d b sp bp v di | EDI => mkRegs a c d b sp bp si v
    end g e f.
Definition set_seg (r : sreg) (v : Z) (s : mach) : mach :=
  let 'mkMach m g (mkSgs cs ss ds es fs gs) e f := s in
  let v := u16 v in
  mkMach m g
    match r with
    | CS => mkSgs v ss ds es fs gs | SS => mkSgs cs v ds es fs gs | DS => mkSgs cs ss v es fs gs
    | ES => mkSgs cs ss ds v fs gs | FS => mkSgs cs ss ds es v gs | GS => mkSgs cs ss ds es fs v
    end e f.
Definition set_mem (m : mem) (s : mach) : mach := mkMach m (mc_regs s) (mc_segs s) (mc_eip s) (mc_flags s).
Definition set_eip (a : Z) (s : mach) : mach := mkMach (mc_mem s) (mc_regs s) (mc_segs s) (u32 a) (mc_flags s).
Definition set_flags (f : Z) (s : mach) : mach := mkMach (mc_mem s) (mc_regs s) (mc_segs s) (mc_eip s) (u32 f).

(** [pushl] and [popl] of a word. *)
Definition push (v : Z) (s : mach) : mach :=
  let sp := u32 (mc_reg s ESP - 4) in set_reg ESP sp (set_mem (store32 (mc_mem s) sp v) s).
Definition top (s : mach) : Z := load32 (mc_mem s) (mc_reg s ESP).
Definition drop_words (n : Z) (s : mach) : mach := set_reg ESP (mc_reg s ESP + 4 * n) s.
Definition pop_to (r : reg) (s : mach) : mach := let v := top s in set_reg r v (drop_words 1 s).

Inductive instr :=
| MovLoad (off : Z) (base dst : reg)    (* movl off(%base), %dst *)
| MovStore (src base : reg)             (* movl %src, (%base) *)
| MovReg (src dst : reg)                (* movl %src, %dst *)
| MovImm16 (v : Z) (dst : reg)          (* movw $v, %dst *)
| MovSeg (src : reg) (dst : sreg)       (* movw %src, %dst *)
| Push (r : reg)
| PushSeg (r : sreg)
| PushAll
| Pop (r : reg)
| PopSeg (r : sreg)
| PopAll
| AddSp (n : Z)                         (* addl $n, %esp *)
| Ret
| Iret.

(** [pushal] pushes the old value of [%esp], [popal] skips it. *)
Definition push_all (s : mach) : mach :=
  let r := mc_reg s in fold_left (fun s v => push v s) [r EAX; r ECX; r EDX; r EBX; r ESP; r EBP; r ESI; r EDI] s.
Definition pop_all (s : mach) : mach :=
  pop_to EAX (pop_to ECX (pop_to EDX (pop_to EBX (drop_words 1 (pop_to EBP (pop_to ESI (pop_to EDI s))))))).

(** [iret] also pops the stack when it returns to a lower privilege. *)
Definition iret (s : mach) : mach :=
  let at_ i := load32 (mc_mem s) (mc_reg s ESP + 4 * i) in
  let s1 := set_flags (at_ 2) (set_seg CS (at_ 1) (set_eip (at_ 0) s)) in
  if u16 (at_ 1) mod 4 =? mc_seg s CS mod 4 then drop_words 3 s1 else set_seg SS (at_ 4) (set_reg ESP (at_ 3) s1).

Definition istep (i : instr) (s : mach) : mach :=
  match i with
  | MovLoad off base dst => set_reg dst (load32 (mc_mem s) (u32 (mc_reg s base + off))) s
  | MovStore src base => set_mem (store32 (mc_mem s) (mc_reg s base) (mc_reg s src)) s
  | MovReg src dst => set_reg dst (mc_reg s src) s
  | MovImm16 v dst => set_reg dst (mc_reg s dst - u16 (mc_reg s dst) + u16 v) s
  | MovSeg src dst => set_seg dst (mc_reg s src) s
  | Push r => push (mc_reg s r) s
  | PushSeg r => push (mc_seg s r) s
  | PushAll => push_all s
  | Pop r => pop_to r s
  | PopSeg r => let v := top s in set_seg r v (drop_words 1 s)
  | PopAll => pop_all s
  | AddSp n => set_reg ESP (mc_reg s ESP + n) s
  | Ret => let v := top s in set_eip v (drop_words 1 s)
  | Iret => iret s
  end.

Definition run (l : list instr) (s : mach) : mach := fold_left (fun s i => istep i s) l s.

(** [swtch(struct context **old, struct context *new)] *)
Definition swtch : list instr :=
  [MovLoad 4 ESP EAX; MovLoad 8 ESP EDX;
   Push EBP; Push EBX; Push ESI; Push EDI;
   MovStore ESP EAX; MovReg EDX ESP;
   Pop EDI; Pop ESI; Pop EBX; Pop EBP; Ret].

(** [alltraps] up to the call of [trap]. *)
Definition alltraps : list instr :=
  [PushSeg DS; PushSeg ES; PushSeg FS; PushSeg GS; PushAll;
   MovImm16 (Z.shiftl SEG_KDATA 3) EAX; MovSeg EAX DS; MovSeg EAX ES;
   Push ESP].

Definition trapret : list instr := [PopAll; PopSeg GS; PopSeg FS; PopSeg ES; PopSeg DS; AddSp 8; Iret].

(** [call trap], which returns with the stack as it was, and what follows. *)
Definition handle (trap : mach -> mach) (s : mach) : mach := run trapret (istep (AddSp 4) (trap (run alltraps s))).

(** ** Properties *)

(** [n] words from [p] on. *)
Fixpoint words (m : mem) (p : Z) (n : nat) : list Z := match n with O => [] | S n => load32 m p :: words m (p + 4) n end.

Lemma words_ext m m' n : forall p, (forall x, p <= x < p + 4 * Z.of_nat n -> m' x = m x) -> words m' p n = words m p n.
Proof.
  induction n as [|n IH]; intros p E; cbn [words]; [reflexivity|]. f_equal; [apply load32_ext; intros; apply E; lia|]. apply IH. intros x Hx. apply E. lia.
Qed.

(** A machine that computes: all registers hold words, all cells bytes. *)
Record mach_ok (s : mach) : Prop := {
  mo_mem : mem_ok (mc_mem s);
  mo_reg : forall r, 0 <= mc_reg s r < two32;
  mo_seg : forall r, 0 <= mc_seg s r < 65536
}.

(** Instructions on a machine given by its parts. *)
Section Steps.
Variables (m : mem) (a c d b sp bp si di : Z) (g : segs) (e f : Z).
Abbreviation st := (mkMach m (mkRegs a c d b sp bp si di) g e f).

Lemma push_eq v : 4 <= sp < two32 -> push v st = mkMach (store32 m (sp - 4) v) (mkRegs a c d b (sp - 4) bp si di) g e f.
Proof. intros H. unfold push, set_reg, set_mem. cbn [mc_reg mc_regs mc_mem mc_segs mc_eip mc_flags r_esp]. rewrite !(u32_small (sp - 4)) by lia. reflexivity. Qed.

Lemma drop_eq n : 0 <= sp -> 0 <= n -> sp + 4 * n < two32 -> drop_words n st = mkMach m (mkRegs a c d b (sp + 4 * n) bp si di) g e f.
Proof. intros H Hn H2. unfold drop_words, set_reg. cbn [mc_reg mc_regs r_esp]. rewrite u32_small by lia. reflexivity. Qed.

Lemma pop_eq r : 0 <= sp < two32 - 4 -> pop_to r st = set_reg r (load32 m sp) (mkMach m (mkRegs a c d b (sp + 4) bp si di) g e f).
Proof. intros H. unfold pop_to, top. now rewrite (drop_eq 1) by lia. Qed.
End Steps.

(** A run is unfolded by its equations, not by conversion. *)
Lemma run_cons i l s : run (i :: l) s = run l (istep i s).
Proof. reflexivity. Qed.
Lemma run_nil s : run [] s = s.
Proof. reflexivity. Qed.

#[local] Strategy 1000 [run istep].

Lemma load32_small m a : mem_ok m -> u32 (load32 m a) = load32 m a.
Proof. intros H. apply u32_small. now apply load32_bound. Qed.

(** One instruction of a run. *)
Ltac machine :=
  cbn [istep top iret set_reg set_seg set_mem set_eip set_flags mc_mem mc_reg mc_regs mc_seg mc_segs mc_eip mc_flags
       r_eax r_ecx r_edx r_ebx r_esp r_ebp r_esi r_edi s_cs s_ss s_ds s_es s_fs s_gs].
Ltac mstep := rewrite run_cons; machine; rewrite ?push_eq, ?pop_eq, ?drop_eq by lia; machine.

Lemma elem_of_four {A} (x a b c d : A) : x ∈ [a; b; c; d] -> x = a \/ x = b \/ x = c \/ x = d.
Proof. rewrite !elem_of_cons. intros H. destruct H as [H|[H|[H|[H|H]]]]; auto. now apply not_elem_of_nil in H. Qed.

(** *** swtch *)

(** A call of [swtch]: the arguments are above the return address. *)
Record swtch_call (s : mach) (sp old new : Z) : Prop := {
  sw_ok : mach_ok s;
  sw_sp : mc_reg s ESP = sp /\ 16 <= sp < two32 - 12;
  sw_old : load32 (mc_mem s) (sp + 4) = old /\ (old + 4 <= sp - 16 \/ sp + 4 <= old);
  sw_new : load32 (mc_mem s) (sp + 8) = new /\ new < two32 - 20
}.

(** [struct context] as [swtch] leaves it for the caller. *)
Definition context_of (s : mach) : list Z := [mc_reg s EDI; mc_reg s ESI; mc_reg s EBX; mc_reg s EBP; top s].

Lemma swtch_ok s sp old new s' : swtch_call s sp old new -> run swtch s = s' ->
  words (mc_mem s') (sp - 16) 5 = context_of s /\ load32 (mc_mem s') old = sp - 16 /\
  (forall x, x < sp - 16 \/ sp <= x -> x < old \/ old + 4 <= x -> mc_mem s' x = mc_mem s x) /\
  [mc_reg s' EDI; mc_reg s' ESI; mc_reg s' EBX; mc_reg s' EBP; mc_eip s'] = words (mc_mem s') new 5 /\ mc_reg s' ESP = new + 20 /\ mc_segs s' = mc_segs s /\ mach_ok s'.
Proof.
  intros [[Hm Hr Hg] [Hsp Hb] [Ho Hd] [Hn Hnb]] <-. destruct s as [m [a c d b esp bp si di] g e f]. cbn [mc_reg mc_mem mc_regs r_esp] in *. subst esp. unfold context_of, top. cbn [mc_reg mc_mem mc_regs r_esp r_edi r_esi r_ebx r_ebp].
  pose proof (load32_bound m (sp + 4) Hm) as Bo. pose proof (load32_bound m (sp + 8) Hm) as Bn. pose proof (load32_bound m sp Hm) as Br. rewrite Ho in Bo. rewrite Hn in Bn.
  pose proof (Hr EDI) as R1. pose proof (Hr ESI) as R2. pose proof (Hr EBX) as R3. pose proof (Hr EBP) as R4. cbn in R1, R2, R3, R4.
  assert (E : exists m2, run swtch (mkMach m (mkRegs a c d b sp bp si di) g e f) =
    mkMach m2 (mkRegs old c new (load32 m2 (new + 8)) (new + 20) (load32 m2 (new + 12)) (load32 m2 (new + 4)) (load32 m2 new)) g (load32 m2 (new + 16)) f /\
    m2 = store32 (store32 (store32 (store32 (store32 m (sp - 4) bp) (sp - 4 - 4) b) (sp - 4 - 4 - 4) si) (sp - 4 - 4 - 4 - 4) di) old (sp - 4 - 4 - 4 - 4)).
  { eexists. split; [|reflexivity]. unfold swtch. mstep. rewrite (u32_small (sp + 4)) by lia. rewrite Ho. mstep. rewrite (u32_small (sp + 8)) by lia. rewrite Hn, (u32_small old), (u32_small new) by lia.
    do 4 mstep. mstep. set (m2 := store32 (store32 _ _ di) old _). assert (M2 : mem_ok m2) by (subst m2; auto 10 with words).
    mstep. rewrite (u32_small new) by lia. do 5 mstep. rewrite run_nil. unfold set_eip, top. machine. rewrite !load32_small by exact M2. rewrite <- !Z.add_assoc. reflexivity. }
  destruct E as (m2 & -> & E2). cbv zeta. machine.
  assert (L : forall p, p + 4 <= old \/ old + 4 <= p -> load32 m2 p = load32 (store32 (store32 (store32 (store32 m (sp - 4) bp) (sp - 4 - 4) b) (sp - 4 - 4 - 4) si) (sp - 4 - 4 - 4 - 4) di) p)
    by (intros p Hp; rewrite E2; apply load32_store32_ne; lia).
  split; [|split; [|split; [|split; [|split; [|split]]]]]; auto.
  - cbn [words]. replace (sp - 16) with (sp - 4 - 4 - 4 - 4) in * by lia. rewrite !L by lia.
    replace (sp - 4 - 4 - 4 - 4 + 4) with (sp - 4 - 4 - 4) by lia. replace (sp - 4 - 4 - 4 + 4) with (sp - 4 - 4) by lia.
    replace (sp - 4 - 4 + 4) with (sp - 4) by lia. replace (sp - 4 + 4) with sp by lia.
    repeat (rewrite load32_store32_eq || rewrite load32_store32_ne by lia). now rewrite !u32_small.
  - rewrite E2, load32_store32_eq, u32_small by lia. lia.
  - intros x Hx1 Hx2. rewrite E2. rewrite !store32_frame by lia. reflexivity.
  - cbn [words]. rewrite <- !Z.add_assoc. reflexivity.
  - assert (M2 : mem_ok m2) by (rewrite E2; auto 10 with words). split; [exact M2| |exact Hg]. pose proof (Hr ECX). intros []; machine; auto using load32_bound; lia.
Qed.

(** C16: A context switch is invisible to the code that makes it.  [swtch] saves the
    registers that the calling convention protects as a [struct context] below the
    return address, and its address in [*old].  Whoever later switches to that
    context, from whatever stack, while it is still in memory, makes the first call return:
    to its return address, with the same protected registers and the stack
    pointer behind the return address; the bytes that neither call saves are unchanged. *)
Theorem swtch_roundtrip s1 sp1 old1 new1 s2 sp2 old2 s :
  swtch_call s1 sp1 old1 new1 -> swtch_call s2 sp2 old2 (load32 (mc_mem (run swtch s1)) old1) ->
  words (mc_mem s2) (sp1 - 16) 5 = words (mc_mem (run swtch s1)) (sp1 - 16) 5 ->
  sp2 <= sp1 - 16 \/ sp1 + 4 <= sp2 - 16 -> old2 + 4 <= sp1 - 16 \/ sp1 + 4 <= old2 -> run swtch s2 = s ->
  (forall r, r ∈ [EDI; ESI; EBX; EBP] -> mc_reg s r = mc_reg s1 r) /\ mc_reg s ESP = mc_reg s1 ESP + 4 /\ mc_eip s = top s1 /\
  (forall x, x < sp2 - 16 \/ sp2 <= x -> x < old2 \/ old2 + 4 <= x -> mc_mem s x = mc_mem s2 x).
Proof.
  intros C1 C2 W Hsp Hold E. remember (run swtch s1) as t eqn:Et. destruct (swtch_ok _ _ _ _ _ C1 (eq_sym Et)) as (K1 & O1 & _). clear Et. rewrite O1 in C2.
  destruct (swtch_ok _ _ _ _ _ C2 E) as (_ & _ & F2 & R2 & S2 & _).
  rewrite K1 in W. rewrite (words_ext (mc_mem s2)) in R2 by (intros x Hx; apply F2; lia). rewrite W in R2. unfold context_of in R2. injection R2 as E1 E2 E3 E4 E5.
  split; [|split; [rewrite S2, (proj1 (sw_sp _ _ _ _ C1)); lia|split; [exact E5|exact F2]]].
  intros r Hr. apply elem_of_four in Hr as [->|[->|[->| ->]]]; auto.
Qed.

(** *** Trap frames *)

(** The pushes of a list of words, the last one at the top. *)
Definition push_words (m : mem) (p : Z) (l : list Z) : mem := foldr (fun v k m p => k (store32 m (p - 4) v) (p - 4)) (fun m _ => m) l m p.

Lemma push_words_ok l : forall m p, Forall (fun v => 0 <= v < two32) l -> forall n,
  words (push_words m p l) (p - 4 * Z.of_nat (length l)) (length l + n) = rev l ++ words m p n.
Proof.
  induction l as [|v l IH]; intros m p F n; cbn [push_words foldr length rev app Nat.add]; [now replace (p - 4 * Z.of_nat 0) with p by lia|].
  inversion F; subst. change (foldr _ _ l) with (fun m p => push_words m p l). cbv beta. replace (p - 4 * Z.of_nat (S (length l))) with (p - 4 - 4 * Z.of_nat (length l)) by lia.
  rewrite <- Nat.add_succ_r, IH by assumption. cbn [words]. rewrite load32_store32_eq, u32_small by assumption. rewrite <- app_assoc. cbn [app]. do 2 f_equal.
  replace (p - 4 + 4) with p by lia. apply words_ext. intros x Hx. apply store32_frame. lia.
Qed.

Lemma push_words_mem l : forall m p, mem_ok m -> mem_ok (push_words m p l).
Proof. induction l as [|v l IH]; intros m p Hm; [exact Hm|]. cbn [push_words foldr]. apply IH. auto with words. Qed.

Lemma push_words_frame l : forall m p x, x < p - 4 * Z.of_nat (length l) \/ p <= x -> push_words m p l x = m x.
Proof.
  induction l as [|v l IH]; intros m p x Hx; [reflexivity|]. cbn [push_words foldr length] in *. change (foldr _ _ l) with (fun m p => push_words m p l). cbv beta.
  rewrite IH by lia. apply store32_frame. lia.
Qed.

(** The registers as [alltraps] pushes them. *)
Definition frame_regs (s : mach) : list Z :=
  [mc_reg s EDI; mc_reg s ESI; mc_reg s EBP; mc_reg s ESP - 16; mc_reg s EBX; mc_reg s EDX; mc_reg s ECX; mc_reg s EAX; mc_seg s GS; mc_seg s FS; mc_seg s ES; mc_seg s DS].

(** After [alltraps]: the frame is below the words that the processor and the vector
    have pushed, its address is the argument of [trap], and the data segments are those
    of the kernel. *)
Lemma alltraps_ok s sp s' : mach_ok s -> mc_reg s ESP = sp -> 52 <= sp < two32 -> run alltraps s = s' ->
  (forall n, words (mc_mem s') (sp - 52) (13 + n) = (sp - 48) :: frame_regs s ++ words (mc_mem s) sp n) /\
  (forall x, x < sp - 52 \/ sp <= x -> mc_mem s' x = mc_mem s x) /\ mc_reg s' ESP = sp - 52 /\
  mc_seg s' DS = Z.shiftl SEG_KDATA 3 /\ mc_seg s' ES = Z.shiftl SEG_KDATA 3 /\ (forall r, r ∈ [CS; SS; FS; GS] -> mc_seg s' r = mc_seg s r) /\
  (forall r, r ∈ [EBX; EBP; ESI; EDI] -> mc_reg s' r = mc_reg s r) /\ mem_ok (mc_mem s').
Proof.
  intros [Hm Hr Hg] Hsp Hb <-. pose proof (Hr EDI) as R1. pose proof (Hr ESI) as R2. pose proof (Hr EBX) as R3. pose proof (Hr EBP) as R4. pose proof (Hr EAX) as R5. pose proof (Hr ECX) as R6. pose proof (Hr EDX) as R7.
  pose proof (Hg DS) as G1. pose proof (Hg ES) as G2. pose proof (Hg FS) as G3. pose proof (Hg GS) as G4.
  destruct s as [m [a c d b esp bp si di] [cs ss ds es fs gs] e f]. cbn [mc_reg mc_regs mc_seg mc_segs mc_mem r_esp r_eax r_ecx r_edx r_ebx r_ebp r_esi r_edi s_ds s_es s_fs s_gs] in *. subst esp.
  assert (E : exists a', run alltraps (mkMach m (mkRegs a c d b sp bp si di) (mkSgs cs ss ds es fs gs) e f) =
    mkMach (push_words m sp [ds; es; fs; gs; a; c; d; b; sp - 16; bp; si; di; sp - 48]) (mkRegs a' c d b (sp - 52) bp si di)
      (mkSgs cs ss (Z.shiftl SEG_KDATA 3) (Z.shiftl SEG_KDATA 3) fs gs) e f).
  { eexists. unfold alltraps. do 4 mstep. rewrite run_cons. cbn [istep]. unfold push_all. cbn [fold_left]. machine. rewrite !push_eq by lia. do 4 mstep. rewrite run_nil.
    change (Z.shiftl SEG_KDATA 3) with 16. assert (u16 (u32 (a - u16 a + u16 16)) = 16) as -> by word_lia.
    replace (sp - 52) with (sp - 4 - 4 - 4 - 4 - 4 - 4 - 4 - 4 - 4 - 4 - 4 - 4 - 4) by lia. replace (sp - 48) with (sp - 4 - 4 - 4 - 4 - 4 - 4 - 4 - 4 - 4 - 4 - 4 - 4) by lia.
    replace (sp - 16) with (sp - 4 - 4 - 4 - 4) by lia. reflexivity. }
  destruct E as (a' & ->). set (l := [ds; es; fs; gs; a; c; d; b; sp - 16; bp; si; di; sp - 48]). cbv zeta. machine.
  assert (F : Forall (fun v => 0 <= v < two32) l) by (subst l; unfold two32 in *; repeat (apply Forall_cons; split; [lia|]); apply Forall_nil_2).
  split; [|split; [|split; [|split; [|split; [|split; [|split]]]]]]; auto.
  - intros n. exact (push_words_ok l m sp F n).
  - intros x Hx. apply push_words_frame. change (length l) with 13%nat. lia.
  - intros r Hi. apply elem_of_four in Hi as [->|[->|[->| ->]]]; reflexivity.
  - intros r Hi. apply elem_of_four in Hi as [->|[->|[->| ->]]]; reflexivity.
  - now apply push_words_mem.
Qed.

(** What [trapret] takes from a trap frame at [tf]. *)
Record returned (m : mem) (tf : Z) (s : mach) : Prop := {
  rt_gp : [mc_reg s EDI; mc_reg s ESI; mc_reg s EBP] = words m tf 3 /\ [mc_reg s EBX; mc_reg s EDX; mc_reg s ECX] = words m (tf + 16) 3;
  rt_eax : mc_reg s EAX = load32 m (tf + TF_eax);
  rt_seg : [mc_seg s GS; mc_seg s FS; mc_seg s ES; mc_seg s DS] = map u16 (words m (tf + 32) 4);
  rt_eip : mc_eip s = load32 m (tf + TF_eip) /\ mc_seg s CS = u16 (load32 m (tf + TF_cs)) /\ mc_flags s = load32 m (tf + TF_eflags);
  rt_stack : mc_reg s ESP = load32 m (tf + TF_esp) /\ mc_seg s SS = u16 (load32 m (tf + TF_ss));
  rt_mem : mc_mem s = m
}.

(** [trapret] from a frame for another privilege level. *)
Lemma trapret_ok s tf : mach_ok s -> mc_reg s ESP = tf -> 0 <= tf < two32 - TF_size -> u16 (load32 (mc_mem s) (tf + TF_cs)) mod 4 <> mc_seg s CS mod 4 ->
  returned (mc_mem s) tf (run trapret s).
Proof.
  intros [Hm Hr Hg] Hsp Hb Hcs. unfold TF_size in Hb. destruct s as [m [a c d b esp bp si di] [cs ss ds es fs gs] e f]. cbn [mc_reg mc_regs mc_seg mc_segs mc_mem r_esp s_cs] in *. subst esp.
  unfold trapret. rewrite run_cons. cbn [istep]. unfold pop_all. do 3 (rewrite pop_eq by lia; machine). rewrite drop_eq by lia. do 4 (rewrite pop_eq by lia; machine).
  clear Hr Hg. do 4 mstep. mstep. rewrite (u32_small (_ + 8)) by lia. rewrite run_cons, run_nil. cbn [istep]. unfold top, iret. machine. rewrite !load32_small by exact Hm. rewrite <- !Z.add_assoc.
  destruct (_ =? _) eqn:E; [exfalso; apply Hcs; apply Z.eqb_eq in E; exact E|].
  constructor; machine; cbn [words map]; rewrite <- ?Z.add_assoc; repeat split; reflexivity.
Qed.

(** The calling convention: [trap] returns with the stack pointer and the code segment
    as they were at the call, and the machine works. *)
Definition cdecl (trap : mach -> mach) (s : mach) : Prop :=
  mach_ok (trap s) /\ mc_reg (trap s) ESP = mc_reg s ESP /\ mc_seg (trap s) CS = mc_seg s CS.

Lemma words_nth m n : forall p i, (i < n)%nat -> nth i (words m p n) 0 = load32 m (p + 4 * Z.of_nat i).
Proof.
  induction n as [|n IH]; intros p i Hi; [lia|]. destruct i as [|i]; cbn [words nth]; [f_equal; lia|]. rewrite IH by lia. f_equal. lia.
Qed.

(** [addl $4, %esp] drops the argument of [trap]. *)
Lemma add_sp_ok s q : mach_ok s -> mc_reg s ESP = q -> 0 <= q < two32 - 4 -> let s' := istep (AddSp 4) s in
  mach_ok s' /\ mc_reg s' ESP = q + 4 /\ mc_mem s' = mc_mem s /\ mc_segs s' = mc_segs s.
Proof.
  intros [Hm Hr Hg] Hq Hb. destruct s as [m [a c d b sp bp si di] g e f]. cbn [mc_reg mc_regs r_esp] in Hq. subst sp. cbv zeta. machine. rewrite (u32_small (q + 4)) by lia.
  split; [|auto]. split; [exact Hm| |exact Hg]. intros r. specialize (Hr r). destruct r; machine; cbn [mc_reg mc_regs r_eax r_ecx r_edx r_ebx r_esp r_ebp r_esi r_edi] in Hr; lia.
Qed.

(** The [i]-th word of a list, by a fact [F] that needs an inequality. *)
Ltac pick_word R i F := exact (eq_trans (f_equal (fun l => nth i l 0) R) (F ltac:(lia))).

(** What [trapret] loads from a frame that holds the registers of [s] above the words at [sp]. *)
Lemma returned_frame m tf s sp s' : mach_ok s -> words m tf 19 = frame_regs s ++ words (mc_mem s) sp 7 -> returned m tf s' ->
  (forall r, r ∈ [EAX; ECX; EDX; EBX; EBP; ESI; EDI] -> mc_reg s' r = mc_reg s r) /\
  (forall r, r ∈ [DS; ES; FS; GS] -> mc_seg s' r = mc_seg s r) /\
  [mc_eip s'; mc_seg s' CS; mc_flags s'; mc_reg s' ESP; mc_seg s' SS] =
    (let w i := load32 (mc_mem s) (sp + i) in [w 8; u16 (w 12); w 16; w 20; u16 (w 24)]).
Proof.
  intros [_ _ Hg] Hw [[Ra Rb] Rc Rd [Re [Rf Rg]] [Rh Ri] _]. unfold TF_eax, TF_eip, TF_cs, TF_eflags, TF_esp, TF_ss in *.
  assert (F : forall i, (i < 19)%nat -> load32 m (tf + 4 * Z.of_nat i) = nth i (frame_regs s ++ words (mc_mem s) sp 7) 0) by (intros i Hi; now rewrite <- Hw, words_nth).
  assert (G : forall i, (i < 7)%nat -> load32 m (tf + 4 * Z.of_nat (12 + i)) = load32 (mc_mem s) (sp + 4 * Z.of_nat i)).
  { intros i Hi. rewrite F by lia. rewrite <- words_nth with (n := 7%nat) by exact Hi. reflexivity. }
  cbn [words map] in Ra, Rb, Rd. repeat rewrite <- Z.add_assoc in Ra. repeat rewrite <- Z.add_assoc in Rb. repeat rewrite <- Z.add_assoc in Rd.
  split; [|split].
  - intros r Hr. rewrite !elem_of_cons in Hr. destruct Hr as [->|[->|[->|[->|[->|[->|[->|Hr]]]]]]]; [| | | | | | |now apply not_elem_of_nil in Hr].
    + rewrite Rc. exact (F 7%nat ltac:(lia)).
    + pick_word Rb 2%nat (F 6%nat).
    + pick_word Rb 1%nat (F 5%nat).
    + pick_word Rb 0%nat (F 4%nat).
    + pick_word Ra 2%nat (F 2%nat).
    + pick_word Ra 1%nat (F 1%nat).
    + rewrite <- (Z.add_0_r tf) in Ra. pick_word Ra 0%nat (F 0%nat).
  - intros r Hr. assert (E16 : u16 (mc_seg s r) = mc_seg s r) by (apply Z.mod_small, Hg). rewrite <- E16. clear E16. apply elem_of_four in Hr as [->|[->|[->| ->]]].
    + pick_word Rd 3%nat (fun H => f_equal u16 (F 11%nat H)).
    + pick_word Rd 2%nat (fun H => f_equal u16 (F 10%nat H)).
    + pick_word Rd 1%nat (fun H => f_equal u16 (F 9%nat H)).
    + pick_word Rd 0%nat (fun H => f_equal u16 (F 8%nat H)).
  - cbv zeta. rewrite Re, Rf, Rg, Rh, Ri.
    rewrite (G 2%nat ltac:(lia) : load32 m (tf + 56) = load32 (mc_mem s) (sp + 8)), (G 3%nat ltac:(lia) : load32 m (tf + 60) = load32 (mc_mem s) (sp + 12)),
      (G 4%nat ltac:(lia) : load32 m (tf + 64) = load32 (mc_mem s) (sp + 16)), (G 5%nat ltac:(lia) : load32 m (tf + 68) = load32 (mc_mem s) (sp + 20)),
      (G 6%nat ltac:(lia) : load32 m (tf + 72) = load32 (mc_mem s) (sp + 24)). reflexivity.
Qed.

(** C17: A trap does not disturb the program that it interrupts.  [alltraps] builds on top
    of what the processor pushes a [struct trapframe] with the registers of the
    program, and gives its address to [trap].  When [trap] returns, [trapret] loads
    every register from the frame: if [trap] has left the frame alone, the program
    goes on with all its registers as they were, at the instruction, with the flags and the
    stack that the processor has saved; a change to a field, like the result of
    a system call in [eax], arrives in that register and in no other. *)
Theorem trap_frame_restores trap s sp s1 s' : mach_ok s -> mc_reg s ESP = sp -> 52 <= sp < two32 - 28 -> run alltraps s = s1 -> cdecl trap s1 -> handle trap s = s' ->
  let tf := sp - 48 in let m := mc_mem (trap s1) in
  load32 (mc_mem s1) (sp - 52) = tf /\ words (mc_mem s1) tf 19 = frame_regs s ++ words (mc_mem s) sp 7 /\
  (u16 (load32 m (tf + TF_cs)) mod 4 <> mc_seg s CS mod 4 -> returned m tf s' /\
     (words m tf 19 = words (mc_mem s1) tf 19 ->
        (forall r, r ∈ [EAX; ECX; EDX; EBX; EBP; ESI; EDI] -> mc_reg s' r = mc_reg s r) /\
        (forall r, r ∈ [DS; ES; FS; GS] -> mc_seg s' r = mc_seg s r) /\
        [mc_eip s'; mc_seg s' CS; mc_flags s'; mc_reg s' ESP; mc_seg s' SS] =
          (let w i := load32 (mc_mem s) (sp + i) in [w 8; u16 (w 12); w 16; w 20; u16 (w 24)]))).
Proof.
  intros Ho Hsp Hb E1 (Ko & Ks & Kc) E2 tf m. subst tf m. unfold handle in E2. rewrite E1 in E2. destruct (alltraps_ok s sp s1 Ho Hsp ltac:(lia) E1) as (W & _ & S1 & _ & _ & G1 & _). clear E1.
  specialize (W 7%nat). change (13 + 7)%nat with (S 19) in W. assert (L1 : load32 (mc_mem s1) (sp - 52) = sp - 48) by exact (f_equal (fun l => nth 0 l 0) W).
  assert (L2 : words (mc_mem s1) (sp - 48) 19 = frame_regs s ++ words (mc_mem s) sp 7).
  { replace (sp - 48) with (sp - 52 + 4) by lia. exact (f_equal (drop 1) W). }
  split; [exact L1|]. split; [exact L2|]. intros Hcs. rewrite S1 in Ks. destruct (add_sp_ok (trap s1) _ Ko Ks ltac:(lia)) as (O3 & S3 & M3 & T3).
  replace (sp - 52 + 4) with (sp - 48) in S3 by lia. remember (istep (AddSp 4) (trap s1)) as s3 eqn:E3. clear E3.
  assert (R : returned (mc_mem (trap s1)) (sp - 48) s').
  { rewrite <- E2, <- M3. apply trapret_ok; [exact O3|exact S3|unfold TF_size; lia|]. rewrite M3. unfold mc_seg at 1. rewrite T3. change (s_cs (mc_segs (trap s1))) with (mc_seg (trap s1) CS).
    rewrite Kc, (G1 CS) by left. exact Hcs. }
  split; [exact R|]. intros Hw. rewrite L2 in Hw. exact (returned_frame _ _ _ _ _ Ho Hw R).
Qed.

(** ** Runs *)

(** A process that calls [swtch(2000, 3000)], and the scheduler that switches back to it. *)
Definition sample_caller : mach :=
  mkMach (store32 (store32 (store32 (fun _ => 0) 1000 0x80104000) 1004 2000) 1008 3000) (mkRegs 1 2 3 7 1000 8 9 10) (mkSgs 8 16 16 16 0 0) 0x80105000 0x200.
Definition sample_scheduler : mach :=
  mkMach (store32 (store32 (mc_mem (run swtch sample_caller)) 5004 2004) 5008 984) (mkRegs 0 0 0 0 5000 0 0 0) (mkSgs 8 16 16 16 0 0) 0x80106000 0.

Lemma sample_caller_ok : swtch_call sample_caller 1000 2000 3000.
Proof.
  split; [|split; [reflexivity|unfold two32; lia]|split; [reflexivity|lia]|split; [reflexivity|unfold two32; lia]].
  split; [|intros []; vm_compute; split; discriminate || reflexivity|intros []; vm_compute; split; discriminate || reflexivity].
  unfold sample_caller. cbn [mc_mem]. repeat apply mem_ok_store32. intros a. lia.
Qed.

Lemma sample_scheduler_ok : swtch_call sample_scheduler 5000 2004 (load32 (mc_mem (run swtch sample_caller)) 2000).
Proof.
  destruct (swtch_ok _ _ _ _ _ sample_caller_ok eq_refl) as (_ & _ & _ & _ & _ & _ & [Hm _ _]).
  split; [|split; [reflexivity|unfold two32; lia]|split; [vm_compute; reflexivity|lia]|split; [vm_compute; reflexivity|vm_compute; reflexivity]].
  split; [|intros []; vm_compute; split; discriminate || reflexivity|intros []; vm_compute; split; discriminate || reflexivity].
  unfold sample_scheduler. cbn [mc_mem]. apply mem_ok_store32, mem_ok_store32, Hm.
Qed.

Lemma swtch_roundtrip_witness : exists s, run swtch sample_scheduler = s /\ mc_reg s EBX = 7 /\ mc_reg s ESP = 1004 /\ mc_eip s = 0x80104000.
Proof.
  destruct (swtch_roundtrip sample_caller 1000 2000 3000 sample_scheduler 5000 2004 (run swtch sample_scheduler) sample_caller_ok sample_scheduler_ok) as (R & S & E & _).
  - vm_compute. reflexivity.
  - right. lia.
  - right. lia.
  - reflexivity.
  - eexists. split; [reflexivity|]. rewrite (R EBX) by (apply list_elem_of_In; vm_compute; tauto). rewrite S, E. repeat split; vm_compute; reflexivity.
Defined.

(** A user program at 0x2000 with stack 0x3000 that is interrupted by vector 32. *)
Definition sample_user : mach :=
  mkMach (fold_right (fun p m => store32 m (fst p) (snd p)) (fun _ => 0) [(1000, 32); (1004, 0); (1008, 0x2000); (1012, 27); (1016, 0x202); (1020, 0x3000); (1024, 35)])
    (mkRegs 1 2 3 4 1000 6 7 8) (mkSgs 8 16 35 35 0 0) 0x80107000 0.

Lemma sample_user_ok : mach_ok sample_user.
Proof.
  split; [|intros []; vm_compute; split; discriminate || reflexivity|intros []; vm_compute; split; discriminate || reflexivity].
  unfold sample_user. cbn [mc_mem fold_right fst snd]. repeat apply mem_ok_store32. intros a. lia.
Qed.

Lemma sample_trap_ok : cdecl (fun s => s) (run alltraps sample_user).
Proof.
  destruct (alltraps_ok sample_user 1000 (run alltraps sample_user) sample_user_ok eq_refl ltac:(unfold two32; lia) eq_refl) as (_ & _ & _ & _ & _ & _ & _ & Hm).
  split; [|split; reflexivity]. split; [exact Hm|intros []; vm_compute; split; discriminate || reflexivity|intros []; vm_compute; split; discriminate || reflexivity].
Qed.

Lemma trap_frame_restores_witness : exists s', handle (fun s => s) sample_user = s' /\ mc_reg s' EAX = 1 /\ mc_reg s' EDI = 8 /\ mc_seg s' DS = 35 /\
  [mc_eip s'; mc_seg s' CS; mc_flags s'; mc_reg s' ESP; mc_seg s' SS] = [0x2000; 27; 0x202; 0x3000; 35].
Proof.
  destruct (trap_frame_restores (fun s => s) sample_user 1000 (run alltraps sample_user) (handle (fun s => s) sample_user)
    sample_user_ok eq_refl ltac:(unfold two32; lia) eq_refl sample_trap_ok eq_refl) as (_ & _ & H).
  destruct H as [_ H]; [vm_compute; discriminate|]. destruct H as (R & G & E); [reflexivity|].
  eexists. split; [reflexivity|]. rewrite (R EAX), (R EDI), (G DS) by (apply list_elem_of_In; vm_compute; tauto). rewrite E. repeat split; vm_compute; reflexivity.
Defined.
